(* ===== verification/_CoqProject ===== *)
-Q . S2P
Prelude.v
Text.v
Effects.v
Json.v
External.v
Sample.v
Digest.v
Identity.v
ReportBinding.v
Channel.v
Dstack.v
Receipt.v
Deadlines.v
ReceiptStore.v
RelyingParty.v
Session.v
SessionStore.v
SessionLog.v
Errors.v
Upstream.v
Images.v
Audio.v
Claims.v
E2eeCipher.v
Provider.v
Attestation.v
Admission.v
Fingerprint.v
Gate.v
Leases.v
E2ee.v
E2eeFields.v
Retention.v
SseProtocol.v
UpstreamErrors.v
Sanitize.v
Forward.v
Serving.v
Failover.v
Walking.v
SseFraming.v
Streaming.v
ToolMap.v
Conversion.v
EventStream.v
ChatStream.v
MessagesStream.v
ResponsesStream.v
SseTransform.v
Agreement.v
Pricing.v
Metering.v
Metered.v
Appraisal.v
AciVerifier.v
MessagesRequest.v
ResponsesRequest.v
Shaping.v
Reasoning.v
Candidates.v
Features.v
Completion.v
Router.v
RouteTable.v
