(* ===== verification/Prelude.v ===== *)
(** * Private AI Gateway: a verification development

    The gateway serves LLM requests from a trusted execution environment and gives
    its clients evidence they can check: an attestation report that binds a keyset
    to the hardware quote, a signed receipt per response, and an attested session
    record per verified upstream.  This development models the code that makes,
    keeps and checks that evidence, the request path from admission to the signed
    receipt, and the streaming path that delivers the bytes a receipt covers.

    ** Parts of the program and how they meet

    A report carries a sealed keyset; its digest and the client's nonce form a
    statement whose hash is the quote's report data.  A request may arrive encrypted
    field by field; it is opened, and answered from an upstream.  Before a prompt
    leaves, the verifier's event passes a gate, its channel bindings are sealed into
    attested sessions in the session store, and the request is admitted under those
    sessions; a mismatch on the wire refreshes the event and admits again.  With
    several candidate routes a failover walk repeats this per candidate.  The receipt
    builder records the request, the session and the response, and is finalized with
    a key of the keyset; receipt and session are retained to one deadline.  Streams
    are watched by a framing observer, completed or failed visibly by the finalizer,
    and hashed as they leave.  Between the upstream and that path an answer is
    brought into the client's format, whole or event by event, and sanitized to the
    public schema of the endpoint.  Around all this the completion handler normalizes
    the request, describes it to the control plane, shapes one body per route the
    control plane names, and reports what the request used.  The client parses what it is served and runs the
    check engine, whose verdict rests on the same digests and signatures.

    ** Files, with the sources each translates

    - [Prelude]: Rust's [Result] as a monad, machine integers, byte strings and the
      [str] methods in use, automation ([bind_inv], the hint databases [results],
      [texts] and [invariants]).  [Text]: further text functions.
    - [Effects]: programs that await other parties, their traces, and weakest
      preconditions under a protocol.
    - [Json]: [serde_json::Value] and its accessors, member order, well-formedness,
      and [same_doc], equality up to member order, with its [Proper] instances.
    - [External]: the third-party crates as classes of functions and documented laws
      (SHA-2 and SHA-3, hexadecimal, base64, serde_json), and how theorems speak of
      hash collisions.  [Sample] holds concrete instances, used by witnesses only.
    - [Digest]: crates/aci-protocol/src/digest.rs, canonical JSON and digests.
    - [Identity]: crates/aci-protocol/src/identity.rs, types.rs, receipt.rs and
      src/aci/identity.rs: keysets, the attestation statement, receipt signing input.
    - [ReportBinding]: crates/aci-verify/src/lib.rs, report.rs, quote.rs.
    - [Channel]: crates/aci-verify/src/channel.rs, the TLS keys a client pins.
    - [Dstack]: crates/aci-verify/src/dstack.rs, event-log replay, measurements and
      KMS key custody.  [Provider]: src/dstack.rs, the key provider of the gateway.
    - [Receipt]: src/aci/receipt.rs and keys.rs, the builder, signing and checking.
    - [Deadlines], [ReceiptStore]: src/aggregator/service/receipt_store.rs.
    - [RelyingParty]: apps/desktop/cli/checks.rs and transcript.rs, the client's
      check engine and verdict.
    - [Session]: src/aggregator/session.rs, claims, evidence and session documents.
      [Claims]: src/aggregator/service/claims.rs, what each provider's claims mean.
    - [SessionStore]: src/aggregator/session_store.rs, the index, leases and the
      in-memory store.
    - [SessionLog]: src/aggregator/session_store.rs, the durable store: the lines of
      its log, appending under write faults, replay on open, and compaction.
    - [Retention]: src/aggregator/service/receipts.rs, publishing a receipt together
      with the retention of its session, against the class [SessionKeeper] that the
      in-memory store implements, and what the gateway's other requests do to both stores
      afterwards ([gateway_step]).
    - [Attestation]: src/aggregator/service/mod.rs and e2ee.rs, construction of the
      service, keyset renewal and attestation reports.
    - [E2eeCipher]: src/aci/e2ee.rs, the cipher suites.  [E2ee], [E2eeFields]:
      src/aggregator/service/e2ee.rs and e2ee_crypto.rs, encrypted requests and
      responses.
    - [Errors], [Upstream]: src/aggregator/service/errors.rs and
      src/aci/upstream/mod.rs, errors and the records exchanged with a backend.
      [UpstreamErrors]: src/middleware/errors.rs, what a client is told.
    - [Images], [Audio]: src/middleware/images.rs and audio.rs, media responses.
    - [Admission], [Forward]: src/aggregator/service/forward.rs, the gate, sealing,
      admission and re-verification, and the two direct entry points.  [Failover]:
      src/aggregator/service/middleware.rs, the walk over candidate routes.
    - [Fingerprint], [Gate], [Leases], [Serving], [Walking]: the theory of those
      three files.  [Gate] is the protocol: a ghost state of the clock, the leases
      held, what was sent and what was logged, and what may be asked in it.
      [Leases] shows that the session store keeps its part of the protocol.
    - [SseProtocol]: src/sse_protocol.rs and src/error_payload.rs.
    - [SseFraming]: src/sse_framing.rs, the observer of event streams.
    - [Streaming]: src/aggregator/service/streaming.rs, the encrypting transformer,
      the polling loop and both finalizers as instances of [FinalizingStream].

    - [Sanitize]: src/middleware/response_transform.rs, the public schema of an
      answer.  [Conversion]: the same file's conversion of whole answers between
      formats.  [ToolMap]: the tool declarations of
      src/middleware/request_transform.rs and the map that restores them.
    - [EventStream], [ChatStream], [MessagesStream], [ResponsesStream],
      [SseTransform]: src/middleware/stream_transform.rs: the event reader and the
      editing of events, the bridge from a chat stream to typed events, its two
      writers, and the polled adapter with the transforms it selects from.
      [Agreement]: a streamed answer against the conversion of the whole one.
    - [Pricing]: src/middleware/pricing.rs, the cost of a usage report.  [Metering]:
      src/middleware/sse.rs and the reports of types.rs, the meter of a stream and its
      heartbeats.  [Metered]: the theory of both.
    - [Appraisal]: src/aci/verifier/appraisal.rs, quote.rs, dstack.rs and
      session_material.rs, the checks on an upstream's report.  [AciVerifier]:
      src/aci/verifier/aci_service.rs, the verifier with its shared entry, and the
      step relation of its concurrent tasks.

    - [MessagesRequest], [ResponsesRequest]: src/middleware/request_transform.rs, a
      Messages or Responses request as a chat request.  [Shaping]: the parameter
      tables and the conversions for a provider's format.  [Reasoning]:
      src/middleware/reasoning.rs, the client's reasoning controls.  [Candidates]:
      the body per route, in the route's reasoning dialect.
    - [Features]: src/middleware/request_features.rs, the scalars about a request
      that leave the gateway.  [Completion]: src/middleware/completion.rs, the
      handler with the guard that reports, its answers, and the reports made while a
      streamed body is consumed, the late failure's included.
    - [Router]: src/aci/upstream/router.rs, openai.rs and streaming_usage.rs, routing
      by model, the rewriting of a request and the forwarding methods, against the class
      [UpstreamBackend] of backends.  [RouteTable]:
      src/aggregator/upstream_config/, the configuration, the router built from it
      and its replacement at run time.

    ** How code becomes definitions

    A Rust function is a Rocq function of the same name where the name is free;
    methods of different types that share a name get a prefix ([index_insert],
    [obs_dispatch_event]).  [Result] and [Option] stay values; a [&mut self] method
    returns the new state.  Stores whose methods hold one lock for their whole body
    are state machines whose steps are whole methods, and the theorems about them
    quantify over all sequences of steps.  An async function that awaits the backend,
    the verifier, the clock or a store is an [Effects.prog]; its theorems hold for
    every run, whatever it is answered within the protocol, and dropping an owned
    lease is an explicit call.  Collections keep the structure of the source:
    [HashMap] and [BTreeMap] are [gmap]s, member-ordered JSON objects are
    association lists.  Integers are [Z] with the width's bounds and saturation
    written out.  A poll of a stream is a step in an arbitrary state of the shared
    stores, since other requests use them in between.  A write to the session log
    may fail after any prefix of its bytes, which is how a crash in mid-line appears.
    Code that writes to a buffer while it updates itself is in the monad
    [ChatStream.W] of a state and written events, where a failed [expect] is [None];
    the bridge's trait of writers is the record [ChatStream.ChatEvents] of
    operations, and the class [ChatStream.ChatWriter] is the contract both writers
    are proved to keep.  A metered stream is polled with the clock readings it takes as
    an argument ([Metering.Moment]).  rust_decimal, dcap_qvl and the parser of URLs are the
    classes [Pricing.Decimals], [Appraisal.Dcap] and [RouteTable.UrlParser].  Sums of token counts wrap at 64 bits as a release build's do.

    ** What the theorems show

    - Requests: a prompt leaves only under a current admission; receipts state what
      happened; the failover walk accounts for every attempt, prompt and lease.
    - Documents: canonical bytes identify a document exactly up to member order;
      which documents are refused; the statement template admits no injection.
    - Reports: the binding chain and the validation accept exactly the reports they
      should, the gateway's own reports pass, and its keyset never expires; one quote
      slot vouches for one nonce and one keyset.
    - Measurements: what a lookup returns, what equal RTMR3 values say about two
      event logs and what they do not, what an accepted custody chain establishes.
    - Receipts: the builder's invariant, exactly when finalization succeeds, that the
      served bytes verify after an independent parse, and that a signature covers
      one document.
    - Stores: the invariants of the indexes under every sequence of operations, a
      refinement to an abstract receipt store, exact eviction, that a
      published receipt and the session it cites are served until the receipt's deadline
      whatever other requests do, that sessions still valid come back from the
      durable log after any history of faults followed by a crash, and that
      compaction loses no retained session.
    - Encryption: published keys open what is encrypted to them, every field of a
      request is opened under its own name the text
      fields of a response the gateway covers leave encrypted, each with a draw of its
      own, and which replays are refused.
    - Clients: what a clean run of the checks means, that the gateway's own receipts
      and sessions pass, what a VERIFIED verdict is backed by, and that errors and
      media responses carry nothing private of the provider.
    - Streams: chunking is irrelevant, buffers are bounded, the observer refines a
      reading of the whole stream, an appended tail ends the stream for the client,
      and every stream finishes, a clean one with a receipt over exactly the delivered
      bytes (a middleware stream, with the draft its journal holds).
    - Formats: a served answer that has a public schema has it and keeps what is public; the
      tools of a request are restored under their first declaration; parallel tool
      calls are put together by index; a bridged stream, however it is cut into
      chunks, is read by the client's own state machine as the upstream's answer and
      ends as the upstream's did; whole or streamed, an answer says the same.
    - Metering: one report per stream, determined by the stream's history alone; the
      cost shown is the cost billed; a usage costs the same in every format, up to cache
      writes that only a chat usage's details state.
    - Requests to a provider: only the members a table names are forwarded, numbers in
      range; a streamed request asks for its usage; an answer that comes back in a
      Messages history is the answer that was given; an accepted Responses history
      answers every call once; a route is told of reasoning what is in effect, in its
      own dialect, as far as its table forwards the dialect; candidates keep the control plane's order; the session key follows
      a conversation.
    - Routing: an accepted configuration whose backends can be built routes each of its models to the upstream that
      declares it, what is prepared is what is forwarded, verification ahead of
      requests is for the upstream they use, and the installed configuration is the
      one a restart loads.
    - Handling: a request is reported once however its handler ends, a stream by its
      meter and, when it fails after that, once more; an answer is read
      in the protocol its request was made in, and the cost a whole answer shows is
      the cost billed.
    - Upstreams: whatever tasks of a verifier do concurrently, a verified event rests
      on a report fetched with a nonce of its own, a quote verified to the vendor's
      root, measured software, an accepted key custody and declared channel pins,
      none of it expired when it was used.

    Collision resistance enters in two ways.  Where the strings at stake are at hand,
    a theorem concludes that they are equal or exhibits two of them with one digest
    ([External.collide], [External.collision_among]).  Where they range over a whole
    history, the class [External.HashDomain] names the set of hashed strings and
    assumes that no two of its members collide; [External.list_domain] builds it from
    any finite list that is checked to be free of collisions.

    What the printed form of a fraction reads back as is [Router.ReadsBack]: some
    number, and the same document otherwise.

    ** Bounds and fuel

    Almost every definition is structurally recursive.  [Prelude.trim_start_by]
    takes the length of its input as fuel, and each of its rounds removes a byte.
    Polling is structural in the source's remaining answers; four polls beyond their
    number finish any stream (tail, flush, finalization and end of stream).
    Re-verification is structural in the attempts left, and the failover loop, which
    runs once or twice, is unrolled.  [Features.content_block] takes the depth of the
    document as fuel, and each call goes one level down.  serde_json's recursion limit of 128 levels
    appears as [json_depth] in the laws of the parser and in the theorems that parse
    what was printed.

    ** What is not modelled

    Network and file access (HTTP routes and clients, collateral fetching, the
    file system below the session log's bytes), third-party cryptography (hashes,
    signatures, authenticated encryption, DCAP quote verification), code generated by
    serde derives, metrics and logging, and the desktop client around the check
    engine.  The adapters around other providers' verifiers are not modelled either:
    they run external programs and read those programs' formats; nor are the drafting
    stream over a provider's response, the polling of a remote configuration and the
    timing of refresh tasks.  Of the completion handler the response headers, the
    error texts of the finalizer, the permit semaphores and the client of the control
    plane are left out. *)
From stdpp Require Export base tactics list strings gmap sorting pretty.
From Stdlib Require Export ZArith Ascii Lia.

(** ** Errors as values: Rust's [Result<A, E>]. *)
Inductive result (E A : Type) : Type :=
| Ok (a : A)
| Err (e : E).
Arguments Ok {E A} a.
Arguments Err {E A} e.

#[global] Instance result_eq_dec {E A} `{EqDecision E, EqDecision A} :
  EqDecision (result E A).
Proof. solve_decision. Defined.

#[global] Instance result_ret {E} : MRet (result E) := fun A a => Ok a.
#[global] Instance result_bind {E} : MBind (result E) :=
  fun A B f m => match m with Ok a => f a | Err e => Err e end.
#[global] Instance result_fmap {E} : FMap (result E) :=
  fun A B f m => match m with Ok a => Ok (f a) | Err e => Err e end.

Definition map_err {E F A} (f : E -> F) (r : result E A) : result F A :=
  match r with Ok a => Ok a | Err e => Err (f e) end.

Definition ok_or {E A} (e : E) (o : option A) : result E A :=
  match o with Some a => Ok a | None => Err e end.

Definition result_ok {E A} (r : result E A) : option A :=
  match r with Ok a => Some a | Err _ => None end.

Definition is_ok {E A} (r : result E A) : bool :=
  match r with Ok _ => true | Err _ => false end.

(** Rust's [iter().map(f).collect::<Result<Vec<_>, _>>()]: the first error in
    list order wins. *)
Fixpoint collect_results {E A} (l : list (result E A)) : result E (list A) :=
  match l with
  | [] => Ok []
  | r :: l' => x ← r; xs ← collect_results l'; Ok (x :: xs)
  end.

Lemma collect_results_ok {E A} (l : list (result E A)) xs :
  collect_results l = Ok xs <-> l = Ok <$> xs.
Proof.
  revert xs; induction l as [|[x|e] l IH]; intros xs; simpl.
  - destruct xs; naive_solver.
  - destruct (collect_results l) as [ys|e] eqn:Hc; simpl; split.
    + intros [= <-]. simpl. by rewrite (proj1 (IH ys) eq_refl).
    + destruct xs as [|x' xs]; simpl; [done|]. intros [= -> Hl].
      by apply IH in Hl as [= ->].
    + done.
    + destruct xs as [|x' xs]; simpl; [done|]. intros [= -> Hl].
      by apply IH in Hl.
  - split; [done|]. by destruct xs.
Qed.

Lemma collect_results_err {E A} (l : list (result E A)) e :
  collect_results l = Err e -> Err e ∈ l.
Proof.
  induction l as [|[x|e'] l IH]; simpl; [done| |].
  - destruct (collect_results l) eqn:Hc; simpl; [done|].
    intros [= ->]. right. auto.
  - intros [= ->]. left.
Qed.

(** ** Lists *)
Lemma list_filter_all {A} (P : A -> Prop) `{forall x, Decision (P x)} (l : list A) :
  (forall x, x ∈ l -> P x) -> filter P l = l.
Proof.
  induction l as [|x l IH]; intros HP; [done|].
  rewrite filter_cons_True by (apply HP; left). f_equal. apply IH. intros y Hy.
  apply HP. by right.
Qed.

(** A claim about every element, or one exception common to all. *)
Lemma find_app {A} (p : A -> bool) l k : List.find p (l ++ k) = match List.find p l with Some a => Some a | None => List.find p k end.
Proof. induction l as [|a l IH]; [done|]. cbn. by destruct (p a). Qed.
Lemma list_forall_or {A} (P : A -> Prop) (Q : Prop) (l : list A) :
  (forall x, x ∈ l -> P x \/ Q) -> (forall x, x ∈ l -> P x) \/ Q.
Proof.
  induction l as [|a l IH]; intros H; [left; intros x Hx; by apply elem_of_nil in Hx|].
  destruct (H a) as [Ha|?]; [left| |by right].
  destruct IH as [IH|?]; [intros x Hx; apply H; by right| |by right].
  left. intros x [->|Hx]%elem_of_cons; auto.
Qed.

Lemma ok_or_Ok {E A} (e : E) (o : option A) a : ok_or e o = Ok a <-> o = Some a.
Proof. destruct o; simpl; naive_solver. Qed.
Lemma map_err_Ok {E F A} (f : E -> F) (r : result E A) a : map_err f r = Ok a <-> r = Ok a.
Proof. destruct r; simpl; naive_solver. Qed.

(** Equations about successful computations, with the error wrappers removed. *)
Create HintDb results.
#[export] Hint Rewrite @ok_or_Ok @map_err_Ok @collect_results_ok : results.

(** Case analysis on the binds of a hypothesis that a computation succeeded:
    one equation per step, the error wrappers removed. *)
Ltac bind_inv H :=
  repeat (
    match type of H with
    | context [@mbind (result _) _ _ _ _ ?m] =>
        let E := fresh "E" in
        destruct m eqn:E; cbn [mbind result_bind] in H; [|discriminate H];
        autorewrite with results in E; bind_inv E
    end).

Tactic Notation "case_bool" :=
  match goal with
  | |- context [if ?b then _ else _] => destruct b eqn:?
  end.
Tactic Notation "case_bool" "in" hyp(H) :=
  match type of H with
  | context [if ?b then _ else _] => destruct b eqn:?
  end.

(** ** Machine integers.  A [u64] is a [Z] in [0 .. u64_max]. *)
Definition u64_max : Z := 18446744073709551615%Z.
Definition i64_max : Z := 9223372036854775807%Z.
Definition i64_min : Z := (-9223372036854775808)%Z.
Definition is_u64 (z : Z) : Prop := (0 <= z <= u64_max)%Z.

Definition u64_checked_add (a b : Z) : option Z :=
  if (a + b <=? u64_max)%Z then Some (a + b)%Z else None.
Definition u64_saturating_add (a b : Z) : Z := Z.min (a + b) u64_max.

Declare Scope u64_scope.
Delimit Scope u64_scope with u64.
Infix "+|" := u64_saturating_add (at level 50, left associativity) : u64_scope.

Lemma u64_saturating_add_range a b : is_u64 a -> (0 <= b)%Z -> is_u64 (a +| b)%u64.
Proof. unfold is_u64, u64_saturating_add, u64_max. lia. Qed.

(** Preservation lemmas of the components' invariants. *)
Create HintDb invariants.
#[export] Hint Resolve u64_saturating_add_range : invariants.

(** ** Bytes and strings.  A Rust [u8] is an [ascii]; [Vec<u8>] is a list of
    them; [str] and [String] are the UTF-8 byte strings of Rocq's [string]. *)
Abbreviation bytes := (list ascii).
Definition as_bytes (s : string) : bytes := String.list_ascii_of_string s.
Definition of_bytes (b : bytes) : string := String.string_of_list_ascii b.

Lemma as_bytes_of_bytes b : as_bytes (of_bytes b) = b.
Proof. apply String.list_ascii_of_string_of_list_ascii. Qed.
Lemma of_bytes_as_bytes s : of_bytes (as_bytes s) = s.
Proof. apply String.string_of_list_ascii_of_string. Qed.
#[global] Instance as_bytes_inj : Inj (=) (=) as_bytes.
Proof. intros s t H. by rewrite <- (of_bytes_as_bytes s), H, of_bytes_as_bytes. Qed.
#[global] Instance of_bytes_inj : Inj (=) (=) of_bytes.
Proof. intros s t H. by rewrite <- (as_bytes_of_bytes s), H, as_bytes_of_bytes. Qed.
Lemma as_bytes_app s t : as_bytes (s +:+ t) = as_bytes s ++ as_bytes t.
Proof. induction s as [|c s IH]; [done|]. unfold as_bytes in *. simpl. by f_equal. Qed.
Create HintDb texts.
#[export] Hint Rewrite as_bytes_app as_bytes_of_bytes of_bytes_as_bytes : texts.

Definition byte (c : ascii) : N := N_of_ascii c.
Definition in_range (lo hi : N) (c : ascii) : bool := (lo <=? byte c)%N && (byte c <=? hi)%N.

(** [u8::is_ascii_digit], [u8::is_ascii_hexdigit], [u8::is_ascii] and the
    source's recurring "digit or [b'a'..=b'f']" test. *)
Definition is_ascii_digit : ascii -> bool := in_range 48 57.
Definition is_lower_hex (c : ascii) : bool := is_ascii_digit c || in_range 97 102 c.
Definition is_ascii_hexdigit (c : ascii) : bool := is_lower_hex c || in_range 65 70 c.
Definition byte_is_ascii : ascii -> bool := in_range 0 127.
Definition to_ascii_lowercase_byte (c : ascii) : ascii :=
  if in_range 65 90 c then ascii_of_N (byte c + 32) else c.

(** [str::is_ascii], [str::to_ascii_lowercase], [str::eq_ignore_ascii_case]. *)
Definition is_ascii (s : string) : bool := forallb byte_is_ascii (as_bytes s).
Definition to_ascii_lowercase (s : string) : string :=
  of_bytes (to_ascii_lowercase_byte <$> as_bytes s).
Definition eq_ignore_ascii_case (s t : string) : bool :=
  bool_decide (to_ascii_lowercase s = to_ascii_lowercase t).
Definition str_len (s : string) : nat := length (as_bytes s).
Definition all_bytes (p : ascii -> bool) (s : string) : bool := forallb p (as_bytes s).

(** [strip_prefix] on byte slices and on strings. *)
Fixpoint strip_bytes (p l : bytes) : option bytes :=
  match p, l with
  | [], _ => Some l
  | a :: p', b :: l' => if bool_decide (a = b) then strip_bytes p' l' else None
  | _ :: _, [] => None
  end.
Definition strip_prefix (p s : string) : option string :=
  of_bytes <$> strip_bytes (as_bytes p) (as_bytes s).
Definition starts_with (p s : string) : bool := bool_decide (is_Some (strip_prefix p s)).
Definition ends_with (p s : string) : bool :=
  bool_decide (is_Some (strip_bytes (reverse (as_bytes p)) (reverse (as_bytes s)))).

Lemma strip_bytes_spec p l r : strip_bytes p l = Some r <-> l = p ++ r.
Proof.
  revert l; induction p as [|a p IH]; intros [|b l]; simpl; try naive_solver.
  case_bool_decide as Hab; [subst; rewrite IH; naive_solver|naive_solver].
Qed.
Lemma strip_prefix_spec p s r : strip_prefix p s = Some r <-> s = p +:+ r.
Proof.
  unfold strip_prefix. rewrite fmap_Some. split.
  - intros (b & Hb & ->). apply strip_bytes_spec in Hb.
    apply (inj as_bytes). by autorewrite with texts.
  - intros ->. exists (as_bytes r). rewrite of_bytes_as_bytes, strip_bytes_spec.
    by rewrite as_bytes_app.
Qed.

(** [str::split_once(pat)]: split at the first occurrence. *)
Fixpoint split_once_bytes (p l : bytes) : option (bytes * bytes) :=
  match strip_bytes p l with
  | Some r => Some ([], r)
  | None =>
      match l with
      | [] => None
      | c :: l' => (fun xy => (c :: xy.1, xy.2)) <$> split_once_bytes p l'
      end
  end.
Definition split_once (p s : string) : option (string * string) :=
  (fun xy => (of_bytes xy.1, of_bytes xy.2)) <$> split_once_bytes (as_bytes p) (as_bytes s).
Definition contains (p s : string) : bool := bool_decide (is_Some (split_once p s)).

Lemma split_once_bytes_sound p l x y :
  split_once_bytes p l = Some (x, y) -> l = x ++ p ++ y.
Proof.
  revert x y; induction l as [|c l IH]; intros x y; simpl.
  - destruct (strip_bytes p []) eqn:Hs; [|done]. intros [= <- <-].
    by apply strip_bytes_spec in Hs.
  - destruct (strip_bytes p (c :: l)) eqn:Hs.
    + intros [= <- <-]. by apply strip_bytes_spec in Hs.
    + rewrite fmap_Some. intros ([x' y'] & H & [= -> ->]). simpl. by rewrite (IH _ _ H).
Qed.
Lemma split_once_sound p s x y : split_once p s = Some (x, y) -> s = x +:+ p +:+ y.
Proof.
  unfold split_once. rewrite fmap_Some. intros ([x' y'] & H & [= -> ->]).
  apply split_once_bytes_sound in H. apply (inj as_bytes).
  by autorewrite with texts.
Qed.

(** The UTF-8 encodings of the characters with the Unicode [White_Space]
    property, which [char::is_whitespace] and [str::trim] use. *)
Definition u8 (n : N) : ascii := ascii_of_N n.
Definition white_space : list bytes :=
  ((fun n => [u8 n]) <$> [9; 10; 11; 12; 13; 32]%N) ++
  [[u8 194; u8 133]; [u8 194; u8 160]; [u8 225; u8 154; u8 128]] ++
  ((fun n => [u8 226; u8 128; u8 n]) <$>
     [128; 129; 130; 131; 132; 133; 134; 135; 136; 137; 138; 168; 169; 175]%N) ++
  [[u8 226; u8 129; u8 159]; [u8 227; u8 128; u8 128]].

Fixpoint strip_any (ps : list bytes) (l : bytes) : option bytes :=
  match ps with
  | [] => None
  | p :: ps' => match strip_bytes p l with Some r => Some r | None => strip_any ps' l end
  end.
Fixpoint trim_start_by (fuel : nat) (ps : list bytes) (l : bytes) : bytes :=
  match fuel with
  | O => l
  | S fuel' => match strip_any ps l with Some r => trim_start_by fuel' ps r | None => l end
  end.
Definition trim_end_by (ps : list bytes) (l : bytes) : bytes :=
  reverse (trim_start_by (length l) (reverse <$> ps) (reverse l)).

(** [str::trim] and [str::trim_end_matches('.')].  Each round removes at least
    one byte, so the length of the input bounds the number of rounds. *)
Definition trim (s : string) : string :=
  of_bytes (trim_end_by white_space (trim_start_by (str_len s) white_space (as_bytes s))).
Definition trim_end_dots (s : string) : string :=
  of_bytes (trim_end_by [as_bytes "."] (as_bytes s)).

(** [chars().any(char::is_whitespace)]. *)
Fixpoint has_whitespace (l : bytes) : bool :=
  match l with
  | [] => false
  | _ :: l' => bool_decide (is_Some (strip_any white_space l)) || has_whitespace l'
  end.

(** [u8::is_ascii_whitespace] and [<[u8]>::trim_ascii]. *)
Definition is_ascii_whitespace (c : ascii) : bool :=
  match byte c with 9%N | 10%N | 12%N | 13%N | 32%N => true | _ => false end.
Fixpoint trim_ascii_start (l : bytes) : bytes :=
  match l with c :: l' => if is_ascii_whitespace c then trim_ascii_start l' else l | [] => [] end.
Definition trim_ascii (l : bytes) : bytes := reverse (trim_ascii_start (reverse (trim_ascii_start l))).

Lemma trim_ascii_start_id l :
  (forall c, head l = Some c -> is_ascii_whitespace c = false) -> trim_ascii_start l = l.
Proof. destruct l as [|c l]; [done|]. intros H. simpl. by rewrite (H c). Qed.
Lemma trim_ascii_id l :
  (forall c, head l = Some c -> is_ascii_whitespace c = false) ->
  (forall c, last l = Some c -> is_ascii_whitespace c = false) -> trim_ascii l = l.
Proof.
  intros Hh Hl. unfold trim_ascii. rewrite (trim_ascii_start_id l Hh), trim_ascii_start_id.
  - apply reverse_involutive.
  - intros c. rewrite head_reverse. apply Hl.
Qed.

Lemma trim_ascii_start_last l c : is_ascii_whitespace c = true ->
  trim_ascii_start (l ++ [c]) = match trim_ascii_start l with [] => [] | t => t ++ [c] end.
Proof. intros Hc. induction l as [|a l IH]; cbn; [by rewrite Hc|]. by destruct (is_ascii_whitespace a). Qed.
Lemma trim_ascii_last l c : is_ascii_whitespace c = true -> trim_ascii (l ++ [c]) = trim_ascii l.
Proof.
  intros Hc. unfold trim_ascii. rewrite trim_ascii_start_last by done. destruct (trim_ascii_start l) as [|a t]; [done|].
  rewrite reverse_app, reverse_singleton. cbn [app trim_ascii_start]. by rewrite Hc.
Qed.

(** ** Lines *)
Definition lf : ascii := u8 10.
Definition cr : ascii := u8 13.

(** Terminated lines, and the unterminated rest. *)
Fixpoint split_lines (s : bytes) : list bytes * bytes :=
  match s with
  | [] => ([], [])
  | c :: s' =>
      let '(ls, rest) := split_lines s' in
      if bool_decide (c = lf) then ([] :: ls, rest)
      else match ls with
           | [] => ([], c :: rest)
           | l :: ls => ((c :: l) :: ls, rest)
           end
  end.
Definition unlines (ls : list bytes) : bytes := concat ((fun l => l ++ [lf]) <$> ls).

Lemma split_lines_line b t :
  lf ∉ b -> split_lines (b ++ lf :: t) = (b :: (split_lines t).1, (split_lines t).2).
Proof.
  induction b as [|c b IH]; intros Hb; simpl.
  - by destruct (split_lines t).
  - rewrite IH by set_solver. rewrite bool_decide_eq_false_2 by set_solver. done.
Qed.
Lemma split_lines_rest b : lf ∉ b -> split_lines b = ([], b).
Proof.
  induction b as [|c b IH]; intros Hb; simpl; [done|].
  rewrite IH by set_solver. by rewrite bool_decide_eq_false_2 by set_solver.
Qed.
Lemma split_lines_unlines ls : Forall (fun l => lf ∉ l) ls -> split_lines (unlines ls) = (ls, []).
Proof.
  induction 1 as [|l ls Hl _ IH]; [done|].
  change (unlines (l :: ls)) with ((l ++ [lf]) ++ unlines ls). rewrite <- app_assoc. cbn [app].
  by rewrite split_lines_line, IH.
Qed.
(** Appending text only adds to the terminated lines. *)
Lemma split_lines_app a b :
  split_lines (a ++ b) =
  ((split_lines a).1 ++ (split_lines ((split_lines a).2 ++ b)).1, (split_lines ((split_lines a).2 ++ b)).2).
Proof.
  induction a as [|c a IH]; simpl; [by destruct (split_lines b)|]. rewrite IH.
  destruct (split_lines a) as [ls rest]. cbn [fst snd]. case_bool_decide as Hc; [done|].
  destruct ls as [|l ls]; [|done]. cbn [app fst snd]. simpl.
  destruct (split_lines (rest ++ b)) as [ls' rest']. cbn [fst snd].
  rewrite bool_decide_eq_false_2 by done. by destruct ls'.
Qed.
Lemma split_lines_rest_no_lf s : lf ∉ (split_lines s).2.
Proof.
  induction s as [|c s IH]; simpl; [apply not_elem_of_nil|]. destruct (split_lines s) as [ls rest].
  cbn [snd] in *. case_bool_decide; [done|]. destruct ls; [|done]. cbn. set_solver.
Qed.

(** [{:?}] of a string: quotes, backslashes and ASCII control characters are
    escaped.  Text beyond ASCII is copied, which is what [Debug] does for
    printable characters. *)
Definition hex_digit_char (n : N) : ascii := u8 (if (n <? 10)%N then 48 + n else 87 + n).
Definition debug_byte (c : ascii) : bytes :=
  match byte c with
  | 34%N => [u8 92; u8 34]
  | 92%N => [u8 92; u8 92]
  | 9%N => as_bytes "\t"
  | 10%N => as_bytes "\n"
  | 13%N => as_bytes "\r"
  | 0%N => as_bytes "\0"
  | n =>
      if (n <? 32)%N || (n =? 127)%N then
        as_bytes "\u{" ++ (if (n <? 16)%N then [] else [hex_digit_char (n / 16)]) ++
        [hex_digit_char (n mod 16)] ++ as_bytes "}"
      else [c]
  end.
Definition debug_str (s : string) : string :=
  of_bytes (u8 34 :: concat (debug_byte <$> as_bytes s) ++ [u8 34]).
