(* ===== verification/Text.v ===== *)
(** * Text handling used on request and response bodies

    The [str] and slice methods beyond those of [Prelude]: splitting at a set of
    characters, trimming, decimal parsing and UTF-8 validation. *)
From S2P Require Import Prelude.

(** [slice.windows(p.len()).any(|w| w == p)]. *)
Definition contains_bytes (p l : bytes) : bool := bool_decide (is_Some (split_once_bytes p l)).

(** [str::split] at every byte that satisfies [sep].  Where the pattern is a
    predicate on characters, a separator outside ASCII ends as many tokens as it
    has bytes; all but the first of them are empty. *)
Fixpoint split_bytes (sep : ascii -> bool) (l : bytes) : list bytes :=
  match l with
  | [] => [[]]
  | c :: l' =>
      if sep c then [] :: split_bytes sep l'
      else match split_bytes sep l' with
           | t :: ts => (c :: t) :: ts
           | [] => [[c]]
           end
  end.

Fixpoint trim_start_where (p : ascii -> bool) (l : bytes) : bytes :=
  match l with c :: l' => if p c then trim_start_where p l' else l | [] => [] end.
(** [str::trim_matches]. *)
Definition trim_matches (p : ascii -> bool) (l : bytes) : bytes :=
  reverse (trim_start_where p (reverse (trim_start_where p l))).

(** [u8::is_ascii_alphanumeric]. *)
Definition is_ascii_alphanumeric (c : ascii) : bool :=
  is_ascii_digit c || in_range 65 90 c || in_range 97 122 c.

(** [str::parse] to an unsigned type with the given maximum: decimal digits, with
    an optional plus sign. *)
Fixpoint digits_value (acc : Z) (l : bytes) : option Z :=
  match l with
  | [] => Some acc
  | c :: l' => if is_ascii_digit c then digits_value (acc * 10 + (Z.of_N (byte c) - 48)) l' else None
  end.
Definition parse_uint (max : Z) (l : bytes) : option Z :=
  let digits := match l with c :: l' => if bool_decide (c = u8 43) then l' else l | [] => [] end in
  if bool_decide (digits = []) then None
  else v ← digits_value 0 digits; if (v <=? max)%Z then Some v else None.

(** [std::str::from_utf8] succeeds. *)
Definition is_continuation : ascii -> bool := in_range 128 191.
Definition utf8_second (lead : N) : ascii -> bool :=
  match lead with
  | 224%N => in_range 160 191
  | 237%N => in_range 128 159
  | 240%N => in_range 144 191
  | 244%N => in_range 128 143
  | _ => is_continuation
  end.
Fixpoint is_utf8 (l : bytes) : bool :=
  match l with
  | [] => true
  | c :: l1 =>
      if in_range 0 127 c then is_utf8 l1
      else match l1 with
      | [] => false
      | c1 :: l2 =>
          if in_range 194 223 c then is_continuation c1 && is_utf8 l2
          else match l2 with
          | [] => false
          | c2 :: l3 =>
              if in_range 224 239 c then utf8_second (byte c) c1 && is_continuation c2 && is_utf8 l3
              else match l3 with
              | [] => false
              | c3 :: l4 =>
                  in_range 240 244 c && utf8_second (byte c) c1 && is_continuation c2 &&
                  is_continuation c3 && is_utf8 l4
              end
          end
      end
  end.

(** A run without separators is one token when separators surround it. *)
Lemma split_bytes_head sep w b :
  forallb (fun c => negb (sep c)) w = true -> (forall c, head b = Some c -> sep c = true) ->
  exists ts, split_bytes sep (w ++ b) = w :: ts.
Proof.
  induction w as [|c w IH]; simpl; intros Hw Hb.
  - destruct b as [|c b]; simpl; [eauto|]. rewrite (Hb c) by done. eauto.
  - apply andb_true_iff in Hw as [Hc Hw]. destruct IH as [ts ->]; [done|done|].
    apply negb_true_iff in Hc. rewrite Hc. eauto.
Qed.
Lemma split_bytes_token_tail sep a s w b :
  sep s = true -> forallb (fun c => negb (sep c)) w = true ->
  (forall c, head b = Some c -> sep c = true) ->
  w ∈ tail (split_bytes sep (a ++ s :: w ++ b)).
Proof.
  intros Hs Hw Hb. induction a as [|c a IH]; simpl.
  - rewrite Hs. cbn. destruct (split_bytes_head sep w b Hw Hb) as [ts ->]. left.
  - destruct (split_bytes sep (a ++ s :: w ++ b)) as [|t ts] eqn:Ht.
    + destruct (sep c); simpl in *; by apply elem_of_nil in IH.
    + destruct (sep c); simpl in *; [by right|done].
Qed.
Lemma split_bytes_token sep a w b :
  forallb (fun c => negb (sep c)) w = true ->
  (forall c, last a = Some c -> sep c = true) -> (forall c, head b = Some c -> sep c = true) ->
  w ∈ split_bytes sep (a ++ w ++ b).
Proof.
  intros Hw Ha Hb. destruct a as [|s a _] using rev_ind.
  - destruct (split_bytes_head sep w b Hw Hb) as [ts Hts]. cbn. rewrite Hts. left.
  - rewrite <- app_assoc. cbn [app].
    assert (sep s = true) as Hs by (apply Ha; by rewrite last_snoc).
    pose proof (split_bytes_token_tail sep a s w b Hs Hw Hb) as H.
    destruct (split_bytes sep _); [by apply elem_of_nil in H|by right].
Qed.

Lemma trim_start_where_app p pre l :
  forallb p pre = true -> (forall c, head l = Some c -> p c = false) ->
  trim_start_where p (pre ++ l) = l.
Proof.
  induction pre as [|c pre IH]; simpl; intros Hp Hl.
  - destruct l as [|c l]; [done|]. simpl. by rewrite (Hl c).
  - apply andb_true_iff in Hp as [-> Hp]. auto.
Qed.
Lemma forallb_reverse {A} (p : A -> bool) l : forallb p (reverse l) = forallb p l.
Proof.
  induction l as [|x l IH]; [done|]. rewrite reverse_cons, forallb_app, IH. simpl.
  by rewrite andb_true_r, andb_comm.
Qed.
Lemma trim_matches_core p pre l post :
  forallb p pre = true -> forallb p post = true -> l ≠ [] ->
  (forall c, head l = Some c -> p c = false) -> (forall c, last l = Some c -> p c = false) ->
  trim_matches p (pre ++ l ++ post) = l.
Proof.
  intros Hpre Hpost Hne Hh Hl. unfold trim_matches. rewrite trim_start_where_app.
  - rewrite reverse_app, trim_start_where_app, reverse_involutive; [done|by rewrite forallb_reverse|].
    intros c. rewrite head_reverse. apply Hl.
  - done.
  - destruct l as [|c l]; [done|]. intros ? [= <-]. by apply Hh.
Qed.

(** [contains] finds every occurrence. *)
Lemma contains_bytes_spec p l : contains_bytes p l = true <-> exists a b, l = a ++ p ++ b.
Proof.
  unfold contains_bytes. rewrite bool_decide_eq_true. split.
  - intros [[x y] H%split_once_bytes_sound]. eauto.
  - intros (a & b & ->). induction a as [|c a IH].
    + cbn [app]. destruct (split_once_bytes p (p ++ b)) as [xy|] eqn:H; [eauto|].
      assert (strip_bytes p (p ++ b) = Some b) as Hs by by apply strip_bytes_spec.
      destruct (p ++ b); simpl in H; by rewrite Hs in H.
    + cbn [app split_once_bytes]. destruct (strip_bytes _ _); [eauto|]. by rewrite fmap_is_Some.
Qed.
Lemma contains_spec p s : contains p s = true <-> exists a b, s = a +:+ p +:+ b.
Proof.
  unfold contains. rewrite bool_decide_eq_true. unfold split_once. rewrite fmap_is_Some.
  pose proof (contains_bytes_spec (as_bytes p) (as_bytes s)) as H. unfold contains_bytes in H.
  rewrite bool_decide_eq_true in H. rewrite H. split.
  - intros (a & b & Hs). exists (of_bytes a), (of_bytes b). apply (inj as_bytes). by autorewrite with texts.
  - intros (a & b & ->). exists (as_bytes a), (as_bytes b). by autorewrite with texts.
Qed.
