(* ===== verification/Effects.v ===== *)
(** * Programs with effects

    Request handling awaits other parties: the verifier, the upstream, the clock,
    the stores it shares with other requests.  Such a function is a [prog]: a tree
    of the questions it asks, each with the continuation for every answer.  It is
    finite along every path, so running it always returns.

    [runs p tr a] says that [p] may exchange the trace [tr] with its environment
    and return [a]; [answer] runs a program against an environment given as a
    function, and [wp] is the weakest precondition under an environment that obeys
    a protocol, a transition relation on a ghost state. *)
From S2P Require Import Prelude.

Inductive prog (E : Type -> Type) (A : Type) : Type :=
| Ret (a : A)
| Vis {X : Type} (e : E X) (k : X -> prog E A).
Arguments Ret {E A} a.
Arguments Vis {E A X} e k.

#[global] Instance prog_ret {E} : MRet (prog E) := fun A a => Ret a.
Fixpoint prog_bind_ {E A B} (f : A -> prog E B) (p : prog E A) : prog E B :=
  match p with
  | Ret a => f a
  | Vis e k => Vis e (fun x => prog_bind_ f (k x))
  end.
#[global] Instance prog_bind {E} : MBind (prog E) := fun A B => prog_bind_.

Definition call {E X} (e : E X) : prog E X := Vis e Ret.

(** Rust's [?] in an effectful function. *)
Definition try_bind {E R A B} (p : prog E (result R A)) (f : A -> prog E (result R B)) : prog E (result R B) :=
  r ← p; match r with Ok a => f a | Err e => Ret (Err e) end.
Notation "x ←? p ; q" := (try_bind p (fun x => q)) (at level 20, p at level 100, q at level 200).

(** ** Traces *)
Record action (E : Type -> Type) := Act {
  act_type : Type;
  act_event : E act_type;
  act_answer : act_type;
}.
Arguments Act {E act_type} act_event act_answer.
Arguments act_type {E} a.
Arguments act_event {E} a.
Arguments act_answer {E} a.

Section Runs.
Context {E : Type -> Type}.

Fixpoint runs {A} (p : prog E A) (tr : list (action E)) (a : A) : Prop :=
  match p with
  | Ret b => tr = [] /\ a = b
  | Vis e k => exists x tr', tr = Act e x :: tr' /\ runs (k x) tr' a
  end.

Lemma runs_bind {A B} (p : prog E A) (f : A -> prog E B) tr b :
  runs (p ≫= f) tr b <-> exists tr1 tr2 a, tr = tr1 ++ tr2 /\ runs p tr1 a /\ runs (f a) tr2 b.
Proof.
  revert tr. induction p as [a|X e k IH]; intros tr; cbn.
  - split; [intros H; by exists [], tr, a|]. intros (? & ? & ? & -> & [-> ->] & H). done.
  - split.
    + intros (x & tr' & -> & (tr1 & tr2 & a & -> & H1 & H2)%IH). exists (Act e x :: tr1), tr2, a.
      split; [done|]. split; [|done]. by exists x, tr1.
    + intros (tr1 & tr2 & a & -> & (x & tr' & -> & H1) & H2). exists x, (tr' ++ tr2).
      split; [done|]. apply IH. by exists tr', tr2, a.
Qed.

(** A successful run of a sequence of fallible steps: each step succeeded. *)
Lemma runs_try_ok {R A B} (p : prog E (result R A)) (f : A -> prog E (result R B)) tr b :
  runs (try_bind p f) tr (Ok b) ->
  exists tr1 tr2 a, tr = tr1 ++ tr2 /\ runs p tr1 (Ok a) /\ runs (f a) tr2 (Ok b).
Proof.
  unfold try_bind. rewrite runs_bind. intros (tr1 & tr2 & [a|e] & -> & Hp & Hf).
  - by exists tr1, tr2, a.
  - by destruct Hf as [_ ?].
Qed.
Lemma runs_ret_ok {R A B} (r : result R A) (f : A -> prog E (result R B)) tr b :
  runs (try_bind (Ret r) f) tr (Ok b) -> exists a, r = Ok a /\ runs (f a) tr (Ok b).
Proof. intros (tr1 & tr2 & a & -> & [-> Hr] & Hf)%runs_try_ok. by exists a. Qed.

(** An environment that answers from a state of its own. *)
Fixpoint answer {A S} (env : S -> forall X, E X -> S * X) (s : S) (p : prog E A) : list (action E) * A :=
  match p with
  | Ret a => ([], a)
  | Vis e k =>
      let '(s', x) := env s _ e in
      let '(tr, a) := answer env s' (k x) in (Act e x :: tr, a)
  end.
Lemma answer_runs {A S} (env : S -> forall X, E X -> S * X) s (p : prog E A) :
  runs p (answer env s p).1 (answer env s p).2.
Proof.
  revert s. induction p as [a|X e k IH]; intros s; cbn; [done|].
  destruct (env s X e) as [s' x]. specialize (IH x s'). destruct (answer env s' (k x)) as [tr a].
  exists x, tr. done.
Qed.

(** Every program has a run, whatever it is answered. *)
Lemma runs_total {A} (p : prog E A) (reply : forall X, E X -> X) : exists tr a, runs p tr a.
Proof.
  exists (answer (fun s X e => (s, reply X e)) () p).1, (answer (fun s X e => (s, reply X e)) () p).2.
  apply answer_runs.
Qed.
End Runs.

(** ** Weakest preconditions under a protocol *)
Section Wp.
Context {E : Type -> Type} {S : Type}.
(** [allowed s e]: the program may ask [e] in state [s]; [moves s e x s']: the
    environment may answer [x] and move to [s']. *)
Context (allowed : S -> forall X, E X -> Prop) (moves : S -> forall X, E X -> X -> S -> Prop).

Fixpoint wp {A} (p : prog E A) (s : S) (Q : A -> S -> Prop) : Prop :=
  match p with
  | Ret a => Q a s
  | Vis e k => allowed s _ e /\ forall x s', moves s _ e x s' -> wp (k x) s' Q
  end.

Lemma wp_mono {A} (p : prog E A) s (Q Q' : A -> S -> Prop) :
  wp p s Q -> (forall a s', Q a s' -> Q' a s') -> wp p s Q'.
Proof.
  revert s. induction p as [a|X e k IH]; intros s; cbn; [auto|].
  intros [Ha Hk] HQ. split; [done|]. intros x s' Hm. apply IH; auto.
Qed.
Lemma wp_bind {A B} (p : prog E A) (f : A -> prog E B) s Q :
  wp (p ≫= f) s Q <-> wp p s (fun a s' => wp (f a) s' Q).
Proof.
  revert s. induction p as [a|X e k IH]; intros s; cbn; [done|].
  split; intros [Ha Hk]; (split; [done|]); intros x s' Hm; apply IH; auto.
Qed.
Lemma wp_call {X} (e : E X) s Q :
  allowed s X e -> (forall x s', moves s X e x s' -> Q x s') -> wp (call e) s Q.
Proof. done. Qed.
Lemma wp_try {R A B} (p : prog E (result R A)) (f : A -> prog E (result R B)) s Q :
  wp p s (fun r s' => match r with Ok a => wp (f a) s' Q | Err e => Q (Err e) s' end) ->
  wp (try_bind p f) s Q.
Proof.
  intros H. unfold try_bind. apply wp_bind. eapply wp_mono; [exact H|]. by intros [a|e] s'.
Qed.

(** A trace the environment may produce from [s], ending in [s']. *)
Fixpoint obeys (s : S) (tr : list (action E)) (s' : S) : Prop :=
  match tr with
  | [] => s' = s
  | act :: tr' => exists s1, moves s _ (act_event act) (act_answer act) s1 /\ obeys s1 tr' s'
  end.

Lemma obeys_app s tr1 tr2 s' : obeys s (tr1 ++ tr2) s' <-> exists s1, obeys s tr1 s1 /\ obeys s1 tr2 s'.
Proof.
  revert s. induction tr1 as [|act tr1 IH]; intros s; cbn.
  - split; [intros; by exists s|by intros (? & -> & ?)].
  - split.
    + intros (s1 & Hm & (s2 & H1 & H2)%IH). eauto.
    + intros (s2 & (s1 & Hm & H1) & H2). exists s1. split; [exact Hm|]. apply IH. eauto.
Qed.

(** What a weakest precondition says about runs: the postcondition holds at the
    end, and every question was allowed when it was asked. *)
Lemma wp_post {A} (p : prog E A) s Q tr a s' : wp p s Q -> runs p tr a -> obeys s tr s' -> Q a s'.
Proof.
  revert s tr. induction p as [b|X e k IH]; intros s tr; cbn.
  - by intros HQ [-> ->] ->.
  - intros [_ Hk] (x & tr' & -> & Hr) (s1 & Hm & Ho). eauto.
Qed.
Lemma wp_allowed {A} (p : prog E A) s Q tr1 act tr2 a s1 :
  wp p s Q -> runs p (tr1 ++ act :: tr2) a -> obeys s tr1 s1 -> allowed s1 _ (act_event act).
Proof.
  revert s tr1. induction p as [b|X e k IH]; intros s tr1; cbn.
  - intros _ [Htr _]. by destruct tr1.
  - intros [Ha Hk] (x & tr' & Htr & Hr). destruct tr1 as [|act1 tr1]; cbn in Htr; injection Htr as -> <-.
    + by intros ->.
    + intros (s2 & Hm & Ho). eauto.
Qed.
End Wp.

(** An environment that answers every allowed question as the protocol says drives a
    program to the end of an obedient trace. *)
Section Answer.
Context {E : Type -> Type} {S T : Type}.
Context (allowed : S -> forall X, E X -> Prop) (moves : S -> forall X, E X -> X -> S -> Prop).
Context (env : T -> forall X, E X -> T * X) (R : T -> S -> Prop).
Context (serves : forall t s X (e : E X), R t s -> allowed s X e ->
  exists s', moves s X e (env t X e).2 s' /\ R (env t X e).1 s').

Lemma wp_answer {A} (p : prog E A) t s Q : wp allowed moves p s Q -> R t s ->
  exists s', obeys moves s (answer env t p).1 s' /\ Q (answer env t p).2 s'.
Proof.
  revert t s. induction p as [a|X e k IH]; intros t s; cbn; [eauto|]. intros [Ha Hk] HR.
  destruct (serves t s X e HR Ha) as (s1 & Hm & HR1). destruct (env t X e) as [t1 x]. cbn in *.
  destruct (IH x t1 s1 (Hk x s1 Hm) HR1) as (s' & Ho & HQ). destruct (answer env t1 (k x)) as [tr a]. cbn in *. eauto 10.
Qed.
End Answer.
