(* ===== verification/Json.v ===== *)
(** * JSON documents

    The data type behind [serde_json::Value] as the sources use it: its
    constructors, the accessors [get], [as_str], [as_u64], ..., and the member
    operations of [serde_json::Map] with insertion order preserved (the
    [preserve_order] feature of Cargo.toml).  [same_doc] is equality of
    documents up to the order of object members; [value_wf] is the invariant
    every [Value] satisfies (distinct member names, integers in range). *)
From S2P Require Import Prelude.
From Stdlib Require Import SpecFloat.

(** [serde_json::Number]: an unsigned integer, a negative integer or a float. *)
Inductive number : Type :=
| PosInt (n : Z)
| NegInt (z : Z)
| Float (f : spec_float).

Unset Elimination Schemes.
Inductive value : Type :=
| JNull
| JBool (b : bool)
| JNumber (n : number)
| JString (s : string)
| JArray (items : list value)
| JObject (m : list (string * value)).
Set Elimination Schemes.

Lemma value_ind (P : value -> Prop) :
  P JNull -> (forall b, P (JBool b)) -> (forall n, P (JNumber n)) ->
  (forall s, P (JString s)) ->
  (forall l, Forall P l -> P (JArray l)) ->
  (forall m, Forall (fun kv => P kv.2) m -> P (JObject m)) ->
  forall v, P v.
Proof.
  intros Hn Hb Hnum Hs Ha Ho. fix go 1. intros [|b|n|s|l|m].
  - exact Hn.
  - apply Hb.
  - apply Hnum.
  - apply Hs.
  - apply Ha. induction l as [|x l IH]; constructor; [apply go|exact IH].
  - apply Ho. induction m as [|[k x] m IH]; constructor; [apply go|exact IH].
Qed.

#[global] Instance spec_float_eq_dec : EqDecision spec_float.
Proof. solve_decision. Defined.
#[global] Instance number_eq_dec : EqDecision number.
Proof. solve_decision. Defined.
#[global] Instance value_eq_dec : EqDecision value.
Proof.
  refine (fix go (v1 v2 : value) : Decision (v1 = v2) :=
    let _ : EqDecision value := @go in
    match v1, v2 with
    | JNull, JNull => left _
    | JBool a, JBool b => cast_if (decide (a = b))
    | JNumber a, JNumber b => cast_if (decide (a = b))
    | JString a, JString b => cast_if (decide (a = b))
    | JArray a, JArray b => cast_if (decide (a = b))
    | JObject a, JObject b => cast_if (decide (a = b))
    | _, _ => right _
    end); abstract congruence.
Defined.

(** ** [serde_json::Map] *)
Section Members.
Context {A : Type}.
Implicit Types m : list (string * A).

Fixpoint obj_get (k : string) m : option A :=
  match m with
  | [] => None
  | (k', v) :: m' => if bool_decide (k' = k) then Some v else obj_get k m'
  end.

(** [Map::insert]: overwrite in place, or append. *)
Fixpoint obj_insert (k : string) (v : A) m : list (string * A) :=
  match m with
  | [] => [(k, v)]
  | (k', v') :: m' =>
      if bool_decide (k' = k) then (k', v) :: m' else (k', v') :: obj_insert k v m'
  end.

(** [Map::remove] with preserved order is [IndexMap::swap_remove]: the last
    member takes the place of the removed one. *)
Fixpoint obj_remove (k : string) m : list (string * A) :=
  match m with
  | [] => []
  | (k', v') :: m' =>
      if bool_decide (k' = k) then
        match last m' with
        | Some l => l :: removelast m'
        | None => []
        end
      else (k', v') :: obj_remove k m'
  end.

Definition obj_keys m : list string := fst <$> m.

Lemma obj_get_hit k v m : obj_get k ((k, v) :: m) = Some v.
Proof. simpl. by rewrite bool_decide_eq_true_2. Qed.
Lemma obj_get_miss k k' v m : k' ≠ k -> obj_get k ((k', v) :: m) = obj_get k m.
Proof. intros H. simpl. by rewrite bool_decide_eq_false_2. Qed.
Lemma obj_get_elem k v m : obj_get k m = Some v -> (k, v) ∈ m.
Proof.
  induction m as [|[k' v'] m IH]; simpl; [done|].
  case_bool_decide; [intros [= ->]; subst; left|right; auto].
Qed.

Lemma obj_get_None k m : obj_get k m = None <-> k ∉ obj_keys m.
Proof.
  induction m as [|[k' v'] m IH]; simpl; [split; [intros _; apply not_elem_of_nil|done]|].
  rewrite not_elem_of_cons. case_bool_decide; naive_solver.
Qed.

Lemma obj_get_is_Some k m : is_Some (obj_get k m) <-> k ∈ obj_keys m.
Proof.
  destruct (decide (k ∈ obj_keys m)) as [Hin|Hin].
  - split; [done|intros _]. destruct (obj_get k m) eqn:Hg; [done|].
    by apply obj_get_None in Hg.
  - apply obj_get_None in Hin as Hn. rewrite Hn. split; [by intros []|done].
Qed.

Lemma obj_get_NoDup k v m : NoDup (obj_keys m) -> (k, v) ∈ m -> obj_get k m = Some v.
Proof.
  induction m as [|[k' v'] m IH]; simpl; [by intros _ ?%not_elem_of_nil|].
  intros [Hk Hnd]%NoDup_cons [[= -> ->]|Hin]%elem_of_cons.
  - by rewrite bool_decide_eq_true_2.
  - case_bool_decide as Heq; [subst; destruct Hk|by apply IH].
    by apply (list_elem_of_fmap_2 fst _ (k, v)).
Qed.

Lemma obj_get_insert k k' v m :
  obj_get k' (obj_insert k v m) = if bool_decide (k = k') then Some v else obj_get k' m.
Proof.
  induction m as [|[k0 v0] m IH]; simpl; [done|].
  repeat (case_bool_decide; simpl; subst); try congruence; rewrite ?IH;
    repeat case_bool_decide; congruence.
Qed.

Lemma obj_keys_insert_in k v m : k ∈ obj_keys m -> obj_keys (obj_insert k v m) = obj_keys m.
Proof.
  induction m as [|[k0 v0] m IH]; simpl; [by intros ?%not_elem_of_nil|].
  intros [->|Hin]%elem_of_cons; [by rewrite bool_decide_eq_true_2|].
  case_bool_decide; simpl; [done|]. by rewrite IH.
Qed.

Lemma obj_insert_fresh k v m : k ∉ obj_keys m -> obj_insert k v m = m ++ [(k, v)].
Proof.
  induction m as [|[k0 v0] m IH]; simpl; [done|].
  rewrite not_elem_of_cons. intros [Hne Hin].
  rewrite bool_decide_eq_false_2 by done. by rewrite IH.
Qed.

Lemma obj_insert_NoDup k v m : NoDup (obj_keys m) -> NoDup (obj_keys (obj_insert k v m)).
Proof.
  intros Hnd. destruct (decide (k ∈ obj_keys m)) as [Hin|Hin].
  - by rewrite obj_keys_insert_in.
  - rewrite obj_insert_fresh by done. unfold obj_keys. rewrite fmap_app. simpl.
    apply NoDup_app. split; [done|]. split; [|apply NoDup_singleton].
    intros x Hx ->%list_elem_of_singleton. done.
Qed.

Lemma obj_remove_perm k m :
  NoDup (obj_keys m) -> obj_remove k m ≡ₚ filter (fun kv => kv.1 ≠ k) m.
Proof.
  induction m as [|[k0 v0] m IH]; simpl; [done|].
  intros [Hk Hnd]%NoDup_cons. rewrite filter_cons. simpl.
  case_bool_decide as Heq.
  - rewrite decide_False by naive_solver. subst k0.
    assert (filter (fun kv => kv.1 ≠ k) m = m) as ->.
    { apply list_filter_all. intros [k' v'] Hin Heq. simpl in Heq. subst k'. destruct Hk.
      by apply (list_elem_of_fmap_2 fst _ (k, v')). }
    destruct (last m) as [l|] eqn:Hl.
    + apply last_Some in Hl as [m' ->]. rewrite removelast_last.
      by rewrite Permutation_app_comm.
    + by apply last_None in Hl as ->.
  - rewrite decide_True by done. by rewrite IH.
Qed.

Lemma obj_get_perm k m1 m2 :
  NoDup (obj_keys m1) -> m1 ≡ₚ m2 -> obj_get k m1 = obj_get k m2.
Proof.
  intros Hnd Hp.
  assert (Hnd2 : NoDup (obj_keys m2)) by (unfold obj_keys; by rewrite <- Hp).
  destruct (obj_get k m2) as [v|] eqn:Hg.
  - apply obj_get_NoDup; [done|]. rewrite Hp. by apply obj_get_elem.
  - apply obj_get_None. apply obj_get_None in Hg. unfold obj_keys in *. by rewrite Hp.
Qed.

Lemma obj_remove_NoDup k m : NoDup (obj_keys m) -> NoDup (obj_keys (obj_remove k m)).
Proof.
  intros Hnd. unfold obj_keys. rewrite obj_remove_perm by done.
  eapply sublist_NoDup; [exact Hnd|]. apply fmap_sublist, sublist_filter.
Qed.

Lemma obj_get_remove k k' m :
  NoDup (obj_keys m) ->
  obj_get k' (obj_remove k m) = if bool_decide (k = k') then None else obj_get k' m.
Proof.
  intros Hnd.
  rewrite (obj_get_perm k' _ _ (obj_remove_NoDup k m Hnd) (obj_remove_perm k m Hnd)).
  clear Hnd. induction m as [|[k0 v0] m IH]; simpl; [by case_bool_decide|].
  destruct (decide (k0 = k)) as [->|Hne].
  - rewrite filter_cons_False by naive_solver. rewrite IH. repeat case_bool_decide; naive_solver.
  - rewrite filter_cons_True by done. simpl. rewrite IH. repeat case_bool_decide; naive_solver.
Qed.
End Members.

(** ** Accessors of [Value] *)
Definition get (k : string) (v : value) : option value :=
  match v with JObject m => obj_get k m | _ => None end.
Definition as_str (v : value) : option string :=
  match v with JString s => Some s | _ => None end.
Definition as_bool (v : value) : option bool :=
  match v with JBool b => Some b | _ => None end.
Definition as_array (v : value) : option (list value) :=
  match v with JArray l => Some l | _ => None end.
Definition as_u64 (v : value) : option Z :=
  match v with JNumber (PosInt n) => Some n | _ => None end.
Definition is_null (v : value) : bool := match v with JNull => true | _ => false end.
Definition is_object (v : value) : bool := match v with JObject _ => true | _ => false end.
Definition get_str (k : string) (v : value) : option string := get k v ≫= as_str.

(** Look up members of a literal object. *)
Ltac members :=
  unfold get_str, get;
  repeat first [rewrite obj_get_hit | rewrite obj_get_miss by done];
  cbn [mbind option_bind as_str as_array as_bool as_u64].

(** [Number::is_i64() || Number::is_u64()]: every number that is not a float. *)
Definition number_is_integer (n : number) : bool :=
  match n with Float _ => false | _ => true end.
Definition number_wf (n : number) : Prop :=
  match n with
  | PosInt n => (0 <= n <= u64_max)%Z
  | NegInt z => (i64_min <= z < 0)%Z
  | Float _ => True
  end.

(** ** Well-formed documents and equality up to member order *)
Inductive value_wf : value -> Prop :=
| wf_null : value_wf JNull
| wf_bool b : value_wf (JBool b)
| wf_number n : number_wf n -> value_wf (JNumber n)
| wf_string s : value_wf (JString s)
| wf_array l : Forall value_wf l -> value_wf (JArray l)
| wf_object m :
    NoDup (obj_keys m) -> Forall (fun kv => value_wf kv.2) m -> value_wf (JObject m).

Definition number_wfb (n : number) : bool :=
  match n with
  | PosInt n => (0 <=? n)%Z && (n <=? u64_max)%Z
  | NegInt z => (i64_min <=? z)%Z && (z <? 0)%Z
  | Float _ => true
  end.
Fixpoint value_wfb (v : value) : bool :=
  match v with
  | JNumber n => number_wfb n
  | JArray l => forallb value_wfb l
  | JObject m => bool_decide (NoDup (obj_keys m)) && forallb (fun kv => value_wfb kv.2) m
  | _ => true
  end.

Lemma value_wfb_spec v : value_wfb v = true <-> value_wf v.
Proof.
  assert (Hnum : forall n, number_wfb n = true <-> number_wf n) by (intros []; simpl; lia || done).
  induction v as [| | | |l IH|m IH] using value_ind; simpl; try (by split; [constructor|]).
  - rewrite Hnum. split; [by constructor|]. intros Hw; by inv Hw.
  - assert (forallb value_wfb l = true <-> Forall value_wf l) as ->.
    { induction IH; simpl; [by split|]. rewrite andb_true_iff, Forall_cons. naive_solver. }
    split; [by constructor|]. intros Hw; by inv Hw.
  - assert (forallb (fun kv => value_wfb kv.2) m = true <-> Forall (fun kv => value_wf kv.2) m) as Hm.
    { induction IH; simpl; [by split|]. rewrite andb_true_iff, Forall_cons. naive_solver. }
    rewrite andb_true_iff, bool_decide_eq_true, Hm. split; [intros []; by constructor|].
    intros Hw; by inv Hw.
Qed.

#[global] Instance value_wf_dec v : Decision (value_wf v).
Proof. destruct (value_wfb v) eqn:E; [left|right]; rewrite <- value_wfb_spec; congruence. Defined.

Definition is_atom (v : value) : bool :=
  match v with JArray _ | JObject _ => false | _ => true end.

Inductive same_doc : value -> value -> Prop :=
| same_atom v : is_atom v = true -> same_doc v v
| same_array l1 l2 : Forall2 same_doc l1 l2 -> same_doc (JArray l1) (JArray l2)
| same_object m1 m2 :
    (forall k, k ∈ obj_keys m1 <-> k ∈ obj_keys m2) ->
    (forall k v1 v2, obj_get k m1 = Some v1 -> obj_get k m2 = Some v2 -> same_doc v1 v2) ->
    same_doc (JObject m1) (JObject m2).

Lemma Forall_obj_get {P : value -> Prop} m k v :
  Forall (fun kv => P kv.2) m -> obj_get k m = Some v -> P v.
Proof. intros HP Hg%obj_get_elem. by eapply Forall_forall in HP; [|exact Hg]. Qed.

Lemma wf_obj_get m k v :
  Forall (fun kv => value_wf kv.2) m -> obj_get k m = Some v -> value_wf v.
Proof. apply Forall_obj_get. Qed.

Lemma same_doc_refl v : same_doc v v.
Proof.
  induction v as [| | | |l IH|m IH] using value_ind; try by constructor.
  - apply same_array. induction IH; constructor; auto.
  - apply same_object; [done|]. intros k v1 v2 H1 H2. simplify_eq.
    exact (Forall_obj_get (P := fun v => same_doc v v) _ _ _ IH H1).
Qed.

Lemma same_doc_sym v1 v2 : same_doc v1 v2 -> same_doc v2 v1.
Proof.
  revert v2; induction v1 as [| | | |l IH|m IH] using value_ind;
    intros v2 Hs; inv Hs; try (by constructor).
  - apply same_array. revert IH. match goal with H : Forall2 _ _ _ |- _ => induction H end;
      intros IH; inv IH; constructor; auto.
  - apply same_object; [naive_solver|]. intros k w1 w2 Hw1 Hw2.
    eapply (Forall_obj_get (P := fun v => forall w, same_doc v w -> same_doc w v)); eauto.
Qed.

Lemma same_doc_trans v1 v2 v3 : same_doc v1 v2 -> same_doc v2 v3 -> same_doc v1 v3.
Proof.
  revert v2 v3; induction v1 as [| | | |l IH|m IH] using value_ind;
    intros v2 v3 H12 H23; inv H12; try (by inv H23; constructor); inv H23; try done.
  - apply same_array. rename select (Forall2 _ l _) into F1. rename select (Forall2 _ _ l0) into F2.
    match type of F2 with Forall2 _ _ ?l => revert l F2 end.
    induction F1 as [|x y l l2 Hxy F1 IHF]; intros l3 F2; inv F2; [constructor|].
    inv IH. constructor; eauto.
  - apply same_object; [naive_solver|]. intros k w1 w3 Hw1 Hw3.
    rename select (forall k, k ∈ obj_keys m <-> _) into Hd.
    assert (is_Some (obj_get k m2)) as [w2 Hw2].
    { apply obj_get_is_Some, Hd, obj_get_is_Some. eauto. }
    eapply (Forall_obj_get (P := fun v => forall w u, same_doc v w -> same_doc w u -> same_doc v u));
      eauto.
Qed.

#[global] Instance same_doc_equivalence : Equivalence same_doc.
Proof.
  split; [exact same_doc_refl|exact same_doc_sym|exact same_doc_trans].
Qed.

(** Member accesses do not see the member order. *)
#[global] Instance get_proper k : Proper (same_doc ==> option_Forall2 same_doc) (get k).
Proof.
  intros v1 v2 Hs. inv Hs; simpl.
  - destruct v2; simpl in *; try done; constructor.
  - constructor.
  - destruct (obj_get k m1) as [w1|] eqn:H1, (obj_get k m2) as [w2|] eqn:H2.
    + constructor. eauto.
    + apply obj_get_None in H2. destruct H2. apply H, obj_get_is_Some. eauto.
    + apply obj_get_None in H1. destruct H1. apply H, obj_get_is_Some. eauto.
    + constructor.
Qed.

(** ** Removing and inserting members *)
Lemma obj_remove_fresh {A} k (m : list (string * A)) : k ∉ obj_keys m -> obj_remove k m = m.
Proof.
  induction m as [|[k0 v0] m IH]; simpl; [done|]. rewrite not_elem_of_cons. intros [Hne Hin].
  rewrite bool_decide_eq_false_2 by done. by rewrite IH.
Qed.
Lemma obj_remove_insert_fresh {A} k v (m : list (string * A)) :
  k ∉ obj_keys m -> obj_remove k (obj_insert k v m) = m.
Proof.
  intros Hk. rewrite obj_insert_fresh by done.
  induction m as [|[k0 v0] m IH]; simpl.
  - by rewrite bool_decide_eq_true_2.
  - apply not_elem_of_cons in Hk as [Hne Hk]. rewrite bool_decide_eq_false_2 by done. by rewrite IH.
Qed.

Lemma obj_insert_Forall {P : value -> Prop} k v m :
  P v -> Forall (fun kv => P kv.2) m -> Forall (fun kv => P kv.2) (obj_insert k v m).
Proof.
  intros Hv. induction 1 as [|[k0 v0] m H0 Hm IH]; simpl; [by repeat constructor|].
  case_bool_decide; by constructor.
Qed.
Lemma obj_insert_wf k v m : value_wf v -> value_wf (JObject m) -> value_wf (JObject (obj_insert k v m)).
Proof.
  intros Hv Hm. inv Hm. constructor; [by apply obj_insert_NoDup|by apply obj_insert_Forall].
Qed.
Lemma obj_remove_wf k m : value_wf (JObject m) -> value_wf (JObject (obj_remove k m)).
Proof.
  intros Hm. inversion_clear Hm as [| | | | |? Hnd HF]. constructor; [by apply obj_remove_NoDup|].
  rewrite (obj_remove_perm k m) by done. apply Forall_forall. intros kv [_ Hin]%list_elem_of_filter. exact (proj1 (Forall_forall _ _) HF _ Hin).
Qed.

(** Inserting the members of a map into a map with other keys appends them. *)
Lemma foldl_insert_fresh {A} (fs m : list (string * A)) :
  NoDup (obj_keys fs) -> (forall k, k ∈ obj_keys fs -> k ∉ obj_keys m) ->
  foldl (fun obj kv => obj_insert kv.1 kv.2 obj) m fs = m ++ fs.
Proof.
  revert m. induction fs as [|[k v] fs IH]; intros m Hnd Hd; [by rewrite app_nil_r|].
  cbn in *. apply NoDup_cons in Hnd as [Hk Hnd].
  rewrite obj_insert_fresh by (apply Hd; left). rewrite IH, <- app_assoc; [done|done|].
  intros k' Hk'. unfold obj_keys. rewrite fmap_app, not_elem_of_app. split.
  - apply Hd. by right.
  - cbn. intros ->%list_elem_of_singleton. done.
Qed.

Lemma same_doc_remove k m1 m2 :
  NoDup (obj_keys m1) -> NoDup (obj_keys m2) -> same_doc (JObject m1) (JObject m2) ->
  same_doc (JObject (obj_remove k m1)) (JObject (obj_remove k m2)).
Proof.
  intros H1 H2 Hs. inv Hs.
  apply same_object.
  - intros k'. rewrite <- !obj_get_is_Some, !obj_get_remove by done.
    case_bool_decide; [by rewrite !is_Some_alt|]. by rewrite !obj_get_is_Some.
  - intros k' v1 v2. rewrite !obj_get_remove by done. case_bool_decide; [done|eauto].
Qed.

Lemma as_str_proper v1 v2 : same_doc v1 v2 -> as_str v1 = as_str v2.
Proof. by intros [[]| |]. Qed.
Lemma as_u64_proper v1 v2 : same_doc v1 v2 -> as_u64 v1 = as_u64 v2.
Proof. by intros [[]| |]. Qed.
Lemma same_doc_as_array v1 v2 :
  same_doc v1 v2 -> option_Forall2 (Forall2 same_doc) (as_array v1) (as_array v2).
Proof. intros [[] Ha| |]; try done; by constructor. Qed.

#[global] Instance get_str_proper k : Proper (same_doc ==> eq) (get_str k).
Proof.
  intros v1 v2 Hs. unfold get_str. destruct (get_proper k _ _ Hs) as [w1 w2 Hw|]; [|done].
  by apply as_str_proper.
Qed.

Lemma find_Forall2 {A} (R : A -> A -> Prop) (p : A -> bool) l1 l2 :
  (forall x y, R x y -> p x = p y) -> Forall2 R l1 l2 ->
  option_Forall2 R (List.find p l1) (List.find p l2).
Proof.
  intros Hp. induction 1 as [|x y l1 l2 Hxy _ IH]; simpl; [constructor|].
  rewrite <- (Hp _ _ Hxy). destruct (p x); [by constructor|done].
Qed.
Lemma get_u64_proper k v1 v2 : same_doc v1 v2 -> get k v1 ≫= as_u64 = get k v2 ≫= as_u64.
Proof.
  intros Hs. destruct (get_proper k _ _ Hs) as [w1 w2 Hw|]; [by apply as_u64_proper|done].
Qed.
