(* ===== verification/External.v ===== *)
(** * Interfaces to the third-party crates

    The sources call [sha2], [sha3], [hex], [base64] and [serde_json], whose
    code is not part of the repository.  Each is a parameter: a class with the
    functions that are called and the documented facts the gateway relies on.
    No class claims that a hash has no collisions, since one of fixed length
    has some.  Where collision resistance matters a theorem either exhibits the
    two strings that collide ([collide], [collision_among]) or assumes that none
    collide among the strings the deployment hashes ([HashDomain]). *)
From S2P Require Import Prelude Json.

(** These two different inputs have the same image. *)
Definition collide {A B} (f : A -> B) (x y : A) : Prop := x ≠ y /\ f x = f y.
Definition collision_among {A B} (f : A -> B) (l : list A) : Prop := exists x y, x ∈ l /\ y ∈ l /\ collide f x y.

Lemma collide_or_eq {A B} `{EqDecision A} (f : A -> B) x y : f x = f y -> x = y \/ collide f x y.
Proof. intros Hf. destruct (decide (x = y)); [by left|right]. by split. Qed.
Lemma collision_among_mono {A B} (f : A -> B) l1 l2 : l1 ⊆ l2 -> collision_among f l1 -> collision_among f l2.
Proof. intros Hl (x & y & Hx & Hy & Hc). exists x, y. auto. Qed.

(** [sha2] and [sha3]. *)
Class Sha := {
  sha256 : bytes -> bytes;
  sha384 : bytes -> bytes;
  keccak256 : bytes -> bytes;
  sha256_length b : length (sha256 b) = 32;
  sha384_length b : length (sha384 b) = 48;
  keccak256_length b : length (keccak256 b) = 32;
}.

(** The strings that a deployment passes to SHA-256 when it seals, stores and reads
    back sessions, among which none collide. *)
Class HashDomain `{SH : Sha} := {
  hashed : bytes -> Prop;
  hashed_inj x y : hashed x -> hashed y -> sha256 x = sha256 y -> x = y;
}.
(** Any list of strings without a collision is such a domain. *)
Definition collision_free {SH : Sha} (l : list bytes) : bool :=
  forallb (fun x => forallb (fun y => bool_decide (x = y) || negb (bool_decide (sha256 x = sha256 y))) l) l.
Lemma collision_free_inj {SH : Sha} l x y : collision_free l = true -> x ∈ l -> y ∈ l -> sha256 x = sha256 y -> x = y.
Proof.
  unfold collision_free. rewrite forallb_forall. intros Hl Hx%list_elem_of_In Hy%list_elem_of_In Hs.
  apply Hl in Hx. rewrite forallb_forall in Hx. apply Hx in Hy. apply orb_prop in Hy as [Hy|Hy].
  - by apply bool_decide_eq_true in Hy.
  - by rewrite bool_decide_eq_true_2 in Hy.
Qed.
Definition list_domain {SH : Sha} (l : list bytes) (H : collision_free l = true) : HashDomain :=
  {| hashed b := b ∈ l; hashed_inj x y := collision_free_inj l x y H |}.

(** [hex]: lowercase encoding; decoding accepts both cases. *)
Class HexCodec := {
  hex_encode : bytes -> string;
  hex_decode : string -> result string bytes;
  hex_decode_encode b : hex_decode (hex_encode b) = Ok b;
  hex_encode_length b : str_len (hex_encode b) = 2 * length b;
  hex_encode_lower b : all_bytes is_lower_hex (hex_encode b) = true;
  hex_decode_canonical s b : hex_decode s = Ok b -> to_ascii_lowercase s = hex_encode b;
}.

(** [base64]'s [STANDARD] engine: padded, and decoding only canonical text. *)
Class Base64 := {
  b64_encode : bytes -> string;
  b64_decode : string -> option bytes;
  b64_decode_encode b : b64_decode (b64_encode b) = Some b;
  b64_encode_decode s b : b64_decode s = Some b -> b64_encode b = s;
}.

(** Nesting of arrays and objects; the parser refuses 128 levels and more. *)
Fixpoint json_depth (v : value) : nat :=
  match v with
  | JArray l => S (foldr Nat.max 0 (List.map json_depth l))
  | JObject m => S (foldr Nat.max 0 (List.map (fun kv => json_depth kv.2) m))
  | _ => 0
  end.

Lemma json_depth_object m d :
  json_depth (JObject m) <= d <-> 0 < d /\ Forall (fun kv => S (json_depth kv.2) <= d) m.
Proof.
  cbn [json_depth]. induction m as [|kv m IH]; simpl; [rewrite Forall_nil; lia|].
  rewrite Forall_cons. simpl in IH.
  assert (forall a b, S (a `max` b) <= d <-> S a <= d /\ S b <= d) as -> by lia. naive_solver.
Qed.
Lemma obj_remove_depth k m d :
  NoDup (obj_keys m) -> json_depth (JObject m) <= d -> json_depth (JObject (obj_remove k m)) <= d.
Proof.
  rewrite !json_depth_object. intros Hnd [Hd HF]. split; [done|].
  apply Forall_forall. intros kv. rewrite (obj_remove_perm k m Hnd).
  intros [_ Hin]%list_elem_of_filter. exact (proj1 (Forall_forall _ _) HF _ Hin).
Qed.

Inductive float_free : value -> Prop :=
| ff_null : float_free JNull
| ff_bool b : float_free (JBool b)
| ff_number n : number_is_integer n = true -> float_free (JNumber n)
| ff_string s : float_free (JString s)
| ff_array l : Forall float_free l -> float_free (JArray l)
| ff_object m : Forall (fun kv => float_free kv.2) m -> float_free (JObject m).

(** [serde_json]: compact serialization, which escapes control characters and neither begins nor
    ends with white space, and parsing, which refuses text that is not JSON ([[DONE]] is the
    sentinel of the chat streams). Parsing inverts printing on float-free documents within the
    recursion limit. *)
Class SerdeJson := {
  to_vec : value -> bytes;
  from_slice : bytes -> result string value;
  number_to_string : number -> string;
  to_vec_no_line_break v : u8 10 ∉ to_vec v /\ u8 13 ∉ to_vec v;
  to_vec_compact v : to_vec v ≠ [] /\
    (forall c, head (to_vec v) = Some c \/ last (to_vec v) = Some c -> is_ascii_whitespace c = false);
  from_slice_wf b v : from_slice b = Ok v -> value_wf v;
  from_slice_done : is_ok (from_slice (as_bytes "[DONE]")) = false;
  from_slice_depth b v : from_slice b = Ok v -> json_depth v <= 127;
  from_slice_to_vec v :
    value_wf v -> float_free v -> json_depth v <= 127 -> from_slice (to_vec v) = Ok v;
}.

Section Facts.
Context {HX : HexCodec}.
#[global] Instance hex_encode_inj : Inj (=) (=) hex_encode.
Proof.
  intros a b Hab. pose proof (hex_decode_encode a) as Ha.
  rewrite Hab, hex_decode_encode in Ha. by injection Ha.
Qed.
Lemma hex_encode_no_prefix b : strip_prefix "0x" (hex_encode b) = None.
Proof.
  destruct (strip_prefix "0x" (hex_encode b)) as [r|] eqn:Hs; [|done].
  apply strip_prefix_spec in Hs. pose proof (hex_encode_lower b) as Hl. by rewrite Hs in Hl.
Qed.
End Facts.
