(* ===== verification/Sample.v ===== *)
(** * Concrete stand-ins for the third-party interfaces

    Real hexadecimal, and simple total functions with the documented laws for
    the other crates.  They show that the laws of [External] are consistent and
    let the witnesses of the theorems run on concrete inputs.  The instances are
    local: a witness asks for them by name. *)
From S2P Require Import Prelude Json External.
From Stdlib Require Import SpecFloat.

(** ** Hexadecimal *)
Definition hex_digit (n : N) : ascii := ascii_of_N (if (n <? 10)%N then 48 + n else 87 + n).
Definition hex_value (c : ascii) : option N :=
  if is_ascii_digit c then Some (byte c - 48)%N
  else if in_range 97 102 c then Some (byte c - 87)%N
  else if in_range 65 70 c then Some (byte c - 55)%N
  else None.
Definition hex_pair (c : ascii) : bytes := [hex_digit (byte c / 16); hex_digit (byte c mod 16)].
Fixpoint hex_parse (l : bytes) : option bytes :=
  match l with
  | [] => Some []
  | a :: b :: l' =>
      x ← hex_value a; y ← hex_value b; r ← hex_parse l'; Some (ascii_of_N (16 * x + y) :: r)
  | [_] => None
  end.
Definition sample_hex_encode (b : bytes) : string := of_bytes (concat (List.map hex_pair b)).
Definition sample_hex_decode (s : string) : result string bytes :=
  ok_or "invalid hex" (hex_parse (as_bytes s)).

Lemma hex_parse_pair c l : hex_parse (hex_pair c ++ l) = cons c <$> hex_parse l.
Proof.
  destruct c as [[] [] [] [] [] [] [] []]; vm_compute (hex_pair _); simpl;
    by destruct (hex_parse l).
Qed.
Lemma hex_pair_lower c : forallb is_lower_hex (hex_pair c) = true.
Proof. by destruct c as [[] [] [] [] [] [] [] []]. Qed.
Lemma hex_value_pair a b x y :
  hex_value a = Some x -> hex_value b = Some y ->
  [to_ascii_lowercase_byte a; to_ascii_lowercase_byte b] = hex_pair (ascii_of_N (16 * x + y)).
Proof.
  assert (Hdig : forall c n, hex_value c = Some n ->
    (n < 16)%N /\ to_ascii_lowercase_byte c = hex_digit n).
  { intros c n Hc. destruct c as [[] [] [] [] [] [] [] []]; vm_compute in Hc; simplify_eq;
      by vm_compute. }
  intros [Hx ->]%Hdig [Hy ->]%Hdig. unfold hex_pair, byte.
  rewrite N_ascii_embedding by lia. do 2 f_equal; [|do 2 f_equal].
  - rewrite N.mul_comm, N.div_add_l by lia. rewrite N.div_small; lia.
  - rewrite N.add_comm, N.mul_comm, N.Div0.mod_add. by rewrite N.mod_small.
Qed.

Lemma hex_parse_lower n : forall l b, length l <= n -> hex_parse l = Some b ->
  to_ascii_lowercase_byte <$> l = concat (List.map hex_pair b).
Proof.
  induction n as [|n IH]; intros [|a1 [|a2 l]] b Hl; simpl in *; try lia; try naive_solver.
  destruct (hex_value a1) as [x|] eqn:Hx; simpl; [|done].
  destruct (hex_value a2) as [y|] eqn:Hy; simpl; [|done].
  destruct (hex_parse l) as [r|] eqn:Hr; simpl; [|done]. intros [= <-].
  cbn [List.map concat]. rewrite <- (hex_value_pair _ _ _ _ Hx Hy), <- (IH l r) by (done || lia). done.
Qed.

#[local] Program Instance sample_hex : HexCodec := {|
  hex_encode := sample_hex_encode;
  hex_decode := sample_hex_decode;
|}.
Next Obligation.
  intros b. unfold sample_hex_decode, sample_hex_encode. rewrite as_bytes_of_bytes.
  induction b as [|c b IH]; [done|]. cbn [List.map concat]. rewrite hex_parse_pair.
  destruct (hex_parse _); simplify_eq/=. by f_equal.
Qed.
Next Obligation.
  intros b. unfold sample_hex_encode, str_len. rewrite as_bytes_of_bytes.
  induction b as [|c b IH]; [done|]. simpl in *. lia.
Qed.
Next Obligation.
  intros b. unfold sample_hex_encode, all_bytes. rewrite as_bytes_of_bytes.
  induction b as [|c b IH]; [done|]. cbn [List.map concat].
  by rewrite forallb_app, hex_pair_lower, IH.
Qed.
Next Obligation.
  intros s b. unfold sample_hex_decode, sample_hex_encode, to_ascii_lowercase.
  destruct (hex_parse (as_bytes s)) as [r|] eqn:Hr; simpl; [|done]. intros [= <-]. f_equal.
  by eapply hex_parse_lower.
Qed.

(** ** Digests: the first bytes of the zero-padded input. *)
Definition zeros (n : nat) : bytes := replicate n (u8 0).
Definition sample_digest (n : nat) (b : bytes) : bytes := take n (b ++ zeros n).
Lemma sample_digest_length n b : length (sample_digest n b) = n.
Proof. unfold sample_digest, zeros. rewrite length_take, length_app, length_replicate. lia. Qed.
#[local] Instance sample_sha : Sha := {|
  sha256 := sample_digest 32;
  sha384 := sample_digest 48;
  keccak256 := sample_digest 32;
  sha256_length := sample_digest_length 32;
  sha384_length := sample_digest_length 48;
  keccak256_length := sample_digest_length 32;
|}.

(** ** Base64: the identity on byte strings. *)
#[local] Program Instance sample_base64 : Base64 := {|
  b64_encode := of_bytes;
  b64_decode s := Some (as_bytes s);
|}.
Next Obligation. intros b. simpl. by rewrite as_bytes_of_bytes. Qed.
Next Obligation. intros s b [= <-]. apply of_bytes_as_bytes. Qed.

(** ** JSON: the bits of an injective numbering of documents. *)
#[global] Instance spec_float_countable : Countable spec_float.
Proof.
  refine (inj_countable' (fun f => match f with
    | S754_zero s => inl s
    | S754_infinity s => inr (inl s)
    | S754_nan => inr (inr (inl ()))
    | S754_finite s m e => inr (inr (inr (s, m, e)))
    end) (fun x => match x with
    | inl s => S754_zero s
    | inr (inl s) => S754_infinity s
    | inr (inr (inl _)) => S754_nan
    | inr (inr (inr (s, m, e))) => S754_finite s m e
    end) _); by intros [].
Defined.
#[global] Instance number_countable : Countable number.
Proof.
  refine (inj_countable' (fun n => match n with
    | PosInt z => inl z | NegInt z => inr (inl z) | Float f => inr (inr f) end)
    (fun x => match x with
    | inl z => PosInt z | inr (inl z) => NegInt z | inr (inr f) => Float f end) _); by intros [].
Defined.

Fixpoint value_tree (v : value) : gen_tree (bool + (number + string)) :=
  match v with
  | JNull => GenNode 0 []
  | JBool b => GenLeaf (inl b)
  | JNumber n => GenLeaf (inr (inl n))
  | JString s => GenLeaf (inr (inr s))
  | JArray l => GenNode 1 (List.map value_tree l)
  | JObject m => GenNode 2 (List.map (fun kv => GenNode 0 [GenLeaf (inr (inr kv.1)); value_tree kv.2]) m)
  end.
Fixpoint tree_value (t : gen_tree (bool + (number + string))) : value :=
  match t with
  | GenNode 0 _ => JNull
  | GenLeaf (inl b) => JBool b
  | GenLeaf (inr (inl n)) => JNumber n
  | GenLeaf (inr (inr s)) => JString s
  | GenNode 1 l => JArray (List.map tree_value l)
  | GenNode _ l =>
      JObject (List.map (fun t => match t with
        | GenNode _ [GenLeaf (inr (inr k)); u] => (k, tree_value u)
        | _ => (EmptyString, JNull) end) l)
  end.
Lemma tree_value_tree v : tree_value (value_tree v) = v.
Proof.
  induction v as [| | | |l IH|m IH] using value_ind; simpl; try done; f_equal.
  - induction IH; simpl; f_equal; auto.
  - induction IH as [|[k v] m Hv IH IHm]; simpl; f_equal; [|done]. f_equal. exact Hv.
Qed.
#[global] Instance value_countable : Countable value := inj_countable' _ _ tree_value_tree.

Fixpoint pos_bits (p : positive) : bytes :=
  match p with xH => [] | xO p => u8 48 :: pos_bits p | xI p => u8 49 :: pos_bits p end.
Fixpoint bits_pos (l : bytes) : positive :=
  match l with
  | [] => xH
  | c :: l' => if bool_decide (c = u8 48) then xO (bits_pos l') else xI (bits_pos l')
  end.
Lemma bits_pos_bits p : bits_pos (pos_bits p) = p.
Proof. induction p as [p IH|p IH|]; simpl; [by rewrite IH|by rewrite IH|done]. Qed.

Definition sample_to_vec (v : value) : bytes := u8 49 :: pos_bits (encode v).
Definition sample_from_slice (b : bytes) : result string value :=
  match b with
  | c :: b' =>
      if bool_decide (c = u8 49) then
        match decode (bits_pos b') with
        | Some v => if decide (value_wf v /\ json_depth v <= 127) then Ok v else Err "malformed document"
        | None => Err "syntax error"
        end
      else Err "syntax error"
  | [] => Err "end of input"
  end.
Lemma pos_bits_digits p : Forall (fun c => c = u8 48 \/ c = u8 49) (pos_bits p).
Proof. induction p; simpl; [constructor; [by right|done]|constructor; [by left|done]|constructor]. Qed.
Lemma sample_to_vec_digits v : Forall (fun c => c = u8 48 \/ c = u8 49) (sample_to_vec v).
Proof. constructor; [by right|apply pos_bits_digits]. Qed.
Lemma sample_from_slice_inv b v : sample_from_slice b = Ok v -> value_wf v /\ json_depth v <= 127.
Proof.
  unfold sample_from_slice. destruct b as [|c b]; [done|]. case_bool_decide; [|done].
  destruct (decode _); [|done]. case_decide; naive_solver.
Qed.
#[local] Program Instance sample_json : SerdeJson := {|
  to_vec := sample_to_vec;
  from_slice := sample_from_slice;
  number_to_string n := of_bytes (pos_bits (encode n));
|}.
Next Obligation.
  intros v. pose proof (sample_to_vec_digits v) as H. rewrite Forall_forall in H.
  split; intros Hin; by destruct (H _ Hin).
Qed.
Next Obligation.
  intros v. split; [done|]. pose proof (sample_to_vec_digits v) as H. rewrite Forall_forall in H.
  intros c Hc. assert (c ∈ sample_to_vec v) as Hin.
  { destruct Hc as [[= <-]|Hc]; [left|by apply last_Some_elem_of]. }
  by destruct (H _ Hin) as [-> | ->].
Qed.
Next Obligation. intros b v H. apply (sample_from_slice_inv b v H). Qed.
Next Obligation. by vm_compute. Qed.
Next Obligation. intros b v H. apply (sample_from_slice_inv b v H). Qed.
Next Obligation.
  intros v Hwf _ Hd. unfold sample_from_slice, sample_to_vec. rewrite bool_decide_eq_true_2 by done.
  rewrite bits_pos_bits, decode_encode. by rewrite decide_True.
Qed.
