(* ===== verification/Digest.v ===== *)
(** * Digests and JSON canonicalization (crates/aci-protocol/src/digest.rs)

    [sha256_hex] and its variants, and [jcs_bytes], the RFC 8785 form under the
    ACI constraints (ASCII member names, integer numbers).  The theorems show
    that the canonical bytes identify a document exactly up to member order,
    and which documents are refused. *)
From S2P Require Import Prelude Json External Sample.

Section Digest.
Context {SH : Sha} {HX : HexCodec} {SJ : SerdeJson}.

(** ** Digest fields *)
Definition sha256_hex (payload : bytes) : string := "sha256:" +:+ hex_encode (sha256 payload).
Definition sha256_bare_hex (payload : bytes) : string := hex_encode (sha256 payload).
Definition sha256_raw (payload : bytes) : bytes := sha256 payload.

Inductive JcsError : Type :=
| NonIntegerNumber (text : string)
| NonAsciiFieldName (name : string).

(** ** Canonicalization *)

(** The loop over the sorted keys: [children] holds each member's already
    canonicalized value, so [map[key]] is [obj_get key children]; the keys are
    those of the map, so the lookup never misses. *)
Fixpoint sorted_members (keys : list string) (children : list (string * result JcsError value))
    (out : list (string * value)) : result JcsError (list (string * value)) :=
  match keys with
  | [] => Ok out
  | key :: keys' =>
      if is_ascii key then
        child ← default (Ok JNull) (obj_get key children);
        sorted_members keys' children (obj_insert key child out)
      else Err (NonAsciiFieldName key)
  end.

Fixpoint sorted (v : value) : result JcsError value :=
  match v with
  | JObject m =>
      let keys := merge_sort String.le (obj_keys m) in
      let children := List.map (fun kv => (kv.1, sorted kv.2)) m in
      JObject <$> sorted_members keys children []
  | JArray items => JArray <$> collect_results (List.map sorted items)
  | JNumber n =>
      if number_is_integer n then Ok v else Err (NonIntegerNumber (number_to_string n))
  | other => Ok other
  end.

Definition jcs_bytes (v : value) : result JcsError bytes := to_vec <$> sorted v.

(** The documents Appendix A admits: ASCII member names, integer numbers. *)
Inductive jcs_admissible : value -> Prop :=
| adm_null : jcs_admissible JNull
| adm_bool b : jcs_admissible (JBool b)
| adm_number n : number_is_integer n = true -> jcs_admissible (JNumber n)
| adm_string s : jcs_admissible (JString s)
| adm_array l : Forall jcs_admissible l -> jcs_admissible (JArray l)
| adm_object m :
    Forall (fun kv => is_ascii kv.1 = true /\ jcs_admissible kv.2) m ->
    jcs_admissible (JObject m).

(** ** Lemmas *)
Lemma obj_keys_map {A B} (f : A -> B) (m : list (string * A)) :
  obj_keys (List.map (fun kv => (kv.1, f kv.2)) m) = obj_keys m.
Proof. induction m as [|[k v] m IH]; [done|]. unfold obj_keys in *. simpl. by f_equal. Qed.

Lemma obj_get_map {A B} (f : A -> B) k (m : list (string * A)) :
  obj_get k (List.map (fun kv => (kv.1, f kv.2)) m) = f <$> obj_get k m.
Proof. induction m as [|[k' v] m IH]; simpl; [done|]. by case_bool_decide. Qed.

Lemma obj_keys_zip {A} (keys : list string) (vs : list A) :
  length vs = length keys -> obj_keys (zip keys vs) = keys.
Proof. intros Hl. apply fst_zip. lia. Qed.

Lemma sorted_members_ok keys children out r :
  NoDup keys -> (forall k, k ∈ keys -> k ∉ obj_keys out) ->
  sorted_members keys children out = Ok r <->
  exists vs, r = out ++ zip keys vs /\
    Forall2 (fun k v => is_ascii k = true /\
                        default (Ok JNull) (obj_get k children) = Ok v) keys vs.
Proof.
  revert out. induction keys as [|key keys IH]; intros out Hnd Hfresh; simpl.
  { split.
    - intros [= <-]. exists []. rewrite app_nil_r. by split; [|constructor].
    - intros (vs & -> & HF). inv HF. by rewrite app_nil_r. }
  apply NoDup_cons in Hnd as [Hkey Hnd].
  destruct (is_ascii key) eqn:Ha.
  2:{ split; [done|]. intros (vs & -> & HF). inv HF. naive_solver congruence. }
  destruct (default (Ok JNull) (obj_get key children)) as [child|e] eqn:Hc; simpl.
  2:{ split; [done|]. intros (vs & -> & HF). inv HF. naive_solver congruence. }
  rewrite obj_insert_fresh by (apply Hfresh; left).
  rewrite IH; [|done|].
  2:{ intros k Hk. unfold obj_keys. rewrite fmap_app, not_elem_of_app. split.
      - apply Hfresh. by right.
      - simpl. intros ->%list_elem_of_singleton. done. }
  split.
  - intros (vs & -> & HF). exists (child :: vs). simpl. rewrite <- app_assoc.
    split; [done|]. by constructor.
  - intros (vs & -> & HF). inv HF. exists l'. simpl. rewrite <- app_assoc.
    split; [|done]. naive_solver congruence.
Qed.

Lemma sorted_members_ext keys ch1 ch2 out :
  (forall k, k ∈ keys -> obj_get k ch1 = obj_get k ch2) ->
  sorted_members keys ch1 out = sorted_members keys ch2 out.
Proof.
  revert out. induction keys as [|key keys IH]; intros out Hext; simpl; [done|].
  rewrite (Hext key) by left. case_bool; [|done].
  destruct (default _ _); simpl; [|done]. apply IH. intros k Hk. apply Hext. by right.
Qed.

Lemma sort_keys_NoDup (l : list string) : NoDup l -> NoDup (merge_sort String.le l).
Proof. intros. by rewrite merge_sort_Permutation. Qed.

(** The members of a canonicalized object, one by one. *)
Lemma sorted_object_ok m c :
  NoDup (obj_keys m) ->
  sorted (JObject m) = Ok c <->
  exists vs, c = JObject (zip (merge_sort String.le (obj_keys m)) vs) /\
    Forall2 (fun k v => is_ascii k = true /\ exists w, obj_get k m = Some w /\ sorted w = Ok v)
      (merge_sort String.le (obj_keys m)) vs.
Proof.
  intros Hnd. simpl. set (keys := merge_sort String.le (obj_keys m)).
  assert (Hin : forall k, k ∈ keys -> k ∈ obj_keys m).
  { intros k. unfold keys. by rewrite merge_sort_Permutation. }
  assert (Hiff : forall vs,
    Forall2 (fun k v => is_ascii k = true /\ default (Ok JNull)
        (obj_get k (List.map (fun kv => (kv.1, sorted kv.2)) m)) = Ok v) keys vs <->
    Forall2 (fun k v => is_ascii k = true /\ exists w, obj_get k m = Some w /\ sorted w = Ok v)
      keys vs).
  { intros vs. clearbody keys. revert vs. induction keys as [|k keys IH]; intros vs.
    - split; intros HF; inv HF; constructor.
    - assert (is_Some (obj_get k m)) as [w Hw] by (apply obj_get_is_Some, Hin; left).
      split; intros HF; inv HF; constructor; try (apply IH; [|done]; intros; apply Hin; by right);
        rewrite obj_get_map, Hw in *; simpl in *; naive_solver. }
  pose proof (sorted_members_ok keys (List.map (fun kv => (kv.1, sorted kv.2)) m) []) as Hok.
  destruct (sorted_members keys _ []) as [r|e]; simpl; split.
  - intros [= <-]. specialize (Hok r). destruct Hok as [Hok _];
      [by apply sort_keys_NoDup|set_solver|].
    destruct (Hok eq_refl) as (vs & -> & HF). exists vs. split; [done|]. by apply Hiff.
  - intros (vs & -> & HF%Hiff). do 2 f_equal. specialize (Hok (zip keys vs)).
    destruct Hok as [_ Hok]; [by apply sort_keys_NoDup|set_solver|].
    assert (Ok (E:=JcsError) r = Ok (zip keys vs)) as [=]; [|done]. apply Hok. by exists vs.
  - done.
  - intros (vs & -> & HF%Hiff). specialize (Hok (zip keys vs)).
    destruct Hok as [_ Hok]; [by apply sort_keys_NoDup|set_solver|].
    assert (Err e = Ok (zip keys vs)); [|done]. apply Hok. by exists vs.
Qed.

Lemma Forall2_zip_get {A} (P : string -> A -> Prop) keys vs k v :
  Forall2 P keys vs -> obj_get k (zip keys vs) = Some v -> P k v.
Proof.
  induction 1 as [|k0 v0 keys vs HP HF IH]; simpl; [done|].
  case_bool_decide; [naive_solver|auto].
Qed.

Lemma sorted_array_ok l c :
  sorted (JArray l) = Ok c <->
  exists vs, c = JArray vs /\ Forall2 (fun x v => sorted x = Ok v) l vs.
Proof.
  simpl. destruct (collect_results _) as [vs|e] eqn:Hc; simpl.
  - apply collect_results_ok in Hc. split.
    + intros [= <-]. exists vs. split; [done|].
      revert vs Hc. induction l as [|x l IH]; intros [|v vs] Hc; simplify_eq/=; constructor; auto.
    + intros (ws & -> & HF). do 2 f_equal. revert vs Hc.
      induction HF as [|x w l ws Hx HF IH]; intros [|v vs] Hc; simplify_eq/=; [done|].
      f_equal; [congruence|auto].
  - split; [done|]. intros (ws & -> & HF).
    assert (Err e = Ok ws); [|done]. rewrite <- Hc. apply collect_results_ok.
    clear Hc. induction HF; simpl; [done|]. by f_equal.
Qed.

Lemma sorted_number_ok n c : sorted (JNumber n) = Ok c -> c = JNumber n /\ number_is_integer n = true.
Proof. simpl. destruct (number_is_integer n); naive_solver. Qed.

(** Canonicalization only reorders members. *)
Lemma sorted_same_doc v c : value_wf v -> sorted v = Ok c -> same_doc v c.
Proof.
  revert c; induction v as [| | | |l IH|m IH] using value_ind; intros c Hwf.
  - by intros [= <-].
  - by intros [= <-].
  - by intros [-> _]%sorted_number_ok.
  - by intros [= <-].
  - intros (vs & -> & HF)%sorted_array_ok. inv Hwf. apply same_array.
    induction HF; inv IH; decompose_Forall_hyps; constructor; auto.
  - inv Hwf. intros (vs & -> & HF)%sorted_object_ok; [|done].
    pose proof (Forall2_length _ _ _ HF) as Hlen. apply same_object.
    + intros k. rewrite obj_keys_zip by done. by rewrite merge_sort_Permutation.
    + intros k v1 v2 Hg1 Hg2. pose proof (Forall2_zip_get _ _ _ _ _ HF Hg2) as (_ & w & Hw & Hs).
      assert (w = v1) as -> by congruence.
      apply (Forall_obj_get (P := fun v => forall c, value_wf v -> sorted v = Ok c ->
        same_doc v c) _ _ _ IH Hw); [|done].
      by eapply Forall_obj_get.
Qed.

Lemma sorted_wf v c : value_wf v -> sorted v = Ok c -> value_wf c /\ float_free c.
Proof.
  revert c; induction v as [| | | |l IH|m IH] using value_ind; intros c Hwf.
  - intros [= <-]; split; constructor.
  - intros [= <-]; split; constructor.
  - intros [-> Hi]%sorted_number_ok. by split; [|constructor].
  - intros [= <-]; split; constructor.
  - intros (vs & -> & HF)%sorted_array_ok. inv Hwf.
    assert (Forall value_wf vs /\ Forall float_free vs) as []; [|by split; constructor].
    induction HF; inv IH; decompose_Forall_hyps; [by split|]. split; constructor; naive_solver.
  - inv Hwf. intros (vs & -> & HF)%sorted_object_ok; [|done].
    pose proof (Forall2_length _ _ _ HF) as Hlen.
    assert (Forall (fun kv => value_wf kv.2 /\ float_free kv.2)
      (zip (merge_sort String.le (obj_keys m)) vs)) as Hall.
    { clear Hlen. induction HF as [|k v keys vs (_ & w & Hw & Hs) HF IHF]; constructor; [|done].
      apply (Forall_obj_get (P := fun v => forall c, value_wf v -> sorted v = Ok c ->
        value_wf c /\ float_free c) _ _ _ IH Hw); [|done]. by eapply Forall_obj_get. }
    apply Forall_and in Hall as [? ?]. split; constructor; [|done..].
    rewrite obj_keys_zip by done. by apply sort_keys_NoDup.
Qed.

(** Two documents that differ only in member order canonicalize alike, to the
    same value or to the same error. *)
Lemma sorted_proper v1 v2 :
  value_wf v1 -> value_wf v2 -> same_doc v1 v2 -> sorted v1 = sorted v2.
Proof.
  revert v2; induction v1 as [| | | |l IH|m IH] using value_ind;
    intros v2 Hwf1 Hwf2 Hs; inv Hs; try done.
  - simpl. do 2 f_equal. inv Hwf1. inv Hwf2.
    rename select (Forall2 _ _ _) into HF.
    induction HF; inv IH; decompose_Forall_hyps; simpl; [done|]. f_equal; auto.
  - inv Hwf1. inv Hwf2. simpl. f_equal.
    assert (merge_sort String.le (obj_keys m) = merge_sort String.le (obj_keys m2)) as ->.
    { apply (Sorted_unique String.le); try apply (Sorted_merge_sort _).
      rewrite !merge_sort_Permutation. by apply NoDup_Permutation. }
    apply sorted_members_ext. intros k Hk. rewrite merge_sort_Permutation in Hk.
    rewrite !obj_get_map.
    apply obj_get_is_Some in Hk as Hk2. destruct Hk2 as [w2 Hw2].
    assert (is_Some (obj_get k m)) as [w1 Hw1] by (apply obj_get_is_Some; naive_solver).
    rewrite Hw1, Hw2. simpl. f_equal.
    eapply (Forall_obj_get (P := fun v => forall w, value_wf v -> value_wf w -> same_doc v w ->
      sorted v = sorted w)); eauto using wf_obj_get.
Qed.

Lemma foldr_max_le l n : foldr Nat.max 0 l <= n <-> Forall (fun x => x <= n) l.
Proof.
  induction l as [|x l IH]; simpl.
  - split; [constructor|lia].
  - rewrite Forall_cons, <- IH. lia.
Qed.

Lemma same_doc_depth v1 v2 d :
  value_wf v2 -> same_doc v1 v2 -> json_depth v1 <= d -> json_depth v2 <= d.
Proof.
  revert v2 d; induction v1 as [| | | |l IH|m IH] using value_ind;
    intros v2 d Hwf Hs; inv Hs; try done; destruct d as [|d]; simpl; try lia; intros Hd;
    inv Hwf; apply le_n_S, foldr_max_le; apply le_S_n, foldr_max_le in Hd;
    rewrite List.Forall_map in *.
  - rename select (Forall2 _ _ _) into HF.
    induction HF; inv IH; decompose_Forall_hyps; constructor; eauto.
  - apply Forall_forall. intros [k w2] Hin.
    apply obj_get_NoDup in Hin; [|done].
    assert (is_Some (obj_get k m)) as [w1 Hw1]
      by (apply obj_get_is_Some; rename select (forall k, _ <-> _) into Hk; apply Hk, obj_get_is_Some; eauto).
    simpl. eapply (Forall_obj_get (P := fun v => forall v2 n, value_wf v2 -> same_doc v v2 ->
      json_depth v <= n -> json_depth v2 <= n)); eauto using wf_obj_get.
    eapply (Forall_obj_get (P := fun v => json_depth v <= d)); eauto.
Qed.

Lemma sorted_ok_admissible v c : value_wf v -> sorted v = Ok c -> jcs_admissible v.
Proof.
  intros Hwf Hs. revert c Hs. induction v as [| | | |l IH|m IH] using value_ind; intros c Hs; try constructor.
  - by apply sorted_number_ok in Hs as [_ ?].
  - apply sorted_array_ok in Hs as (vs & _ & HF). inv Hwf.
    induction HF; inv IH; decompose_Forall_hyps; constructor; eauto.
  - inv Hwf. apply sorted_object_ok in Hs as (vs & _ & HF); [|done].
    apply Forall_forall. intros [k w] Hin. simpl.
    apply obj_get_NoDup in Hin as Hg; [|done].
    assert (k ∈ merge_sort String.le (obj_keys m)) as Hk.
    { rewrite merge_sort_Permutation. apply obj_get_is_Some. eauto. }
    apply list_elem_of_lookup in Hk as [i Hi].
    eapply Forall2_lookup_l in HF as (v & _ & Hka & w' & Hw' & Hs); [|exact Hi].
    split; [done|]. assert (w' = w) as -> by congruence.
    eapply (Forall_obj_get (P := fun v => value_wf v -> forall c, sorted v = Ok c ->
      jcs_admissible v)); eauto using wf_obj_get.
Qed.

Lemma admissible_sorted_ok v : value_wf v -> jcs_admissible v -> is_ok (sorted v) = true.
Proof.
  intros Hwf Ha. induction v as [| | | |l IH|m IH] using value_ind; try done.
  - inv Ha. simpl. by case_bool.
  - inv Hwf. inv Ha.
    assert (exists vs, Forall2 (fun x v => sorted x = Ok v) l vs) as [vs HF].
    { induction IH as [|x l Hx IH IHl]; [by exists []|]. decompose_Forall_hyps.
      destruct (sorted x) as [v|] eqn:Hv; [|naive_solver].
      destruct IHl as [vs HF]; auto. exists (v :: vs). by constructor. }
    assert (sorted (JArray l) = Ok (JArray vs)) as -> by (apply sorted_array_ok; eauto). done.
  - inv Hwf. inv Ha.
    assert (exists vs, Forall2 (fun k v => is_ascii k = true /\
        exists w, obj_get k m = Some w /\ sorted w = Ok v)
      (merge_sort String.le (obj_keys m)) vs) as [vs HF].
    { assert (Hin : forall k, k ∈ merge_sort String.le (obj_keys m) -> k ∈ obj_keys m)
        by (intros k; by rewrite merge_sort_Permutation).
      induction (merge_sort String.le (obj_keys m)) as [|k keys IHk]; [by exists []|].
      destruct IHk as [vs HF]; [intros; apply Hin; by right|].
      assert (is_Some (obj_get k m)) as [w Hw] by (apply obj_get_is_Some, Hin; left).
      pose proof Hw as Hw'%obj_get_elem.
      eapply Forall_forall in IH; [|exact Hw']. rename select (Forall (fun kv => _ /\ _) m) into Hm.
      eapply Forall_forall in Hm; [|exact Hw']. destruct Hm as [Hka Hwa].
      destruct (sorted w) as [v|] eqn:Hv.
      + exists (v :: vs). constructor; eauto 10.
      + simpl in IH. rewrite Hv in IH. discriminate IH; eauto using wf_obj_get. }
    assert (sorted (JObject m) = Ok (JObject (zip (merge_sort String.le (obj_keys m)) vs))) as ->
      by (apply sorted_object_ok; eauto). done.
Qed.

Lemma canonical_parse v c :
  value_wf v -> json_depth v <= 127 -> sorted v = Ok c -> from_slice (to_vec c) = Ok c.
Proof.
  intros Hwf Hd Hs. destruct (sorted_wf v c) as [Hc Hf]; [done..|].
  apply from_slice_to_vec; [done..|]. eapply same_doc_depth; eauto using sorted_same_doc.
Qed.

Lemma jcs_same_doc v1 v2 b :
  value_wf v1 -> value_wf v2 -> json_depth v1 <= 127 -> json_depth v2 <= 127 ->
  jcs_bytes v1 = Ok b -> jcs_bytes v2 = Ok b -> same_doc v1 v2.
Proof.
  unfold jcs_bytes. intros Hwf1 Hwf2 Hd1 Hd2 Hb.
  destruct (sorted v1) as [c1|] eqn:Hs1; [|done]. destruct (sorted v2) as [c2|] eqn:Hs2; [|done].
  simplify_eq/=. intros [= Heq].
  pose proof (canonical_parse _ _ Hwf1 Hd1 Hs1) as Hp1.
  pose proof (canonical_parse _ _ Hwf2 Hd2 Hs2) as Hp2.
  assert (c1 = c2) as -> by congruence.
  transitivity c2; [|symmetry]; by apply sorted_same_doc.
Qed.

Lemma jcs_bytes_proper v1 v2 :
  value_wf v1 -> value_wf v2 -> same_doc v1 v2 -> jcs_bytes v1 = jcs_bytes v2.
Proof. intros. unfold jcs_bytes. by rewrite (sorted_proper v1 v2). Qed.

Lemma jcs_bytes_admissible v : value_wf v -> jcs_admissible v -> exists b, jcs_bytes v = Ok b.
Proof.
  intros Hwf Ha%admissible_sorted_ok; [|done]. unfold jcs_bytes.
  destruct (sorted v); [|done]. simpl. eauto.
Qed.

Lemma jcs_parse v b :
  value_wf v -> json_depth v <= 127 -> jcs_bytes v = Ok b ->
  exists c, from_slice b = Ok c /\ value_wf c /\ same_doc v c.
Proof.
  intros Hwf Hd Hb. unfold jcs_bytes in Hb. destruct (sorted v) as [c|] eqn:Hs; [|done].
  simplify_eq/=. exists c. split; [by eapply canonical_parse|].
  split; [by apply (sorted_wf v c)|by apply sorted_same_doc].
Qed.

(** ** What canonicalization guarantees *)

(** C18: the JCS bytes identify a document exactly up to the order of its
    members: of two well-formed documents within the parser's nesting limit,
    the second canonicalizes to the bytes of the first if and only if both bind
    the same members to the same values, recursively. *)
Theorem jcs_identifies_documents v1 v2 b :
  value_wf v1 -> value_wf v2 -> json_depth v1 <= 127 -> json_depth v2 <= 127 ->
  jcs_bytes v1 = Ok b ->
  (jcs_bytes v2 = Ok b <-> same_doc v1 v2).
Proof.
  intros Hwf1 Hwf2 Hd1 Hd2 Hb. split; [by apply jcs_same_doc|].
  intros Hs. by rewrite <- (jcs_bytes_proper v1 v2).
Qed.

(** [jcs_bytes] succeeds on a well-formed document exactly when the
    document satisfies the ACI constraints: every member name is ASCII and
    every number is an integer; anything else is refused. *)
Theorem jcs_accepts_exactly_admissible v :
  value_wf v -> ((exists b, jcs_bytes v = Ok b) <-> jcs_admissible v).
Proof.
  intros Hwf. unfold jcs_bytes. split.
  - intros [b Hb]. destruct (sorted v) eqn:Hs; [|done]. eauto using sorted_ok_admissible.
  - intros Ha. by apply jcs_bytes_admissible.
Qed.

(** Parsing canonical bytes and canonicalizing again is the identity: the
    parsed document is the original up to member order and has the same bytes. *)
Theorem jcs_reparse_stable v b :
  value_wf v -> json_depth v <= 127 -> jcs_bytes v = Ok b ->
  exists c, from_slice b = Ok c /\ same_doc v c /\ jcs_bytes c = Ok b.
Proof.
  intros Hwf Hd Hb. destruct (jcs_parse v b) as (c & Hp & Hc & Hs); [done..|].
  exists c. split; [done|]. split; [done|]. by rewrite <- (jcs_bytes_proper v c).
Qed.

End Digest.

(** *** Witnesses *)
#[local] Existing Instances sample_sha sample_hex sample_json.

Definition sample_doc1 : value :=
  JObject [("b", JNumber (PosInt 1)); ("a", JArray [JBool true; JNull])].
Definition sample_doc2 : value :=
  JObject [("a", JArray [JBool true; JNull]); ("b", JNumber (PosInt 1))].

Lemma sample_doc1_wf : value_wf sample_doc1.
Proof. by apply value_wfb_spec. Qed.
Lemma sample_doc2_wf : value_wf sample_doc2.
Proof. by apply value_wfb_spec. Qed.

Lemma jcs_identifies_documents_witness : same_doc sample_doc1 sample_doc2.
Proof.
  apply (jcs_identifies_documents sample_doc1 sample_doc2
    (default [] (result_ok (jcs_bytes sample_doc1))));
    [exact sample_doc1_wf|exact sample_doc2_wf|vm_compute; lia|vm_compute; lia|by vm_compute|].
  by vm_compute.
Defined.

Lemma jcs_accepts_exactly_admissible_witness :
  (exists b, jcs_bytes sample_doc1 = Ok b) <-> jcs_admissible sample_doc1.
Proof. apply (jcs_accepts_exactly_admissible sample_doc1 sample_doc1_wf). Defined.

Lemma jcs_reparse_stable_witness :
  exists c, from_slice (default [] (result_ok (jcs_bytes sample_doc1))) = Ok c /\
    same_doc sample_doc1 c /\ jcs_bytes c = jcs_bytes sample_doc1.
Proof.
  destruct (jcs_reparse_stable sample_doc1 (default [] (result_ok (jcs_bytes sample_doc1))))
    as (c & H1 & H2 & H3); [exact sample_doc1_wf|vm_compute; lia|by vm_compute|].
  exists c. split; [exact H1|]. split; [exact H2|]. rewrite H3. by vm_compute.
Defined.
