(* ===== verification/Identity.v ===== *)
(** * Workload identity and the attestation statement

    crates/aci-protocol/src/identity.rs, types.rs and receipt.rs, and
    src/aci/identity.rs: the keyset and report records, the statement the TEE
    quote binds, the 64-byte report-data slot, the sealed keyset, and the bytes
    a receipt signature covers.  The theorems show that the statement template
    admits no injection (it determines the digest and the nonce), that a served
    keyset reproduces the digest it was sealed with, and that one digest stands
    for one keyset document or exhibits a SHA-256 collision. *)
From S2P Require Import Prelude Json External Sample Digest.

(** ** Wire records (types.rs) *)
Record KeyedPublicKey := mkKeyedPublicKey {
  kpk_key_id : string;
  kpk_algo : string;
  kpk_public_key_hex : string;
}.
Record TlsSpki := mkTlsSpki {
  spki_sha256_hex : string;
  spki_domain : option string;
}.
Record WorkloadKeyset := mkWorkloadKeyset {
  ks_subject : option string;
  ks_not_after : Z;
  ks_receipt_signing_keys : list KeyedPublicKey;
  ks_e2ee_public_keys : list KeyedPublicKey;
  ks_tls_public_keys : list TlsSpki;
}.
Record SourceProvenance := mkSourceProvenance {
  sp_repo_url : option string;
  sp_repo_commit : option string;
  sp_image_digest : option string;
  sp_image_provenance : option value;
}.
Record ServiceCapabilities := mkServiceCapabilities {
  sc_supported_e2ee_versions : list string;
  sc_supported_multipart_constraint_endpoints : list string;
  sc_serving : string;
}.
Record AttestationEnvelope := mkAttestationEnvelope {
  ae_tee_type : string;
  ae_workload_keyset : value;
  ae_report_data_hex : string;
  ae_source_provenance : SourceProvenance;
  ae_evidence : value;
}.
Record AttestationReport := mkAttestationReport {
  ar_api_version : string;
  ar_workload_keyset_digest : string;
  ar_attestation : AttestationEnvelope;
  ar_service_capabilities : ServiceCapabilities;
}.

#[global] Instance KeyedPublicKey_eq_dec : EqDecision KeyedPublicKey.
Proof. solve_decision. Defined.
#[global] Instance TlsSpki_eq_dec : EqDecision TlsSpki.
Proof. solve_decision. Defined.
#[global] Instance WorkloadKeyset_eq_dec : EqDecision WorkloadKeyset.
Proof. solve_decision. Defined.

(** [WorkloadKeyset::is_expired_at]: [not_after] is the first refused second. *)
Definition is_expired_at (ks : WorkloadKeyset) (now_secs : Z) : bool :=
  (ks_not_after ks <=? now_secs)%Z.

(** [WorkloadKeyset::tls_keys_for_host]. *)
Definition applies_to_host (host : string) (key : TlsSpki) : bool :=
  match spki_domain key with
  | Some domain => eq_ignore_ascii_case (trim_end_dots (trim domain)) host
  | None => true
  end.
Definition tls_keys_for_host (ks : WorkloadKeyset) (host : string) : list TlsSpki :=
  let host := trim_end_dots (trim host) in
  List.filter (applies_to_host host) (ks_tls_public_keys ks).

Definition provenance_is_unknown (p : SourceProvenance) : bool :=
  match p with
  | mkSourceProvenance None None None None => true
  | _ => false
  end.

Definition default_serving : string := "aggregator".
Definition default_capabilities : ServiceCapabilities :=
  mkServiceCapabilities [] [] default_serving.

(** The [Serialize] derivations of the keyset, member by member. *)
Definition keyed_public_key_to_value (k : KeyedPublicKey) : value :=
  JObject [("key_id", JString (kpk_key_id k)); ("algo", JString (kpk_algo k));
           ("public_key", JString (kpk_public_key_hex k))].
Definition tls_spki_to_value (k : TlsSpki) : value :=
  JObject (("spki_sha256", JString (spki_sha256_hex k)) ::
           match spki_domain k with Some d => [("domain", JString d)] | None => [] end).
Definition opt_string_to_value (o : option string) : value :=
  match o with Some s => JString s | None => JNull end.
Definition keyset_to_value (ks : WorkloadKeyset) : value :=
  JObject [("subject", opt_string_to_value (ks_subject ks));
           ("not_after", JNumber (PosInt (ks_not_after ks)));
           ("receipt_signing_keys",
             JArray (List.map keyed_public_key_to_value (ks_receipt_signing_keys ks)));
           ("e2ee_public_keys",
             JArray (List.map keyed_public_key_to_value (ks_e2ee_public_keys ks)));
           ("tls_public_keys", JArray (List.map tls_spki_to_value (ks_tls_public_keys ks)))].

(** A keyset as a Rust value holds it: [not_after] is a [u64]. *)
Definition keyset_wf (ks : WorkloadKeyset) : Prop := is_u64 (ks_not_after ks).

(** The [Deserialize] derivation of [WorkloadKeyset] is generated code: it
    recovers what the [Serialize] derivation wrote. *)
Class KeysetSerde := {
  keyset_from_value : value -> result string WorkloadKeyset;
  keyset_from_to_value ks : keyset_wf ks -> keyset_from_value (keyset_to_value ks) = Ok ks;
}.

(** ** The attestation statement (identity.rs) *)
Definition REPORT_DATA_PURPOSE : string := "aci.report_data.v1".
Definition NONCE_LEN : nat := 64.

Inductive InvalidStatementInput : Type := BadKeysetDigest | BadNonce.

Definition is_valid_nonce (nonce : string) : bool :=
  bool_decide (str_len nonce = NONCE_LEN) && all_bytes is_lower_hex nonce.

(** A JSON string literal around escape-free text. *)
Definition dquote : string := String (u8 34) EmptyString.
Definition quoted (s : string) : string := dquote +:+ s +:+ dquote.

Definition statement_text (keyset_digest nonce_member : string) : string :=
  "{" +:+ quoted "keyset_digest" +:+ ":" +:+ quoted keyset_digest +:+
  "," +:+ quoted "nonce" +:+ ":" +:+ nonce_member +:+
  "," +:+ quoted "purpose" +:+ ":" +:+ quoted REPORT_DATA_PURPOSE +:+ "}".

Definition attestation_statement (keyset_digest : string) (nonce : option string) :
    result InvalidStatementInput bytes :=
  let hex := default EmptyString (strip_prefix "sha256:" keyset_digest) in
  if negb (bool_decide (str_len hex = 64)) || negb (all_bytes is_lower_hex hex) then
    Err BadKeysetDigest
  else
    nonce_member ←
      match nonce with
      | Some nonce => if is_valid_nonce nonce then Ok (quoted nonce) else Err BadNonce
      | None => Ok "null"
      end;
    Ok (as_bytes (statement_text keyset_digest nonce_member)).

(** [report_data_slot]: the digest copied over the front of 64 zero bytes. *)
Definition report_data_slot (report_data : bytes) : bytes :=
  report_data ++ drop (length report_data) (replicate 64 (u8 0)).

(** Accepted digests: [sha256:] and 64 lowercase hex characters. *)
Definition is_digest_text (d : string) : Prop :=
  exists h, d = "sha256:" +:+ h /\ str_len h = 64 /\ all_bytes is_lower_hex h = true.

Lemma attestation_statement_ok d n st :
  attestation_statement d n = Ok st <->
  is_digest_text d /\ from_option is_valid_nonce true n = true /\
  st = as_bytes (statement_text d (from_option quoted "null" n)).
Proof.
  unfold attestation_statement, is_digest_text.
  destruct (strip_prefix "sha256:" d) as [h|] eqn:Hp; simpl.
  - apply strip_prefix_spec in Hp. split.
    + intros Hs. case_bool in Hs; [done|].
      apply orb_false_iff in Heqb as [Hl%negb_false_iff Hx%negb_false_iff].
      apply bool_decide_eq_true in Hl.
      split; [by exists h|]. destruct n as [n|]; simpl in *; [|naive_solver].
      destruct (is_valid_nonce n); naive_solver.
    + intros ((h' & -> & Hl & Hx) & Hn & ->).
      assert (h' = h) as -> by (apply (inj as_bytes); apply (f_equal as_bytes) in Hp;
        rewrite !as_bytes_app in Hp; by apply app_inv_head in Hp).
      rewrite bool_decide_eq_true_2, Hx by done. simpl.
      destruct n as [n|]; simpl in *; [by rewrite Hn|done].
  - split; [done|]. intros ((h & -> & _) & _).
    assert (strip_prefix "sha256:" ("sha256:" +:+ h) = Some h) by by apply strip_prefix_spec.
    congruence.
Qed.

Lemma attestation_statement_bad_nonce d n e :
  is_digest_text d -> attestation_statement d n = Err e -> e = BadNonce.
Proof.
  intros (h & -> & Hl & Hx). unfold attestation_statement.
  rewrite (proj2 (strip_prefix_spec "sha256:" _ h) eq_refl). cbn [default from_option id].
  rewrite bool_decide_eq_true_2, Hx by done. cbn. destruct n as [n|]; [|done].
  by destruct (is_valid_nonce n); cbn; [|intros [= <-]].
Qed.
Lemma is_digest_text_len d : is_digest_text d -> length (as_bytes d) = 71.
Proof. intros (h & -> & Hl & _). rewrite as_bytes_app, length_app. unfold str_len in Hl. by rewrite Hl. Qed.

Lemma statement_text_inj d1 m1 d2 m2 :
  length (as_bytes d1) = length (as_bytes d2) ->
  statement_text d1 m1 = statement_text d2 m2 -> d1 = d2 /\ m1 = m2.
Proof.
  unfold statement_text, quoted. intros Hl Heq. apply (f_equal as_bytes) in Heq.
  rewrite !as_bytes_app, <- !app_assoc in Heq.
  repeat first [apply app_inv_head in Heq | apply app_inj_1 in Heq as [<-%(inj as_bytes) Heq]; [|done]].
  apply app_inv_tail in Heq as ->%(inj as_bytes). done.
Qed.

Lemma quoted_inj a b : quoted a = quoted b -> a = b.
Proof.
  unfold quoted. intros Heq%(f_equal as_bytes). rewrite !as_bytes_app in Heq.
  apply app_inv_head, app_inv_tail in Heq. by apply (inj as_bytes).
Qed.

Lemma attestation_statement_inj d1 n1 d2 n2 st :
  attestation_statement d1 n1 = Ok st -> attestation_statement d2 n2 = Ok st ->
  d1 = d2 /\ n1 = n2.
Proof.
  intros (Hd1 & _ & ->)%attestation_statement_ok (Hd2 & _ & Heq)%attestation_statement_ok.
  apply (inj as_bytes), statement_text_inj in Heq as [-> Hn];
    [|by rewrite !is_digest_text_len].
  split; [done|]. destruct n1, n2; simpl in Hn; [|discriminate Hn..|done].
  by rewrite (quoted_inj _ _ Hn).
Qed.

(** The statement bytes determine the keyset digest and the nonce: two
    accepted inputs with the same statement are the same input, so nothing in a
    served digest or a nonce can imitate another member of the statement. *)
Theorem attestation_statement_injective d1 n1 d2 n2 st :
  attestation_statement d1 n1 = Ok st -> attestation_statement d2 n2 = Ok st ->
  d1 = d2 /\ n1 = n2.
Proof. apply attestation_statement_inj. Qed.

Section Identity.
Context {SH : Sha} {HX : HexCodec} {SJ : SerdeJson} {KS : KeysetSerde}.

Definition workload_keyset_digest (keyset : value) : result JcsError string :=
  sha256_hex <$> jcs_bytes keyset.

Definition report_data (statement : bytes) : bytes := sha256_raw statement.

(** [receipt_signing_input] (receipt.rs): the document without [signature]. *)
Definition receipt_signing_input (document : value) : result JcsError bytes :=
  let unsigned :=
    match document with
    | JObject m => JObject (obj_remove "signature" m)
    | other => other
    end in
  jcs_bytes unsigned.

(** ** Sealed keysets (src/aci/identity.rs) *)
Inductive SealError : Type :=
| SerdeError (text : string)
| JcsCustom (e : JcsError).

Record SealedWorkloadKeyset := mkSealed {
  sealed_keyset : WorkloadKeyset;
  sealed_value : value;
  sealed_bytes : bytes;
  sealed_digest : string;
}.

Definition seal (keyset : WorkloadKeyset) : result SealError SealedWorkloadKeyset :=
  let v := keyset_to_value keyset in
  bytes ← map_err JcsCustom (jcs_bytes v);
  let digest := sha256_hex bytes in
  Ok (mkSealed keyset v bytes digest).

Definition sealed_from_value (v : value) : result SealError SealedWorkloadKeyset :=
  keyset ← map_err SerdeError (keyset_from_value v);
  bytes ← map_err JcsCustom (jcs_bytes v);
  let digest := sha256_hex bytes in
  Ok (mkSealed keyset v bytes digest).

(** [SealedWorkloadKeyset::to_value]: the object the report serves. *)
Definition sealed_to_value (s : SealedWorkloadKeyset) : value := sealed_value s.

(** ** Lemmas *)
Lemma sha256_hex_digest_text b : is_digest_text (sha256_hex b).
Proof.
  exists (hex_encode (sha256 b)). split; [done|].
  by rewrite hex_encode_length, sha256_length, hex_encode_lower.
Qed.

Lemma sha256_hex_inj b1 b2 : sha256_hex b1 = sha256_hex b2 -> sha256 b1 = sha256 b2.
Proof.
  unfold sha256_hex. intros Heq%(f_equal as_bytes). rewrite !as_bytes_app in Heq.
  by apply app_inv_head, (inj as_bytes), (inj hex_encode) in Heq.
Qed.

Lemma keyset_value_wf ks : keyset_wf ks -> value_wf (keyset_to_value ks).
Proof.
  intros Hu. apply wf_object; [by apply (bool_decide_unpack _); vm_compute|].
  assert (Hk : forall l, Forall value_wf (List.map keyed_public_key_to_value l)).
  { induction l; constructor; [|done]. by apply value_wfb_spec. }
  repeat (apply Forall_cons_2 || apply Forall_nil_2); simpl.
  - destruct (ks_subject ks); constructor.
  - constructor. exact Hu.
  - apply wf_array, Hk.
  - apply wf_array, Hk.
  - apply wf_array. induction (ks_tls_public_keys ks) as [|[spki [d|]] l IH]; constructor; auto;
      by apply value_wfb_spec.
Qed.

Lemma keyset_admissible ks : jcs_admissible (keyset_to_value ks).
Proof.
  assert (Hk : forall l, Forall jcs_admissible (List.map keyed_public_key_to_value l)).
  { induction l; constructor; [|done]. repeat constructor. }
  apply adm_object. repeat (apply Forall_cons_2 || apply Forall_nil_2); simpl; (split; [done|]).
  - destruct (ks_subject ks); constructor.
  - by constructor.
  - apply adm_array, Hk.
  - apply adm_array, Hk.
  - apply adm_array. induction (ks_tls_public_keys ks) as [|[spki [d|]] l IH]; constructor; auto; repeat constructor.
Qed.

(** Sealing a keyset always succeeds, and adopting the served object
    reproduces it exactly: the verifier's keyset, bytes and digest are the
    producer's. *)
Lemma seal_then_adopt ks :
  keyset_wf ks ->
  exists s, seal ks = Ok s /\ sealed_keyset s = ks /\
            sealed_from_value (sealed_to_value s) = Ok s.
Proof.
  intros Hwf. destruct (jcs_bytes (keyset_to_value ks)) as [b|e] eqn:Hb.
  - exists (mkSealed ks (keyset_to_value ks) b (sha256_hex b)).
    unfold seal, sealed_from_value, sealed_to_value. cbn [sealed_value].
    by rewrite keyset_from_to_value, Hb.
  - pose proof (admissible_sorted_ok _ (keyset_value_wf ks Hwf) (keyset_admissible ks)) as Hok.
    unfold jcs_bytes in Hb. by destruct (sorted (keyset_to_value ks)).
Qed.

(** A keyset digest stands for one keyset document: two well-formed
    documents with the same digest are equal up to member order, or they
    exhibit a SHA-256 collision. *)
Theorem keyset_digest_binds v1 v2 d :
  value_wf v1 -> value_wf v2 -> json_depth v1 <= 127 -> json_depth v2 <= 127 ->
  workload_keyset_digest v1 = Ok d -> workload_keyset_digest v2 = Ok d ->
  same_doc v1 v2 \/ exists b1 b2, jcs_bytes v1 = Ok b1 /\ jcs_bytes v2 = Ok b2 /\ collide sha256 b1 b2.
Proof.
  unfold workload_keyset_digest. intros Hwf1 Hwf2 Hd1 Hd2 H1 H2.
  destruct (jcs_bytes v1) as [b1|] eqn:Hb1; [|done].
  destruct (jcs_bytes v2) as [b2|] eqn:Hb2; [|done].
  assert (sha256_hex b2 = sha256_hex b1) as Heq by (cbn in *; congruence).
  apply sha256_hex_inj in Heq.
  destruct (collide_or_eq sha256 b1 b2 (eq_sym Heq)) as [->|]; [|right; eauto].
  left. by eapply jcs_same_doc.
Qed.

End Identity.

(** *** Witnesses *)
Definition sample_keyset : WorkloadKeyset :=
  mkWorkloadKeyset None 2000000000
    [mkKeyedPublicKey "r1" "ed25519" "aa"] [] [mkTlsSpki "bb" (Some "api.example.com")].

(** A deserializer that inverts the serializer. *)
Definition sample_key_from_value (v : value) : option KeyedPublicKey :=
  id ← get_str "key_id" v; algo ← get_str "algo" v; pk ← get_str "public_key" v;
  Some (mkKeyedPublicKey id algo pk).
Definition sample_spki_from_value (v : value) : option TlsSpki :=
  spki ← get_str "spki_sha256" v; Some (mkTlsSpki spki (get_str "domain" v)).
Definition sample_keyset_from_value (v : value) : result string WorkloadKeyset :=
  ok_or "keyset does not parse" (
    not_after ← get "not_after" v ≫= as_u64;
    receipt ← (l ← get "receipt_signing_keys" v; l ← as_array l; mapM sample_key_from_value l);
    e2ee ← (l ← get "e2ee_public_keys" v; l ← as_array l; mapM sample_key_from_value l);
    tls ← (l ← get "tls_public_keys" v; l ← as_array l; mapM sample_spki_from_value l);
    Some (mkWorkloadKeyset (get_str "subject" v) not_after receipt e2ee tls)).
Lemma mapM_map_inverse {A B} (f : A -> B) (g : B -> option A) l :
  (forall a, g (f a) = Some a) -> mapM g (List.map f l) = Some l.
Proof. intros Hg. induction l as [|a l IH]; simpl; [done|]. by rewrite Hg, IH. Qed.

#[local] Program Instance sample_keyset_serde : KeysetSerde := {|
  keyset_from_value := sample_keyset_from_value;
|}.
Next Obligation.
  intros [s n r e t] _. unfold sample_keyset_from_value.
  assert (Hk : forall l, mapM sample_key_from_value (List.map keyed_public_key_to_value l) = Some l)
    by (intros; apply mapM_map_inverse; by intros []).
  assert (Ht : forall l, mapM sample_spki_from_value (List.map tls_spki_to_value l) = Some l)
    by (intros; apply mapM_map_inverse; by intros [? []]).
  simpl. rewrite !Hk, Ht. by destruct s.
Qed.

#[local] Existing Instances sample_sha sample_hex sample_json.

Definition sample_nonce : string := sha256_bare_hex [].
Definition sample_digest_text : string := sha256_hex [].

Lemma attestation_statement_injective_witness :
  sample_digest_text = sample_digest_text /\ Some sample_nonce = Some sample_nonce.
Proof.
  apply (attestation_statement_injective sample_digest_text (Some sample_nonce)
    sample_digest_text (Some sample_nonce)
    (default [] (result_ok (attestation_statement sample_digest_text (Some sample_nonce)))));
    by vm_compute.
Defined.

Lemma keyset_digest_binds_witness :
  same_doc (keyset_to_value sample_keyset) (keyset_to_value sample_keyset).
Proof.
  edestruct (keyset_digest_binds (keyset_to_value sample_keyset) (keyset_to_value sample_keyset)
    (default EmptyString (result_ok (workload_keyset_digest (keyset_to_value sample_keyset)))))
    as [H|(b1 & b2 & H1 & H2 & Hn & _)];
    [by apply value_wfb_spec|by apply value_wfb_spec|vm_compute; lia|vm_compute; lia
    |by vm_compute|by vm_compute|exact H|].
  destruct Hn. rewrite H1 in H2. by injection H2.
Defined.
