(* ===== verification/ReportBinding.v ===== *)
(** * Report binding and the quote's report-data slot

    crates/aci-verify/src/lib.rs, report.rs and quote.rs: the chain from the
    served keyset over its digest and the statement to [report_data], and the
    comparison of [report_data] with the slot of an already parsed quote.  The
    theorems show that the chain accepts exactly the reports it should, that an
    accepted report is unexpired and keeps its key roles apart, and that one
    quote slot vouches for one nonce and one keyset. *)
From S2P Require Import Prelude Json External Sample Digest Identity.

(** Why a served keyset was refused, behind [InvalidKeyset]'s message. *)
Inductive KeysetProblem : Type :=
| NotCanonical (e : JcsError)
| NotAKeyset (text : string)
| SharedRole (key_id : string).

Inductive AciReportValidationError : Type :=
| UnsupportedApiVersion (version : string)
| InvalidKeyset (why : KeysetProblem)
| WorkloadKeysetDigestMismatch (computed claimed : string)
| ReportDataMismatch (computed reported : string)
| InvalidReportDataHex (text : string)
| InvalidNonce (e : InvalidStatementInput)
| KeysetExpired.

Record ReportBinding := mkReportBinding {
  rb_keyset_digest : string;
  rb_keyset : WorkloadKeyset;
  rb_report_data : bytes;
  rb_statement : bytes;
  rb_keyset_jcs : bytes;
}.

Record ValidatedAciReport := mkValidatedAciReport {
  va_workload_keyset_digest : string;
  va_keyset : WorkloadKeyset;
  va_report_data : bytes;
  va_evidence : option value;
}.

Inductive QuoteStepError : Type :=
| MissingQuote
| InvalidQuoteHex (text : string)
| UnparsableQuote (text : string)
| InvalidEvidenceReportDataHex (text : string)
| EvidenceReportDataMismatch
| ReportDataSlotMismatch (slot : string)
| Collateral (url reason : string)
| QuoteVerification (text : string)
| TeeTypeMismatch (reported verified : string).

Section ReportBinding.
Context {SH : Sha} {HX : HexCodec} {B64 : Base64} {SJ : SerdeJson} {KS : KeysetSerde}.

(** ** lib.rs *)
Definition decode_hex (v : string) : result string bytes :=
  hex_decode (default v (strip_prefix "0x" v)).

Definition decode_hex_32 (v : string) : result string bytes :=
  b ← decode_hex v;
  if bool_decide (length b = 32) then Ok b
  else Err ("expected 32 bytes, got " +:+ pretty (length b)).

(** ** report.rs *)
Definition sha256_hex_raw (b : bytes) : string := hex_encode (sha256_raw b).

Definition verify_report_binding (report : AttestationReport) (nonce : option string) :
    result AciReportValidationError ReportBinding :=
  let attestation := ar_attestation report in
  keyset_jcs ←
    map_err (fun e => InvalidKeyset (NotCanonical e)) (jcs_bytes (ae_workload_keyset attestation));
  let keyset_digest := "sha256:" +:+ sha256_hex_raw keyset_jcs in
  if bool_decide (keyset_digest ≠ ar_workload_keyset_digest report) then
    Err (WorkloadKeysetDigestMismatch keyset_digest (ar_workload_keyset_digest report))
  else
    keyset ←
      map_err (fun e => InvalidKeyset (NotAKeyset e))
        (keyset_from_value (ae_workload_keyset attestation));
    statement ← map_err InvalidNonce (attestation_statement keyset_digest nonce);
    let rd := report_data statement in
    reported ← map_err InvalidReportDataHex (decode_hex_32 (ae_report_data_hex attestation));
    if bool_decide (reported ≠ rd) then
      Err (ReportDataMismatch (hex_encode rd) (hex_encode reported))
    else Ok (mkReportBinding keyset_digest keyset rd statement keyset_jcs).

(** [raw_evidence]: digest and [data:] URL of a fetched artifact. *)
Definition raw_evidence (data : bytes) (content_type : string) (source_url : option string) : value :=
  let members :=
    [("digest", JString (sha256_hex data));
     ("data", JString ("data:" +:+ content_type +:+ ";base64," +:+ b64_encode data))] in
  match source_url with
  | Some url => JObject (obj_insert "source_url" (JString url) members)
  | None => JObject members
  end.

(** The loop over the receipt keys: the first one that is also an E2EE key. *)
Definition shared_role_key (ks : WorkloadKeyset) : option KeyedPublicKey :=
  List.find
    (fun signing => existsb
      (fun e2ee => bool_decide (kpk_public_key_hex e2ee = kpk_public_key_hex signing))
      (ks_e2ee_public_keys ks))
    (ks_receipt_signing_keys ks).

Definition validate_aci_report_binding (report : AttestationReport) (nonce : option string)
    (now_secs : Z) (raw_report_body : option bytes) :
    result AciReportValidationError ValidatedAciReport :=
  if bool_decide (ar_api_version report ≠ "aci/1") then
    Err (UnsupportedApiVersion (ar_api_version report))
  else
    binding ← verify_report_binding report nonce;
    let keyset := rb_keyset binding in
    if is_expired_at keyset now_secs then Err KeysetExpired
    else
      match shared_role_key keyset with
      | Some signing => Err (InvalidKeyset (SharedRole (kpk_key_id signing)))
      | None =>
          Ok (mkValidatedAciReport (rb_keyset_digest binding) keyset (rb_report_data binding)
                ((fun body => raw_evidence body "application/json" None) <$> raw_report_body))
      end.

(** ** quote.rs *)
Definition quote_bytes (evidence : value) : result QuoteStepError bytes :=
  quote_hex ← ok_or MissingQuote (get_str "quote" evidence);
  map_err InvalidQuoteHex (decode_hex quote_hex).

Definition quote_binds_report_data (evidence : value) (slot rd : bytes) :
    result QuoteStepError unit :=
  _ ← match get_str "quote_report_data" evidence with
      | Some published =>
          published ← map_err InvalidEvidenceReportDataHex (decode_hex published);
          if bool_decide (published ≠ slot) then Err EvidenceReportDataMismatch else Ok ()
      | None => Ok ()
      end;
  if bool_decide (slot ≠ report_data_slot rd) then Err (ReportDataSlotMismatch (hex_encode slot))
  else Ok ().

(** ** Lemmas *)
Lemma verify_report_binding_inv report nonce b :
  verify_report_binding report nonce = Ok b ->
  let att := ar_attestation report in
  jcs_bytes (ae_workload_keyset att) = Ok (rb_keyset_jcs b) /\
  rb_keyset_digest b = sha256_hex (rb_keyset_jcs b) /\
  ar_workload_keyset_digest report = rb_keyset_digest b /\
  keyset_from_value (ae_workload_keyset att) = Ok (rb_keyset b) /\
  attestation_statement (rb_keyset_digest b) nonce = Ok (rb_statement b) /\
  rb_report_data b = sha256 (rb_statement b) /\
  decode_hex_32 (ae_report_data_hex att) = Ok (rb_report_data b).
Proof.
  unfold verify_report_binding. cbv zeta. intros Hv.
  destruct (jcs_bytes _) as [jcs|] eqn:Hj; cbn in Hv; [|done].
  case_bool_decide as Hdg; [done|].
  destruct (keyset_from_value _) as [ks|] eqn:Hk; cbn in Hv; [|done].
  destruct (attestation_statement _ nonce) as [st|] eqn:Hst; cbn in Hv; [|done].
  destruct (decode_hex_32 _) as [rep|] eqn:Hr; cbn in Hv; [|done].
  case_bool_decide as Hrd; [done|].
  injection Hv as <-. cbn. subst rep. done.
Qed.

Lemma decode_hex_32_length s b : decode_hex_32 s = Ok b -> length b = 32.
Proof.
  unfold decode_hex_32. destruct (decode_hex s); cbn; [|done].
  case_bool_decide; [|done]. by intros [= <-].
Qed.

Lemma report_data_slot_inj rd1 rd2 :
  length rd1 = length rd2 -> report_data_slot rd1 = report_data_slot rd2 -> rd1 = rd2.
Proof. intros Hl. unfold report_data_slot. rewrite Hl. intros Heq. by apply app_inj_1 in Heq as []. Qed.

Lemma shared_role_key_None ks :
  shared_role_key ks = None <->
  forall r e, r ∈ ks_receipt_signing_keys ks -> e ∈ ks_e2ee_public_keys ks ->
    kpk_public_key_hex r ≠ kpk_public_key_hex e.
Proof.
  unfold shared_role_key. split.
  - intros Hf r e Hr He Heq. apply list_elem_of_In in Hr, He.
    pose proof (List.find_none _ _ Hf r Hr) as Hn. apply not_true_iff_false in Hn. destruct Hn.
    apply existsb_exists. exists e. split; [done|]. by apply bool_decide_eq_true.
  - intros Hdis. destruct (List.find _ _) as [r|] eqn:Hf; [|done].
    apply List.find_some in Hf as [Hr (e & He & Heq%bool_decide_eq_true)%existsb_exists].
    apply list_elem_of_In in Hr, He. by destruct (Hdis r e Hr He).
Qed.

Lemma quote_binds_slot evidence slot rd :
  quote_binds_report_data evidence slot rd = Ok () -> slot = report_data_slot rd.
Proof.
  unfold quote_binds_report_data. intros Hq.
  destruct (match get_str "quote_report_data" evidence with Some _ => _ | None => _ end); cbn in Hq; [|done].
  case_bool_decide as Hs; [done|]. done.
Qed.

(** [verify_report_binding] accepts exactly the reports whose chain closes:
    the served keyset canonicalizes and parses, the restated digest is the
    digest of its canonical form, digest and nonce form a statement, and
    [report_data] is 32 bytes of hex equal to the statement's SHA-256; the
    returned binding carries exactly these intermediates. *)
Lemma verify_report_binding_iff report nonce b :
  let att := ar_attestation report in
  verify_report_binding report nonce = Ok b <->
  jcs_bytes (ae_workload_keyset att) = Ok (rb_keyset_jcs b) /\
  rb_keyset_digest b = sha256_hex (rb_keyset_jcs b) /\
  ar_workload_keyset_digest report = rb_keyset_digest b /\
  keyset_from_value (ae_workload_keyset att) = Ok (rb_keyset b) /\
  attestation_statement (rb_keyset_digest b) nonce = Ok (rb_statement b) /\
  rb_report_data b = sha256 (rb_statement b) /\
  decode_hex_32 (ae_report_data_hex att) = Ok (rb_report_data b).
Proof.
  intros att. split; [apply verify_report_binding_inv|].
  destruct b as [dg ks rd st jcs]. cbn. intros (Hj & Hdg & Har & Hk & Hst & Hrd & Hhex).
  unfold verify_report_binding. fold att. rewrite Hj. cbn [map_err mbind result_bind].
  change ("sha256:" +:+ sha256_hex_raw jcs) with (sha256_hex jcs). rewrite <- Hdg.
  rewrite bool_decide_eq_false_2 by naive_solver. rewrite Hk. cbn. rewrite Hst. cbn.
  rewrite Hhex. cbn. unfold report_data, sha256_raw. rewrite <- Hrd.
  by rewrite bool_decide_eq_false_2 by naive_solver.
Qed.

Lemma validate_report_accepts report nonce now body b :
  verify_report_binding report nonce = Ok b -> ar_api_version report = "aci/1" ->
  (now < ks_not_after (rb_keyset b))%Z -> shared_role_key (rb_keyset b) = None ->
  validate_aci_report_binding report nonce now body =
  Ok (mkValidatedAciReport (rb_keyset_digest b) (rb_keyset b) (rb_report_data b)
        ((fun body => raw_evidence body "application/json" None) <$> body)).
Proof.
  intros Hb Hv Hn Hs. unfold validate_aci_report_binding, is_expired_at.
  rewrite bool_decide_eq_false_2, Hb by naive_solver. cbn. rewrite (proj2 (Z.leb_gt _ _) Hn). by rewrite Hs.
Qed.

(** C19: an accepted report is an [aci/1] report whose chain closes, whose
    keyset is not expired at the caller's clock and lists no key for both the
    receipt and the E2EE role; and every report with those properties is
    accepted. *)
Theorem validate_report_iff report nonce now body v :
  validate_aci_report_binding report nonce now body = Ok v <->
  exists b, verify_report_binding report nonce = Ok b /\
    ar_api_version report = "aci/1" /\
    (now < ks_not_after (rb_keyset b))%Z /\
    (forall r e, r ∈ ks_receipt_signing_keys (rb_keyset b) ->
       e ∈ ks_e2ee_public_keys (rb_keyset b) ->
       kpk_public_key_hex r ≠ kpk_public_key_hex e) /\
    v = mkValidatedAciReport (rb_keyset_digest b) (rb_keyset b) (rb_report_data b)
          ((fun body => raw_evidence body "application/json" None) <$> body).
Proof.
  split.
  - unfold validate_aci_report_binding, is_expired_at. case_bool_decide as Hv; [done|].
    destruct (verify_report_binding report nonce) as [b|]; cbn; [|done].
    destruct (Z.leb_spec (ks_not_after (rb_keyset b)) now); [done|].
    destruct (shared_role_key (rb_keyset b)) eqn:Hs; [done|]. intros [= <-]. exists b.
    split_and!; [done|by destruct (decide (ar_api_version report = "aci/1"))|lia|by apply shared_role_key_None|done].
  - intros (b & Hb & Hv & Hn & Hdis & ->). by apply validate_report_accepts; [..|apply shared_role_key_None].
Qed.

(** C22: one quote slot vouches for one nonce and one keyset: when the same
    64-byte slot is accepted for two reports whose bindings verify, both were
    verified for the same nonce and serve the same keyset up to member order,
    or the two statements or the two canonical keysets collide under SHA-256.  In
    particular a quote made for another nonce is stale. *)
Theorem quote_slot_binds_nonce_and_keyset ev1 ev2 slot r1 r2 n1 n2 b1 b2 :
  let k1 := ae_workload_keyset (ar_attestation r1) in
  let k2 := ae_workload_keyset (ar_attestation r2) in
  value_wf k1 -> value_wf k2 -> json_depth k1 <= 127 -> json_depth k2 <= 127 ->
  verify_report_binding r1 n1 = Ok b1 -> verify_report_binding r2 n2 = Ok b2 ->
  quote_binds_report_data ev1 slot (rb_report_data b1) = Ok () ->
  quote_binds_report_data ev2 slot (rb_report_data b2) = Ok () ->
  (n1 = n2 /\ same_doc k1 k2) \/
  collide sha256 (rb_statement b1) (rb_statement b2) \/ collide sha256 (rb_keyset_jcs b1) (rb_keyset_jcs b2).
Proof.
  intros k1 k2 Hw1 Hw2 Hd1 Hd2 Hv1 Hv2 Hq1%quote_binds_slot Hq2%quote_binds_slot.
  apply verify_report_binding_inv in Hv1 as (Hj1 & Hg1 & _ & _ & Hs1 & Hr1 & Hx1).
  apply verify_report_binding_inv in Hv2 as (Hj2 & Hg2 & _ & _ & Hs2 & Hr2 & Hx2).
  assert (rb_report_data b1 = rb_report_data b2) as Hrd.
  { apply report_data_slot_inj; [|congruence].
    by rewrite (decode_hex_32_length _ _ Hx1), (decode_hex_32_length _ _ Hx2). }
  rewrite Hr1, Hr2 in Hrd.
  destruct (collide_or_eq sha256 _ _ Hrd) as [Hst|]; [|by right; left].
  rewrite <- Hst in Hs2. destruct (attestation_statement_inj _ _ _ _ _ Hs1 Hs2) as [Hdg ->].
  rewrite Hg1, Hg2 in Hdg. apply sha256_hex_inj in Hdg.
  destruct (collide_or_eq sha256 _ _ Hdg) as [Hjj|]; [|by right; right].
  left. split; [done|]. rewrite <- Hjj in Hj2. eapply jcs_same_doc; eauto.
Qed.

End ReportBinding.

(** *** Witness *)
#[local] Existing Instances sample_sha sample_hex sample_base64 sample_json sample_keyset_serde.

Definition sample_report (nonce : option string) : AttestationReport :=
  let keyset := keyset_to_value sample_keyset in
  let digest := default EmptyString (result_ok (workload_keyset_digest keyset)) in
  let statement := default [] (result_ok (attestation_statement digest nonce)) in
  mkAttestationReport "aci/1" digest
    (mkAttestationEnvelope "tdx" keyset (hex_encode (report_data statement))
      (mkSourceProvenance None None None None) (JObject []))
    default_capabilities.

Definition sample_binding : ReportBinding :=
  default (mkReportBinding EmptyString sample_keyset [] [] [])
    (result_ok (verify_report_binding (sample_report (Some sample_nonce)) (Some sample_nonce))).

Example sample_report_validates :
  is_ok (validate_aci_report_binding (sample_report (Some sample_nonce)) (Some sample_nonce) 1000 None)
  = true.
Proof. by vm_compute. Qed.
Example sample_report_expired :
  validate_aci_report_binding (sample_report None) None 2000000000 None = Err KeysetExpired.
Proof. by vm_compute. Qed.

Lemma quote_slot_binds_nonce_and_keyset_witness :
  let k := keyset_to_value sample_keyset in
  Some sample_nonce = Some sample_nonce /\ same_doc k k.
Proof.
  edestruct (quote_slot_binds_nonce_and_keyset JNull JNull
    (report_data_slot (rb_report_data sample_binding))
    (sample_report (Some sample_nonce)) (sample_report (Some sample_nonce))
    (Some sample_nonce) (Some sample_nonce) sample_binding sample_binding) as [H|[[Hn _]|[Hn _]]];
    [by apply value_wfb_spec|by apply value_wfb_spec|vm_compute; lia|vm_compute; lia
    |by vm_compute|by vm_compute|by vm_compute|by vm_compute|exact H|by destruct Hn|by destruct Hn].
Defined.
