(* ===== verification/Channel.v ===== *)
(** * Declared TLS channel (crates/aci-verify/src/channel.rs)

    Which attested TLS key the clients of a deployment pin.  The theorems show
    that every pin is a 64-digit lowercase digest of a key the keyset attests,
    that a keyset with domain-scoped keys yields exactly one pin, selected by
    the report's declaration and attested for the origin's host, and that a
    keyset without scoped keys pins all of its keys. *)
From S2P Require Import Prelude Json External Sample Digest Identity.

(** The details behind [InvalidDownstreamTlsBinding]'s message. *)
Inductive BindingProblem : Type :=
| KeysetSpkiDigest
| DomainNotAString
| SpkiNotAString
| BadDomain (raw : string)
| BadSpkiDigest.

Inductive ChannelBindingError : Type :=
| MissingTlsSpkiBinding
| MissingDownstreamTlsBinding
| InvalidDownstreamTlsBinding (why : BindingProblem)
| InvalidBaseUrl (origin reason : string)
| BaseUrlWithoutHost (origin : string)
| InvalidBaseUrlHost (host : string)
| DownstreamTlsBindingHostMismatch (reported expected : string)
| DownstreamTlsBindingNotInKeyset.

Record SelectedDownstreamTlsBinding := mkSelected {
  sel_domain : string;
  sel_spki_sha256 : string;
}.

(** [url::Url::parse] followed by [host_str]: a parse error, or the host. *)
Class UrlParse := { url_host_str : string -> result string (option string) }.

Definition normalize_tls_domain (raw : string) : option string :=
  let domain := to_ascii_lowercase (trim_end_dots (trim raw)) in
  if bool_decide (domain = EmptyString) || contains "/" domain || contains ":" domain
     || contains "=" domain || contains "," domain || has_whitespace (as_bytes domain)
  then None
  else Some domain.

Definition normalize_sha256_hex (v : string) : option string :=
  let v := trim v in
  if negb (bool_decide (str_len v = 64)) || negb (all_bytes is_ascii_hexdigit v) then None
  else Some (to_ascii_lowercase v).

Definition selected_downstream_tls_binding (evidence : value) :
    result ChannelBindingError SelectedDownstreamTlsBinding :=
  binding ← ok_or MissingDownstreamTlsBinding (get "downstream_tls_binding" evidence);
  domain ← ok_or (InvalidDownstreamTlsBinding DomainNotAString) (get_str "domain" binding);
  spki ← ok_or (InvalidDownstreamTlsBinding SpkiNotAString) (get_str "spki_sha256" binding);
  d ← ok_or (InvalidDownstreamTlsBinding (BadDomain domain)) (normalize_tls_domain domain);
  s ← ok_or (InvalidDownstreamTlsBinding BadSpkiDigest) (normalize_sha256_hex spki);
  Ok (mkSelected d s).

Section Channel.
Context {UP : UrlParse}.

Definition origin_host_domain (origin : string) : result ChannelBindingError string :=
  url ← map_err (InvalidBaseUrl origin) (url_host_str origin);
  host ← ok_or (BaseUrlWithoutHost origin) url;
  ok_or (InvalidBaseUrlHost host) (normalize_tls_domain host).

(** The loop over the applicable keys, stopping at the declared one. *)
Fixpoint find_declared_pin (spki : string) (keys : list TlsSpki) :
    result ChannelBindingError (list string) :=
  match keys with
  | [] => Err DownstreamTlsBindingNotInKeyset
  | key :: keys' =>
      key_spki ← ok_or (InvalidDownstreamTlsBinding KeysetSpkiDigest)
                   (normalize_sha256_hex (spki_sha256_hex key));
      if bool_decide (key_spki = spki) then Ok [spki] else find_declared_pin spki keys'
  end.

Definition declared_tls_pins (ks : WorkloadKeyset) (evidence : value) (origin : string) :
    result ChannelBindingError (list string) :=
  let tls_public_keys := ks_tls_public_keys ks in
  if bool_decide (tls_public_keys = []) then Err MissingTlsSpkiBinding
  else if negb (existsb (fun key => bool_decide (is_Some (spki_domain key))) tls_public_keys) then
    collect_results (List.map
      (fun key => ok_or (InvalidDownstreamTlsBinding KeysetSpkiDigest)
                    (normalize_sha256_hex (spki_sha256_hex key))) tls_public_keys)
  else
    selected ← selected_downstream_tls_binding evidence;
    origin_domain ← origin_host_domain origin;
    if bool_decide (sel_domain selected ≠ origin_domain) then
      Err (DownstreamTlsBindingHostMismatch (sel_domain selected) origin_domain)
    else
      find_declared_pin (sel_spki_sha256 selected) (tls_keys_for_host ks (sel_domain selected)).

(** ** Lemmas *)
Definition is_spki_text (s : string) : Prop := str_len s = 64 /\ all_bytes is_lower_hex s = true.

Lemma lowercase_hexdigit c :
  is_ascii_hexdigit c = true -> is_lower_hex (to_ascii_lowercase_byte c) = true.
Proof. by destruct c as [[] [] [] [] [] [] [] []]. Qed.

Lemma normalize_sha256_hex_text v r : normalize_sha256_hex v = Some r -> is_spki_text r.
Proof.
  unfold normalize_sha256_hex. case_bool; [done|]. intros [= <-].
  apply orb_false_iff in Heqb as [Hl%negb_false_iff%bool_decide_eq_true Hx%negb_false_iff].
  unfold is_spki_text, to_ascii_lowercase, str_len, all_bytes in *. rewrite as_bytes_of_bytes.
  rewrite length_fmap. split; [done|].
  revert Hx. generalize (as_bytes (trim v)) as l. induction l as [|c l IH]; simpl; [done|].
  intros [Hc Hl']%andb_true_iff. apply andb_true_iff.
  split; [by apply lowercase_hexdigit|by apply IH].
Qed.

Lemma find_declared_pin_ok spki keys pins :
  find_declared_pin spki keys = Ok pins ->
  pins = [spki] /\ exists key, key ∈ keys /\ normalize_sha256_hex (spki_sha256_hex key) = Some spki.
Proof.
  induction keys as [|key keys IH]; simpl; [done|].
  destruct (normalize_sha256_hex (spki_sha256_hex key)) as [k|] eqn:Hn; cbn; [|done].
  case_bool_decide as Heq.
  - intros [= <-]. subst k. split; [done|]. exists key. by split; [left|].
  - intros (-> & key' & Hin & Hk)%IH. split; [done|]. exists key'. by split; [right|].
Qed.

Lemma tls_keys_for_host_elem ks host key :
  key ∈ tls_keys_for_host ks host <->
  key ∈ ks_tls_public_keys ks /\ applies_to_host (trim_end_dots (trim host)) key = true.
Proof. unfold tls_keys_for_host. by rewrite !list_elem_of_In, filter_In. Qed.

Lemma declared_tls_pins_unscoped_inv ks evidence origin pins :
  (forall key, key ∈ ks_tls_public_keys ks -> spki_domain key = None) ->
  declared_tls_pins ks evidence origin = Ok pins ->
  Forall2 (fun key pin => normalize_sha256_hex (spki_sha256_hex key) = Some pin)
    (ks_tls_public_keys ks) pins.
Proof.
  intros Hun. unfold declared_tls_pins. case_bool_decide; [done|].
  assert (existsb (fun key => bool_decide (is_Some (spki_domain key))) (ks_tls_public_keys ks) = false) as ->.
  { apply not_true_iff_false. intros (key & Hin & Hs%bool_decide_eq_true)%existsb_exists.
    apply list_elem_of_In in Hin. rewrite (Hun _ Hin) in Hs. by destruct Hs. }
  simpl. intros Hc%collect_results_ok. revert pins Hc. clear.
  induction (ks_tls_public_keys ks) as [|key l IH]; intros [|p pins] Hc; simplify_eq/=; constructor.
  - by destruct (normalize_sha256_hex (spki_sha256_hex key)); simplify_eq/=.
  - by apply IH.
Qed.

Lemma declared_tls_pins_scoped_inv ks evidence origin pins key0 :
  key0 ∈ ks_tls_public_keys ks -> spki_domain key0 ≠ None ->
  declared_tls_pins ks evidence origin = Ok pins ->
  exists sel key, selected_downstream_tls_binding evidence = Ok sel /\
    origin_host_domain origin = Ok (sel_domain sel) /\ pins = [sel_spki_sha256 sel] /\
    key ∈ tls_keys_for_host ks (sel_domain sel) /\
    normalize_sha256_hex (spki_sha256_hex key) = Some (sel_spki_sha256 sel).
Proof.
  intros Hin Hd. unfold declared_tls_pins. case_bool_decide; [done|].
  assert (existsb (fun key => bool_decide (is_Some (spki_domain key))) (ks_tls_public_keys ks) = true) as ->.
  { apply existsb_exists. exists key0. split; [by apply list_elem_of_In|].
    apply bool_decide_eq_true. by destruct (spki_domain key0). }
  simpl. destruct (selected_downstream_tls_binding evidence) as [sel|] eqn:Hsel; cbn; [|done].
  destruct (origin_host_domain origin) as [d|] eqn:Ho; cbn; [|done].
  case_bool_decide as Hdom; [done|]. subst d.
  intros (-> & key & Hk & Hn)%find_declared_pin_ok. by exists sel, key.
Qed.

(** Every pin is the normalized digest (64 lowercase hex digits) of a key
    of the attested keyset; when the keyset has a domain-scoped key there is
    exactly one pin, it is the one the report declares, the declared domain is
    the origin's host, and the pinned key applies to that host. *)
Theorem declared_tls_pins_sound ks evidence origin pins :
  declared_tls_pins ks evidence origin = Ok pins ->
  pins ≠ [] /\
  (forall p, p ∈ pins -> is_spki_text p /\ exists key, key ∈ ks_tls_public_keys ks /\
     normalize_sha256_hex (spki_sha256_hex key) = Some p) /\
  ((exists key, key ∈ ks_tls_public_keys ks /\ spki_domain key ≠ None) ->
   exists d p key, origin_host_domain origin = Ok d /\ pins = [p] /\
     selected_downstream_tls_binding evidence = Ok (mkSelected d p) /\
     key ∈ tls_keys_for_host ks d /\ normalize_sha256_hex (spki_sha256_hex key) = Some p).
Proof.
  intros Hp.
  destruct (decide (Exists (fun key => spki_domain key ≠ None) (ks_tls_public_keys ks))) as [Hs|Hs].
  - apply Exists_exists in Hs as (key0 & Hin & Hd).
    destruct (declared_tls_pins_scoped_inv _ _ _ _ _ Hin Hd Hp) as ([d p] & key & H1 & H2 & -> & H4 & H5).
    simpl in *. split; [done|]. split; [|intros _; by exists d, p, key].
    intros q ->%list_elem_of_singleton. split; [by eapply normalize_sha256_hex_text|].
    exists key. split; [|done]. by apply tls_keys_for_host_elem in H4 as [].
  - assert (Hun : forall key, key ∈ ks_tls_public_keys ks -> spki_domain key = None).
    { intros key Hin. destruct (spki_domain key) eqn:Hd; [|done]. destruct Hs.
      apply Exists_exists. exists key. by rewrite Hd. }
    pose proof (declared_tls_pins_unscoped_inv _ _ _ _ Hun Hp) as HF. split; [|split].
    + intros ->. apply Forall2_nil_inv_r in HF. unfold declared_tls_pins in Hp.
      by rewrite HF in Hp.
    + intros p [i Hi]%list_elem_of_lookup.
      destruct (Forall2_lookup_r _ _ _ _ _ HF Hi) as (key & Hk & Hn).
      split; [by eapply normalize_sha256_hex_text|]. exists key.
      split; [|done]. by eapply list_elem_of_lookup_2.
    + intros (key & Hin & Hd). by destruct Hd; apply Hun.
Qed.

(** A keyset whose TLS keys are all unscoped pins every one of them, in
    keyset order. *)
Theorem declared_tls_pins_unscoped ks evidence origin pins :
  (forall key, key ∈ ks_tls_public_keys ks -> spki_domain key = None) ->
  declared_tls_pins ks evidence origin = Ok pins ->
  Forall2 (fun key pin => normalize_sha256_hex (spki_sha256_hex key) = Some pin)
    (ks_tls_public_keys ks) pins.
Proof. apply declared_tls_pins_unscoped_inv. Qed.

End Channel.

(** *** Witnesses: a two-key keyset, scoped and unscoped. *)
#[local] Existing Instances sample_sha sample_hex.
#[local] Instance sample_url : UrlParse :=
  {| url_host_str origin := Ok (strip_prefix "https://" origin) |}.

Definition sample_spki (c : ascii) : string := of_bytes (replicate 64 c).
Definition sample_tls_keyset (d : option string) : WorkloadKeyset :=
  mkWorkloadKeyset None 0 [] []
    [mkTlsSpki (sample_spki (u8 65)) d; mkTlsSpki (sample_spki (u8 98)) None].
Definition sample_tls_evidence : value :=
  JObject [("downstream_tls_binding",
    JObject [("domain", JString "API.example.com."); ("spki_sha256", JString (sample_spki (u8 65)))])].

Lemma declared_tls_pins_sound_witness :
  exists d p key, origin_host_domain "https://api.example.com" = Ok d /\ [sample_spki (u8 97)] = [p] /\
    selected_downstream_tls_binding sample_tls_evidence = Ok (mkSelected d p) /\
    key ∈ tls_keys_for_host (sample_tls_keyset (Some "api.example.com")) d /\
    normalize_sha256_hex (spki_sha256_hex key) = Some p.
Proof.
  apply (declared_tls_pins_sound (sample_tls_keyset (Some "api.example.com"))
    sample_tls_evidence "https://api.example.com" [sample_spki (u8 97)]); [by vm_compute|].
  eexists. split; [left|done].
Defined.

Lemma declared_tls_pins_unscoped_witness :
  Forall2 (fun key pin => normalize_sha256_hex (spki_sha256_hex key) = Some pin)
    (ks_tls_public_keys (sample_tls_keyset None)) [sample_spki (u8 97); sample_spki (u8 98)].
Proof.
  apply (declared_tls_pins_unscoped (sample_tls_keyset None) JNull "https://gateway.example");
    [|by vm_compute].
  intros key. simpl. rewrite !elem_of_cons, elem_of_nil. intros [->|[->|[]]]; done.
Defined.
