(* ===== verification/Dstack.v ===== *)
(** * dstack measurements and key custody (crates/aci-verify/src/dstack.rs)

    Event-log replay to RTMR3, the measurements read from a verified log, and
    the KMS signature chain behind the receipt key.  The theorems show which
    events a lookup returns, what equal RTMR3 values say about two logs of
    runtime events, what they do not say when an entry is presented under
    another event type, and what an accepted custody chain establishes. *)
From S2P Require Import Prelude Json External Sample Digest Identity ReportBinding.

Definition DSTACK_RUNTIME_EVENT_TYPE : Z := 134217729. (* 0x08000001 *)

Record DstackEventLog := mkEvent {
  ev_imr : Z;
  ev_event_type : Z;
  ev_digest : string;
  ev_event : string;
  ev_event_payload : string;
}.
#[global] Instance DstackEventLog_eq_dec : EqDecision DstackEventLog.
Proof. solve_decision. Defined.

(** An event log whose replay matched a quote's RTMR3. *)
Record VerifiedEventLog := mkVerifiedEventLog { verified_events : list DstackEventLog }.

(** [serde_json::from_str::<Vec<DstackEventLog>>], generated code. *)
Class EventLogParse := { parse_event_log : string -> result string (list DstackEventLog) }.

(** [k256] and [ecdsa]: SEC1 points, keys (serialized compressed) and public-key
    recovery. *)
Class K256 := {
  k_point : Type;
  k_key : Type;
  k_signature : Type;
  k_recovery_id : Type;
  encoded_point_from_bytes : bytes -> result string k_point;
  key_from_encoded_point : k_point -> result string k_key;
  to_sec1_bytes : k_key -> bytes;
  recovery_id_from_byte : Z -> option k_recovery_id;
  signature_from_slice : bytes -> result string k_signature;
  recover_from_digest : bytes -> k_signature -> k_recovery_id -> result string k_key;
  to_sec1_bytes_length k : length (to_sec1_bytes k) = 33;
}.

Inductive KeyCustodyError : Type :=
| MissingKeyCustody
| UnsupportedKeyCustodyProvider (provider : string)
| InvalidKeyCustody (text : string)
| MissingReceiptKeyCustody
| ReceiptKeyCustodyMismatch
| KmsSignatureChain (text : string).

Record VerifiedReceiptCustody := mkCustody {
  vc_provider : string;
  vc_receipt_public_key : string;
  vc_purpose : string;
  vc_kms_public_key : string;
  vc_app_public_key : string;
  vc_root_public_key : string;
}.

(** [u32::to_ne_bytes] on the little-endian targets the gateway runs on. *)
Definition u32_to_ne_bytes (z : Z) : bytes :=
  (fun i => u8 (Z.to_N (Z.shiftr z (8 * i) mod 256))) <$> [0; 1; 2; 3]%Z.

Definition is_runtime_event (e : DstackEventLog) : bool :=
  (ev_imr e =? 3)%Z && (ev_event_type e =? DSTACK_RUNTIME_EVENT_TYPE)%Z.

(** [iter().take_while(p)]. *)
Fixpoint take_while {A} (p : A -> bool) (l : list A) : list A :=
  match l with [] => [] | x :: l' => if p x then x :: take_while p l' else [] end.

(** The pre-[system-ready] runtime events named [event_name]. *)
Definition named_before_system_ready (events : list DstackEventLog) (event_name : string) :
    list DstackEventLog :=
  List.filter (fun e => is_runtime_event e && bool_decide (ev_event e = event_name))
    (take_while (fun e => negb (is_runtime_event e && bool_decide (ev_event e = "system-ready")))
       events).

Definition runtime_event_before_system_ready (events : list DstackEventLog) (event_name : string) :
    result string (option DstackEventLog) :=
  match named_before_system_ready events event_name with
  | [] => Ok None
  | [e] => Ok (Some e)
  | _ :: _ :: _ =>
      Err ("invalid dstack event_log evidence: multiple pre-system-ready " +:+ event_name +:+ " events")
  end.

Definition dstack_rtmr3_event (events : list DstackEventLog) (event_name : string) :
    result string (option DstackEventLog) :=
  runtime_event_before_system_ready events event_name.

Section Dstack.
Context {SH : Sha} {HX : HexCodec} {EL : EventLogParse} {K : K256}.

(** ** Replay *)
Definition event_preimage (event_type : Z) (event : string) (payload : bytes) : bytes :=
  u32_to_ne_bytes event_type ++ as_bytes ":" ++ as_bytes event ++ as_bytes ":" ++ payload.

Definition dstack_event_digest (e : DstackEventLog) : result string bytes :=
  if negb (ev_event_type e =? DSTACK_RUNTIME_EVENT_TYPE)%Z then decode_hex (ev_digest e)
  else
    payload ← decode_hex (ev_event_payload e);
    Ok (sha384 (event_preimage (ev_event_type e) (ev_event e) payload)).

Definition pad48 (digest : bytes) : bytes := digest ++ replicate (48 - length digest) (u8 0).

(** One extension of the register: hash of the old value and the digest. *)
Definition extend (mr digest : bytes) : bytes := sha384 (mr ++ pad48 digest).

Fixpoint replay_from (mr : bytes) (events : list DstackEventLog) : result string bytes :=
  match events with
  | [] => Ok mr
  | e :: events' => digest ← dstack_event_digest e; replay_from (extend mr digest) events'
  end.

Definition replay_dstack_rtmr (events : list DstackEventLog) (imr : Z) : result string bytes :=
  mr ← replay_from (replicate 48 (u8 0)) (List.filter (fun e => (ev_imr e =? imr)%Z) events);
  if bool_decide (length mr = 48) then Ok mr else Err "replayed RTMR is not 48 bytes".

Definition verify_dstack_event_log (evidence : value) (quote_rtmr3 : option bytes) :
    result string VerifiedEventLog :=
  event_log ← ok_or "missing dstack event_log evidence" (get_str "event_log" evidence);
  events ← map_err (String.app "invalid dstack event_log evidence: ") (parse_event_log event_log);
  rtmr3 ← map_err (String.app "invalid dstack event_log evidence: ") (replay_dstack_rtmr events 3);
  quote_rtmr3 ← ok_or "dstack event log verification requires a TDX quote" quote_rtmr3;
  if bool_decide (rtmr3 ≠ quote_rtmr3) then
    Err "dstack event_log RTMR3 does not match verified quote"
  else Ok (mkVerifiedEventLog events).

(** ** Measurements *)
Definition verify_dstack_app_compose (evidence : value) (measured_compose_hash : bytes) :
    result string unit :=
  app_compose ← ok_or "missing dstack app_compose evidence" (get_str "app_compose" evidence);
  if bool_decide (sha256 (as_bytes app_compose) ≠ measured_compose_hash) then
    Err "dstack app_compose preimage does not match the RTMR3-bound compose hash"
  else Ok ().

Definition verify_dstack_compose_measurement (evidence : value) (events : VerifiedEventLog) :
    result string string :=
  found ← map_err (String.app "dstack event log rejected: ")
            (dstack_rtmr3_event (verified_events events) "compose-hash");
  measured ← ok_or "verified event log carries no compose-hash event" found;
  measured_hash ← decode_hex (ev_event_payload measured);
  if negb (bool_decide (length measured_hash = 32)) then
    Err "compose-hash event must contain 32 bytes"
  else
    _ ← verify_dstack_app_compose evidence measured_hash;
    Ok (hex_encode measured_hash).

Definition dstack_app_id (events : VerifiedEventLog) : result string bytes :=
  found ← map_err (String.app "dstack event log rejected: ")
            (dstack_rtmr3_event (verified_events events) "app-id");
  event ← ok_or "verified event log carries no app-id event" found;
  decode_hex (ev_event_payload event).

(** ** Key custody *)
Definition recover_k256_public_key (message signature : bytes) : result string k_key :=
  if negb (bool_decide (length signature = 65)) then
    Err ("recoverable secp256k1 signature must be 65 bytes, got " +:+ pretty (length signature))
  else
    let last := Z.of_N (byte (default (u8 0) (signature !! 64))) in
    let recovery_byte := if ((27 <=? last)%Z && (last <=? 30)%Z) then (last - 27)%Z else last in
    recid ← ok_or ("invalid recovery id: " +:+ pretty last) (recovery_id_from_byte recovery_byte);
    sig ← map_err (String.app "invalid secp256k1 signature: ") (signature_from_slice (take 64 signature));
    map_err (String.app "secp256k1 public key recovery failed: ")
      (recover_from_digest (keccak256 message) sig recid).

Definition compressed_k256_public_key_hex (public_key_hex : string) : result string string :=
  public_key ← decode_hex public_key_hex;
  point ← map_err (String.app "invalid secp256k1 public key: ") (encoded_point_from_bytes public_key);
  key ← map_err (String.app "invalid secp256k1 public key: ") (key_from_encoded_point point);
  Ok (hex_encode (to_sec1_bytes key)).

Definition RECEIPT_PURPOSE : string := "aci.receipt.ed25519.v1".

Definition custody_field (receipt : value) (name : string) : result KeyCustodyError string :=
  ok_or (InvalidKeyCustody ("receipt key custody missing " +:+ name)) (get_str name receipt).

Definition chain_signature (signature_chain : list value) (index : nat) :
    result KeyCustodyError bytes :=
  s ← ok_or (InvalidKeyCustody ("receipt key custody signature_chain[" +:+ pretty index +:+ "] is not a string"))
        (signature_chain !! index ≫= as_str);
  map_err InvalidKeyCustody (decode_hex s).

Definition kms_root_message (app_id : bytes) (app_public_key : k_key) : bytes :=
  as_bytes "dstack-kms-issued" ++ as_bytes ":" ++ app_id ++ to_sec1_bytes app_public_key.

Definition verify_dstack_kms_receipt_custody (evidence : value) (keyset : WorkloadKeyset)
    (app_id : bytes) : result KeyCustodyError VerifiedReceiptCustody :=
  key_custody ← ok_or MissingKeyCustody (get "key_custody" evidence);
  provider ← ok_or (InvalidKeyCustody "missing provider") (get_str "provider" key_custody);
  if bool_decide (provider ≠ "dstack-kms") then Err (UnsupportedKeyCustodyProvider provider) else
  keys ← ok_or (InvalidKeyCustody "missing keys") (get "keys" key_custody ≫= as_array);
  receipt ← ok_or MissingReceiptKeyCustody
    (List.find (fun key => bool_decide (get_str "role" key = Some "receipt")) keys);
  public_key ← custody_field receipt "public_key";
  if negb (existsb (fun key => bool_decide (kpk_public_key_hex key = public_key))
             (ks_receipt_signing_keys keyset))
  then Err ReceiptKeyCustodyMismatch else
  kms_public_key ← custody_field receipt "kms_public_key";
  purpose ← custody_field receipt "purpose";
  if bool_decide (purpose ≠ RECEIPT_PURPOSE) then
    Err (InvalidKeyCustody ("receipt key custody purpose is " +:+ debug_str purpose +:+
      ", expected " +:+ debug_str RECEIPT_PURPOSE)) else
  signature_chain ← ok_or (InvalidKeyCustody "receipt key custody missing signature_chain")
    (get "signature_chain" receipt ≫= as_array);
  if negb (bool_decide (length signature_chain = 2)) then
    Err (InvalidKeyCustody ("receipt key custody signature_chain must contain 2 signatures, got " +:+
      pretty (length signature_chain))) else
  purpose_signature ← chain_signature signature_chain 0;
  app_signature ← chain_signature signature_chain 1;
  kms_compressed ← map_err KmsSignatureChain (compressed_k256_public_key_hex kms_public_key);
  let purpose_message := as_bytes (purpose +:+ ":" +:+ kms_compressed) in
  app_public_key ← map_err KmsSignatureChain (recover_k256_public_key purpose_message purpose_signature);
  let root_message := kms_root_message app_id app_public_key in
  root_public_key ← map_err KmsSignatureChain (recover_k256_public_key root_message app_signature);
  public_key_bytes ← map_err InvalidKeyCustody (decode_hex public_key);
  Ok (mkCustody provider (hex_encode public_key_bytes) purpose kms_compressed
        (hex_encode (to_sec1_bytes app_public_key)) (hex_encode (to_sec1_bytes root_public_key))).

(** ** What a lookup returns *)
(** [e] is at position [i], is a runtime event named [name], and neither it nor
    an earlier entry is the runtime event [system-ready]. *)
Definition measured_at (events : list DstackEventLog) (name : string) (i : nat) (e : DstackEventLog) : Prop :=
  events !! i = Some e /\ is_runtime_event e = true /\ ev_event e = name /\
  forall j e', j <= i -> events !! j = Some e' ->
    ~ (is_runtime_event e' = true /\ ev_event e' = "system-ready").

Lemma named_before_cons e events name :
  named_before_system_ready (e :: events) name =
  if is_runtime_event e && bool_decide (ev_event e = "system-ready") then []
  else if is_runtime_event e && bool_decide (ev_event e = name)
       then e :: named_before_system_ready events name
       else named_before_system_ready events name.
Proof.
  unfold named_before_system_ready. simpl.
  destruct (is_runtime_event e && bool_decide (ev_event e = "system-ready")); [done|].
  simpl. by destruct (_ && _).
Qed.

Lemma measured_at_cons_S a events name i e :
  measured_at (a :: events) name (S i) e <->
  is_runtime_event a && bool_decide (ev_event a = "system-ready") = false /\
  measured_at events name i e.
Proof.
  unfold measured_at. simpl. split.
  - intros (He & Hr & Hn & Hb). split.
    + apply not_true_iff_false. rewrite andb_true_iff, bool_decide_eq_true.
      apply (Hb 0 a); [lia|done].
    + repeat split; [done..|]. intros j e' Hj. apply (Hb (S j)). lia.
  - intros (Ha & He & Hr & Hn & Hb). repeat split; [done..|].
    intros [|j] e' Hj; simpl.
    + intros [= <-]. apply not_true_iff_false in Ha.
      by rewrite andb_true_iff, bool_decide_eq_true in Ha.
    + apply Hb. lia.
Qed.
Lemma measured_at_cons_0 a events name e :
  measured_at (a :: events) name 0 e <->
  a = e /\ is_runtime_event a && bool_decide (ev_event a = "system-ready") = false /\
  is_runtime_event a && bool_decide (ev_event a = name) = true.
Proof.
  unfold measured_at. simpl. rewrite <- not_true_iff_false, !andb_true_iff, !bool_decide_eq_true.
  split.
  - intros ([= <-] & Hr & Hn & Hb). split; [done|]. split; [|done]. by apply (Hb 0 a).
  - intros (<- & Hs & Hr & Hn). repeat split; [done..|].
    intros j e' Hj. assert (j = 0) as -> by lia. by intros [= <-].
Qed.

Lemma named_before_measured events name e :
  e ∈ named_before_system_ready events name <-> exists i, measured_at events name i e.
Proof.
  induction events as [|a events IH].
  - split; [by intros ?%elem_of_nil|]. intros (i & Hi & _). by destruct i.
  - rewrite named_before_cons. split.
    + destruct (_ && bool_decide (ev_event a = "system-ready")) eqn:Hs; [by intros ?%elem_of_nil|].
      destruct (_ && bool_decide (ev_event a = name)) eqn:Hn.
      * intros [->|(i & Hi)%IH]%elem_of_cons; [exists 0|exists (S i)].
        -- by apply measured_at_cons_0.
        -- by apply measured_at_cons_S.
      * intros (i & Hi)%IH. exists (S i). by apply measured_at_cons_S.
    + intros ([|i] & Hi).
      * apply measured_at_cons_0 in Hi as (-> & -> & ->). left.
      * apply measured_at_cons_S in Hi as (-> & Hi).
        assert (e ∈ named_before_system_ready events name) by (apply IH; eauto).
        destruct (_ && _); [by right|done].
Qed.

Lemma named_before_two events name e1 e2 l :
  named_before_system_ready events name = e1 :: e2 :: l ->
  exists i j, i < j /\ measured_at events name i e1 /\ measured_at events name j e2.
Proof.
  induction events as [|a events IH]; [done|]. rewrite named_before_cons.
  destruct (_ && bool_decide (ev_event a = "system-ready")) eqn:Hs; [done|].
  destruct (_ && bool_decide (ev_event a = name)) eqn:Hn.
  - intros [= -> Hl]. assert (e2 ∈ named_before_system_ready events name) as (j & Hj)%named_before_measured
      by (rewrite Hl; left).
    exists 0, (S j). split; [lia|]. by rewrite measured_at_cons_0, measured_at_cons_S.
  - intros (i & j & Hij & Hi & Hj)%IH. exists (S i), (S j). split; [lia|].
    by rewrite !measured_at_cons_S.
Qed.

Lemma measured_two_named events name i j e1 e2 :
  i < j -> measured_at events name i e1 -> measured_at events name j e2 ->
  2 <= length (named_before_system_ready events name).
Proof.
  revert i j. induction events as [|a events IH]; intros i j Hij Hi Hj.
  { destruct Hi as [Hi _]. by destruct i. }
  destruct j as [|j]; [lia|]. rewrite named_before_cons. apply measured_at_cons_S in Hj as [Hs Hj].
  rewrite Hs. destruct i as [|i].
  - apply measured_at_cons_0 in Hi as (_ & _ & ->).
    assert (e2 ∈ named_before_system_ready events name) as He by (apply named_before_measured; eauto).
    simpl. destruct (named_before_system_ready events name); [by apply elem_of_nil in He|simpl; lia].
  - apply measured_at_cons_S in Hi as [_ Hi]. assert (i < j) as Hij' by lia.
    specialize (IH _ _ Hij' Hi Hj). destruct (_ && bool_decide (ev_event a = name)); simpl; lia.
Qed.

(** A lookup returns an entry exactly when one position of the log holds a
    runtime event of that name before [system-ready]; it reports absence only
    when there is none, and an error exactly when there are two. *)
Theorem dstack_rtmr3_event_spec events name :
  match dstack_rtmr3_event events name with
  | Ok (Some e) => exists i, measured_at events name i e /\
                     forall j e', measured_at events name j e' -> j = i
  | Ok None => forall j e', ~ measured_at events name j e'
  | Err _ => exists i j e1 e2, i < j /\ measured_at events name i e1 /\ measured_at events name j e2
  end.
Proof.
  unfold dstack_rtmr3_event, runtime_event_before_system_ready.
  destruct (named_before_system_ready events name) as [|e [|e2 l]] eqn:Hl.
  - intros j e' Hm. assert (e' ∈ named_before_system_ready events name) as Hin
      by (apply named_before_measured; eauto).
    rewrite Hl in Hin. by apply elem_of_nil in Hin.
  - assert (e ∈ named_before_system_ready events name) as (i & Hi)%named_before_measured
      by (rewrite Hl; left).
    exists i. split; [done|]. intros j e' Hj.
    destruct (lt_eq_lt_dec i j) as [[Hij| -> ]|Hij]; [|done|];
      [pose proof (measured_two_named _ _ _ _ _ _ Hij Hi Hj)
      |pose proof (measured_two_named _ _ _ _ _ _ Hij Hj Hi)]; rewrite Hl in *; simpl in *; lia.
  - apply named_before_two in Hl as (i & j & Hij & H1 & H2). by exists i, j, e, e2.
Qed.

(** ** What RTMR3 binds *)
Definition zero_register : bytes := replicate 48 (u8 0).
(** What extending a register hashes, and what the digests of runtime events hash. *)
Fixpoint chain_inputs (mr : bytes) (ds : list bytes) : list bytes :=
  match ds with
  | [] => []
  | d :: ds' => (mr ++ pad48 d) :: chain_inputs (extend mr d) ds'
  end.
Definition runtime_preimage (e : DstackEventLog) : bytes :=
  event_preimage DSTACK_RUNTIME_EVENT_TYPE (ev_event e) (default [] (result_ok (decode_hex (ev_event_payload e)))).
Definition rtmr3_inputs (l : list DstackEventLog) : list bytes :=
  let es := List.filter (fun e => (ev_imr e =? 3)%Z) l in
  (runtime_preimage <$> es) ++
  chain_inputs zero_register (default [] (result_ok (collect_results (dstack_event_digest <$> es)))).
(** Two of these strings collide, or one hashes to the initial register. *)
Definition sha384_broken (inputs : list bytes) : Prop :=
  collision_among sha384 inputs \/ exists b, b ∈ inputs /\ sha384 b = zero_register.
Lemma sha384_broken_mono l1 l2 : l1 ⊆ l2 -> sha384_broken l1 -> sha384_broken l2.
Proof. intros Hl [Hc|(b & Hb & Hz)]; [left; by eapply collision_among_mono|right; eauto]. Qed.
Lemma chain_inputs_app mr ds d :
  chain_inputs mr (ds ++ [d]) = chain_inputs mr ds ++ [foldl extend mr ds ++ pad48 d].
Proof. revert mr. induction ds as [|d' ds IH]; intros mr; cbn; [done|]. by rewrite IH. Qed.

Lemma replay_from_digests mr events out :
  replay_from mr events = Ok out <->
  exists ds, collect_results (dstack_event_digest <$> events) = Ok ds /\ out = foldl extend mr ds.
Proof.
  revert mr. induction events as [|e events IH]; intros mr.
  - split; [intros [= ->]; by exists []|by intros (ds & [= <-] & ->)].
  - rewrite fmap_cons. cbn [replay_from collect_results].
    destruct (dstack_event_digest e) as [d|err]; cbn [mbind result_bind].
    + rewrite IH. split.
      * intros (ds & Hc & ->). exists (d :: ds). by rewrite Hc.
      * intros (ds & Hc & ->).
        destruct (collect_results (dstack_event_digest <$> events)) as [ds'|]; [|done].
        injection Hc as <-. by exists ds'.
    + split; [done|]. by intros (ds & Hc & _).
Qed.

Lemma foldl_extend_length ds : length (foldl extend zero_register ds) = 48.
Proof.
  destruct ds as [|d ds] using rev_ind; [done|].
  rewrite foldl_app. simpl. apply sha384_length.
Qed.

Lemma foldl_extend_inj ds1 ds2 :
  foldl extend zero_register ds1 = foldl extend zero_register ds2 ->
  pad48 <$> ds1 = pad48 <$> ds2 \/ sha384_broken (chain_inputs zero_register ds1 ++ chain_inputs zero_register ds2).
Proof.
  revert ds2. induction ds1 as [|d1 ds1 IH] using rev_ind; intros ds2 H.
  - destruct ds2 as [|d2 ds2 _] using rev_ind; [by left|]. rewrite foldl_app in H. simpl in H.
    right; right. rewrite chain_inputs_app. eexists. split; [|symmetry; exact H]. set_solver.
  - destruct ds2 as [|d2 ds2 _] using rev_ind; rewrite ?foldl_app in H; simpl in H; rewrite chain_inputs_app.
    + right; right. eexists. split; [|exact H]. set_solver.
    + rewrite chain_inputs_app. apply (collide_or_eq sha384) in H as [H|H].
      2: { right; left. do 2 eexists. split; [|split; [|exact H]]; set_solver. }
      apply app_inj_1 in H as [H Hp]; [|by rewrite !foldl_extend_length].
      destruct (IH _ H) as [Hl|Hr].
      * left. rewrite !fmap_app, Hl. simpl. by rewrite Hp.
      * right. eapply sha384_broken_mono, Hr. set_solver.
Qed.

Lemma replay_dstack_rtmr_digests events imr out :
  replay_dstack_rtmr events imr = Ok out <->
  exists ds, collect_results (dstack_event_digest <$> List.filter (fun e => (ev_imr e =? imr)%Z) events) = Ok ds /\
    out = foldl extend zero_register ds.
Proof.
  unfold replay_dstack_rtmr. rewrite <- replay_from_digests. fold zero_register. split.
  - intros H. destruct (replay_from _ _) as [mr|]; cbn [mbind result_bind] in H; [|done].
    by case_bool_decide; simplify_eq.
  - intros H. rewrite H. cbn [mbind result_bind]. apply replay_from_digests in H as (ds & _ & ->).
    by rewrite bool_decide_eq_true_2 by apply foldl_extend_length.
Qed.

Lemma pad48_full d : length d = 48 -> pad48 d = d.
Proof. intros Hd. unfold pad48. rewrite Hd. apply app_nil_r. Qed.

(** A runtime event as measured: its name and its payload bytes. *)
Definition measured_event (e : DstackEventLog) : string * option bytes :=
  (ev_event e, result_ok (decode_hex (ev_event_payload e))).

Definition colon_free (s : string) : Prop := u8 58 ∉ as_bytes s.

Lemma colon_split n1 p1 n2 p2 :
  u8 58 ∉ n1 -> u8 58 ∉ n2 -> n1 ++ u8 58 :: p1 = n2 ++ u8 58 :: p2 -> n1 = n2 /\ p1 = p2.
Proof.
  revert n2. induction n1 as [|a n1 IH]; intros [|b n2]; simpl; rewrite ?not_elem_of_cons.
  - by intros _ _ [= ->].
  - intros _ [H _] [= Hb _]. by destruct H.
  - intros [H _] _ [= Hb _]. by destruct H.
  - intros [_ H1] [_ H2] [= -> H]. by destruct (IH _ H1 H2 H) as [-> ->].
Qed.

Lemma event_preimage_inj t n1 p1 n2 p2 :
  colon_free n1 -> colon_free n2 ->
  event_preimage t n1 p1 = event_preimage t n2 p2 -> n1 = n2 /\ p1 = p2.
Proof.
  intros H1 H2 H. unfold event_preimage in H. apply app_inv_head in H.
  cbn in H. injection H as H. apply colon_split in H as [Hn Hp]; [|done..].
  by apply (inj as_bytes) in Hn.
Qed.

Lemma runtime_digest_length e d :
  is_runtime_event e = true -> dstack_event_digest e = Ok d -> length d = 48.
Proof.
  intros [_ Ht]%andb_true_iff. unfold dstack_event_digest. rewrite Ht. simpl.
  destruct (decode_hex (ev_event_payload e)) as [p|]; [|done].
  intros [= <-]. apply sha384_length.
Qed.

Lemma runtime_digest_inj e1 e2 d :
  is_runtime_event e1 = true -> is_runtime_event e2 = true ->
  colon_free (ev_event e1) -> colon_free (ev_event e2) ->
  dstack_event_digest e1 = Ok d -> dstack_event_digest e2 = Ok d ->
  measured_event e1 = measured_event e2 \/ collide sha384 (runtime_preimage e1) (runtime_preimage e2).
Proof.
  unfold is_runtime_event, dstack_event_digest, measured_event, runtime_preimage.
  intros [_ Ht1]%andb_true_iff [_ Ht2]%andb_true_iff Hc1 Hc2. rewrite Ht1, Ht2. simpl.
  apply Z.eqb_eq in Ht1, Ht2. rewrite Ht1, Ht2.
  destruct (decode_hex (ev_event_payload e1)) as [p1|]; [|done].
  destruct (decode_hex (ev_event_payload e2)) as [p2|]; [|done].
  cbn [mbind result_bind result_ok].
  intros H1 H2. assert (sha384 (event_preimage DSTACK_RUNTIME_EVENT_TYPE (ev_event e1) p1) =
    sha384 (event_preimage DSTACK_RUNTIME_EVENT_TYPE (ev_event e2) p2)) as H by congruence.
  apply (collide_or_eq sha384) in H as [H|H]; [left|by right].
  by apply event_preimage_inj in H as [-> ->].
Qed.

Lemma runtime_digests_inj l1 l2 ds1 ds2 :
  Forall (fun e => is_runtime_event e = true /\ colon_free (ev_event e)) l1 ->
  Forall (fun e => is_runtime_event e = true /\ colon_free (ev_event e)) l2 ->
  collect_results (dstack_event_digest <$> l1) = Ok ds1 ->
  collect_results (dstack_event_digest <$> l2) = Ok ds2 ->
  pad48 <$> ds1 = pad48 <$> ds2 ->
  measured_event <$> l1 = measured_event <$> l2 \/
  collision_among sha384 ((runtime_preimage <$> l1) ++ (runtime_preimage <$> l2)).
Proof.
  rewrite !collect_results_ok. intros Hl1. revert l2 ds1 ds2.
  induction Hl1 as [|e1 l1 [Hr1 Hc1] _ IH]; intros l2 ds1 ds2 Hl2 H1 H2 Hp.
  - destruct ds1; [|done]. destruct ds2; [|done]. destruct l2; [by left|done].
  - destruct ds1 as [|d1 ds1]; [done|]. destruct ds2 as [|d2 ds2]; [done|].
    destruct Hl2 as [|e2 l2 [Hr2 Hc2] Hl2]; [done|].
    injection H1 as He1 H1. injection H2 as He2 H2. cbn in Hp. injection Hp as Hd Hp.
    rewrite (pad48_full d1), (pad48_full d2) in Hd
      by (by eapply runtime_digest_length; [|eassumption]). subst d2.
    destruct (runtime_digest_inj _ _ _ Hr1 Hr2 Hc1 Hc2 He1 He2) as [He|Hc].
    2: { right. do 2 eexists. split; [|split; [|exact Hc]]; set_solver. }
    destruct (IH _ _ _ Hl2 H1 H2 Hp) as [Hl|Hc]; [left; cbn; by rewrite He, Hl|right].
    eapply collision_among_mono, Hc. set_solver.
Qed.

Definition runtime_only (events : list DstackEventLog) : Prop :=
  Forall (fun e => is_runtime_event e = true /\ colon_free (ev_event e))
    (List.filter (fun e => (ev_imr e =? 3)%Z) events).

(** C20: RTMR3 binds a log of runtime events: two logs whose register-3 entries
    are all runtime events with colon-free names and which replay to the same
    register record the same names and payloads in the same order, unless among
    the strings hashed for the two logs SHA-384 has a collision or a preimage of
    the all-zero register. *)
Theorem rtmr3_binds_runtime_events l1 l2 mr :
  runtime_only l1 -> runtime_only l2 ->
  replay_dstack_rtmr l1 3 = Ok mr -> replay_dstack_rtmr l2 3 = Ok mr ->
  measured_event <$> List.filter (fun e => (ev_imr e =? 3)%Z) l1 =
    measured_event <$> List.filter (fun e => (ev_imr e =? 3)%Z) l2 \/
  sha384_broken (rtmr3_inputs l1 ++ rtmr3_inputs l2).
Proof.
  intros Hr1 Hr2 (ds1 & H1 & ->)%replay_dstack_rtmr_digests (ds2 & H2 & Hmr)%replay_dstack_rtmr_digests.
  unfold rtmr3_inputs. rewrite H1, H2. cbn [result_ok default from_option id].
  apply foldl_extend_inj in Hmr as [Hp|Hb]; [|right; eapply sha384_broken_mono, Hb; set_solver].
  destruct (runtime_digests_inj _ _ _ _ Hr1 Hr2 H1 H2 Hp) as [?|Hc]; [by left|right; left].
  eapply collision_among_mono, Hc. set_solver.
Qed.

(** ** What RTMR3 does not bind *)
(** The same extension presented as a non-runtime entry, whose declared digest
    the replay takes as it is. *)
Definition relabelled (e : DstackEventLog) : DstackEventLog :=
  match dstack_event_digest e with
  | Ok d => mkEvent (ev_imr e) 0 (hex_encode d) (ev_event e) (ev_event_payload e)
  | Err _ => e
  end.

Lemma decode_hex_encode b : decode_hex (hex_encode b) = Ok b.
Proof. unfold decode_hex. rewrite hex_encode_no_prefix. apply hex_decode_encode. Qed.

Lemma relabelled_digest e : is_ok (dstack_event_digest e) = true ->
  dstack_event_digest (relabelled e) = dstack_event_digest e.
Proof.
  unfold relabelled. destruct (dstack_event_digest e) as [d|]; [intros _|done].
  unfold dstack_event_digest. simpl. apply decode_hex_encode.
Qed.
Lemma relabelled_imr e : ev_imr (relabelled e) = ev_imr e.
Proof. unfold relabelled. by destruct (dstack_event_digest e). Qed.
Lemma relabelled_not_runtime e : is_ok (dstack_event_digest e) = true ->
  is_runtime_event (relabelled e) = false.
Proof.
  unfold relabelled. destruct (dstack_event_digest e); [intros _|done].
  unfold is_runtime_event. simpl. apply andb_false_r.
Qed.

Lemma filter_relabelled imr l :
  List.filter (fun e => (ev_imr e =? imr)%Z) (relabelled <$> l) =
  relabelled <$> List.filter (fun e => (ev_imr e =? imr)%Z) l.
Proof.
  induction l as [|e l IH]; [done|]. rewrite fmap_cons. cbn [List.filter]. rewrite relabelled_imr, IH.
  by destruct (ev_imr e =? imr)%Z.
Qed.

Lemma replay_from_relabelled mr l1 l2 out :
  replay_from mr (l1 ++ l2) = Ok out -> replay_from mr ((relabelled <$> l1) ++ l2) = Ok out.
Proof.
  revert mr. induction l1 as [|e l1 IH]; intros mr; [done|]. cbn.
  destruct (dstack_event_digest e) as [d|] eqn:Hd; [|done]. cbn.
  rewrite relabelled_digest by (by rewrite Hd). rewrite Hd. apply IH.
Qed.

Lemma named_before_relabelled l1 l2 name :
  Forall (fun e => is_ok (dstack_event_digest e) = true) l1 ->
  named_before_system_ready ((relabelled <$> l1) ++ l2) name = named_before_system_ready l2 name.
Proof.
  induction 1 as [|e l1 He _ IH]; [done|]. rewrite fmap_cons, <- app_comm_cons, named_before_cons.
  by rewrite relabelled_not_runtime by done.
Qed.

(** What RTMR3 leaves open: an entry shown under another event type with
    its digest spelled out extends the register the same way.  A prefix [l1] of
    a log can be shown so; the replay is unchanged, while every lookup then sees
    only [l2], whatever [l1] measured and even if [l1] held [system-ready]. *)
Theorem relabelled_prefix_is_invisible l1 l2 mr name :
  Forall (fun e => is_ok (dstack_event_digest e) = true) l1 ->
  replay_dstack_rtmr (l1 ++ l2) 3 = Ok mr ->
  replay_dstack_rtmr ((relabelled <$> l1) ++ l2) 3 = Ok mr /\
  dstack_rtmr3_event ((relabelled <$> l1) ++ l2) name = dstack_rtmr3_event l2 name.
Proof.
  intros Hl1 Hr. split.
  - unfold replay_dstack_rtmr in *. rewrite List.filter_app, filter_relabelled in *.
    destruct (replay_from _ _) as [out|] eqn:Ho in Hr; [|done].
    by rewrite (replay_from_relabelled _ _ _ _ Ho).
  - unfold dstack_rtmr3_event, runtime_event_before_system_ready.
    by rewrite named_before_relabelled.
Qed.

(** ** Measurements and custody *)
(** An accepted compose measurement is the hash of the presented
    [app_compose], and it is the payload of the one runtime event [compose-hash]
    before [system-ready]; so the measured hash fixes the document up to a
    collision of SHA-256. *)
Theorem compose_measurement_sound evidence events h :
  verify_dstack_compose_measurement evidence events = Ok h <->
  exists e compose, dstack_rtmr3_event (verified_events events) "compose-hash" = Ok (Some e) /\
    get_str "app_compose" evidence = Some compose /\
    decode_hex (ev_event_payload e) = Ok (sha256 (as_bytes compose)) /\
    h = sha256_hex_raw (as_bytes compose).
Proof.
  unfold verify_dstack_compose_measurement, verify_dstack_app_compose, sha256_hex_raw, sha256_raw. split.
  - intros H. bind_inv H. subst.
    destruct (bool_decide (length a1 = 32)); simpl in H; [|done]. bind_inv H.
    case_bool_decide as Hs; [done|]. simplify_eq. by eexists _, _.
  - intros (e & compose & He & Hc & Hd & ->). rewrite He. cbn. rewrite Hd. cbn.
    rewrite bool_decide_eq_true_2 by apply sha256_length. simpl. rewrite Hc. cbn.
    rewrite bool_decide_eq_false_2 by naive_solver. done.
Qed.

Lemma kms_root_message_inj id1 k1 id2 k2 :
  kms_root_message id1 k1 = kms_root_message id2 k2 ->
  id1 = id2 /\ to_sec1_bytes k1 = to_sec1_bytes k2.
Proof.
  unfold kms_root_message. intros H. do 2 apply app_inv_head in H.
  apply app_inj_2 in H; [done|]. by rewrite !to_sec1_bytes_length.
Qed.

(** The receipt entry of the custody evidence. *)
Definition custody_entry (evidence entry : value) : Prop :=
  exists custody keys, get "key_custody" evidence = Some custody /\
    get_str "provider" custody = Some "dstack-kms" /\
    get "keys" custody ≫= as_array = Some keys /\ entry ∈ keys /\
    get_str "role" entry = Some "receipt".

(** An accepted custody chain names a receipt key of the attested keyset,
    is for the receipt purpose, and runs from the measured app id to the
    returned root: the app key is recovered over the purpose and the KMS key,
    the root over the app id and that app key.  The message behind the root
    fixes the app id: the same root signature speaks for no other. *)
Theorem receipt_custody_sound evidence ks app_id c :
  verify_dstack_kms_receipt_custody evidence ks app_id = Ok c ->
  exists entry key app_key root_key purpose_signature app_signature pk,
    custody_entry evidence entry /\ key ∈ ks_receipt_signing_keys ks /\
    get_str "public_key" entry = Some (kpk_public_key_hex key) /\
    get_str "purpose" entry = Some RECEIPT_PURPOSE /\
    recover_k256_public_key (as_bytes (RECEIPT_PURPOSE +:+ ":" +:+ vc_kms_public_key c))
      purpose_signature = Ok app_key /\
    recover_k256_public_key (kms_root_message app_id app_key) app_signature = Ok root_key /\
    decode_hex (kpk_public_key_hex key) = Ok pk /\
    c = mkCustody "dstack-kms" (hex_encode pk) RECEIPT_PURPOSE (vc_kms_public_key c)
          (hex_encode (to_sec1_bytes app_key)) (hex_encode (to_sec1_bytes root_key)) /\
    (forall app_id', kms_root_message app_id' app_key = kms_root_message app_id app_key ->
       app_id' = app_id).
Proof.
  unfold verify_dstack_kms_receipt_custody, custody_field. intros H. bind_inv H.
  case_bool_decide as Hp; [done|]. subst. bind_inv H.
  destruct (existsb _ _) eqn:Hk; simpl in H; [|done]. bind_inv H.
  case_bool_decide as Hpu; [done|]. subst. bind_inv H.
  case_bool_decide; simpl in H; [|done]. bind_inv H. simplify_eq. cbn [vc_kms_public_key].
  apply existsb_exists in Hk as (key & Hin & Hkey%bool_decide_eq_true).
  apply List.find_some in E2 as [Hent Hrole%bool_decide_eq_true]. subst.
  eexists _, key, _, _, _, _, _. repeat split; try done.
  - by eexists _, _; repeat split; [done..|by apply list_elem_of_In|].
  - by apply list_elem_of_In.
  - intros app_id' Hm. by apply kms_root_message_inj in Hm as [].
Qed.

End Dstack.

(** *** Witnesses *)
#[local] Existing Instances sample_sha sample_hex.
#[local] Instance sample_k256 : K256 := {|
  k_point := bytes; k_key := bytes; k_signature := bytes; k_recovery_id := Z;
  encoded_point_from_bytes b := Ok b;
  key_from_encoded_point p := Ok p;
  to_sec1_bytes := sample_digest 33;
  recovery_id_from_byte z := if (z <=? 3)%Z then Some z else None;
  signature_from_slice b := Ok b;
  recover_from_digest d _ _ := Ok d;
  to_sec1_bytes_length := sample_digest_length 33;
|}.

Definition sample_event (imr : Z) (name payload : string) : DstackEventLog :=
  mkEvent imr DSTACK_RUNTIME_EVENT_TYPE EmptyString name payload.
Definition sample_boot : list DstackEventLog :=
  [sample_event 3 "compose-hash" "00"; sample_event 3 "system-ready" EmptyString].
Definition sample_late : list DstackEventLog := [sample_event 3 "compose-hash" "ff"].
Definition sample_rtmr3 (l : list DstackEventLog) : bytes :=
  default [] (result_ok (replay_dstack_rtmr l 3)).

(** A hash under which the strings of the sample replays neither collide nor hash
    to the initial register. *)
Definition sample_spread (n : nat) (b : bytes) : bytes := take n (rev b ++ replicate n (u8 1)).
Lemma sample_spread_length n b : length (sample_spread n b) = n.
Proof. unfold sample_spread. rewrite length_take, length_app, length_replicate. lia. Qed.
Definition sample_spread_sha : Sha := {|
  sha256 := sample_spread 32; sha384 := sample_spread 48; keccak256 := sample_spread 32;
  sha256_length := sample_spread_length 32; sha384_length := sample_spread_length 48;
  keccak256_length := sample_spread_length 32;
|}.

Lemma sha384_unbroken `{SH : Sha} inputs :
  Forall (fun x => sha384 x ≠ zero_register /\ Forall (fun y => x = y \/ sha384 x ≠ sha384 y) inputs) inputs ->
  ~ sha384_broken inputs.
Proof.
  rewrite Forall_forall. intros H [(x & y & Hx & Hy & Hne & Hc)|(x & Hx & Hz)].
  - destruct (H x Hx) as [_ Hf]. rewrite Forall_forall in Hf. naive_solver.
  - by destruct (H x Hx).
Qed.

Lemma rtmr3_binds_runtime_events_witness :
  measured_event <$> List.filter (fun e => (ev_imr e =? 3)%Z) sample_late =
    measured_event <$> List.filter (fun e => (ev_imr e =? 3)%Z)
      (sample_event 1 "other" "zz" :: sample_late) /\
  ~ sha384_broken (SH:=sample_spread_sha)
      (rtmr3_inputs (SH:=sample_spread_sha) sample_late ++
       rtmr3_inputs (SH:=sample_spread_sha) (sample_event 1 "other" "zz" :: sample_late)).
Proof.
  assert (~ sha384_broken (SH:=sample_spread_sha)
      (rtmr3_inputs (SH:=sample_spread_sha) sample_late ++
       rtmr3_inputs (SH:=sample_spread_sha) (sample_event 1 "other" "zz" :: sample_late))) as Hn.
  { apply sha384_unbroken, (bool_decide_unpack _). by vm_compute. }
  split; [|exact Hn].
  destruct (rtmr3_binds_runtime_events (SH:=sample_spread_sha) sample_late (sample_event 1 "other" "zz" :: sample_late)
    (default [] (result_ok (replay_dstack_rtmr (SH:=sample_spread_sha) sample_late 3)))) as [H|H];
    [| |by vm_compute|by vm_compute|exact H|destruct (Hn H)].
  all: unfold runtime_only, colon_free; simpl; apply Forall_singleton; split; [done|];
    apply (bool_decide_unpack _); by vm_compute.
Defined.

Lemma relabelled_prefix_is_invisible_witness :
  replay_dstack_rtmr ((relabelled <$> sample_boot) ++ sample_late) 3 =
    Ok (sample_rtmr3 (sample_boot ++ sample_late)) /\
  dstack_rtmr3_event ((relabelled <$> sample_boot) ++ sample_late) "compose-hash" =
    dstack_rtmr3_event sample_late "compose-hash".
Proof.
  apply relabelled_prefix_is_invisible; [repeat constructor; by vm_compute|by vm_compute].
Defined.

Definition sample_hex65 : string := sample_hex_encode (zeros 65).
Definition sample_custody_evidence : value :=
  JObject [("key_custody", JObject [("provider", JString "dstack-kms"); ("keys", JArray [
    JObject [("role", JString "receipt"); ("public_key", JString "aa");
      ("kms_public_key", JString "02"); ("purpose", JString RECEIPT_PURPOSE);
      ("signature_chain", JArray [JString sample_hex65; JString sample_hex65])]])])].
Definition sample_receipt_keyset : WorkloadKeyset :=
  mkWorkloadKeyset None 0 [mkKeyedPublicKey "r1" "ed25519" "aa"] [] [].

Lemma receipt_custody_sound_witness : exists entry key,
  custody_entry sample_custody_evidence entry /\
  key ∈ ks_receipt_signing_keys sample_receipt_keyset /\
  get_str "public_key" entry = Some (kpk_public_key_hex key).
Proof.
  destruct (receipt_custody_sound sample_custody_evidence sample_receipt_keyset [u8 1]
    (match verify_dstack_kms_receipt_custody sample_custody_evidence sample_receipt_keyset [u8 1] with
     | Ok c => c
     | Err _ => mkCustody "-" "-" "-" "-" "-" "-" end))
    as (entry & key & _ & _ & _ & _ & _ & H1 & H2 & H3 & _); [by vm_compute|].
  by exists entry, key.
Defined.
