(* ===== verification/Receipt.v ===== *)
(** * Inference receipts (src/aci/receipt.rs, src/aci/keys.rs)

    The event-log builder with every operation that changes it, the finalizer
    that canonicalizes and signs the document once, and the relying party's
    signature check.  The theorems show the invariant every sequence of builder
    operations keeps, exactly when finalization succeeds and what it requires,
    that the served bytes verify after an independent parse, and that a
    signature covers one document up to member order. *)
From S2P Require Import Prelude Json External Sample Digest Identity.

(** ** keys.rs *)
Definition ALGO_ED25519 : string := "ed25519".

Inductive KeyError : Type :=
| UnknownReceiptKeyId (key_id : string)
| UnknownE2eeKeyId (key_id : string)
| UnsupportedAlgo (algo : string)
| CryptoFailure (text : string)
| QuoteFailure (text : string).

(** The part of the [KeyProvider] trait that receipts use. *)
Class KeyProvider := {
  receipt_keys : list KeyedPublicKey;
  sign_receipt : string -> bytes -> result KeyError bytes;
}.

(** [ed25519_dalek]: decoding a verifying key and [verify_strict]. *)
Class Ed25519 := {
  ed_key : Type;
  verifying_key_from_bytes : bytes -> option ed_key;
  verify_strict : ed_key -> bytes -> bytes -> bool;
}.

(** ** receipt.rs *)
Definition RECEIPT_API_VERSION : string := "aci/1".
Definition EVENT_REQUEST_RECEIVED : string := "request.received".
Definition EVENT_REQUEST_FORWARDED : string := "request.forwarded".
Definition EVENT_UPSTREAM_VERIFIED : string := "upstream.verified".
Definition EVENT_RESPONSE_RETURNED : string := "response.returned".
Definition EVENT_MIDDLEWARE_FORWARDED : string := "middleware.forwarded".
Definition EVENT_ROUTE_SELECTED : string := "route.selected".
Definition EVENT_RESPONSE_RECEIVED : string := "response.received".

Inductive ReceiptError : Type :=
| FirstEventMustBeRequestReceived (event_type : string)
| MissingRequiredEvent (event_type : string)
| EmptyReceipt
| ReservedField (key : string)
| ReservedEventType (event_type : string)
| Canonicalization (e : JcsError)
| InvalidSessionId (session_id : string)
| ReceiptKey (e : KeyError).

Inductive VerificationResult : Type := Verified | Failed.
#[global] Instance VerificationResult_eq_dec : EqDecision VerificationResult.
Proof. solve_decision. Defined.
Definition verification_result_as_str (r : VerificationResult) : string :=
  match r with Verified => "verified" | Failed => "failed" end.

Inductive ChannelBinding : Type :=
| TlsSpkiSha256 (origin spki_sha256 : string)
| E2eePublicKeySha256 (provider : string) (key_id : option string) (algorithm public_key_sha256 : string)
| ProxyImageSha256 (provider proxy_image_digest credential_sha256 : string).
#[global] Instance ChannelBinding_eq_dec : EqDecision ChannelBinding.
Proof. solve_decision. Defined.

Record ReceiptEvent := mkReceiptEvent {
  re_event_type : string;
  re_fields : list (string * value);
}.

Definition receipt_event_to_value (e : ReceiptEvent) : value :=
  JObject (foldl (fun obj kv => obj_insert kv.1 kv.2 obj)
    (obj_insert "type" (JString (re_event_type e)) []) (re_fields e)).

Record SignedReceipt := mkSignedReceipt {
  sr_receipt_id : string;
  sr_chat_id : option string;
  sr_workload_keyset_digest : string;
  sr_document : bytes;
  sr_key_id : string;
  sr_signature_hex : string;
}.

Record ReceiptBuilder := mkReceiptBuilder {
  rcb_receipt_id : string;
  rcb_chat_id : option string;
  rcb_model : option string;
  rcb_workload_keyset_digest : string;
  rcb_endpoint : string;
  rcb_method : string;
  rcb_served_at : Z;
  rcb_events : list ReceiptEvent;
}.

Definition builder_new (receipt_id : string) (chat_id model : option string)
    (workload_keyset_digest endpoint method : string) (served_at : Z) : ReceiptBuilder :=
  mkReceiptBuilder receipt_id chat_id model workload_keyset_digest endpoint method served_at [].

Definition with_events (b : ReceiptBuilder) (es : list ReceiptEvent) : ReceiptBuilder :=
  mkReceiptBuilder (rcb_receipt_id b) (rcb_chat_id b) (rcb_model b) (rcb_workload_keyset_digest b)
    (rcb_endpoint b) (rcb_method b) (rcb_served_at b) es.

(** [&mut self] methods return the new builder; on [Err] the builder is as it
    was, because every guard precedes the push. *)
Definition append (b : ReceiptBuilder) (event_type : string) (fields : list (string * value)) :
    result ReceiptError ReceiptBuilder :=
  if bool_decide (rcb_events b = []) && negb (bool_decide (event_type = EVENT_REQUEST_RECEIVED))
  then Err (FirstEventMustBeRequestReceived event_type)
  else match List.find (fun k => bool_decide (k = "type")) (obj_keys fields) with
  | Some key => Err (ReservedField key)
  | None => Ok (with_events b (rcb_events b ++ [mkReceiptEvent event_type fields]))
  end.

Definition append_hash (b : ReceiptBuilder) (event_type body_hash : string) :
    result ReceiptError ReceiptBuilder :=
  append b event_type (obj_insert "body_hash" (JString body_hash) []).

Section Builder.
Context {SH : Sha} {HX : HexCodec}.

Definition append_body_hash (b : ReceiptBuilder) (event_type : string) (body : bytes) :
    result ReceiptError (ReceiptBuilder * string) :=
  let hash := sha256_hex body in
  b' ← append_hash b event_type hash;
  Ok (b', hash).

Definition add_request_received (b : ReceiptBuilder) (body : bytes) :=
  append_body_hash b EVENT_REQUEST_RECEIVED body.
Definition add_request_forwarded (b : ReceiptBuilder) (body : bytes) :=
  append_body_hash b EVENT_REQUEST_FORWARDED body.
Definition add_middleware_forwarded (b : ReceiptBuilder) (body : bytes) :=
  append_body_hash b EVENT_MIDDLEWARE_FORWARDED body.
Definition add_response_received (b : ReceiptBuilder) (body : bytes) :=
  append_body_hash b EVENT_RESPONSE_RECEIVED body.
Definition add_response_returned (b : ReceiptBuilder) (wire : bytes) :=
  append_body_hash b EVENT_RESPONSE_RETURNED wire.
End Builder.

Definition add_response_received_hash (b : ReceiptBuilder) (body_hash : string) :=
  append_hash b EVENT_RESPONSE_RECEIVED body_hash.
Definition add_response_returned_hash (b : ReceiptBuilder) (body_hash : string) :=
  append_hash b EVENT_RESPONSE_RETURNED body_hash.

Definition add_route_selected (b : ReceiptBuilder) (target_route_id : string) :
    result ReceiptError ReceiptBuilder :=
  append b EVENT_ROUTE_SELECTED (obj_insert "target_route_id" (JString target_route_id) []).

Definition is_session_id (s : string) : bool :=
  bool_decide (str_len s = 64) && all_bytes is_lower_hex s.

(** Of the verification outcome only [required] and [model_id] are recorded. *)
Definition add_upstream_verified_with_session (b : ReceiptBuilder)
    (required : bool) (model_id session_id : string) : result ReceiptError ReceiptBuilder :=
  if negb (is_session_id session_id) then Err (InvalidSessionId session_id)
  else
    append b EVENT_UPSTREAM_VERIFIED
      (obj_insert "session_id" (JString session_id)
      (obj_insert "model_id" (JString model_id)
      (obj_insert "required" (JBool required)
      (obj_insert "result" (JString (verification_result_as_str Verified)) [])))).

Definition add_upstream_verified_failed (b : ReceiptBuilder) (model_id reason : string)
    (required : bool) (upstream_name : option string) : result ReceiptError ReceiptBuilder :=
  let fields :=
    obj_insert "reason" (JString reason)
    (obj_insert "model_id" (JString model_id)
    (obj_insert "required" (JBool required)
    (obj_insert "result" (JString (verification_result_as_str Failed)) []))) in
  let fields :=
    match upstream_name with
    | Some name => if bool_decide (name = EmptyString) then fields
                   else obj_insert "upstream_name" (JString name) fields
    | None => fields
    end in
  append b EVENT_UPSTREAM_VERIFIED fields.

Definition add_extension_event (b : ReceiptBuilder) (event_type : string)
    (fields : list (string * value)) : result ReceiptError ReceiptBuilder :=
  if bool_decide (event_type ∈ [EVENT_REQUEST_RECEIVED; EVENT_REQUEST_FORWARDED;
                                EVENT_UPSTREAM_VERIFIED; EVENT_RESPONSE_RETURNED])
  then Err (ReservedEventType event_type)
  else append b event_type fields.

Definition set_chat_id (b : ReceiptBuilder) (chat_id : option string) : ReceiptBuilder :=
  mkReceiptBuilder (rcb_receipt_id b) chat_id (rcb_model b) (rcb_workload_keyset_digest b)
    (rcb_endpoint b) (rcb_method b) (rcb_served_at b) (rcb_events b).

Definition event_result (e : ReceiptEvent) : option string :=
  obj_get "result" (re_fields e) ≫= as_str.
Definition is_verified_event (e : ReceiptEvent) : bool :=
  bool_decide (re_event_type e = EVENT_UPSTREAM_VERIFIED) &&
  bool_decide (event_result e = Some (verification_result_as_str Verified)).

(** The loop stops at the first verified event. *)
Fixpoint set_first_model (model_id : string) (es : list ReceiptEvent) : list ReceiptEvent :=
  match es with
  | [] => []
  | e :: es' =>
      if is_verified_event e then
        mkReceiptEvent (re_event_type e) (obj_insert "model_id" (JString model_id) (re_fields e)) :: es'
      else e :: set_first_model model_id es'
  end.
Definition set_upstream_verified_model_id (b : ReceiptBuilder) (model_id : option string) : ReceiptBuilder :=
  match model_id with
  | None => b
  | Some model_id => with_events b (set_first_model model_id (rcb_events b))
  end.

(** A refusal: a required verification failed, so nothing was forwarded. *)
Definition is_refusal_event (e : ReceiptEvent) : bool :=
  bool_decide (re_event_type e = EVENT_UPSTREAM_VERIFIED) &&
  bool_decide (event_result e = Some (verification_result_as_str Failed)) &&
  bool_decide (obj_get "required" (re_fields e) ≫= as_bool = Some true).
Definition refused (b : ReceiptBuilder) : bool := existsb is_refusal_event (rcb_events b).
Definition has_event (b : ReceiptBuilder) (event_type : string) : bool :=
  existsb (fun e => bool_decide (re_event_type e = event_type)) (rcb_events b).

Fixpoint require_events (b : ReceiptBuilder) (required : list string) : result ReceiptError unit :=
  match required with
  | [] => Ok ()
  | r :: rest =>
      if bool_decide (r = EVENT_REQUEST_FORWARDED) && refused b then require_events b rest
      else if negb (has_event b r) then Err (MissingRequiredEvent r)
      else require_events b rest
  end.

(** [serde_json::to_value(&ReceiptPayload { .. })]. *)
Definition receipt_payload (b : ReceiptBuilder) : list (string * value) :=
  [("api_version", JString RECEIPT_API_VERSION);
   ("receipt_id", JString (rcb_receipt_id b));
   ("chat_id", opt_string_to_value (rcb_chat_id b));
   ("model", opt_string_to_value (rcb_model b));
   ("workload_keyset_digest", JString (rcb_workload_keyset_digest b));
   ("endpoint", JString (rcb_endpoint b));
   ("method", JString (rcb_method b));
   ("served_at", JNumber (PosInt (rcb_served_at b)));
   ("event_log", JArray (List.map receipt_event_to_value (rcb_events b)))].

Section Finalize.
Context {SH : Sha} {HX : HexCodec} {SJ : SerdeJson} {KP : KeyProvider} {ED : Ed25519}.

Definition finalize (b : ReceiptBuilder) (key_id : string) : result ReceiptError SignedReceipt :=
  if bool_decide (rcb_events b = []) then Err EmptyReceipt else
  _ ← require_events b [EVENT_REQUEST_RECEIVED; EVENT_REQUEST_FORWARDED; EVENT_RESPONSE_RETURNED];
  receipt_key ← ok_or (ReceiptKey (UnknownReceiptKeyId key_id))
    (List.find (fun k => bool_decide (kpk_key_id k = key_id)) receipt_keys);
  if bool_decide (kpk_algo receipt_key ≠ ALGO_ED25519)
  then Err (ReceiptKey (UnsupportedAlgo (kpk_algo receipt_key))) else
  let obj := obj_insert "key_id" (JString (kpk_key_id receipt_key)) (receipt_payload b) in
  input ← map_err Canonicalization (receipt_signing_input (JObject obj));
  signature ← map_err ReceiptKey (sign_receipt (kpk_key_id receipt_key) input);
  let signature_hex := hex_encode signature in
  let document := JObject (obj_insert "signature" (JString signature_hex) obj) in
  document_bytes ← map_err Canonicalization (jcs_bytes document);
  Ok (mkSignedReceipt (rcb_receipt_id b) (rcb_chat_id b) (rcb_workload_keyset_digest b)
        document_bytes (kpk_key_id receipt_key) signature_hex).

(** [SignedReceipt::document_json]. *)
Definition document_json (r : SignedReceipt) : result string value := from_slice (sr_document r).

Definition verify_receipt_signature (receipt_key : KeyedPublicKey) (payload signature : bytes) : bool :=
  if bool_decide (kpk_algo receipt_key ≠ ALGO_ED25519) then false else
  match hex_decode (kpk_public_key_hex receipt_key) with
  | Err _ => false
  | Ok pub_bytes =>
      if negb (bool_decide (length pub_bytes = 32)) then false else
      match verifying_key_from_bytes pub_bytes with
      | None => false
      | Some vk =>
          if negb (bool_decide (length signature = 64)) then false
          else verify_strict vk payload signature
      end
  end.

(** The Ethereum address of an uncompressed secp256k1 key, with or without its
    leading [0x04]. *)
Definition ethereum_address_from_uncompressed_public_key (public_key_hex : string) :
    result KeyError string :=
  public_key ← map_err (fun e => CryptoFailure ("invalid secp256k1 public key hex: " +:+ e))
    (hex_decode public_key_hex);
  let with_tag :=
    match public_key with
    | tag :: rest => if bool_decide (tag = u8 4) && bool_decide (length rest = 64) then Some rest else None
    | [] => None
    end in
  rest ← match with_tag with
         | Some rest => Ok rest
         | None =>
             if bool_decide (length public_key = 64) then Ok public_key
             else Err (CryptoFailure ("secp256k1 public key must be 64 or 65 bytes, got " +:+
                         pretty (length public_key)))
         end;
  Ok ("0x" +:+ hex_encode (drop 12 (keccak256 rest))).

(** The document a relying party checks: everything but [signature], as JCS,
    against the decoded [signature] member. *)
Definition relying_party_accepts (key : KeyedPublicKey) (document : value) : bool :=
  match get_str "signature" document, receipt_signing_input document with
  | Some hex, Ok input =>
      match hex_decode hex with
      | Ok signature => verify_receipt_signature key input signature
      | Err _ => false
      end
  | _, _ => false
  end.

(** What [KeyProvider::sign_receipt] promises: signatures under the listed
    Ed25519 key of that id. *)
Class LawfulSigner := {
  sign_receipt_verifies key payload signature :
    List.find (fun k => bool_decide (kpk_key_id k = kpk_key_id key)) receipt_keys = Some key ->
    kpk_algo key = ALGO_ED25519 ->
    sign_receipt (kpk_key_id key) payload = Ok signature ->
    verify_receipt_signature key payload signature = true;
}.

End Finalize.

(** ** The invariant of the builder *)
Definition fields_wf (fields : list (string * value)) : Prop := value_wf (JObject fields).

(** An [upstream.verified] event either reports a verified upstream and cites a
    64-digit session id, or reports a failure with its reason and no session. *)
Definition upstream_event_ok (e : ReceiptEvent) : Prop :=
  (event_result e = Some "verified" /\
     exists s, obj_get "session_id" (re_fields e) = Some (JString s) /\ is_session_id s = true) \/
  (event_result e = Some "failed" /\ obj_get "session_id" (re_fields e) = None /\
     exists r, obj_get "reason" (re_fields e) = Some (JString r)).

Record event_ok (e : ReceiptEvent) : Prop := {
  event_fields_wf : fields_wf (re_fields e);
  event_no_type : "type" ∉ obj_keys (re_fields e);
  event_upstream : re_event_type e = EVENT_UPSTREAM_VERIFIED -> upstream_event_ok e;
}.

Record builder_ok (b : ReceiptBuilder) : Prop := {
  builder_first e es : rcb_events b = e :: es -> re_event_type e = EVENT_REQUEST_RECEIVED;
  builder_events : Forall event_ok (rcb_events b);
}.

(** One call of a public [&mut self] method that returned [Ok] (an [Err] leaves
    the builder unchanged).  Extension fields come from a JSON map. *)
Inductive builder_step {SH : Sha} {HX : HexCodec} (b : ReceiptBuilder) : ReceiptBuilder -> Prop :=
| step_request_received body b' h : add_request_received b body = Ok (b', h) -> builder_step b b'
| step_request_forwarded body b' h : add_request_forwarded b body = Ok (b', h) -> builder_step b b'
| step_middleware_forwarded body b' h : add_middleware_forwarded b body = Ok (b', h) -> builder_step b b'
| step_route_selected r b' : add_route_selected b r = Ok b' -> builder_step b b'
| step_upstream_session req m s b' :
    add_upstream_verified_with_session b req m s = Ok b' -> builder_step b b'
| step_upstream_failed m r req n b' :
    add_upstream_verified_failed b m r req n = Ok b' -> builder_step b b'
| step_response_received body b' h : add_response_received b body = Ok (b', h) -> builder_step b b'
| step_response_received_hash h b' : add_response_received_hash b h = Ok b' -> builder_step b b'
| step_response_returned body b' h : add_response_returned b body = Ok (b', h) -> builder_step b b'
| step_response_returned_hash h b' : add_response_returned_hash b h = Ok b' -> builder_step b b'
| step_extension t fields b' :
    fields_wf fields -> add_extension_event b t fields = Ok b' -> builder_step b b'
| step_chat_id c : builder_step b (set_chat_id b c)
| step_model_id m : builder_step b (set_upstream_verified_model_id b m).

Lemma find_type_None (fields : list (string * value)) :
  List.find (fun k => bool_decide (k = "type")) (obj_keys fields) = None -> "type" ∉ obj_keys fields.
Proof.
  intros Hf Hin. apply list_elem_of_In in Hin. pose proof (List.find_none _ _ Hf _ Hin) as H.
  by apply bool_decide_eq_false in H.
Qed.

Lemma append_ok b t fields b' :
  append b t fields = Ok b' ->
  b' = with_events b (rcb_events b ++ [mkReceiptEvent t fields]) /\
  (rcb_events b = [] -> t = EVENT_REQUEST_RECEIVED) /\ "type" ∉ obj_keys fields.
Proof.
  unfold append. intros H.
  destruct (bool_decide (rcb_events b = []) && _) eqn:Hg; [done|].
  destruct (List.find _ _) eqn:Hf in H; [done|]. injection H as <-. split; [done|].
  split; [|by apply find_type_None]. intros He. rewrite bool_decide_eq_true_2 in Hg by done.
  by apply negb_false_iff, bool_decide_eq_true in Hg.
Qed.

Lemma append_preserves b t fields b' :
  append b t fields = Ok b' -> fields_wf fields ->
  (t = EVENT_UPSTREAM_VERIFIED -> upstream_event_ok (mkReceiptEvent t fields)) ->
  builder_ok b -> builder_ok b'.
Proof.
  intros (-> & Hfirst & Hty)%append_ok Hwf Hup [Hb HF]. split; simpl.
  - intros e es He. destruct (rcb_events b) as [|e0 es0]; simpl in He.
    + injection He as <- <-. by apply Hfirst.
    + injection He as <- <-. by eapply Hb.
  - apply Forall_app. split; [done|]. apply Forall_singleton. by split.
Qed.

Lemma append_hash_preserves b t h b' :
  t ≠ EVENT_UPSTREAM_VERIFIED -> append_hash b t h = Ok b' -> builder_ok b -> builder_ok b'.
Proof.
  intros Ht Ha Hb. eapply append_preserves; [exact Ha| |done|done].
  apply value_wfb_spec. by vm_compute.
Qed.
Lemma append_body_hash_preserves {SH : Sha} {HX : HexCodec} b t body b' h :
  t ≠ EVENT_UPSTREAM_VERIFIED -> append_body_hash b t body = Ok (b', h) -> builder_ok b -> builder_ok b'.
Proof.
  unfold append_body_hash. intros Ht H. destruct (append_hash b t (sha256_hex body)) eqn:E; [|done].
  injection H as <- <-. by eapply append_hash_preserves.
Qed.

Lemma with_session_preserves b req m s b' :
  add_upstream_verified_with_session b req m s = Ok b' -> builder_ok b -> builder_ok b'.
Proof.
  unfold add_upstream_verified_with_session. destruct (is_session_id s) eqn:Hs; simpl; [|done].
  intros Ha. eapply append_preserves; [exact Ha| |].
  - apply value_wfb_spec. by vm_compute.
  - intros _. left. split; [done|]. by exists s.
Qed.
Lemma failed_preserves b m r req n b' :
  add_upstream_verified_failed b m r req n = Ok b' -> builder_ok b -> builder_ok b'.
Proof.
  unfold add_upstream_verified_failed. intros Ha.
  destruct n as [n|]; [destruct (bool_decide (n = EmptyString))|];
    (eapply append_preserves; [exact Ha| |intros _; right; eauto]);
    apply value_wfb_spec; by vm_compute.
Qed.

Lemma set_first_model_head m e es :
  exists e', set_first_model m (e :: es) = e' :: tail (set_first_model m (e :: es)) /\
    re_event_type e' = re_event_type e.
Proof. simpl. destruct (is_verified_event e); eauto. Qed.

Lemma model_insert_ok m e :
  is_verified_event e = true -> event_ok e ->
  event_ok (mkReceiptEvent (re_event_type e) (obj_insert "model_id" (JString m) (re_fields e))).
Proof.
  intros [_ Hv%bool_decide_eq_true]%andb_true_iff [Hwf Hty Hup]. split; simpl.
  - apply obj_insert_wf; [constructor|done].
  - rewrite <- obj_get_None, obj_get_insert, bool_decide_eq_false_2 by done.
    by apply obj_get_None.
  - intros Ht. destruct (Hup Ht) as [[Hr Hs]|[Hr _]]; [|by rewrite Hv in Hr]. left.
    unfold event_result in *. cbn [re_fields]. rewrite !obj_get_insert.
    by rewrite !bool_decide_eq_false_2 by done.
Qed.

Lemma set_model_preserves b m : builder_ok b -> builder_ok (set_upstream_verified_model_id b m).
Proof.
  intros [Hb HF]. destruct m as [m|]; [|done]. split; simpl.
  - intros e es He. destruct (rcb_events b) as [|e0 es0] eqn:Hev; [done|].
    destruct (set_first_model_head m e0 es0) as (e' & Heq & Hty). rewrite Heq in He.
    injection He as <- _. rewrite Hty. by eapply Hb.
  - clear Hb. induction HF as [|e es He HF IH]; simpl; [done|].
    destruct (is_verified_event e) eqn:Hv; constructor; auto using model_insert_ok.
Qed.

#[export] Hint Resolve with_session_preserves failed_preserves set_model_preserves : invariants.

Section Invariant.
Context {SH : Sha} {HX : HexCodec}.

Lemma builder_step_preserves b b' : builder_step b b' -> builder_ok b -> builder_ok b'.
Proof.
  intros Hs Hb. destruct Hs;
    try (eapply append_body_hash_preserves; [|eassumption|done]; done);
    try (eapply append_hash_preserves; [|eassumption|done]; done);
    eauto with invariants.
  - eapply append_preserves; [eassumption|apply value_wfb_spec; by vm_compute|done|done].
  - unfold add_extension_event in *. case_bool_decide as Ht; [done|].
    eapply append_preserves; [eassumption|done| |done].
    intros ->. destruct Ht. set_solver.
  - by destruct Hb.
Qed.

(** Whatever methods are called in whatever order, a receipt starts with
    [request.received], no event overwrites its own type, every event is a
    well-formed object, and an [upstream.verified] event cites a 64-digit
    session exactly when it claims verification. *)
Theorem builder_invariant id chat model digest endpoint method served_at b :
  rtc builder_step (builder_new id chat model digest endpoint method served_at) b -> builder_ok b.
Proof.
  intros Hsteps. assert (builder_ok (builder_new id chat model digest endpoint method served_at)) as H0
    by (split; [done|constructor]).
  induction Hsteps as [|b b1 b2 Hs _ IH]; eauto using builder_step_preserves.
Qed.

End Invariant.

(** ** Finalization *)
Lemma receipt_event_to_value_cons e :
  event_ok e ->
  receipt_event_to_value e = JObject (("type", JString (re_event_type e)) :: re_fields e).
Proof.
  intros [Hwf Hty _]. unfold receipt_event_to_value. inv Hwf.
  rewrite foldl_insert_fresh; [done|done|]. intros k Hk. cbn.
  rewrite list_elem_of_singleton. intros ->. by apply Hty.
Qed.
Lemma receipt_event_to_value_wf e : event_ok e -> value_wf (receipt_event_to_value e).
Proof.
  intros He. rewrite receipt_event_to_value_cons by done. destruct He as [Hwf Hty _]. inv Hwf.
  constructor; [by constructor|]. constructor; [constructor|done].
Qed.

Lemma receipt_payload_wf b :
  builder_ok b -> is_u64 (rcb_served_at b) -> value_wf (JObject (receipt_payload b)).
Proof.
  intros [_ HF] Hs. constructor; [apply (bool_decide_unpack _); by vm_compute|].
  unfold receipt_payload, opt_string_to_value.
  repeat constructor; simpl; try (by destruct (rcb_chat_id b), (rcb_model b); constructor);
    try apply Hs.
  induction HF as [|e es He HF IH]; simpl; constructor; [by apply receipt_event_to_value_wf|done].
Qed.

Lemma require_events_ok b :
  require_events b [EVENT_REQUEST_RECEIVED; EVENT_REQUEST_FORWARDED; EVENT_RESPONSE_RETURNED] = Ok () <->
  has_event b EVENT_REQUEST_RECEIVED = true /\ has_event b EVENT_RESPONSE_RETURNED = true /\
  (has_event b EVENT_REQUEST_FORWARDED = true \/ refused b = true).
Proof.
  cbn [require_events]. rewrite !(bool_decide_eq_false_2 (_ = EVENT_REQUEST_FORWARDED)) by done.
  rewrite (bool_decide_eq_true_2 (EVENT_REQUEST_FORWARDED = _)) by done. cbn [andb].
  destruct (has_event b EVENT_REQUEST_RECEIVED), (has_event b EVENT_RESPONSE_RETURNED),
    (has_event b EVENT_REQUEST_FORWARDED), (refused b); simpl; naive_solver.
Qed.

Section FinalizeFacts.
Context {SH : Sha} {HX : HexCodec} {SJ : SerdeJson} {KP : KeyProvider} {ED : Ed25519}.

(** The document that is signed: the payload and the key id. *)
Definition unsigned_document (b : ReceiptBuilder) (key_id : string) : list (string * value) :=
  obj_insert "key_id" (JString key_id) (receipt_payload b).

Lemma unsigned_document_fresh b kid : "signature" ∉ obj_keys (unsigned_document b kid).
Proof. apply (bool_decide_unpack _). by vm_compute. Qed.
Lemma unsigned_document_wf b kid :
  builder_ok b -> is_u64 (rcb_served_at b) -> value_wf (JObject (unsigned_document b kid)).
Proof. intros. apply obj_insert_wf; [constructor|by apply receipt_payload_wf]. Qed.

Definition signed_document (b : ReceiptBuilder) (key_id signature_hex : string) : value :=
  JObject (obj_insert "signature" (JString signature_hex) (unsigned_document b key_id)).

Lemma signed_document_input b kid sig :
  receipt_signing_input (signed_document b kid sig) =
  receipt_signing_input (JObject (unsigned_document b kid)).
Proof.
  unfold receipt_signing_input, signed_document. pose proof (unsigned_document_fresh b kid).
  by rewrite obj_remove_insert_fresh, obj_remove_fresh by done.
Qed.

Lemma finalize_inv b kid r :
  finalize b kid = Ok r ->
  rcb_events b ≠ [] /\
  has_event b EVENT_REQUEST_RECEIVED = true /\ has_event b EVENT_RESPONSE_RETURNED = true /\
  (has_event b EVENT_REQUEST_FORWARDED = true \/ refused b = true) /\
  exists key input sig,
    List.find (fun k => bool_decide (kpk_key_id k = kid)) receipt_keys = Some key /\
    kpk_algo key = ALGO_ED25519 /\
    receipt_signing_input (JObject (unsigned_document b (kpk_key_id key))) = Ok input /\
    sign_receipt (kpk_key_id key) input = Ok sig /\
    jcs_bytes (signed_document b (kpk_key_id key) (hex_encode sig)) = Ok (sr_document r) /\
    r = mkSignedReceipt (rcb_receipt_id b) (rcb_chat_id b) (rcb_workload_keyset_digest b)
          (sr_document r) (kpk_key_id key) (hex_encode sig).
Proof.
  unfold finalize. intros H. case_bool_decide as He; [done|].
  destruct (require_events _ _) as [[]|] eqn:Hr; cbn [mbind result_bind] in H; [|done].
  apply require_events_ok in Hr. bind_inv H. case_bool_decide as Ha; [done|]. bind_inv H.
  injection H as <-. cbn [sr_document]. split; [done|]. do 3 (split; [naive_solver|]).
  by eexists _, _, _.
Qed.

Lemma find_key_id (l : list KeyedPublicKey) kid key :
  List.find (fun k => bool_decide (kpk_key_id k = kid)) l = Some key -> kpk_key_id key = kid /\ key ∈ l.
Proof.
  intros [Hin Hk%bool_decide_eq_true]%List.find_some. split; [done|]. by apply list_elem_of_In.
Qed.

Lemma receipt_signing_input_proper m1 m2 :
  value_wf (JObject m1) -> value_wf (JObject m2) -> same_doc (JObject m1) (JObject m2) ->
  receipt_signing_input (JObject m1) = receipt_signing_input (JObject m2).
Proof.
  intros H1 H2 Hs. apply jcs_bytes_proper; [by apply obj_remove_wf..|].
  inv H1. inv H2. by apply same_doc_remove.
Qed.

Lemma signed_document_get_signature b kid sig :
  get "signature" (signed_document b kid sig) = Some (JString sig).
Proof. cbn [get signed_document]. by rewrite obj_get_insert, bool_decide_eq_true_2. Qed.

End FinalizeFacts.

(** ** What a receipt guarantees *)
Definition fields_admissible (fields : list (string * value)) : Prop :=
  Forall (fun kv => is_ascii kv.1 = true /\ jcs_admissible kv.2) fields.

Lemma obj_insert_admissible k v m :
  is_ascii k = true -> jcs_admissible v -> fields_admissible m -> fields_admissible (obj_insert k v m).
Proof.
  intros Hk Hv. induction 1 as [|[k0 v0] m H0 Hm IH]; simpl; [by repeat constructor|].
  case_bool_decide; subst; by constructor.
Qed.
Lemma payload_admissible b :
  builder_ok b -> Forall (fun e => fields_admissible (re_fields e)) (rcb_events b) ->
  fields_admissible (receipt_payload b).
Proof.
  intros [_ Hok] Hadm. unfold receipt_payload, opt_string_to_value.
  repeat constructor; simpl; try (by destruct (rcb_chat_id b), (rcb_model b); constructor).
  induction Hadm as [|e es He _ IH]; simpl; [constructor|].
  apply Forall_cons in Hok as [Hok1 Hok]. constructor; [|by apply IH].
  rewrite receipt_event_to_value_cons by done. constructor. constructor; [by repeat constructor|done].
Qed.

Section Guarantees.
Context {SH : Sha} {HX : HexCodec} {SJ : SerdeJson} {KP : KeyProvider} {ED : Ed25519}.

Lemma document_canonicalizes b kid :
  builder_ok b -> is_u64 (rcb_served_at b) ->
  Forall (fun e => fields_admissible (re_fields e)) (rcb_events b) ->
  (exists input, receipt_signing_input (JObject (unsigned_document b kid)) = Ok input) /\
  (forall sig, exists doc, jcs_bytes (signed_document b kid sig) = Ok doc).
Proof.
  intros Hb Hs Hadm. pose proof (unsigned_document_wf b kid Hb Hs) as Hwf.
  assert (fields_admissible (unsigned_document b kid)) as Ha
    by (apply obj_insert_admissible; [done|constructor|by apply payload_admissible]).
  split.
  - unfold receipt_signing_input. rewrite obj_remove_fresh by apply unsigned_document_fresh.
    apply jcs_bytes_admissible; [done|by constructor].
  - intros sig. apply jcs_bytes_admissible; [apply obj_insert_wf; [constructor|done]|].
    constructor. apply obj_insert_admissible; [done|constructor|done].
Qed.

Lemma require_events_err b l e :
  require_events b l = Err e ->
  exists t, e = MissingRequiredEvent t /\ has_event b t = false /\
    (t = EVENT_REQUEST_FORWARDED -> refused b = false).
Proof.
  induction l as [|t l IH]; simpl; [done|].
  destruct (bool_decide (t = EVENT_REQUEST_FORWARDED) && refused b) eqn:Hr; [done|].
  destruct (has_event b t) eqn:Hh; simpl; [done|]. intros [= <-]. exists t. split; [done|].
  split; [done|]. intros ->. by rewrite bool_decide_eq_true_2 in Hr.
Qed.

(** Finalization decides completeness and nothing else.  For a well-formed
    builder whose events satisfy the document constraints, under a listed
    Ed25519 key that signs, it returns a receipt exactly when the required
    events are there ([request.forwarded] may be missing only from a refusal),
    and otherwise the error names a missing event. *)
Theorem finalize_total b kid key :
  builder_ok b -> is_u64 (rcb_served_at b) ->
  Forall (fun e => fields_admissible (re_fields e)) (rcb_events b) ->
  List.find (fun k => bool_decide (kpk_key_id k = kid)) receipt_keys = Some key ->
  kpk_algo key = ALGO_ED25519 ->
  (forall input, is_ok (sign_receipt kid input) = true) ->
  match finalize b kid with
  | Ok _ => has_event b EVENT_REQUEST_RECEIVED = true /\ has_event b EVENT_RESPONSE_RETURNED = true /\
            (has_event b EVENT_REQUEST_FORWARDED = true \/ refused b = true)
  | Err EmptyReceipt => rcb_events b = []
  | Err (MissingRequiredEvent t) => has_event b t = false /\
      (t = EVENT_REQUEST_FORWARDED -> refused b = false)
  | Err _ => False
  end.
Proof.
  intros Hb Hs Hadm Hkey Halgo Hsign. destruct (find_key_id _ _ _ Hkey) as [Hid _].
  destruct (document_canonicalizes b (kpk_key_id key) Hb Hs Hadm) as [[input Hin] Hdoc].
  destruct (finalize b kid) as [r|e] eqn:Hf; [by apply finalize_inv in Hf as (_ & ? & ? & ? & _)|].
  unfold finalize in Hf. case_bool_decide as He; [by injection Hf as <-|].
  destruct (require_events _ _) as [[]|e'] eqn:Hr; cbn [mbind result_bind] in Hf.
  - rewrite Hkey in Hf. cbn [ok_or mbind result_bind] in Hf.
    rewrite bool_decide_eq_false_2 in Hf by naive_solver.
    unfold unsigned_document in Hin. rewrite Hin in Hf. cbn [map_err mbind result_bind] in Hf.
    rewrite Hid in *. specialize (Hsign input).
    destruct (sign_receipt kid input) as [sig|]; [|done]. cbn [map_err mbind result_bind] in Hf.
    destruct (Hdoc (hex_encode sig)) as [doc Hd]. unfold signed_document, unsigned_document in Hd.
    by rewrite Hd in Hf.
  - injection Hf as <-. by apply require_events_err in Hr as (t & -> & ? & ?).
Qed.

(** The document a relying party parses from a finalized receipt. *)
Lemma finalized_document {LS : LawfulSigner} b kid r :
  builder_ok b -> is_u64 (rcb_served_at b) ->
  (forall sig, json_depth (signed_document b kid sig) <= 127) ->
  finalize b kid = Ok r ->
  exists key sig doc,
    List.find (fun k => bool_decide (kpk_key_id k = kid)) receipt_keys = Some key /\
    document_json r = Ok doc /\ same_doc (signed_document b kid sig) doc /\
    relying_party_accepts key doc = true.
Proof.
  intros Hb Hs Hdepth (_ & _ & _ & _ & key & input & sig & Hkey & Halgo & Hin & Hsig & Hdoc & _)%finalize_inv.
  destruct (find_key_id _ _ _ Hkey) as [<- Hkin].
  set (d := signed_document b (kpk_key_id key) (hex_encode sig)) in *.
  assert (value_wf d) as Hwf by (apply obj_insert_wf; [constructor|by apply unsigned_document_wf]).
  destruct (jcs_parse d _ Hwf (Hdepth _) Hdoc) as (c & Hc & Hcwf & Hsame).
  exists key, (hex_encode sig), c. repeat split; [done..|].
  assert (get_str "signature" c = Some (hex_encode sig)) as Hg.
  { rewrite <- Hsame. unfold get_str, d. by rewrite signed_document_get_signature. }
  unfold relying_party_accepts. rewrite Hg.
  assert (receipt_signing_input c = Ok input) as ->.
  { rewrite <- Hin, <- (signed_document_input b _ (hex_encode sig)). fold d.
    unfold d, signed_document in *. inversion Hsame; subst; [done|].
    symmetry. by apply receipt_signing_input_proper. }
  rewrite hex_decode_encode. by apply sign_receipt_verifies.
Qed.

(** The served bytes verify.  A relying party that parses the document of
    a finalized receipt, whatever the member order of its parser, finds a
    signature of the named attested key over what it parsed, the event log of
    the builder, and the keyset digest. *)
Theorem finalized_receipt_verifies {LS : LawfulSigner} b kid r :
  builder_ok b -> is_u64 (rcb_served_at b) ->
  (forall sig, json_depth (signed_document b kid sig) <= 127) ->
  finalize b kid = Ok r ->
  exists key doc, key ∈ receipt_keys /\ kpk_key_id key = kid /\ document_json r = Ok doc /\
    relying_party_accepts key doc = true /\
    option_Forall2 same_doc (get "event_log" doc)
      (Some (JArray (List.map receipt_event_to_value (rcb_events b)))) /\
    get_str "workload_keyset_digest" doc = Some (rcb_workload_keyset_digest b) /\
    get_str "key_id" doc = Some kid.
Proof.
  intros Hb Hs Hdepth Hf.
  destruct (finalized_document b kid r) as (key & sig & doc & Hkey & Hdoc & Hsame & Hacc); [done..|].
  destruct (find_key_id _ _ _ Hkey) as [Hid Hin]. exists key, doc. repeat split; try done.
  - symmetry. by apply (get_proper "event_log") in Hsame.
  - by rewrite <- Hsame.
  - by rewrite <- Hsame.
Qed.

(** A signature covers one document.  Two receipt documents with the same
    signing input agree on every member other than [signature]. *)
Theorem signing_input_binds_document m1 m2 input :
  value_wf (JObject m1) -> value_wf (JObject m2) ->
  json_depth (JObject m1) <= 127 -> json_depth (JObject m2) <= 127 ->
  receipt_signing_input (JObject m1) = Ok input -> receipt_signing_input (JObject m2) = Ok input ->
  forall k, k ≠ "signature" -> option_Forall2 same_doc (get k (JObject m1)) (get k (JObject m2)).
Proof.
  intros Hw1 Hw2 Hd1 Hd2 H1 H2 k Hk. unfold receipt_signing_input in *.
  assert (same_doc (JObject (obj_remove "signature" m1)) (JObject (obj_remove "signature" m2))) as Hs.
  { eapply jcs_same_doc;
      [by apply obj_remove_wf..|inv Hw1; by apply obj_remove_depth|inv Hw2; by apply obj_remove_depth|done|done]. }
  apply (get_proper k) in Hs. cbn [get] in *. inv Hw1. inv Hw2.
  by rewrite !obj_get_remove, !bool_decide_eq_false_2 in Hs by done.
Qed.

End Guarantees.

(** *** Witnesses *)
#[local] Existing Instances sample_sha sample_hex sample_base64 sample_json.

Definition sample_receipt_key : KeyedPublicKey :=
  mkKeyedPublicKey "r1" ALGO_ED25519 (sample_hex_encode (zeros 32)).
#[local] Instance sample_keys : KeyProvider := {|
  receipt_keys := [sample_receipt_key];
  sign_receipt _ payload := Ok (sample_digest 64 payload);
|}.
#[local] Instance sample_ed25519 : Ed25519 := {|
  ed_key := bytes;
  verifying_key_from_bytes b := Some b;
  verify_strict _ payload signature := bool_decide (signature = sample_digest 64 payload);
|}.
#[local] Instance sample_signer : LawfulSigner.
Proof.
  split. intros key payload sig [Hin _]%List.find_some _ [= <-]. destruct Hin as [<-|[]].
  unfold verify_receipt_signature. cbn [kpk_algo kpk_public_key_hex sample_receipt_key].
  change (sample_hex_encode (zeros 32)) with (hex_encode (zeros 32)). rewrite hex_decode_encode.
  cbn [verifying_key_from_bytes sample_ed25519 verify_strict].
  rewrite sample_digest_length. rewrite (bool_decide_eq_true_2 (length (zeros 32) = 32)) by done.
  rewrite (bool_decide_eq_true_2 (64 = 64)) by done. by apply bool_decide_eq_true.
Qed.

Definition sample_session_id : string := sha256_bare_hex [].
Definition sample_builder0 : ReceiptBuilder :=
  builder_new "rcpt-1" (Some "chat-1") (Some "model-a") sample_digest_text "/v1/chat/completions" "POST" 7.
Definition hash_event (t : string) (body : bytes) : ReceiptEvent :=
  mkReceiptEvent t [("body_hash", JString (sha256_hex body))].
Definition sample_builder : ReceiptBuilder :=
  with_events sample_builder0
    [hash_event EVENT_REQUEST_RECEIVED (as_bytes "a");
     mkReceiptEvent EVENT_UPSTREAM_VERIFIED
       [("result", JString "verified"); ("required", JBool true); ("model_id", JString "m");
        ("session_id", JString sample_session_id)];
     hash_event EVENT_REQUEST_FORWARDED (as_bytes "a");
     hash_event EVENT_RESPONSE_RETURNED (as_bytes "b")].

Lemma sample_builder_reachable : rtc builder_step sample_builder0 sample_builder.
Proof.
  eapply rtc_l; [by eapply (step_request_received _ (as_bytes "a"))|].
  eapply rtc_l; [by eapply (step_upstream_session _ true "m" sample_session_id)|].
  eapply rtc_l; [by eapply (step_request_forwarded _ (as_bytes "a"))|].
  eapply rtc_l; [by eapply (step_response_returned _ (as_bytes "b"))|].
  apply rtc_refl.
Qed.

Lemma sample_builder_ok : builder_ok sample_builder.
Proof.
  pose proof sample_builder_reachable as Hr.
  assert (builder_ok sample_builder0) as H0 by (split; [done|constructor]).
  induction Hr; eauto using builder_step_preserves.
Qed.

Lemma builder_invariant_witness : builder_ok sample_builder.
Proof. eapply builder_invariant. exact sample_builder_reachable. Defined.

Lemma finalize_total_witness :
  is_ok (finalize sample_builder "r1") = true /\
  (has_event sample_builder EVENT_REQUEST_FORWARDED = true \/ refused sample_builder = true).
Proof.
  assert (Hok : is_ok (finalize sample_builder "r1") = true) by by vm_compute.
  split; [done|].
  assert (Hall := finalize_total sample_builder "r1" sample_receipt_key sample_builder_ok).
  destruct (finalize sample_builder "r1") as [r|e]; [|done].
  apply Hall; try done. repeat constructor.
Defined.

Lemma finalized_receipt_verifies_witness : exists key doc,
  key ∈ receipt_keys /\ relying_party_accepts key doc = true /\
  get_str "workload_keyset_digest" doc = Some sample_digest_text.
Proof.
  destruct (finalize sample_builder "r1") as [r|] eqn:Hr; [|by vm_compute in Hr].
  destruct (finalized_receipt_verifies sample_builder "r1" r)
    as (key & doc & Hin & _ & _ & Hacc & _ & Hd & _); [exact sample_builder_ok|done| |done|].
  - intros sig. vm_compute. lia.
  - by exists key, doc.
Defined.

Definition sample_receipt_doc (served_at : Z) (sig : string) : list (string * value) :=
  [("served_at", JNumber (PosInt served_at)); ("signature", JString sig); ("key_id", JString "r1")].

Lemma signing_input_binds_document_witness :
  option_Forall2 same_doc (Some (JNumber (PosInt 7))) (Some (JNumber (PosInt 7))).
Proof.
  apply (signing_input_binds_document (sample_receipt_doc 7 "00") (sample_receipt_doc 7 "ff")
    (default [] (result_ok (receipt_signing_input (JObject (sample_receipt_doc 7 "00"))))))
    with (k := "served_at"); try done.
  1, 2: apply value_wfb_spec; by vm_compute.
  1, 2: vm_compute; lia.
Defined.
