(* ===== verification/Deadlines.v ===== *)
(** * Deadline indexes

    Both stores keep a [BTreeMap<u64, HashSet<String>>] from deadlines to the ids
    that expire then, so that eviction costs only what lapsed
    (src/aggregator/service/receipt_store.rs, src/aggregator/session_store.rs).
    This file holds the map operations they share and their lemmas. *)
From S2P Require Import Prelude.

Abbreviation deadlines := (gmap Z (gset string)).

(** [BTreeMap::first_key_value]. *)
Fixpoint min_entry {V} (l : list (Z * V)) : option (Z * V) :=
  match l with
  | [] => None
  | (k, v) :: l' =>
      match min_entry l' with
      | Some (k', v') => if (k <=? k')%Z then Some (k, v) else Some (k', v')
      | None => Some (k, v)
      end
  end.
Definition first_key_value {V} (m : gmap Z V) : option (Z * V) := min_entry (map_to_list m).

(** [entry(t).or_default().insert(id)]. *)
Definition hint_add (t : Z) (id : string) (m : deadlines) : deadlines :=
  <[t := {[id]} ∪ default ∅ (m !! t)]> m.
(** Remove the id, and the bucket with its last id. *)
Definition hint_drop (id : string) (t : Z) (m : deadlines) : deadlines :=
  match m !! t with
  | Some ids =>
      let ids := ids ∖ {[id]} in
      if bool_decide (ids = ∅) then delete t m else <[t := ids]> m
  | None => m
  end.

(** [id] is listed under [t]. *)
Definition hint_at (m : deadlines) (t : Z) (id : string) : Prop :=
  exists ids, m !! t = Some ids /\ id ∈ ids.
Definition no_empty_bucket (m : deadlines) : Prop := forall t ids, m !! t = Some ids -> ids ≠ ∅.

Lemma hint_at_empty t id : ~ hint_at ∅ t id.
Proof. by intros (ids & ? & _). Qed.
Lemma hint_at_add m t id t' id' :
  hint_at (hint_add t id m) t' id' <-> hint_at m t' id' \/ (t' = t /\ id' = id).
Proof.
  unfold hint_at, hint_add. split.
  - intros (ids & [[<- <-]|[Hne Hids]]%lookup_insert_Some & Hin); [|by left; eauto].
    apply elem_of_union in Hin as [->%elem_of_singleton|Hin]; [by right|].
    destruct (m !! t) as [ids|] eqn:Ht; [|set_solver]. left. eauto.
  - intros [(ids & Hids & Hin)|[-> ->]].
    + destruct (decide (t = t')) as [<-|Hne].
      * eexists. split; [by rewrite lookup_insert_eq|]. rewrite Hids. set_solver.
      * exists ids. by rewrite lookup_insert_ne.
    + eexists. split; [by rewrite lookup_insert_eq|]. set_solver.
Qed.
Lemma hint_at_drop m id t t' id' :
  hint_at (hint_drop id t m) t' id' <-> hint_at m t' id' /\ ~ (t' = t /\ id' = id).
Proof.
  unfold hint_at, hint_drop. destruct (m !! t) as [ids|] eqn:Ht; [|naive_solver].
  case_bool_decide as He.
  - setoid_rewrite lookup_delete_Some. split; [naive_solver|].
    intros [(ids' & Hids & Hin) Hn]. exists ids'. split; [|done]. split; [|done].
    intros <-. simplify_eq. set_solver.
  - setoid_rewrite lookup_insert_Some. split; [set_solver|].
    intros [(ids' & Hids & Hin) Hn]. destruct (decide (t = t')) as [<-|Hne].
    + simplify_eq. exists (ids ∖ {[id]}). set_solver.
    + exists ids'. naive_solver.
Qed.
Lemma hint_at_delete m t t' id : hint_at (delete t m) t' id <-> hint_at m t' id /\ t' ≠ t.
Proof. unfold hint_at. setoid_rewrite lookup_delete_Some. naive_solver. Qed.

Lemma no_empty_add m t id : no_empty_bucket m -> no_empty_bucket (hint_add t id m).
Proof.
  intros Hm t' ids. unfold hint_add.
  intros [[<- <-]|[_ Hids]]%lookup_insert_Some; [set_solver|by eapply Hm].
Qed.
Lemma no_empty_drop m id t : no_empty_bucket m -> no_empty_bucket (hint_drop id t m).
Proof.
  intros Hm t' ids'. unfold hint_drop. destruct (m !! t) as [ids|]; [|by apply Hm].
  case_bool_decide.
  - intros [_ Hids]%lookup_delete_Some. by eapply Hm.
  - intros [[<- <-]|[_ Hids]]%lookup_insert_Some; [done|by eapply Hm].
Qed.
Lemma no_empty_delete m t : no_empty_bucket m -> no_empty_bucket (delete t m).
Proof. intros Hm t' ids [_ Hids]%lookup_delete_Some. by eapply Hm. Qed.

(** *** The first bucket *)
Lemma min_entry_None {V} (l : list (Z * V)) : min_entry l = None -> l = [].
Proof.
  destruct l as [|[k v] l]; [done|]. simpl. destruct (min_entry l) as [[k' v']|]; [|done].
  by destruct (k <=? k')%Z.
Qed.
Lemma min_entry_Some {V} (l : list (Z * V)) k v :
  min_entry l = Some (k, v) -> (k, v) ∈ l /\ forall k' v', (k', v') ∈ l -> (k <= k')%Z.
Proof.
  revert k v. induction l as [|[k0 v0] l IH]; intros k v; [done|]. simpl.
  destruct (min_entry l) as [[k1 v1]|] eqn:Hm.
  - destruct (IH _ _ eq_refl) as [Hin Hle].
    destruct (Z.leb_spec k0 k1); intros [= <- <-]; (split; [set_solver|]);
      intros k' v' [[= -> ->]|Hk']%elem_of_cons; try lia; apply Hle in Hk'; lia.
  - apply min_entry_None in Hm as ->. intros [= <- <-]. split; [left|].
    intros k' v' [= -> ->]%list_elem_of_singleton. lia.
Qed.
Lemma first_key_value_None {V} (m : gmap Z V) : first_key_value m = None -> m = ∅.
Proof. intros H%min_entry_None. by apply map_to_list_empty_iff. Qed.
Lemma first_key_value_Some {V} (m : gmap Z V) k v :
  first_key_value m = Some (k, v) ->
  m !! k = Some v /\ forall k' v', m !! k' = Some v' -> (k <= k')%Z.
Proof.
  intros [Hin Hle]%min_entry_Some. split; [by apply elem_of_map_to_list|].
  intros k' v' Hk'. apply (Hle k' v'). by apply elem_of_map_to_list.
Qed.

(** [range(..=now)]: the deadlines at or before [now], in order. *)
Definition lapsed_deadlines (m : deadlines) (now : Z) : list Z :=
  List.filter (fun t => (t <=? now)%Z) (merge_sort Z.le (fst <$> map_to_list m)).

Lemma lapsed_deadlines_elem m now t :
  t ∈ lapsed_deadlines m now <-> is_Some (m !! t) /\ (t <= now)%Z.
Proof.
  unfold lapsed_deadlines. rewrite list_elem_of_In, filter_In, <- list_elem_of_In, Z.leb_le.
  rewrite (merge_sort_Permutation Z.le), list_elem_of_fmap. split.
  - intros [([t' ids] & -> & Hin%elem_of_map_to_list) Hle]. simpl. eauto.
  - intros [[ids Hids] Hle]. split; [|done]. exists (t, ids). split; [done|]. by apply elem_of_map_to_list.
Qed.
