(* ===== verification/ReceiptStore.v ===== *)
(** * The in-memory receipt store (src/aggregator/service/receipt_store.rs)

    Three indexes kept in step: receipts by id, the newest receipt of a chat,
    and the ids of each deadline.  Every method takes the store's lock for its
    whole body, so an execution is a sequence of whole methods.  The theorems
    show the invariant between the indexes, the exact content of the store after
    every write and read, and that what a lookup serves is unexpired. *)
From S2P Require Import Prelude Json External Sample Digest Identity Receipt Deadlines.

(** The requester's hashed bearer credential. *)
Definition ReceiptOwner : Type := string.

Record StoredReceipt := mkStoredReceipt {
  st_receipt : SignedReceipt;
  st_owner : option ReceiptOwner;
  st_expires_at : Z;
}.

Record InMemoryReceiptStore := mkStore {
  by_receipt : gmap string StoredReceipt;
  by_chat : gmap string string;
  by_expiry : deadlines;
}.
Definition store_empty : InMemoryReceiptStore := mkStore ∅ ∅ ∅.

Definition drop_chat_mapping (s : InMemoryReceiptStore) (entry : StoredReceipt) (receipt_id : string) :
    InMemoryReceiptStore :=
  match sr_chat_id (st_receipt entry) with
  | Some chat_id =>
      if bool_decide (by_chat s !! chat_id = Some receipt_id)
      then mkStore (by_receipt s) (delete chat_id (by_chat s)) (by_expiry s)
      else s
  | None => s
  end.

Definition drop_expiry_hint (s : InMemoryReceiptStore) (receipt_id : string) (expires_at : Z) :
    InMemoryReceiptStore :=
  mkStore (by_receipt s) (by_chat s) (hint_drop receipt_id expires_at (by_expiry s)).

Definition store_remove (s : InMemoryReceiptStore) (receipt_id : string) : InMemoryReceiptStore :=
  match by_receipt s !! receipt_id with
  | Some entry =>
      let s := mkStore (delete receipt_id (by_receipt s)) (by_chat s) (by_expiry s) in
      let s := drop_chat_mapping s entry receipt_id in
      drop_expiry_hint s receipt_id (st_expires_at entry)
  | None => s
  end.

Definition store_insert (s : InMemoryReceiptStore) (receipt : SignedReceipt)
    (owner : option ReceiptOwner) (expires_at : Z) : InMemoryReceiptStore :=
  let receipt_id := sr_receipt_id receipt in
  let s := store_remove s receipt_id in
  let by_chat :=
    match sr_chat_id receipt with
    | Some chat_id => <[chat_id := receipt_id]> (by_chat s)
    | None => by_chat s
    end in
  mkStore (<[receipt_id := mkStoredReceipt receipt owner expires_at]> (by_receipt s)) by_chat
    (hint_add expires_at receipt_id (by_expiry s)).

(** The ids of one popped bucket. *)
Definition evict_id (s : InMemoryReceiptStore) (id : string) : InMemoryReceiptStore :=
  match by_receipt s !! id with
  | Some entry =>
      drop_chat_mapping (mkStore (delete id (by_receipt s)) (by_chat s) (by_expiry s)) entry id
  | None => s
  end.

(** Every round pops one bucket, so the number of buckets bounds the rounds. *)
Fixpoint evict_loop (fuel : nat) (now : Z) (s : InMemoryReceiptStore) : InMemoryReceiptStore :=
  match fuel with
  | O => s
  | S fuel' =>
      match first_key_value (by_expiry s) with
      | None => s
      | Some (expires_at, ids) =>
          if (now <? expires_at)%Z then s
          else
            let s := mkStore (by_receipt s) (by_chat s) (delete expires_at (by_expiry s)) in
            evict_loop fuel' now (foldl evict_id s (elements ids))
      end
  end.
Definition evict_expired (s : InMemoryReceiptStore) (now : Z) : InMemoryReceiptStore :=
  evict_loop (size (by_expiry s)) now s.

Definition put (s : InMemoryReceiptStore) (receipt : SignedReceipt) (owner : option ReceiptOwner)
    (now expires_at : Z) : InMemoryReceiptStore :=
  store_insert (evict_expired s now) receipt owner expires_at.

(** The common body of the three lookups: the entry if it is live; an expired
    entry is removed on the way. *)
Definition live_entry (s : InMemoryReceiptStore) (receipt_id : string) (now : Z) :
    InMemoryReceiptStore * option StoredReceipt :=
  match by_receipt s !! receipt_id with
  | None => (s, None)
  | Some entry =>
      if (st_expires_at entry <=? now)%Z then (store_remove s receipt_id, None)
      else (s, by_receipt s !! receipt_id)
  end.
Definition get_by_receipt_id (s : InMemoryReceiptStore) (receipt_id : string) (now : Z) :
    InMemoryReceiptStore * option SignedReceipt :=
  let '(s', entry) := live_entry s receipt_id now in (s', st_receipt <$> entry).
Definition get_by_chat_id (s : InMemoryReceiptStore) (chat_id : string) (now : Z) :
    InMemoryReceiptStore * option SignedReceipt :=
  match by_chat s !! chat_id with
  | None => (s, None)
  | Some receipt_id => let '(s', entry) := live_entry s receipt_id now in (s', st_receipt <$> entry)
  end.
Definition owner_of (s : InMemoryReceiptStore) (receipt_id : string) (now : Z) :
    InMemoryReceiptStore * option ReceiptOwner :=
  let '(s', entry) := live_entry s receipt_id now in (s', entry ≫= st_owner).

(** ** The invariant between the indexes *)
Record store_ok (s : InMemoryReceiptStore) : Prop := {
  so_id id e : by_receipt s !! id = Some e -> sr_receipt_id (st_receipt e) = id;
  so_chat c id : by_chat s !! c = Some id ->
    exists e, by_receipt s !! id = Some e /\ sr_chat_id (st_receipt e) = Some c;
  so_expiry t id :
    hint_at (by_expiry s) t id <-> (exists e, by_receipt s !! id = Some e /\ st_expires_at e = t);
  so_buckets : no_empty_bucket (by_expiry s);
}.

(** *** Removing one receipt *)
Lemma drop_chat_mapping_eq s entry id :
  (forall c, by_chat s !! c = Some id -> sr_chat_id (st_receipt entry) = Some c) ->
  drop_chat_mapping s entry id =
  mkStore (by_receipt s) (filter (fun ci => ci.2 ≠ id) (by_chat s)) (by_expiry s).
Proof.
  intros Hc. unfold drop_chat_mapping.
  assert (Hkeep : (forall c, by_chat s !! c ≠ Some id) ->
    filter (fun ci => ci.2 ≠ id) (by_chat s) = by_chat s).
  { intros Hno. apply map_filter_id. intros c i Hi Heq. simpl in Heq. subst i. by apply (Hno c). }
  destruct (sr_chat_id (st_receipt entry)) as [c|] eqn:Hch.
  - case_bool_decide as Hb.
    + f_equal. apply map_eq. intros c'. rewrite map_lookup_filter.
      destruct (decide (c = c')) as [<-|Hne].
      * rewrite lookup_delete_eq, Hb. simpl. case_guard; naive_solver.
      * rewrite lookup_delete_ne by done. destruct (by_chat s !! c') as [i|] eqn:Hi; [|done].
        simpl. case_guard as Hg; [done|]. subst i.
        by apply Hc in Hi as [= ->].
    + rewrite Hkeep; [by destruct s|]. intros c' Hc'. by apply Hc in Hc' as Heq; simplify_eq.
  - rewrite Hkeep; [by destruct s|]. intros c' Hc'. by apply Hc in Hc'.
Qed.

Definition chat_ok (s : InMemoryReceiptStore) : Prop :=
  forall c id, by_chat s !! c = Some id ->
    exists e, by_receipt s !! id = Some e /\ sr_chat_id (st_receipt e) = Some c.

Lemma evict_id_eq s id :
  chat_ok s ->
  evict_id s id = mkStore (delete id (by_receipt s)) (filter (fun ci => ci.2 ≠ id) (by_chat s)) (by_expiry s).
Proof.
  intros Hok. unfold evict_id. destruct (by_receipt s !! id) as [e|] eqn:He.
  - rewrite drop_chat_mapping_eq; [done|]. simpl. intros c Hc.
    apply Hok in Hc as (e' & He' & Hch). by simplify_eq.
  - rewrite delete_id by done. rewrite map_filter_id; [by destruct s|].
    intros c i Hi Heq. simpl in Heq. subst i. apply Hok in Hi as (e & He' & _). by simplify_eq.
Qed.
Lemma evict_id_chat_ok s id : chat_ok s -> chat_ok (evict_id s id).
Proof.
  intros Hok. rewrite evict_id_eq by done. intros c i. simpl.
  rewrite map_lookup_filter_Some. simpl. intros [Hc Hne].
  destruct (Hok _ _ Hc) as (e & He & Hch). exists e. by rewrite lookup_delete_ne.
Qed.

Lemma evict_ids_eq ids s :
  chat_ok s ->
  foldl evict_id s ids =
  mkStore (filter (fun ie => ie.1 ∉ ids) (by_receipt s))
    (filter (fun ci => ci.2 ∉ ids) (by_chat s)) (by_expiry s).
Proof.
  revert s. induction ids as [|id ids IH]; intros s Hok; simpl.
  - rewrite !map_filter_id; [by destruct s|intros; apply not_elem_of_nil..].
  - rewrite IH by by apply evict_id_chat_ok. rewrite evict_id_eq by done. simpl. f_equal.
    + apply map_eq. intros i. rewrite !map_lookup_filter.
      destruct (decide (id = i)) as [<-|Hne].
      * rewrite lookup_delete_eq. destruct (by_receipt s !! id); [|done]. simpl.
        case_guard as Hg; [|done]. set_solver.
      * rewrite lookup_delete_ne by done. destruct (by_receipt s !! i); [|done]. simpl.
        repeat case_guard; set_solver.
    + rewrite map_filter_filter. apply map_filter_ext. intros c i _. simpl. set_solver.
Qed.

(** *** Eviction *)
Definition live (s : InMemoryReceiptStore) (now : Z) (id : string) : Prop :=
  exists e, by_receipt s !! id = Some e /\ (now < st_expires_at e)%Z.
#[global] Instance live_dec s now id : Decision (live s now id).
Proof.
  destruct (by_receipt s !! id) as [e|] eqn:He.
  - destruct (decide (now < st_expires_at e)%Z); [left; by exists e|].
    right. intros (e' & He' & ?). simplify_eq. lia.
  - right. intros (e' & He' & ?). simplify_eq.
Defined.

(** [s'] is [s] without the receipts whose deadline is at or before [now]. *)
Record evicted (now : Z) (s s' : InMemoryReceiptStore) : Prop := {
  ev_ok : store_ok s';
  ev_receipts : by_receipt s' = filter (fun ie => (now < st_expires_at ie.2)%Z) (by_receipt s);
  ev_chats : by_chat s' = filter (fun ci => live s now ci.2) (by_chat s);
}.

Definition pop_bucket (s : InMemoryReceiptStore) (t : Z) (ids : gset string) : InMemoryReceiptStore :=
  foldl evict_id (mkStore (by_receipt s) (by_chat s) (delete t (by_expiry s))) (elements ids).

Lemma bucket_elem s t ids id :
  store_ok s -> by_expiry s !! t = Some ids ->
  id ∈ elements ids <-> exists e, by_receipt s !! id = Some e /\ st_expires_at e = t.
Proof.
  intros Hok Ht. rewrite elem_of_elements, <- (so_expiry s Hok). split; [by exists ids|].
  intros (ids' & Ht' & Hin). by simplify_eq.
Qed.

Lemma pop_bucket_eq s t ids :
  store_ok s -> by_expiry s !! t = Some ids ->
  pop_bucket s t ids =
  mkStore (filter (fun ie => st_expires_at ie.2 ≠ t) (by_receipt s))
    (filter (fun ci => ci.2 ∉ elements ids) (by_chat s)) (delete t (by_expiry s)).
Proof.
  intros Hok Ht. unfold pop_bucket. rewrite evict_ids_eq by exact (so_chat s Hok). simpl. f_equal.
  apply map_filter_ext. intros id e He. simpl. rewrite bucket_elem by done. naive_solver.
Qed.

Lemma pop_bucket_ok s t ids :
  store_ok s -> by_expiry s !! t = Some ids -> store_ok (pop_bucket s t ids).
Proof.
  intros Hok Ht. rewrite pop_bucket_eq by done. split; simpl.
  - intros id e [He _]%map_lookup_filter_Some. by eapply so_id.
  - intros c id [Hc Hn]%map_lookup_filter_Some. destruct (so_chat s Hok _ _ Hc) as (e & He & Hch).
    exists e. split; [|done]. apply map_lookup_filter_Some. split; [done|]. simpl in *.
    intros Heq. apply Hn, (bucket_elem s t); eauto.
  - intros t' id. rewrite hint_at_delete, (so_expiry s Hok). setoid_rewrite map_lookup_filter_Some.
    simpl. naive_solver.
  - by apply no_empty_delete, so_buckets.
Qed.

Lemma pop_bucket_evicted now s s' t ids :
  store_ok s -> by_expiry s !! t = Some ids -> (t <= now)%Z ->
  evicted now (pop_bucket s t ids) s' -> evicted now s s'.
Proof.
  intros Hok Ht Hle [Hok' Hr Hc]. split; [done| |].
  - rewrite Hr, pop_bucket_eq by done. simpl. rewrite map_filter_filter.
    apply map_filter_ext. intros id e He. simpl. lia.
  - rewrite Hc. rewrite pop_bucket_eq by done. simpl. rewrite map_filter_filter.
    apply map_filter_ext. intros c id Hid. simpl. rewrite (bucket_elem s t ids id) by done.
    unfold live. simpl. setoid_rewrite map_lookup_filter_Some. simpl.
    split; [intros ((e & [He _] & Hlt) & _); by exists e|].
    intros (e & He & Hlt). split; [exists e; repeat split; [done|lia|done]|].
    intros (e' & He' & Hex). simplify_eq. lia.
Qed.

Lemma evict_loop_evicted fuel now s :
  size (by_expiry s) <= fuel -> store_ok s -> evicted now s (evict_loop fuel now s).
Proof.
  assert (Hdone : forall s, store_ok s ->
    (forall t ids, by_expiry s !! t = Some ids -> (now < t)%Z) -> evicted now s s).
  { intros s0 Hok Hall.
    assert (Hlive : forall id e, by_receipt s0 !! id = Some e -> (now < st_expires_at e)%Z).
    { intros id e He. destruct (proj2 (so_expiry s0 Hok (st_expires_at e) id)) as (ids & Hids & _); eauto. }
    split; [done|symmetry; apply map_filter_id; naive_solver|symmetry; apply map_filter_id].
    intros c id Hc. destruct (so_chat s0 Hok _ _ Hc) as (e & He & _). exists e. eauto. }
  revert s. induction fuel as [|fuel IH]; intros s Hsize Hok; simpl.
  - apply Hdone; [done|]. intros t ids Ht. assert (by_expiry s = ∅) as Hemp
      by (apply map_size_empty_iff; lia). by rewrite Hemp in Ht.
  - destruct (first_key_value (by_expiry s)) as [[t ids]|] eqn:Hf.
    + apply first_key_value_Some in Hf as [Ht Hmin]. destruct (Z.ltb_spec now t) as [Hlt|Hle].
      * apply Hdone; [done|]. intros t' ids' Ht'. apply Hmin in Ht'. lia.
      * apply (pop_bucket_evicted now s _ t ids); [done..|]. fold (pop_bucket s t ids).
        apply IH; [|by apply pop_bucket_ok]. rewrite pop_bucket_eq by done. simpl.
        rewrite map_size_delete_Some by eauto. lia.
    + apply first_key_value_None in Hf. apply Hdone; [done|]. intros t ids Ht. by rewrite Hf in Ht.
Qed.

Lemma evict_expired_evicted s now : store_ok s -> evicted now s (evict_expired s now).
Proof. intros. by apply evict_loop_evicted. Qed.

(** *** Removal and insertion *)
Lemma store_remove_spec s id :
  store_ok s ->
  store_ok (store_remove s id) /\
  by_receipt (store_remove s id) = delete id (by_receipt s) /\
  by_chat (store_remove s id) = filter (fun ci => ci.2 ≠ id) (by_chat s).
Proof.
  intros Hok. unfold store_remove. destruct (by_receipt s !! id) as [e|] eqn:He.
  - rewrite drop_chat_mapping_eq; cbn [by_receipt by_chat by_expiry].
    2: { intros c Hc. destruct (so_chat s Hok _ _ Hc) as (e' & He' & Hch). by simplify_eq. }
    split; [|done]. split; simpl.
    + intros i e' [_ Hi]%lookup_delete_Some. by eapply so_id.
    + intros c i [Hci Hne]%map_lookup_filter_Some. simpl in Hne.
      rewrite lookup_delete_ne by done. by apply so_chat.
    + intros t i. rewrite hint_at_drop, (so_expiry s Hok). setoid_rewrite lookup_delete_Some. split.
      * intros [(e' & He' & Hex) Hn]. exists e'. repeat split; try done.
        intros <-. simplify_eq. by apply Hn.
      * intros (e' & [Hne He'] & Hex). split; [by exists e'|]. naive_solver.
    + by apply no_empty_drop, so_buckets.
  - split; [done|]. rewrite delete_id by done. split; [done|]. symmetry.
    apply map_filter_id. intros c i Hi Heq. simpl in Heq. subst i.
    destruct (so_chat s Hok _ _ Hi) as (e & He' & _). by simplify_eq.
Qed.

Lemma store_insert_ok s r o t : store_ok s -> store_ok (store_insert s r o t).
Proof.
  intros Hok. destruct (store_remove_spec s (sr_receipt_id r) Hok) as ([Hid Hch Hex Hbk] & Hr & Hc).
  unfold store_insert. set (s1 := store_remove s (sr_receipt_id r)) in *.
  assert (Hgone : by_receipt s1 !! sr_receipt_id r = None) by (rewrite Hr; apply lookup_delete_eq).
  split; simpl.
  - intros i e [[<- <-]|[_ Hi]]%lookup_insert_Some; [done|by apply Hid].
  - intros c i Hci.
    assert (sr_chat_id r = Some c /\ i = sr_receipt_id r \/ by_chat s1 !! c = Some i) as [[Hrc ->]|Hold].
    { destruct (sr_chat_id r) as [c0|]; [|by right].
      apply lookup_insert_Some in Hci as [[-> <-]|[_ H]]; [by left|by right]. }
    + eexists. by rewrite lookup_insert_eq.
    + destruct (Hch _ _ Hold) as (e & He & Hec). exists e. split; [|done].
      rewrite lookup_insert_ne; [done|]. intros <-. by rewrite Hgone in He.
  - intros t' i. rewrite hint_at_add, Hex. setoid_rewrite lookup_insert_Some. split.
    + intros [(e & He & Het)|[-> ->]]; [|eauto 10]. exists e. split; [right|done]. split; [|done].
      intros <-. by rewrite Hgone in He.
    + intros (e & [[<- <-]|[Hne He]] & Het); [by right|left; eauto].
  - by apply no_empty_add.
Qed.

Lemma live_entry_spec s id now :
  store_ok s ->
  store_ok (live_entry s id now).1 /\
  (live_entry s id now).2 =
    (if decide (live s now id) then by_receipt s !! id else None) /\
  by_receipt (live_entry s id now).1 =
    (if decide (live s now id) then by_receipt s else delete id (by_receipt s)).
Proof.
  intros Hok. unfold live_entry. destruct (by_receipt s !! id) as [e|] eqn:He.
  - destruct (Z.leb_spec (st_expires_at e) now) as [Hle|Hlt]; simpl.
    + destruct (store_remove_spec s id Hok) as (Hok' & Hr & _).
      rewrite !decide_False by (intros (e' & He' & ?); simplify_eq; lia). done.
    + rewrite !decide_True by (by exists e). done.
  - rewrite !decide_False by (intros (e' & He' & ?); simplify_eq). simpl.
    by rewrite delete_id.
Qed.

(** ** The abstract store and the refinement *)
(** What the indexes implement: a map of live receipts and the newest live
    receipt of each chat. *)
Definition AbstractStore : Type := gmap string StoredReceipt * gmap string string.
Definition abstract (s : InMemoryReceiptStore) : AbstractStore := (by_receipt s, by_chat s).

Definition abs_put (a : AbstractStore) (receipt : SignedReceipt) (owner : option ReceiptOwner)
    (now expires_at : Z) : AbstractStore :=
  let id := sr_receipt_id receipt in
  let kept := delete id (filter (fun ie => (now < st_expires_at ie.2)%Z) a.1) in
  let chats := filter (fun ci => is_Some (kept !! ci.2)) a.2 in
  (<[id := mkStoredReceipt receipt owner expires_at]> kept,
   match sr_chat_id receipt with Some c => <[c := id]> chats | None => chats end).

Lemma put_refines s r o now t :
  store_ok s -> store_ok (put s r o now t) /\ abstract (put s r o now t) = abs_put (abstract s) r o now t.
Proof.
  intros Hok. unfold put. destruct (evict_expired_evicted s now Hok) as [Hok1 Hr1 Hc1].
  set (s1 := evict_expired s now) in *. split; [by apply store_insert_ok|].
  destruct (store_remove_spec s1 (sr_receipt_id r) Hok1) as (Hok2 & Hr2 & Hc2).
  unfold abstract, abs_put, store_insert. cbn [by_receipt by_chat fst snd]. rewrite Hr2, Hr1. f_equal.
  assert (by_chat (store_remove s1 (sr_receipt_id r)) =
    filter (fun ci => is_Some (delete (sr_receipt_id r)
      (filter (fun ie => (now < st_expires_at ie.2)%Z) (by_receipt s)) !! ci.2)) (by_chat s)) as Hc.
  { rewrite Hc2, Hc1, map_filter_filter. apply map_filter_ext. intros c i _. simpl.
    destruct (decide (i = sr_receipt_id r)) as [->|Hne].
    - rewrite lookup_delete_eq. split; [naive_solver|]. by intros [? [=]].
    - rewrite lookup_delete_ne by done. unfold live, is_Some.
      setoid_rewrite map_lookup_filter_Some. simpl. naive_solver. }
  by rewrite Hc.
Qed.

Lemma store_empty_ok : store_ok store_empty.
Proof.
  split; simpl; try done. intros t id. split; [by intros ?%hint_at_empty|by intros (e & ? & _)].
Qed.

(** One method call. *)
Inductive store_step (s : InMemoryReceiptStore) : InMemoryReceiptStore -> Prop :=
| ss_put r o now t : store_step s (put s r o now t)
| ss_get id now : store_step s (get_by_receipt_id s id now).1
| ss_chat c now : store_step s (get_by_chat_id s c now).1
| ss_owner id now : store_step s (owner_of s id now).1.

Lemma get_by_receipt_id_eq s id now :
  get_by_receipt_id s id now = ((live_entry s id now).1, st_receipt <$> (live_entry s id now).2).
Proof. unfold get_by_receipt_id. by destruct (live_entry s id now). Qed.
Lemma owner_of_eq s id now :
  owner_of s id now = ((live_entry s id now).1, (live_entry s id now).2 ≫= st_owner).
Proof. unfold owner_of. by destruct (live_entry s id now). Qed.
Lemma get_by_chat_id_eq s c now :
  get_by_chat_id s c now =
  match by_chat s !! c with
  | None => (s, None)
  | Some id => ((live_entry s id now).1, st_receipt <$> (live_entry s id now).2)
  end.
Proof.
  unfold get_by_chat_id. destruct (by_chat s !! c) as [id|]; [|done].
  by destruct (live_entry s id now).
Qed.

(** After any sequence of writes and lookups the three indexes agree: ids
    name their own receipts, a chat points at a stored receipt of that chat, the
    deadline index lists exactly the stored receipts, and no bucket is empty. *)
Theorem receipt_store_invariant s : rtc store_step store_empty s -> store_ok s.
Proof.
  pose proof store_empty_ok as H0.
  intros Hsteps. induction Hsteps as [|s s1 s2 Hs _ IH]; [done|]. apply IH. clear IH.
  destruct Hs as [r o now t|id now|c now|id now].
  - by apply put_refines.
  - rewrite get_by_receipt_id_eq. by apply live_entry_spec.
  - rewrite get_by_chat_id_eq. destruct (by_chat s !! c); [|done]. by apply live_entry_spec.
  - rewrite owner_of_eq. by apply live_entry_spec.
Qed.

(** A write implements the abstract store: exactly the receipts past their
    deadline go, with the chat entries that named them and the previous receipt
    of the same id, and the new receipt becomes its chat's newest. *)
Theorem put_refines_abstract_store s r o now t :
  store_ok s -> abstract (put s r o now t) = abs_put (abstract s) r o now t.
Proof. intros Hok. by apply put_refines. Qed.

(** A lookup serves exactly the unexpired receipts, with their owner, and a
    chat lookup only a receipt of that chat; the only change it makes is to drop
    the receipt it found expired. *)
Theorem lookups_serve_live_receipts s id c now :
  store_ok s ->
  (forall r, (get_by_receipt_id s id now).2 = Some r <->
     exists e, by_receipt s !! id = Some e /\ (now < st_expires_at e)%Z /\ st_receipt e = r) /\
  (forall w, (owner_of s id now).2 = Some w <->
     exists e, by_receipt s !! id = Some e /\ (now < st_expires_at e)%Z /\ st_owner e = Some w) /\
  (forall r, (get_by_chat_id s c now).2 = Some r ->
     sr_chat_id r = Some c /\ by_chat s !! c = Some (sr_receipt_id r) /\ live s now (sr_receipt_id r)) /\
  by_receipt (get_by_receipt_id s id now).1 =
    (if decide (live s now id) then by_receipt s else delete id (by_receipt s)).
Proof.
  intros Hok. rewrite get_by_receipt_id_eq, owner_of_eq, get_by_chat_id_eq. cbn [fst snd].
  destruct (live_entry_spec s id now Hok) as (_ & -> & ->). split; [|split; [|split; [|done]]].
  - intros r. rewrite fmap_Some. destruct (decide (live s now id)) as [(e & He & Hlt)|Hl]; split.
    + intros (e' & He' & ->). simplify_eq. by exists e.
    + intros (e' & He' & _ & <-). by exists e'.
    + by intros (e' & He' & _).
    + intros (e' & He' & Hlt & _). destruct Hl. by exists e'.
  - intros w. rewrite bind_Some. destruct (decide (live s now id)) as [(e & He & Hlt)|Hl]; split.
    + intros (e' & He' & Hw). simplify_eq. by exists e.
    + intros (e' & He' & _ & Hw). by exists e'.
    + by intros (e' & He' & _).
    + intros (e' & He' & Hlt & _). destruct Hl. by exists e'.
  - intros r. destruct (by_chat s !! c) as [i|] eqn:Hc; [|done]. cbn [snd].
    destruct (live_entry_spec s i now Hok) as (_ & Hle & _). rewrite Hle, fmap_Some.
    intros (e & He & ->). destruct (decide (live s now i)) as [Hl|]; [|done].
    destruct (so_chat s Hok _ _ Hc) as (e' & He' & Hch). simplify_eq.
    by rewrite (so_id s Hok _ _ He).
Qed.

(** The writes of other chats and receipts while [expires_at] is ahead. *)
Definition other_write (id c : string) (t : Z) (w : SignedReceipt * option ReceiptOwner * (Z * Z)) : Prop :=
  sr_receipt_id w.1.1 ≠ id /\ sr_chat_id w.1.1 ≠ Some c /\ (w.2.1 < t)%Z.
Definition run_writes (s : InMemoryReceiptStore)
    (ws : list (SignedReceipt * option ReceiptOwner * (Z * Z))) : InMemoryReceiptStore :=
  foldl (fun s w => put s w.1.1 w.1.2 w.2.1 w.2.2) s ws.

Lemma abs_put_keeps a id c e w :
  other_write id c (st_expires_at e) w -> a.1 !! id = Some e -> a.2 !! c = Some id ->
  (abs_put a w.1.1 w.1.2 w.2.1 w.2.2).1 !! id = Some e /\
  (abs_put a w.1.1 w.1.2 w.2.1 w.2.2).2 !! c = Some id.
Proof.
  destruct w as [[r o] [now t]]. simpl. intros (Hid & Hc & Hnow) He Hch. simpl in *.
  assert (delete (sr_receipt_id r) (filter (fun ie => (now < st_expires_at ie.2)%Z) a.1) !! id = Some e) as Hk.
  { rewrite lookup_delete_ne by done. by apply map_lookup_filter_Some. }
  split; [by rewrite lookup_insert_ne|].
  assert (filter (fun ci => is_Some (delete (sr_receipt_id r)
      (filter (fun ie => (now < st_expires_at ie.2)%Z) a.1) !! ci.2)) a.2 !! c = Some id) as Hf.
  { apply map_lookup_filter_Some. split; [done|]. simpl. by rewrite Hk. }
  destruct (sr_chat_id r) as [c'|]; [|done]. rewrite lookup_insert_ne; [done|congruence].
Qed.

(** A receipt stays reachable until its deadline: under its own id and,
    until another receipt of the chat is written, under its chat id, whatever
    other receipts are written and evicted in between. *)
Theorem receipt_reachable_until_deadline s r o now0 t c ws now :
  store_ok s -> sr_chat_id r = Some c -> (now < t)%Z ->
  Forall (other_write (sr_receipt_id r) c t) ws ->
  let s' := run_writes (put s r o now0 t) ws in
  (get_by_chat_id s' c now).2 = Some r /\ (get_by_receipt_id s' (sr_receipt_id r) now).2 = Some r /\
  (owner_of s' (sr_receipt_id r) now).2 = o.
Proof.
  intros Hok Hc Hnow Hws s'. set (e := mkStoredReceipt r o t).
  assert (store_ok s' /\ by_receipt s' !! sr_receipt_id r = Some e /\ by_chat s' !! c = Some (sr_receipt_id r))
    as (Hok' & He & Hch).
  { destruct (put_refines s r o now0 t Hok) as [Hok0 Ha0]. unfold s', run_writes.
    assert (by_receipt (put s r o now0 t) !! sr_receipt_id r = Some e) as He0.
    { change (by_receipt ?x) with (abstract x).1. rewrite Ha0. apply lookup_insert_eq. }
    assert (by_chat (put s r o now0 t) !! c = Some (sr_receipt_id r)) as Hc0.
    { change (by_chat ?x) with (abstract x).2. rewrite Ha0. unfold abs_put. cbn [snd].
      rewrite Hc. apply lookup_insert_eq. }
    revert Hok0 He0 Hc0. generalize (put s r o now0 t). clear s' Ha0.
    induction Hws as [|w ws Hw _ IH]; intros s1 Hok1 He1 Hc1; [done|]. simpl.
    destruct (put_refines s1 w.1.1 w.1.2 w.2.1 w.2.2 Hok1) as [Hok2 Ha].
    destruct (abs_put_keeps (abstract s1) _ _ e w Hw He1 Hc1) as [He2 Hc2].
    rewrite <- Ha in He2, Hc2. by apply IH. }
  rewrite get_by_chat_id_eq, get_by_receipt_id_eq, owner_of_eq, Hch. cbn [snd].
  destruct (live_entry_spec s' (sr_receipt_id r) now Hok') as (_ & -> & _).
  rewrite decide_True by (by exists e). by rewrite He.
Qed.

(** *** Witnesses *)
Definition sample_receipt (id chat : string) : SignedReceipt :=
  mkSignedReceipt id (Some chat) "sha256:00" (as_bytes "{}") "k" "00".
Definition sample_store : InMemoryReceiptStore :=
  put (put store_empty (sample_receipt "a" "ca") None 1000 2000) (sample_receipt "b" "cb") (Some "w") 1000 9000.

Lemma sample_store_reachable : rtc store_step store_empty sample_store.
Proof. do 2 (eapply rtc_l; [apply ss_put|]). apply rtc_refl. Qed.
Lemma sample_store_ok : store_ok sample_store.
Proof.
  apply put_refines, put_refines, store_empty_ok.
Qed.

Lemma receipt_store_invariant_witness : store_ok sample_store.
Proof. apply receipt_store_invariant. exact sample_store_reachable. Defined.

Lemma put_refines_abstract_store_witness :
  abstract (put sample_store (sample_receipt "c" "cc") None 3000 9000) =
  abs_put (abstract sample_store) (sample_receipt "c" "cc") None 3000 9000.
Proof. apply put_refines_abstract_store. exact sample_store_ok. Defined.

Lemma lookups_serve_live_receipts_witness :
  by_receipt (get_by_receipt_id sample_store "a" 3000).1 = delete "a" (by_receipt sample_store).
Proof.
  destruct (lookups_serve_live_receipts sample_store "a" "ca" 3000 sample_store_ok) as (_ & _ & _ & ->).
  by vm_compute.
Defined.

Lemma receipt_reachable_until_deadline_witness :
  (get_by_chat_id (run_writes (put sample_store (sample_receipt "d" "conv") (Some "me") 3000 9000)
     [(sample_receipt "e" "other", None, (4000, 4001)%Z)]) "conv" 8999).2 = Some (sample_receipt "d" "conv").
Proof.
  apply (receipt_reachable_until_deadline sample_store (sample_receipt "d" "conv") (Some "me") 3000 9000
    "conv" [(sample_receipt "e" "other", None, (4000, 4001)%Z)] 8999);
    [exact sample_store_ok|done|lia|].
  apply Forall_singleton. split; [done|]. split; [done|]. simpl. lia.
Defined.
