(* ===== verification/RelyingParty.v ===== *)
(** * The relying party's check engine (apps/desktop/cli/checks.rs, transcript.rs)

    The transcript and its verdict, the receipt checks receipt-1 to receipt-4,
    the audit of a cited session record, and the upstream checks.  The theorems
    show what a clean run of the receipt checks establishes, that a receipt the
    gateway finalized passes them at a client that established its keyset, what
    an intact session record is, and that the upstream checks fail closed. *)
From S2P Require Import Prelude Json External Sample Digest Identity Receipt.

(** ** transcript.rs *)
Record CheckDef := mkCheckDef { cd_id : string; cd_section : string; cd_title : string }.
Definition ID_1 : CheckDef := mkCheckDef "id-1" "9.1(1)"
  "hardware quote verifies to TEE vendor root and binds report_data (dstack tdx policy)".
Definition ID_2 : CheckDef := mkCheckDef "id-2" "9.1(2)"
  "binding chain: keyset JCS -> digest -> statement for our nonce -> report_data".
Definition ID_3 : CheckDef := mkCheckDef "id-3" "9.1(3)" "keyset not expired (now < not_after)".
Definition ID_4 : CheckDef := mkCheckDef "id-4" "9.1(4)"
  "source provenance connects workload to public code (dstack compose policy)".
Definition ID_5 : CheckDef := mkCheckDef "id-5" "9.1(5)" "private-key custody and subject per policy".
Definition ID_6 : CheckDef := mkCheckDef "id-6" "9.1(6)"
  "the channel actually used is bound to the attested keyset (TLS SPKI or E2EE key)".
Definition RECEIPT_1 : CheckDef := mkCheckDef "receipt-1" "9.3(1)"
  "document signature (JCS, minus signature member) under attested receipt key".
Definition RECEIPT_2 : CheckDef := mkCheckDef "receipt-2" "9.3(2)"
  "document workload_keyset_digest matches established digest".
Definition RECEIPT_3 : CheckDef := mkCheckDef "receipt-3" "9.3(3)"
  "request.received body_hash matches sent bytes".
Definition RECEIPT_4 : CheckDef := mkCheckDef "receipt-4" "9.3(4)"
  "response.returned body_hash matches received wire bytes".
Definition RECEIPT_NOTE : CheckDef := mkCheckDef "receipt-note" "9.3"
  "service-side rewrite: request.forwarded differs from request.received".
Definition UPSTREAM_1 : CheckDef := mkCheckDef "upstream-1" "9.3(5)"
  "upstream.verified result is verified and cites a session".
Definition UPSTREAM_2 : CheckDef := mkCheckDef "upstream-2" "9.2(1-2), 9.3(6)"
  "cited session: document hashes to the id, served_at in window, evidence digest".

Inductive Status : Type := Pass | Fail | Skip | Info.
#[global] Instance Status_eq_dec : EqDecision Status.
Proof. solve_decision. Defined.

Record Check := mkCheck {
  ck_def : CheckDef;
  ck_status : Status;
  ck_detail : string;
  ck_skip_reason : option string;
  ck_explain : option string;
}.
Record Transcript := mkTranscript {
  tr_checks : list Check;
  tr_workload_keyset_digest : option string;
}.
Definition transcript_default : Transcript := mkTranscript [] None.

Definition push (t : Transcript) (def : CheckDef) (status : Status) (detail : string)
    (skip_reason : option string) : Transcript :=
  mkTranscript (tr_checks t ++ [mkCheck def status detail skip_reason None]) (tr_workload_keyset_digest t).
Definition pass (t : Transcript) (def : CheckDef) (detail : string) := push t def Pass detail None.
Definition fail_ (t : Transcript) (def : CheckDef) (detail : string) := push t def Fail detail None.
Definition skip (t : Transcript) (def : CheckDef) (detail short : string) := push t def Skip detail (Some short).
Definition info (t : Transcript) (def : CheckDef) (detail : string) := push t def Info detail None.

(** [Transcript::explain]: attach to the most recently pushed check. *)
Definition explain (t : Transcript) (text : string) : Transcript :=
  match last (tr_checks t) with
  | Some c =>
      mkTranscript (removelast (tr_checks t) ++
        [mkCheck (ck_def c) (ck_status c) (ck_detail c) (ck_skip_reason c) (Some text)])
        (tr_workload_keyset_digest t)
  | None => t
  end.

Definition has_status (status : Status) (c : Check) : bool := bool_decide (ck_status c = status).
Definition count (t : Transcript) (status : Status) : nat :=
  length (List.filter (has_status status) (tr_checks t)).
Definition no_fails (t : Transcript) : bool :=
  negb (bool_decide (tr_checks t = [])) && (count t Fail =? 0).
Definition root_of_trust_ok (t : Transcript) : bool :=
  match List.find (fun c => bool_decide (cd_id (ck_def c) = "id-1")) (tr_checks t) with
  | None => true
  | Some c => has_status Pass c
  end.
Definition verified (t : Transcript) : bool := no_fails t && root_of_trust_ok t.

#[global] Instance CheckDef_eq_dec : EqDecision CheckDef.
Proof. solve_decision. Defined.
#[global] Instance Check_eq_dec : EqDecision Check.
Proof. solve_decision. Defined.

(** ** checks.rs *)
(** The [Debug] rendering of [serde_json::Value], used in diagnostics only. *)
Class ValueDebug := { value_debug : value -> string }.

(** [{:?}] of options. *)
Definition debug_option {A} (f : A -> string) (o : option A) : string :=
  match o with Some a => "Some(" +:+ f a +:+ ")" | None => "None" end.
(** [join(", ")]. *)
Fixpoint join (sep : string) (l : list string) : string :=
  match l with
  | [] => EmptyString
  | [x] => x
  | x :: l' => x +:+ sep +:+ join sep l'
  end.

Definition events (payload : value) : list value :=
  default [] (get "event_log" payload ≫= as_array).
Definition event_by_type (payload : value) (event_type : string) : option value :=
  List.find (fun event => bool_decide (get_str "type" event = Some event_type)) (events payload).
Definition is_verified_upstream (event : value) : bool :=
  bool_decide (get_str "type" event = Some "upstream.verified") &&
  bool_decide (get_str "result" event = Some "verified").
Fixpoint find_map {A B} (f : A -> option B) (l : list A) : option B :=
  match l with
  | [] => None
  | x :: l' => match f x with Some y => Some y | None => find_map f l' end
  end.
Definition session_id_from_receipt (payload : value) : option string :=
  find_map (get_str "session_id") (List.filter is_verified_upstream (events payload)).

Record BodyDigest := mkBodyDigest { bd_sha256 : string; bd_len : Z }.

Record RequiredClaim := mkRequiredClaim { rc_name : string; rc_source : option string }.
Definition CLAIM_SOURCES : list string :=
  ["hardware_proven"; "verifier_derived"; "provider_asserted"; "operator_asserted"].

Definition required_claim_parse (v : string) : result string RequiredClaim :=
  let '(name, source) :=
    match split_once "=" v with
    | Some (name, source) => (name, Some source)
    | None => (v, None)
    end in
  if bool_decide (name = EmptyString) || bool_decide (name = "extra") then
    Err (debug_str v +:+ " does not name a typed claim (spec 8.3)")
  else match source with
  | Some s =>
      if bool_decide (s ∈ CLAIM_SOURCES) then Ok (mkRequiredClaim name source)
      else Err ("unknown claim source " +:+ debug_str s +:+ " (expected one of: " +:+
                join ", " CLAIM_SOURCES +:+ ")")
  | None => Ok (mkRequiredClaim name source)
  end.
Definition required_claim_to_string (r : RequiredClaim) : string :=
  match rc_source r with
  | Some source => rc_name r +:+ "=" +:+ source
  | None => rc_name r
  end.

Definition claim_met (record : value) (req : RequiredClaim) : bool :=
  let claim := get "claims" record ≫= get (rc_name req) in
  let asserted := bool_decide (claim ≫= get_str "status" = Some "asserted") in
  let source_ok :=
    match rc_source req with
    | None => true
    | Some source => bool_decide (claim ≫= get_str "source" = Some source)
    end in
  asserted && source_ok.
Definition unmet_claims (record : value) (required : list RequiredClaim) : list string :=
  required_claim_to_string <$> List.filter (fun req => negb (claim_met record req)) required.

Definition claims_summary (claims : option value) : string :=
  match claims with
  | Some (JObject map) =>
      let parts :=
        (fun '(name, claim) =>
          let status := default "?" (get_str "status" claim) in
          match get_str "source" claim with
          | Some source => name +:+ "=" +:+ status +:+ "(" +:+ source +:+ ")"
          | None => name +:+ "=" +:+ status
          end) <$> List.filter (fun '(name, _) => negb (bool_decide (name = "extra"))) map in
      join ", " (match parts with [] => ["none recorded"] | _ => parts end)
  | _ => "none recorded"
  end.

Record SessionAudit := mkSessionAudit {
  sa_record : value;
  sa_recomputed_id : string;
  sa_id_matches : bool;
  sa_version_ok : bool;
  sa_in_window : bool;
  sa_evidence : result string unit;
}.
Definition integrity_ok (a : SessionAudit) : bool :=
  sa_version_ok a && sa_id_matches a && sa_in_window a && is_ok (sa_evidence a).

(** [Display] of [JcsError]. *)
Definition jcs_error_display (e : JcsError) : string :=
  match e with
  | NonIntegerNumber n => "non-integer JSON number " +:+ n +:+ " in an ACI JSON document (Appendix A)"
  | NonAsciiFieldName k =>
      "non-ASCII field name " +:+ debug_str k +:+ " in an ACI JSON document (Appendix A)"
  end.

Section Checks.
Context {SH : Sha} {HX : HexCodec} {B64 : Base64} {SJ : SerdeJson} {ED : Ed25519} {VD : ValueDebug}.

Definition parse_receipt_document (payload : value) : result string value :=
  if bool_decide (get_str "api_version" payload ≠ Some "aci/1") then
    Err ("unsupported receipt api_version " +:+
         value_debug (default JNull (get "api_version" payload)) +:+ " (expected " +:+
         debug_str "aci/1" +:+ ")")
  else Ok payload.

Definition body_digest_from_sha256 (raw : bytes) (len : Z) : BodyDigest :=
  mkBodyDigest ("sha256:" +:+ hex_encode raw) len.
Definition body_digest_of (b : bytes) : BodyDigest :=
  body_digest_from_sha256 (sha256_raw b) (Z.of_nat (length b)).

Record EstablishedIdentity := mkEstablishedIdentity {
  ei_keyset : WorkloadKeyset;
  ei_keyset_digest : string;
}.

(** ** receipt-1 to receipt-4 *)
Definition check_signature (t : Transcript) (receipt : value) (keyset : WorkloadKeyset) : Transcript :=
  match get_str "key_id" receipt with
  | None => fail_ t RECEIPT_1 "receipt document has no key_id"
  | Some key_id =>
  match List.find (fun key => bool_decide (kpk_key_id key = key_id)) (ks_receipt_signing_keys keyset) with
  | None => fail_ t RECEIPT_1 ("receipt key_id " +:+ debug_str key_id +:+ " is not in the attested keyset")
  | Some receipt_key =>
  match get_str "signature" receipt with
  | None => fail_ t RECEIPT_1 "receipt document has no signature"
  | Some signature_hex =>
  match hex_decode signature_hex with
  | Err _ => fail_ t RECEIPT_1 "receipt signature is not hex"
  | Ok signature =>
  match receipt_signing_input receipt with
  | Err e => fail_ t RECEIPT_1 ("receipt violates the ACI document constraints: " +:+ jcs_error_display e)
  | Ok signing_input =>
      if bool_decide (kpk_algo receipt_key ≠ "ed25519") then
        fail_ t RECEIPT_1 ("receipt key " +:+ debug_str key_id +:+ " uses algorithm " +:+
          debug_str (kpk_algo receipt_key) +:+
          ", which this verifier does not implement (Appendix B rejects the artifact, not the entry)")
      else if verify_receipt_signature receipt_key signing_input signature then
        pass t RECEIPT_1 (kpk_algo receipt_key +:+ " signature by attested key " +:+ debug_str key_id +:+
          " verifies over JCS(document minus signature)")
      else fail_ t RECEIPT_1 ("signature by key " +:+ debug_str key_id +:+ " does not verify")
  end end end end end.

Definition recorded_hash (receipt : value) (event_type : string) : option string :=
  event_by_type receipt event_type ≫= get_str "body_hash".

(** receipt-3 and receipt-4 have the same body for their own event. *)
Definition check_body_hash (t : Transcript) (def : CheckDef) (what : string) (receipt : value)
    (event_type : string) (digest : option BodyDigest) : Transcript :=
  match digest with
  | None => skip t def (what +:+ " digest not supplied")
              ((if bool_decide (what = "request body") then "request" else "response") +:+ " digest not supplied")
  | Some digest =>
      match recorded_hash receipt event_type with
      | None => fail_ t def ("receipt has no " +:+ event_type +:+ " body_hash")
      | Some recorded =>
          if bool_decide (recorded = bd_sha256 digest) then
            pass t def (bd_sha256 digest +:+ " over " +:+ pretty (bd_len digest) +:+ " bytes")
          else fail_ t def ("computed " +:+ bd_sha256 digest +:+ ", receipt records " +:+ recorded)
      end
  end.

Definition run_receipt_checks (t : Transcript) (receipt : value) (identity : EstablishedIdentity)
    (request_body response_wire : option BodyDigest) : Transcript :=
  let keyset := ei_keyset identity in
  let payload_digest := get_str "workload_keyset_digest" receipt in
  let served_at := get "served_at" receipt ≫= as_u64 in
  let t := check_signature t receipt keyset in
  let t :=
    if bool_decide (payload_digest = Some (ei_keyset_digest identity)) &&
       match served_at with Some s => (s <? ks_not_after keyset)%Z | None => false end
    then pass t RECEIPT_2 "payload workload_keyset_digest matches the established keyset valid at served_at"
    else fail_ t RECEIPT_2 ("payload workload_keyset_digest " +:+ debug_option debug_str payload_digest +:+
      ", established " +:+ ei_keyset_digest identity +:+ "; served_at " +:+ debug_option pretty served_at +:+
      " must be a nonnegative integer before not_after " +:+ pretty (ks_not_after keyset)) in
  let t := check_body_hash t RECEIPT_3 "request body" receipt "request.received" request_body in
  let t := check_body_hash t RECEIPT_4 "response wire" receipt "response.returned" response_wire in
  match recorded_hash receipt "request.received", recorded_hash receipt "request.forwarded" with
  | Some received, Some forwarded =>
      if bool_decide (received = forwarded) then t
      else info t RECEIPT_NOTE ("the service rewrote the request before inference: request.forwarded " +:+
        forwarded +:+ " != request.received " +:+ received +:+ " (acceptability is local policy)")
  | _, _ => t
  end.

(** ** Session records *)
(** The base64 decoder's own message is not part of the text. *)
Definition evidence_check (evidence : option value) : result string unit :=
  match evidence ≫= get_str "digest", evidence ≫= get_str "data" with
  | Some digest, Some data_uri =>
      match split_once ";base64," data_uri with
      | None => Err "evidence data is not a base64 data URI"
      | Some (_, b64) =>
          bytes ← ok_or "evidence data does not decode" (b64_decode b64);
          if bool_decide (sha256_hex bytes = digest) then Ok ()
          else Err "evidence data DOES NOT hash to its digest"
      end
  | _, _ => Err "record carries no spec 8.2 evidence digest+data"
  end.

Definition audit_session_record (b : bytes) (expected_id : string) (at_ : option Z) :
    result string SessionAudit :=
  record ← map_err (String.app "session record is not JSON: ") (from_slice b);
  recomputed_id ←
    map_err (fun e => "session record violates the ACI document constraints: " +:+ jcs_error_display e)
      ((fun bytes => hex_encode (sha256_raw bytes)) <$> jcs_bytes record);
  let version_ok := bool_decide (get_str "api_version" record = Some "aci/1") in
  let id_matches := bool_decide (recomputed_id = expected_id) in
  let in_window :=
    match at_, get "established_at" record ≫= as_u64, get "expires_at" record ≫= as_u64 with
    | Some at_, Some from, Some until => (from <=? at_)%Z && (at_ <? until)%Z
    | _, _, _ => false
    end in
  Ok (mkSessionAudit record recomputed_id id_matches version_ok in_window
        (evidence_check (get "evidence" record))).

(** ** The upstream checks *)
Record UpstreamContext := mkUpstreamContext {
  uc_session_bytes : option bytes;
  uc_no_session_reason : string;
  uc_pinned : option (list string);
  uc_requires_verified : bool;
  uc_serving : string;
  uc_required_claims : list RequiredClaim;
}.

Definition check_upstream_event (t : Transcript) (payload : value) (serving : string)
    (requires_verified : bool) : Transcript :=
  let upstream_events :=
    List.filter (fun event => bool_decide (get_str "type" event = Some "upstream.verified")) (events payload) in
  let found := List.find (fun event => bool_decide (get_str "result" event = Some "verified")) upstream_events in
  if bool_decide (upstream_events = []) && bool_decide (serving = "direct") then
    pass t UPSTREAM_1 "direct service (spec 4.1): no upstream hop; the spec 9.1-verified workload serves"
  else if bool_decide (upstream_events = []) then
    fail_ t UPSTREAM_1 ("receipt carries no upstream.verified event, and serving=" +:+ debug_str serving +:+
      " is not " +:+ debug_str "direct" +:+ " (spec 7.5)")
  else match found with
  | None =>
      if requires_verified then
        fail_ t UPSTREAM_1 "no upstream.verified event reports a verified upstream"
      else info t UPSTREAM_1 "the receipt records unverified serving"
  | Some event =>
      if requires_verified && bool_decide (get "required" event ≫= as_bool ≠ Some true) then
        fail_ t UPSTREAM_1 "verified upstream but required is not true"
      else match get_str "session_id" event with
      | None => fail_ t UPSTREAM_1 "verified upstream but cites no session_id"
      | Some session =>
          pass t UPSTREAM_1 ("model=" +:+ default "?" (get_str "model_id" event) +:+ " session=" +:+ session +:+
            " (" +:+ pretty (length upstream_events) +:+ " attempt(s))")
      end
  end.

Definition clause (ok : bool) (yes no : string) : string := if ok then yes else no.
Definition audit_detail (cited : string) (audit : SessionAudit) (unmet : list string) : string :=
  let detail := "session " +:+ cited +:+ ": " +:+
    clause (sa_id_matches audit) "document hashes to the cited id"
      ("document hashes to " +:+ sa_recomputed_id audit +:+ ", NOT the cited id") +:+ "; " +:+
    clause (sa_in_window audit) "receipt served_at inside the validity window"
      "receipt served_at OUTSIDE the validity window" +:+ "; " +:+
    match sa_evidence audit with
    | Ok _ => "evidence data hashes to its digest"
    | Err reason => reason
    end +:+ "; claims: " +:+ claims_summary (get "claims" (sa_record audit)) in
  let detail :=
    if sa_version_ok audit then detail
    else "record api_version " +:+ value_debug (default JNull (get "api_version" (sa_record audit))) +:+
         " is not " +:+ debug_str "aci/1" +:+ "; " +:+ detail in
  if bool_decide (unmet = []) then detail
  else detail +:+ "; required claims unmet (spec 9.2(3)): " +:+ join ", " unmet.

(** Nothing is audited without the record: a policy that needs it fails. *)
Definition no_record (t : Transcript) (payload : value) (cx : UpstreamContext) : Transcript :=
  if negb (bool_decide (uc_required_claims cx = [])) then
    fail_ t UPSTREAM_2 ("required claims cannot be checked: " +:+ uc_no_session_reason cx +:+ " (spec 9.2(3))")
  else if uc_requires_verified cx && bool_decide (is_Some (session_id_from_receipt payload)) then
    fail_ t UPSTREAM_2 ("the cited session could not be audited: " +:+ uc_no_session_reason cx +:+
      " (spec 8 retention)")
  else skip t UPSTREAM_2 (uc_no_session_reason cx) "no session record".

Definition audit_record (t : Transcript) (payload : value) (cx : UpstreamContext) (b : bytes) : Transcript :=
  match session_id_from_receipt payload with
  | None => fail_ t UPSTREAM_2 "receipt cites no session_id to audit against"
  | Some cited =>
      match audit_session_record b cited (get "served_at" payload ≫= as_u64) with
      | Err e => fail_ t UPSTREAM_2 e
      | Ok audit =>
          let unmet := unmet_claims (sa_record audit) (uc_required_claims cx) in
          let detail := audit_detail cited audit unmet in
          if integrity_ok audit && bool_decide (unmet = []) then pass t UPSTREAM_2 detail
          else fail_ t UPSTREAM_2 detail
      end
  end.

Definition check_session_audit (t : Transcript) (payload : value) (cx : UpstreamContext) : Transcript :=
  let continue_ :=
    match uc_session_bytes cx with
    | None => no_record t payload cx
    | Some b => audit_record t payload cx b
    end in
  match uc_pinned cx, session_id_from_receipt payload with
  | Some pinned, Some cited =>
      if bool_decide (cited ∈ pinned) then continue_
      else fail_ t UPSTREAM_2 ("cited session " +:+ cited +:+ " is not in the pinned list (spec 5.3)")
  | _, _ => continue_
  end.

Definition run_upstream_checks (t : Transcript) (payload : value) (cx : UpstreamContext) : Transcript :=
  check_session_audit (check_upstream_event t payload (uc_serving cx) (uc_requires_verified cx)) payload cx.

Definition run_response_checks (t : Transcript) (receipt : value) (identity : EstablishedIdentity)
    (request_body response_wire : option BodyDigest) (upstream : UpstreamContext) : Transcript :=
  run_upstream_checks (run_receipt_checks t receipt identity request_body response_wire) receipt upstream.

(** ** Lemmas *)
Lemma count_push t d s x why st :
  count (push t d s x why) st = count t st + (if bool_decide (s = st) then 1 else 0).
Proof.
  unfold count, push. cbn [tr_checks]. rewrite List.filter_app, length_app. simpl.
  unfold has_status. simpl. by case_bool_decide.
Qed.

Definition signature_ok (receipt : value) (keyset : WorkloadKeyset) : Prop :=
  exists kid key, get_str "key_id" receipt = Some kid /\
    List.find (fun key => bool_decide (kpk_key_id key = kid)) (ks_receipt_signing_keys keyset) = Some key /\
    relying_party_accepts key receipt = true.

Lemma verify_receipt_signature_algo key input sig :
  verify_receipt_signature key input sig = true -> kpk_algo key = ALGO_ED25519.
Proof. unfold verify_receipt_signature. by case_bool_decide. Qed.

(** A check adds a failure exactly when [P] does not hold. *)
Definition settles (t t' : Transcript) (P : Prop) : Prop :=
  (count t' Fail = count t Fail /\ P) \/ (count t' Fail = S (count t Fail) /\ ~ P).
Lemma settles_pass t def detail (P : Prop) : P -> settles t (pass t def detail) P.
Proof. intros HP. left. unfold pass. rewrite count_push. simpl. split; [lia|done]. Qed.
Lemma settles_fail t def detail (P : Prop) : ~ P -> settles t (fail_ t def detail) P.
Proof. intros HP. right. unfold fail_. rewrite count_push. simpl. split; [lia|done]. Qed.

Lemma check_signature_settles t receipt keyset :
  settles t (check_signature t receipt keyset) (signature_ok receipt keyset).
Proof.
  unfold check_signature, signature_ok, relying_party_accepts.
  destruct (get_str "key_id" receipt) as [kid|]; [|apply settles_fail; naive_solver].
  destruct (List.find _ _) as [key|] eqn:Hk;
    [|apply settles_fail; intros (? & ? & [= <-] & Hk' & _); by rewrite Hk in Hk'].
  destruct (get_str "signature" receipt) as [hex|]; [|apply settles_fail; naive_solver].
  destruct (hex_decode hex) as [sig|];
    [|apply settles_fail; intros (? & ? & _ & _ & H); by destruct (receipt_signing_input receipt)].
  destruct (receipt_signing_input receipt) as [input|]; [|apply settles_fail; naive_solver].
  case_bool_decide as Ha.
  - apply settles_fail. intros (kid' & key' & [= <-] & Hk' & Hv). rewrite Hk in Hk'. simplify_eq.
    by apply verify_receipt_signature_algo in Hv.
  - destruct (verify_receipt_signature key input sig) eqn:Hv.
    + apply settles_pass. by exists kid, key.
    + apply settles_fail. intros (kid' & key' & [= <-] & Hk' & Hv'). rewrite Hk in Hk'. simplify_eq.
      by rewrite Hv in Hv'.
Qed.

Lemma check_body_hash_settles t def what receipt ty digest :
  settles t (check_body_hash t def what receipt ty (Some digest))
    (recorded_hash receipt ty = Some (bd_sha256 digest)).
Proof.
  unfold check_body_hash. destruct (recorded_hash receipt ty) as [r|]; [|by apply settles_fail].
  case_bool_decide; subst; [by apply settles_pass|apply settles_fail; congruence].
Qed.

(** What the receipt checks establish. *)
Record receipt_checks_hold (receipt : value) (identity : EstablishedIdentity) (rq rs : BodyDigest) : Prop := {
  rh_signature : signature_ok receipt (ei_keyset identity);
  rh_digest : get_str "workload_keyset_digest" receipt = Some (ei_keyset_digest identity);
  rh_served : exists s, get "served_at" receipt ≫= as_u64 = Some s /\ (s < ks_not_after (ei_keyset identity))%Z;
  rh_request : recorded_hash receipt "request.received" = Some (bd_sha256 rq);
  rh_response : recorded_hash receipt "response.returned" = Some (bd_sha256 rs);
}.

Lemma run_receipt_checks_fails t receipt identity rq rs :
  let t' := run_receipt_checks t receipt identity (Some rq) (Some rs) in
  count t Fail <= count t' Fail /\
  (count t' Fail = count t Fail <-> receipt_checks_hold receipt identity rq rs).
Proof.
  unfold run_receipt_checks. cbv zeta.
  pose proof (check_signature_settles t receipt (ei_keyset identity)) as H1.
  set (t1 := check_signature t _ _) in *.
  set (t2 := if _ && _ then _ else _).
  assert (settles t1 t2 (get_str "workload_keyset_digest" receipt = Some (ei_keyset_digest identity) /\
    exists s, get "served_at" receipt ≫= as_u64 = Some s /\ (s < ks_not_after (ei_keyset identity))%Z)) as H2.
  { unfold t2. destruct (get "served_at" receipt ≫= as_u64) as [s|];
      [|rewrite andb_false_r; apply settles_fail; naive_solver].
    case_bool_decide; simpl; [|apply settles_fail; naive_solver].
    destruct (Z.ltb_spec s (ks_not_after (ei_keyset identity)));
      [apply settles_pass; eauto|apply settles_fail; naive_solver lia]. }
  clearbody t1 t2.
  pose proof (check_body_hash_settles t2 RECEIPT_3 "request body" receipt "request.received" rq) as H3.
  set (t3 := check_body_hash t2 _ _ _ _ _) in *.
  pose proof (check_body_hash_settles t3 RECEIPT_4 "response wire" receipt "response.returned" rs) as H4.
  set (t4 := check_body_hash t3 _ _ _ _ _) in *. clearbody t3 t4.
  set (t5 := match recorded_hash receipt "request.received" with Some _ => _ | None => _ end).
  assert (count t5 Fail = count t4 Fail) as ->.
  { unfold t5. destruct (recorded_hash receipt "request.received"), (recorded_hash receipt "request.forwarded");
      try done. case_bool_decide; [done|]. unfold info. rewrite count_push. simpl. lia. }
  clear t5. unfold settles in *. split; [lia|]. split.
  - intros Hc. split; intuition lia.
  - intros []. intuition lia.
Qed.

(** With both body digests supplied, the receipt checks end without a
    failure exactly when the signature verifies under the attested key the
    receipt names, the receipt carries the established keyset digest and was
    served before that keyset expired, and it records the hashes of the bytes
    sent and received. *)
Theorem receipt_checks_clean_iff receipt identity rq rs :
  count (run_receipt_checks transcript_default receipt identity (Some rq) (Some rs)) Fail = 0 <->
  receipt_checks_hold receipt identity rq rs.
Proof. apply (run_receipt_checks_fails transcript_default receipt identity rq rs). Qed.

(** *** The checks do not see the member order *)
Lemma events_proper d1 d2 : same_doc d1 d2 -> Forall2 same_doc (events d1) (events d2).
Proof.
  intros Hs. unfold events. destruct (get_proper "event_log" _ _ Hs) as [w1 w2 Hw|]; simpl; [|constructor].
  by destruct (same_doc_as_array _ _ Hw).
Qed.
Lemma recorded_hash_proper d1 d2 ty : same_doc d1 d2 -> recorded_hash d1 ty = recorded_hash d2 ty.
Proof.
  intros Hs%events_proper. unfold recorded_hash, event_by_type.
  assert (Hp : forall x y, same_doc x y ->
    bool_decide (get_str "type" x = Some ty) = bool_decide (get_str "type" y = Some ty))
    by (intros x y Hxy; by rewrite (get_str_proper "type" _ _ Hxy)).
  destruct (find_Forall2 same_doc _ _ _ Hp Hs) as [w1 w2 Hw|]; [by apply get_str_proper|done].
Qed.

(** The hash the builder recorded first for an event type. *)
Definition builder_hash (b : ReceiptBuilder) (ty : string) : option string :=
  e ← List.find (fun e => bool_decide (re_event_type e = ty)) (rcb_events b);
  obj_get "body_hash" (re_fields e) ≫= as_str.

Lemma recorded_hash_signed b kid sig ty :
  builder_ok b -> recorded_hash (signed_document b kid sig) ty = builder_hash b ty.
Proof.
  intros [_ Hok]. unfold recorded_hash, event_by_type, builder_hash.
  change (events (signed_document b kid sig)) with (List.map receipt_event_to_value (rcb_events b)).
  induction Hok as [|e es He _ IH]; [done|]. cbn [List.map List.find].
  rewrite receipt_event_to_value_cons by done.
  change (get_str "type" (JObject (("type", JString (re_event_type e)) :: re_fields e)))
    with (Some (re_event_type e)).
  destruct (decide (re_event_type e = ty)) as [<-|Hne].
  - rewrite !bool_decide_eq_true_2 by done. done.
  - rewrite !bool_decide_eq_false_2 by congruence. exact IH.
Qed.

(** [t'] extends [t] by checks other than id-1. *)
Definition adds (t t' : Transcript) : Prop :=
  exists l, tr_checks t' = tr_checks t ++ l /\ l ≠ [] /\
    Forall (fun c => cd_id (ck_def c) ≠ "id-1") l.
Lemma adds_push t def st detail why : cd_id def ≠ "id-1" -> adds t (push t def st detail why).
Proof. intros Hd. eexists. split; [done|]. split; [done|]. by apply Forall_singleton. Qed.
Lemma adds_trans t1 t2 t3 : adds t1 t2 -> adds t2 t3 -> adds t1 t3.
Proof.
  intros (l1 & H1 & Hn & HF1) (l2 & H2 & _ & HF2). exists (l1 ++ l2). rewrite H2, H1, <- app_assoc.
  split; [done|]. split; [by destruct l1|]. by apply Forall_app.
Qed.
Lemma check_signature_adds t receipt ks : adds t (check_signature t receipt ks).
Proof.
  unfold check_signature. repeat (case_match; try by apply adds_push).
Qed.
Lemma check_body_hash_adds t def what receipt ty d :
  cd_id def ≠ "id-1" -> adds t (check_body_hash t def what receipt ty d).
Proof. intros Hd. unfold check_body_hash. repeat (case_match; try by apply adds_push). Qed.
Lemma run_receipt_checks_adds t receipt identity rq rs : adds t (run_receipt_checks t receipt identity rq rs).
Proof.
  unfold run_receipt_checks. cbv zeta.
  set (t1 := check_signature t _ _). set (t2 := if _ && _ then _ else _).
  set (t3 := check_body_hash t2 _ _ _ _ _). set (t4 := check_body_hash t3 _ _ _ _ _).
  assert (adds t t4) as H4.
  { apply (adds_trans _ t1); [apply check_signature_adds|].
    apply (adds_trans _ t2); [unfold t2; destruct (_ && _); by apply adds_push|].
    apply (adds_trans _ t3); by apply check_body_hash_adds. }
  destruct (recorded_hash receipt "request.received"), (recorded_hash receipt "request.forwarded");
    try exact H4.
  clearbody t4. case_bool_decide; [exact H4|]. apply (adds_trans _ t4); [exact H4|by apply adds_push].
Qed.

Lemma verified_default t :
  adds transcript_default t -> verified t = (count t Fail =? 0).
Proof.
  intros (l & Hl & Hn & HF). unfold verified, no_fails, root_of_trust_ok. simpl in Hl. rewrite Hl.
  rewrite bool_decide_eq_false_2 by done. simpl.
  assert (List.find (fun c => bool_decide (cd_id (ck_def c) = "id-1")) l = None) as ->.
  { clear Hl Hn. induction HF as [|c l Hc _ IH]; simpl; [done|]. by rewrite bool_decide_eq_false_2. }
  apply andb_true_r.
Qed.

(** C21: a client accepts what the gateway signs.  The document of a finalized
    receipt, parsed from the served bytes, passes the version gate and every
    receipt check of a client that established the gateway's keyset and holds
    the request and response bytes whose hashes the builder recorded. *)
Theorem finalized_receipt_passes_checks {KP : KeyProvider} {LS : LawfulSigner} b kid r identity request response :
  builder_ok b -> is_u64 (rcb_served_at b) ->
  (forall sig, json_depth (signed_document b kid sig) <= 127) ->
  finalize b kid = Ok r ->
  ks_receipt_signing_keys (ei_keyset identity) = receipt_keys ->
  ei_keyset_digest identity = rcb_workload_keyset_digest b ->
  (rcb_served_at b < ks_not_after (ei_keyset identity))%Z ->
  builder_hash b EVENT_REQUEST_RECEIVED = Some (sha256_hex request) ->
  builder_hash b EVENT_RESPONSE_RETURNED = Some (sha256_hex response) ->
  exists doc, document_json r = Ok doc /\ parse_receipt_document doc = Ok doc /\
    verified (run_receipt_checks transcript_default doc identity
      (Some (body_digest_of request)) (Some (body_digest_of response))) = true.
Proof.
  intros Hb Hu Hdepth Hf Hkeys Hdig Hlive Hrq Hrs.
  destruct (finalized_document b kid r) as (key & sig & doc & Hkey & Hdoc & Hsame & Hacc); [done..|].
  exists doc. split; [done|].
  assert (Hget : forall k, get_str k doc = get_str k (signed_document b kid sig))
    by (intros k; by rewrite Hsame).
  split; [unfold parse_receipt_document; rewrite Hget; rewrite bool_decide_eq_false_2; [done|by intros []]|].
  rewrite verified_default by apply run_receipt_checks_adds. apply Nat.eqb_eq.
  apply (run_receipt_checks_fails transcript_default doc identity _ _). split.
  - exists kid, key. rewrite Hget, Hkeys. done.
  - by rewrite Hget, Hdig.
  - exists (rcb_served_at b). split; [|done].
    by rewrite <- (get_u64_proper "served_at" _ _ Hsame).
  - rewrite <- (recorded_hash_proper _ _ _ Hsame), recorded_hash_signed by done. exact Hrq.
  - rewrite <- (recorded_hash_proper _ _ _ Hsame), recorded_hash_signed by done. exact Hrs.
Qed.

(** ** Session records *)
(** An intact record of a session id, as of a time. *)
Record intact_record (b : bytes) (id : string) (at_ : option Z) (record : value) : Prop := {
  ir_parsed : from_slice b = Ok record;
  ir_version : get_str "api_version" record = Some "aci/1";
  ir_id : exists c, jcs_bytes record = Ok c /\ id = hex_encode (sha256 c);
  ir_window : exists t from until, at_ = Some t /\ get "established_at" record ≫= as_u64 = Some from /\
    get "expires_at" record ≫= as_u64 = Some until /\ (from <= t < until)%Z;
  ir_evidence : exists digest uri scheme b64 data,
    get "evidence" record ≫= get_str "digest" = Some digest /\
    get "evidence" record ≫= get_str "data" = Some uri /\
    split_once ";base64," uri = Some (scheme, b64) /\ b64_decode b64 = Some data /\
    sha256_hex data = digest;
}.

Lemma evidence_check_ok evidence :
  evidence_check evidence = Ok () <->
  exists digest uri scheme b64 data,
    evidence ≫= get_str "digest" = Some digest /\ evidence ≫= get_str "data" = Some uri /\
    split_once ";base64," uri = Some (scheme, b64) /\ b64_decode b64 = Some data /\
    sha256_hex data = digest.
Proof.
  unfold evidence_check. destruct (evidence ≫= get_str "digest") as [digest|]; [|naive_solver].
  destruct (evidence ≫= get_str "data") as [uri|]; [|naive_solver].
  destruct (split_once ";base64," uri) as [[scheme b64]|] eqn:Hs; [|naive_solver].
  destruct (b64_decode b64) as [data|] eqn:Hd; cbn [ok_or mbind result_bind]; [|naive_solver].
  case_bool_decide; [|naive_solver]. split; [|done]. intros _. by exists digest, uri, scheme, b64, data.
Qed.

Lemma audit_intact b id at_ record :
  (exists a, audit_session_record b id at_ = Ok a /\ sa_record a = record /\ integrity_ok a = true) <->
  intact_record b id at_ record.
Proof.
  unfold audit_session_record, integrity_ok, sha256_raw. split.
  - intros (a & H & Hr & Hi). bind_inv H. injection H as <-. simpl in *. subst.
    rewrite !andb_true_iff, !bool_decide_eq_true in Hi. destruct Hi as (((Hv & Hid) & Hw) & He).
    destruct (jcs_bytes record) as [c|] eqn:Hc; simplify_eq/=.
    split; [done..|by exists c| |].
    + destruct at_ as [t|]; [|done]. destruct (get "established_at" record ≫= as_u64) as [f|]; [|done].
      destruct (get "expires_at" record ≫= as_u64) as [u|]; [|done]. exists t, f, u. repeat split; lia.
    + apply evidence_check_ok. by destruct (evidence_check _) as [[]|].
  - intros [Hp Hv (c & Hc & ->) (t & f & u & -> & Hf & Hu & Hw) He]. rewrite Hp. cbn [map_err mbind result_bind].
    rewrite Hc. cbn [fmap result_fmap map_err mbind result_bind]. eexists. split; [done|]. simpl.
    split; [done|]. rewrite !bool_decide_eq_true_2 by done. rewrite Hf, Hu.
    apply evidence_check_ok in He. rewrite He. simpl. lia.
Qed.

(** One session id stands for one record: two byte strings whose audits
    under the same id find them intact, at whatever times, hold the same
    document, or their canonical forms collide under SHA-256. *)
Theorem session_id_binds_record b1 b2 id at1 at2 a1 a2 :
  audit_session_record b1 id at1 = Ok a1 -> integrity_ok a1 = true ->
  audit_session_record b2 id at2 = Ok a2 -> integrity_ok a2 = true ->
  same_doc (sa_record a1) (sa_record a2) \/
  exists c1 c2, jcs_bytes (sa_record a1) = Ok c1 /\ jcs_bytes (sa_record a2) = Ok c2 /\ collide sha256 c1 c2.
Proof.
  intros H1 Hi1 H2 Hi2.
  assert (intact_record b1 id at1 (sa_record a1)) as [Hp1 _ (c1 & Hc1 & ->) _ _]
    by (apply audit_intact; eauto).
  assert (intact_record b2 (hex_encode (sha256 c1)) at2 (sa_record a2)) as [Hp2 _ (c2 & Hc2 & Hid) _ _]
    by (apply audit_intact; eauto).
  apply (inj hex_encode), (collide_or_eq sha256) in Hid as [<-|?]; [left|right; eauto].
  eapply jcs_same_doc; eauto using from_slice_wf, from_slice_depth.
Qed.

(** ** The upstream checks *)
Definition is_upstream_event (event : value) : bool :=
  bool_decide (get_str "type" event = Some "upstream.verified").
Definition first_verified (payload : value) : option value :=
  List.find is_verified_upstream (events payload).

Lemma find_filter {A} (p q : A -> bool) l :
  List.find q (List.filter p l) = List.find (fun x => p x && q x) l.
Proof.
  induction l as [|x l IH]; simpl; [done|]. destruct (p x); simpl; [|done]. by destruct (q x).
Qed.
Lemma session_id_of_first payload event s :
  first_verified payload = Some event -> get_str "session_id" event = Some s ->
  session_id_from_receipt payload = Some s.
Proof.
  unfold first_verified, session_id_from_receipt.
  induction (events payload) as [|e es IH]; simpl; [done|].
  destruct (is_verified_upstream e); [|done]. intros [= ->] Hs. simpl. by rewrite Hs.
Qed.

Lemma count_pass t d x : count (pass t d x) Fail = count t Fail.
Proof. unfold pass. rewrite count_push. simpl. lia. Qed.
Lemma count_fail t d x : count (fail_ t d x) Fail = S (count t Fail).
Proof. unfold fail_. rewrite count_push. simpl. lia. Qed.
Lemma count_skip t d x y : count (skip t d x y) Fail = count t Fail.
Proof. unfold skip. rewrite count_push. simpl. lia. Qed.
Lemma count_info t d x : count (info t d x) Fail = count t Fail.
Proof. unfold info. rewrite count_push. simpl. lia. Qed.

(** upstream-1 under a policy that requires verified serving. *)
Definition upstream_event_accepted (payload : value) (serving : string) : Prop :=
  (serving = "direct" /\ List.filter is_upstream_event (events payload) = []) \/
  exists event s, first_verified payload = Some event /\ get "required" event ≫= as_bool = Some true /\
    get_str "session_id" event = Some s.

Lemma check_upstream_event_fails t payload serving req :
  count t Fail <= count (check_upstream_event t payload serving req) Fail /\
  (req = true -> count (check_upstream_event t payload serving req) Fail = count t Fail ->
   upstream_event_accepted payload serving).
Proof.
  unfold check_upstream_event, upstream_event_accepted. fold is_upstream_event. cbv zeta.
  rewrite find_filter. fold is_verified_upstream. change (List.find _ (events payload)) with (first_verified payload).
  destruct (bool_decide (List.filter is_upstream_event (events payload) = [])) eqn:He; cbn [andb].
  - apply bool_decide_eq_true in He. case_bool_decide; rewrite ?count_pass, ?count_fail; [|lia].
    split; [lia|]. intros _ _. by left.
  - destruct (first_verified payload) as [event|].
    + destruct (req && bool_decide (get "required" event ≫= as_bool ≠ Some true)) eqn:Hr;
        [rewrite count_fail; lia|].
      destruct (get_str "session_id" event) as [s|] eqn:Hs; [|rewrite count_fail; lia].
      rewrite count_pass. split; [lia|]. intros -> _. right. exists event, s. split; [done|]. split; [|done].
      apply bool_decide_eq_false in Hr. by apply dec_stable in Hr.
    + destruct req; rewrite ?count_fail, ?count_info; [lia|done].
Qed.

(** upstream-2 when the receipt cites a session. *)
Definition session_accepted (payload : value) (cx : UpstreamContext) (s : string) : Prop :=
  (forall pinned, uc_pinned cx = Some pinned -> s ∈ pinned) /\
  exists b record, uc_session_bytes cx = Some b /\
    intact_record b s (get "served_at" payload ≫= as_u64) record /\
    unmet_claims record (uc_required_claims cx) = [].

Lemma check_session_audit_fails t payload cx s :
  session_id_from_receipt payload = Some s -> uc_requires_verified cx = true ->
  count t Fail <= count (check_session_audit t payload cx) Fail /\
  (count (check_session_audit t payload cx) Fail = count t Fail -> session_accepted payload cx s).
Proof.
  intros Hs Hreq. unfold check_session_audit, session_accepted, no_record, audit_record. cbv zeta. rewrite Hs, Hreq.
  set (body := match uc_session_bytes cx with Some _ => _ | None => _ end).
  assert (count t Fail <= count body Fail /\ (count body Fail = count t Fail ->
    exists b record, uc_session_bytes cx = Some b /\
      intact_record b s (get "served_at" payload ≫= as_u64) record /\
      unmet_claims record (uc_required_claims cx) = [])) as Hbody.
  { unfold body. destruct (uc_session_bytes cx) as [b|].
    - destruct (audit_session_record b s _) as [a|] eqn:Ha; [|rewrite count_fail; lia].
      destruct (integrity_ok a) eqn:Hi; cbn [andb]; [|rewrite count_fail; lia].
      case_bool_decide as Hu; [|rewrite count_fail; lia]. rewrite count_pass. split; [lia|].
      intros _. exists b, (sa_record a). split; [done|]. split; [|done]. apply audit_intact. eauto.
    - destruct (negb _); [rewrite count_fail; lia|]. cbn [andb].
      rewrite bool_decide_eq_true_2 by done. rewrite count_fail. lia. }
  clearbody body. destruct (uc_pinned cx) as [pinned|]; [|naive_solver].
  case_bool_decide; [naive_solver|]. rewrite count_fail. lia.
Qed.

Lemma check_session_audit_mono t payload cx :
  count t Fail <= count (check_session_audit t payload cx) Fail.
Proof.
  unfold check_session_audit, no_record, audit_record.
  repeat case_match; rewrite ?count_pass, ?count_fail, ?count_skip; lia.
Qed.

(** C6: the verdict fails closed.  When a client that requires verified serving
    reaches VERIFIED on a response, the receipt checks hold and either the
    attested workload serves directly, or the receipt's verified upstream event
    is marked required and cites a session that the client pinned (if it pinned
    any), whose record is intact and meets every required claim. *)
Theorem verified_response_is_backed receipt identity rq rs cx :
  uc_requires_verified cx = true ->
  verified (run_response_checks transcript_default receipt identity (Some rq) (Some rs) cx) = true ->
  receipt_checks_hold receipt identity rq rs /\
  ((uc_serving cx = "direct" /\ List.filter is_upstream_event (events receipt) = []) \/
   exists event s, first_verified receipt = Some event /\
     get "required" event ≫= as_bool = Some true /\ get_str "session_id" event = Some s /\
     session_accepted receipt cx s).
Proof.
  intros Hreq Hv. unfold verified, no_fails in Hv. rewrite !andb_true_iff in Hv.
  destruct Hv as [[_ Hc%Nat.eqb_eq] _]. unfold run_response_checks, run_upstream_checks in Hc.
  destruct (run_receipt_checks_fails transcript_default receipt identity rq rs) as [Hle1 Hiff].
  set (t1 := run_receipt_checks _ _ _ _ _) in *.
  destruct (check_upstream_event_fails t1 receipt (uc_serving cx) (uc_requires_verified cx)) as [Hle2 Hup].
  set (t2 := check_upstream_event _ _ _ _) in *.
  pose proof (check_session_audit_mono t2 receipt cx) as Hle3. change (count transcript_default Fail) with 0 in *.
  split; [apply Hiff; lia|]. destruct Hup as [?|(event & s & Hev & Hrq & Hs)]; [done|lia|by left|].
  right. exists event, s. repeat (split; [done|]).
  destruct (check_session_audit_fails t2 receipt cx s) as [_ Hacc]; [by eapply session_id_of_first|done|].
  apply Hacc. lia.
Qed.

End Checks.

(** *** Witnesses *)
#[local] Existing Instances sample_sha sample_hex sample_base64 sample_json
  sample_keys sample_ed25519 sample_signer.
#[local] Instance sample_value_debug : ValueDebug := {| value_debug _ := "value" |}.

Definition sample_identity : EstablishedIdentity :=
  mkEstablishedIdentity (mkWorkloadKeyset None 100 [sample_receipt_key] [] []) sample_digest_text.

Lemma finalized_receipt_passes_checks_witness : exists r doc,
  finalize sample_builder "r1" = Ok r /\ document_json r = Ok doc /\
  verified (run_receipt_checks transcript_default doc sample_identity
    (Some (body_digest_of (as_bytes "a"))) (Some (body_digest_of (as_bytes "b")))) = true.
Proof.
  assert (Hok : is_ok (finalize sample_builder "r1") = true) by (vm_compute; reflexivity).
  destruct (finalize sample_builder "r1") as [r|] eqn:Hr; [|discriminate Hok].
  destruct (finalized_receipt_passes_checks sample_builder "r1" r sample_identity
    (as_bytes "a") (as_bytes "b")) as (doc & Hd & _ & Hv).
  - exact sample_builder_ok.
  - done.
  - intros sig. vm_compute. lia.
  - exact Hr.
  - reflexivity.
  - reflexivity.
  - done.
  - vm_compute. reflexivity.
  - vm_compute. reflexivity.
  - exists r, doc. split; [reflexivity|]. split; [exact Hd|exact Hv].
Defined.

Definition sample_evidence : value :=
  JObject [("digest", JString (sha256_hex (as_bytes "e"))); ("data", JString "data:x;base64,e")].
Definition sample_record : value :=
  JObject [("api_version", JString "aci/1"); ("established_at", JNumber (PosInt 5));
    ("expires_at", JNumber (PosInt 9)); ("evidence", sample_evidence)].
Definition sample_record_bytes : bytes := to_vec sample_record.
Definition sample_record_id : string :=
  default EmptyString (result_ok (sha256_bare_hex <$> jcs_bytes sample_record)).

Definition sample_audit_ok (at_ : Z) : bool :=
  match audit_session_record sample_record_bytes sample_record_id (Some at_) with
  | Ok a => integrity_ok a
  | Err _ => false
  end.
Lemma session_id_binds_record_witness : exists a1 a2,
  audit_session_record sample_record_bytes sample_record_id (Some 5%Z) = Ok a1 /\
  audit_session_record sample_record_bytes sample_record_id (Some 8%Z) = Ok a2 /\
  (same_doc (sa_record a1) (sa_record a2) \/
   exists c1 c2, jcs_bytes (sa_record a1) = Ok c1 /\ jcs_bytes (sa_record a2) = Ok c2 /\ collide sha256 c1 c2).
Proof.
  assert (Hk1 : sample_audit_ok 5 = true) by (vm_compute; reflexivity).
  assert (Hk2 : sample_audit_ok 8 = true) by (vm_compute; reflexivity).
  unfold sample_audit_ok in *.
  destruct (audit_session_record sample_record_bytes sample_record_id (Some 5%Z)) as [a1|] eqn:H1;
    [|discriminate Hk1].
  destruct (audit_session_record sample_record_bytes sample_record_id (Some 8%Z)) as [a2|] eqn:H2;
    [|discriminate Hk2].
  exists a1, a2. split; [reflexivity|]. split; [reflexivity|].
  exact (session_id_binds_record sample_record_bytes sample_record_bytes sample_record_id
    (Some 5%Z) (Some 8%Z) a1 a2 H1 Hk1 H2 Hk2).
Defined.

Definition sample_served_builder : ReceiptBuilder :=
  with_events sample_builder0
    [hash_event EVENT_REQUEST_RECEIVED (as_bytes "a");
     mkReceiptEvent EVENT_UPSTREAM_VERIFIED
       [("result", JString "verified"); ("required", JBool true); ("model_id", JString "m");
        ("session_id", JString sample_record_id)];
     hash_event EVENT_REQUEST_FORWARDED (as_bytes "a");
     hash_event EVENT_RESPONSE_RETURNED (as_bytes "b")].
Definition sample_served_doc : value :=
  match finalize sample_served_builder "r1" with
  | Ok r => match document_json r with Ok doc => doc | Err _ => JNull end
  | Err _ => JNull
  end.
Definition sample_context : UpstreamContext :=
  mkUpstreamContext (Some sample_record_bytes) "-" (Some [sample_record_id]) true "aggregator" [].

Lemma verified_response_is_backed_witness : exists event s,
  first_verified sample_served_doc = Some event /\ get_str "session_id" event = Some s /\
  session_accepted sample_served_doc sample_context s.
Proof.
  destruct (verified_response_is_backed sample_served_doc sample_identity
    (body_digest_of (as_bytes "a")) (body_digest_of (as_bytes "b")) sample_context)
    as (_ & [[Hd _]|(event & s & He & _ & Hs & Hacc)]).
  - reflexivity.
  - vm_compute. reflexivity.
  - discriminate Hd.
  - exists event, s. split; [exact He|]. split; [exact Hs|exact Hacc].
Defined.
