(* ===== verification/Session.v ===== *)
(** * Attested sessions (src/aggregator/session.rs)

    The typed claims, the evidence reference and the content-addressed session
    document with its serialization, sealing and adoption.  The theorems show
    that an evidence bundle and its data URI determine each other, that a served
    session can be adopted and checked by anyone, and that it passes the audit of
    the relying party. *)
From S2P Require Import Prelude Json External Sample Digest Identity Receipt RelyingParty.

Definition SESSION_API_VERSION : string := "aci/1".

Inductive ClaimStatus : Type := Asserted | Refuted | Unknown.
Inductive ClaimSource : Type := HardwareProven | VerifierDerived | ProviderAsserted | OperatorAsserted.
#[global] Instance ClaimStatus_eq_dec : EqDecision ClaimStatus.
Proof. solve_decision. Defined.
#[global] Instance ClaimSource_eq_dec : EqDecision ClaimSource.
Proof. solve_decision. Defined.

Record Claim := mkClaim {
  cl_status : ClaimStatus;
  cl_source : option ClaimSource;
  cl_reason : option string;
}.
Definition claim_unknown : Claim := mkClaim Unknown None None.
Definition claim_asserted (source : ClaimSource) (reason : string) : Claim :=
  mkClaim Asserted (Some source) (Some reason).
Definition claim_refuted (source : ClaimSource) (reason : string) : Claim :=
  mkClaim Refuted (Some source) (Some reason).

(** [extra] is a [BTreeMap]: its members in key order. *)
Record SessionClaims := mkSessionClaims {
  sc_tee_attested : Claim;
  sc_gpu_attested : Claim;
  sc_tcb_up_to_date : Claim;
  sc_os_known_good : Claim;
  sc_serving_software_known_good : Claim;
  sc_model_weights_provenance : Claim;
  sc_extra : list (string * value);
}.
Definition claims_default : SessionClaims :=
  mkSessionClaims claim_unknown claim_unknown claim_unknown claim_unknown claim_unknown claim_unknown [].

Record EvidenceRef := mkEvidenceRef {
  er_digest : option string;
  er_data_uri : option string;
}.
#[global] Instance EvidenceRef_eq_dec : EqDecision EvidenceRef.
Proof. solve_decision. Defined.

Definition evidence_from_value (v : value) : EvidenceRef :=
  mkEvidenceRef (get_str "digest" v) (get_str "data" v).

Record WorkloadIdentityRef := mkWorkloadIdentityRef {
  wi_signing_address : option string;
  wi_extra : list (string * value);
}.
Definition workload_identity_is_empty (w : WorkloadIdentityRef) : bool :=
  bool_decide (wi_signing_address w = None) && bool_decide (wi_extra w = []).

Record SessionDocument := mkSessionDocument {
  sd_api_version : string;
  sd_upstream_name : string;
  sd_endpoint : option string;
  sd_verifier_id : string;
  sd_established_at : Z;
  sd_expires_at : Z;
  sd_identity : option WorkloadIdentityRef;
  sd_channel_binding : list ChannelBinding;
  sd_claims : SessionClaims;
  sd_evidence : EvidenceRef;
}.

(** ** Serialization *)
(** [skip_serializing_if = "Option::is_none"]. *)
Definition opt_member (k : string) (o : option value) : list (string * value) :=
  match o with Some v => [(k, v)] | None => [] end.
Definition claim_status_str (s : ClaimStatus) : string :=
  match s with Asserted => "asserted" | Refuted => "refuted" | Unknown => "unknown" end.
Definition claim_source_str (s : ClaimSource) : string :=
  match s with
  | HardwareProven => "hardware_proven"
  | VerifierDerived => "verifier_derived"
  | ProviderAsserted => "provider_asserted"
  | OperatorAsserted => "operator_asserted"
  end.
Definition claim_to_value (c : Claim) : value :=
  JObject (("status", JString (claim_status_str (cl_status c))) ::
    opt_member "source" (JString ∘ claim_source_str <$> cl_source c) ++
    opt_member "reason" (JString <$> cl_reason c)).
(** [skip_serializing_if = "BTreeMap::is_empty"]. *)
Definition extra_member (m : list (string * value)) : list (string * value) :=
  if bool_decide (m = []) then [] else [("extra", JObject m)].
Definition claims_to_value (c : SessionClaims) : value :=
  JObject ([("tee_attested", claim_to_value (sc_tee_attested c));
    ("gpu_attested", claim_to_value (sc_gpu_attested c));
    ("tcb_up_to_date", claim_to_value (sc_tcb_up_to_date c));
    ("os_known_good", claim_to_value (sc_os_known_good c));
    ("serving_software_known_good", claim_to_value (sc_serving_software_known_good c));
    ("model_weights_provenance", claim_to_value (sc_model_weights_provenance c))] ++
    extra_member (sc_extra c)).
Definition evidence_to_value (e : EvidenceRef) : value :=
  JObject (opt_member "digest" (JString <$> er_digest e) ++ opt_member "data" (JString <$> er_data_uri e)).
Definition workload_identity_to_value (w : WorkloadIdentityRef) : value :=
  JObject (opt_member "signing_address" (JString <$> wi_signing_address w) ++ extra_member (wi_extra w)).
Definition channel_binding_to_value (b : ChannelBinding) : value :=
  match b with
  | TlsSpkiSha256 origin spki =>
      JObject [("type", JString "tls_spki_sha256"); ("origin", JString origin); ("spki_sha256", JString spki)]
  | E2eePublicKeySha256 provider key_id algorithm pk =>
      JObject ([("type", JString "e2ee_public_key_sha256"); ("provider", JString provider)] ++
        opt_member "key_id" (JString <$> key_id) ++
        [("algorithm", JString algorithm); ("public_key_sha256", JString pk)])
  | ProxyImageSha256 provider image credential =>
      JObject [("type", JString "proxy_image_sha256"); ("provider", JString provider);
        ("proxy_image_digest", JString image); ("credential_sha256", JString credential)]
  end.
Definition document_to_value (d : SessionDocument) : value :=
  JObject ([("api_version", JString (sd_api_version d));
    ("upstream_name", JString (sd_upstream_name d));
    ("endpoint", opt_string_to_value (sd_endpoint d));
    ("verifier_id", JString (sd_verifier_id d));
    ("established_at", JNumber (PosInt (sd_established_at d)));
    ("expires_at", JNumber (PosInt (sd_expires_at d)))] ++
    opt_member "identity" (workload_identity_to_value <$> sd_identity d) ++
    [("channel_binding", JArray (channel_binding_to_value <$> sd_channel_binding d));
     ("claims", claims_to_value (sd_claims d));
     ("evidence", evidence_to_value (sd_evidence d))]).

Record AttestedSession := mkAttestedSession {
  as_session_id : string;
  as_bytes_ : bytes;
  as_document : SessionDocument;
}.

(** The generated parser of the document. *)
Class SessionSerde := { document_from_value : value -> result string SessionDocument }.

Inductive SessionError : Type :=
| SessionSerdeError (text : string)
| SessionJcs (e : JcsError).

Section Session.
Context {SH : Sha} {HX : HexCodec} {B64 : Base64} {SJ : SerdeJson} {SS : SessionSerde}.

Definition digest_matches_data (e : EvidenceRef) : bool :=
  match er_digest e, er_data_uri e with
  | Some digest, Some data_uri =>
      match split_once ";base64," data_uri with
      | None => true
      | Some (_, b64) =>
          match b64_decode b64 with
          | Some bytes => bool_decide (sha256_hex bytes = digest)
          | None => false
          end
      end
  | _, _ => true
  end.

Definition evidence_decode (e : EvidenceRef) : option (string * bytes) :=
  digest ← er_digest e;
  data_uri ← er_data_uri e;
  rest ← strip_prefix "data:" data_uri;
  '(content_type, b64) ← split_once ";base64," rest;
  bytes ← b64_decode b64;
  if bool_decide (sha256_hex bytes ≠ digest) then None else Some (content_type, bytes).

Definition evidence_from_bytes (content_type : string) (b : bytes) : EvidenceRef :=
  mkEvidenceRef (Some (sha256_hex b)) (Some ("data:" +:+ content_type +:+ ";base64," +:+ b64_encode b)).

Definition session_seal (document : SessionDocument) : result SessionError AttestedSession :=
  bytes ← map_err SessionJcs (jcs_bytes (document_to_value document));
  let session_id := sha256_bare_hex bytes in
  Ok (mkAttestedSession session_id bytes document).

Definition session_from_bytes (b : bytes) : result SessionError AttestedSession :=
  v ← map_err SessionSerdeError (from_slice b);
  document ← map_err SessionSerdeError (document_from_value v);
  canonical ← map_err SessionJcs (jcs_bytes v);
  Ok (mkAttestedSession (sha256_bare_hex canonical) b document).

(** ** Evidence *)
Lemma split_once_bytes_hit p l r : strip_bytes p l = Some r -> split_once_bytes p l = Some ([], r).
Proof. intros H. by destruct l; cbn [split_once_bytes]; rewrite H. Qed.
Lemma split_once_bytes_first p0 p ct r :
  p0 = p ++ [u8 44] -> u8 44 ∉ p -> u8 44 ∉ ct ->
  split_once_bytes p0 (ct ++ p0 ++ r) = Some (ct, r).
Proof.
  intros -> Hp Hct.
  assert (Hno : forall l s, strip_bytes (p ++ [u8 44]) l = Some s -> l = (p ++ [u8 44]) ++ s)
    by (intros l s; apply strip_bytes_spec).
  induction ct as [|c ct IH]; cbn [app].
  - by apply split_once_bytes_hit, strip_bytes_spec.
  - apply not_elem_of_cons in Hct as [Hc Hct]. cbn [split_once_bytes].
    destruct (strip_bytes (p ++ [u8 44]) (c :: ct ++ (p ++ [u8 44]) ++ r)) as [s|] eqn:Hs.
    + apply Hno in Hs. exfalso. clear IH Hno.
      assert (length p < length (c :: ct ++ p)) as Hlen by (simpl; rewrite length_app; lia).
      assert ((p ++ [u8 44]) ++ s = (c :: ct ++ p) ++ [u8 44] ++ r) as Heq
        by (rewrite <- Hs; simpl; by rewrite <- !app_assoc).
      rewrite <- app_assoc in Heq.
      apply (f_equal (fun l => l !! length p)) in Heq.
      rewrite lookup_app_r, Nat.sub_diag in Heq by lia. rewrite (lookup_app_l (c :: ct ++ p)) in Heq by done.
      symmetry in Heq. apply list_elem_of_lookup_2 in Heq.
      apply elem_of_cons in Heq as [Heq|Heq]; [done|]. set_solver.
    + by rewrite IH.
Qed.

Lemma split_once_base64 ct b64 :
  u8 44 ∉ as_bytes ct -> split_once ";base64," (ct +:+ ";base64," +:+ b64) = Some (ct, b64).
Proof.
  intros Hct. unfold split_once. rewrite !as_bytes_app.
  rewrite (split_once_bytes_first _ (as_bytes ";base64")); [|done| |done].
  - simpl. by rewrite !of_bytes_as_bytes.
  - apply (bool_decide_unpack _). by vm_compute.
Qed.

Lemma evidence_decode_from_bytes ct b :
  u8 44 ∉ as_bytes ct -> evidence_decode (evidence_from_bytes ct b) = Some (ct, b).
Proof.
  intros Hct. unfold evidence_decode, evidence_from_bytes. cbn [er_digest er_data_uri mbind option_bind].
  assert (strip_prefix "data:" ("data:" +:+ ct +:+ ";base64," +:+ b64_encode b) =
    Some (ct +:+ ";base64," +:+ b64_encode b)) as -> by by apply strip_prefix_spec.
  cbn [mbind option_bind]. rewrite split_once_base64 by done. cbn [mbind option_bind].
  rewrite b64_decode_encode. cbn [mbind option_bind]. by rewrite bool_decide_eq_false_2 by naive_solver.
Qed.

Lemma evidence_decode_inv e ct b :
  evidence_decode e = Some (ct, b) -> e = evidence_from_bytes ct b.
Proof.
  destruct e as [[d|] [u|]]; try done. unfold evidence_decode. cbn [er_digest er_data_uri mbind option_bind].
  destruct (strip_prefix "data:" u) as [rest|] eqn:Hp; [|done]. cbn [mbind option_bind].
  destruct (split_once ";base64," rest) as [[ct' b64]|] eqn:Hs; [|done]. cbn [mbind option_bind].
  destruct (b64_decode b64) as [b'|] eqn:Hd; [|done]. cbn [mbind option_bind].
  case_bool_decide as Hh; [done|]. intros [= -> ->].
  apply strip_prefix_spec in Hp. apply split_once_sound in Hs. apply b64_encode_decode in Hd.
  subst. unfold evidence_from_bytes. f_equal.
Qed.

(** An evidence bundle and its reference determine each other: decoding
    inverts encoding for a content type without a comma, and whatever decodes is
    exactly the canonical reference of what it decodes to, digest included. *)
Theorem evidence_roundtrip ct b e :
  (u8 44 ∉ as_bytes ct -> evidence_decode (evidence_from_bytes ct b) = Some (ct, b)) /\
  (evidence_decode e = Some (ct, b) -> e = evidence_from_bytes ct b).
Proof. split; [apply evidence_decode_from_bytes|apply evidence_decode_inv]. Qed.

(** ** Served sessions *)
Record document_wf (d : SessionDocument) : Prop := {
  dw_established : is_u64 (sd_established_at d);
  dw_expires : is_u64 (sd_expires_at d);
  dw_claims : value_wf (JObject (sc_extra (sd_claims d)));
  dw_identity w : sd_identity d = Some w -> value_wf (JObject (wi_extra w));
}.

Lemma opt_member_wf k o : (forall v, o = Some v -> value_wf v) -> Forall (fun kv => value_wf kv.2) (opt_member k o).
Proof. destruct o; simpl; [|constructor]. intros H. apply Forall_singleton. by apply H. Qed.
Lemma opt_string_wf (o : option string) v : JString <$> o = Some v -> value_wf v.
Proof. destruct o; simpl; [|done]. intros [= <-]. constructor. Qed.
Lemma extra_member_wf m : value_wf (JObject m) -> Forall (fun kv => value_wf kv.2) (extra_member m).
Proof. intros H. unfold extra_member. case_bool_decide; [constructor|by apply Forall_singleton]. Qed.

Ltac keys_NoDup := apply (bool_decide_unpack _); vm_compute; reflexivity.

Lemma claim_to_value_wf c : value_wf (claim_to_value c).
Proof.
  destruct c as [st [so|] [r|]]; (constructor; [keys_NoDup|repeat constructor]).
Qed.
Lemma claims_to_value_wf c : value_wf (JObject (sc_extra c)) -> value_wf (claims_to_value c).
Proof.
  intros Hx. constructor.
  - unfold extra_member. case_bool_decide; keys_NoDup.
  - apply Forall_app. split; [|by apply extra_member_wf].
    repeat (apply Forall_cons; split; [apply claim_to_value_wf|]). constructor.
Qed.
Lemma evidence_to_value_wf e : value_wf (evidence_to_value e).
Proof. destruct e as [[d|] [u|]]; (constructor; [keys_NoDup|repeat constructor]). Qed.
Lemma workload_identity_wf w : value_wf (JObject (wi_extra w)) -> value_wf (workload_identity_to_value w).
Proof.
  intros Hx. constructor.
  - unfold extra_member. destruct (wi_signing_address w); case_bool_decide; keys_NoDup.
  - apply Forall_app. split; [apply opt_member_wf, opt_string_wf|by apply extra_member_wf].
Qed.
Lemma channel_binding_wf b : value_wf (channel_binding_to_value b).
Proof. destruct b as [|? []|]; (constructor; [keys_NoDup|repeat constructor]). Qed.

Lemma document_to_value_wf d : document_wf d -> value_wf (document_to_value d).
Proof.
  intros [He Hx Hc Hi]. unfold document_to_value. constructor.
  - destruct (sd_identity d); keys_NoDup.
  - rewrite !Forall_app. repeat split.
    + unfold opt_string_to_value. repeat constructor; simpl; try done; try apply He; try apply Hx.
      destruct (sd_endpoint d); constructor.
    + apply opt_member_wf. intros v. destruct (sd_identity d) as [w|] eqn:Hw; simpl; [|done].
      intros [= <-]. by apply workload_identity_wf, Hi.
    + apply Forall_cons. split; [|apply Forall_cons; split; [|apply Forall_singleton]]; simpl.
      * constructor. apply Forall_fmap, Forall_true. intros b. apply channel_binding_wf.
      * by apply claims_to_value_wf.
      * apply evidence_to_value_wf.
Qed.

Lemma split_once_bytes_skip p c0 x l :
  head p = Some c0 -> c0 ∉ x ->
  split_once_bytes p (x ++ l) = (fun xy => (x ++ xy.1, xy.2)) <$> split_once_bytes p l.
Proof.
  intros Hp. induction x as [|c x IH]; simpl; intros Hx.
  - destruct (split_once_bytes p l) as [[]|]; done.
  - apply not_elem_of_cons in Hx as [Hc Hx]. destruct p as [|a p]; [done|]. injection Hp as ->.
    cbn [strip_bytes]. rewrite bool_decide_eq_false_2 by done. rewrite IH by done.
    by destruct (split_once_bytes (c0 :: p) l) as [[]|].
Qed.

Lemma evidence_decode_split e ct b :
  evidence_decode e = Some (ct, b) ->
  split_once ";base64," ("data:" +:+ ct +:+ ";base64," +:+ b64_encode b) =
  Some ("data:" +:+ ct, b64_encode b).
Proof.
  intros H. apply evidence_decode_inv in H as He. subst e. unfold evidence_decode, evidence_from_bytes in H.
  cbn [er_digest er_data_uri mbind option_bind] in H.
  assert (strip_prefix "data:" ("data:" +:+ ct +:+ ";base64," +:+ b64_encode b) =
    Some (ct +:+ ";base64," +:+ b64_encode b)) as Hp by by apply strip_prefix_spec.
  rewrite Hp in H. cbn [mbind option_bind] in H.
  destruct (split_once ";base64," (ct +:+ ";base64," +:+ b64_encode b)) as [[ct' b64]|] eqn:Hs; [|done].
  cbn [mbind option_bind] in H. destruct (b64_decode b64) as [b'|] eqn:Hd; [|done].
  cbn [mbind option_bind] in H. case_bool_decide; [done|]. injection H as -> ->.
  apply b64_encode_decode in Hd. subst b64. unfold split_once in *. rewrite as_bytes_app.
  rewrite (split_once_bytes_skip _ (u8 59)); [|done|apply (bool_decide_unpack _); by vm_compute].
  destruct (split_once_bytes _ _) as [[x y]|]; [|done]. simpl in *. injection Hs as <- <-.
  reflexivity.
Qed.

Lemma document_get d k v : document_wf d -> (k, v) ∈ (match document_to_value d with JObject m => m | _ => [] end) ->
  get k (document_to_value d) = Some v.
Proof.
  intros Hwf%document_to_value_wf Hin. unfold document_to_value in *. inv Hwf. by apply obj_get_NoDup.
Qed.

(** What the gateway serves for a session id is what a relying party
    accepts: the bytes of a sealed session with decodable evidence pass the
    audit under its id at every time of its validity window. *)
Theorem sealed_session_passes_audit d s ct b t :
  document_wf d -> json_depth (document_to_value d) <= 127 ->
  sd_api_version d = SESSION_API_VERSION -> evidence_decode (sd_evidence d) = Some (ct, b) ->
  (sd_established_at d <= t < sd_expires_at d)%Z ->
  session_seal d = Ok s ->
  exists a, audit_session_record (as_bytes_ s) (as_session_id s) (Some t) = Ok a /\
    integrity_ok a = true /\ same_doc (document_to_value d) (sa_record a).
Proof.
  intros Hwf Hdepth Hv Hev Ht Hs. unfold session_seal in Hs. bind_inv Hs. injection Hs as <-.
  destruct (jcs_parse _ _ (document_to_value_wf d Hwf) Hdepth E) as (r & Hp & Hrw & Hsame).
  assert (intact_record a (sha256_bare_hex a) (Some t) r) as Hi.
  { split.
    - done.
    - rewrite <- (get_str_proper "api_version" _ _ Hsame). unfold get_str. simpl. by rewrite Hv.
    - exists a. split; [|done]. rewrite <- (jcs_bytes_proper _ _ (document_to_value_wf d Hwf) Hrw Hsame). done.
    - exists t, (sd_established_at d), (sd_expires_at d). rewrite <- !(get_u64_proper _ _ _ Hsame). done.
    - assert (forall k, get "evidence" r ≫= get_str k = get_str k (evidence_to_value (sd_evidence d))) as Hg.
      { intros k. assert (get "evidence" (document_to_value d) = Some (evidence_to_value (sd_evidence d))) as Hge.
        { apply document_get; [done|]. unfold document_to_value. rewrite !elem_of_app. right; right. set_solver. }
        pose proof (get_proper "evidence" _ _ Hsame) as Hpr. rewrite Hge in Hpr.
        inversion Hpr as [w1 w2 Hw|]; subst. simpl. by rewrite (get_str_proper k _ _ Hw). }
      rewrite !Hg. pose proof (evidence_decode_split _ _ _ Hev) as Hsplit.
      apply evidence_decode_inv in Hev. rewrite Hev.
      exists (sha256_hex b), ("data:" +:+ ct +:+ ";base64," +:+ b64_encode b), ("data:" +:+ ct), (b64_encode b), b.
      repeat split; [exact Hsplit|apply b64_decode_encode]. }
  apply audit_intact in Hi as (a' & Ha & <- & Hok). by exists a'.
Qed.

End Session.

(** *** Witnesses *)
#[local] Existing Instances sample_sha sample_hex sample_base64 sample_json.

Definition sample_session_doc (endpoint : string) (established_at expires_at : Z) : SessionDocument :=
  mkSessionDocument SESSION_API_VERSION "upstream-a" (Some endpoint) "verifier/1" established_at expires_at None
    [TlsSpkiSha256 "https://u.example" "00"] claims_default
    (evidence_from_bytes "application/json" (as_bytes "bundle")).
Lemma sample_session_doc_wf endpoint a b :
  is_u64 a -> is_u64 b -> document_wf (sample_session_doc endpoint a b).
Proof. intros Ha Hb. split; [done|done|by repeat constructor|done]. Qed.

Lemma sealed_session_passes_audit_witness : exists s a,
  session_seal (sample_session_doc "https://u.example" 5 9) = Ok s /\
  audit_session_record (as_bytes_ s) (as_session_id s) (Some 8%Z) = Ok a /\ integrity_ok a = true.
Proof.
  assert (Hok : is_ok (session_seal (sample_session_doc "https://u.example" 5 9)) = true)
    by (vm_compute; reflexivity).
  destruct (session_seal (sample_session_doc "https://u.example" 5 9)) as [s|] eqn:Hs; [|discriminate Hok].
  destruct (sealed_session_passes_audit (sample_session_doc "https://u.example" 5 9) s
    "application/json" (as_bytes "bundle") 8) as (a & Ha & Hi & _).
  - by apply sample_session_doc_wf.
  - vm_compute. lia.
  - reflexivity.
  - vm_compute. reflexivity.
  - simpl. lia.
  - exact Hs.
  - exists s, a. split; [reflexivity|]. split; [exact Ha|exact Hi].
Defined.
