(* ===== verification/SessionStore.v ===== *)
(** * The session index and the in-memory session store (src/aggregator/session_store.rs)

    The index shared by both stores: sessions by id with one copy of each evidence
    bundle, the current session of a channel, retention deadlines, and leases
    that keep a session alive while a request is in flight.  Every method runs
    under the index lock, so an execution is a sequence of whole methods and lease
    clones and drops.  The theorems show the invariant of the index, that eviction
    removes exactly the lapsed sessions nobody leases, that a lease can always be
    extended, and that a retained session is served byte for byte. *)
From S2P Require Import Prelude Json External Sample Digest Identity Receipt RelyingParty Session Deadlines.

(** The reference count of an [Arc<()>] is modelled by its identity, a number,
    and the leases that hold it. *)
Record SessionLease := mkLease {
  le_session_id : string;
  le_established_at : Z;
  le_expires_at : Z;
  le_token : nat;
}.
#[global] Instance SessionLease_eq_dec : EqDecision SessionLease.
Proof. solve_decision. Defined.

Record SplitSession := mkSplit {
  sp_session_id : string;
  sp_stripped : SessionDocument;
  sp_digest : string;
  sp_content_type : string;
  sp_bundle : bytes;
}.
Record SessionEntry := mkEntry {
  se_stripped : SessionDocument;
  se_content_type : string;
  se_fingerprint : string;
  se_retention_until : Z;
  se_token : nat;
}.
Record Bundle := mkBundle {
  bu_bytes : bytes;
  bu_citers : nat;
  bu_persisted : bool;
}.
(** [si_fresh] numbers the next [Arc::new]. *)
Record SessionIndex := mkIndex {
  si_by_id : gmap string SessionEntry;
  si_by_fingerprint : gmap string string;
  si_by_retention : deadlines;
  si_bundles : gmap string Bundle;
  si_fresh : nat;
}.
Definition index_default : SessionIndex := mkIndex ∅ ∅ ∅ ∅ 0.

Definition with_evidence (d : SessionDocument) (e : EvidenceRef) : SessionDocument :=
  mkSessionDocument (sd_api_version d) (sd_upstream_name d) (sd_endpoint d) (sd_verifier_id d)
    (sd_established_at d) (sd_expires_at d) (sd_identity d) (sd_channel_binding d) (sd_claims d) e.

(** [SessionEntry::digest]; stored sessions carry one. *)
Definition entry_digest (e : SessionEntry) : string :=
  default EmptyString (er_digest (sd_evidence (se_stripped e))).

Section Index.
Context {SH : Sha} {HX : HexCodec} {B64 : Base64} {SJ : SerdeJson} {HD : HashDomain}.

Definition split_new (session : AttestedSession) : result string SplitSession :=
  '(content_type, bundle) ←
    ok_or "attested session has no complete evidence bundle (§8.2)"
      (evidence_decode (sd_evidence (as_document session)));
  let document := as_document session in
  let stripped := with_evidence document (mkEvidenceRef (er_digest (sd_evidence document)) None) in
  Ok (mkSplit (as_session_id session) stripped
        (default EmptyString (er_digest (sd_evidence stripped))) content_type bundle).

Definition bundle_cite (digest : string) (bundle : bytes) (m : gmap string Bundle) : gmap string Bundle :=
  match m !! digest with
  | Some b => <[digest := mkBundle (bu_bytes b) (S (bu_citers b)) (bu_persisted b)]> m
  | None => <[digest := mkBundle bundle 1 false]> m
  end.
Definition bundle_uncite (digest : string) (m : gmap string Bundle) : gmap string Bundle :=
  match m !! digest with
  | Some b =>
      if bool_decide (bu_citers b - 1 = 0) then delete digest m
      else <[digest := mkBundle (bu_bytes b) (bu_citers b - 1) (bu_persisted b)]> m
  | None => m
  end.

Definition index_insert (x : SessionIndex) (fingerprint : string) (split : SplitSession)
    (retention_until : Z) : SessionIndex :=
  let retention_until := Z.max retention_until (sd_expires_at (sp_stripped split)) in
  let id := sp_session_id split in
  let prev := si_by_id x !! id in
  let retention :=
    match prev with Some e => Z.max (se_retention_until e) retention_until | None => retention_until end in
  let token := match prev with Some e => se_token e | None => si_fresh x end in
  let entry := mkEntry (sp_stripped split) (sp_content_type split) fingerprint retention token in
  mkIndex (<[id := entry]> (si_by_id x)) (<[fingerprint := id]> (si_by_fingerprint x))
    (hint_add retention id
      (match prev with
       | Some e => hint_drop id (se_retention_until e) (si_by_retention x)
       | None => si_by_retention x
       end))
    (match prev with Some _ => si_bundles x | None => bundle_cite (sp_digest split) (sp_bundle split) (si_bundles x) end)
    (match prev with Some _ => si_fresh x | None => S (si_fresh x) end).

(** One id of a popped bucket; [held] is [Arc::strong_count(token) > 1]. *)
Definition evict_one (held : nat -> bool) (deadline : Z) (x : SessionIndex) (id : string) : SessionIndex :=
  match si_by_id x !! id with
  | None => x
  | Some entry =>
      if held (se_token entry) then
        mkIndex (si_by_id x) (si_by_fingerprint x) (hint_add deadline id (si_by_retention x))
          (si_bundles x) (si_fresh x)
      else
        mkIndex (delete id (si_by_id x))
          (if bool_decide (si_by_fingerprint x !! se_fingerprint entry = Some id)
           then delete (se_fingerprint entry) (si_by_fingerprint x) else si_by_fingerprint x)
          (si_by_retention x) (bundle_uncite (entry_digest entry) (si_bundles x)) (si_fresh x)
  end.
Definition evict_bucket (held : nat -> bool) (x : SessionIndex) (deadline : Z) : SessionIndex :=
  let ids := default ∅ (si_by_retention x !! deadline) in
  let x := mkIndex (si_by_id x) (si_by_fingerprint x) (delete deadline (si_by_retention x))
             (si_bundles x) (si_fresh x) in
  foldl (evict_one held deadline) x (elements ids).
Definition evict_lapsed (held : nat -> bool) (x : SessionIndex) (now : Z) : SessionIndex :=
  foldl (evict_bucket held) x (lapsed_deadlines (si_by_retention x) now).

Definition rebuild (x : SessionIndex) (id : string) (entry : SessionEntry) : option AttestedSession :=
  bundle ← si_bundles x !! entry_digest entry;
  let document := with_evidence (se_stripped entry)
    (evidence_from_bytes (se_content_type entry) (bu_bytes bundle)) in
  session ← result_ok (session_seal document);
  if bool_decide (as_session_id session = id) then Some session else None.

Definition index_get (held : nat -> bool) (x : SessionIndex) (session_id : string) (now : Z) :
    SessionIndex * option AttestedSession :=
  let x := evict_lapsed held x now in
  (x, entry ← si_by_id x !! session_id; rebuild x session_id entry).

(** [self.by_id[id]] panics on an unknown id; every caller has just found it. *)
Definition index_lease (x : SessionIndex) (id : string) : option SessionLease :=
  entry ← si_by_id x !! id;
  Some (mkLease id (sd_established_at (se_stripped entry)) (sd_expires_at (se_stripped entry)) (se_token entry)).

Definition set_retention (e : SessionEntry) (t : Z) : SessionEntry :=
  mkEntry (se_stripped e) (se_content_type e) (se_fingerprint e) t (se_token e).

Definition index_extend (x : SessionIndex) (lease : SessionLease) (deadline : Z) :
    result string SessionIndex :=
  entry ← ok_or "session lease does not belong to this store"
    (match si_by_id x !! le_session_id lease with
     | Some e => if bool_decide (se_token e = le_token lease) then Some e else None
     | None => None
     end);
  if (se_retention_until entry <? deadline)%Z then
    Ok (mkIndex (<[le_session_id lease := set_retention entry deadline]> (si_by_id x)) (si_by_fingerprint x)
          (hint_add deadline (le_session_id lease)
             (hint_drop (le_session_id lease) (se_retention_until entry) (si_by_retention x)))
          (si_bundles x) (si_fresh x))
  else Ok x.

Definition index_current (held : nat -> bool) (x : SessionIndex) (fingerprint : string)
    (retention_until now : Z) : SessionIndex * option SessionLease :=
  let x := evict_lapsed held x now in
  match (id ← si_by_fingerprint x !! fingerprint; entry ← si_by_id x !! id; Some (id, entry)) with
  | None => (x, None)
  | Some (id, entry) =>
      if (sd_expires_at (se_stripped entry) <=? now)%Z then (x, None)
      else match index_lease x id with
      | None => (x, None)
      | Some lease =>
          (match index_extend x lease retention_until with Ok x' => x' | Err _ => x end, Some lease)
      end
  end.

Definition bundle_persisted (x : SessionIndex) (digest : string) : bool :=
  match si_bundles x !! digest with Some b => bu_persisted b | None => false end.
Definition mark_persisted (x : SessionIndex) (digest : string) : SessionIndex :=
  match si_bundles x !! digest with
  | Some b =>
      mkIndex (si_by_id x) (si_by_fingerprint x) (si_by_retention x)
        (<[digest := mkBundle (bu_bytes b) (bu_citers b) true]> (si_bundles x)) (si_fresh x)
  | None => x
  end.

(** ** [InMemorySessionStore]: the index and the leases handed out *)
Record StoreState := mkStoreState {
  ss_index : SessionIndex;
  ss_leases : list SessionLease;
}.
Definition held_by (leases : list SessionLease) (token : nat) : bool :=
  existsb (fun l => le_token l =? token) leases.

Definition get_session (s : StoreState) (session_id : string) (now : Z) : StoreState * option AttestedSession :=
  let '(x, r) := index_get (held_by (ss_leases s)) (ss_index s) session_id now in
  (mkStoreState x (ss_leases s), r).

Definition current_or_seal (s : StoreState) (fingerprint : string) (retention_until now : Z)
    (seal : unit -> result string AttestedSession) : StoreState * result string SessionLease :=
  let '(x, found) := index_current (held_by (ss_leases s)) (ss_index s) fingerprint retention_until now in
  match found with
  | Some lease => (mkStoreState x (lease :: ss_leases s), Ok lease)
  | None =>
      match (session ← seal (); split_new session) with
      | Err e => (mkStoreState x (ss_leases s), Err e)
      | Ok split =>
          let x := index_insert x fingerprint split retention_until in
          match index_lease x (sp_session_id split) with
          | None => (mkStoreState x (ss_leases s), Err "unreachable: the id was just inserted")
          | Some lease =>
              let leases := lease :: ss_leases s in
              (mkStoreState (evict_lapsed (held_by leases) x now) leases, Ok lease)
          end
      end
  end.

Definition extend_retention (s : StoreState) (lease : SessionLease) (deadline : Z) :
    StoreState * result string unit :=
  match index_extend (ss_index s) lease deadline with
  | Ok x => (mkStoreState x (ss_leases s), Ok ())
  | Err e => (s, Err e)
  end.

(** Leases are cloned and dropped by their owners at any time. *)
Definition clone_lease (s : StoreState) (lease : SessionLease) : StoreState :=
  mkStoreState (ss_index s) (lease :: ss_leases s).
Fixpoint remove_first (lease : SessionLease) (l : list SessionLease) : list SessionLease :=
  match l with
  | [] => []
  | x :: l' => if bool_decide (x = lease) then l' else x :: remove_first lease l'
  end.
Definition drop_lease (s : StoreState) (lease : SessionLease) : StoreState :=
  mkStoreState (ss_index s) (remove_first lease (ss_leases s)).

(** ** The invariant of the index *)
(** A session as [AttestedSession::seal] makes it, within the parser's limits, whose
    bytes and evidence bundle are among the strings the deployment hashes. *)
Record genuine (s : AttestedSession) : Prop := {
  ge_sealed : session_seal (as_document s) = Ok s;
  ge_wf : document_wf (as_document s);
  ge_depth : json_depth (document_to_value (as_document s)) <= 127;
  ge_hashed : hashed (as_bytes_ s);
  ge_bundle ct b : evidence_decode (sd_evidence (as_document s)) = Some (ct, b) -> hashed b;
}.

(** The entry of [id] is a sealed session without its bundle. *)
Record entry_ok (id : string) (e : SessionEntry) : Prop := mkEntryOk {
  eo_session : exists b s, genuine s /\ hashed b /\ as_session_id s = id /\
    er_digest (sd_evidence (se_stripped e)) = Some (sha256_hex b) /\
    as_document s = with_evidence (se_stripped e) (evidence_from_bytes (se_content_type e) b);
  eo_retention : (sd_expires_at (se_stripped e) <= se_retention_until e)%Z;
}.

Definition citers (m : gmap string SessionEntry) (d : string) : nat :=
  size (filter (fun ie => entry_digest ie.2 = d) m).

(** [pending] are the ids of a popped bucket that are still to be handled. *)
Record index_inv (pending : string -> Prop) (x : SessionIndex) : Prop := {
  ii_hints t id : hint_at (si_by_retention x) t id <->
    exists e, si_by_id x !! id = Some e /\ se_retention_until e = t /\ ~ pending id;
  ii_buckets : no_empty_bucket (si_by_retention x);
  ii_entry id e : si_by_id x !! id = Some e -> entry_ok id e;
  ii_citers d : (bu_citers <$> si_bundles x !! d) =
    (if bool_decide (citers (si_by_id x) d = 0) then None else Some (citers (si_by_id x) d));
  ii_bundle d b : si_bundles x !! d = Some b -> sha256_hex (bu_bytes b) = d /\ hashed (bu_bytes b);
  ii_token id1 id2 e1 e2 : si_by_id x !! id1 = Some e1 -> si_by_id x !! id2 = Some e2 ->
    se_token e1 = se_token e2 -> id1 = id2;
  ii_fresh id e : si_by_id x !! id = Some e -> se_token e < si_fresh x;
}.
Definition index_ok : SessionIndex -> Prop := index_inv (fun _ => False).

(** *** Citations *)
Lemma citers_delete m id e d :
  m !! id = Some e ->
  citers (delete id m) d = if bool_decide (entry_digest e = d) then citers m d - 1 else citers m d.
Proof.
  intros He. unfold citers. rewrite map_filter_delete, map_size_delete, map_lookup_filter, He. simpl.
  case_guard; case_bool_decide; simpl; try done; lia.
Qed.
Lemma citers_pos m id e : m !! id = Some e -> 0 < citers m (entry_digest e).
Proof.
  intros He. unfold citers. destruct (size _) eqn:Hs; [|lia]. apply map_size_empty_inv in Hs.
  assert (filter (fun ie => entry_digest ie.2 = entry_digest e) m !! id = Some e) as Hl
    by (by apply map_lookup_filter_Some).
  by rewrite Hs in Hl.
Qed.
Lemma citers_insert_new m id e d :
  m !! id = None ->
  citers (<[id := e]> m) d = if bool_decide (entry_digest e = d) then S (citers m d) else citers m d.
Proof.
  intros Hn. unfold citers. rewrite map_filter_insert. simpl. case_decide; case_bool_decide; try done.
  - rewrite map_size_insert_None; [done|]. apply map_lookup_filter_None. by left.
  - by rewrite delete_id.
Qed.
Lemma citers_insert_same m id e e' d :
  m !! id = Some e -> entry_digest e' = entry_digest e -> citers (<[id := e']> m) d = citers m d.
Proof.
  intros He Hd. rewrite <- insert_delete_eq. rewrite citers_insert_new by apply lookup_delete_eq.
  rewrite (citers_delete _ _ _ _ He), Hd. case_bool_decide; [|done]. subst d.
  pose proof (citers_pos _ _ _ He). lia.
Qed.

Lemma bundle_cite_citers m by_id id e b :
  by_id !! id = None ->
  (forall d, (bu_citers <$> m !! d) = (if bool_decide (citers by_id d = 0) then None else Some (citers by_id d))) ->
  forall d, (bu_citers <$> bundle_cite (entry_digest e) b m !! d) =
    (if bool_decide (citers (<[id := e]> by_id) d = 0) then None else Some (citers (<[id := e]> by_id) d)).
Proof.
  intros Hn Hm d. rewrite citers_insert_new by done. unfold bundle_cite. pose proof (Hm (entry_digest e)) as Hme.
  destruct (decide (entry_digest e = d)) as [<-|Hne].
  - rewrite (bool_decide_eq_true_2 (entry_digest e = entry_digest e)) by done.
    rewrite bool_decide_eq_false_2 by lia.
    destruct (m !! entry_digest e) as [bu|]; rewrite lookup_insert_eq; simpl in *.
    + destruct (bool_decide _); [done|]. injection Hme as ->. done.
    + destruct (bool_decide (citers by_id (entry_digest e) = 0)) eqn:Hz; [|done].
      apply bool_decide_eq_true in Hz. by rewrite Hz.
  - rewrite (bool_decide_eq_false_2 (entry_digest e = d)) by done.
    destruct (m !! entry_digest e); rewrite lookup_insert_ne by done; apply Hm.
Qed.
Lemma bundle_uncite_citers m by_id id e :
  by_id !! id = Some e ->
  (forall d, (bu_citers <$> m !! d) = (if bool_decide (citers by_id d = 0) then None else Some (citers by_id d))) ->
  forall d, (bu_citers <$> bundle_uncite (entry_digest e) m !! d) =
    (if bool_decide (citers (delete id by_id) d = 0) then None else Some (citers (delete id by_id) d)).
Proof.
  intros He Hm d. rewrite (citers_delete _ _ _ _ He). unfold bundle_uncite.
  pose proof (Hm (entry_digest e)) as Hme. pose proof (citers_pos _ _ _ He) as Hpos.
  rewrite bool_decide_eq_false_2 in Hme by lia.
  destruct (m !! entry_digest e) as [bu|]; simpl in Hme; [|done]. injection Hme as Hc.
  destruct (decide (entry_digest e = d)) as [<-|Hne].
  - rewrite (bool_decide_eq_true_2 (entry_digest e = entry_digest e)) by done. rewrite Hc.
    case_bool_decide as Hz; [by rewrite lookup_delete_eq|by rewrite lookup_insert_eq].
  - rewrite (bool_decide_eq_false_2 (entry_digest e = d)) by done.
    case_bool_decide; rewrite ?lookup_delete_ne, ?lookup_insert_ne by done; apply Hm.
Qed.
Lemma bundle_uncite_bytes m d0 d b :
  bundle_uncite d0 m !! d = Some b -> exists b', m !! d = Some b' /\ bu_bytes b' = bu_bytes b.
Proof.
  unfold bundle_uncite. destruct (m !! d0) as [b0|] eqn:H0; [|eauto]. case_bool_decide.
  - intros [_ Hd]%lookup_delete_Some. eauto.
  - intros [[<- <-]|[_ Hd]]%lookup_insert_Some; eauto.
Qed.
Lemma bundle_cite_bytes m d0 b0 d b :
  bundle_cite d0 b0 m !! d = Some b ->
  (exists b', m !! d = Some b' /\ bu_bytes b' = bu_bytes b) \/ (d = d0 /\ bu_bytes b = b0).
Proof.
  unfold bundle_cite. destruct (m !! d0) as [b1|] eqn:H0;
    intros [[<- <-]|[_ Hd]]%lookup_insert_Some; eauto.
Qed.

(** *** Eviction *)
Lemma evict_one_inv held deadline pending x id :
  index_inv pending x ->
  (forall e, si_by_id x !! id = Some e -> se_retention_until e = deadline /\ pending id) ->
  index_inv (fun i => pending i /\ i ≠ id) (evict_one held deadline x id).
Proof.
  intros [Hh Hb He Hc Hbu Ht Hf] Hid. unfold evict_one.
  destruct (si_by_id x !! id) as [e|] eqn:Hx.
  - destruct (Hid e eq_refl) as [Hret Hp]. destruct (held (se_token e)); split; simpl; try done.
    + intros t i. rewrite hint_at_add, Hh. split.
      * intros [(e' & He' & Hr & Hn)|[-> ->]]; [exists e'; naive_solver|exists e; naive_solver].
      * intros (e' & He' & Hr & Hn). destruct (decide (i = id)) as [->|Hne]; [right; naive_solver|].
        left. exists e'. split; [done|]. split; [done|]. naive_solver.
    + by apply no_empty_add.
    + intros t i. rewrite Hh. setoid_rewrite lookup_delete_Some. split.
      * intros (e' & He' & Hr & Hn). exists e'. naive_solver.
      * intros (e' & [Hne He'] & Hr & Hn). exists e'. naive_solver.
    + intros i e' [_ Hi]%lookup_delete_Some. by apply He.
    + by apply bundle_uncite_citers.
    + intros d b (b' & Hb' & <-)%bundle_uncite_bytes. by apply Hbu.
    + intros i1 i2 e1 e2 [_ H1]%lookup_delete_Some [_ H2]%lookup_delete_Some. by eapply Ht.
    + intros i e' [_ Hi]%lookup_delete_Some. by eapply Hf.
  - split; try done. intros t i. rewrite Hh. split.
    + intros (e' & He' & Hr & Hn). exists e'. naive_solver.
    + intros (e' & He' & Hr & Hn). exists e'. split; [done|]. split; [done|]. intros Hp. apply Hn.
      split; [done|]. intros ->. by rewrite Hx in He'.
Qed.

Lemma evict_one_by_id held deadline x id :
  si_by_id (evict_one held deadline x id) =
  filter (fun ie => ie.1 ≠ id \/ held (se_token ie.2) = true) (si_by_id x).
Proof.
  unfold evict_one. apply map_eq. intros i. rewrite map_lookup_filter.
  destruct (si_by_id x !! id) as [e|] eqn:Hx.
  - destruct (held (se_token e)) eqn:Hh; simpl.
    + destruct (si_by_id x !! i) as [e'|] eqn:Hi; [|done]. simpl. case_guard as Hg; [done|].
      destruct Hg. destruct (decide (i = id)) as [->|]; [|by left]. simplify_eq. by right.
    + destruct (decide (id = i)) as [<-|Hne].
      * rewrite lookup_delete_eq, Hx. simpl. case_guard as Hg; [|done].
        destruct Hg as [Hg|Hg]; [done|congruence].
      * rewrite lookup_delete_ne by done. destruct (si_by_id x !! i); [|done]. simpl.
        case_guard as Hg; [done|]. destruct Hg. by left.
  - destruct (si_by_id x !! i) as [e'|] eqn:Hi; [|done]. simpl. case_guard as Hg; [done|].
    destruct Hg. left. intros ->. by rewrite Hx in Hi.
Qed.
Lemma evict_ids_by_id held deadline ids x :
  si_by_id (foldl (evict_one held deadline) x ids) =
  filter (fun ie => ie.1 ∉ ids \/ held (se_token ie.2) = true) (si_by_id x).
Proof.
  revert x. induction ids as [|id ids IH]; intros x; simpl.
  - symmetry. apply map_filter_id. intros. left. apply not_elem_of_nil.
  - rewrite IH, evict_one_by_id, map_filter_filter. apply map_filter_ext. intros i e _. simpl.
    rewrite not_elem_of_cons. split; [naive_solver|].
    intros [[H1 H2]|H]; [split; left; done|split; by right].
Qed.

Lemma index_inv_ext (P Q : string -> Prop) x :
  (forall id e, si_by_id x !! id = Some e -> P id <-> Q id) -> index_inv P x -> index_inv Q x.
Proof.
  intros HPQ [Hh]. split; try done. intros t id. rewrite Hh. split.
  - intros (e & He & Hr & Hn). exists e. rewrite <- HPQ; eauto.
  - intros (e & He & Hr & Hn). exists e. rewrite HPQ; eauto.
Qed.

Lemma evict_ids_inv held deadline ids pending x :
  NoDup ids ->
  index_inv pending x ->
  (forall id e, id ∈ ids -> si_by_id x !! id = Some e -> se_retention_until e = deadline /\ pending id) ->
  index_inv (fun i => pending i /\ i ∉ ids) (foldl (evict_one held deadline) x ids).
Proof.
  revert pending x. induction ids as [|id ids IH]; intros pending x Hnd Hinv Hids; simpl.
  - eapply index_inv_ext; [|done]. intros id e _. pose proof (not_elem_of_nil id). tauto.
  - apply NoDup_cons in Hnd as [Hnin Hnd].
    eapply index_inv_ext; [|apply (IH (fun i => pending i /\ i ≠ id)); [done|apply evict_one_inv; [done|]|]].
    + intros i e _. simpl. rewrite not_elem_of_cons. tauto.
    + intros e He. apply (Hids id e); [left|done].
    + intros i e Hi. rewrite evict_one_by_id. intros [He _]%map_lookup_filter_Some.
      destruct (Hids i e) as [Hr Hp]; [by right|done|]. split; [done|]. split; [done|].
      intros ->. done.
Qed.

Lemma evict_bucket_spec held x t :
  index_ok x ->
  index_ok (evict_bucket held x t) /\
  si_by_id (evict_bucket held x t) =
    filter (fun ie => se_retention_until ie.2 ≠ t \/ held (se_token ie.2) = true) (si_by_id x).
Proof.
  intros Hok. unfold evict_bucket. set (ids := default ∅ (si_by_retention x !! t)).
  set (x0 := mkIndex _ _ _ _ _).
  assert (Hin : forall id, id ∈ elements ids <->
    exists e, si_by_id x !! id = Some e /\ se_retention_until e = t).
  { intros id. rewrite elem_of_elements. pose proof (ii_hints _ x Hok t id) as Hh. unfold hint_at, ids in *.
    destruct (si_by_retention x !! t) as [b|]; simpl; split.
    - intros Hi. destruct (proj1 Hh) as (e & He & Hr & _); eauto.
    - intros (e & He & Hr). destruct (proj2 Hh) as (b' & [= <-] & Hi); eauto.
    - set_solver.
    - intros (e & He & Hr). destruct (proj2 Hh) as (b' & [=] & Hi); eauto. }
  assert (index_inv (fun i => i ∈ elements ids) x0) as Hx0.
  { destruct Hok as [Hh Hb He Hc Hbu Ht Hf]. split; simpl; try done; [|by apply no_empty_delete].
    intros t' id. rewrite hint_at_delete, Hh. split.
    - intros [(e & Hx & Hr & _) Hne]. exists e. split; [done|]. split; [done|].
      rewrite Hin. intros (e' & Hx' & Hr'). simplify_eq.
    - intros (e & Hx & Hr & Hn). split; [naive_solver|]. intros ->. destruct Hn. rewrite Hin. eauto. }
  split.
  - eapply index_inv_ext; [|apply evict_ids_inv; [apply NoDup_elements|exact Hx0|]].
    + intros id e _. simpl. tauto.
    + intros id e Hid He. split; [|done]. apply Hin in Hid as (e' & He' & Hr). simpl in He. by simplify_eq.
  - rewrite evict_ids_by_id. apply map_filter_ext. intros id e He. cbn [fst snd]. rewrite Hin. simpl in He.
    split; (intros [H|H]; [left|by right]); naive_solver.
Qed.

Lemma evict_buckets_spec held ts x :
  index_ok x ->
  index_ok (foldl (evict_bucket held) x ts) /\
  si_by_id (foldl (evict_bucket held) x ts) =
    filter (fun ie => se_retention_until ie.2 ∉ ts \/ held (se_token ie.2) = true) (si_by_id x).
Proof.
  revert x. induction ts as [|t ts IH]; intros x Hok; simpl.
  - split; [done|]. symmetry. apply map_filter_id. intros. left. apply not_elem_of_nil.
  - destruct (evict_bucket_spec held x t Hok) as [Hok1 Hb1].
    destruct (IH _ Hok1) as [Hok2 Hb2]. split; [done|]. rewrite Hb2, Hb1, map_filter_filter.
    apply map_filter_ext. intros i e _. simpl. rewrite not_elem_of_cons. split; [naive_solver|].
    intros [[H1 H2]|H]; [split; left; done|split; by right].
Qed.

(** The sessions an eviction at [now] keeps. *)
Definition retained (held : nat -> bool) (now : Z) (e : SessionEntry) : Prop :=
  (now < se_retention_until e)%Z \/ held (se_token e) = true.

Lemma evict_lapsed_spec held x now :
  index_ok x ->
  index_ok (evict_lapsed held x now) /\
  forall id e, si_by_id (evict_lapsed held x now) !! id = Some e <->
    si_by_id x !! id = Some e /\ retained held now e.
Proof.
  intros Hok. unfold evict_lapsed.
  destruct (evict_buckets_spec held (lapsed_deadlines (si_by_retention x) now) x Hok) as [Hok' Hb].
  split; [done|]. intros id e. rewrite Hb, map_lookup_filter_Some. simpl.
  rewrite lapsed_deadlines_elem. unfold retained. split.
  - intros [He [Hn|Hh]]; (split; [done|]); [left|by right].
    destruct (decide (se_retention_until e <= now)%Z) as [Hle|]; [|lia]. destruct Hn. split; [|done].
    destruct (proj2 (ii_hints _ x Hok (se_retention_until e) id)) as (ids & Hids & _); eauto.
  - intros [He [Hlt|Hh]]; (split; [done|]); [left; intros [_ ?]; lia|by right].
Qed.

(** *** Content addresses *)
Lemma genuine_bytes s : genuine s ->
  jcs_bytes (document_to_value (as_document s)) = Ok (as_bytes_ s) /\
  as_session_id s = sha256_bare_hex (as_bytes_ s).
Proof.
  intros [Hs _ _ _ _]. unfold session_seal in Hs. bind_inv Hs. injection Hs as Hs. rewrite <- Hs. done.
Qed.
Lemma genuine_same_doc s1 s2 :
  genuine s1 -> genuine s2 -> as_session_id s1 = as_session_id s2 ->
  same_doc (document_to_value (as_document s1)) (document_to_value (as_document s2)).
Proof.
  intros H1 H2 Hid. destruct (genuine_bytes s1 H1) as [Hb1 Hi1]. destruct (genuine_bytes s2 H2) as [Hb2 Hi2].
  rewrite Hi1, Hi2 in Hid. apply (inj hex_encode), hashed_inj in Hid as He; [|apply H1|apply H2].
  destruct H1 as [_ Hw1 Hd1 _ _], H2 as [_ Hw2 Hd2 _ _]. rewrite He in Hb1.
  eapply jcs_same_doc; eauto using document_to_value_wf.
Qed.

Lemma document_get_evidence d :
  document_wf d -> get "evidence" (document_to_value d) = Some (evidence_to_value (sd_evidence d)).
Proof.
  intros Hwf. apply document_get; [done|]. unfold document_to_value. rewrite !elem_of_app. right; right. set_solver.
Qed.
Lemma document_get_str d k :
  document_wf d -> get "evidence" (document_to_value d) ≫= get_str k = get_str k (evidence_to_value (sd_evidence d)).
Proof. intros Hwf. by rewrite document_get_evidence. Qed.

Lemma same_doc_fields d1 d2 :
  document_wf d1 -> document_wf d2 -> same_doc (document_to_value d1) (document_to_value d2) ->
  er_digest (sd_evidence d1) = er_digest (sd_evidence d2) /\
  sd_established_at d1 = sd_established_at d2 /\ sd_expires_at d1 = sd_expires_at d2.
Proof.
  intros H1 H2 Hs. split; [|split].
  - pose proof (get_proper "evidence" _ _ Hs) as Hp. rewrite !document_get_evidence in Hp by done.
    inversion Hp as [w1 w2 Hw|]; subst. apply (get_str_proper "digest") in Hw.
    destruct (sd_evidence d1) as [[a|] [b|]], (sd_evidence d2) as [[a'|] [b'|]]; cbn in Hw; simplify_eq; done.
  - apply (get_u64_proper "established_at") in Hs. cbn in Hs. by injection Hs.
  - apply (get_u64_proper "expires_at") in Hs. cbn in Hs. by injection Hs.
Qed.

(** Two sessions stored under one id have the same digest and window. *)
Lemma entry_ok_same id e1 e2 :
  entry_ok id e1 -> entry_ok id e2 ->
  entry_digest e1 = entry_digest e2 /\
  sd_established_at (se_stripped e1) = sd_established_at (se_stripped e2) /\
  sd_expires_at (se_stripped e1) = sd_expires_at (se_stripped e2).
Proof.
  intros [(b1 & s1 & Hg1 & _ & Hi1 & Hd1 & Hs1) _] [(b2 & s2 & Hg2 & _ & Hi2 & Hd2 & Hs2) _].
  pose proof (genuine_same_doc s1 s2 Hg1 Hg2) as Hs. specialize (Hs ltac:(congruence)).
  destruct (same_doc_fields _ _ (ge_wf _ Hg1) (ge_wf _ Hg2) Hs) as (Hd & He & Hx).
  rewrite Hs1, Hs2 in Hd, He, Hx. cbn in Hd, He, Hx. unfold entry_digest. rewrite Hd1, Hd2. cbn.
  split; [congruence|done].
Qed.

(** *** Insertion *)
Lemma split_new_entry session split fp ret tok :
  genuine session -> split_new session = Ok split ->
  (sd_expires_at (sp_stripped split) <= ret)%Z ->
  let e := mkEntry (sp_stripped split) (sp_content_type split) fp ret tok in
  entry_ok (sp_session_id split) e /\ entry_digest e = sp_digest split /\
  sp_digest split = sha256_hex (sp_bundle split) /\ sp_session_id split = as_session_id session /\ hashed (sp_bundle split).
Proof.
  intros Hg H Hret. unfold split_new in H. bind_inv H. destruct a as [ct b]. injection H as <-. cbn in *.
  apply evidence_decode_inv in E as He. unfold entry_digest. cbn. rewrite He. cbn.
  pose proof (ge_bundle _ Hg _ _ E) as Hb.
  split; [|done]. split; [|done]. exists b, session. cbn. split; [done|]. split; [done|].
  repeat split. destruct (as_document session) eqn:Hd. cbn in *. by rewrite <- He.
Qed.

Lemma index_insert_same x fp session split ret e0 :
  index_ok x -> genuine session -> split_new session = Ok split ->
  si_by_id x !! sp_session_id split = Some e0 ->
  index_ok (index_insert x fp split ret).
Proof.
  intros [Hh Hb He Hc Hbu Ht Hf] Hg Hsp Hx. unfold index_insert. cbv zeta. rewrite Hx.
  set (r1 := Z.max ret (sd_expires_at (sp_stripped split))).
  set (e := mkEntry _ _ _ (Z.max (se_retention_until e0) r1) _).
  destruct (split_new_entry session split fp (Z.max (se_retention_until e0) r1) (se_token e0) Hg Hsp)
    as (Hok & Hdig & _ & _); [lia|]. fold e in Hok, Hdig.
  destruct (entry_ok_same _ _ _ (He _ _ Hx) Hok) as (Hd & _). split; simpl.
  - intros t i. rewrite hint_at_add, hint_at_drop, Hh. setoid_rewrite lookup_insert_Some. split.
    + intros [[(e' & He' & Hr & _) Hn]|[-> ->]]; [|exists e; naive_solver].
      exists e'. split; [right|naive_solver]. split; [|done]. intros <-. simplify_eq. by apply Hn.
    + intros (e' & [[<- <-]|[Hne He']] & Hr & _); [by right|]. left. split; [eauto|naive_solver].
  - by apply no_empty_add, no_empty_drop.
  - intros i e' [[<- <-]|[_ Hi]]%lookup_insert_Some; [done|by apply He].
  - intros d. rewrite (citers_insert_same _ _ e0); [apply Hc|done|congruence].
  - done.
  - intros i1 i2 e1 e2 [[<- <-]|[Hn1 H1]]%lookup_insert_Some [[<- <-]|[Hn2 H2]]%lookup_insert_Some;
      try done; cbn; eauto.
  - intros i e' [[<- <-]|[_ Hi]]%lookup_insert_Some; cbn; eauto.
Qed.

Lemma index_insert_new x fp session split ret :
  index_ok x -> genuine session -> split_new session = Ok split ->
  si_by_id x !! sp_session_id split = None -> index_ok (index_insert x fp split ret).
Proof.
  intros [Hh Hb He Hc Hbu Ht Hf] Hg Hsp Hx. unfold index_insert. cbv zeta. rewrite Hx.
  set (r1 := Z.max ret (sd_expires_at (sp_stripped split))). set (e := mkEntry _ _ _ r1 _).
  destruct (split_new_entry session split fp r1 (si_fresh x) Hg Hsp) as (Hok & Hdig & Hb64 & _ & Hkb); [lia|].
  fold e in Hok, Hdig. split; simpl.
  - intros t i. rewrite hint_at_add, Hh. setoid_rewrite lookup_insert_Some. split.
    + intros [(e' & He' & Hr & _)|[-> ->]]; [|exists e; naive_solver].
      exists e'. split; [right|naive_solver]. split; [|done]. intros <-. by rewrite Hx in He'.
    + intros (e' & [[<- <-]|[Hne He']] & Hr & _); [by right|left; eauto].
  - by apply no_empty_add.
  - intros i e' [[<- <-]|[_ Hi]]%lookup_insert_Some; [done|by apply He].
  - rewrite <- Hdig. by apply bundle_cite_citers.
  - intros d b [(b' & Hb' & <-)|[-> ->]]%bundle_cite_bytes; [by apply Hbu|done].
  - intros i1 i2 e1 e2 [[<- <-]|[Hn1 H1]]%lookup_insert_Some [[<- <-]|[Hn2 H2]]%lookup_insert_Some;
      try done; cbn; intros Htok; [apply Hf in H2|apply Hf in H1|by eapply Ht]; lia.
  - intros i e' [[<- <-]|[_ Hi]]%lookup_insert_Some; cbn; [lia|]. apply Hf in Hi. lia.
Qed.

Lemma index_insert_ok x fp session split ret :
  index_ok x -> genuine session -> split_new session = Ok split ->
  index_ok (index_insert x fp split ret).
Proof.
  intros Hok Hg Hsp. destruct (si_by_id x !! sp_session_id split) eqn:Hx;
    [by eapply index_insert_same|by eapply index_insert_new].
Qed.

(** *** Leases *)
Definition lease_ok (x : SessionIndex) (l : SessionLease) : Prop :=
  exists e, si_by_id x !! le_session_id l = Some e /\ se_token e = le_token l /\
    sd_established_at (se_stripped e) = le_established_at l /\ sd_expires_at (se_stripped e) = le_expires_at l.

Record state_ok (s : StoreState) : Prop := {
  so_index : index_ok (ss_index s);
  so_leases l : l ∈ ss_leases s -> lease_ok (ss_index s) l;
}.

Lemma held_by_elem leases l : l ∈ leases -> held_by leases (le_token l) = true.
Proof. intros Hin. apply existsb_exists. exists l. split; [by apply list_elem_of_In|apply Nat.eqb_refl]. Qed.

Lemma evict_lapsed_lease x leases now l :
  index_ok x -> l ∈ leases -> lease_ok x l -> lease_ok (evict_lapsed (held_by leases) x now) l.
Proof.
  intros Hok Hin (e & He & Ht & Hw). exists e. split; [|done].
  apply evict_lapsed_spec; [done|]. split; [done|]. right. rewrite Ht. by apply held_by_elem.
Qed.

Lemma index_extend_spec x l deadline e :
  index_ok x -> si_by_id x !! le_session_id l = Some e -> se_token e = le_token l ->
  exists x', index_extend x l deadline = Ok x' /\ index_ok x' /\
    si_by_id x' = <[le_session_id l := set_retention e (Z.max (se_retention_until e) deadline)]> (si_by_id x) /\
    si_by_fingerprint x' = si_by_fingerprint x.
Proof.
  intros Hok He Htok. unfold index_extend. rewrite He, bool_decide_eq_true_2 by done. cbn [ok_or mbind result_bind].
  destruct (Z.ltb_spec (se_retention_until e) deadline) as [Hlt|Hle].
  - eexists. split; [done|]. rewrite Z.max_r by lia. split; [|done].
    destruct Hok as [Hh Hb Hen Hc Hbu Ht Hf]. split; simpl.
    + intros t i. rewrite hint_at_add, hint_at_drop, Hh. setoid_rewrite lookup_insert_Some. split.
      * intros [[(e' & He' & Hr & _) Hn]|[-> ->]]; [|eexists; split; [by left|split; [done|tauto]]].
        exists e'. split; [right|naive_solver]. split; [|done]. intros <-. simplify_eq. by apply Hn.
      * intros (e' & [[<- <-]|[Hne He']] & Hr & _); [by right|]. left. split; [eauto|naive_solver].
    + by apply no_empty_add, no_empty_drop.
    + intros i e' [[<- <-]|[_ Hi]]%lookup_insert_Some; [|by apply Hen].
      destruct (Hen _ _ He) as [Hs Hx]. split; [done|]. simpl. lia.
    + intros d. rewrite (citers_insert_same _ _ e); [apply Hc|done|done].
    + done.
    + intros i1 i2 e1 e2 [[<- <-]|[Hn1 H1]]%lookup_insert_Some [[<- <-]|[Hn2 H2]]%lookup_insert_Some;
        try done; cbn; eauto.
    + intros i e' [[<- <-]|[_ Hi]]%lookup_insert_Some; cbn; eauto.
  - exists x. split; [done|]. rewrite Z.max_l by lia. split; [done|]. split; [|done].
    symmetry. apply insert_id. rewrite He. by destruct e.
Qed.

Lemma lease_ok_insert x x' id e e' l :
  si_by_id x !! id = Some e -> si_by_id x' = <[id := e']> (si_by_id x) ->
  se_token e' = se_token e -> sd_established_at (se_stripped e') = sd_established_at (se_stripped e) ->
  sd_expires_at (se_stripped e') = sd_expires_at (se_stripped e) ->
  lease_ok x l -> lease_ok x' l.
Proof.
  intros He Hx' Htok Hest Hexp (e0 & He0 & Ht & Hw1 & Hw2). unfold lease_ok. rewrite Hx'.
  destruct (decide (id = le_session_id l)) as [->|Hne].
  - exists e'. rewrite lookup_insert_eq. simplify_eq. split; [done|]. repeat split; congruence.
  - exists e0. by rewrite lookup_insert_ne.
Qed.

Lemma index_lease_ok x id e : si_by_id x !! id = Some e ->
  exists l, index_lease x id = Some l /\ le_session_id l = id /\ le_token l = se_token e /\ lease_ok x l /\
    le_established_at l = sd_established_at (se_stripped e) /\ le_expires_at l = sd_expires_at (se_stripped e).
Proof. intros He. unfold index_lease. rewrite He. eexists. repeat (split; [done|]). split; [by exists e|done]. Qed.

(** The current session of a channel, or nothing but the eviction. *)
Lemma index_current_spec held x fp ret now :
  index_ok x ->
  let x1 := evict_lapsed held x now in
  (exists e l x2, index_current held x fp ret now = (x2, Some l) /\ index_ok x2 /\
     si_by_fingerprint x1 !! fp = Some (le_session_id l) /\ si_by_id x1 !! le_session_id l = Some e /\
     le_token l = se_token e /\ lease_ok x1 l /\ (now < le_expires_at l)%Z /\
     si_by_id x2 = <[le_session_id l := set_retention e (Z.max (se_retention_until e) ret)]> (si_by_id x1)) \/
  index_current held x fp ret now = (x1, None).
Proof.
  intros Hok x1. unfold index_current. fold x1.
  destruct (evict_lapsed_spec held x now Hok) as [Hok1 _]. fold x1 in Hok1.
  destruct (si_by_fingerprint x1 !! fp) as [id|] eqn:Hfp; cbn [mbind option_bind]; [|by right].
  destruct (si_by_id x1 !! id) as [e|] eqn:He; cbn [mbind option_bind]; [|by right].
  destruct (Z.leb_spec (sd_expires_at (se_stripped e)) now) as [Hle|Hlt]; [by right|]. left.
  destruct (index_lease_ok x1 id e He) as (l & Hl & Hid & Htok & Hlok & Hes & Hex). rewrite Hl. subst id.
  destruct (index_extend_spec x1 l ret e Hok1 He (eq_sym Htok)) as (x2 & Hx2 & Hok2 & Hb2 & _). rewrite Hx2.
  exists e, l, x2. repeat (split; [done|]). split; [lia|done].
Qed.

Lemma index_insert_lookup x fp split ret :
  exists e, si_by_id (index_insert x fp split ret) = <[sp_session_id split := e]> (si_by_id x) /\
    se_stripped e = sp_stripped split /\ (ret <= se_retention_until e)%Z /\
    (forall e0, si_by_id x !! sp_session_id split = Some e0 -> se_token e = se_token e0) /\
    si_by_fingerprint (index_insert x fp split ret) !! fp = Some (sp_session_id split).
Proof.
  unfold index_insert. cbv zeta. eexists. split; [done|]. cbn. split; [done|]. split.
  - destruct (si_by_id x !! sp_session_id split); lia.
  - split; [by intros e0 ->|]. by rewrite lookup_insert_eq.
Qed.

Lemma insert_preserves_leases x fp session split ret l :
  index_ok x -> genuine session -> split_new session = Ok split -> lease_ok x l ->
  lease_ok (index_insert x fp split ret) l.
Proof.
  intros Hok Hg Hsp Hl. destruct (index_insert_lookup x fp split ret) as (e & Hb & Hst & _ & Htok & _).
  destruct (si_by_id x !! sp_session_id split) as [e0|] eqn:He0.
  - destruct (split_new_entry session split fp (Z.max ret (sd_expires_at (sp_stripped split))) 0 Hg Hsp)
      as (Hok1 & _); [lia|].
    destruct (entry_ok_same _ _ _ (ii_entry _ x Hok _ _ He0) Hok1) as (_ & Hes & Hex).
    cbn in Hes, Hex. eapply (lease_ok_insert x _ _ e0 e); try done; [by apply Htok|by rewrite Hst|by rewrite Hst].
  - destruct Hl as (e1 & He1 & Hrest). exists e1. rewrite Hb, lookup_insert_ne; [done|].
    intros Heq. by rewrite Heq, He1 in He0.
Qed.

(** *** Serving *)
Lemma rebuild_genuine x id e :
  index_ok x -> si_by_id x !! id = Some e ->
  exists s, rebuild x id e = Some s /\ genuine s /\ as_session_id s = id.
Proof.
  intros Hok He. destruct (ii_entry _ x Hok _ _ He) as [(b & s & Hg & Hkb & Hid & Hd & Hdoc) _].
  assert (entry_digest e = sha256_hex b) as Hdig by (unfold entry_digest; by rewrite Hd).
  pose proof (ii_citers _ x Hok (entry_digest e)) as Hc. pose proof (citers_pos _ _ _ He) as Hpos.
  rewrite bool_decide_eq_false_2 in Hc by lia. unfold rebuild.
  destruct (si_bundles x !! entry_digest e) as [bu|] eqn:Hbu; [|done]. cbn [mbind option_bind].
  destruct (ii_bundle _ x Hok _ _ Hbu) as [Hh Hkh]. rewrite Hdig in Hh.
  apply sha256_hex_inj, hashed_inj in Hh as ->; [|done|done].
  rewrite <- Hdoc, (ge_sealed _ Hg). cbn. exists s. by rewrite bool_decide_eq_true_2.
Qed.

Lemma index_get_served held x id now e :
  index_ok x -> si_by_id x !! id = Some e -> retained held now e ->
  exists s, (index_get held x id now).2 = Some s /\ genuine s /\ as_session_id s = id.
Proof.
  intros Hok He Hr. destruct (evict_lapsed_spec held x now Hok) as [Hok1 Hkeep].
  assert (si_by_id (evict_lapsed held x now) !! id = Some e) as He1 by (by apply Hkeep).
  unfold index_get. cbn [snd]. rewrite He1. cbn [mbind option_bind]. by apply rebuild_genuine.
Qed.

(** ** Steps *)
Inductive session_step (s : StoreState) : StoreState -> Prop :=
| sst_get id now : session_step s (get_session s id now).1
| sst_current fp ret now seal :
    (forall session, seal () = Ok session -> genuine session) ->
    session_step s (current_or_seal s fp ret now seal).1
| sst_extend l deadline : l ∈ ss_leases s -> session_step s (extend_retention s l deadline).1
| sst_clone l : l ∈ ss_leases s -> session_step s (clone_lease s l)
| sst_drop l : session_step s (drop_lease s l).

Lemma remove_first_elem l x leases : x ∈ remove_first l leases -> x ∈ leases.
Proof.
  induction leases as [|y leases IH]; simpl; [done|]. case_bool_decide; [by right|].
  intros [->|Hin]%elem_of_cons; [left|right; auto].
Qed.

Lemma get_session_ok s id now : state_ok s -> state_ok (get_session s id now).1.
Proof.
  intros [Hok Hl]. unfold get_session, index_get. cbn.
  destruct (evict_lapsed_spec (held_by (ss_leases s)) (ss_index s) now Hok) as [Hok1 _]. split; [done|].
  intros l Hin. cbn in *. apply evict_lapsed_lease; auto.
Qed.

Lemma extend_retention_ok s l deadline :
  state_ok s -> l ∈ ss_leases s ->
  exists e x, si_by_id (ss_index s) !! le_session_id l = Some e /\
    extend_retention s l deadline = (mkStoreState x (ss_leases s), Ok ()) /\
    state_ok (mkStoreState x (ss_leases s)) /\
    si_by_id x = <[le_session_id l := set_retention e (Z.max (se_retention_until e) deadline)]>
                   (si_by_id (ss_index s)).
Proof.
  intros [Hok Hl] Hin. destruct (Hl l Hin) as (e & He & Htok & _).
  destruct (index_extend_spec (ss_index s) l deadline e Hok He Htok) as (x & Hx & Hokx & Hb & _).
  exists e, x. unfold extend_retention. rewrite Hx. split; [done|]. split; [done|]. split; [|done].
  split; [done|]. cbn. intros l' Hin'. by eapply (lease_ok_insert (ss_index s) x _ e); eauto.
Qed.

(** What a successful acquisition gives. *)
Definition acquired (s' : StoreState) (l : SessionLease) (ret : Z) : Prop :=
  l ∈ ss_leases s' /\
  exists e, si_by_id (ss_index s') !! le_session_id l = Some e /\ (ret <= se_retention_until e)%Z.

Lemma current_or_seal_found s fp ret now seal x2 l e :
  state_ok s ->
  let x1 := evict_lapsed (held_by (ss_leases s)) (ss_index s) now in
  index_ok x2 -> si_by_id x1 !! le_session_id l = Some e -> lease_ok x1 l ->
  si_by_id x2 = <[le_session_id l := set_retention e (Z.max (se_retention_until e) ret)]> (si_by_id x1) ->
  index_current (held_by (ss_leases s)) (ss_index s) fp ret now = (x2, Some l) ->
  state_ok (current_or_seal s fp ret now seal).1 /\ (current_or_seal s fp ret now seal).2 = Ok l /\
  acquired (current_or_seal s fp ret now seal).1 l ret.
Proof.
  intros [Hok Hl] x1 Hok2 He Hlok Hb Hc. unfold current_or_seal. rewrite Hc. cbn [fst snd].
  assert (forall l', lease_ok x1 l' -> lease_ok x2 l') as Hpres
    by (intros l' Hl'; by eapply (lease_ok_insert x1 x2 _ e)).
  split; [split; [done|]|].
  - cbn. intros l' [->|Hin]%elem_of_cons; [auto|]. apply Hpres, evict_lapsed_lease; auto.
  - split; [done|]. split; [left|]. cbn. rewrite Hb, lookup_insert_eq. eexists. split; [done|]. cbn. lia.
Qed.

Lemma current_or_seal_sealed s fp ret now seal session split :
  state_ok s -> genuine session -> seal () = Ok session -> split_new session = Ok split ->
  index_current (held_by (ss_leases s)) (ss_index s) fp ret now =
    (evict_lapsed (held_by (ss_leases s)) (ss_index s) now, None) ->
  exists l, state_ok (current_or_seal s fp ret now seal).1 /\ (current_or_seal s fp ret now seal).2 = Ok l /\
    acquired (current_or_seal s fp ret now seal).1 l ret /\ le_session_id l = as_session_id session.
Proof.
  intros [Hok Hl] Hg Hseal Hsp Hc. unfold current_or_seal. rewrite Hc, Hseal. cbn [mbind result_bind]. rewrite Hsp.
  set (x1 := evict_lapsed _ _ now) in *.
  destruct (evict_lapsed_spec (held_by (ss_leases s)) (ss_index s) now Hok) as [Hok1 _]. fold x1 in Hok1.
  pose proof (index_insert_ok x1 fp session split ret Hok1 Hg Hsp) as Hok2.
  destruct (index_insert_lookup x1 fp split ret) as (e & Hb & Hst & Hret & _ & _).
  set (x2 := index_insert x1 fp split ret) in *.
  assert (si_by_id x2 !! sp_session_id split = Some e) as He by (rewrite Hb; apply lookup_insert_eq).
  destruct (index_lease_ok x2 _ e He) as (l & -> & Hid & Htok & Hlok & _). cbn [fst snd].
  assert (forall l', l' ∈ ss_leases s -> lease_ok x2 l') as Hall.
  { intros l' Hin. apply (insert_preserves_leases x1 fp session); try done.
    apply evict_lapsed_lease; auto. }
  exists l.
  destruct (evict_lapsed_spec (held_by (l :: ss_leases s)) x2 now Hok2) as [Hok3 Hkeep].
  split; [split; [done|]|].
  - cbn. intros l' Hin. apply evict_lapsed_lease; [done|done|].
    apply elem_of_cons in Hin as [->|Hin]; auto.
  - split; [done|]. split; [|by rewrite Hid; apply (split_new_entry session split fp
      (Z.max ret (sd_expires_at (sp_stripped split))) 0 Hg Hsp); lia].
    split; [left|]. exists e. cbn. split; [|done]. rewrite Hid. apply Hkeep. split; [done|]. right.
    rewrite <- Htok. apply held_by_elem. left.
Qed.

Lemma current_or_seal_ok s fp ret now seal :
  state_ok s -> (forall session, seal () = Ok session -> genuine session) ->
  state_ok (current_or_seal s fp ret now seal).1 /\
  forall l, (current_or_seal s fp ret now seal).2 = Ok l ->
    acquired (current_or_seal s fp ret now seal).1 l ret.
Proof.
  intros Hs Hseal. pose proof Hs as [Hok Hl].
  destruct (index_current_spec (held_by (ss_leases s)) (ss_index s) fp ret now Hok)
    as [(e & l & x2 & Hc & Hok2 & _ & He & _ & Hlok & _ & Hb)|Hc].
  - destruct (current_or_seal_found s fp ret now seal x2 l e) as (Hst & Hr & Hacq); [done..|].
    split; [done|]. intros l' Hl'. rewrite Hr in Hl'. by injection Hl' as <-.
  - destruct (seal ()) as [session|err] eqn:Hsl.
    + destruct (split_new session) as [split|err] eqn:Hsp.
      * destruct (current_or_seal_sealed s fp ret now seal session split) as (l & Hst & Hr & Hacq & _); [done|auto|done..|].
        split; [done|]. intros l' Hl'. rewrite Hr in Hl'. by injection Hl' as <-.
      * unfold current_or_seal. rewrite Hc, Hsl. cbn [mbind result_bind]. rewrite Hsp. split; [|done].
        by apply (get_session_ok s fp now) in Hs.
    + unfold current_or_seal. rewrite Hc, Hsl. split; [|done].
      by apply (get_session_ok s fp now) in Hs.
Qed.

(** ** What the store guarantees *)

(** After any sequence of lookups, acquisitions, extensions and lease clones
    and drops, the index is consistent (deadlines list exactly the sessions,
    every bundle has its digest and its exact number of citing sessions, every
    entry is a sealed session of its id) and every lease still names a stored
    session with its window, as long as the hashed strings do not collide. *)
Theorem session_store_invariant s :
  rtc session_step (mkStoreState index_default []) s -> state_ok s.
Proof.
  intros Hsteps. assert (state_ok (mkStoreState index_default [])) as H0.
  { split; [|by intros l ?%elem_of_nil]. split; cbn; try done.
    intros t id. split; [by intros ?%hint_at_empty|by intros (e & ? & _)]. }
  induction Hsteps as [|s s1 s2 Hs _ IH]; [done|]. apply IH.
  destruct Hs as [id now|fp ret now seal Hg|l d Hin|l Hin|l].
  - by apply get_session_ok.
  - by apply (current_or_seal_ok s fp ret now seal H0 Hg).
  - destruct (extend_retention_ok s l d H0 Hin) as (e & x & _ & -> & Hok & _). done.
  - destruct H0 as [Hok Hl]. split; [done|]. cbn. intros l' [->|?]%elem_of_cons; auto.
  - destruct H0 as [Hok Hl]. split; [done|]. cbn. intros l' ?%remove_first_elem; auto.
Qed.

(** Eviction is exact.  A session goes exactly when its deadline is at or
    before [now] and no lease holds it; the bundles left are exactly those a
    remaining session cites, each with the number of sessions that cite it. *)
Theorem eviction_exact held x now :
  index_ok x ->
  (forall id e, si_by_id (evict_lapsed held x now) !! id = Some e <->
     si_by_id x !! id = Some e /\ ((now < se_retention_until e)%Z \/ held (se_token e) = true)) /\
  (forall d, bu_citers <$> si_bundles (evict_lapsed held x now) !! d =
     (if bool_decide (citers (si_by_id (evict_lapsed held x now)) d = 0) then None
      else Some (citers (si_by_id (evict_lapsed held x now)) d))).
Proof.
  intros Hok. destruct (evict_lapsed_spec held x now Hok) as [Hok1 Hkeep]. split; [exact Hkeep|].
  exact (ii_citers _ _ Hok1).
Qed.

(** Acquiring a session either fails with the sealer's own error or with
    the missing bundle, or returns a lease: the lease holds the session, which
    is stored with retention to at least the requested deadline; a session that
    was reused is still valid, and the sealer is not consulted for it. *)
Theorem current_or_seal_acquires s fp ret now seal :
  state_ok s -> (forall session, seal () = Ok session -> genuine session) ->
  match (current_or_seal s fp ret now seal).2 with
  | Ok l => acquired (current_or_seal s fp ret now seal).1 l ret /\
      ((now < le_expires_at l)%Z /\
         (forall seal', (current_or_seal s fp ret now seal').2 = Ok l) \/
       exists session, seal () = Ok session /\ le_session_id l = as_session_id session)
  | Err e => seal () = Err e \/ exists session, seal () = Ok session /\ split_new session = Err e
  end.
Proof.
  intros Hs Hseal. pose proof Hs as [Hok Hl].
  destruct (index_current_spec (held_by (ss_leases s)) (ss_index s) fp ret now Hok)
    as [(e & l & x2 & Hc & Hok2 & _ & He & _ & Hlok & Hlt & Hb)|Hc].
  - destruct (current_or_seal_found s fp ret now seal x2 l e) as (_ & Hr & Hacq); [done..|].
    rewrite Hr. split; [done|]. left. split; [done|]. intros seal'.
    by apply (current_or_seal_found s fp ret now seal' x2 l e).
  - destruct (seal ()) as [session|err] eqn:Hsl.
    + destruct (split_new session) as [split|err] eqn:Hsp.
      * destruct (current_or_seal_sealed s fp ret now seal session split) as (l & _ & Hr & Hacq & Hid); [done|auto|done..|].
        rewrite Hr. split; [done|]. right. by exists session.
      * unfold current_or_seal. rewrite Hc, Hsl. cbn [mbind result_bind]. rewrite Hsp. cbn.
        right. by exists session.
    + unfold current_or_seal. rewrite Hc, Hsl. cbn. by left.
Qed.

(** A retained or leased session is served as it was sealed: a lookup
    returns a session with the bytes that hash to the requested id, complete with
    its evidence, as long as the hashed strings do not collide. *)
Theorem retained_session_is_served s id now e :
  state_ok s -> si_by_id (ss_index s) !! id = Some e ->
  (now < se_retention_until e)%Z \/ (exists l, l ∈ ss_leases s /\ le_session_id l = id) ->
  exists session, (get_session s id now).2 = Some session /\ as_session_id session = id /\
    session_seal (as_document session) = Ok session /\ id = sha256_bare_hex (as_bytes_ session).
Proof.
  intros [Hok Hl] He Hret. assert (retained (held_by (ss_leases s)) now e) as Hr.
  { destruct Hret as [?|(l & Hin & <-)]; [by left|right].
    destruct (Hl l Hin) as (e' & He' & Htok & _). simplify_eq. rewrite Htok. by apply held_by_elem. }
  destruct (index_get_served (held_by (ss_leases s)) (ss_index s) id now e Hok He Hr)
    as (session & Hg & Hgen & Hid).
  exists session. unfold get_session. destruct (index_get _ _ _ _) as [x r]. cbn in *. subst r.
  destruct (genuine_bytes session Hgen) as [_ Hb]. repeat split; [done|apply Hgen|congruence].
Qed.

End Index.

(** *** Witnesses *)
#[local] Existing Instances sample_sha sample_hex sample_base64 sample_json.

Definition sample_session (endpoint : string) (est exp : Z) : AttestedSession :=
  match session_seal (sample_session_doc endpoint est exp) with
  | Ok s => s
  | Err _ => mkAttestedSession EmptyString [] (sample_session_doc endpoint est exp)
  end.
Definition sample_seal (_ : unit) : result string AttestedSession := Ok (sample_session "https://u.example" 5 9).

Definition sample_hashes : list bytes := [as_bytes_ (sample_session "https://u.example" 5 9); as_bytes "bundle"].
#[local] Instance sample_domain : HashDomain.
Proof. refine (list_domain sample_hashes _). vm_compute. reflexivity. Defined.

Lemma sample_genuine_in {HD : HashDomain} :
  hashed (as_bytes_ (sample_session "https://u.example" 5 9)) -> hashed (as_bytes "bundle") ->
  genuine (sample_session "https://u.example" 5 9).
Proof.
  intros Hh Hb.
  assert (session_seal (sample_session_doc "https://u.example" 5 9) =
    Ok (sample_session "https://u.example" 5 9)) as Hs by (vm_compute; reflexivity).
  assert (as_document (sample_session "https://u.example" 5 9) = sample_session_doc "https://u.example" 5 9) as Hd
    by (vm_compute; reflexivity).
  split.
  - rewrite Hd. exact Hs.
  - rewrite Hd. apply sample_session_doc_wf; unfold is_u64, u64_max; lia.
  - rewrite Hd. vm_compute. lia.
  - exact Hh.
  - rewrite Hd. vm_compute evidence_decode. intros ct b [= <- <-]. exact Hb.
Qed.
Lemma sample_session_genuine : genuine (sample_session "https://u.example" 5 9).
Proof. apply sample_genuine_in; [left|right; left]. Qed.
Lemma sample_seal_genuine session : sample_seal () = Ok session -> genuine session.
Proof. intros [= <-]. exact sample_session_genuine. Qed.

Definition sample_store0 : StoreState := mkStoreState index_default [].
Definition sample_store1 : StoreState := (current_or_seal sample_store0 "fp" 20 6 sample_seal).1.
Lemma sample_store0_ok : state_ok sample_store0.
Proof.
  split; [|by intros l ?%elem_of_nil]. split; cbn; try done.
  intros t id. split; [by intros ?%hint_at_empty|by intros (e & ? & _)].
Qed.

Lemma session_store_invariant_witness : state_ok sample_store1.
Proof.
  apply session_store_invariant. eapply rtc_l; [|apply rtc_refl].
  apply (sst_current sample_store0 "fp" 20 6 sample_seal). exact sample_seal_genuine.
Defined.

Lemma current_or_seal_acquires_witness : exists l, acquired sample_store1 l 20.
Proof.
  pose proof (current_or_seal_acquires sample_store0 "fp" 20 6 sample_seal sample_store0_ok sample_seal_genuine) as H.
  assert (Hok : is_ok (current_or_seal sample_store0 "fp" 20 6 sample_seal).2 = true) by (vm_compute; reflexivity).
  destruct (current_or_seal sample_store0 "fp" 20 6 sample_seal).2 as [l|]; [|discriminate Hok].
  exists l. exact (proj1 H).
Defined.

Definition sample_split : SplitSession :=
  match split_new (sample_session "https://u.example" 5 9) with
  | Ok sp => sp
  | Err _ => mkSplit EmptyString (sample_session_doc "-" 5 9) EmptyString EmptyString []
  end.
Definition sample_store2 : StoreState := mkStoreState (index_insert index_default "fp" sample_split 20) [].
Lemma sample_store2_ok : state_ok sample_store2.
Proof.
  split; [|by intros l ?%elem_of_nil].
  assert (Hs : is_ok (split_new (sample_session "https://u.example" 5 9)) = true) by (vm_compute; reflexivity).
  apply (index_insert_new _ _ (sample_session "https://u.example" 5 9));
    [exact (so_index _ sample_store0_ok)|exact sample_session_genuine| |apply lookup_empty].
  unfold sample_split. destruct (split_new _); [reflexivity|discriminate Hs].
Qed.

Lemma eviction_exact_witness : exists e,
  si_by_id (evict_lapsed (fun _ => false) (ss_index sample_store2) 19) !! sp_session_id sample_split = Some e.
Proof.
  destruct (eviction_exact (fun _ => false) (ss_index sample_store2) 19 (so_index _ sample_store2_ok)) as [H _].
  eexists. apply H. split; [apply lookup_insert_eq|left; vm_compute; reflexivity].
Defined.

Lemma retained_session_is_served_witness :
  exists session, (get_session sample_store2 (sp_session_id sample_split) 19).2 = Some session.
Proof.
  destruct (index_insert_lookup index_default "fp" sample_split 20) as (e & Hb & _ & Hret & _).
  destruct (retained_session_is_served sample_store2 (sp_session_id sample_split) 19 e sample_store2_ok)
    as (session & Hs & _).
  - unfold sample_store2. cbn [ss_index]. rewrite Hb. apply lookup_insert_eq.
  - left. lia.
  - exists session. exact Hs.
Defined.
