(* ===== verification/SessionLog.v ===== *)
(** * The durable session store (src/aggregator/session_store.rs)

    [JsonlSessionStore]: an append-only log of one JSON record per line behind the
    index of [SessionStore].  The file is the sequence of bytes it holds.  A write
    may fail after any number of its bytes, a compaction at any step before the
    rename, and the process may stop at any time; [jsonl_open] then replays whatever
    the file contains.  The theorems show that sessions whose validity has not ended
    survive that, whatever else the log contains, and that compaction preserves
    every retained session with its extended deadline. *)
From S2P Require Import Prelude Json External Sample Digest Identity Receipt RelyingParty Session Deadlines.
From S2P Require Import SessionStore.

Definition RECORD_TYPE_EVIDENCE : string := "evidence".
Definition RECORD_TYPE_SESSION : string := "attested_session".

Record SessionLogRecord := mkLogRecord {
  lr_seq : Z;
  lr_ts : Z;
  lr_record_type : string;
  lr_fingerprint : option string;
  lr_retention_until : option Z;
  lr_content_type : option string;
  lr_payload_b64 : string;
}.
Definition record_to_value (r : SessionLogRecord) : value :=
  JObject ([("seq", JNumber (PosInt (lr_seq r))); ("ts", JNumber (PosInt (lr_ts r)));
            ("type", JString (lr_record_type r))] ++
    opt_member "fingerprint" (JString <$> lr_fingerprint r) ++
    opt_member "retention_until" ((fun n => JNumber (PosInt n)) <$> lr_retention_until r) ++
    opt_member "content_type" (JString <$> lr_content_type r) ++
    [("payload_b64", JString (lr_payload_b64 r))]).
Record record_wf (r : SessionLogRecord) : Prop := {
  rw_seq : is_u64 (lr_seq r);
  rw_ts : is_u64 (lr_ts r);
  rw_retention n : lr_retention_until r = Some n -> is_u64 n;
}.

(** The parser reads back [d] with any evidence reference. *)
Definition readable {SJ : SerdeJson} (parse : bytes -> option SessionDocument) (d : SessionDocument) : Prop :=
  forall e, parse (to_vec (document_to_value (with_evidence d e))) = Some (with_evidence d e).

(** The parsers serde derives for the two types: they produce values of the types
    (integers in range, distinct members, within the recursion limit), they read
    back what the derived serializers print, and a parsed document is one of those
    when it has a canonical form. *)
Class LogSerde {SJ : SerdeJson} := {
  record_from_slice : bytes -> option SessionLogRecord;
  session_from_slice : bytes -> option SessionDocument;
  record_from_to r : record_wf r -> record_from_slice (to_vec (record_to_value r)) = Some r;
  record_parsed_wf b r : record_from_slice b = Some r -> record_wf r;
  session_parsed_wf b d : session_from_slice b = Some d -> document_wf d;
  session_parsed_depth b d e : session_from_slice b = Some d ->
    json_depth (document_to_value (with_evidence d e)) <= 127;
  session_parsed_readable b d e : session_from_slice b = Some d ->
    is_ok (jcs_bytes (document_to_value (with_evidence d e))) = true -> readable session_from_slice d;
}.

Section Log.
Context {SH : Sha} {HX : HexCodec} {B64 : Base64} {SJ : SerdeJson} {LS : LogSerde} {HD : HashDomain}.

(** ** Records *)
Definition record_line (r : SessionLogRecord) : bytes := to_vec (record_to_value r) ++ [lf].
Definition evidence_record (seq ts : Z) (bundle : bytes) : SessionLogRecord :=
  mkLogRecord seq ts RECORD_TYPE_EVIDENCE None None None (b64_encode bundle).
Definition evidence_line (seq ts : Z) (bundle : bytes) : bytes := record_line (evidence_record seq ts bundle).
Definition session_record (seq ts : Z) (fingerprint : string) (retention_until : Z) (content_type : string)
    (stripped : SessionDocument) : SessionLogRecord :=
  let document := to_vec (document_to_value stripped) in
  mkLogRecord seq ts RECORD_TYPE_SESSION (Some fingerprint) (Some retention_until) (Some content_type)
    (b64_encode document).
Definition session_line (seq ts : Z) (fingerprint : string) (retention_until : Z) (content_type : string)
    (stripped : SessionDocument) : bytes :=
  record_line (session_record seq ts fingerprint retention_until content_type stripped).

(** ** Replay *)
Definition clean_content_type (content_type : string) : bool :=
  negb (contains ";base64" content_type || contains "," content_type).

Definition replay_session (record : SessionLogRecord) (bundles : gmap string bytes) : option SplitSession :=
  content_type ← lr_content_type record;
  if negb (clean_content_type content_type) then None
  else
    document ← b64_decode (lr_payload_b64 record);
    document ← session_from_slice document;
    digest ← er_digest (sd_evidence document);
    bundle ← bundles !! digest;
    let document := with_evidence document (evidence_from_bytes content_type bundle) in
    session ← result_ok (session_seal document);
    result_ok (split_new session).

Record Replay := mkReplay {
  rp_next_seq : Z;
  rp_bundles : gmap string bytes;
  rp_index : SessionIndex;
}.

Definition replay_record (now : Z) (p : Replay) (record : SessionLogRecord) : Replay :=
  if bool_decide (lr_record_type record = RECORD_TYPE_EVIDENCE) then
    match b64_decode (lr_payload_b64 record) with
    | Some bytes => mkReplay (rp_next_seq p) (<[sha256_hex bytes := bytes]> (rp_bundles p)) (rp_index p)
    | None => p
    end
  else if bool_decide (lr_record_type record = RECORD_TYPE_SESSION) then
    match lr_fingerprint record, lr_retention_until record with
    | Some fingerprint, Some retention_until =>
        if (retention_until <=? now)%Z then p
        else match replay_session record (rp_bundles p) with
        | Some split =>
            mkReplay (rp_next_seq p) (rp_bundles p) (index_insert (rp_index p) fingerprint split retention_until)
        | None => p
        end
    | _, _ => p
    end
  else p.

Definition replay_line (now : Z) (p : Replay) (buf : bytes) : Replay :=
  let trimmed := trim_ascii buf in
  if bool_decide (trimmed = []) then p
  else match record_from_slice trimmed with
  | None => p
  | Some record =>
      match u64_checked_add (lr_seq record) 1 with
      | None => p
      | Some seq_after =>
          replay_record now (mkReplay (Z.max (rp_next_seq p) seq_after) (rp_bundles p) (rp_index p)) record
      end
  end.

(** [read_until(b'\n')] up to the end of the file: the last chunk may be unterminated. *)
Definition file_lines (file : bytes) : list bytes :=
  let '(lines, rest) := split_lines file in
  ((fun l => l ++ [lf]) <$> lines) ++ (if bool_decide (rest = []) then [] else [rest]).

Definition replay_default : Replay := mkReplay 0 ∅ index_default.
Definition replay (now : Z) (lines : list bytes) : Replay := foldl (replay_line now) replay_default lines.

(** ** The store *)
Record LogWriter := mkWriter {
  lw_file : bytes;
  lw_next_seq : Z;
  lw_needs_separator : bool;
}.
Record JsonlSessionStore := mkJsonl {
  js_writer : LogWriter;
  js_index : SessionIndex;
  js_leases : list SessionLease;
}.
Definition js_held (st : JsonlSessionStore) : nat -> bool := held_by (js_leases st).
Definition with_index (x : SessionIndex) (st : JsonlSessionStore) : JsonlSessionStore :=
  mkJsonl (js_writer st) x (js_leases st).

(** [bundle.persisted = true] for every bundle. *)
Definition mark_all_persisted (x : SessionIndex) : SessionIndex :=
  mkIndex (si_by_id x) (si_by_fingerprint x) (si_by_retention x)
    ((fun b => mkBundle (bu_bytes b) (bu_citers b) true) <$> si_bundles x) (si_fresh x).

(** The lock is taken and the file can be read; an absent file is created. *)
Definition jsonl_open (file : option bytes) (now : Z) : JsonlSessionStore :=
  let contents := default [] file in
  let p := replay now (file_lines contents) in
  mkJsonl (mkWriter contents (rp_next_seq p) false) (mark_all_persisted (rp_index p)) [].

(** Oldest session first, then by id. *)
Definition session_le (a b : string * SessionEntry) : Prop :=
  (sd_established_at (se_stripped a.2) < sd_established_at (se_stripped b.2))%Z \/
  (sd_established_at (se_stripped a.2) = sd_established_at (se_stripped b.2) /\ String.le a.1 b.1).
#[global] Instance session_le_dec : RelDecision session_le.
Proof. intros a b. unfold session_le. apply _. Defined.

(** Records numbered from [seq] on. *)
Fixpoint evidence_lines (seq now : Z) (bundles : list Bundle) : list bytes :=
  match bundles with
  | [] => []
  | b :: bundles' => evidence_line seq now (bu_bytes b) :: evidence_lines (seq + 1) now bundles'
  end.
Fixpoint session_lines (seq now : Z) (sessions : list (string * SessionEntry)) : list bytes :=
  match sessions with
  | [] => []
  | (_, e) :: sessions' =>
      session_line seq now (se_fingerprint e) (se_retention_until e) (se_content_type e) (se_stripped e) ::
      session_lines (seq + 1) now sessions'
  end.
Definition compacted_lines (x : SessionIndex) (now : Z) : list bytes :=
  let bundles := snd <$> map_to_list (si_bundles x) in
  let sessions := merge_sort session_le (map_to_list (si_by_id x)) in
  evidence_lines 0 now bundles ++ session_lines (Z.of_nat (length bundles)) now sessions.

(** [failure] stands for an error of any file operation up to and including the
    rename; the log is then unchanged. *)
Definition compact (st : JsonlSessionStore) (now : Z) (failure : option string) :
    JsonlSessionStore * result string nat :=
  let x := evict_lapsed (js_held st) (js_index st) now in
  let lines := compacted_lines x now in
  match failure with
  | Some err => (with_index x st, Err err)
  | None =>
      (mkJsonl (mkWriter (concat lines) (Z.of_nat (length lines)) false) (mark_all_persisted x) (js_leases st),
       Ok (size (si_by_id x)))
  end.

(** [write_all]: [Some (k, err)] when it fails after [k] bytes. *)
Definition write_all (file out : bytes) (fault : option (nat * string)) : bytes * result string unit :=
  match fault with
  | None => (file ++ out, Ok ())
  | Some (k, err) => (file ++ take k out, Err err)
  end.

Definition jsonl_append (st : JsonlSessionStore) (fingerprint : string) (split : SplitSession)
    (retention_until now : Z) (fault : option (nat * string)) :
    JsonlSessionStore * result string (Z * SessionLease) :=
  let retention_until := Z.max retention_until (sd_expires_at (sp_stripped split)) in
  let id := sp_session_id split in
  let persisted := bundle_persisted (js_index st) (sp_digest split) in
  let overflow := "session log sequence number overflowed u64::MAX" in
  let w := js_writer st in
  let separator := if lw_needs_separator w then [lf] else [] in
  let evidence := if persisted then [] else evidence_line (lw_next_seq w) now (sp_bundle split) in
  match (seq ← ok_or overflow (if persisted then Some (lw_next_seq w) else u64_checked_add (lw_next_seq w) 1);
         next_seq ← ok_or overflow (u64_checked_add seq 1);
         Ok (seq, next_seq)) with
  | Err e => (st, Err e)
  | Ok (seq, next_seq) =>
      let out := separator ++ evidence ++
        session_line seq now fingerprint retention_until (sp_content_type split) (sp_stripped split) in
      match write_all (lw_file w) out fault with
      | (file, Err err) => (mkJsonl (mkWriter file (lw_next_seq w) true) (js_index st) (js_leases st), Err err)
      | (file, Ok _) =>
          let x := mark_persisted (index_insert (js_index st) fingerprint split retention_until) (sp_digest split) in
          match index_lease x id with
          | None => (mkJsonl (mkWriter file next_seq false) x (js_leases st), Err "unreachable: the id was just inserted")
          | Some lease =>
              let leases := lease :: js_leases st in
              (mkJsonl (mkWriter file next_seq false) (evict_lapsed (held_by leases) x now) leases, Ok (seq, lease))
          end
      end
  end.

(** [index.current] under the index lock; the lease joins those handed out. *)
Definition jsonl_current (st : JsonlSessionStore) (fingerprint : string) (retention_until now : Z) :
    JsonlSessionStore * option SessionLease :=
  let '(x, found) := index_current (js_held st) (js_index st) fingerprint retention_until now in
  (mkJsonl (js_writer st) x (match found with Some l => l :: js_leases st | None => js_leases st end), found).

Definition jsonl_current_or_seal (st : JsonlSessionStore) (fingerprint : string) (retention_until now : Z)
    (seal : unit -> result string AttestedSession) (fault : option (nat * string)) :
    JsonlSessionStore * result string SessionLease :=
  let '(st, found) := jsonl_current st fingerprint retention_until now in
  match found with
  | Some lease => (st, Ok lease)
  | None =>
      let '(st, found) := jsonl_current st fingerprint retention_until now in
      match found with
      | Some lease => (st, Ok lease)
      | None =>
          match (session ← seal (); split_new session) with
          | Err e => (st, Err e)
          | Ok split =>
              let '(st, r) := jsonl_append st fingerprint split retention_until now fault in (st, snd <$> r)
          end
      end
  end.

Definition jsonl_get (st : JsonlSessionStore) (session_id : string) (now : Z) :
    JsonlSessionStore * option AttestedSession :=
  let '(x, r) := index_get (js_held st) (js_index st) session_id now in (with_index x st, r).

Definition jsonl_extend (st : JsonlSessionStore) (lease : SessionLease) (deadline : Z) :
    JsonlSessionStore * result string unit :=
  match index_extend (js_index st) lease deadline with
  | Ok x => (with_index x st, Ok ())
  | Err e => (st, Err e)
  end.

(** ** Reading records *)
Lemma contains_comma s : contains "," s = false -> u8 44 ∉ as_bytes s.
Proof.
  unfold contains, split_once. intros Hc%bool_decide_eq_false Hin. apply Hc. rewrite fmap_is_Some.
  clear Hc. induction (as_bytes s) as [|c l IH]; [by apply elem_of_nil in Hin|].
  cbn [split_once_bytes]. destruct (strip_bytes _ (c :: l)) as [r|] eqn:Hs; [eauto|].
  apply elem_of_cons in Hin as [<-|Hin]; [|by rewrite fmap_is_Some; auto].
  exfalso. change (as_bytes ",") with [u8 44] in Hs. cbn [strip_bytes] in Hs.
  by rewrite bool_decide_eq_true_2 in Hs.
Qed.
Lemma clean_no_comma ct : clean_content_type ct = true -> u8 44 ∉ as_bytes ct.
Proof. unfold clean_content_type. intros [_ H]%negb_true_iff%orb_false_iff. by apply contains_comma. Qed.

Lemma trim_line v : trim_ascii (to_vec v ++ [lf]) = to_vec v.
Proof.
  destruct (to_vec_compact v) as [Hne Hc]. unfold trim_ascii.
  rewrite (trim_ascii_start_id (to_vec v ++ [lf])).
  - rewrite reverse_app. cbn [app reverse]. change (reverse [lf] ++ reverse (to_vec v)) with (lf :: reverse (to_vec v)).
    cbn [trim_ascii_start]. rewrite trim_ascii_start_id; [apply reverse_involutive|].
    intros c. rewrite head_reverse. auto.
  - intros c Hh. apply Hc. left. by destruct (to_vec v).
Qed.

(** A complete, well-formed record line is read as that record. *)
Lemma replay_line_record now p r :
  record_wf r -> (lr_seq r + 1 <= u64_max)%Z ->
  exists n, replay_line now p (record_line r) =
    replay_record now (mkReplay n (rp_bundles p) (rp_index p)) r.
Proof.
  intros Hr Hs. unfold replay_line, record_line. rewrite trim_line.
  rewrite bool_decide_eq_false_2 by apply to_vec_compact. rewrite record_from_to by done.
  unfold u64_checked_add. rewrite (proj2 (Z.leb_le _ _) Hs). eauto.
Qed.

(** ** Replay only adds *)
Definition present (x : SessionIndex) (id : string) (r : Z) : Prop :=
  exists e, si_by_id x !! id = Some e /\ (r <= se_retention_until e)%Z.

Lemma index_insert_present x fp split ret id r :
  present x id r -> present (index_insert x fp split ret) id r.
Proof.
  intros (e & He & Hr). unfold present, index_insert. cbv zeta. cbn [si_by_id].
  destruct (decide (sp_session_id split = id)) as [<-|Hne].
  - rewrite lookup_insert_eq, He. eexists. split; [done|]. cbn. lia.
  - rewrite lookup_insert_ne by done. eauto.
Qed.
Lemma index_insert_adds x fp split ret : present (index_insert x fp split ret) (sp_session_id split) ret.
Proof.
  destruct (index_insert_lookup x fp split ret) as (e & Hb & _ & Hr & _). exists e. rewrite Hb.
  by rewrite lookup_insert_eq.
Qed.

Record extends (p q : Replay) : Prop := {
  ex_bundles d : is_Some (rp_bundles p !! d) -> is_Some (rp_bundles q !! d);
  ex_sessions id r : present (rp_index p) id r -> present (rp_index q) id r;
}.
Lemma replay_line_extends now p l : extends p (replay_line now p l).
Proof.
  assert (forall q, extends q q) as Hrefl by (by split).
  unfold replay_line. destruct (bool_decide _); [done|]. destruct (record_from_slice _) as [r|]; [|done].
  destruct (u64_checked_add _ _); [|done]. unfold replay_record. destruct (bool_decide _).
  - destruct (b64_decode _) as [b|]; [|by split]. split; [|done]. cbn. intros d Hd.
    destruct (decide (sha256_hex b = d)) as [<-|]; [by rewrite lookup_insert_eq|by rewrite lookup_insert_ne].
  - destruct (bool_decide _); [|by split].
    destruct (lr_fingerprint r); [|by split]. destruct (lr_retention_until r) as [ret|]; [|by split].
    destruct (ret <=? now)%Z; [by split|]. destruct (replay_session _ _); [|by split].
    split; [done|]. cbn. intros. by apply index_insert_present.
Qed.
Lemma replay_lines_extends now p ls : extends p (foldl (replay_line now) p ls).
Proof.
  revert p. induction ls as [|l ls IH]; intros p; [by split|]. cbn.
  destruct (replay_line_extends now p l) as [H1 H2], (IH (replay_line now p l)) as [H3 H4].
  split; eauto.
Qed.

(** ** What replay builds *)
Record loggable (e : SessionEntry) : Prop := {
  lg_content_type : clean_content_type (se_content_type e) = true;
  lg_readable : readable session_from_slice (se_stripped e);
  lg_stripped : er_data_uri (sd_evidence (se_stripped e)) = None;
  lg_retention : is_u64 (se_retention_until e);
}.
Definition hashed_bundles (bundles : gmap string bytes) : Prop :=
  forall d b, bundles !! d = Some b -> sha256_hex b = d /\ hashed b.
Record replay_ok (p : Replay) : Prop := {
  ro_index : index_ok (rp_index p);
  ro_bundles : hashed_bundles (rp_bundles p);
  ro_entries id e : si_by_id (rp_index p) !! id = Some e -> loggable e;
}.

(** A session that can be logged and read back. *)
Record storable (session : AttestedSession) (split : SplitSession) : Prop := {
  sb_genuine : genuine session;
  sb_split : split_new session = Ok split;
  sb_content_type : clean_content_type (sp_content_type split) = true;
  sb_readable : readable session_from_slice (sp_stripped split);
}.

Lemma split_new_inv session split :
  split_new session = Ok split ->
  as_document session = with_evidence (sp_stripped split)
    (evidence_from_bytes (sp_content_type split) (sp_bundle split)) /\
  sp_digest split = sha256_hex (sp_bundle split) /\
  er_digest (sd_evidence (sp_stripped split)) = Some (sp_digest split) /\
  sd_expires_at (sp_stripped split) = sd_expires_at (as_document session) /\
  sp_stripped split = with_evidence (as_document session) (sd_evidence (sp_stripped split)) /\
  sp_session_id split = as_session_id session.
Proof.
  intros H. unfold split_new in H. bind_inv H. destruct a as [ct b]. injection H as <-. cbn.
  apply evidence_decode_inv in E as He. rewrite He. cbn. repeat split; try done.
  destruct (as_document session) eqn:Hd. cbn in *. by rewrite <- He.
Qed.

Lemma split_new_stripped session split :
  split_new session = Ok split -> er_data_uri (sd_evidence (sp_stripped split)) = None.
Proof. intros H. unfold split_new in H. bind_inv H. destruct a as [ct b]. by injection H as <-. Qed.

(** The strings that reading a line back hashes are among those of the deployment. *)
Record known_record (r : SessionLogRecord) : Prop := {
  kr_bundle b : lr_record_type r = RECORD_TYPE_EVIDENCE -> b64_decode (lr_payload_b64 r) = Some b -> hashed b;
  kr_session bundles split session : hashed_bundles bundles -> replay_session r bundles = Some split ->
    session_seal (with_evidence (sp_stripped split) (evidence_from_bytes (sp_content_type split) (sp_bundle split))) =
      Ok session -> hashed (as_bytes_ session);
}.
Definition known_line (l : bytes) : Prop :=
  forall r, trim_ascii l ≠ [] -> record_from_slice (trim_ascii l) = Some r -> known_record r.
Definition known_file (file : bytes) : Prop := Forall known_line (file_lines file).

Lemma replay_session_storable record bundles split :
  known_record record -> hashed_bundles bundles ->
  replay_session record bundles = Some split -> exists session, storable session split.
Proof.
  intros Hk Hbs Hrs. pose proof Hrs as H. revert H. unfold replay_session. destruct (lr_content_type record) as [ct|]; [|done]. cbn [mbind option_bind].
  destruct (clean_content_type ct) eqn:Hct; [|done]. cbn [negb].
  destruct (b64_decode _) as [doc|]; [|done]. cbn [mbind option_bind].
  destruct (session_from_slice doc) as [d|] eqn:Hd; [|done]. cbn [mbind option_bind].
  destruct (er_digest _) as [digest|]; [|done]. cbn [mbind option_bind].
  destruct (bundles !! digest) as [b|] eqn:Hb; [|done]. cbn [mbind option_bind].
  set (d' := with_evidence d (evidence_from_bytes ct b)).
  destruct (session_seal d') as [s|] eqn:Hs; [|done]. cbn [result_ok mbind option_bind].
  destruct (split_new s) as [sp|] eqn:Hsp; [|done]. intros [= ->]. exists s.
  assert (is_ok (jcs_bytes (document_to_value d')) = true /\ as_document s = d') as [Hj Hdoc].
  { unfold session_seal in Hs. bind_inv Hs. injection Hs as <-. by rewrite E. }
  pose proof (split_new_inv s split Hsp) as (H1 & _ & _ & _ & H5 & _).
  assert (evidence_decode (sd_evidence d') = Some (ct, b)) as Hev.
  { apply evidence_decode_from_bytes. by apply clean_no_comma. }
  split.
  - split; rewrite ?Hdoc; [done| |by apply session_parsed_depth with doc| |].
    + apply session_parsed_wf in Hd as [? ? ? ?]. by split.
    + eapply (kr_session _ Hk bundles split s Hbs Hrs). by rewrite <- H1, Hdoc.
    + intros ct' b'. rewrite Hev. intros [= <- <-]. by apply (Hbs _ _ Hb).
  - done.
  - unfold split_new in Hsp. rewrite Hdoc, Hev in Hsp. cbn in Hsp. by injection Hsp as <-.
  - rewrite H5, Hdoc. intros e. by apply (session_parsed_readable doc d (sd_evidence d')).
Qed.

Lemma storable_bundle session split : storable session split -> hashed (sp_bundle split).
Proof.
  intros [Hg Hsp _ _]. unfold split_new in Hsp. bind_inv Hsp. destruct a as [ct b]. injection Hsp as <-. cbn.
  by eapply (ge_bundle _ Hg).
Qed.
Lemma storable_expires session split : storable session split -> is_u64 (sd_expires_at (sp_stripped split)).
Proof.
  intros [Hg Hsp _ _]. destruct (split_new_inv _ _ Hsp) as (_ & _ & _ & -> & _). apply (ge_wf _ Hg).
Qed.

(** Entries stay loggable when a storable session is inserted. *)
Lemma index_insert_loggable x fp session split ret :
  storable session split -> is_u64 ret ->
  (forall id e, si_by_id x !! id = Some e -> loggable e) ->
  forall id e, si_by_id (index_insert x fp split ret) !! id = Some e -> loggable e.
Proof.
  intros Hst Hret Hall id e. unfold index_insert. cbv zeta. cbn [si_by_id].
  intros [[<- <-]|[_ He]]%lookup_insert_Some; [|by eapply Hall].
  pose proof (storable_expires _ _ Hst) as Hx.
  split; [apply Hst|apply Hst| |]; cbn.
  { by apply split_new_stripped with session, Hst. }
  unfold is_u64 in *.
  destruct (si_by_id x !! sp_session_id split) as [e0|] eqn:He0; [|lia].
  pose proof (lg_retention _ (Hall _ _ He0)) as Hr. unfold is_u64 in Hr. lia.
Qed.

Lemma replay_line_ok now p l : known_line l -> replay_ok p -> replay_ok (replay_line now p l).
Proof.
  intros Hk [Hi Hb He]. unfold replay_line. case_bool_decide as Hne; [done|].
  destruct (record_from_slice _) as [r|] eqn:Hr; [|done]. destruct (u64_checked_add _ _); [|done].
  specialize (Hk r Hne Hr). unfold replay_record. case_bool_decide as Hty.
  - destruct (b64_decode _) as [b|] eqn:Hpay; [|by split]. split; [done| |done]. cbn.
    intros d b' [[<- <-]|[_ Hd]]%lookup_insert_Some; [|auto]. split; [done|]. by apply (kr_bundle _ Hk).
  - destruct (bool_decide _); [|by split].
    destruct (lr_fingerprint r) as [fp|]; [|by split].
    destruct (lr_retention_until r) as [ret|] eqn:Hret; [|by split].
    destruct (ret <=? now)%Z; [by split|].
    destruct (replay_session _ _) as [sp|] eqn:Hs; [|by split].
    apply replay_session_storable in Hs as [session Hst]; [|done|done].
    pose proof (index_insert_ok (rp_index p) fp session sp ret Hi (sb_genuine _ _ Hst) (sb_split _ _ Hst)) as Hok.
    apply record_parsed_wf in Hr. split; [done|done|]. cbn.
    eapply index_insert_loggable; [done| |done]. by apply (rw_retention _ Hr).
Qed.

Lemma index_default_ok : index_ok index_default.
Proof.
  split; cbn; try done. intros t id. split; [by intros ?%hint_at_empty|by intros (e & ? & _)].
Qed.
Lemma replay_lines_ok now p ls : Forall known_line ls -> replay_ok p -> replay_ok (foldl (replay_line now) p ls).
Proof.
  intros Hls. revert p. induction Hls as [|l ls Hl _ IH]; intros p Hp; [done|]. cbn. by apply IH, replay_line_ok.
Qed.
Lemma replay_is_ok now ls : Forall known_line ls -> replay_ok (replay now ls).
Proof. intros Hls. apply replay_lines_ok; [done|]. split; [apply index_default_ok|done|done]. Qed.

(** An evidence line makes its bundle known. *)
Lemma replay_evidence now p seq ts b :
  is_u64 seq -> (seq + 1 <= u64_max)%Z -> is_u64 ts ->
  is_Some (rp_bundles (replay_line now p (evidence_line seq ts b)) !! sha256_hex b).
Proof.
  intros Hs Hs1 Ht. unfold evidence_line.
  destruct (replay_line_record now p (evidence_record seq ts b)) as [n ->]; [by split|done|].
  unfold replay_record. cbn [lr_record_type evidence_record lr_payload_b64].
  rewrite bool_decide_eq_true_2, b64_decode_encode by done. cbn. by rewrite lookup_insert_eq.
Qed.

(** A session record is read back as it was split, with the bundle of its digest. *)
Lemma replay_session_reads bundles seq ts fp ret session split split' :
  storable session split -> hashed_bundles bundles ->
  let r := session_record seq ts fp ret (sp_content_type split) (sp_stripped split) in
  (is_Some (bundles !! sp_digest split) -> replay_session r bundles = Some split) /\
  (replay_session r bundles = Some split' -> split' = split).
Proof.
  intros Hst Hbs r. destruct (split_new_inv _ _ (sb_split _ _ Hst)) as (Hdoc & Hdig & Her & _ & _ & Hid).
  assert (with_evidence (sp_stripped split) (sd_evidence (sp_stripped split)) = sp_stripped split) as Hw
    by (by destruct (sp_stripped split)).
  pose proof (sb_readable _ _ Hst (sd_evidence (sp_stripped split))) as Hread. rewrite Hw in Hread.
  unfold replay_session. cbn [r lr_content_type session_record mbind option_bind lr_payload_b64].
  rewrite (sb_content_type _ _ Hst). cbn [negb]. rewrite b64_decode_encode. cbn [mbind option_bind].
  rewrite Hread. cbn [mbind option_bind]. rewrite Her. cbn [mbind option_bind].
  destruct (bundles !! sp_digest split) as [b|] eqn:Hb; [|by split; [intros []|]]. cbn [mbind option_bind].
  destruct (Hbs _ _ Hb) as [Hh Hkh]. rewrite Hdig in Hh.
  apply sha256_hex_inj, hashed_inj in Hh as ->; [|done|by eapply storable_bundle].
  rewrite <- Hdoc, (ge_sealed _ (sb_genuine _ _ Hst)). cbn [result_ok mbind option_bind]. rewrite (sb_split _ _ Hst).
  split; [done|]. by intros [= <-].
Qed.

(** The lines the store writes only make a reader hash known strings. *)
Lemma known_line_lf l : known_line (l ++ [lf]) <-> known_line l.
Proof. unfold known_line. by rewrite trim_ascii_last. Qed.
Lemma record_line_known r : record_wf r -> known_record r -> known_line (record_line r).
Proof.
  intros Hr Hk r' _. unfold record_line. rewrite trim_line, record_from_to by done. by intros [= <-].
Qed.
Lemma evidence_line_known seq ts b : is_u64 seq -> is_u64 ts -> hashed b -> known_line (evidence_line seq ts b).
Proof.
  intros Hs Ht Hb. apply record_line_known; [by split|]. split; [|by intros ? ? ? _ ?].
  cbn. intros b' _. rewrite b64_decode_encode. by intros [= <-].
Qed.
Lemma session_line_known seq ts fp ret session split : is_u64 seq -> is_u64 ts -> is_u64 ret -> storable session split ->
  known_line (session_line seq ts fp ret (sp_content_type split) (sp_stripped split)).
Proof.
  intros Hs Ht Hr Hst. apply record_line_known; [split; [done|done|cbn; by intros ? [= <-]]|]. split; [done|].
  intros bundles sp' session' Hbs Hrs. destruct (split_new_inv _ _ (sb_split _ _ Hst)) as (Hdoc & _).
  apply (replay_session_reads bundles _ _ _ _ session split) in Hrs as ->; [|done|done].
  rewrite <- Hdoc, (ge_sealed _ (sb_genuine _ _ Hst)). intros [= <-]. apply (sb_genuine _ _ Hst).
Qed.

(** A session line after its bundle brings the session back. *)
Lemma replay_session_line now p seq ts fp ret session split :
  replay_ok p -> storable session split -> is_Some (rp_bundles p !! sp_digest split) ->
  is_u64 seq -> (seq + 1 <= u64_max)%Z -> is_u64 ts -> is_u64 ret -> (now < ret)%Z ->
  present (rp_index (replay_line now p (session_line seq ts fp ret (sp_content_type split) (sp_stripped split))))
    (sp_session_id split) ret.
Proof.
  intros Hp Hst Hb Hs Hs1 Ht Hr Hnow. unfold session_line.
  destruct (replay_line_record now p (session_record seq ts fp ret (sp_content_type split) (sp_stripped split)))
    as [n ->]; [split; [done|done|cbn; by intros ? [= <-]]|done|].
  unfold replay_record. cbn [lr_record_type session_record lr_fingerprint lr_retention_until].
  rewrite bool_decide_eq_false_2, bool_decide_eq_true_2 by done.
  destruct (Z.leb_spec ret now); [lia|].
  destruct (replay_session_reads (rp_bundles p) seq ts fp ret session split split Hst (ro_bundles _ Hp)) as [Hrs _].
  cbn [rp_bundles]. rewrite (Hrs Hb). cbn. apply index_insert_adds.
Qed.

(** ** Complete lines of the file *)
Definition complete (file : bytes) : list bytes := (fun l => l ++ [lf]) <$> (split_lines file).1.

Lemma complete_app a b :
  complete (a ++ b) = complete a ++ ((fun l => l ++ [lf]) <$> (split_lines ((split_lines a).2 ++ b)).1).
Proof. unfold complete. rewrite split_lines_app. cbn [fst]. by rewrite fmap_app. Qed.

Definition record_text (r : SessionLogRecord) : bytes := to_vec (record_to_value r).
Lemma record_text_no_lf (rs : list SessionLogRecord) : Forall (fun l => lf ∉ l) (record_text <$> rs).
Proof. apply Forall_fmap, Forall_true. intros r. apply to_vec_no_line_break. Qed.
Lemma record_lines_unlines (rs : list SessionLogRecord) : concat (record_line <$> rs) = unlines (record_text <$> rs).
Proof. unfold unlines. by rewrite <- list_fmap_compose. Qed.
Lemma record_lines_fmap (rs : list SessionLogRecord) : (fun l => l ++ [lf]) <$> (record_text <$> rs) = record_line <$> rs.
Proof. by rewrite <- list_fmap_compose. Qed.

(** Records appended at the start of a line, or after a separator. *)
Lemma complete_append file (sep : bool) (rs : list SessionLogRecord) :
  (sep = false -> (split_lines file).2 = []) ->
  let file' := file ++ (if sep then [lf] else []) ++ concat (record_line <$> rs) in
  complete file' = complete file ++ (if sep then [(split_lines file).2 ++ [lf]] else []) ++ (record_line <$> rs) /\
  (split_lines file').2 = [].
Proof.
  intros Hsep. cbn zeta. rewrite record_lines_unlines, complete_app, (split_lines_app file). cbn [snd].
  pose proof (split_lines_rest_no_lf file) as Hno. set (rest := (split_lines file).2) in *.
  assert (split_lines (rest ++ (if sep then [lf] else []) ++ unlines (record_text <$> rs)) =
    ((if sep then [rest] else []) ++ (record_text <$> rs), [])) as ->.
  { destruct sep.
    - cbn [app]. rewrite split_lines_line by done. by rewrite split_lines_unlines by apply record_text_no_lf.
    - rewrite (Hsep eq_refl). cbn [app]. by rewrite split_lines_unlines by apply record_text_no_lf. }
  cbn [fst snd]. split; [|done]. f_equal. rewrite fmap_app, record_lines_fmap. by destruct sep.
Qed.
Lemma complete_records (rs : list SessionLogRecord) : complete (concat (record_line <$> rs)) = record_line <$> rs /\
  (split_lines (concat (record_line <$> rs))).2 = [].
Proof. exact (complete_append [] false rs (fun _ => eq_refl)). Qed.

Lemma replay_extends now a b : extends (replay now a) (replay now (a ++ b)).
Proof. unfold replay. rewrite foldl_app. apply replay_lines_extends. Qed.

Lemma file_lines_complete file : exists tail, file_lines file = complete file ++ tail.
Proof. unfold file_lines, complete. destruct (split_lines file) as [ls rest]. cbn. eauto. Qed.

Lemma file_lines_closed file : (split_lines file).2 = [] -> file_lines file = complete file.
Proof.
  unfold file_lines, complete. destruct (split_lines file) as [ls rest]. cbn. intros ->.
  by rewrite bool_decide_eq_true_2, app_nil_r.
Qed.
(** The lines of the file, when the next record starts a line of its own. *)
Lemma known_separated file (sep : bool) : known_file file ->
  Forall known_line (complete file ++ (if sep then [(split_lines file).2 ++ [lf]] else [])).
Proof.
  unfold known_file, file_lines, complete. destruct (split_lines file) as [ls rest]. cbn [fst snd].
  intros [H1 H2]%Forall_app. apply Forall_app. split; [done|]. destruct sep; [|constructor].
  apply Forall_singleton, known_line_lf. case_bool_decide as Hr; [|by inversion H2].
  subst rest. by intros r [].
Qed.

(** ** Changes to the index that lose no logged session *)
Record shrinks (x x' : SessionIndex) : Prop := {
  sk_entries id e' : si_by_id x' !! id = Some e' ->
    exists e, si_by_id x !! id = Some e /\ se_stripped e' = se_stripped e /\
      se_content_type e' = se_content_type e /\
      (is_u64 (se_retention_until e) -> is_u64 (se_retention_until e'));
  sk_bundles d b' : si_bundles x' !! d = Some b' ->
    exists b, si_bundles x !! d = Some b /\ bu_persisted b' = bu_persisted b;
}.
#[global] Instance shrinks_preorder : PreOrder shrinks.
Proof.
  split.
  - intros x. split; eauto 10.
  - intros x y z [H1 H2] [H3 H4]. split.
    + intros id e' (e1 & He1 & ? & ? & ?)%H3. apply H1 in He1 as (e & He & ? & ? & ?).
      exists e. split_and!; [done|congruence|congruence|auto].
    + intros d b' (b1 & Hb1 & ?)%H4. apply H2 in Hb1 as (b & Hb & ?). exists b. split; [done|congruence].
Qed.
Lemma foldl_shrinks {A} (f : SessionIndex -> A -> SessionIndex) l x :
  (forall x a, shrinks x (f x a)) -> shrinks x (foldl f x l).
Proof.
  intros Hf. revert x. induction l as [|a l IH]; intros x; [reflexivity|]. cbn. etrans; [apply Hf|apply IH].
Qed.
Lemma evict_one_shrinks held t x id : shrinks x (evict_one held t x id).
Proof.
  unfold evict_one. destruct (si_by_id x !! id) as [e|]; [|reflexivity].
  destruct (held (se_token e)); [split; cbn; eauto 10|]. split; cbn.
  - intros i e' [_ He]%lookup_delete_Some. eauto 10.
  - intros d b'. unfold bundle_uncite. destruct (si_bundles x !! entry_digest e) as [b|] eqn:Hb; [|eauto].
    case_bool_decide; [intros [_ ?]%lookup_delete_Some; eauto|].
    intros [[<- <-]|[_ ?]]%lookup_insert_Some; eauto.
Qed.
Lemma evict_lapsed_shrinks held x now : shrinks x (evict_lapsed held x now).
Proof.
  apply foldl_shrinks. intros x' t. unfold evict_bucket.
  etrans; [|apply foldl_shrinks; intros; apply evict_one_shrinks]. split; cbn; eauto 10.
Qed.
Lemma index_extend_shrinks x l deadline x' :
  is_u64 deadline -> index_extend x l deadline = Ok x' -> shrinks x x'.
Proof.
  intros Hd. unfold index_extend.
  destruct (match si_by_id x !! le_session_id l with Some e => _ | None => None end) as [e|] eqn:He; [|done].
  cbn [ok_or mbind result_bind]. destruct (_ <? _)%Z; intros [= <-]; [|reflexivity].
  destruct (si_by_id x !! le_session_id l) as [e0|] eqn:He0; [|done]. case_bool_decide; [|done].
  injection He as ->. split; cbn; [|eauto].
  intros id e' [[<- <-]|[_ ?]]%lookup_insert_Some; [|eauto 10]. exists e. by cbn.
Qed.
Lemma index_current_shrinks held x fp ret now :
  is_u64 ret -> shrinks x (index_current held x fp ret now).1.
Proof.
  intros Hr. unfold index_current. etrans; [apply (evict_lapsed_shrinks held x now)|].
  set (x1 := evict_lapsed held x now). destruct (id ← _; _) as [[id e]|]; [|reflexivity].
  destruct (_ <=? _)%Z; [reflexivity|]. destruct (index_lease x1 id) as [l|]; [|reflexivity]. cbn.
  destruct (index_extend x1 l ret) as [x2|] eqn:Hx; [|reflexivity]. by eapply index_extend_shrinks.
Qed.

(** ** The durability invariant *)
(** What the complete lines of the file are worth: the bundles marked persisted
    are found by a replay at any time, and so are the sessions that are still valid
    at that time. *)
Record backed (file : bytes) (x : SessionIndex) : Prop := {
  ba_bundles d b now : si_bundles x !! d = Some b -> bu_persisted b = true ->
    is_Some (rp_bundles (replay now (complete file)) !! d);
  ba_sessions id e now : si_by_id x !! id = Some e -> (now < sd_expires_at (se_stripped e))%Z ->
    present (rp_index (replay now (complete file))) id (sd_expires_at (se_stripped e));
}.
Record durable (st : JsonlSessionStore) : Prop := {
  du_index : index_ok (js_index st);
  du_leases l : l ∈ js_leases st -> lease_ok (js_index st) l;
  du_entries id e : si_by_id (js_index st) !! id = Some e -> loggable e;
  du_seq : is_u64 (lw_next_seq (js_writer st));
  du_separator : lw_needs_separator (js_writer st) = false -> (split_lines (lw_file (js_writer st))).2 = [];
  du_backed : backed (lw_file (js_writer st)) (js_index st);
  du_known : known_file (lw_file (js_writer st));
}.

Lemma backed_shrinks file x x' : shrinks x x' -> backed file x -> backed file x'.
Proof.
  intros [He Hb] [H1 H2]. split.
  - intros d b' now (b & Hd & Hp)%Hb Hper. apply (H1 d b now Hd). congruence.
  - intros id e' now (e & Hi & Hs & _)%He. rewrite Hs. by apply H2.
Qed.
Lemma loggable_shrinks x x' : shrinks x x' ->
  (forall id e, si_by_id x !! id = Some e -> loggable e) ->
  forall id e, si_by_id x' !! id = Some e -> loggable e.
Proof.
  intros [He _] Hall id e' (e & Hi & Hs & Hc & Hr)%He. destruct (Hall _ _ Hi) as [H1 H2 H3 H4].
  split; rewrite ?Hc, ?Hs; auto.
Qed.
Lemma backed_extends file more x : backed file x -> backed (file ++ more) x.
Proof.
  intros [H1 H2]. split; rewrite complete_app.
  - intros d b now Hd Hp. apply (ex_bundles _ _ (replay_extends now (complete file) _)). eauto.
  - intros id e now Hi Hn. pose proof (H2 id e now Hi Hn) as Hp.
    by apply (ex_sessions _ _ (replay_extends now (complete file) _)).
Qed.

(** Any operation on the index alone. *)
Lemma durable_index st x leases :
  durable st -> shrinks (js_index st) x -> index_ok x -> (forall l, l ∈ leases -> lease_ok x l) ->
  durable (mkJsonl (js_writer st) x leases).
Proof.
  intros [Hi Hl He Hs Hsep Hb Hk] Hsh Hok Hlok. split; cbn; try done.
  - by eapply loggable_shrinks.
  - by eapply backed_shrinks.
Qed.

(** *** Marking bundles persisted *)
Lemma mark_persisted_by_id x d : si_by_id (mark_persisted x d) = si_by_id x.
Proof. unfold mark_persisted. by destruct (si_bundles x !! d). Qed.
Lemma index_ok_bundles x x' :
  si_by_id x' = si_by_id x -> si_by_retention x' = si_by_retention x -> si_fresh x' = si_fresh x ->
  (forall d, bu_citers <$> si_bundles x' !! d = bu_citers <$> si_bundles x !! d) ->
  (forall d, bu_bytes <$> si_bundles x' !! d = bu_bytes <$> si_bundles x !! d) ->
  index_ok x -> index_ok x'.
Proof.
  intros Hid Hret Hfr Hcit Hby [Hh Hb He Hc Hbu Ht Hf]. split; rewrite ?Hid, ?Hret, ?Hfr; try done.
  - intros d. by rewrite Hcit.
  - intros d b' Hd. pose proof (Hby d) as Hy. rewrite Hd in Hy.
    destruct (si_bundles x !! d) as [b|] eqn:Hb0; [|done]. injection Hy as ->. by apply Hbu.
Qed.
Lemma mark_persisted_ok x d : index_ok x -> index_ok (mark_persisted x d).
Proof.
  intros Hok. unfold mark_persisted. destruct (si_bundles x !! d) as [b|] eqn:Hb; [|done].
  eapply index_ok_bundles, Hok; try done; cbn; intros d';
    (destruct (decide (d = d')) as [<-|]; [by rewrite lookup_insert_eq, Hb|by rewrite lookup_insert_ne]).
Qed.
Lemma mark_all_persisted_ok x : index_ok x -> index_ok (mark_all_persisted x).
Proof.
  intros Hok. eapply index_ok_bundles, Hok; try done; cbn; intros d; rewrite lookup_fmap;
    by destruct (si_bundles x !! d).
Qed.

(** Every entry can be written and read back. *)
Lemma entry_storable id e : entry_ok id e -> loggable e ->
  exists session split, storable session split /\ sp_session_id split = id /\
    sp_stripped split = se_stripped e /\ sp_content_type split = se_content_type e /\
    sp_digest split = entry_digest e.
Proof.
  intros [(b & s & Hg & _ & Hid & Hd & Hdoc) _] [Hct Hread Hnone _].
  exists s, (mkSplit id (se_stripped e) (entry_digest e) (se_content_type e) b).
  split_and!; try done. split; try done. unfold split_new. rewrite Hdoc. cbn [sd_evidence with_evidence].
  rewrite evidence_decode_from_bytes by (by apply clean_no_comma). cbn [ok_or mbind result_bind]. f_equal.
  rewrite Hid. unfold entry_digest. rewrite Hd. cbn. f_equal.
  destruct (se_stripped e) as [a1 a2 a3 a4 a5 a6 a7 a8 a9 [dg du]]. cbn in *. by subst.
Qed.

(** *** Appending *)
(** The records an append writes. *)
Definition append_records (persisted : bool) (seq seq' ts : Z) (fp : string) (ret : Z) (split : SplitSession) :
    list SessionLogRecord :=
  (if persisted then [] else [evidence_record seq ts (sp_bundle split)]) ++
  [session_record seq' ts fp ret (sp_content_type split) (sp_stripped split)].

(** After a replay that knows the bundle when no evidence record is written, the
    records bring back bundle and session. *)
Lemma replay_append_records now p persisted seq seq' ts fp ret session split :
  storable session split ->
  (persisted = true -> is_Some (rp_bundles p !! sp_digest split)) ->
  is_u64 seq -> (seq + 1 <= u64_max)%Z -> is_u64 seq' -> (seq' + 1 <= u64_max)%Z -> is_u64 ts -> is_u64 ret ->
  let q := foldl (replay_line now) p (record_line <$> append_records persisted seq seq' ts fp ret split) in
  is_Some (rp_bundles q !! sp_digest split) /\
  (replay_ok p -> (now < ret)%Z -> present (rp_index q) (sp_session_id split) ret).
Proof.
  intros Hst Hper H1 H2 H3 H4 H5 H6 q. unfold q, append_records. rewrite fmap_app, foldl_app.
  set (p1 := foldl _ p (record_line <$> (if persisted then _ else _))).
  assert (is_Some (rp_bundles p1 !! sp_digest split)) as Hb.
  { unfold p1. destruct persisted; [by apply Hper|]. cbn.
    destruct (split_new_inv _ _ (sb_split _ _ Hst)) as (_ & -> & _). by apply replay_evidence. }
  cbn [fmap list_fmap foldl]. split.
  - by apply (ex_bundles _ _ (replay_line_extends now p1 _)).
  - intros Hp Hn. apply (replay_session_line now p1 seq' ts fp ret session); try done.
    apply replay_lines_ok; [|done]. destruct persisted; [constructor|]. apply Forall_singleton, evidence_line_known; try done.
    by eapply storable_bundle.
Qed.

Lemma append_records_known (persisted : bool) seq seq' ts fp ret session split :
  storable session split -> is_u64 seq -> is_u64 seq' -> is_u64 ts -> is_u64 ret ->
  Forall known_line (record_line <$> append_records persisted seq seq' ts fp ret split).
Proof.
  intros Hst H1 H2 H3 H4. unfold append_records. rewrite fmap_app. apply Forall_app. split.
  - destruct persisted; [constructor|]. apply Forall_singleton, evidence_line_known; try done. by eapply storable_bundle.
  - apply Forall_singleton. by eapply session_line_known.
Qed.

Lemma bundle_persisted_spec x d :
  bundle_persisted x d = true <-> exists b, si_bundles x !! d = Some b /\ bu_persisted b = true.
Proof. unfold bundle_persisted. destruct (si_bundles x !! d); naive_solver. Qed.

(** Bundles after an insertion whose digest is then marked. *)
Lemma inserted_bundles x fp split ret d b :
  si_bundles (mark_persisted (index_insert x fp split ret) (sp_digest split)) !! d = Some b ->
  bu_persisted b = true -> d = sp_digest split \/ exists b0, si_bundles x !! d = Some b0 /\ bu_persisted b0 = true.
Proof.
  intros Hd Hp. destruct (decide (d = sp_digest split)) as [->|Hne]; [by left|right]. unfold mark_persisted in Hd.
  assert (si_bundles (index_insert x fp split ret) !! d = Some b) as Hd'.
  { destruct (si_bundles (index_insert x fp split ret) !! sp_digest split); [|done].
    cbn in Hd. by rewrite lookup_insert_ne in Hd. }
  unfold index_insert in Hd'. cbv zeta in Hd'. cbn [si_bundles] in Hd'.
  destruct (si_by_id x !! sp_session_id split); [eauto|]. unfold bundle_cite in Hd'.
  destruct (si_bundles x !! sp_digest split); rewrite lookup_insert_ne in Hd' by done; eauto.
Qed.

Lemma append_backed file (sep : bool) persisted x seq seq' ts fp ret session split :
  (sep = false -> (split_lines file).2 = []) -> backed file x -> storable session split ->
  bundle_persisted x (sp_digest split) = persisted ->
  is_u64 seq -> (seq + 1 <= u64_max)%Z -> is_u64 seq' -> (seq' + 1 <= u64_max)%Z -> is_u64 ts -> is_u64 ret ->
  (sd_expires_at (sp_stripped split) <= ret)%Z ->
  let file' := file ++ (if sep then [lf] else []) ++
    concat (record_line <$> append_records persisted seq seq' ts fp ret split) in
  known_file file ->
  (split_lines file').2 = [] /\ known_file file' /\
  backed file' (mark_persisted (index_insert x fp split ret) (sp_digest split)).
Proof.
  intros Hsep Hb Hst Hper H1 H2 H3 H4 H5 H6 Hexp file' Hknown.
  destruct (complete_append file sep (append_records persisted seq seq' ts fp ret split) Hsep) as [Hc Hrest].
  split; [exact Hrest|]. fold file' in Hc, Hrest.
  assert (Forall known_line (complete file ++ (if sep then [(split_lines file).2 ++ [lf]] else []))) as Hk1
    by by apply known_separated.
  assert (known_file file') as Hk.
  { unfold known_file. rewrite (file_lines_closed file' Hrest), Hc, app_assoc. apply Forall_app. split; [done|].
    by eapply append_records_known. }
  split; [exact Hk|].
  pose proof (backed_extends file ((if sep then [lf] else []) ++
    concat (record_line <$> append_records persisted seq seq' ts fp ret split)) x Hb) as [Hb1 Hb2]. fold file' in Hb1, Hb2.
  assert (forall now, let q := replay now (complete file') in
    is_Some (rp_bundles q !! sp_digest split) /\
    ((now < ret)%Z -> present (rp_index q) (sp_session_id split) ret)) as Hnew.
  { intros now. cbn zeta. rewrite Hc, app_assoc. unfold replay. rewrite foldl_app.
    set (before := complete file ++ _).
    destruct (replay_append_records now (replay now before) persisted seq seq' ts fp ret session split)
      as [Hq1 Hq2]; try done.
    - intros ->. apply bundle_persisted_spec in Hper as (b & Hd & Hpb).
      apply (ex_bundles _ _ (replay_extends now (complete file) _)). by eapply (ba_bundles _ _ Hb).
    - split; [exact Hq1|]. intros Hn. apply Hq2; [by apply replay_is_ok|done]. }
  split.
  - intros d b now Hd Hp. destruct (inserted_bundles _ _ _ _ _ _ Hd Hp) as [->|(b0 & Hd0 & Hp0)]; [apply Hnew|eauto].
  - intros id e now. rewrite mark_persisted_by_id. destruct (index_insert_lookup x fp split ret) as (e1 & -> & Hs & _).
    intros [[<- <-]|[_ He]]%lookup_insert_Some Hn; [|by apply Hb2]. rewrite Hs in *.
    destruct (proj2 (Hnew now)) as (e2 & He2 & Hr); [lia|]. exists e2. split; [done|lia].
Qed.

Lemma append_records_bytes persisted seq seq' ts fp ret split :
  concat (record_line <$> append_records persisted seq seq' ts fp ret split) =
  (if persisted then [] else evidence_line seq ts (sp_bundle split)) ++
  session_line seq' ts fp ret (sp_content_type split) (sp_stripped split).
Proof. destruct persisted; cbn; by rewrite ?app_nil_r. Qed.

Lemma checked_add_some a b c : u64_checked_add a b = Some c -> c = (a + b)%Z /\ (a + b <= u64_max)%Z.
Proof. unfold u64_checked_add. destruct (Z.leb_spec (a + b) u64_max); naive_solver. Qed.

Lemma jsonl_append_durable st fp session split ret now fault :
  durable st -> storable session split -> is_u64 ret -> is_u64 now ->
  (fault ≠ None -> known_file (lw_file (js_writer (jsonl_append st fp split ret now fault).1))) ->
  durable (jsonl_append st fp split ret now fault).1.
Proof.
  intros Hst Hsb Hret Hnow. pose proof Hst as [Hi Hl He Hs Hsep Hb Hk]. unfold jsonl_append.
  pose proof (storable_expires _ _ Hsb) as Hexp. set (ret' := Z.max ret _).
  assert (is_u64 ret') as Hret' by (unfold ret', is_u64 in *; lia).
  set (per := bundle_persisted (js_index st) (sp_digest split)). set (w := js_writer st) in *.
  destruct (seq ← ok_or _ _; _) as [[seq next]|err] eqn:Hseq; [|done].
  bind_inv Hseq. injection Hseq as -> ->. apply checked_add_some in E0 as [-> Hs1].
  assert ((lw_next_seq w + 1 <= u64_max)%Z /\ is_u64 seq) as [Hs0 Hsq].
  { destruct per; [injection E as <-; split; [exact Hs1|exact Hs]|]. apply checked_add_some in E as [-> ?]. unfold is_u64 in *. lia. }
  rewrite <- (append_records_bytes per (lw_next_seq w) seq now fp ret' split).
  destruct fault as [[k err]|]; cbn [write_all].
  - intros Hkf. split; cbn; try done; [by apply backed_extends|by apply Hkf].
  - set (x := mark_persisted _ _). intros _.
    destruct (append_backed (lw_file w) (lw_needs_separator w) per (js_index st) (lw_next_seq w) seq now fp ret'
      session split Hsep Hb Hsb) as (Hrest & Hkn & Hback); try done; [unfold ret'; lia|]. fold x in Hback.
    assert (index_ok x) as Hx.
    { apply mark_persisted_ok. by apply (index_insert_ok (js_index st) fp session split ret' Hi (sb_genuine _ _ Hsb) (sb_split _ _ Hsb)). }
    assert (forall l, l ∈ js_leases st -> lease_ok x l) as Hlx.
    { intros l Hin.
      destruct (insert_preserves_leases (js_index st) fp session split ret' l Hi (sb_genuine _ _ Hsb) (sb_split _ _ Hsb))
        as (e & Hle & Hrst); [by apply Hl|]. exists e. unfold x. by rewrite mark_persisted_by_id. }
    assert (forall leases, (forall l, l ∈ leases -> lease_ok x l) ->
      durable (mkJsonl (mkWriter (lw_file w ++ (if lw_needs_separator w then [lf] else []) ++
        concat (record_line <$> append_records per (lw_next_seq w) seq now fp ret' split)) (seq + 1) false) x leases)) as Hd.
    { intros leases Hls. split; cbn; try done.
      - unfold x. rewrite mark_persisted_by_id. by eapply index_insert_loggable.
      - unfold is_u64 in *. lia. }
    destruct (index_lease x (sp_session_id split)) as [lease|] eqn:Hlease; [|by apply Hd]. cbn [fst].
    assert (lease_ok x lease) as Hlok.
    { unfold index_lease in Hlease. destruct (si_by_id x !! _) as [e|] eqn:Hx1; [|done]. injection Hlease as <-.
      by exists e. }
    assert (forall l, l ∈ lease :: js_leases st -> lease_ok x l) as Hall
      by (intros l [->|?]%elem_of_cons; auto).
    apply (durable_index _ (evict_lapsed (held_by (lease :: js_leases st)) x now) (lease :: js_leases st) (Hd _ Hall)).
    + apply evict_lapsed_shrinks.
    + by apply evict_lapsed_spec.
    + intros l Hin. apply evict_lapsed_lease; auto.
Qed.

(** *** Compaction *)
Lemma evidence_lines_records seq now l : exists rs, evidence_lines seq now l = record_line <$> rs.
Proof.
  revert seq. induction l as [|b l IH]; intros seq; [by exists []|]. destruct (IH (seq + 1)%Z) as [rs Hrs].
  exists (evidence_record seq now (bu_bytes b) :: rs). cbn. by rewrite Hrs.
Qed.
Lemma session_lines_records seq now l : exists rs, session_lines seq now l = record_line <$> rs.
Proof.
  revert seq. induction l as [|[id e] l IH]; intros seq; [by exists []|]. destruct (IH (seq + 1)%Z) as [rs Hrs].
  eexists (_ :: rs). cbn. rewrite Hrs. done.
Qed.
Lemma evidence_lines_elem seq now l b : b ∈ l ->
  exists k l1 l2, evidence_lines seq now l = l1 ++ evidence_line (seq + Z.of_nat k) now (bu_bytes b) :: l2 /\ k < length l.
Proof.
  intros Hin. revert seq. induction Hin as [b l|b b' l _ IH]; intros seq.
  - exists 0, [], (evidence_lines (seq + 1) now l). cbn. rewrite Z.add_0_r. split; [done|lia].
  - destruct (IH (seq + 1)%Z) as (k & l1 & l2 & Hk & Hlt).
    exists (S k), (evidence_line seq now (bu_bytes b') :: l1), l2. cbn [evidence_lines length]. rewrite Hk. split; [|lia].
    by replace (seq + 1 + Z.of_nat k)%Z with (seq + Z.of_nat (S k))%Z by lia.
Qed.
Lemma session_lines_elem seq now l id e : (id, e) ∈ l ->
  exists k l1 l2, session_lines seq now l =
    l1 ++ session_line (seq + Z.of_nat k) now (se_fingerprint e) (se_retention_until e) (se_content_type e) (se_stripped e) :: l2 /\
    k < length l.
Proof.
  intros Hin. remember (id, e) as p eqn:Hp. revert seq. induction Hin as [p l|p [id' e'] l _ IH]; intros seq; subst.
  - exists 0, [], (session_lines (seq + 1) now l). cbn. rewrite Z.add_0_r. split; [done|lia].
  - destruct (IH eq_refl (seq + 1)%Z) as (k & l1 & l2 & Hk & Hlt). eexists (S k), (_ :: l1), l2.
    cbn [session_lines length]. rewrite Hk. split; [|lia].
    by replace (seq + 1 + Z.of_nat k)%Z with (seq + Z.of_nat (S k))%Z by lia.
Qed.

(** The log's records can be numbered. *)
Definition fits (x : SessionIndex) : Prop :=
  (Z.of_nat (size (si_bundles x) + size (si_by_id x)) <= u64_max)%Z.

Lemma evidence_lines_known seq ts l : is_u64 seq -> (seq + Z.of_nat (length l) <= u64_max)%Z -> is_u64 ts ->
  Forall (fun b => hashed (bu_bytes b)) l -> Forall known_line (evidence_lines seq ts l).
Proof.
  intros Hs Hl Ht HF. revert seq Hs Hl. induction HF as [|b l Hb HF IH]; intros seq Hs Hl; cbn; [constructor|].
  cbn [length] in Hl. constructor; [by apply evidence_line_known|]. apply IH; unfold is_u64 in *; lia.
Qed.
Lemma session_lines_known seq ts l : is_u64 seq -> (seq + Z.of_nat (length l) <= u64_max)%Z -> is_u64 ts ->
  Forall (fun ie => entry_ok ie.1 ie.2 /\ loggable ie.2) l -> Forall known_line (session_lines seq ts l).
Proof.
  intros Hs Hl Ht HF. revert seq Hs Hl. induction HF as [|[id e] l [He Hg] HF IH]; intros seq Hs Hl; cbn; [constructor|].
  cbn [length] in Hl. constructor; [|apply IH; unfold is_u64 in *; lia].
  destruct (entry_storable id e He Hg) as (session & sp & Hsb & _ & <- & <- & _).
  eapply session_line_known; [done|done|by apply Hg|done].
Qed.
Lemma compacted_known x ts ss : index_ok x -> (forall id e, si_by_id x !! id = Some e -> loggable e) ->
  ss ≡ₚ map_to_list (si_by_id x) -> is_u64 ts ->
  let bs := snd <$> map_to_list (si_bundles x) in
  (Z.of_nat (length bs + length ss) <= u64_max)%Z ->
  Forall known_line (evidence_lines 0 ts bs ++ session_lines (Z.of_nat (length bs)) ts ss).
Proof.
  intros Hok Hlog Hss Hts bs Hfit. apply Forall_app. split.
  - apply evidence_lines_known; [unfold is_u64, u64_max; lia|lia|done|]. apply Forall_fmap, Forall_forall.
    intros [d b] Hin%elem_of_map_to_list. by apply (ii_bundle _ x Hok d b).
  - apply session_lines_known; [unfold is_u64; lia|lia|done|]. apply Forall_forall. intros [id e] Hin. cbn.
    rewrite Hss in Hin. apply elem_of_map_to_list in Hin. split; [by apply (ii_entry _ x Hok)|eauto].
Qed.

Lemma compacted_replay x ts now :
  index_ok x -> (forall id e, si_by_id x !! id = Some e -> loggable e) -> fits x -> is_u64 ts ->
  let q := replay now (compacted_lines x ts) in
  (forall d, is_Some (si_bundles x !! d) -> is_Some (rp_bundles q !! d)) /\
  (forall id e, si_by_id x !! id = Some e -> (now < se_retention_until e)%Z ->
   present (rp_index q) id (se_retention_until e)) /\
  Forall known_line (compacted_lines x ts).
Proof.
  intros Hok Hlog Hfit Hts q. unfold q, compacted_lines, fits in *.
  set (bs := snd <$> map_to_list (si_bundles x)). set (ss := merge_sort session_le _).
  assert (length bs = size (si_bundles x)) as Hlb by (unfold bs; by rewrite length_fmap, length_map_to_list).
  assert (length ss = size (si_by_id x)) as Hls by (unfold ss; by rewrite (merge_sort_Permutation session_le), length_map_to_list).
  assert (forall d, is_Some (si_bundles x !! d) -> is_Some (rp_bundles (replay now (evidence_lines 0 ts bs)) !! d)) as Hev.
  { intros d [b Hd]. destruct (evidence_lines_elem 0 ts bs b) as (k & l1 & l2 & -> & Hk).
    { apply list_elem_of_fmap. exists (d, b). split; [done|]. by apply elem_of_map_to_list. }
    unfold replay. rewrite foldl_app. cbn [foldl]. apply (ex_bundles _ _ (replay_lines_extends now _ l2)).
    destruct (ii_bundle _ x Hok d b Hd) as [<- _]. apply replay_evidence; unfold is_u64 in *; lia. }
  assert (Forall known_line (evidence_lines 0 ts bs ++ session_lines (Z.of_nat (length bs)) ts ss)) as Hknown
    by (apply compacted_known; [done|done|apply merge_sort_Permutation|done|fold bs; lia]).
  split; [|split; [|exact Hknown]].
  { intros d Hd. apply (ex_bundles _ _ (replay_extends now _ _)). auto. }
  intros id e He Hn. destruct (session_lines_elem (Z.of_nat (length bs)) ts ss id e) as (k & l1 & l2 & Hk & Hlt).
  { unfold ss. rewrite (merge_sort_Permutation session_le). by apply elem_of_map_to_list. }
  rewrite Hk, app_assoc in Hknown. apply Forall_app in Hknown as [Hkb _].
  rewrite Hk, app_assoc. set (before := evidence_lines 0 ts bs ++ l1). unfold replay. rewrite foldl_app. cbn [foldl].
  destruct (entry_storable id e) as (session & sp & Hsb & <- & <- & <- & Hdig); [by apply (ii_entry _ x Hok)|eauto|].
  pose proof (replay_is_ok now before Hkb) as Hp.
  apply (ex_sessions _ _ (replay_lines_extends now _ l2)).
  apply (replay_session_line now (replay now before) (Z.of_nat (length bs) + Z.of_nat k) ts (se_fingerprint e)
    (se_retention_until e) session sp Hp Hsb).
  - apply (ex_bundles _ _ (replay_extends now _ _)), Hev. rewrite Hdig.
    pose proof (ii_citers _ x Hok (entry_digest e)) as Hc. pose proof (citers_pos _ _ _ He) as Hpos.
    rewrite bool_decide_eq_false_2 in Hc by lia. by destruct (si_bundles x !! entry_digest e).
  - unfold is_u64. lia.
  - lia.
  - done.
  - by apply (Hlog _ _ He).
  - done.
Qed.

Lemma compacted_file x ts : complete (concat (compacted_lines x ts)) = compacted_lines x ts /\
  (split_lines (concat (compacted_lines x ts))).2 = [] /\
  length (compacted_lines x ts) = size (si_bundles x) + size (si_by_id x).
Proof.
  assert (exists rs, compacted_lines x ts = record_line <$> rs) as [rs Hrs].
  { unfold compacted_lines. destruct (evidence_lines_records 0 ts (snd <$> map_to_list (si_bundles x))) as [r1 ->].
    destruct (session_lines_records (Z.of_nat (length (snd <$> map_to_list (si_bundles x)))) ts
      (merge_sort session_le (map_to_list (si_by_id x)))) as [r2 ->].
    exists (r1 ++ r2). by rewrite fmap_app. }
  destruct (complete_records rs) as [H1 H2]. rewrite <- Hrs in H1, H2. split_and!; [done|done|].
  unfold compacted_lines. rewrite length_app.
  assert (forall l seq, length (evidence_lines seq ts l) = length l) as ->.
  { induction l as [|b l IH]; intros seq; cbn; [done|by rewrite IH]. }
  assert (forall l seq, length (session_lines seq ts l) = length l) as ->.
  { induction l as [|[i e] l IH]; intros seq; cbn; [done|by rewrite IH]. }
  by rewrite length_fmap, (merge_sort_Permutation session_le), !length_map_to_list.
Qed.

(** A successful compaction of any consistent store establishes durability. *)
Lemma compact_establishes st now :
  index_ok (js_index st) -> (forall l, l ∈ js_leases st -> lease_ok (js_index st) l) ->
  (forall id e, si_by_id (js_index st) !! id = Some e -> loggable e) ->
  is_u64 now -> fits (evict_lapsed (js_held st) (js_index st) now) ->
  durable (compact st now None).1.
Proof.
  intros Hi Hl He Hnow Hfit. unfold compact. cbn [fst]. set (x := evict_lapsed _ _ now) in *.
  destruct (evict_lapsed_spec (js_held st) (js_index st) now Hi) as [Hx _]. fold x in Hx.
  assert (forall id e, si_by_id x !! id = Some e -> loggable e) as Hlog
    by (eapply loggable_shrinks; [apply evict_lapsed_shrinks|exact He]).
  destruct (compacted_file x now) as (Hc & Hr & Hlen). split; cbn; try done.
  - by apply mark_all_persisted_ok.
  - intros l Hin. by apply (evict_lapsed_lease (js_index st) (js_leases st)); auto.
  - rewrite Hlen. unfold fits, is_u64 in *. lia.
  - split; rewrite Hc.
    + intros d b t. cbn. rewrite lookup_fmap. intros (b0 & Hb & _)%fmap_Some _.
      by apply (compacted_replay x now t).
    + cbn. intros id e t Hid Ht. pose proof (eo_retention _ _ (ii_entry _ x Hx _ _ Hid)) as Hle.
      destruct (compacted_replay x now t Hx Hlog Hfit Hnow) as (_ & Hp & _).
      destruct (Hp id e Hid) as (e' & He' & Hr'); [lia|]. exists e'. split; [done|lia].
  - unfold known_file. rewrite (file_lines_closed _ Hr), Hc. by apply (compacted_replay x now now).
Qed.

(** ** Executions *)
Definition known_log (st : JsonlSessionStore) : Prop := known_file (lw_file (js_writer st)).
(** What a failed write leaves at the end of the file is known, too. *)
Inductive log_step (st : JsonlSessionStore) : JsonlSessionStore -> Prop :=
| ls_get id now : log_step st (jsonl_get st id now).1
| ls_current fp ret now : is_u64 ret -> log_step st (jsonl_current st fp ret now).1
| ls_seal fp ret now seal fault :
    is_u64 ret -> is_u64 now ->
    (forall session split, seal () = Ok session -> split_new session = Ok split -> storable session split) ->
    (fault ≠ None -> known_log (jsonl_current_or_seal st fp ret now seal fault).1) ->
    log_step st (jsonl_current_or_seal st fp ret now seal fault).1
| ls_extend l deadline : l ∈ js_leases st -> is_u64 deadline -> log_step st (jsonl_extend st l deadline).1
| ls_clone l : l ∈ js_leases st -> log_step st (mkJsonl (js_writer st) (js_index st) (l :: js_leases st))
| ls_drop l : log_step st (mkJsonl (js_writer st) (js_index st) (remove_first l (js_leases st)))
| ls_compact now failure :
    is_u64 now -> fits (evict_lapsed (js_held st) (js_index st) now) ->
    log_step st (compact st now failure).1.

(** The gateway opens its log and compacts it before it serves (src/main.rs). *)
Definition startup (file : option bytes) (now : Z) : JsonlSessionStore := (compact (jsonl_open file now) now None).1.

Lemma durable_evict st now : durable st -> durable (with_index (evict_lapsed (js_held st) (js_index st) now) st).
Proof.
  intros Hd. pose proof Hd as [Hi Hl _ _ _ _]. apply durable_index; [done|apply evict_lapsed_shrinks| |].
  - by apply evict_lapsed_spec.
  - intros l Hin. apply evict_lapsed_lease; auto.
Qed.
Lemma jsonl_get_durable st id now : durable st -> durable (jsonl_get st id now).1.
Proof. intros Hd. unfold jsonl_get, index_get. cbn [fst]. by apply durable_evict. Qed.

Lemma jsonl_current_durable st fp ret now :
  durable st -> is_u64 ret -> durable (jsonl_current st fp ret now).1.
Proof.
  intros Hd Hret. pose proof Hd as [Hi Hl _ _ _ _]. unfold jsonl_current.
  pose proof (index_current_shrinks (js_held st) (js_index st) fp ret now Hret) as Hsh.
  destruct (index_current_spec (js_held st) (js_index st) fp ret now Hi)
    as [(e & l & x2 & Hc & Hok2 & _ & He & _ & Hlok & _ & Hb)|Hc]; rewrite Hc in *; cbn [fst] in *.
  - apply durable_index; [done|done|done|].
    assert (forall l', lease_ok (evict_lapsed (js_held st) (js_index st) now) l' -> lease_ok x2 l') as Hpres
      by (intros l' Hl'; by eapply (lease_ok_insert _ x2 _ e)).
    intros l' [->|Hin]%elem_of_cons; [auto|]. apply Hpres, evict_lapsed_lease; auto.
  - by apply durable_evict.
Qed.

Lemma jsonl_seal_durable st fp ret now seal fault :
  durable st -> is_u64 ret -> is_u64 now ->
  (forall session split, seal () = Ok session -> split_new session = Ok split -> storable session split) ->
  (fault ≠ None -> known_log (jsonl_current_or_seal st fp ret now seal fault).1) ->
  durable (jsonl_current_or_seal st fp ret now seal fault).1.
Proof.
  intros Hd Hret Hnow Hseal. unfold jsonl_current_or_seal, known_log.
  pose proof (jsonl_current_durable st fp ret now Hd Hret) as Hd1.
  destruct (jsonl_current st fp ret now) as [st1 [l|]]; [done|]. cbn [fst] in Hd1.
  pose proof (jsonl_current_durable st1 fp ret now Hd1 Hret) as Hd2.
  destruct (jsonl_current st1 fp ret now) as [st2 [l|]]; [done|]. cbn [fst] in Hd2.
  destruct (seal ()) as [session|]; [|done]. cbn [mbind result_bind].
  destruct (split_new session) as [sp|] eqn:Hsp; [|done].
  pose proof (jsonl_append_durable st2 fp session sp ret now fault Hd2 (Hseal _ _ eq_refl Hsp) Hret Hnow) as Hd3.
  by destruct (jsonl_append st2 fp sp ret now fault) as [st3 r].
Qed.

Lemma jsonl_extend_durable st l deadline :
  durable st -> l ∈ js_leases st -> is_u64 deadline -> durable (jsonl_extend st l deadline).1.
Proof.
  intros Hd Hin Hdl. pose proof Hd as [Hi Hl _ _ _ _]. destruct (Hl l Hin) as (e & He & Htok & _).
  destruct (index_extend_spec (js_index st) l deadline e Hi He Htok) as (x & Hx & Hok & Hb & _).
  unfold jsonl_extend. rewrite Hx. cbn [fst]. apply durable_index; [done|by eapply index_extend_shrinks|done|].
  intros l' Hin'. by eapply (lease_ok_insert (js_index st) x _ e); eauto.
Qed.

Lemma log_step_durable st st' : log_step st st' -> durable st -> durable st'.
Proof.
  intros Hstep Hd. pose proof Hd as [Hi Hl He Hs Hsep Hb Hk]. destruct Hstep.
  - by apply jsonl_get_durable.
  - by apply jsonl_current_durable.
  - by apply jsonl_seal_durable.
  - by apply jsonl_extend_durable.
  - apply durable_index; [done|reflexivity|done|]. intros l' [->|?]%elem_of_cons; auto.
  - apply durable_index; [done|reflexivity|done|]. intros l' ?%remove_first_elem; auto.
  - destruct failure; [by apply durable_evict|by apply compact_establishes].
Qed.

Lemma startup_durable file now :
  is_u64 now -> fits (evict_lapsed (js_held (jsonl_open file now)) (js_index (jsonl_open file now)) now) ->
  known_file (default [] file) -> durable (startup file now).
Proof.
  intros Hnow Hfit Hk0. unfold startup.
  destruct (replay_is_ok now (file_lines (default [] file)) Hk0) as [H1 H2 H3].
  apply compact_establishes; [by apply mark_all_persisted_ok| |exact H3|done|done].
  intros l Hin. by apply elem_of_nil in Hin.
Qed.

(** A session a replay finds is served by the reopened store. *)
Lemma reopened_serves file now id r :
  known_file file -> present (rp_index (replay now (complete file))) id r -> (now < r)%Z ->
  exists s, (jsonl_get (jsonl_open (Some file) now) id now).2 = Some s /\ genuine s /\ as_session_id s = id.
Proof.
  intros Hk Hp Hn. destruct (file_lines_complete file) as [tail Ht].
  pose proof (ex_sessions _ _ (replay_extends now (complete file) tail) _ _ Hp) as (e & He & Hr).
  rewrite <- Ht in He. destruct (replay_is_ok now (file_lines file) Hk) as [Hok _ _].
  unfold jsonl_get. destruct (index_get_served (js_held (jsonl_open (Some file) now))
    (js_index (jsonl_open (Some file) now)) id now e) as (s & Hs & Hg & Hid).
  - by apply mark_all_persisted_ok.
  - exact He.
  - left. lia.
  - exists s. destruct (index_get _ _ _ _) as [x o]. done.
Qed.

(** C11: valid sessions survive a crash.  From a start-up on any log file, after
    any sequence of acquisitions (their writes failing after any number of bytes),
    extensions, lookups, lease clones and drops and compactions (failing or not),
    stop the process and reopen what is on disk at any later time: every session
    the store knew whose validity has not ended is served again, with bytes that
    hash to its id, as long as the hashed strings do not collide and the sessions sealed
    meanwhile are storable. *)
Theorem valid_sessions_survive_crash file now0 st id e now :
  is_u64 now0 -> fits (evict_lapsed (js_held (jsonl_open file now0)) (js_index (jsonl_open file now0)) now0) ->
  known_file (default [] file) -> rtc log_step (startup file now0) st ->
  si_by_id (js_index st) !! id = Some e -> (now < sd_expires_at (se_stripped e))%Z ->
  exists s, (jsonl_get (jsonl_open (Some (lw_file (js_writer st))) now) id now).2 = Some s /\
    as_session_id s = id /\ id = sha256_bare_hex (as_bytes_ s).
Proof.
  intros Hnow0 Hfit Hk0 Hsteps He Hn.
  assert (durable st) as Hd.
  { pose proof (startup_durable file now0 Hnow0 Hfit Hk0) as H0.
    induction Hsteps as [|s s1 s2 Hs _ IH]; [done|]. apply IH; [done|by apply log_step_durable with s]. }
  pose proof (ba_sessions _ _ (du_backed _ Hd) id e now He Hn) as Hp.
  destruct (reopened_serves _ _ _ _ (du_known _ Hd) Hp Hn) as (s & Hs & Hg & Hid).
  exists s. destruct (genuine_bytes s Hg) as [_ Hb]. repeat split; [done|done|congruence].
Qed.

(** Compaction loses nothing.  After a successful compaction, the sessions
    that stay are exactly those retained or leased, and reopening the log at any
    time before a session's extended deadline serves it, as long as the hashed
    strings do not collide. *)
Theorem compaction_preserves_retained st now id e :
  durable st -> is_u64 now -> fits (evict_lapsed (js_held st) (js_index st) now) ->
  let st' := (compact st now None).1 in
  (si_by_id (js_index st') !! id = Some e <->
   si_by_id (js_index st) !! id = Some e /\ retained (js_held st) now e) /\
  (si_by_id (js_index st') !! id = Some e ->
   forall later, (later < se_retention_until e)%Z ->
   exists s, (jsonl_get (jsonl_open (Some (lw_file (js_writer st'))) later) id later).2 = Some s /\
     as_session_id s = id /\ id = sha256_bare_hex (as_bytes_ s)).
Proof.
  intros Hd Hnow Hfit. pose proof Hd as [Hi Hl He _ _ _ _].
  pose proof (compact_establishes st now Hi Hl He Hnow Hfit) as Hd'. apply du_known in Hd'. revert Hd'. unfold compact. cbn zeta. cbn [fst js_index js_writer lw_file]. intros Hk.
  destruct (evict_lapsed_spec (js_held st) (js_index st) now Hi) as [Hx Hkeep].
  set (x := evict_lapsed _ _ now) in *. split; [exact (Hkeep id e)|]. cbn. intros Hid later Hlater.
  assert (forall id e, si_by_id x !! id = Some e -> loggable e) as Hlog
    by (eapply loggable_shrinks; [apply evict_lapsed_shrinks|exact He]).
  destruct (compacted_file x now) as (Hc & _ & _).
  destruct (compacted_replay x now later Hx Hlog Hfit Hnow) as (_ & Hp & _).
  pose proof (Hp id e Hid Hlater) as Hpres. rewrite <- Hc in Hpres.
  destruct (reopened_serves _ _ _ _ Hk Hpres Hlater) as (s & Hs & Hg & Hsid).
  exists s. destruct (genuine_bytes s Hg) as [_ Hb]. repeat split; [done|done|congruence].
Qed.
End Log.

(** *** Witnesses *)
#[local] Existing Instances sample_sha sample_hex sample_base64 sample_json sample_domain.

Definition sample_record_from_value (v : value) : option SessionLogRecord :=
  seq ← get "seq" v ≫= as_u64; ts ← get "ts" v ≫= as_u64; ty ← get_str "type" v;
  payload ← get_str "payload_b64" v;
  Some (mkLogRecord seq ts ty (get_str "fingerprint" v) (get "retention_until" v ≫= as_u64)
          (get_str "content_type" v) payload).
Definition sample_record_from_slice (b : bytes) : option SessionLogRecord :=
  result_ok (from_slice b) ≫= sample_record_from_value.
Definition sample_base_doc : SessionDocument := sample_session_doc "https://u.example" 5 9.
Definition sample_document_from_value (v : value) : option SessionDocument :=
  let d := with_evidence sample_base_doc (evidence_from_value (default JNull (get "evidence" v))) in
  if bool_decide (v = document_to_value d) then Some d else None.
Definition sample_session_from_slice (b : bytes) : option SessionDocument :=
  result_ok (from_slice b) ≫= sample_document_from_value.

Lemma as_u64_range k v n : value_wf v -> get k v ≫= as_u64 = Some n -> is_u64 n.
Proof.
  intros Hv. destruct v as [| | | | |m]; try done. simpl. destruct (obj_get k m) as [w|] eqn:Hg; [|done].
  simpl. inversion Hv as [| | | | |? _ HF]. pose proof (wf_obj_get _ _ _ HF Hg) as Hw.
  destruct w as [| |[x| |]| | |]; try done. intros [= <-]. inversion Hw as [| |? Hn| | |]. exact Hn.
Qed.
Lemma record_to_value_wf r : record_wf r -> value_wf (record_to_value r).
Proof.
  intros [H1 H2 H3]. destruct r as [s t ty [fp|] [ret|] [ct|] p]; cbn in *;
    try (specialize (H3 _ eq_refl)); (constructor; [apply (bool_decide_unpack _); vm_compute; reflexivity|]);
    repeat (apply Forall_cons; split); try apply Forall_nil_2; constructor; first [exact H1|exact H2|exact H3].
Qed.
Lemma record_to_value_float_free r : float_free (record_to_value r) /\ json_depth (record_to_value r) <= 127.
Proof. destruct r as [s t ty [fp|] [ret|] [ct|] p]; split; cbn; try lia; repeat constructor. Qed.
Lemma sample_record_roundtrip r : record_wf r -> sample_record_from_slice (to_vec (record_to_value r)) = Some r.
Proof.
  intros Hr. unfold sample_record_from_slice. destruct (record_to_value_float_free r).
  rewrite from_slice_to_vec; [|by apply record_to_value_wf|done|done].
  by destruct r as [s t ty [fp|] [ret|] [ct|] p].
Qed.
Lemma sample_record_parsed b r : sample_record_from_slice b = Some r -> record_wf r.
Proof.
  unfold sample_record_from_slice, sample_record_from_value.
  destruct (from_slice b) as [v|] eqn:Hv; [|done]. apply from_slice_wf in Hv. cbn [result_ok mbind option_bind].
  destruct (get "seq" v ≫= as_u64) as [s|] eqn:Hs; [|done]. cbn [mbind option_bind].
  destruct (get "ts" v ≫= as_u64) as [t|] eqn:Ht; [|done]. cbn [mbind option_bind].
  destruct (get_str "type" v); [|done]. cbn [mbind option_bind]. destruct (get_str "payload_b64" v); [|done].
  intros [= <-]. split; cbn; [by eapply as_u64_range|by eapply as_u64_range|]. intros n. by apply as_u64_range.
Qed.

Lemma sample_documents e : let d := with_evidence sample_base_doc e in
  document_wf d /\ float_free (document_to_value d) /\ json_depth (document_to_value d) <= 127.
Proof.
  cbn zeta. split; [|split].
  - assert (document_wf sample_base_doc) as [? ? ? ?]
      by (apply sample_session_doc_wf; unfold is_u64, u64_max; lia). by split.
  - destruct e as [[d|] [u|]]; cbn; repeat constructor.
  - destruct e as [[d|] [u|]]; apply Nat.leb_le; vm_compute; reflexivity.
Qed.
Lemma sample_document_parsed b d : sample_session_from_slice b = Some d -> exists e, d = with_evidence sample_base_doc e.
Proof.
  unfold sample_session_from_slice, sample_document_from_value. destruct (from_slice b); [|done]. cbn.
  case_bool_decide; [|done]. intros [= <-]. eauto.
Qed.
Lemma sample_readable e0 : readable sample_session_from_slice (with_evidence sample_base_doc e0).
Proof.
  intros e. change (with_evidence (with_evidence sample_base_doc e0) e) with (with_evidence sample_base_doc e).
  destruct (sample_documents e) as (Hw & Hf & Hd). unfold sample_session_from_slice.
  rewrite from_slice_to_vec; [|by apply document_to_value_wf|done|done]. cbn [result_ok mbind option_bind].
  unfold sample_document_from_value. rewrite document_get_evidence by done. cbn [default from_option id].
  cbn [sd_evidence with_evidence].
  assert (evidence_from_value (evidence_to_value e) = e) as -> by (by destruct e as [[?|] [?|]]).
  by rewrite bool_decide_eq_true_2.
Qed.
#[local] Program Instance sample_log_serde : LogSerde := {|
  record_from_slice := sample_record_from_slice;
  session_from_slice := sample_session_from_slice;
  record_from_to := sample_record_roundtrip;
  record_parsed_wf := sample_record_parsed;
|}.
Next Obligation. intros b d [e ->]%sample_document_parsed. apply sample_documents. Qed.
Next Obligation. intros b d e [e0 ->]%sample_document_parsed. apply sample_documents. Qed.
Next Obligation. intros b d e [e0 ->]%sample_document_parsed _. apply sample_readable. Qed.

Lemma sample_split_new : split_new (sample_session "https://u.example" 5 9) = Ok sample_split.
Proof. vm_compute. reflexivity. Qed.
Lemma sample_storable : storable (sample_session "https://u.example" 5 9) sample_split.
Proof.
  split; [exact sample_session_genuine|exact sample_split_new|vm_compute; reflexivity|].
  assert (sp_stripped sample_split = with_evidence sample_base_doc
    (mkEvidenceRef (Some (sha256_hex (as_bytes "bundle"))) None)) as -> by (vm_compute; reflexivity).
  apply sample_readable.
Qed.

Definition sample_log : JsonlSessionStore :=
  (jsonl_current_or_seal (startup None 6) "fp" 20 6 sample_seal None).1.
Definition sample_id : string := sp_session_id sample_split.

Lemma valid_sessions_survive_crash_witness :
  exists s, (jsonl_get (jsonl_open (Some (lw_file (js_writer sample_log))) 8) sample_id 8).2 = Some s.
Proof.
  assert (Hx : (sd_expires_at ∘ se_stripped <$> si_by_id (js_index sample_log) !! sample_id) = Some 9%Z)
    by (vm_compute; reflexivity).
  destruct (si_by_id (js_index sample_log) !! sample_id) as [e|] eqn:He; [|discriminate Hx]. injection Hx as Hx.
  destruct (valid_sessions_survive_crash None 6 sample_log sample_id e 8) as (s & Hs & _).
  - unfold is_u64, u64_max. lia.
  - vm_compute. discriminate.
  - constructor.
  - apply rtc_once. apply ls_seal; [unfold is_u64, u64_max; lia|unfold is_u64, u64_max; lia| |].
    + intros session sp Hs Hsp. injection Hs as <-. rewrite sample_split_new in Hsp. injection Hsp as <-.
      exact sample_storable.
    + intros Hf. destruct Hf. reflexivity.
  - exact He.
  - rewrite Hx. lia.
  - exists s. exact Hs.
Defined.

Definition sample_jsonl : JsonlSessionStore := (compact (mkJsonl (mkWriter [] 0 false) (ss_index sample_store2) []) 6 None).1.
Lemma sample_jsonl_durable : durable sample_jsonl.
Proof.
  apply compact_establishes; cbn [js_index js_leases].
  - exact (so_index _ sample_store2_ok).
  - intros l Hin. by apply elem_of_nil in Hin.
  - apply (index_insert_loggable index_default "fp" _ sample_split 20 sample_storable); [unfold is_u64, u64_max; lia|done].
  - unfold is_u64, u64_max. lia.
  - vm_compute. discriminate.
Qed.

Lemma compaction_preserves_retained_witness :
  exists s, (jsonl_get (jsonl_open (Some (lw_file (js_writer (compact sample_jsonl 7 None).1))) 19) sample_id 19).2 = Some s.
Proof.
  assert (Hx : (se_retention_until <$> si_by_id (js_index (compact sample_jsonl 7 None).1) !! sample_id) = Some 20%Z)
    by (vm_compute; reflexivity).
  destruct (si_by_id (js_index (compact sample_jsonl 7 None).1) !! sample_id) as [e|] eqn:He; [|discriminate Hx].
  injection Hx as Hx.
  destruct (compaction_preserves_retained sample_jsonl 7 sample_id e sample_jsonl_durable) as [_ H].
  - unfold is_u64, u64_max. lia.
  - vm_compute. discriminate.
  - destruct (H He 19%Z) as (s & Hs & _); [rewrite Hx; lia|]. exists s. exact Hs.
Defined.
