(* ===== verification/Errors.v ===== *)
(** * Errors of the service (src/aggregator/service/errors.rs, src/aci/upstream/mod.rs)

    The error values the gateway's operations return.  Texts are the Rust strings
    the variants carry; the [Display] texts are not modelled. *)
From S2P Require Import Prelude Identity Receipt.

Inductive E2eeError : Type :=
| HeaderMissing
| InvalidSigningAlgo
| InvalidVersion
| InvalidPublicKey
| ModelKeyMismatch
| E2eeInvalidNonce
| ReplayDetected
| InvalidTimestamp
| InvalidPayloadModel
| DecryptionFailed
| EncryptionFailed.
#[global] Instance E2eeError_eq_dec : EqDecision E2eeError.
Proof. solve_decision. Defined.

Inductive UpstreamError : Type :=
| Routing (text : string)
| InvalidRequest (text : string)
| Transport (text : string)
| ResponseTooLarge
| Timeout (text : string)
| ChannelBindingMismatch (text : string)
| UpstreamStatus (status : Z).
#[global] Instance UpstreamError_eq_dec : EqDecision UpstreamError.
Proof. solve_decision. Defined.

Inductive UpstreamVerificationError : Type :=
| NoVerifierResult
| VerifierFailed (reason : string)
| NoEligibleAttestedRoute (model : string)
| NoEligibleAttestedSession (model : string).
#[global] Instance UpstreamVerificationError_eq_dec : EqDecision UpstreamVerificationError.
Proof. solve_decision. Defined.

Inductive ServiceError : Type :=
| TestKeysInProduction
| InvalidAttestedSessionTtl
| AdmissionInvariant (detail : string)
| EarlyResponseKeysetExpired
| InvalidSourceProvenance
| UpstreamVerification (e : UpstreamVerificationError)
| KeysetError (text : string)
| ServiceInvalidNonce (e : InvalidStatementInput)
| ServiceE2ee (e : E2eeError)
| ServiceKey (e : KeyError)
| ServiceReceipt (e : ReceiptError)
| ServiceUpstream (e : UpstreamError)
| SessionStoreError (text : string)
| MetricsError (text : string)
| NoReceiptKey
| DownstreamTlsDomainMissing
| DownstreamTlsDomainUnknown (domain : string).
