(* ===== verification/Upstream.v ===== *)
(** * Upstream requests, responses and verification outcomes
    (src/aci/upstream/mod.rs, body.rs, src/aci/receipt.rs,
    src/aggregator/service/wire.rs and helpers.rs)

    The data that passes between the service, its upstreams and its verifiers, and
    the bounded collection of a response body. *)
From S2P Require Import Prelude Text Json External Digest Identity Receipt ReportBinding Errors.

(** Header names are the keys the adapters chose; [HashMap] as [gmap]. *)
Abbreviation headers := (gmap string string).

Record AudioForm := mkAudioForm {
  af_file : bytes;
  af_extension : string;
}.
Record UpstreamRequest := mkUpstreamRequest {
  ur_form : option AudioForm;
  ur_content_type : option string;
  ur_body : bytes;
  ur_headers : headers;
  ur_path : option string;
  ur_target_route_id : option string;
}.
Record PreparedUpstreamRequest := mkPrepared {
  pr_request : UpstreamRequest;
  pr_upstream_name : string;
  pr_url_origin : option string;
  pr_model_id : string;
  pr_route_id : option string;
  pr_is_tee : option bool;
}.
Definition with_body (r : UpstreamRequest) (body : bytes) : UpstreamRequest :=
  mkUpstreamRequest (ur_form r) (ur_content_type r) body (ur_headers r) (ur_path r) (ur_target_route_id r).

Record UpstreamResponse := mkUpstreamResponse {
  up_status_code : Z;
  up_body : bytes;
  up_headers : headers;
  up_served_instance_id : option string;
}.
(** A body stream is the sequence of items it yields. *)
Abbreviation body_stream := (list (result UpstreamError bytes)).
Record UpstreamStreamResponse := mkUpstreamStreamResponse {
  us_status_code : Z;
  us_headers : headers;
  us_body : body_stream;
  us_served_instance_id : option string;
}.

(** ** Collecting a body *)
Fixpoint collect_chunks (limit : nat) (out : bytes) (body : body_stream) : result UpstreamError bytes :=
  match body with
  | [] => Ok out
  | Err e :: _ => Err e
  | Ok chunk :: body' =>
      if limit - length out <? length chunk then Err ResponseTooLarge
      else collect_chunks limit (out ++ chunk) body'
  end.
Definition collect_buffered_upstream_body (body : body_stream) (content_length : option Z) (limit : nat) :
    result UpstreamError bytes :=
  match content_length with
  | Some length => if (Z.of_nat limit <? length)%Z then Err ResponseTooLarge else collect_chunks limit [] body
  | None => collect_chunks limit [] body
  end.

(** [HashMap::iter().find(..)] with a case-insensitive name: one of the matching
    entries, in the map's own order. *)
Definition find_header (name : string) (hs : headers) : option string :=
  snd <$> List.find (fun h => eq_ignore_ascii_case h.1 name) (map_to_list hs).

Definition collect_upstream_body (body : body_stream) (hs : headers) (limit : nat) : result ServiceError bytes :=
  let content_length := find_header "content-length" hs ≫= fun v => parse_uint u64_max (as_bytes v) in
  map_err ServiceUpstream (collect_buffered_upstream_body body content_length limit).

(** ** Verification *)
Abbreviation VerificationRound := bytes (only parsing).
Record UpstreamVerifiedEvent := mkUpstreamVerifiedEvent {
  uv_verification_round : option bytes;
  uv_upstream_name : string;
  uv_provider_type : option string;
  uv_model_id : string;
  uv_url_origin : option string;
  uv_verifier_id : string;
  uv_result : VerificationResult;
  uv_required : bool;
  uv_reason : option string;
  uv_evidence : option value;
  uv_channel_bindings : list ChannelBinding;
  uv_provider_claims : option value;
  uv_aci_identity : option ReportBinding;
}.
Definition upstream_verified_event_default : UpstreamVerifiedEvent :=
  mkUpstreamVerifiedEvent None "" None "" None "" Failed false None None [] None None.
Definition with_required (e : UpstreamVerifiedEvent) (required : bool) : UpstreamVerifiedEvent :=
  mkUpstreamVerifiedEvent (uv_verification_round e) (uv_upstream_name e) (uv_provider_type e) (uv_model_id e)
    (uv_url_origin e) (uv_verifier_id e) (uv_result e) required (uv_reason e) (uv_evidence e)
    (uv_channel_bindings e) (uv_provider_claims e) (uv_aci_identity e).
Definition with_bindings (e : UpstreamVerifiedEvent) (bindings : list ChannelBinding) : UpstreamVerifiedEvent :=
  mkUpstreamVerifiedEvent (uv_verification_round e) (uv_upstream_name e) (uv_provider_type e) (uv_model_id e)
    (uv_url_origin e) (uv_verifier_id e) (uv_result e) (uv_required e) (uv_reason e) (uv_evidence e)
    bindings (uv_provider_claims e) (uv_aci_identity e).

Record UpstreamVerificationRequest := mkVerificationRequest {
  vr_upstream_name : string;
  vr_url_origin : option string;
  vr_model_id : string;
  vr_forwarded_body_hash : string;
  vr_required : bool;
}.

(** ** Response identifiers (helpers.rs) *)

(** The parsers serde derives for the two structs with one [Option<String>] member. *)
Class ResponseSerde := {
  response_id_from_slice : bytes -> option (option string);
  response_model_from_slice : bytes -> option (option string);
}.

Section Helpers.
Context {RS : ResponseSerde}.

(** The body's first byte that is not white space opens an object. *)
Definition starts_object (body : bytes) : bool :=
  bool_decide (head (trim_ascii_start body) = Some (u8 123)).
Definition extract_chat_id (body : bytes) : option string :=
  if starts_object body then mjoin (response_id_from_slice body) else None.
Definition accepted_response_model (status_code : Z) (body : bytes) : option string :=
  if negb ((200 <=? status_code)%Z && (status_code <=? 299)%Z) then None
  else if starts_object body then mjoin (response_model_from_slice body) else None.
End Helpers.

(** The body is whole, in order, and within the limit, or the first failure of the
    stream or of the limit. *)
Lemma collect_chunks_ok limit out body b :
  collect_chunks limit out body = Ok b ->
  exists chunks, body = Ok <$> chunks /\ b = out ++ concat chunks /\ (length out <= limit -> length b <= limit).
Proof.
  revert out. induction body as [|[c|e] body IH]; intros out; cbn [collect_chunks].
  - intros [= <-]. exists []. cbn. rewrite app_nil_r. auto.
  - destruct (Nat.ltb_spec (limit - length out) (length c)) as [?|Hle]; [done|].
    intros (chunks & -> & -> & Hb)%IH. exists (c :: chunks). split; [done|]. cbn.
    rewrite <- app_assoc in *. split; [done|]. intros. apply Hb. rewrite length_app. lia.
  - done.
Qed.
