(* ===== verification/Images.v ===== *)
(** * Image generation (src/middleware/images.rs)

    Validation of a request before it is forwarded, the body built for the
    upstream from an allowlist, and the reduction of an upstream success to the
    public schema.  The wall clock that fills in a missing [created] is an argument. *)
From S2P Require Import Prelude Text Json External Sample.

(** ** Accessors and member operations *)
Definition is_string (v : value) : bool := bool_decide (is_Some (as_str v)).
Definition is_array (v : value) : bool := bool_decide (is_Some (as_array v)).
Definition is_number (v : value) : bool := match v with JNumber _ => true | _ => false end.
Definition as_i64 (v : value) : option Z :=
  match v with
  | JNumber (PosInt n) => if (n <=? i64_max)%Z then Some n else None
  | JNumber (NegInt z) => Some z
  | _ => None
  end.
Definition is_i64 (v : value) : bool := bool_decide (is_Some (as_i64 v)).
Definition is_u64b (v : value) : bool := bool_decide (is_Some (as_u64 v)).
(** [chars().count()] of a string: the bytes that do not continue a character. *)
Definition char_count (s : string) : nat := length (List.filter (fun c => negb (is_continuation c)) (as_bytes s)).

(** [Map::retain]. *)
Definition retain (keep : string -> value -> bool) (m : list (string * value)) : list (string * value) :=
  List.filter (fun kv => keep kv.1 kv.2) m.
(** [entry(k).or_insert(v)], of which the entry is then left as it is. *)
Definition or_insert (k : string) (v : value) (m : list (string * value)) : list (string * value) :=
  if obj_get k m then m else m ++ [(k, v)].
(** [get_mut(k)] and [as_object_mut], updated when it is there. *)
Definition update_object (k : string) (f : list (string * value) -> list (string * value))
    (m : list (string * value)) : list (string * value) :=
  match obj_get k m with
  | Some (JObject o) => obj_insert k (JObject (f o)) m
  | _ => m
  end.

(** ** Requests *)
Definition MAX_IMAGE_COUNT : Z := 10.
Record ImageRequestError := mkImageRequestError {
  ire_code : string;
  ire_param : string;
  ire_message : string;
}.
Definition invalid_image_parameter (param message : string) : ImageRequestError :=
  mkImageRequestError "invalid_parameter" param message.

Definition IMAGE_PARAMETERS : list string :=
  ["model"; "prompt"; "n"; "size"; "quality"; "background"; "output_format"; "output_compression"; "moderation";
   "response_format"; "user"; "safety_identifier"; "style"; "provider"; "stream"; "partial_images"].
(** The first element that fails a check decides the error. *)
Fixpoint check_each {A} (check : A -> result ImageRequestError unit) (l : list A) : result ImageRequestError unit :=
  match l with
  | [] => Ok ()
  | x :: l' => _ ← check x; check_each check l'
  end.
Definition refuse_if (b : bool) (e : ImageRequestError) : result ImageRequestError unit :=
  if b then Err e else Ok ().

Definition validate_image_request (body : value) : result ImageRequestError unit :=
  match body with
  | JObject object =>
      _ ← check_each (fun key => refuse_if (negb (bool_decide (key ∈ IMAGE_PARAMETERS)))
            (mkImageRequestError "unknown_parameter" key ("unknown parameter: " +:+ key))) (obj_keys object);
      _ ← check_each (fun key => refuse_if (negb (from_option is_string false (obj_get key object)))
            (invalid_image_parameter key "required parameter must be a string")) ["model"; "prompt"];
      _ ← refuse_if (from_option (fun s => (32000 <? Z.of_nat (char_count s))%Z) false (get_str "prompt" body))
            (invalid_image_parameter "prompt" "prompt must be at most 32000 characters");
      _ ← check_each (fun key => refuse_if (from_option (fun v => negb (is_string v)) false (obj_get key object))
            (invalid_image_parameter key "parameter must be a string"))
            ["size"; "quality"; "background"; "output_format"; "moderation"; "user"; "safety_identifier"; "style"];
      _ ← check_each (fun '(key, min, max) =>
            refuse_if (from_option (fun v =>
                negb (from_option (fun n => (min <=? n)%Z && (n <=? max)%Z) false (as_i64 v))) false (obj_get key object))
              (invalid_image_parameter key
                ("parameter must be an integer from " +:+ pretty min +:+ " to " +:+ pretty max)))
            [("n", 1%Z, MAX_IMAGE_COUNT); ("output_compression", 0%Z, 100%Z)];
      _ ← refuse_if (from_option (fun v => bool_decide (as_str v ≠ Some "b64_json")) false
              (obj_get "response_format" object))
            (invalid_image_parameter "response_format" "only b64_json output is supported");
      check_each (fun key => refuse_if (bool_decide (is_Some (obj_get key object)))
            (invalid_image_parameter key "streaming image generation is not supported")) ["stream"; "partial_images"]
  | _ => Err (invalid_image_parameter "body" "request body must be a JSON object")
  end.

Definition UPSTREAM_PARAMETERS : list string :=
  ["model"; "prompt"; "n"; "size"; "quality"; "background"; "output_format"; "output_compression"; "moderation"].
Definition upstream_member (body : value) (key : string) : option value :=
  v ← get key body;
  if bool_decide (key ∈ ["size"; "quality"; "background"]) && bool_decide (as_str v = Some "auto") then None
  else Some v.
Definition upstream_body (body : value) : value :=
  JObject (obj_insert "response_format" (JString "b64_json")
    (foldl (fun output key => match upstream_member body key with Some v => obj_insert key v output | None => output end)
      [] UPSTREAM_PARAMETERS)).

(** ** Responses *)
Definition has_image (item : value) : bool := from_option is_string false (get "b64_json" item).
Definition validate_image_response (body : value) (requested_count : Z) : result string unit :=
  match get "data" body ≫= as_array with
  | Some data =>
      if bool_decide (data ≠ []) && (Z.of_nat (length data) <=? requested_count)%Z && forallb has_image data then Ok ()
      else Err "upstream returned a malformed image success body"
  | None => Err "upstream returned a malformed image success body"
  end.
Definition requested_count (request : value) : Z := default 1%Z (get "n" request ≫= as_u64).

Definition keep_member (key : string) (v : value) : bool :=
  if bool_decide (key = "created") then is_i64 v || is_u64b v
  else if bool_decide (key = "data") then is_array v
  else if bool_decide (key = "usage") then is_object v
  else bool_decide (key ∈ ["size"; "quality"; "output_format"; "background"]) && is_string v.
Definition keep_item_member (key : string) (v : value) : bool :=
  if bool_decide (key = "b64_json") then is_string v
  else bool_decide (key = "revised_prompt") && (is_string v || is_null v).
Definition TOKEN_COUNTS : list string := ["input_tokens"; "output_tokens"; "total_tokens"].
Definition TOKEN_DETAILS : list string := ["input_tokens_details"; "output_tokens_details"].
Definition keep_usage_member (key : string) (v : value) : bool :=
  if bool_decide (key ∈ TOKEN_COUNTS) then is_u64b v
  else if bool_decide (key ∈ TOKEN_DETAILS) then is_object v
  else bool_decide (key = "cost") && is_number v.
Definition keep_detail (key : string) (v : value) : bool :=
  bool_decide (key ∈ ["text_tokens"; "image_tokens"; "cached_tokens"]) && is_u64b v.

Definition zero : value := JNumber (PosInt 0).
Definition canonical_item (item : value) : value :=
  match item with JObject m => JObject (retain keep_item_member m) | _ => item end.
Definition canonical_details (m : list (string * value)) : list (string * value) :=
  or_insert "image_tokens" zero (or_insert "text_tokens" zero (retain keep_detail m)).
Definition canonical_usage (m : list (string * value)) : list (string * value) :=
  update_object "output_tokens_details" canonical_details
    (update_object "input_tokens_details" canonical_details
      (or_insert "input_tokens_details" (JObject [])
        (or_insert "total_tokens" zero (or_insert "output_tokens" zero
          (or_insert "input_tokens" zero (retain keep_usage_member m)))))).

Definition canonicalize_image (now : Z) (body : value) : value :=
  match body with
  | JObject object =>
      let object := or_insert "created" (JNumber (PosInt now)) (retain keep_member object) in
      let object :=
        match obj_get "data" object with
        | Some (JArray items) => obj_insert "data" (JArray (canonical_item <$> items)) object
        | _ => object
        end in
      JObject (update_object "usage" canonical_usage (or_insert "usage" (JObject []) object))
  | _ => body
  end.

Section ResponseBody.
Context {SJ : SerdeJson}.
Definition image_response_body (now : Z) (response request : bytes) : option bytes :=
  request ← result_ok (from_slice request);
  body ← result_ok (from_slice response);
  _ ← result_ok (validate_image_response body (requested_count request));
  Some (to_vec (canonicalize_image now body)).
End ResponseBody.

Record ImageUsage := mkImageUsage {
  iu_count : nat;
  iu_size : string;
  iu_quality : string;
}.
Definition image_dimension (request : value) (key : string) : string := default "auto" (get_str key request).
Definition image_usage (response request : value) : ImageUsage :=
  mkImageUsage (from_option length 0 (get "data" response ≫= as_array))
    (image_dimension request "size") (image_dimension request "quality").

(** ** The public schema *)
Definition members_kept (keep : string -> value -> bool) (m : list (string * value)) : bool :=
  forallb (fun kv => keep kv.1 kv.2) m.
Definition has_members (keys : list string) (m : list (string * value)) : bool :=
  forallb (fun k => bool_decide (is_Some (obj_get k m))) keys.
Definition object_like (p : list (string * value) -> bool) (v : value) : bool :=
  match v with JObject m => p m | _ => false end.

Definition details_schema : value -> bool :=
  object_like (fun m => members_kept keep_detail m && has_members ["text_tokens"; "image_tokens"] m).
Definition usage_schema : value -> bool :=
  object_like (fun m => members_kept keep_usage_member m && has_members TOKEN_COUNTS m &&
    from_option details_schema false (obj_get "input_tokens_details" m) &&
    from_option details_schema true (obj_get "output_tokens_details" m)).
Definition item_schema : value -> bool :=
  object_like (fun m => members_kept keep_item_member m && has_members ["b64_json"] m).
Definition image_schema : value -> bool :=
  object_like (fun m => members_kept keep_member m && has_members ["created"] m &&
    from_option (fun items => forallb item_schema items) false (obj_get "data" m ≫= as_array) &&
    from_option usage_schema false (obj_get "usage" m)).

Lemma obj_get_retain keep k m v : NoDup (obj_keys m) ->
  obj_get k m = Some v -> keep k v = true -> obj_get k (retain keep m) = Some v.
Proof.
  intros Hnd Hg Hk. induction m as [|[k' v'] m IH]; [done|]. cbn in Hnd |- *. apply NoDup_cons in Hnd as [Hn Hnd].
  cbn in Hg. case_bool_decide as Hkk.
  - subst. injection Hg as ->. rewrite Hk. cbn. by rewrite bool_decide_eq_true_2.
  - destruct (keep k' v'); [cbn; rewrite bool_decide_eq_false_2 by done|]; auto.
Qed.
Lemma retain_kept keep m : members_kept keep (retain keep m) = true.
Proof. apply forallb_forall. by intros kv [_ ?]%filter_In. Qed.
Lemma kept_get keep m k v : members_kept keep m = true -> obj_get k m = Some v -> keep k v = true.
Proof. intros Hm Hg%obj_get_elem%list_elem_of_In. exact (proj1 (forallb_forall _ _) Hm (k, v) Hg). Qed.
Lemma retain_id keep m : members_kept keep m = true -> retain keep m = m.
Proof.
  induction m as [|kv m IH]; cbn; [done|]. intros [Hk Hm]%andb_prop. rewrite Hk. f_equal. exact (IH Hm).
Qed.
Lemma members_kept_app keep m1 m2 :
  members_kept keep (m1 ++ m2) = members_kept keep m1 && members_kept keep m2.
Proof. apply forallb_app. Qed.
Lemma or_insert_kept keep k v m : keep k v = true -> members_kept keep m = true ->
  members_kept keep (or_insert k v m) = true.
Proof.
  intros Hk Hm. unfold or_insert. destruct (obj_get k m); [done|]. rewrite members_kept_app, Hm. cbn. by rewrite Hk.
Qed.
Lemma or_insert_id k v m : is_Some (obj_get k m) -> or_insert k v m = m.
Proof. intros [w Hw]. unfold or_insert. by rewrite Hw. Qed.
Lemma obj_get_app k (m1 m2 : list (string * value)) :
  obj_get k (m1 ++ m2) = match obj_get k m1 with Some v => Some v | None => obj_get k m2 end.
Proof. induction m1 as [|[k' v'] m1 IH]; cbn; [done|]. by case_bool_decide. Qed.
Lemma obj_get_or_insert k k' v m :
  obj_get k (or_insert k' v m) = match obj_get k m with
    | Some w => Some w | None => if bool_decide (k' = k) then Some v else None end.
Proof.
  unfold or_insert. destruct (obj_get k' m) eqn:Hk'.
  - case_bool_decide; [subst; by rewrite Hk'|]. by destruct (obj_get k m).
  - rewrite obj_get_app. by destruct (obj_get k m).
Qed.
Lemma obj_insert_same k v (m : list (string * value)) : obj_get k m = Some v -> obj_insert k v m = m.
Proof.
  induction m as [|[k' v'] m IH]; cbn; [done|]. case_bool_decide; [|intros ?; by rewrite IH].
  subst. by intros [= ->].
Qed.
Lemma obj_insert_kept keep k v m : keep k v = true -> members_kept keep m = true ->
  members_kept keep (obj_insert k v m) = true.
Proof.
  intros Hk. induction m as [|[k' v'] m IH]; cbn; [by rewrite Hk|]. intros [H1 H2]%andb_prop.
  case_bool_decide; cbn; [subst; by rewrite Hk, H2|rewrite H1; exact (IH H2)].
Qed.
Lemma update_object_kept keep k f m : (forall o o', keep k (JObject o) = keep k (JObject o')) ->
  members_kept keep m = true -> members_kept keep (update_object k f m) = true.
Proof.
  intros Hk Hm. unfold update_object. destruct (obj_get k m) as [[]|] eqn:Hg; try done.
  apply obj_insert_kept; [|done]. rewrite (Hk _ m0).
  by apply (kept_get keep m).
Qed.
Lemma obj_get_update k k' f m : obj_get k (update_object k' f m) =
  if bool_decide (k' = k) then
    match obj_get k m with Some (JObject o) => Some (JObject (f o)) | r => r end
  else obj_get k m.
Proof.
  unfold update_object. destruct (obj_get k' m) as [[]|] eqn:Hg; case_bool_decide; subst;
    rewrite ?Hg, ?obj_get_insert; rewrite ?bool_decide_eq_true_2, ?bool_decide_eq_false_2 by done; try done.
Qed.
Lemma update_object_id k f m :
  (forall o, obj_get k m = Some (JObject o) -> f o = o) -> update_object k f m = m.
Proof.
  intros Hf. unfold update_object. destruct (obj_get k m) as [[]|] eqn:Hg; try done.
  rewrite Hf by done. by apply obj_insert_same.
Qed.

Lemma has_members_or_insert keys k v m : has_members keys m = true -> has_members keys (or_insert k v m) = true.
Proof.
  intros H. apply forallb_forall. intros k' Hin. pose proof (proj1 (forallb_forall _ _) H _ Hin) as Hk.
  apply bool_decide_eq_true in Hk as [w Hw]. apply bool_decide_eq_true. rewrite obj_get_or_insert, Hw. eauto.
Qed.
Lemma has_members_spec keys m : has_members keys m = true <-> forall k, k ∈ keys -> is_Some (obj_get k m).
Proof.
  unfold has_members. rewrite forallb_forall. setoid_rewrite list_elem_of_In.
  setoid_rewrite bool_decide_eq_true. done.
Qed.
#[local] Hint Resolve or_insert_kept retain_kept update_object_kept : results.

Lemma canonical_details_schema m : details_schema (JObject (canonical_details m)) = true.
Proof.
  cbn [details_schema object_like]. unfold canonical_details. apply andb_true_intro. split.
  - repeat apply or_insert_kept; try done. apply retain_kept.
  - apply has_members_spec. intros k Hk. rewrite !obj_get_or_insert.
    destruct (obj_get k (retain _ _)); [eauto|]. set_unfold in Hk. destruct Hk as [->|[->|[]]]; cbn; eauto.
Qed.
Lemma canonical_usage_schema m : usage_schema (JObject (canonical_usage m)) = true.
Proof.
  unfold usage_schema, object_like, canonical_usage.
  set (base := or_insert "input_tokens_details" (JObject []) _).
  assert (members_kept keep_usage_member base = true) as Hbase.
  { subst base. repeat apply or_insert_kept; try done. apply retain_kept. }
  rewrite !obj_get_update. cbn [bool_decide]. rewrite !andb_true_iff. repeat split.
  - apply update_object_kept; [done|]. by apply update_object_kept.
  - apply has_members_spec. intros k Hk. rewrite !obj_get_update.
    assert (is_Some (obj_get k base)) as [v Hv].
    { subst base. rewrite !obj_get_or_insert. destruct (obj_get k (retain _ _)); [eauto|].
      set_unfold in Hk. destruct Hk as [->|[->|[->|[]]]]; cbn; eauto. }
    set_unfold in Hk. destruct Hk as [->|[->|[->|[]]]]; cbn; rewrite Hv; eauto.
  - cbn. destruct (obj_get "input_tokens_details" base) as [v|] eqn:Hv.
    + pose proof (kept_get _ _ _ _ Hbase Hv) as Hk. destruct v; try done. apply canonical_details_schema.
    + subst base. rewrite obj_get_or_insert in Hv. by destruct (obj_get _ _).
  - cbn. destruct (obj_get "output_tokens_details" base) as [v|] eqn:Hv; [|done].
    pose proof (kept_get _ _ _ _ Hbase Hv) as Hk. destruct v; try done. apply canonical_details_schema.
Qed.

(** Reduction keeps the images, one for one. *)
Definition image_of (item : value) : option string := get_str "b64_json" item.
Definition images (body : value) : list (option string) :=
  image_of <$> default [] (get "data" body ≫= as_array).

Lemma canonical_item_schema item : value_wf item -> has_image item = true ->
  item_schema (canonical_item item) = true /\ image_of (canonical_item item) = image_of item.
Proof.
  unfold has_image, image_of, get_str. destruct item as [| | | | |m]; try done. intros Hwf. cbn.
  destruct (obj_get "b64_json" m) as [v|] eqn:Hg; [|done]. cbn. intros Hv.
  assert (obj_get "b64_json" (retain keep_item_member m) = Some v) as Hg'.
  { apply obj_get_retain; [by inversion Hwf|done|]. done. }
  rewrite retain_kept, Hg'. done.
Qed.

Section Public.
Context {SJ : SerdeJson}.

Lemma canonicalize_schema now body count :
  value_wf body -> validate_image_response body count = Ok () ->
  image_schema (canonicalize_image now body) = true /\ images (canonicalize_image now body) = images body.
Proof.
  unfold validate_image_response, images. destruct body as [| | | | |object]; try done. intros Hwf. cbn [get].
  destruct (obj_get "data" object) as [v|] eqn:Hd; [|done]. cbn.
  destruct v as [| | | |data|]; try done. cbn. case_match eqn:Hchk; [|done]. intros _.
  apply andb_prop in Hchk as [_ Hall].
  assert (forall item, item ∈ data -> item_schema (canonical_item item) = true /\
    image_of (canonical_item item) = image_of item) as Hitems.
  { intros item Hin. apply canonical_item_schema.
    - inversion Hwf as [| | | | |? _ HF0]; subst. pose proof (wf_obj_get _ _ _ HF0 Hd) as Ha.
      inversion Ha as [| | | |? HF|]; subst.
      by apply (proj1 (Forall_forall _ _) HF).
    - by apply (proj1 (forallb_forall _ _) Hall), list_elem_of_In. }
  set (object1 := or_insert "created" _ _).
  assert (obj_get "data" object1 = Some (JArray data)) as Hd1.
  { subst object1. rewrite obj_get_or_insert. rewrite (obj_get_retain keep_member "data" object (JArray data)); try done.
    inversion Hwf; auto. }
  rewrite Hd1. set (object2 := obj_insert "data" _ object1). set (object3 := or_insert "usage" _ object2).
  assert (members_kept keep_member object3 = true) as Hk.
  { subst object3 object2 object1. apply or_insert_kept; [done|]. apply obj_insert_kept; [done|].
    apply or_insert_kept; [by apply orb_true_intro; right|]. apply retain_kept. }
  assert (forall k, is_Some (obj_get k object1) -> is_Some (obj_get k object3)) as Hmono.
  { intros k [w Hw]. subst object3 object2. rewrite obj_get_or_insert, obj_get_insert.
    destruct (bool_decide _); [eauto|]. rewrite Hw. eauto. }
  assert (obj_get "data" (update_object "usage" canonical_usage object3) = Some (JArray (canonical_item <$> data))) as Hd3.
  { rewrite obj_get_update. cbn. subst object3 object2. rewrite obj_get_or_insert, obj_get_insert. done. }
  split.
  - unfold image_schema, object_like. rewrite Hd3. rewrite !andb_true_iff. repeat split.
    + by apply update_object_kept.
    + apply bool_decide_eq_true. rewrite obj_get_update. cbn. apply Hmono. subst object1. rewrite obj_get_or_insert.
      by destruct (obj_get "created" (retain _ _)); eexists.
    + apply forallb_forall. intros item Hin%list_elem_of_In. apply list_elem_of_fmap in Hin as (it & -> & Hin).
      by apply Hitems.
    + rewrite obj_get_update. cbn. destruct (obj_get "usage" object3) as [u|] eqn:Hu.
      * pose proof (kept_get _ _ _ _ Hk Hu) as Hku. destruct u; try done. apply canonical_usage_schema.
      * subst object3. rewrite obj_get_or_insert in Hu. destruct (obj_get "usage" object2); discriminate Hu.
  - cbn. rewrite Hd3. cbn. rewrite <- list_fmap_compose. apply list_fmap_ext. intros i x Hx%list_elem_of_lookup_2.
    by apply Hitems.
Qed.

(** A document of the schema is its own reduction. *)
Lemma canonical_details_id m : details_schema (JObject m) = true -> canonical_details m = m.
Proof.
  intros [Hk Hh]%andb_prop. unfold canonical_details. rewrite (retain_id _ _ Hk).
  rewrite has_members_spec in Hh. rewrite !or_insert_id; [done|apply Hh; set_solver|].
  rewrite or_insert_id; apply Hh; set_solver.
Qed.
Lemma canonical_usage_id m : usage_schema (JObject m) = true -> canonical_usage m = m.
Proof.
  unfold usage_schema, object_like, canonical_usage. rewrite !andb_true_iff. intros [[[Hk Hh] Hi] Ho].
  rewrite has_members_spec in Hh. rewrite (retain_id _ _ Hk).
  rewrite (or_insert_id "input_tokens") by (apply Hh; set_solver).
  rewrite (or_insert_id "output_tokens") by (apply Hh; set_solver).
  rewrite (or_insert_id "total_tokens") by (apply Hh; set_solver).
  rewrite (or_insert_id "input_tokens_details") by (destruct (obj_get _ m); [eauto|done]).
  rewrite !update_object_id; [done| |].
  - intros o Hg. rewrite Hg in Hi. by apply canonical_details_id.
  - intros o. rewrite update_object_id.
    + intros Hg. rewrite Hg in Ho. by apply canonical_details_id.
    + intros o' Hg. rewrite Hg in Hi. by apply canonical_details_id.
Qed.
Lemma canonical_item_id item : item_schema item = true -> canonical_item item = item.
Proof. destruct item; try done. intros [Hk _]%andb_prop. cbn. by rewrite (retain_id _ _ Hk). Qed.
Lemma canonicalize_id now v : image_schema v = true -> canonicalize_image now v = v.
Proof.
  destruct v as [| | | | |m]; try done. unfold image_schema, object_like. rewrite !andb_true_iff.
  intros [[[Hk Hh] Hd] Hu]. unfold canonicalize_image. rewrite (retain_id _ _ Hk). rewrite has_members_spec in Hh.
  rewrite (or_insert_id "created") by (apply Hh; set_solver).
  destruct (obj_get "data" m) as [[]|] eqn:Hg; try done. cbn in Hd.
  assert (canonical_item <$> items = items) as ->.
  { clear Hg. induction items as [|it items IH]; [done|]. cbn in Hd |- *. apply andb_prop in Hd as [H1 H2].
    by rewrite canonical_item_id, IH. }
  rewrite (obj_insert_same _ _ _ Hg). rewrite (or_insert_id "usage") by (destruct (obj_get "usage" m); [eauto|done]).
  rewrite update_object_id; [done|]. intros o Ho. rewrite Ho in Hu. by apply canonical_usage_id.
Qed.

(** What a client receives of a generated image has the public type.  A success
    body that is not a list of one to the requested number of base64 images is
    refused; otherwise the client receives a document in which every member at
    every level is one the schema names, with the type it names, the token counts
    are complete, and the images are the upstream's, in order.  A document that is
    already of the schema passes unchanged. *)
Theorem image_response_is_public now response request body req :
  from_slice request = Ok req -> from_slice response = Ok body ->
  match image_response_body now response request with
  | Some out => exists v, out = to_vec v /\ image_schema v = true /\ images v = images body /\
      (0 < length (images v))%nat /\ (Z.of_nat (length (images v)) <= requested_count req)%Z /\
      Forall (fun i => is_Some i) (images v) /\ (image_schema body = true -> v = body)
  | None => images body = [] \/ (requested_count req < Z.of_nat (length (images body)))%Z \/
      exists i, images body !! i = Some None
  end.
Proof.
  intros Hreq Hres. unfold image_response_body. rewrite Hreq, Hres. cbn.
  pose proof (from_slice_wf _ _ Hres) as Hwf.
  destruct (validate_image_response body (requested_count req)) as [[]|] eqn:Hv; cbn.
  - destruct (canonicalize_schema now body _ Hwf Hv) as [Hs Hi].
    exists (canonicalize_image now body). rewrite Hi. split; [done|]. split; [done|]. split; [done|].
    unfold validate_image_response in Hv. unfold images.
    destruct (get "data" body ≫= as_array) as [data|]; [|done]. cbn. case_match eqn:Hc; [|done].
    rewrite !andb_true_iff in Hc. destruct Hc as [[Hne Hle] Hall]. apply bool_decide_eq_true in Hne.
    rewrite length_fmap. split; [destruct data; [done|cbn; lia]|]. split; [lia|]. split; [|apply canonicalize_id].
    apply Forall_fmap, Forall_forall. intros item Hin%list_elem_of_In. cbn.
    pose proof (proj1 (forallb_forall _ _) Hall _ Hin) as Hi'. unfold has_image, is_string in Hi'.
    unfold image_of, get_str. destruct (get "b64_json" item); [|done]. by apply bool_decide_eq_true in Hi'.
  - unfold validate_image_response in Hv. unfold images.
    destruct (get "data" body ≫= as_array) as [data|]; [|by left]. cbn. case_match eqn:Hc; [done|]. clear Hv.
    destruct data as [|d data]; [by left|]. right. rewrite length_fmap.
    destruct (Z.leb_spec (Z.of_nat (length (d :: data))) (requested_count req)) as [Hle|Hlt]; [|by left; lia].
    right. rewrite bool_decide_eq_true_2 in Hc by done. cbn [andb] in Hc.
    destruct (decide (Exists (fun it => image_of it = None) (d :: data))) as [Hex|Hno].
    + apply Exists_exists in Hex as (it & Hin & Hn). apply list_elem_of_lookup_1 in Hin as [i Hi]. exists i.
      rewrite list_lookup_fmap, Hi. cbn. by rewrite Hn.
    + exfalso. assert (forallb has_image (d :: data) = true) as Ht; [|congruence].
      apply forallb_forall. intros it Hin%list_elem_of_In. unfold has_image.
      destruct (get "b64_json" it) as [v|] eqn:Hg; cbn.
      * apply bool_decide_eq_true. destruct (as_str v) eqn:Ha; [eauto|]. exfalso. apply Hno, Exists_exists.
        exists it. split; [done|]. unfold image_of, get_str. by rewrite Hg.
      * exfalso. apply Hno, Exists_exists. exists it. split; [done|]. unfold image_of, get_str. by rewrite Hg.
Qed.
End Public.

(** *** Witness: one image of at most two. *)
#[local] Existing Instances sample_json.
Definition sample_image_request : value := JObject [("model", JString "m"); ("n", JNumber (PosInt 2))].
Definition sample_image_body : value :=
  JObject [("id", JString "private"); ("data", JArray [JObject [("b64_json", JString "aGk="); ("url", JString "u")]])].
Lemma image_response_is_public_witness : exists v,
  image_response_body 7 (to_vec sample_image_body) (to_vec sample_image_request) = Some (to_vec v) /\
  image_schema v = true /\ images v = [Some "aGk="].
Proof.
  assert (from_slice (to_vec sample_image_request) = Ok sample_image_request) as Hreq by (vm_compute; reflexivity).
  assert (from_slice (to_vec sample_image_body) = Ok sample_image_body) as Hres by (vm_compute; reflexivity).
  pose proof (image_response_is_public 7 _ _ _ _ Hreq Hres) as H.
  assert (image_response_body 7 (to_vec sample_image_body) (to_vec sample_image_request) =
    Some (to_vec (canonicalize_image 7 sample_image_body))) as Ho.
  { unfold image_response_body. rewrite Hreq, Hres. reflexivity. }
  rewrite Ho in H |- *. destruct H as (v & Hv & Hs & Hi & _). exists v. rewrite Hv. split; [done|]. split; [done|].
  rewrite Hi. reflexivity.
Defined.
