(* ===== verification/Audio.v ===== *)
(** * Transcription responses (src/middleware/audio.rs)

    The fields a transcription request may send upstream, the duration a response
    is billed for, and the reduction of the response to the public schema.  A
    duration is an [f64]: [SpecFloat]'s binary64 numbers, with the conversions and
    comparisons the code uses. *)
From Stdlib Require Import SpecFloat.
From S2P Require Import Prelude Text Json External Sample Images.

(** ** [f64] *)
Definition f64_of_Z (z : Z) : spec_float := binary_normalize 53 1024 z 0 false.
Definition as_f64 (v : value) : option spec_float :=
  match v with
  | JNumber (PosInt n) => Some (f64_of_Z n)
  | JNumber (NegInt z) => Some (f64_of_Z z)
  | JNumber (Float f) => Some f
  | _ => None
  end.
Definition is_finite (f : spec_float) : bool :=
  match f with S754_zero _ | S754_finite _ _ _ => true | _ => false end.
Definition f64_zero : spec_float := S754_zero false.
(** The least integer not below a finite number. *)
Definition f64_ceil (f : spec_float) : Z :=
  match f with
  | S754_finite s m e =>
      let n := if s then Z.neg m else Z.pos m in
      if (0 <=? e)%Z then (n * 2 ^ e)%Z else (- (- n / 2 ^ (- e)))%Z
  | _ => 0%Z
  end.
(** [f.ceil() as u64], which saturates. *)
Definition f64_ceil_as_u64 (f : spec_float) : Z := Z.max 0 (Z.min (f64_ceil f) u64_max).

(** [str::parse::<f64>]: an optional sign, then a name of an infinity or a NaN, or
    decimal digits with an optional point and exponent, rounded to the nearest. *)
Fixpoint take_digits (l : bytes) : bytes * bytes :=
  match l with
  | c :: l' => if is_ascii_digit c then let '(ds, r) := take_digits l' in (c :: ds, r) else ([], l)
  | [] => ([], [])
  end.
Definition digits_to_Z (ds : bytes) : Z := foldl (fun acc c => (acc * 10 + (Z.of_N (byte c) - 48))%Z) 0%Z ds.
Definition is_byte (n : N) (c : ascii) : bool := bool_decide (c = u8 n).
Definition take_sign (l : bytes) : bool * bytes :=
  match l with
  | c :: l' => if is_byte 45 c then (true, l') else if is_byte 43 c then (false, l') else (false, l)
  | [] => (false, [])
  end.
Definition take_fraction (l : bytes) : bytes * bytes :=
  match l with c :: l' => if is_byte 46 c then take_digits l' else ([], l) | [] => ([], []) end.
Definition take_exponent (l : bytes) : option Z :=
  match l with
  | [] => Some 0%Z
  | c :: l' =>
      if is_byte 101 c || is_byte 69 c then
        let '(negative, l') := take_sign l' in
        let '(ds, r) := take_digits l' in
        if bool_decide (ds = []) || bool_decide (r ≠ []) then None
        else Some (if negative then - digits_to_Z ds else digits_to_Z ds)%Z
      else None
  end.
(** The decimal [(-1)^s * m * 10^e], rounded. *)
Definition round_decimal (s : bool) (m e : Z) : spec_float :=
  match m with
  | Z.pos p =>
      match e with
      | Z.neg k => SFdiv 53 1024 (S754_finite s p 0) (S754_finite false (10 ^ k) 0)
      | _ => binary_normalize 53 1024 (if s then - (m * 10 ^ e) else m * 10 ^ e)%Z 0 s
      end
  | _ => S754_zero s
  end.
Definition parse_f64 (text : string) : option spec_float :=
  let '(s, l) := take_sign (as_bytes text) in
  let name := to_ascii_lowercase (of_bytes l) in
  if bool_decide (name = "inf") || bool_decide (name = "infinity") then Some (S754_infinity s)
  else if bool_decide (name = "nan") then Some S754_nan
  else
    let '(whole, l) := take_digits l in
    let '(fraction, l) := take_fraction l in
    if bool_decide (whole = []) && bool_decide (fraction = []) then None
    else
      e ← take_exponent l;
      Some (round_decimal s (digits_to_Z (whole ++ fraction)) (e - Z.of_nat (length fraction))).

(** ** Requests *)
Definition UPSTREAM_FIELDS : list string :=
  ["model"; "language"; "prompt"; "temperature"; "response_format"; "timestamp_granularities[]"].
Definition upstream_fields (params : value) : value :=
  JObject (retain (fun k _ => bool_decide (k ∈ UPSTREAM_FIELDS)) (match params with JObject m => m | _ => [] end)).

(** ** Responses *)
Record AudioUsage := mkAudioUsage {
  au_seconds : Z;
  au_raw_duration : spec_float;
}.
Definition u32_max_f64 : spec_float := f64_of_Z 4294967295.
Definition billable (v : spec_float) : bool := is_finite v && SFltb f64_zero v && SFleb v u32_max_f64.

(** The preferred duration is authoritative even when it is invalid. *)
Definition stated_usage (body : value) : option value :=
  u ← get "usage" body;
  if bool_decide (is_Some (get "seconds" u)) || bool_decide (get_str "type" u = Some "duration") then Some u else None.
Definition audio_usage (body : value) : result string AudioUsage :=
  if negb (from_option is_string false (get "text" body)) then Err "missing transcription text"
  else
    duration ←
      match stated_usage body with
      | Some u =>
          if bool_decide (get_str "type" u ≠ Some "duration") then Err "invalid duration usage type"
          else Ok (get "seconds" u ≫= as_f64)
      | None =>
          Ok (d ← get "duration" body;
              match as_f64 d with Some f => Some f | None => s ← as_str d; parse_f64 s end)
      end;
    match duration with
    | Some raw => if billable raw then Ok (mkAudioUsage (f64_ceil_as_u64 raw) raw)
                  else Err "missing or invalid transcription duration"
    | None => Err "missing or invalid transcription duration"
    end.

Definition verbose (params : value) : bool := bool_decide (get_str "response_format" params = Some "verbose_json").
Definition reduce_format (object : list (string * value)) (params : value) : list (string * value) :=
  if verbose params then object
  else retain (fun k _ => bool_decide (k ∈ ["text"; "usage"; "languages"])) object.

(** *** The derived parsers: an object with the members, or the members in order. *)
Inductive FieldType : Type := FString | FU64 | FF64 | FU64s | FOptF64.
Definition number_f64 (f : spec_float) : value := JNumber (Float f).
(** Parse one member and serialize it again; [None] is a missing member. *)
Definition parse_field (t : FieldType) (v : option value) : option (option value) :=
  match t, v with
  | FString, Some v => s ← as_str v; Some (Some (JString s))
  | FU64, Some v => n ← as_u64 v; Some (Some (JNumber (PosInt n)))
  | FF64, Some v => f ← as_f64 v; Some (Some (number_f64 f))
  | FU64s, Some v =>
      items ← as_array v;
      ns ← mapM as_u64 items;
      Some (Some (JArray ((fun n => JNumber (PosInt n)) <$> ns)))
  | FOptF64, Some JNull | FOptF64, None => Some None
  | FOptF64, Some v => f ← as_f64 v; Some (Some (number_f64 f))
  | _, None => None
  end.
Fixpoint parse_members (fields : list (string * FieldType)) (lookup : nat -> string -> option value) (i : nat) :
    option (list (string * value)) :=
  match fields with
  | [] => Some []
  | (name, t) :: fields' =>
      field ← parse_field t (lookup i name);
      rest ← parse_members fields' lookup (S i);
      Some (match field with Some v => (name, v) :: rest | None => rest end)
  end.
Definition parse_struct (fields : list (string * FieldType)) (v : value) : option (list (string * value)) :=
  match v with
  | JObject m => parse_members fields (fun _ name => obj_get name m) 0
  | JArray items =>
      if bool_decide (length items = length fields) then parse_members fields (fun i _ => items !! i) 0 else None
  | _ => None
  end.
Definition segment_fields : list (string * FieldType) :=
  [("id", FU64); ("seek", FU64); ("start", FF64); ("end", FF64); ("text", FString); ("tokens", FU64s);
   ("temperature", FF64); ("avg_logprob", FF64); ("compression_ratio", FF64); ("no_speech_prob", FOptF64)].
Definition word_fields : list (string * FieldType) := [("word", FString); ("start", FF64); ("end", FF64)].
Definition language_fields : list (string * FieldType) := [("code", FString)].

Definition not_negative (k : string) (m : list (string * value)) : bool :=
  from_option (fun f => SFleb f64_zero f) false (obj_get k m ≫= as_f64).
Definition timed (m : list (string * value)) : bool := not_negative "start" m && not_negative "end" m.
Definition canonical_entry (array : string) (item : value) : option value :=
  if bool_decide (array = "segments") then
    m ← parse_struct segment_fields item; if timed m then Some (JObject m) else None
  else if bool_decide (array = "words") then
    m ← parse_struct word_fields item; if timed m then Some (JObject m) else None
  else JObject <$> parse_struct language_fields item.
Definition canonical_entries (array : string) (items : list value) : list value := omap (canonical_entry array) items.
Definition canonical_array (object : list (string * value)) (array : string) : list (string * value) :=
  match obj_get array object with
  | Some (JArray items) =>
      let items := canonical_entries array items in
      let object := obj_insert array (JArray items) object in
      if bool_decide (array ≠ "languages") && bool_decide (items = []) then obj_remove array object else object
  | _ => object
  end.
Definition keep_audio_member (key : string) (v : value) : bool :=
  if bool_decide (key ∈ ["text"; "language"; "task"]) then is_string v
  else bool_decide (key ∈ ["segments"; "words"; "languages"]) && is_array v.
Definition canonicalize_audio (object : list (string * value)) : list (string * value) :=
  foldl canonical_array (retain keep_audio_member object) ["segments"; "words"; "languages"].

(** The body is an object: it has a text. *)
Definition sanitize_response (body params : value) : result string (value * AudioUsage) :=
  audio ← audio_usage body;
  let object := canonicalize_audio (match body with JObject m => m | _ => [] end) in
  let object := obj_insert "usage"
    (JObject [("type", JString "duration"); ("seconds", JNumber (PosInt (au_seconds audio)))]) object in
  let object :=
    if verbose params then
      let object := obj_insert "duration" (number_f64 (au_raw_duration audio)) object in
      if from_option is_string false (obj_get "language" object) then object
      else obj_insert "language" (match get "language" params with
                                  | Some (JString l) => JString l
                                  | _ => JString ""
                                  end) object
    else object in
  Ok (JObject (reduce_format object params), audio).

Example parse_quarter : parse_f64 "-12.25e1" = Some (S754_finite true 8620171161763840 (-46)).
Proof. vm_compute. reflexivity. Qed.

(** ** What leaves *)
(** [n] is the least integer not below [f]. *)
Definition is_ceiling (f : spec_float) (n : Z) : Prop :=
  match f with
  | S754_finite false m e =>
      if (0 <=? e)%Z then n = (Z.pos m * 2 ^ e)%Z
      else (Z.pos m <= n * 2 ^ (- e) < Z.pos m + 2 ^ (- e))%Z
  | _ => n = 0%Z
  end.
Lemma f64_ceil_spec f : SFltb f64_zero f = true -> is_finite f = true ->
  is_ceiling f (f64_ceil f) /\ (1 <= f64_ceil f)%Z.
Proof.
  destruct f as [| | |[] m e]; try done. intros _ _. cbn [is_ceiling f64_ceil].
  destruct (Z.leb_spec 0 e) as [He|He].
  - split; [done|]. pose proof (Z.pow_pos_nonneg 2 e). nia.
  - pose proof (Z.pow_pos_nonneg 2 (- e)). set (p := (2 ^ - e)%Z) in *.
    pose proof (Z.div_mod (- Z.pos m) p) as Hd. pose proof (Z.mod_pos_bound (- Z.pos m) p) as Hm. split; nia.
Qed.

Definition public_audio_keys (params : value) : list string :=
  ["text"; "usage"; "languages"] ++ (if verbose params then ["language"; "task"; "segments"; "words"; "duration"] else []).

Lemma retain_keys keep m k : k ∈ obj_keys (retain keep m) ->
  exists v, (k, v) ∈ m /\ keep k v = true.
Proof.
  intros ((k' & v) & -> & Hin)%list_elem_of_fmap. apply list_elem_of_In, filter_In in Hin as [Hin Hk].
  exists v. split; [by apply list_elem_of_In|done].
Qed.
Lemma obj_insert_keys k0 v (m : list (string * value)) k :
  k ∈ obj_keys (obj_insert k0 v m) -> k = k0 \/ k ∈ obj_keys m.
Proof.
  rewrite <- !obj_get_is_Some. rewrite obj_get_insert. case_bool_decide; [by left|by right].
Qed.
Lemma canonical_array_facts object array : NoDup (obj_keys object) ->
  NoDup (obj_keys (canonical_array object array)) /\
  (forall k, k ∈ obj_keys (canonical_array object array) -> k ∈ obj_keys object) /\
  (forall k, k ≠ array -> obj_get k (canonical_array object array) = obj_get k object).
Proof.
  intros Hnd. unfold canonical_array. destruct (obj_get array object) as [[]|] eqn:Hg; try done.
  assert (array ∈ obj_keys object) as Hin by (rewrite <- obj_get_is_Some, Hg; eauto).
  pose proof (obj_insert_NoDup array (JArray (canonical_entries array items)) object Hnd) as Hnd1.
  assert (forall k, k ≠ array ->
    obj_get k (obj_insert array (JArray (canonical_entries array items)) object) = obj_get k object) as Hne.
  { intros k Hk. rewrite obj_get_insert. rewrite bool_decide_eq_false_2 by congruence. done. }
  destruct (bool_decide _ && _).
  - split; [by apply obj_remove_NoDup|]. split.
    + intros k. rewrite <- !obj_get_is_Some. rewrite obj_get_remove by done. case_bool_decide; [by intros [? [=]]|].
      rewrite Hne by congruence. done.
    + intros k Hk. rewrite obj_get_remove by done. rewrite bool_decide_eq_false_2 by congruence. by apply Hne.
  - split; [exact Hnd1|]. split; [|exact Hne]. intros k [->|]%obj_insert_keys; assumption.
Qed.
Lemma canonicalize_audio_facts object : NoDup (obj_keys object) ->
  NoDup (obj_keys (canonicalize_audio object)) /\
  (forall k, k ∈ obj_keys (canonicalize_audio object) ->
     k ∈ ["text"; "language"; "task"; "segments"; "words"; "languages"]) /\
  (forall s, obj_get "text" object = Some (JString s) -> obj_get "text" (canonicalize_audio object) = Some (JString s)).
Proof.
  intros Hnd. unfold canonicalize_audio. cbn [foldl].
  set (m0 := retain keep_audio_member object).
  assert (NoDup (obj_keys m0)) as Hnd0.
  { eapply sublist_NoDup; [exact Hnd|]. subst m0. unfold retain, obj_keys.
    clear. induction object as [|kv o IH]; cbn; [done|]. destruct (keep_audio_member kv.1 kv.2); by constructor. }
  destruct (canonical_array_facts m0 "segments" Hnd0) as (Hnd1 & Hk1 & Hg1).
  destruct (canonical_array_facts _ "words" Hnd1) as (Hnd2 & Hk2 & Hg2).
  destruct (canonical_array_facts _ "languages" Hnd2) as (Hnd3 & Hk3 & Hg3). split; [exact Hnd3|]. split.
  - intros k Hk. apply Hk3, Hk2, Hk1 in Hk. apply retain_keys in Hk as (v & _ & Hv). unfold keep_audio_member in Hv.
    case_bool_decide; [set_solver|]. apply andb_prop in Hv as [Hv _]. apply bool_decide_eq_true in Hv. set_solver.
  - intros s Hs. rewrite Hg3, Hg2, Hg1 by done. by apply obj_get_retain.
Qed.

Lemma audio_usage_spec body :
  match audio_usage body with
  | Ok a => (exists s, get "text" body = Some (JString s)) /\ billable (au_raw_duration a) = true /\
      au_seconds a = f64_ceil_as_u64 (au_raw_duration a)
  | Err e => e ∈ ["missing transcription text"; "invalid duration usage type";
                  "missing or invalid transcription duration"]
  end.
Proof.
  unfold audio_usage. destruct (get "text" body) as [t|] eqn:Ht; cbn; [|set_solver].
  destruct t as [| | |s| |]; cbn; try set_solver.
  assert (forall d : option spec_float,
    match (match d with
           | Some raw => if billable raw then Ok (mkAudioUsage (f64_ceil_as_u64 raw) raw)
                         else Err "missing or invalid transcription duration"
           | None => Err "missing or invalid transcription duration" end) with
    | Ok a => (exists s', Some (JString s) = Some (JString s')) /\ billable (au_raw_duration a) = true /\
        au_seconds a = f64_ceil_as_u64 (au_raw_duration a)
    | Err e => e ∈ ["missing transcription text"; "invalid duration usage type";
                    "missing or invalid transcription duration"]
    end) as Hd.
  { intros [raw|]; [|set_solver]. destruct (billable raw) eqn:Hb; [|set_solver]. eauto. }
  destruct (stated_usage body); cbn; [case_bool_decide; [set_solver|]|]; apply Hd.
Qed.

(** A transcription leaves with the type of the public schema and is billed for
    its duration.  Sanitizing fails only for a missing text or a duration that is
    absent, misdeclared or not a positive number of at most 2^32 - 1 seconds.
    Otherwise the text is the upstream's, every member is one the requested format
    has, and the stated seconds are the billed ones: at least one, and (unless the
    64-bit count saturates) the least whole number not below the duration. *)
Theorem transcription_is_public object params : NoDup (obj_keys object) ->
  match sanitize_response (JObject object) params with
  | Ok (v, a) => exists m, v = JObject m /\
      (forall k, k ∈ obj_keys m -> k ∈ public_audio_keys params) /\
      (exists s, obj_get "text" object = Some (JString s) /\ obj_get "text" m = Some (JString s)) /\
      obj_get "usage" m = Some (JObject [("type", JString "duration"); ("seconds", JNumber (PosInt (au_seconds a)))]) /\
      (1 <= au_seconds a <= u64_max)%Z /\
      (au_seconds a < u64_max -> is_ceiling (au_raw_duration a) (au_seconds a))%Z /\
      billable (au_raw_duration a) = true /\
      (verbose params = true -> obj_get "duration" m = Some (number_f64 (au_raw_duration a)))
  | Err e => e ∈ ["missing transcription text"; "invalid duration usage type";
                  "missing or invalid transcription duration"]
  end.
Proof.
  intros Hnd. unfold sanitize_response. pose proof (audio_usage_spec (JObject object)) as Hu.
  destruct (audio_usage (JObject object)) as [a|e]; cbn; [|done].
  destruct Hu as ((s & Hs) & Hb & Hsec). cbn in Hs.
  destruct (canonicalize_audio_facts object Hnd) as (Hndc & Hkeys & Htext). specialize (Htext s Hs).
  set (c := canonicalize_audio object) in *. eexists. split; [done|].
  assert (is_finite (au_raw_duration a) = true /\ SFltb f64_zero (au_raw_duration a) = true) as [Hf Hpos].
  { unfold billable in Hb. rewrite !andb_true_iff in Hb. naive_solver. }
  destruct (f64_ceil_spec _ Hpos Hf) as [Hc H1].
  assert (1 <= au_seconds a <= u64_max /\ (au_seconds a < u64_max -> is_ceiling (au_raw_duration a) (au_seconds a)))%Z
    as [Hrange Hceil].
  { rewrite Hsec. unfold f64_ceil_as_u64, u64_max. split; [lia|]. intros Hlt.
    replace (Z.max 0 _)%Z with (f64_ceil (au_raw_duration a)) by lia. done. }
  unfold reduce_format, public_audio_keys. set (u := JObject _).
  assert (forall k, k ∈ obj_keys (obj_insert "usage" u c) ->
    k ∈ ["usage"; "text"; "language"; "task"; "segments"; "words"; "languages"]) as Hku.
  { intros k [->|Hk%Hkeys]%obj_insert_keys; set_solver. }
  assert (obj_get "text" (obj_insert "usage" u c) = Some (JString s)) as Htu by (rewrite obj_get_insert; exact Htext).
  destruct (verbose params) eqn:Hv.
  - set (d := obj_insert "duration" _ _). 
    set (m := if from_option is_string false (obj_get "language" d) then d else _).
    assert (forall k, k ≠ "language" -> obj_get k m = obj_get k d) as Hm.
    { intros k Hk. subst m. destruct (from_option _ _ _); [done|]. rewrite obj_get_insert.
      rewrite bool_decide_eq_false_2 by congruence. done. }
    rewrite !Hm by done. subst d. rewrite !obj_get_insert. cbn. split.
    + intros k Hk. assert (k = "language" \/ k = "duration" \/ k ∈ obj_keys (obj_insert "usage" u c)) as Hk'.
      { subst m. destruct (from_option _ _ _); [|apply obj_insert_keys in Hk as [->|Hk]; [by left|]];
          apply obj_insert_keys in Hk as [->|Hk]; auto. }
      destruct Hk' as [->|[->|Hk'%Hku]]; [by apply list_elem_of_In; cbn; auto 10..|].
      clear -Hk'. set_solver.
    + split; [exists s; split; [done|]; exact Htext|]. done.
  - assert (NoDup (obj_keys (obj_insert "usage" u c))) as Hndu by by apply obj_insert_NoDup.
    split; [|split; [|split; [|done]]].
    + intros k (v & _ & Hk%bool_decide_eq_true)%retain_keys. set_solver.
    + exists s. split; [done|]. by apply obj_get_retain.
    + apply obj_get_retain; [done| |done]. rewrite obj_get_insert. done.
Qed.

(** *** Witness: a verbose transcription whose duration is a numeric string. *)
Definition sample_transcription : list (string * value) :=
  [("text", JString "hi"); ("model", JString "private"); ("duration", JString "2.5")].
Definition sample_audio_params : value := JObject [("response_format", JString "verbose_json")].
Lemma transcription_is_public_witness : exists m a,
  sanitize_response (JObject sample_transcription) sample_audio_params = Ok (JObject m, a) /\
  au_seconds a = 3%Z /\ obj_get "text" m = Some (JString "hi") /\ obj_get "model" m = None.
Proof.
  assert (NoDup (obj_keys sample_transcription)) as Hnd by (apply (bool_decide_eq_true_1 _); vm_compute; reflexivity).
  pose proof (transcription_is_public sample_transcription sample_audio_params Hnd) as H.
  assert (sanitize_response (JObject sample_transcription) sample_audio_params =
    Ok (JObject [("text", JString "hi");
      ("usage", JObject [("type", JString "duration"); ("seconds", JNumber (PosInt 3))]);
      ("duration", number_f64 (S754_finite false 5629499534213120 (-51))); ("language", JString "")],
      mkAudioUsage 3 (S754_finite false 5629499534213120 (-51)))) as Hs by (vm_compute; reflexivity).
  rewrite Hs in H. destruct H as (m & Hm & _ & (s & _ & Ht) & _). injection Hm as <-.
  eexists _, _. split; [exact Hs|]. split; [done|]. split; done.
Defined.
