(* ===== verification/Claims.v ===== *)
(** * Session claims (src/aggregator/service/claims.rs and
    src/aci/verifier/session_material.rs)

    How a verification outcome becomes the typed claims of a session: one mapper
    per provider type, the slice of the facts that belongs to one instance of a
    fleet, and the reviewed shapes of provider facts.  The theorems show what an
    assertion in a session document rests on, and that the claims of one instance
    do not depend on its siblings. *)
From S2P Require Import Prelude Text Json External Digest Identity Receipt ReportBinding.
From S2P Require Import RelyingParty Session Errors Upstream.

(** [BTreeMap::insert]. *)
Fixpoint btree_insert {A} (k : string) (v : A) (m : list (string * A)) : list (string * A) :=
  match m with
  | [] => [(k, v)]
  | (k', v') :: m' =>
      if bool_decide (k' = k) then (k, v) :: m'
      else if bool_decide (String.le k k') then (k, v) :: (k', v') :: m'
      else (k', v') :: btree_insert k v m'
  end.

(** A fact among the provider's claims. *)
Definition fact (k : string) (event : UpstreamVerifiedEvent) : option value := uv_provider_claims event ≫= get k.
Definition fact_str (k : string) (event : UpstreamVerifiedEvent) : option string := fact k event ≫= as_str.
Definition fact_bool (k : string) (event : UpstreamVerifiedEvent) : option bool := fact k event ≫= as_bool.

(** ** Individual claims *)
Definition hardware_tee_attested (event : UpstreamVerifiedEvent) : Claim :=
  claim_asserted HardwareProven (uv_verifier_id event +:+ " verified the TEE quote and bound the request channel").

Definition armet_ai_software_claim (event : UpstreamVerifiedEvent) : Claim :=
  match fact_str "accepted_subject" event with
  | Some subject =>
      claim_asserted VerifierDerived
        ("measured TD (MRTD, RTMR0-3, launch configuration) matches operator-configured pin " +:+ subject)
  | None => claim_unknown
  end.

Definition tcb_up_to_date_claim (event : UpstreamVerifiedEvent) : Claim :=
  match fact_str "tcb_status" event with
  | Some status =>
      if eq_ignore_ascii_case status "uptodate"
      then claim_asserted HardwareProven ("platform TCB status " +:+ status)
      else claim_refuted HardwareProven ("platform TCB status " +:+ status)
  | None => claim_unknown
  end.

Definition os_known_good_claim (event : UpstreamVerifiedEvent) : Claim :=
  match fact_bool "production_os_image" event with
  | Some true => claim_asserted VerifierDerived "attested OS image resolves to a known production image"
  | Some false =>
      claim_refuted VerifierDerived
        "attested OS image is a dev image (SSH / serial console enabled), not production"
  | None => claim_unknown
  end.

Definition gpu_attested_claim (event : UpstreamVerifiedEvent) : Claim :=
  match fact_bool "gpu_verified" event with
  | Some true =>
      claim_asserted VerifierDerived
        match fact_str "gpu_arch" event with
        | Some arch =>
            "Supplemental NVIDIA GPU check accepted and nonce-matched (arch " +:+ arch +:+
            "); does not authenticate GPU identity or bind it to the serving CPU TEE"
        | None =>
            "Supplemental NVIDIA GPU check accepted and nonce-matched; " +:+
            "does not authenticate GPU identity or bind it to the serving CPU TEE"
        end
  | _ => claim_unknown
  end.

Definition tinfoil_software_claim (event : UpstreamVerifiedEvent) : Claim :=
  claim_asserted VerifierDerived
    match fact_str "config_repo" event, fact_str "release_digest" event with
    | Some repo, Some digest =>
        "Sigstore-verified code measurement matches " +:+ repo +:+ " (release " +:+ digest +:+ ")"
    | Some repo, None => "Sigstore-verified code measurement matches " +:+ repo
    | _, _ => "Sigstore-verified code measurement matches the published golden values"
    end.

Definition secret_ai_software_claim (event : UpstreamVerifiedEvent) : Claim :=
  match fact_str "accepted_workload_id" event with
  | Some workload_id =>
      claim_asserted VerifierDerived
        ("measured SecretVM workload matches operator-configured pin " +:+ workload_id)
  | None => claim_unknown
  end.

Definition secret_ai_os_claim (event : UpstreamVerifiedEvent) : Claim :=
  match fact_bool "production_os_image" event with
  | Some true =>
      claim_asserted VerifierDerived
        "measured SecretVM launch matches a production entry in the pinned verifier registry"
  | Some false =>
      claim_refuted VerifierDerived "measured SecretVM launch does not match a production registry entry"
  | None => claim_unknown
  end.

(** [Vec::join]. *)
Definition join (sep : string) (l : list string) : string :=
  match l with
  | [] => ""
  | s :: l' => foldl (fun acc t => acc +:+ sep +:+ t) s l'
  end.
Definition nras_gpu_claim (event : UpstreamVerifiedEvent) (binding : string) : Claim :=
  match fact_bool "gpu_verified" event with
  | Some true =>
      let models := (fun models => join ", " (omap as_str models)) <$> (fact "gpu_models" event ≫= as_array) in
      let prefix := "NVIDIA confidential-computing GPU attestation verified by NRAS and " in
      claim_asserted VerifierDerived
        match models with
        | Some models =>
            if bool_decide (models = "") then prefix +:+ binding
            else prefix +:+ binding +:+ " (signed models " +:+ models +:+ ")"
        | None => prefix +:+ binding
        end
  | _ => claim_unknown
  end.
Definition secret_ai_gpu_claim (event : UpstreamVerifiedEvent) : Claim :=
  nras_gpu_claim event "its nonce matches the CPU report_data".

(** ** The mappers *)
Inductive ClaimMapper : Type := IntelTdxClaims | TinfoilClaims | SecretAiClaims | ArmetAiClaims | GenericClaims.
Definition claim_mapper (provider_type : option string) : ClaimMapper :=
  if bool_decide (provider_type = Some "tinfoil") then TinfoilClaims
  else if bool_decide (provider_type = Some "secret-ai") then SecretAiClaims
  else if bool_decide (provider_type = Some "armet-ai") then ArmetAiClaims
  else if bool_decide (provider_type ∈ Some <$> ["near-ai"; "chutes"; "phala-direct"; "0g-private-computer"])
  then IntelTdxClaims
  else GenericClaims.
Definition mapper_claims (m : ClaimMapper) (event : UpstreamVerifiedEvent) : SessionClaims :=
  let claims tee gpu tcb os software := mkSessionClaims tee gpu tcb os software claim_unknown [] in
  match m with
  | IntelTdxClaims =>
      claims (hardware_tee_attested event) (gpu_attested_claim event) (tcb_up_to_date_claim event)
        (os_known_good_claim event) claim_unknown
  | TinfoilClaims =>
      claims (hardware_tee_attested event) claim_unknown
        (claim_asserted VerifierDerived ("Tinfoil's verifier requires an up-to-date TCB for a verified " +:+
           "result; no separable TcbStatus is surfaced"))
        (os_known_good_claim event) (tinfoil_software_claim event)
  | SecretAiClaims =>
      claims (hardware_tee_attested event) (secret_ai_gpu_claim event) (tcb_up_to_date_claim event)
        (secret_ai_os_claim event) (secret_ai_software_claim event)
  | ArmetAiClaims =>
      claims (hardware_tee_attested event)
        (nras_gpu_claim event "the TD commits to the exact GPU evidence in its report_data")
        (tcb_up_to_date_claim event) claim_unknown (armet_ai_software_claim event)
  | GenericClaims =>
      claims (claim_asserted VerifierDerived
          (uv_verifier_id event +:+ " verified the workload identity and bound the channel"))
        claim_unknown claim_unknown claim_unknown claim_unknown
  end.

Definition with_extra (c : SessionClaims) (extra : list (string * value)) : SessionClaims :=
  mkSessionClaims (sc_tee_attested c) (sc_gpu_attested c) (sc_tcb_up_to_date c) (sc_os_known_good c)
    (sc_serving_software_known_good c) (sc_model_weights_provenance c) extra.
Definition session_claims_for_event (event : UpstreamVerifiedEvent) : SessionClaims :=
  let claims := if bool_decide (uv_result event = Verified)
                then mapper_claims (claim_mapper (uv_provider_type event)) event else claims_default in
  match uv_provider_claims event with
  | Some (JObject m) =>
      with_extra claims (foldl (fun extra kv => btree_insert kv.1 kv.2 extra) (sc_extra claims) m)
  | _ => claims
  end.

(** ** Fleets *)
Definition is_multi_instance (provider_type : option string) : bool :=
  bool_decide (provider_type = Some "chutes") || bool_decide (provider_type = Some "0g-private-computer").

Definition instance_id (event : UpstreamVerifiedEvent) (binding : ChannelBinding) : option string :=
  if negb (is_multi_instance (uv_provider_type event)) then None
  else match binding with E2eePublicKeySha256 _ (Some id) _ _ => Some id | _ => None end.

(** Insert a member when there is a value for it. *)
Definition insert_opt (k : string) (o : option value) (m : list (string * value)) : list (string * value) :=
  match o with Some v => obj_insert k v m | None => m end.
(** [Map::extend]. *)
Definition obj_extend (more m : list (string * value)) : list (string * value) :=
  foldl (fun m kv => obj_insert kv.1 kv.2 m) m more.

Definition per_instance_provider_claims (full : option value) (instance_id : string) : value :=
  match full with
  | Some (JObject map) =>
      let slice map_key := obj_get map_key map ≫= get instance_id in
      let pc := foldl (fun pc key => insert_opt key (obj_get key map) pc) []
        ["session_material_version"; "trust_boundary"; "evidence_scope"; "chute_id"; "canonical_model_id"] in
      let pc := obj_insert "instance_id" (JString instance_id) pc in
      let pc := insert_opt "tcb_status" (slice "instance_tcb_statuses") pc in
      let pc := insert_opt "measurement" (slice "instance_measurements") pc in
      let pc := match slice "instances" with Some (JObject i) => obj_extend i pc | _ => pc end in
      let pc := foldl (fun pc '(map_key, slice_key) => insert_opt slice_key (slice map_key) pc) pc
        [("instance_tdx_reports", "tdx_report"); ("instance_tdx_report_sha256", "tdx_report_sha256");
         ("instance_advisory_ids", "advisory_ids")] in
      let pc := match slice "instance_gpu" with
                | Some (JObject gpu) =>
                    foldl (fun pc key => insert_opt key (obj_get key gpu) pc) pc
                      ["gpu_verified"; "gpu_arch"; "gpu_evidence_present"; "gpu_evidence_nonce_matched"]
                | _ => pc
                end in
      JObject pc
  | _ => JObject []
  end.

Definition instance_event (event : UpstreamVerifiedEvent) (instance_id : string) : UpstreamVerifiedEvent :=
  mkUpstreamVerifiedEvent None "" (uv_provider_type event) "" None (uv_verifier_id event) (uv_result event)
    false None None [] (Some (per_instance_provider_claims (uv_provider_claims event) instance_id)) None.
Definition per_instance_session_claims (event : UpstreamVerifiedEvent) (instance_id : string) : SessionClaims :=
  session_claims_for_event (instance_event event instance_id).

(** ** Reviewed session material (session_material.rs)

    [valid_profile] parses the projected facts with the derived parser of the
    provider's struct and checks the result.  The facts are the serialization of a
    map, so the parser sees an object; a member of a struct is present with its
    type, members beyond them are ignored. *)
Section Material.
Context {SH : Sha} {HX : HexCodec} {SJ : SerdeJson}.

Definition lower_hex (v : string) : bool :=
  negb (bool_decide (v = "")) && Nat.even (str_len v) && all_bytes is_lower_hex v.
(** [Hex<N>::parse]. *)
Definition hex_parse_fixed (n : nat) (v : string) : option bytes :=
  if negb (lower_hex v) then None
  else b ← result_ok (hex_decode v); if bool_decide (length b = n) then Some b else None.

Definition hex_field (n : nat) (k : string) (v : value) : option bytes := get_str k v ≫= hex_parse_fixed n.
Definition string_field (k : string) (v : value) : bool := bool_decide (is_Some (get_str k v)).
Definition bool_field (k : string) (v : value) : bool := bool_decide (is_Some (get k v ≫= as_bool)).
Definition has_hex (n : nat) (k : string) (v : value) : bool := bool_decide (is_Some (hex_field n k v)).
(** [Nullable<T>]: present, and null or of the type. *)
Definition nullable_string (k : string) (v : value) : bool :=
  match get k v with Some (JString _) | Some JNull => true | _ => false end.
Definition nullable_bool (k : string) (v : value) : bool :=
  match get k v with Some (JBool _) | Some JNull => true | _ => false end.
Definition strings_field (k : string) (v : value) : option (list string) :=
  l ← get k v ≫= as_array; mapM as_str l.
Definition nonempty_string (k : string) (v : value) : bool :=
  match get_str k v with Some s => negb (bool_decide (s = "")) | None => false end.
Definition true_field (k : string) (v : value) : bool := bool_decide (get k v = Some (JBool true)).
Definition false_field (k : string) (v : value) : bool := bool_decide (get k v = Some (JBool false)).

(** [TdxReportMaterial]: exactly these members ([deny_unknown_fields]); the two of
    TD15 may be absent for the parser, and [valid] ties them to the format. *)
Definition tdx_report_fields : list (string * nat) :=
  [("tee_tcb_svn", 16); ("mr_seam", 48); ("mr_signer_seam", 48); ("seam_attributes", 8);
   ("td_attributes", 8); ("xfam", 8); ("mr_td", 48); ("mr_config_id", 48); ("mr_owner", 48);
   ("mr_owner_config", 48); ("rt_mr0", 48); ("rt_mr1", 48); ("rt_mr2", 48); ("rt_mr3", 48)].
Definition tdx15_fields : list (string * nat) := [("tee_tcb_svn2", 16); ("mr_service_td", 48)].
Definition tdx_report_valid (m : list (string * value)) : bool :=
  let v := JObject m in
  forallb (fun k => bool_decide (k ∈ "report_format" :: (fst <$> tdx_report_fields ++ tdx15_fields))) (obj_keys m) &&
  forallb (fun kn => has_hex kn.2 kn.1 v) tdx_report_fields &&
  match get_str "report_format" v with
  | Some "td10"%string => forallb (fun kn => bool_decide (get kn.1 v = None)) tdx15_fields
  | Some "td15"%string => forallb (fun kn => has_hex kn.2 kn.1 v) tdx15_fields
  | _ => false
  end.
Definition tdx_material_valid (claims : value) : bool :=
  match get "tdx_report" claims, get_str "tdx_report_sha256" claims with
  | Some (JObject m), Some digest =>
      tdx_report_valid m &&
      match jcs_bytes (JObject m) with Ok b => bool_decide (sha256_hex b = digest) | Err _ => false end
  | _, _ => false
  end.

Definition compressed_key (k : string) (v : value) : bool :=
  match hex_field 33 k v with
  | Some (c :: _) => bool_decide (c = u8 2) || bool_decide (c = u8 3)
  | _ => false
  end.
Definition receipt_custody_valid (v : value) : bool :=
  bool_decide (get_str "provider" v = Some "dstack-kms") &&
  bool_decide (get_str "purpose" v = Some "aci.receipt.ed25519.v1") &&
  has_hex 32 "receipt_public_key" v && compressed_key "kms_public_key" v &&
  compressed_key "app_public_key" v && compressed_key "root_public_key" v.

Definition sorted_unique (l : list string) : bool :=
  forallb (fun '(a, b) => bool_decide (String.le a b /\ a ≠ b)) (zip l (tail l)).
Definition signing_address (v : string) : bool :=
  let v := default v (strip_prefix "0x" v) in
  bool_decide (str_len v = 40) && all_bytes is_ascii_hexdigit v.
Definition signing_address_field (k : string) (v : value) : bool :=
  match get_str k v with Some s => signing_address s | None => false end.
Definition sorted_strings_field (k : string) (v : value) : bool :=
  match strings_field k v with Some l => sorted_unique l | None => false end.

Definition valid_profile (provider : string) (claims : value) : bool :=
  match provider with
  | "aci-service"%string =>
      string_field "session_material_version" claims && tdx_material_valid claims &&
      nonempty_string "tcb_status" claims && sorted_strings_field "advisory_ids" claims &&
      has_hex 32 "measured_compose_hash" claims &&
      match get_str "measured_app_id" claims with Some id => lower_hex id | None => false end &&
      match get "receipt_key_custody" claims with
      | Some (JObject c) => receipt_custody_valid (JObject c) | _ => false end &&
      match get "published_source_provenance" claims with
      | Some (JObject p) =>
          string_field "image_digest" (JObject p) ||
          (string_field "repo_url" (JObject p) && string_field "repo_commit" (JObject p))
      | _ => false
      end
  | "near-ai"%string =>
      tdx_material_valid claims && nonempty_string "trust_boundary" claims &&
      signing_address_field "signing_address" claims && has_hex 32 "compose_hash" claims &&
      has_hex 32 "gateway_tls_spki_sha256" claims && true_field "gateway_verified" claims &&
      nullable_string "tcb_status" claims &&
      match get "gateway_gpu_check" claims with
      | Some (JObject g) => bool_field "present" (JObject g) && bool_field "accepted" (JObject g)
      | _ => false
      end
  | "phala-direct"%string =>
      tdx_material_valid claims && nonempty_string "trust_boundary" claims &&
      nonempty_string "evidence_scope" claims && nonempty_string "canonical_model_id" claims &&
      signing_address_field "signing_address" claims && has_hex 32 "compose_hash" claims &&
      bool_decide (get "attestation_version" claims ≫= as_u64 = Some 2%Z) &&
      true_field "tls_spki_from_report_data" claims && true_field "report_data_nonce_matched" claims &&
      true_field "compose_hash_verified" claims && false_field "tdx_debug_mode" claims &&
      forallb (fun k => nullable_string k claims)
        ["os_image_hash"; "os_image_version"; "gpu_arch"; "tcb_status"] &&
      forallb (fun k => nullable_bool k claims)
        ["os_image_is_dev"; "production_os_image"; "gpu_evidence_nonce_matched"] &&
      bool_field "gpu_verified" claims && bool_field "gpu_evidence_present" claims
  | "chutes"%string =>
      tdx_material_valid claims &&
      forallb (fun k => nonempty_string k claims)
        ["trust_boundary"; "evidence_scope"; "chute_id"; "canonical_model_id"; "instance_id"; "measurement"] &&
      nullable_string "tcb_status" claims && sorted_strings_field "advisory_ids" claims &&
      bool_field "gpu_verified" claims && bool_field "gpu_evidence_present" claims &&
      nullable_string "gpu_arch" claims && nullable_bool "gpu_evidence_nonce_matched" claims
  | "privatemode"%string =>
      forallb (fun k => nonempty_string k claims)
        ["trust_boundary"; "attestation_scope"; "request_encryption"; "success_response_authentication";
         "inference_secret_policy"; "manifest_mode"; "manifest_observation"; "manifest_observed_at"] &&
      has_hex 32 "observed_manifest_sha256" claims && false_field "manifest_bound_to_active_secret" claims
  | _ => false
  end.

Definition expected_verifier_id (provider : string) : option string :=
  match provider with
  | "aci-service"%string => Some "aci-service/v2"
  | "near-ai"%string => Some "private-ai-verifier/near-ai-gateway/v1"
  | "phala-direct"%string => Some "private-ai-verifier/phala-direct/v1"
  | "chutes"%string => Some "private-ai-verifier/chutes/v1"
  | "privatemode"%string => Some "privatemode-proxy/co-deployed-contrast/v1"
  | _ => None
  end.
Definition reviewed_session_material (event : UpstreamVerifiedEvent) (claims : value) : bool :=
  match uv_provider_type event with
  | None => false
  | Some provider =>
      match expected_verifier_id provider with
      | None => false
      | Some expected_id =>
          if negb (bool_decide (uv_verifier_id event = expected_id)) ||
             (bool_decide (provider = "aci-service") && bool_decide (uv_aci_identity event = None)) ||
             negb (bool_decide (get_str "session_material_version" claims = Some (provider +:+ "/1")))
          then false
          else valid_profile provider claims
      end
  end.
End Material.

(** ** What claims rest on *)
Definition hardware_provider (provider_type : option string) : bool :=
  match claim_mapper provider_type with GenericClaims => false | _ => true end.
Definition typed_claims (c : SessionClaims) : list Claim :=
  [sc_tee_attested c; sc_gpu_attested c; sc_tcb_up_to_date c; sc_os_known_good c;
   sc_serving_software_known_good c; sc_model_weights_provenance c].

Lemma typed_claims_extra c extra : typed_claims (with_extra c extra) = typed_claims c.
Proof. done. Qed.
Lemma typed_claims_event event :
  typed_claims (session_claims_for_event event) =
  typed_claims (if bool_decide (uv_result event = Verified)
                then mapper_claims (claim_mapper (uv_provider_type event)) event else claims_default).
Proof. unfold session_claims_for_event. destruct (uv_provider_claims event) as [[]|]; done. Qed.

(** Each claim by its fact. *)
Lemma tcb_claim_cases event :
  (exists s, fact_str "tcb_status" event = Some s /\ eq_ignore_ascii_case s "uptodate" = true /\
     cl_status (tcb_up_to_date_claim event) = Asserted) \/
  (exists s, fact_str "tcb_status" event = Some s /\ eq_ignore_ascii_case s "uptodate" = false /\
     cl_status (tcb_up_to_date_claim event) = Refuted) \/
  fact_str "tcb_status" event = None /\ tcb_up_to_date_claim event = claim_unknown.
Proof. unfold tcb_up_to_date_claim. destruct (fact_str _ _) as [s|]; [|naive_solver]. case_match; naive_solver. Qed.
Ltac claim_cases :=
  unfold gpu_attested_claim, tcb_up_to_date_claim, os_known_good_claim, tinfoil_software_claim,
    secret_ai_software_claim, secret_ai_os_claim, secret_ai_gpu_claim, nras_gpu_claim, armet_ai_software_claim in *;
  repeat case_match; naive_solver.
Section Mapper.
Context (m : ClaimMapper) (event : UpstreamVerifiedEvent).
Let c := mapper_claims m event.

Lemma mapper_sources cl :
  cl ∈ typed_claims c -> cl_source cl = Some HardwareProven ->
  m ≠ GenericClaims /\ (cl = sc_tee_attested c \/ cl = sc_tcb_up_to_date c).
Proof.
  intros Hcl. unfold typed_claims in Hcl. rewrite !elem_of_cons, elem_of_nil in Hcl. unfold c in *.
  destruct m; cbn in *; destruct_or!; try done; subst; try naive_solver; claim_cases.
Qed.
Lemma mapper_tcb :
  cl_status (sc_tcb_up_to_date c) = Asserted ->
  m = TinfoilClaims \/
  exists s, fact_str "tcb_status" event = Some s /\ eq_ignore_ascii_case s "uptodate" = true.
Proof. unfold c. destruct m; cbn; try by auto. all: intros H; right; claim_cases. Qed.
Lemma mapper_tcb_stale s :
  m ≠ GenericClaims -> m ≠ TinfoilClaims -> fact_str "tcb_status" event = Some s ->
  eq_ignore_ascii_case s "uptodate" = false -> cl_status (sc_tcb_up_to_date c) = Refuted.
Proof. unfold c. intros ? ? H1 H2. destruct m; cbn; try done; unfold tcb_up_to_date_claim; by rewrite H1, H2. Qed.
Lemma mapper_gpu : cl_status (sc_gpu_attested c) = Asserted -> fact_bool "gpu_verified" event = Some true.
Proof. unfold c. destruct m; cbn; try done. all: claim_cases. Qed.
Lemma mapper_os : cl_status (sc_os_known_good c) = Asserted -> fact_bool "production_os_image" event = Some true.
Proof. unfold c. destruct m; cbn; try done. all: claim_cases. Qed.
Lemma mapper_os_dev :
  m ≠ GenericClaims -> m ≠ ArmetAiClaims -> fact_bool "production_os_image" event = Some false ->
  cl_status (sc_os_known_good c) = Refuted.
Proof. unfold c. intros ? ? H. destruct m; cbn; try done; unfold os_known_good_claim, secret_ai_os_claim; by rewrite H. Qed.
Lemma mapper_software :
  cl_status (sc_serving_software_known_good c) = Asserted ->
  m = TinfoilClaims \/ is_Some (fact_str "accepted_workload_id" event) \/ is_Some (fact_str "accepted_subject" event).
Proof. unfold c. destruct m; cbn; try by auto. all: claim_cases. Qed.
End Mapper.
Lemma claim_mapper_tinfoil p : claim_mapper p = TinfoilClaims <-> p = Some "tinfoil".
Proof. unfold claim_mapper. repeat case_bool_decide; naive_solver. Qed.
Lemma claim_mapper_armet p : claim_mapper p = ArmetAiClaims <-> p = Some "armet-ai".
Proof. unfold claim_mapper. repeat case_bool_decide; naive_solver. Qed.

(** No claim of a session says more than was verified.  Without a verified
    result every claim is unknown.  The model's weights are never claimed.  A claim
    is marked as proven by hardware only for providers whose verifier checks a
    quote, and only for the TEE itself and for the platform's reported TCB status;
    an assertion about TCB, GPU, operating system or software is backed by the
    fact it names (Tinfoil's verifier gates TCB and software itself), and a dev
    image or a stale TCB is recorded as refuted, never as unknown. *)
Theorem claims_rest_on_facts event :
  let c := session_claims_for_event event in
  (uv_result event ≠ Verified -> Forall (fun cl => cl = claim_unknown) (typed_claims c)) /\
  sc_model_weights_provenance c = claim_unknown /\
  (forall cl, cl ∈ typed_claims c -> cl_source cl = Some HardwareProven ->
     hardware_provider (uv_provider_type event) = true /\ (cl = sc_tee_attested c \/ cl = sc_tcb_up_to_date c)) /\
  (cl_status (sc_tcb_up_to_date c) = Asserted ->
     uv_provider_type event = Some "tinfoil" \/
     exists s, fact_str "tcb_status" event = Some s /\ eq_ignore_ascii_case s "uptodate" = true) /\
  (cl_status (sc_gpu_attested c) = Asserted -> fact_bool "gpu_verified" event = Some true) /\
  (cl_status (sc_os_known_good c) = Asserted -> fact_bool "production_os_image" event = Some true) /\
  (cl_status (sc_serving_software_known_good c) = Asserted ->
     uv_provider_type event = Some "tinfoil" \/
     is_Some (fact_str "accepted_workload_id" event) \/ is_Some (fact_str "accepted_subject" event)) /\
  (uv_result event = Verified -> hardware_provider (uv_provider_type event) = true ->
   uv_provider_type event ≠ Some "armet-ai" -> fact_bool "production_os_image" event = Some false ->
   cl_status (sc_os_known_good c) = Refuted) /\
  (uv_result event = Verified -> hardware_provider (uv_provider_type event) = true ->
   uv_provider_type event ≠ Some "tinfoil" ->
   forall s, fact_str "tcb_status" event = Some s -> eq_ignore_ascii_case s "uptodate" = false ->
   cl_status (sc_tcb_up_to_date c) = Refuted).
Proof.
  pose proof (typed_claims_event event) as Ht. cbn zeta. set (c := session_claims_for_event event) in *.
  clearbody c. unfold hardware_provider. rewrite <- claim_mapper_tinfoil, <- claim_mapper_armet.
  set (m := claim_mapper (uv_provider_type event)) in *.
  assert (match m with GenericClaims => false | _ => true end = true <-> m ≠ GenericClaims) as Hg by by destruct m.
  rewrite !Hg. destruct (decide (uv_result event = Verified)) as [Hv|Hv].
  - rewrite bool_decide_eq_true_2 in Ht by done.
    assert (sc_model_weights_provenance (mapper_claims m event) = claim_unknown) as Hw by by destruct m.
    pose proof (mapper_sources m event) as Hsrc. rewrite <- Ht in Hsrc.
    unfold typed_claims in Ht. injection Ht as Ht1 Ht2 Ht3 Ht4 Ht5 Ht6.
    rewrite <- Ht1, <- Ht3 in Hsrc. rewrite Ht2, Ht3, Ht4, Ht5, Ht6.
    split_and!; [done|done| | | | | | |].
    + intros cl Hcl Hs. rewrite Hg, <- Ht3. auto.
    + apply mapper_tcb.
    + apply mapper_gpu.
    + apply mapper_os.
    + apply mapper_software.
    + intros _. apply mapper_os_dev.
    + intros _ ? ? s. by apply mapper_tcb_stale.
  - rewrite bool_decide_eq_false_2 in Ht by done. unfold typed_claims in *. cbn in Ht.
    injection Ht as -> -> -> -> -> ->. split_and!; try done.
    + intros _. repeat constructor.
    + intros cl Hcl. rewrite !elem_of_cons, elem_of_nil in Hcl. destruct_or!; by subst.
Qed.

(** ** Fleet churn *)
Definition shared_keys : list string :=
  ["session_material_version"; "trust_boundary"; "evidence_scope"; "chute_id"; "canonical_model_id"].
Definition slice_keys : list string :=
  ["instance_tcb_statuses"; "instance_measurements"; "instances"; "instance_tdx_reports";
   "instance_tdx_report_sha256"; "instance_advisory_ids"; "instance_gpu"].
(** Two sets of provider facts agree on what concerns one instance. *)
Definition same_for_instance (id : string) (m1 m2 : list (string * value)) : Prop :=
  Forall (fun k => obj_get k m1 = obj_get k m2) shared_keys /\
  Forall (fun k => obj_get k m1 ≫= get id = obj_get k m2 ≫= get id) slice_keys.

Lemma per_instance_claims_slice id m1 m2 :
  same_for_instance id m1 m2 ->
  per_instance_provider_claims (Some (JObject m1)) id = per_instance_provider_claims (Some (JObject m2)) id.
Proof.
  unfold same_for_instance, shared_keys, slice_keys. rewrite !Forall_cons.
  intros [(H1 & H2 & H3 & H4 & H5 & _) (Ht & Hm & Hi & Hr & Hh & Ha & Hg & _)].
  unfold per_instance_provider_claims. cbn [foldl].
  by rewrite H1, H2, H3, H4, H5, Ht, Hm, Hi, Hr, Hh, Ha, Hg.
Qed.

(** The claims of one instance of a fleet depend on that instance alone:
    whatever siblings join, fail or change, outcomes of the same verifier with the
    same facts about the instance give it the same claims, hence the same session. *)
Theorem instance_claims_ignore_siblings id e1 e2 m1 m2 :
  uv_provider_claims e1 = Some (JObject m1) -> uv_provider_claims e2 = Some (JObject m2) ->
  uv_provider_type e1 = uv_provider_type e2 -> uv_verifier_id e1 = uv_verifier_id e2 ->
  uv_result e1 = uv_result e2 -> same_for_instance id m1 m2 ->
  per_instance_session_claims e1 id = per_instance_session_claims e2 id.
Proof.
  intros H1 H2 Hp Hv Hr Hm. unfold per_instance_session_claims, instance_event.
  by rewrite H1, H2, Hp, Hv, Hr, (per_instance_claims_slice id m1 m2 Hm).
Qed.

Definition sample_fleet (sibling : string) : list (string * value) :=
  [("chute_id", JString "c"); ("instance_tcb_statuses", JObject [("i", JString "UpToDate"); (sibling, JString "OutOfDate")])].
Definition sample_fleet_event (sibling : string) : UpstreamVerifiedEvent :=
  mkUpstreamVerifiedEvent None "chutes-1" (Some "chutes") "m" None "v" Verified false None None []
    (Some (JObject (sample_fleet sibling))) None.
Lemma instance_claims_ignore_siblings_witness :
  cl_status (sc_tcb_up_to_date (per_instance_session_claims (sample_fleet_event "j") "i")) = Asserted /\
  per_instance_session_claims (sample_fleet_event "j") "i" = per_instance_session_claims (sample_fleet_event "k") "i".
Proof.
  split; [vm_compute; reflexivity|].
  apply (instance_claims_ignore_siblings "i" _ _ (sample_fleet "j") (sample_fleet "k")); try reflexivity.
  split; repeat constructor.
Defined.
