(* ===== verification/E2eeCipher.v ===== *)
(** * Field encryption (src/aci/e2ee.rs)

    The two suites of the E2EE v2 protocol and the two legacy ones: an ephemeral
    key agreement, HKDF-SHA256 with the suite's context string, AES-256-GCM, and
    the wire blob [ephemeral public key || nonce || ciphertext and tag] in
    lowercase hex.  The curves, HKDF and AES-GCM are third-party crates, a class of
    functions with the facts their documentation gives.  What the random number
    generator yields is an argument.  The theorem is the round trip of each suite. *)
From S2P Require Import Prelude Json External Sample Identity Receipt.

Definition E2EE_VERSION_V2 : string := "2".
Definition E2EE_VERSION_V1 : string := "1".
Definition E2EE_ALGO_X25519_AESGCM : string := "x25519-aes-256-gcm-hkdf-sha256".
Definition E2EE_ALGO_SECP256K1_AESGCM : string := "secp256k1-aes-256-gcm-hkdf-sha256".
Definition E2EE_ALGO_LEGACY_ECDSA : string := "ecdsa".
Definition E2EE_ALGO_LEGACY_ED25519 : string := "ed25519".

Definition SECP256K1_HKDF_INFO : bytes := as_bytes "aci.e2ee.v2.secp256k1".
Definition X25519_HKDF_INFO : bytes := as_bytes "aci.e2ee.v2.x25519".
Definition LEGACY_ECDSA_HKDF_INFO : bytes := as_bytes "ecdsa_encryption".
Definition LEGACY_ED25519_HKDF_INFO : bytes := as_bytes "ed25519_encryption".
Definition PUBLIC_KEY_LEN : nat := 65.
Definition X25519_PUBLIC_KEY_LEN : nat := 32.
Definition GCM_NONCE_LEN : nat := 12.
Definition TAG_LEN : nat := 16.

(** [x25519_dalek], [k256], [curve25519_dalek], [ed25519_dalek], [hkdf], [aes_gcm]
    and [sha2::Sha512].  Keys and points of X25519 and Ed25519 are their 32 bytes. *)
Class CurveCrypto := {
  (* [StaticSecret] and [PublicKey] of x25519_dalek *)
  x25519_public : bytes -> bytes;
  x25519_diffie_hellman : bytes -> bytes -> bytes;
  (* [SecretKey] and [PublicKey] of k256 *)
  secp_secret : Type;
  secp_public : Type;
  secret_from_slice : bytes -> result string secp_secret;
  secret_public_key : secp_secret -> secp_public;
  sec1_encoded_point : bytes -> result string bytes;
  public_from_sec1_bytes : bytes -> result string secp_public;
  to_uncompressed_point : secp_public -> bytes;
  secp_diffie_hellman : secp_secret -> secp_public -> bytes;
  (* Ed25519 keys: the public key of a seed, and its Montgomery form *)
  ed25519_public : bytes -> bytes;
  ed25519_to_montgomery : bytes -> option bytes;
  sha512 : bytes -> bytes;
  (* HKDF-SHA256 without salt to 32 bytes, and AES-256-GCM *)
  hkdf_expand : bytes -> bytes -> result string bytes;
  gcm_encrypt : bytes -> bytes -> bytes -> bytes -> result string bytes;
  gcm_decrypt : bytes -> bytes -> bytes -> bytes -> result string bytes;
}.

(** What their documentation says. *)
Class CurveCryptoLaws `{CurveCrypto} := {
  x25519_public_length s : length s = 32 -> length (x25519_public s) = 32;
  x25519_agree a b : x25519_diffie_hellman a (x25519_public b) = x25519_diffie_hellman b (x25519_public a);
  secp_agree a b :
    secp_diffie_hellman a (secret_public_key b) = secp_diffie_hellman b (secret_public_key a);
  sec1_encoded_uncompressed rest :
    length rest = 64 -> sec1_encoded_point (u8 4 :: rest) = Ok (u8 4 :: rest);
  uncompressed_shape p : exists rest, to_uncompressed_point p = u8 4 :: rest /\ length rest = 64;
  sec1_roundtrip p : public_from_sec1_bytes (to_uncompressed_point p) = Ok p;
  ed25519_public_length s : length s = 32 -> length (ed25519_public s) = 32;
  ed25519_montgomery_of_seed s scalar :
    length s = 32 ->
    scalar = (let d := take 32 (sha512 s) in
              alter (fun b => u8 (N.lor (N.land (byte b) 127) 64)) 31 (alter (fun b => u8 (N.land (byte b) 248)) 0 d)) ->
    ed25519_to_montgomery (ed25519_public s) = Some (x25519_public scalar);
  sha512_length b : length (sha512 b) = 64;
  hkdf_expand_32 shared info : exists key, hkdf_expand shared info = Ok key /\ length key = 32;
  gcm_decrypt_encrypt key nonce msg aad c :
    gcm_encrypt key nonce msg aad = Ok c ->
    length c = length msg + TAG_LEN /\ gcm_decrypt key nonce c aad = Ok msg;
  gcm_encrypt_total key nonce msg aad :
    length key = 32 -> length nonce = GCM_NONCE_LEN -> (Z.of_nat (length msg) < 2 ^ 32)%Z ->
    (Z.of_nat (length aad) < 2 ^ 32)%Z -> is_ok (gcm_encrypt key nonce msg aad) = true;
}.

(** What a call draws from the random number generator. *)
Record Draws `{CurveCrypto} := mkDraws {
  draw_bytes : bytes;
  draw_secret : secp_secret;
  draw_nonce : bytes;
}.
Definition draws_ok `{CurveCrypto} (d : Draws) : Prop :=
  length (draw_bytes d) = 32 /\ length (draw_nonce d) = GCM_NONCE_LEN.

Definition strip_0x (v : string) : string := default v (strip_prefix "0x" v).

Section Suites.
Context {HX : HexCodec} {CC : CurveCrypto}.

Definition crypto_err {A} (text : string) (r : result string A) : result KeyError A :=
  map_err (fun e => CryptoFailure (text +:+ e)) r.

(** ** Public keys *)
Definition normalize_secp256k1_public_key_hex (v : string) : result KeyError string :=
  b ← crypto_err "invalid secp256k1 public key hex: " (hex_decode (strip_0x v));
  let tagged := match b with
    | tag :: rest => if bool_decide (tag = u8 4) && bool_decide (length rest = 64) then Some rest else None
    | [] => None
    end in
  encoded ← match tagged with
            | Some rest => crypto_err "invalid secp256k1 public key: " (sec1_encoded_point (u8 4 :: rest))
            | None =>
                if bool_decide (length b = 64)
                then crypto_err "invalid secp256k1 public key: " (sec1_encoded_point (u8 4 :: b))
                else Err (CryptoFailure ("secp256k1 public key must be 64 or 65 bytes, got " +:+ pretty (length b)))
            end;
  _ ← crypto_err "invalid secp256k1 public key: " (public_from_sec1_bytes encoded);
  Ok (hex_encode encoded).

Definition public_key_from_secret (secret : secp_secret) : string :=
  hex_encode (to_uncompressed_point (secret_public_key secret)).
Definition legacy_ecdsa_public_key_from_secret (secret : secp_secret) : string :=
  hex_encode (drop 1 (to_uncompressed_point (secret_public_key secret))).
Definition ed25519_public_key_hex (seed : bytes) : string := hex_encode (ed25519_public seed).

Definition is_aci_e2ee_suite (algo : string) : bool :=
  bool_decide (algo = E2EE_ALGO_X25519_AESGCM) || bool_decide (algo = E2EE_ALGO_SECP256K1_AESGCM).

(** [bytes.as_slice().try_into()] to an array of [n] bytes. *)
Definition array_of (n : nat) (err : nat -> KeyError) (b : bytes) : result KeyError bytes :=
  if bool_decide (length b = n) then Ok b else Err (err (length b)).

Definition normalize_x25519_public_key_hex (v : string) : result KeyError string :=
  b ← crypto_err "invalid X25519 public key hex: " (hex_decode (strip_0x v));
  b ← array_of X25519_PUBLIC_KEY_LEN
        (fun n => CryptoFailure ("X25519 public key must be 32 bytes, got " +:+ pretty n)) b;
  Ok (hex_encode b).

Definition normalize_aci_e2ee_public_key_hex (algo v : string) : result KeyError string :=
  if bool_decide (algo = E2EE_ALGO_X25519_AESGCM) then normalize_x25519_public_key_hex v
  else if bool_decide (algo = E2EE_ALGO_SECP256K1_AESGCM) then normalize_secp256k1_public_key_hex v
  else Err (UnsupportedAlgo algo).

Definition x25519_public_key_hex (secret : bytes) : string := hex_encode (x25519_public secret).
Definition x25519_secret_key_from_bytes (b : bytes) : result KeyError bytes :=
  array_of 32 (fun n => CryptoFailure ("invalid X25519 E2EE key: must be 32 bytes, got " +:+ pretty n)) b.
Definition secret_key_from_bytes (b : bytes) : result KeyError secp_secret :=
  crypto_err "invalid secp256k1 E2EE key: " (secret_from_slice b).

Definition public_key_from_hex (v : string) : result KeyError secp_public :=
  normalized ← normalize_secp256k1_public_key_hex v;
  b ← crypto_err "invalid secp256k1 public key hex: " (hex_decode normalized);
  crypto_err "invalid secp256k1 public key: " (public_from_sec1_bytes b).

(** [hex::decode] and [try_into] of the normalized key cannot fail; their
    [expect]s are not branches of the model. *)
Definition x25519_public_key_from_hex (v : string) : result KeyError bytes :=
  normalized ← normalize_x25519_public_key_hex v;
  Ok (default [] (result_ok (hex_decode normalized))).

Definition ed25519_public_to_x25519_public_key (v : string) : result KeyError bytes :=
  b ← crypto_err "invalid Ed25519 public key hex: " (hex_decode (strip_0x v));
  b ← array_of 32 (fun n => CryptoFailure ("Ed25519 public key must be 32 bytes, got " +:+ pretty n)) b;
  ok_or (CryptoFailure "invalid Ed25519 public key point") (ed25519_to_montgomery b).

(** The clamped first half of the seed's SHA-512. *)
Definition ed25519_private_to_x25519_private_key (seed : bytes) : bytes :=
  let scalar := take 32 (sha512 seed) in
  let scalar := alter (fun b => u8 (N.land (byte b) 248)) 0 scalar in
  alter (fun b => u8 (N.lor (N.land (byte b) 127) 64)) 31 scalar.

(** ** Ciphers.  A cipher is its 32-byte key. *)
Definition cipher_from_shared_secret (shared : bytes) : result KeyError bytes :=
  crypto_err "HKDF expand failed: " (hkdf_expand shared SECP256K1_HKDF_INFO).
Definition x25519_cipher_from_shared_secret (shared : bytes) : result KeyError bytes :=
  crypto_err "HKDF expand failed: " (hkdf_expand shared X25519_HKDF_INFO).
Definition legacy_cipher_from_shared_secret (shared : bytes) (signing_algo : string) : result KeyError bytes :=
  info ← (if bool_decide (signing_algo = E2EE_ALGO_LEGACY_ECDSA) then Ok LEGACY_ECDSA_HKDF_INFO
          else if bool_decide (signing_algo = E2EE_ALGO_LEGACY_ED25519) then Ok LEGACY_ED25519_HKDF_INFO
          else Err (UnsupportedAlgo signing_algo));
  crypto_err "legacy HKDF expand failed: " (hkdf_expand shared info).

(** ** The suites *)
Definition encrypt_x25519_for_public_key (d : Draws) (recipient_public_key_hex : string) (plaintext aad : bytes) :
    result KeyError string :=
  recipient ← x25519_public_key_from_hex recipient_public_key_hex;
  let ephemeral := draw_bytes d in
  cipher ← x25519_cipher_from_shared_secret (x25519_diffie_hellman ephemeral recipient);
  ciphertext ← crypto_err "X25519 E2EE encrypt failed: " (gcm_encrypt cipher (draw_nonce d) plaintext aad);
  Ok (hex_encode (x25519_public ephemeral ++ draw_nonce d ++ ciphertext)).

(** The blob behind a ciphertext: at least a public key, a nonce and a tag. *)
Definition decode_blob (hex_text short_text : string) (key_len : nat) (ciphertext_hex : string) :
    result KeyError (bytes * bytes * bytes) :=
  blob ← crypto_err hex_text (hex_decode (strip_0x ciphertext_hex));
  if bool_decide (length blob < key_len + GCM_NONCE_LEN + TAG_LEN)
  then Err (CryptoFailure (short_text +:+ pretty (length blob) +:+ " bytes"))
  else Ok (take key_len blob, take GCM_NONCE_LEN (drop key_len blob), drop (key_len + GCM_NONCE_LEN) blob).

Definition decrypt_x25519_with_secret_key (recipient_secret : bytes) (ciphertext_hex : string) (aad : bytes) :
    result KeyError bytes :=
  '(eph, nonce, ciphertext) ← decode_blob "invalid X25519 E2EE ciphertext hex: "
    "X25519 E2EE ciphertext too short: got " X25519_PUBLIC_KEY_LEN ciphertext_hex;
  cipher ← x25519_cipher_from_shared_secret (x25519_diffie_hellman recipient_secret eph);
  crypto_err "X25519 E2EE decrypt failed: " (gcm_decrypt cipher nonce ciphertext aad).

Definition encrypt_for_public_key (d : Draws) (recipient_public_key_hex : string) (plaintext aad : bytes) :
    result KeyError string :=
  recipient ← public_key_from_hex recipient_public_key_hex;
  let ephemeral := draw_secret d in
  cipher ← cipher_from_shared_secret (secp_diffie_hellman ephemeral recipient);
  ciphertext ← crypto_err "E2EE encrypt failed: " (gcm_encrypt cipher (draw_nonce d) plaintext aad);
  Ok (hex_encode (to_uncompressed_point (secret_public_key ephemeral) ++ draw_nonce d ++ ciphertext)).

Definition encrypt_legacy_for_public_key (d : Draws) (signing_algo recipient_public_key_hex : string)
    (plaintext : bytes) (aad : option bytes) : result KeyError string :=
  if bool_decide (signing_algo = E2EE_ALGO_LEGACY_ECDSA) then
    recipient ← public_key_from_hex recipient_public_key_hex;
    let ephemeral := draw_secret d in
    cipher ← legacy_cipher_from_shared_secret (secp_diffie_hellman ephemeral recipient) E2EE_ALGO_LEGACY_ECDSA;
    ciphertext ← crypto_err "legacy E2EE encrypt failed: "
      (gcm_encrypt cipher (draw_nonce d) plaintext (default [] aad));
    Ok (hex_encode (to_uncompressed_point (secret_public_key ephemeral) ++ draw_nonce d ++ ciphertext))
  else if bool_decide (signing_algo = E2EE_ALGO_LEGACY_ED25519) then
    recipient ← ed25519_public_to_x25519_public_key recipient_public_key_hex;
    let secret := draw_bytes d in
    cipher ← legacy_cipher_from_shared_secret (x25519_diffie_hellman secret recipient) E2EE_ALGO_LEGACY_ED25519;
    ciphertext ← crypto_err "legacy E2EE encrypt failed: "
      (gcm_encrypt cipher (draw_nonce d) plaintext (default [] aad));
    Ok (hex_encode (x25519_public secret ++ draw_nonce d ++ ciphertext))
  else Err (UnsupportedAlgo signing_algo).

Definition encrypt_aci_e2ee_for_public_key (d : Draws) (algo recipient_public_key_hex : string)
    (plaintext aad : bytes) : result KeyError string :=
  if bool_decide (algo = E2EE_ALGO_X25519_AESGCM) then
    encrypt_x25519_for_public_key d recipient_public_key_hex plaintext aad
  else if bool_decide (algo = E2EE_ALGO_SECP256K1_AESGCM) then
    encrypt_for_public_key d recipient_public_key_hex plaintext aad
  else Err (UnsupportedAlgo algo).

Definition decrypt_with_secret_key (recipient_secret : secp_secret) (ciphertext_hex : string) (aad : bytes) :
    result KeyError bytes :=
  '(eph, nonce, ciphertext) ← decode_blob "invalid E2EE ciphertext hex: "
    "E2EE ciphertext too short: got " PUBLIC_KEY_LEN ciphertext_hex;
  eph ← crypto_err "invalid E2EE ephemeral public key: " (public_from_sec1_bytes eph);
  cipher ← cipher_from_shared_secret (secp_diffie_hellman recipient_secret eph);
  crypto_err "E2EE decrypt failed: " (gcm_decrypt cipher nonce ciphertext aad).

Definition decrypt_legacy_ecdsa_with_secret_key (recipient_secret : secp_secret) (ciphertext_hex : string)
    (aad : option bytes) : result KeyError bytes :=
  '(eph, nonce, ciphertext) ← decode_blob "invalid legacy E2EE ciphertext hex: "
    "legacy ECDSA E2EE ciphertext too short: got " PUBLIC_KEY_LEN ciphertext_hex;
  eph ← crypto_err "invalid legacy ECDSA ephemeral public key: " (public_from_sec1_bytes eph);
  cipher ← legacy_cipher_from_shared_secret (secp_diffie_hellman recipient_secret eph) E2EE_ALGO_LEGACY_ECDSA;
  crypto_err "legacy ECDSA E2EE decrypt failed: " (gcm_decrypt cipher nonce ciphertext (default [] aad)).

Definition decrypt_legacy_ed25519_with_secret_key (seed : bytes) (ciphertext_hex : string)
    (aad : option bytes) : result KeyError bytes :=
  '(eph, nonce, ciphertext) ← decode_blob "invalid legacy E2EE ciphertext hex: "
    "legacy Ed25519 E2EE ciphertext too short: got " X25519_PUBLIC_KEY_LEN ciphertext_hex;
  let secret := ed25519_private_to_x25519_private_key seed in
  cipher ← legacy_cipher_from_shared_secret (x25519_diffie_hellman secret eph) E2EE_ALGO_LEGACY_ED25519;
  crypto_err "legacy Ed25519 E2EE decrypt failed: " (gcm_decrypt cipher nonce ciphertext (default [] aad)).
End Suites.

(** ** Round trips *)
#[local] Ltac step := cbn [mbind result_bind crypto_err map_err ok_or drop].
Section RoundTrips.
Context {HX : HexCodec} {CC : CurveCrypto} {CL : CurveCryptoLaws}.

Lemma strip_0x_hex b : strip_0x (hex_encode b) = hex_encode b.
Proof. unfold strip_0x. by rewrite hex_encode_no_prefix. Qed.
Lemma array_of_ok n err b : length b = n -> array_of n err b = Ok b.
Proof. intros H. unfold array_of. by rewrite bool_decide_eq_true_2. Qed.

Lemma decode_blob_encode t1 t2 n eph nonce c :
  length eph = n -> length nonce = GCM_NONCE_LEN -> TAG_LEN <= length c ->
  decode_blob t1 t2 n (hex_encode (eph ++ nonce ++ c)) = Ok (eph, nonce, c).
Proof.
  intros He Hn Hc. unfold decode_blob. rewrite strip_0x_hex, hex_decode_encode.
  step. rewrite !length_app, bool_decide_eq_false_2 by lia. subst n.
  rewrite take_app_length, drop_app_length, <- Hn, take_app_length.
  by rewrite <- drop_drop, !drop_app_length.
Qed.

Lemma normalize_x25519_encode b :
  length b = 32 -> normalize_x25519_public_key_hex (hex_encode b) = Ok (hex_encode b).
Proof.
  intros H. unfold normalize_x25519_public_key_hex. rewrite strip_0x_hex, hex_decode_encode. step.
  by rewrite array_of_ok.
Qed.
Lemma x25519_public_key_from_hex_encode b : length b = 32 -> x25519_public_key_from_hex (hex_encode b) = Ok b.
Proof.
  intros H. unfold x25519_public_key_from_hex. rewrite normalize_x25519_encode by done. step.
  by rewrite hex_decode_encode.
Qed.
Lemma normalize_secp256k1_tagged p :
  normalize_secp256k1_public_key_hex (hex_encode (to_uncompressed_point p)) =
  Ok (hex_encode (to_uncompressed_point p)).
Proof.
  destruct (uncompressed_shape p) as (rest & Hp & Hr). unfold normalize_secp256k1_public_key_hex.
  rewrite strip_0x_hex, hex_decode_encode. step. rewrite Hp, !bool_decide_eq_true_2 by done. cbn [andb].
  rewrite sec1_encoded_uncompressed by done. step. by rewrite <- Hp, sec1_roundtrip.
Qed.
Lemma normalize_secp256k1_untagged p :
  normalize_secp256k1_public_key_hex (hex_encode (drop 1 (to_uncompressed_point p))) =
  Ok (hex_encode (to_uncompressed_point p)).
Proof.
  destruct (uncompressed_shape p) as (rest & Hp & Hr). unfold normalize_secp256k1_public_key_hex.
  rewrite strip_0x_hex, hex_decode_encode, Hp. step.
  rewrite (bool_decide_eq_true_2 (length rest = 64)) by done.
  destruct rest as [|tag rest']; [done|]. injection Hr as Hr. rewrite drop_0. cbv match.
  rewrite (bool_decide_eq_false_2 (length rest' = 64)), andb_false_r by lia. cbv match.
  rewrite sec1_encoded_uncompressed by (cbn; lia). step.
  by rewrite <- Hp, sec1_roundtrip.
Qed.
Lemma public_key_from_hex_normal v p :
  normalize_secp256k1_public_key_hex v = Ok (hex_encode (to_uncompressed_point p)) ->
  public_key_from_hex v = Ok p.
Proof. intros H. unfold public_key_from_hex. rewrite H. step. rewrite hex_decode_encode. step. by rewrite sec1_roundtrip. Qed.
Lemma uncompressed_length p : length (to_uncompressed_point p) = PUBLIC_KEY_LEN.
Proof. destruct (uncompressed_shape p) as (rest & -> & Hr). cbn. by rewrite Hr. Qed.

(** Every suite encrypts texts and associated data below 4 GiB, and what it
    produces decrypts to the text under the same associated data. *)
Definition small (b : bytes) : Prop := (Z.of_nat (length b) < 2 ^ 32)%Z.

Lemma gcm_seal key d msg aad :
  length key = 32 -> draws_ok d -> small msg -> small aad ->
  exists c, gcm_encrypt key (draw_nonce d) msg aad = Ok c /\ TAG_LEN <= length c /\
    gcm_decrypt key (draw_nonce d) c aad = Ok msg.
Proof.
  intros Hk [_ Hn] Hm Ha. pose proof (gcm_encrypt_total key (draw_nonce d) msg aad Hk Hn Hm Ha) as Ht.
  destruct (gcm_encrypt _ _ _ _) as [c|] eqn:Hc; [|done].
  destruct (gcm_decrypt_encrypt _ _ _ _ _ Hc) as [Hl Hd]. exists c. split_and!; [done|lia|done].
Qed.

Lemma x25519_roundtrip d secret msg aad :
  length secret = 32 -> draws_ok d -> small msg -> small aad ->
  exists text, encrypt_x25519_for_public_key d (x25519_public_key_hex secret) msg aad = Ok text /\
    decrypt_x25519_with_secret_key secret text aad = Ok msg.
Proof.
  intros Hs Hd Hm Ha. unfold encrypt_x25519_for_public_key, x25519_public_key_hex,
    decrypt_x25519_with_secret_key, x25519_cipher_from_shared_secret.
  rewrite x25519_public_key_from_hex_encode by by apply x25519_public_length. step.
  destruct (hkdf_expand_32 (x25519_diffie_hellman (draw_bytes d) (x25519_public secret)) X25519_HKDF_INFO)
    as (key & Hk & Hl).
  destruct (gcm_seal key d msg aad) as (c & Hc & Ht & Hdec); [done..|]. rewrite Hk. step. rewrite Hc. step.
  eexists. split; [done|]. destruct Hd as [Hb Hn].
  rewrite decode_blob_encode by (done || by apply x25519_public_length). step.
  by rewrite x25519_agree, Hk; step; rewrite Hdec.
Qed.
Lemma secp256k1_roundtrip d secret msg aad :
  draws_ok d -> small msg -> small aad ->
  exists text, encrypt_for_public_key d (public_key_from_secret secret) msg aad = Ok text /\
    decrypt_with_secret_key secret text aad = Ok msg.
Proof.
  intros Hd Hm Ha. unfold encrypt_for_public_key, decrypt_with_secret_key, cipher_from_shared_secret.
  rewrite (public_key_from_hex_normal _ (secret_public_key secret)) by apply normalize_secp256k1_tagged. step.
  destruct (hkdf_expand_32 (secp_diffie_hellman (draw_secret d) (secret_public_key secret)) SECP256K1_HKDF_INFO)
    as (key & Hk & Hl).
  destruct (gcm_seal key d msg aad) as (c & Hc & Ht & Hdec); [done..|]. rewrite Hk. step. rewrite Hc. step.
  eexists. split; [done|]. destruct Hd as [Hb Hn].
  rewrite decode_blob_encode by (done || apply uncompressed_length). step. rewrite sec1_roundtrip. step.
  by rewrite secp_agree, Hk; step; rewrite Hdec.
Qed.
Lemma legacy_ecdsa_roundtrip d secret msg aad :
  draws_ok d -> small msg -> small (default [] aad) ->
  exists text,
    encrypt_legacy_for_public_key d E2EE_ALGO_LEGACY_ECDSA (legacy_ecdsa_public_key_from_secret secret) msg aad = Ok text /\
    decrypt_legacy_ecdsa_with_secret_key secret text aad = Ok msg.
Proof.
  intros Hd Hm Ha. unfold encrypt_legacy_for_public_key, decrypt_legacy_ecdsa_with_secret_key,
    legacy_cipher_from_shared_secret. rewrite !bool_decide_eq_true_2 by done.
  rewrite (public_key_from_hex_normal _ (secret_public_key secret)) by apply normalize_secp256k1_untagged. step.
  destruct (hkdf_expand_32 (secp_diffie_hellman (draw_secret d) (secret_public_key secret)) LEGACY_ECDSA_HKDF_INFO)
    as (key & Hk & Hl).
  destruct (gcm_seal key d msg (default [] aad)) as (c & Hc & Ht & Hdec); [done..|]. rewrite Hk. step. rewrite Hc. step.
  eexists. split; [done|]. destruct Hd as [Hb Hn].
  rewrite decode_blob_encode by (done || apply uncompressed_length). step. rewrite sec1_roundtrip. step.
  by rewrite secp_agree, Hk; step; rewrite Hdec.
Qed.
Lemma legacy_ed25519_roundtrip d seed msg aad :
  length seed = 32 -> draws_ok d -> small msg -> small (default [] aad) ->
  exists text,
    encrypt_legacy_for_public_key d E2EE_ALGO_LEGACY_ED25519 (ed25519_public_key_hex seed) msg aad = Ok text /\
    decrypt_legacy_ed25519_with_secret_key seed text aad = Ok msg.
Proof.
  intros Hs Hd Hm Ha. unfold encrypt_legacy_for_public_key, decrypt_legacy_ed25519_with_secret_key,
    ed25519_public_to_x25519_public_key, ed25519_public_key_hex, legacy_cipher_from_shared_secret.
  rewrite (bool_decide_eq_false_2 (E2EE_ALGO_LEGACY_ED25519 = E2EE_ALGO_LEGACY_ECDSA)) by done.
  rewrite !bool_decide_eq_true_2 by done. rewrite strip_0x_hex, hex_decode_encode. step.
  rewrite array_of_ok by by apply ed25519_public_length. step.
  rewrite (ed25519_montgomery_of_seed seed (ed25519_private_to_x25519_private_key seed)) by done. step.
  set (secret := ed25519_private_to_x25519_private_key seed).
  destruct (hkdf_expand_32 (x25519_diffie_hellman (draw_bytes d) (x25519_public secret)) LEGACY_ED25519_HKDF_INFO)
    as (key & Hk & Hl).
  destruct (gcm_seal key d msg (default [] aad)) as (c & Hc & Ht & Hdec); [done..|]. rewrite Hk. step. rewrite Hc. step.
  eexists. split; [done|]. destruct Hd as [Hb Hn].
  rewrite decode_blob_encode by (done || by apply x25519_public_length). step.
  by rewrite x25519_agree, Hk; step; rewrite Hdec.
Qed.
End RoundTrips.

(** ** Concrete stand-ins
    X25519 keys are their own public keys and agree on the exclusive or; a
    secp256k1 key is one byte; the cipher appends a tag over key, nonce and
    associated data. *)
Definition byte_xor (a b : ascii) : ascii := u8 (N.lxor (byte a) (byte b)).
Definition sample_clamp (seed : bytes) : bytes :=
  alter (fun b => u8 (N.lor (N.land (byte b) 127) 64)) 31
    (alter (fun b => u8 (N.land (byte b) 248)) 0 (take 32 (sample_digest 64 seed))).
Definition sample_tag (key nonce aad : bytes) : bytes := sample_digest 16 (nonce ++ aad ++ key).
Definition sample_uncompressed (c : ascii) : bytes := u8 4 :: c :: zeros 63.

#[local] Instance sample_curves : CurveCrypto := {|
  x25519_public s := s;
  x25519_diffie_hellman := zip_with byte_xor;
  secp_secret := ascii;
  secp_public := ascii;
  secret_from_slice b := ok_or "empty" (head b);
  secret_public_key c := c;
  sec1_encoded_point b := Ok b;
  public_from_sec1_bytes b := ok_or "short" (b !! 1);
  to_uncompressed_point := sample_uncompressed;
  secp_diffie_hellman a b := [byte_xor a b];
  ed25519_public := sample_clamp;
  ed25519_to_montgomery := Some;
  sha512 := sample_digest 64;
  hkdf_expand shared info := Ok (sample_digest 32 (shared ++ info));
  gcm_encrypt key nonce msg aad := Ok (msg ++ sample_tag key nonce aad);
  gcm_decrypt key nonce c aad :=
    let n := length c - TAG_LEN in
    if bool_decide (drop n c = sample_tag key nonce aad) then Ok (take n c) else Err "tag";
|}.
Lemma byte_xor_comm a b : byte_xor a b = byte_xor b a.
Proof. unfold byte_xor. by rewrite N.lxor_comm. Qed.
#[local] Instance sample_curve_laws : CurveCryptoLaws.
Proof.
  split; cbn; try done.
  - intros a b. revert b. induction a as [|x a IH]; intros [|y b]; [done..|]. cbn.
    f_equal; [apply byte_xor_comm|apply IH].
  - intros a b. f_equal. apply byte_xor_comm.
  - intros p. exists (p :: zeros 63). split; [done|]. by cbn.
  - intros s _. unfold sample_clamp. rewrite !length_alter, length_take, sample_digest_length. done.
  - intros s scalar _ ->. done.
  - intros b. apply sample_digest_length.
  - intros shared info. eexists. split; [done|apply sample_digest_length].
  - intros key nonce msg aad c [= <-]. rewrite length_app. unfold sample_tag. rewrite sample_digest_length.
    split; [done|]. replace (length msg + 16 - TAG_LEN) with (length msg) by (unfold TAG_LEN; lia).
    by rewrite drop_app_length, take_app_length, bool_decide_eq_true_2.
Qed.
