(* ===== verification/Provider.v ===== *)
(** * Keys and quotes from dstack (src/dstack.rs, src/aci/keys.rs)

    The provider behind the gateway's keys: released by the dstack KMS, held for
    the life of the process, published with their custody evidence, and used to
    sign receipts, decrypt request fields and sign legacy messages; and the quoter
    that returns hardware quotes.  The dstack agent is an environment that answers
    calls ([DstackE]).  The theorems show that what a client encrypts to a published
    key the provider decrypts, that its receipt signatures are those the receipts
    rely on, that a quote is returned only for the report data that was asked for,
    and that the custody evidence it publishes passes the client's check. *)
From S2P Require Import Prelude Json External Sample Effects Digest Identity ReportBinding Dstack Receipt E2eeCipher.

(** ** keys.rs *)
Definition LEGACY_ALGO_ED25519 : string := "ed25519".
Definition LEGACY_ALGO_ECDSA : string := "ecdsa".

Record LegacySignature : Type := mkLegacySignature {
  lsig_signing_algo : string;
  lsig_signing_address : string;
  lsig_signature : string;
}.
Record Quote : Type := mkQuote {
  q_raw_quote : bytes;
  q_report_data : bytes;
  q_event_log : value;
  q_vm_config : value;
  q_app_compose : option string;
}.

(** The part of the [KeyProvider] trait beyond receipts. *)
Class E2eeKeyProvider := {
  e2ee_keys : list KeyedPublicKey;
  decrypt_e2ee : string -> string -> bytes -> result KeyError bytes;
  legacy_e2ee_keys : list KeyedPublicKey;
  decrypt_legacy_e2ee : string -> string -> option bytes -> result KeyError bytes;
  tls_spkis : list TlsSpki;
  sign_legacy_message : string -> string -> result KeyError LegacySignature;
  key_custody_evidence : value;
  is_test_only : bool;
}.

(** Signing with [ed25519_dalek] and [k256]. *)
Class Signing `{CurveCrypto, K256} := {
  ed25519_sign : bytes -> bytes -> bytes;
  sign_prehash_recoverable : secp_secret -> bytes -> result string (bytes * Z);
  k256_from_scalar : bytes -> result string k_key;
}.

(** ** The dstack agent *)
Record GetKeyResponse : Type := mkGetKeyResponse {
  gk_decoded_key : result string bytes;
  gk_signature_chain : list string;
}.
Record GetQuoteResponse : Type := mkGetQuoteResponse {
  gq_decoded_quote : result string bytes;
  gq_report_data : string;
  gq_vm_config : string;
}.
Record DstackInfo : Type := mkDstackInfo {
  di_event_log : value;
  di_app_compose : string;
}.
Inductive DstackE : Type -> Type :=
| GetKey (path purpose : string) : DstackE (result string GetKeyResponse)
| GetQuote (report_data : bytes) : DstackE (result string GetQuoteResponse)
| Info : DstackE (result string DstackInfo).

Definition E2EE_X25519_PURPOSE : string := "aci.e2ee.x25519.v1".
Definition LEGACY_E2EE_PURPOSE : string := "aci.e2ee.v1".
Definition LEGACY_ED25519_PURPOSE : string := "aci.legacy.ed25519.v1".
Definition PREFIX_HASH_PURPOSE : string := "aci.prefix-hash.hmac-sha256.v1".

Record DstackAciProviderConfig : Type := mkProviderConfig {
  dc_receipt_path : string;
  dc_x25519_e2ee_path : string;
  dc_legacy_e2ee_path : string;
  dc_legacy_ed25519_path : string;
  dc_prefix_hash_path : string;
  dc_receipt_key_id : string;
  dc_x25519_e2ee_key_id : string;
  dc_legacy_e2ee_key_id : string;
  dc_legacy_ed25519_key_id : string;
}.
Definition default_provider_config : DstackAciProviderConfig :=
  mkProviderConfig "aci/receipt-ed25519/v1" "aci/e2ee-x25519/v1" "aci/e2ee/v1" "aci/legacy-ed25519/v1"
    "aci/prefix-hash-hmac-sha256/v1" "dstack-kms-receipt-ed25519-v1" "dstack-kms-e2ee-x25519-v1"
    "dstack-kms-e2ee-v1" "dstack-kms-legacy-ed25519-v1".

Record KmsKeyEvidence : Type := mkKmsKeyEvidence {
  ke_role : string;
  ke_path : string;
  ke_purpose : string;
  ke_algo : string;
  ke_public_key_hex : string;
  ke_kms_public_key_hex : string;
  ke_signature_chain : list string;
}.

Definition normalize_dstack_endpoint (endpoint : option string) : result KeyError (option string) :=
  match endpoint with
  | None => Ok None
  | Some endpoint =>
      let endpoint := trim endpoint in
      if bool_decide (endpoint = "") then Err (QuoteFailure "dstack endpoint is empty") else
      let normalized := match strip_prefix "unix://" endpoint with
        | Some rest => rest
        | None => default endpoint (strip_prefix "unix:" endpoint)
        end in
      if bool_decide (normalized = "") then Err (QuoteFailure "dstack endpoint is empty")
      else Ok (Some normalized)
  end.

Section Provider.
Context {SH : Sha} {HX : HexCodec} {SJ : SerdeJson} {CC : CurveCrypto} {KK : K256} {SG : Signing}.

Record DstackAciProvider : Type := mkProvider {
  dp_receipt : bytes;
  dp_x25519_e2ee : bytes;
  dp_legacy_e2ee : secp_secret;
  dp_legacy_ed25519 : bytes;
  dp_receipt_evidence : KmsKeyEvidence;
  dp_secp256k1_e2ee_evidence : KmsKeyEvidence;
  dp_x25519_e2ee_evidence : KmsKeyEvidence;
  dp_receipt_key_id : string;
  dp_x25519_e2ee_key_id : string;
  dp_legacy_e2ee_key_id : string;
  dp_legacy_ed25519_key_id : string;
  dp_prefix_hash_path : string;
}.

(** ** Loading keys *)
Definition kms_counterpart_public_key_hex (role : string) (key_bytes : bytes) : result KeyError string :=
  key ← map_err (fun e => CryptoFailure ("invalid k256 scalar for " +:+ role +:+ ": " +:+ e))
          (k256_from_scalar key_bytes);
  Ok (hex_encode (to_sec1_bytes key)).

Definition load_kms_raw32_key (role path purpose : string) :
    prog DstackE (result KeyError (bytes * list string)) :=
  r ← call (GetKey path purpose);
  Ret (response ← map_err (fun e => CryptoFailure ("dstack KMS get_key(" +:+ role +:+ "): " +:+ e)) r;
       key_bytes ← map_err (fun e => CryptoFailure ("invalid dstack KMS key hex for " +:+ role +:+ ": " +:+ e))
                     (gk_decoded_key response);
       key_bytes ← array_of 32 (fun n => CryptoFailure ("dstack KMS key for " +:+ role +:+
                     " must be 32 bytes, got " +:+ pretty n)) key_bytes;
       Ok (key_bytes, gk_signature_chain response)).

Definition from_client (config : DstackAciProviderConfig) : prog DstackE (result KeyError DstackAciProvider) :=
  receipt ←? load_kms_raw32_key "receipt" (dc_receipt_path config) RECEIPT_PURPOSE;
  receipt_kms ←? Ret (kms_counterpart_public_key_hex "receipt" receipt.1);
  let receipt_evidence := mkKmsKeyEvidence "receipt" (dc_receipt_path config) RECEIPT_PURPOSE ALGO_ED25519
    (ed25519_public_key_hex receipt.1) receipt_kms receipt.2 in
  x25519 ←? load_kms_raw32_key "e2ee-x25519" (dc_x25519_e2ee_path config) E2EE_X25519_PURPOSE;
  x25519_e2ee ←? Ret (x25519_secret_key_from_bytes x25519.1);
  x25519_kms ←? Ret (kms_counterpart_public_key_hex "e2ee-x25519" x25519.1);
  let x25519_e2ee_evidence := mkKmsKeyEvidence "e2ee-x25519" (dc_x25519_e2ee_path config) E2EE_X25519_PURPOSE
    E2EE_ALGO_X25519_AESGCM (x25519_public_key_hex x25519_e2ee) x25519_kms x25519.2 in
  legacy ←? load_kms_raw32_key "legacy-e2ee" (dc_legacy_e2ee_path config) LEGACY_E2EE_PURPOSE;
  legacy_e2ee ←? Ret (secret_key_from_bytes legacy.1);
  legacy_kms ←? Ret (kms_counterpart_public_key_hex "e2ee-secp256k1" legacy.1);
  let secp256k1_e2ee_evidence := mkKmsKeyEvidence "e2ee-secp256k1" (dc_legacy_e2ee_path config)
    LEGACY_E2EE_PURPOSE E2EE_ALGO_SECP256K1_AESGCM (public_key_from_secret legacy_e2ee) legacy_kms legacy.2 in
  legacy_ed25519 ←? load_kms_raw32_key "legacy-ed25519" (dc_legacy_ed25519_path config) LEGACY_ED25519_PURPOSE;
  Ret (Ok (mkProvider receipt.1 x25519_e2ee legacy_e2ee legacy_ed25519.1 receipt_evidence
    secp256k1_e2ee_evidence x25519_e2ee_evidence (dc_receipt_key_id config) (dc_x25519_e2ee_key_id config)
    (dc_legacy_e2ee_key_id config) (dc_legacy_ed25519_key_id config) (dc_prefix_hash_path config))).

Definition prefix_hash_key (p : DstackAciProvider) : prog DstackE (result KeyError bytes) :=
  key ←? load_kms_raw32_key "prefix-hash" (dp_prefix_hash_path p) PREFIX_HASH_PURPOSE;
  Ret (Ok key.1).

(** ** Quotes *)
Definition decode_hex_field (field v : string) : result KeyError bytes :=
  map_err (fun e => QuoteFailure ("invalid hex in " +:+ field +:+ ": " +:+ e)) (hex_decode (strip_0x v)).

Definition quote_with_report_data (report_data : bytes) : prog DstackE (result KeyError Quote) :=
  r ← call (GetQuote report_data);
  response ←? Ret (map_err (fun e => QuoteFailure ("dstack get_quote: " +:+ e)) r);
  raw_quote ←? Ret (map_err (fun e => QuoteFailure ("invalid dstack quote hex: " +:+ e)) (gq_decoded_quote response));
  returned_report_data ←? Ret (decode_hex_field "dstack report_data" (gq_report_data response));
  if bool_decide (returned_report_data ≠ report_data) then
    Ret (Err (QuoteFailure ("dstack quote report_data mismatch: expected " +:+ hex_encode report_data +:+
      ", got " +:+ hex_encode returned_report_data)))
  else
  i ← call Info;
  info ←? Ret (map_err (fun e => QuoteFailure ("dstack info: " +:+ e)) i);
  Ret (Ok (mkQuote raw_quote returned_report_data (JString (of_bytes (to_vec (di_event_log info))))
    (JString (gq_vm_config response)) (Some (di_app_compose info)))).
Definition get_quote (report_data : bytes) : prog DstackE (result KeyError Quote) :=
  quote_with_report_data (report_data_slot report_data).
Definition get_quote_raw (report_data : bytes) : prog DstackE (result KeyError Quote) :=
  quote_with_report_data report_data.

(** ** The [KeyProvider] trait *)
Definition dstack_receipt_keys (p : DstackAciProvider) : list KeyedPublicKey :=
  [mkKeyedPublicKey (dp_receipt_key_id p) ALGO_ED25519 (ed25519_public_key_hex (dp_receipt p))].
Definition dstack_sign_receipt (p : DstackAciProvider) (key_id : string) (payload : bytes) : result KeyError bytes :=
  if bool_decide (key_id ≠ dp_receipt_key_id p) then Err (UnknownReceiptKeyId key_id)
  else Ok (ed25519_sign (dp_receipt p) payload).
#[global] Instance dstack_keys (p : DstackAciProvider) : KeyProvider := {|
  receipt_keys := dstack_receipt_keys p;
  sign_receipt := dstack_sign_receipt p;
|}.

Definition dstack_e2ee_keys (p : DstackAciProvider) : list KeyedPublicKey :=
  [mkKeyedPublicKey (dp_legacy_e2ee_key_id p) E2EE_ALGO_SECP256K1_AESGCM (public_key_from_secret (dp_legacy_e2ee p));
   mkKeyedPublicKey (dp_x25519_e2ee_key_id p) E2EE_ALGO_X25519_AESGCM (x25519_public_key_hex (dp_x25519_e2ee p))].
Definition dstack_decrypt_e2ee (p : DstackAciProvider) (key_id ciphertext_hex : string) (aad : bytes) :
    result KeyError bytes :=
  if bool_decide (key_id = dp_legacy_e2ee_key_id p) then decrypt_with_secret_key (dp_legacy_e2ee p) ciphertext_hex aad
  else if bool_decide (key_id = dp_x25519_e2ee_key_id p) then
    decrypt_x25519_with_secret_key (dp_x25519_e2ee p) ciphertext_hex aad
  else Err (UnknownE2eeKeyId key_id).

Definition dstack_legacy_e2ee_keys (p : DstackAciProvider) : list KeyedPublicKey :=
  [mkKeyedPublicKey (dp_legacy_e2ee_key_id p) E2EE_ALGO_LEGACY_ECDSA
     (legacy_ecdsa_public_key_from_secret (dp_legacy_e2ee p));
   mkKeyedPublicKey (dp_legacy_ed25519_key_id p) E2EE_ALGO_LEGACY_ED25519
     (ed25519_public_key_hex (dp_legacy_ed25519 p))].
Definition dstack_decrypt_legacy_e2ee (p : DstackAciProvider) (signing_algo ciphertext_hex : string)
    (aad : option bytes) : result KeyError bytes :=
  if bool_decide (signing_algo = E2EE_ALGO_LEGACY_ECDSA) then
    decrypt_legacy_ecdsa_with_secret_key (dp_legacy_e2ee p) ciphertext_hex aad
  else if bool_decide (signing_algo = E2EE_ALGO_LEGACY_ED25519) then
    decrypt_legacy_ed25519_with_secret_key (dp_legacy_ed25519 p) ciphertext_hex aad
  else Err (UnsupportedAlgo signing_algo).

Definition ethereum_personal_message_hash (text : string) : bytes :=
  keccak256 ((u8 25 :: as_bytes "Ethereum Signed Message:") ++ (lf :: as_bytes (pretty (str_len text))) ++ as_bytes text).

Definition dstack_sign_legacy_message (p : DstackAciProvider) (signing_algo text : string) :
    result KeyError LegacySignature :=
  if bool_decide (signing_algo = LEGACY_ALGO_ECDSA) then
    sig ← crypto_err "k256 legacy sign_prehash: "
      (sign_prehash_recoverable (dp_legacy_e2ee p) (ethereum_personal_message_hash text));
    address ← ethereum_address_from_uncompressed_public_key (public_key_from_secret (dp_legacy_e2ee p));
    Ok (mkLegacySignature LEGACY_ALGO_ECDSA address
          ("0x" +:+ hex_encode (sig.1 ++ [u8 (Z.to_N (sig.2 + 27))])))
  else if bool_decide (signing_algo = LEGACY_ALGO_ED25519) then
    Ok (mkLegacySignature LEGACY_ALGO_ED25519 (ed25519_public_key_hex (dp_legacy_ed25519 p))
          (hex_encode (ed25519_sign (dp_legacy_ed25519 p) (as_bytes text))))
  else Err (UnsupportedAlgo signing_algo).

Definition key_evidence_json (e : KmsKeyEvidence) : value :=
  JObject [("role", JString (ke_role e)); ("path", JString (ke_path e)); ("purpose", JString (ke_purpose e));
    ("algo", JString (ke_algo e)); ("public_key", JString (ke_public_key_hex e));
    ("kms_public_key", JString (ke_kms_public_key_hex e));
    ("signature_chain", JArray (JString <$> ke_signature_chain e))].
Definition dstack_key_custody_evidence (p : DstackAciProvider) : value :=
  JObject [("provider", JString "dstack-kms");
    ("keys", JArray [key_evidence_json (dp_receipt_evidence p); key_evidence_json (dp_secp256k1_e2ee_evidence p);
                     key_evidence_json (dp_x25519_e2ee_evidence p)])].

#[global] Instance dstack_e2ee (p : DstackAciProvider) : E2eeKeyProvider := {|
  e2ee_keys := dstack_e2ee_keys p;
  decrypt_e2ee := dstack_decrypt_e2ee p;
  legacy_e2ee_keys := dstack_legacy_e2ee_keys p;
  decrypt_legacy_e2ee := dstack_decrypt_legacy_e2ee p;
  tls_spkis := [];
  sign_legacy_message := dstack_sign_legacy_message p;
  key_custody_evidence := dstack_key_custody_evidence p;
  is_test_only := false;
|}.
End Provider.

(** ** What the provider promises *)
Section Promises.
Context {SH : Sha} {HX : HexCodec} {SJ : SerdeJson} {CC : CurveCrypto} {KK : K256} {SG : Signing} {ED : Ed25519}.

(** Documented facts about the signing crates. *)
Class SigningLaws := {
  ed25519_sign_verifies seed payload : length seed = 32 ->
    length (ed25519_sign seed payload) = 64 /\
    exists vk, verifying_key_from_bytes (ed25519_public seed) = Some vk /\
      verify_strict vk payload (ed25519_sign seed payload) = true;
  compressed_roundtrip k : exists p,
    encoded_point_from_bytes (to_sec1_bytes k) = Ok p /\ key_from_encoded_point p = Ok k;
}.
Context {CL : CurveCryptoLaws} {SL : SigningLaws}.

Definition provider_wf (p : DstackAciProvider) : Prop :=
  length (dp_receipt p) = 32 /\ length (dp_x25519_e2ee p) = 32 /\ length (dp_legacy_ed25519 p) = 32 /\
  ke_role (dp_receipt_evidence p) = "receipt" /\ ke_purpose (dp_receipt_evidence p) = RECEIPT_PURPOSE /\
  ke_public_key_hex (dp_receipt_evidence p) = ed25519_public_key_hex (dp_receipt p).

Lemma load_key_ok role path purpose tr key :
  runs (load_kms_raw32_key role path purpose) tr (Ok key) ->
  exists r, tr = [Act (GetKey path purpose) (Ok r)] /\ gk_decoded_key r = Ok key.1 /\
    gk_signature_chain r = key.2 /\ length key.1 = 32.
Proof.
  unfold load_kms_raw32_key. cbn. intros (x & tr' & -> & -> & H). symmetry in H. bind_inv H. unfold array_of in *.
  subst. repeat case_bool_decide; simplify_eq. eexists. split_and!; done.
Qed.

(** The signatures of the chain released with a key: the app key over the purpose
    and the key, the root over the app id and the app key. *)
Definition issued (app_id : bytes) (purpose : string) (k : k_key) (chain : list string) : Prop :=
  exists s1 s2 b1 b2 app_key root_key, chain = [s1; s2] /\ decode_hex s1 = Ok b1 /\ decode_hex s2 = Ok b2 /\
    recover_k256_public_key (as_bytes (purpose +:+ ":" +:+ hex_encode (to_sec1_bytes k))) b1 = Ok app_key /\
    recover_k256_public_key (kms_root_message app_id app_key) b2 = Ok root_key.
(** What the dstack KMS promises of an answer. *)
Definition kms_contract (app_id : bytes) (act : action DstackE) : Prop :=
  match act_event act in DstackE X return X -> Prop with
  | GetKey path purpose => fun answer => forall r key k, answer = Ok r -> gk_decoded_key r = Ok key ->
      k256_from_scalar key = Ok k -> issued app_id purpose k (gk_signature_chain r)
  | _ => fun _ => True
  end (act_answer act).

(** A loaded provider is well-formed, has the configured key ids, and its receipt
    evidence is what the KMS issued. *)
Lemma from_client_ok config tr p app_id :
  runs (from_client config) tr (Ok p) -> Forall (kms_contract app_id) tr ->
  provider_wf p /\ dp_legacy_e2ee_key_id p = dc_legacy_e2ee_key_id config /\
  dp_x25519_e2ee_key_id p = dc_x25519_e2ee_key_id config /\
  exists k, k256_from_scalar (dp_receipt p) = Ok k /\
    ke_kms_public_key_hex (dp_receipt_evidence p) = hex_encode (to_sec1_bytes k) /\
    issued app_id RECEIPT_PURPOSE k (ke_signature_chain (dp_receipt_evidence p)).
Proof.
  unfold from_client. intros (t1 & t2 & receipt & -> & Hr & H)%runs_try_ok.
  apply runs_ret_ok in H as (kms & Hkms & H). apply runs_try_ok in H as (t3 & t4 & x & -> & Hx & H).
  apply runs_ret_ok in H as (xs & Hxs & H). apply runs_ret_ok in H as (xk & _ & H).
  apply runs_try_ok in H as (t5 & t6 & l & -> & Hl & H).
  apply runs_ret_ok in H as (ls & _ & H). apply runs_ret_ok in H as (lk & _ & H).
  apply runs_try_ok in H as (t7 & t8 & e & -> & He & H). destruct H as [-> [= ->]]. cbn.
  apply load_key_ok in Hr as (r & -> & Hkey & Hchain & Hlen). apply load_key_ok in Hx as (? & -> & _ & _ & Hxl).
  apply load_key_ok in He as (? & -> & _ & _ & Hel).
  intros [Hc _]%Forall_app. rewrite Forall_singleton in Hc. cbn in Hc.
  unfold x25519_secret_key_from_bytes, array_of in Hxs. case_bool_decide; simplify_eq.
  unfold kms_counterpart_public_key_hex in Hkms. bind_inv Hkms. simplify_eq.
  split; [by split_and!|]. split_and!; [done..|]. eexists. split_and!; [done..|]. rewrite <- Hchain. eauto.
Qed.

(** Text encrypted to a published key comes back: for every key the provider
    lists, of the keyset's suites and of the legacy ones, encryption to its public
    key succeeds, and the provider decrypts the result under the key's id (or the
    legacy label) and the same associated data. *)
Theorem published_keys_open p d msg aad :
  provider_wf p -> dp_legacy_e2ee_key_id p ≠ dp_x25519_e2ee_key_id p ->
  draws_ok d -> small msg -> small aad ->
  (forall key, key ∈ dstack_e2ee_keys p -> exists text,
     encrypt_aci_e2ee_for_public_key d (kpk_algo key) (kpk_public_key_hex key) msg aad = Ok text /\
     dstack_decrypt_e2ee p (kpk_key_id key) text aad = Ok msg) /\
  (forall key, key ∈ dstack_legacy_e2ee_keys p -> exists text,
     encrypt_legacy_for_public_key d (kpk_algo key) (kpk_public_key_hex key) msg None = Ok text /\
     dstack_decrypt_legacy_e2ee p (kpk_algo key) text None = Ok msg).
Proof.
  intros (_ & Hx & He & _) Hid Hd Hm Ha.
  split; intros key; unfold dstack_e2ee_keys, dstack_legacy_e2ee_keys;
    rewrite !elem_of_cons, elem_of_nil; intros [->|[->|[]]]; cbn [kpk_algo kpk_public_key_hex kpk_key_id].
  - destruct (secp256k1_roundtrip d (dp_legacy_e2ee p) msg aad) as (text & ? & ?); [done..|]. exists text.
    unfold encrypt_aci_e2ee_for_public_key, dstack_decrypt_e2ee.
    by rewrite (bool_decide_eq_true_2 (dp_legacy_e2ee_key_id p = _)) by done.
  - destruct (x25519_roundtrip d (dp_x25519_e2ee p) msg aad) as (text & ? & ?); [done..|]. exists text.
    unfold encrypt_aci_e2ee_for_public_key, dstack_decrypt_e2ee.
    rewrite (bool_decide_eq_false_2 (_ = dp_legacy_e2ee_key_id p)) by done.
    by rewrite (bool_decide_eq_true_2 (dp_x25519_e2ee_key_id p = _)) by done.
  - destruct (legacy_ecdsa_roundtrip d (dp_legacy_e2ee p) msg None) as (text & ? & ?); [done..|]. by exists text.
  - destruct (legacy_ed25519_roundtrip d (dp_legacy_ed25519 p) msg None) as (text & ? & ?); [done..|]. by exists text.
Qed.

(** The provider's receipt signatures verify under the key it lists. *)
Lemma dstack_lawful_signer p : provider_wf p -> @LawfulSigner HX (dstack_keys p) ED.
Proof.
  intros (Hl & _). constructor. intros key payload signature Hf Ha Hs. cbn in Hf, Hs.
  unfold dstack_receipt_keys in Hf. cbn in Hf. case_bool_decide as Hid; [|done]. injection Hf as <-.
  unfold dstack_sign_receipt in Hs. cbn in Hs. rewrite bool_decide_eq_false_2 in Hs by naive_solver.
  injection Hs as <-. destruct (ed25519_sign_verifies (dp_receipt p) payload Hl) as (Hsl & vk & Hvk & Hv).
  unfold verify_receipt_signature. cbn [kpk_algo kpk_public_key_hex].
  unfold ed25519_public_key_hex. rewrite hex_decode_encode, ed25519_public_length, Hsl, Hvk by done. done.
Qed.

#[local] Ltac step := cbn [mbind result_bind ok_or map_err option_bind negb List.find fmap list_fmap lookup list_lookup as_str].
(** The custody evidence a started gateway publishes passes its clients'
    check: whatever the rest of the evidence, for every keyset that lists the
    provider's receipt key, if the KMS issued the released keys to this app, the
    check succeeds for the app id and confirms exactly the key receipts are signed
    with. *)
Theorem published_custody_verifies config tr p app_id members ks :
  runs (from_client config) tr (Ok p) -> Forall (kms_contract app_id) tr ->
  obj_get "key_custody" members = Some (dstack_key_custody_evidence p) ->
  (forall key, key ∈ dstack_receipt_keys p -> key ∈ ks_receipt_signing_keys ks) ->
  exists c, verify_dstack_kms_receipt_custody (JObject members) ks app_id = Ok c /\
    vc_receipt_public_key c = ed25519_public_key_hex (dp_receipt p) /\ vc_provider c = "dstack-kms".
Proof.
  intros Hrun Hkms Hcust Hks.
  destruct (from_client_ok _ _ _ _ Hrun Hkms) as ((Hl & _ & _ & Hrole & Hpurp & Hpk) & _ & _ & k & Hk & Hkk & Hiss).
  destruct Hiss as (s1 & s2 & b1 & b2 & app_key & root_key & Hchain & Hs1 & Hs2 & Hr1 & Hr2).
  unfold verify_dstack_kms_receipt_custody, custody_field.
  assert (get "key_custody" (JObject members) = Some (dstack_key_custody_evidence p)) as -> by done. step.
  unfold dstack_key_custody_evidence, key_evidence_json. members. step. members. step.
  rewrite (bool_decide_eq_false_2 (_ ≠ _)) by auto. rewrite Hrole, bool_decide_eq_true_2 by done. step. members. step. rewrite Hpk.
  assert (existsb (fun key => bool_decide (kpk_public_key_hex key = ed25519_public_key_hex (dp_receipt p)))
    (ks_receipt_signing_keys ks) = true) as ->.
  { apply existsb_exists. eexists. split; [apply list_elem_of_In, Hks; left|by apply bool_decide_eq_true_2]. }
  step. members. step. rewrite Hpurp, Hkk, Hchain. rewrite bool_decide_eq_false_2 by auto. step.
  unfold chain_signature. step. rewrite (bool_decide_eq_true_2 (_ = 2)) by done. step. rewrite Hs1. step. rewrite Hs2. step. unfold compressed_k256_public_key_hex.
  rewrite decode_hex_encode. step. destruct (compressed_roundtrip k) as (pt & Hpt & Hkey).
  rewrite Hpt. step. rewrite Hkey. step. rewrite Hr1. step. rewrite Hr2. step.
  unfold ed25519_public_key_hex. rewrite decode_hex_encode. cbn. eauto.
Qed.
End Promises.

(** *** Witnesses *)
#[local] Existing Instances sample_sha sample_hex sample_json sample_curves sample_curve_laws.
#[local] Instance sample_points : K256 := {|
  k_point := ascii; k_key := ascii; k_signature := bytes; k_recovery_id := Z;
  encoded_point_from_bytes b := ok_or "empty" (head b);
  key_from_encoded_point p := Ok p;
  to_sec1_bytes c := c :: zeros 32;
  recovery_id_from_byte z := if (z <=? 3)%Z then Some z else None;
  signature_from_slice b := Ok b;
  recover_from_digest d _ _ := ok_or "empty" (head d);
  to_sec1_bytes_length _ := eq_refl;
|}.
#[local] Instance sample_signing : Signing := {|
  ed25519_sign _ payload := sample_digest 64 payload;
  sign_prehash_recoverable _ h := Ok (h ++ h, 0%Z);
  k256_from_scalar b := ok_or "empty" (head b);
|}.
#[local] Instance sample_ed : Ed25519 := {|
  ed_key := bytes;
  verifying_key_from_bytes := Some;
  verify_strict _ payload signature := bool_decide (signature = sample_digest 64 payload);
|}.
#[local] Instance sample_signing_laws : SigningLaws.
Proof.
  split; cbn.
  - intros seed payload _. split; [apply sample_digest_length|]. eexists. split; [done|]. by apply bool_decide_eq_true_2.
  - intros k. by exists k.
Qed.

(** An agent that releases one key, with a chain of signatures of the right length. *)
Definition sample_key : bytes := replicate 32 (u8 7).
Definition sample_agent (s : unit) (X : Type) (e : DstackE X) : unit * X :=
  ((), match e in DstackE X return X with
       | GetKey _ _ => Ok (mkGetKeyResponse (Ok sample_key) [sample_hex65; sample_hex65])
       | GetQuote rd => Ok (mkGetQuoteResponse (Ok []) (hex_encode rd) "vm")
       | Info => Ok (mkDstackInfo (JArray []) "compose")
       end).
Definition sample_evidence : KmsKeyEvidence :=
  mkKmsKeyEvidence "receipt" "aci/receipt-ed25519/v1" RECEIPT_PURPOSE ALGO_ED25519
    (ed25519_public_key_hex sample_key) (hex_encode (u8 7 :: zeros 32)) [sample_hex65; sample_hex65].
Definition sample_provider : DstackAciProvider :=
  match (answer sample_agent () (from_client default_provider_config)).2 with
  | Ok p => p
  | Err _ => mkProvider [] [] (u8 0) [] sample_evidence sample_evidence sample_evidence "" "" "" "" ""
  end.
Definition sample_draws : Draws := mkDraws _ (replicate 32 (u8 9)) (u8 5) (replicate 12 (u8 1)).

Lemma published_keys_open_witness : exists text,
  encrypt_aci_e2ee_for_public_key sample_draws E2EE_ALGO_X25519_AESGCM (x25519_public_key_hex sample_key)
    (as_bytes "hello") (as_bytes "aad") = Ok text /\
  dstack_decrypt_e2ee sample_provider "dstack-kms-e2ee-x25519-v1" text (as_bytes "aad") = Ok (as_bytes "hello").
Proof.
  destruct (published_keys_open sample_provider sample_draws (as_bytes "hello") (as_bytes "aad")) as [H _];
    [split_and!; by vm_compute|by vm_compute|split; by vm_compute|by vm_compute|by vm_compute|].
  apply (H (mkKeyedPublicKey "dstack-kms-e2ee-x25519-v1" E2EE_ALGO_X25519_AESGCM (x25519_public_key_hex sample_key))).
  right. left.
Defined.

Definition sample_provider_keyset : WorkloadKeyset :=
  mkWorkloadKeyset None 0 (dstack_receipt_keys sample_provider) (dstack_e2ee_keys sample_provider) [].
Lemma published_custody_verifies_witness : exists c,
  verify_dstack_kms_receipt_custody (JObject [("key_custody", dstack_key_custody_evidence sample_provider)])
    sample_provider_keyset [u8 1] = Ok c /\ vc_receipt_public_key c = ed25519_public_key_hex sample_key.
Proof.
  destruct (published_custody_verifies default_provider_config
    (answer sample_agent () (from_client default_provider_config)).1 sample_provider [u8 1]
    [("key_custody", dstack_key_custody_evidence sample_provider)] sample_provider_keyset) as (c & Hc & Hk & _).
  - assert ((answer sample_agent () (from_client default_provider_config)).2 = Ok sample_provider) as <-
      by (vm_compute; reflexivity). apply answer_runs.
  - repeat constructor; intros r key k [= <-] [= <-] [= <-];
      exists sample_hex65, sample_hex65, (zeros 65), (zeros 65); do 2 eexists; split_and!; vm_compute; reflexivity.
  - reflexivity.
  - intros key H. exact H.
  - exists c. split; [exact Hc|exact Hk].
Defined.
