(* ===== verification/Attestation.v ===== *)
(** * The service's keyset and reports (src/aggregator/service/mod.rs, config.rs, e2ee.rs, helpers.rs, receipts.rs)

    Start-up checks, the sealed keyset and its renewal, the attestation report the
    service assembles around a quote, and the legacy report data and signatures.
    The theorems show that every keyset the service ever serves has distinct keys
    per role, that the renewal loop keeps it from expiring, that the service's
    reports pass the client's validation, and that the legacy surfaces name the
    same key. *)
From S2P Require Import Prelude Json External Sample Effects Digest Identity ReportBinding Dstack Receipt Errors E2eeCipher Provider.

(** ** config.rs *)
Definition DEFAULT_ATTESTED_SESSION_TTL_SECONDS : Z := 3600.
Definition DEFAULT_KEYSET_NOT_AFTER_SECONDS : Z := 30 * 24 * 60 * 60.

Record AciServiceConfig : Type := mkServiceConfig {
  cfg_max_buffered_response_bytes : Z;
  cfg_tee_type : string;
  cfg_source_provenance : SourceProvenance;
  cfg_keyset_not_after : Z;
  cfg_subject : option string;
  cfg_service_capabilities : ServiceCapabilities;
  cfg_attested_session_ttl_seconds : Z;
  cfg_receipt_ttl_seconds : Z;
  cfg_allow_test_keys : bool;
  cfg_tls_public_keys : option (list TlsSpki);
}.

(** [o.as_deref().is_some_and(|s| !s.is_empty())]. *)
Definition some_text (o : option string) : bool :=
  match o with Some s => negb (bool_decide (s = "")) | None => false end.
Definition validate_source_provenance (sp : SourceProvenance) : result ServiceError unit :=
  if provenance_is_unknown sp then Ok ()
  else
    let has_repo := some_text (sp_repo_url sp) && some_text (sp_repo_commit sp) in
    let has_image := some_text (sp_image_digest sp) in
    if has_repo || has_image then Ok () else Err InvalidSourceProvenance.

Definition normalize_downstream_domain (raw : string) : option string :=
  let domain := to_ascii_lowercase (trim_end_dots (trim raw)) in
  if bool_decide (domain = "") || contains "/" domain || contains ":" domain || contains "=" domain
     || contains "," domain || has_whitespace (as_bytes domain)
  then None else Some domain.

(** [u64::saturating_sub]. *)
Definition u64_saturating_sub (a b : Z) : Z := Z.max (a - b) 0.

Section Service.
Context {SH : Sha} {HX : HexCodec} {SJ : SerdeJson} {KP : KeyProvider} {EP : E2eeKeyProvider}.

(** ** Start-up (mod.rs) *)
Definition der_prefix_ed25519 : bytes := u8 <$> [48; 42; 48; 5; 6; 3; 43; 101; 112; 3; 33; 0]%N.
Definition der_prefix_x25519 : bytes := u8 <$> [48; 42; 48; 5; 6; 3; 43; 101; 110; 3; 33; 0]%N.

(** The digest the key would have as a TLS entry, when it is a raw 32-byte key. *)
Definition spki_digest_of (der_prefix : bytes) (key : KeyedPublicKey) : option string :=
  match hex_decode (kpk_public_key_hex key) with
  | Err _ => None
  | Ok raw => if bool_decide (length raw = 32) then Some (hex_encode (sha256_raw (der_prefix ++ raw))) else None
  end.
Definition doubles_as_tls (ks : WorkloadKeyset) (entry : string * KeyedPublicKey * bytes) : bool :=
  match spki_digest_of entry.2 entry.1.2 with
  | None => false
  | Some d => existsb (fun tls => eq_ignore_ascii_case (spki_sha256_hex tls) d) (ks_tls_public_keys ks)
  end.

Definition validate_keyset (ks : WorkloadKeyset) : result ServiceError unit :=
  if negb (existsb (fun key => is_aci_e2ee_suite (kpk_algo key)) (ks_e2ee_public_keys ks)) then
    Err (KeysetError "e2ee_public_keys has no recognized E2EE v2 suite (E2EE v2 spec §4)")
  else match shared_role_key ks with
  | Some receipt_key =>
      Err (KeysetError ("receipt signing key " +:+ debug_str (kpk_key_id receipt_key) +:+
        " doubles as an E2EE key; keys must be distinct per role (§3.1)"))
  | None =>
      match List.find (doubles_as_tls ks)
              (((fun k => ("receipt", k, der_prefix_ed25519)) <$> ks_receipt_signing_keys ks) ++
               ((fun k => ("E2EE", k, der_prefix_x25519)) <$> ks_e2ee_public_keys ks)) with
      | Some (role, key, _) =>
          Err (KeysetError (role +:+ " key " +:+ debug_str (kpk_key_id key) +:+
            " doubles as a TLS key; keys must be distinct per role (§3.1)"))
      | None => Ok ()
      end
  end.

(** What the service keeps besides its collaborators. *)
Record AciService : Type := mkService {
  svc_keyset : SealedWorkloadKeyset;
  svc_default_receipt_key_id : string;
  svc_config : AciServiceConfig;
}.

(** [SealError]'s text is not modelled further than its kind. *)
Definition seal_error_text (e : SealError) : string :=
  match e with SerdeError t => t | JcsCustom _ => "canonicalization" end.

Definition unsealed_keyset (config : AciServiceConfig) : WorkloadKeyset :=
  mkWorkloadKeyset (cfg_subject config) (cfg_keyset_not_after config) receipt_keys e2ee_keys
    (default tls_spkis (cfg_tls_public_keys config)).

Definition new_inner (config : AciServiceConfig) (now : Z) : result ServiceError AciService :=
  if is_test_only && negb (cfg_allow_test_keys config) then Err TestKeysInProduction else
  _ ← validate_source_provenance (cfg_source_provenance config);
  if (cfg_attested_session_ttl_seconds config =? 0)%Z
     || negb (bool_decide (is_Some (u64_checked_add now (cfg_attested_session_ttl_seconds config))))
  then Err InvalidAttestedSessionTtl else
  let unsealed := unsealed_keyset config in
  _ ← validate_keyset unsealed;
  keyset ← map_err (fun e => KeysetError (seal_error_text e)) (seal unsealed);
  first ← ok_or NoReceiptKey (head receipt_keys);
  Ok (mkService keyset (kpk_key_id first) config).

Definition workload_keyset_digest_of (svc : AciService) : string := sealed_digest (svc_keyset svc).
Definition serves_directly (svc : AciService) : bool :=
  bool_decide (sc_serving (cfg_service_capabilities (svc_config svc)) = "direct").

(** ** Renewal *)
Definition renew_keyset_if_due (svc : AciService) (lifetime_seconds now : Z) :
    result ServiceError (option Z) * AciService :=
  let current := sealed_keyset (svc_keyset svc) in
  if (lifetime_seconds / 2 <? u64_saturating_sub (ks_not_after current) now)%Z then (Ok None, svc)
  else
    let not_after := (now +| lifetime_seconds)%u64 in
    match seal (mkWorkloadKeyset (ks_subject current) not_after (ks_receipt_signing_keys current)
                  (ks_e2ee_public_keys current) (ks_tls_public_keys current)) with
    | Err e => (Err (KeysetError (seal_error_text e)), svc)
    | Ok renewed => (Ok (Some not_after), mkService renewed (svc_default_receipt_key_id svc) (svc_config svc))
    end.

(** The background loop of main.rs sleeps this long between checks. *)
Definition KEYSET_RENEWAL_CHECK_INTERVAL_SECONDS : Z := 3600.
Definition renewal_check_seconds (lifetime_seconds : Z) : Z :=
  Z.min KEYSET_RENEWAL_CHECK_INTERVAL_SECONDS (Z.max (lifetime_seconds / 4) 1).

(** ** Reports (e2ee.rs) *)
Definition tls_key_for_domain (svc : AciService) (domain : string) : option TlsSpki :=
  List.find (fun key => bool_decide (spki_domain key = Some domain)) (ks_tls_public_keys (sealed_keyset (svc_keyset svc))).
Definition downstream_tls_binding (svc : AciService) (domain : string) : option value :=
  domain ← normalize_downstream_domain domain;
  key ← tls_key_for_domain svc domain;
  Some (JObject [("domain", JString domain); ("spki_sha256", JString (spki_sha256_hex key))]).
Definition requires_host_for_downstream_tls_binding (svc : AciService) : bool :=
  existsb (fun key => bool_decide (is_Some (spki_domain key))) (ks_tls_public_keys (sealed_keyset (svc_keyset svc))).

Definition report_evidence (quote : Quote) : list (string * value) :=
  let evidence := [("quote", JString (hex_encode (q_raw_quote quote)));
    ("quote_report_data", JString (hex_encode (q_report_data quote)));
    ("event_log", q_event_log quote); ("vm_config", q_vm_config quote);
    ("app_compose", opt_string_to_value (q_app_compose quote))] in
  let evidence := match q_app_compose quote with
    | Some app_compose => obj_insert "app_compose" (JString app_compose) evidence
    | None => evidence
    end in
  if is_null key_custody_evidence then evidence else obj_insert "key_custody" key_custody_evidence evidence.

(** [svc] is the service when the quote has arrived, [keyset] the snapshot taken
    before. *)
Definition assemble_report (svc : AciService) (keyset : SealedWorkloadKeyset) (report_data_bytes : bytes)
    (quote : Quote) (domain : option string) : result ServiceError AttestationReport :=
  let evidence := report_evidence quote in
  evidence ←
    (if requires_host_for_downstream_tls_binding svc then
       domain ← ok_or DownstreamTlsDomainMissing domain;
       binding ← ok_or (DownstreamTlsDomainUnknown domain) (downstream_tls_binding svc domain);
       Ok (obj_insert "downstream_tls_binding" binding evidence)
     else match domain ≫= downstream_tls_binding svc with
          | Some binding => Ok (obj_insert "downstream_tls_binding" binding evidence)
          | None => Ok evidence
          end);
  Ok (mkAttestationReport "aci/1" (sealed_digest keyset)
        (mkAttestationEnvelope (cfg_tee_type (svc_config svc)) (sealed_to_value keyset)
           (hex_encode report_data_bytes) (cfg_source_provenance (svc_config svc)) (JObject evidence))
        (cfg_service_capabilities (svc_config svc))).

(** The quote is awaited between reading the keyset and assembling the report:
    [svc'] is the service afterwards. *)
Definition attestation_report_for_domain (svc svc' : AciService) (nonce domain : option string) :
    prog DstackE (result ServiceError AttestationReport) :=
  let keyset := svc_keyset svc in
  statement ←? Ret (map_err ServiceInvalidNonce (attestation_statement (sealed_digest keyset) nonce));
  let rd := report_data statement in
  q ← get_quote rd;
  quote ←? Ret (map_err ServiceKey q);
  Ret (assemble_report svc' keyset rd quote domain).

(** ** Legacy reports and signatures *)
Definition legacy_signing_key_bytes (signing_algo : option string) : result ServiceError bytes :=
  let signing_algo := to_ascii_lowercase (default LEGACY_ALGO_ECDSA signing_algo) in
  let key_of algo := List.find (fun key => bool_decide (kpk_algo key = algo)) legacy_e2ee_keys in
  if bool_decide (signing_algo = LEGACY_ALGO_ECDSA) then
    key ← ok_or (ServiceKey (CryptoFailure "no secp256k1 legacy key for legacy report_data binding"))
            (key_of E2EE_ALGO_LEGACY_ECDSA);
    address ← map_err ServiceKey (ethereum_address_from_uncompressed_public_key (kpk_public_key_hex key));
    map_err (fun e => ServiceKey (CryptoFailure ("invalid signing address hex: " +:+ e)))
      (hex_decode (of_bytes (trim_start_by (str_len address) [as_bytes "0x"] (as_bytes address))))
  else if bool_decide (signing_algo = LEGACY_ALGO_ED25519) then
    key ← ok_or (ServiceKey (CryptoFailure "no ed25519 legacy key for legacy report_data binding"))
            (key_of E2EE_ALGO_LEGACY_ED25519);
    map_err (fun e => ServiceKey (CryptoFailure ("invalid ed25519 public key hex: " +:+ e)))
      (hex_decode (kpk_public_key_hex key))
  else Err (ServiceKey (UnsupportedAlgo signing_algo)).

Definition legacy_tls_spki_fingerprint (svc : AciService) (domain : option string) : result ServiceError bytes :=
  spki_hex ← ok_or (ServiceKey (CryptoFailure "attestation version 2 requires a published TLS SPKI for the request host"))
    (spki_sha256_hex <$> ((domain ≫= normalize_downstream_domain) ≫= tls_key_for_domain svc));
  b ← map_err (fun e => ServiceKey (CryptoFailure ("invalid TLS SPKI hex: " +:+ e))) (hex_decode spki_hex);
  if bool_decide (length b = 32) then Ok b
  else Err (ServiceKey (CryptoFailure "TLS SPKI fingerprint is not 32 bytes")).

(** The raw nonce when it is 32 bytes of hex, its digest otherwise. *)
Definition nonce_half (nonce : string) : bytes :=
  match hex_decode nonce with
  | Ok b => if bool_decide (length b = 32) then b else sha256 (as_bytes nonce)
  | Err _ => sha256 (as_bytes nonce)
  end.
(** [identity(32) || nonce(32)].  [None] is the panic of [copy_from_slice] when a
    version-1 key does not fit in the 64 bytes. *)
Definition legacy_report_data (svc : AciService) (signing_algo : option string) (version : Z)
    (nonce domain : option string) : option (result ServiceError bytes) :=
  match legacy_signing_key_bytes signing_algo with
  | Err e => Some (Err e)
  | Ok signing_key =>
      let identity :=
        if (2 <=? version)%Z then
          match legacy_tls_spki_fingerprint svc domain with
          | Err e => Some (Err e)
          | Ok cert_fingerprint => Some (Ok (sha256 (signing_key ++ cert_fingerprint) ++ replicate 32 (u8 0)))
          end
        else if bool_decide (length signing_key <= 64)
             then Some (Ok (signing_key ++ replicate (64 - length signing_key) (u8 0)))
             else None in
      match identity with
      | Some (Ok rd) =>
          match nonce with
          | None => Some (Ok rd)
          | Some nonce =>
              Some (Ok (take 32 rd ++ nonce_half nonce))
          end
      | other => other
      end
  end.

Definition legacy_attestation_report_for_domain (svc svc' : AciService) (signing_algo : option string) (version : Z)
    (nonce domain : option string) : option (prog DstackE (result ServiceError AttestationReport)) :=
  rd ← legacy_report_data svc signing_algo version nonce domain;
  Some (rd ←? Ret rd;
        q ← get_quote_raw rd;
        quote ←? Ret (map_err ServiceKey q);
        Ret (assemble_report svc' (svc_keyset svc') rd quote domain)).

(** helpers.rs *)
Definition strip_sha256_prefix (v : string) : option string := strip_prefix "sha256:" v.
Definition event_body_hash (events : list value) (event_type : string) : option string :=
  e ← List.find (fun e => bool_decide (get_str "type" e = Some event_type)) events;
  get_str "body_hash" e ≫= strip_sha256_prefix.
Definition legacy_signature_text (receipt : SignedReceipt) : option string :=
  payload ← result_ok (document_json receipt);
  events ← get "event_log" payload ≫= as_array;
  request_hash ← event_body_hash events EVENT_REQUEST_RECEIVED;
  response_hash ← event_body_hash events EVENT_RESPONSE_RETURNED;
  Some (request_hash +:+ ":" +:+ response_hash).

(** receipts.rs *)
Record LegacySignatureResult : Type := mkLegacySignatureResult {
  lsr_text : string;
  lsr_signature : string;
  lsr_signing_address : string;
  lsr_signing_algo : string;
}.
Definition legacy_signature_for_receipt (receipt : SignedReceipt) (signing_algo : option string) :
    result ServiceError LegacySignatureResult :=
  match legacy_signature_text receipt with
  | None => Err (ServiceReceipt (MissingRequiredEvent EVENT_RESPONSE_RETURNED))
  | Some text =>
      s ← map_err ServiceKey (sign_legacy_message (default LEGACY_ALGO_ECDSA signing_algo) text);
      Ok (mkLegacySignatureResult text (lsig_signature s) (lsig_signing_address s) (lsig_signing_algo s))
  end.
End Service.

(** ** Keysets over time *)
Section Serving.
Context {SH : Sha} {HX : HexCodec} {SJ : SerdeJson} {KS : KeysetSerde} {KP : KeyProvider} {EP : E2eeKeyProvider}.

(** A service in operation: started at a time, with the keyset valid for
    [lifetime] seconds, and checked for renewal at later times, each at most half a
    lifetime after the one before.  The index is the time of the last check. *)
Inductive serving (lifetime : Z) : Z -> AciService -> Prop :=
| serving_start config now svc :
    is_u64 now -> cfg_keyset_not_after config = (now +| lifetime)%u64 ->
    new_inner config now = Ok svc -> serving lifetime now svc
| serving_check t t' svc :
    serving lifetime t svc -> (t <= t' <= t + lifetime / 2)%Z -> is_u64 t' ->
    serving lifetime t' (renew_keyset_if_due svc lifetime t').2.

(** Keys are distinct per role, and one of them is for encryption. *)
Definition roles_distinct (ks : WorkloadKeyset) : Prop :=
  (exists key, key ∈ ks_e2ee_public_keys ks /\ is_aci_e2ee_suite (kpk_algo key) = true) /\
  (forall r e, r ∈ ks_receipt_signing_keys ks -> e ∈ ks_e2ee_public_keys ks ->
     kpk_public_key_hex r ≠ kpk_public_key_hex e) /\
  (forall key prefix d tls,
     (key ∈ ks_receipt_signing_keys ks /\ prefix = der_prefix_ed25519) \/
     (key ∈ ks_e2ee_public_keys ks /\ prefix = der_prefix_x25519) ->
     spki_digest_of prefix key = Some d -> tls ∈ ks_tls_public_keys ks ->
     to_ascii_lowercase (spki_sha256_hex tls) ≠ to_ascii_lowercase d).

Lemma doubles_as_tls_false ks role key prefix :
  doubles_as_tls ks (role, key, prefix) = false <->
  forall d tls, spki_digest_of prefix key = Some d -> tls ∈ ks_tls_public_keys ks ->
    to_ascii_lowercase (spki_sha256_hex tls) ≠ to_ascii_lowercase d.
Proof.
  unfold doubles_as_tls. cbn. destruct (spki_digest_of prefix key) as [d|]; [|naive_solver].
  rewrite <- not_true_iff_false, existsb_exists. unfold eq_ignore_ascii_case. setoid_rewrite bool_decide_eq_true.
  setoid_rewrite <- list_elem_of_In. naive_solver.
Qed.
Lemma find_None {A} (p : A -> bool) l : List.find p l = None <-> forall x, x ∈ l -> p x = false.
Proof.
  split; [intros H x Hx%list_elem_of_In; by eapply List.find_none|].
  intros H. destruct (List.find p l) as [x|] eqn:Hf; [|done].
  apply List.find_some in Hf as [Hx%list_elem_of_In Hp]. by rewrite H in Hp.
Qed.
Lemma validate_keyset_ok ks : validate_keyset ks = Ok () <-> roles_distinct ks.
Proof.
  unfold validate_keyset, roles_distinct. pose proof (shared_role_key_None ks) as Hs.
  destruct (existsb _ _) eqn:He; cbn [negb].
  2: { split; [done|]. intros [(key & Hk & Ha) _]. rewrite <- not_true_iff_false, existsb_exists in He.
       destruct He. exists key. by rewrite <- list_elem_of_In. }
  apply existsb_exists in He as (key & Hk%list_elem_of_In & Ha).
  destruct (shared_role_key ks) as [r|]; [split; [done|]; intros (_ & H & _); by apply Hs in H|].
  destruct (List.find _ _) as [[[role k] prefix]|] eqn:Hf.
  - split; [done|]. intros (_ & _ & Ht). apply List.find_some in Hf as [Hin%list_elem_of_In Hd].
    enough (doubles_as_tls ks (role, k, prefix) = false) by congruence. apply doubles_as_tls_false.
    intros d tls. apply Ht. apply elem_of_app in Hin as [Hin|Hin]; apply list_elem_of_fmap in Hin as (? & [= -> -> ->] & ?); auto.
  - split; [intros _|done]. split_and!; [by exists key|by apply Hs|]. rewrite find_None in Hf.
    intros k prefix d tls Hin. apply (doubles_as_tls_false ks (if decide (prefix = der_prefix_ed25519) then "receipt" else "E2EE")).
    apply Hf, elem_of_app. destruct Hin as [[Hin ->]|[Hin ->]]; [left|right]; apply list_elem_of_fmap; by exists k.
Qed.

(** The invariant of a service: its sealed keyset is the seal of the provider's
    keys, with distinct roles, and outlives the next half lifetime. *)
Definition serving_ok (lifetime t : Z) (svc : AciService) : Prop :=
  let ks := sealed_keyset (svc_keyset svc) in
  seal ks = Ok (svc_keyset svc) /\ roles_distinct ks /\ is_u64 (ks_not_after ks) /\
  ks_receipt_signing_keys ks = receipt_keys /\ ks_e2ee_public_keys ks = e2ee_keys /\
  (ks_not_after ks = u64_max \/ t + lifetime / 2 < ks_not_after ks)%Z.

Lemma seal_keyset ks s : seal ks = Ok s -> sealed_keyset s = ks.
Proof. unfold seal. destruct (jcs_bytes _); cbn; [|done]. by intros [= <-]. Qed.

Lemma serving_start_ok lifetime config now svc :
  (0 < lifetime)%Z -> is_u64 now -> cfg_keyset_not_after config = (now +| lifetime)%u64 ->
  new_inner config now = Ok svc -> serving_ok lifetime now svc.
Proof.
  intros HL Hnow Hna. unfold new_inner. case_bool; [done|]. intros H.
  destruct (validate_source_provenance _); cbn in H; [|done]. case_bool in H; [done|].
  destruct (validate_keyset _) as [[]|] eqn:Hv; cbn in H; [|done].
  destruct (seal (unsealed_keyset config)) as [s|] eqn:Hs; cbn in H; [|done].
  destruct (head receipt_keys); cbn in H; [|done]. injection H as <-.
  unfold serving_ok. cbn. rewrite (seal_keyset _ _ Hs). cbn. rewrite Hna.
  split_and!; [done|by apply validate_keyset_ok|apply u64_saturating_add_range; [done|lia]|done|done|].
  unfold u64_saturating_add. assert (lifetime / 2 < lifetime)%Z by (apply Z.div_lt; lia). lia.
Qed.
Lemma renew_ok lifetime t t' svc :
  (0 < lifetime)%Z -> serving_ok lifetime t svc -> is_u64 t' ->
  serving_ok lifetime t' (renew_keyset_if_due svc lifetime t').2.
Proof.
  intros HL (Hs & Hr & Hu & Hrk & Hek & _) Ht'. unfold renew_keyset_if_due, u64_saturating_sub.
  assert (lifetime / 2 < lifetime)%Z as Hhalf by (apply Z.div_lt; lia).
  assert (0 <= lifetime / 2)%Z by (apply Z.div_pos; lia).
  destruct (Z.ltb_spec (lifetime / 2) (Z.max (ks_not_after (sealed_keyset (svc_keyset svc)) - t') 0)) as [Hlt|Hge]; cbn [snd].
  - split_and!; try done. right. lia.
  - destruct (seal_then_adopt (mkWorkloadKeyset (ks_subject (sealed_keyset (svc_keyset svc))) (t' +| lifetime)%u64
      (ks_receipt_signing_keys (sealed_keyset (svc_keyset svc))) (ks_e2ee_public_keys (sealed_keyset (svc_keyset svc)))
      (ks_tls_public_keys (sealed_keyset (svc_keyset svc))))) as (s & Hs' & Hks & _).
    { apply u64_saturating_add_range; [done|lia]. }
    rewrite Hs'. unfold serving_ok. cbn [snd svc_keyset]. rewrite Hks. cbn.
    split_and!; [done|done|apply u64_saturating_add_range; [done|lia]|done|done|].
    unfold u64_saturating_add. lia.
Qed.
Lemma serving_invariant lifetime t svc : (0 < lifetime)%Z -> serving lifetime t svc -> serving_ok lifetime t svc.
Proof. induction 2; [by eapply serving_start_ok|by eapply renew_ok]. Qed.

(** C26: a gateway whose renewal loop runs never serves an expired keyset: if every
    check comes within half a lifetime of the one before, then at every moment up to the
    next check the served keyset is unexpired; and it always lists the provider's own
    keys, each in one role only.  The loop's own sleep is no longer than that when the
    lifetime is at least two seconds. *)
Theorem keyset_never_expires lifetime t svc now :
  (0 < lifetime)%Z -> serving lifetime t svc ->
  (t <= now <= t + lifetime / 2)%Z -> (now < u64_max)%Z ->
  let ks := sealed_keyset (svc_keyset svc) in
  is_expired_at ks now = false /\ ks_receipt_signing_keys ks = receipt_keys /\ ks_e2ee_public_keys ks = e2ee_keys /\
  roles_distinct ks /\ ((2 <= lifetime)%Z -> (renewal_check_seconds lifetime <= lifetime / 2)%Z).
Proof.
  intros HL (_ & Hr & _ & Hrk & Hek & Hna)%serving_invariant Hnow Hmax; [|done]. cbn zeta.
  split_and!; [|done..|].
  - unfold is_expired_at. apply Z.leb_gt. lia.
  - intros H2. unfold renewal_check_seconds, KEYSET_RENEWAL_CHECK_INTERVAL_SECONDS.
    assert (lifetime / 4 <= lifetime / 2)%Z by (apply Z.div_le_compat_l; lia).
    assert (1 <= lifetime / 2)%Z by (apply Z.div_le_lower_bound; lia). lia.
Qed.

(** ** Reports the client accepts *)
Lemma quote_run_ok rd tr q :
  runs (quote_with_report_data rd) tr (Ok q) ->
  q_report_data q = rd /\ exists r rest, tr = Act (GetQuote rd) (Ok r) :: rest /\ gq_decoded_quote r = Ok (q_raw_quote q).
Proof.
  unfold quote_with_report_data. rewrite runs_bind. intros (t1 & t2 & r & -> & Hr & H).
  destruct Hr as (x & t3 & -> & -> & ->). apply runs_ret_ok in H as (resp & Hresp & H). autorewrite with results in Hresp.
  subst. apply runs_ret_ok in H as (raw & Hraw & H). autorewrite with results in Hraw.
  apply runs_ret_ok in H as (ret & Hret & H). case_bool_decide as Heq; [by destruct H as [_ [=]]|].
  subst ret. apply runs_bind in H as (t4 & t5 & i & -> & _ & H).
  apply runs_ret_ok in H as (info & _ & H). destruct H as [-> [= ->]]. cbn.
  split; [done|]. by eexists _, _.
Qed.

(** The agent gave no usable quote for [slot]: it refused one, what it sent is not
    a quote, or is one for something else, or it would not describe itself. *)
Inductive quote_unusable (slot : bytes) : list (action DstackE) -> Prop :=
  | qu_refused e : quote_unusable slot [Act (GetQuote slot) (Err e)]
  | qu_not_hex q e : gq_decoded_quote q = Err e -> quote_unusable slot [Act (GetQuote slot) (Ok q)]
  | qu_not_data q e : decode_hex_field "dstack report_data" (gq_report_data q) = Err e ->
      quote_unusable slot [Act (GetQuote slot) (Ok q)]
  | qu_other_data q rd : decode_hex_field "dstack report_data" (gq_report_data q) = Ok rd -> rd ≠ slot ->
      quote_unusable slot [Act (GetQuote slot) (Ok q)]
  | qu_no_info q e : quote_unusable slot [Act (GetQuote slot) (Ok q); Act Info (Err e)].

Lemma quote_run_err rd tr k : runs (quote_with_report_data rd) tr (Err k) -> quote_unusable rd tr.
Proof.
  unfold quote_with_report_data, try_bind. cbn [mbind prog_bind prog_bind_ call runs].
  intros (x & t & -> & H). destruct x as [q|e]; cbn in H; [|destruct H as [-> _]; apply qu_refused].
  destruct (gq_decoded_quote q) as [raw|e] eqn:Hq; cbn in H; [|destruct H as [-> _]; by eapply qu_not_hex].
  destruct (decode_hex_field _ _) as [d|e] eqn:Hd; cbn in H; [|destruct H as [-> _]; by eapply qu_not_data].
  case_bool_decide; [destruct H as [-> _]; by eapply qu_other_data|].
  cbn in H. destruct H as (i & t' & -> & H). destruct i as [i|e]; cbn in H; destruct H as [-> H]; [done|].
  apply qu_no_info.
Qed.

(** What the service published at that moment refuses a host for. *)
Definition host_refusal (svc : AciService) (domain : option string) : option ServiceError :=
  if requires_host_for_downstream_tls_binding svc then
    match domain with
    | None => Some DownstreamTlsDomainMissing
    | Some d => match downstream_tls_binding svc d with None => Some (DownstreamTlsDomainUnknown d) | Some _ => None end
    end
  else None.

Lemma obj_get_insert_ne k k' (v : value) m : k ≠ k' -> obj_get k' (obj_insert k v m) = obj_get k' m.
Proof. intros H. by rewrite obj_get_insert, bool_decide_eq_false_2. Qed.

Lemma report_evidence_fields q :
  obj_get "quote" (report_evidence q) = Some (JString (hex_encode (q_raw_quote q))) /\
  obj_get "quote_report_data" (report_evidence q) = Some (JString (hex_encode (q_report_data q))).
Proof.
  unfold report_evidence. destruct (q_app_compose q), (is_null key_custody_evidence);
    rewrite ?obj_get_insert_ne by done; split; members; done.
Qed.

(** An assembled report serves the snapshot of the keyset and the evidence of the quote. *)
Lemma assemble_report_ok svc keyset rd q domain :
  match assemble_report svc keyset rd q domain with
  | Ok report => host_refusal svc domain = None /\
      ar_api_version report = "aci/1" /\ ar_workload_keyset_digest report = sealed_digest keyset /\
      ae_workload_keyset (ar_attestation report) = sealed_to_value keyset /\
      ae_report_data_hex (ar_attestation report) = hex_encode rd /\
      get_str "quote" (ae_evidence (ar_attestation report)) = Some (hex_encode (q_raw_quote q)) /\
      get_str "quote_report_data" (ae_evidence (ar_attestation report)) = Some (hex_encode (q_report_data q))
  | Err e => host_refusal svc domain = Some e
  end.
Proof.
  destruct (report_evidence_fields q) as [H1 H2]. unfold assemble_report, host_refusal.
  destruct (requires_host_for_downstream_tls_binding svc) eqn:Hreq.
  - destruct domain as [d|]; cbn [ok_or mbind result_bind]; [|auto].
    destruct (downstream_tls_binding svc d) eqn:Hb; cbn [ok_or mbind result_bind]; [|done].
    cbn. unfold get_str, get. by rewrite !obj_get_insert_ne, H1, H2 by done.
  - destruct (domain ≫= downstream_tls_binding svc); cbn; unfold get_str, get;
      by rewrite ?obj_get_insert_ne, H1, H2 by done.
Qed.

Context {B64 : Base64}.
Lemma served_keyset_verifies lifetime t svc report nonce st :
  (0 < lifetime)%Z -> serving lifetime t svc ->
  attestation_statement (sealed_digest (svc_keyset svc)) nonce = Ok st ->
  ar_workload_keyset_digest report = sealed_digest (svc_keyset svc) ->
  ae_workload_keyset (ar_attestation report) = sealed_to_value (svc_keyset svc) ->
  ae_report_data_hex (ar_attestation report) = hex_encode (report_data st) ->
  exists jcs, verify_report_binding report nonce =
    Ok (mkReportBinding (sealed_digest (svc_keyset svc)) (sealed_keyset (svc_keyset svc)) (report_data st) st jcs).
Proof.
  intros HL (Hs & _ & Hu & _)%serving_invariant Hst Hd Hv Hrd; [|done].
  remember (sealed_keyset (svc_keyset svc)) as ks eqn:Hks. unfold seal in Hs.
  destruct (jcs_bytes (keyset_to_value ks)) as [jcs|] eqn:Hj; cbn in Hs; [|done]. injection Hs as Hs.
  rewrite <- Hs in *. cbn in *. exists jcs. apply verify_report_binding_iff. cbn. rewrite Hv.
  split_and!; try done; [by apply keyset_from_to_value|].
  unfold decode_hex_32, decode_hex. rewrite Hrd, hex_encode_no_prefix. cbn. rewrite hex_decode_encode. cbn.
  unfold report_data, sha256_raw. by rewrite sha256_length.
Qed.

(** C23: the gateway's own reports pass the client's checks.  A report is
    refused only for its cause: a malformed nonce, before the agent is asked; an agent
    that gives no usable quote for the report data of this keyset and nonce; or, where
    the keyset publishes TLS keys by host, no host or one without a key, named in the
    error.  A returned report was asked for with a well-formed nonce and an admissible
    host; it validates for that nonce at any time the keyset is served, vouches for the
    keyset of the moment the request arrived (also when it is renewed while the quote
    is awaited), and its evidence carries the agent's quote for exactly that report
    data. *)
Theorem served_reports_validate lifetime t svc svc' nonce domain now body tr r :
  (0 < lifetime)%Z -> serving lifetime t svc -> (t <= now <= t + lifetime / 2)%Z -> (now < u64_max)%Z ->
  runs (attestation_report_for_domain svc svc' nonce domain) tr r ->
  match r with
  | Ok report => from_option is_valid_nonce true nonce = true /\ host_refusal svc' domain = None /\
      exists rd v quote rest,
      validate_aci_report_binding report nonce now body = Ok v /\
      va_keyset v = sealed_keyset (svc_keyset svc) /\ va_report_data v = rd /\
      tr = Act (GetQuote (report_data_slot rd)) (Ok quote) :: rest /\
      map_err InvalidQuoteHex (gq_decoded_quote quote) = quote_bytes (ae_evidence (ar_attestation report)) /\
      quote_binds_report_data (ae_evidence (ar_attestation report)) (report_data_slot rd) rd = Ok ()
  | Err e =>
      (from_option is_valid_nonce true nonce = false /\ tr = [] /\ e = ServiceInvalidNonce BadNonce) \/
      from_option is_valid_nonce true nonce = true /\
      ((exists st k, attestation_statement (sealed_digest (svc_keyset svc)) nonce = Ok st /\
          quote_unusable (report_data_slot (report_data st)) tr /\ e = ServiceKey k) \/
       host_refusal svc' domain = Some e)
  end.
Proof.
  intros HL Hsv Hnow Hmax. pose proof (serving_invariant _ _ _ HL Hsv) as (Hseal & Hroles & _ & _ & _ & Hna).
  assert (is_digest_text (sealed_digest (svc_keyset svc))) as Hdg.
  { unfold seal in Hseal. destruct (jcs_bytes _); cbn in Hseal; [|done]. injection Hseal as <-. apply sha256_hex_digest_text. }
  unfold attestation_report_for_domain, try_bind at 1. rewrite runs_bind. intros (t0 & t1 & st' & -> & [-> ->] & H).
  destruct (attestation_statement _ nonce) as [st|e] eqn:Hst; cbn [map_err] in H.
  2: { destruct H as [-> ->]. left. destruct (from_option is_valid_nonce true nonce) eqn:Hn.
    - rewrite (proj2 (attestation_statement_ok _ _ _) (conj Hdg (conj Hn eq_refl))) in Hst. done.
    - split_and!; [done..|]. by rewrite (attestation_statement_bad_nonce _ _ _ Hdg Hst). }
  pose proof (proj1 (proj2 (proj1 (attestation_statement_ok _ _ _) Hst))) as Hn.
  apply runs_bind in H as (t2 & t3 & q & -> & Hq & H). unfold try_bind in H. apply runs_bind in H as (t4 & t5 & q' & -> & [-> ->] & H).
  destruct q as [q|k]; cbn [map_err] in H; destruct H as [-> ->]; rewrite ?app_nil_r; cbn [app].
  2: { right. split; [done|left]. exists st, k. split_and!; [done| |done]. by eapply quote_run_err. }
  apply quote_run_ok in Hq as (Hqrd & resp & rest & -> & Hraw).
  pose proof (assemble_report_ok svc' (svc_keyset svc) (report_data st) q domain) as Ha.
  destruct (assemble_report _ _ _ _ _) as [report|e]; [|by auto].
  destruct Ha as (Hhost & Hapi & Hdig & Hval & Hrd & Hquote & Hqr). split_and!; [done..|].
  destruct (served_keyset_verifies _ _ _ report nonce st HL Hsv) as (jcs & Hb); [done..|].
  exists (report_data st). eexists. exists resp. eexists.
  split; [apply (validate_report_accepts _ _ now body _ Hb); [done|cbn; lia|apply shared_role_key_None, Hroles]|].
  cbn. split_and!; [done|done|done| |].
  - unfold quote_bytes. rewrite Hquote. cbn. unfold decode_hex. rewrite hex_encode_no_prefix. cbn.
    by rewrite hex_decode_encode, Hraw.
  - unfold quote_binds_report_data. rewrite Hqr, Hqrd. cbn. unfold decode_hex. rewrite hex_encode_no_prefix. cbn.
    rewrite hex_decode_encode. cbn. by rewrite !bool_decide_eq_false_2 by auto.
Qed.
End Serving.

(** ** The legacy surfaces of the dstack provider *)
Section Legacy.
Context {SH : Sha} {HX : HexCodec} {SJ : SerdeJson} {CC : CurveCrypto} {CL : CurveCryptoLaws} {KK : K256} {SG : Signing}.
Implicit Types p : DstackAciProvider.

(** The address of a secp256k1 key, from its 64 or its 65 bytes. *)
Lemma ethereum_address_of_point pt :
  exists b, length b = 20 /\
    ethereum_address_from_uncompressed_public_key (hex_encode (to_uncompressed_point pt)) = Ok ("0x" +:+ hex_encode b) /\
    ethereum_address_from_uncompressed_public_key (hex_encode (drop 1 (to_uncompressed_point pt))) = Ok ("0x" +:+ hex_encode b).
Proof.
  destruct (uncompressed_shape pt) as (rest & -> & Hr). exists (drop 12 (keccak256 rest)).
  split; [by rewrite length_drop, keccak256_length|].
  unfold ethereum_address_from_uncompressed_public_key. rewrite !hex_decode_encode.
  cbn [map_err mbind result_bind drop]. rewrite !bool_decide_eq_true_2 by done. cbn [andb]. split; [done|].
  destruct rest as [|c rest']; [done|]. injection Hr as Hr. rewrite drop_0. cbv match.
  rewrite (bool_decide_eq_false_2 (length rest' = 64)), andb_false_r by lia. cbv match.
  by rewrite (bool_decide_eq_true_2 (length (c :: rest') = 64)) by (cbn; lia).
Qed.
Lemma trim_0x_address b :
  of_bytes (trim_start_by (str_len ("0x" +:+ hex_encode b)) [as_bytes "0x"] (as_bytes ("0x" +:+ hex_encode b))) = hex_encode b.
Proof.
  assert (forall n, trim_start_by n [as_bytes "0x"] (as_bytes (hex_encode b)) = as_bytes (hex_encode b)) as H.
  { intros [|n]; [done|]. cbn [trim_start_by strip_any].
    pose proof (hex_encode_no_prefix b) as Hp. unfold strip_prefix in Hp. by destruct (strip_bytes _ _). }
  assert (forall n l r, strip_bytes (as_bytes "0x") l = Some r ->
    trim_start_by (S n) [as_bytes "0x"] l = trim_start_by n [as_bytes "0x"] r) as Hstep.
  { intros n l r Hl. cbn [trim_start_by strip_any]. by rewrite Hl. }
  unfold str_len. rewrite as_bytes_app, length_app. change (length (as_bytes "0x")) with 2. cbn [Nat.add].
  rewrite (Hstep _ _ (as_bytes (hex_encode b))) by by apply strip_bytes_spec. rewrite H. apply of_bytes_as_bytes.
Qed.

Lemma nonce_half_length n : length (nonce_half n) = 32.
Proof. unfold nonce_half. destruct (hex_decode n); [case_bool_decide; [done|]|]; apply sha256_length. Qed.
(** Report data of a key of at most 32 bytes. *)
Lemma legacy_report_data_shape {EP : E2eeKeyProvider} svc algo version nonce domain :
  (forall k, legacy_signing_key_bytes algo = Ok k -> length k <= 32) ->
  exists r, legacy_report_data svc algo version nonce domain = Some r /\
    forall rd, r = Ok rd -> length rd = 64 /\ drop 32 rd = from_option nonce_half (replicate 32 (u8 0)) nonce.
Proof.
  intros Hk. unfold legacy_report_data. destruct (legacy_signing_key_bytes algo) as [k|e]; [|by eexists].
  specialize (Hk k eq_refl).
  assert (forall rd, length rd = 64 -> drop 32 rd = replicate 32 (u8 0) ->
    exists r, match nonce with
              | Some n => Some (Ok (take 32 rd ++ nonce_half n))
              | None => Some (Ok rd)
              end = Some r /\
    forall rd, r = @Ok ServiceError _ rd -> length rd = 64 /\ drop 32 rd = from_option nonce_half (replicate 32 (u8 0)) nonce) as Hn.
  { intros rd Hl Hd. destruct nonce as [n|]; eexists; (split; [done|]); intros ? [= <-]; cbn; [|done].
    rewrite length_app, length_take, nonce_half_length, Hl. split; [done|].
    rewrite drop_app_length'; [done|]. rewrite length_take. lia. }
  destruct (2 <=? version)%Z.
  - destruct (legacy_tls_spki_fingerprint svc domain) as [c|e]; [|by eexists]. apply Hn.
    + by rewrite length_app, sha256_length, length_replicate.
    + rewrite drop_app_length'; [done|]. by rewrite sha256_length.
  - rewrite bool_decide_eq_true_2 by lia. apply Hn.
    + rewrite length_app, length_replicate. lia.
    + rewrite drop_app, drop_ge, drop_replicate by lia. cbn [app]. f_equal. lia.
Qed.

(** The two legacy surfaces name the same key: for either algorithm the bytes
    the legacy report data binds are those of the address in the legacy signatures,
    and the report data is always built (20 or 32 key bytes fit in front of the
    nonce): 64 bytes, the last 32 of them the nonce or its digest. *)
Theorem legacy_report_names_signer p svc algo version nonce domain :
  provider_wf p ->
  (forall text s, dstack_sign_legacy_message p (to_ascii_lowercase (default LEGACY_ALGO_ECDSA algo)) text = Ok s ->
     exists b, @legacy_signing_key_bytes SH HX (dstack_e2ee p) algo = Ok b /\
       hex_decode (strip_0x (lsig_signing_address s)) = Ok b) /\
  exists r, @legacy_report_data SH HX (dstack_e2ee p) svc algo version nonce domain = Some r /\
    forall rd, r = Ok rd -> length rd = 64 /\ drop 32 rd = from_option nonce_half (replicate 32 (u8 0)) nonce.
Proof.
  intros (_ & _ & Hed & _).
  destruct (ethereum_address_of_point (secret_public_key (dp_legacy_e2ee p))) as (b & Hb & Ha1 & Ha2).
  assert (forall a, @legacy_signing_key_bytes SH HX (dstack_e2ee p) a =
    let a := to_ascii_lowercase (default LEGACY_ALGO_ECDSA a) in
    if bool_decide (a = LEGACY_ALGO_ECDSA) then Ok b
    else if bool_decide (a = LEGACY_ALGO_ED25519) then Ok (ed25519_public (dp_legacy_ed25519 p))
    else Err (ServiceKey (UnsupportedAlgo a))) as Hkey.
  { intros a. unfold legacy_signing_key_bytes. cbv zeta. case_bool_decide; [|case_bool_decide; [|done]].
    - assert (List.find _ _ = Some (mkKeyedPublicKey _ E2EE_ALGO_LEGACY_ECDSA _)) as -> by done.
      cbn [ok_or mbind result_bind kpk_public_key_hex]. unfold legacy_ecdsa_public_key_from_secret.
      rewrite Ha2. cbn [map_err mbind result_bind]. by rewrite trim_0x_address, hex_decode_encode.
    - assert (List.find _ _ = Some (mkKeyedPublicKey _ E2EE_ALGO_LEGACY_ED25519 _)) as -> by done.
      cbn [ok_or mbind result_bind kpk_public_key_hex]. unfold ed25519_public_key_hex. by rewrite hex_decode_encode. }
  split.
  - intros text s. rewrite Hkey. cbv zeta. unfold dstack_sign_legacy_message. case_bool_decide; [|case_bool_decide; [|done]].
    + intros Hsig. bind_inv Hsig. unfold public_key_from_secret in *. rewrite Ha1 in *. simplify_eq. cbn [lsig_signing_address].
      exists b. split; [done|]. unfold strip_0x. rewrite (proj2 (strip_prefix_spec "0x" _ (hex_encode b)) eq_refl).
      cbn. apply hex_decode_encode.
    + intros [= <-]. eexists. split; [done|].
      cbn [lsig_signing_address]. unfold ed25519_public_key_hex. rewrite strip_0x_hex. apply hex_decode_encode.
  - apply legacy_report_data_shape. intros k. rewrite Hkey. cbv zeta.
    case_bool_decide; [intros [= <-]; lia|]. case_bool_decide; [|done].
    intros [= <-]. by rewrite ed25519_public_length.
Qed.
End Legacy.

(** *** Witnesses *)
#[local] Existing Instances sample_sha sample_hex sample_json sample_base64 sample_keyset_serde sample_curves
  sample_curve_laws sample_points sample_signing.
#[local] Instance sample_receipt_signer : KeyProvider := dstack_keys sample_provider.
#[local] Instance sample_e2ee_provider : E2eeKeyProvider := dstack_e2ee sample_provider.

Definition sample_config (now lifetime : Z) : AciServiceConfig :=
  mkServiceConfig 1024 "tdx" (mkSourceProvenance None None None None) (now +| lifetime)%u64 None
    default_capabilities 3600 3600 false None.
Definition sample_service : AciService :=
  match new_inner (sample_config 1000 100) 1000 with
  | Ok svc => svc
  | Err _ => mkService (mkSealed sample_keyset JNull [] "") "" (sample_config 0 0)
  end.
Lemma sample_serving : serving 100 1040 (renew_keyset_if_due sample_service 100 1040).2.
Proof.
  apply (serving_check _ 1000); [|split; by vm_compute|by vm_compute].
  apply (serving_start _ (sample_config 1000 100)); [by vm_compute|reflexivity|vm_compute; reflexivity].
Qed.

Lemma keyset_never_expires_witness :
  is_expired_at (sealed_keyset (svc_keyset (renew_keyset_if_due sample_service 100 1040).2)) 1090 = false.
Proof. apply (keyset_never_expires 100 1040 _ 1090); [lia|apply sample_serving|split; by vm_compute|by vm_compute]. Defined.

Definition sample_report_run : list (action DstackE) * result ServiceError AttestationReport :=
  answer sample_agent () (attestation_report_for_domain (renew_keyset_if_due sample_service 100 1040).2
    sample_service (Some sample_nonce) None).
Lemma served_reports_validate_witness : exists report v,
  sample_report_run.2 = Ok report /\ validate_aci_report_binding report (Some sample_nonce) 1050 None = Ok v /\
  va_keyset v = sealed_keyset (svc_keyset (renew_keyset_if_due sample_service 100 1040).2).
Proof.
  assert (exists report, sample_report_run.2 = Ok report) as [report Hr] by (vm_compute; eexists; reflexivity).
  pose proof (answer_runs sample_agent () (attestation_report_for_domain
    (renew_keyset_if_due sample_service 100 1040).2 sample_service (Some sample_nonce) None)) as Hrun.
  fold sample_report_run in Hrun. rewrite Hr in Hrun.
  destruct (served_reports_validate 100 1040 _ _ _ _ 1050 None _ _ ltac:(lia) sample_serving ltac:(split; by vm_compute)
    ltac:(by vm_compute) Hrun)
    as (_ & _ & rd & v & quote & rest & Hv & Hks & _).
  exists report, v. split; [exact Hr|split; [exact Hv|exact Hks]].
Defined.

Lemma legacy_report_names_signer_witness : exists r,
  @legacy_report_data _ _ (dstack_e2ee sample_provider) sample_service (Some "ED25519") 1 (Some "abc") None = Some r /\
  forall rd, r = Ok rd -> length rd = 64.
Proof.
  destruct (legacy_report_names_signer sample_provider sample_service (Some "ED25519") 1 (Some "abc") None)
    as [_ (r & Hr & Hl)]; [split_and!; by vm_compute|].
  exists r. split; [exact Hr|]. intros rd Hrd. apply (Hl rd Hrd).
Defined.
