(* ===== verification/Admission.v ===== *)
(** * Admission of an upstream (src/aggregator/service/forward.rs)

    Before a prompt leaves, its upstream is verified, the verified channels become
    attested sessions with leases on them, and the sessions a request may use are
    admitted.  Forwarding then happens under that admission, with a bounded number
    of transparent re-verifications.  The functions are programs over the calls the
    service makes of its collaborators: the clock, the upstream backend, the
    verifier, the session and receipt stores, the request's journal.  A lease is
    dropped where Rust drops its owner.  A session's sealing closure is pure, so the
    call that may run it carries its value.  [InstantNanos] reads the monotonic clock;
    [DrawFrom] is the position of the random number generator from which the next
    draws are taken. *)
From S2P Require Import Prelude Json External Effects Digest Identity ReportBinding Receipt RelyingParty.
From S2P Require Import Session SessionStore ReceiptStore Errors Upstream Claims E2eeCipher Provider Attestation.

Record FailedAttempt : Type := mkFailedAttempt {
  fa_route_id : string;
  fa_status : Z;
  fa_duration_ms : Z;
}.

(** What request handling asks of the rest of the process. *)
Inductive ServiceE : Type -> Type :=
| NowSecs : ServiceE Z
| Prepare (req : UpstreamRequest) : ServiceE (result UpstreamError PreparedUpstreamRequest)
| EncodeForm (form : AudioForm) (params : value) : ServiceE (result UpstreamError (bytes * string))
| RequiresVerifiedBinding (prepared : PreparedUpstreamRequest) : ServiceE bool
| Verify (req : UpstreamVerificationRequest) : ServiceE UpstreamVerifiedEvent
| Invalidate (req : UpstreamVerificationRequest) : ServiceE unit
| CurrentOrSeal (fingerprint : string) (retention_until now : Z) (seal : result string AttestedSession) :
    ServiceE (result string SessionLease)
| DropLease (lease : SessionLease) : ServiceE unit
| ForwardVerified (prepared : PreparedUpstreamRequest) (event : UpstreamVerifiedEvent) :
    ServiceE (result UpstreamError UpstreamResponse)
| ForwardStreamVerified (prepared : PreparedUpstreamRequest) (event : UpstreamVerifiedEvent) :
    ServiceE (result UpstreamError UpstreamStreamResponse)
| CurrentKeyset : ServiceE SealedWorkloadKeyset
| GenerateReceiptId : ServiceE string
| ExtendRetention (lease : SessionLease) (deadline : Z) : ServiceE (result string unit)
| PutReceipt (receipt : SignedReceipt) (requester : option ReceiptOwner) (now expires_at : Z) : ServiceE unit
| EarlyResponseKeyset : ServiceE (option SealedWorkloadKeyset)
| SetInFlight (route_id : string) (attempt_index : Z) : ServiceE unit
| ClearInFlight : ServiceE unit
| RecordAbandoned (attempt : FailedAttempt) : ServiceE unit
| ReserveReceiptId (receipt_id : string) : ServiceE unit
| InstantNanos : ServiceE Z
| SleepMs (duration : Z) : ServiceE unit
| RandomU64 : ServiceE Z
| SystemTimeSecs : ServiceE Z
| DrawFrom : ServiceE nat.

Abbreviation service A := (prog ServiceE A).

(** ** Groups and admissions *)
Record SessionGroup : Type := mkSessionGroup {
  sg_instance_key : option string;
  sg_bindings : list ChannelBinding;
  sg_lease : SessionLease;
}.
Record AdmittedUpstream : Type := mkAdmitted {
  ad_event : UpstreamVerifiedEvent;
  ad_admitted_at : Z;
  ad_sessions : list SessionGroup;
  ad_requires_instance : bool;
}.
Record SelectedUpstream : Type := mkSelected {
  sel_event : UpstreamVerifiedEvent;
  sel_admitted_at : Z;
  sel_lease : option SessionLease;
}.

Fixpoint drop_groups (groups : list SessionGroup) : service unit :=
  match groups with
  | [] => Ret ()
  | g :: groups' => _ ← call (DropLease (sg_lease g)); drop_groups groups'
  end.
Definition drop_admission (a : AdmittedUpstream) : service unit := drop_groups (ad_sessions a).

(** [Vec::swap_remove]: the last element takes the place of the removed one. *)
Definition swap_remove {A} (i : nat) (l : list A) : list A :=
  match last l with
  | Some x => if i =? pred (length l) then removelast l else <[i := x]> (removelast l)
  | None => []
  end.

Definition with_result (e : UpstreamVerifiedEvent) (r : VerificationResult) (reason : option string)
    (bindings : list ChannelBinding) : UpstreamVerifiedEvent :=
  mkUpstreamVerifiedEvent (uv_verification_round e) (uv_upstream_name e) (uv_provider_type e) (uv_model_id e)
    (uv_url_origin e) (uv_verifier_id e) r (uv_required e) reason (uv_evidence e)
    bindings (uv_provider_claims e) (uv_aci_identity e).

Definition withheld_without_instance (a : AdmittedUpstream) : service AdmittedUpstream :=
  if ad_requires_instance a then
    _ ← drop_groups (ad_sessions a);
    Ret (mkAdmitted
      (with_result (ad_event a) Failed
        (Some "upstream withheld an unverified response without a serving instance") [])
      (ad_admitted_at a) [] false)
  else Ret a.

Definition serves_instance (id : string) (g : SessionGroup) : bool :=
  bool_decide (sg_instance_key g = Some id).
Definition select (a : AdmittedUpstream) (served_instance_id : option string) :
    service (result ServiceError SelectedUpstream) :=
  let refuse detail := _ ← drop_admission a; Ret (Err (AdmissionInvariant detail)) in
  let selected rest lease :=
    _ ← drop_groups rest; Ret (Ok (mkSelected (ad_event a) (ad_admitted_at a) lease)) in
  if ad_requires_instance a then
    match served_instance_id with
    | None => refuse "multi-instance response omitted its instance identifier"
    | Some id =>
        match list_find (fun g => serves_instance id g = true) (ad_sessions a) with
        | None => refuse "response instance was not admitted"
        | Some (index, g) => selected (swap_remove index (ad_sessions a)) (Some (sg_lease g))
        end
    end
  else selected (removelast (ad_sessions a)) (sg_lease <$> last (ad_sessions a)).

Definition attested_route_eligible (is_tee : option bool) : bool := bool_decide (is_tee = Some true).

Section Admission.
Context {SH : Sha} {HX : HexCodec} {B64 : Base64} {SJ : SerdeJson}.

Fixpoint canonical_from (canonical : list (string * ChannelBinding)) (bindings : list ChannelBinding) :
    result ServiceError (list (string * ChannelBinding)) :=
  match bindings with
  | [] => Ok canonical
  | binding :: bindings' =>
      bytes ← map_err (fun e => SessionStoreError (jcs_error_display e)) (jcs_bytes (channel_binding_to_value binding));
      canonical_from (btree_insert (of_bytes bytes) binding canonical) bindings'
  end.
Definition canonical_bindings (bindings : list ChannelBinding) : result ServiceError (list ChannelBinding) :=
  canonical ← canonical_from [] bindings; Ok (canonical.*2).

(** ** The fingerprint of a channel's verified material *)
Record ChannelMaterial : Type := mkChannelMaterial {
  cm_schema : option string;
  cm_provider_type : option string;
  cm_upstream_name : string;
  cm_endpoint : option string;
  cm_verifier_id : string;
  cm_identity : option WorkloadIdentityRef;
  cm_channel_binding : list ChannelBinding;
  cm_claims : SessionClaims;
  cm_evidence_digest : option string;
  cm_verification_round : option bytes;
}.
Definition material_to_value (m : ChannelMaterial) : value :=
  JObject (opt_member "schema" (JString <$> cm_schema m) ++
    opt_member "provider_type" (JString <$> cm_provider_type m) ++
    [("upstream_name", JString (cm_upstream_name m));
     ("endpoint", opt_string_to_value (cm_endpoint m));
     ("verifier_id", JString (cm_verifier_id m));
     ("identity", from_option workload_identity_to_value JNull (cm_identity m));
     ("channel_binding", JArray (channel_binding_to_value <$> cm_channel_binding m));
     ("claims", claims_to_value (cm_claims m));
     ("evidence_digest", opt_string_to_value (cm_evidence_digest m))] ++
    opt_member "verification_round"
      ((fun round => JArray ((fun c => JNumber (PosInt (Z.of_N (byte c)))) <$> round)) <$> cm_verification_round m)).
Definition fingerprint (m : ChannelMaterial) : result string string :=
  bytes ← map_err jcs_error_display (jcs_bytes (material_to_value m));
  Ok (sha256_hex bytes).

Definition session_material (event : UpstreamVerifiedEvent) (identity : option WorkloadIdentityRef)
    (channel_bindings : list ChannelBinding) (claims : SessionClaims) : ChannelMaterial :=
  let reviewed := reviewed_session_material event (JObject (sc_extra claims)) in
  mkChannelMaterial (if reviewed then Some "aci-session-material/1" else None)
    (if reviewed then uv_provider_type event else None)
    (uv_upstream_name event) (uv_url_origin event) (uv_verifier_id event) identity channel_bindings claims
    (if reviewed then None else uv_evidence event ≫= get_str "digest")
    (if reviewed then None else uv_verification_round event).

Definition session_error_display (e : SessionError) : string :=
  match e with SessionSerdeError t => t | SessionJcs e => jcs_error_display e end.
Definition session_document (event : UpstreamVerifiedEvent) (identity : option WorkloadIdentityRef)
    (channel_bindings : list ChannelBinding) (claims : SessionClaims) (now expires_at : Z) : SessionDocument :=
  mkSessionDocument SESSION_API_VERSION (uv_upstream_name event) (uv_url_origin event) (uv_verifier_id event)
    now expires_at identity channel_bindings claims
    (from_option evidence_from_value (mkEvidenceRef None None) (uv_evidence event)).

(** ** Sealing the sessions of a verified event *)
Context (svc : AciService) (has_verifier : bool).

Definition session_expiry (event : UpstreamVerifiedEvent) (now : Z) : result ServiceError Z :=
  expires_at ← ok_or (SessionStoreError "attested session expiry overflow")
    (u64_checked_add now (cfg_attested_session_ttl_seconds (svc_config svc)));
  let expires_at := from_option (fun b => Z.min expires_at (ks_not_after (rb_keyset b))) expires_at
    (uv_aci_identity event) in
  if (expires_at <=? now)%Z then Err (AdmissionInvariant "attested keyset expired before admission") else Ok expires_at.

Definition seal_attested_session (event : UpstreamVerifiedEvent) (identity : option WorkloadIdentityRef)
    (channel_bindings : list ChannelBinding) (claims : SessionClaims) (now : Z) :
    service (result ServiceError SessionLease) :=
  fp ←? Ret (map_err (fun err => SessionStoreError ("channel fingerprint: " +:+ err))
    (fingerprint (session_material event identity channel_bindings claims)));
  expires_at ←? Ret (session_expiry event now);
  let retention_until := (now +| cfg_receipt_ttl_seconds (svc_config svc))%u64 in
  let seal := map_err session_error_display
    (session_seal (session_document event identity channel_bindings claims now expires_at)) in
  lease ← call (CurrentOrSeal fp retention_until now seal);
  Ret (map_err (fun err => SessionStoreError ("failed to seal or persist attested session: " +:+ err)) lease).

Definition identity_from_provider_claims (event : UpstreamVerifiedEvent) : option WorkloadIdentityRef :=
  let signing_address :=
    match uv_provider_claims event with
    | Some (JObject map) => obj_get "signing_address" map ≫= as_str
    | _ => None
    end in
  let extra :=
    match uv_aci_identity event with
    | Some binding =>
        btree_insert "keyset_not_after" (JNumber (PosInt (ks_not_after (rb_keyset binding))))
          (btree_insert "subject" (from_option JString JNull (ks_subject (rb_keyset binding)))
            (btree_insert "workload_keyset_digest" (JString (rb_keyset_digest binding)) []))
    | None => []
    end in
  let identity := mkWorkloadIdentityRef signing_address extra in
  if workload_identity_is_empty identity then None else Some identity.

(** One group per instance of a fleet, in the verifier's order. *)
Fixpoint instance_groups (event : UpstreamVerifiedEvent) (instances : gmap string ChannelBinding)
    (bindings : list ChannelBinding) : result ServiceError (list (option string * list ChannelBinding)) :=
  match bindings with
  | [] => Ok []
  | binding :: bindings' =>
      match instance_id event binding with
      | None => Err (AdmissionInvariant "multi-instance binding has no instance identifier")
      | Some id =>
          if bool_decide (id = "") then Err (AdmissionInvariant "multi-instance binding has no instance identifier")
          else
            match instances !! id with
            | Some previous =>
                if bool_decide (previous ≠ binding) then Err (AdmissionInvariant "conflicting instance bindings")
                else instance_groups event (<[id := binding]> instances) bindings'
            | None =>
                groups ← instance_groups event (<[id := binding]> instances) bindings';
                Ok ((Some id, [binding]) :: groups)
            end
      end
  end.

Definition tls_origin (binding : ChannelBinding) : option string :=
  match binding with TlsSpkiSha256 origin _ => Some origin | _ => None end.
(** One group for any other channel: its bindings pin one TLS origin, or it has one. *)
Definition channel_group (event : UpstreamVerifiedEvent) :
    result ServiceError (list (option string * list ChannelBinding)) :=
  bindings ← canonical_bindings (uv_channel_bindings event);
  match bindings with
  | [] => Ok []
  | [_] => Ok [(None, bindings)]
  | first :: _ =>
      match tls_origin first with
      | None => Err (AdmissionInvariant "unsupported multi-binding channel")
      | Some origin =>
          if negb (forallb (fun b => bool_decide (tls_origin b = Some origin)) bindings) ||
             from_option (fun endpoint => bool_decide (endpoint ≠ origin)) false (uv_url_origin event)
          then Err (AdmissionInvariant "mixed or unsupported channel origins")
          else Ok [(None, bindings)]
      end
  end.

Fixpoint seal_groups (event : UpstreamVerifiedEvent) (identity : option WorkloadIdentityRef) (now : Z)
    (sealed : list SessionGroup) (groups : list (option string * list ChannelBinding)) :
    service (result ServiceError (list SessionGroup)) :=
  match groups with
  | [] => Ret (Ok sealed)
  | (instance_key, bindings) :: groups' =>
      let claims :=
        match instance_key with
        | Some id => per_instance_session_claims event id
        | None => session_claims_for_event event
        end in
      lease ← seal_attested_session event identity bindings claims now;
      match lease with
      | Ok lease => seal_groups event identity now (sealed ++ [mkSessionGroup instance_key bindings lease]) groups'
      | Err e => _ ← drop_groups sealed; Ret (Err e)
      end
  end.

Definition event_groups (event : UpstreamVerifiedEvent) :
    result ServiceError (list (option string * list ChannelBinding)) :=
  if is_multi_instance (uv_provider_type event) then instance_groups event ∅ (uv_channel_bindings event)
  else channel_group event.

Definition record_attested_upstream_session (event : UpstreamVerifiedEvent) (now : Z) :
    service (result ServiceError (list SessionGroup)) :=
  if serves_directly svc || bool_decide (uv_result event ≠ Verified) then Ret (Ok [])
  else
    groups ←? Ret (event_groups event);
    seal_groups event (identity_from_provider_claims event) now [] groups.

(** ** Admission *)
Fixpoint admit_sessions (allowed : list string) (admitted_at : Z) (admitted : list SessionGroup)
    (bindings : list ChannelBinding) (sessions : list SessionGroup) :
    service (result ServiceError (list SessionGroup * list ChannelBinding)) :=
  match sessions with
  | [] => Ret (Ok (admitted, bindings))
  | session :: sessions' =>
      if bool_decide (allowed = []) || bool_decide (le_session_id (sg_lease session) ∈ allowed) then
        if (le_established_at (sg_lease session) <=? admitted_at)%Z && (admitted_at <? le_expires_at (sg_lease session))%Z
        then admit_sessions allowed admitted_at (admitted ++ [session]) (bindings ++ sg_bindings session) sessions'
        else
          _ ← drop_groups (session :: sessions');
          _ ← drop_groups admitted;
          Ret (Err (AdmissionInvariant "store returned a session outside its validity window"))
      else
        _ ← call (DropLease (sg_lease session));
        admit_sessions allowed admitted_at admitted bindings sessions'
  end.

(** Whether a keyset already committed to in early response headers has expired. *)
Definition early_keyset_expired (has_journal : bool) (admitted_at : Z) : service bool :=
  if has_journal then
    early ← call EarlyResponseKeyset;
    Ret (from_option (fun k => (ks_not_after (sealed_keyset k) <=? admitted_at)%Z) false early)
  else Ret false.

Definition admit_upstream (event : UpstreamVerifiedEvent) (allowed_ids : list string) (model_id : string)
    (has_journal : bool) : service (result ServiceError AdmittedUpstream) :=
  now ← call NowSecs;
  sessions ←? record_attested_upstream_session event now;
  admitted_at ← call NowSecs;
  expired ← early_keyset_expired has_journal admitted_at;
  if expired : bool then _ ← drop_groups sessions; Ret (Err EarlyResponseKeysetExpired)
  else
    chosen ←? admit_sessions allowed_ids admitted_at [] [] sessions;
    let '(admitted, bindings) := chosen in
    if bool_decide (allowed_ids ≠ []) && bool_decide (admitted = [])
    then Ret (Err (UpstreamVerification (NoEligibleAttestedSession model_id)))
    else
      let event' := if bool_decide (admitted ≠ []) then with_bindings event bindings else event in
      let requires_instance := negb (serves_directly svc) && is_multi_instance (uv_provider_type event')
        && bool_decide (uv_result event' = Verified) in
      Ret (Ok (mkAdmitted event' admitted_at admitted requires_instance)).

(** ** The verification gate *)
Definition upstream_verification_request (prepared : PreparedUpstreamRequest) (required : bool) :
    UpstreamVerificationRequest :=
  mkVerificationRequest (pr_upstream_name prepared) (pr_url_origin prepared) (pr_model_id prepared)
    (sha256_hex (ur_body (pr_request prepared))) required.

Definition unverified_event (prepared : PreparedUpstreamRequest) (required : bool) : UpstreamVerifiedEvent :=
  mkUpstreamVerifiedEvent None (pr_upstream_name prepared) None (pr_model_id prepared) (pr_url_origin prepared)
    "none" Failed required (Some "no upstream verifier configured") None [] None None.

(** The fail-closed gate, run before any upstream IO. *)
Definition fail_closed_gate (prepared : PreparedUpstreamRequest) (verification_required : bool)
    (verified : option UpstreamVerifiedEvent) : result ServiceError UpstreamVerifiedEvent :=
  let event := from_option (fun e => with_required e verification_required)
    (unverified_event prepared verification_required) verified in
  if verification_required then
    if bool_decide (verified = None) then Err (UpstreamVerification NoVerifierResult)
    else if bool_decide (uv_result event ≠ Verified) then
      Err (UpstreamVerification (VerifierFailed (default "upstream verification failed" (uv_reason event))))
    else if bool_decide (uv_channel_bindings event = []) then
      Err (UpstreamVerification (VerifierFailed "no enforceable channel binding"))
    else Ok event
  else Ok event.

Definition recorded_upstream_event (prepared : PreparedUpstreamRequest) (verification_required : bool)
    (upstream_verification_event : option UpstreamVerifiedEvent) : service (result ServiceError UpstreamVerifiedEvent) :=
  verification_required ←
    (if verification_required then Ret true else call (RequiresVerifiedBinding prepared));
  verified ←
    match upstream_verification_event with
    | Some event => Ret (Some event)
    | None =>
        if has_verifier then
          event ← call (Verify (upstream_verification_request prepared verification_required)); Ret (Some event)
        else Ret None
    end;
  Ret (fail_closed_gate prepared verification_required verified).

Definition invalidate_upstream_event (prepared : PreparedUpstreamRequest) (verification_required : bool) :
    service unit :=
  if has_verifier then call (Invalidate (upstream_verification_request prepared verification_required)) else Ret ().

Definition refresh_upstream_event (prepared : PreparedUpstreamRequest) (verification_required : bool) :
    service (result ServiceError UpstreamVerifiedEvent) :=
  _ ← invalidate_upstream_event prepared verification_required;
  recorded_upstream_event prepared verification_required None.

(** ** Forwarding under an admission *)
Inductive ReverifyOutcome (R : Type) : Type :=
| Forwarded (response : R) (admission : AdmittedUpstream)
| RefreshFailed (e : ServiceError)
| ForwardFailed (e : UpstreamError).

Definition CHANNEL_BINDING_REVERIFY_ATTEMPTS : nat := 2.
Definition is_success (status : Z) : bool := (200 <=? status)%Z && (status <? 300)%Z.
Definition is_mismatch (e : UpstreamError) : bool :=
  match e with ChannelBindingMismatch _ => true | _ => false end.
(** The status of an answer whose unverified body the adapter withheld. *)
Definition withheld_status (e : UpstreamError) : option Z :=
  match e with UpstreamStatus status => if is_success status then None else Some status | _ => None end.

Section Reverify.
Context {R : Type} (withheld : Z -> R).
Context (forward : PreparedUpstreamRequest -> UpstreamVerifiedEvent -> ServiceE (result UpstreamError R)).
Context (prepared : PreparedUpstreamRequest) (verification_required caller_supplied_event : bool).
Context (aci_session_ids : list string) (has_journal always_invalidate_on_mismatch : bool).

Definition forward_failed (err : UpstreamError) (admission : AdmittedUpstream) : service (ReverifyOutcome R) :=
  _ ← (if is_mismatch err && (always_invalidate_on_mismatch || negb caller_supplied_event)
       then invalidate_upstream_event prepared verification_required else Ret ());
  _ ← drop_admission admission;
  Ret (ForwardFailed R err).

Fixpoint reverify_loop (attempts_left : nat) (admission : AdmittedUpstream) : service (ReverifyOutcome R) :=
  answer ← call (forward prepared (ad_event admission));
  match answer with
  | Ok response => Ret (Forwarded R response admission)
  | Err err =>
      match withheld_status err with
      | Some status =>
          admission ← withheld_without_instance admission;
          Ret (Forwarded R (withheld status) admission)
      | None =>
          match attempts_left with
          | S attempts_left' =>
              if is_mismatch err && negb caller_supplied_event then
                _ ← drop_admission admission;
                event ← refresh_upstream_event prepared verification_required;
                match event with
                | Ok event =>
                    admitted ← admit_upstream event aci_session_ids (pr_model_id prepared) has_journal;
                    match admitted with
                    | Ok admission => reverify_loop attempts_left' admission
                    | Err e => Ret (RefreshFailed R e)
                    end
                | Err e => Ret (RefreshFailed R e)
                end
              else forward_failed err admission
          | O => forward_failed err admission
          end
      end
  end.
End Reverify.
End Admission.
