(* ===== verification/Fingerprint.v ===== *)
(** * What a channel fingerprint identifies (src/aggregator/service/forward.rs)

    The session store finds the current session of a channel by the fingerprint of
    its verified material.  Equal fingerprints mean equal channel bindings, so a session
    found again pins what was verified now. *)
From S2P Require Import Prelude Json External Digest Identity ReportBinding Receipt RelyingParty Session SessionStore.
From S2P Require Import Errors Upstream Claims E2eeCipher Provider Attestation Admission.

(** ** Ordered maps *)
Definition key_lt (a b : string) : Prop := String.le a b /\ a ≠ b.
Definition btree_ok {A} (m : list (string * A)) : Prop := StronglySorted key_lt (obj_keys m).

Lemma btree_insert_elem {A} k (v : A) m kv : kv ∈ btree_insert k v m -> kv = (k, v) \/ kv ∈ m.
Proof.
  induction m as [|[k' v'] m IH]; cbn; [set_solver|]. case_bool_decide; [set_solver|]. case_bool_decide; set_solver.
Qed.
Lemma btree_insert_ok {A} k (v : A) m : btree_ok m -> btree_ok (btree_insert k v m).
Proof.
  unfold btree_ok. induction m as [|[k' v'] m IH]; cbn; intros Hs; [repeat constructor|].
  inversion Hs as [|? ? Hs' HF]; subst. case_bool_decide as Hk; [by subst|].
  case_bool_decide as Hle; cbn.
  - constructor; [done|]. constructor; [by split|].
    eapply Forall_impl; [exact HF|]. intros x [Hx1 Hx2]. split; [by etransitivity|].
    intros ->. apply Hx2. by apply (anti_symm String.le).
  - constructor; [by apply IH|]. apply Forall_forall. intros x (kv & -> & Hin)%list_elem_of_fmap.
    apply btree_insert_elem in Hin as [->|Hin]; cbn.
    + split; [|done]. by destruct (total String.le k k').
    + apply (proj1 (Forall_forall _ _) HF), list_elem_of_fmap. eauto.
Qed.
Lemma btree_NoDup {A} (m : list (string * A)) : btree_ok m -> NoDup (obj_keys m).
Proof.
  unfold btree_ok. induction 1 as [|k l Hs IH HF]; constructor; [|done].
  intros Hin. by destruct (proj1 (Forall_forall _ _) HF k Hin).
Qed.
Lemma btree_extend_ok (m extra : list (string * value)) :
  btree_ok extra -> btree_ok (foldl (fun extra kv => btree_insert kv.1 kv.2 extra) extra m).
Proof. revert extra. induction m as [|kv m IH]; cbn; [done|]. intros extra H. by apply IH, btree_insert_ok. Qed.
Lemma btree_extend_elem (m extra : list (string * value)) kv :
  kv ∈ foldl (fun extra kv => btree_insert kv.1 kv.2 extra) extra m -> kv ∈ m \/ kv ∈ extra.
Proof.
  revert extra. induction m as [|kv0 m IH]; cbn; [auto|]. intros extra [?|Hin]%IH; [set_solver|].
  apply btree_insert_elem in Hin as [->|?]; [destruct kv0|]; set_solver.
Qed.

(** A well-formed value of bounded nesting. *)
Definition shallow (d : nat) (v : value) : Prop := value_wf v /\ json_depth v <= d.
Lemma shallow_le d d' v : d <= d' -> shallow d v -> shallow d' v.
Proof. intros ? []. split; [done|lia]. Qed.
Lemma shallow_object d m : NoDup (obj_keys m) -> Forall (fun kv => shallow d kv.2) m -> shallow (S d) (JObject m).
Proof.
  intros Hnd HF. split.
  - constructor; [done|]. eapply Forall_impl; [exact HF|]. by intros kv [].
  - apply json_depth_object. split; [lia|]. eapply Forall_impl; [exact HF|]. cbn. intros kv []. lia.
Qed.
Lemma shallow_object_inv d m : shallow (S d) (JObject m) ->
  NoDup (obj_keys m) /\ Forall (fun kv => shallow d kv.2) m.
Proof.
  intros [Hw Hd]. apply json_depth_object in Hd as [_ Hd]. inversion Hw as [| | | | |? Hnd HF]; subst. split; [done|].
  rewrite Forall_forall in *. intros kv Hin. split; [by apply HF|]. specialize (Hd _ Hin). lia.
Qed.
Lemma shallow_array d l : Forall (shallow d) l -> shallow (S d) (JArray l).
Proof.
  intros HF. split.
  - constructor. eapply Forall_impl; [exact HF|]. by intros v [].
  - cbn [json_depth]. induction HF as [|v l [_ Hv] HF IH]; cbn in *; lia.
Qed.
Lemma shallow_get d m k v : Forall (fun kv => shallow d kv.2) m -> obj_get k m = Some v -> shallow d v.
Proof. intros HF Hg%obj_get_elem. by apply (proj1 (Forall_forall _ _) HF) in Hg. Qed.
Lemma shallow_member d k v : shallow (S d) v -> forall w, get k v = Some w -> shallow d w.
Proof. destruct v; try done. intros [_ HF]%shallow_object_inv w. by apply shallow_get. Qed.
Lemma insert_shallow d k v m : Forall (fun kv => shallow d kv.2) m -> shallow d v ->
  Forall (fun kv => shallow d kv.2) (obj_insert k v m).
Proof.
  intros HF Hv. induction HF as [|[k' v'] m Hkv HF IH]; cbn; [by apply Forall_singleton|].
  case_bool_decide; by constructor.
Qed.

Section Fingerprint.
Context {SH : Sha} {HX : HexCodec} {B64 : Base64} {SJ : SerdeJson} {HD : HashDomain}.

(** The bytes a fingerprint is taken of are among those the deployment hashes. *)
Definition known_material (m : ChannelMaterial) : Prop := forall b, jcs_bytes (material_to_value m) = Ok b -> hashed b.
Record material_ok (m : ChannelMaterial) : Prop := {
  mo_wf : value_wf (material_to_value m);
  mo_depth : json_depth (material_to_value m) <= 127;
  mo_known : known_material m;
}.

Lemma same_doc_string s v : same_doc (JString s) v -> v = JString s.
Proof. by inversion 1. Qed.
Lemma binding_same_doc b1 b2 :
  same_doc (channel_binding_to_value b1) (channel_binding_to_value b2) -> b1 = b2.
Proof.
  intros H.
  assert (forall k, get_str k (channel_binding_to_value b1) = get_str k (channel_binding_to_value b2)) as Hg
    by (intros k; by apply get_str_proper).
  destruct b1 as [o1 s1|p1 k1 a1 h1|p1 i1 c1], b2 as [o2 s2|p2 k2 a2 h2|p2 i2 c2];
    try (specialize (Hg "type"); vm_compute in Hg; discriminate Hg).
  - pose proof (Hg "origin") as H1. pose proof (Hg "spki_sha256") as H2. clear Hg H. vm_compute in H1, H2. congruence.
  - pose proof (Hg "provider") as H1. pose proof (Hg "key_id") as H2. pose proof (Hg "algorithm") as H3.
    pose proof (Hg "public_key_sha256") as H4. clear Hg H. destruct k1, k2; vm_compute in H1, H2, H3, H4; congruence.
  - pose proof (Hg "provider") as H1. pose proof (Hg "proxy_image_digest") as H2.
    pose proof (Hg "credential_sha256") as H3. clear Hg H. vm_compute in H1, H2, H3. congruence.
Qed.
Lemma bindings_same_doc l1 l2 :
  same_doc (JArray (channel_binding_to_value <$> l1)) (JArray (channel_binding_to_value <$> l2)) -> l1 = l2.
Proof.
  inversion 1 as [|? ? HF|]; subst; [done|]. clear H. revert l2 HF. induction l1 as [|b l1 IH]; intros [|b2 l2] HF; cbn in HF;
    [done|by inversion HF|by inversion HF|].
  inversion HF as [|? ? ? ? Hb HF']; subst. f_equal; [by apply binding_same_doc|by apply IH].
Qed.

Lemma material_binding m : get "channel_binding" (material_to_value m) =
  Some (JArray (channel_binding_to_value <$> cm_channel_binding m)).
Proof. destruct m as [[] [] ? ? ? ? ? ? ? ?]; reflexivity. Qed.

Lemma fingerprint_inv m fp : fingerprint m = Ok fp ->
  exists b, jcs_bytes (material_to_value m) = Ok b /\ fp = sha256_hex b.
Proof. unfold fingerprint. destruct (jcs_bytes _) as [b|]; [|done]. intros [= <-]. eauto. Qed.

Lemma fingerprint_binds m1 m2 fp :
  material_ok m1 -> material_ok m2 -> fingerprint m1 = Ok fp -> fingerprint m2 = Ok fp ->
  cm_channel_binding m1 = cm_channel_binding m2.
Proof.
  intros [Hw1 Hd1 Hk1] [Hw2 Hd2 Hk2] (b1 & Hb1 & ->)%fingerprint_inv (b2 & Hb2 & Hfp)%fingerprint_inv.
  apply sha256_hex_inj, hashed_inj in Hfp as <-; auto.
  pose proof (jcs_same_doc _ _ _ Hw1 Hw2 Hd1 Hd2 Hb1 Hb2) as Hs.
  apply (get_proper "channel_binding") in Hs. rewrite !material_binding in Hs. inversion Hs; subst.
  by apply bindings_same_doc.
Qed.

(** ** The material of a verified event *)
Definition fine (d : nat) (m : list (string * value)) : Prop :=
  NoDup (obj_keys m) /\ Forall (fun kv => shallow d kv.2) m.
Lemma fine_nil d : fine d [].
Proof. split; constructor. Qed.
Lemma fine_insert d k v m : fine d m -> shallow d v -> fine d (obj_insert k v m).
Proof. intros [H1 H2] Hv. split; [by apply obj_insert_NoDup|by apply insert_shallow]. Qed.
Lemma fine_insert_opt d k o m : fine d m -> (forall v, o = Some v -> shallow d v) -> fine d (insert_opt k o m).
Proof. intros Hm Ho. destruct o; cbn; [apply fine_insert; auto|done]. Qed.
Lemma fine_foldl {A} d (f : list (string * value) -> A -> list (string * value)) l m :
  (forall m x, fine d m -> fine d (f m x)) -> fine d m -> fine d (foldl f m l).
Proof. intros Hf. revert m. induction l as [|x l IH]; cbn; auto. Qed.
Lemma fine_extend d more m : Forall (fun kv => shallow d kv.2) more -> fine d m -> fine d (obj_extend more m).
Proof.
  unfold obj_extend. revert m. induction more as [|kv more IH]; cbn; [done|].
  intros m [Hk Hm]%Forall_cons Hf. apply IH; [done|]. by apply fine_insert.
Qed.

Lemma fine_object_case d (o : option value) (F : list (string * value) -> list (string * value)) m :
  fine d m -> (forall g, o = Some (JObject g) -> fine d (F g)) ->
  fine d (match o with Some (JObject g) => F g | _ => m end).
Proof. intros Hm HF. destruct o as [[]|]; auto. Qed.

Lemma slice_shallow d map k id v : fine (S d) map -> obj_get k map ≫= get id = Some v -> shallow d v.
Proof.
  intros [_ HF]. destruct (obj_get k map) as [o|] eqn:Hg; [|done]. cbn. apply shallow_member.
  by apply (shallow_get _ map k).
Qed.
Lemma instance_claims_fine d full id :
  (forall v, full = Some v -> shallow (S (S d)) v) ->
  exists pc, per_instance_provider_claims full id = JObject pc /\ fine (S d) pc.
Proof.
  intros Hf. destruct full as [[| | | | |map]|]; try (eexists; split; [reflexivity|]; apply fine_nil).
  destruct (shallow_object_inv _ _ (Hf _ eq_refl)) as [Hnd HF].
  assert (fine (S d) map) as Hmap by done.
  assert (forall k v, obj_get k map ≫= get id = Some v -> shallow (S d) v) as Hslice.
  { intros k v Hv. eapply shallow_le; [|by eapply slice_shallow]. lia. }
  unfold per_instance_provider_claims. eexists. split; [reflexivity|].
  assert (forall k v, obj_get k map = Some v -> shallow (S d) v) as Hget by (intros k v; by apply shallow_get).
  assert (forall k g, obj_get k map ≫= get id = Some (JObject g) -> Forall (fun kv => shallow (S d) kv.2) g) as Hobj.
  { intros k g Hg. eapply slice_shallow in Hg; [|done]. destruct d as [|d]; [by destruct Hg as [_ ?%json_depth_object]; lia|].
    apply shallow_object_inv in Hg as [_ Hg]. eapply Forall_impl; [exact Hg|]. intros kv. apply shallow_le. lia. }
  repeat first
    [ apply fine_nil
    | apply fine_object_case; [|intros]
    | apply fine_extend; [by eapply Hobj|]
    | apply fine_foldl; [intros m x Hm; try (destruct x as [mk sk]; [idtac]); apply fine_insert_opt; [exact Hm|];
                         intros v Hv; (solve [eapply Hslice, Hv | eapply Hget, Hv | by eapply shallow_get; [by eapply Hobj|]])|]
    | apply fine_insert_opt; [|intros v Hv; by eapply Hslice]
    | apply fine_insert; [|split; [constructor|cbn; lia]] ].
Qed.

(** The claims and the material of one of the event's groups. *)
Definition group_claims (e : UpstreamVerifiedEvent) (instance_key : option string) : SessionClaims :=
  match instance_key with Some id => per_instance_session_claims e id | None => session_claims_for_event e end.
Definition group_material (e : UpstreamVerifiedEvent) (key : option string) (bindings : list ChannelBinding) : ChannelMaterial :=
  session_material e (identity_from_provider_claims e) bindings (group_claims e key).

Record event_wf (e : UpstreamVerifiedEvent) : Prop := {
  ew_claims v : uv_provider_claims e = Some v -> shallow 100 v;
  ew_identity b : uv_aci_identity e = Some b -> is_u64 (ks_not_after (rb_keyset b));
  ew_known groups key bindings : event_groups e = Ok groups -> (key, bindings) ∈ groups ->
    known_material (group_material e key bindings);
}.

Lemma claims_extra_fine e : (forall v, uv_provider_claims e = Some v -> shallow 100 v) ->
  fine 99 (sc_extra (session_claims_for_event e)).
Proof.
  intros Hc. unfold session_claims_for_event. set (c := if bool_decide _ then _ else _).
  assert (sc_extra c = []) as Hx by (subst c; case_bool_decide; [destruct (claim_mapper _)|]; reflexivity).
  destruct (uv_provider_claims e) as [[| | | | |m]|]; try (rewrite Hx; apply fine_nil). cbn [sc_extra with_extra].
  rewrite Hx. destruct (shallow_object_inv _ _ (Hc _ eq_refl)) as [_ HF]. split.
  - apply btree_NoDup, btree_extend_ok. constructor.
  - apply Forall_forall. intros kv [Hin|?]%btree_extend_elem; [|set_solver]. by apply (proj1 (Forall_forall _ _) HF).
Qed.
Lemma group_claims_fine e key : event_wf e -> fine 99 (sc_extra (group_claims e key)).
Proof.
  intros [Hc _ _]. destruct key as [id|]; [|by apply claims_extra_fine].
  cbn [group_claims]. unfold per_instance_session_claims. apply claims_extra_fine. intros v [= <-].
  destruct (instance_claims_fine 98 (uv_provider_claims e) id Hc) as (pc & -> & [Hnd HF]).
  by apply (shallow_object 99).
Qed.

Lemma identity_fine e w : event_wf e -> identity_from_provider_claims e = Some w -> fine 0 (wi_extra w).
Proof.
  intros [_ Hi _]. unfold identity_from_provider_claims. case_match; [done|]. intros [= <-]. cbn.
  destruct (uv_aci_identity e) as [b|]; [|apply fine_nil]. split; [apply (bool_decide_unpack _); vm_compute; reflexivity|].
  specialize (Hi b eq_refl). cbn. repeat constructor; cbn; try done; try apply Hi; destruct (ks_subject _); constructor.
Qed.

Lemma claims_shallow c : fine 99 (sc_extra c) -> shallow 102 (claims_to_value c).
Proof.
  intros [Hnd HF]. split; [apply claims_to_value_wf; constructor; [done|]; eapply Forall_impl; [exact HF|]; by intros kv []|].
  unfold claims_to_value. apply json_depth_object. split; [lia|]. apply Forall_app. split.
  - repeat (apply Forall_cons; split); try constructor;
      (cbn [snd]; match goal with |- context [claim_to_value ?c] => destruct c as [? [] []] end; cbn; lia).
  - unfold extra_member. case_bool_decide; [constructor|]. apply Forall_singleton. cbn [snd].
    destruct (shallow_object 99 _ Hnd HF) as [_ Hd]. lia.
Qed.

Lemma shallow_string d s : shallow d (JString s).
Proof. split; [constructor|cbn; lia]. Qed.
Lemma opt_string_shallow d o : shallow d (opt_string_to_value o).
Proof. destruct o; (split; [constructor|cbn; lia]). Qed.
Lemma opt_member_shallow d k o : (forall v, o = Some v -> shallow d v) -> Forall (fun kv => shallow d kv.2) (opt_member k o).
Proof. intros Ho. destruct o; cbn; [apply Forall_singleton; auto|constructor]. Qed.
Lemma identity_shallow e : event_wf e ->
  shallow 103 (from_option workload_identity_to_value JNull (identity_from_provider_claims e)).
Proof.
  intros He. destruct (identity_from_provider_claims e) as [w|] eqn:Hw; cbn; [|split; [constructor|cbn; lia]].
  destruct (identity_fine e w He Hw) as [Hnd HF].
  assert (shallow 1 (JObject (wi_extra w))) as Hx by by apply shallow_object.
  split; [apply workload_identity_wf, Hx|]. apply json_depth_object. split; [lia|]. apply Forall_app. split.
  - destruct (wi_signing_address w); cbn; [apply Forall_singleton; cbn; lia|constructor].
  - unfold extra_member. case_bool_decide; [constructor|]. apply Forall_singleton. cbn [snd]. destruct Hx. lia.
Qed.

Lemma session_material_ok e key bindings : event_wf e -> known_material (group_material e key bindings) ->
  material_ok (session_material e (identity_from_provider_claims e) bindings (group_claims e key)).
Proof.
  intros He Hk. pose proof (claims_shallow _ (group_claims_fine e key He)) as Hc.
  enough (shallow 104 (material_to_value (session_material e (identity_from_provider_claims e) bindings (group_claims e key))))
    as [Hw Hd] by (split; [done|lia|exact Hk]).
  unfold material_to_value. apply shallow_object.
  - cbn [cm_schema cm_provider_type cm_verification_round session_material].
    destruct (reviewed_session_material _ _); [destruct (uv_provider_type e)|destruct (uv_verification_round e)];
      apply (bool_decide_unpack _); vm_compute; reflexivity.
  - rewrite !Forall_app. repeat split.
    + apply opt_member_shallow. cbn. destruct (reviewed_session_material _ _); [|done]. intros v [= <-]. apply shallow_string.
    + apply opt_member_shallow. cbn. destruct (reviewed_session_material _ _); [|done].
      destruct (uv_provider_type e); [|done]. intros v [= <-]. apply shallow_string.
    + repeat (apply Forall_cons; split); try apply Forall_nil_2; cbn [snd]; try apply shallow_string; try apply opt_string_shallow.
      * by apply identity_shallow.
      * apply (shallow_le 3); [lia|]. apply (shallow_array 2), Forall_fmap, Forall_true. intros b. split; [apply channel_binding_wf|].
        destruct b as [|? []|]; cbn; lia.
      * by apply (shallow_le 102); [lia|].
    + apply opt_member_shallow. cbn. destruct (reviewed_session_material _ _); [done|].
      destruct (uv_verification_round e); [|done]. intros v [= <-]. apply (shallow_le 1); [lia|].
      apply (shallow_array 0), Forall_fmap, Forall_true. intros c. split; [|cbn; lia]. constructor. cbn.
      unfold byte, u64_max. pose proof (N_ascii_bounded c). lia.
Qed.
End Fingerprint.
