(* ===== verification/Gate.v ===== *)
(** * The forwarding gate (src/aggregator/service/forward.rs)

    A protocol for the collaborators of [Admission], as a transition relation on
    what a run has been given: the last reading of the clock, the leases it holds
    and what it forwarded last.  [allowed] is what the service must never violate:
    a prompt is handed to the upstream only under a current admission, and a lease
    is extended or dropped only while it is held.  The lemmas are the weakest
    preconditions of the functions of [Admission] under this protocol. *)
From S2P Require Import Prelude Json External Effects Digest Identity ReportBinding Receipt RelyingParty.
From S2P Require Import Session SessionStore ReceiptStore Errors Upstream Claims E2eeCipher Provider Attestation Admission Fingerprint.

(** Retained sessions, published receipts and abandoned attempts. *)
Inductive log_item : Type :=
| Retained (l : SessionLease) (deadline : Z)
| Published (r : SignedReceipt) (deadline : Z)
| Abandoned (a : FailedAttempt).
Record ghost : Type := mkGhost {
  g_now : Z;
  g_held : list SessionLease;
  (** what was handed to the upstream, latest first *)
  g_sent : list (PreparedUpstreamRequest * UpstreamVerifiedEvent);
  (** latest first *)
  g_log : list log_item;
}.
Definition set_now (t : Z) (s : ghost) : ghost := mkGhost t (g_held s) (g_sent s) (g_log s).
Definition set_held (h : list SessionLease) (s : ghost) : ghost := mkGhost (g_now s) h (g_sent s) (g_log s).
Definition forwarded_to (p : PreparedUpstreamRequest) (e : UpstreamVerifiedEvent) (s : ghost) : ghost :=
  mkGhost (g_now s) (g_held s) ((p, e) :: g_sent s) (g_log s).
Definition logged (x : log_item) (s : ghost) : ghost :=
  mkGhost (g_now s) (g_held s) (g_sent s) (x :: g_log s).
(** At most [n] more prompts were sent, all of them this one. *)
Definition sent_more (p : PreparedUpstreamRequest) (n : nat) (s s' : ghost) : Prop :=
  exists l, g_sent s' = l ++ g_sent s /\ length l <= n /\ Forall (fun x => x.1 = p) l.
Definition sent_upto (n : nat) (s s' : ghost) : Prop := exists l, g_sent s' = l ++ g_sent s /\ length l <= n.
Lemma sent_more_upto p n s s' s2 : sent_more p n s s' -> g_sent s2 = g_sent s' -> sent_upto n s s2.
Proof. intros (l & H & L & _) Hs. exists l. split; [by rewrite Hs|done]. Qed.
Lemma upto_none n s s' : g_sent s' = g_sent s -> sent_upto n s s'.
Proof. intros Hs. exists []. split; [done|cbn; lia]. Qed.
Lemma upto_trans n m k s s1 s' : sent_upto n s s1 -> sent_upto m s1 s' -> n + m <= k -> sent_upto k s s'.
Proof.
  intros (l1 & H1 & L1) (l2 & H2 & L2) Hk. exists (l2 ++ l1). rewrite H2, H1, length_app, app_assoc. split; [done|lia].
Qed.
Lemma sent_none p n s s' : g_sent s' = g_sent s -> sent_more p n s s'.
Proof. intros H. exists []. split; [done|]. split; [cbn; lia|constructor]. Qed.
Lemma sent_one p e n s s' : g_sent s' = (p, e) :: g_sent s -> sent_more p (S n) s s'.
Proof. intros H. exists [(p, e)]. split; [done|]. split; [cbn; lia|by repeat constructor]. Qed.
Lemma sent_trans p n m s s1 s' : sent_more p n s s1 -> sent_more p m s1 s' -> sent_more p (n + m) s s'.
Proof.
  intros (l1 & H1 & L1 & F1) (l2 & H2 & L2 & F2). exists (l2 ++ l1). rewrite H2, H1, length_app, app_assoc.
  split; [done|]. split; [lia|by apply Forall_app]. 
Qed.
Lemma sent_ext p n s s1 s2 s' : g_sent s1 = g_sent s -> g_sent s' = g_sent s2 -> sent_more p n s1 s2 -> sent_more p n s s'.
Proof. unfold sent_more. intros -> ->. done. Qed.

Section Gate.
Context {SH : Sha} {HX : HexCodec} {B64 : Base64} {SJ : SerdeJson} {HD : HashDomain}.
Context (svc : AciService) (has_verifier : bool).
(** The session recorded under an id, and the backend's answer about a route. *)
Context (session_of : string -> AttestedSession) (needs_binding : PreparedUpstreamRequest -> bool).
(** The request's policy: whether it needs a verified upstream, and the sessions it pins. *)
Context (required : bool) (pins : list string).

Definition lease_document (l : SessionLease) : SessionDocument := as_document (session_of (le_session_id l)).
Definition lease_bindings (l : SessionLease) : list ChannelBinding := sd_channel_binding (lease_document l).
(** What the session store promises of a lease it hands out for a fingerprint: the
    session was sealed for material with that fingerprint. *)
Definition lease_for (fp : string) (l : SessionLease) : Prop :=
  le_established_at l = sd_established_at (lease_document l) /\ le_expires_at l = sd_expires_at (lease_document l) /\
  exists m, material_ok m /\ fingerprint m = Ok fp /\ cm_channel_binding m = lease_bindings l.

Definition in_window (t : Z) (l : SessionLease) : Prop := (le_established_at l <= t < le_expires_at l)%Z.
Definition pinned (l : SessionLease) : Prop := pins = [] \/ le_session_id l ∈ pins.
(** The bindings an event enforces are those recorded by admitted sessions that are
    held, valid at the time of admission and pinned if the request pins any. *)
Definition backed (s : ghost) (e : UpstreamVerifiedEvent) : Prop :=
  exists used, used ≠ [] /\ used ⊆+ g_held s /\ Forall (fun l => in_window (g_now s) l /\ pinned l) used /\
    uv_channel_bindings e = used ≫= lease_bindings.
Definition may_forward (s : ghost) (p : PreparedUpstreamRequest) (e : UpstreamVerifiedEvent) : Prop :=
  (required || needs_binding p = true ->
     uv_result e = Verified /\ uv_required e = true /\ uv_channel_bindings e ≠ []) /\
  (required = true -> pr_is_tee p = Some true) /\
  (pins ≠ [] \/ (serves_directly svc = false /\ uv_result e = Verified /\ uv_channel_bindings e ≠ []) -> backed s e).

Definition allowed (s : ghost) (X : Type) (e : ServiceE X) : Prop :=
  match e with
  | ForwardVerified p ev | ForwardStreamVerified p ev => may_forward s p ev
  | DropLease l | ExtendRetention l _ => l ∈ g_held s
  | _ => True
  end.
Definition moves (s : ghost) (X : Type) (e : ServiceE X) : X -> ghost -> Prop :=
  match e with
  | NowSecs => fun t s' => s' = set_now t s
  | RequiresVerifiedBinding p => fun b s' => b = needs_binding p /\ s' = s
  | Verify _ => fun ev s' => event_wf ev /\ s' = s
  | CurrentOrSeal fp _ _ _ => fun r s' =>
      match r with
      | Ok l => lease_for fp l /\ s' = set_held (l :: g_held s) s
      | Err _ => s' = s
      end
  | DropLease l => fun _ s' => exists h, g_held s ≡ₚ l :: h /\ s' = set_held h s
  | ForwardVerified p ev | ForwardStreamVerified p ev => fun _ s' => s' = forwarded_to p ev s
  | ExtendRetention l deadline => fun r s' => s' = match r with Ok _ => logged (Retained l deadline) s | Err _ => s end
  | PutReceipt receipt _ _ deadline => fun _ s' => s' = logged (Published receipt deadline) s
  | RecordAbandoned attempt => fun _ s' => s' = logged (Abandoned attempt) s
  | _ => fun _ s' => s' = s
  end.

Abbreviation wps := (wp allowed moves).

(** The parts of the state a step leaves alone. *)
Definition same_but_held (s s' : ghost) : Prop :=
  g_now s' = g_now s /\ g_sent s' = g_sent s /\ g_log s' = g_log s.
Definition leases (gs : list SessionGroup) : list SessionLease := sg_lease <$> gs.

Lemma wp_drop_lease l h s (Q : unit -> ghost -> Prop) :
  g_held s ≡ₚ l :: h -> (forall s', g_held s' ≡ₚ h -> same_but_held s s' -> Q () s') -> wps (call (DropLease l)) s Q.
Proof.
  intros Hh HQ. apply wp_call; [cbn; rewrite Hh; left|]. intros [] s' (h' & Hh' & ->). apply HQ; [|done].
  cbn. apply (Permutation_cons_inv (a := l)). by rewrite <- Hh, <- Hh'.
Qed.
Lemma wp_drop_groups gs h s (Q : unit -> ghost -> Prop) :
  g_held s ≡ₚ leases gs ++ h -> (forall s', g_held s' ≡ₚ h -> same_but_held s s' -> Q () s') ->
  wps (drop_groups gs) s Q.
Proof.
  revert s. induction gs as [|g gs IH]; intros s Hh HQ; [by apply HQ|].
  cbn [drop_groups]. apply wp_bind, (wp_drop_lease _ (leases gs ++ h)); [exact Hh|]. intros s1 Hh1 Hs1.
  apply IH; [exact Hh1|]. intros s2 Hh2 Hs2. apply HQ; [exact Hh2|]. unfold same_but_held in *. intuition congruence.
Qed.

(** ** Sealing *)
(** A group's lease records the group's bindings. *)
Definition faithful (g : SessionGroup) : Prop := sg_bindings g = lease_bindings (sg_lease g).

Lemma wp_seal_attested_session event key bindings now s (Q : result ServiceError SessionLease -> ghost -> Prop) :
  event_wf event -> known_material (group_material event key bindings) -> (forall e, Q (Err e) s) ->
  (forall l, bindings = lease_bindings l -> Q (Ok l) (set_held (l :: g_held s) s)) ->
  wps (seal_attested_session svc event (identity_from_provider_claims event) bindings (group_claims event key) now) s Q.
Proof.
  intros He Hk Herr Hok. unfold seal_attested_session. apply wp_try.
  destruct (fingerprint _) as [fp|e] eqn:Hfp; cbn [map_err wp]; [|apply Herr]. apply wp_try.
  destruct (session_expiry _ _ _) as [t|e]; cbn [wp]; [|apply Herr].
  apply wp_bind, wp_call; [done|]. intros [l|e] s'; cbn; [|intros ->; apply Herr].
  intros ((_ & _ & m & Hm & Hf & Hb) & ->). apply Hok. rewrite <- Hb.
  apply (fingerprint_binds _ _ fp (session_material_ok event key bindings He Hk) Hm Hfp Hf).
Qed.

Lemma wp_seal_groups event now groups sealed h s (Q : result ServiceError (list SessionGroup) -> ghost -> Prop) :
  event_wf event -> (forall key bindings, (key, bindings) ∈ groups -> known_material (group_material event key bindings)) ->
  Forall faithful sealed -> g_held s ≡ₚ leases sealed ++ h ->
  (forall gs s', Forall faithful gs -> (fun g => (sg_instance_key g, sg_bindings g)) <$> gs =
     ((fun g => (sg_instance_key g, sg_bindings g)) <$> sealed) ++ groups ->
     g_held s' ≡ₚ leases gs ++ h -> same_but_held s s' -> Q (Ok gs) s') ->
  (forall e s', g_held s' ≡ₚ h -> same_but_held s s' -> Q (Err e) s') ->
  wps (seal_groups svc event (identity_from_provider_claims event) now sealed groups) s Q.
Proof.
  intros He Hk. revert sealed s. induction groups as [|[key bindings] groups IH]; intros sealed s Hf Hh Hok Herr; cbn [seal_groups].
  - apply Hok; [done|by rewrite app_nil_r|done|done].
  - apply wp_bind. change (match key with Some id => _ | None => _ end) with (group_claims event key).
    apply wp_seal_attested_session; [done|apply Hk; left| |].
    + intros e. apply wp_bind, (wp_drop_groups sealed h); [done|]. intros s' Hh' Hs'. by apply Herr.
    + intros l Hl. apply IH.
      * intros k bs Hin. apply Hk. by right.
      * apply Forall_app. split; [done|]. by apply Forall_singleton.
      * cbn. unfold leases. rewrite fmap_app. cbn. rewrite Hh. unfold leases.
        rewrite <- app_assoc. cbn. apply Permutation_middle.
      * intros gs s' Hgs Hkeys Hh' Hs'. apply Hok; [done| |done|exact Hs'].
        rewrite Hkeys, fmap_app, <- app_assoc. done.
      * intros e s' Hh' Hs'. by apply Herr.
Qed.

(** ** Groups *)
Lemma instance_groups_facts event instances bindings groups :
  instance_groups event instances bindings = Ok groups ->
  Forall (fun g => g.2 ≠ []) groups /\ (instances = ∅ -> groups = [] -> bindings = []).
Proof.
  revert instances groups. induction bindings as [|b bindings IH]; intros instances groups; cbn [instance_groups].
  - intros [= <-]. by split.
  - destruct (instance_id event b) as [id|]; [|done]. case_bool_decide; [done|].
    destruct (instances !! id) as [previous|] eqn:Hl.
    + case_bool_decide; [done|]. intros Hg%IH. split; [apply Hg|]. intros ->. by rewrite lookup_empty in Hl.
    + destruct (instance_groups event _ bindings) as [gs|] eqn:Hr; [|done]. intros [= <-].
      destruct (IH _ _ Hr) as [HF _]. split; [by constructor|done].
Qed.
Lemma btree_insert_nonempty {A} k (v : A) m : btree_insert k v m ≠ [].
Proof. destruct m as [|[k' v'] m]; cbn; [done|]. by repeat case_bool_decide. Qed.
Lemma canonical_from_nonempty acc bindings c : canonical_from acc bindings = Ok c -> c = [] -> acc = [] /\ bindings = [].
Proof.
  revert acc. induction bindings as [|b bindings IH]; intros acc; cbn; [by intros [= <-]|].
  destruct (jcs_bytes _); [|done]. cbn. intros Hc -> . destruct (IH _ Hc eq_refl) as [Hn _].
  by apply btree_insert_nonempty in Hn.
Qed.
Lemma event_groups_facts event groups : event_groups event = Ok groups ->
  Forall (fun g => g.2 ≠ []) groups /\ (groups = [] -> uv_channel_bindings event = []).
Proof.
  unfold event_groups. destruct (is_multi_instance _).
  - intros H%instance_groups_facts. split; [apply H|]. by apply H.
  - unfold channel_group, canonical_bindings.
    destruct (canonical_from [] _) as [c|] eqn:Hc; [|done]. cbn.
    destruct c as [|b1 [|b2 c]]; cbn.
    + intros [= <-]. split; [constructor|]. intros _. by apply (canonical_from_nonempty [] _ [] Hc).
    + intros [= <-]. split; [by apply Forall_singleton|by intros [=]].
    + destruct (tls_origin _); [|done]. destruct (_ || _); [done|]. intros [= <-]. split; [by apply Forall_singleton|by intros [=]].
Qed.

(** ** Admission *)
Definition owned (a : AdmittedUpstream) : list SessionLease := leases (ad_sessions a).
(** What an admission for an event establishes. *)
Record admission_ok (event : UpstreamVerifiedEvent) (a : AdmittedUpstream) : Prop := {
  ao_faithful : Forall faithful (ad_sessions a);
  ao_valid : Forall (fun g => in_window (ad_admitted_at a) (sg_lease g) /\ pinned (sg_lease g)) (ad_sessions a);
  ao_nonempty : Forall (fun g => sg_bindings g ≠ []) (ad_sessions a);
  ao_result : uv_result (ad_event a) = uv_result event;
  ao_required : uv_required (ad_event a) = uv_required event;
  ao_bindings : uv_channel_bindings (ad_event a) =
    if bool_decide (ad_sessions a = []) then uv_channel_bindings event else ad_sessions a ≫= sg_bindings;
  ao_none : ad_sessions a = [] -> pins = [] /\
    (serves_directly svc = true \/ uv_result event ≠ Verified \/ uv_channel_bindings event = []);
}.

Lemma wp_record event now h s (Q : result ServiceError (list SessionGroup) -> ghost -> Prop) :
  event_wf event -> g_held s ≡ₚ h ->
  (forall gs s', Forall faithful gs -> Forall (fun g => sg_bindings g ≠ []) gs ->
     (gs = [] -> serves_directly svc = true \/ uv_result event ≠ Verified \/ uv_channel_bindings event = []) ->
     g_held s' ≡ₚ leases gs ++ h -> same_but_held s s' -> Q (Ok gs) s') ->
  (forall e s', g_held s' ≡ₚ h -> same_but_held s s' -> Q (Err e) s') ->
  wps (record_attested_upstream_session svc event now) s Q.
Proof.
  intros He Hh Hok Herr. unfold record_attested_upstream_session.
  destruct (serves_directly svc || _) eqn:Hd; cbn [wp].
  { apply Hok; [constructor|constructor| |done|done]. intros _. apply orb_prop in Hd as [->|Hd]; [by left|].
    right; left. by apply bool_decide_eq_true in Hd. }
  apply wp_try. destruct (event_groups event) as [groups|e] eqn:Hg; cbn [wp]; [|by apply Herr].
  pose proof (fun key bindings => ew_known event He groups key bindings Hg) as Hk.
  apply event_groups_facts in Hg as [Hne Hnil].
  apply (wp_seal_groups event now groups [] h); [done|done|constructor|done| |done].
  intros gs s' Hgs Hkeys Hh' Hs'. cbn in Hkeys. apply Hok; [done| | |done|done].
  - rewrite <- Hkeys in Hne. rewrite Forall_fmap in Hne. exact Hne.
  - intros ->. cbn in Hkeys. right; right. by apply Hnil.
Qed.

Lemma wp_admit_sessions admitted_at sessions admitted bindings h s
    (Q : result ServiceError (list SessionGroup * list ChannelBinding) -> ghost -> Prop) :
  g_held s ≡ₚ leases admitted ++ leases sessions ++ h ->
  Forall (fun g => in_window admitted_at (sg_lease g) /\ pinned (sg_lease g)) admitted ->
  bindings = admitted ≫= sg_bindings ->
  (forall gs s', gs `sublist_of` admitted ++ sessions ->
     Forall (fun g => in_window admitted_at (sg_lease g) /\ pinned (sg_lease g)) gs ->
     (pins = [] -> gs = admitted ++ sessions) ->
     g_held s' ≡ₚ leases gs ++ h -> same_but_held s s' -> Q (Ok (gs, gs ≫= sg_bindings)) s') ->
  (forall e s', g_held s' ≡ₚ h -> same_but_held s s' -> Q (Err e) s') ->
  wps (admit_sessions pins admitted_at admitted bindings sessions) s Q.
Proof.
  revert admitted bindings s. induction sessions as [|g sessions IH]; intros admitted bindings s Hh Hadm -> Hok Herr;
    cbn [admit_sessions].
  - apply Hok; [by rewrite app_nil_r|done|by rewrite app_nil_r|by rewrite Hh|done].
  - destruct (bool_decide (pins = []) || _) eqn:Hp.
    + assert (pinned (sg_lease g)) as Hpin.
      { apply orb_prop in Hp as [Hp|Hp]; apply bool_decide_eq_true in Hp; [by left|by right]. }
      destruct (_ && _) eqn:Hw.
      * apply IH; [| | | |done].
        -- unfold leases. rewrite fmap_app, <- app_assoc. exact Hh.
        -- apply Forall_app. split; [done|]. apply Forall_singleton. split; [|done]. unfold in_window. lia.
        -- by rewrite bind_app, bind_singleton.
        -- intros gs s' H2 H3 H4 H5 H6. rewrite <- app_assoc in H2, H4. by apply Hok.
      * apply wp_bind, (wp_drop_groups (g :: sessions) (leases admitted ++ h)).
        { rewrite Hh. unfold leases. cbn. solve_Permutation. }
        intros s1 Hh1 Hs1. apply wp_bind, (wp_drop_groups admitted h); [done|]. intros s2 Hh2 Hs2.
        apply Herr; [done|]. unfold same_but_held in *. intuition congruence.
    + apply wp_bind, (wp_drop_lease _ (leases admitted ++ leases sessions ++ h)); [rewrite Hh; cbn; solve_Permutation|].
      intros s1 Hh1 Hs1. apply IH; [done|done|done| |].
      * intros gs s' H2 H3 H4 H5 H6. apply Hok; [|done| |done|].
        -- etransitivity; [exact H2|]. apply sublist_app; [done|]. by constructor.
        -- intros Hpn. rewrite Hpn in Hp. done.
        -- unfold same_but_held in *. intuition congruence.
      * intros e s' Hh' Hs'. apply Herr; [done|]. unfold same_but_held in *. intuition congruence.
Qed.

Lemma Forall_sub {A} (P : A -> Prop) l1 l2 : l1 `sublist_of` l2 -> Forall P l2 -> Forall P l1.
Proof. rewrite !Forall_forall. intros Hs HF x Hx. by apply HF, (sublist_subseteq _ _ Hs). Qed.
Definition same_forwards (s s' : ghost) : Prop :=
  g_sent s' = g_sent s /\ g_log s' = g_log s.

Lemma wp_early_keyset has_journal admitted_at s (Q : bool -> ghost -> Prop) :
  (forall b, Q b s) -> wps (early_keyset_expired has_journal admitted_at) s Q.
Proof.
  intros HQ. unfold early_keyset_expired. destruct has_journal; [|apply HQ].
  apply wp_bind, wp_call; [done|]. intros k s' ->. apply HQ.
Qed.

Lemma wp_admit event model has_journal h s (Q : result ServiceError AdmittedUpstream -> ghost -> Prop) :
  event_wf event -> g_held s ≡ₚ h ->
  (forall a s', admission_ok event a -> g_held s' ≡ₚ owned a ++ h -> g_now s' = ad_admitted_at a ->
     same_forwards s s' -> Q (Ok a) s') ->
  (forall e s', g_held s' ≡ₚ h -> same_forwards s s' -> Q (Err e) s') ->
  wps (admit_upstream svc event pins model has_journal) s Q.
Proof.
  intros He Hh Hok Herr. unfold admit_upstream.
  apply wp_bind, wp_call; [done|]. intros now s0 ->. apply wp_try.
  apply (wp_record event now h); [done|done| |].
  2: { intros e s' Hh' (_ & Hf & Ho). by apply Herr. }
  intros sessions s1 Hfaith Hne Hnil Hh1 (_ & Hf1 & Ho1). cbn in Hf1, Ho1.
  apply wp_bind, wp_call; [done|]. intros admitted_at s2 ->. apply wp_bind, wp_early_keyset. intros expired.
  destruct expired.
  { apply wp_bind, (wp_drop_groups sessions h); [exact Hh1|]. intros s3 Hh3 (_ & Hf3 & Ho3).
    apply Herr; [done|]. cbn in *. split; congruence. }
  apply wp_try. apply (wp_admit_sessions admitted_at sessions [] [] h); [exact Hh1|constructor|done| |].
  2: { intros e s' Hh' (_ & Hf & Ho). apply Herr; [done|]. cbn in *. split; congruence. }
  intros gs s3 Hsub Hval Hall Hh3 (Hn3 & Hf3 & Ho3). cbn in Hsub, Hall, Hn3, Hf3, Ho3.
  destruct (_ && _) eqn:Hrefuse.
  { apply andb_prop in Hrefuse as [_ ->%bool_decide_eq_true]. apply Herr; [by rewrite Hh3|]. split; congruence. }
  cbn [wp]. apply Hok; [|done|done|split; congruence]. split; cbn [ad_sessions ad_event ad_admitted_at].
  - eapply Forall_sub; [exact Hsub|done].
  - done.
  - eapply Forall_sub; [exact Hsub|done].
  - by destruct gs.
  - by destruct gs.
  - by destruct gs.
  - intros Hg. assert (pins = []) as Hp.
    { destruct (decide (pins = [])) as [|Hp]; [done|]. exfalso.
      rewrite bool_decide_eq_true_2, bool_decide_eq_true_2 in Hrefuse by done. done. }
    split; [done|]. apply Hnil. by rewrite <- Hall.
Qed.

(** ** The verification gate *)
(** What the gate has established of an event for a prepared request. *)
Definition gated (p : PreparedUpstreamRequest) (e : UpstreamVerifiedEvent) : Prop :=
  required || needs_binding p = true ->
  uv_result e = Verified /\ uv_required e = true /\ uv_channel_bindings e ≠ [].

Lemma event_groups_required e b : event_groups (with_required e b) = event_groups e.
Proof.
  unfold event_groups. cbn. destruct (is_multi_instance _); [|done].
  generalize (∅ : gmap string ChannelBinding). induction (uv_channel_bindings e) as [|c bs IH]; intros m; cbn; [done|].
  change (instance_id (with_required e b) c) with (instance_id e c).
  destruct (instance_id e c) as [id|]; [|done]. case_bool_decide; [done|]. by destruct (m !! id); rewrite IH.
Qed.
Lemma event_wf_required e b : event_wf e -> event_wf (with_required e b).
Proof.
  intros [H1 H2 H3]. split; [done|done|]. intros groups key bindings. rewrite event_groups_required. by apply H3.
Qed.
Lemma fail_closed_gate_ok p vr verified e : vr = required || needs_binding p ->
  (forall e, verified = Some e -> event_wf e) -> fail_closed_gate p vr verified = Ok e -> event_wf e /\ gated p e.
Proof.
  intros Hvr Hwf. unfold fail_closed_gate. set (event := from_option _ _ _).
  assert (event_wf event) as Hev.
  { subst event. destruct verified; cbn; [by apply event_wf_required, Hwf|].
    split; try done. intros groups key bindings. unfold event_groups. cbn. destruct (is_multi_instance _); cbn;
      intros [= <-]; by intros ?%not_elem_of_nil. }
  destruct vr.
  - case_bool_decide as Hv; [done|]. case_bool_decide as Hr; [done|]. case_bool_decide as Hb; [done|].
    intros [= <-]. split; [done|]. intros _. split; [|split; [|done]].
    + destruct (uv_result event); [done|]. by destruct Hr.
    + subst event. by destruct verified.
  - intros [= <-]. split; [done|]. intros Hg. congruence.
Qed.
Lemma wp_recorded_event p supplied s (Q : result ServiceError UpstreamVerifiedEvent -> ghost -> Prop) :
  (forall e, supplied = Some e -> event_wf e) ->
  (forall e, event_wf e -> gated p e -> Q (Ok e) s) -> (forall e, Q (Err e) s) ->
  wps (recorded_upstream_event has_verifier p required supplied) s Q.
Proof.
  intros Hsup Hok Herr. unfold recorded_upstream_event. apply wp_bind.
  assert (forall vr verified, vr = required || needs_binding p -> (forall e, verified = Some e -> event_wf e) ->
    Q (fail_closed_gate p vr verified) s) as Hgate.
  { intros vr verified Hvr Hwf. destruct (fail_closed_gate p vr verified) as [e|e] eqn:Hg; [|apply Herr].
    by destruct (fail_closed_gate_ok _ _ _ _ Hvr Hwf Hg); apply Hok. }
  assert (forall vr, vr = required || needs_binding p ->
    wps (verified ← match supplied with
           | Some event => Ret (Some event)
           | None => if has_verifier then event ← call (Verify (upstream_verification_request p vr)); Ret (Some event)
                     else Ret None
           end; Ret (fail_closed_gate p vr verified)) s Q) as Hrest.
  { intros vr Hvr. apply wp_bind. destruct supplied as [e|]; [by apply Hgate|].
    destruct has_verifier; [|by apply Hgate].
    apply wp_bind, wp_call; [done|]. intros e s' [He ->]. apply Hgate; [done|]. by intros ? [= <-]. }
  destruct required; [by apply Hrest|]. apply wp_call; [done|]. intros b s' [-> ->]. by apply Hrest.
Qed.

(** ** Forwarding *)
Lemma faithful_bindings gs : Forall faithful gs ->
  gs ≫= sg_bindings = leases gs ≫= lease_bindings.
Proof. induction 1 as [|g gs Hg HF IH]; [done|]. cbn. by rewrite Hg, IH. Qed.
Lemma admission_may_forward event a p h s :
  admission_ok event a -> gated p event -> (required = true -> pr_is_tee p = Some true) ->
  g_held s ≡ₚ owned a ++ h -> g_now s = ad_admitted_at a -> may_forward s p (ad_event a).
Proof.
  intros [Hf Hv Hne Hr Hq Hb Hn] Hg Ht Hh Hnow.
  assert (ad_sessions a ≠ [] -> uv_channel_bindings (ad_event a) ≠ []) as Hsome.
  { intros Hs. rewrite Hb, bool_decide_eq_false_2 by done. destruct (ad_sessions a) as [|g gs]; [done|].
    inversion Hne; subst. cbn. by destruct (sg_bindings g). }
  split; [|split; [done|]].
  - intros (H1 & H2 & H3)%Hg. rewrite Hr, Hq. split; [done|]. split; [done|].
    destruct (decide (ad_sessions a = [])) as [Hs|Hs]; [|auto]. by rewrite Hb, bool_decide_eq_true_2.
  - intros Hneed. assert (ad_sessions a ≠ []) as Hs.
    { intros Hs. destruct (Hn Hs) as [Hp Hor]. destruct Hneed as [?|(Hd & Hver & Hbs)]; [done|].
      rewrite Hr in Hver. rewrite Hb, bool_decide_eq_true_2 in Hbs by done. destruct Hor as [?|[?|?]]; congruence. }
    exists (owned a). split; [by intros ?%fmap_nil_inv|]. split; [rewrite Hh; by apply submseteq_inserts_r|]. split.
    + apply Forall_fmap. by rewrite Hnow.
    + rewrite Hb, bool_decide_eq_false_2 by done. by apply faithful_bindings.
Qed.

(** An answer whose body was withheld names no instance, so no session is cited. *)
Definition delivered (a a' : AdmittedUpstream) : Prop :=
  a' = a \/ (ad_requires_instance a = true /\ ad_sessions a' = [] /\ ad_requires_instance a' = false /\
    ad_admitted_at a' = ad_admitted_at a /\ uv_result (ad_event a') = Failed /\
    uv_required (ad_event a') = uv_required (ad_event a)).
Lemma wp_withheld a h s (Q : AdmittedUpstream -> ghost -> Prop) :
  g_held s ≡ₚ owned a ++ h ->
  (forall a' s', delivered a a' -> g_held s' ≡ₚ owned a' ++ h -> same_but_held s s' -> Q a' s') ->
  wps (withheld_without_instance a) s Q.
Proof.
  intros Hh HQ. unfold withheld_without_instance. destruct (ad_requires_instance a) eqn:Hr.
  - apply wp_bind, (wp_drop_groups _ h); [done|]. intros s' Hh' Hs'. apply HQ; [|done|done]. by right.
  - apply HQ; [by left|done|done].
Qed.

Class Forwards {R} (forward : PreparedUpstreamRequest -> UpstreamVerifiedEvent -> ServiceE (result UpstreamError R)) := {
  forwards_allowed p e s : may_forward s p e -> allowed s _ (forward p e);
  forwards_moves p e s r s' : moves s _ (forward p e) r s' -> s' = forwarded_to p e s;
}.
#[export] Instance forwards_buffered : Forwards ForwardVerified.
Proof. by split. Qed.
#[export] Instance forwards_stream : Forwards ForwardStreamVerified.
Proof. by split. Qed.

Lemma wp_invalidate p vr s (Q : unit -> ghost -> Prop) : Q () s -> wps (invalidate_upstream_event has_verifier p vr) s Q.
Proof.
  intros HQ. unfold invalidate_upstream_event. destruct has_verifier; [|done]. apply wp_call; [done|]. by intros [] s' ->.
Qed.

Section Reverify.
Context {R : Type} (withheld : Z -> R).
Context (forward : PreparedUpstreamRequest -> UpstreamVerifiedEvent -> ServiceE (result UpstreamError R)).
Context `{!Forwards forward} (p : PreparedUpstreamRequest) (caller_supplied has_journal always : bool).
Context (tee : required = true -> pr_is_tee p = Some true).

Lemma wp_forward_failed err a h s (Q : ReverifyOutcome R -> ghost -> Prop) :
  g_held s ≡ₚ owned a ++ h ->
  (forall s', g_held s' ≡ₚ h -> same_but_held s s' -> Q (ForwardFailed R err) s') ->
  wps (forward_failed has_verifier p required caller_supplied always err a) s Q.
Proof.
  intros Hh HQ. unfold forward_failed. apply wp_bind.
  assert (wps (_ ← drop_admission a; Ret (ForwardFailed R err)) s Q) as Hrest.
  { apply wp_bind, (wp_drop_groups _ h); [done|]. intros s' Hh' Hs'. by apply HQ. }
  destruct (_ && _); [by apply wp_invalidate|done].
Qed.

Lemma wp_reverify left event a h s (Q : ReverifyOutcome R -> ghost -> Prop) :
  admission_ok event a -> gated p event -> g_held s ≡ₚ owned a ++ h -> g_now s = ad_admitted_at a ->
  (forall r event' a0 a' s', admission_ok event' a0 -> gated p event' -> delivered a0 a' ->
     g_held s' ≡ₚ owned a' ++ h -> head (g_sent s') = Some (p, ad_event a0) -> sent_more p (S left) s s' -> g_log s' = g_log s ->
     Q (Forwarded R r a') s') ->
  (forall e s', g_held s' ≡ₚ h -> sent_more p (S left) s s' -> g_log s' = g_log s -> Q (RefreshFailed R e) s') ->
  (forall e s', g_held s' ≡ₚ h -> sent_more p (S left) s s' -> g_log s' = g_log s -> Q (ForwardFailed R e) s') ->
  wps (reverify_loop svc has_verifier withheld forward p required caller_supplied pins has_journal always left a) s Q.
Proof.
  revert event a s. induction left as [|left IH]; intros event a s Ha Hg Hh Hnow Hok Href Hfail;
    cbn [reverify_loop]; apply wp_bind, wp_call; try (by apply forwards_allowed; eapply admission_may_forward);
    intros answer s1 ->%forwards_moves.
  all: destruct answer as [r|err]; [apply (Hok r event a a); try done; [by left|by eapply sent_one, eq_refl]|].
  all: destruct (withheld_status err) as [status|];
    [apply wp_bind, (wp_withheld a h); [done|]; intros a' s2 Hd Hh2 (_ & Hf2 & Ho2);
     apply (Hok _ event a a'); [done..|by rewrite Hf2|eapply sent_one, Hf2|by rewrite Ho2]|].
  - apply (wp_forward_failed _ _ h); [done|]. intros s2 Hh2 (_ & Hf2 & Ho2).
    apply Hfail; [done|eapply sent_one, Hf2|by rewrite Ho2].
  - destruct (_ && _).
    + apply wp_bind, (wp_drop_groups _ h); [done|]. intros s2 Hh2 (_ & Hf2 & Ho2). cbn in Ho2.
      assert (sent_more p 1 s s2) as Hone by eapply sent_one, Hf2.
      apply wp_bind. unfold refresh_upstream_event. apply wp_bind, wp_invalidate, wp_recorded_event; [done| |].
      * intros ev Hev Hgev. apply wp_bind, (wp_admit _ _ _ h); [done|done| |].
        -- intros a2 s3 Ha2 Hh3 Hn3 (Hf3 & Ho3).
           assert (forall s', sent_more p (S left) s3 s' -> sent_more p (S (S left)) s s') as Hmore.
           { intros s' Hs'. apply (sent_trans p 1 (S left) _ s2); [done|]. by eapply sent_ext; [exact Hf3|done|]. }
           apply (IH ev); [done..| | |].
           ++ intros r event' a0 a' s4 H1 H2 H3 H4 H5 H6 H7. apply (Hok r event' a0 a'); try done; [auto|congruence].
           ++ intros e s4 H1 H2 H3. apply Href; [done|auto|congruence].
           ++ intros e s4 H1 H2 H3. apply Hfail; [done|auto|congruence].
        -- intros e s3 Hh3 (Hf3 & Ho3). apply Href; [done| |congruence].
           eapply (sent_ext p _ s s s2 s3); [done|done|]. by apply (sent_trans p 1 (S left) _ s2); [|apply sent_none].
      * intros e. apply Href; [done| |done]. by apply (sent_trans p 1 (S left) _ s2); [|apply sent_none].
    + apply (wp_forward_failed _ _ h); [done|]. intros s2 Hh2 (_ & Hf2 & Ho2).
    apply Hfail; [done|eapply sent_one, Hf2|by rewrite Ho2].
Qed.
End Reverify.

(** ** Selection *)
Lemma swap_remove_perm {A} i (l : list A) x : l !! i = Some x -> l ≡ₚ x :: swap_remove i l.
Proof.
  intros Hx. destruct (exists_last (l := l)) as (l' & y & ->); [by intros ->|].
  unfold swap_remove. rewrite last_snoc, removelast_last, length_app. cbn. replace (pred (length l' + 1)) with (length l') by lia.
  destruct (Nat.eqb_spec i (length l')) as [->|Hne].
  - rewrite list_lookup_middle in Hx by done. injection Hx as ->. by rewrite Permutation_app_comm.
  - rewrite lookup_app in Hx. destruct (l' !! i) as [z|] eqn:Hz.
    + injection Hx as ->. rewrite insert_take_drop by by eapply lookup_lt_Some.
      rewrite <- (take_drop_middle l' i x Hz) at 1. solve_Permutation.
    + apply lookup_ge_None in Hz. destruct (i - length l') as [|k] eqn:Hk; [lia|]. by destruct k.
Qed.

Lemma wp_select a served h s (Q : result ServiceError SelectedUpstream -> ghost -> Prop) :
  g_held s ≡ₚ owned a ++ h ->
  (forall sel s', sel_event sel = ad_event a -> sel_admitted_at sel = ad_admitted_at a ->
     (match sel_lease sel with Some l => l ∈ owned a | None => ad_sessions a = [] end) ->
     (ad_requires_instance a = true -> exists id g, served = Some id /\ g ∈ ad_sessions a /\
        sg_instance_key g = Some id /\ sel_lease sel = Some (sg_lease g)) ->
     g_held s' ≡ₚ option_list (sel_lease sel) ++ h -> same_but_held s s' -> Q (Ok sel) s') ->
  (forall e s', g_held s' ≡ₚ h -> same_but_held s s' -> Q (Err e) s') ->
  wps (select a served) s Q.
Proof.
  intros Hh Hok Herr. unfold select.
  assert (forall detail, wps (_ ← drop_admission a; Ret (Err (AdmissionInvariant detail))) s Q) as Hrefuse.
  { intros detail. apply wp_bind, (wp_drop_groups _ h); [done|]. intros s' Hh' Hs'. by apply Herr. }
  destruct (ad_requires_instance a) eqn:Hr.
  - destruct served as [id|]; [|apply Hrefuse].
    destruct (list_find _ _) as [[i g]|] eqn:Hfind; [|apply Hrefuse].
    apply list_find_Some in Hfind as (Hi & Hid & _). apply bool_decide_eq_true in Hid.
    apply wp_bind, (wp_drop_groups _ (sg_lease g :: h)).
    { rewrite Hh. unfold owned, leases. rewrite (swap_remove_perm _ _ _ Hi) at 1. cbn. solve_Permutation. }
    intros s' Hh' Hs'. apply Hok; try done.
    + cbn. apply list_elem_of_fmap. exists g. split; [done|]. by eapply list_elem_of_lookup_2.
    + intros _. exists id, g. split; [done|]. split; [by eapply list_elem_of_lookup_2|done].
  - apply wp_bind, (wp_drop_groups _ (option_list (sg_lease <$> last (ad_sessions a)) ++ h)).
    { rewrite Hh. unfold owned. destruct (decide (ad_sessions a = [])) as [->|Hne]; [done|].
      destruct (exists_last Hne) as (l' & y & ->). rewrite removelast_last, last_snoc. unfold leases. rewrite fmap_app. cbn.
      solve_Permutation. }
    intros s' Hh' Hs'. apply Hok; try done. cbn.
    destruct (decide (ad_sessions a = [])) as [->|Hne]; [done|]. destruct (exists_last Hne) as (l' & y & Hl).
    unfold owned, leases. rewrite Hl, last_snoc, fmap_app. cbn. set_solver.
Qed.
End Gate.
