(* ===== verification/Leases.v ===== *)
(** * The session store keeps the forwarding protocol (src/aggregator/service/session_store.rs, forward.rs)

    [Gate] asks of the session store that a lease acquired for a fingerprint is on a
    session sealed for material with that fingerprint, with the session's own window
    of validity.  The in-memory store does that, whatever the history of lookups,
    acquisitions, extensions and evictions: a fingerprint is only ever mapped to an id
    whose session was sealed for it, and an id stands for one document. *)
From S2P Require Import Prelude Json External Sample Digest Identity Receipt RelyingParty Session SessionStore.
From S2P Require Import Deadlines Upstream Claims Attestation Admission Fingerprint Gate.

Section Leases.
Context {SH : Sha} {HX : HexCodec} {B64 : Base64} {SJ : SerdeJson} {HD : HashDomain}.
(** A session of every id that was sealed. *)
Context (session_of : string -> AttestedSession).
Context (session_of_ok : forall s, genuine s ->
  genuine (session_of (as_session_id s)) /\ as_session_id (session_of (as_session_id s)) = as_session_id s).

Definition sealed_for (fp : string) (d : SessionDocument) : Prop :=
  exists m, material_ok m /\ fingerprint m = Ok fp /\ cm_channel_binding m = sd_channel_binding d.
(** What a sealing closure may return for a fingerprint. *)
Definition seals_for (fp : string) (seal : unit -> result string AttestedSession) : Prop :=
  forall session, seal () = Ok session -> genuine session /\ sealed_for fp (as_document session).

Lemma genuine_bindings s1 s2 : genuine s1 -> genuine s2 -> as_session_id s1 = as_session_id s2 ->
  sd_channel_binding (as_document s1) = sd_channel_binding (as_document s2) /\
  sd_established_at (as_document s1) = sd_established_at (as_document s2) /\
  sd_expires_at (as_document s1) = sd_expires_at (as_document s2).
Proof.
  intros H1 H2 Hid. pose proof (genuine_same_doc s1 s2 H1 H2 Hid) as Hs.
  split; [|by destruct (same_doc_fields _ _ (ge_wf _ H1) (ge_wf _ H2) Hs)].
  apply (get_proper "channel_binding") in Hs.
  assert (forall d, get "channel_binding" (document_to_value d) =
    Some (JArray (channel_binding_to_value <$> sd_channel_binding d))) as Hg
    by (intros d; destruct d as [? ? ? ? ? ? [[]|] ? ? ?]; reflexivity).
  rewrite !Hg in Hs. inversion Hs; subst. by apply bindings_same_doc.
Qed.
Lemma session_of_same s : genuine s ->
  sd_channel_binding (as_document (session_of (as_session_id s))) = sd_channel_binding (as_document s) /\
  sd_established_at (as_document (session_of (as_session_id s))) = sd_established_at (as_document s) /\
  sd_expires_at (as_document (session_of (as_session_id s))) = sd_expires_at (as_document s).
Proof. intros Hg. destruct (session_of_ok s Hg) as [Hg' Hid]. by apply genuine_bindings. Qed.

Definition fingerprints_ok (x : SessionIndex) : Prop :=
  forall fp id, si_by_fingerprint x !! fp = Some id -> sealed_for fp (as_document (session_of id)).
Definition honest (s : StoreState) : Prop := state_ok s /\ fingerprints_ok (ss_index s).

(** Eviction and extension add no fingerprint. *)
Lemma evict_one_fingerprints held t x id : si_by_fingerprint (evict_one held t x id) ⊆ si_by_fingerprint x.
Proof.
  unfold evict_one. destruct (si_by_id x !! id) as [e|]; [|done]. destruct (held _); [done|]. cbn.
  case_bool_decide; [apply delete_subseteq|done].
Qed.
Lemma foldl_fingerprints {A} (f : SessionIndex -> A -> SessionIndex) l x :
  (forall x a, si_by_fingerprint (f x a) ⊆ si_by_fingerprint x) -> si_by_fingerprint (foldl f x l) ⊆ si_by_fingerprint x.
Proof. intros Hf. revert x. induction l as [|a l IH]; intros x; cbn; [done|]. etransitivity; [apply IH|apply Hf]. Qed.
Lemma evict_fingerprints held x now : si_by_fingerprint (evict_lapsed held x now) ⊆ si_by_fingerprint x.
Proof.
  apply foldl_fingerprints. intros x' t. unfold evict_bucket.
  etransitivity; [apply foldl_fingerprints; intros; apply evict_one_fingerprints|done].
Qed.
Lemma extend_fingerprints x l deadline x' : index_extend x l deadline = Ok x' -> si_by_fingerprint x' = si_by_fingerprint x.
Proof. unfold index_extend. destruct (ok_or _ _); [|done]. cbn. destruct (_ <? _)%Z; by intros [= <-]. Qed.
Lemma current_fingerprints held x fp ret now :
  si_by_fingerprint (index_current held x fp ret now).1 ⊆ si_by_fingerprint x.
Proof.
  unfold index_current. pose proof (evict_fingerprints held x now) as He. set (x1 := evict_lapsed held x now) in *.
  destruct (id ← _; _) as [[id e]|]; [|done]. destruct (_ <=? _)%Z; [done|]. destruct (index_lease x1 id) as [l|]; [|done].
  cbn. destruct (index_extend x1 l ret) as [x2|] eqn:Hx; [|done]. by rewrite (extend_fingerprints _ _ _ _ Hx).
Qed.
Lemma fingerprints_mono x x' : si_by_fingerprint x' ⊆ si_by_fingerprint x -> fingerprints_ok x -> fingerprints_ok x'.
Proof. intros Hs Hok fp id Hl. apply Hok. by apply (lookup_weaken _ _ _ _ Hl). Qed.

Lemma insert_fingerprints x fp session split ret :
  fingerprints_ok x -> genuine session -> split_new session = Ok split -> sealed_for fp (as_document session) ->
  fingerprints_ok (index_insert x fp split ret).
Proof.
  intros Hok Hg Hsp (m & Hm & Hf & Hb) fp' id. unfold index_insert. cbv zeta. cbn [si_by_fingerprint].
  assert (sp_session_id split = as_session_id session) as ->.
  { unfold split_new in Hsp. bind_inv Hsp. destruct a. by injection Hsp as <-. }
  intros [[<- <-]|[_ Hl]]%lookup_insert_Some; [|by apply Hok]. exists m. split; [done|]. split; [done|].
  destruct (session_of_same session Hg) as [-> _]. done.
Qed.

(** The entry of a lease is a genuine session with the lease's window. *)
Lemma lease_ok_window x l : index_ok x -> lease_ok x l ->
  le_established_at l = sd_established_at (lease_document session_of l) /\
  le_expires_at l = sd_expires_at (lease_document session_of l).
Proof.
  intros Hok (e & He & _ & H1 & H2). destruct (ii_entry _ x Hok _ _ He) as [(b & s & Hg & _ & Hid & _ & Hdoc) _].
  destruct (session_of_same s Hg) as (_ & H3 & H4). unfold lease_document. rewrite <- Hid, H3, H4, Hdoc. cbn. by rewrite H1, H2.
Qed.

(** The lease of an acquisition is held and its session's id is the fingerprint's. *)
Lemma current_or_seal_honest s fp ret now seal : honest s -> seals_for fp seal ->
  honest (current_or_seal s fp ret now seal).1 /\
  forall l, (current_or_seal s fp ret now seal).2 = Ok l -> lease_for session_of fp l.
Proof.
  intros [Hs Hf] Hseal. pose proof (so_index _ Hs) as Hi.
  destruct (current_or_seal_ok s fp ret now seal Hs) as [Hs' Hacq]; [intros session Hsl; by apply Hseal|].
  assert (fingerprints_ok (ss_index (current_or_seal s fp ret now seal).1) /\
    forall l, (current_or_seal s fp ret now seal).2 = Ok l -> sealed_for fp (lease_document session_of l)) as [Hf' Hl].
  { unfold current_or_seal. pose proof (current_fingerprints (held_by (ss_leases s)) (ss_index s) fp ret now) as Hcf.
    destruct (index_current_spec (held_by (ss_leases s)) (ss_index s) fp ret now Hi)
      as [(e & l & x2 & Hc & _ & Hfp & _)|Hc]; rewrite Hc in *; cbn [fst snd ss_index] in *.
    - split; [by eapply fingerprints_mono|]. intros l' [= <-]. apply Hf.
      apply (lookup_weaken _ _ _ _ Hfp), evict_fingerprints.
    - destruct (seal ()) as [session|err] eqn:Hsl; cbn [mbind result_bind]; [|split; [by eapply fingerprints_mono|done]].
      destruct (Hseal session Hsl) as [Hg Hfor].
      destruct (split_new session) as [sp|err] eqn:Hsp; [|split; [by eapply fingerprints_mono|done]].
      pose proof (insert_fingerprints _ fp session sp ret (fingerprints_mono _ _ Hcf Hf) Hg Hsp Hfor) as Hins.
      destruct (index_lease _ (sp_session_id sp)) as [l|] eqn:Hl; cbn [fst snd ss_index]; [|by split].
      split; [eapply fingerprints_mono; [apply evict_fingerprints|exact Hins]|]. intros l' [= <-]. apply Hins.
      unfold index_lease in Hl. destruct (_ !! _); [|done]. injection Hl as <-. cbn. by rewrite lookup_insert_eq. }
  split; [by split|]. intros l Hr. destruct (Hacq l Hr) as [Hin _].
  destruct (lease_ok_window _ l (so_index _ Hs') (so_leases _ Hs' l Hin)). by split_and!; [..|apply Hl].
Qed.

(** ** Histories *)
Inductive sealing_step (s : StoreState) : StoreState -> Prop :=
| sls_get id now : sealing_step s (get_session s id now).1
| sls_acquire fp ret now seal : seals_for fp seal -> sealing_step s (current_or_seal s fp ret now seal).1
| sls_extend l deadline : l ∈ ss_leases s -> sealing_step s (extend_retention s l deadline).1
| sls_clone l : l ∈ ss_leases s -> sealing_step s (clone_lease s l)
| sls_drop l : sealing_step s (drop_lease s l).

Lemma sealing_step_honest s s' : sealing_step s s' -> honest s -> honest s'.
Proof.
  intros Hstep Hh. pose proof Hh as [Hs Hf]. destruct Hstep as [id now|fp ret now seal Hseal|l d Hin|l Hin|l].
  - split; [by apply get_session_ok|]. unfold get_session, index_get. cbn.
    eapply fingerprints_mono; [apply evict_fingerprints|done].
  - by apply current_or_seal_honest.
  - destruct (extend_retention_ok s l d Hs Hin) as (e & x & _ & Hx & Hok & _). rewrite Hx. split; [done|]. cbn.
    unfold extend_retention in Hx. destruct (index_extend _ _ _) as [x'|] eqn:He; [|done]. injection Hx as <-.
    eapply fingerprints_mono, Hf. by rewrite (extend_fingerprints _ _ _ _ He).
  - destruct Hs as [Hok Hl]. split; [|done]. split; [done|]. cbn. intros l' [->|?]%elem_of_cons; auto.
  - destruct Hs as [Hok Hl]. split; [|done]. split; [done|]. cbn. intros l' ?%remove_first_elem; auto.
Qed.
Lemma empty_honest : honest (mkStoreState index_default []).
Proof.
  split; [|by intros fp id]. split; [|by intros l ?%elem_of_nil]. split; cbn; try done.
  intros t id. split; [by intros ?%hint_at_empty|by intros (e & ? & _)].
Qed.

(** The in-memory session store keeps the promise the forwarding gate relies on.
    After any history from an empty store, a lease acquired for a fingerprint (of a
    session found again or sealed now) carries the window of its session, and that
    session recorded exactly the channel bindings of material with this
    fingerprint. *)
Theorem leases_are_for_their_channel s fp ret now seal l :
  rtc sealing_step (mkStoreState index_default []) s -> seals_for fp seal ->
  (current_or_seal s fp ret now seal).2 = Ok l -> lease_for session_of fp l.
Proof.
  intros Hsteps Hseal Hr. assert (honest s) as Hh.
  { pose proof empty_honest as H0. induction Hsteps as [|s0 s1 s2 Hs _ IH]; [done|].
    apply IH; [done|]. by apply (sealing_step_honest s0). }
  by apply (current_or_seal_honest s fp ret now seal Hh Hseal).
Qed.

(** What [seal_attested_session] passes to the store satisfies the precondition. *)
Lemma service_seals_for event key bindings now expires_at fp :
  let seal := session_seal (session_document event (identity_from_provider_claims event) bindings (group_claims event key) now expires_at) in
  event_wf event -> known_material (group_material event key bindings) ->
  fingerprint (group_material event key bindings) = Ok fp ->
  (forall session, seal = Ok session -> genuine session) ->
  seals_for fp (fun _ => map_err session_error_display seal).
Proof.
  intros seal He Hk Hfp Hg session Hs. apply map_err_Ok in Hs. split; [auto|].
  exists (group_material event key bindings). split; [by apply session_material_ok|]. split; [done|].
  assert (as_document session = session_document event (identity_from_provider_claims event) bindings
    (group_claims event key) now expires_at) as ->; [|done].
  unfold seal, session_seal in Hs. bind_inv Hs. by injection Hs as <-.
Qed.
End Leases.

(** *** Witness: a session sealed, then found again. *)
#[local] Existing Instances sample_sha sample_hex sample_base64 sample_json.
Definition sample_channel_event : UpstreamVerifiedEvent :=
  mkUpstreamVerifiedEvent None "upstream-a" None "m" (Some "https://u.example") "verifier/1" Verified true None
    None [TlsSpkiSha256 "https://u.example" "00"] None None.
Definition sample_channel : ChannelMaterial :=
  group_material sample_channel_event None [TlsSpkiSha256 "https://u.example" "00"].
Definition sample_channel_bytes : bytes := default [] (result_ok (jcs_bytes (material_to_value sample_channel))).
Lemma sample_channel_free : collision_free (sample_channel_bytes :: sample_hashes) = true.
Proof. vm_compute. reflexivity. Qed.
#[local] Instance sample_channel_domain : HashDomain := list_domain (sample_channel_bytes :: sample_hashes) sample_channel_free.

Lemma sample_channel_known : known_material sample_channel.
Proof. intros b Hb. change (b ∈ sample_channel_bytes :: sample_hashes). unfold sample_channel_bytes. rewrite Hb. left. Qed.
Lemma sample_channel_wf : event_wf sample_channel_event.
Proof.
  split; [done|done|]. intros groups key bindings. vm_compute event_groups. intros [= <-] [[= -> ->]|Hn]%elem_of_cons;
    [exact sample_channel_known|by apply not_elem_of_nil in Hn].
Qed.
Definition sample_channel_fp : string := default "" (result_ok (fingerprint sample_channel)).
Lemma sample_seals_for : seals_for sample_channel_fp sample_seal.
Proof.
  intros session [= <-]. split; [apply sample_genuine_in; [right; left|right; right; left]|].
  exists sample_channel. split; [apply session_material_ok; [exact sample_channel_wf|exact sample_channel_known]|].
  split; vm_compute; reflexivity.
Qed.
Definition sample_of (id : string) : AttestedSession := sample_session "https://u.example" 5 9.
Lemma sample_of_ok s : genuine s ->
  genuine (sample_of (as_session_id s)) /\ as_session_id (sample_of (as_session_id s)) = as_session_id s.
Proof.
  intros Hg. split; [apply sample_genuine_in; [right; left|right; right; left]|].
  destruct (genuine_bytes s Hg) as [Hj ->]. unfold sample_of.
  assert (as_session_id (sample_session "https://u.example" 5 9) =
    sha256_bare_hex (as_bytes_ (sample_session "https://u.example" 5 9))) as -> by (vm_compute; reflexivity).
  f_equal. pose proof (document_to_value_wf _ (ge_wf _ Hg)) as Hwf.
  pose proof (ge_hashed _ Hg) as [Hs|[Hs|[Hs|Hs]%elem_of_cons]%elem_of_cons]%elem_of_cons.
  - exfalso. rewrite Hs in Hj.
    assert (jcs_bytes (material_to_value sample_channel) = Ok sample_channel_bytes) as Hc by (vm_compute; reflexivity).
    destruct (session_material_ok sample_channel_event None _ sample_channel_wf sample_channel_known) as [Hw Hd _].
    pose proof (jcs_same_doc _ _ _ Hwf Hw (ge_depth _ Hg) Hd Hj Hc) as Hsame.
    apply (get_str_proper "api_version") in Hsame. vm_compute in Hsame. discriminate Hsame.
  - symmetry. exact Hs.
  - exfalso. rewrite Hs in Hj. unfold jcs_bytes in Hj. destruct (sorted _) as [c|] eqn:Hc; [|discriminate Hj].
    pose proof (f_equal (fun r => default [] (result_ok r)) Hj) as Hv. change (to_vec c = as_bytes "bundle") in Hv.
    pose proof (canonical_parse _ _ Hwf (ge_depth _ Hg) Hc) as Hp. rewrite Hv in Hp.
    vm_compute in Hp. discriminate Hp.
  - by apply not_elem_of_nil in Hs.
Qed.
Definition sample_acquired : StoreState := (current_or_seal sample_store0 sample_channel_fp 20 6 sample_seal).1.

Lemma leases_are_for_their_channel_witness : exists l,
  (current_or_seal sample_acquired sample_channel_fp 30 7 (fun _ => Err "not sealed again")).2 = Ok l /\
  lease_for sample_of sample_channel_fp l.
Proof.
  assert (Hok : is_ok (current_or_seal sample_acquired sample_channel_fp 30 7 (fun _ => Err "not sealed again")).2 = true)
    by (vm_compute; reflexivity).
  destruct (current_or_seal sample_acquired sample_channel_fp 30 7 (fun _ => Err "not sealed again")).2 as [l|] eqn:Hl;
    [|discriminate Hok].
  exists l. split; [reflexivity|].
  apply (leases_are_for_their_channel sample_of sample_of_ok sample_acquired sample_channel_fp 30 7
    (fun _ => Err "not sealed again") l); [|by intros session Hs|exact Hl].
  apply rtc_once, (sls_acquire sample_store0 sample_channel_fp 20 6 sample_seal), sample_seals_for.
Defined.
