(* ===== verification/E2ee.v ===== *)
(** * End-to-end encryption (src/aggregator/service/e2ee_crypto.rs, e2ee.rs, wire.rs)

    Requests may carry their sensitive fields encrypted to a key of the keyset, and
    get the response's fields encrypted to the client's key.  The file models the
    request headers' checks, the replay cache, the traversal that decrypts every
    field in place, the associated data that binds a field to its place, and the
    encryption of buffered and streamed responses.  A function that draws random
    numbers takes the supply and the number of draws made before. *)
From S2P Require Import Prelude Text Json External Sample Digest Identity Receipt Errors E2eeCipher Provider.

Definition CHAT_COMPLETIONS_PATH : string := "/v1/chat/completions".
Definition COMPLETIONS_PATH : string := "/v1/completions".
Definition EMBEDDINGS_PATH : string := "/v1/embeddings".

(** ** wire.rs *)
Record E2eeRequestParts : Type := mkE2eeRequestParts {
  rp_signing_algo : option string;
  rp_client_public_key : option string;
  rp_model_public_key : option string;
  rp_version : option string;
  rp_nonce : option string;
  rp_timestamp : option string;
}.
Inductive E2eeAadMode : Type := AciV2 | LegacyV1.
Definition is_aci (m : E2eeAadMode) : bool := match m with AciV2 => true | LegacyV1 => false end.

Record E2eeContext : Type := mkE2eeContext {
  ec_version : string;
  ec_algo : string;
  ec_aad_mode : E2eeAadMode;
  ec_request_model : string;
  ec_client_public_key_hex : string;
  ec_nonce : option string;
  ec_timestamp : option Z;
}.
Record E2eePreparedRequest : Type := mkE2eePrepared {
  pr_decrypted_body : bytes;
  pr_context : E2eeContext;
}.
Inductive E2eeDecryptor : Type :=
| DecryptAciV2 (key_id : string)
| DecryptLegacy (signing_algo : string).

Record E2eeFieldCrypto : Type := mkFieldCrypto {
  fc_decryptor : E2eeDecryptor;
  fc_algo : string;
  fc_aad_mode : E2eeAadMode;
  fc_model : string;
  fc_nonce : option string;
  fc_timestamp : option Z;
}.

(** ** Header checks *)
Definition validate_aci_e2ee_nonce (nonce : string) : result E2eeError unit :=
  if bool_decide (str_len nonce = 64) && all_bytes is_ascii_hexdigit nonce then Ok () else Err E2eeInvalidNonce.

Definition validate_aci_payload_model (payload : value) : result E2eeError string :=
  ok_or InvalidPayloadModel (get_str "model" payload).

Definition is_sse_content_type (content_type : option string) : bool :=
  match content_type with
  | Some v =>
      match split_bytes (fun c => bool_decide (c = u8 59)) (as_bytes v) with
      | first :: _ => eq_ignore_ascii_case (trim (of_bytes first)) "text/event-stream"
      | [] => false
      end
  | None => false
  end.

(** [iter_mut().enumerate()] with an early return: the new items and the sum of
    what the steps report. *)
Fixpoint update_items {E} (f : nat -> value -> result E (value * nat)) (i : nat) (l : list value) :
    result E (list value * nat) :=
  match l with
  | [] => Ok ([], 0)
  | x :: l' =>
      '(x', n) ← f i x;
      '(l'', m) ← update_items f (S i) l';
      Ok (x' :: l'', n + m)
  end.

Section Crypto.
Context {SH : Sha} {HX : HexCodec} {SJ : SerdeJson} {CC : CurveCrypto} {EP : E2eeKeyProvider}.

Definition normalize_ed25519_public_key_hex (v : string) : result E2eeError string :=
  match hex_decode (strip_0x v) with
  | Err _ => Err InvalidPublicKey
  | Ok b => if bool_decide (length b = 32) then Ok (hex_encode b) else Err InvalidPublicKey
  end.

Definition legacy_public_keys_match (signing_algo expected_hex supplied_hex : string) : bool :=
  if bool_decide (signing_algo = E2EE_ALGO_LEGACY_ECDSA) then
    match normalize_secp256k1_public_key_hex expected_hex, normalize_secp256k1_public_key_hex supplied_hex with
    | Ok expected, Ok supplied => bool_decide (supplied = expected)
    | _, _ => false
    end
  else if bool_decide (signing_algo = E2EE_ALGO_LEGACY_ED25519) then
    match normalize_ed25519_public_key_hex expected_hex, normalize_ed25519_public_key_hex supplied_hex with
    | Ok expected, Ok supplied => bool_decide (supplied = expected)
    | _, _ => false
    end
  else false.

Definition normalize_legacy_public_key_for_replay (signing_algo v : string) : result E2eeError string :=
  if bool_decide (signing_algo = E2EE_ALGO_LEGACY_ECDSA) then
    map_err (fun _ => InvalidPublicKey) (normalize_secp256k1_public_key_hex v)
  else if bool_decide (signing_algo = E2EE_ALGO_LEGACY_ED25519) then
    map_err (fun _ => InvalidPublicKey) (normalize_ed25519_public_key_hex v)
  else Err InvalidSigningAlgo.

(** ** Associated data *)
Definition request_aad_document (algo model field nonce : string) (timestamp : Z) : value :=
  JObject [("purpose", JString "aci.e2ee.request.v2"); ("algo", JString algo); ("model", JString model);
    ("field", JString field); ("nonce", JString nonce); ("ts", JNumber (PosInt timestamp))].
Definition aci_request_aad (algo model field nonce : string) (timestamp : Z) : result E2eeError bytes :=
  map_err (fun _ => DecryptionFailed) (jcs_bytes (request_aad_document algo model field nonce timestamp)).

Definition response_aad_document (algo model response_id field nonce : string) (timestamp : Z) : value :=
  JObject [("purpose", JString "aci.e2ee.response.v2"); ("algo", JString algo); ("model", JString model);
    ("id", JString response_id); ("field", JString field); ("nonce", JString nonce);
    ("ts", JNumber (PosInt timestamp))].
Definition aci_response_aad (algo model response_id field nonce : string) (timestamp : Z) : result E2eeError bytes :=
  map_err (fun _ => EncryptionFailed) (jcs_bytes (response_aad_document algo model response_id field nonce timestamp)).

(** ** Decrypting a request *)
Definition nonce_ts (c : E2eeFieldCrypto) : result E2eeError (string * Z) :=
  nonce ← ok_or DecryptionFailed (fc_nonce c);
  timestamp ← ok_or DecryptionFailed (fc_timestamp c);
  Ok (nonce, timestamp).

Definition request_field_aad (c : E2eeFieldCrypto) (field : string) : result E2eeError (option bytes) :=
  match fc_aad_mode c with
  | AciV2 =>
      '(nonce, timestamp) ← nonce_ts c;
      aad ← aci_request_aad (fc_algo c) (fc_model c) field nonce timestamp;
      Ok (Some aad)
  | LegacyV1 => Ok None
  end.

Definition decrypt_e2ee_field (c : E2eeFieldCrypto) (ciphertext_hex : string) (aad : option bytes) :
    result E2eeError bytes :=
  match fc_decryptor c with
  | DecryptAciV2 key_id =>
      aad ← ok_or DecryptionFailed aad;
      map_err (fun _ => DecryptionFailed) (decrypt_e2ee key_id ciphertext_hex aad)
  | DecryptLegacy signing_algo =>
      map_err (fun _ => DecryptionFailed) (decrypt_legacy_e2ee signing_algo ciphertext_hex aad)
  end.

(** The steps every location repeats: associated data, decryption,
    [String::from_utf8]. *)
Definition decrypt_text (c : E2eeFieldCrypto) (field ciphertext_hex : string) : result E2eeError string :=
  aad ← request_field_aad c field;
  plaintext ← decrypt_e2ee_field c ciphertext_hex aad;
  if is_utf8 plaintext then Ok (of_bytes plaintext) else Err DecryptionFailed.

Definition decrypted_chat_content_value (plaintext : string) : value :=
  match from_slice (as_bytes plaintext) with
  | Ok (JArray items) => JArray items
  | _ => JString plaintext
  end.

(** A string, or an array whose strings are encrypted one by one. *)
Definition decrypt_string_or_items (c : E2eeFieldCrypto) (name : string) (v : value) :
    result E2eeError (value * nat) :=
  match v with
  | JString ciphertext_hex =>
      plaintext ← decrypt_text c name ciphertext_hex;
      Ok (JString plaintext, 1)
  | JArray items =>
      '(items, n) ← update_items (fun index item =>
        match item with
        | JString ciphertext_hex =>
            plaintext ← decrypt_text c (name +:+ "." +:+ pretty index) ciphertext_hex;
            Ok (JString plaintext, 1)
        | _ => Ok (item, 0)
        end) 0 items;
      Ok (JArray items, n)
  | _ => Ok (v, 0)
  end.
Definition decrypt_member (c : E2eeFieldCrypto) (name : string) (payload : value) : result E2eeError value :=
  match payload with
  | JObject m =>
      v ← ok_or DecryptionFailed (obj_get name m);
      '(v, n) ← decrypt_string_or_items c name v;
      if bool_decide (n = 0) then Err DecryptionFailed else Ok (JObject (obj_insert name v m))
  | _ => Err DecryptionFailed
  end.
Definition decrypt_completion_prompt (c : E2eeFieldCrypto) : value -> result E2eeError value := decrypt_member c "prompt".
Definition decrypt_embedding_input (c : E2eeFieldCrypto) : value -> result E2eeError value := decrypt_member c "input".

Definition decrypt_content_part_field (c : E2eeFieldCrypto) (part : list (string * value)) (key field : string) :
    result E2eeError (list (string * value) * nat) :=
  match obj_get key part with
  | Some (JString ciphertext_hex) =>
      plaintext ← decrypt_text c field ciphertext_hex;
      Ok (obj_insert key (JString plaintext) part, 1)
  | _ => Ok (part, 0)
  end.
Definition decrypt_content_part_nested (c : E2eeFieldCrypto) (part : list (string * value))
    (wrapper_key inner_key field : string) : result E2eeError (list (string * value) * nat) :=
  match obj_get wrapper_key part with
  | Some (JObject wrapper) =>
      match obj_get inner_key wrapper with
      | Some (JString ciphertext_hex) =>
          plaintext ← decrypt_text c field ciphertext_hex;
          Ok (obj_insert wrapper_key (JObject (obj_insert inner_key (JString plaintext) wrapper)) part, 1)
      | _ => Ok (part, 0)
      end
  | _ => Ok (part, 0)
  end.

Definition part_path (message_index content_index : nat) (tail : string) : string :=
  "messages." +:+ pretty message_index +:+ ".content." +:+ pretty content_index +:+ "." +:+ tail.
Definition decrypt_content_part (c : E2eeFieldCrypto) (message_index content_index : nat)
    (part : list (string * value)) : result E2eeError (list (string * value) * nat) :=
  match obj_get "type" part ≫= as_str with
  | Some kind =>
      if bool_decide (kind = "text") then
        decrypt_content_part_field c part "text" (part_path message_index content_index "text")
      else if bool_decide (kind = "image_url") && is_aci (fc_aad_mode c) then
        decrypt_content_part_nested c part "image_url" "url" (part_path message_index content_index "image_url.url")
      else if bool_decide (kind = "input_audio") && is_aci (fc_aad_mode c) then
        decrypt_content_part_nested c part "input_audio" "data" (part_path message_index content_index "input_audio.data")
      else Ok (part, 0)
  | None => Ok (part, 0)
  end.

Definition decrypt_content_value (c : E2eeFieldCrypto) (message_index : nat) (content : value) :
    result E2eeError (value * nat) :=
  match content with
  | JString ciphertext_hex =>
      plaintext ← decrypt_text c ("messages." +:+ pretty message_index +:+ ".content") ciphertext_hex;
      Ok (decrypted_chat_content_value plaintext, 1)
  | JArray items =>
      '(items, n) ← update_items (fun content_index item =>
        match item with
        | JObject part =>
            '(part, n) ← decrypt_content_part c message_index content_index part;
            Ok (JObject part, n)
        | _ => Ok (item, 0)
        end) 0 items;
      Ok (JArray items, n)
  | _ => Ok (content, 0)
  end.

Definition decrypt_message (c : E2eeFieldCrypto) (message_index : nat) (message : value) :
    result E2eeError (value * nat) :=
  match message with
  | JObject m =>
      match obj_get "content" m with
      | Some content =>
          '(content, n) ← decrypt_content_value c message_index content;
          Ok (JObject (obj_insert "content" content m), n)
      | None => Ok (message, 0)
      end
  | _ => Ok (message, 0)
  end.

Definition decrypt_request_payload (c : E2eeFieldCrypto) (endpoint_path : string) (payload : value) :
    result E2eeError value :=
  if bool_decide (endpoint_path = COMPLETIONS_PATH) then decrypt_completion_prompt c payload
  else if bool_decide (endpoint_path = EMBEDDINGS_PATH) then decrypt_embedding_input c payload
  else match payload with
  | JObject m =>
      match obj_get "messages" m with
      | Some (JArray messages) =>
          '(messages, n) ← update_items (decrypt_message c) 0 messages;
          if bool_decide (n = 0) then Err DecryptionFailed
          else Ok (JObject (obj_insert "messages" (JArray messages) m))
      | _ => Err DecryptionFailed
      end
  | _ => Err DecryptionFailed
  end.
End Crypto.

(** ** Accepting a request (e2ee.rs) *)
Record E2eeReplayKey : Type := mkReplayKey {
  rk_client_public_key_hex : string;
  rk_model_public_key_hex : string;
  rk_nonce : string;
}.
#[global] Instance E2eeReplayKey_eq_dec : EqDecision E2eeReplayKey.
Proof. solve_decision. Defined.
#[global] Instance E2eeReplayKey_countable : Countable E2eeReplayKey.
Proof.
  refine (inj_countable' (fun k => (rk_client_public_key_hex k, rk_model_public_key_hex k, rk_nonce k))
    (fun '(a, b, c) => mkReplayKey a b c) _); by intros [].
Defined.

Abbreviation replay_cache := (gmap E2eeReplayKey Z).
Definition claim_e2ee_replay (cache : replay_cache) (client_public_key_hex model_public_key_hex nonce : string)
    (now : Z) : result E2eeError unit * replay_cache :=
  let cache := filter (fun kv => now < kv.2)%Z cache in
  let key := mkReplayKey client_public_key_hex model_public_key_hex nonce in
  if bool_decide (is_Some (cache !! key)) then (Err ReplayDetected, cache)
  else (Ok (), <[key := (now +| 300)%u64]> cache).

(** What the header and model checks of a version-2 request establish. *)
Record AcceptedParts : Type := mkAcceptedParts {
  ap_selected_key : KeyedPublicKey;
  ap_client_public_key_hex : string;
  ap_model_public_key_hex : string;
  ap_nonce : string;
  ap_timestamp : Z;
  ap_payload : value;
  ap_request_model : string;
}.

Section Prepare.
Context {SH : Sha} {HX : HexCodec} {SJ : SerdeJson} {CC : CurveCrypto} {EP : E2eeKeyProvider}.

Definition key_matches (model_public_key : string) (key : KeyedPublicKey) : bool :=
  is_aci_e2ee_suite (kpk_algo key) &&
  match normalize_aci_e2ee_public_key_hex (kpk_algo key) model_public_key,
        normalize_aci_e2ee_public_key_hex (kpk_algo key) (kpk_public_key_hex key) with
  | Ok supplied, Ok stored => bool_decide (supplied = stored)
  | _, _ => false
  end.

(** The part of [prepare_e2ee_v2_request] before the replay claim. *)
Definition accept_parts (ks : WorkloadKeyset) (parts : E2eeRequestParts) (body : bytes) (now : Z) :
    result E2eeError AcceptedParts :=
  version ← ok_or HeaderMissing (rp_version parts);
  if bool_decide (version ≠ E2EE_VERSION_V2) then Err InvalidVersion else
  client_public_key ← ok_or HeaderMissing (rp_client_public_key parts);
  model_public_key ← ok_or HeaderMissing (rp_model_public_key parts);
  nonce ← ok_or HeaderMissing (rp_nonce parts);
  timestamp ← ok_or HeaderMissing (rp_timestamp parts);
  _ ← validate_aci_e2ee_nonce nonce;
  timestamp ← ok_or InvalidTimestamp (parse_uint u64_max (as_bytes timestamp));
  if (300 <? Z.abs (now - timestamp))%Z then Err InvalidTimestamp else
  selected_key ← ok_or ModelKeyMismatch (List.find (key_matches model_public_key) (ks_e2ee_public_keys ks));
  client_public_key_hex ← map_err (fun _ => InvalidPublicKey)
    (normalize_aci_e2ee_public_key_hex (kpk_algo selected_key) client_public_key);
  model_public_key_hex ← map_err (fun _ => InvalidPublicKey)
    (normalize_aci_e2ee_public_key_hex (kpk_algo selected_key) model_public_key);
  payload ← map_err (fun _ => DecryptionFailed) (from_slice body);
  request_model ← validate_aci_payload_model payload;
  Ok (mkAcceptedParts selected_key client_public_key_hex model_public_key_hex nonce timestamp payload request_model).

(** The part after it. *)
Definition open_accepted (a : AcceptedParts) (endpoint_path : string) : result E2eeError E2eePreparedRequest :=
  let crypto := mkFieldCrypto (DecryptAciV2 (kpk_key_id (ap_selected_key a))) (kpk_algo (ap_selected_key a)) AciV2
    (ap_request_model a) (Some (ap_nonce a)) (Some (ap_timestamp a)) in
  payload ← decrypt_request_payload crypto endpoint_path (ap_payload a);
  Ok (mkE2eePrepared (to_vec payload)
        (mkE2eeContext E2EE_VERSION_V2 (kpk_algo (ap_selected_key a)) AciV2 (ap_request_model a)
           (ap_client_public_key_hex a) (Some (ap_nonce a)) (Some (ap_timestamp a)))).

Definition prepare_legacy_e2ee_request (parts : E2eeRequestParts) (body : bytes) (endpoint_path : string) :
    result E2eeError E2eePreparedRequest :=
  signing_algo ← ok_or HeaderMissing (rp_signing_algo parts);
  let signing_algo := to_ascii_lowercase (trim signing_algo) in
  if negb (bool_decide (signing_algo = E2EE_ALGO_LEGACY_ECDSA) || bool_decide (signing_algo = E2EE_ALGO_LEGACY_ED25519))
  then Err InvalidSigningAlgo else
  client_public_key ← ok_or HeaderMissing (rp_client_public_key parts);
  model_public_key ← ok_or HeaderMissing (rp_model_public_key parts);
  _ ← ok_or ModelKeyMismatch
    (List.find (fun key => bool_decide (kpk_algo key = signing_algo) &&
       legacy_public_keys_match signing_algo (kpk_public_key_hex key) model_public_key) legacy_e2ee_keys);
  let version_header := trim (default "" (rp_version parts)) in
  let given o := match o with Some s => negb (bool_decide (trim s = "")) | None => false end in
  if (negb (bool_decide (version_header = "")) && negb (bool_decide (version_header = E2EE_VERSION_V1)))
     || given (rp_nonce parts) || given (rp_timestamp parts)
  then Err InvalidVersion else
  payload ← map_err (fun _ => DecryptionFailed) (from_slice body);
  request_model ← validate_aci_payload_model payload;
  let crypto := mkFieldCrypto (DecryptLegacy signing_algo) signing_algo LegacyV1 request_model None None in
  payload ← decrypt_request_payload crypto endpoint_path payload;
  client_public_key_hex ← normalize_legacy_public_key_for_replay signing_algo client_public_key;
  Ok (mkE2eePrepared (to_vec payload)
        (mkE2eeContext E2EE_VERSION_V1 signing_algo LegacyV1 request_model client_public_key_hex None None)).

Definition prepare_e2ee_v2_request (ks : WorkloadKeyset) (cache : replay_cache) (parts : E2eeRequestParts)
    (body : bytes) (endpoint_path : string) (now : Z) : result E2eeError E2eePreparedRequest * replay_cache :=
  if bool_decide (is_Some (rp_signing_algo parts)) then (prepare_legacy_e2ee_request parts body endpoint_path, cache)
  else match accept_parts ks parts body now with
  | Err e => (Err e, cache)
  | Ok a =>
      let '(claimed, cache) := claim_e2ee_replay cache (ap_client_public_key_hex a) (ap_model_public_key_hex a)
        (to_ascii_lowercase (ap_nonce a)) now in
      match claimed with
      | Err e => (Err e, cache)
      | Ok _ => (open_accepted a endpoint_path, cache)
      end
  end.
End Prepare.

(** ** Encrypting a response *)
Definition enc (A : Type) : Type := nat -> result E2eeError (A * nat).
#[global] Instance enc_ret : MRet enc := fun A a n => Ok (a, n).
#[global] Instance enc_bind : MBind enc := fun A B f m n => match m n with Ok (a, n') => f a n' | Err e => Err e end.
Definition lift {A} (r : result E2eeError A) : enc A := fun n => match r with Ok a => Ok (a, n) | Err e => Err e end.

Fixpoint encrypt_items (f : nat -> value -> enc value) (i : nat) (l : list value) : enc (list value) :=
  match l with
  | [] => mret []
  | x :: l' => x' ← f i x; l'' ← encrypt_items f (S i) l'; mret (x' :: l'')
  end.

Section Response.
Context {SH : Sha} {HX : HexCodec} {SJ : SerdeJson} {CC : CurveCrypto}.
(** The [n]th draw of the random number generator. *)
Context (rng : nat -> Draws).

Definition response_nonce_ts (ctx : E2eeContext) : result E2eeError (string * Z) :=
  nonce ← ok_or EncryptionFailed (ec_nonce ctx);
  timestamp ← ok_or EncryptionFailed (ec_timestamp ctx);
  Ok (nonce, timestamp).
Definition response_aad_for_context (ctx : E2eeContext) (response_id aci_field : string) :
    result E2eeError (option bytes) :=
  match ec_aad_mode ctx with
  | AciV2 =>
      '(nonce, timestamp) ← response_nonce_ts ctx;
      aad ← aci_response_aad (ec_algo ctx) (ec_request_model ctx) response_id aci_field nonce timestamp;
      Ok (Some aad)
  | LegacyV1 => Ok None
  end.
Definition embedding_response_aad_for_context (ctx : E2eeContext) (response_id : string) (data_index : Z) :
    result E2eeError (option bytes) :=
  response_aad_for_context ctx response_id ("data." +:+ pretty data_index +:+ ".embedding").

Definition encrypt_response_plaintext (ctx : E2eeContext) (plaintext : bytes) (aad : option bytes) : enc string :=
  fun n =>
    text ← match ec_aad_mode ctx with
           | AciV2 =>
               aad ← ok_or EncryptionFailed aad;
               map_err (fun _ => EncryptionFailed)
                 (encrypt_aci_e2ee_for_public_key (rng n) (ec_algo ctx) (ec_client_public_key_hex ctx) plaintext aad)
           | LegacyV1 =>
               map_err (fun _ => EncryptionFailed)
                 (encrypt_legacy_for_public_key (rng n) (ec_algo ctx) (ec_client_public_key_hex ctx) plaintext aad)
           end;
    Ok (text, S n).

Definition optional_response_string (v : value) : result E2eeError (option string) :=
  match v with JNull => Ok None | JString s => Ok (Some s) | _ => Err EncryptionFailed end.

Definition encrypt_response_field (container : list (string * value)) (field_name aci_field : string)
    (ctx : E2eeContext) (response_id : string) : enc (list (string * value)) :=
  match obj_get field_name container with
  | None => mret container
  | Some v =>
      plaintext ← lift (optional_response_string v);
      match plaintext with
      | None => mret container
      | Some plaintext =>
          aad ← lift (response_aad_for_context ctx response_id aci_field);
          text ← encrypt_response_plaintext ctx (as_bytes plaintext) aad;
          mret (obj_insert field_name (JString text) container)
      end
  end.

Definition encrypt_message_audio_data (message : list (string * value)) (ctx : E2eeContext) (response_id : string)
    (choice_index : Z) : enc (list (string * value)) :=
  match obj_get "audio" message with
  | Some (JObject audio) =>
      match obj_get "data" audio with
      | Some (JString plaintext) =>
          '(nonce, timestamp) ← lift (response_nonce_ts ctx);
          aad ← lift (aci_response_aad (ec_algo ctx) (ec_request_model ctx) response_id
            ("choices." +:+ pretty choice_index +:+ ".message.audio.data") nonce timestamp);
          text ← encrypt_response_plaintext ctx (as_bytes plaintext) (Some aad);
          mret (obj_insert "audio" (JObject (obj_insert "data" (JString text) audio)) message)
      | _ => mret message
      end
  | _ => mret message
  end.

(** [item.get("index").and_then(Value::as_u64).unwrap_or(position)]. *)
Definition item_index (position : nat) (item : value) : Z :=
  default (Z.of_nat position) (get "index" item ≫= as_u64).
Definition choice_path (choice_index : Z) (tail : string) : string :=
  "choices." +:+ pretty choice_index +:+ "." +:+ tail.

(** The fields of a message or a delta, in order. *)
Definition encrypt_texts (container : list (string * value)) (choice_index : Z) (owner : string)
    (ctx : E2eeContext) (response_id : string) : enc (list (string * value)) :=
  container ← encrypt_response_field container "content" (choice_path choice_index (owner +:+ ".content")) ctx response_id;
  container ← encrypt_response_field container "reasoning" (choice_path choice_index (owner +:+ ".reasoning")) ctx response_id;
  encrypt_response_field container "reasoning_content" (choice_path choice_index (owner +:+ ".reasoning_content")) ctx response_id.

Definition encrypt_choice (endpoint_path : string) (ctx : E2eeContext) (response_id : string) (position : nat)
    (choice : value) : enc value :=
  let choice_index := item_index position choice in
  match choice with
  | JObject c =>
      if bool_decide (endpoint_path = COMPLETIONS_PATH) then
        c ← encrypt_response_field c "text" (choice_path choice_index "text") ctx response_id;
        mret (JObject c)
      else match obj_get "message" c with
      | Some (JObject message) =>
          message ← encrypt_texts message choice_index "message" ctx response_id;
          message ← (if is_aci (ec_aad_mode ctx) then encrypt_message_audio_data message ctx response_id choice_index
                     else mret message);
          mret (JObject (obj_insert "message" (JObject message) c))
      | _ => mret choice
      end
  | _ => mret choice
  end.

Definition encrypt_stream_choice (endpoint_path : string) (ctx : E2eeContext) (response_id : string) (position : nat)
    (choice : value) : enc value :=
  let choice_index := item_index position choice in
  match choice with
  | JObject c =>
      if bool_decide (endpoint_path = COMPLETIONS_PATH) then
        c ← encrypt_response_field c "text" (choice_path choice_index "text") ctx response_id;
        mret (JObject c)
      else match obj_get "delta" c with
      | Some (JObject delta) =>
          let delta := if bool_decide (obj_get "content" delta ≫= as_str = Some "") then obj_remove "content" delta
                       else delta in
          delta ← encrypt_texts delta choice_index "delta" ctx response_id;
          mret (JObject (obj_insert "delta" (JObject delta) c))
      | _ => mret choice
      end
  | _ => mret choice
  end.

Definition encrypt_embedding_item (ctx : E2eeContext) (response_id : string) (position : nat) (item : value) : enc value :=
  let data_index := item_index position item in
  match item with
  | JObject entry =>
      match obj_get "embedding" entry with
      | Some embedding =>
          aad ← lift (embedding_response_aad_for_context ctx response_id data_index);
          text ← encrypt_response_plaintext ctx (to_vec embedding) aad;
          mret (JObject (obj_insert "embedding" (JString text) entry))
      | None => mret item
      end
  | _ => mret item
  end.

(** Encrypt the items of an array member, or leave the payload as it is. *)
Definition encrypt_member (name : string) (f : nat -> value -> enc value) (payload : value) : enc value :=
  match payload with
  | JObject m =>
      match obj_get name m with
      | Some (JArray items) =>
          items ← encrypt_items f 0 items;
          mret (JObject (obj_insert name (JArray items) m))
      | _ => mret payload
      end
  | _ => mret payload
  end.
Definition encrypt_embedding_data (payload : value) (ctx : E2eeContext) (response_id : string) : enc value :=
  encrypt_member "data" (encrypt_embedding_item ctx response_id) payload.

Definition response_id_of (payload : value) : string := default "" (get_str "id" payload).
Definition encrypt_e2ee_response_body (cleartext_body : bytes) (ctx : E2eeContext) (endpoint_path : string) : enc bytes :=
  payload ← lift (map_err (fun _ => EncryptionFailed) (from_slice cleartext_body));
  let response_id := response_id_of payload in
  payload ← (if bool_decide (endpoint_path = EMBEDDINGS_PATH) then encrypt_embedding_data payload ctx response_id
             else encrypt_member "choices" (encrypt_choice endpoint_path ctx response_id) payload);
  mret (to_vec payload).

Definition encrypt_stream_payload (cleartext_payload : bytes) (ctx : E2eeContext) (endpoint_path : string) : enc bytes :=
  if bool_decide (endpoint_path = EMBEDDINGS_PATH) then lift (Err EncryptionFailed) else
  payload ← lift (map_err (fun _ => EncryptionFailed) (from_slice cleartext_payload));
  let response_id := response_id_of payload in
  payload ← encrypt_member "choices" (encrypt_stream_choice endpoint_path ctx response_id) payload;
  mret (to_vec payload).
End Response.
