(* ===== verification/E2eeFields.v ===== *)
(** * End-to-end encryption: what the theorems of [E2ee] show

    Associated data identifies a field of a message; decryption opens every covered
    field in its own place; the replay cache refuses a repeated request for 300
    seconds and no longer; every text of a response leaves encrypted to the client's
    key under its own path. *)
From S2P Require Import Prelude Text Json External Sample Effects Digest Identity ReportBinding Dstack Receipt Errors E2eeCipher Provider E2ee.

(** ** Where a field stands *)
(** The places of a request whose text may be encrypted. *)
Inductive place : Type :=
| Prompt | PromptItem (i : nat)
| Input | InputItem (i : nat)
| Content (m : nat)
| PartText (m i : nat)
| PartImage (m i : nat)
| PartAudio (m i : nat).

Definition place_tokens (p : place) : list string :=
  match p with
  | Prompt => ["prompt"]
  | PromptItem i => ["prompt"; pretty i]
  | Input => ["input"]
  | InputItem i => ["input"; pretty i]
  | Content m => ["messages"; pretty m; "content"]
  | PartText m i => ["messages"; pretty m; "content"; pretty i; "text"]
  | PartImage m i => ["messages"; pretty m; "content"; pretty i; "image_url"; "url"]
  | PartAudio m i => ["messages"; pretty m; "content"; pretty i; "input_audio"; "data"]
  end.
Fixpoint join_dots (ts : list string) : string :=
  match ts with
  | [] => ""
  | [t] => t
  | t :: ts' => t +:+ "." +:+ join_dots ts'
  end.
Definition field_path (p : place) : string := join_dots (place_tokens p).

Definition dot_free (s : string) : bool := all_bytes (fun c => negb (bool_decide (c = u8 46))) s.

Lemma dot_split a b ra rb :
  dot_free a = true -> dot_free b = true -> a +:+ "." +:+ ra = b +:+ "." +:+ rb -> a = b /\ ra = rb.
Proof.
  intros Ha Hb Heq%(f_equal as_bytes). rewrite !as_bytes_app in Heq. unfold dot_free, all_bytes in *.
  enough (as_bytes a = as_bytes b /\ as_bytes ra = as_bytes rb) as [?%(inj as_bytes) ?%(inj as_bytes)] by done.
  revert Heq Ha Hb. generalize (as_bytes a) (as_bytes b). clear a b. change (as_bytes ".") with [u8 46].
  intros a. induction a as [|x a IH]; intros [|y b]; cbn; intros Heq Ha Hb.
  - by injection Heq.
  - injection Heq as <- _. done.
  - injection Heq as -> _. done.
  - injection Heq as -> Heq. apply andb_true_iff in Ha as [_ Ha]. apply andb_true_iff in Hb as [_ Hb].
    destruct (IH b Heq Ha Hb) as [-> ->]. done.
Qed.
Lemma no_dot a b r : dot_free a = true -> a = b +:+ "." +:+ r -> False.
Proof.
  intros Ha ->. unfold dot_free, all_bytes in Ha. rewrite !as_bytes_app, !forallb_app in Ha.
  rewrite !andb_true_iff in Ha. by destruct Ha as (_ & [=] & _).
Qed.
Lemma join_dots_inj ts1 ts2 :
  ts1 ≠ [] -> ts2 ≠ [] -> Forall (fun t => dot_free t = true) ts1 -> Forall (fun t => dot_free t = true) ts2 ->
  join_dots ts1 = join_dots ts2 -> ts1 = ts2.
Proof.
  revert ts2. induction ts1 as [|t1 ts1 IH]; [done|]. intros [|t2 ts2] _ H2 F1 F2; [done|].
  apply Forall_cons in F1 as [D1 F1]. apply Forall_cons in F2 as [D2 F2].
  destruct ts1 as [|u1 ts1], ts2 as [|u2 ts2]; cbn [join_dots].
  - by intros ->.
  - intros H. by apply no_dot in H.
  - intros H. symmetry in H. by apply no_dot in H.
  - intros [-> H]%dot_split; [|done..]. f_equal. by apply IH.
Qed.

(** Numbers are printed in digits (and a sign). *)
Lemma pretty_N_go_dot_free x s : dot_free s = true -> dot_free (pretty_N_go x s) = true.
Proof.
  revert s. induction (N.lt_wf_0 x) as [x _ IH]. intros s Hs.
  destruct (decide (x = 0)%N) as [->|Hx]; [by rewrite pretty_N_go_0|].
  rewrite pretty_N_go_step by lia. apply IH; [apply N.div_lt; lia|].
  unfold dot_free, all_bytes, as_bytes in *. cbn [String.list_ascii_of_string forallb]. rewrite Hs, andb_true_r.
  assert (x `mod` 10 < 10)%N by (apply N.mod_lt; lia).
  assert (forall k, (k < 10)%N -> negb (bool_decide (pretty_N_char k = u8 46)) = true) as Hd; [|by apply Hd].
  intros k Hk. assert (k ∈ [0; 1; 2; 3; 4; 5; 6; 7; 8; 9]%N) as Hin by (rewrite !elem_of_cons; lia).
  rewrite !elem_of_cons, elem_of_nil in Hin. by destruct_or!; subst.
Qed.
Lemma pretty_N_dot_free (n : N) : dot_free (pretty n) = true.
Proof. unfold pretty, pretty_N. case_decide; [done|]. by apply pretty_N_go_dot_free. Qed.
Lemma pretty_nat_dot_free (n : nat) : dot_free (pretty n) = true.
Proof. apply pretty_N_dot_free. Qed.
Lemma pretty_Z_dot_free (z : Z) : dot_free (pretty z) = true.
Proof. destruct z as [|p|p]; [done| |]; [apply (pretty_N_dot_free (Npos p))|]. apply (pretty_N_dot_free (Npos p)). Qed.

Lemma place_tokens_ok p : place_tokens p ≠ [] /\ Forall (fun t => dot_free t = true) (place_tokens p).
Proof. destruct p; (split; [done|]); repeat constructor; apply pretty_nat_dot_free. Qed.
Lemma field_path_inj p q : field_path p = field_path q -> p = q.
Proof.
  unfold field_path. intros H. apply join_dots_inj in H; try apply place_tokens_ok.
  destruct p, q; cbn in H; simplify_eq; try done; repeat (match goal with H : pretty _ = pretty _ |- _ => apply (inj pretty) in H end); by subst.
Qed.
Lemma choice_path_inj i t j u : choice_path i t = choice_path j u -> i = j /\ t = u.
Proof.
  unfold choice_path. intros H%(f_equal as_bytes). rewrite !as_bytes_app in H. apply app_inv_head in H.
  rewrite <- !as_bytes_app in H. apply (inj as_bytes), dot_split in H as [H ->]; [|apply pretty_Z_dot_free..].
  by apply (inj pretty) in H.
Qed.

(** ** A ciphertext belongs to one place *)
Section Binding.
Context {SH : Sha} {HX : HexCodec} {SJ : SerdeJson}.

(** What associated data stands for. *)
Inductive aad_source : Type :=
| RequestField (algo model nonce : string) (ts : Z) (p : place)
| ResponseField (algo model response_id nonce : string) (ts : Z) (index : Z) (tail : string).
Definition aad_ts (s : aad_source) : Z :=
  match s with RequestField _ _ _ ts _ => ts | ResponseField _ _ _ _ ts _ _ => ts end.
Definition aad_document (s : aad_source) : value :=
  match s with
  | RequestField algo model nonce ts p => request_aad_document algo model (field_path p) nonce ts
  | ResponseField algo model id nonce ts i t => response_aad_document algo model id (choice_path i t) nonce ts
  end.
Definition aad_of (s : aad_source) : result E2eeError bytes :=
  match s with
  | RequestField algo model nonce ts p => aci_request_aad algo model (field_path p) nonce ts
  | ResponseField algo model id nonce ts i t => aci_response_aad algo model id (choice_path i t) nonce ts
  end.

Lemma aad_of_jcs s b : aad_of s = Ok b <-> jcs_bytes (aad_document s) = Ok b.
Proof. destruct s; apply map_err_Ok. Qed.
Lemma aad_document_wf s : is_u64 (aad_ts s) -> value_wf (aad_document s) /\ json_depth (aad_document s) <= 127.
Proof.
  intros Hu. split; [|destruct s; cbn; lia].
  destruct s; (apply wf_object; [by apply (bool_decide_unpack _); vm_compute|]); repeat constructor; apply Hu.
Qed.

(** Authenticated data binds a ciphertext to one place of one message: the data
    of two fields are equal only when direction, suite, model, nonce, time, field
    and, for responses, the response id are all the same.  So a ciphertext moved to
    another field, another request or the other direction is authenticated against
    different data; and the data is always defined. *)
Theorem aad_identifies_field s1 s2 :
  is_u64 (aad_ts s1) -> is_u64 (aad_ts s2) ->
  (exists b, aad_of s1 = Ok b) /\ (aad_of s1 = aad_of s2 -> s1 = s2).
Proof.
  intros H1 H2. destruct (aad_document_wf s1 H1) as [W1 D1], (aad_document_wf s2 H2) as [W2 D2].
  destruct (jcs_bytes_admissible (aad_document s1)) as [b Hb]; [done|destruct s1; repeat constructor|].
  split; [exists b; by apply aad_of_jcs|]. intros Heq. pose proof (proj2 (aad_of_jcs s1 b) Hb) as Hs1. rewrite Heq in Hs1.
  apply aad_of_jcs in Hs1. pose proof (jcs_same_doc _ _ _ W1 W2 D1 D2 Hb Hs1) as Hsame.
  pose proof (fun k => get_str_proper k _ _ Hsame) as Hstr. pose proof (get_u64_proper "ts" _ _ Hsame) as Hts.
  pose proof (Hstr "purpose") as Hp. pose proof (Hstr "algo") as Ha. pose proof (Hstr "model") as Hm.
  pose proof (Hstr "field") as Hf. pose proof (Hstr "nonce") as Hn. pose proof (Hstr "id") as Hi.
  destruct s1, s2; try discriminate Hp; injection Ha as ->; injection Hm as ->; injection Hn as ->;
    injection Hts as ->.
  - apply (inj Some (field_path _) (field_path _)), field_path_inj in Hf as ->. done.
  - injection Hi as ->. apply (inj Some (choice_path _ _) (choice_path _ _)), choice_path_inj in Hf as [-> ->]. done.
Qed.
End Binding.

(** ** Every encrypted field is opened in its own place *)
Section Opening.
Context {SH : Sha} {HX : HexCodec} {SJ : SerdeJson} {CC : CurveCrypto} {EP : E2eeKeyProvider}.
Implicit Types c : E2eeFieldCrypto.

(** What stands at a place of a payload. *)
Definition message_content (m : nat) (payload : value) : option value :=
  l ← get "messages" payload ≫= as_array; message ← l !! m; get "content" message.
Definition part_of_kind (kind : string) (m i : nat) (payload : value) : option value :=
  l ← message_content m payload ≫= as_array; part ← l !! i;
  if bool_decide (get_str "type" part = Some kind) then Some part else None.
Definition at_place (p : place) (payload : value) : option value :=
  match p with
  | Prompt => get "prompt" payload
  | PromptItem i => l ← get "prompt" payload ≫= as_array; l !! i
  | Input => get "input" payload
  | InputItem i => l ← get "input" payload ≫= as_array; l !! i
  | Content m => message_content m payload
  | PartText m i => part_of_kind "text" m i payload ≫= get "text"
  | PartImage m i => w ← part_of_kind "image_url" m i payload ≫= get "image_url"; get "url" w
  | PartAudio m i => w ← part_of_kind "input_audio" m i payload ≫= get "input_audio"; get "data" w
  end.
(** The places an endpoint decrypts. *)
Definition covered (mode : E2eeAadMode) (endpoint_path : string) (p : place) : bool :=
  match p with
  | Prompt | PromptItem _ => bool_decide (endpoint_path = COMPLETIONS_PATH)
  | Input | InputItem _ => bool_decide (endpoint_path = EMBEDDINGS_PATH)
  | Content _ | PartText _ _ =>
      negb (bool_decide (endpoint_path = COMPLETIONS_PATH)) && negb (bool_decide (endpoint_path = EMBEDDINGS_PATH))
  | PartImage _ _ | PartAudio _ _ =>
      is_aci mode &&
      negb (bool_decide (endpoint_path = COMPLETIONS_PATH)) && negb (bool_decide (endpoint_path = EMBEDDINGS_PATH))
  end.
Definition opened_value (p : place) (plaintext : string) : value :=
  match p with Content _ => decrypted_chat_content_value plaintext | _ => JString plaintext end.

(** Decryption errors are all the same error. *)
Lemma decrypt_text_err c field ct e : decrypt_text c field ct = Err e -> e = DecryptionFailed.
Proof.
  unfold decrypt_text. destruct (request_field_aad c field) as [aad|e'] eqn:Ha; cbn.
  - destruct (decrypt_e2ee_field c ct aad) as [pt|e'] eqn:Hd; cbn; [case_bool; naive_solver|].
    intros [= ->]. unfold decrypt_e2ee_field in Hd. destruct (fc_decryptor c).
    + destruct aad; cbn in Hd; [|naive_solver]. destruct (decrypt_e2ee _ _ _); naive_solver.
    + destruct (decrypt_legacy_e2ee _ _ _); naive_solver.
  - intros [= ->]. unfold request_field_aad, nonce_ts in Ha. destruct (fc_aad_mode c); [|done].
    destruct (fc_nonce c); cbn in Ha; [|naive_solver]. destruct (fc_timestamp c); cbn in Ha; [|naive_solver].
    unfold aci_request_aad in Ha. destruct (jcs_bytes _); naive_solver.
Qed.

(** What a successful pass over a list did to each item. *)
Lemma update_items_ok {E} (f : nat -> value -> result E (value * nat)) i l l' n :
  update_items f i l = Ok (l', n) ->
  (forall j x, l !! j = Some x -> exists x' k, f (i + j) x = Ok (x', k) /\ l' !! j = Some x' /\ k <= n) /\
  (n ≠ 0 -> exists j x x' k, l !! j = Some x /\ f (i + j) x = Ok (x', k) /\ k ≠ 0).
Proof.
  revert i l' n. induction l as [|y l IH]; intros i l' n; cbn.
  - intros [= <- <-]. split; [intros j x; by rewrite lookup_nil|done].
  - destruct (f i y) as [[y' k]|] eqn:Hy; cbn; [|done].
    destruct (update_items f (S i) l) as [[l'' m]|] eqn:Hl; cbn; [|done]. intros [= <- <-].
    destruct (IH _ _ _ Hl) as [Ha Hb]. split.
    + intros [|j] x; cbn.
      * intros [= <-]. exists y', k. rewrite Nat.add_0_r. split_and!; [done|done|lia].
      * intros Hx. destruct (Ha j x Hx) as (x' & k' & Hf & ? & ?). exists x', k'.
        rewrite <- Nat.add_succ_comm. split_and!; [done|done|lia].
    + intros Hn. destruct (decide (k = 0)) as [->|Hk].
      * destruct Hb as (j & x & x' & k' & Hx & Hf & Hk'); [lia|]. exists (S j), x, x', k'.
        rewrite <- Nat.add_succ_comm. done.
      * exists 0, y, y', k. rewrite Nat.add_0_r. done.
Qed.
Lemma update_items_err {E} (f : nat -> value -> result E (value * nat)) i l e :
  update_items f i l = Err e -> exists j x, l !! j = Some x /\ f (i + j) x = Err e.
Proof.
  revert i. induction l as [|y l IH]; intros i; cbn; [done|].
  destruct (f i y) as [[y' k]|] eqn:Hy; cbn.
  - destruct (update_items f (S i) l) as [[l'' m]|] eqn:Hl; cbn; [done|]. intros [= ->].
    destruct (IH _ Hl) as (j & x & Hx & Hf). exists (S j), x. by rewrite <- Nat.add_succ_comm.
  - intros [= ->]. exists 0, y. by rewrite Nat.add_0_r.
Qed.

(** [handles c h field site wrap]: the step [h] opens exactly the texts at the sites
    of its argument, each under its own field path, puts the wrapped plaintexts in
    their place and counts them; it fails only on a text that does not open. *)
Record handles {I : Type} c (h : value -> result E2eeError (value * nat)) (field : I -> string)
    (site : I -> value -> option value) (wrap : I -> string -> value) : Prop := mkHandles {
  handles_ok v v' n : h v = Ok (v', n) ->
    (forall i ct, site i v = Some (JString ct) ->
       n ≠ 0 /\ exists pt, decrypt_text c (field i) ct = Ok pt /\ site i v' = Some (wrap i pt)) /\
    (n ≠ 0 -> exists i ct, site i v = Some (JString ct));
  handles_err v e : h v = Err e -> exists i ct, site i v = Some (JString ct) /\ decrypt_text c (field i) ct = Err e;
}.

(** A text. *)
Lemma handles_string c field wrap :
  handles c (fun v => match v with
             | JString ct => plaintext ← decrypt_text c field ct; Ok (wrap plaintext, 1)
             | _ => Ok (v, 0)
             end) (fun _ : unit => field) (fun _ v => Some v) (fun _ => wrap).
Proof.
  split.
  - intros v v' n H; destruct v as [|?|?|s|?|?]; cbn in H; simplify_eq; try (split; [by intros _ ct [=]|done]).
    destruct (decrypt_text c field s) as [pt|] eqn:Hd; cbn in H; simplify_eq.
    split; [intros _ ct [= <-]; split; [done|]; by exists pt|]. intros _. by exists (), s.
  - intros [|?|?|s|?|?] e H; cbn in H; try done. destruct (decrypt_text c field s) as [pt|] eqn:Hd; cbn in H; simplify_eq.
    exists (), s. done.
Qed.
(** A member of an object. *)
Lemma handles_member {I} c h field (site : I -> value -> option value) wrap k :
  handles c h field site wrap ->
  handles c (fun v => match v with
             | JObject m => match obj_get k m with
                            | Some x => '(x, n) ← h x; Ok (JObject (obj_insert k x m), n)
                            | None => Ok (v, 0)
                            end
             | _ => Ok (v, 0)
             end) field (fun i v => get k v ≫= site i) wrap.
Proof.
  intros Hh. split.
  - intros v v' n H; destruct v as [|?|?|?|?|m]; cbn in H; simplify_eq; try (split; [by intros|done]).
    cbn [get]. destruct (obj_get k m) as [x|] eqn:Hx; simplify_eq; [|split; [by intros|done]].
    destruct (h x) as [[x' n']|] eqn:Hhx; cbn in H; simplify_eq.
    destruct (handles_ok _ _ _ _ _ Hh _ _ _ Hhx) as [Ha Hb]. cbn [mbind option_bind]. split; [|done].
    intros i ct Hi. destruct (Ha i ct Hi) as (? & pt & ? & ?). split; [done|]. exists pt. split; [done|].
    cbn [get]. by rewrite obj_get_insert, bool_decide_eq_true_2.
  - intros [|?|?|?|?|m] e H; cbn in H; simplify_eq. cbn [get]. destruct (obj_get k m) as [x|] eqn:Hx; [|done].
    destruct (h x) as [[x' n']|] eqn:Hhx; cbn in H; simplify_eq. cbn. by eapply handles_err.
Qed.
(** The items of an array. *)
Lemma handles_items {I} c h field (site : nat -> I -> value -> option value) wrap :
  (forall j, handles c (h j) (field j) (site j) (wrap j)) ->
  handles c (fun v => match v with
             | JArray l => '(l, n) ← update_items h 0 l; Ok (JArray l, n)
             | _ => Ok (v, 0)
             end) (fun ji => field ji.1 ji.2) (fun ji v => l ← as_array v; x ← l !! ji.1; site ji.1 ji.2 x)
    (fun ji => wrap ji.1 ji.2).
Proof.
  intros Hh. split.
  - intros v v' n H; destruct v as [|?|?|?|l|?]; cbn in H; simplify_eq; try (split; [by intros|done]).
    destruct (update_items h 0 l) as [[l' n']|] eqn:Hl; cbn in H; simplify_eq.
    destruct (update_items_ok _ _ _ _ _ Hl) as [Ha Hb]. cbn [as_array mbind option_bind]. split.
    + intros [j i] ct Hi. cbn [fst snd] in *. apply bind_Some in Hi as (x & Hx & Hi).
      destruct (Ha j x Hx) as (x' & k & Hf & Hx' & Hk).
      destruct (proj1 (handles_ok _ _ _ _ _ (Hh j) _ _ _ Hf) i ct Hi) as (Hn & pt & ? & ?).
      split; [lia|]. exists pt. by rewrite Hx'.
    + intros Hn. destruct (Hb Hn) as (j & x & x' & k & Hx & Hf & Hk).
      destruct (proj2 (handles_ok _ _ _ _ _ (Hh j) _ _ _ Hf) Hk) as (i & ct & Hi).
      exists (j, i), ct. cbn. by rewrite Hx.
  - intros [|?|?|?|l|?] e H; cbn in H; simplify_eq.
    destruct (update_items h 0 l) as [[l' n']|] eqn:Hl; cbn in H; simplify_eq.
    apply update_items_err in Hl as (j & x & Hx & Hf). destruct (handles_err _ _ _ _ _ (Hh j) _ _ Hf) as (i & ct & ? & ?).
    exists (j, i), ct. cbn. by rewrite Hx.
Qed.
(** A text, or an array. *)
Lemma handles_either {I} c h1 h2 field1 wrap1 field2 (site2 : I -> value -> option value) wrap2 :
  handles c h1 (fun _ : unit => field1) (fun _ v => Some v) (fun _ => wrap1) ->
  handles c h2 field2 site2 wrap2 -> (forall i v x, site2 i v = Some x -> is_Some (as_array v)) ->
  handles c (fun v => match v with JString _ => h1 v | JArray _ => h2 v | _ => Ok (v, 0) end)
    (fun i => match i with inl _ => field1 | inr i => field2 i end)
    (fun (i : unit + I) v => match i with inl _ => Some v | inr i => site2 i v end)
    (fun i => match i with inl _ => wrap1 | inr i => wrap2 i end).
Proof.
  intros H1 H2 Hs. split.
  - intros v v' n H. assert (forall i x, site2 i v = Some x -> exists l, v = JArray l) as Hv.
    { intros i x Hx. destruct (Hs i v x Hx) as [l Hl]. destruct v; simplify_eq/=. eauto. }
    destruct v as [|?|?|s|l|?]; simplify_eq; try (split; [intros [[]|i] ct Hi; simplify_eq; by destruct (Hv i _ Hi)|done]).
    + destruct (handles_ok _ _ _ _ _ H1 _ _ _ H) as [Ha Hb]. split.
      * intros [[]|i] ct Hi; [by apply (Ha ())|by destruct (Hv i _ Hi)].
      * intros Hn. destruct (Hb Hn) as (_ & ct & Hct). by exists (inl ()), ct.
    + destruct (handles_ok _ _ _ _ _ H2 _ _ _ H) as [Ha Hb]. split.
      * intros [[]|i] ct Hi; [done|by apply Ha].
      * intros Hn. destruct (Hb Hn) as (i & ct & Hct). by exists (inr i), ct.
  - intros v e H. destruct v as [|?|?|s|l|?]; simplify_eq.
    + destruct (handles_err _ _ _ _ _ H1 _ _ H) as (_ & ct & Hct). by exists (inl ()), ct.
    + destruct (handles_err _ _ _ _ _ H2 _ _ H) as (i & ct & Hct). by exists (inr i), ct.
Qed.
Lemma handles_ext {I} c h h' field (site : I -> value -> option value) wrap :
  (forall v, h v = h' v) -> handles c h field site wrap -> handles c h' field site wrap.
Proof.
  intros Hh [Ha Hb]. split; [intros v v' n|intros v e]; rewrite <- Hh; [apply Ha|apply Hb].
Qed.

(** A content part. *)
Inductive part_kind : Type := KText | KImage | KAudio.
Definition part_place (m i : nat) (k : part_kind) : place :=
  match k with KText => PartText m i | KImage => PartImage m i | KAudio => PartAudio m i end.
Definition kind_name (k : part_kind) : string :=
  match k with KText => "text" | KImage => "image_url" | KAudio => "input_audio" end.
Definition kind_member (k : part_kind) (part : value) : option value :=
  match k with
  | KText => get "text" part
  | KImage => w ← get "image_url" part; get "url" w
  | KAudio => w ← get "input_audio" part; get "data" w
  end.
Definition kind_enabled (mode : E2eeAadMode) (k : part_kind) : bool :=
  match k with KText => true | _ => is_aci mode end.
Definition part_site (mode : E2eeAadMode) (k : part_kind) (part : value) : option value :=
  if bool_decide (get_str "type" part = Some (kind_name k)) && kind_enabled mode k then kind_member k part else None.

Lemma part_site_excl mode k k' part x :
  get_str "type" part = Some (kind_name k) -> part_site mode k' part = Some x -> k' = k.
Proof.
  unfold part_site. intros ->. case_bool_decide as H; [|done]. intros _. by destruct k, k'.
Qed.
(** The part with its text replaced. *)
Definition set_wrapped (outer inner plaintext : string) (part : list (string * value)) : list (string * value) :=
  match obj_get outer part with
  | Some (JObject w) => obj_insert outer (JObject (obj_insert inner (JString plaintext) w)) part
  | _ => part
  end.
Definition kind_set (k : part_kind) (plaintext : string) (part : list (string * value)) : list (string * value) :=
  match k with
  | KText => obj_insert "text" (JString plaintext) part
  | KImage => set_wrapped "image_url" "url" plaintext part
  | KAudio => set_wrapped "input_audio" "data" plaintext part
  end.
Lemma set_wrapped_spec outer inner pt part v :
  outer ≠ "type" -> (w ← get outer (JObject part); get inner w) = Some v ->
  (w ← get outer (JObject (set_wrapped outer inner pt part)); get inner w) = Some (JString pt) /\
  obj_get "type" (set_wrapped outer inner pt part) = obj_get "type" part.
Proof.
  intros Hne. unfold set_wrapped. cbn [get]. destruct (obj_get outer part) as [[]|]; cbn [mbind option_bind get]; try done.
  intros _. rewrite obj_get_insert, bool_decide_eq_true_2 by done. cbn [mbind option_bind get].
  rewrite !obj_get_insert, bool_decide_eq_true_2 by done. by rewrite bool_decide_eq_false_2.
Qed.
Lemma kind_set_spec k pt part v :
  kind_member k (JObject part) = Some v ->
  kind_member k (JObject (kind_set k pt part)) = Some (JString pt) /\
  obj_get "type" (kind_set k pt part) = obj_get "type" part.
Proof.
  destruct k; cbn [kind_member kind_set]; [|by apply set_wrapped_spec..]. intros _. cbn [get].
  rewrite !obj_get_insert, bool_decide_eq_true_2 by done. by rewrite bool_decide_eq_false_2.
Qed.

Definition open_part c (m i : nat) (item : value) : result E2eeError (value * nat) :=
  match item with
  | JObject part => '(part, n) ← decrypt_content_part c m i part; Ok (JObject part, n)
  | _ => Ok (item, 0)
  end.
(** [decrypt_content_part] on a part whose type is known. *)
Lemma decrypt_part_kind c m i part k :
  get_str "type" (JObject part) = Some (kind_name k) ->
  decrypt_content_part c m i part =
  if negb (kind_enabled (fc_aad_mode c) k) then Ok (part, 0)
  else match kind_member k (JObject part) with
  | Some (JString ct) => plaintext ← decrypt_text c (field_path (part_place m i k)) ct; Ok (kind_set k plaintext part, 1)
  | _ => Ok (part, 0)
  end.
Proof.
  assert (forall outer inner field, decrypt_content_part_nested c part outer inner field =
    match (w ← get outer (JObject part); get inner w) with
    | Some (JString ct) => plaintext ← decrypt_text c field ct; Ok (set_wrapped outer inner plaintext part, 1)
    | _ => Ok (part, 0)
    end) as Hn.
  { intros outer inner field. unfold decrypt_content_part_nested, set_wrapped. cbn [get].
    destruct (obj_get outer part) as [[]|]; done. }
  intros Ht. unfold decrypt_content_part. change (obj_get "type" part ≫= as_str) with (get_str "type" (JObject part)).
  rewrite Ht. destruct k; cbn [kind_name kind_enabled negb].
  - rewrite bool_decide_eq_true_2 by done. done.
  - rewrite (bool_decide_eq_false_2 ("image_url" = "text")), (bool_decide_eq_true_2 ("image_url" = "image_url")) by done.
    destruct (is_aci (fc_aad_mode c)); [apply Hn|done].
  - rewrite (bool_decide_eq_false_2 ("input_audio" = "text")), (bool_decide_eq_false_2 ("input_audio" = "image_url")),
      (bool_decide_eq_true_2 ("input_audio" = "input_audio")) by done. destruct (is_aci (fc_aad_mode c)); [apply Hn|done].
Qed.
Lemma decrypt_part_other c m i part :
  (forall k, get_str "type" (JObject part) ≠ Some (kind_name k)) -> decrypt_content_part c m i part = Ok (part, 0).
Proof.
  intros Ht. unfold decrypt_content_part. change (obj_get "type" part ≫= as_str) with (get_str "type" (JObject part)).
  destruct (get_str "type" (JObject part)) as [kind|]; [|done].
  rewrite !bool_decide_eq_false_2; [done| | |]; intros ->; [by apply (Ht KAudio)|by apply (Ht KImage)|by apply (Ht KText)].
Qed.

Lemma part_kind_dec part :
  (exists k, get_str "type" part = Some (kind_name k)) \/ (forall k, get_str "type" part ≠ Some (kind_name k)).
Proof.
  destruct (decide (get_str "type" part = Some (kind_name KText))); [by eauto|].
  destruct (decide (get_str "type" part = Some (kind_name KImage))); [by eauto|].
  destruct (decide (get_str "type" part = Some (kind_name KAudio))); [by eauto|].
  right. by intros [].
Qed.
Lemma handles_part c m i :
  handles c (open_part c m i) (fun k => field_path (part_place m i k)) (part_site (fc_aad_mode c)) (fun _ => JString).
Proof.
  assert (forall v k x, part_site (fc_aad_mode c) k v = Some x ->
    get_str "type" v = Some (kind_name k) /\ kind_enabled (fc_aad_mode c) k = true /\ kind_member k v = Some x) as Hsite.
  { intros v k x. unfold part_site. case_bool_decide; [|done]. by destruct (kind_enabled _ _). }
  split.
  - intros v v' n H. destruct v as [|?|?|?|?|part]; try (injection H as <- <-; split; [by intros k ct [? _]%Hsite|done]).
    cbn in H. destruct (part_kind_dec (JObject part)) as [[k Hk]|Hk].
    2: { rewrite decrypt_part_other in H by done. injection H as <- <-. split; [intros k ct [Hk' _]%Hsite; by destruct (Hk k)|done]. }
    rewrite (decrypt_part_kind c m i part k Hk) in H. destruct (kind_enabled (fc_aad_mode c) k) eqn:He; cbn [negb] in H.
    2: { injection H as <- <-. split; [|done]. intros k' ct Hs. pose proof (part_site_excl _ _ _ _ _ Hk Hs) as ->.
         apply Hsite in Hs as (_ & He' & _). congruence. }
    destruct (kind_member k (JObject part)) as [[| | |ct| |]|] eqn:Hm; cbn in H; simplify_eq;
      try (split; [|done]; intros k' ct Hs; pose proof (part_site_excl _ _ _ _ _ Hk Hs) as ->;
           apply Hsite in Hs as (_ & _ & Hm'); congruence).
    destruct (decrypt_text c _ ct) as [pt|] eqn:Hd; cbn in H; simplify_eq.
    destruct (kind_set_spec k pt part _ Hm) as [Hm' Hty]. split.
    + intros k' ct' Hs. pose proof (part_site_excl _ _ _ _ _ Hk Hs) as ->. apply Hsite in Hs as (_ & _ & Hm2).
      assert (ct' = ct) as -> by congruence. split; [done|]. exists pt. split; [done|].
      unfold part_site, get_str, get in *. rewrite Hty, Hk, He, bool_decide_eq_true_2 by done. done.
    + intros _. exists k, ct. unfold part_site. by rewrite Hk, He, bool_decide_eq_true_2.
  - intros v e H. destruct v as [|?|?|?|?|part]; try done. cbn in H.
    destruct (part_kind_dec (JObject part)) as [[k Hk]|Hk]; [|by rewrite decrypt_part_other in H].
    rewrite (decrypt_part_kind c m i part k Hk) in H. destruct (kind_enabled (fc_aad_mode c) k) eqn:He; cbn [negb] in H; [|done].
    destruct (kind_member k (JObject part)) as [[| | |ct| |]|] eqn:Hm; cbn in H; try done.
    destruct (decrypt_text c _ ct) as [pt|] eqn:Hd; cbn in H; simplify_eq. exists k, ct.
    split; [|done]. unfold part_site. by rewrite Hk, He, bool_decide_eq_true_2.
Qed.

Definition content_place (m : nat) (i : unit + nat * part_kind) : place :=
  match i with inl _ => Content m | inr (i, k) => part_place m i k end.
Definition content_site (mode : E2eeAadMode) (i : unit + nat * part_kind) (v : value) : option value :=
  match i with inl _ => Some v | inr ik => l ← as_array v; x ← l !! ik.1; part_site mode ik.2 x end.
Lemma handles_content c m :
  handles c (decrypt_content_value c m) (fun i => field_path (content_place m i)) (content_site (fc_aad_mode c))
    (fun i => opened_value (content_place m i)).
Proof.
  pose proof (handles_either c _ _ _ _ _ _ _
    (handles_string c (field_path (Content m)) decrypted_chat_content_value)
    (handles_items c (open_part c m) _ _ _ (handles_part c m))) as H.
  assert (forall i (v x : value), (fun ji v => l ← as_array v; x ← l !! ji.1; part_site (fc_aad_mode c) ji.2 x) i v = Some x ->
    is_Some (as_array v)) as Hs by (intros i v x; by destruct (as_array v)).
  specialize (H Hs). destruct H as [Ha Hb].
  assert (forall v, decrypt_content_value c m v =
    match v with
    | JString _ => match v with JString ct => plaintext ← decrypt_text c (field_path (Content m)) ct;
                                              Ok (decrypted_chat_content_value plaintext, 1) | _ => Ok (v, 0) end
    | JArray _ => match v with JArray l => '(l, n) ← update_items (open_part c m) 0 l; Ok (JArray l, n) | _ => Ok (v, 0) end
    | _ => Ok (v, 0)
    end) as Heq by by intros [].
  split.
  - intros v v' n H. rewrite Heq in H. destruct (Ha _ _ _ H) as [H1 H2]. split; [|done].
    intros [[]|[i k]] ct Hi; [apply (H1 (inl ()) ct Hi)|].
    destruct (H1 (inr (i, k)) ct Hi) as (? & pt & ? & ?). split; [done|]. exists pt. split; [done|]. by destruct k.
  - intros v e H. rewrite Heq in H. destruct (Hb _ _ H) as ([[]|[i k]] & ct & H1 & H2); [by exists (inl ()), ct|by exists (inr (i, k)), ct].
Qed.

(** The end of every variant: the member must be there, and something must have
    been opened. *)
Definition finish (k : string) (h : value -> result E2eeError (value * nat)) (payload : value) : result E2eeError value :=
  match payload with
  | JObject m =>
      v ← ok_or DecryptionFailed (obj_get k m);
      '(v, n) ← h v;
      if bool_decide (n = 0) then Err DecryptionFailed else Ok (JObject (obj_insert k v m))
  | _ => Err DecryptionFailed
  end.
Lemma finish_spec {I} c k h field (site : I -> value -> option value) wrap payload :
  handles c h field site wrap ->
  match finish k h payload with
  | Ok payload' =>
      (exists i ct, get k payload ≫= site i = Some (JString ct)) /\
      (forall i ct, get k payload ≫= site i = Some (JString ct) -> exists pt,
         decrypt_text c (field i) ct = Ok pt /\ get k payload' ≫= site i = Some (wrap i pt)) /\
      (forall k', k' ≠ k -> get k' payload' = get k' payload)
  | Err e => e = DecryptionFailed /\
      ((forall i ct, get k payload ≫= site i ≠ Some (JString ct)) \/
       exists i ct, get k payload ≫= site i = Some (JString ct) /\ is_ok (decrypt_text c (field i) ct) = false)
  end.
Proof.
  intros Hh. destruct payload as [|?|?|?|?|m]; cbn [finish get]; try by (split; [done|left; intros]).
  destruct (obj_get k m) as [v|] eqn:Hk; cbn [ok_or mbind result_bind option_bind]; [|by split; [done|left; intros]].
  destruct (h v) as [[v' n]|e] eqn:Hv; cbn [mbind result_bind].
  - destruct (handles_ok _ _ _ _ _ Hh _ _ _ Hv) as [Ha Hb]. case_bool_decide as Hn.
    + split; [done|]. left. intros i ct Hi. by destruct (Ha i ct Hi).
    + split_and!; [by apply Hb| |].
      * intros i ct Hi. destruct (Ha i ct Hi) as (_ & pt & ? & ?). exists pt. split; [done|].
        cbn [get]. by rewrite obj_get_insert, bool_decide_eq_true_2.
      * intros k' Hne. cbn [get]. by rewrite obj_get_insert, bool_decide_eq_false_2.
  - destruct (handles_err _ _ _ _ _ Hh _ _ Hv) as (i & ct & Hi & Hd). pose proof (decrypt_text_err _ _ _ _ Hd) as ->.
    split; [done|]. right. exists i, ct. by rewrite Hd.
Qed.

(** The sites of a variant are the covered places. *)
Lemma sites_at_places {I} (mode : E2eeAadMode) ep k (site : I -> value -> option value) (place_of : I -> place) :
  (forall i payload, get k payload ≫= site i =
     if covered mode ep (place_of i) then at_place (place_of i) payload else None) ->
  (forall p payload x, covered mode ep p = true -> at_place p payload = Some x -> exists i, p = place_of i) ->
  forall c h wrap payload,
  handles c h (fun i => field_path (place_of i)) site (fun i => wrap (place_of i)) ->
  match finish k h payload with
  | Ok payload' =>
      (exists p ct, covered mode ep p = true /\ at_place p payload = Some (JString ct)) /\
      (forall p ct, covered mode ep p = true -> at_place p payload = Some (JString ct) -> exists pt,
         decrypt_text c (field_path p) ct = Ok pt /\ at_place p payload' = Some (wrap p pt)) /\
      (forall k', k' ≠ k -> get k' payload' = get k' payload)
  | Err e => e = DecryptionFailed /\
      ((forall p ct, covered mode ep p = true -> at_place p payload ≠ Some (JString ct)) \/
       exists p ct, covered mode ep p = true /\ at_place p payload = Some (JString ct) /\
         is_ok (decrypt_text c (field_path p) ct) = false)
  end.
Proof.
  intros Hsite Hplace c h wrap payload Hh. pose proof (finish_spec c k h _ site _ payload Hh) as H.
  destruct (finish k h payload) as [payload'|e]; setoid_rewrite Hsite in H.
  - destruct H as ((i & ct0 & Hi) & Ha & Hk). split_and!; [|intros p ct Hc Hp|done].
    + exists (place_of i), ct0. by destruct (covered mode ep (place_of i)).
    + destruct (Hplace _ _ _ Hc Hp) as [i' ->]. specialize (Ha i' ct). rewrite Hc in Ha.
      destruct (Ha Hp) as (pt & ? & ?). by exists pt.
  - destruct H as [-> H]. split; [done|]. destruct H as [H|(i & ct & Hi & Hd)].
    + left. intros p ct Hc Hp. destruct (Hplace _ _ _ Hc Hp) as [i' ->]. specialize (H i' ct). by rewrite Hc in H.
    + right. exists (place_of i), ct. by destruct (covered mode ep (place_of i)).
Qed.

Definition item_place (whole : place) (item : nat -> place) (i : unit + nat * unit) : place :=
  match i with inl _ => whole | inr (j, _) => item j end.
Definition item_site (i : unit + nat * unit) (v : value) : option value :=
  match i with inl _ => Some v | inr j => l ← as_array v; l !! j.1 end.
Lemma handles_string_or_items c name whole item :
  field_path whole = name -> (forall j, field_path (item j) = name +:+ "." +:+ pretty j) ->
  handles c (decrypt_string_or_items c name) (fun i => field_path (item_place whole item i))
    item_site (fun _ => JString).
Proof.
  intros Hw Hi.
  pose proof (handles_either c _ _ _ _ _ _ _ (handles_string c name JString)
    (handles_items c (fun j v => match v with
       | JString ct => plaintext ← decrypt_text c (name +:+ "." +:+ pretty j) ct; Ok (JString plaintext, 1)
       | _ => Ok (v, 0) end) _ _ _ (fun j => handles_string c (name +:+ "." +:+ pretty j) JString))) as H.
  assert (forall (i : nat * unit) (v x : value), (l ← as_array v; x ← l !! i.1; Some x) = Some x ->
    is_Some (as_array v)) as Hs by (intros i v x; by destruct (as_array v)).
  specialize (H Hs). destruct H as [Ha Hb].
  assert (forall j v, (l ← as_array v; x ← l !! j; Some x) = (l ← as_array v; l !! j)) as Hid.
  { intros j v. destruct (as_array v) as [l|]; [|done]. cbn. by destruct (l !! j). }
  split.
  - intros v v' n H. destruct (Ha v v' n) as [H1 H2]; [by destruct v|]. split.
    + intros [[]|[j []]] ct Hct; [cbn [item_place]; rewrite Hw; apply (H1 (inl ()) ct Hct)|]. cbn [item_place]. rewrite Hi.
      specialize (H1 (inr (j, ())) ct). cbn in H1. rewrite !Hid in H1. by apply H1.
    + intros Hn. destruct (H2 Hn) as ([[]|[j []]] & ct & Hct); [by exists (inl ()), ct|].
      exists (inr (j, ())), ct. cbn in Hct. by rewrite Hid in Hct.
  - intros v e H. destruct (Hb v e) as ([[]|[j []]] & ct & Hct & Hd); [by destruct v| |].
    + exists (inl ()), ct. cbn [item_place]. by rewrite Hw.
    + exists (inr (j, ())), ct. cbn in Hct. rewrite Hid in Hct. cbn [item_place]. by rewrite Hi.
Qed.

Lemma covered_endpoint mode ep p x payload :
  covered mode ep p = true -> at_place p payload = Some x ->
  if bool_decide (ep = COMPLETIONS_PATH) then (exists i, p = item_place Prompt PromptItem i)
  else if bool_decide (ep = EMBEDDINGS_PATH) then (exists i, p = item_place Input InputItem i)
  else exists m i, p = content_place m i.
Proof.
  intros Hc _. destruct p; cbn [covered] in Hc; repeat (apply andb_true_iff in Hc as [Hc ?]);
    repeat match goal with H : bool_decide _ = true |- _ => apply bool_decide_eq_true in H; subst end;
    repeat match goal with H : negb _ = true |- _ => apply negb_true_iff in H; rewrite ?H end;
    try (apply negb_true_iff in Hc; rewrite Hc).
  - by exists (inl ()).
  - by exists (inr (i, ())).
  - by exists (inl ()).
  - by exists (inr (i, ())).
  - by exists m, (inl ()).
  - by exists m, (inr (i, KText)).
  - by exists m, (inr (i, KImage)).
  - by exists m, (inr (i, KAudio)).
Qed.

Lemma handles_wrap {I} c h field (site : I -> value -> option value) wrap wrap' :
  (forall i pt, wrap i pt = wrap' i pt) -> handles c h field site wrap -> handles c h field site wrap'.
Proof.
  intros Hw [Ha Hb]. split; [|done]. intros v v' n H. destruct (Ha _ _ _ H) as [H1 H2]. split; [|done].
  intros i ct Hi. destruct (H1 i ct Hi) as (? & pt & ? & ?). split; [done|]. exists pt. by rewrite <- Hw.
Qed.

Lemma item_sites mode k ep whole item i payload :
  covered mode ep whole = true -> (forall j, covered mode ep (item j) = true) ->
  (forall payload, at_place whole payload = get k payload) ->
  (forall j payload, at_place (item j) payload = (l ← get k payload ≫= as_array; l !! j)) ->
  get k payload ≫= item_site i =
  if covered mode ep (item_place whole item i) then at_place (item_place whole item i) payload else None.
Proof.
  intros Hw Hi Haw Hai. destruct i as [[]|[j []]]; cbn [item_place]; rewrite ?Hw, ?Hi, ?Haw, ?Hai;
    by destruct (get k payload).
Qed.

Definition open_messages c (v : value) : result E2eeError (value * nat) :=
  match v with
  | JArray l => '(l, n) ← update_items (decrypt_message c) 0 l; Ok (JArray l, n)
  | _ => Ok (v, 0)
  end.
Definition message_site (mode : E2eeAadMode) (mi : nat * (unit + nat * part_kind)) (v : value) : option value :=
  l ← as_array v; x ← l !! mi.1; get "content" x ≫= content_site mode mi.2.
Lemma handles_messages c :
  handles c (open_messages c) (fun mi => field_path (content_place mi.1 mi.2)) (message_site (fc_aad_mode c))
    (fun mi => opened_value (content_place mi.1 mi.2)).
Proof.
  apply (handles_items c (decrypt_message c) (fun m i => field_path (content_place m i))
    (fun _ i x => get "content" x ≫= content_site (fc_aad_mode c) i) (fun m i => opened_value (content_place m i))).
  intros m. eapply handles_ext; [|apply handles_member, handles_content]. by intros [].
Qed.
Lemma message_sites mode ep mi payload :
  ep ≠ COMPLETIONS_PATH -> ep ≠ EMBEDDINGS_PATH ->
  get "messages" payload ≫= message_site mode mi =
  if covered mode ep (content_place mi.1 mi.2) then at_place (content_place mi.1 mi.2) payload else None.
Proof.
  intros H1 H2. destruct mi as [m [[]|[i k]]]; cbn [fst snd content_place].
  - cbn [covered]. rewrite !bool_decide_eq_false_2 by done. cbn [negb andb at_place]. unfold message_content, message_site. cbn.
    destruct (get "messages" payload) as [v|]; [|done]. cbn. destruct (as_array v) as [l|]; [|done]. cbn.
    destruct (l !! m) as [x|]; [|done]. cbn. by destruct (get "content" x).
  - assert (covered mode ep (part_place m i k) = kind_enabled mode k) as ->.
    { destruct k; cbn [covered part_place kind_enabled]; rewrite !bool_decide_eq_false_2 by done; by rewrite ?andb_true_r. }
    assert (at_place (part_place m i k) payload = part_of_kind (kind_name k) m i payload ≫= kind_member k) as ->.
    { destruct k; cbn [at_place part_place kind_name kind_member]; [done| |]; by destruct (part_of_kind _ _ _ _). }
    unfold part_of_kind, message_content, message_site, content_site, part_site. cbn.
    destruct (get "messages" payload) as [v|]; [|by destruct (kind_enabled mode k)]. cbn.
    destruct (as_array v) as [l|]; [|by destruct (kind_enabled mode k)]. cbn.
    destruct (l !! m) as [x|]; [|by destruct (kind_enabled mode k)]. cbn.
    destruct (get "content" x) as [u|]; [|by destruct (kind_enabled mode k)]. cbn.
    destruct (as_array u) as [l'|]; [|by destruct (kind_enabled mode k)]. cbn.
    destruct (l' !! i) as [part|]; [|by destruct (kind_enabled mode k)]. cbn.
    by case_bool_decide; destruct (kind_enabled mode k).
Qed.

(** C24: decryption leaves no encrypted field behind and opens each in its own place.
    When it succeeds, at least one field was encrypted, every text at a place the
    endpoint covers was opened under that place's path (with that path's associated
    data) and is replaced there by its plaintext, and other members are untouched.
    It fails, always with the same error, only when there was nothing to open or
    some field does not open. *)
Theorem decryption_opens_every_field c ep payload :
  match decrypt_request_payload c ep payload with
  | Ok payload' =>
      (exists p ct, covered (fc_aad_mode c) ep p = true /\ at_place p payload = Some (JString ct)) /\
      (forall p ct, covered (fc_aad_mode c) ep p = true -> at_place p payload = Some (JString ct) -> exists pt,
         decrypt_text c (field_path p) ct = Ok pt /\ at_place p payload' = Some (opened_value p pt)) /\
      (forall k, k ∉ ["prompt"; "input"; "messages"] -> get k payload' = get k payload)
  | Err e => e = DecryptionFailed /\
      ((forall p ct, covered (fc_aad_mode c) ep p = true -> at_place p payload ≠ Some (JString ct)) \/
       exists p ct, covered (fc_aad_mode c) ep p = true /\ at_place p payload = Some (JString ct) /\
         is_ok (decrypt_text c (field_path p) ct) = false)
  end.
Proof.
  assert (exists k h, k ∈ ["prompt"; "input"; "messages"] /\ decrypt_request_payload c ep payload = finish k h payload /\
    exists I (site : I -> value -> option value) place_of,
      (forall i payload, get k payload ≫= site i =
         if covered (fc_aad_mode c) ep (place_of i) then at_place (place_of i) payload else None) /\
      (forall p payload x, covered (fc_aad_mode c) ep p = true -> at_place p payload = Some x -> exists i, p = place_of i) /\
      handles c h (fun i => field_path (place_of i)) site (fun i => opened_value (place_of i)))
    as (k & h & Hk & -> & I & site & place_of & Hsite & Hplace & Hh).
  2: { pose proof (sites_at_places _ ep k site place_of Hsite Hplace c h opened_value payload Hh) as H.
       destruct (finish k h payload); [|done]. destruct H as (H1 & H2 & H3). split_and!; [done|done|].
       intros k' Hk'. apply H3. by intros ->. }
  unfold decrypt_request_payload. case_bool_decide as H1; [|case_bool_decide as H2].
  - exists "prompt", (decrypt_string_or_items c "prompt"). split; [by left|]. split; [by destruct payload|]. subst ep.
    exists (unit + nat * unit)%type, item_site, (item_place Prompt PromptItem). split_and!.
    + intros i pl. by apply item_sites.
    + intros p pl x Hc Hx. pose proof (covered_endpoint _ _ _ _ _ Hc Hx) as H. by rewrite bool_decide_eq_true_2 in H.
    + eapply handles_wrap; [|by apply handles_string_or_items]. by intros [[]|[]].
  - exists "input", (decrypt_string_or_items c "input"). split; [by right; left|]. split; [by destruct payload|]. subst ep.
    exists (unit + nat * unit)%type, item_site, (item_place Input InputItem). split_and!.
    + intros i pl. by apply item_sites.
    + intros p pl x Hc Hx. pose proof (covered_endpoint _ _ _ _ _ Hc Hx) as H.
      by rewrite bool_decide_eq_false_2, bool_decide_eq_true_2 in H.
    + eapply handles_wrap; [|by apply handles_string_or_items]. by intros [[]|[]].
  - exists "messages", (open_messages c). split; [by right; right; left|]. split.
    { destruct payload as [|?|?|?|?|m]; [done..|]. cbn [finish]. destruct (obj_get "messages" m) as [[| | | |l|]|]; try done.
      cbn. by destruct (update_items _ _ _) as [[]|]. }
    exists (nat * (unit + nat * part_kind))%type, (message_site (fc_aad_mode c)), (fun mi => content_place mi.1 mi.2). split_and!.
    + intros i pl. by apply message_sites.
    + intros p pl x Hc Hx. pose proof (covered_endpoint _ _ _ _ _ Hc Hx) as H. rewrite !bool_decide_eq_false_2 in H by done.
      destruct H as (m & i & ->). by exists (m, i).
    + apply handles_messages.
Qed.
End Opening.

(** ** Replays *)
Section Replay.
Context {SH : Sha} {HX : HexCodec} {SJ : SerdeJson} {CC : CurveCrypto} {EP : E2eeKeyProvider}.

Definition replay_key (a : AcceptedParts) : E2eeReplayKey :=
  mkReplayKey (ap_client_public_key_hex a) (ap_model_public_key_hex a) (to_ascii_lowercase (ap_nonce a)).

(** The caches later calls may leave, up to time [until]. *)
Inductive later_calls (until : Z) : replay_cache -> replay_cache -> Prop :=
| no_more cache : later_calls until cache cache
| one_more cache cache' ks parts body ep now : (now <= until)%Z ->
    later_calls until (prepare_e2ee_v2_request ks cache parts body ep now).2 cache' -> later_calls until cache cache'.

Definition live_claim (cache : replay_cache) (key : E2eeReplayKey) (now : Z) : bool :=
  match cache !! key with Some e => (now <? e)%Z | None => false end.
Lemma claim_spec cache c m n now :
  let key := mkReplayKey c m n in
  claim_e2ee_replay cache c m n now =
  (if live_claim cache key now then (Err ReplayDetected, filter (fun kv => now < kv.2)%Z cache)
   else (Ok (), <[key := (now +| 300)%u64]> (filter (fun kv => now < kv.2)%Z cache))).
Proof.
  unfold claim_e2ee_replay, live_claim. cbv zeta. set (key := mkReplayKey c m n).
  assert (is_Some (filter (fun kv : _ * Z => now < kv.2)%Z cache !! key) <-> exists e, cache !! key = Some e /\ (now < e)%Z) as Hiff.
  { unfold is_Some. setoid_rewrite map_lookup_filter_Some. done. }
  destruct (cache !! key) as [e|]; [destruct (Z.ltb_spec now e)|]; case_bool_decide as H1; rewrite Hiff in H1; naive_solver lia.
Qed.
Lemma claim_keeps cache c m n now key e :
  cache !! key = Some e -> (now < e)%Z -> (claim_e2ee_replay cache c m n now).2 !! key = Some e.
Proof.
  intros Hk He. rewrite claim_spec. destruct (live_claim cache _ now) eqn:H; cbn [snd].
  - by apply map_lookup_filter_Some.
  - rewrite lookup_insert_ne; [by apply map_lookup_filter_Some|]. intros <-. unfold live_claim in H.
    rewrite Hk in H. lia.
Qed.
Lemma later_calls_keep until cache cache' key e :
  later_calls until cache cache' -> cache !! key = Some e -> (until < e)%Z -> cache' !! key = Some e.
Proof.
  induction 1 as [|cache cache' ks parts body ep now Hn _ IH]; [done|]. intros Hk He. apply IH; [|done].
  unfold prepare_e2ee_v2_request. case_bool_decide; [done|]. destruct (accept_parts _ _ _ _) as [a|]; [|done].
  pose proof (claim_keeps cache (ap_client_public_key_hex a) (ap_model_public_key_hex a) (to_ascii_lowercase (ap_nonce a))
    now key e Hk ltac:(lia)) as Hkeep.
  destruct (claim_e2ee_replay _ _ _ _ _) as [[]]; done.
Qed.

(** C27: a request that got past the replay check cannot be presented again within 300
    seconds: however many calls come between, a request with the same keys and the
    same nonce (in any case) is refused as a replay, until 300 seconds after the
    first.  The first request counts also when its fields turn out not to decrypt. *)
Theorem no_replay_within_300_seconds ks cache parts body ep now a cache' ks' parts' body' ep' now' a' :
  rp_signing_algo parts = None -> accept_parts ks parts body now = Ok a ->
  (prepare_e2ee_v2_request ks cache parts body ep now).1 ≠ Err ReplayDetected ->
  later_calls now' (prepare_e2ee_v2_request ks cache parts body ep now).2 cache' ->
  rp_signing_algo parts' = None -> accept_parts ks' parts' body' now' = Ok a' ->
  replay_key a' = replay_key a -> (now' < (now +| 300)%u64)%Z ->
  (prepare_e2ee_v2_request ks' cache' parts' body' ep' now').1 = Err ReplayDetected.
Proof.
  intros Hs Ha Hok Hlater Hs' Ha' Hkey Hnow. unfold prepare_e2ee_v2_request in Hok, Hlater.
  rewrite Hs, Ha, claim_spec in Hok, Hlater. rewrite bool_decide_eq_false_2 in Hok, Hlater by by intros [? [=]].
  change (mkReplayKey _ _ _) with (replay_key a) in *. destruct (live_claim cache _ now); [done|].
  cbv beta iota in Hlater. cbn [snd] in Hlater.
  apply (later_calls_keep _ _ _ (replay_key a) (now +| 300)%u64) in Hlater; [|by rewrite lookup_insert_eq|done].
  unfold prepare_e2ee_v2_request. rewrite Hs', Ha', claim_spec, bool_decide_eq_false_2 by by intros [? [=]].
  change (mkReplayKey (ap_client_public_key_hex a') _ _) with (replay_key a'). rewrite Hkey.
  unfold live_claim. rewrite Hlater, (proj2 (Z.ltb_lt _ _) Hnow). done.
Qed.

(** The time of a call matters to its checks only through the timestamp window. *)
Lemma accept_parts_ts ks parts body now a :
  accept_parts ks parts body now = Ok a ->
  rp_timestamp parts ≫= (fun t => parse_uint u64_max (as_bytes t)) = Some (ap_timestamp a) /\
  forall now', (Z.abs (now' - ap_timestamp a) <= 300)%Z -> accept_parts ks parts body now' = Ok a.
Proof.
  unfold accept_parts. destruct (rp_version parts) as [v|]; cbn [ok_or mbind result_bind option_bind]; [|done].
  case_bool_decide; [done|]. destruct (rp_client_public_key parts); cbn [ok_or mbind result_bind]; [|done].
  destruct (rp_model_public_key parts); cbn [ok_or mbind result_bind]; [|done].
  destruct (rp_nonce parts); cbn [ok_or mbind result_bind]; [|done].
  destruct (rp_timestamp parts) as [t|]; cbn [ok_or mbind result_bind option_bind]; [|done].
  destruct (validate_aci_e2ee_nonce _); cbn [mbind result_bind]; [|done].
  destruct (parse_uint u64_max (as_bytes t)) as [ts|]; cbn [ok_or mbind result_bind]; [|done].
  destruct (300 <? Z.abs (now - ts))%Z; [done|]. intros Hrest.
  assert (ap_timestamp a = ts) as ->.
  { revert Hrest. clear. intros Hrest. bind_inv Hrest. by simplify_eq. }
  split; [done|]. intros now' Hn. by rewrite (proj2 (Z.ltb_ge 300 (Z.abs (now' - ts)))) by lia.
Qed.
(** But the cache forgets a request before its timestamp leaves the accepted
    window.  A claim lasts 300 seconds from the moment it was made, while a
    timestamp is accepted until 300 seconds after the time it states: a request
    accepted once is accepted again, unchanged, at any later time at least 300
    seconds after the first at which its timestamp is still in range, which a
    timestamp of the same second or ahead of the gateway's clock allows. *)
Theorem replay_accepted_after_expiry ks cache parts body ep now now' r ts :
  rp_signing_algo parts = None ->
  (prepare_e2ee_v2_request ks cache parts body ep now).1 = Ok r ->
  rp_timestamp parts ≫= (fun t => parse_uint u64_max (as_bytes t)) = Some ts ->
  (now + 300 <= now')%Z -> (Z.abs (now' - ts) <= 300)%Z ->
  (prepare_e2ee_v2_request ks (prepare_e2ee_v2_request ks cache parts body ep now).2 parts body ep now').1 = Ok r.
Proof.
  intros Hs. assert (bool_decide (is_Some (rp_signing_algo parts)) = false) as Hb
    by (rewrite Hs; by apply bool_decide_eq_false_2; intros [? [=]]).
  unfold prepare_e2ee_v2_request. rewrite Hb. destruct (accept_parts ks parts body now) as [a|] eqn:Ha; [|done].
  intros Hr Hts Hnow Habs. assert (accept_parts ks parts body now' = Ok a) as Ha'.
  { apply accept_parts_ts in Ha as [Ht Hlater]. rewrite Ht in Hts. injection Hts as <-. by apply Hlater. }
  rewrite claim_spec in *. change (mkReplayKey _ _ _) with (replay_key a) in *.
  destruct (live_claim cache (replay_key a) now); [done|]. cbn [fst snd] in *. rewrite Ha', claim_spec.
  change (mkReplayKey _ _ _) with (replay_key a). unfold live_claim. rewrite lookup_insert_eq.
  rewrite (proj2 (Z.ltb_ge now' (now +| 300)%u64)) by (unfold u64_saturating_add; lia). done.
Qed.
End Replay.

(** ** Responses *)
Section Sealing.
Context {SH : Sha} {HX : HexCodec} {SJ : SerdeJson} {CC : CurveCrypto} (rng : nat -> Draws).
Implicit Types ctx : E2eeContext.

(** The text was encrypted for the client under the data of its field, with the
    [k]-th draw. *)
Definition sealed_as ctx (id field : string) (plaintext : bytes) (k : nat) (text : string) : Prop :=
  exists aad, response_aad_for_context ctx id field = Ok aad /\
    encrypt_response_plaintext rng ctx plaintext aad k = Ok (text, S k).

Lemma enc_bind_ok {A B} (m : enc A) (f : A -> enc B) n b n' :
  (m ≫= f) n = Ok (b, n') -> exists a n1, m n = Ok (a, n1) /\ f a n1 = Ok (b, n').
Proof. unfold mbind, enc_bind. destruct (m n) as [[a n1]|]; [|done]. by exists a, n1. Qed.
Lemma lift_ok {A} (r : result E2eeError A) n a n' : lift r n = Ok (a, n') -> r = Ok a /\ n' = n.
Proof. unfold lift. destruct r; [|done]. by intros [= -> ->]. Qed.
Lemma mret_ok {A} (a : A) n b n' : (mret a : enc A) n = Ok (b, n') -> b = a /\ n' = n.
Proof. by intros [= -> ->]. Qed.
Lemma plaintext_draw ctx pt aad n text n' :
  encrypt_response_plaintext rng ctx pt aad n = Ok (text, n') -> n' = S n.
Proof. unfold encrypt_response_plaintext. intros H. destruct (match ec_aad_mode ctx with AciV2 => _ | _ => _ end); cbn in H; [|done]. by injection H. Qed.

(** One member: it is encrypted with the next draw, the others stay. *)
Lemma encrypt_response_field_ok container name field ctx id n container' n' :
  encrypt_response_field rng container name field ctx id n = Ok (container', n') ->
  n <= n' /\ (forall k, k ≠ name -> obj_get k container' = obj_get k container) /\
  (forall pt, obj_get name container = Some (JString pt) -> exists text,
     n < n' /\ obj_get name container' = Some (JString text) /\ sealed_as ctx id field (as_bytes pt) n text).
Proof.
  unfold encrypt_response_field. destruct (obj_get name container) as [v|] eqn:Hv; [|by intros [-> ->]%mret_ok].
  intros (o & n1 & [Ho ->]%lift_ok & H)%enc_bind_ok. destruct o as [pt|].
  2: { apply mret_ok in H as [-> ->]. split_and!; [done|done|]. intros pt [= ->]. done. }
  apply enc_bind_ok in H as (aad & n2 & [Ha ->]%lift_ok & H). apply enc_bind_ok in H as (text & n3 & He & [-> ->]%mret_ok).
  pose proof (plaintext_draw _ _ _ _ _ _ He) as ->. split_and!; [lia| |].
  - intros k Hk. by rewrite obj_get_insert, bool_decide_eq_false_2.
  - intros pt' [= ->]. injection Ho as <-. exists text. rewrite obj_get_insert, bool_decide_eq_true_2 by done.
    split_and!; [lia|done|]. by exists aad.
Qed.

Definition text_members : list string := ["content"; "reasoning"; "reasoning_content"].
Lemma audio_not_text : "audio" ∉ text_members.
Proof. by apply (bool_decide_unpack _). Qed.
(** Different members get different draws. *)
Lemma encrypt_texts_ok container index owner ctx id n container' n' :
  encrypt_texts rng container index owner ctx id n = Ok (container', n') ->
  n <= n' /\ (forall k, k ∉ text_members -> obj_get k container' = obj_get k container) /\
  exists draw : string -> nat,
  (forall name pt, name ∈ text_members -> obj_get name container = Some (JString pt) -> exists text,
     n <= draw name < n' /\ obj_get name container' = Some (JString text) /\
     sealed_as ctx id (choice_path index (owner +:+ "." +:+ name)) (as_bytes pt) (draw name) text) /\
  (forall name name' pt pt', name ∈ text_members -> name' ∈ text_members -> obj_get name container = Some (JString pt) ->
     obj_get name' container = Some (JString pt') -> draw name = draw name' -> name = name').
Proof.
  unfold encrypt_texts, text_members. intros (c1 & n1 & H1 & H)%enc_bind_ok. apply enc_bind_ok in H as (c2 & n2 & H2 & H3).
  apply encrypt_response_field_ok in H1 as (L1 & O1 & S1). apply encrypt_response_field_ok in H2 as (L2 & O2 & S2).
  apply encrypt_response_field_ok in H3 as (L3 & O3 & S3). split_and!; [lia| |].
  { intros k Hk. rewrite !elem_of_cons, elem_of_nil in Hk. rewrite O3, O2, O1; naive_solver. }
  assert (forall pt, obj_get "reasoning" container = Some (JString pt) -> obj_get "reasoning" c1 = Some (JString pt)) as G2
    by (intros; by rewrite O1).
  assert (forall pt, obj_get "reasoning_content" container = Some (JString pt) -> obj_get "reasoning_content" c2 = Some (JString pt))
    as G3 by (intros; by rewrite O2, O1).
  exists (fun name => if String.eqb name "content" then n else if String.eqb name "reasoning" then n1 else n2).
  split.
  - intros name pt Hn. rewrite !elem_of_cons, elem_of_nil in Hn. destruct Hn as [->|[->|[->|[]]]]; cbn -[obj_get]; intros Hg.
    + destruct (S1 pt Hg) as (text & Hl & Ht & Hs). exists text. rewrite O3, O2 by done. split_and!; [lia|lia|done|done].
    + destruct (S2 pt (G2 _ Hg)) as (text & Hl & Ht & Hs). exists text. rewrite O3 by done. split_and!; [lia|lia|done|done].
    + destruct (S3 pt (G3 _ Hg)) as (text & Hl & Ht & Hs). exists text. split_and!; [lia|lia|done|done].
  - intros name name' pt pt' Hn Hn'. rewrite !elem_of_cons, elem_of_nil in Hn, Hn'.
    destruct Hn as [->|[->|[->|[]]]], Hn' as [->|[->|[->|[]]]]; cbn -[obj_get]; try done; intros Hg Hg' ->; exfalso;
      first [destruct (S1 _ Hg) as (? & ? & _)|destruct (S2 _ (G2 _ Hg)) as (? & ? & _)|destruct (S3 _ (G3 _ Hg)) as (? & ? & _)];
      first [destruct (S1 _ Hg') as (? & ? & _)|destruct (S2 _ (G2 _ Hg')) as (? & ? & _)|destruct (S3 _ (G3 _ Hg')) as (? & ? & _)]; lia.
Qed.
Lemma encrypt_audio_ok message ctx id index n message' n' :
  is_aci (ec_aad_mode ctx) = true ->
  encrypt_message_audio_data rng message ctx id index n = Ok (message', n') ->
  n <= n' /\ (forall k, k ≠ "audio" -> obj_get k message' = obj_get k message) /\
  (forall pt, (a ← obj_get "audio" message; get "data" a) = Some (JString pt) -> exists text,
     n < n' /\ (a ← obj_get "audio" message'; get "data" a) = Some (JString text) /\
     sealed_as ctx id (choice_path index "message.audio.data") (as_bytes pt) n text).
Proof.
  intros Haci. unfold encrypt_message_audio_data.
  destruct (obj_get "audio" message) as [[| | | | |audio]|] eqn:Ha; try by intros [-> ->]%mret_ok; rewrite Ha.
  cbn [mbind option_bind get]. destruct (obj_get "data" audio) as [[| | |pt| |]|] eqn:Hd;
    try by intros [-> ->]%mret_ok; rewrite Ha; cbn [mbind option_bind get]; rewrite Hd.
  intros ([nonce ts] & n1 & [Hn ->]%lift_ok & H)%enc_bind_ok. apply enc_bind_ok in H as (aad & n2 & [Haad ->]%lift_ok & H).
  apply enc_bind_ok in H as (text & n3 & He & [-> ->]%mret_ok). pose proof (plaintext_draw _ _ _ _ _ _ He) as ->.
  split_and!; [lia| |].
  - intros k Hk. by rewrite obj_get_insert, bool_decide_eq_false_2.
  - intros ? [= <-]. exists text. rewrite obj_get_insert, bool_decide_eq_true_2 by done. cbn [mbind option_bind get].
    rewrite obj_get_insert, bool_decide_eq_true_2 by done. split_and!; [lia|done|]. exists (Some aad). split; [|done].
    unfold response_aad_for_context. destruct (ec_aad_mode ctx); [|done]. rewrite Hn. cbn [mbind result_bind].
    change (choice_path index "message.audio.data") with ("choices." +:+ pretty index +:+ ".message.audio.data").
    by rewrite Haad.
Qed.

(** What a response says where. *)
Inductive reply_field : Type :=
| ReplyText
| ReplyMember (name : string)
| ReplyAudio
| ReplyEmbedding.
Definition reply_path (index : Z) (f : reply_field) : string :=
  match f with
  | ReplyText => choice_path index "text"
  | ReplyMember name => choice_path index ("message." +:+ name)
  | ReplyAudio => choice_path index "message.audio.data"
  | ReplyEmbedding => "data." +:+ pretty index +:+ ".embedding"
  end.
(** The value at a field of a message and of an item of the response. *)
Definition message_value (mode : E2eeAadMode) (f : reply_field) (message : value) : option value :=
  match f with
  | ReplyMember name => if bool_decide (name ∈ text_members) then get name message else None
  | ReplyAudio => if is_aci mode then a ← get "audio" message; get "data" a else None
  | _ => None
  end.
Definition reply_value (mode : E2eeAadMode) (endpoint_path : string) (f : reply_field) (item : value) : option value :=
  if bool_decide (endpoint_path = EMBEDDINGS_PATH) then
    match f with ReplyEmbedding => get "embedding" item | _ => None end
  else if bool_decide (endpoint_path = COMPLETIONS_PATH) then
    match f with ReplyText => get "text" item | _ => None end
  else get "message" item ≫= message_value mode f.
(** The bytes that are encrypted: a text, or the serialized embedding. *)
Definition plain_bytes (f : reply_field) (v : value) : option bytes :=
  match f with ReplyEmbedding => Some (to_vec v) | _ => as_bytes <$> as_str v end.

Lemma plain_text f v b : f ≠ ReplyEmbedding -> plain_bytes f v = Some b -> exists s, v = JString s /\ b = as_bytes s.
Proof. destruct f, v; cbn; naive_solver. Qed.

(** Every field of [get_field] that holds a plaintext is sealed in [get_field'], each
    with a draw of its own in between. *)
Definition fields_sealed ctx (id : string) (index : Z) (get_field get_field' : reply_field -> option value)
    (draw : reply_field -> nat) (n n' : nat) : Prop :=
  (forall f v pt, get_field f = Some v -> plain_bytes f v = Some pt -> exists text,
     n <= draw f < n' /\ get_field' f = Some (JString text) /\ sealed_as ctx id (reply_path index f) pt (draw f) text) /\
  (forall f g v w pt pt', get_field f = Some v -> plain_bytes f v = Some pt ->
     get_field g = Some w -> plain_bytes g w = Some pt' -> draw f = draw g -> f = g).

Lemma seal_message_ok message index ctx id n message' n' :
  (message ← encrypt_texts rng message index "message" ctx id;
   if is_aci (ec_aad_mode ctx) then encrypt_message_audio_data rng message ctx id index else mret message) n = Ok (message', n') ->
  n <= n' /\ exists draw, fields_sealed ctx id index (fun f => message_value (ec_aad_mode ctx) f (JObject message))
    (fun f => message_value (ec_aad_mode ctx) f (JObject message')) draw n n'.
Proof.
  intros (m1 & n1 & (L1 & O1 & d & S1 & I1)%encrypt_texts_ok & H2)%enc_bind_ok.
  assert (n1 <= n' /\ (forall k, k ≠ "audio" -> obj_get k message' = obj_get k m1) /\
    (is_aci (ec_aad_mode ctx) = true -> forall pt, (a ← obj_get "audio" m1; get "data" a) = Some (JString pt) -> exists text,
       n1 < n' /\ (a ← obj_get "audio" message'; get "data" a) = Some (JString text) /\
       sealed_as ctx id (choice_path index "message.audio.data") (as_bytes pt) n1 text)) as (L2 & O2 & S2).
  { destruct (is_aci (ec_aad_mode ctx)) eqn:Haci; [|apply mret_ok in H2 as [-> ->]; done].
    apply encrypt_audio_ok in H2 as (? & ? & ?); [|done]. by split_and!. }
  split; [lia|]. exists (fun f => match f with ReplyMember name => d name | _ => n1 end). split.
  - intros [|name| |] v pt; cbn [message_value reply_path]; try done.
    + case_bool_decide as Hin; [|done]. cbn [get]. intros Hv (s & -> & ->)%plain_text; [|done].
      destruct (S1 name s Hin Hv) as (text & Hd & Hg & Hs). exists text.
      rewrite O2, Hg by (intros ->; by apply audio_not_text). split_and!; [lia|lia|done|done].
    + destruct (is_aci (ec_aad_mode ctx)); [|done]. cbn [get]. intros Hv (s & -> & ->)%plain_text; [|done].
      rewrite <- (O1 "audio" audio_not_text) in Hv.
      destruct (S2 eq_refl s Hv) as (text & Hl & Hx & Hs). exists text. split_and!; [lia|lia|done|done].
  - intros [|name| |] [|name'| |] v w pt pt'; cbn [message_value]; try done.
    all: repeat case_bool_decide; try done; cbn [get].
    + intros Hv (s & -> & ->)%plain_text Hw (s' & -> & ->)%plain_text Hd; [|done..]. f_equal. by eapply I1.
    + intros Hv (s & -> & ->)%plain_text _ _ Hd; [|done]. edestruct S1 as (? & ? & _); [done..|]. lia.
    + intros _ _ Hw (s & -> & ->)%plain_text Hd; [|done]. edestruct S1 as (? & ? & _); [done..|]. lia.
Qed.

(** One item of a buffered response: a choice, or an embedding. *)
Definition encrypt_item (ep : string) ctx (id : string) : nat -> value -> enc value :=
  if bool_decide (ep = EMBEDDINGS_PATH) then encrypt_embedding_item rng ctx id else encrypt_choice rng ep ctx id.
Definition sealed_item ctx (ep id : string) (draw : reply_field -> nat) (p : nat) (item item' : value) (n n' : nat) : Prop :=
  n <= n' /\ fields_sealed ctx id (item_index p item) (fun f => reply_value (ec_aad_mode ctx) ep f item)
    (fun f => reply_value (ec_aad_mode ctx) ep f item') draw n n'.

(** An item with nothing to encrypt. *)
Lemma nothing_sealed ctx ep id p item n :
  (forall f v pt, reply_value (ec_aad_mode ctx) ep f item = Some v -> plain_bytes f v = Some pt -> False) ->
  sealed_item ctx ep id (fun _ => n) p item item n n.
Proof. intros H. split; [done|]. split; [intros f v pt Hv Hp; destruct (H f v pt Hv Hp)|intros f ? v ? pt ? Hv Hp; destruct (H f v pt Hv Hp)]. Qed.
(** An item with one field to encrypt. *)
Lemma one_sealed ctx ep id p item item' field n n' :
  n <= n' -> (forall f v, reply_value (ec_aad_mode ctx) ep f item = Some v -> f = field) ->
  (forall v pt, reply_value (ec_aad_mode ctx) ep field item = Some v -> plain_bytes field v = Some pt -> exists text,
     n < n' /\ reply_value (ec_aad_mode ctx) ep field item' = Some (JString text) /\
     sealed_as ctx id (reply_path (item_index p item) field) pt n text) ->
  sealed_item ctx ep id (fun _ => n) p item item' n n'.
Proof.
  intros L Hf H. split; [done|]. split.
  - intros f v pt Hv Hp. pose proof (Hf f v Hv) as ->. destruct (H v pt Hv Hp) as (text & ? & ? & ?).
    exists text. by split_and!.
  - intros f g v w pt pt' Hv _ Hw _ _. by rewrite (Hf f v Hv), (Hf g w Hw).
Qed.

Lemma encrypt_embedding_item_ok ctx id p item n item' n' :
  encrypt_embedding_item rng ctx id p item n = Ok (item', n') ->
  exists draw, sealed_item ctx EMBEDDINGS_PATH id draw p item item' n n'.
Proof.
  intros H. exists (fun _ => n). revert H. unfold encrypt_embedding_item.
  destruct item as [|?|?|?|?|entry]; try (intros [-> ->]%mret_ok; apply nothing_sealed; by intros []).
  destruct (obj_get "embedding" entry) as [e|] eqn:He.
  - intros (aad & n1 & [Ha ->]%lift_ok & H)%enc_bind_ok. apply enc_bind_ok in H as (text & n2 & Ht & [-> ->]%mret_ok).
    pose proof (plaintext_draw _ _ _ _ _ _ Ht) as ->. apply (one_sealed _ _ _ _ _ _ ReplyEmbedding); [lia|by intros []|].
    unfold reply_value. rewrite bool_decide_eq_true_2 by done. cbn [get plain_bytes]. rewrite He.
    intros v pt [= <-] [= <-]. exists text. rewrite obj_get_insert, bool_decide_eq_true_2 by done.
    split_and!; [lia|done|]. by exists aad.
  - intros [-> ->]%mret_ok. apply nothing_sealed. intros [] v pt; unfold reply_value; rewrite bool_decide_eq_true_2 by done; cbn; by rewrite ?He.
Qed.
Lemma encrypt_choice_ok ep ctx id p choice n choice' n' :
  ep ≠ EMBEDDINGS_PATH -> encrypt_choice rng ep ctx id p choice n = Ok (choice', n') ->
  exists draw, sealed_item ctx ep id draw p choice choice' n n'.
Proof.
  intros Hemb. unfold encrypt_choice.
  destruct choice as [|?|?|?|?|c].
  1-5: intros [-> ->]%mret_ok; exists (fun _ => n); apply nothing_sealed; intros [] v pt; unfold reply_value;
    repeat case_bool_decide; done.
  case_bool_decide as Hep.
  - intros (c' & n1 & (L & O & S)%encrypt_response_field_ok & [-> ->]%mret_ok)%enc_bind_ok.
    exists (fun _ => n). apply (one_sealed _ _ _ _ _ _ ReplyText); [lia| |]; unfold reply_value;
      rewrite bool_decide_eq_false_2, bool_decide_eq_true_2 by done; [by intros []|].
    cbn [get]. intros v pt Hv (s & -> & ->)%plain_text; [|done]. apply (S s Hv).
  - destruct (obj_get "message" c) as [[| | | | |message]|] eqn:Hm.
    6: { intros (m1 & n1 & H1 & H)%enc_bind_ok. apply enc_bind_ok in H as (m2 & n2 & H2 & [-> ->]%mret_ok).
      destruct (seal_message_ok message (item_index p (JObject c)) ctx id n m2 n2) as (L & d & S & I).
      { unfold mbind, enc_bind. by rewrite H1. }
      exists d. split; [done|]. unfold reply_value. rewrite !bool_decide_eq_false_2 by done. split; cbn [get].
      - rewrite Hm. cbn [mbind option_bind]. intros f v pt Hv Hpt. rewrite obj_get_insert, bool_decide_eq_true_2 by done.
        by apply S with v.
      - rewrite Hm. cbn [mbind option_bind]. apply I. }
    all: intros [-> ->]%mret_ok; exists (fun _ => n); apply nothing_sealed; intros f v pt; unfold reply_value;
      rewrite !bool_decide_eq_false_2 by done; cbn [get]; rewrite Hm; cbn [mbind option_bind];
      destruct f; cbn; repeat case_bool_decide; done || by destruct (is_aci _).
Qed.

(** The draws of the items follow each other: those of item [j] are between the
    counters [ms j] and [ms (S j)]. *)
Lemma encrypt_items_ok {D} (f : nat -> value -> enc value) (R : D -> nat -> value -> value -> nat -> nat -> Prop) `{Inhabited D} i l n l' n' :
  (forall p x n x' n', f p x n = Ok (x', n') -> exists d, R d p x x' n n') ->
  (forall d p x x' n n', R d p x x' n n' -> n <= n') ->
  encrypt_items f i l n = Ok (l', n') ->
  exists (ds : nat -> D) (ms : nat -> nat), ms 0 = n /\ (forall j, ms j <= ms (S j) <= n') /\
    forall j x, l !! j = Some x -> exists x', l' !! j = Some x' /\ R (ds j) (i + j) x x' (ms j) (ms (S j)).
Proof.
  intros Hf Hle. revert i n l' n'. induction l as [|y l IH]; intros i n l' n'; cbn [encrypt_items].
  - intros [-> ->]%mret_ok. exists (fun _ => inhabitant), (fun _ => n). done.
  - intros (y' & n1 & Hy & H1)%enc_bind_ok. apply enc_bind_ok in H1 as (l'' & n2 & Hl & [-> ->]%mret_ok).
    apply Hf in Hy as [d HR]. pose proof (Hle _ _ _ _ _ _ HR). destruct (IH _ _ _ _ Hl) as (ds & ms & M0 & M & S).
    exists (fun j => match j with 0 => d | S j => ds j end), (fun j => match j with 0 => n | S j => ms j end).
    split_and!; [done| |].
    + intros [|j]; [|apply M]. pose proof (M 0). lia.
    + intros [|j] x; cbn.
      * intros [= <-]. exists y'. rewrite Nat.add_0_r, M0. done.
      * intros Hx. destruct (S j x Hx) as (x' & ? & ?). exists x'. by rewrite <- Nat.add_succ_comm.
Qed.
Lemma counters_ordered (ms : nat -> nat) j k : (forall j, ms j <= ms (S j)) -> j <= k -> ms j <= ms k.
Proof. intros H. induction 1 as [|k _ IH]; [done|]. pose proof (H k). lia. Qed.

(** The items of a response. *)
Definition reply_items (endpoint_path : string) (payload : value) : list value :=
  default [] (get (if bool_decide (endpoint_path = EMBEDDINGS_PATH) then "data" else "choices") payload ≫= as_array).

(** The field [f] of the [p]-th item of the response holds this plaintext. *)
Definition holds_plain ctx (ep : string) (payload : value) (p : nat) (f : reply_field) (pt : bytes) : Prop :=
  exists item v, reply_items ep payload !! p = Some item /\ reply_value (ec_aad_mode ctx) ep f item = Some v /\
    plain_bytes f v = Some pt.

(** C25: in the encrypted body of a buffered response every covered field has
    been replaced by its encryption to the client's key.  The covered fields are, by
    endpoint: an embedding in any form; the text of a completion; the content, the
    reasoning and the reasoning content of a chat message when they are strings, and in
    v2 mode the data of its audio.  The associated data is, in v2 mode, that of the
    response's id and the field's own path and index (in legacy mode there is none), and
    no two fields share a draw of the random number generator. *)
Theorem responses_leave_encrypted body ctx ep n out n' :
  encrypt_e2ee_response_body rng body ctx ep n = Ok (out, n') ->
  exists payload payload' (draw : nat -> reply_field -> nat), from_slice body = Ok payload /\ out = to_vec payload' /\
    (forall p item f pt, reply_items ep payload !! p = Some item -> holds_plain ctx ep payload p f pt ->
      exists item' text, reply_items ep payload' !! p = Some item' /\
        reply_value (ec_aad_mode ctx) ep f item' = Some (JString text) /\ n <= draw p f < n' /\
        sealed_as ctx (response_id_of payload) (reply_path (item_index p item) f) pt (draw p f) text) /\
    (forall p q f g pt pt', holds_plain ctx ep payload p f pt -> holds_plain ctx ep payload q g pt' ->
      draw p f = draw q g -> p = q /\ f = g).
Proof.
  unfold encrypt_e2ee_response_body. intros (payload & n1 & [Hp ->]%lift_ok & H)%enc_bind_ok. autorewrite with results in Hp.
  apply enc_bind_ok in H as (payload' & n2 & H & [-> ->]%mret_ok). exists payload, payload'.
  set (name := if bool_decide (ep = EMBEDDINGS_PATH) then "data" else "choices").
  assert (encrypt_member name (encrypt_item ep ctx (response_id_of payload)) payload n = Ok (payload', n2)) as He.
  { unfold name, encrypt_item. by case_bool_decide. }
  cut (exists draw ms, ms 0 = n /\ (forall j, ms j <= ms (S j) <= n2) /\
    forall p item, reply_items ep payload !! p = Some item -> exists item', reply_items ep payload' !! p = Some item' /\
      sealed_item ctx ep (response_id_of payload) (draw p) p item item' (ms p) (ms (S p))).
  { intros (draw & ms & M0 & M & Hs). pose proof (fun j => counters_ordered ms 0 j (fun j => proj1 (M j)) (Nat.le_0_l j)) as M1.
    rewrite M0 in M1. exists draw. split_and!; [done..| |].
    - intros p item f pt Hi (? & v & Hi' & Hv & Hpt). rewrite Hi in Hi'. injection Hi' as <-.
      destruct (Hs p item Hi) as (item' & Hl & _ & S & _). destruct (S f v pt Hv Hpt) as (text & ? & ? & ?).
      exists item', text. pose proof (M p). pose proof (M1 p). split_and!; [done|done|lia|lia|done].
    - intros p q f g pt pt' (i & v & Hi & Hv & Hpt) (i' & w & Hi' & Hw & Hpt') Hd.
      destruct (Hs p i Hi) as (? & _ & _ & S & I). destruct (Hs q i' Hi') as (? & _ & _ & S' & _).
      destruct (S f v pt Hv Hpt) as (? & ? & _), (S' g w pt' Hw Hpt') as (? & ? & _).
      destruct (decide (p = q)) as [->|Hpq].
      + rewrite Hi in Hi'. injection Hi' as <-. split; [done|]. by eapply (I f g v w).
      + exfalso. destruct (Nat.lt_total p q) as [Hlt|[?|Hlt]]; [|done|];
          pose proof (counters_ordered ms _ _ (fun j => proj1 (M j)) Hlt); lia. }
  unfold reply_items. fold name. destruct payload as [|?|?|?|?|m].
  1-5: by exists (fun _ _ => 0), (fun _ => n); split_and!; [..|intros p item]; unfold encrypt_member in He;
    apply mret_ok in He as [-> ->].
  unfold encrypt_member in He. cbn [get].
  destruct (obj_get name m) as [[| | | |items|]|] eqn:Hm.
  5: { apply enc_bind_ok in He as (items' & n3 & He & [-> ->]%mret_ok).
    apply (encrypt_items_ok _ (fun d p x x' n n' => sealed_item ctx ep (response_id_of (JObject m)) d p x x' n n'))
      in He as (ds & ms & M0 & M & Hs).
    - exists ds, ms. split_and!; [done..|]. cbn [get]. rewrite obj_get_insert, bool_decide_eq_true_2 by done. exact Hs.
    - intros q x k x' k' Hx. unfold encrypt_item in Hx. case_bool_decide; [subst ep; by apply encrypt_embedding_item_ok|].
      by apply encrypt_choice_ok.
    - by intros ? ? ? ? ? ? [? _]. }
  all: by exists (fun _ _ => 0), (fun _ => n); split_and!; [..|intros p item]; apply mret_ok in He as [-> ->].
Qed.
End Sealing.

(** *** Witnesses *)
#[local] Existing Instances sample_sha sample_hex sample_json sample_curves sample_points sample_signing.
#[local] Instance sample_e2ee_keys : E2eeKeyProvider := dstack_e2ee sample_provider.

Lemma aad_identifies_field_witness :
  aad_of (RequestField "a" "m" "n" 7 (PromptItem 1)) ≠ aad_of (RequestField "a" "m" "n" 7 Prompt).
Proof.
  intros H. by apply (aad_identifies_field (RequestField "a" "m" "n" 7 (PromptItem 1)) (RequestField "a" "m" "n" 7 Prompt)) in H.
Defined.

Definition sample_e2ee_keyset : WorkloadKeyset := mkWorkloadKeyset None 0 [] e2ee_keys [].
Definition sample_parts (timestamp : string) : E2eeRequestParts :=
  mkE2eeRequestParts None (Some (x25519_public_key_hex sample_key)) (Some (x25519_public_key_hex sample_key))
    (Some "2") (Some sample_nonce) (Some timestamp).
Definition sample_body (timestamp : Z) : bytes :=
  let aad := default [] (result_ok (aci_request_aad E2EE_ALGO_X25519_AESGCM "m" "prompt" sample_nonce timestamp)) in
  let text := default "" (result_ok (encrypt_x25519_for_public_key sample_draws (x25519_public_key_hex sample_key) (as_bytes "hi") aad)) in
  to_vec (JObject [("model", JString "m"); ("prompt", JString text)]).
Definition sample_accepted : AcceptedParts :=
  match accept_parts sample_e2ee_keyset (sample_parts "1300") (sample_body 1300) 1000 with
  | Ok a => a
  | Err _ => mkAcceptedParts (mkKeyedPublicKey "" "" "") "" "" "" 0 JNull ""
  end.
Lemma sample_accepts now : (1000 <= now <= 1600)%Z ->
  accept_parts sample_e2ee_keyset (sample_parts "1300") (sample_body 1300) now = Ok sample_accepted.
Proof.
  intros Hn. assert (accept_parts sample_e2ee_keyset (sample_parts "1300") (sample_body 1300) 1000 = Ok sample_accepted) as Ha
    by (vm_compute; reflexivity).
  assert (ap_timestamp sample_accepted = 1300%Z) as Hts by (vm_compute; reflexivity).
  apply (accept_parts_ts _ _ _ _ _ Ha). rewrite Hts. lia.
Qed.
Lemma no_replay_within_300_seconds_witness :
  (prepare_e2ee_v2_request sample_e2ee_keyset
    (prepare_e2ee_v2_request sample_e2ee_keyset ∅ (sample_parts "1300") (sample_body 1300) COMPLETIONS_PATH 1000).2
    (sample_parts "1300") (sample_body 1300) COMPLETIONS_PATH 1299).1 = Err ReplayDetected.
Proof.
  apply (no_replay_within_300_seconds sample_e2ee_keyset ∅ (sample_parts "1300") (sample_body 1300) COMPLETIONS_PATH 1000
    sample_accepted _ sample_e2ee_keyset (sample_parts "1300") (sample_body 1300) COMPLETIONS_PATH 1299 sample_accepted).
  - reflexivity.
  - apply sample_accepts. lia.
  - vm_compute. discriminate.
  - apply no_more.
  - reflexivity.
  - apply sample_accepts. lia.
  - reflexivity.
  - vm_compute. reflexivity.
Defined.

Definition sample_prepared : E2eePreparedRequest :=
  mkE2eePrepared (to_vec (JObject [("model", JString "m"); ("prompt", JString "hi")]))
    (mkE2eeContext "2" E2EE_ALGO_X25519_AESGCM AciV2 "m" (x25519_public_key_hex sample_key) (Some sample_nonce) (Some 1300%Z)).
Lemma replay_accepted_after_expiry_witness :
  (prepare_e2ee_v2_request sample_e2ee_keyset
    (prepare_e2ee_v2_request sample_e2ee_keyset ∅ (sample_parts "1300") (sample_body 1300) COMPLETIONS_PATH 1000).2
    (sample_parts "1300") (sample_body 1300) COMPLETIONS_PATH 1450).1 = Ok sample_prepared.
Proof.
  apply (replay_accepted_after_expiry _ _ _ _ _ 1000 1450 _ 1300).
  - reflexivity.
  - vm_compute. reflexivity.
  - vm_compute. reflexivity.
  - lia.
  - lia.
Defined.

Definition sample_reply : value :=
  JObject [("id", JString "r"); ("choices", JArray [JObject [("message", JObject [("content", JString "hello")])]])].
Definition sample_run : result E2eeError (bytes * nat) :=
  encrypt_e2ee_response_body (fun _ => sample_draws) (to_vec sample_reply) (pr_context sample_prepared) CHAT_COMPLETIONS_PATH 0.
Lemma responses_leave_encrypted_witness : exists out n' payload' item' text, sample_run = Ok (out, n') /\ out = to_vec payload' /\
  reply_items CHAT_COMPLETIONS_PATH payload' !! 0 = Some item' /\
  reply_value AciV2 CHAT_COMPLETIONS_PATH (ReplyMember "content") item' = Some (JString text).
Proof.
  assert (exists out n', sample_run = Ok (out, n')) as (out & n' & Hr) by (vm_compute; do 2 eexists; reflexivity).
  destruct (responses_leave_encrypted (fun _ => sample_draws) (to_vec sample_reply) (pr_context sample_prepared)
    CHAT_COMPLETIONS_PATH 0 out n' Hr) as (payload & payload' & draw & Hp & Ho & Hs & _).
  assert (payload = sample_reply) as ->.
  { assert (from_slice (to_vec sample_reply) = Ok sample_reply) as Hq by (vm_compute; reflexivity). congruence. }
  destruct (Hs 0 (JObject [("message", JObject [("content", JString "hello")])]) (ReplyMember "content") (as_bytes "hello"))
    as (item' & text & H1 & H2 & _); [reflexivity|by eexists _, (JString "hello")|].
  exists out, n', payload', item', text. split; [exact Hr|split; [exact Ho|split; [exact H1|exact H2]]].
Defined.
