(* ===== verification/Retention.v ===== *)
(** * Publishing a receipt (src/aggregator/service/receipts.rs)

    [store_receipt] retains the cited session and then publishes the receipt, with
    one deadline.  It is written against what a session store promises about leases;
    the in-memory store of [SessionStore] is shown to keep that promise.  The theorem
    is the retention rule of the protocol, for the in-memory stores and whatever other
    requests do to them: a session stays resolvable for as long as a receipt that
    cites it. *)
From S2P Require Import Prelude Json External Sample Digest Identity Receipt ReceiptStore RelyingParty.
From S2P Require Import Session Deadlines SessionStore Errors.

(** What the service needs of a session store. *)
Class SessionKeeper := {
  keeper : Type;
  keeper_lease : Type;
  keeper_extend : keeper -> keeper_lease -> Z -> keeper * result string unit;
  lease_session : keeper_lease -> string;
  keeper_held : keeper -> keeper_lease -> Prop;
  keeper_serves : keeper -> string -> Z -> Prop;
  keeper_extend_serves k l deadline :
    keeper_held k l ->
    exists k', keeper_extend k l deadline = (k', Ok ()) /\ keeper_held k' l /\
      forall now, (now < deadline)%Z -> keeper_serves k' (lease_session l) now;
}.

Section Publish.
Context {K : SessionKeeper}.

Definition store_receipt (receipts : InMemoryReceiptStore) (sessions : keeper) (receipt : SignedReceipt)
    (requester : option ReceiptOwner) (now ttl_seconds : Z) (lease : option keeper_lease) :
    (InMemoryReceiptStore * keeper) * result ServiceError unit :=
  let expires_at := (now +| ttl_seconds)%u64 in
  let '(sessions, retained) :=
    match lease with
    | Some lease =>
        let '(sessions, r) := keeper_extend sessions lease expires_at in
        (sessions, map_err (fun err => SessionStoreError ("failed to retain cited session: " +:+ err)) r)
    | None => (sessions, Ok ())
    end in
  match retained with
  | Err e => ((receipts, sessions), Err e)
  | Ok _ => ((put receipts receipt requester now expires_at, sessions), Ok ())
  end.
End Publish.

(** ** The in-memory session store keeps the promise *)
Section Instance_.
Context {SH : Sha} {HX : HexCodec} {B64 : Base64} {SJ : SerdeJson} {HD : HashDomain}.

Definition serves (s : StoreState) (id : string) (now : Z) : Prop :=
  exists session, (get_session s id now).2 = Some session /\ as_session_id session = id.

#[export] Program Instance in_memory_keeper : SessionKeeper := {|
  keeper := StoreState;
  keeper_lease := SessionLease;
  keeper_extend := extend_retention;
  lease_session := le_session_id;
  keeper_held s l := state_ok s /\ l ∈ ss_leases s;
  keeper_serves := serves;
|}.
Next Obligation.
  intros s l deadline [Hs Hin].
  destruct (extend_retention_ok s l deadline Hs Hin) as (e & x & He & Hx & Hok & Hb).
  eexists. split; [exact Hx|]. split; [done|]. intros now Hnow.
  assert (si_by_id x !! le_session_id l = Some (set_retention e (Z.max (se_retention_until e) deadline))) as He'
    by (rewrite Hb; apply lookup_insert_eq).
  destruct (index_get_served (held_by (ss_leases s)) x (le_session_id l) now _ (so_index _ Hok) He')
    as (session & Hg & _ & Hid); [left; cbn; lia|].
  exists session. unfold get_session. cbn [ss_leases ss_index].
  destruct (index_get _ x _ _) as [x' r]. cbn in *. done.
Qed.

(** ** Until the deadline *)
(** What the other requests of the gateway do to the two stores, at moments before
    [deadline]: they write receipts with other ids, look receipts up, look sessions up,
    acquire sessions, extend them and publish receipts with leases that are held, and
    clone and drop leases. *)
Definition Stores : Type := InMemoryReceiptStore * StoreState.
Inductive gateway_step (id : string) (deadline : Z) : Stores -> Stores -> Prop :=
| gs_put r s receipt owner now expires : sr_receipt_id receipt ≠ id -> (now < deadline)%Z ->
    gateway_step id deadline (r, s) (put r receipt owner now expires, s)
| gs_receipt r s id' now : (now < deadline)%Z -> gateway_step id deadline (r, s) ((get_by_receipt_id r id' now).1, s)
| gs_chat r s chat now : (now < deadline)%Z -> gateway_step id deadline (r, s) ((get_by_chat_id r chat now).1, s)
| gs_owner r s id' now : (now < deadline)%Z -> gateway_step id deadline (r, s) ((owner_of r id' now).1, s)
| gs_session r s sid now : (now < deadline)%Z -> gateway_step id deadline (r, s) (r, (get_session s sid now).1)
| gs_acquire r s fp ret now seal : (now < deadline)%Z -> (forall session, seal () = Ok session -> genuine session) ->
    gateway_step id deadline (r, s) (r, (current_or_seal s fp ret now seal).1)
| gs_extend r s l t : l ∈ ss_leases s -> gateway_step id deadline (r, s) (r, (extend_retention s l t).1)
| gs_publish r s receipt owner now ttl l : sr_receipt_id receipt ≠ id -> (now < deadline)%Z -> l ∈ ss_leases s ->
    gateway_step id deadline (r, s) (store_receipt (K := in_memory_keeper) r s receipt owner now ttl (Some l)).1
| gs_clone r s l : l ∈ ss_leases s -> gateway_step id deadline (r, s) (r, clone_lease s l)
| gs_drop r s l : gateway_step id deadline (r, s) (r, drop_lease s l).

(** The receipt side. *)
Definition holds (r : InMemoryReceiptStore) (id : string) (e : StoredReceipt) : Prop := store_ok r /\ by_receipt r !! id = Some e.
Lemma put_holds r id e receipt owner now t : holds r id e -> sr_receipt_id receipt ≠ id -> (now < st_expires_at e)%Z ->
  holds (put r receipt owner now t) id e.
Proof.
  intros [Hok He] Hne Hnow. destruct (put_refines r receipt owner now t Hok) as [Hok' Habs]. split; [done|].
  change (by_receipt ?x) with (abstract x).1. rewrite Habs. cbn [abs_put fst]. rewrite lookup_insert_ne, lookup_delete_ne by done.
  by apply map_lookup_filter_Some.
Qed.
Lemma entry_holds r id e id' now : holds r id e -> (now < st_expires_at e)%Z -> holds (live_entry r id' now).1 id e.
Proof.
  intros [Hok He] Hnow. destruct (live_entry_spec r id' now Hok) as (Hok' & _ & Hb). split; [done|]. rewrite Hb.
  destruct (decide (live r now id')) as [|Hl]; [done|]. rewrite lookup_delete_ne; [done|]. intros ->. destruct Hl. by exists e.
Qed.
Lemma holds_served r id e now : holds r id e -> (now < st_expires_at e)%Z ->
  (get_by_receipt_id r id now).2 = Some (st_receipt e) /\ (owner_of r id now).2 = st_owner e.
Proof.
  intros [Hok He] Hnow. rewrite get_by_receipt_id_eq, owner_of_eq. cbn [snd].
  destruct (live_entry_spec r id now Hok) as (_ & -> & _). rewrite decide_True by (by exists e). by rewrite He.
Qed.

(** The session side. *)
Definition kept (x : SessionIndex) (sid : string) (deadline : Z) : Prop :=
  exists e, si_by_id x !! sid = Some e /\ (deadline <= se_retention_until e)%Z.
Lemma evict_kept held x now sid deadline : index_ok x -> (now < deadline)%Z -> kept x sid deadline -> kept (evict_lapsed held x now) sid deadline.
Proof. intros Hok Hnow (e & He & Hd). exists e. split; [|done]. apply evict_lapsed_spec; [done|]. split; [done|]. left. lia. Qed.
Lemma retention_kept x x' id e t sid deadline : si_by_id x !! id = Some e ->
  si_by_id x' = <[id := set_retention e (Z.max (se_retention_until e) t)]> (si_by_id x) -> kept x sid deadline -> kept x' sid deadline.
Proof.
  intros He Hb (e0 & He0 & Hd). unfold kept. rewrite Hb. destruct (decide (sid = id)) as [->|Hne].
  - rewrite lookup_insert_eq. eexists. split; [done|]. rewrite He in He0. injection He0 as <-. cbn. lia.
  - rewrite lookup_insert_ne by done. by exists e0.
Qed.
Lemma insert_kept x fp split ret sid deadline : kept x sid deadline -> kept (index_insert x fp split ret) sid deadline.
Proof.
  intros (e & He & Hd). unfold kept, index_insert. cbn [si_by_id]. destruct (decide (sid = sp_session_id split)) as [->|Hne].
  - rewrite lookup_insert_eq, He. eexists. split; [done|]. cbn. lia.
  - rewrite lookup_insert_ne by done. by exists e.
Qed.
Lemma acquire_kept s fp ret now seal sid deadline : state_ok s -> (forall session, seal () = Ok session -> genuine session) -> (now < deadline)%Z ->
  kept (ss_index s) sid deadline -> kept (ss_index (current_or_seal s fp ret now seal).1) sid deadline.
Proof.
  intros [Hok _] Hg Hnow Hk. pose proof (evict_kept (held_by (ss_leases s)) _ now sid deadline Hok Hnow Hk) as Hk1. unfold current_or_seal.
  destruct (index_current_spec (held_by (ss_leases s)) (ss_index s) fp ret now Hok) as [(e & l & x2 & -> & _ & _ & He & _ & _ & _ & Hb)| ->].
  - by eapply retention_kept.
  - destruct (seal ()) as [session|] eqn:Hs; [|done]. cbn [mbind result_bind]. destruct (split_new session) as [split|] eqn:Hsp; [|done].
    destruct (index_lease _ _) as [l|]; [|by apply insert_kept]. apply evict_kept; [|done|by apply insert_kept].
    eapply index_insert_ok; [by apply evict_lapsed_spec|by apply Hg|done].
Qed.
Definition stands (w : Stores) (id : string) (e : StoredReceipt) (sid : string) : Prop :=
  holds w.1 id e /\ state_ok w.2 /\ kept (ss_index w.2) sid (st_expires_at e).
Lemma extend_stands r s id e sid l t : stands (r, s) id e sid -> l ∈ ss_leases s ->
  (extend_retention s l t).2 = Ok () /\ stands (r, (extend_retention s l t).1) id e sid.
Proof.
  intros (Hr & Hs & Hk) Hin. destruct (extend_retention_ok s l t Hs Hin) as (e0 & x & He & -> & Hok & Hb).
  split; [done|]. split; [done|]. split; [done|]. by eapply retention_kept.
Qed.
Lemma step_stands id e sid w w' : gateway_step id (st_expires_at e) w w' -> stands w id e sid -> stands w' id e sid.
Proof.
  destruct 1 as [r s receipt owner now expires Hne Hnow|r s id' now Hnow|r s chat now Hnow|r s id' now Hnow|r s sid' now Hnow
    |r s fp ret now seal Hnow Hg|r s l t Hin|r s receipt owner now ttl l Hne Hnow Hin|r s l Hin|r s l]; intros Hst; pose proof Hst as (Hr & Hs & Hk); cbn [fst snd] in *.
  - split; [by apply put_holds|done].
  - split; [|done]. rewrite get_by_receipt_id_eq. by apply entry_holds.
  - split; [|done]. rewrite get_by_chat_id_eq. destruct (by_chat r !! chat); [|done]. by apply entry_holds.
  - split; [|done]. rewrite owner_of_eq. by apply entry_holds.
  - split; [done|]. split; [by apply get_session_ok|]. unfold get_session, index_get. cbn. apply evict_kept; [apply Hs|done|done].
  - split; [done|]. split; [by apply current_or_seal_ok|by apply acquire_kept].
  - by apply extend_stands.
  - unfold store_receipt. cbn [keeper_extend in_memory_keeper]. destruct (extend_stands r s id e sid l (now +| ttl)%u64 Hst Hin) as [Hx Hst'].
    destruct (extend_retention s l _) as [s' res]. cbn in Hx. subst res. cbn [map_err fst]. destruct Hst' as (_ & ? & ?). split; [by apply put_holds|done].
  - split; [done|]. split; [|done]. destruct Hs as [Hok Hl]. split; [done|]. cbn. intros l' [->|?]%elem_of_cons; auto.
  - split; [done|]. split; [|done]. destruct Hs as [Hok Hl]. split; [done|]. cbn. intros l' ?%remove_first_elem; auto.
Qed.

Lemma steps_stand id e sid w w' : rtc (gateway_step id (st_expires_at e)) w w' -> stands w id e sid -> stands w' id e sid.
Proof. induction 1; eauto using step_stands. Qed.

(** C16: no receipt outlives its session.  Publishing a receipt whose lease is held
    succeeds on the in-memory stores, and whatever the other requests do to the stores from
    then on, before the receipt's deadline (which cannot wrap around) the receipt is served
    with its owner and the session it cites is served with the bytes its id is the digest
    of, also after the lease is dropped.  The sessions sealed are genuine (sealed by the
    gateway, within the parser's limits) and none of the hashed records collide. *)
Theorem published_receipt_and_session_live receipts sessions receipt owner now ttl lease :
  store_ok receipts -> state_ok sessions -> lease ∈ ss_leases sessions -> (0 <= now)%Z -> (0 <= ttl)%Z ->
  let deadline := Z.min (now + ttl) u64_max in
  exists w, store_receipt (K := in_memory_keeper) receipts sessions receipt owner now ttl (Some lease) = (w, Ok ()) /\
    forall w' t, rtc (gateway_step (sr_receipt_id receipt) deadline) w w' -> (t < deadline)%Z ->
      (get_by_receipt_id w'.1 (sr_receipt_id receipt) t).2 = Some receipt /\
      (owner_of w'.1 (sr_receipt_id receipt) t).2 = owner /\
      exists session, (get_session w'.2 (le_session_id lease) t).2 = Some session /\
        le_session_id lease = sha256_bare_hex (as_bytes_ session).
Proof.
  intros Hr Hs Hin Hnow Httl deadline. unfold store_receipt, u64_saturating_add. fold deadline. cbn [keeper_extend in_memory_keeper].
  destruct (extend_retention_ok sessions lease deadline Hs Hin) as (e & x & He & -> & Hok & Hb). cbn [map_err]. eexists. split; [done|].
  set (entry := mkStoredReceipt receipt owner deadline).
  assert (stands (put receipts receipt owner now deadline, mkStoreState x (ss_leases sessions)) (sr_receipt_id receipt) entry (le_session_id lease)) as Hst.
  { destruct (put_refines receipts receipt owner now deadline Hr) as [Hok' Habs]. split; [split; [done|]|split; [done|]].
    - cbn [fst]. change (by_receipt ?x) with (abstract x).1. rewrite Habs. apply lookup_insert_eq.
    - cbn [snd ss_index]. unfold kept. rewrite Hb, lookup_insert_eq. eexists. split; [done|]. cbn. lia. }
  intros w' t Hsteps Ht. assert (stands w' (sr_receipt_id receipt) entry (le_session_id lease)) as (Hr' & Hs' & e' & He' & Hd')
    by (by eapply steps_stand).
  destruct (holds_served _ _ _ t Hr' Ht) as [-> ->]. split; [done|]. split; [done|].
  destruct (retained_session_is_served w'.2 (le_session_id lease) t e' Hs' He') as (session & Hg & _ & _ & Hid); [left; cbn in Hd'; lia|].
  by exists session.
Qed.
End Instance_.

(** *** Witness: an in-memory store with one lease. *)
#[local] Existing Instances sample_sha sample_hex sample_base64 sample_json sample_domain.
Definition sample_lease : SessionLease :=
  mkLease (sp_session_id sample_split) 5 9 0.
Definition sample_store3 : StoreState := mkStoreState (ss_index sample_store2) [sample_lease].
Lemma sample_store3_ok : state_ok sample_store3.
Proof.
  split; [exact (so_index _ sample_store2_ok)|]. intros l ->%list_elem_of_singleton.
  eexists. split; [apply lookup_insert_eq|]. repeat split; vm_compute; reflexivity.
Qed.

(** The lease is dropped, and another receipt written, before the lookups. *)
Lemma published_receipt_and_session_live_witness : exists w,
  store_receipt (K := in_memory_keeper) store_empty sample_store3 (sample_receipt "r" "c") None 100 3600 (Some sample_lease) = (w, Ok ()) /\
  let w' := (put w.1 (sample_receipt "other" "c") None 3000 9000, drop_lease w.2 sample_lease) in
  (get_by_receipt_id w'.1 "r" 3699).2 = Some (sample_receipt "r" "c") /\
  exists session, (get_session w'.2 (le_session_id sample_lease) 3699).2 = Some session.
Proof.
  destruct (published_receipt_and_session_live store_empty sample_store3 (sample_receipt "r" "c") None 100 3600 sample_lease)
    as ([r s] & Hs & Hlive); [exact store_empty_ok|exact sample_store3_ok|left|lia|lia|].
  exists (r, s). split; [exact Hs|]. cbn [fst snd].
  destruct (Hlive (put r (sample_receipt "other" "c") None 3000 9000, drop_lease s sample_lease) 3699%Z) as (H1 & _ & session & H2 & _).
  - apply (rtc_l _ _ (put r (sample_receipt "other" "c") None 3000 9000, s)); [by apply gs_put|]. apply rtc_once, gs_drop.
  - vm_compute. reflexivity.
  - split; [exact H1|]. by exists session.
Defined.
