(* ===== verification/SseProtocol.v ===== *)
(** * Streaming protocols and their in-stream errors
    (src/sse_protocol.rs and src/error_payload.rs)

    Which protocol an endpoint speaks, the success terminator the gateway may
    supply, and the error event it appends to a stream that broke.  Texts are the
    bytes of the Rust strings. *)
From S2P Require Import Prelude Json External.

Inductive SseProtocol : Type :=
| OpenaiChat
| OpenaiResponses
| AnthropicMessages.
#[global] Instance SseProtocol_eq_dec : EqDecision SseProtocol.
Proof. solve_decision. Defined.

Definition MESSAGES_PATH : string := "/v1/messages".
Definition RESPONSES_PATH : string := "/v1/responses".

Definition sse_protocol (endpoint_path : string) : SseProtocol :=
  if bool_decide (endpoint_path = MESSAGES_PATH) then AnthropicMessages
  else if bool_decide (endpoint_path = RESPONSES_PATH) then OpenaiResponses
  else OpenaiChat.

Definition stream_success_terminator (protocol : SseProtocol) : option bytes :=
  match protocol with
  | OpenaiChat => Some (as_bytes "data: [DONE]" ++ [lf; lf])
  | AnthropicMessages | OpenaiResponses => None
  end.

(** ** Error payloads.  A status is a [u16]. *)
Inductive Surface : Type :=
| SurfaceOpenai
| SurfaceAnthropic.

Definition error_type (surface : Surface) (status : Z) : string :=
  match surface with
  | SurfaceAnthropic =>
      match status with
      | 400%Z => "invalid_request_error"
      | 401%Z => "authentication_error"
      | 402%Z => "billing_error"
      | 403%Z => "permission_error"
      | 404%Z => "not_found_error"
      | 413%Z => "request_too_large"
      | 429%Z => "rate_limit_error"
      | 504%Z => "timeout_error"
      | s => if (500 <=? s)%Z then "api_error" else "invalid_request_error"
      end
  | SurfaceOpenai =>
      match status with
      | 401%Z => "authentication_error"
      | 402%Z => "insufficient_quota"
      | 403%Z => "permission_error"
      | 404%Z => "not_found_error"
      | 429%Z => "rate_limit_error"
      | 503%Z => "service_unavailable"
      | 504%Z => "timeout_error"
      | s => if (500 <=? s)%Z then "upstream_error" else "invalid_request_error"
      end
  end.

Definition upstream_message (upstream_status : Z) : string :=
  match upstream_status with
  | 400%Z | 422%Z => "The request was rejected as invalid"
  | 401%Z | 402%Z | 403%Z => "The upstream provider is currently unavailable"
  | 404%Z => "The requested model or resource was not found"
  | 413%Z => "The request is too large"
  | 429%Z => "Rate limit exceeded. Please retry after some time."
  | 503%Z => "The model is currently unavailable. Please try again later."
  | 504%Z => "The upstream provider timed out"
  | _ => "The upstream provider returned an error"
  end.

(** [value[key] = v] on an object. *)
Definition set_member (k : string) (v : value) (doc : value) : value :=
  match doc with JObject m => JObject (obj_insert k v m) | _ => doc end.
Definition json_opt_str (o : option string) : value :=
  match o with Some s => JString s | None => JNull end.

Definition envelope (surface : Surface) (error_type message : string) (request_id : option string) : value :=
  match surface with
  | SurfaceAnthropic =>
      let value :=
        JObject [("type", JString "error");
                 ("error", JObject [("type", JString error_type); ("message", JString message)])] in
      match request_id with
      | Some request_id => set_member "request_id" (JString request_id) value
      | None => value
      end
  | SurfaceOpenai =>
      JObject [("error", JObject [("message", JString message); ("type", JString error_type);
                                  ("code", JNull); ("param", JNull)])]
  end.

Definition chat_gateway_error (status : Z) : value :=
  JObject [("message", JString (upstream_message status));
           ("type", JString (error_type SurfaceOpenai status));
           ("code", JNumber (PosInt status));
           ("param", JNull)].

Definition responses_gateway_code (status : Z) : string :=
  match status with
  | 429%Z => "rate_limit_exceeded"
  | 400%Z | 413%Z | 422%Z => "invalid_prompt"
  | _ => "server_error"
  end.

Definition responses_error_event (code : option string) (message : string) (param : option string)
    (sequence_number : option Z) : value :=
  let event :=
    JObject [("type", JString "error"); ("code", json_opt_str code);
             ("message", JString message); ("param", json_opt_str param)] in
  match sequence_number with
  | Some n => set_member "sequence_number" (JNumber (PosInt n)) event
  | None => event
  end.

(** ** The event that ends a broken stream *)
Section ErrorEvent.
Context {SJ : SerdeJson}.

(** The document each protocol's error event carries. *)
Definition stream_error_body (protocol : SseProtocol) (status : Z) (request_id : option string)
    (last_sequence_number : option Z) : value :=
  let message := upstream_message status in
  match protocol with
  | AnthropicMessages => envelope SurfaceAnthropic (error_type SurfaceAnthropic status) message request_id
  | OpenaiResponses =>
      responses_error_event (Some (responses_gateway_code status)) message None
        (Some (match last_sequence_number with
               | Some last => (last +| 1)%u64
               | None => 0%Z
               end))
  | OpenaiChat => JObject [("error", chat_gateway_error status)]
  end.

Definition json_str (v : value) : bytes := to_vec v.

Definition stream_error_event (protocol : SseProtocol) (status : Z) (request_id : option string)
    (last_sequence_number : option Z) : bytes :=
  let body := stream_error_body protocol status request_id last_sequence_number in
  match protocol with
  | AnthropicMessages | OpenaiResponses =>
      [lf; lf] ++ as_bytes "event: error" ++ [lf] ++ as_bytes "data: " ++ json_str body ++ [lf; lf]
  | OpenaiChat =>
      [lf; lf] ++ as_bytes "data: " ++ json_str body ++ [lf; lf] ++ as_bytes "data: [DONE]" ++ [lf; lf]
  end.

Definition stream_error_tail (protocol : SseProtocol) (request_id : option string)
    (last_sequence_number : option Z) : bytes :=
  stream_error_event protocol 502 request_id last_sequence_number.

End ErrorEvent.

(** The numbered event written out: the number is a new member, at the end. *)
Lemma responses_error_event_eq code message param n :
  responses_error_event code message param (Some n) =
  JObject [("type", JString "error"); ("code", json_opt_str code); ("message", JString message);
           ("param", json_opt_str param); ("sequence_number", JNumber (PosInt n))].
Proof. reflexivity. Qed.

(** The error document is one that serialization and parsing preserve. *)
Lemma stream_error_body_printable protocol status request_id last :
  (0 <= status <= u64_max)%Z -> (forall n, last = Some n -> is_u64 n) ->
  let body := stream_error_body protocol status request_id last in
  value_wf body /\ float_free body /\ json_depth body <= 127.
Proof.
  intros Hst Hl body. unfold body, stream_error_body. rewrite responses_error_event_eq.
  set (n := match last with Some last => (last +| 1)%u64 | None => 0%Z end).
  assert (0 <= n <= u64_max)%Z as Hn.
  { unfold n. destruct last as [l|]; [|unfold u64_max; lia].
    change (is_u64 (l +| 1)%u64). assert (0 <= 1)%Z by lia. auto with invariants. }
  clearbody n.
  repeat split.
  - destruct protocol; [| |apply value_wfb_spec; by destruct request_id; vm_compute].
    + constructor; [apply NoDup_singleton|]. repeat first [exact Hn|exact Hst|constructor]; cbn; set_solver.
    + repeat first [exact Hn|exact Hst|constructor]; cbn; set_solver.
  - destruct protocol; [| |destruct request_id]; cbn; repeat constructor.
  - destruct protocol; [| |destruct request_id]; apply Nat.leb_le; vm_compute; reflexivity.
Qed.
