(* ===== verification/UpstreamErrors.v ===== *)
(** * What a client is told about an upstream failure (src/middleware/errors.rs)

    Classification of an upstream's error response and the envelope the client
    gets in its place.  The theorems show that the status and the classification
    used for failover agree on what counts as a capacity problem, that a caller
    never sees the gateway's own authentication failures, and that no relayed text
    names a host. *)
From S2P Require Import Prelude Text Json External Sample SseProtocol.

Definition map_upstream_status (status : Z) : Z :=
  match status with
  | 400%Z | 404%Z | 413%Z | 422%Z => status
  | 429%Z => 429
  | 503%Z => 503
  | 504%Z => 504
  | _ => 502
  end.

Definition in_status_range (lo hi status : Z) : bool := (lo <=? status)%Z && (status <? hi)%Z.

Definition is_actionable_client_error (status : Z) : bool :=
  in_status_range 400 500 status &&
  negb (in_status_range 401 404 status || (status =? 429)%Z).

(** ** Identifying text *)
Definition HOST_TLDS : list string :=
  ["com"; "net"; "org"; "io"; "ai"; "cn"; "eu"; "uk"; "de"; "fr"; "jp"; "gg"; "xyz"; "local"; "internal"].

Definition is_dot (c : ascii) : bool := bool_decide (c = u8 46).
Definition is_hyphen (c : ascii) : bool := bool_decide (c = u8 45).
Definition is_underscore (c : ascii) : bool := bool_decide (c = u8 95).

Definition is_hostname_like (word : bytes) : bool :=
  let parts := split_bytes is_dot word in
  if (length parts <? 2) || existsb (fun p => bool_decide (p = [])) parts then false
  else if (length parts =? 4) && forallb (fun p => bool_decide (is_Some (parse_uint 255 p))) parts then true
  else
    let last := to_ascii_lowercase (of_bytes (default [] (last parts))) in
    bool_decide (last ∈ HOST_TLDS) &&
    forallb (forallb (fun c => is_ascii_alphanumeric c || is_hyphen c)) (removelast parts).

Definition host_punctuation (c : ascii) : bool := is_dot c || is_hyphen c || is_underscore c.
Definition host_separator (c : ascii) : bool := negb (is_ascii_alphanumeric c || host_punctuation c).

Definition looks_identifying (message : string) : bool :=
  if contains "://" message then true
  else existsb is_hostname_like (trim_matches host_punctuation <$> split_bytes host_separator (as_bytes message)).

Definition scrub_identifying_markers (raw : string) : option string :=
  let message := trim raw in
  if bool_decide (message = EmptyString) || looks_identifying message then None else Some message.

Definition client_safe_error_text (message : string) : string :=
  default "the provider returned an error" (scrub_identifying_markers message).

(** ** Image URLs of the request *)
Definition url_host (url : string) : option string :=
  rest ← match strip_prefix "https://" url with
         | Some rest => Some rest
         | None => strip_prefix "http://" url
         end;
  let ends (c : ascii) := bool_decide (c ∈ as_bytes "/:?#") in
  let host := of_bytes (default [] (head (split_bytes ends (as_bytes rest)))) in
  if bool_decide (host = EmptyString) then None else Some host.

Definition message_references_host (message host : string) : bool :=
  contains "." host &&
  existsb (fun token => bool_decide (token = as_bytes host))
    (split_bytes (fun c => negb (is_ascii_alphanumeric c || is_dot c || is_hyphen c)) (as_bytes message)).

Definition image_part_url (part : value) : option string :=
  match get_str "type" part with
  | Some "image_url"%string | Some "input_image"%string =>
      image_url ← get "image_url" part;
      match as_str image_url with Some url => Some url | None => get_str "url" image_url end
  | Some "image"%string =>
      source ← get "source" part;
      if bool_decide (get_str "type" source = Some "url"%string) then get_str "url" source else None
  | _ => None
  end.

Section Errors.
Context {SJ : SerdeJson}.

Definition remote_image_urls (request_body : bytes) : list string :=
  if negb (is_utf8 request_body) then []
  else if negb (contains_bytes (as_bytes "image") request_body) then []
  else match from_slice request_body with
  | Err _ => []
  | Ok value =>
      key ← ["messages"; "input"];
      item ← default [] (get key value ≫= as_array);
      part ← item :: default [] (get "content" item ≫= as_array);
      match image_part_url part with
      | Some url => if starts_with "https://" url || starts_with "http://" url then [url] else []
      | None => []
      end
  end.

Definition extract_error_message (body : bytes) : option string :=
  value ← result_ok (from_slice body);
  match get "error" value with
  | Some (JString message) => Some message
  | Some error => get_str "message" error
  | None => get_str "message" value
  end.

Definition client_safe_error_message (body : bytes) : option string :=
  message ← extract_error_message body; scrub_identifying_markers message.

Definition image_error_message (url : string) : string :=
  "Failed to fetch the image at the provided URL: " +:+ url +:+
  ". Ensure the URL is correct and publicly accessible.".
Definition classify_image_input_error (received_body : bytes) (upstream_status : Z)
    (upstream_body : bytes) : option string :=
  if in_status_range 200 300 upstream_status then None
  else
    message ← extract_error_message upstream_body;
    matched ← List.find (fun url =>
        contains url message ||
        match url_host url with Some host => message_references_host message host | None => false end)
      (remote_image_urls received_body);
    Some (image_error_message matched).

(** ** Capacity and quota *)
Definition UPSTREAM_CAPACITY_MARKER : bytes := as_bytes "exhausted all available targets".
Definition is_upstream_capacity_signal (status : Z) (body : bytes) : bool :=
  if (status =? 429)%Z then true
  else in_status_range 500 600 status && contains_bytes UPSTREAM_CAPACITY_MARKER body.

Definition QUOTA_EXHAUSTED_KINDS : list string :=
  ["insufficient_quota"; "credit_balance_exhausted"; "billing_error"; "billing_not_active"].
Definition QUOTA_EXHAUSTED_PROSE : list string :=
  ["credit balance is too low"; "exceeded your current quota"; "no credits remaining"].

Definition declared_kind_is_quota_exhausted (error : list (string * value)) : bool :=
  existsb (fun key => match obj_get key error ≫= as_str with
                      | Some kind => bool_decide (kind ∈ QUOTA_EXHAUSTED_KINDS)
                      | None => false
                      end) ["code"; "type"].
Definition is_quota_exhausted_error (error : list (string * value)) : bool :=
  declared_kind_is_quota_exhausted error ||
  match to_ascii_lowercase <$> (obj_get "message" error ≫= as_str) with
  | Some message => existsb (fun marker => contains marker message) QUOTA_EXHAUSTED_PROSE
  | None => false
  end.

(** The error object of a 4xx body: its [error] member, or the body itself. *)
Definition error_object (status : Z) (body : bytes) : option (list (string * value)) :=
  if negb (in_status_range 400 500 status) then None
  else
    value ← result_ok (from_slice body);
    match default value (get "error" value) with JObject m => Some m | _ => None end.
Definition is_quota_exhausted_signal (status : Z) (body : bytes) : bool :=
  match error_object status body with Some m => is_quota_exhausted_error m | None => false end.
Definition declares_quota_exhausted (status : Z) (body : bytes) : bool :=
  match error_object status body with Some m => declared_kind_is_quota_exhausted m | None => false end.

Definition recorded_attempt_status (status : Z) (body : bytes) : Z :=
  if declares_quota_exhausted status body then 402 else status.

(** ** The client's envelope *)
Definition surface_for_path (endpoint_path : string) : Surface :=
  if bool_decide (endpoint_path = MESSAGES_PATH) then SurfaceAnthropic else SurfaceOpenai.

Definition envelope_bytes (surface : Surface) (error_type message : string) (request_id : option string) : bytes :=
  to_vec (envelope surface error_type message request_id).

Definition rate_limit_envelope (surface : Surface) (message : string) (request_id : option string) : value :=
  let body := envelope surface "rate_limit_error" message request_id in
  match surface with
  | SurfaceOpenai =>
      match get "error" body with
      | Some error => set_member "error" (set_member "code" (JString "rate_limit_exceeded") error) body
      | None => body
      end
  | SurfaceAnthropic => body
  end.
Definition rate_limit_envelope_bytes (surface : Surface) (message : string) (request_id : option string) : bytes :=
  to_vec (rate_limit_envelope surface message request_id).

Definition image_input_error_parts (surface : Surface) (received_body : bytes) (upstream_status : Z)
    (upstream_body : bytes) (request_id : option string) : option (Z * bytes) :=
  message ← classify_image_input_error received_body upstream_status upstream_body;
  Some (400%Z, envelope_bytes surface (error_type surface 400) message request_id).

Definition quota_exhausted_error_parts (surface : Surface) (upstream_status : Z) (upstream_body : bytes)
    (request_id : option string) : option (Z * bytes) :=
  if negb (is_quota_exhausted_signal upstream_status upstream_body) then None
  else
    let status := map_upstream_status 402 in
    Some (status, envelope_bytes surface (error_type surface status) (upstream_message 402) request_id).

Definition capacity_error_parts (surface : Surface) (upstream_status : Z) (upstream_body : bytes)
    (request_id : option string) : option (Z * bytes) :=
  if negb (in_status_range 500 600 upstream_status) then None
  else if negb (is_upstream_capacity_signal upstream_status upstream_body) then None
  else Some (429%Z, envelope_bytes surface (error_type surface 429) (upstream_message 429) request_id).

Definition normalize_upstream_error_parts (surface : Surface) (upstream_status : Z) (body received_body : bytes)
    (request_id : option string) : Z * bytes :=
  match image_input_error_parts surface received_body upstream_status body request_id with
  | Some parts => parts
  | None =>
  match quota_exhausted_error_parts surface upstream_status body request_id with
  | Some parts => parts
  | None =>
  match capacity_error_parts surface upstream_status body request_id with
  | Some parts => parts
  | None =>
  match (if is_actionable_client_error upstream_status then client_safe_error_message body else None) with
  | Some message =>
      (upstream_status, envelope_bytes surface (error_type surface upstream_status) message request_id)
  | None =>
      let status := map_upstream_status upstream_status in
      (status, envelope_bytes surface (error_type surface status) (upstream_message upstream_status) request_id)
  end end end end.

(** [ErrorClass], the record kept of a failed request: of its variants, those an
    upstream's answer selects. *)
Inductive ErrorClass : Type :=
| UpstreamHttpError
| UpstreamQuotaExhausted
| UpstreamCapacity
| UpstreamImageFetchFailed.
Definition classify_upstream (received_body : bytes) (upstream_status : Z) (upstream_body : bytes) : ErrorClass :=
  if declares_quota_exhausted upstream_status upstream_body then UpstreamQuotaExhausted
  else if is_upstream_capacity_signal upstream_status upstream_body then UpstreamCapacity
  else if bool_decide (is_Some (classify_image_input_error received_body upstream_status upstream_body))
  then UpstreamImageFetchFailed
  else UpstreamHttpError.

(** ** Failover (src/aggregator/service/middleware.rs) *)
Definition is_retryable_provider_status (status : Z) : bool :=
  bool_decide (status ∈ [401; 402; 403; 404; 429; 500; 502; 503; 504]%Z) || in_status_range 520 528 status.
Definition should_fail_over (status : Z) (received_body upstream_body : bytes) : bool :=
  (is_retryable_provider_status status || is_upstream_capacity_signal status upstream_body) &&
  bool_decide (classify_image_input_error received_body status upstream_body = None).

End Errors.

(** ** What the client learns *)

(** [host] stands in [message] as a word of its own, whatever punctuation of the
    sentence touches it. *)
Definition names_host (message host : bytes) : Prop :=
  exists a before after b, message = a ++ (before ++ host ++ after) ++ b /\
    (forall c, last a = Some c -> host_separator c = true) /\
    (forall c, head b = Some c -> host_separator c = true) /\
    forallb host_punctuation before = true /\ forallb host_punctuation after = true /\
    host ≠ [] /\ forallb (fun c => negb (host_separator c)) host = true /\
    (forall c, head host = Some c \/ last host = Some c -> host_punctuation c = false).

Lemma punctuation_not_separator c : host_punctuation c = true -> negb (host_separator c) = true.
Proof. unfold host_separator. intros ->. by rewrite orb_true_r. Qed.

Lemma named_host_is_identifying message host :
  names_host (as_bytes message) host -> is_hostname_like host = true -> looks_identifying message = true.
Proof.
  intros (a & pre & post & b & Hm & Ha & Hb & Hpre & Hpost & Hne & Hin & Hends) Hh.
  unfold looks_identifying. destruct (contains _ _); [done|].
  rewrite existsb_exists. exists host. split; [|done]. apply list_elem_of_In, list_elem_of_fmap.
  exists (pre ++ host ++ post). split.
  - symmetry. apply trim_matches_core; [done|done|done| |]; intros c Hc; apply Hends; auto.
  - rewrite Hm. apply split_bytes_token; [|done|done].
    assert (forall l, forallb host_punctuation l = true -> forallb (fun c => negb (host_separator c)) l = true) as Hp.
    { intros l. rewrite !forallb_forall. intros H c Hc. by apply punctuation_not_separator, H. }
    by rewrite !forallb_app, Hin, !Hp.
Qed.

(** Text that names no provider: it has no URL and no word of the shape of a host. *)
Definition anonymous_text (message : string) : Prop :=
  (forall a b, message ≠ a +:+ "://" +:+ b) /\
  (forall host, names_host (as_bytes message) host -> is_hostname_like host = false).

Lemma not_identifying_anonymous message : looks_identifying message = false -> anonymous_text message.
Proof.
  intros H. split.
  - intros a b ->. unfold looks_identifying in H.
    assert (contains "://" (a +:+ "://" +:+ b) = true) as Hc by (apply contains_spec; eauto). by rewrite Hc in H.
  - intros host Hn. apply not_true_is_false. intros Hh.
    rewrite (named_host_is_identifying _ _ Hn Hh) in H. done.
Qed.

Lemma upstream_message_anonymous status : anonymous_text (upstream_message status).
Proof.
  apply not_identifying_anonymous. unfold upstream_message.
  repeat case_match; vm_compute; reflexivity.
Qed.

Section Theorems.
Context {SJ : SerdeJson}.

(** The cases of a normalized error: which rule applied, and what it implies. *)
Inductive normalized (surface : Surface) (status : Z) (body received : bytes) (request_id : option string) :
    Z * bytes -> Prop :=
| norm_image url :
    url ∈ remote_image_urls received ->
    normalized surface status body received request_id
      (400%Z, envelope_bytes surface (error_type surface 400) (image_error_message url) request_id)
| norm_fixed client message_status :
    client = map_upstream_status status \/ client = 502%Z \/
      (client = 429%Z /\ is_upstream_capacity_signal status body = true) ->
    normalized surface status body received request_id
      (client, envelope_bytes surface (error_type surface client) (upstream_message message_status) request_id)
| norm_relayed message :
    is_actionable_client_error status = true -> looks_identifying message = false ->
    normalized surface status body received request_id
      (status, envelope_bytes surface (error_type surface status) message request_id).

Lemma client_safe_not_identifying body message :
  client_safe_error_message body = Some message -> looks_identifying message = false.
Proof.
  unfold client_safe_error_message. destruct (extract_error_message body) as [raw|]; [|done]. cbn.
  unfold scrub_identifying_markers. destruct (bool_decide _ || _) eqn:Hor; [done|]. intros [= <-].
  by apply orb_false_iff in Hor as [_ ?].
Qed.

Lemma mapped_status_range status :
  (400 <= map_upstream_status status < 500)%Z /\ map_upstream_status status ∉ [401; 402; 403]%Z \/
  map_upstream_status status ∈ [502; 503; 504]%Z.
Proof. unfold map_upstream_status. repeat case_match; subst; first [right; set_solver|left; split; [lia|set_solver]]. Qed.

(** Neither the relayed nor the mapped status is 429 when the upstream's is not. *)
Lemma not_429_otherwise surface status body request_id :
  status ≠ 429%Z ->
  (match (if is_actionable_client_error status then client_safe_error_message body else None) with
   | Some message => (status, envelope_bytes surface (error_type surface status) message request_id)
   | None => let client := map_upstream_status status in
       (client, envelope_bytes surface (error_type surface client) (upstream_message status) request_id)
   end).1 = 429%Z <-> False.
Proof.
  intros Hne. destruct (if is_actionable_client_error status then _ else _); cbn; [naive_solver|].
  unfold map_upstream_status. repeat case_match; subst; naive_solver.
Qed.

Lemma normalize_cases surface status body received request_id :
  normalized surface status body received request_id
    (normalize_upstream_error_parts surface status body received request_id).
Proof.
  unfold normalize_upstream_error_parts, image_input_error_parts.
  destruct (classify_image_input_error received status body) as [m|] eqn:Hi; cbn [mbind option_bind].
  { unfold classify_image_input_error in Hi. destruct (in_status_range _ _ _); [done|].
    destruct (extract_error_message body); [|done]. cbn in Hi.
    destruct (List.find _ _) as [url|] eqn:Hf; [|done]. injection Hi as <-.
    apply find_some in Hf as [Hf _]. by apply norm_image, list_elem_of_In. }
  unfold quota_exhausted_error_parts. destruct (is_quota_exhausted_signal status body); cbn [negb].
  { apply norm_fixed. by right; left. }
  assert (normalized surface status body received request_id
    match (if is_actionable_client_error status then client_safe_error_message body else None) with
    | Some message => (status, envelope_bytes surface (error_type surface status) message request_id)
    | None => let client := map_upstream_status status in
        (client, envelope_bytes surface (error_type surface client) (upstream_message status) request_id)
    end) as Hrest.
  { destruct (is_actionable_client_error status) eqn:Ha; [|apply norm_fixed; by left].
    destruct (client_safe_error_message body) as [m|] eqn:Hm; [|apply norm_fixed; by left].
    apply norm_relayed; [done|]. by apply client_safe_not_identifying with body. }
  unfold capacity_error_parts. destruct (in_status_range 500 600 status); cbn [negb]; [|done].
  destruct (is_upstream_capacity_signal status body) eqn:Hc; cbn [negb]; [|done].
  apply norm_fixed. right. right. done.
Qed.

(** A capacity problem is one thing.  The client is told 429 exactly when the
    upstream signalled capacity (and neither the caller's image URL nor the
    gateway's unpaid account explains the error), and then the answer is one the
    failover walk moves on from, so nobody is told to retry later without the
    gateway having tried elsewhere. *)
Theorem capacity_told_iff_signalled surface status body received request_id :
  ((normalize_upstream_error_parts surface status body received request_id).1 = 429%Z <->
   is_upstream_capacity_signal status body = true /\
   classify_image_input_error received status body = None /\
   is_quota_exhausted_signal status body = false) /\
  ((normalize_upstream_error_parts surface status body received request_id).1 = 429%Z ->
   should_fail_over status received body = true).
Proof.
  assert ((normalize_upstream_error_parts surface status body received request_id).1 = 429%Z <->
   is_upstream_capacity_signal status body = true /\
   classify_image_input_error received status body = None /\
   is_quota_exhausted_signal status body = false) as Hiff.
  { unfold normalize_upstream_error_parts, image_input_error_parts, quota_exhausted_error_parts, capacity_error_parts.
    destruct (classify_image_input_error received status body); cbn; [split; [done|naive_solver]|].
    destruct (is_quota_exhausted_signal status body); cbn [negb fst]; [vm_compute; naive_solver|].
    unfold is_upstream_capacity_signal. destruct (Z.eqb_spec status 429) as [->|Hne]; [by vm_compute|].
    destruct (in_status_range 500 600 status) eqn:H5; cbn [negb andb].
    - destruct (contains_bytes _ _); cbn [negb fst]; [done|].
      rewrite not_429_otherwise by done. naive_solver.
    - rewrite not_429_otherwise by done. naive_solver. }
  split; [exact Hiff|]. intros (Hc & Hi & _)%Hiff. unfold should_fail_over.
  by rewrite Hc, orb_true_r, Hi.
Qed.

(** C29: what a client is told of an upstream failure.  Its status is a client or
    gateway error and never one of the gateway's own account (401, 402, 403); its
    body is the gateway's envelope around one text, which either quotes an image
    URL of the client's own request or contains no URL and no word that has the
    shape of a host. *)
Theorem client_error_is_anonymous surface status body received request_id :
  let '(client, bytes) := normalize_upstream_error_parts surface status body received request_id in
  ((400 <= client < 500)%Z /\ client ∉ [401; 402; 403]%Z \/ client ∈ [502; 503; 504]%Z) /\
  exists message, bytes = envelope_bytes surface (error_type surface client) message request_id /\
    ((exists url, url ∈ remote_image_urls received /\ message = image_error_message url) \/
     anonymous_text message).
Proof.
  destruct (normalize_cases surface status body received request_id) as
    [url Hurl|client ms Hcl|message Ha Hm]; (split; [|eexists; split; [done|]]).
  - left. split; [lia|]. set_solver.
  - left. eauto.
  - destruct Hcl as [->|[->|[-> _]]]; [apply mapped_status_range|right; set_solver|left; set_solver by lia].
  - right. apply upstream_message_anonymous.
  - unfold is_actionable_client_error, in_status_range in Ha. left. split; [lia|].
    rewrite !not_elem_of_cons. repeat split; try lia. apply not_elem_of_nil.
  - right. by apply not_identifying_anonymous.
Qed.
End Theorems.
