(* ===== verification/Sanitize.v ===== *)
(** * The public shape of a response (src/middleware/response_transform.rs)

    Every successful body and every event of a stream passes through here before it
    reaches the client: the gateway's id and the requested model replace the
    upstream's, reasoning is removed on request, and what remains is reduced to the
    documented output schema of the endpoint.  An error inside a success is rebuilt
    in the gateway's vocabulary unless its kind is one the caller can act on. *)
From S2P Require Import Prelude Text Json External Sample SseProtocol UpstreamErrors Images.

(** [Endpoint] (src/middleware/request_transform.rs). *)
Inductive Endpoint : Type :=
| ChatComplete
| Complete
| Embed
| Messages
| CreateModelResponse
| SystemOne
| ImagesGenerations
| AudioTranscriptions.
#[global] Instance Endpoint_eq_dec : EqDecision Endpoint.
Proof. solve_decision. Defined.

(** ** Editing members in place *)
Abbreviation object := (list (string * value)).
(** [get_mut(k)], edited when it is there. *)
Definition update_member (k : string) (f : value -> value) (m : object) : object :=
  match obj_get k m with Some v => obj_insert k (f v) m | None => m end.
Definition on_object (f : object -> object) (v : value) : value :=
  match v with JObject m => JObject (f m) | _ => v end.
Definition on_array (f : value -> value) (v : value) : value :=
  match v with JArray l => JArray (f <$> l) | _ => v end.

(** ** Identity and reasoning *)
Record ResponseIdentity : Type := mkIdentity {
  ri_request_id : string;
  ri_user_model : option string;
}.
Definition rewrite_id_and_model (identity : ResponseIdentity) (m : object) : object :=
  let m := if obj_get "id" m then obj_insert "id" (JString (ri_request_id identity)) m else m in
  match obj_get "model" m, ri_user_model identity with
  | Some _, Some model => obj_insert "model" (JString model) m
  | _, _ => m
  end.
Definition rewrite_identity (identity : ResponseIdentity) (body : value) : value :=
  match body with
  | JObject m =>
      match get_str "type" body with
      | Some t =>
          if bool_decide (t = "message_start") then JObject (update_object "message" (rewrite_id_and_model identity) m)
          else if starts_with "response." t then JObject (update_object "response" (rewrite_id_and_model identity) m)
          else JObject (rewrite_id_and_model identity m)
      | None => JObject (rewrite_id_and_model identity m)
      end
  | _ => body
  end.

Definition REASONING_MEMBERS : list string :=
  ["reasoning"; "reasoning_content"; "reasoning_details"; "thinking_blocks"; "reasoning_items"].
Definition MESSAGE_CONTAINERS : list string := ["message"; "delta"].
Definition remove_members (ks : list string) (m : object) : object := foldl (fun m k => obj_remove k m) m ks.
Definition exclude_reasoning (body : value) : value :=
  on_object (update_member "choices" (on_array (on_object (fun choice =>
    foldl (fun choice container => update_object container (remove_members REASONING_MEMBERS) choice)
      choice MESSAGE_CONTAINERS)))) body.

(** ** The output schema *)
Definition CHAT_TOP : list string :=
  ["id"; "object"; "created"; "model"; "choices"; "usage"; "service_tier"; "error"].
Definition CHAT_CHOICE : list string := ["index"; "message"; "delta"; "finish_reason"; "logprobs"; "error"].
Definition CHAT_MESSAGE : list string :=
  ["role"; "content"; "name"; "refusal"; "tool_calls"; "function_call"; "annotations"; "audio"; "images";
   "reasoning"; "reasoning_content"; "reasoning_details"; "thinking_blocks"; "reasoning_items"].
Definition CHAT_USAGE : list string :=
  ["prompt_tokens"; "completion_tokens"; "total_tokens"; "prompt_tokens_details"; "completion_tokens_details";
   "cache_read_input_tokens"; "cache_creation_input_tokens"; "prompt_cache_hit_tokens"; "prompt_cache_miss_tokens";
   "reasoning_tokens"; "server_tool_use"; "server_tool_use_details"; "cost"; "cost_details"].
Definition COMPLETION_TOP : list string := ["id"; "object"; "created"; "model"; "choices"; "usage"; "error"].
Definition COMPLETION_CHOICE : list string := ["text"; "index"; "logprobs"; "finish_reason"; "error"].
Definition RESPONSES_TOP : list string :=
  ["id"; "created_at"; "error"; "incomplete_details"; "instructions"; "metadata"; "model"; "object"; "output";
   "parallel_tool_calls"; "temperature"; "tool_choice"; "tools"; "top_p"; "max_output_tokens"; "previous_response_id";
   "reasoning"; "status"; "text"; "truncation"; "usage"; "user"; "store"; "service_tier"].
Definition RESPONSES_USAGE : list string :=
  ["input_tokens"; "input_tokens_details"; "output_tokens"; "output_tokens_details"; "total_tokens"; "cost"; "cost_details"].
Definition SYSTEMONE_TOP : list string := ["model"; "answers"; "usage"; "error"].
Definition SYSTEMONE_USAGE : list string := ["input_tokens"; "output_tokens"; "cost"].

Definition retain_allowed (allowed : list string) (m : object) : object :=
  retain (fun k _ => bool_decide (k ∈ allowed)) m.

(** ** Kinds of in-band errors *)
Definition RELAYABLE_ERROR_KINDS : list string :=
  ["invalid_request_error"; "not_found_error"; "model_not_found"; "invalid_value"; "invalid_type"; "unsupported_value";
   "unsupported_parameter"; "missing_required_parameter"; "unknown_parameter"; "context_length_exceeded";
   "string_above_max_length"; "request_too_large"; "invalid_prompt"; "content_filter"; "content_policy_violation";
   "invalid_image"; "invalid_image_format"; "invalid_image_url"; "invalid_base64_image"; "invalid_image_mode";
   "image_parse_error"; "image_too_large"; "image_too_small"; "image_file_too_large"; "image_file_not_found";
   "image_content_policy_violation"; "empty_image_file"; "unsupported_image_media_type"; "failed_to_download_image";
   "overloaded_error"; "vector_store_timeout"].

(** A numeric kind read as an HTTP status, a [u16]. *)
Definition numeric_status (kind : value) : option Z :=
  status ← as_u64 kind; if (status <=? 65535)%Z then Some status else None.
Definition is_relayable_kind (kind : option value) : bool :=
  match kind with
  | None | Some JNull => true
  | Some (JString kind) => bool_decide (kind ∈ RELAYABLE_ERROR_KINDS)
  | Some (JNumber n) => from_option is_actionable_client_error false (numeric_status (JNumber n))
  | _ => false
  end.
Definition non_null (v : option value) : option value := v ≫= fun v => if is_null v then None else Some v.
Definition or_else {A} (o p : option A) : option A := match o with Some a => Some a | None => p end.
Definition effective_error_kind (m : object) : option value := or_else (non_null (obj_get "code" m)) (obj_get "type" m).
Definition is_relayable_error (error : object) : bool :=
  negb (is_quota_exhausted_error error) && is_relayable_kind (effective_error_kind error).

Definition kind_http_status (kind : option value) : Z :=
  match kind with
  | Some (JNumber n) => default 400%Z (numeric_status (JNumber n))
  | Some (JString kind) =>
      if bool_decide (kind ∈ ["not_found_error"; "model_not_found"]) then 404
      else if bool_decide (kind = "request_too_large") then 413
      else if bool_decide (kind = "overloaded_error") then 503
      else if bool_decide (kind = "vector_store_timeout") then 504
      else 400
  | _ => 400
  end.
Definition suppressed_error_status (kind : option value) : Z :=
  match kind with
  | Some (JString kind) =>
      if bool_decide (kind ∈ ["rate_limit_error"; "rate_limit_exceeded"]) then 429
      else if bool_decide (kind = "timeout_error") then 504 else 502
  | Some (JNumber n) => map_upstream_status (default 502%Z (numeric_status (JNumber n)))
  | _ => 502
  end.
Definition suppressed_status (kind error_type_slot : option value) : Z :=
  let decided := suppressed_error_status kind in
  if (decided =? 502)%Z then
    match non_null error_type_slot with
    | Some slot => if is_relayable_kind (Some slot) then kind_http_status (Some slot) else 502
    | None => 502
    end
  else decided.
Definition suppressed_status_for (m : object) (type_slot : option value) : Z :=
  if is_quota_exhausted_error m then map_upstream_status 402
  else suppressed_status (effective_error_kind m) type_slot.

Definition client_error_message (message : option value) : string :=
  match message ≫= as_str with Some text => client_safe_error_text text | None => upstream_message 502 end.
Definition client_error_param (param : option value) : option string :=
  text ← param ≫= as_str; if looks_identifying text then None else Some text.
Definition chat_error_type (kind : option value) : string :=
  match kind with
  | Some (JString kind) => if ends_with "_error" kind then kind else error_type SurfaceOpenai 400
  | Some (JNumber n) => error_type SurfaceOpenai (default 502%Z (numeric_status (JNumber n)))
  | _ => error_type SurfaceOpenai 502
  end.

Definition RESPONSES_ERROR_CODES : list string :=
  ["invalid_prompt"; "vector_store_timeout"; "invalid_image"; "invalid_image_format"; "invalid_base64_image";
   "invalid_image_url"; "invalid_image_mode"; "image_parse_error"; "image_too_large"; "image_too_small";
   "image_file_too_large"; "image_file_not_found"; "image_content_policy_violation"; "empty_image_file";
   "unsupported_image_media_type"; "failed_to_download_image"].
Definition responses_error_code (kind : option value) : option string :=
  k ← kind ≫= as_str; if bool_decide (k ∈ RESPONSES_ERROR_CODES) then Some k else None.
Definition ANTHROPIC_ERROR_TYPES : list string :=
  ["invalid_request_error"; "not_found_error"; "request_too_large"; "overloaded_error"].
Definition messages_error_type (kind : option value) : string :=
  match non_null kind with
  | None => error_type SurfaceAnthropic 502
  | Some (JString k) =>
      if bool_decide (k ∈ ANTHROPIC_ERROR_TYPES) then k else error_type SurfaceAnthropic (kind_http_status kind)
  | Some _ => error_type SurfaceAnthropic (kind_http_status kind)
  end.

(** ** Rebuilding in-band errors *)
Definition sanitize_error (error : value) : value :=
  match error with
  | JNull => JNull
  | JString text => set_member "message" (JString (client_safe_error_text text)) (chat_gateway_error 502)
  | JObject m =>
      if negb (is_relayable_error m) then chat_gateway_error (suppressed_status_for m (obj_get "type" m))
      else
        let code := match non_null (effective_error_kind m) with
                    | Some kind => JNumber (PosInt (kind_http_status (Some kind)))
                    | None => JNull
                    end in
        let relayed := k ← obj_get "type" m ≫= as_str; if bool_decide (k ∈ RELAYABLE_ERROR_KINDS) then Some k else None in
        let error_kind := default (chat_error_type (effective_error_kind m)) relayed in
        let message := match obj_get "message" m with
                       | Some (JString text) => client_safe_error_text text
                       | _ => client_safe_error_text ""
                       end in
        JObject [("message", JString message); ("type", JString error_kind);
                 ("param", json_opt_str (client_error_param (obj_get "param" m))); ("code", code)]
  | _ => chat_gateway_error 502
  end.

Definition responses_error_object (code message : string) : value :=
  JObject [("code", JString code); ("message", JString message)].
Definition sanitize_responses_error_field (error : value) : value :=
  match error with
  | JNull => JNull
  | JString text => responses_error_object (responses_gateway_code 502) (client_safe_error_text text)
  | JObject m =>
      let kind := effective_error_kind m in
      if negb (is_quota_exhausted_error m) && is_relayable_kind kind then
        responses_error_object
          (default (responses_gateway_code (kind_http_status kind)) (responses_error_code kind))
          (client_error_message (obj_get "message" m))
      else
        let status := suppressed_status_for m (obj_get "type" m) in
        responses_error_object (responses_gateway_code status) (upstream_message status)
  | _ => responses_error_object (responses_gateway_code 502) (upstream_message 502)
  end.

(** The event replaces the object it was read from. *)
Definition sanitize_responses_error_event (m : object) : value :=
  let nested := obj_get "error" m in
  let field key := or_else (nested ≫= get key) (obj_get key m) in
  let kind := or_else (non_null (field "code")) (nested ≫= get "type") in
  let sequence_number := obj_get "sequence_number" m ≫= as_u64 in
  let carrier := match nested with Some (JObject e) => e | _ => m end in
  let quota_exhausted := is_quota_exhausted_error carrier in
  if negb quota_exhausted && is_relayable_kind kind then
    let code := or_else (responses_error_code kind)
                  ((fun _ => responses_gateway_code (kind_http_status kind)) <$> kind) in
    responses_error_event code (client_error_message (field "message")) (client_error_param (field "param")) sequence_number
  else
    let status := if quota_exhausted then map_upstream_status 402 else suppressed_status kind (nested ≫= get "type") in
    responses_error_event (Some (responses_gateway_code status)) (upstream_message status) None sequence_number.

(** ** Canonicalization per endpoint *)
Definition canonical_chat_choice (m : object) : object :=
  let m := update_member "error" sanitize_error (retain_allowed CHAT_CHOICE m) in
  foldl (fun m container => update_object container (retain_allowed CHAT_MESSAGE) m) m MESSAGE_CONTAINERS.
Definition canonicalize_chat_completion (m : object) : object :=
  update_member "choices" (on_array (on_object canonical_chat_choice))
    (update_member "error" sanitize_error
      (update_object "usage" (retain_allowed CHAT_USAGE) (retain_allowed CHAT_TOP m))).

Definition canonical_completion_choice (m : object) : object :=
  update_member "error" sanitize_error (retain_allowed COMPLETION_CHOICE m).
Definition canonicalize_text_completion (m : object) : object :=
  update_member "choices" (on_array (on_object canonical_completion_choice))
    (update_member "error" sanitize_error
      (update_object "usage" (retain_allowed CHAT_USAGE) (retain_allowed COMPLETION_TOP m))).

Definition canonicalize_responses_object (m : object) : object :=
  update_member "error" sanitize_responses_error_field
    (update_object "usage" (retain_allowed RESPONSES_USAGE) (retain_allowed RESPONSES_TOP m)).
Definition canonicalize_responses (m : object) : value :=
  match obj_get "type" m ≫= as_str with
  | Some t =>
      if bool_decide (t ∈ ["error"; "response.error"]) then sanitize_responses_error_event m
      else if starts_with "response." t then JObject (update_object "response" canonicalize_responses_object m)
      else JObject m
  | None => JObject (canonicalize_responses_object m)
  end.

Definition canonicalize_messages (request_id : option string) (m : object) : value :=
  if bool_decide (obj_get "type" m ≫= as_str = Some "error") then
    let error := match obj_get "error" m with Some (JObject e) => Some e | _ => None end in
    let kind := error ≫= effective_error_kind in
    let '(kind, message) :=
      if from_option is_relayable_error false error then
        (messages_error_type kind, client_error_message (error ≫= obj_get "message"))
      else
        let status := from_option (fun e => suppressed_status_for e (obj_get "type" e)) 502%Z error in
        (error_type SurfaceAnthropic status, upstream_message status) in
    envelope SurfaceAnthropic kind message request_id
  else JObject m.

Definition is_null_or_absent (v : option value) : bool := match non_null v with None => true | Some _ => false end.
Definition canonicalize_systemone (m : object) : object :=
  let m := if bool_decide (obj_get "type" m ≫= as_str = Some "error") && is_null_or_absent (obj_get "error" m)
           then obj_insert "error" (JObject m) m else m in
  let m := if from_option is_null false (obj_get "error" m) then obj_remove "error" m else m in
  update_object "usage" (retain_allowed SYSTEMONE_USAGE)
    (update_member "error" sanitize_error (retain_allowed SYSTEMONE_TOP m)).

(** [now] is the wall clock that completes an image response. *)
Definition canonicalize (now : Z) (body : value) (endpoint : Endpoint) (request_id : option string) : value :=
  match endpoint, body with
  | ChatComplete, JObject m => JObject (canonicalize_chat_completion m)
  | Complete, JObject m => JObject (canonicalize_text_completion m)
  | CreateModelResponse, JObject m => canonicalize_responses m
  | Messages, JObject m => canonicalize_messages request_id m
  | SystemOne, JObject m => JObject (canonicalize_systemone m)
  | ImagesGenerations, _ => canonicalize_image now body
  | _, _ => body
  end.

Create HintDb sanitized.
Create HintDb members.

(** Membership of a literal list. *)
Ltac listed := apply (bool_decide_unpack _); vm_compute; exact I.

(** ** Looking through the edits *)
Lemma obj_get_retain_allowed k allowed m :
  obj_get k (retain_allowed allowed m) = if bool_decide (k ∈ allowed) then obj_get k m else None.
Proof.
  unfold retain_allowed, retain. induction m as [|[k' v] m IH]; cbn; [by case_bool_decide|].
  destruct (bool_decide (k' ∈ allowed)) eqn:Hk'; cbn; rewrite IH; repeat case_bool_decide; congruence.
Qed.
Lemma obj_get_update_member k k' f m :
  obj_get k (update_member k' f m) = if bool_decide (k = k') then f <$> obj_get k m else obj_get k m.
Proof.
  unfold update_member. destruct (obj_get k' m) eqn:Hg; [rewrite obj_get_insert|]; repeat case_bool_decide; subst; try done;
    by rewrite Hg.
Qed.
Lemma obj_get_update_object k k' f m :
  obj_get k (update_object k' f m) = if bool_decide (k = k') then on_object f <$> obj_get k m else obj_get k m.
Proof.
  unfold update_object. destruct (obj_get k' m) as [[]|] eqn:Hg; try rewrite obj_get_insert; repeat case_bool_decide; subst; try done;
    by rewrite Hg.
Qed.
#[export] Hint Rewrite obj_get_retain_allowed obj_get_update_member obj_get_update_object @obj_get_insert : members.

(** An object keeps the named members only, some of them edited. *)
Definition reduced (allowed : list string) (edits : list (string * (value -> value))) (m m' : object) : Prop :=
  forall k, obj_get k m' = if bool_decide (k ∈ allowed) then default id (obj_get k edits) <$> obj_get k m else None.
Lemma reduced_keys allowed edits m m' k : reduced allowed edits m m' -> k ∈ obj_keys m' -> k ∈ allowed.
Proof. intros Hr Hk%obj_get_is_Some. rewrite Hr in Hk. case_bool_decide; [done|by destruct Hk]. Qed.
Lemma retain_reduced allowed m : reduced allowed [] m (retain_allowed allowed m).
Proof. intros k. rewrite obj_get_retain_allowed. case_bool_decide; [|done]. cbn. by destruct (obj_get k m). Qed.

(** ** What a client may be told *)
Definition public_status (status : Z) : Prop :=
  (400 <= status < 500)%Z /\ status ∉ [401; 402; 403]%Z \/ status ∈ [502; 503; 504]%Z.
(** A kind is one the caller can act on, or the gateway's word for a public status. *)
Definition public_kind (surface : Surface) (kind : string) : Prop :=
  kind ∈ RELAYABLE_ERROR_KINDS \/ exists status, public_status status /\ kind = error_type surface status.
(** The kinds that speak of an account or of credentials. *)
Definition ACCOUNT_KINDS : list string :=
  ["authentication_error"; "permission_error"; "billing_error"; "insufficient_quota"; "credit_balance_exhausted"; "billing_not_active"].
Lemma public_kind_not_account surface kind : public_kind surface kind -> kind ∉ ACCOUNT_KINDS.
Proof.
  intros [Hk|(status & Hs & ->)].
  - intros Hin. assert (forallb (fun k => negb (bool_decide (k ∈ ACCOUNT_KINDS))) RELAYABLE_ERROR_KINDS = true) as Hall by done.
    rewrite forallb_forall in Hall. apply list_elem_of_In, Hall in Hk. by rewrite bool_decide_eq_true_2 in Hk.
  - assert (status ≠ 401 /\ status ≠ 402 /\ status ≠ 403)%Z as (H1 & H2 & H3).
    { destruct Hs as [[_ Hs]|Hs]; [|set_solver by lia]. rewrite !not_elem_of_cons in Hs. naive_solver. }
    unfold error_type. destruct surface; repeat case_match; subst; try done;
      apply (bool_decide_unpack _); by vm_compute.
Qed.

Lemma actionable_public status : is_actionable_client_error status = true -> public_status status.
Proof.
  unfold is_actionable_client_error, in_status_range. intros H. left. split; [lia|].
  rewrite !not_elem_of_cons. repeat split; try lia. apply not_elem_of_nil.
Qed.
Lemma mapped_public status : public_status (map_upstream_status status).
Proof. apply mapped_status_range. Qed.
Lemma kind_status_public kind : is_relayable_kind kind = true -> public_status (kind_http_status kind).
Proof.
  assert (forall s, s ∈ [400; 404; 413; 503; 504]%Z -> public_status s) as Hfix.
  { intros s Hs. unfold public_status. repeat (apply elem_of_cons in Hs as [->|Hs]; [set_solver by lia|]).
    by apply elem_of_nil in Hs. }
  destruct kind as [[| |n|k| |]|]; cbn [is_relayable_kind kind_http_status]; intros H; try done; try (apply (Hfix 400%Z); listed).
  - destruct (numeric_status (JNumber n)); [|done]. by apply actionable_public.
  - repeat case_bool_decide; apply Hfix; listed.
Qed.
Lemma suppressed_public kind slot : public_status (suppressed_status kind slot).
Proof.
  assert (public_status 502) as H502 by (right; set_solver).
  unfold suppressed_status. case_match eqn:He.
  - destruct (non_null slot) as [s|]; [|done]. destruct (is_relayable_kind (Some s)) eqn:Hr; [|done]. by apply kind_status_public.
  - unfold suppressed_error_status. destruct kind as [[| |n|k| |]|]; try done; [apply mapped_public|].
    repeat case_bool_decide; unfold public_status; set_solver by lia.
Qed.
Lemma suppressed_for_public m slot : public_status (suppressed_status_for m slot).
Proof. unfold suppressed_status_for. case_match; [apply mapped_public|apply suppressed_public]. Qed.
Lemma error_type_public surface status : public_status status -> public_kind surface (error_type surface status).
Proof. intros H. right. eauto. Qed.

Lemma safe_text_anonymous text : anonymous_text (client_safe_error_text text).
Proof.
  apply not_identifying_anonymous. unfold client_safe_error_text, scrub_identifying_markers.
  destruct (bool_decide _ || _) eqn:Hor; [by vm_compute|]. by apply orb_false_iff in Hor as [_ ?].
Qed.
Lemma client_message_anonymous message : anonymous_text (client_error_message message).
Proof.
  unfold client_error_message. destruct (message ≫= as_str); [apply safe_text_anonymous|apply upstream_message_anonymous].
Qed.
Lemma client_param_anonymous param text : client_error_param param = Some text -> anonymous_text text.
Proof.
  unfold client_error_param. destruct (param ≫= as_str) as [t|]; [|done]. cbn.
  destruct (looks_identifying t) eqn:Hl; [done|]. intros [= <-]. by apply not_identifying_anonymous.
Qed.
#[export] Hint Resolve error_type_public suppressed_for_public suppressed_public kind_status_public mapped_public
  upstream_message_anonymous safe_text_anonymous client_message_anonymous client_param_anonymous : sanitized.

(** *** In-band errors, per surface *)
Definition public_chat_error (e : value) : Prop :=
  e = JNull \/ exists m text kind param code, e = JObject m /\
    (forall k, k ∈ obj_keys m -> k ∈ ["message"; "type"; "param"; "code"]) /\
    obj_get "message" m = Some (JString text) /\ anonymous_text text /\
    obj_get "type" m = Some (JString kind) /\ public_kind SurfaceOpenai kind /\
    obj_get "param" m = Some (json_opt_str param) /\ (forall p, param = Some p -> anonymous_text p) /\
    obj_get "code" m = Some code /\ (code = JNull \/ exists status, code = JNumber (PosInt status) /\ public_status status).
Lemma gateway_error_public status message : public_status status -> anonymous_text message ->
  public_chat_error (set_member "message" (JString message) (chat_gateway_error status)).
Proof.
  intros Hs Hm. right. eexists _, message, _, None, _. split; [done|]. split; [cbn; set_solver|]. split; [done|]. split; [done|].
  split; [done|]. split; [by apply error_type_public|]. split; [done|]. split; [done|]. split; [done|]. right. eauto.
Qed.
Lemma chat_error_type_public kind : is_relayable_kind kind = true -> public_kind SurfaceOpenai (chat_error_type kind).
Proof.
  assert (public_kind SurfaceOpenai (error_type SurfaceOpenai 502)) as H502 by (apply error_type_public; right; set_solver).
  destruct kind as [[| |n|k| |]|]; cbn [is_relayable_kind chat_error_type]; intros H; try done.
  - destruct (numeric_status (JNumber n)) as [s|]; [|done]. by apply error_type_public, actionable_public.
  - apply bool_decide_eq_true in H. destruct (ends_with _ _); [by left|]. apply error_type_public. left. set_solver by lia.
Qed.
Lemma sanitize_error_public e : public_chat_error (sanitize_error e) /\ (sanitize_error e = JNull <-> e = JNull).
Proof.
  assert (public_status 502) as H502 by (right; set_solver).
  destruct e as [| | |text| |m]; cbn [sanitize_error].
  1: by split; [left|].
  all: try (split; [apply (gateway_error_public 502 (upstream_message 502)); auto with sanitized|done]).
  - split; [|done]. by apply gateway_error_public; [|apply safe_text_anonymous].
  - destruct (is_relayable_error m) eqn:Hrel; cbn [negb].
    + split; [|done]. apply andb_prop in Hrel as [_ Hrel]. set (kind := effective_error_kind m) in *.
      right. eexists _, _, _, _, _. split; [done|]. split; [cbn; set_solver|]. split; [done|]. split.
      { destruct (obj_get "message" m) as [[]|]; apply safe_text_anonymous. }
      split; [done|]. split.
      { destruct (obj_get "type" m ≫= as_str) as [k|]; cbn; [case_bool_decide; [by left|]|]; by apply chat_error_type_public. }
      split; [done|]. split; [intros p; apply client_param_anonymous|]. split; [done|].
      destruct kind as [v|]; cbn; [|by left]. destruct (is_null v); [by left|]. right. eexists. split; [done|].
      exact (kind_status_public (Some v) Hrel).
    + split; [|done]. apply (gateway_error_public _ (upstream_message _)); auto with sanitized.
Qed.

Definition RESPONSES_CODES : list string := RESPONSES_ERROR_CODES ++ ["rate_limit_exceeded"; "invalid_prompt"; "server_error"].
Lemma gateway_code_public status : responses_gateway_code status ∈ RESPONSES_CODES.
Proof. unfold responses_gateway_code. apply elem_of_app. right. repeat case_match; listed. Qed.
Lemma responses_code_public kind code : responses_error_code kind = Some code -> code ∈ RESPONSES_CODES.
Proof.
  unfold responses_error_code. destruct (kind ≫= as_str) as [k|]; [|done]. cbn [mbind option_bind]. case_bool_decide; [|done]. intros [= <-].
  apply elem_of_app. by left.
Qed.
#[export] Hint Resolve gateway_code_public responses_code_public : sanitized.
Definition public_responses_error (e : value) : Prop :=
  e = JNull \/ exists code text, e = responses_error_object code text /\ code ∈ RESPONSES_CODES /\ anonymous_text text.
Lemma sanitize_responses_field_public e :
  public_responses_error (sanitize_responses_error_field e) /\ (sanitize_responses_error_field e = JNull <-> e = JNull).
Proof.
  assert (forall code text, code ∈ RESPONSES_CODES -> anonymous_text text ->
    public_responses_error (responses_error_object code text) /\ (responses_error_object code text = JNull <-> e = JNull) \/ e = JNull) as Hobj.
  { intros code text Hc Ht. destruct (decide (e = JNull)) as [->|He]; [by right|]. left. split; [right; eauto|done]. }
  destruct e as [| | |text| |m]; cbn [sanitize_responses_error_field]; [split; [by left|done]|..];
    repeat case_match; match goal with |- public_responses_error (responses_error_object ?c ?t) /\ _ =>
      destruct (Hobj c t) as [|]; [..|done|done] end; auto with sanitized.
  destruct (responses_error_code (effective_error_kind m)) eqn:Hc; cbn; eauto with sanitized.
Qed.

(** The members of the error event of a Responses stream. *)
Definition public_responses_event (sequence_number : option Z) (v : value) : Prop :=
  exists code text param, v = responses_error_event code text param sequence_number /\
    (forall c, code = Some c -> c ∈ RESPONSES_CODES) /\ anonymous_text text /\ (forall p, param = Some p -> anonymous_text p).
Lemma sanitize_responses_event_public m :
  public_responses_event (obj_get "sequence_number" m ≫= as_u64) (sanitize_responses_error_event m).
Proof.
  unfold sanitize_responses_error_event. cbv zeta. set (kind := or_else (non_null _) _).
  set (carrier := match obj_get "error" m with Some (JObject e) => e | _ => m end).
  destruct (negb _ && _); eexists _, _, _; (split; [reflexivity|]).
  - split; [|split; [apply client_message_anonymous|intros p; apply client_param_anonymous]].
    intros code. destruct (responses_error_code kind) eqn:Hc; cbn [or_else].
    + intros [= <-]. by eapply responses_code_public.
    + destruct kind; [|done]. intros [= <-]. apply gateway_code_public.
  - split; [intros code [= <-]; apply gateway_code_public|]. split; [apply upstream_message_anonymous|done].
Qed.

Definition public_messages_event (request_id : option string) (v : value) : Prop :=
  exists kind text, v = envelope SurfaceAnthropic kind text request_id /\ public_kind SurfaceAnthropic kind /\ anonymous_text text.
Lemma messages_type_public kind : is_relayable_kind kind = true -> public_kind SurfaceAnthropic (messages_error_type kind).
Proof.
  intros H. assert (public_kind SurfaceAnthropic (error_type SurfaceAnthropic (kind_http_status kind))) as Hs by auto with sanitized.
  unfold messages_error_type. destruct (non_null kind) as [[| | |k| |]|] eqn:Hn; try done.
  - destruct kind as [v|]; [|done]. cbn in Hn. destruct (is_null v); [done|]. injection Hn as ->. cbn in H.
    destruct (bool_decide (k ∈ ANTHROPIC_ERROR_TYPES)); [left; by apply bool_decide_eq_true in H|done].
  - apply error_type_public. right. set_solver.
Qed.
Lemma canonicalize_messages_public request_id m : obj_get "type" m ≫= as_str = Some "error" ->
  public_messages_event request_id (canonicalize_messages request_id m).
Proof.
  intros Ht. unfold canonicalize_messages. rewrite bool_decide_eq_true_2 by done.
  set (error := match obj_get "error" m with Some (JObject e) => Some e | _ => None end).
  destruct (from_option is_relayable_error false error) eqn:Hrel.
  - eexists _, _. split; [done|]. split; [|apply client_message_anonymous].
    destruct error as [e|]; [|done]. cbn in *. apply andb_prop in Hrel as [_ Hrel]. by apply messages_type_public.
  - eexists _, _. split; [done|]. split; [|apply upstream_message_anonymous]. apply error_type_public.
    destruct error; cbn; [apply suppressed_for_public|right; set_solver].
Qed.

(** ** What is served *)
Lemma reduced_member allowed edits m m' k f : reduced allowed edits m m' -> obj_get k edits = None ->
  reduced allowed ((k, f) :: edits) m (update_member k f m').
Proof.
  intros Hr Hk k'. rewrite obj_get_update_member, Hr. cbn [obj_get].
  destruct (decide (k' = k)) as [->|Hne].
  - rewrite !(bool_decide_eq_true_2 (k = k)) by done. rewrite Hk. case_bool_decide; [|done]. by destruct (obj_get k m).
  - rewrite (bool_decide_eq_false_2 (k' = k)), (bool_decide_eq_false_2 (k = k')) by done. done.
Qed.
Lemma reduced_object allowed edits m m' k f : reduced allowed edits m m' -> obj_get k edits = None ->
  reduced allowed ((k, on_object f) :: edits) m (update_object k f m').
Proof.
  intros Hr Hk k'. rewrite <- (reduced_member _ _ _ _ k (on_object f) Hr Hk).
  by rewrite obj_get_update_object, obj_get_update_member.
Qed.
Ltac solve_reduced := repeat first [apply retain_reduced|apply reduced_member; [|done]|apply reduced_object; [|done]].

Definition chat_edits : list (string * (value -> value)) :=
  [("choices", on_array (on_object canonical_chat_choice)); ("error", sanitize_error);
   ("usage", on_object (retain_allowed CHAT_USAGE))].
Definition chat_choice_edits : list (string * (value -> value)) :=
  [("delta", on_object (retain_allowed CHAT_MESSAGE)); ("message", on_object (retain_allowed CHAT_MESSAGE)); ("error", sanitize_error)].
Definition completion_edits : list (string * (value -> value)) :=
  [("choices", on_array (on_object canonical_completion_choice)); ("error", sanitize_error);
   ("usage", on_object (retain_allowed CHAT_USAGE))].
Definition responses_edits : list (string * (value -> value)) :=
  [("error", sanitize_responses_error_field); ("usage", on_object (retain_allowed RESPONSES_USAGE))].
Definition systemone_edits : list (string * (value -> value)) :=
  [("usage", on_object (retain_allowed SYSTEMONE_USAGE)); ("error", sanitize_error)].

Lemma chat_choice_reduced m : reduced CHAT_CHOICE chat_choice_edits m (canonical_chat_choice m).
Proof. unfold canonical_chat_choice. cbn [foldl MESSAGE_CONTAINERS]. solve_reduced. Qed.
Lemma chat_reduced m : reduced CHAT_TOP chat_edits m (canonicalize_chat_completion m).
Proof. unfold canonicalize_chat_completion. solve_reduced. Qed.
Lemma completion_choice_reduced m :
  reduced COMPLETION_CHOICE [("error", sanitize_error)] m (canonical_completion_choice m).
Proof. unfold canonical_completion_choice. solve_reduced. Qed.
Lemma completion_reduced m : reduced COMPLETION_TOP completion_edits m (canonicalize_text_completion m).
Proof. unfold canonicalize_text_completion. solve_reduced. Qed.
Lemma responses_reduced m : reduced RESPONSES_TOP responses_edits m (canonicalize_responses_object m).
Proof. unfold canonicalize_responses_object. solve_reduced. Qed.

(** The error a SystemOne body is read as reporting: a typed error is its own
    error, and a null one is none. *)
Definition systemone_error (m : object) : option value :=
  if bool_decide (obj_get "type" m ≫= as_str = Some "error") && is_null_or_absent (obj_get "error" m)
  then Some (JObject m) else non_null (obj_get "error" m).
Lemma systemone_gets m k : NoDup (obj_keys m) ->
  obj_get k (canonicalize_systemone m) =
    if bool_decide (k = "error") then sanitize_error <$> systemone_error m
    else if bool_decide (k ∈ SYSTEMONE_TOP) then
      (if bool_decide (k = "usage") then on_object (retain_allowed SYSTEMONE_USAGE) else id) <$> obj_get k m
    else None.
Proof.
  intros Hnd. unfold canonicalize_systemone.
  set (m1 := if _ && _ then obj_insert "error" (JObject m) m else m).
  set (m2 := if from_option is_null false (obj_get "error" m1) then _ else m1).
  assert (forall k, obj_get k m2 = if bool_decide (k = "error") then systemone_error m else obj_get k m) as Hm2.
  { clear k. intros k. assert (NoDup (obj_keys m1)) as Hnd1 by (unfold m1; case_match; [by apply obj_insert_NoDup|done]).
    unfold m2, m1, systemone_error in *. destruct (_ && _).
    - rewrite obj_get_insert. cbn [from_option is_null bool_decide]. rewrite bool_decide_eq_true_2 by done. cbn.
      rewrite obj_get_insert. repeat case_bool_decide; congruence.
    - destruct (obj_get "error" m) as [v|] eqn:Hg; cbn [from_option non_null mbind option_bind].
      + destruct (is_null v) eqn:Hv; [rewrite obj_get_remove by done|]; repeat case_bool_decide; subst; congruence.
      + case_bool_decide; subst; congruence. }
  rewrite obj_get_update_object, obj_get_update_member, obj_get_retain_allowed, Hm2.
  destruct (decide (k = "error")) as [->|Hne]; [done|]. rewrite !(bool_decide_eq_false_2 (k = "error")) by done.
  destruct (decide (k = "usage")) as [->|Hne2]; [done|]. rewrite !(bool_decide_eq_false_2 (k = "usage")) by done.
  case_bool_decide; [by destruct (obj_get k m)|done].
Qed.

(** *** The schema of each endpoint *)
Definition only (allowed : list string) (v : value) : Prop :=
  match v with JObject m => forall k, k ∈ obj_keys m -> k ∈ allowed | _ => True end.
Definition member_is (k : string) (P : value -> Prop) (v : value) : Prop := forall x, get k v = Some x -> P x.
Definition items_are (P : value -> Prop) (v : value) : Prop := forall l, v = JArray l -> Forall P l.

Definition public_chat_choice (c : value) : Prop :=
  only CHAT_CHOICE c /\ member_is "error" public_chat_error c /\
  member_is "message" (only CHAT_MESSAGE) c /\ member_is "delta" (only CHAT_MESSAGE) c.
Definition public_chat (v : value) : Prop :=
  only CHAT_TOP v /\ member_is "usage" (only CHAT_USAGE) v /\ member_is "error" public_chat_error v /\
  member_is "choices" (items_are (fun c => is_object c = true -> public_chat_choice c)) v.
Definition public_completion_choice (c : value) : Prop :=
  only COMPLETION_CHOICE c /\ member_is "error" public_chat_error c.
Definition public_completion (v : value) : Prop :=
  only COMPLETION_TOP v /\ member_is "usage" (only CHAT_USAGE) v /\ member_is "error" public_chat_error v /\
  member_is "choices" (items_are (fun c => is_object c = true -> public_completion_choice c)) v.
Definition public_responses_object (v : value) : Prop :=
  only RESPONSES_TOP v /\ member_is "usage" (only RESPONSES_USAGE) v /\ member_is "error" public_responses_error v.
Definition public_systemone (v : value) : Prop :=
  only SYSTEMONE_TOP v /\ member_is "usage" (only SYSTEMONE_USAGE) v /\ member_is "error" public_chat_error v.

(** The answers that have a schema: every body and chunk of the chat, completion and SystemOne
    endpoints, the bodies, error events and events with a response of the Responses endpoint, the
    error events of the Messages endpoint, and image bodies that passed the check of their data.
    Embeddings, transcriptions (reduced before, by [Audio]) and the other bodies and events of the
    Messages and Responses endpoints pass as they are. *)
Definition has_schema (endpoint : Endpoint) (body : value) : Prop :=
  match endpoint with
  | ChatComplete | Complete | SystemOne => True
  | CreateModelResponse => forall t, get_str "type" body = Some t -> t = "error" \/ starts_with "response." t = true
  | Messages => get_str "type" body = Some "error"
  | ImagesGenerations => exists limit, validate_image_response body limit = Ok ()
  | Embed | AudioTranscriptions => False
  end.
(** The schema, and what it was made from. *)
Definition public_response (endpoint : Endpoint) (request_id : option string) (body v : value) : Prop :=
  match endpoint with
  | ChatComplete => public_chat v
  | Complete => public_completion v
  | SystemOne => public_systemone v
  | CreateModelResponse =>
      match get_str "type" body with
      | None => public_responses_object v
      | Some t =>
          if bool_decide (t ∈ ["error"; "response.error"]) then public_responses_event (get "sequence_number" body ≫= as_u64) v
          else member_is "response" (fun r => is_object r = true -> public_responses_object r) v
      end
  | Messages => public_messages_event request_id v
  | ImagesGenerations => image_schema v = true /\ images v = images body
  | Embed | AudioTranscriptions => False
  end.

Lemma only_reduced allowed edits m m' : reduced allowed edits m m' -> only allowed (JObject m').
Proof. intros Hr k. by eapply reduced_keys. Qed.
Lemma reduced_member_is allowed edits m m' k f (P : value -> Prop) : reduced allowed edits m m' ->
  obj_get k edits = Some f -> (forall x, P (f x)) -> member_is k P (JObject m').
Proof.
  intros Hr Hf HP x. cbn. rewrite Hr, Hf. case_bool_decide; [|done]. cbn. destruct (obj_get k m); [|done]. intros [= <-]. apply HP.
Qed.
Lemma only_retain allowed v : only allowed (on_object (retain_allowed allowed) v).
Proof. destruct v; try done. eapply only_reduced, retain_reduced. Qed.
Lemma items_on_array (P : value -> Prop) f v : (forall x, P (f x)) -> items_are P (on_array f v).
Proof. intros HP l. destruct v; try done. intros [= <-]. apply Forall_fmap, Forall_forall. intros x _. apply HP. Qed.
Lemma sanitized_public x : public_chat_error (sanitize_error x).
Proof. apply sanitize_error_public. Qed.

Lemma chat_choice_public x : is_object (on_object canonical_chat_choice x) = true -> public_chat_choice (on_object canonical_chat_choice x).
Proof.
  destruct x as [| | | | |m]; try done. intros _. cbn [on_object]. pose proof (chat_choice_reduced m) as Hr.
  split; [by eapply only_reduced|]. repeat split; eapply reduced_member_is; try exact Hr; try done; intros x;
    [apply sanitized_public|apply only_retain|apply only_retain].
Qed.
Lemma completion_choice_public x :
  is_object (on_object canonical_completion_choice x) = true -> public_completion_choice (on_object canonical_completion_choice x).
Proof.
  destruct x as [| | | | |m]; try done. intros _. cbn [on_object]. pose proof (completion_choice_reduced m) as Hr.
  split; [by eapply only_reduced|]. eapply reduced_member_is; try exact Hr; [done|]. apply sanitized_public.
Qed.
Lemma responses_object_public m : public_responses_object (JObject (canonicalize_responses_object m)).
Proof.
  pose proof (responses_reduced m) as Hr. split; [by eapply only_reduced|]. split; eapply reduced_member_is; try exact Hr; try done.
  - intros x. apply only_retain.
  - intros x. apply sanitize_responses_field_public.
Qed.

Lemma systemone_public m : NoDup (obj_keys m) -> public_systemone (JObject (canonicalize_systemone m)).
Proof.
  intros Hnd. assert ("usage" ∈ SYSTEMONE_TOP) as Hu by listed. assert ("error" ∈ SYSTEMONE_TOP) as He by listed. split; [|split].
  - intros k Hk%obj_get_is_Some. rewrite systemone_gets in Hk by done.
    destruct (decide (k = "error")) as [->|]; [done|]. rewrite (bool_decide_eq_false_2 (k = "error")) in Hk by done.
    case_bool_decide; [done|by destruct Hk].
  - intros x. cbn [get]. rewrite systemone_gets by done.
    rewrite (bool_decide_eq_false_2 ("usage" = "error")), (bool_decide_eq_true_2 ("usage" ∈ _)), (bool_decide_eq_true_2 ("usage" = "usage")) by done.
    destruct (obj_get "usage" m); [|done]. intros [= <-]. apply only_retain.
  - intros x. cbn [get]. rewrite systemone_gets, (bool_decide_eq_true_2 ("error" = "error")) by done.
    destruct (systemone_error m); [|done]. intros [= <-]. apply sanitized_public.
Qed.

(** C17: what is served has the public schema.  An answer that has one (chat, completion and
    SystemOne bodies and chunks; Responses bodies and error events, and the response inside a
    Responses event; Messages error events; checked image bodies) has only the members the
    schema names, at every level it describes; an error inside it speaks in the gateway's words
    or names a kind the caller can act on, with a status that is never one of the gateway's own
    account and texts without a URL or the name of a host; and the images are the upstream's. *)
Theorem served_response_is_public now body endpoint request_id : value_wf body -> is_object body = true -> has_schema endpoint body ->
  public_response endpoint request_id body (canonicalize now body endpoint request_id).
Proof.
  intros Hwf Hobj Hschema. destruct body as [| | | | |m]; try done. assert (NoDup (obj_keys m)) as Hnd by by inv Hwf.
  destruct endpoint; try done; cbn [canonicalize public_response has_schema] in *.
  - pose proof (chat_reduced m) as Hr. split; [by eapply only_reduced|].
    repeat split; eapply reduced_member_is; try exact Hr; try done; intros x;
      [apply only_retain|apply sanitized_public|apply items_on_array; apply chat_choice_public].
  - pose proof (completion_reduced m) as Hr. split; [by eapply only_reduced|].
    repeat split; eapply reduced_member_is; try exact Hr; try done; intros x;
      [apply only_retain|apply sanitized_public|apply items_on_array; apply completion_choice_public].
  - by apply canonicalize_messages_public.
  - unfold canonicalize_responses. change (get_str "type" (JObject m)) with (obj_get "type" m ≫= as_str) in *.
    destruct (obj_get "type" m ≫= as_str) as [t|]; [|apply responses_object_public].
    case_bool_decide as Ht; [apply sanitize_responses_event_public|]. destruct (Hschema t eq_refl) as [->| ->]; [by destruct Ht; left|].
    intros x. cbn. rewrite obj_get_update_object, bool_decide_eq_true_2 by done.
    destruct (obj_get "response" m) as [r|]; [|done]. intros [= <-]. destruct r; try done. intros _. apply responses_object_public.
  - by apply systemone_public.
  - destruct Hschema as [limit Hv]. by eapply canonicalize_schema.
Qed.

(** *** The answer survives *)
Definition reports_failure (v : value) : bool := negb (is_null_or_absent (get "error" v)).
Definition same_members (ks : list string) (v v' : value) : Prop := forall k, k ∈ ks -> get k v' = get k v.
(** A part keeps the members of the schema, or is kept as it is. *)
Definition same_part (ks : list string) (v v' : value) : Prop :=
  if is_object v then is_object v' = true /\ same_members ks v v' else v' = v.
Definition member_kept (k : string) (R : value -> value -> Prop) (v v' : value) : Prop := option_Forall2 R (get k v) (get k v').
Definition same_choice (c c' : value) : Prop :=
  if is_object c then
    is_object c' = true /\ same_members ["index"; "finish_reason"; "logprobs"] c c' /\
    member_kept "message" (same_part CHAT_MESSAGE) c c' /\ member_kept "delta" (same_part CHAT_MESSAGE) c c'
  else c' = c.
Definition same_choices (v v' : value) : Prop :=
  match v with JArray l => exists l', v' = JArray l' /\ Forall2 same_choice l l' | _ => v' = v end.

Lemma same_part_retain ks v : same_part ks v (on_object (retain_allowed ks) v).
Proof.
  destruct v; try done. split; [done|]. intros k Hk. cbn [get on_object]. by rewrite obj_get_retain_allowed, bool_decide_eq_true_2.
Qed.
Lemma reduced_get_same allowed edits m m' k : reduced allowed edits m m' -> k ∈ allowed -> obj_get k edits = None ->
  obj_get k m' = obj_get k m.
Proof. intros Hr Hk He. rewrite Hr, bool_decide_eq_true_2, He by done. by destruct (obj_get k m). Qed.
Lemma reduced_member_kept allowed edits m m' k f (R : value -> value -> Prop) : reduced allowed edits m m' -> k ∈ allowed ->
  obj_get k edits = Some f -> (forall x, R x (f x)) -> member_kept k R (JObject m) (JObject m').
Proof.
  intros Hr Hk He HR. unfold member_kept. cbn [get]. rewrite Hr, bool_decide_eq_true_2, He by done.
  destruct (obj_get k m); constructor. apply HR.
Qed.
Lemma chat_choice_same c : same_choice c (on_object canonical_chat_choice c).
Proof.
  destruct c as [| | | | |m]; try done. split; [done|]. pose proof (chat_choice_reduced m) as Hr. split; [|split].
  - intros k Hk. cbn [get on_object]. repeat (apply elem_of_cons in Hk as [->|Hk]; [eapply reduced_get_same; [exact Hr|listed|done]|]).
    by apply elem_of_nil in Hk.
  - eapply reduced_member_kept; [exact Hr|listed|done|]. apply same_part_retain.
  - eapply reduced_member_kept; [exact Hr|listed|done|]. apply same_part_retain.
Qed.
Lemma same_choices_on_array v : same_choices v (on_array (on_object canonical_chat_choice) v).
Proof.
  destruct v as [| | | |l|]; try done. exists (on_object canonical_chat_choice <$> l). split; [done|].
  induction l; constructor; [apply chat_choice_same|done].
Qed.

Lemma rewrite_get identity m k : obj_get k (rewrite_id_and_model identity m) =
  if bool_decide (k = "id") then (fun _ => JString (ri_request_id identity)) <$> obj_get k m
  else if bool_decide (k = "model") then (fun v => from_option JString v (ri_user_model identity)) <$> obj_get k m
  else obj_get k m.
Proof.
  unfold rewrite_id_and_model. set (m1 := if obj_get "id" m then _ else m).
  assert (forall k, obj_get k m1 = if bool_decide (k = "id") then (fun _ => JString (ri_request_id identity)) <$> obj_get k m else obj_get k m) as Hm1.
  { intros k'. unfold m1. destruct (obj_get "id" m) as [v|] eqn:Hi; [rewrite obj_get_insert|]; repeat case_bool_decide; subst; try done;
      by rewrite Hi. }
  assert (obj_get "model" m1 = obj_get "model" m) as Hmod by (rewrite Hm1; by rewrite bool_decide_eq_false_2).
  rewrite Hmod. destruct (obj_get "model" m) as [v|] eqn:Hv; destruct (ri_user_model identity) as [u|]; rewrite ?obj_get_insert, Hm1;
    repeat case_bool_decide; subst; try done; by rewrite ?Hv.
Qed.

Lemma sanitized_null e : is_null (sanitize_error e) = is_null e.
Proof.
  destruct (sanitize_error_public e) as [_ He]. destruct (is_null e) eqn:Hn; [by destruct e|].
  destruct (sanitize_error e); try done. by rewrite (proj1 He eq_refl) in Hn.
Qed.

(** Sanitizing keeps the answer.  A chat body or chunk leaves with the gateway's
    id and the requested model in place of the upstream's, and otherwise with every
    documented member of its choices, messages, deltas and usage as the upstream
    sent it; and it reports a failure exactly when it did before, so that a failed
    stream is never metered as a success. *)
Theorem sanitizing_keeps_the_answer now identity request_id m : get_str "type" (JObject m) = None ->
  let v := canonicalize now (rewrite_identity identity (JObject m)) ChatComplete request_id in
  get "id" v = (fun _ => JString (ri_request_id identity)) <$> obj_get "id" m /\
  get "model" v = (fun upstream => from_option JString upstream (ri_user_model identity)) <$> obj_get "model" m /\
  same_members ["object"; "created"; "service_tier"] (JObject m) v /\
  member_kept "choices" same_choices (JObject m) v /\
  member_kept "usage" (same_part CHAT_USAGE) (JObject m) v /\
  reports_failure v = reports_failure (JObject m).
Proof.
  intros Ht v. set (m1 := rewrite_id_and_model identity m).
  assert (v = JObject (canonicalize_chat_completion m1)) as -> by (unfold v, rewrite_identity; by rewrite Ht).
  pose proof (chat_reduced m1) as Hr.
  assert (forall k, k ∈ CHAT_TOP -> k ≠ "id" -> k ≠ "model" -> obj_get k m1 = obj_get k m) as Hsame.
  { intros k _ Hi Hm. unfold m1. by rewrite rewrite_get, !bool_decide_eq_false_2. }
  assert (forall k R, k ∈ CHAT_TOP -> k ≠ "id" -> k ≠ "model" ->
    member_kept k R (JObject m1) (JObject (canonicalize_chat_completion m1)) ->
    member_kept k R (JObject m) (JObject (canonicalize_chat_completion m1))) as Hlift.
  { intros k R H1 H2 H3. unfold member_kept. cbn [get]. by rewrite Hsame. }
  split; [|split; [|split; [|split; [|split]]]].
  - cbn [get]. rewrite (reduced_get_same _ _ _ _ "id" Hr) by (listed || done). unfold m1. by rewrite rewrite_get.
  - cbn [get]. rewrite (reduced_get_same _ _ _ _ "model" Hr) by (listed || done). unfold m1. by rewrite rewrite_get.
  - intros k Hk. cbn [get]. repeat (apply elem_of_cons in Hk as [->|Hk];
      [rewrite (reduced_get_same _ _ _ _ _ Hr) by (listed || done); apply Hsame; [listed|done|done]|]). by apply elem_of_nil in Hk.
  - apply Hlift; [listed|done|done|]. eapply reduced_member_kept; [exact Hr|listed|done|]. apply same_choices_on_array.
  - apply Hlift; [listed|done|done|]. eapply reduced_member_kept; [exact Hr|listed|done|]. apply same_part_retain.
  - unfold reports_failure, is_null_or_absent. cbn [get]. rewrite Hr, (bool_decide_eq_true_2 ("error" ∈ CHAT_TOP)) by listed.
    rewrite Hsame by (listed || done). change (default id (obj_get "error" chat_edits)) with sanitize_error.
    destruct (obj_get "error" m) as [e|]; [|done]. cbn [fmap option_fmap option_map non_null mbind option_bind].
    by rewrite sanitized_null; destruct (is_null e).
Qed.

(** Opting out of reasoning removes every trace of it and nothing else. *)
Lemma remove_members_get ks k m : NoDup (obj_keys m) ->
  obj_get k (remove_members ks m) = if bool_decide (k ∈ ks) then None else obj_get k m.
Proof.
  unfold remove_members. revert m. induction ks as [|k0 ks IH]; intros m Hnd; cbn [foldl].
  - by rewrite bool_decide_eq_false_2 by apply not_elem_of_nil.
  - rewrite IH, obj_get_remove by (done || by apply obj_remove_NoDup).
    repeat case_bool_decide; try done; set_solver.
Qed.
Definition unreasoned_part (p p' : value) : Prop :=
  if is_object p then forall k, get k p' = if bool_decide (k ∈ REASONING_MEMBERS) then None else get k p else p' = p.
Definition unreasoned_choice (c c' : value) : Prop :=
  member_kept "message" unreasoned_part c c' /\ member_kept "delta" unreasoned_part c c' /\
  (forall k, k ∉ MESSAGE_CONTAINERS -> get k c' = get k c).
Lemma exclude_reasoning_choices m l : value_wf (JObject m) -> obj_get "choices" m = Some (JArray l) ->
  exists l', get "choices" (exclude_reasoning (JObject m)) = Some (JArray l') /\ Forall2 unreasoned_choice l l' /\
    forall k, k ≠ "choices" -> get k (exclude_reasoning (JObject m)) = obj_get k m.
Proof.
  intros Hwf Hl. unfold exclude_reasoning. set (edit := on_object (fun choice => _)). cbn [on_object].
  exists (edit <$> l). split; [cbn; by rewrite obj_get_update_member, bool_decide_eq_true_2, Hl|]. split.
  2: { intros k Hk. cbn. by rewrite obj_get_update_member, bool_decide_eq_false_2. }
  assert (Forall value_wf l) as Hwl.
  { assert (Forall (fun kv => value_wf kv.2) m) as Hm by by inv Hwf. pose proof (wf_obj_get m _ _ Hm Hl) as Hw. by inv Hw. }
  clear Hl. induction Hwl as [|c l Hc _ IH]; constructor; [|exact IH]. clear IH. subst edit.
  destruct c as [| | | | |cm]; try (repeat split; constructor).
  cbn [on_object foldl MESSAGE_CONTAINERS]. assert (Forall (fun kv => value_wf kv.2) cm) as Hcm by by inv Hc.
  assert (forall k p, obj_get k cm = Some p -> unreasoned_part p (on_object (remove_members REASONING_MEMBERS) p)) as Hpart.
  { intros k p Hp. pose proof (wf_obj_get _ _ _ Hcm Hp) as Hwp. destruct p as [| | | | |pm]; try done. intros k'. cbn [get on_object].
    rewrite remove_members_get; [done|by inv Hwp]. }
  split; [|split]; unfold member_kept; cbn [get].
  - rewrite !obj_get_update_object. cbn. destruct (obj_get "message" cm) eqn:Hm; constructor. by eapply Hpart.
  - rewrite !obj_get_update_object. cbn. destruct (obj_get "delta" cm) eqn:Hm; constructor. by eapply Hpart.
  - intros k Hk. rewrite !obj_get_update_object. rewrite !bool_decide_eq_false_2 by set_solver. done.
Qed.

(** *** Witnesses: a chunk with an account error and a private member. *)
Definition sample_chunk : object :=
  [("id", JString "upstream-1"); ("model", JString "internal"); ("x_trace", JString "host-7");
   ("choices", JArray [JObject [("index", JNumber (PosInt 0)); ("delta", JObject [("content", JString "hi"); ("trace", JNull)])]]);
   ("error", JObject [("type", JString "insufficient_quota"); ("message", JString "no credits remaining at api.acme.ai")])].
Lemma sample_chunk_wf : value_wf (JObject sample_chunk).
Proof. apply value_wfb_spec. vm_compute. reflexivity. Qed.
Lemma served_response_is_public_witness :
  public_response ChatComplete None (JObject sample_chunk) (canonicalize 0 (JObject sample_chunk) ChatComplete None) /\
  get "error" (canonicalize 0 (JObject sample_chunk) ChatComplete None) = Some (chat_gateway_error 502).
Proof.
  split; [|vm_compute; reflexivity].
  apply (served_response_is_public 0 (JObject sample_chunk) ChatComplete None sample_chunk_wf); [reflexivity|exact I].
Defined.
Lemma sanitizing_keeps_the_answer_witness :
  get "id" (canonicalize 0 (rewrite_identity (mkIdentity "r-1" (Some "m")) (JObject sample_chunk)) ChatComplete None) =
    Some (JString "r-1") /\
  reports_failure (canonicalize 0 (rewrite_identity (mkIdentity "r-1" (Some "m")) (JObject sample_chunk)) ChatComplete None) = true.
Proof.
  destruct (sanitizing_keeps_the_answer 0 (mkIdentity "r-1" (Some "m")) None sample_chunk) as (Hid & _ & _ & _ & _ & Hf);
    [reflexivity|]. split; [exact Hid|]. rewrite Hf. reflexivity.
Defined.
