(* ===== verification/Forward.v ===== *)
(** * Forwarding a request (src/aggregator/service/forward.rs, wire.rs, receipts.rs)

    The two direct entry points, buffered and streaming: prepare the request,
    verify and admit the upstream, forward under the admission, and build, sign and
    publish the receipt over the bytes that are served; and the receipt of a
    refusal.  Metrics and logging are left out. *)
From S2P Require Import Prelude Json External Effects Digest Identity Receipt RelyingParty Session SessionStore ReceiptStore.
From S2P Require Import Errors Upstream Images Audio Claims E2eeCipher Provider Attestation Admission E2ee SseProtocol UpstreamErrors.

Definition IMAGES_GENERATIONS_PATH : string := "/v1/images/generations".
Definition AUDIO_TRANSCRIPTIONS_PATH : string := "/v1/audio/transcriptions".
Definition is_media_path (path : string) : bool :=
  bool_decide (path = IMAGES_GENERATIONS_PATH) || bool_decide (path = AUDIO_TRANSCRIPTIONS_PATH).

Record GatewayRequestContext : Type := mkGatewayContext {
  gc_request_id : string;
  gc_user_model : option string;
  gc_target_route_id : option string;
  gc_user_tier : option string;
}.
Record ChatCompletionRequest : Type := mkChatRequest {
  cr_audio_form : option AudioForm;
  cr_context : GatewayRequestContext;
  cr_endpoint_path : string;
  cr_received_body : bytes;
  cr_forwarded_body : option bytes;
  cr_aci_required : bool;
  cr_aci_session_ids : list string;
  cr_upstream_verification_event : option UpstreamVerifiedEvent;
  cr_requester : option ReceiptOwner;
  cr_e2ee : option E2eeContext;
}.
Definition requires_aci_verification (req : ChatCompletionRequest) : bool :=
  cr_aci_required req || bool_decide (cr_aci_session_ids req ≠ []).

Record E2eeResponseInfo : Type := mkE2eeInfo {
  ei_version : string;
  ei_algo : string;
}.
Definition e2ee_response_info (ctx : E2eeContext) : E2eeResponseInfo := mkE2eeInfo (ec_version ctx) (ec_algo ctx).
Record ForwardResult : Type := mkForwardResult {
  fr_receipt : SignedReceipt;
  fr_upstream_status : Z;
  fr_upstream_body : bytes;
  fr_upstream_headers : headers;
  fr_e2ee : option E2eeResponseInfo;
}.
Record StreamingUpstreamError : Type := mkStreamingError {
  se_upstream_status : Z;
  se_upstream_headers : headers;
  se_upstream_body : bytes;
}.
(** The arguments of [ReceiptFinalizingStream::new], which wraps the upstream's
    body; [Streaming] models what the stream then does. *)
Record FinalizingBody : Type := mkFinalizingBody {
  fb_body : body_stream;
  fb_builder : ReceiptBuilder;
  fb_lease : option SessionLease;
  fb_requester : option ReceiptOwner;
  fb_endpoint_path : string;
  fb_e2ee : option E2eeContext;
  fb_request_id : option string;
  fb_is_sse : bool;
}.
Record StreamingForwardStream : Type := mkStreamingForward {
  sf_receipt_id : string;
  sf_keyset_digest : string;
  sf_upstream_status : Z;
  sf_upstream_headers : headers;
  sf_e2ee : option E2eeResponseInfo;
  sf_body : FinalizingBody;
}.
Inductive StreamingForwardResult : Type :=
| ForwardStream (s : StreamingForwardStream)
| StreamUpstreamError (e : StreamingUpstreamError).

(** An answer with a status and no body. *)
Definition withheld_response (status : Z) : UpstreamResponse := mkUpstreamResponse status [] ∅ None.
Definition withheld_stream_response (status : Z) : UpstreamStreamResponse := mkUpstreamStreamResponse status ∅ [] None.

Definition service_upstream {A} (p : service (result UpstreamError A)) : service (result ServiceError A) :=
  r ← p; Ret (map_err ServiceUpstream r).
Definition drop_lease_opt (lease : option SessionLease) : service unit :=
  match lease with Some l => call (DropLease l) | None => Ret () end.

Definition take_form (p : PreparedUpstreamRequest) (body : bytes) (content_type : option string) : PreparedUpstreamRequest :=
  let r := pr_request p in
  mkPrepared (mkUpstreamRequest None content_type body (ur_headers r) (ur_path r) (ur_target_route_id r))
    (pr_upstream_name p) (pr_url_origin p) (pr_model_id p) (pr_route_id p) (pr_is_tee p).

Section Forward.
Context {SH : Sha} {HX : HexCodec} {B64 : Base64} {SJ : SerdeJson} {KP : KeyProvider} {ED : Ed25519} {CC : CurveCrypto}.
Context {RS : ResponseSerde}.
Context (rng : nat -> Draws) (svc : AciService) (has_verifier : bool).

(** [PreparedUpstreamRequest::encode_audio]. *)
Definition encode_audio (prepared : PreparedUpstreamRequest) : service (result UpstreamError PreparedUpstreamRequest) :=
  match ur_form (pr_request prepared) with
  | None => Ret (Ok prepared)
  | Some form =>
      params ←? Ret (map_err (fun _ => InvalidRequest "invalid transcription metadata")
        (from_slice (ur_body (pr_request prepared))));
      encoded ←? call (EncodeForm form params);
      Ret (Ok (take_form prepared encoded.1 (Some encoded.2)))
  end.

Definition sanitize_media_success (endpoint_path : string) (response request : bytes)
    (audio_metadata : option value) (now : Z) : result string bytes :=
  if bool_decide (endpoint_path = IMAGES_GENERATIONS_PATH) then
    ok_or "upstream returned a malformed success body" (image_response_body now response request)
  else
    let message := "upstream returned a malformed transcription response" in
    body ← map_err (fun _ => message) (from_slice response);
    sanitized ← map_err (fun _ => message) (sanitize_response body (default JNull audio_metadata));
    Ok (to_vec sanitized.1).

(** The body and status a buffered response reaches the client with, in the clear. *)
Definition client_response (endpoint_path : string) (received_body forwarded_body : bytes)
    (audio_metadata : option value) (response : UpstreamResponse) (now : Z) : Z * bytes * headers :=
  let json_headers := <["content-type" := "application/json"]> (up_headers response) in
  if is_success (up_status_code response) then
    if is_media_path endpoint_path then
      match sanitize_media_success endpoint_path (up_body response) forwarded_body audio_metadata now with
      | Ok body => (up_status_code response, body, json_headers)
      | Err message => (502%Z, envelope_bytes SurfaceOpenai "upstream_error" message None, json_headers)
      end
    else (up_status_code response, up_body response, up_headers response)
  else
    (normalize_upstream_error_parts (surface_for_path endpoint_path) (up_status_code response) (up_body response)
       received_body None, json_headers).

(** ** Receipts *)
Definition lift_receipt {A} (r : result ReceiptError A) : result ServiceError A := map_err ServiceReceipt r.
Definition append_upstream_verified (b : ReceiptBuilder) (event : UpstreamVerifiedEvent) (recorded : option string) :
    result ReceiptError ReceiptBuilder :=
  match recorded with
  | Some session_id => add_upstream_verified_with_session b (uv_required event) (uv_model_id event) session_id
  | None =>
      add_upstream_verified_failed b (uv_model_id event)
        (default "no enforceable verified binding" (uv_reason event)) (uv_required event) (Some (uv_upstream_name event))
  end.
(** The events up to the forwarded request and the verified upstream. *)
Definition receipt_prefix (b : ReceiptBuilder) (received_body : bytes) (middleware_body : option bytes)
    (route_id : option string) (forwarded_body : bytes) (selected : SelectedUpstream) :
    result ReceiptError ReceiptBuilder :=
  b ← fst <$> add_request_received b received_body;
  b ← match middleware_body with Some body => fst <$> add_middleware_forwarded b body | None => Ok b end;
  b ← match route_id with Some id => add_route_selected b id | None => Ok b end;
  b ← fst <$> add_request_forwarded b forwarded_body;
  if serves_directly svc then Ok b
  else append_upstream_verified b (sel_event selected) (le_session_id <$> sel_lease selected).

(** [AciService::store_receipt]: [Retention.store_receipt] over the shared stores. *)
Definition publish_receipt (receipt : SignedReceipt) (requester : option ReceiptOwner) (lease : option SessionLease) :
    service (result ServiceError unit) :=
  now ← call NowSecs;
  let expires_at := (now +| cfg_receipt_ttl_seconds (svc_config svc))%u64 in
  _ ←? match lease with
       | Some lease =>
           r ← call (ExtendRetention lease expires_at);
           Ret (map_err (fun err => SessionStoreError ("failed to retain cited session: " +:+ err)) r)
       | None => Ret (Ok ())
       end;
  _ ← call (PutReceipt receipt requester now expires_at);
  Ret (Ok ()).

Definition issue_upstream_refusal_receipt (endpoint_path : string) (model : option string) (received_body : bytes)
    (reason : string) (wire_error_body : bytes) (requester : option ReceiptOwner) :
    service (result ServiceError SignedReceipt) :=
  keyset ← call CurrentKeyset;
  receipt_id ← call GenerateReceiptId;
  now ← call NowSecs;
  let b := builder_new receipt_id None model (sealed_digest keyset) endpoint_path "POST" now in
  receipt ←? Ret (lift_receipt (
    b ← fst <$> add_request_received b received_body;
    b ← add_upstream_verified_failed b (default "" model) reason true None;
    b ← fst <$> add_response_returned b wire_error_body;
    finalize b (svc_default_receipt_key_id svc)));
  _ ←? publish_receipt receipt requester None;
  Ret (Ok receipt).

(** ** The buffered entry point *)
Definition to_wire_body (e2ee : option E2eeContext) (endpoint_path : string) (body : bytes) :
    service (result ServiceError bytes) :=
  match e2ee with
  | None => Ret (Ok body)
  | Some ctx =>
      n ← call DrawFrom;
      Ret (map_err ServiceE2ee (fst <$> encrypt_e2ee_response_body rng body ctx endpoint_path n))
  end.

(** The signed receipt of a buffered response. *)
Definition buffered_receipt (req : ChatCompletionRequest) (prepared : PreparedUpstreamRequest)
    (middleware_body : option bytes) (selected : SelectedUpstream) (response_model chat_id : option string)
    (receipt_id keyset_digest : string) (wire : bytes) : result ServiceError SignedReceipt :=
  lift_receipt (
    b ← receipt_prefix (builder_new receipt_id chat_id (gc_user_model (cr_context req)) keyset_digest
          (cr_endpoint_path req) "POST" (sel_admitted_at selected))
          (cr_received_body req) middleware_body (gc_target_route_id (cr_context req)) (ur_body (pr_request prepared)) selected;
    let b := if serves_directly svc then b else set_upstream_verified_model_id b response_model in
    b ← fst <$> add_response_returned b wire;
    finalize b (svc_default_receipt_key_id svc)).

(** From the wire bytes on. *)
Definition serve_wire (req : ChatCompletionRequest) (prepared : PreparedUpstreamRequest)
    (middleware_body : option bytes) (selected : SelectedUpstream) (response_model chat_id : option string)
    (status : Z) (hs : headers) (wire : bytes) : service (result ServiceError ForwardResult) :=
  receipt_id ← call GenerateReceiptId;
  keyset ← call CurrentKeyset;
  receipt ←? Ret (buffered_receipt req prepared middleware_body selected response_model chat_id receipt_id
    (sealed_digest keyset) wire);
  _ ←? publish_receipt receipt (cr_requester req) (sel_lease selected);
  Ret (Ok (mkForwardResult receipt status wire hs (e2ee_response_info <$> cr_e2ee req))).

(** From the selected session on; the caller then drops its lease. *)
Definition finish_buffered (req : ChatCompletionRequest) (prepared : PreparedUpstreamRequest)
    (middleware_body : option bytes) (audio_metadata : option value) (response : UpstreamResponse)
    (selected : SelectedUpstream) : service (result ServiceError ForwardResult) :=
  let endpoint_path := cr_endpoint_path req in
  let response_model :=
    match accepted_response_model (up_status_code response) (up_body response) with
    | Some model => Some model
    | None => if is_media_path endpoint_path then Some (pr_model_id prepared) else None
    end in
  now ← (if bool_decide (endpoint_path = IMAGES_GENERATIONS_PATH) then call SystemTimeSecs else Ret 0%Z);
  let '(status, body, hs) :=
    client_response endpoint_path (cr_received_body req) (ur_body (pr_request prepared)) audio_metadata response now in
  wire ←? to_wire_body (cr_e2ee req) endpoint_path body;
  serve_wire req prepared middleware_body selected response_model (extract_chat_id body) status hs wire.

(** Both entry points up to the forwarded answer: the guard on the route, the gate,
    the admission and the forwarding. *)
Definition forward_admitted {R} (withheld : Z -> R)
    (forward : PreparedUpstreamRequest -> UpstreamVerifiedEvent -> ServiceE (result UpstreamError R))
    (req : ChatCompletionRequest) (aci_required : bool) (prepared : PreparedUpstreamRequest) :
    service (result ServiceError (R * AdmittedUpstream)) :=
  if aci_required && negb (attested_route_eligible (pr_is_tee prepared)) then
    Ret (Err (UpstreamVerification (NoEligibleAttestedRoute (default "" (gc_user_model (cr_context req))))))
  else
    event ←? recorded_upstream_event has_verifier prepared aci_required (cr_upstream_verification_event req);
    admission ←? admit_upstream svc event (cr_aci_session_ids req) (pr_model_id prepared) false;
    outcome ← reverify_loop svc has_verifier withheld forward prepared aci_required
      (bool_decide (is_Some (cr_upstream_verification_event req))) (cr_aci_session_ids req) false false
      CHANNEL_BINDING_REVERIFY_ATTEMPTS admission;
    match outcome with
    | Forwarded _ response admission => Ret (Ok (response, admission))
    | RefreshFailed _ e => Ret (Err e)
    | ForwardFailed _ e => Ret (Err (ServiceUpstream e))
    end.

Definition direct_request (req : ChatCompletionRequest) (form : option AudioForm) : UpstreamRequest :=
  mkUpstreamRequest form None (default (cr_received_body req) (cr_forwarded_body req)) ∅
    (Some (cr_endpoint_path req)) (gc_target_route_id (cr_context req)).
(** The middleware's body is recorded when it chose a route. *)
Definition middleware_forwarded_body (req : ChatCompletionRequest) : option bytes :=
  (fun _ => default (cr_received_body req) (cr_forwarded_body req)) <$> gc_target_route_id (cr_context req).
Definition aci_required_for (req : ChatCompletionRequest) : bool :=
  requires_aci_verification req && negb (serves_directly svc).

Definition forward_chat_completion_request (req : ChatCompletionRequest) : service (result ServiceError ForwardResult) :=
  let aci_required := aci_required_for req in
  let backend_input_body := default (cr_received_body req) (cr_forwarded_body req) in
  let audio_metadata :=
    if bool_decide (cr_endpoint_path req = AUDIO_TRANSCRIPTIONS_PATH)
    then Some (default JNull (result_ok (from_slice backend_input_body))) else None in
  prepared ←? service_upstream (call (Prepare (direct_request req (cr_audio_form req))));
  prepared ←? service_upstream (encode_audio prepared);
  forwarded ←? forward_admitted withheld_response ForwardVerified req aci_required prepared;
  let '(response, admission) := forwarded in
  selected ←? select admission (up_served_instance_id response);
  r ← finish_buffered req prepared (middleware_forwarded_body req) audio_metadata response selected;
  _ ← drop_lease_opt (sel_lease selected);
  Ret r.

(** ** The streaming entry point *)
Definition declared_sse (hs : headers) : bool :=
  match find_header "content-type" hs with Some v => is_sse_content_type (Some v) | None => true end.

Definition finish_stream (req : ChatCompletionRequest) (prepared : PreparedUpstreamRequest)
    (response : UpstreamStreamResponse) (selected : SelectedUpstream) :
    service (result ServiceError StreamingForwardStream) :=
  let endpoint_path := cr_endpoint_path req in
  receipt_id ← call GenerateReceiptId;
  keyset ← call CurrentKeyset;
  let b := builder_new receipt_id None (gc_user_model (cr_context req)) (sealed_digest keyset) endpoint_path "POST"
    (sel_admitted_at selected) in
  b ←? Ret (lift_receipt (receipt_prefix b (cr_received_body req) (middleware_forwarded_body req)
    (gc_target_route_id (cr_context req)) (ur_body (pr_request prepared)) selected));
  let is_sse := declared_sse (us_headers response) in
  if bool_decide (is_Some (cr_e2ee req)) && negb is_sse then Ret (Err (ServiceE2ee EncryptionFailed))
  else
    Ret (Ok (mkStreamingForward receipt_id (sealed_digest keyset) (us_status_code response) (us_headers response)
      (e2ee_response_info <$> cr_e2ee req)
      (mkFinalizingBody (us_body response) b (sel_lease selected) (cr_requester req) endpoint_path (cr_e2ee req)
        (Some (gc_request_id (cr_context req))) is_sse))).

Definition forward_chat_completion_stream_request (req : ChatCompletionRequest) :
    service (result ServiceError StreamingForwardResult) :=
  let aci_required := aci_required_for req in
  prepared ←? service_upstream (call (Prepare (direct_request req None)));
  forwarded ←? forward_admitted withheld_stream_response ForwardStreamVerified req aci_required prepared;
  let '(response, admission) := forwarded in
  selected ←? select admission (us_served_instance_id response);
  if negb (us_status_code response =? 200)%Z then
    let r := collect_upstream_body (us_body response) (us_headers response)
      (Z.to_nat (cfg_max_buffered_response_bytes (svc_config svc))) in
    _ ← drop_lease_opt (sel_lease selected);
    Ret (body ← r; Ok (StreamUpstreamError (mkStreamingError (us_status_code response) (us_headers response) body)))
  else
    stream ← finish_stream req prepared response selected;
    match stream with
    | Ok s => Ret (Ok (ForwardStream s))
    | Err e => _ ← drop_lease_opt (sel_lease selected); Ret (Err e)
    end.
End Forward.
