(* ===== verification/Serving.v ===== *)
(** * What the direct entry points guarantee (src/aggregator/service/forward.rs)

    [Forward]'s programs under the protocol of [Gate]: no prompt leaves without an
    admission, leases are neither leaked nor dropped twice, and the receipt of a
    served request lists what was received, sent and returned and the session under
    which it was served. *)
From S2P Require Import Prelude Json External Sample Effects Digest Identity ReportBinding Receipt RelyingParty Session SessionStore.
From S2P Require Import ReceiptStore Errors Upstream Claims E2eeCipher Provider Attestation Admission Fingerprint Gate E2ee.
From S2P Require Import SseProtocol UpstreamErrors Forward.

Section Receipts.
Context {SH : Sha} {HX : HexCodec} {B64 : Base64} {SJ : SerdeJson}.
Context (svc : AciService).

(** ** The events of a receipt *)
Definition body_event (t : string) (body : bytes) : ReceiptEvent :=
  mkReceiptEvent t [("body_hash", JString (sha256_hex body))].
Definition route_event (route_id : string) : ReceiptEvent :=
  mkReceiptEvent EVENT_ROUTE_SELECTED [("target_route_id", JString route_id)].

Lemma body_hash_inv b t body b' : fst <$> append_body_hash b t body = Ok b' ->
  append_body_hash b t body = Ok (b', sha256_hex body) /\ b' = with_events b (rcb_events b ++ [body_event t body]).
Proof.
  unfold append_body_hash, append_hash. destruct (append _ _ _) as [b1|] eqn:Ha; [|done]. cbn. intros [= <-].
  split; [done|]. by apply append_ok in Ha as [-> _].
Qed.

(** The event of the served upstream: it cites the session, or gives a reason. *)
Definition session_event (event : UpstreamVerifiedEvent) (session_id : string) (u : ReceiptEvent) : Prop :=
  re_event_type u = EVENT_UPSTREAM_VERIFIED /\ event_result u = Some "verified" /\
  obj_get "session_id" (re_fields u) = Some (JString session_id) /\
  obj_get "required" (re_fields u) = Some (JBool (uv_required event)).
Definition failure_event (event : UpstreamVerifiedEvent) (u : ReceiptEvent) : Prop :=
  re_event_type u = EVENT_UPSTREAM_VERIFIED /\ event_result u = Some "failed" /\
  obj_get "session_id" (re_fields u) = None /\
  obj_get "required" (re_fields u) = Some (JBool (uv_required event)).
Definition upstream_event (event : UpstreamVerifiedEvent) (recorded : option string) (u : ReceiptEvent) : Prop :=
  match recorded with Some id => session_event event id u | None => failure_event event u end.

Lemma append_upstream_inv b event recorded b' : append_upstream_verified b event recorded = Ok b' ->
  builder_step b b' /\ exists u, upstream_event event recorded u /\ b' = with_events b (rcb_events b ++ [u]).
Proof.
  unfold append_upstream_verified. intros Ha. destruct recorded as [id|].
  - split; [by eapply step_upstream_session|]. unfold add_upstream_verified_with_session in Ha.
    destruct (negb _); [done|]. apply append_ok in Ha as [-> _]. eexists. split; [|done]. repeat split.
  - split; [by eapply step_upstream_failed|]. unfold add_upstream_verified_failed in Ha.
    apply append_ok in Ha as [-> _]. eexists. split; [|done]. unfold upstream_event, failure_event. cbn.
    case_bool_decide; repeat split.
Qed.

(** The events before the response. *)
Definition request_events (received : bytes) (middleware : option bytes) (route : option string) (forwarded : bytes) :
    list ReceiptEvent :=
  [body_event EVENT_REQUEST_RECEIVED received] ++ (body_event EVENT_MIDDLEWARE_FORWARDED <$> option_list middleware) ++
  (route_event <$> option_list route) ++ [body_event EVENT_REQUEST_FORWARDED forwarded].
Definition upstream_events (event : UpstreamVerifiedEvent) (recorded : option string) (us : list ReceiptEvent) : Prop :=
  if serves_directly svc then us = [] else exists u, us = [u] /\ upstream_event event recorded u.

(** The builder was taken by its own operations to one with these further events. *)
Definition extends (b b' : ReceiptBuilder) (es : list ReceiptEvent) : Prop :=
  rtc builder_step b b' /\ b' = with_events b (rcb_events b ++ es).
Lemma extends_nil b : extends b b [].
Proof. split; [done|]. rewrite app_nil_r. by destruct b. Qed.
Lemma extends_trans b1 b2 b3 es1 es2 : extends b1 b2 es1 -> extends b2 b3 es2 -> extends b1 b3 (es1 ++ es2).
Proof. intros [H1 ->] [H2 ->]. split; [by etransitivity|]. cbn. by rewrite app_assoc. Qed.
Lemma extends_body b t body b' :
  (forall h, append_body_hash b t body = Ok (b', h) -> builder_step b b') ->
  fst <$> append_body_hash b t body = Ok b' -> extends b b' [body_event t body].
Proof. intros Hs [H ->]%body_hash_inv. split; [by eapply rtc_once, Hs|done]. Qed.
Lemma extends_route b route b' : add_route_selected b route = Ok b' -> extends b b' [route_event route].
Proof. intros H. split; [by eapply rtc_once, step_route_selected|]. by apply append_ok in H as [-> _]. Qed.
Lemma extends_upstream b event recorded b' : append_upstream_verified b event recorded = Ok b' ->
  exists u, upstream_event event recorded u /\ extends b b' [u].
Proof. intros (Hs & u & Hu & ->)%append_upstream_inv. exists u. split; [done|]. split; [by apply rtc_once|done]. Qed.

Lemma receipt_prefix_inv b received middleware route forwarded sel b' :
  receipt_prefix svc b received middleware route forwarded sel = Ok b' ->
  exists us, upstream_events (sel_event sel) (le_session_id <$> sel_lease sel) us /\
    extends b b' (request_events received middleware route forwarded ++ us).
Proof.
  unfold receipt_prefix, request_events. intros H.
  destruct (fst <$> add_request_received b received) as [b1|] eqn:H1; [|done]. cbn [mbind result_bind] in H.
  apply extends_body in H1; [|intros h; apply step_request_received].
  destruct (match middleware with Some _ => _ | None => _ end) as [b2|] eqn:H2; [|done]. cbn [mbind result_bind] in H.
  assert (extends b1 b2 (body_event EVENT_MIDDLEWARE_FORWARDED <$> option_list middleware)) as E2.
  { destruct middleware; [|injection H2 as <-; apply extends_nil].
    apply extends_body in H2; [done|]. intros h. apply step_middleware_forwarded. }
  destruct (match route with Some _ => _ | None => _ end) as [b3|] eqn:H3; [|done]. cbn [mbind result_bind] in H.
  assert (extends b2 b3 (route_event <$> option_list route)) as E3.
  { destruct route; [by apply extends_route|injection H3 as <-; apply extends_nil]. }
  destruct (fst <$> add_request_forwarded b3 forwarded) as [b4|] eqn:H4; [|done]. cbn [mbind result_bind] in H.
  apply extends_body in H4; [|intros h; apply step_request_forwarded].
  pose proof (extends_trans _ _ _ _ _ H1 (extends_trans _ _ _ _ _ E2 (extends_trans _ _ _ _ _ E3 H4))) as E.
  unfold upstream_events. destruct (serves_directly svc).
  - injection H as <-. exists []. split; [done|]. by rewrite app_nil_r.
  - apply extends_upstream in H as (u & Hu & HE). exists [u]. split; [eauto|]. by eapply extends_trans.
Qed.

(** Recording the served model changes nothing else of the upstream event. *)
Lemma set_first_model_skip m es us : Forall (fun e => re_event_type e ≠ EVENT_UPSTREAM_VERIFIED) es ->
  set_first_model m (es ++ us) = es ++ set_first_model m us.
Proof.
  induction 1 as [|e es He HF IH]; cbn; [done|]. unfold is_verified_event. rewrite bool_decide_eq_false_2 by done. cbn.
  by rewrite IH.
Qed.
Lemma set_first_model_upstream m event recorded us :
  upstream_events event recorded us -> upstream_events event recorded (set_first_model m us).
Proof.
  unfold upstream_events. destruct (serves_directly svc); [by intros ->|]. intros (u & -> & Hu). cbn.
  destruct (is_verified_event u) eqn:Hv; [|eauto]. eexists. split; [done|].
  destruct recorded as [id|].
  - destruct Hu as (Ht & Hr & Hs & Hq). unfold upstream_event, session_event, event_result in *. cbn.
    rewrite !obj_get_insert. cbn. done.
  - destruct Hu as (Ht & Hr & _). unfold is_verified_event in Hv. apply andb_prop in Hv as [_ Hv].
    apply bool_decide_eq_true in Hv. by rewrite Hr in Hv.
Qed.
Lemma request_events_types received middleware route forwarded :
  Forall (fun e => re_event_type e ≠ EVENT_UPSTREAM_VERIFIED) (request_events received middleware route forwarded).
Proof. unfold request_events. destruct middleware, route; repeat constructor; done. Qed.
Lemma set_model_prefix b received middleware route forwarded event recorded us m :
  upstream_events event recorded us -> rcb_events b = request_events received middleware route forwarded ++ us ->
  exists us', upstream_events event recorded us' /\ builder_step b (set_upstream_verified_model_id b m) /\
    set_upstream_verified_model_id b m = with_events b (request_events received middleware route forwarded ++ us').
Proof.
  intros Hu Hb. destruct m as [m|].
  - exists (set_first_model m us). split; [by apply set_first_model_upstream|]. split; [apply step_model_id|].
    cbn. rewrite Hb, set_first_model_skip by apply request_events_types. done.
  - exists us. split; [done|]. split; [apply step_model_id|]. rewrite <- Hb. by destruct b.
Qed.
End Receipts.

Section Serving.
Context {SH : Sha} {HX : HexCodec} {B64 : Base64} {SJ : SerdeJson} {KP : KeyProvider} {ED : Ed25519} {CC : CurveCrypto}.
Context {HD : HashDomain} {RS : ResponseSerde}.
Context (rng : nat -> Draws) (svc : AciService) (has_verifier : bool).
Context (session_of : string -> AttestedSession) (needs_binding : PreparedUpstreamRequest -> bool).
Context (req : ChatCompletionRequest).
Context (supplied_wf : forall e, cr_upstream_verification_event req = Some e -> event_wf e).

Let required : bool := aci_required_for svc req.
Let pins : list string := cr_aci_session_ids req.
Abbreviation wps := (wp (allowed svc session_of needs_binding required pins) (moves session_of needs_binding)).
Abbreviation ok_admission := (admission_ok svc session_of pins).

(** Steps that touch neither leases, stores nor upstream. *)
Definition quiet {X} (e : ServiceE X) : Prop :=
  match e with
  | Prepare _ | EncodeForm _ _ | CurrentKeyset | GenerateReceiptId | SystemTimeSecs | DrawFrom
  | EarlyResponseKeyset | SetInFlight _ _ | ClearInFlight | ReserveReceiptId _ | InstantNanos | SleepMs _ | RandomU64 => True
  | _ => False
  end.
Lemma wp_quiet {X} (e : ServiceE X) s (Q : X -> ghost -> Prop) : quiet e -> (forall x, Q x s) -> wps (call e) s Q.
Proof. intros He HQ. destruct e; try done; (apply wp_call; [done|]; by intros x s' ->). Qed.

Lemma wp_publish receipt requester lease s (Q : result ServiceError unit -> ghost -> Prop) :
  (forall l, lease = Some l -> l ∈ g_held s) ->
  (forall s' deadline, g_held s' = g_held s -> g_sent s' = g_sent s ->
     g_log s' = Published receipt deadline :: ((fun l => Retained l deadline) <$> option_list lease) ++ g_log s -> Q (Ok ()) s') ->
  (forall e s', g_held s' = g_held s -> g_sent s' = g_sent s -> Q (Err e) s') ->
  wps (publish_receipt svc receipt requester lease) s Q.
Proof.
  intros Hl Hok Herr. unfold publish_receipt. apply wp_bind, wp_call; [done|]. intros now s1 ->.
  set (deadline := (now +| _)%u64). apply wp_try. destruct lease as [l|].
  - apply wp_bind, wp_call; [by apply Hl|]. intros [[]|e] s2 ->; cbn [map_err wp].
    + apply wp_bind, wp_call; [done|]. intros [] s3 ->. by eapply (Hok _ deadline).
    + by apply Herr.
  - cbn [wp]. apply wp_bind, wp_call; [done|]. intros [] s3 ->. by eapply (Hok _ deadline).
Qed.

(** ** Up to the forwarded answer *)
Lemma wp_forward_admitted {R} (withheld : Z -> R) forward `{!Forwards svc session_of needs_binding required pins forward}
    p h s (Q : result ServiceError (R * AdmittedUpstream) -> ghost -> Prop) :
  g_held s ≡ₚ h ->
  (forall r event a0 a s', ok_admission event a0 -> gated needs_binding required p event -> delivered a0 a ->
     g_held s' ≡ₚ owned a ++ h -> head (g_sent s') = Some (p, ad_event a0) -> sent_more p 3 s s' ->
     g_log s' = g_log s -> Q (Ok (r, a)) s') ->
  (forall e s', g_held s' ≡ₚ h -> sent_more p 3 s s' -> g_log s' = g_log s -> Q (Err e) s') ->
  wps (forward_admitted svc has_verifier withheld forward req required p) s Q.
Proof.
  intros Hh Hok Herr. unfold forward_admitted. fold pins.
  destruct (required && negb _) eqn:Ht; [apply Herr; [done|by apply sent_none|done]|].
  assert (required = true -> pr_is_tee p = Some true) as Htee.
  { intros Hr. rewrite Hr in Ht. cbn in Ht. apply negb_false_iff in Ht. by apply bool_decide_eq_true in Ht. }
  apply wp_try, wp_recorded_event; [done| |intros e; apply Herr; [done|by apply sent_none|done]].
  intros event Hev Hg. apply wp_try, (wp_admit _ _ _ _ _ _ _ _ h); [done|done| |].
  2: { intros e s' Hh' (Hf & Ho). apply Herr; [done|by apply sent_none|done]. }
  intros a s1 Ha Hh1 Hn1 (Hf1 & Ho1). apply wp_bind.
  eapply wp_reverify; [done|exact Htee|exact Ha|exact Hg|exact Hh1|exact Hn1| | |].
  - intros r event' a0 a' s2 H1 H2 H3 H4 H5 H6 H7. eapply Hok; try done; [|congruence].
    by eapply sent_ext; [exact Hf1|done|].
  - intros e s2 H1 H2 H3. apply Herr; [done| |congruence]. by eapply sent_ext; [exact Hf1|done|].
  - intros e s2 H1 H2 H3. apply Herr; [done| |congruence]. by eapply sent_ext; [exact Hf1|done|].
Qed.

Lemma wp_service_upstream {A} (p : service (result UpstreamError A)) s (Q : result ServiceError A -> ghost -> Prop) :
  wps p s (fun r => Q (map_err ServiceUpstream r)) -> wps (service_upstream p) s Q.
Proof. intros H. unfold service_upstream. apply wp_bind. eapply wp_mono; [exact H|]. done. Qed.
Lemma wp_encode_audio p s (Q : result UpstreamError PreparedUpstreamRequest -> ghost -> Prop) :
  (forall p', Q (Ok p') s) -> (forall e, Q (Err e) s) -> wps (encode_audio p) s Q.
Proof.
  intros Hok Herr. unfold encode_audio. destruct (ur_form _) as [form|]; [|apply Hok].
  apply wp_try. destruct (from_slice _); cbn [map_err wp]; [|apply Herr]. apply wp_try, wp_quiet; [done|].
  intros [enc|e]; [apply Hok|apply Herr].
Qed.

(** ** The receipt of a buffered response *)
(** The upstream's part of a receipt cites a session that is valid at the receipt's
    time and pinned if the request pins any, and whose recorded bindings were all
    enforced when the prompt was sent; or it cites none. *)
Definition cited_session (event : UpstreamVerifiedEvent) (served_at : Z) (lease : option SessionLease) : Prop :=
  forall l, lease = Some l -> in_window served_at l /\ pinned pins l /\
    lease_bindings session_of l ⊆ uv_channel_bindings event.

Definition attests (b : ReceiptBuilder) (p : PreparedUpstreamRequest) (sel : SelectedUpstream) (wire : bytes) : Prop :=
  builder_ok b /\ rcb_served_at b = sel_admitted_at sel /\ exists us,
    upstream_events svc (sel_event sel) (le_session_id <$> sel_lease sel) us /\
    rcb_events b = request_events (cr_received_body req) (middleware_forwarded_body req)
      (gc_target_route_id (cr_context req)) (ur_body (pr_request p)) ++ us ++ [body_event EVENT_RESPONSE_RETURNED wire].
(** What leaves is the encryption of a response when the request is encrypted. *)
Definition sealed_wire (wire : bytes) : Prop :=
  forall ctx, cr_e2ee req = Some ctx -> exists clear n n',
    encrypt_e2ee_response_body rng clear ctx (cr_endpoint_path req) n = Ok (wire, n').

Lemma builder_steps_ok b b' : rtc builder_step b b' -> builder_ok b -> builder_ok b'.
Proof. induction 1; [done|]. intros. by eapply IHrtc, builder_step_preserves. Qed.

Lemma buffered_receipt_inv id chat digest sel p model wire r :
  buffered_receipt svc req p (middleware_forwarded_body req) sel model chat id digest wire = Ok r ->
  exists b, attests b p sel wire /\ finalize b (svc_default_receipt_key_id svc) = Ok r.
Proof.
  unfold buffered_receipt, lift_receipt. intros H%map_err_Ok. set (b0 := builder_new _ _ _ _ _ _ _) in H.
  destruct (receipt_prefix _ _ _ _ _ _ _) as [b1|] eqn:H1; [|done]. cbn [mbind result_bind] in H.
  apply receipt_prefix_inv in H1 as (us & Hus & [S1 E1]). cbn [rcb_events b0 builder_new app] in E1.
  set (b2 := if serves_directly svc then b1 else _) in H.
  assert (exists us', upstream_events svc (sel_event sel) (le_session_id <$> sel_lease sel) us' /\ rtc builder_step b1 b2 /\
    b2 = with_events b1 (request_events (cr_received_body req) (middleware_forwarded_body req)
      (gc_target_route_id (cr_context req)) (ur_body (pr_request p)) ++ us')) as (us' & Hus' & S2 & E2).
  { subst b2. destruct (serves_directly svc) eqn:Hd.
    - exists us. split; [done|]. split; [done|]. rewrite E1. done.
    - destruct (set_model_prefix svc b1 (cr_received_body req) (middleware_forwarded_body req)
        (gc_target_route_id (cr_context req)) (ur_body (pr_request p)) _ _ us model Hus) as (us' & H2 & H3 & H4);
        [by rewrite E1|].
      exists us'. split; [done|]. split; [by apply rtc_once|exact H4]. }
  destruct (fst <$> add_response_returned b2 wire) as [b3|] eqn:H3; [|done]. cbn [mbind result_bind] in H.
  apply extends_body in H3 as [S3 E3]; [|intros h; apply step_response_returned].
  exists b3. split; [|done]. split; [|split].
  - apply (builder_steps_ok b0); [etransitivity; [exact S1|]; by etransitivity|]. split; [done|constructor].
  - rewrite E3, E2, E1. done.
  - exists us'. split; [done|]. rewrite E3, E2. cbn. by rewrite <- app_assoc.
Qed.

Section Finish.
Context (p : PreparedUpstreamRequest) (sel : SelectedUpstream) (s : ghost) (Q : result ServiceError ForwardResult -> ghost -> Prop).
Context (held : forall l, sel_lease sel = Some l -> l ∈ g_held s).
Context (ok : forall fr b s' deadline, attests b p sel (fr_upstream_body fr) -> sealed_wire (fr_upstream_body fr) ->
     finalize b (svc_default_receipt_key_id svc) = Ok (fr_receipt fr) ->
     g_held s' = g_held s -> g_sent s' = g_sent s ->
     g_log s' = Published (fr_receipt fr) deadline :: ((fun l => Retained l deadline) <$> option_list (sel_lease sel)) ++ g_log s ->
     Q (Ok fr) s').
Context (err : forall e s', g_held s' = g_held s -> g_sent s' = g_sent s -> Q (Err e) s').

Lemma wp_serve_wire model chat status hs wire : sealed_wire wire ->
  wps (serve_wire svc req p (middleware_forwarded_body req) sel model chat status hs wire) s Q.
Proof.
  intros Hw. unfold serve_wire. apply wp_bind, wp_quiet; [done|]. intros id. apply wp_bind, wp_quiet; [done|]. intros ks.
  apply wp_try. cbn [wp]. destruct (buffered_receipt _ _ _ _ _ _ _ _ _) as [receipt|e] eqn:Hr; [|by apply err].
  apply buffered_receipt_inv in Hr as (b & Hatt & Hfin). apply wp_try, wp_publish; [done| |].
  - intros s' deadline H1 H2 H4. cbn [wp]. by eapply ok.
  - intros e s' H1 H2. by apply err.
Qed.
Lemma wp_finish_buffered audio response :
  wps (finish_buffered rng svc req p (middleware_forwarded_body req) audio response sel) s Q.
Proof.
  unfold finish_buffered. apply wp_bind.
  assert (forall now, wps (let '(status, body, hs) :=
      client_response (cr_endpoint_path req) (cr_received_body req) (ur_body (pr_request p)) audio response now in
    wire ←? to_wire_body rng (cr_e2ee req) (cr_endpoint_path req) body;
    serve_wire svc req p (middleware_forwarded_body req) sel
      match accepted_response_model (up_status_code response) (up_body response) with
      | Some model => Some model
      | None => if is_media_path (cr_endpoint_path req) then Some (pr_model_id p) else None
      end (extract_chat_id body) status hs wire) s Q) as H.
  { intros now. destruct (client_response _ _ _ _ _ _) as [[status body] hs]. apply wp_try.
    unfold to_wire_body. destruct (cr_e2ee req) as [ctx|] eqn:He.
    - apply wp_bind, wp_quiet; [done|]. intros n. cbn [wp].
      destruct (encrypt_e2ee_response_body rng body ctx _ n) as [[wire n']|e] eqn:Henc; [|by apply err].
      apply wp_serve_wire. intros ctx' Hctx. assert (ctx' = ctx) as -> by congruence. eauto.
    - apply wp_serve_wire. intros ctx' Hctx. congruence. }
  case_bool_decide; [apply wp_quiet; [done|]; exact H|exact (H 0%Z)].
Qed.
End Finish.

(** ** The entry points *)
Lemma owned_cited event a0 a sel l : ok_admission event a0 -> delivered a0 a ->
  sel_admitted_at sel = ad_admitted_at a -> sel_lease sel = Some l -> l ∈ owned a ->
  in_window (sel_admitted_at sel) l /\ pinned pins l /\
  lease_bindings session_of l ⊆ uv_channel_bindings (ad_event a0).
Proof.
  intros [Hf Hv _ _ _ Hb _] [->|(_ & Hs & _)] Hat Hl Hin.
  2: { unfold owned in Hin. rewrite Hs in Hin. by apply not_elem_of_nil in Hin. }
  apply list_elem_of_fmap in Hin as (g & -> & Hin). rewrite Hat.
  destruct (proj1 (Forall_forall _ _) Hv _ Hin) as [Hw Hp]. split; [done|]. split; [done|].
  pose proof (proj1 (Forall_forall _ _) Hf _ Hin) as Hg.
  rewrite Hb, bool_decide_eq_false_2 by (intros Hn; rewrite Hn in Hin; by apply not_elem_of_nil in Hin).
  rewrite <- Hg. intros x Hx. apply list_elem_of_bind. eauto.
Qed.

(** A served request, in terms of what was given and done: the last thing forwarded,
    the receipt built and published, and the session it cites. *)
Definition served (s0 s' : ghost) (fr : ForwardResult) : Prop :=
  exists p event sel b deadline,
    head (g_sent s') = Some (p, event) /\
    attests b p sel (fr_upstream_body fr) /\ finalize b (svc_default_receipt_key_id svc) = Ok (fr_receipt fr) /\
    cited_session event (rcb_served_at b) (sel_lease sel) /\ sealed_wire (fr_upstream_body fr) /\
    g_log s' = Published (fr_receipt fr) deadline :: ((fun l => Retained l deadline) <$> option_list (sel_lease sel)) ++ g_log s0.

Lemma wp_drop_lease_opt lease h s (Q : unit -> ghost -> Prop) :
  g_held s ≡ₚ option_list lease ++ h -> (forall s', g_held s' ≡ₚ h -> same_but_held s s' -> Q () s') ->
  wps (drop_lease_opt lease) s Q.
Proof. intros Hh HQ. destruct lease; [eapply wp_drop_lease; [exact Hh|exact HQ]|by apply HQ]. Qed.

Lemma wp_buffered s0 : wps (forward_chat_completion_request rng svc has_verifier req) s0 (fun r s' =>
  g_held s' ≡ₚ g_held s0 /\ sent_upto 3 s0 s' /\
  match r with Ok fr => served s0 s' fr | Err _ => True end).
Proof.
  unfold forward_chat_completion_request. fold required.
  apply wp_try, wp_service_upstream, wp_quiet; [done|]. intros [p0|e]; cbn [map_err]; [|split; [done|split; [by apply upto_none|done]]].
  apply wp_try, wp_service_upstream, wp_encode_audio; [|intros e; split; [done|split; [by apply upto_none|done]]]. intros p.
  cbn [map_err]. apply wp_try, (wp_forward_admitted _ _ p (g_held s0)); [done| |].
  2: { intros e s' H1 H2 H3. split; [done|]. split; [by eapply sent_more_upto|done]. }
  intros r event a0 a s1 Ha Hg Hd Hh1 Hl1 Hf1 Ho1. apply wp_try. eapply wp_select; [exact Hh1| |].
  2: { intros e s' Hh' (_ & Hf & _). split; [done|]. split; [by eapply sent_more_upto|done]. }
  intros sel s2 Hse Hat Hin Hinst Hh2 (_ & Hf2 & Ho2).
  assert (cited_session (ad_event a0) (sel_admitted_at sel) (sel_lease sel)) as Hcite.
  { intros l Hl. rewrite Hl in Hin. by eapply owned_cited. }
  apply wp_bind, wp_finish_buffered.
  - intros l Hl. rewrite Hh2, Hl. left.
  - intros fr b s3 deadline Hatt Hw Hfin H1 H2 H4.
    apply wp_bind, (wp_drop_lease_opt _ (g_held s0)); [by rewrite H1|]. intros s4 Hh4 (_ & Hf4 & Ho4). cbn [wp].
    split; [done|]. split; [eapply sent_more_upto; [exact Hf1|congruence]|]. exists p, (ad_event a0), sel, b, deadline.
    split; [congruence|]. split; [done|]. split; [done|]. split; [destruct Hatt as (_ & -> & _); exact Hcite|].
    split; [done|]. rewrite Ho4, H4, Ho2, Ho1. done.
  - intros e s3 H1 H2. apply wp_bind, (wp_drop_lease_opt _ (g_held s0)); [by rewrite H1|].
    intros s4 Hh4 (_ & Hf4 & _). split; [done|]. split; [eapply sent_more_upto; [exact Hf1|congruence]|done].
Qed.

(** The stream's finalizer is handed a builder that only lacks the response, and the
    lease on the session it cites. *)
Definition stream_served (s' : ghost) (h : list SessionLease) (f : StreamingForwardStream) : Prop :=
  exists p event sel us,
    head (g_sent s') = Some (p, event) /\ g_held s' ≡ₚ option_list (fb_lease (sf_body f)) ++ h /\
    fb_lease (sf_body f) = sel_lease sel /\ builder_ok (fb_builder (sf_body f)) /\
    rcb_served_at (fb_builder (sf_body f)) = sel_admitted_at sel /\
    cited_session event (sel_admitted_at sel) (sel_lease sel) /\
    upstream_events svc (sel_event sel) (le_session_id <$> sel_lease sel) us /\
    rcb_events (fb_builder (sf_body f)) = request_events (cr_received_body req) (middleware_forwarded_body req)
      (gc_target_route_id (cr_context req)) (ur_body (pr_request p)) ++ us /\
    fb_e2ee (sf_body f) = cr_e2ee req /\ (is_Some (cr_e2ee req) -> fb_is_sse (sf_body f) = true).

Lemma wp_streaming s0 : wps (forward_chat_completion_stream_request svc has_verifier req) s0 (fun r s' =>
  sent_upto 3 s0 s' /\ g_log s' = g_log s0 /\
  match r with
  | Ok (ForwardStream f) => stream_served s' (g_held s0) f
  | _ => g_held s' ≡ₚ g_held s0
  end).
Proof.
  unfold forward_chat_completion_stream_request. fold required.
  apply wp_try, wp_service_upstream, wp_quiet; [done|]. intros [p|e]; cbn [map_err]; [|split; [by apply upto_none|done]].
  apply wp_try, (wp_forward_admitted _ _ p (g_held s0)); [done| |].
  2: { intros e s' H1 H2 H3. split; [by eapply sent_more_upto|done]. }
  intros r event a0 a s1 Ha Hg Hd Hh1 Hl1 Hf1 Ho1. apply wp_try. eapply wp_select; [exact Hh1| |].
  2: { intros e s' Hh' (_ & Hf & Ho). split; [by eapply sent_more_upto|]. split; [congruence|done]. }
  intros sel s2 Hse Hat Hin Hinst Hh2 (_ & Hf2 & Ho2).
  destruct (negb _).
  { apply wp_bind, (wp_drop_lease_opt _ (g_held s0)); [done|]. intros s3 Hh3 (_ & Hf3 & Ho3). cbn [wp].
    split; [eapply sent_more_upto; [exact Hf1|congruence]|]. split; [congruence|]. by destruct (collect_upstream_body _ _ _). }
  assert (forall e : ServiceError, wps (_ ← drop_lease_opt (sel_lease sel); Ret (Err e)) s2 (fun (r : result ServiceError StreamingForwardResult) s' =>
    sent_upto 3 s0 s' /\ g_log s' = g_log s0 /\
    match r with Ok (ForwardStream f) => stream_served s' (g_held s0) f | _ => g_held s' ≡ₚ g_held s0 end)) as Herr.
  { intros e. apply wp_bind, (wp_drop_lease_opt _ (g_held s0)); [done|]. intros s3 Hh3 (_ & Hf3 & Ho3). cbn [wp].
    split; [eapply sent_more_upto; [exact Hf1|congruence]|]. split; [congruence|done]. }
  apply wp_bind. unfold finish_stream. apply wp_bind, wp_quiet; [done|]. intros id.
  apply wp_bind, wp_quiet; [done|]. intros ks. apply wp_try. cbn [wp].
  destruct (lift_receipt _) as [b|e] eqn:Hb; [|apply Herr].
  destruct (_ && _) eqn:Hsse; cbn [wp]; [apply Herr|].
  apply map_err_Ok, receipt_prefix_inv in Hb as (us & Hus & [Hsteps Hb]).
  split; [by eapply sent_more_upto|]. split; [congruence|]. exists p, (ad_event a0), sel, us. cbn [sf_body fb_lease fb_builder fb_e2ee fb_is_sse].
  split; [congruence|]. split; [done|]. split; [done|].
  split; [apply (builder_steps_ok _ _ Hsteps); split; [done|constructor]|]. split; [by rewrite Hb|].
  split; [intros l Hl; rewrite Hl in Hin; by eapply owned_cited|]. split; [done|]. split; [by rewrite Hb|]. split; [done|].
  intros He. rewrite bool_decide_eq_true_2 in Hsse by done. by apply negb_false_iff in Hsse.
Qed.
End Serving.

(** ** What the entry points guarantee *)
Section Guarantees.
Context {SH : Sha} {HX : HexCodec} {B64 : Base64} {SJ : SerdeJson} {KP : KeyProvider} {ED : Ed25519} {CC : CurveCrypto}.
Context {HD : HashDomain} {RS : ResponseSerde}.
Context (rng : nat -> Draws) (svc : AciService) (has_verifier : bool).
Context (session_of : string -> AttestedSession) (needs_binding : PreparedUpstreamRequest -> bool).
Context (req : ChatCompletionRequest).
Context (supplied_wf : forall e, cr_upstream_verification_event req = Some e -> event_wf e).

(** C2: the receipt of a buffered response states what happened.  A run that answers
    the client has published a receipt over exactly the received, middleware,
    forwarded and returned bytes, where the forwarded bytes are the last ones handed
    to an upstream and the returned ones are encrypted if the request was; the
    session it cites was valid when the request was admitted, is pinned if the
    request pins any, recorded only channels that were enforced, and is retained for
    as long as the receipt.  Answered or not, every acquired lease is dropped again
    and the prompt was sent at most three times. *)
Theorem receipt_states_what_happened s0 tr r s' :
  runs (forward_chat_completion_request rng svc has_verifier req) tr r ->
  obeys (moves session_of needs_binding) s0 tr s' ->
  g_held s' ≡ₚ g_held s0 /\ sent_upto 3 s0 s' /\
  match r with Ok fr => served rng svc session_of req s0 s' fr | Err _ => True end.
Proof.
  intros Hr Ho. pose proof (wp_buffered rng svc has_verifier session_of needs_binding req supplied_wf s0) as Hwp.
  exact (wp_post _ _ _ _ _ _ _ _ Hwp Hr Ho).
Qed.

(** C4: a stream is handed over with its lease.  When the streaming entry point
    answers with a stream, the finalizer owns the only lease acquired, on a session
    with the same guarantees, and a receipt builder that lists the received,
    middleware and forwarded bytes and that session; an encrypted request only
    yields an event stream.  Otherwise no lease is left.  Nothing is published yet,
    and the prompt was sent at most three times. *)
Theorem stream_owns_its_session s0 tr r s' :
  runs (forward_chat_completion_stream_request svc has_verifier req) tr r ->
  obeys (moves session_of needs_binding) s0 tr s' ->
  sent_upto 3 s0 s' /\ g_log s' = g_log s0 /\
  match r with
  | Ok (ForwardStream f) => stream_served svc session_of req s' (g_held s0) f
  | _ => g_held s' ≡ₚ g_held s0
  end.
Proof.
  intros Hr Ho. pose proof (wp_streaming svc has_verifier session_of needs_binding req supplied_wf s0) as Hwp.
  exact (wp_post _ _ _ _ _ _ _ _ Hwp Hr Ho).
Qed.
End Guarantees.

(** *** Witnesses: one verified upstream with a TLS binding. *)
#[local] Existing Instances sample_sha sample_hex sample_json sample_base64 sample_keyset_serde sample_curves
  sample_points sample_signing sample_ed sample_receipt_signer sample_e2ee_provider.
#[local] Instance sample_response_serde : ResponseSerde := {|
  response_id_from_slice _ := Some (Some "chat-1");
  response_model_from_slice _ := Some (Some "m");
|}.

Definition sample_tls : ChannelBinding := TlsSpkiSha256 "https://u.example" "aa".
Definition sample_verified : UpstreamVerifiedEvent :=
  mkUpstreamVerifiedEvent None "u" None "m" (Some "https://u.example") "v" Verified true None
    (Some (evidence_to_value (evidence_from_bytes "text/plain" (as_bytes "bundle")))) [sample_tls] None None.
Definition sample_material : ChannelMaterial := group_material sample_verified None [sample_tls].
Definition sample_fingerprint : string := default "" (result_ok (fingerprint sample_material)).
Definition sample_session_id : string := sha256_bare_hex [].
Definition sample_sealed : AttestedSession :=
  mkAttestedSession sample_session_id [] (session_document sample_verified None [sample_tls] (group_claims sample_verified None) 5 60).
Definition sample_session_lease : SessionLease := mkLease sample_session_id 5 60 0.
Definition sample_material_bytes : bytes := default [] (result_ok (jcs_bytes (material_to_value sample_material))).
Lemma sample_bytes_free : collision_free [sample_material_bytes] = true.
Proof. vm_compute. reflexivity. Qed.
#[local] Instance sample_material_domain : HashDomain := list_domain [sample_material_bytes] sample_bytes_free.

Definition sample_request : ChatCompletionRequest :=
  mkChatRequest None (mkGatewayContext "q" (Some "m") (Some "route") None) "/v1/chat/completions" (as_bytes "{}") None
    true [sample_session_id] None None None.
Definition sample_prepared_request : PreparedUpstreamRequest :=
  mkPrepared (direct_request sample_request None) "u" (Some "https://u.example") "m" (Some "route") (Some true).
(** The collaborators of a request. *)
Definition sample_env (s : unit) (X : Type) (e : ServiceE X) : unit * X :=
  ((), match e in ServiceE X return X with
       | NowSecs | InstantNanos | RandomU64 | SystemTimeSecs => 10%Z
       | Prepare _ => Ok sample_prepared_request
       | EncodeForm _ _ => Err ResponseTooLarge
       | RequiresVerifiedBinding _ => true
       | Verify _ => sample_verified
       | CurrentOrSeal fp _ _ _ => if bool_decide (fp = sample_fingerprint) then Ok sample_session_lease else Err "full"
       | ForwardVerified _ _ => Ok (mkUpstreamResponse 200 (as_bytes "{}") ∅ None)
       | ForwardStreamVerified _ _ => Ok (mkUpstreamStreamResponse 200 ∅ [Ok (as_bytes "data: x")] None)
       | CurrentKeyset => svc_keyset sample_service
       | GenerateReceiptId => "r-1"
       | ExtendRetention _ _ => Ok ()
       | EarlyResponseKeyset => None
       | DrawFrom => 0
       | Invalidate _ | DropLease _ | PutReceipt _ _ _ _ | SetInFlight _ _ | ClearInFlight | RecordAbandoned _
       | ReserveReceiptId _ | SleepMs _ => ()
       end).
Definition sample_ghost : ghost := mkGhost 0 [] [] [].
Definition sample_session_of (_ : string) : AttestedSession := sample_sealed.

Lemma sample_verified_wf : event_wf sample_verified.
Proof.
  split; [done|done|]. intros groups key bindings. vm_compute event_groups. intros [= <-] [[= -> ->]|Hn]%elem_of_cons;
    [|by apply not_elem_of_nil in Hn].
  intros b Hb. change (group_material _ _ _) with sample_material in Hb. change (b ∈ [sample_material_bytes]). unfold sample_material_bytes. rewrite Hb. left.
Qed.
Lemma sample_material_ok : material_ok sample_material.
Proof.
  apply session_material_ok; [exact sample_verified_wf|].
  apply (ew_known _ sample_verified_wf [(None, [sample_tls])]); [by vm_compute|left].
Qed.
Lemma sample_env_serves t s X (e : ServiceE X) : True ->
  allowed sample_service sample_session_of (fun _ => true) true [sample_session_id] s X e ->
  exists s', moves sample_session_of (fun _ => true) s X e (sample_env t X e).2 s' /\ True.
Proof.
  intros _ Ha. destruct e; cbn in *; try (eexists; split; [first [done|split; done]|done]).
  - eexists. split; [split; [exact sample_verified_wf|done]|done].
  - case_bool_decide as Hf; [|eexists; split; done]. subst. eexists. split; [|done]. split; [|done].
    split; [done|]. split; [done|]. exists sample_material. split; [exact sample_material_ok|].
    split; by vm_compute.
  - apply list_elem_of_split in Ha as (l1 & l2 & Hl). eexists. split; [exists (l1 ++ l2)|done].
    split; [|done]. rewrite Hl. symmetry. apply Permutation_middle.
Qed.

Definition sample_buffered : list (action ServiceE) * result ServiceError ForwardResult :=
  answer sample_env () (forward_chat_completion_request (fun _ => sample_draws) sample_service true sample_request).
Definition sample_streamed : list (action ServiceE) * result ServiceError StreamingForwardResult :=
  answer sample_env () (forward_chat_completion_stream_request sample_service true sample_request).
Lemma sample_buffered_runs :
  runs (forward_chat_completion_request (fun _ => sample_draws) sample_service true sample_request)
    sample_buffered.1 sample_buffered.2.
Proof. unfold sample_buffered. apply answer_runs. Qed.
Lemma sample_streamed_runs :
  runs (forward_chat_completion_stream_request sample_service true sample_request) sample_streamed.1 sample_streamed.2.
Proof. unfold sample_streamed. apply answer_runs. Qed.
Lemma sample_supplied e : cr_upstream_verification_event sample_request = Some e -> event_wf e.
Proof. done. Qed.
Lemma sample_buffered_obeys : exists s', obeys (moves sample_session_of (fun _ => true)) sample_ghost sample_buffered.1 s'.
Proof.
  destruct (wp_answer _ _ sample_env (fun _ _ => True) sample_env_serves _ () sample_ghost _
    (wp_buffered (fun _ => sample_draws) sample_service true sample_session_of (fun _ => true) sample_request sample_supplied
      sample_ghost) I) as (s' & Ho & _). exists s'. exact Ho.
Qed.
Lemma sample_streamed_obeys : exists s', obeys (moves sample_session_of (fun _ => true)) sample_ghost sample_streamed.1 s'.
Proof.
  destruct (wp_answer _ _ sample_env (fun _ _ => True) sample_env_serves _ () sample_ghost _
    (wp_streaming sample_service true sample_session_of (fun _ => true) sample_request sample_supplied
      sample_ghost) I) as (s' & Ho & _). exists s'. exact Ho.
Qed.

Lemma receipt_states_what_happened_witness : exists fr s',
  sample_buffered.2 = Ok fr /\ sent_upto 3 sample_ghost s' /\
  served (fun _ => sample_draws) sample_service sample_session_of sample_request sample_ghost s' fr.
Proof.
  destruct sample_buffered_obeys as [s' Ho].
  assert (Hok : is_ok sample_buffered.2 = true) by (vm_compute; reflexivity).
  destruct sample_buffered.2 as [fr|] eqn:Hr; [|discriminate Hok].
  destruct (receipt_states_what_happened (fun _ => sample_draws) sample_service true sample_session_of (fun _ => true)
    sample_request sample_supplied sample_ghost sample_buffered.1 (Ok fr) s') as (_ & Hf & Hs).
  - rewrite <- Hr. exact sample_buffered_runs.
  - exact Ho.
  - exists fr, s'. split; [reflexivity|]. split; [exact Hf|exact Hs].
Defined.
Lemma stream_owns_its_session_witness : exists f s',
  sample_streamed.2 = Ok (ForwardStream f) /\
  stream_served sample_service sample_session_of sample_request s' [] f.
Proof.
  destruct sample_streamed_obeys as [s' Ho].
  assert (Hok : match sample_streamed.2 with Ok (ForwardStream _) => true | _ => false end = true) by (vm_compute; reflexivity).
  destruct sample_streamed.2 as [[f|]|] eqn:Hr; [|discriminate Hok|discriminate Hok].
  destruct (stream_owns_its_session sample_service true sample_session_of (fun _ => true)
    sample_request sample_supplied sample_ghost sample_streamed.1 (Ok (ForwardStream f)) s') as (_ & _ & Hs).
  - rewrite <- Hr. exact sample_streamed_runs.
  - exact Ho.
  - exists f, s'. split; [reflexivity|exact Hs].
Defined.
