(* ===== verification/Failover.v ===== *)
(** * The failover walk (src/aggregator/service/middleware.rs, wire.rs)

    The middleware supplies candidate routes in order; the service tries them until
    one answers.  A candidate that fails is recorded and abandoned, a real answer
    that is worth another try is held back, and one delayed second pass replays the
    candidates that reported a lack of capacity.  Buffered and streamed requests
    share the walk; the committed candidate leaves a receipt draft that the
    middleware later finalizes.  Metrics and logging are left out. *)
From S2P Require Import Prelude Text Json External Effects Digest Identity Receipt RelyingParty Session SessionStore ReceiptStore.
From S2P Require Import Errors Upstream Images Audio Claims E2eeCipher Provider Attestation Admission E2ee SseProtocol UpstreamErrors Forward.

(** ** Wire types *)
Record ForwardCandidate : Type := mkCandidate {
  ca_route_id : string;
  ca_body : bytes;
  ca_path : string;
}.
(** [MiddlewareReceiptDraft]; [dr_streaming] is its request mode. *)
Record ReceiptDraft : Type := mkReceiptDraft {
  dr_session_lease : option SessionLease;
  dr_receipt_id : string;
  dr_builder : ReceiptBuilder;
  dr_endpoint_path : string;
  dr_streaming : bool;
  dr_response_model : option string;
}.
Record MiddlewareForwarded : Type := mkMiddlewareForwarded {
  mf_receipt_id : string;
  mf_receipt : ReceiptDraft;
  mf_upstream_status : Z;
  mf_upstream_body : bytes;
  mf_upstream_headers : headers;
  mf_selected_route : string;
  mf_selected_path : string;
  mf_failed_attempts : list FailedAttempt;
  mf_session_id : option string;
}.
(** The stream's body is the drafting stream over the upstream's, with this draft. *)
Record MiddlewareStreamingForwarded : Type := mkMiddlewareStreaming {
  ms_receipt_id : string;
  ms_keyset_digest : string;
  ms_upstream_status : Z;
  ms_upstream_headers : headers;
  ms_body : body_stream;
  ms_draft : ReceiptDraft;
  ms_selected_route : string;
  ms_selected_path : string;
  ms_failed_attempts : list FailedAttempt;
  ms_session_id : option string;
}.
Record MiddlewareUpstreamError : Type := mkMiddlewareError {
  mu_error : StreamingUpstreamError;
  mu_selected_route : string;
  mu_failed_attempts : list FailedAttempt;
}.
Record MiddlewareAllFailed : Type := mkAllFailed {
  af_failed_attempts : list FailedAttempt;
  af_error : ServiceError;
}.
Inductive MiddlewareForwardResult : Type :=
| MwForwarded (r : MiddlewareForwarded)
| MwStream (r : MiddlewareStreamingForwarded)
| MwUpstreamError (r : MiddlewareUpstreamError)
| MwAllFailed (r : MiddlewareAllFailed).

(** ** Policies *)
Definition abandoned_status (err : UpstreamError) : option Z :=
  match err with
  | Timeout _ => Some 504%Z
  | InvalidRequest _ => None
  | UpstreamStatus status => if is_success status then Some 502%Z else Some status
  | Routing _ | Transport _ | ResponseTooLarge | ChannelBindingMismatch _ => Some 502%Z
  end.

Definition CAPACITY_RETRY_DELAY_MS : Z := 2000.
(** Ten seconds, in milliseconds; [Duration]s are counted in milliseconds. *)
Definition CAPACITY_RETRY_MAX_ELAPSED : Z := 10000.
Definition NANOS_PER_MS : Z := 1000000.

Definition retry_after (hs : headers) : Z :=
  match hs !! "retry-after" ≫= fun value => parse_uint u64_max (as_bytes (trim value)) with
  | Some secs => Z.min (secs * 1000) CAPACITY_RETRY_MAX_ELAPSED
  | None => 0
  end.

Definition upgrade_err (slot : option (Z * ServiceError)) (priority : Z) (err : ServiceError) : option (Z * ServiceError) :=
  if from_option (fun s => (fst s <=? priority)%Z) true slot then Some (priority, err) else slot.

(** ** What the walk carries *)
Record BufferedCommit : Type := mkBufferedCommit {
  bc_response : UpstreamResponse;
  bc_response_model : option string;
  bc_admission : SelectedUpstream;
  bc_route_id : string;
  bc_path : string;
  bc_middleware_forwarded_body : bytes;
  bc_forwarded_body : bytes;
}.
Inductive RetainedResponse : Type :=
| RetainedStreaming (error : StreamingUpstreamError) (route_id : string) (attempt_slot : nat)
| RetainedBuffered (inputs : BufferedCommit) (attempt_slot : nat).
Definition attempt_slot (r : RetainedResponse) : nat :=
  match r with RetainedStreaming _ _ slot | RetainedBuffered _ slot => slot end.
Definition retained_lease (r : option RetainedResponse) : option SessionLease :=
  match r with Some (RetainedBuffered inputs _) => sel_lease (bc_admission inputs) | _ => None end.

(** The mutable variables of the walk. *)
Record Walk : Type := mkWalk {
  wk_failed_attempts : list FailedAttempt;
  wk_retained : option RetainedResponse;
  wk_aggregated_err : option (Z * ServiceError);
  wk_capacity_indices : list nat;
  wk_capacity_wait : Z;
}.
Definition walk_start : Walk := mkWalk [] None None [] 0.
Definition with_err (w : Walk) (priority : Z) (err : ServiceError) : Walk :=
  mkWalk (wk_failed_attempts w) (wk_retained w) (upgrade_err (wk_aggregated_err w) priority err)
    (wk_capacity_indices w) (wk_capacity_wait w).
Definition with_attempt (w : Walk) (attempt : FailedAttempt) : Walk :=
  mkWalk (wk_failed_attempts w ++ [attempt]) (wk_retained w) (wk_aggregated_err w)
    (wk_capacity_indices w) (wk_capacity_wait w).
Definition with_retained (w : Walk) (r : RetainedResponse) : Walk :=
  mkWalk (wk_failed_attempts w) (Some r) (wk_aggregated_err w) (wk_capacity_indices w) (wk_capacity_wait w).
Definition with_capacity (w : Walk) (index : nat) (wait : Z) : Walk :=
  mkWalk (wk_failed_attempts w) (wk_retained w) (wk_aggregated_err w) (wk_capacity_indices w ++ [index])
    (Z.max (wk_capacity_wait w) wait).
(** The start of a pass. *)
Definition next_pass (w : Walk) : Walk :=
  mkWalk (wk_failed_attempts w) (wk_retained w) (wk_aggregated_err w) [] 0.

(** A candidate's attempt either moves the walk on or ends it. *)
Inductive Step : Type :=
| Continue (w : Walk)
| Return (r : result ServiceError MiddlewareForwardResult).

Section Failover.
Context {SH : Sha} {HX : HexCodec} {B64 : Base64} {SJ : SerdeJson} {RS : ResponseSerde}.
Context (svc : AciService) (has_verifier : bool).
Context (req : ChatCompletionRequest) (stream : bool).

(** Leaving the function drops what was held back. *)
Definition leave (w : Walk) (r : result ServiceError MiddlewareForwardResult) : service Step :=
  _ ← drop_lease_opt (retained_lease (wk_retained w)); Ret (Return r).
Definition all_failed (w : Walk) (error : ServiceError) : result ServiceError MiddlewareForwardResult :=
  Ok (MwAllFailed (mkAllFailed (wk_failed_attempts w) error)).

(** [abandon]: the attempt's own wall time, mirrored into the journal. *)
Definition abandon (route_id : string) (started : Z) (w : Walk) (status : Z) : service Walk :=
  now ← call InstantNanos;
  let attempt := mkFailedAttempt route_id status ((Z.max 0 (now - started) / NANOS_PER_MS) mod 2 ^ 64) in
  _ ← call (RecordAbandoned attempt);
  Ret (with_attempt w attempt).
Definition abandon_opt (route_id : string) (started : Z) (w : Walk) (status : option Z) : service Walk :=
  match status with Some status => abandon route_id started w status | None => Ret w end.

Definition capacity_retry_eligible (done : bool) (started : Z) : service bool :=
  if done then Ret false
  else now ← call InstantNanos; Ret (Z.max 0 (now - started) <=? CAPACITY_RETRY_MAX_ELAPSED * NANOS_PER_MS)%Z.

(** ** Receipts *)
Definition build_middleware_receipt_prefix (keyset_digest receipt_id : string) (chat_id : option string)
    (middleware_forwarded_body : bytes) (selected_route_id : string) (forwarded_body : bytes)
    (selected : SelectedUpstream) : result ServiceError ReceiptBuilder :=
  lift_receipt (receipt_prefix svc
    (builder_new receipt_id chat_id (gc_user_model (cr_context req)) keyset_digest (cr_endpoint_path req) "POST"
      (sel_admitted_at selected))
    (cr_received_body req) (Some middleware_forwarded_body) (Some selected_route_id) forwarded_body selected).

Definition commit_builder (commit : BufferedCommit) (keyset_digest receipt_id : string) : result ServiceError ReceiptBuilder :=
  let chat_id := if is_media_path (cr_endpoint_path req) then None else extract_chat_id (up_body (bc_response commit)) in
  b ← build_middleware_receipt_prefix keyset_digest receipt_id chat_id (bc_middleware_forwarded_body commit)
        (bc_route_id commit) (bc_forwarded_body commit) (bc_admission commit);
  let b := set_upstream_verified_model_id b (bc_response_model commit) in
  lift_receipt (fst <$> add_response_received b (up_body (bc_response commit))).

Definition commit_buffered_response (commit : BufferedCommit) (failed_attempts : list FailedAttempt) :
    service (result ServiceError MiddlewareForwardResult) :=
  let lease := sel_lease (bc_admission commit) in
  receipt_id ← call GenerateReceiptId;
  keyset ← call CurrentKeyset;
  match commit_builder commit (sealed_digest keyset) receipt_id with
  | Err e => _ ← drop_lease_opt lease; Ret (Err e)
  | Ok b =>
      let response := bc_response commit in
      Ret (Ok (MwForwarded (mkMiddlewareForwarded receipt_id
        (mkReceiptDraft lease receipt_id b (cr_endpoint_path req) false (bc_response_model commit))
        (up_status_code response) (up_body response) (up_headers response) (bc_route_id commit) (bc_path commit)
        failed_attempts (le_session_id <$> lease))))
  end.

Definition commit_stream (candidate : ForwardCandidate) (forwarded_body : bytes) (response : UpstreamStreamResponse)
    (selected : SelectedUpstream) (failed_attempts : list FailedAttempt) :
    service (result ServiceError MiddlewareForwardResult) :=
  let lease := sel_lease selected in
  receipt_id ← call GenerateReceiptId;
  early ← call EarlyResponseKeyset;
  keyset ← match early with Some keyset => Ret keyset | None => call CurrentKeyset end;
  match build_middleware_receipt_prefix (sealed_digest keyset) receipt_id None (ca_body candidate)
      (ca_route_id candidate) forwarded_body selected with
  | Err e => _ ← drop_lease_opt lease; Ret (Err e)
  | Ok b =>
      _ ← call (ReserveReceiptId receipt_id);
      Ret (Ok (MwStream (mkMiddlewareStreaming receipt_id (sealed_digest keyset) (us_status_code response)
        (us_headers response) (us_body response)
        (mkReceiptDraft lease receipt_id b (cr_endpoint_path req) true None)
        (ca_route_id candidate) (ca_path candidate) failed_attempts (le_session_id <$> lease))))
  end.

(** ** One attempt *)
Section Attempt.
(** The walk started and the retry pass was used; where this candidate stands. *)
Context (forward_started : Z) (capacity_retry_done : bool).
Context (index : nat) (is_last : bool) (candidate : ForwardCandidate) (attempt_started : Z).
Let route_id := ca_route_id candidate.

(** Whether an answer is held back: not by the last candidate unless a retry pass may
    still replay the walk's capacity rejections. *)
Definition holds_back (w : Walk) (status : Z) (body : bytes) : service bool :=
  let is_capacity := is_upstream_capacity_signal status body in
  last_may_retry ←
    (if is_capacity || bool_decide (wk_capacity_indices w ≠ [])
     then capacity_retry_eligible capacity_retry_done forward_started else Ret false);
  Ret ((negb is_last || last_may_retry) && should_fail_over status (cr_received_body req) body).
Definition note_capacity (w : Walk) (status : Z) (body : bytes) (hs : headers) : Walk :=
  if is_upstream_capacity_signal status body then with_capacity w index (retry_after hs) else w.

Definition streamed_error (w : Walk) (selected : SelectedUpstream) (response : UpstreamStreamResponse) : service Step :=
  let status := us_status_code response in
  let finish (r : service Step) := _ ← drop_lease_opt (sel_lease selected); r in
  match collect_upstream_body (us_body response) (us_headers response)
      (Z.to_nat (cfg_max_buffered_response_bytes (svc_config svc))) with
  | Err (ServiceUpstream ResponseTooLarge) =>
      w ← abandon_opt route_id attempt_started w (abandoned_status ResponseTooLarge);
      finish (Ret (Continue (with_err w 2 (ServiceUpstream ResponseTooLarge))))
  | collected =>
      let body := default [] (result_ok collected) in
      let error := mkStreamingError status (us_headers response) body in
      held ← holds_back w status body;
      if (held : bool) then
        let w := note_capacity w status body (us_headers response) in
        _ ← drop_lease_opt (retained_lease (wk_retained w));
        w ← abandon route_id attempt_started
              (with_retained w (RetainedStreaming error route_id (length (wk_failed_attempts w))))
              (recorded_attempt_status status body);
        finish (Ret (Continue w))
      else
        finish (leave w (Ok (MwUpstreamError (mkMiddlewareError error route_id (wk_failed_attempts w)))))
  end.

Definition answered_stream (w : Walk) (forwarded_body : bytes) (selected : SelectedUpstream)
    (response : UpstreamStreamResponse) : service Step :=
  if negb (us_status_code response =? 200)%Z then streamed_error w selected response
  else
    r ← commit_stream candidate forwarded_body response selected (wk_failed_attempts w);
    leave w r.

Definition answered_buffered (w : Walk) (prepared : PreparedUpstreamRequest) (selected : SelectedUpstream)
    (response : UpstreamResponse) : service Step :=
  let status := up_status_code response in
  let body := up_body response in
  let response_model :=
    match accepted_response_model status body with
    | Some model => Some model
    | None => if is_media_path (cr_endpoint_path req) then Some (pr_model_id prepared) else None
    end in
  let commit := mkBufferedCommit response response_model selected route_id (ca_path candidate) (ca_body candidate)
    (ur_body (pr_request prepared)) in
  held ← holds_back w status body;
  if (held : bool) then
    let w := note_capacity w status body (up_headers response) in
    _ ← drop_lease_opt (retained_lease (wk_retained w));
    w' ← abandon route_id attempt_started
          (with_retained w (RetainedBuffered commit (length (wk_failed_attempts w))))
          (recorded_attempt_status status body);
    Ret (Continue w')
  else
    r ← commit_buffered_response commit (wk_failed_attempts w);
    leave w r.

(** From the outcome of the forwarding on. *)
Definition settle {R} (served_instance_id : R -> option string) (answered : Walk -> SelectedUpstream -> R -> service Step)
    (w : Walk) (outcome : ReverifyOutcome R) : service Step :=
  match outcome with
  | Forwarded _ response admission =>
      selected ← select admission (served_instance_id response);
      match selected with
      | Ok selected => answered w selected response
      | Err e => leave w (Err e)
      end
  | RefreshFailed _ err =>
      if stream && match err with EarlyResponseKeysetExpired => true | _ => false end then leave w (all_failed w err)
      else
        let priority := match err with UpstreamVerification _ => 3%Z | _ => 2%Z end in
        w ← abandon route_id attempt_started (with_err w priority err) 502;
        Ret (Continue w)
  | ForwardFailed _ err =>
      w ← abandon_opt route_id attempt_started (with_err w 2 (ServiceUpstream err)) (abandoned_status err);
      Ret (Continue w)
  end.

Definition forward_candidate (caller_supplied_event aci_required : bool) (w : Walk) (prepared : PreparedUpstreamRequest)
    (admission : AdmittedUpstream) : service Step :=
  if stream then
    outcome ← reverify_loop svc has_verifier withheld_stream_response ForwardStreamVerified prepared aci_required
      caller_supplied_event (cr_aci_session_ids req) true true CHANNEL_BINDING_REVERIFY_ATTEMPTS admission;
    settle us_served_instance_id (fun w => answered_stream w (ur_body (pr_request prepared))) w outcome
  else
    outcome ← reverify_loop svc has_verifier withheld_response ForwardVerified prepared aci_required
      caller_supplied_event (cr_aci_session_ids req) true true CHANNEL_BINDING_REVERIFY_ATTEMPTS admission;
    settle up_served_instance_id (fun w => answered_buffered w prepared) w outcome.

Definition candidate_request (upstream_headers : headers) : UpstreamRequest :=
  mkUpstreamRequest (cr_audio_form req) None (ca_body candidate) upstream_headers (Some (ca_path candidate)) (Some route_id).

(** Verification and admission of a prepared candidate, then the forwarding. *)
Definition admit_candidate (caller_supplied_event : bool) (aci_required : bool) (w : Walk)
    (prepared : PreparedUpstreamRequest) : service Step :=
  let single_caller_event := if caller_supplied_event then cr_upstream_verification_event req else None in
  event ← recorded_upstream_event has_verifier prepared aci_required single_caller_event;
  match event with
  | Err (UpstreamVerification uv) =>
      w ← abandon route_id attempt_started w 502;
      Ret (Continue (with_err w 3 (UpstreamVerification uv)))
  | Err e => leave w (Err e)
  | Ok event =>
      admission ← admit_upstream svc event (cr_aci_session_ids req) (pr_model_id prepared) true;
      match admission with
      | Err EarlyResponseKeysetExpired => leave w (all_failed w EarlyResponseKeysetExpired)
      | Err (UpstreamVerification (NoEligibleAttestedSession m)) =>
          Ret (Continue (with_err w 0 (UpstreamVerification (NoEligibleAttestedSession m))))
      | Err e => leave w (Err e)
      | Ok admission => forward_candidate caller_supplied_event aci_required w prepared admission
      end
  end.

Definition attempt_candidate (upstream_headers : headers) (caller_supplied_event aci_required : bool) (w : Walk) :
    service Step :=
  _ ← call (SetInFlight route_id (Z.of_nat (length (wk_failed_attempts w)) mod 2 ^ 32));
  prepared ← call (Prepare (candidate_request upstream_headers));
  match prepared with
  | Err err =>
      w ← abandon route_id attempt_started w 502;
      let priority := match err with Routing _ => 1%Z | _ => 2%Z end in
      Ret (Continue (with_err w priority (ServiceUpstream err)))
  | Ok prepared =>
      encoded ← encode_audio prepared;
      match encoded with
      | Err err =>
          w ← abandon route_id attempt_started w 502;
          Ret (Continue (with_err w 2 (ServiceUpstream err)))
      | Ok prepared =>
          if aci_required && negb (attested_route_eligible (pr_is_tee prepared)) then
            Ret (Continue (with_err w 0 (UpstreamVerification
              (NoEligibleAttestedRoute (default "" (gc_user_model (cr_context req)))))))
          else admit_candidate caller_supplied_event aci_required w prepared
      end
  end.
End Attempt.

(** ** The walk *)
Section Walk.
Context (candidates : list ForwardCandidate) (forward_started : Z).
Let caller_supplied_event : bool :=
  bool_decide (is_Some (cr_upstream_verification_event req)) && bool_decide (length candidates = 1).
Let aci_required : bool := aci_required_for svc req.
Let upstream_headers : headers :=
  match gc_user_tier (cr_context req) with Some tier => <["x-user-tier" := tier]> ∅ | None => ∅ end.

(** The candidates of one pass, from [index] on. *)
Fixpoint walk_pass (retry_done : bool) (index : nat) (current : list ForwardCandidate) (w : Walk) : service Step :=
  match current with
  | [] => Ret (Continue w)
  | candidate :: rest =>
      attempt_started ← call InstantNanos;
      step ← attempt_candidate forward_started retry_done index (bool_decide (rest = [])) candidate attempt_started
               upstream_headers caller_supplied_event aci_required w;
      match step with
      | Continue w => walk_pass retry_done (S index) rest w
      | Return r => Ret (Return r)
      end
  end.

(** After the last pass: commit what was held back, or report the failures. *)
Definition conclude (w : Walk) : service (result ServiceError MiddlewareForwardResult) :=
  match wk_retained w with
  | Some retained =>
      let failed_attempts := take (attempt_slot retained) (wk_failed_attempts w) ++
        drop (S (attempt_slot retained)) (wk_failed_attempts w) in
      match retained with
      | RetainedStreaming error route_id _ =>
          Ret (Ok (MwUpstreamError (mkMiddlewareError error route_id failed_attempts)))
      | RetainedBuffered inputs _ => commit_buffered_response inputs failed_attempts
      end
  | None =>
      let error := from_option snd
        (ServiceUpstream (Routing ("all upstream routes failed (attempted: " +:+
          join ", " (ca_route_id <$> candidates) +:+ ")"))) (wk_aggregated_err w) in
      Ret (all_failed w error)
  end.

(** The candidates a retry pass replays. *)
Definition replayed (current : list ForwardCandidate) (indices : list nat) : list ForwardCandidate :=
  omap (fun i => current !! i) indices.
Definition retry_pause (w : Walk) : service unit :=
  random ← call RandomU64;
  _ ← call ClearInFlight;
  call (SleepMs (Z.max (CAPACITY_RETRY_DELAY_MS + random mod CAPACITY_RETRY_DELAY_MS) (wk_capacity_wait w))).

Definition second_pass (w : Walk) : service (result ServiceError MiddlewareForwardResult) :=
  _ ← retry_pause w;
  step ← walk_pass true 0 (replayed candidates (wk_capacity_indices w)) (next_pass w);
  match step with Return r => Ret r | Continue w => conclude w end.

(** [capacity_retry_done] is false in the first pass and true in the second, so the
    loop runs at most twice. *)
Definition walk_candidates : service (result ServiceError MiddlewareForwardResult) :=
  step ← walk_pass false 0 candidates walk_start;
  match step with
  | Return r => Ret r
  | Continue w =>
      retry ← (if bool_decide (wk_capacity_indices w ≠ []) then capacity_retry_eligible false forward_started else Ret false);
      if (retry : bool) then second_pass w else conclude w
  end.
End Walk.

Definition forward_chat_completion_for_middleware (candidates : list ForwardCandidate) :
    service (result ServiceError MiddlewareForwardResult) :=
  if bool_decide (candidates = []) then Ret (Err (ServiceUpstream (Routing "no candidate routes supplied")))
  else forward_started ← call InstantNanos; walk_candidates candidates forward_started.
End Failover.
