(* ===== verification/Walking.v ===== *)
(** * What the failover walk guarantees (src/aggregator/service/middleware.rs)

    [Failover]'s walk under the protocol of [Gate]: every candidate is gated as a
    direct request is, the walk makes at most two passes, the journal records every
    abandoned attempt, leases are neither leaked nor dropped twice whatever is held
    back on the way, and the committed draft states what was sent where. *)
From S2P Require Import Prelude Json External Sample Effects Digest Identity ReportBinding Receipt RelyingParty Session SessionStore.
From S2P Require Import ReceiptStore Errors Upstream Claims E2eeCipher Provider Attestation Admission Fingerprint Gate E2ee.
From S2P Require Import SseProtocol UpstreamErrors Forward Serving Failover.

Section Walking.
Context {SH : Sha} {HX : HexCodec} {B64 : Base64} {SJ : SerdeJson} {HD : HashDomain} {RS : ResponseSerde}.
Context (svc : AciService) (has_verifier : bool).
Context (session_of : string -> AttestedSession) (needs_binding : PreparedUpstreamRequest -> bool).
Context (req : ChatCompletionRequest) (stream : bool) (candidates : list ForwardCandidate).
Context (supplied_wf : forall e, cr_upstream_verification_event req = Some e -> event_wf e).

Let required : bool := aci_required_for svc req.
Let pins : list string := cr_aci_session_ids req.
Abbreviation wps := (wp (allowed svc session_of needs_binding required pins) (moves session_of needs_binding)).
Abbreviation ok_admission := (admission_ok svc session_of pins).
Abbreviation cites := (cited_session session_of req).

(** ** What is held back and what is returned *)
Definition candidate_sent (s : ghost) (route path : string) (body forwarded : bytes) (sel : SelectedUpstream) : Prop :=
  exists c p event, c ∈ candidates /\ ca_route_id c = route /\ ca_path c = path /\ ca_body c = body /\
    (p, event) ∈ g_sent s /\ ur_body (pr_request p) = forwarded /\ cites event (sel_admitted_at sel) (sel_lease sel).
Definition commit_ok (s : ghost) (i : BufferedCommit) : Prop :=
  candidate_sent s (bc_route_id i) (bc_path i) (bc_middleware_forwarded_body i) (bc_forwarded_body i) (bc_admission i).
Definition retained_route (r : RetainedResponse) : string :=
  match r with RetainedStreaming _ route _ => route | RetainedBuffered i _ => bc_route_id i end.
Definition retained_ok (s : ghost) (r : RetainedResponse) : Prop :=
  retained_route r ∈ (ca_route_id <$> candidates) /\ match r with RetainedBuffered i _ => commit_ok s i | _ => True end.

(** The journal lists these attempts, and nothing else was logged. *)
Definition journal (s0 s : ghost) (attempts : list FailedAttempt) : Prop :=
  g_log s = reverse (Abandoned <$> attempts) ++ g_log s0 /\ Forall (fun a => fa_route_id a ∈ (ca_route_id <$> candidates)) attempts.

(** Between attempts; [extra] are the leases of the attempt in progress. *)
Record walk_ok (s0 : ghost) (extra : list SessionLease) (w : Walk) (s : ghost) : Prop := {
  wo_held : g_held s ≡ₚ extra ++ option_list (retained_lease (wk_retained w)) ++ g_held s0;
  wo_journal : journal s0 s (wk_failed_attempts w);
  wo_retained r : wk_retained w = Some r -> retained_ok s r /\
    exists a, wk_failed_attempts w !! attempt_slot r = Some a /\ fa_route_id a = retained_route r;
}.

(** The failed attempts of a result: all abandoned ones, or all but the committed. *)
Definition reported (s0 s : ghost) (route : string) (failed : list FailedAttempt) : Prop :=
  route ∈ (ca_route_id <$> candidates) /\ exists attempts, journal s0 s attempts /\
  (failed = attempts \/ exists i a, attempts !! i = Some a /\ fa_route_id a = route /\ failed = delete i attempts).

(** A draft lists what was received, what the middleware made of it, the chosen route,
    what was sent there, and the session under which it was served. *)
Definition draft_ok (s : ghost) (d : ReceiptDraft) (route path : string) (received : option bytes) : Prop :=
  exists body forwarded sel us, candidate_sent s route path body forwarded sel /\
    builder_ok (dr_builder d) /\ rcb_receipt_id (dr_builder d) = dr_receipt_id d /\
    rcb_served_at (dr_builder d) = sel_admitted_at sel /\ dr_session_lease d = sel_lease sel /\
    upstream_events svc (sel_event sel) (le_session_id <$> sel_lease sel) us /\
    rcb_events (dr_builder d) = request_events (cr_received_body req) (Some body) (Some route) forwarded ++ us ++
      (body_event EVENT_RESPONSE_RECEIVED <$> option_list received).

(** The lease a result hands over, and what the result states. *)
Definition returned_lease (r : result ServiceError MiddlewareForwardResult) : option SessionLease :=
  match r with
  | Ok (MwForwarded f) => dr_session_lease (mf_receipt f)
  | Ok (MwStream f) => dr_session_lease (ms_draft f)
  | _ => None
  end.
Definition accounted (s0 s : ghost) (r : result ServiceError MiddlewareForwardResult) : Prop :=
  match r with
  | Ok (MwForwarded f) =>
      draft_ok s (mf_receipt f) (mf_selected_route f) (mf_selected_path f) (Some (mf_upstream_body f)) /\
      reported s0 s (mf_selected_route f) (mf_failed_attempts f)
  | Ok (MwStream f) =>
      ms_upstream_status f = 200%Z /\ draft_ok s (ms_draft f) (ms_selected_route f) (ms_selected_path f) None /\
      reported s0 s (ms_selected_route f) (ms_failed_attempts f)
  | Ok (MwUpstreamError e) => reported s0 s (mu_selected_route e) (mu_failed_attempts e)
  | Ok (MwAllFailed x) => journal s0 s (af_failed_attempts x)
  | Err _ => exists attempts, journal s0 s attempts
  end.
Definition returned (s0 s : ghost) (r : result ServiceError MiddlewareForwardResult) : Prop :=
  g_held s ≡ₚ option_list (returned_lease r) ++ g_held s0 /\ accounted s0 s r.
(** One attempt: how much it sends, and where it leaves the walk. *)
Definition step_ok (s0 : ghost) (w : Walk) (n : nat) (s : ghost) (st : Step) (s' : ghost) : Prop :=
  sent_upto n s s' /\
  match st with
  | Continue w' => walk_ok s0 [] w' s' /\ length (wk_capacity_indices w') <= S (length (wk_capacity_indices w))
  | Return r => returned s0 s' r
  end.

(** ** Monotonicity *)
Lemma candidate_sent_mono s s' route path body forwarded sel : g_sent s ⊆ g_sent s' ->
  candidate_sent s route path body forwarded sel -> candidate_sent s' route path body forwarded sel.
Proof. intros Hs (c & p & e & H1 & H2 & H3 & H4 & H5 & H6). exists c, p, e. naive_solver. Qed.
Lemma retained_ok_mono s s' r : g_sent s ⊆ g_sent s' -> retained_ok s r -> retained_ok s' r.
Proof. intros Hs [Hr Ho]. split; [done|]. destruct r; [done|]. by eapply candidate_sent_mono. Qed.
Lemma draft_ok_mono s s' d route path received : g_sent s ⊆ g_sent s' ->
  draft_ok s d route path received -> draft_ok s' d route path received.
Proof.
  intros Hs (body & fwd & sel & us & H & Hrest). exists body, fwd, sel, us. split; [by eapply candidate_sent_mono|done].
Qed.
Lemma accounted_later s0 s s' r : g_sent s' = g_sent s -> g_log s' = g_log s -> accounted s0 s r -> accounted s0 s' r.
Proof.
  intros Hs Hl. destruct r as [[f|f|e|x]|e]; cbn; unfold reported, journal; rewrite ?Hl; [| |done..].
  all: intuition; (eapply draft_ok_mono; [|done]; by rewrite Hs).
Qed.
Lemma walk_ok_later s0 extra w s s' : walk_ok s0 [] w s -> g_held s' ≡ₚ extra ++ g_held s -> g_log s' = g_log s ->
  g_sent s ⊆ g_sent s' -> walk_ok s0 extra w s'.
Proof.
  intros [Hh [Hl Hr] Ht] Hh' Hl' Hs. split; [by rewrite Hh', Hh|split; [by rewrite Hl'|done]|].
  intros r Hw. destruct (Ht r Hw) as [Ho Ha]. split; [by eapply retained_ok_mono|done].
Qed.
Lemma walk_ok_same s0 extra w w' s : wk_failed_attempts w' = wk_failed_attempts w -> wk_retained w' = wk_retained w ->
  walk_ok s0 extra w s -> walk_ok s0 extra w' s.
Proof. intros Hf Hr [H1 H2 H3]. split; rewrite ?Hf, ?Hr; auto. Qed.
Lemma sent_upto_sub n s s' : sent_upto n s s' -> g_sent s ⊆ g_sent s'.
Proof. intros (l & -> & _). set_solver. Qed.
Lemma journal_snoc s0 s s' attempts a : journal s0 s attempts -> fa_route_id a ∈ (ca_route_id <$> candidates) ->
  g_log s' = Abandoned a :: g_log s -> journal s0 s' (attempts ++ [a]).
Proof.
  intros [Hl HF] Ha Hl'. split; [|apply Forall_app; split; [done|by apply Forall_singleton]].
  rewrite Hl', Hl, fmap_app, reverse_app. done.
Qed.
Lemma walk_ok_attempt s0 extra w s s' a : walk_ok s0 extra w s -> fa_route_id a ∈ (ca_route_id <$> candidates) ->
  g_held s' = g_held s -> g_sent s' = g_sent s -> g_log s' = Abandoned a :: g_log s -> walk_ok s0 extra (with_attempt w a) s'.
Proof.
  intros [Hh Hj Hr] Ha Hh' Hs' Hl'. split; cbn.
  - by rewrite Hh'.
  - by eapply journal_snoc.
  - intros r Hw. destruct (Hr r Hw) as [Ho (a' & Hl & Ha')]. split; [eapply retained_ok_mono, Ho; by rewrite Hs'|].
    exists a'. split; [by apply lookup_app_l_Some|done].
Qed.

(** ** Steps of an attempt *)
Lemma wp_quiet' {X} (e : ServiceE X) s (Q : X -> ghost -> Prop) : quiet e -> (forall x, Q x s) -> wps (call e) s Q.
Proof. apply (wp_quiet svc session_of needs_binding req). Qed.
Lemma wp_drop_opt lease h s (Q : unit -> ghost -> Prop) :
  g_held s ≡ₚ option_list lease ++ h -> (forall s', g_held s' ≡ₚ h -> same_but_held s s' -> Q () s') ->
  wps (drop_lease_opt lease) s Q.
Proof. apply (wp_drop_lease_opt svc session_of needs_binding req). Qed.

Lemma wp_abandon s0 extra route started w status s (Q : Walk -> ghost -> Prop) :
  route ∈ (ca_route_id <$> candidates) -> walk_ok s0 extra w s ->
  (forall w' s', walk_ok s0 extra w' s' -> wk_capacity_indices w' = wk_capacity_indices w -> g_sent s' = g_sent s -> Q w' s') ->
  wps (abandon route started w status) s Q.
Proof.
  intros Hr Hw HQ. unfold abandon. apply wp_bind, wp_quiet'; [done|]. intros now.
  apply wp_bind, wp_call; [done|]. intros [] s' ->. cbn [wp]. apply HQ; try done. by eapply walk_ok_attempt.
Qed.
Lemma wp_abandon_opt s0 extra route started w status s (Q : Walk -> ghost -> Prop) :
  route ∈ (ca_route_id <$> candidates) -> walk_ok s0 extra w s ->
  (forall w' s', walk_ok s0 extra w' s' -> wk_capacity_indices w' = wk_capacity_indices w -> g_sent s' = g_sent s -> Q w' s') ->
  wps (abandon_opt route started w status) s Q.
Proof. intros Hr Hw HQ. destruct status; cbn [abandon_opt]; [by eapply wp_abandon|by apply HQ]. Qed.
(** Holding an answer back replaces the one held before. *)
Lemma wp_hold {X} s0 extra route started w r status (k : Walk -> service X) s Q :
  retained_route r = route -> attempt_slot r = length (wk_failed_attempts w) -> retained_ok s r ->
  walk_ok s0 (option_list (retained_lease (Some r)) ++ extra) w s ->
  (forall w' s', walk_ok s0 extra w' s' -> wk_capacity_indices w' = wk_capacity_indices w -> g_sent s' = g_sent s ->
     wps (k w') s' Q) ->
  wps (_ ← drop_lease_opt (retained_lease (wk_retained w)); w' ← abandon route started (with_retained w r) status; k w') s Q.
Proof.
  intros <- Hslot Hr [Hh Hj _] HQ.
  apply wp_bind, (wp_drop_opt _ (extra ++ option_list (retained_lease (Some r)) ++ g_held s0)).
  { rewrite Hh. solve_Permutation. }
  intros s1 Hh1 (_ & Hs1 & Hl1). apply wp_bind. unfold abandon. apply wp_bind, wp_quiet'; [done|]. intros now.
  apply wp_bind, wp_call; [done|]. intros [] s' ->. cbn [wp]. apply HQ; [|done|done]. split; cbn.
  - done.
  - eapply journal_snoc; [exact Hj|apply Hr|]. cbn. by rewrite Hl1.
  - intros r' [= <-]. split; [eapply retained_ok_mono, Hr; cbn; by rewrite Hs1|].
    eexists. split; [rewrite Hslot; by apply list_lookup_middle|done].
Qed.
Lemma wp_leave s0 w r s (Q : Step -> ghost -> Prop) :
  g_held s ≡ₚ option_list (returned_lease r) ++ option_list (retained_lease (wk_retained w)) ++ g_held s0 ->
  accounted s0 s r -> (forall s', returned s0 s' r -> g_sent s' = g_sent s -> Q (Return r) s') -> wps (leave w r) s Q.
Proof.
  intros Hh Ha HQ. unfold leave. apply wp_bind, (wp_drop_opt _ (option_list (returned_lease r) ++ g_held s0)).
  { rewrite Hh. solve_Permutation. }
  intros s' Hh' (_ & Hs & Hl). apply HQ; [|done]. split; [done|]. by eapply accounted_later.
Qed.
Lemma wp_eligible done started s (Q : bool -> ghost -> Prop) : (forall b, Q b s) -> wps (capacity_retry_eligible done started) s Q.
Proof. intros HQ. unfold capacity_retry_eligible. destruct done; [apply HQ|]. apply wp_bind, wp_quiet'; [done|]. intros now. apply HQ. Qed.

(** Drafts. *)
Lemma prefix_inv digest id chat body route forwarded sel b :
  build_middleware_receipt_prefix svc req digest id chat body route forwarded sel = Ok b ->
  builder_ok b /\ rcb_receipt_id b = id /\ rcb_served_at b = sel_admitted_at sel /\ exists us,
    upstream_events svc (sel_event sel) (le_session_id <$> sel_lease sel) us /\
    rcb_events b = request_events (cr_received_body req) (Some body) (Some route) forwarded ++ us.
Proof.
  unfold build_middleware_receipt_prefix, lift_receipt. intros H%map_err_Ok.
  apply receipt_prefix_inv in H as (us & Hus & [Hsteps Hb]).
  split; [apply (builder_steps_ok _ _ Hsteps); split; [done|constructor]|]. rewrite Hb. cbn. eauto 10.
Qed.
Lemma commit_builder_inv i digest id b : commit_builder svc req i digest id = Ok b ->
  builder_ok b /\ rcb_receipt_id b = id /\ rcb_served_at b = sel_admitted_at (bc_admission i) /\ exists us,
    upstream_events svc (sel_event (bc_admission i)) (le_session_id <$> sel_lease (bc_admission i)) us /\
    rcb_events b = request_events (cr_received_body req) (Some (bc_middleware_forwarded_body i)) (Some (bc_route_id i))
      (bc_forwarded_body i) ++ us ++ [body_event EVENT_RESPONSE_RECEIVED (up_body (bc_response i))].
Proof.
  unfold commit_builder. set (chat := if is_media_path _ then _ else _).
  destruct (build_middleware_receipt_prefix _ _ _ _ _ _ _ _ _) as [b1|] eqn:H1; [|done]. cbn [mbind result_bind].
  apply prefix_inv in H1 as (Hok & Hid & Hat & us & Hus & Hev).
  destruct (set_model_prefix svc b1 _ _ _ _ _ _ us (bc_response_model i) Hus Hev) as (us' & Hus' & Hstep & Heq).
  intros H%map_err_Ok. set (b2 := set_upstream_verified_model_id b1 (bc_response_model i)) in *.
  destruct (add_response_received b2 _) as [[b3 h]|] eqn:H3; [|done]. injection H as <-.
  pose proof (builder_step_preserves _ _ Hstep Hok) as Hok2.
  pose proof (builder_step_preserves _ _ (step_response_received _ _ _ _ H3) Hok2) as Hok3.
  assert (fst <$> append_body_hash b2 EVENT_RESPONSE_RECEIVED (up_body (bc_response i)) = Ok b3) as Ha
    by (unfold add_response_received in H3; by rewrite H3).
  apply body_hash_inv in Ha as [_ ->]. split; [done|]. rewrite Heq. split; [done|]. split; [done|].
  exists us'. split; [done|]. cbn [with_events rcb_events]. by rewrite <- app_assoc.
Qed.

(** Committing an answer. *)
Lemma wp_commit_buffered i failed h s (Q : result ServiceError MiddlewareForwardResult -> ghost -> Prop) :
  commit_ok s i -> g_held s ≡ₚ option_list (sel_lease (bc_admission i)) ++ h ->
  (forall f, dr_session_lease (mf_receipt f) = sel_lease (bc_admission i) ->
     draft_ok s (mf_receipt f) (mf_selected_route f) (mf_selected_path f) (Some (mf_upstream_body f)) ->
     mf_selected_route f = bc_route_id i -> mf_failed_attempts f = failed -> Q (Ok (MwForwarded f)) s) ->
  (forall e s', g_held s' ≡ₚ h -> same_but_held s s' -> Q (Err e) s') ->
  wps (commit_buffered_response svc req i failed) s Q.
Proof.
  intros Hc Hh Hok Herr. unfold commit_buffered_response. apply wp_bind, wp_quiet'; [done|]. intros id.
  apply wp_bind, wp_quiet'; [done|]. intros ks. destruct (commit_builder _ _ _ _ _) as [b|e] eqn:Hb.
  - apply commit_builder_inv in Hb as (H1 & H2 & H3 & us & H4 & H5). cbn [wp]. apply Hok; try done.
    exists (bc_middleware_forwarded_body i), (bc_forwarded_body i), (bc_admission i), us. done.
  - apply wp_bind, (wp_drop_opt _ h); [done|]. intros s' Hh' Hs'. by apply Herr.
Qed.

(** ** One attempt *)
Section Attempt.
Context (s0 : ghost) (c : ForwardCandidate) (listed : c ∈ candidates).
Context (forward_started : Z) (retry_done : bool) (index : nat) (is_last : bool) (attempt_started : Z).

Lemma route_listed : ca_route_id c ∈ (ca_route_id <$> candidates).
Proof. by apply list_elem_of_fmap_2. Qed.
Hint Resolve route_listed : core.

Lemma wp_holds_back w status body s (Q : bool -> ghost -> Prop) : (forall b, Q b s) ->
  wps (holds_back req forward_started retry_done is_last w status body) s Q.
Proof.
  intros HQ. unfold holds_back. apply wp_bind. destruct (_ || _); [|apply HQ]. apply wp_eligible. intros b. apply HQ.
Qed.
Lemma note_capacity_walk extra w status body hs s : walk_ok s0 extra w s -> walk_ok s0 extra (note_capacity index w status body hs) s.
Proof. apply walk_ok_same; unfold note_capacity; by destruct (is_upstream_capacity_signal _ _). Qed.
Lemma note_capacity_indices w status body hs :
  length (wk_capacity_indices (note_capacity index w status body hs)) <= S (length (wk_capacity_indices w)).
Proof. unfold note_capacity. destruct (is_upstream_capacity_signal _ _); cbn; rewrite ?length_app; cbn; lia. Qed.
Lemma note_capacity_failed w status body hs :
  wk_failed_attempts (note_capacity index w status body hs) = wk_failed_attempts w.
Proof. unfold note_capacity. by destruct (is_upstream_capacity_signal _ _). Qed.
Lemma note_capacity_retained w status body hs :
  wk_retained (note_capacity index w status body hs) = wk_retained w.
Proof. unfold note_capacity. by destruct (is_upstream_capacity_signal _ _). Qed.

Lemma reported_all extra w s : walk_ok s0 extra w s -> reported s0 s (ca_route_id c) (wk_failed_attempts w).
Proof. intros [_ Hj _]. split; [done|]. eauto. Qed.

(** Dropping the attempt's lease before the walk moves on. *)
Lemma wp_continue sel w w0 s s1 : walk_ok s0 (option_list (sel_lease sel)) w s ->
  length (wk_capacity_indices w) <= S (length (wk_capacity_indices w0)) -> sent_upto 0 s1 s ->
  wps (_ ← drop_lease_opt (sel_lease sel); Ret (Continue w)) s (step_ok s0 w0 0 s1).
Proof.
  intros [Hh [Hl HF] Hr] Hc Hs1. apply wp_bind. eapply wp_drop_opt; [exact Hh|]. intros s' Hh' (_ & Hs & Hl').
  split; [eapply (upto_trans 0 0 0); [exact Hs1|by apply upto_none|lia]|]. split; [|done]. split; [done|split; [congruence|done]|].
  intros r Hw. destruct (Hr r Hw) as [Ho Ha]. split; [|done]. eapply retained_ok_mono, Ho. by rewrite Hs.
Qed.

Lemma wp_streamed_error w sel response s : walk_ok s0 (option_list (sel_lease sel)) w s ->
  wps (streamed_error svc req forward_started retry_done index is_last c attempt_started w sel response) s (step_ok s0 w 0 s).
Proof.
  intros Hw. unfold streamed_error.
  assert (forall body, wps (let error := mkStreamingError (us_status_code response) (us_headers response) body in
    held ← holds_back req forward_started retry_done is_last w (us_status_code response) body;
    if held : bool then
      let w := note_capacity index w (us_status_code response) body (us_headers response) in
      _ ← drop_lease_opt (retained_lease (wk_retained w));
      w ← abandon (ca_route_id c) attempt_started
            (with_retained w (RetainedStreaming error (ca_route_id c) (length (wk_failed_attempts w))))
            (recorded_attempt_status (us_status_code response) body);
      _ ← drop_lease_opt (sel_lease sel); Ret (Continue w)
    else
      _ ← drop_lease_opt (sel_lease sel);
      leave w (Ok (MwUpstreamError (mkMiddlewareError error (ca_route_id c) (wk_failed_attempts w))))) s (step_ok s0 w 0 s)) as Hbody.
  { intros body. cbv zeta. apply wp_bind, wp_holds_back. intros [].
    - eapply (wp_hold _ (option_list (sel_lease sel))); [done|done|by split|by apply note_capacity_walk|].
      intros w' s' Hw' Hc' Hs'. apply wp_continue; [done|rewrite Hc'; apply note_capacity_indices|by apply upto_none].
    - destruct Hw as [Hh Hj Hr]. apply wp_bind. eapply wp_drop_opt; [exact Hh|]. intros s1 Hh1 (_ & Hs1 & Hl1).
      eapply wp_leave; [exact Hh1| |].
      + cbn. split; [done|]. exists (wk_failed_attempts w). split; [|by left]. unfold journal. by rewrite Hl1.
      + intros s' Hret Hs'. split; [apply upto_none; congruence|done]. }
  destruct (collect_upstream_body _ _ _) as [body|[]]; try apply (Hbody _).
  destruct e; try apply (Hbody []).
  apply wp_bind. eapply wp_abandon_opt; [done|exact Hw|]. intros w' s' Hw' Hc' Hs'.
  apply wp_continue; [by eapply walk_ok_same; [| |exact Hw']|cbn; rewrite Hc'; lia|by apply upto_none].
Qed.

Section Answered.
Context (p : PreparedUpstreamRequest).
Abbreviation sent_here s sel := (candidate_sent s (ca_route_id c) (ca_path c) (ca_body c) (ur_body (pr_request p)) sel).

Lemma wp_answered_stream w sel response s : walk_ok s0 (option_list (sel_lease sel)) w s -> sent_here s sel ->
  wps (answered_stream svc req forward_started retry_done index is_last c attempt_started w (ur_body (pr_request p)) sel response) s
    (step_ok s0 w 0 s).
Proof.
  intros Hw Hsent. unfold answered_stream. destruct (Z.eqb_spec (us_status_code response) 200) as [H200|]; cbn [negb];
    [|by apply wp_streamed_error].
  pose proof (reported_all _ _ _ Hw) as Hrep. destruct Hw as [Hh Hj _].
  apply wp_bind. unfold commit_stream. apply wp_bind, wp_quiet'; [done|]. intros id.
  apply wp_bind, wp_quiet'; [done|]. intros early. apply wp_bind.
  assert (forall ks, wps (match build_middleware_receipt_prefix svc req (sealed_digest ks) id None (ca_body c) (ca_route_id c)
        (ur_body (pr_request p)) sel with
      | Ok b => _ ← call (ReserveReceiptId id);
          Ret (Ok (MwStream (mkMiddlewareStreaming id (sealed_digest ks) (us_status_code response) (us_headers response)
            (us_body response) (mkReceiptDraft (sel_lease sel) id b (cr_endpoint_path req) true None) (ca_route_id c) (ca_path c)
            (wk_failed_attempts w) (le_session_id <$> sel_lease sel))))
      | Err e => _ ← drop_lease_opt (sel_lease sel); Ret (Err e)
      end) s (fun r s' => wps (leave w r) s' (step_ok s0 w 0 s))) as Hks.
  { intros ks. destruct (build_middleware_receipt_prefix _ _ _ _ _ _ _ _ _) as [b|e] eqn:Hb.
    - apply prefix_inv in Hb as (H1 & H2 & H3 & us & H4 & H5). apply wp_bind, wp_quiet'; [done|]. intros []. cbn [wp].
      eapply wp_leave; [exact Hh| |].
      + cbn. split; [done|]. split; [|done]. exists (ca_body c), (ur_body (pr_request p)), sel, us. cbn. rewrite app_nil_r. done.
      + intros s' Hret Hs'. split; [by apply upto_none|done].
    - apply wp_bind. eapply wp_drop_opt; [exact Hh|]. intros s1 Hh1 (_ & Hs1 & Hl1). cbn [wp].
      eapply wp_leave; [exact Hh1| |].
      + cbn. exists (wk_failed_attempts w). unfold journal. by rewrite Hl1.
      + intros s' Hret Hs'. split; [apply upto_none; congruence|done]. }
  destruct early as [ks|]; [apply Hks|]. apply wp_quiet'; [done|]. apply Hks.
Qed.

Lemma wp_answered_buffered w sel response s : walk_ok s0 (option_list (sel_lease sel)) w s -> sent_here s sel ->
  wps (answered_buffered svc req forward_started retry_done index is_last c attempt_started w p sel response) s (step_ok s0 w 0 s).
Proof.
  intros Hw Hsent. unfold answered_buffered. set (commit := mkBufferedCommit _ _ _ _ _ _ _).
  assert (commit_ok s commit) as Hc by exact Hsent.
  apply wp_bind, wp_holds_back. intros [].
  - eapply (wp_hold _ []); [done|done|by split|cbn [retained_lease app]; rewrite app_nil_r; by apply note_capacity_walk|].
    intros w' s' Hw' Hc' Hs'. cbn [wp]. split; [by apply upto_none|]. split; [done|]. rewrite Hc'. apply note_capacity_indices.
  - pose proof (reported_all _ _ _ Hw) as Hrep. destruct Hw as [Hh Hj _].
    apply wp_bind. eapply wp_commit_buffered; [exact Hc|exact Hh| |].
    + intros f Hl Hd Hr Hf. eapply wp_leave; [cbn; rewrite Hl; exact Hh|cbn; rewrite Hf; rewrite Hr in *; done|].
      intros s' Hret Hs'. split; [by apply upto_none|done].
    + intros e s1 Hh1 (_ & Hs1 & Hl1). eapply wp_leave; [exact Hh1| |].
      * cbn. exists (wk_failed_attempts w). unfold journal. by rewrite Hl1.
      * intros s' Hret Hs'. split; [apply upto_none; congruence|done].
Qed.

(** From the admission to the answer. *)
Lemma wp_leave_none w r s n : walk_ok s0 [] w s -> returned_lease r = None -> accounted s0 s r ->
  forall s1, sent_upto n s1 s -> wps (leave w r) s (step_ok s0 w n s1).
Proof.
  intros [Hh _ _] Hr Ha s1 Hs1. eapply wp_leave; [rewrite Hr; exact Hh|done|]. intros s' Hret Hs'.
  split; [|done]. destruct Hs1 as (l & Hl & Hn). exists l. split; [congruence|done].
Qed.
Lemma accounted_err extra w s e : walk_ok s0 extra w s -> accounted s0 s (Err e).
Proof. intros [_ Hj _]. cbn. eauto. Qed.
Lemma accounted_all_failed extra w s e : walk_ok s0 extra w s -> accounted s0 s (all_failed w e).
Proof. by intros [_ Hj _]. Qed.

(** An attempt that ends with an error of its own. *)
Lemma wp_abandoned w w0 status s s1 n f : walk_ok s0 [] w s -> wk_capacity_indices w = wk_capacity_indices w0 ->
  sent_upto n s1 s -> (forall w', wk_failed_attempts (f w') = wk_failed_attempts w' /\ wk_retained (f w') = wk_retained w' /\
    wk_capacity_indices (f w') = wk_capacity_indices w') ->
  wps (w' ← abandon_opt (ca_route_id c) attempt_started w status; Ret (Continue (f w'))) s (step_ok s0 w0 n s1).
Proof.
  intros Hw Hc Hs1 Hf. apply wp_bind. eapply wp_abandon_opt; [done|exact Hw|]. intros w' s' Hw' Hc' Hs'. cbn [wp].
  destruct (Hf w') as (F1 & F2 & F3). split.
  - destruct Hs1 as (l & Hl & Hn). exists l. split; [congruence|done].
  - split; [by eapply walk_ok_same; [| |exact Hw']|]. rewrite F3, Hc', Hc. lia.
Qed.

Section Settle.
Context {R : Type} (streaming : bool) (served_instance_id : R -> option string) (answered : Walk -> SelectedUpstream -> R -> service Step).
Context (answers : forall w sel response s, walk_ok s0 (option_list (sel_lease sel)) w s -> sent_here s sel ->
  wps (answered w sel response) s (step_ok s0 w 0 s)).
Context (withheld : Z -> R) (forward : PreparedUpstreamRequest -> UpstreamVerifiedEvent -> ServiceE (result UpstreamError R)).
Context `{!Forwards svc session_of needs_binding required pins forward}.

Lemma wp_settle_forwarded event a0 a w response s s1 s2 : ok_admission event a0 -> delivered a0 a ->
  walk_ok s0 [] w s1 -> g_held s2 ≡ₚ owned a ++ g_held s1 -> g_log s2 = g_log s1 ->
  head (g_sent s2) = Some (p, ad_event a0) -> g_sent s1 ⊆ g_sent s2 -> sent_upto 3 s s2 ->
  wps (settle streaming c attempt_started served_instance_id answered w (Forwarded R response a)) s2 (step_ok s0 w 3 s).
Proof.
  intros Ha Hd Hw Hh2 Hl2 Hhead Hsub Hup. cbn [settle]. apply wp_bind. eapply wp_select; [exact Hh2| |].
  - intros sel s3 Hse Hat Hin Hinst Hh3 (_ & Hs3 & Hl3). eapply wp_mono.
    + apply answers.
      * eapply walk_ok_later; [exact Hw|done|congruence|by rewrite Hs3].
      * exists c, p, (ad_event a0). do 4 (split; [done|]). split; [|split; [done|]].
        -- rewrite Hs3. by apply head_Some_elem_of.
        -- intros l Hl. rewrite Hl in Hin. by eapply owned_cited.
    + intros st s4 [Hs4 Hst]. split; [|exact Hst].
      eapply (upto_trans 3 0); [|exact Hs4|lia]. destruct Hup as (l & Hl & Hn). exists l. split; [congruence|done].
  - intros e s3 Hh3 (_ & Hs3 & Hl3).
    assert (walk_ok s0 [] w s3) as Hw3 by (eapply walk_ok_later; [exact Hw|done|congruence|by rewrite Hs3]).
    apply wp_leave_none; [done|done|by eapply accounted_err|].
    destruct Hup as (l & Hl & Hn). exists l. split; [congruence|done].
Qed.
Lemma wp_settle_failed w outcome s s2 : match outcome with Forwarded _ _ _ => False | _ => True end ->
  walk_ok s0 [] w s2 -> sent_upto 3 s s2 ->
  wps (settle streaming c attempt_started served_instance_id answered w outcome) s2 (step_ok s0 w 3 s).
Proof.
  intros Ho Hw Hup. destruct outcome as [|err|err]; [done| |]; cbn [settle].
  - destruct (_ && _).
    + apply wp_leave_none; [done|done|by eapply accounted_all_failed|done].
    + set (prio := match err with UpstreamVerification _ => _ | _ => _ end).
      change (abandon (ca_route_id c) attempt_started (with_err w prio err) 502) with
        (abandon_opt (ca_route_id c) attempt_started (with_err w prio err) (Some 502%Z)).
      apply (wp_abandoned _ _ _ _ _ _ id); [by eapply walk_ok_same; [| |exact Hw]|done|done|done].
  - apply (wp_abandoned _ _ _ _ _ _ id); [by eapply walk_ok_same; [| |exact Hw]|done|done|done].
Qed.

Lemma wp_forward_settled event a supplied w s s1 :
  ok_admission event a -> gated needs_binding required p event -> (required = true -> pr_is_tee p = Some true) ->
  walk_ok s0 [] w s -> g_held s1 ≡ₚ owned a ++ g_held s -> g_now s1 = ad_admitted_at a ->
  g_sent s1 = g_sent s -> g_log s1 = g_log s ->
  wps (outcome ← reverify_loop svc has_verifier withheld forward p required supplied pins true true
         CHANNEL_BINDING_REVERIFY_ATTEMPTS a;
       settle streaming c attempt_started served_instance_id answered w outcome) s1 (step_ok s0 w 3 s).
Proof.
  intros Ha Hg Ht Hw Hh1 Hn1 Hs1 Hl1. apply wp_bind.
  assert (forall s2, sent_more p 3 s1 s2 -> sent_upto 3 s s2 /\ g_sent s ⊆ g_sent s2) as Hmore.
  { intros s2 H2. assert (sent_upto 3 s s2) as Hup.
    { destruct H2 as (l & Hl & Hn & _). exists l. split; [congruence|done]. }
    split; [done|by eapply sent_upto_sub]. }
  eapply wp_reverify; [done|exact Ht|exact Ha|exact Hg|exact Hh1|exact Hn1| | |].
  - intros r event' a0 a' s2 H1 H2 H3 H4 H5 [H6 H6']%Hmore H7.
    apply (wp_settle_forwarded event' a0 a' w r s s s2); try done. congruence.
  - intros e s2 H1 [H2 H2']%Hmore H3. apply wp_settle_failed; [done| |done].
    eapply walk_ok_later; [exact Hw|done|congruence|done].
  - intros e s2 H1 [H2 H2']%Hmore H3. apply wp_settle_failed; [done| |done].
    eapply walk_ok_later; [exact Hw|done|congruence|done].
Qed.
End Settle.

Lemma wp_forward_candidate event a supplied w s s1 :
  ok_admission event a -> gated needs_binding required p event -> (required = true -> pr_is_tee p = Some true) ->
  walk_ok s0 [] w s -> g_held s1 ≡ₚ owned a ++ g_held s -> g_now s1 = ad_admitted_at a ->
  g_sent s1 = g_sent s -> g_log s1 = g_log s ->
  wps (forward_candidate svc has_verifier req stream forward_started retry_done index is_last c attempt_started supplied required
         w p a) s1 (step_ok s0 w 3 s).
Proof.
  intros Ha Hg Ht Hw Hh1 Hn1 Hs1 Hl1. unfold forward_candidate. destruct stream.
  - apply (wp_forward_settled true us_served_instance_id
      (fun w => answered_stream svc req forward_started retry_done index is_last c attempt_started w (ur_body (pr_request p)))
      wp_answered_stream withheld_stream_response ForwardStreamVerified event a supplied w s s1); assumption.
  - apply (wp_forward_settled false up_served_instance_id
      (fun w => answered_buffered svc req forward_started retry_done index is_last c attempt_started w p)
      wp_answered_buffered withheld_response ForwardVerified event a supplied w s s1); assumption.
Qed.

Lemma wp_admit_candidate supplied w s :
  (required = true -> pr_is_tee p = Some true) -> walk_ok s0 [] w s ->
  wps (admit_candidate svc has_verifier req stream forward_started retry_done index is_last c attempt_started supplied required w p)
    s (step_ok s0 w 3 s).
Proof.
  intros Ht Hw. unfold admit_candidate. apply wp_bind, wp_recorded_event.
  { intros e He. destruct supplied; [by apply supplied_wf|done]. }
  2: { intros e. assert (wps (leave w (Err e)) s (step_ok s0 w 3 s)) as Hleave
         by (apply wp_leave_none; [done|done|by eapply accounted_err|by apply upto_none]).
       destruct e; try exact Hleave.
       apply (wp_abandoned _ _ (Some 502%Z) _ _ _ (fun w => with_err w 3 _)); [done|done|by apply upto_none|done]. }
  intros event Hev Hg. apply wp_bind. eapply wp_admit; [done|reflexivity| |].
  - intros a s1 Ha Hh1 Hn1 (Hs1 & Hl1). by eapply wp_forward_candidate.
  - intros e s1 Hh1 (Hs1 & Hl1).
    assert (walk_ok s0 [] w s1) as Hw1 by (eapply walk_ok_later; [exact Hw|done|done|by rewrite Hs1]).
    assert (wps (leave w (Err e)) s1 (step_ok s0 w 3 s)) as Hleave
      by (apply wp_leave_none; [done|done|by eapply accounted_err|by apply upto_none]).
    destruct e; try exact Hleave.
    all: try (apply wp_leave_none; [done|done|by eapply accounted_all_failed|by apply upto_none]).
    destruct e; try exact Hleave. cbn [wp]. split; [by apply upto_none|]. split; [|cbn; lia].
    by eapply walk_ok_same; [| |exact Hw1].
Qed.
End Answered.

Lemma wp_attempt_candidate upstream_headers supplied w s : walk_ok s0 [] w s ->
  wps (attempt_candidate svc has_verifier req stream forward_started retry_done index is_last c attempt_started upstream_headers
         supplied required w) s (step_ok s0 w 3 s).
Proof.
  intros Hw. unfold attempt_candidate. apply wp_bind, wp_quiet'; [done|]. intros [].
  assert (forall prio e, wps (w' ← abandon (ca_route_id c) attempt_started w 502; Ret (Continue (with_err w' prio e))) s
    (step_ok s0 w 3 s)) as Hfail.
  { intros prio e. apply (wp_abandoned _ _ (Some 502%Z) _ _ _ (fun w => with_err w prio e)); [done|done|by apply upto_none|done]. }
  apply wp_bind, wp_quiet'; [done|]. intros [p0|e]; [|apply Hfail].
  apply wp_bind, (wp_encode_audio svc session_of needs_binding req); [|intros e; apply Hfail]. intros p.
  destruct (required && negb _) eqn:Ht.
  - cbn [wp]. split; [by apply upto_none|]. split; [by eapply walk_ok_same; [| |exact Hw]|cbn; lia].
  - apply wp_admit_candidate; [|done]. intros Hr. rewrite Hr in Ht. cbn in Ht. apply negb_false_iff in Ht.
    by apply bool_decide_eq_true in Ht.
Qed.
End Attempt.

(** ** The walk *)
Lemma wp_walk_pass s0 started retry_done index current w s : current ⊆ candidates -> walk_ok s0 [] w s ->
  wps (walk_pass svc has_verifier req stream candidates started retry_done index current w) s (fun st s' =>
    sent_upto (3 * length current) s s' /\
    match st with
    | Continue w' => walk_ok s0 [] w' s' /\ length (wk_capacity_indices w') <= length (wk_capacity_indices w) + length current
    | Return r => returned s0 s' r
    end).
Proof.
  revert index w s. induction current as [|c rest IH]; intros index w s Hin Hw.
  - cbn. split; [by apply upto_none|]. split; [done|lia].
  - cbn [walk_pass]. apply wp_bind, wp_quiet'; [done|]. intros now. apply wp_bind.
    eapply wp_mono; [apply (wp_attempt_candidate s0 c); [apply Hin; left|exact Hw]|].
    intros [w'|r] s1 [Hs1 Hst]; cbn [length].
    + destruct Hst as [Hw1 Hc1]. eapply wp_mono; [apply IH; [|exact Hw1]; intros x Hx; apply Hin; by right|].
      intros st s2 [Hs2 Hst2]. split; [eapply upto_trans; [exact Hs1|exact Hs2|lia]|].
      destruct st; [|done]. destruct Hst2 as [Hw2 Hc2]. split; [done|lia].
    + cbn [wp]. split; [|done]. destruct Hs1 as (l & Hl & Hn). exists l. split; [done|lia].
Qed.

Lemma wp_conclude s0 w s : walk_ok s0 [] w s ->
  wps (conclude svc req candidates w) s (fun r s' => g_sent s' = g_sent s /\ returned s0 s' r).
Proof.
  intros Hw. unfold conclude. destruct (wk_retained w) as [r|] eqn:Hr.
  - destruct Hw as [Hh Hj Hret]. destruct (Hret r Hr) as [[Hroute Hok] (a & Ha & Hra)]. rewrite Hr in Hh.
    rewrite <- delete_take_drop.
    assert (forall s', g_log s' = g_log s -> reported s0 s' (retained_route r) (delete (attempt_slot r) (wk_failed_attempts w))) as Hrep.
    { intros s' Hl. split; [done|]. exists (wk_failed_attempts w). split; [unfold journal; by rewrite Hl|]. right. eauto 10. }
    destruct r as [error route slot|i slot]; cbn [retained_lease retained_route attempt_slot option_list app] in *.
    + cbn [wp]. split; [done|]. split; [exact Hh|]. by apply Hrep.
    + eapply wp_commit_buffered; [exact Hok|exact Hh| |].
      * intros f Hl Hd Hr1 Hf. split; [done|]. split; [cbn; rewrite Hl; exact Hh|]. cbn. rewrite Hf. rewrite Hr1 in *. auto.
      * intros e s1 Hh1 (_ & Hs1 & Hl1). split; [done|]. split; [exact Hh1|]. cbn. exists (wk_failed_attempts w).
        unfold journal. by rewrite Hl1.
  - cbn [wp]. split; [done|]. destruct Hw as [Hh Hj _]. rewrite Hr in Hh. split; [exact Hh|exact Hj].
Qed.

Lemma replayed_sub indices : replayed candidates indices ⊆ candidates.
Proof. intros c (i & _ & Hc)%list_elem_of_omap. by eapply list_elem_of_lookup_2. Qed.
Lemma replayed_length indices : length (replayed candidates indices) <= length indices.
Proof. unfold replayed. induction indices as [|i indices IH]; cbn; [done|]. destruct (candidates !! i); cbn; lia. Qed.

Lemma wp_second_pass s0 started w s : walk_ok s0 [] w s -> length (wk_capacity_indices w) <= length candidates ->
  wps (second_pass svc has_verifier req stream candidates started w) s (fun r s' =>
    sent_upto (3 * length candidates) s s' /\ returned s0 s' r).
Proof.
  intros Hw Hc. unfold second_pass. apply wp_bind. unfold retry_pause. apply wp_bind, wp_quiet'; [done|]. intros random.
  apply wp_bind, wp_quiet'; [done|]. intros []. apply wp_quiet'; [done|]. intros []. apply wp_bind.
  eapply wp_mono; [apply (wp_walk_pass s0); [apply replayed_sub|by eapply walk_ok_same; [| |exact Hw]]|].
  pose proof (replayed_length (wk_capacity_indices w)) as Hlen.
  assert (forall s' s'', sent_upto (3 * length (replayed candidates (wk_capacity_indices w))) s s' -> g_sent s'' = g_sent s' ->
    sent_upto (3 * length candidates) s s'') as Hup.
  { intros s' s'' (l & Hl & Hn) Hs. exists l. split; [congruence|lia]. }
  intros [w'|r] s1 [Hs1 Hst].
  - destruct Hst as [Hw1 _]. eapply wp_mono; [apply (wp_conclude s0 w' s1 Hw1)|]. intros r s2 [Hs2 Hret]. eauto.
  - cbn [wp]. eauto.
Qed.

Lemma wp_walk s0 : wps (forward_chat_completion_for_middleware svc has_verifier req stream candidates) s0 (fun r s' =>
  sent_upto (6 * length candidates) s0 s' /\ returned s0 s' r).
Proof.
  assert (walk_ok s0 [] walk_start s0) as Hstart by (split; [done|by split|done]).
  unfold forward_chat_completion_for_middleware. case_bool_decide as Hne.
  { cbn [wp]. split; [by apply upto_none|]. split; [done|]. exists []. by split. }
  apply wp_bind, wp_quiet'; [done|]. intros started. unfold walk_candidates. apply wp_bind.
  eapply wp_mono; [by apply (wp_walk_pass s0 started false 0 candidates walk_start s0)|]. intros [w|r] s1 [Hs1 Hst].
  2: { cbn [wp]. split; [|done]. destruct Hs1 as (l & Hl & Hn). exists l. split; [done|lia]. }
  destruct Hst as [Hw Hc]. cbn in Hc. apply wp_bind.
  assert (forall retry : bool, wps (if retry then second_pass svc has_verifier req stream candidates started w else conclude svc req candidates w)
    s1 (fun r s' => sent_upto (6 * length candidates) s0 s' /\ returned s0 s' r)) as Hrest.
  { intros []; (eapply wp_mono; [first [by apply (wp_second_pass s0)|by apply (wp_conclude s0)]|]); intros r s2 [Hs2 Hret]; split;
      try done; eapply upto_trans; [exact Hs1|exact Hs2|lia|exact Hs1|by apply (upto_none 0)|lia]. }
  case_bool_decide; [apply wp_eligible; apply Hrest|apply Hrest].
Qed.
End Walking.

(** ** What the entry points guarantee *)
Section Guarantees.
Context {SH : Sha} {HX : HexCodec} {B64 : Base64} {SJ : SerdeJson} {KP : KeyProvider} {ED : Ed25519} {CC : CurveCrypto}.
Context {HD : HashDomain} {RS : ResponseSerde}.
Context (rng : nat -> Draws) (svc : AciService) (has_verifier : bool).
Context (session_of : string -> AttestedSession) (needs_binding : PreparedUpstreamRequest -> bool).
Context (req : ChatCompletionRequest).
Context (supplied_wf : forall e, cr_upstream_verification_event req = Some e -> event_wf e).

(** A run of any entry point that forwards a request. *)
Definition serving_trace (tr : list (action ServiceE)) : Prop :=
  (exists r, runs (forward_chat_completion_request rng svc has_verifier req) tr r) \/
  (exists r, runs (forward_chat_completion_stream_request svc has_verifier req) tr r) \/
  (exists stream candidates r, runs (forward_chat_completion_for_middleware svc has_verifier req stream candidates) tr r).

(** C1: nothing is forwarded without its admission. In every run of the buffered and the
    streaming entry point and of the failover walk, whatever the backend, the verifier and the
    stores answer, a prompt is handed to the upstream only when [Gate.may_forward] holds: if the
    request or the route requires verification, the event is verified, required and binds a
    channel, and the route is an attested one; and if the request pins sessions, or the verified
    event binds channels, those bindings are exactly the ones recorded by sessions that are
    held, valid at the last clock reading and pinned. Leases are only extended or dropped while
    they are held. *)
Theorem forwarding_is_gated s0 tr1 act tr2 s1 :
  serving_trace (tr1 ++ act :: tr2) -> obeys (moves session_of needs_binding) s0 tr1 s1 ->
  allowed svc session_of needs_binding (aci_required_for svc req) (cr_aci_session_ids req) s1 _ (act_event act).
Proof.
  intros [[r Hr]|[[r Hr]|(stream & candidates & r & Hr)]] Ho.
  - eapply wp_allowed; [apply (wp_buffered rng svc has_verifier session_of needs_binding req supplied_wf s0)|exact Hr|exact Ho].
  - eapply wp_allowed; [apply (wp_streaming svc has_verifier session_of needs_binding req supplied_wf s0)|exact Hr|exact Ho].
  - eapply wp_allowed; [apply (wp_walk svc has_verifier session_of needs_binding req stream candidates supplied_wf s0)|exact Hr|exact Ho].
Qed.

(** C3: the failover walk accounts for everything it did.  Whatever its collaborators
    answer, the walk sends at most six prompts per candidate, writes to the journal
    exactly the attempts it abandoned, retains and publishes nothing, and holds no
    lease at the end but the one of the draft it returns, also when an answer held
    back earlier was replaced or dropped.  A returned draft belongs to a listed
    candidate whose body was sent: its receipt lists the received bytes, that
    candidate's body and route, the bytes sent, the session (valid when admitted,
    pinned if any is, and recording only enforced channels) and, if buffered, the
    body received.  The attempts it reports are those in the journal, less the
    returned one. *)
Theorem failover_walk_accounted stream candidates s0 tr r s' :
  runs (forward_chat_completion_for_middleware svc has_verifier req stream candidates) tr r ->
  obeys (moves session_of needs_binding) s0 tr s' ->
  sent_upto (6 * length candidates) s0 s' /\ returned svc session_of req candidates s0 s' r.
Proof.
  intros Hr Ho. pose proof (wp_walk svc has_verifier session_of needs_binding req stream candidates supplied_wf s0) as Hwp.
  exact (wp_post _ _ _ _ _ _ _ _ Hwp Hr Ho).
Qed.
End Guarantees.

(** *** Witnesses: [Serving]'s environment, with one route that is down. *)
#[local] Existing Instances sample_sha sample_hex sample_json sample_base64 sample_keyset_serde sample_curves
  sample_points sample_signing sample_ed sample_receipt_signer sample_e2ee_provider sample_response_serde sample_material_domain.
(** The question at which the prompt leaves. *)
Definition forwards_prompt (act : action ServiceE) : bool :=
  match act_event act with ForwardVerified _ _ => true | _ => false end.
Lemma forwarding_is_gated_witness : exists tr1 act tr2 s1,
  sample_buffered.1 = tr1 ++ act :: tr2 /\ forwards_prompt act = true /\
  allowed sample_service sample_session_of (fun _ => true) true [sample_session_id] s1 _ (act_event act).
Proof.
  assert (Hlist : exists tr1 act tr2, sample_buffered.1 = tr1 ++ act :: tr2 /\ forwards_prompt act = true).
  { destruct (list_find (fun act => forwards_prompt act = true) sample_buffered.1) as [[i act]|] eqn:Hf.
    - apply list_find_Some in Hf as (Hl & Hp & _). apply list_elem_of_lookup_2, list_elem_of_split in Hl as (l1 & l2 & Hl). eauto.
    - exfalso. assert (Hn : is_Some (list_find (fun act => forwards_prompt act = true) sample_buffered.1))
        by (vm_compute; eauto). rewrite Hf in Hn. by destruct Hn. }
  destruct Hlist as (tr1 & act & tr2 & Htr & Hp). destruct sample_buffered_obeys as [s' Ho].
  rewrite Htr in Ho. apply obeys_app in Ho as (s1 & Ho & _).
  exists tr1, act, tr2, s1. split; [exact Htr|]. split; [exact Hp|].
  apply (forwarding_is_gated (fun _ => sample_draws) sample_service true sample_session_of (fun _ => true) sample_request
    sample_supplied sample_ghost tr1 act tr2 s1); [|exact Ho].
  left. exists sample_buffered.2. rewrite <- Htr. exact sample_buffered_runs.
Defined.

Definition sample_candidates : list ForwardCandidate :=
  [mkCandidate "down" (as_bytes "{1}") "/v1/chat/completions"; mkCandidate "route" (as_bytes "{2}") "/v1/chat/completions"].
Definition failover_env (s : unit) (X : Type) (e : ServiceE X) : unit * X :=
  match e in ServiceE X return unit * X with
  | Prepare r => ((), if bool_decide (ur_target_route_id r = Some "down") then Err (Transport "refused") else Ok sample_prepared_request)
  | e => sample_env s _ e
  end.
Lemma failover_env_serves t s X (e : ServiceE X) : True ->
  allowed sample_service sample_session_of (fun _ => true) true [sample_session_id] s X e ->
  exists s', moves sample_session_of (fun _ => true) s X e (failover_env t X e).2 s' /\ True.
Proof. intros _ Ha. destruct e; try (by apply (sample_env_serves t s)); cbn; eauto. Qed.
Definition sample_walk : list (action ServiceE) * result ServiceError MiddlewareForwardResult :=
  answer failover_env () (forward_chat_completion_for_middleware sample_service true sample_request false sample_candidates).
Lemma sample_walk_runs : runs (forward_chat_completion_for_middleware sample_service true sample_request false sample_candidates)
  sample_walk.1 sample_walk.2.
Proof. unfold sample_walk. apply answer_runs. Qed.
Lemma sample_walk_obeys : exists s', obeys (moves sample_session_of (fun _ => true)) sample_ghost sample_walk.1 s'.
Proof.
  destruct (wp_answer _ _ failover_env (fun _ _ => True) failover_env_serves _ () sample_ghost _
    (wp_walk sample_service true sample_session_of (fun _ => true) sample_request false sample_candidates sample_supplied
      sample_ghost) I) as (s' & Ho & _). exists s'. exact Ho.
Qed.
Lemma failover_walk_accounted_witness : exists f a s',
  sample_walk.2 = Ok (MwForwarded f) /\ mf_selected_route f = "route" /\ mf_failed_attempts f = [a] /\ fa_route_id a = "down" /\
  returned sample_service sample_session_of sample_request sample_candidates sample_ghost s' (Ok (MwForwarded f)).
Proof.
  destruct sample_walk_obeys as [s' Ho].
  assert (Hok : match sample_walk.2 with
    | Ok (MwForwarded f) => bool_decide (mf_selected_route f = "route" /\ (fa_route_id <$> mf_failed_attempts f) = ["down"])
    | _ => false end = true) by (vm_compute; reflexivity).
  pose proof sample_walk_runs as Hruns.
  destruct sample_walk.2 as [[f|f|x|x]|] eqn:Hr; try discriminate Hok.
  apply bool_decide_eq_true in Hok as [Hroute Hfailed].
  destruct (mf_failed_attempts f) as [|a [|a' l]] eqn:Hf; try discriminate Hfailed. injection Hfailed as Ha.
  exists f, a, s'. split; [reflexivity|]. split; [exact Hroute|]. split; [exact Hf|]. split; [exact Ha|].
  exact (proj2 (failover_walk_accounted sample_service true sample_session_of (fun _ => true) sample_request sample_supplied false
    sample_candidates sample_ghost sample_walk.1 (Ok (MwForwarded f)) s' Hruns Ho)).
Defined.
