(* ===== verification/SseFraming.v ===== *)
(** * Observing a server-sent event stream (src/sse_framing.rs)

    [SseFramingObserver] watches the bytes of a response as they pass, in
    whatever chunks they arrive, and answers how the stream ended.  Its reference
    is stated on the whole stream: normalize the line breaks, split the text into
    lines and the lines into events, and join each event's [data:] values, which
    is also how the encrypting transformer of streaming.rs reads an event
    ([sse_event_data]). *)
From S2P Require Import Prelude Json External Sample SseProtocol.

Definition MAX_OBSERVED_EVENT_BYTES : Z := 16 * 1024 * 1024.

Record SseFramingObserver : Type := mkObserver {
  obs_line_buffer : bytes;
  obs_event_data : bytes;
  obs_pending_cr : bool;
  obs_chat_id : option string;
  obs_model_id : option string;
  obs_protocol : option SseProtocol;
  obs_saw_terminal : bool;
  obs_saw_error : bool;
  obs_mid_event : bool;
  obs_last_sequence_number : option Z;
  obs_observation_failed : bool;
}.

Definition with_protocol (protocol : option SseProtocol) : SseFramingObserver :=
  mkObserver [] [] false None None protocol false false false None false.
Definition observer_new (endpoint_path : string) : SseFramingObserver :=
  with_protocol (Some (sse_protocol endpoint_path)).
Definition for_protocol (protocol : SseProtocol) : SseFramingObserver := with_protocol (Some protocol).
Definition identifiers_only : SseFramingObserver := with_protocol None.

Definition at_event_boundary (o : SseFramingObserver) : bool :=
  bool_decide (obs_line_buffer o = []) && negb (obs_mid_event o).
Definition observation_usable (o : SseFramingObserver) : bool := negb (obs_observation_failed o).

Definition obs_done (o : SseFramingObserver) : bool :=
  obs_observation_failed o ||
  (bool_decide (is_Some (obs_chat_id o)) && bool_decide (is_Some (obs_model_id o)) &&
   (bool_decide (obs_protocol o = None) || obs_saw_terminal o || obs_saw_error o)).

(** Field assignments of the [&mut self] methods. *)
Definition set_line (line : bytes) (pending : bool) (o : SseFramingObserver) : SseFramingObserver :=
  mkObserver line (obs_event_data o) pending (obs_chat_id o) (obs_model_id o) (obs_protocol o)
    (obs_saw_terminal o) (obs_saw_error o) (obs_mid_event o) (obs_last_sequence_number o)
    (obs_observation_failed o).
Definition set_event_data (data : bytes) (o : SseFramingObserver) : SseFramingObserver :=
  mkObserver (obs_line_buffer o) data (obs_pending_cr o) (obs_chat_id o) (obs_model_id o) (obs_protocol o)
    (obs_saw_terminal o) (obs_saw_error o) (obs_mid_event o) (obs_last_sequence_number o)
    (obs_observation_failed o).
Definition set_mid_event (mid : bool) (o : SseFramingObserver) : SseFramingObserver :=
  mkObserver (obs_line_buffer o) (obs_event_data o) (obs_pending_cr o) (obs_chat_id o) (obs_model_id o)
    (obs_protocol o) (obs_saw_terminal o) (obs_saw_error o) mid (obs_last_sequence_number o)
    (obs_observation_failed o).
Definition note_end (terminal error : bool) (seq : option Z) (o : SseFramingObserver) : SseFramingObserver :=
  mkObserver (obs_line_buffer o) (obs_event_data o) (obs_pending_cr o) (obs_chat_id o) (obs_model_id o)
    (obs_protocol o) (obs_saw_terminal o || terminal) (obs_saw_error o || error) (obs_mid_event o) seq
    (obs_observation_failed o).
Definition note_ids (chat model : option string) (o : SseFramingObserver) : SseFramingObserver :=
  mkObserver (obs_line_buffer o) (obs_event_data o) (obs_pending_cr o) chat model
    (obs_protocol o) (obs_saw_terminal o) (obs_saw_error o) (obs_mid_event o) (obs_last_sequence_number o)
    (obs_observation_failed o).
Definition abandon (o : SseFramingObserver) : SseFramingObserver :=
  mkObserver [] [] (obs_pending_cr o) (obs_chat_id o) (obs_model_id o) (obs_protocol o)
    (obs_saw_terminal o) (obs_saw_error o) (obs_mid_event o) (obs_last_sequence_number o) true.

(** ** What one event says *)
Definition is_error_reason (r : string) : bool := bool_decide (r = "error") || ends_with "_error" r.
Definition opt_test {A} (p : A -> bool) (o : option A) : bool :=
  match o with Some a => p a | None => false end.

Definition is_terminal_event (protocol : SseProtocol) (parsed : value) : bool :=
  let event_type := get_str "type" parsed in
  match protocol with
  | OpenaiChat => false
  | AnthropicMessages => bool_decide (event_type = Some "message_stop")
  | OpenaiResponses =>
      bool_decide (event_type = Some "response.completed") ||
      bool_decide (event_type = Some "response.incomplete") ||
      bool_decide (event_type = Some "response.failed")
  end.

Definition is_error_event (parsed : value) : bool :=
  let event_type := get_str "type" parsed in
  let responses_failed := bool_decide (event_type = Some "response.failed") in
  let nested_error := opt_test (fun e => negb (is_null e)) (get "response" parsed ≫= get "error") in
  let choices_error :=
    opt_test (existsb (fun choice => opt_test is_error_reason (get_str "finish_reason" choice)))
      (get "choices" parsed ≫= as_array) in
  let stop_reason_error := opt_test is_error_reason (get "delta" parsed ≫= get_str "stop_reason") in
  bool_decide (event_type = Some "error") ||
  opt_test (fun e => negb (is_null e)) (get "error" parsed) ||
  responses_failed || nested_error || choices_error || stop_reason_error.

Definition observe_terminal (parsed : value) (o : SseFramingObserver) : SseFramingObserver :=
  let last :=
    match get "sequence_number" parsed ≫= as_u64 with
    | Some sequence =>
        Some (match obs_last_sequence_number o with
              | Some previous => Z.max previous sequence
              | None => sequence
              end)
    | None => obs_last_sequence_number o
    end in
  match obs_protocol o with
  | None => note_end false false last o
  | Some protocol => note_end (is_terminal_event protocol parsed) (is_error_event parsed) last o
  end.

Section Observer.
Context {SJ : SerdeJson}.

(** The payload of a dispatched event, its trailing line feed removed. *)
Definition observe_payload (data : bytes) (o : SseFramingObserver) : SseFramingObserver :=
  if bool_decide (data = as_bytes "[DONE]") then
    note_end (bool_decide (obs_protocol o = Some OpenaiChat)) false (obs_last_sequence_number o) o
  else
    match from_slice data with
    | Err _ => o
    | Ok parsed =>
        let o := observe_terminal parsed o in
        let chat := match obs_chat_id o with None => get_str "id" parsed | some => some end in
        let model := match obs_model_id o with None => get_str "model" parsed | some => some end in
        note_ids chat model o
    end.

(** [data.pop()] when the last byte is a line feed. *)
Definition pop_lf (data : bytes) : bytes :=
  if bool_decide (last data = Some lf) then removelast data else data.

Definition obs_dispatch_event (o : SseFramingObserver) : SseFramingObserver :=
  if bool_decide (obs_event_data o = []) then o
  else observe_payload (pop_lf (obs_event_data o)) (set_event_data [] o).

(** [line.starts_with(b":")], and the value of a [data:] line. *)
Definition is_comment (line : bytes) : bool :=
  match line with c :: _ => bool_decide (c = u8 58) | [] => false end.
Definition data_value (line : bytes) : option bytes :=
  (fun rest => default rest (strip_bytes (as_bytes " ") rest)) <$> strip_bytes (as_bytes "data:") line.

Definition obs_observe_line (line : bytes) (o : SseFramingObserver) : SseFramingObserver :=
  if bool_decide (line = []) then set_mid_event false (obs_dispatch_event o)
  else if is_comment line then o
  else
    let o := set_mid_event true o in
    match data_value line with
    | None => o
    | Some data => set_event_data (obs_event_data o ++ data ++ [lf]) o
    end.

Definition over_cap (o : SseFramingObserver) : bool :=
  (MAX_OBSERVED_EVENT_BYTES <? Z.of_nat (length (obs_line_buffer o) + length (obs_event_data o)))%Z.

Fixpoint observe_bytes (chunk : bytes) (o : SseFramingObserver) : SseFramingObserver :=
  match chunk with
  | [] => o
  | byte :: chunk' =>
      let was_pending_cr := obs_pending_cr o in
      let o := set_line (obs_line_buffer o) false o in
      if was_pending_cr && bool_decide (byte = lf) then observe_bytes chunk' o
      else if bool_decide (byte = cr) || bool_decide (byte = lf) then
        let line := obs_line_buffer o in
        let o := obs_observe_line line (set_line [] (bool_decide (byte = cr)) o) in
        if obs_done o then o
        else if over_cap o then abandon o
        else observe_bytes chunk' o
      else
        let o := set_line (obs_line_buffer o ++ [byte]) false o in
        if over_cap o then abandon o else observe_bytes chunk' o
  end.

Definition observe (chunk : bytes) (o : SseFramingObserver) : SseFramingObserver :=
  if obs_done o then o else observe_bytes chunk o.

(** [observe] over the chunks of a body, in order. *)
Definition observe_chunks (chunks : list bytes) (o : SseFramingObserver) : SseFramingObserver :=
  foldl (fun o c => observe c o) o chunks.

End Observer.

(** ** The reference reading of a whole stream *)
Fixpoint normalize_breaks (s : bytes) : bytes :=
  match s with
  | [] => []
  | c :: s' =>
      if bool_decide (c = cr) then
        lf :: match s' with
              | d :: s'' => if bool_decide (d = lf) then normalize_breaks s'' else normalize_breaks s'
              | [] => []
              end
      else c :: normalize_breaks s'
  end.

(** Events ended by a blank line, and the lines of the one in progress. *)
Fixpoint split_events (lines : list bytes) : list (list bytes) * list bytes :=
  match lines with
  | [] => ([], [])
  | l :: lines' =>
      let '(es, rest) := split_events lines' in
      if bool_decide (l = []) then ([] :: es, rest)
      else match es with
           | [] => ([], l :: rest)
           | e :: es => ((l :: e) :: es, rest)
           end
  end.

(** streaming.rs: the payload of an event, absent without a [data:] line. *)
Definition sse_event_data (lines : list bytes) : option bytes :=
  let '(found, out) :=
    foldl (fun '(found, out) line =>
      if is_comment line then (found, out)
      else match data_value line with
           | None => (found, out)
           | Some data => (true, (if found : bool then out ++ [lf] else out) ++ data)
           end) (false, []) lines in
  if found : bool then Some out else None.

Definition stream_events (s : bytes) : list bytes :=
  omap sse_event_data (split_events (split_lines (normalize_breaks s)).1).1.
(** No line is half written and no field line is waiting for its blank line. *)
Definition stream_at_boundary (s : bytes) : bool :=
  let '(lines, rest) := split_lines (normalize_breaks s) in
  bool_decide (rest = []) && forallb is_comment (split_events lines).2.

(** ** Chunks do not matter *)
Section Facts.
Context {SJ : SerdeJson}.

Lemma abandon_done o : obs_done (abandon o) = true.
Proof. done. Qed.

Lemma observe_bytes_app c1 c2 o :
  obs_done o = false -> observe_bytes (c1 ++ c2) o = observe c2 (observe_bytes c1 o).
Proof.
  revert o. induction c1 as [|b c1 IH]; intros o Hd; simpl; [unfold observe; by rewrite Hd|].
  destruct (obs_pending_cr o && bool_decide (b = lf)); [by apply IH|].
  destruct (bool_decide (b = cr) || bool_decide (b = lf)).
  - destruct (obs_done (obs_observe_line _ _)) eqn:Hd'; [unfold observe; by rewrite Hd'|].
    destruct (over_cap _); [unfold observe; by rewrite abandon_done|by apply IH].
  - destruct (over_cap _); [unfold observe; by rewrite abandon_done|by apply IH].
Qed.

Lemma observe_app c1 c2 o : observe c2 (observe c1 o) = observe (c1 ++ c2) o.
Proof.
  unfold observe at 2 3. destruct (obs_done o) eqn:Hd; [unfold observe; by rewrite Hd|].
  by rewrite observe_bytes_app.
Qed.

(** How a body is cut into chunks never changes what the observer concludes:
    after any sequence of chunks it is in the state it reaches on their
    concatenation, from any state, including a chunk border inside a CRLF and
    chunks that arrive after the verdict. *)
Theorem observe_chunking chunks o :
  observe_chunks chunks o = observe (concat chunks) o.
Proof.
  unfold observe_chunks. revert o. induction chunks as [|c chunks IH]; intros o; simpl.
  - unfold observe. by destruct (obs_done o).
  - by rewrite IH, observe_app.
Qed.

(** ** A property of every intermediate state is a property of the result *)
Lemma observe_bytes_preserves (P : SseFramingObserver -> Prop) :
  (forall o, P o -> P (set_line (obs_line_buffer o) false o)) ->
  (forall o pending, P o -> P (obs_observe_line (obs_line_buffer o) (set_line [] pending o))) ->
  (forall o b, P o -> b ≠ lf -> over_cap (set_line (obs_line_buffer o ++ [b]) false o) = false ->
     P (set_line (obs_line_buffer o ++ [b]) false o)) ->
  (forall o line, P o -> P (abandon (set_line line (obs_pending_cr o) o))) ->
  forall chunk o, P o -> P (observe chunk o).
Proof.
  intros Hskip Hline Hpush Hgive chunk o HP. unfold observe. destruct (obs_done o); [done|].
  revert o HP. induction chunk as [|b chunk IH]; intros o HP; simpl; [done|].
  destruct (obs_pending_cr o && bool_decide (b = lf)); [auto|].
  destruct (bool_decide (b = cr)) eqn:Hcr, (bool_decide (b = lf)) eqn:Hlf; simpl.
  4: { apply bool_decide_eq_false in Hlf. destruct (over_cap _) eqn:Hc.
       - exact (Hgive _ (obs_line_buffer o ++ [b]) (Hskip o HP)).
       - apply IH. exact (Hpush o b HP Hlf Hc). }
  all: destruct (obs_done _); [by apply (Hline o)|]; destruct (over_cap _); [|apply IH, (Hline o), HP].
  all: match goal with |- _ (abandon (obs_observe_line _ (set_line _ ?pending _))) =>
         exact (Hgive _ [] (Hline o pending HP)) end.
Qed.

Lemma observe_payload_buffers d o :
  obs_line_buffer (observe_payload d o) = obs_line_buffer o /\
  obs_event_data (observe_payload d o) = obs_event_data o /\
  obs_mid_event (observe_payload d o) = obs_mid_event o /\
  obs_pending_cr (observe_payload d o) = obs_pending_cr o.
Proof.
  unfold observe_payload, observe_terminal. destruct (bool_decide _); [done|].
  destruct (from_slice d); [|done]. by destruct (obs_protocol o).
Qed.

Lemma data_value_length line d : data_value line = Some d -> length d + 5 <= length line.
Proof.
  unfold data_value. rewrite fmap_Some. intros (r & Hs & ->). apply strip_bytes_spec in Hs as ->.
  rewrite length_app. change (length (as_bytes "data:")) with 5.
  destruct (strip_bytes (as_bytes " ") r) as [r'|] eqn:Hs'; cbn [from_option id]; [|lia].
  apply strip_bytes_spec in Hs' as ->. rewrite length_app. cbn. lia.
Qed.

(** The effect of one line on the framing state. *)
Lemma observe_line_buffers line o :
  obs_line_buffer (obs_observe_line line o) = obs_line_buffer o /\
  length (obs_event_data (obs_observe_line line o)) <= length line + length (obs_event_data o) /\
  (obs_mid_event (obs_observe_line line o) = false ->
   obs_event_data (obs_observe_line line o) = [] \/
   obs_mid_event o = false /\ obs_event_data (obs_observe_line line o) = obs_event_data o).
Proof.
  unfold obs_observe_line, obs_dispatch_event. case_bool_decide as Hl.
  - case_bool_decide as He; [simpl; rewrite He; simpl; split_and!; [done|lia|by left]|].
    destruct (observe_payload_buffers (pop_lf (obs_event_data o)) (set_event_data [] o)) as (H1 & H2 & _ & _).
    simpl. rewrite H1, H2. simpl. split_and!; [done|lia|by left].
  - destruct (is_comment line); [split_and!; [done|lia|auto]|].
    destruct (data_value line) as [d|] eqn:Hv; [|split_and!; [done|cbn; lia|done]].
    apply data_value_length in Hv. split_and!; [done| |done]. cbn. rewrite !length_app. cbn. lia.
Qed.

Definition buffered (o : SseFramingObserver) : nat :=
  length (obs_line_buffer o) + length (obs_event_data o).

(** The framing invariant: bounded buffers, a line buffer without line feeds, and
    data waiting only inside an event. *)
Record framing_ok (o : SseFramingObserver) : Prop := {
  fo_cap : (Z.of_nat (buffered o) <= MAX_OBSERVED_EVENT_BYTES)%Z;
  fo_line : lf ∉ obs_line_buffer o;
  fo_mid : obs_mid_event o = false -> obs_event_data o = [];
}.

Lemma with_protocol_ok p : framing_ok (with_protocol p).
Proof. split; [done|apply not_elem_of_nil|done]. Qed.

Lemma observe_ok chunk o : framing_ok o -> framing_ok (observe chunk o).
Proof.
  apply observe_bytes_preserves; clear.
  - intros o [H1 H2 H3]. by split.
  - intros o pending [H1 H2 H3].
    destruct (observe_line_buffers (obs_line_buffer o) (set_line [] pending o)) as (Hb & Hl & Hm).
    split; unfold buffered in *; [| |].
    + rewrite Hb. simpl in *. lia.
    + rewrite Hb. apply not_elem_of_nil.
    + intros Hmid. destruct (Hm Hmid) as [?|[? ->]]; [done|]. by apply H3.
  - intros o b [H1 H2 H3] Hb Hc. split; [|simpl; set_solver|done].
    unfold over_cap in Hc. apply Z.ltb_ge in Hc. exact Hc.
  - intros o line _. split; [done|apply not_elem_of_nil|done].
Qed.
#[local] Hint Resolve with_protocol_ok observe_ok : invariants.

(** Whatever an upstream sends and however it is cut, the observer never
    holds more than [MAX_OBSERVED_EVENT_BYTES] of it, and between events it holds
    no event data at all. *)
Theorem observer_bounded protocol chunks :
  let o := observe_chunks chunks (with_protocol protocol) in
  (Z.of_nat (length (obs_line_buffer o) + length (obs_event_data o)) <= MAX_OBSERVED_EVENT_BYTES)%Z /\
  (at_event_boundary o = true -> obs_line_buffer o = [] /\ obs_event_data o = []).
Proof.
  intros o. assert (framing_ok o) as [H1 H2 H3].
  { subst o. unfold observe_chunks. generalize (with_protocol_ok protocol).
    generalize (with_protocol protocol). induction chunks as [|c cs IH]; intros o Ho; [done|].
    apply IH. auto with invariants. }
  split; [exact H1|]. unfold at_event_boundary. rewrite andb_true_iff, bool_decide_eq_true, negb_true_iff.
  intros [? ?]. auto.
Qed.
(** ** From bytes to lines *)
Fixpoint observe_lines (lines : list bytes) (o : SseFramingObserver) : SseFramingObserver :=
  match lines with
  | [] => o
  | l :: lines' =>
      let o := obs_observe_line l o in
      if obs_done o then o else observe_lines lines' o
  end.

Definition drop_lf (s : bytes) : bytes :=
  match s with d :: s' => if bool_decide (d = lf) then s' else s | [] => [] end.

Lemma normalize_cr s : normalize_breaks (cr :: s) = lf :: normalize_breaks (drop_lf s).
Proof. simpl. f_equal. destruct s as [|d s]; [done|]. simpl. by destruct (bool_decide (d = lf)). Qed.

Lemma observe_payload_set_line d b p o : observe_payload d (set_line b p o) = set_line b p (observe_payload d o).
Proof.
  unfold observe_payload, observe_terminal. simpl. destruct (bool_decide _); [done|].
  destruct (from_slice d); [|done]. by destruct (obs_protocol o).
Qed.
Lemma observe_line_set_line l b p o : obs_observe_line l (set_line b p o) = set_line b p (obs_observe_line l o).
Proof.
  unfold obs_observe_line, obs_dispatch_event. simpl. destruct (bool_decide (l = [])).
  - destruct (bool_decide _); [done|].
    change (set_event_data [] (set_line b p o)) with (set_line b p (set_event_data [] o)).
    by rewrite observe_payload_set_line.
  - destruct (is_comment l); [done|]. by destruct (data_value l).
Qed.

(** The observer reads exactly the lines of the normalized stream. *)
Lemma observe_bytes_lines s o :
  obs_done o = false -> lf ∉ obs_line_buffer o -> obs_observation_failed (observe_bytes s o) = false ->
  let split := split_lines (obs_line_buffer o ++ normalize_breaks (if obs_pending_cr o then drop_lf s else s)) in
  set_line [] false (observe_bytes s o) = observe_lines split.1 (set_line [] false o) /\
  obs_line_buffer (observe_bytes s o) = (if obs_done (observe_bytes s o) then [] else split.2).
Proof.
  revert o. induction s as [|b s IH]; intros o Hd Hlf Hu; simpl.
  - assert (normalize_breaks (if obs_pending_cr o then [] else []) = []) as -> by (by destruct (obs_pending_cr o)).
    rewrite app_nil_r, split_lines_rest, Hd by done. done.
  - simpl in Hu. destruct (obs_pending_cr o && bool_decide (b = lf)) eqn:Hskip.
    { apply andb_prop in Hskip as [Hp Hb]. rewrite Hp in *. rewrite Hb.
      destruct (IH (set_line (obs_line_buffer o) false o)) as [IH1 IH2]; auto. }
    assert ((if obs_pending_cr o then if bool_decide (b = lf) then s else b :: s else b :: s) = b :: s) as ->
      by (destruct (obs_pending_cr o), (bool_decide (b = lf)); done).
    destruct (bool_decide (b = cr) || bool_decide (b = lf)) eqn:Hbr.
    + set (o1 := obs_observe_line _ (set_line [] (bool_decide (b = cr)) _)) in *.
      assert (obs_line_buffer o1 = []) as Hlb by (apply observe_line_buffers).
      assert (obs_pending_cr o1 = bool_decide (b = cr)) as Hpc.
      { unfold o1. by rewrite observe_line_set_line. }
      assert (set_line [] false o1 = obs_observe_line (obs_line_buffer o) (set_line [] false o)) as Ho1.
      { unfold o1. by rewrite !observe_line_set_line. }
      assert (obs_done (obs_observe_line (obs_line_buffer o) (set_line [] false o)) = obs_done o1) as Hdone
        by (by rewrite <- Ho1).
      assert (normalize_breaks (b :: s) = lf :: normalize_breaks (if bool_decide (b = cr) then drop_lf s else s)) as Hn.
      { apply orb_prop in Hbr as [Hx%bool_decide_eq_true|Hx%bool_decide_eq_true]; subst b; [apply normalize_cr|done]. }
      rewrite Hn, split_lines_line by done. cbn [fst snd observe_lines].
      rewrite Hdone. destruct (obs_done o1) eqn:Hd1; [by rewrite Hd1, Hlb|].
      destruct (over_cap o1); [done|].
      destruct (IH o1) as [IH1 IH2]; [done|rewrite Hlb; apply not_elem_of_nil|done|].
      rewrite Hlb, Hpc in IH1, IH2. rewrite IH1, IH2, Ho1. done.
    + apply orb_false_iff in Hbr as [Hc Hl]. cbn [normalize_breaks]. rewrite Hc. apply bool_decide_eq_false in Hl.
      destruct (over_cap _); [done|].
      destruct (IH (set_line (obs_line_buffer o ++ [b]) false o)) as [IH1 IH2]; [done|simpl; set_solver|done|].
      cbn [obs_line_buffer obs_pending_cr set_line] in IH1, IH2. rewrite <- app_assoc in IH1, IH2.
      split; [exact IH1|exact IH2].
Qed.
(** ** From lines to events *)
Fixpoint judge (events : list bytes) (o : SseFramingObserver) : SseFramingObserver :=
  match events with
  | [] => o
  | data :: events' =>
      let o := observe_payload data o in
      if obs_done o then o else judge events' o
  end.

(** The conclusions alone, without the framing state. *)
Definition cleared (o : SseFramingObserver) : SseFramingObserver :=
  set_event_data [] (set_mid_event false (set_line [] false o)).

Lemma cleared_payload d o : cleared (observe_payload d o) = observe_payload d (cleared o).
Proof.
  unfold observe_payload, observe_terminal. simpl. destruct (bool_decide _); [done|].
  destruct (from_slice d); [|done]. by destruct (obs_protocol o).
Qed.

(** The [data:] values of an event's lines, and the buffer that holds them. *)
Definition event_values (lines : list bytes) : list bytes :=
  omap (fun l => if is_comment l then None else data_value l) lines.
Definition value_buffer (vs : list bytes) : bytes := concat ((fun v => v ++ [lf]) <$> vs).

Lemma sse_event_data_values lines :
  sse_event_data lines =
  match event_values lines with [] => None | v :: vs => Some (v ++ concat (cons lf <$> vs)) end.
Proof.
  unfold sse_event_data.
  set (step := fun '(found, out) line =>
      if is_comment line then (found, out)
      else match data_value line with
           | None => (found, out)
           | Some data => (true, (if found : bool then out ++ [lf] else out) ++ data)
           end).
  assert (forall ls out, foldl step (true, out) ls = (true, out ++ concat (cons lf <$> event_values ls))) as Hgo.
  { intros ls. induction ls as [|l ls IH]; intros out; simpl; [by rewrite app_nil_r|].
    destruct (is_comment l); [by rewrite IH|]. destruct (data_value l); simpl; rewrite IH; [|done].
    f_equal. simpl. by rewrite <- !app_assoc. }
  induction lines as [|l ls IH]; simpl; [done|].
  destruct (is_comment l); [exact IH|]. destruct (data_value l); simpl; [by rewrite Hgo|exact IH].
Qed.

Lemma pop_value_buffer v vs : pop_lf (value_buffer (v :: vs)) = v ++ concat (cons lf <$> vs).
Proof.
  assert (value_buffer (v :: vs) = (v ++ concat (cons lf <$> vs)) ++ [lf]) as ->.
  { unfold value_buffer. revert v. induction vs as [|w vs IH]; intros v; [simpl; by rewrite !app_nil_r|].
    rewrite fmap_cons, concat_cons, IH, fmap_cons, concat_cons. by rewrite <- !app_assoc. }
  unfold pop_lf. rewrite last_snoc, bool_decide_eq_true_2 by done. apply removelast_last.
Qed.

Lemma split_events_blank pend ls :
  [] ∉ pend -> split_events (pend ++ [] :: ls) = (pend :: (split_events ls).1, (split_events ls).2).
Proof.
  induction pend as [|l pend IH]; intros Hp; simpl; [by destruct (split_events ls)|].
  rewrite IH by set_solver. by rewrite bool_decide_eq_false_2 by set_solver.
Qed.
Lemma split_events_rest pend : [] ∉ pend -> split_events pend = ([], pend).
Proof.
  induction pend as [|l pend IH]; intros Hp; simpl; [done|].
  rewrite IH by set_solver. by rewrite bool_decide_eq_false_2 by set_solver.
Qed.

(** The observer inside an event whose lines so far are [pend]. *)
Record in_event (pend : list bytes) (o : SseFramingObserver) : Prop := {
  ie_lines : [] ∉ pend;
  ie_data : obs_event_data o = value_buffer (event_values pend);
  ie_mid : obs_mid_event o = negb (forallb is_comment pend);
}.

Lemma field_line pend l o : l ≠ [] -> in_event pend o ->
  in_event (pend ++ [l]) (obs_observe_line l o) /\ cleared (obs_observe_line l o) = cleared o.
Proof.
  intros Hl [H1 H2 H3]. unfold obs_observe_line. rewrite bool_decide_eq_false_2 by done.
  assert ([] ∉ pend ++ [l]) by set_solver.
  assert (event_values (pend ++ [l]) =
    event_values pend ++ (if is_comment l then [] else match data_value l with Some v => [v] | None => [] end)) as Hv.
  { unfold event_values. rewrite omap_app. simpl. destruct (is_comment l); [done|]. by destruct (data_value l). }
  assert (negb (forallb is_comment (pend ++ [l])) = obs_mid_event o || negb (is_comment l)) as Hm.
  { rewrite forallb_app, H3. simpl. rewrite andb_true_r. by rewrite negb_andb. }
  destruct (is_comment l).
  - split; [split|done]; [done| |]; [by rewrite Hv, app_nil_r|by rewrite Hm, orb_false_r].
  - destruct (data_value l) as [v|]; (split; [split|done]; [done| |by rewrite Hm, orb_true_r]); rewrite Hv; simpl.
    + unfold value_buffer in *. rewrite H2, fmap_app, concat_app. simpl. by rewrite app_nil_r.
    + by rewrite app_nil_r.
Qed.

Lemma blank_line pend o : in_event pend o ->
  in_event [] (obs_observe_line [] o) /\
  cleared (obs_observe_line [] o) =
    match sse_event_data pend with Some d => observe_payload d (cleared o) | None => cleared o end.
Proof.
  intros [H1 H2 H3]. unfold obs_observe_line. rewrite bool_decide_eq_true_2 by done.
  unfold obs_dispatch_event. rewrite sse_event_data_values, H2.
  destruct (event_values pend) as [|v vs]; [split; [split; [apply not_elem_of_nil|exact H2|done]|done]|].
  rewrite bool_decide_eq_false_2; [|unfold value_buffer; simpl; by destruct v].
  rewrite pop_value_buffer. set (d := v ++ _).
  destruct (observe_payload_buffers d (set_event_data [] o)) as (_ & He & _ & _).
  split; [split; [apply not_elem_of_nil|exact He|done]|].
  change (cleared (set_mid_event false ?x)) with (cleared x). by rewrite cleared_payload.
Qed.

Lemma obs_done_cleared o : obs_done (cleared o) = obs_done o.
Proof. done. Qed.

Lemma observe_lines_events ls pend o :
  obs_done o = false -> in_event pend o ->
  let split := split_events (pend ++ ls) in
  cleared (observe_lines ls o) = judge (omap sse_event_data split.1) (cleared o) /\
  obs_mid_event (observe_lines ls o) =
    negb (obs_done (observe_lines ls o) || forallb is_comment split.2).
Proof.
  revert pend o. induction ls as [|l ls IH]; intros pend o Hd Hin; simpl.
  - rewrite app_nil_r, split_events_rest by apply Hin. simpl. split; [done|].
    by rewrite (ie_mid _ _ Hin), Hd.
  - destruct (decide (l = [])) as [->|Hl].
    + destruct (blank_line pend o Hin) as [Hin' Hc]. rewrite split_events_blank by apply Hin. simpl.
      pose proof (IH [] (obs_observe_line [] o)) as IHb. simpl in IHb. rewrite Hc in IHb.
      pose proof (obs_done_cleared (obs_observe_line [] o)) as Hdc. rewrite Hc in Hdc.
      destruct (sse_event_data pend) as [d|]; simpl; rewrite ?Hdc.
      * destruct (obs_done (obs_observe_line [] o)) eqn:Hd'; [|by apply IHb].
        split; [exact Hc|]. by rewrite (ie_mid _ _ Hin'), Hd'.
      * rewrite obs_done_cleared, Hd in Hdc. rewrite <- Hdc in *. by apply IHb.
    + destruct (field_line pend l o Hl Hin) as [Hin' Hc].
      assert (obs_done (obs_observe_line l o) = false) as Hd' by (by rewrite <- obs_done_cleared, Hc).
      rewrite Hd'. destruct (IH (pend ++ [l]) _ Hd' Hin') as [IH1 IH2].
      rewrite Hc in IH1. rewrite <- app_assoc in IH1, IH2. done.
Qed.

(** A stream within the cap is always judged. *)
Lemma observe_line_failed l o : obs_observation_failed (obs_observe_line l o) = obs_observation_failed o.
Proof.
  unfold obs_observe_line, obs_dispatch_event, observe_payload, observe_terminal.
  repeat (case_bool_decide; try done); simpl; [|destruct (is_comment l); [done|by destruct (data_value l)]].
  destruct (from_slice _); [|done]. by destruct (obs_protocol o).
Qed.

Lemma observe_usable chunk o :
  obs_observation_failed o = false ->
  (Z.of_nat (buffered o + length chunk) <= MAX_OBSERVED_EVENT_BYTES)%Z ->
  obs_observation_failed (observe chunk o) = false.
Proof.
  unfold observe. destruct (obs_done o); [done|]. revert o.
  induction chunk as [|b s IH]; intros o Hf Hc; simpl; [done|]. unfold buffered in *. simpl in Hc.
  destruct (obs_pending_cr o && bool_decide (b = lf)); [apply IH; [done|simpl; lia]|].
  destruct (bool_decide (b = cr) || bool_decide (b = lf)).
  - set (o1 := obs_observe_line _ _).
    assert (obs_observation_failed o1 = false) as Hf1 by (unfold o1; by rewrite observe_line_failed).
    assert (length (obs_line_buffer o1) + length (obs_event_data o1) <=
      length (obs_line_buffer o) + length (obs_event_data o)) as Hle.
    { unfold o1. match goal with |- context [obs_observe_line ?l ?x] =>
        destruct (observe_line_buffers l x) as (-> & H & _) end. simpl in *. lia. }
    destruct (obs_done o1); [done|].
    assert (over_cap o1 = false) as -> by (apply Z.ltb_ge; lia). apply IH; [done|lia].
  - assert (over_cap (set_line (obs_line_buffer o ++ [b]) false o) = false) as Hcap.
    { apply Z.ltb_ge. simpl. rewrite length_app. simpl. lia. }
    simpl in Hcap. unfold over_cap in *. simpl in *. rewrite Hcap.
    apply IH; [done|]. simpl. rewrite length_app. simpl. lia.
Qed.


(** ** Text appended between events *)
Lemma normalize_no_cr s : cr ∉ s -> normalize_breaks s = s.
Proof.
  induction s as [|c s IH]; intros Hs; simpl; [done|].
  rewrite bool_decide_eq_false_2 by set_solver. by rewrite IH by set_solver.
Qed.

(** A blank first line is the second half of a CRLF when a CR is pending. *)
Definition skip_break (pending : bool) (ls : list bytes) : list bytes :=
  if pending then match ls with [] :: ls' => ls' | _ => ls end else ls.

(** Lines appended to an observed stream that is between events are read as events of
    their own, whatever the line break before them was. *)
Lemma observe_appended_lines ls o :
  framing_ok o -> obs_done o = false -> at_event_boundary o = true ->
  Forall (fun l => lf ∉ l /\ cr ∉ l) ls ->
  (Z.of_nat (length (unlines ls)) <= MAX_OBSERVED_EVENT_BYTES)%Z ->
  let o' := observe (unlines ls) o in
  let ls := skip_break (obs_pending_cr o) ls in
  obs_observation_failed o' = false /\
  cleared o' = judge (omap sse_event_data (split_events ls).1) (cleared o) /\
  ((split_events ls).2 = [] -> at_event_boundary o' = true).
Proof.
  intros [Hcap Hlf Hmid] Hd Hb Hls Hlen.
  unfold at_event_boundary in Hb. apply andb_prop in Hb as [Hline%bool_decide_eq_true Hm%negb_true_iff].
  assert (obs_observation_failed o = false) as Hf by (unfold obs_done in Hd; by apply orb_false_iff in Hd as [? _]).
  assert (obs_observation_failed (observe (unlines ls) o) = false) as Hu.
  { apply observe_usable; [done|]. unfold buffered. by rewrite Hline, (Hmid Hm). }
  assert (Hno : forall ls : list bytes, Forall (fun l => lf ∉ l /\ cr ∉ l) ls ->
    split_lines (normalize_breaks (unlines ls)) = (ls, [])).
  { intros l' Hl'. rewrite normalize_no_cr, split_lines_unlines; [done| |].
    - eapply Forall_impl; [exact Hl'|]. by intros ? [? _].
    - unfold unlines. induction Hl' as [|l l' [_ Hc] _ IH]; simpl; [apply not_elem_of_nil|].
      rewrite !not_elem_of_app. split_and!; [done| |done]. rewrite list_elem_of_singleton. by vm_compute. }
  unfold observe in *. rewrite Hd in *.
  destruct (observe_bytes_lines (unlines ls) o Hd Hlf Hu) as [Hl Hrest]. rewrite Hline in Hl, Hrest. simpl in Hl, Hrest.
  set (ls' := skip_break (obs_pending_cr o) ls).
  assert (split_lines (normalize_breaks (if obs_pending_cr o then drop_lf (unlines ls) else unlines ls)) = (ls', []))
    as Hsplit.
  { unfold ls', skip_break. destruct (obs_pending_cr o); [|by apply Hno]. destruct ls as [|[|c l] ls0]; [done| |].
    - apply Forall_cons in Hls as [_ ?]. by apply (Hno ls0).
    - rewrite <- Hno by done. f_equal. f_equal. unfold unlines. simpl.
      apply Forall_cons in Hls as [[Hc _] _]. by rewrite bool_decide_eq_false_2 by set_solver. }
  rewrite Hsplit in Hl, Hrest. simpl in Hl, Hrest. split; [done|].
  destruct (observe_lines_events ls' [] (set_line [] false o)) as [He Hmid'];
    [done|split; [apply not_elem_of_nil|exact (Hmid Hm)|exact Hm]|].
  simpl in He, Hmid'. rewrite <- Hl in He, Hmid'. split; [exact He|]. intros Hnil. rewrite Hnil in Hmid'.
  change (obs_mid_event (set_line [] false ?x)) with (obs_mid_event x) in Hmid'.
  cbn [forallb] in Hmid'. rewrite orb_true_r in Hmid'. unfold at_event_boundary. rewrite Hmid', Hrest.
  rewrite bool_decide_eq_true_2; [done|]. by destruct (obs_done (observe_bytes (unlines ls) o)).
Qed.

(** Recorded sequence numbers are [u64]s. *)
Lemma sequence_number_range s o :
  (forall n, obs_last_sequence_number o = Some n -> is_u64 n) ->
  forall n, obs_last_sequence_number (observe s o) = Some n -> is_u64 n.
Proof.
  apply (observe_bytes_preserves (fun o => forall n, obs_last_sequence_number o = Some n -> is_u64 n)); clear; auto.
  intros o pending Ho n. unfold obs_observe_line. case_bool_decide; [|].
  2: { destruct (is_comment _); [apply Ho|]. destruct (data_value _); apply Ho. }
  simpl. unfold obs_dispatch_event. case_bool_decide; [apply Ho|]. unfold observe_payload.
  case_bool_decide; [apply Ho|]. destruct (from_slice _) as [v|] eqn:Hv; [|apply Ho]. simpl.
  apply from_slice_wf in Hv. unfold observe_terminal. simpl.
  set (seq := get "sequence_number" v ≫= as_u64).
  assert (forall m, seq = Some m -> is_u64 m) as Hseq.
  { intros m. unfold seq. destruct v as [| | | | |members]; try done. simpl.
    destruct (obj_get _ _) as [w|] eqn:Hg; [|done]. simpl. inversion Hv as [| | | | |? _ HF]. pose proof (wf_obj_get _ _ _ HF Hg) as Hw.
    destruct w as [| |[k| |]| | |]; try done. intros [= <-]. inversion Hw as [| |? Hn| | |]. exact Hn. }
  clearbody seq. destruct (obs_protocol o), seq as [m|]; simpl; try apply Ho;
    destruct (obs_last_sequence_number o) as [k|] eqn:Hk; intros [= <-]; try (by apply Hseq);
    specialize (Hseq m eq_refl); specialize (Ho k eq_refl); unfold is_u64 in *; lia.
Qed.
End Facts.
#[export] Hint Resolve with_protocol_ok observe_ok : invariants.
