(* ===== verification/Streaming.v ===== *)
(** * Streaming responses (src/aggregator/service/streaming.rs)

    The finalizing stream that stands between the upstream's body and the client:
    every chunk is observed, optionally re-encrypted, hashed and handed on; at the
    end a missing terminator or an error event may be appended, what the
    transformer still holds is flushed, and the receipt over the bytes that went
    out is signed and published.

    One [poll] of the Rust stream is one step on an explicit state.  The inner
    stream is the sequence of answers it will give when polled.  The receipt
    store, the session store and the receipt journal are shared with every other
    request, so each poll runs in whatever [World] it finds; the wire hasher is
    the bytes it has absorbed. *)
From S2P Require Import Prelude Json External Sample Digest Identity Receipt ReceiptStore Deadlines.
From S2P Require Import RelyingParty Session SessionStore Errors Retention SseProtocol SseFraming.

(** e2ee_crypto.rs: the authenticated encryption of one event's payload. *)
Class StreamCipher := {
  E2eeRequestContext : Type;
  encrypt_e2ee_stream_payload : bytes -> E2eeRequestContext -> string -> result E2eeError bytes;
}.

(** ** The encrypting transformer *)
Section Transformer.
Context {SC : StreamCipher}.

Record E2eeSseTransformer : Type := mkTransformer {
  et_line_buffer : bytes;
  et_event_lines : list bytes;
  et_ctx : E2eeRequestContext;
  et_endpoint_path : string;
}.
Definition transformer_new (ctx : E2eeRequestContext) (endpoint_path : string) : E2eeSseTransformer :=
  mkTransformer [] [] ctx endpoint_path.

Definition is_sse_data_line (line : bytes) : bool :=
  bool_decide (is_Some (strip_bytes (as_bytes "data:") line)).
Definition serialize_original_sse_event (lines : list bytes) : bytes :=
  concat ((fun line => line ++ [lf]) <$> lines) ++ [lf].

Definition et_dispatch_event (t : E2eeSseTransformer) : E2eeSseTransformer * result E2eeError bytes :=
  let lines := et_event_lines t in
  let t := mkTransformer (et_line_buffer t) [] (et_ctx t) (et_endpoint_path t) in
  if bool_decide (lines = []) then (t, Ok [])
  else match sse_event_data lines with
  | None => (t, Ok (serialize_original_sse_event lines))
  | Some data =>
      if bool_decide (data = as_bytes "[DONE]") then (t, Ok (serialize_original_sse_event lines))
      else match encrypt_e2ee_stream_payload data (et_ctx t) (et_endpoint_path t) with
      | Err e => (t, Err e)
      | Ok encrypted_payload =>
          (t, Ok (concat ((fun line => line ++ [lf]) <$> filter (fun l => is_sse_data_line l = false) lines) ++
                  as_bytes "data: " ++ encrypted_payload ++ [lf; lf]))
      end
  end.

Definition et_observe_line (line : bytes) (t : E2eeSseTransformer) : E2eeSseTransformer * result E2eeError bytes :=
  if bool_decide (line = []) then et_dispatch_event t
  else (mkTransformer (et_line_buffer t) (et_event_lines t ++ [line]) (et_ctx t) (et_endpoint_path t), Ok []).

(** [line.pop()] when the last byte is a carriage return. *)
Definition pop_cr (line : bytes) : bytes :=
  if bool_decide (last line = Some cr) then removelast line else line.

Fixpoint push_bytes (chunk out : bytes) (t : E2eeSseTransformer) : E2eeSseTransformer * result E2eeError bytes :=
  match chunk with
  | [] => (t, Ok out)
  | byte :: chunk' =>
      if bool_decide (byte = lf) then
        let line := pop_cr (et_line_buffer t) in
        match et_observe_line line (mkTransformer [] (et_event_lines t) (et_ctx t) (et_endpoint_path t)) with
        | (t, Ok more) => push_bytes chunk' (out ++ more) t
        | (t, Err e) => (t, Err e)
        end
      else
        push_bytes chunk' out
          (mkTransformer (et_line_buffer t ++ [byte]) (et_event_lines t) (et_ctx t) (et_endpoint_path t))
  end.
Definition push_chunk (t : E2eeSseTransformer) (chunk : bytes) : E2eeSseTransformer * result E2eeError bytes :=
  push_bytes chunk [] t.

Definition et_finish (t : E2eeSseTransformer) : E2eeSseTransformer * result E2eeError bytes :=
  let '(t, first) :=
    if bool_decide (et_line_buffer t = []) then (t, Ok [])
    else et_observe_line (pop_cr (et_line_buffer t))
           (mkTransformer [] (et_event_lines t) (et_ctx t) (et_endpoint_path t)) in
  match first with
  | Err e => (t, Err e)
  | Ok out =>
      if bool_decide (et_event_lines t = []) then (t, Ok out)
      else let '(t, r) := et_dispatch_event t in (t, (fun more => out ++ more) <$> r)
  end.
End Transformer.

(** ** The finalizer *)
Inductive Poll (A : Type) : Type :=
| Pending
| Ready (item : option A).
Arguments Pending {A}.
Arguments Ready {A} item.

(** What the inner stream answers when polled; after its last answer it is at its end. *)
Inductive InnerPoll : Type :=
| InnerPending
| InnerChunk (chunk : bytes)
| InnerError (err : string).

Section Finalizer.
Context {SH : Sha} {HX : HexCodec} {SJ : SerdeJson} {KP : KeyProvider} {K : SessionKeeper} {SC : StreamCipher}.

Record FinalizerShared : Type := mkShared {
  fs_wire_hasher : bytes;
  fs_key_id : string;
  fs_requester : option ReceiptOwner;
  fs_receipt_ttl_seconds : Z;
  fs_sse_parser : SseFramingObserver;
  fs_e2ee_transformer : option E2eeSseTransformer;
  fs_request_id : option string;
  fs_upstream_ended : bool;
  fs_finished : bool;
  fs_error_tail_settled : bool;
  fs_broken : bool;
}.

Definition shared_new (key_id : string) (requester : option ReceiptOwner) (receipt_ttl_seconds : Z)
    (endpoint_path : string) (e2ee_transformer : option E2eeSseTransformer) (request_id : option string)
    (is_sse : bool) : FinalizerShared :=
  mkShared [] key_id requester receipt_ttl_seconds
    (if is_sse then observer_new endpoint_path else identifiers_only)
    e2ee_transformer request_id false false false false.

Definition fs_set_wire (wire : bytes) (s : FinalizerShared) : FinalizerShared :=
  mkShared wire (fs_key_id s) (fs_requester s) (fs_receipt_ttl_seconds s) (fs_sse_parser s)
    (fs_e2ee_transformer s) (fs_request_id s) (fs_upstream_ended s) (fs_finished s)
    (fs_error_tail_settled s) (fs_broken s).
Definition fs_set_parser (p : SseFramingObserver) (s : FinalizerShared) : FinalizerShared :=
  mkShared (fs_wire_hasher s) (fs_key_id s) (fs_requester s) (fs_receipt_ttl_seconds s) p
    (fs_e2ee_transformer s) (fs_request_id s) (fs_upstream_ended s) (fs_finished s)
    (fs_error_tail_settled s) (fs_broken s).
Definition fs_set_transformer (t : option E2eeSseTransformer) (s : FinalizerShared) : FinalizerShared :=
  mkShared (fs_wire_hasher s) (fs_key_id s) (fs_requester s) (fs_receipt_ttl_seconds s) (fs_sse_parser s)
    t (fs_request_id s) (fs_upstream_ended s) (fs_finished s) (fs_error_tail_settled s) (fs_broken s).
Definition fs_set_flags (ended finished settled broken : bool) (s : FinalizerShared) : FinalizerShared :=
  mkShared (fs_wire_hasher s) (fs_key_id s) (fs_requester s) (fs_receipt_ttl_seconds s) (fs_sse_parser s)
    (fs_e2ee_transformer s) (fs_request_id s) ended finished settled broken.
Definition fs_finish (s : FinalizerShared) : FinalizerShared :=
  fs_set_flags (fs_upstream_ended s) true (fs_error_tail_settled s) (fs_broken s) s.
Definition fs_end (broken : bool) (s : FinalizerShared) : FinalizerShared :=
  fs_set_flags true (fs_finished s) (fs_error_tail_settled s) (fs_broken s || broken) s.

(** The bytes to append to a stream that ended without its terminal. *)
Definition synthesized_tail (s : FinalizerShared) : option bytes :=
  let o := fs_sse_parser s in
  protocol ← obs_protocol o;
  if obs_saw_terminal o || obs_saw_error o then None
  else if negb (at_event_boundary o) || negb (observation_usable o) then None
  else if negb (fs_broken s) then stream_success_terminator protocol
  else if bool_decide (protocol = OpenaiResponses) &&
          bool_decide (obs_last_sequence_number o = Some u64_max) then None
  else Some (stream_error_tail protocol (fs_request_id s) (obs_last_sequence_number o)).

Definition take_synthesized_tail (s : FinalizerShared) : FinalizerShared * option bytes :=
  if fs_error_tail_settled s then (s, None)
  else
    let s := fs_set_flags (fs_upstream_ended s) (fs_finished s) true (fs_broken s) s in
    (s, synthesized_tail s).

Definition wire_hash (s : FinalizerShared) : string := "sha256:" +:+ hex_encode (sha256 (fs_wire_hasher s)).

(** ** Shared stores, and signing the receipt *)
Record MiddlewareReceiptDraft : Type := mkDraft {
  md_session_lease : option keeper_lease;
  md_builder : ReceiptBuilder;
}.
Record World : Type := mkWorld {
  w_receipts : InMemoryReceiptStore;
  w_sessions : keeper;
  w_journal : option MiddlewareReceiptDraft;
}.

Definition sign_and_store (s : FinalizerShared) (builder : ReceiptBuilder) (lease : option keeper_lease)
    (w : World) (now : Z) : World * result ServiceError unit :=
  match finalize builder (fs_key_id s) with
  | Err e => (w, Err (ServiceReceipt e))
  | Ok receipt =>
      let '((receipts, sessions), r) :=
        store_receipt (w_receipts w) (w_sessions w) receipt (fs_requester s) now (fs_receipt_ttl_seconds s) lease in
      (mkWorld receipts sessions (w_journal w), r)
  end.

(** [trait FinalizingStream]: how a stream finalizes its receipt. *)
Class FinalizingStream := {
  source : Type;
  finalize_receipt : source -> FinalizerShared -> World -> Z -> (source * World) * result ServiceError unit;
}.

(** [ReceiptFinalizingStream]: the builder and the lease travel with the stream. *)
Record DirectSource : Type := mkDirect {
  ds_builder : option ReceiptBuilder;
  ds_session_lease : option keeper_lease;
}.
Definition finalize_direct (d : DirectSource) (s : FinalizerShared) (w : World) (now : Z) :
    (DirectSource * World) * result ServiceError unit :=
  match ds_builder d with
  | None => ((d, w), Err (ServiceReceipt EmptyReceipt))
  | Some builder =>
      let builder := set_chat_id builder (obs_chat_id (fs_sse_parser s)) in
      let builder := set_upstream_verified_model_id builder (obs_model_id (fs_sse_parser s)) in
      match add_response_returned_hash builder (wire_hash s) with
      | Err e => ((mkDirect None (ds_session_lease d), w), Err (ServiceReceipt e))
      | Ok builder =>
          let '(w, r) := sign_and_store s builder (ds_session_lease d) w now in
          ((mkDirect None None, w), r)
      end
  end.
#[export] Instance direct_stream : FinalizingStream := {|
  source := DirectSource;
  finalize_receipt := finalize_direct;
|}.

(** [MiddlewareResponseFinalizingStream]: the draft waits in the journal. *)
Definition finalize_middleware (u : unit) (s : FinalizerShared) (w : World) (now : Z) :
    (unit * World) * result ServiceError unit :=
  match w_journal w with
  | None => ((u, w), Ok ())
  | Some draft =>
      let w := mkWorld (w_receipts w) (w_sessions w) None in
      let builder :=
        match obs_chat_id (fs_sse_parser s) with
        | Some chat_id => set_chat_id (md_builder draft) (Some chat_id)
        | None => md_builder draft
        end in
      match add_response_returned_hash builder (wire_hash s) with
      | Err e => ((u, w), Err (ServiceReceipt e))
      | Ok builder =>
          let '(w, r) := sign_and_store s builder (md_session_lease draft) w now in ((u, w), r)
      end
  end.
Definition middleware_stream : FinalizingStream := {|
  source := unit;
  finalize_receipt := finalize_middleware;
|}.

(** ** The polling loop *)
Section Polling.
Context {FS : FinalizingStream}.

Record Finalizer : Type := mkFinalizer {
  fz_shared : FinalizerShared;
  fz_source : source;
  fz_inner : list InnerPoll;
}.
Definition with_shared (s : FinalizerShared) (f : Finalizer) : Finalizer :=
  mkFinalizer s (fz_source f) (fz_inner f).
Definition Step : Type := (Finalizer * World) * Poll (result ServiceError bytes).

(** A chunk on its way out: encrypted when there is a transformer. *)
Definition to_wire (chunk : bytes) (s : FinalizerShared) : FinalizerShared * result E2eeError bytes :=
  match fs_e2ee_transformer s with
  | None => (s, Ok chunk)
  | Some t => let '(t, r) := push_chunk t chunk in (fs_set_transformer (Some t) s, r)
  end.
Definition fail_e2ee (e : E2eeError) (s : FinalizerShared) (f : Finalizer) (w : World) : Step :=
  ((with_shared (fs_finish s) f, w), Ready (Some (Err (ServiceE2ee e)))).
Definition emit (wire : bytes) (s : FinalizerShared) (f : Finalizer) (w : World) : Step :=
  ((with_shared (fs_set_wire (fs_wire_hasher s ++ wire) s) f, w), Ready (Some (Ok wire))).

Definition poll_finalize (f : Finalizer) (w : World) (now : Z) : Step :=
  let s := fs_finish (fz_shared f) in
  let '((src, w), r) := finalize_receipt (fz_source f) s w now in
  ((mkFinalizer s src (fz_inner f), w),
   match r with Ok _ => Ready None | Err e => Ready (Some (Err e)) end).

Definition poll_flush (f : Finalizer) (w : World) (now : Z) : Step :=
  let s := fz_shared f in
  let may_finish :=
    negb (fs_broken s) && observation_usable (fs_sse_parser s) && at_event_boundary (fs_sse_parser s) in
  let taken := fs_set_transformer None s in
  match fs_e2ee_transformer s with
  | Some t =>
      if may_finish then
        match (et_finish t).2 with
        | Err e => fail_e2ee e taken f w
        | Ok wire =>
            if bool_decide (wire = []) then poll_finalize (with_shared taken f) w now
            else emit wire taken f w
        end
      else poll_finalize (with_shared taken f) w now
  | None => poll_finalize f w now
  end.

(** The branch of a stream whose source has ended. *)
Definition poll_ended (f : Finalizer) (w : World) (now : Z) : Step :=
  let '(s, tail) := take_synthesized_tail (fz_shared f) in
  match tail with
  | None => poll_flush (with_shared s f) w now
  | Some tail =>
      let '(s, r) := to_wire tail s in
      match r with
      | Err e => fail_e2ee e s f w
      | Ok wire =>
          if bool_decide (wire = []) then poll_flush (with_shared s f) w now else emit wire s f w
      end
  end.

Fixpoint poll_loop (inner : list InnerPoll) (f : Finalizer) (w : World) (now : Z) : Step :=
  let s := fz_shared f in
  match inner with
  | [] => poll_ended (mkFinalizer (fs_end false s) (fz_source f) []) w now
  | InnerPending :: inner' => ((mkFinalizer s (fz_source f) inner', w), Pending)
  | InnerError _ :: inner' => poll_ended (mkFinalizer (fs_end true s) (fz_source f) inner') w now
  | InnerChunk chunk :: inner' =>
      let s := fs_set_parser (observe chunk (fs_sse_parser s)) s in
      let '(s', r) := to_wire chunk s in
      let f := mkFinalizer s' (fz_source f) inner' in
      match fs_e2ee_transformer s, r with
      | None, _ => emit chunk s' f w
      | Some _, Err e => fail_e2ee e s' f w
      | Some _, Ok wire => if bool_decide (wire = []) then poll_loop inner' f w now else emit wire s' f w
      end
  end.

Definition poll_finalizing_stream (f : Finalizer) (w : World) (now : Z) : Step :=
  if fs_finished (fz_shared f) then ((f, w), Ready None)
  else if fs_upstream_ended (fz_shared f) then poll_ended f w now
  else poll_loop (fz_inner f) f w now.

(** A schedule gives, for each poll, the world it runs in and the time. *)
Record Observation : Type := mkObservation {
  ob_before : World;
  ob_now : Z;
  ob_after : World;
  ob_item : Poll (result ServiceError bytes);
}.
Fixpoint drive (schedule : list (World * Z)) (f : Finalizer) : list Observation * Finalizer :=
  match schedule with
  | [] => ([], f)
  | (w, now) :: schedule' =>
      let '((f, w'), item) := poll_finalizing_stream f w now in
      let '(obs, f) := drive schedule' f in
      (mkObservation w now w' item :: obs, f)
  end.

Definition item_bytes (item : Poll (result ServiceError bytes)) : bytes :=
  match item with Ready (Some (Ok b)) => b | _ => [] end.
Definition item_failed (item : Poll (result ServiceError bytes)) : bool :=
  match item with Ready (Some (Err _)) => true | _ => false end.
(** The response body as the client received it. *)
Definition delivered (obs : list Observation) : bytes := concat (item_bytes ∘ ob_item <$> obs).
End Polling.
End Finalizer.

(** ** The tail ends the stream *)
Section Tail.
Context {SJ : SerdeJson} {SC : StreamCipher}.

Lemma data_value_text J : data_value (as_bytes "data: " ++ J) = Some J.
Proof. reflexivity. Qed.
Lemma text_no_break (t : bytes) : forallb (fun c => negb (bool_decide (c = lf)) && negb (bool_decide (c = cr))) t = true ->
  lf ∉ t /\ cr ∉ t.
Proof.
  intros Ht. split; intros Hin; apply list_elem_of_In in Hin; apply (proj1 (forallb_forall _ _) Ht) in Hin; by vm_compute in Hin.
Qed.

(** The error event's lines after the leading blank ones. *)
Definition error_lines (protocol : SseProtocol) (J : bytes) : list bytes :=
  match protocol with
  | OpenaiChat => [as_bytes "data: " ++ J; []; as_bytes "data: [DONE]"; []]
  | _ => [as_bytes "event: error"; as_bytes "data: " ++ J; []]
  end.
Lemma stream_error_event_lines protocol status rid last :
  stream_error_event protocol status rid last =
  unlines ([] :: [] :: error_lines protocol (to_vec (stream_error_body protocol status rid last))).
Proof.
  unfold stream_error_event, json_str. destruct protocol; unfold unlines; cbn [error_lines fmap list_fmap concat app];
    rewrite <- ?app_assoc; reflexivity.
Qed.

Lemma judge_saw_error evs o : obs_saw_error o = true -> obs_saw_error (judge evs o) = true.
Proof.
  revert o. induction evs as [|d evs IH]; intros o Ho; simpl; [done|].
  assert (obs_saw_error (observe_payload d o) = true) as Hp.
  { unfold observe_payload, observe_terminal. case_bool_decide; [simpl; by rewrite Ho|].
    destruct (from_slice d); [|done]. destruct (obs_protocol o); simpl; by rewrite Ho. }
  destruct (obs_done _); auto.
Qed.

(** Both readings of the leading line feeds give the same events. *)
Lemma error_lines_events protocol (J : bytes) (blanks : list bytes) :
  blanks = [[]] \/ blanks = [[]; []] ->
  (split_events (blanks ++ error_lines protocol J)).2 = [] /\
  omap sse_event_data (split_events (blanks ++ error_lines protocol J)).1 =
    J :: match protocol with OpenaiChat => [as_bytes "[DONE]"] | _ => [] end.
Proof. intros [-> | ->]; destruct protocol; (split; reflexivity). Qed.

Lemma observe_payload_protocol d o : obs_protocol (observe_payload d o) = obs_protocol o.
Proof.
  unfold observe_payload, observe_terminal. destruct (bool_decide _); [done|].
  destruct (from_slice _); [|done]. by destruct (obs_protocol o) eqn:E; cbn; rewrite ?E.
Qed.
Lemma observe_protocol body o : obs_protocol (observe body o) = obs_protocol o.
Proof.
  apply (observe_bytes_preserves (fun o' => obs_protocol o' = obs_protocol o)); try done.
  intros o1 pending <-. unfold obs_observe_line. destruct (bool_decide (obs_line_buffer o1 = [])).
  - cbn. unfold obs_dispatch_event. destruct (bool_decide _); [done|]. by rewrite observe_payload_protocol.
  - destruct (is_comment _); [done|by destruct (data_value _)].
Qed.

Lemma error_lines_no_break protocol J :
  lf ∉ J -> cr ∉ J -> Forall (fun l => lf ∉ l /\ cr ∉ l) ([] :: [] :: error_lines protocol J).
Proof.
  intros H1 H2. destruct (text_no_break (as_bytes "data: ") eq_refl).
  destruct protocol; repeat (apply Forall_cons; split); try apply Forall_nil; try done;
    try (by apply text_no_break; vm_compute); rewrite !not_elem_of_app; done.
Qed.

(** What the observer makes of the error event. *)
Lemma observe_error_payload protocol status rid last o :
  (0 <= status <= u64_max)%Z -> (forall n, last = Some n -> is_u64 n) ->
  obs_protocol o = Some protocol -> obs_last_sequence_number o = last ->
  let o' := observe_payload (to_vec (stream_error_body protocol status rid last)) o in
  obs_saw_error o' = true /\
  (protocol = OpenaiResponses -> last ≠ Some u64_max ->
   obs_last_sequence_number o' = Some (match last with Some n => (n + 1)%Z | None => 0%Z end)).
Proof.
  intros Hst Hl Hp Hseq. destruct (stream_error_body_printable protocol status rid last Hst Hl) as (Hw & Hff & Hdp).
  unfold observe_payload.
  assert (from_slice (to_vec (stream_error_body protocol status rid last)) =
    Ok (stream_error_body protocol status rid last)) as Hj by (by apply from_slice_to_vec).
  rewrite bool_decide_eq_false_2; [|intros HJ; rewrite HJ in Hj; generalize from_slice_done; by rewrite Hj].
  rewrite Hj. unfold observe_terminal. rewrite Hp. cbn [note_ids note_end obs_saw_error obs_last_sequence_number].
  split.
  - apply orb_true_intro. right. destruct protocol; [reflexivity|reflexivity|by destruct rid].
  - intros -> Hmax. unfold stream_error_body. rewrite responses_error_event_eq, Hseq.
    destruct last as [n|]; [|done]. specialize (Hl n eq_refl). unfold is_u64 in Hl.
    assert (n ≠ u64_max) as Hn by congruence. unfold u64_saturating_add.
    cbn -[u64_max]. rewrite Z.min_l by lia. f_equal. lia.
Qed.

Lemma error_tail_observed o protocol rid :
  framing_ok o -> obs_protocol o = Some protocol -> obs_done o = false -> at_event_boundary o = true ->
  (forall n, obs_last_sequence_number o = Some n -> is_u64 n) ->
  let tail := stream_error_tail protocol rid (obs_last_sequence_number o) in
  (Z.of_nat (length tail) <= MAX_OBSERVED_EVENT_BYTES)%Z ->
  let o' := observe tail o in
  observation_usable o' = true /\ at_event_boundary o' = true /\ obs_saw_error o' = true /\
  (protocol = OpenaiResponses -> obs_last_sequence_number o ≠ Some u64_max ->
   obs_last_sequence_number o' =
     Some (match obs_last_sequence_number o with Some n => (n + 1)%Z | None => 0%Z end)).
Proof.
  intros Hok Hp Hd Hb Hseq. cbn zeta. unfold stream_error_tail. rewrite stream_error_event_lines.
  set (J := to_vec _). intros Hlen.
  destruct (observe_appended_lines ([] :: [] :: error_lines protocol J) o) as (Hf & Hc & Hbd); try done.
  { apply error_lines_no_break; apply to_vec_no_line_break. }
  assert (skip_break (obs_pending_cr o) ([] :: [] :: error_lines protocol J) =
    (if obs_pending_cr o then [[]] else [[]; []]) ++ error_lines protocol J) as Hls by (by destruct (obs_pending_cr o)).
  cbn zeta in Hc, Hbd. rewrite Hls in Hc, Hbd.
  destruct (error_lines_events protocol J (if obs_pending_cr o then [[]] else [[]; []])) as [Hnil Hevs];
    [destruct (obs_pending_cr o); auto|].
  rewrite Hevs in Hc. set (o1 := observe _ o) in *. clearbody o1. cbn [judge] in Hc.
  destruct (observe_error_payload protocol 502 rid (obs_last_sequence_number o) (cleared o))
    as [Herr Hnum]; [unfold u64_max; lia|done|done|done|]. fold J in Herr, Hnum.
  split_and!; [by unfold observation_usable; rewrite Hf|by apply Hbd| |].
  - change (obs_saw_error (cleared o1) = true). rewrite Hc. case_bool; [done|by apply judge_saw_error].
  - intros -> Hmax. change (obs_last_sequence_number o1) with (obs_last_sequence_number (cleared o1)).
    rewrite Hc. cbn [judge]. case_bool; by apply Hnum.
Qed.

Lemma terminator_observed o :
  framing_ok o -> obs_protocol o = Some OpenaiChat -> obs_done o = false -> at_event_boundary o = true ->
  let o' := observe (as_bytes "data: [DONE]" ++ [lf; lf]) o in
  observation_usable o' = true /\ at_event_boundary o' = true /\ obs_saw_terminal o' = true /\
  obs_saw_error o' = obs_saw_error o.
Proof.
  intros Hok Hp Hd Hb. cbn zeta.
  change (as_bytes "data: [DONE]" ++ [lf; lf]) with (unlines [as_bytes "data: [DONE]"; []]).
  destruct (observe_appended_lines [as_bytes "data: [DONE]"; []] o) as (Hf & Hc & Hbd); try done.
  { repeat (apply Forall_cons_2; [apply text_no_break; by vm_compute|]). apply Forall_nil_2. }
  assert (skip_break (obs_pending_cr o) [as_bytes "data: [DONE]"; []] = [as_bytes "data: [DONE]"; []]) as Hls
    by (by destruct (obs_pending_cr o)).
  cbn zeta in Hc, Hbd. rewrite Hls in Hc, Hbd.
  change (omap sse_event_data (split_events [as_bytes "data: [DONE]"; []]).1) with [as_bytes "[DONE]"] in Hc.
  set (o1 := observe _ o) in *. clearbody o1. cbn [judge] in Hc.
  unfold observe_payload in Hc. rewrite bool_decide_eq_true_2 in Hc by done.
  split_and!; [by unfold observation_usable; rewrite Hf|by apply Hbd| |].
  - change (obs_saw_terminal (cleared o1) = true). rewrite Hc.
    cbn [obs_protocol cleared set_event_data set_mid_event set_line]. rewrite Hp, bool_decide_eq_true_2 by done.
    case_bool; apply orb_true_r.
  - change (obs_saw_error (cleared o1) = obs_saw_error o). rewrite Hc. case_bool; apply orb_false_r.
Qed.

(** Bytes the finalizer appends end the stream for the client.  Whenever it
    appends to an observed body, the extended body is read to an event boundary and
    is judged: after a clean end the protocol's terminal has been delivered and no
    error reported, after a failure the error has been reported, and the error of a
    numbered protocol carries the successor of the last number. *)
Theorem synthesized_tail_ends_stream (s : FinalizerShared) protocol body tail :
  fs_sse_parser s = observe body (with_protocol (Some protocol)) ->
  synthesized_tail s = Some tail ->
  (Z.of_nat (length tail) <= MAX_OBSERVED_EVENT_BYTES)%Z ->
  let last := obs_last_sequence_number (fs_sse_parser s) in
  let o' := observe (body ++ tail) (with_protocol (Some protocol)) in
  observation_usable o' = true /\ at_event_boundary o' = true /\
  (if fs_broken s
   then obs_saw_error o' = true /\
        (protocol = OpenaiResponses ->
         obs_last_sequence_number o' = Some (match last with Some n => n + 1 | None => 0 end)%Z)
   else obs_saw_terminal o' = true /\ obs_saw_error o' = false).
Proof.
  intros Hparser Htail Hlen last o'. unfold o'. rewrite <- observe_app, <- Hparser. clear o'.
  assert (framing_ok (fs_sse_parser s)) as Hok by (rewrite Hparser; auto with invariants).
  assert (obs_protocol (fs_sse_parser s) = Some protocol) as Hp by (by rewrite Hparser, observe_protocol).
  assert (forall n, last = Some n -> is_u64 n) as Hseq.
  { unfold last. rewrite Hparser. by apply sequence_number_range. }
  unfold synthesized_tail in Htail. subst last. set (o := fs_sse_parser s) in *. clearbody o.
  rewrite Hp in Htail. cbn [mbind option_bind] in Htail.
  destruct (obs_saw_terminal o) eqn:Ht; [done|]. destruct (obs_saw_error o) eqn:He; [done|]. cbn [orb] in Htail.
  destruct (at_event_boundary o) eqn:Hb; [|done]. destruct (observation_usable o) eqn:Hu; [|done].
  cbn [negb orb] in Htail. unfold observation_usable in Hu. apply negb_true_iff in Hu.
  assert (obs_done o = false) as Hd.
  { unfold obs_done. rewrite Hu, Hp, Ht, He, (bool_decide_eq_false_2 (Some protocol = None)) by done. cbn. by rewrite andb_false_r. }
  destruct (fs_broken s); cbn [negb] in Htail.
  - destruct (bool_decide (protocol = OpenaiResponses) && _) eqn:Hmax; [done|]. injection Htail as <-.
    destruct (error_tail_observed o protocol (fs_request_id s)) as (? & ? & ? & Hnum); try done.
    split_and!; [done..|]. intros ->. apply Hnum; [done|].
    apply andb_false_iff in Hmax as [Hmax|Hmax]; by apply bool_decide_eq_false in Hmax.
  - destruct protocol; [|done..]. injection Htail as <-.
    destruct (terminator_observed o) as (? & ? & ? & Herr); try done. split_and!; [done..|exact (eq_trans Herr He)].
Qed.
End Tail.

(** ** Every poll makes progress, and the hash keeps up with the wire *)
Section Progress.
Context {SH : Sha} {HX : HexCodec} {SJ : SerdeJson} {KP : KeyProvider} {K : SessionKeeper} {SC : StreamCipher}.
Section Outcomes.
Context {FS : FinalizingStream}.

Definition config (s : FinalizerShared) : string * option ReceiptOwner * Z :=
  (fs_key_id s, fs_requester s, fs_receipt_ttl_seconds s).

(** An upper bound on the polls the stream still answers before it is finished. *)
Definition polls_left (f : Finalizer) : nat :=
  let s := fz_shared f in
  if fs_finished s then 0
  else if fs_upstream_ended s then
    1 + (if fs_error_tail_settled s then 0 else 1) + match fs_e2ee_transformer s with Some _ => 1 | None => 0 end
  else 4 + length (fz_inner f).

(** What one poll can do: go on, fail, or finalize the receipt over what it has
    hashed so far and end. *)
Inductive outcome (wire : bytes) (cfg : string * option ReceiptOwner * Z) (src : source) (bound : nat)
    (w : World) (now : Z) : Step -> Prop :=
| out_continue f' item :
    fs_finished (fz_shared f') = false -> fs_wire_hasher (fz_shared f') = wire ++ item_bytes item ->
    config (fz_shared f') = cfg -> fz_source f' = src -> item_failed item = false ->
    polls_left f' < bound ->
    outcome wire cfg src bound w now ((f', w), item)
| out_failed f' w' e :
    fs_finished (fz_shared f') = true ->
    outcome wire cfg src bound w now ((f', w'), Ready (Some (Err e)))
| out_published f' s src' w' :
    fs_finished (fz_shared f') = true -> fs_wire_hasher s = wire -> config s = cfg ->
    finalize_receipt src s w now = ((src', w'), Ok ()) ->
    outcome wire cfg src bound w now ((f', w'), Ready None).

Abbreviation outcome_of f := (outcome (fs_wire_hasher (fz_shared f)) (config (fz_shared f)) (fz_source f)).

Lemma outcome_mono wire cfg src m1 m2 w now st :
  m1 <= m2 -> outcome wire cfg src m1 w now st -> outcome wire cfg src m2 w now st.
Proof. intros Hm [f' item | |]; [econstructor 1|econstructor 2|econstructor 3]; eauto. lia. Qed.

Lemma poll_finalize_outcome f w now bound : outcome_of f bound w now (poll_finalize f w now).
Proof.
  unfold poll_finalize. destruct (finalize_receipt _ _ w now) as [[src w'] r] eqn:Hr.
  destruct r as [[]|e]; [|by econstructor 2]. econstructor 3; [done| | |exact Hr]; done.
Qed.

Lemma poll_flush_outcome f w now :
  fs_finished (fz_shared f) = false -> fs_upstream_ended (fz_shared f) = true ->
  outcome_of f (polls_left f) w now (poll_flush f w now).
Proof.
  intros Hf He. unfold poll_flush. destruct (fs_e2ee_transformer (fz_shared f)) as [t|] eqn:Ht;
    [|apply poll_finalize_outcome].
  case_bool; [|apply (poll_finalize_outcome (with_shared (fs_set_transformer None (fz_shared f)) f))].
  destruct (et_finish t).2; [|by econstructor 2].
  case_bool; [apply (poll_finalize_outcome (with_shared (fs_set_transformer None (fz_shared f)) f))|].
  econstructor 1; try done. unfold polls_left. cbn. rewrite Hf, He, Ht. lia.
Qed.

Definition count {A} (o : option A) : nat := match o with Some _ => 1 | None => 0 end.
Lemma to_wire_shared chunk s s' r : to_wire chunk s = (s', r) ->
  exists t, s' = fs_set_transformer t s /\ count t = count (fs_e2ee_transformer s).
Proof.
  unfold to_wire. destruct (fs_e2ee_transformer s) as [t|] eqn:Ht.
  - destruct (push_chunk t chunk) as [t' r']. intros [= <- <-]. by exists (Some t').
  - intros [= <- <-]. exists None. split; [|done]. destruct s; cbn in *. by rewrite Ht.
Qed.

Lemma poll_ended_outcome f w now :
  fs_finished (fz_shared f) = false -> fs_upstream_ended (fz_shared f) = true ->
  outcome_of f (polls_left f) w now (poll_ended f w now).
Proof.
  intros Hf He. unfold poll_ended, take_synthesized_tail.
  destruct (fs_error_tail_settled (fz_shared f)) eqn:Hs; [destruct f; by apply poll_flush_outcome|].
  set (s1 := fs_set_flags _ _ _ _ _).
  assert (forall t, count t = count (fs_e2ee_transformer (fz_shared f)) ->
    polls_left (with_shared (fs_set_transformer t s1) f) < polls_left f) as Hlt.
  { intros t Ht. unfold polls_left, count in *. cbn. rewrite Hf, He, Hs. lia. }
  destruct (synthesized_tail s1) as [tail|].
  - destruct (to_wire tail s1) as [s2 r] eqn:Hw. apply to_wire_shared in Hw as (t & -> & Ht).
    specialize (Hlt t Ht). destruct r as [wire|e]; [|by econstructor 2].
    case_bool; [|by econstructor 1].
    eapply outcome_mono; [|apply (poll_flush_outcome (with_shared (fs_set_transformer t s1) f))]; [lia|done|done].
  - specialize (Hlt _ eq_refl). eapply outcome_mono; [|apply (poll_flush_outcome (with_shared s1 f))]; [|done|done].
    exact (Nat.lt_le_incl _ _ Hlt).
Qed.

Lemma poll_loop_outcome inner f w now :
  fs_finished (fz_shared f) = false -> fs_upstream_ended (fz_shared f) = false ->
  outcome_of f (4 + length inner) w now (poll_loop inner f w now).
Proof.
  revert f. induction inner as [|a inner IH]; intros f Hf He; [|destruct a as [|chunk|err]].
  - cbn [poll_loop]. eapply outcome_mono; [|apply (poll_ended_outcome (mkFinalizer (fs_end false (fz_shared f)) (fz_source f) []))];
      [|done|done]. unfold polls_left. cbn. rewrite Hf.
    destruct (fs_error_tail_settled (fz_shared f)), (fs_e2ee_transformer (fz_shared f)); lia.
  - econstructor 1; cbn; try done; [by rewrite app_nil_r|]. unfold polls_left. cbn. rewrite Hf, He. lia.
  - cbn [poll_loop]. set (s := fs_set_parser _ _). destruct (to_wire chunk s) as [s' r] eqn:Hw.
    destruct (to_wire_shared _ _ _ _ Hw) as (t & -> & Ht).
    assert (forall wire, outcome_of f (4 + length (InnerChunk chunk :: inner)) w now
      (emit wire (fs_set_transformer t s) (mkFinalizer (fs_set_transformer t s) (fz_source f) inner) w)) as Hemit.
    { intros wire. econstructor 1; try done. unfold polls_left. cbn. rewrite Hf, He. lia. }
    destruct (fs_e2ee_transformer s); [|apply Hemit]. destruct r as [wire|err]; [|by econstructor 2].
    case_bool; [|apply Hemit].
    eapply outcome_mono; [|apply (IH (mkFinalizer (fs_set_transformer t s) (fz_source f) inner))]; [cbn; lia|done|done].
  - cbn [poll_loop]. eapply outcome_mono;
      [|apply (poll_ended_outcome (mkFinalizer (fs_end true (fz_shared f)) (fz_source f) inner))];
      [|done|done]. unfold polls_left. cbn. rewrite Hf.
    destruct (fs_error_tail_settled (fz_shared f)), (fs_e2ee_transformer (fz_shared f)); lia.
Qed.

Lemma poll_outcome f w now : fs_finished (fz_shared f) = false ->
  outcome_of f (polls_left f) w now (poll_finalizing_stream f w now).
Proof.
  intros Hf. unfold poll_finalizing_stream. rewrite Hf.
  destruct (fs_upstream_ended (fz_shared f)) eqn:He; [by apply poll_ended_outcome|].
  unfold polls_left. rewrite Hf, He. by apply poll_loop_outcome.
Qed.

Lemma drive_finished schedule f :
  fs_finished (fz_shared f) = true -> (drive schedule f).2 = f /\ delivered (drive schedule f).1 = [].
Proof.
  intros Hf. induction schedule as [|[w now] schedule IH]; [done|]. cbn.
  unfold poll_finalizing_stream. rewrite Hf. by destruct (drive schedule f).
Qed.

(** Driven long enough, the stream finishes; without a reported error it finalizes
    its receipt in the world of one of the polls, over exactly what it delivered. *)
Lemma drive_outcome schedule f :
  fs_finished (fz_shared f) = false -> polls_left f <= length schedule ->
  let '(obs, f') := drive schedule f in
  fs_finished (fz_shared f') = true /\
  (Forall (fun o => item_failed (ob_item o) = false) obs ->
   exists o s src', o ∈ obs /\ fs_wire_hasher s = fs_wire_hasher (fz_shared f) ++ delivered obs /\
     config s = config (fz_shared f) /\
     finalize_receipt (fz_source f) s (ob_before o) (ob_now o) = ((src', ob_after o), Ok ())).
Proof.
  revert f. induction schedule as [|[w now] schedule IH]; intros f Hf Hle.
  - unfold polls_left in Hle. rewrite Hf in Hle. cbn in Hle. destruct (fs_upstream_ended _); lia.
  - cbn [drive]. pose proof (poll_outcome f w now Hf) as Hout.
    destruct (poll_finalizing_stream f w now) as [[f1 w1] item]. cbn [length] in Hle.
    inversion Hout as [f2 item2 Hf2 Hw2 Hc2 Hs2 Hi2 Hlt
      |f2 w2 e Hf2|f2 s src' w2 Hf2 Hw2 Hc2 Hr]; subst.
    + specialize (IH f1 Hf2 ltac:(lia)). destruct (drive schedule f1) as [obs f'].
      destruct IH as [Hfin IH]. split; [done|]. intros [_ Hall]%Forall_cons.
      destruct (IH Hall) as (o & s & src' & Hin & Hw & Hc & Hr). exists o, s, src'.
      rewrite Hc, Hw, Hw2. split_and!; [by right| |done|by rewrite <- Hs2].
      unfold delivered. cbn. by rewrite <- app_assoc.
    + destruct (drive_finished schedule f1 Hf2) as [Hd _]. destruct (drive schedule f1) as [obs f'].
      cbn in Hd. subst f'. split; [done|]. by intros [? _]%Forall_cons.
    + destruct (drive_finished schedule f1 Hf2) as [Hd Hn]. destruct (drive schedule f1) as [obs f'].
      cbn in Hd, Hn. subst f'. split; [done|]. intros _. eexists _, s, src'.
      split; [left|]. cbn. split_and!; [|done|done]. unfold delivered in *. cbn. rewrite Hn. by rewrite app_nil_r.
Qed.
End Outcomes.

(** What publishing the receipt of a stream means: a builder under the stream's
    receipt id whose last event is [response.returned] with the digest of [body]
    is signed and goes into the stores, in one step from [w] to [w']. *)
Definition publishes (s : FinalizerShared) (b : ReceiptBuilder) (lease : option keeper_lease) (body : bytes)
    (w : World) (now : Z) (w' : World) : Prop :=
  exists receipt b', finalize b' (fs_key_id s) = Ok receipt /\ rcb_receipt_id b' = rcb_receipt_id b /\
    last (rcb_events b') =
      Some (mkReceiptEvent EVENT_RESPONSE_RETURNED [("body_hash", JString (sha256_hex body))]) /\
    store_receipt (w_receipts w) (w_sessions w) receipt (fs_requester s) now (fs_receipt_ttl_seconds s) lease =
      ((w_receipts w', w_sessions w'), Ok ()).

(** Adding the hash, signing and storing, as both finalizers end. *)
Lemma sign_and_store_publishes b b0 b1 lease s w now w' :
  rcb_receipt_id b0 = rcb_receipt_id b -> add_response_returned_hash b0 (wire_hash s) = Ok b1 ->
  sign_and_store s b1 lease w now = (w', Ok ()) ->
  publishes s b lease (fs_wire_hasher s) w now w' /\ w_journal w' = w_journal w.
Proof.
  intros Hid (-> & _ & _)%append_ok. unfold sign_and_store.
  destruct (finalize _ _) as [receipt|] eqn:Hf; [|done].
  destruct (store_receipt _ _ _ _ _ _ _) as [[receipts sessions] r] eqn:Hs.
  intros [= <- ->]. split; [|done]. eexists receipt, _. split; [exact Hf|]. split; [exact Hid|].
  split; [|exact Hs]. cbn. by rewrite last_snoc.
Qed.
Lemma finalize_direct_publishes b lease s w now src' w' :
  finalize_direct (mkDirect (Some b) lease) s w now = ((src', w'), Ok ()) ->
  publishes s b lease (fs_wire_hasher s) w now w'.
Proof.
  unfold finalize_direct. cbn [ds_builder ds_session_lease]. set (b1 := set_upstream_verified_model_id _ _).
  assert (rcb_receipt_id b1 = rcb_receipt_id b) as Hid
    by (unfold b1, set_upstream_verified_model_id; by destruct (obs_model_id _)).
  destruct (add_response_returned_hash b1 _) as [b2|] eqn:Ha; [|done].
  destruct (sign_and_store _ _ _ _ _) as [w2 r] eqn:Hs. intros [= _ <- ->].
  by eapply sign_and_store_publishes.
Qed.
Lemma finalize_middleware_publishes u s w now src' w' :
  finalize_middleware u s w now = ((src', w'), Ok ()) ->
  match w_journal w with
  | None => w' = w
  | Some draft =>
      publishes s (md_builder draft) (md_session_lease draft) (fs_wire_hasher s) w now w' /\ w_journal w' = None
  end.
Proof.
  unfold finalize_middleware. destruct (w_journal w) as [draft|]; [|by intros [= _ <-]].
  set (b1 := match obs_chat_id _ with Some _ => _ | None => _ end).
  assert (rcb_receipt_id b1 = rcb_receipt_id (md_builder draft)) as Hid by (unfold b1; by destruct (obs_chat_id _)).
  destruct (add_response_returned_hash b1 _) as [b2|] eqn:Ha; [|done].
  destruct (sign_and_store _ _ _ _ _) as [w2 r] eqn:Hs. intros [= _ <- ->].
  by destruct (sign_and_store_publishes _ _ _ _ _ _ _ _ Hid Ha Hs).
Qed.
Lemma publishes_config s s0 b lease body w now w' :
  config s = config s0 -> publishes s b lease body w now w' -> publishes s0 b lease body w now w'.
Proof. unfold publishes. intros [= -> -> ->]. done. Qed.

Lemma polls_left_bound {FS : FinalizingStream} (f : Finalizer) : polls_left f <= 4 + length (fz_inner f).
Proof.
  unfold polls_left. set (s := fz_shared f). cbv zeta.
  destruct (fs_finished s), (fs_upstream_ended s), (fs_error_tail_settled s), (fs_e2ee_transformer s); lia.
Qed.

(** A fresh stream whose source ends, sooner or later, without failing. *)
Definition fresh {FS : FinalizingStream} (f : Finalizer) : Prop :=
  fs_wire_hasher (fz_shared f) = [] /\ fs_finished (fz_shared f) = false.
Definition source_fails (inner : list InnerPoll) : bool :=
  existsb (fun i => match i with InnerError _ => true | _ => false end) inner.
Definition reports_error (obs : list Observation) : bool := existsb (fun o => item_failed (ob_item o)) obs.

Lemma drive_finalizes {FS : FinalizingStream} (f : Finalizer) (schedule : list (World * Z)) :
  fresh f -> 4 + length (fz_inner f) <= length schedule ->
  fs_finished (fz_shared (drive schedule f).2) = true /\
  (reports_error (drive schedule f).1 = false ->
   exists o s src', o ∈ (drive schedule f).1 /\ fs_wire_hasher s = delivered (drive schedule f).1 /\
     config s = config (fz_shared f) /\
     finalize_receipt (fz_source f) s (ob_before o) (ob_now o) = ((src', ob_after o), Ok ())).
Proof.
  intros [Hwire Hfin] Hlen.
  pose proof (drive_outcome schedule f Hfin (Nat.le_trans _ _ _ (polls_left_bound f) Hlen)) as Hd.
  destruct (drive schedule f) as [obs f']. cbn [fst snd]. rewrite Hwire in Hd. destruct Hd as [Hf' Hall].
  split; [done|]. intros Hok. apply Hall, Forall_forall. intros o Ho%list_elem_of_In.
  apply not_true_iff_false. intros Hbad. apply not_true_iff_false in Hok. apply Hok, existsb_exists. eauto.
Qed.

(** C8: the receipt of a streamed response is over what the client received.  A
    stream polled at least four times more than its source has answers is finished,
    whatever the source does (stall, deliver, fail half way) and whatever the shared
    stores contain at each poll.  When the source ended without failing and the
    stream reported no error, one of the polls finalized it: a direct stream signed
    and published a receipt whose last event is [response.returned] with the digest
    of exactly the bytes handed out, the appended terminator and the encryption
    included, under the stream's receipt id and with its lease; a middleware stream
    did so with the draft it found in the journal, which it took out, and changed
    nothing when the journal was empty. *)
Theorem streamed_receipt_covers_body :
  (forall (b : ReceiptBuilder) (lease : option keeper_lease)
      (f : Finalizer (FS := direct_stream)) (schedule : list (World * Z)),
    fz_source f = mkDirect (Some b) lease -> fresh f -> 4 + length (fz_inner f) <= length schedule ->
    fs_finished (fz_shared (drive schedule f).2) = true /\
    (source_fails (fz_inner f) = false -> reports_error (drive schedule f).1 = false ->
     exists o, o ∈ (drive schedule f).1 /\
       publishes (fz_shared f) b lease (delivered (drive schedule f).1) (ob_before o) (ob_now o) (ob_after o))) /\
  (forall (f : Finalizer (FS := middleware_stream)) (schedule : list (World * Z)),
    fresh f -> 4 + length (fz_inner f) <= length schedule ->
    fs_finished (fz_shared (drive schedule f).2) = true /\
    (source_fails (fz_inner f) = false -> reports_error (drive schedule f).1 = false ->
     exists o, o ∈ (drive schedule f).1 /\
       match w_journal (ob_before o) with
       | None => ob_after o = ob_before o
       | Some draft =>
           publishes (fz_shared f) (md_builder draft) (md_session_lease draft) (delivered (drive schedule f).1)
             (ob_before o) (ob_now o) (ob_after o) /\ w_journal (ob_after o) = None
       end)).
Proof.
  split.
  - intros b lease f schedule Hsrc Hfresh Hlen. destruct (drive_finalizes f schedule Hfresh Hlen) as [Hfin Hall].
    split; [done|]. intros _ Hok. destruct (Hall Hok) as (o & s & src' & Hin & Hw & Hc & Hr).
    rewrite Hsrc in Hr. apply finalize_direct_publishes in Hr. rewrite Hw in Hr. eauto using publishes_config.
  - intros f schedule Hfresh Hlen. destruct (drive_finalizes f schedule Hfresh Hlen) as [Hfin Hall].
    split; [done|]. intros _ Hok. destruct (Hall Hok) as (o & s & src' & Hin & Hw & Hc & Hr).
    apply finalize_middleware_publishes in Hr. exists o. split; [done|].
    destruct (w_journal (ob_before o)); [|done]. destruct Hr as [Hr Hj]. rewrite Hw in Hr.
    eauto using publishes_config.
Qed.
End Progress.

(** *** Witnesses: a chat stream that stalls once and ends without its terminator,
    on its own and as the stream of a middleware with a draft in the journal. *)
#[local] Existing Instances sample_sha sample_hex sample_base64 sample_json sample_keys sample_domain.
#[local] Instance sample_cipher : StreamCipher := {|
  E2eeRequestContext := unit;
  encrypt_e2ee_stream_payload payload _ _ := Ok payload;
|}.
Definition sample_chunk : bytes := as_bytes "data: x" ++ [lf; lf].
Definition sample_shared : FinalizerShared :=
  shared_new "r1" None 3600 "/v1/chat/completions" None None true.
Definition sample_open_builder : ReceiptBuilder := with_events sample_builder0 (take 3 (rcb_events sample_builder)).
Definition sample_inner : list InnerPoll := [InnerChunk sample_chunk; InnerPending; InnerChunk sample_chunk].
Definition sample_finalizer : Finalizer (FS := direct_stream) :=
  mkFinalizer sample_shared (mkDirect (Some sample_open_builder) None) sample_inner.
Definition sample_bridge : Finalizer (FS := middleware_stream) :=
  mkFinalizer (FS := middleware_stream) sample_shared () sample_inner.
Definition sample_world : World := mkWorld store_empty sample_store3 (Some (mkDraft None sample_open_builder)).
Definition sample_schedule : list (World * Z) := (fun now => (sample_world, now)) <$> [1; 2; 3; 4; 5; 6; 7]%Z.
Definition sample_wire : bytes :=
  sample_chunk ++ sample_chunk ++ default [] (stream_success_terminator OpenaiChat).

Lemma streamed_receipt_covers_body_witness :
  (exists o, o ∈ (drive sample_schedule sample_finalizer).1 /\
     publishes sample_shared sample_open_builder None sample_wire (ob_before o) (ob_now o) (ob_after o)) /\
  fs_finished (fz_shared (drive sample_schedule sample_bridge).2) = true.
Proof.
  destruct streamed_receipt_covers_body as [Hd Hm]. split.
  - destruct (Hd sample_open_builder None sample_finalizer sample_schedule eq_refl
      (conj eq_refl eq_refl) (le_n 7)) as [_ (o & Hin & Hp)]; [reflexivity|vm_compute; reflexivity|].
    exists o. split; [exact Hin|].
    assert (delivered (drive sample_schedule sample_finalizer).1 = sample_wire) as <- by (vm_compute; reflexivity).
    exact Hp.
  - exact (proj1 (Hm sample_bridge sample_schedule (conj eq_refl eq_refl) (le_n 7))).
Defined.

Definition sample_broken : FinalizerShared :=
  fs_end true (fs_set_parser (observe sample_chunk (with_protocol (Some OpenaiChat))) sample_shared).
Lemma broken_parser o s : fs_sse_parser (fs_end true (fs_set_parser o s)) = o.
Proof. reflexivity. Qed.
Lemma synthesized_tail_ends_stream_witness :
  obs_saw_error (observe (sample_chunk ++ stream_error_tail OpenaiChat None None) (with_protocol (Some OpenaiChat))) = true.
Proof.
  assert (H1 : fs_sse_parser sample_broken = observe sample_chunk (with_protocol (Some OpenaiChat)))
    by exact (broken_parser _ _).
  assert (H2 : synthesized_tail sample_broken = Some (stream_error_tail OpenaiChat None None)) by (vm_compute; reflexivity).
  assert (H3 : (Z.of_nat (length (stream_error_tail OpenaiChat None None)) <= MAX_OBSERVED_EVENT_BYTES)%Z)
    by (vm_compute; discriminate).
  assert (H4 : fs_broken sample_broken = true) by reflexivity.
  pose proof (synthesized_tail_ends_stream sample_broken OpenaiChat sample_chunk _ H1 H2 H3) as (_ & _ & Hend).
  rewrite H4 in Hend. exact (proj1 Hend).
Defined.
