(* ===== verification/ToolMap.v ===== *)
(** * Responses tools as Chat functions (src/middleware/request_transform.rs)

    A Responses request declares functions, custom tools, namespaces of either and
    the client's tool search; a Chat upstream knows functions only.  [chat_tools]
    declares each tool as a function under a flat name and records in a
    [ResponsesToolMap] how to restore a call.  Its reference is the list of
    declarations in the order of the request: the first one of a name stands. *)
From S2P Require Import Prelude Text Json External Sample SseProtocol UpstreamErrors Images Sanitize.

(** [ProviderFormat] (src/middleware/types.rs). *)
Inductive ProviderFormat : Type := Openai | Anthropic.
#[global] Instance ProviderFormat_eq_dec : EqDecision ProviderFormat.
Proof. solve_decision. Defined.

(** ** Refusals *)
Inductive TransformError : Type :=
| Unsupported (format : ProviderFormat) (endpoint : Endpoint)
| InvalidRequest (message : string) (route_id : option string).
Definition invalid_request (message : string) : TransformError := InvalidRequest message None.
Definition route_id (e : TransformError) : option string :=
  match e with InvalidRequest _ r => r | Unsupported _ _ => None end.
Definition client_status (e : TransformError) : Z :=
  match e with InvalidRequest _ _ => 400 | Unsupported _ _ => 500 end.

Definition filter_some {A} (p : A -> bool) (o : option A) : option A :=
  o ≫= fun a => if p a then Some a else None.
Definition non_empty (s : string) : bool := negb (bool_decide (s = "")).
Definition required_string (object : value) (key item_type : string) : result TransformError string :=
  ok_or (invalid_request (item_type +:+ " requires a non-empty " +:+ key))
    (filter_some non_empty (get_str key object)).

(** [slice.join(sep)]. *)
Fixpoint join (sep : string) (l : list string) : string :=
  match l with
  | [] => ""
  | [s] => s
  | s :: l' => s +:+ sep +:+ join sep l'
  end.
Definition paragraph : string := of_bytes [lf; lf].
Definition join_text (texts : list string) : string :=
  join paragraph (filter (fun t => non_empty t = true) texts).

(** ** Flat names *)
Definition CHAT_TOOL_NAME_MAX_LEN : nat := 64.
Definition TOOL_SEARCH_PROXY_NAME : string := "tool_search".

(** The characters of UTF-8 text: a byte that is not a continuation begins one. *)
Fixpoint chars (l : bytes) : list bytes :=
  match l with
  | [] => []
  | c :: l' =>
      match chars l' with
      | (d :: w) :: rest => if is_continuation d then (c :: d :: w) :: rest else [c] :: (d :: w) :: rest
      | other => [c] :: other
      end
  end.
(** The last character boundary within [limit] bytes. *)
Fixpoint prefix_end (limit index last : nat) (cs : list bytes) : nat :=
  match cs with
  | [] => last
  | c :: cs' =>
      let next := index + length c in
      if limit <? next then last else prefix_end limit next next cs'
  end.

Section Names.
Context {SH : Sha} {HX : HexCodec}.

Definition flatten_namespace_tool_name (namespace name : string) : string :=
  let full := namespace +:+ "__" +:+ name in
  if str_len full <=? CHAT_TOOL_NAME_MAX_LEN then full
  else
    let digest := sha256 (as_bytes full) in
    let suffix := "__" +:+ hex_encode (take 4 digest) in
    let prefix_len := CHAT_TOOL_NAME_MAX_LEN - str_len suffix in
    of_bytes (take (prefix_end prefix_len 0 0 (chars (as_bytes full))) (as_bytes full)) +:+ suffix.
End Names.

(** ** Declarations *)
Record NamespacedTool : Type := mkNamespaced {
  nt_namespace : string;
  nt_name : string;
}.
Record ResponsesToolMap : Type := mkToolMap {
  tm_custom : gset string;
  tm_namespaces : gmap string NamespacedTool;
  tm_tool_search : bool;
}.
Definition tool_map_default : ResponsesToolMap := mkToolMap ∅ ∅ false.
Definition is_custom (map : ResponsesToolMap) (name : string) : bool := bool_decide (name ∈ tm_custom map).
Definition namespace (map : ResponsesToolMap) (name : string) : option NamespacedTool := tm_namespaces map !! name.
Definition is_tool_search (map : ResponsesToolMap) (name : string) : bool :=
  tm_tool_search map && bool_decide (name = TOOL_SEARCH_PROXY_NAME).

(** [iter().filter_map(|key| source.get(key)…)] into a new map. *)
Definition copy_members (keys : list string) (source : value) (m : object) : object :=
  foldl (fun m k => match get k source with Some v => obj_insert k v m | None => m end) m keys.
Definition chat_function (source : value) (name : string) (parameters : option value) : value :=
  let function := copy_members ["description"; "parameters"; "strict"] source [("name", JString name)] in
  let function :=
    match parameters with
    | Some p => obj_remove "strict" (obj_insert "parameters" p function)
    | None => function
    end in
  JObject [("type", JString "function"); ("function", JObject function)].

Definition quoted (s : string) : string := String (u8 34) s +:+ String (u8 34) EmptyString.
Definition custom_tool_description (tool : value) : string :=
  let field key := trim (default "" (get "format" tool ≫= get_str key)) in
  let definition := field "definition" in
  let grammar :=
    if bool_decide (definition = "") then ""
    else if bool_decide (field "type" = "grammar") then
      if bool_decide (field "syntax" = "lark") then
        "The input must match this Lark grammar:" +:+ of_bytes [lf] +:+ definition
      else if bool_decide (field "syntax" = "regex") then
        "The input must match this regular expression:" +:+ of_bytes [lf] +:+ definition
      else "The input must match this " +:+ field "syntax" +:+ " grammar:" +:+ of_bytes [lf] +:+ definition
    else "" in
  join_text
    [trim (default "" (get_str "description" tool));
     "This tool takes freeform text. Put the complete raw text in the " +:+ quoted "input" +:+ " argument.";
     grammar].

(** What the pass over the tools carries: the map, the functions and their names. *)
Record ToolScan : Type := mkScan {
  ts_map : ResponsesToolMap;
  ts_translated : list value;
  ts_names : gset string;
}.
Definition scan_start : ToolScan := mkScan tool_map_default [] ∅.
Definition declare (source : value) (name : string) (parameters : option value) (s : ToolScan) : bool * ToolScan :=
  if bool_decide (name ∈ ts_names s) then (false, s)
  else (true, mkScan (ts_map s) (ts_translated s ++ [chat_function source name parameters]) ({[name]} ∪ ts_names s)).

Definition custom_parameters : value :=
  JObject
    [("type", JString "object");
     ("properties", JObject
       [("input", JObject
         [("type", JString "string");
          ("description", JString "The raw input for this tool, passed through verbatim.")])]);
     ("required", JArray [JString "input"]);
     ("additionalProperties", JBool false)].
Definition declare_custom (tool : value) (name : string) (s : ToolScan) : bool * ToolScan :=
  declare (JObject [("description", JString (custom_tool_description tool))]) name (Some custom_parameters) s.

Definition insert_custom (name : string) (s : ToolScan) : ToolScan :=
  let map := ts_map s in
  mkScan (mkToolMap ({[name]} ∪ tm_custom map) (tm_namespaces map) (tm_tool_search map)) (ts_translated s) (ts_names s).
Definition insert_namespace (flat : string) (tool : NamespacedTool) (s : ToolScan) : ToolScan :=
  let map := ts_map s in
  mkScan (mkToolMap (tm_custom map) (<[flat := tool]> (tm_namespaces map)) (tm_tool_search map))
    (ts_translated s) (ts_names s).
Definition or_tool_search (declared : bool) (s : ToolScan) : ToolScan :=
  let map := ts_map s in
  mkScan (mkToolMap (tm_custom map) (tm_namespaces map) (tm_tool_search map || declared)) (ts_translated s) (ts_names s).

Definition default_search_description : string :=
  "Search and load tools, plugins, connectors, and MCP namespaces for the current task.".
Definition default_search_parameters : value :=
  JObject
    [("type", JString "object");
     ("properties", JObject
       [("query", JObject [("type", JString "string"); ("description", JString "What tools to search for.")]);
        ("limit", JObject [("type", JString "integer"); ("description", JString "The most tool groups to return.")])]);
     ("required", JArray [JString "query"])].

(** [for x in l { … ? }] with the state the loop updates. *)
Fixpoint try_fold {E A S} (f : A -> S -> result E S) (l : list A) (s : S) : result E S :=
  match l with
  | [] => Ok s
  | a :: l' => s' ← f a s; try_fold f l' s'
  end.

Definition child_kind (child : value) : option bool :=
  match get_str "type" child with
  | Some t => if bool_decide (t = "function") then Some false else if bool_decide (t = "custom") then Some true else None
  | None => None
  end.

Section Tools.
Context {SH : Sha} {HX : HexCodec}.

Definition namespace_child (tool : value) (ns : string) (child : value) (s : ToolScan) : result TransformError ToolScan :=
  match child_kind child with
  | None => Ok s
  | Some custom =>
      name ← required_string child "name" "namespace tool";
      let flat := flatten_namespace_tool_name ns name in
      let description :=
        join_text [default "" (get_str "description" tool); default "" (get_str "description" child)] in
      let child :=
        if non_empty description then on_object (obj_insert "description" (JString description)) child else child in
      let '(declared, s) := if custom then declare_custom child flat s else declare child flat None s in
      Ok (if (declared : bool) then
            insert_namespace flat (mkNamespaced ns name) (if (custom : bool) then insert_custom flat s else s)
          else s)
  end.

Definition chat_tool (tool : value) (s : ToolScan) : result TransformError ToolScan :=
  match get_str "type" tool with
  | Some t =>
      if bool_decide (t = "function") then
        name ← required_string tool "name" "function tool";
        Ok (declare tool name None s).2
      else if bool_decide (t = "custom") then
        name ← required_string tool "name" "custom tool";
        let '(declared, s) := declare_custom tool name s in
        Ok (if (declared : bool) then insert_custom name s else s)
      else if bool_decide (t = "namespace") then
        ns ← required_string tool "name" "namespace tool";
        children ← ok_or (invalid_request "namespace tool requires a tools array") (get "tools" tool ≫= as_array);
        try_fold (namespace_child tool ns) children s
      else if bool_decide (t = "tool_search") then
        let proxy :=
          match get "description" tool with
          | None => on_object (obj_insert "description" (JString default_search_description)) tool
          | Some _ => tool
          end in
        let parameters := match get "parameters" tool with None => Some default_search_parameters | Some _ => None end in
        let '(declared, s) := declare proxy TOOL_SEARCH_PROXY_NAME parameters s in
        Ok (or_tool_search declared s)
      else Ok s
  | None => Ok s
  end.

Definition chat_tools (tools : list value) : result TransformError (list value * ResponsesToolMap) :=
  s ← try_fold chat_tool tools scan_start; Ok (ts_translated s, ts_map s).

Definition from_echo (echo : value) : ResponsesToolMap :=
  match chat_tools (default [] (get "tools" echo ≫= as_array)) with
  | Ok (_, map) => map
  | Err _ => tool_map_default
  end.

(** ** Which tools a request declares *)
Definition input_tools (item : value) (tools : list value) : result TransformError (list value) :=
  match get_str "type" item with
  | Some t =>
      if bool_decide (t = "additional_tools") then
        additional ← ok_or (invalid_request "additional_tools requires a tools array") (get "tools" item ≫= as_array);
        Ok (tools ++ additional)
      else if bool_decide (t = "tool_search_output") then
        Ok (tools ++ default [] (get "tools" item ≫= as_array))
      else Ok tools
  | None => Ok tools
  end.
Definition effective_responses_tools (params : value) : result TransformError (list value) :=
  tools ← match get "tools" params with
          | None => Ok []
          | Some (JArray tools) => Ok tools
          | Some _ => Err (invalid_request "tools must be an array")
          end;
  try_fold input_tools (default [] (get "input" params ≫= as_array)) tools.

(** ** Tool choice *)
Definition chat_tool_name (reference : value) : option string :=
  let name := get_str "name" reference in
  match get_str "type" reference with
  | Some t =>
      if bool_decide (t = "tool_search") then Some TOOL_SEARCH_PROXY_NAME
      else if bool_decide (t = "function") || bool_decide (t = "custom") then
        match get_str "namespace" reference with
        | Some ns => flatten_namespace_tool_name ns <$> name
        | None => name
        end
      else None
  | None => None
  end.
(** [tool["function"]["name"].as_str()]. *)
Definition function_name (tool : value) : option string := get "function" tool ≫= get_str "name".
Definition is_allowed_tools (choice : value) : bool := bool_decide (get_str "type" choice = Some "allowed_tools").
Definition allows (allowed : gset string) (tool : value) : bool :=
  from_option (fun name => bool_decide (name ∈ allowed)) false (function_name tool).

(** The choice, and the tools that remain. *)
Definition chat_tool_choice (choice : value) (tools : list value) : result TransformError (option value * list value) :=
  tools ←
    (if is_allowed_tools choice then
       let allowed := list_to_set (omap chat_tool_name (default [] (get "tools" choice ≫= as_array))) in
       let tools := List.filter (allows allowed) tools in
       if bool_decide (tools = []) && bool_decide (get "mode" choice = Some (JString "required")) then
         Err (invalid_request "allowed_tools requires a call, but none of its tools is available on this route")
       else Ok tools
     else Ok tools);
  if bool_decide (tools = []) then Ok (None, tools)
  else
    let mode :=
      match choice with
      | JString mode => Some mode
      | _ => if is_allowed_tools choice then get_str "mode" choice else None
      end in
    match mode with
    | Some mode =>
        Ok (if bool_decide (mode ∈ ["auto"; "none"; "required"]) then Some (JString mode) else None, tools)
    | None =>
        let named name := existsb (fun tool => bool_decide (function_name tool = Some name)) tools in
        Ok ((fun name => JObject [("type", JString "function"); ("function", JObject [("name", JString name)])]) <$>
              filter_some named (chat_tool_name choice), tools)
    end.
End Tools.

Definition chat_response_format (format : object) : option value :=
  t ← obj_get "type" format ≫= as_str;
  if bool_decide (t = "json_object") then Some (JObject [("type", JString "json_object")])
  else if bool_decide (t = "json_schema") then
    let schema := copy_members ["name"; "description"; "schema"; "strict"] (JObject format) [] in
    Some (JObject [("type", JString "json_schema"); ("json_schema", JObject schema)])
  else None.

(** ** The reference: declarations in the order of the request *)
Inductive ToolKind : Type := FunctionTool | CustomTool | SearchTool.
#[global] Instance ToolKind_eq_dec : EqDecision ToolKind.
Proof. solve_decision. Defined.
Record Declaration : Type := mkDeclaration {
  d_name : string;
  d_kind : ToolKind;
  d_origin : option NamespacedTool;
}.

Section Reference.
Context {SH : Sha} {HX : HexCodec}.

Definition child_declaration (ns : string) (child : value) : list Declaration :=
  match child_kind child with
  | None => []
  | Some custom =>
      let name := default "" (get_str "name" child) in
      [mkDeclaration (flatten_namespace_tool_name ns name) (if (custom : bool) then CustomTool else FunctionTool)
         (Some (mkNamespaced ns name))]
  end.
Definition tool_declarations (tool : value) : list Declaration :=
  let name := default "" (get_str "name" tool) in
  let t := default "" (get_str "type" tool) in
  if bool_decide (t = "function") then [mkDeclaration name FunctionTool None]
  else if bool_decide (t = "custom") then [mkDeclaration name CustomTool None]
  else if bool_decide (t = "namespace") then
    default [] (get "tools" tool ≫= as_array) ≫= child_declaration name
  else if bool_decide (t = "tool_search") then [mkDeclaration TOOL_SEARCH_PROXY_NAME SearchTool None]
  else [].
Definition declarations (tools : list value) : list Declaration := tools ≫= tool_declarations.
End Reference.

Definition first_declaration (name : string) (ds : list Declaration) : option Declaration :=
  List.find (fun d => bool_decide (d_name d = name)) ds.
Definition first_names (ds : list Declaration) : list string :=
  foldl (fun ns d => if bool_decide (d_name d ∈ ns) then ns else ns ++ [d_name d]) [] ds.

(** How the map describes a name, and what a declaration says of it. *)
Definition restores (map : ResponsesToolMap) (name : string) : bool * bool * option NamespacedTool :=
  (is_tool_search map name, is_custom map name, namespace map name).
Definition described (d : option Declaration) : bool * bool * option NamespacedTool :=
  match d with
  | Some d => (bool_decide (d_kind d = SearchTool), bool_decide (d_kind d = CustomTool), d_origin d)
  | None => (false, false, None)
  end.

Lemma first_names_spec ds name : name ∈ first_names ds <-> name ∈ d_name <$> ds.
Proof.
  induction ds as [|d ds IH] using rev_ind; [done|].
  unfold first_names. rewrite foldl_app, fmap_app, elem_of_app. simpl. fold (first_names ds).
  rewrite list_elem_of_singleton, <- IH. case_bool_decide; [naive_solver|].
  by rewrite elem_of_app, list_elem_of_singleton.
Qed.
Lemma first_names_NoDup ds : NoDup (first_names ds).
Proof.
  induction ds as [|d ds IH] using rev_ind; [constructor|].
  unfold first_names. rewrite foldl_app. simpl. fold (first_names ds).
  case_bool_decide; [done|]. apply NoDup_app. split; [done|]. split; [|apply NoDup_singleton].
  intros x Hx ->%list_elem_of_singleton. done.
Qed.
Lemma first_declaration_app name ds d :
  first_declaration name (ds ++ [d]) =
    match first_declaration name ds with
    | Some d' => Some d'
    | None => if bool_decide (d_name d = name) then Some d else None
    end.
Proof.
  unfold first_declaration. induction ds as [|d' ds IH]; simpl; [done|].
  by destruct (bool_decide (d_name d' = name)).
Qed.
Lemma first_declaration_None name ds : first_declaration name ds = None <-> name ∉ d_name <$> ds.
Proof.
  unfold first_declaration. induction ds as [|d ds IH]; simpl; [by rewrite elem_of_nil; split; auto|].
  rewrite not_elem_of_cons, <- IH. case_bool_decide; naive_solver.
Qed.

Lemma copy_members_NoDup keys source m : NoDup (obj_keys m) -> NoDup (obj_keys (copy_members keys source m)).
Proof.
  revert m. induction keys as [|k keys IH]; intros m Hm; [done|]. simpl. apply IH.
  destruct (get k source); auto using obj_insert_NoDup.
Qed.
Lemma copy_members_get k keys source m : k ∉ keys -> obj_get k (copy_members keys source m) = obj_get k m.
Proof.
  revert m. induction keys as [|k' keys IH]; intros m Hk; [done|].
  apply not_elem_of_cons in Hk as [Hk Hks]. simpl.
  rewrite IH by done. destruct (get k' source); [|done]. by rewrite obj_get_insert, bool_decide_eq_false_2.
Qed.
Lemma chat_function_name source name parameters : function_name (chat_function source name parameters) = Some name.
Proof.
  unfold function_name, chat_function, get_str. set (m := copy_members _ _ _). simpl.
  assert (Hm : obj_get "name" m = Some (JString name)) by (unfold m; by rewrite copy_members_get by listed).
  assert (Hnd : NoDup (obj_keys m)) by (apply copy_members_NoDup, NoDup_singleton).
  destruct parameters as [p|]; simpl; [|by rewrite Hm].
  rewrite obj_get_remove, obj_get_insert by auto using obj_insert_NoDup. by rewrite !bool_decide_eq_false_2, Hm.
Qed.

(** ** The pass follows the reference *)
Record scanned (ds : list Declaration) (s : ToolScan) : Prop := {
  scanned_names name : name ∈ ts_names s <-> name ∈ d_name <$> ds;
  scanned_functions : function_name <$> ts_translated s = Some <$> first_names ds;
  scanned_map name : restores (ts_map s) name = described (first_declaration name ds);
}.
Lemma scan_start_scanned : scanned [] scan_start.
Proof. split; [set_solver|done|]. intros name. unfold restores, is_custom, namespace. simpl. by rewrite lookup_empty. Qed.

(** What a new declaration records in the map. *)
Definition record_declaration (d : Declaration) (s : ToolScan) : ToolScan :=
  let s := match d_kind d with
           | FunctionTool => s
           | CustomTool => insert_custom (d_name d) s
           | SearchTool => or_tool_search true s
           end in
  match d_origin d with Some t => insert_namespace (d_name d) t s | None => s end.
Lemma record_declaration_scan d s :
  ts_names (record_declaration d s) = ts_names s /\ ts_translated (record_declaration d s) = ts_translated s.
Proof. by destruct d as [? [] []]. Qed.
Lemma record_declaration_map d s name :
  (d_kind d = SearchTool -> d_name d = TOOL_SEARCH_PROXY_NAME) ->
  restores (ts_map s) (d_name d) = described None ->
  restores (ts_map (record_declaration d s)) name =
    if bool_decide (d_name d = name) then described (Some d) else restores (ts_map s) name.
Proof.
  intros Hsearch Hfresh. unfold restores, is_tool_search, is_custom, namespace in *. simpl in Hfresh.
  injection Hfresh as Hs Hc Hn.
  destruct (decide (d_name d = name)) as [<-|Hd];
    [rewrite (bool_decide_eq_true_2 (d_name d = d_name d)) by done|rewrite (bool_decide_eq_false_2 (d_name d = name)) by done].
  - destruct d as [n [] [t|]]; simpl in *; rewrite ?lookup_insert_eq, ?Hs, ?Hc, ?Hn; f_equal; [f_equal..|];
      try (rewrite bool_decide_eq_true_2; [done|set_solver]); try done;
      rewrite ?Hsearch by done; rewrite bool_decide_eq_true_2 by done; by rewrite ?orb_true_r.
  - assert (Hcu : forall X : gset string, bool_decide (name ∈ {[d_name d]} ∪ X) = bool_decide (name ∈ X))
      by (intros X; apply bool_decide_ext; set_solver).
    destruct d as [n [] [t|]]; simpl in *; rewrite ?lookup_insert_ne, ?Hcu by done; try done;
      specialize (Hsearch eq_refl); subst n; rewrite !(bool_decide_eq_false_2 (name = _)) by done; by rewrite !andb_false_r.
Qed.

Lemma declare_scanned ds s d source parameters : scanned ds s ->
  (d_kind d = SearchTool -> d_name d = TOOL_SEARCH_PROXY_NAME) ->
  let '(declared, s') := declare source (d_name d) parameters s in
  scanned (ds ++ [d]) (if (declared : bool) then record_declaration d s' else s').
Proof.
  intros [Hnames Hfuns Hmap] Hsearch. unfold declare. case_bool_decide as Hin; rewrite Hnames in Hin.
  - split.
    + intros name. rewrite Hnames, fmap_app, elem_of_app. cbn. rewrite list_elem_of_singleton. naive_solver.
    + rewrite Hfuns. unfold first_names. rewrite foldl_app. simpl. fold (first_names ds).
      by rewrite bool_decide_eq_true_2 by by apply first_names_spec.
    + intros name. rewrite Hmap, first_declaration_app. destruct (first_declaration name ds) eqn:Hf; [done|].
      apply first_declaration_None in Hf. rewrite bool_decide_eq_false_2 by congruence. done.
  - set (s' := mkScan _ _ _). pose proof (record_declaration_scan d s') as [Hn Ht].
    assert (Hfresh : first_declaration (d_name d) ds = None) by by apply first_declaration_None.
    split.
    + intros name. rewrite Hn. simpl. rewrite elem_of_union, elem_of_singleton, Hnames, fmap_app, elem_of_app.
      cbn. rewrite list_elem_of_singleton. naive_solver.
    + rewrite Ht. simpl. rewrite fmap_app, Hfuns. simpl. rewrite chat_function_name.
      unfold first_names at 2. rewrite foldl_app. simpl. fold (first_names ds).
      rewrite bool_decide_eq_false_2 by by rewrite first_names_spec. by rewrite fmap_app.
    + intros name. rewrite record_declaration_map; [|done|by simpl; rewrite Hmap, Hfresh].
      rewrite first_declaration_app. simpl. rewrite Hmap. case_bool_decide as Hd; [|by destruct (first_declaration name ds)].
      subst name. by rewrite Hfresh.
Qed.

Lemma try_fold_scanned {A} (f : A -> ToolScan -> result TransformError ToolScan) (decl : A -> list Declaration) l ds s s' :
  (forall a ds s s', f a s = Ok s' -> scanned ds s -> scanned (ds ++ decl a) s') ->
  try_fold f l s = Ok s' -> scanned ds s -> scanned (ds ++ (l ≫= decl)) s'.
Proof.
  intros Hf. revert ds s. induction l as [|a l IH]; intros ds s; simpl.
  - intros [= ->]. by rewrite app_nil_r.
  - destruct (f a s) as [s1|e] eqn:Ha; simpl; [|done]. intros Hl Hs.
    rewrite app_assoc. eauto.
Qed.

Lemma required_string_Ok object key item s : required_string object key item = Ok s -> get_str key object = Some s.
Proof.
  unfold required_string, filter_some. rewrite ok_or_Ok.
  destruct (get_str key object); simpl; [|done]. case_match; naive_solver.
Qed.

Section Follows.
Context {SH : Sha} {HX : HexCodec}.

Lemma namespace_child_scanned tool ns child ds s s' : namespace_child tool ns child s = Ok s' ->
  scanned ds s -> scanned (ds ++ child_declaration ns child) s'.
Proof.
  unfold namespace_child, child_declaration. destruct (child_kind child) as [custom|]; [|intros [= ->]; by rewrite app_nil_r].
  destruct (required_string child _ _) as [name|] eqn:Hname; simpl; [|done].
  apply required_string_Ok in Hname. rewrite Hname. simpl.
  set (flat := flatten_namespace_tool_name ns name). set (child' := if non_empty _ then _ else _).
  intros Hs' Hs. unfold declare_custom in Hs'.
  destruct custom.
  - pose proof (declare_scanned ds s (mkDeclaration flat CustomTool (Some (mkNamespaced ns name)))
      (JObject [("description", JString (custom_tool_description child'))]) (Some custom_parameters) Hs) as Hd.
    simpl in Hd. destruct (declare _ flat _ s) as [[] s1]; injection Hs' as <-; by apply Hd.
  - pose proof (declare_scanned ds s (mkDeclaration flat FunctionTool (Some (mkNamespaced ns name))) child' None Hs) as Hd.
    simpl in Hd. destruct (declare _ flat _ s) as [[] s1]; injection Hs' as <-; by apply Hd.
Qed.

Lemma chat_tool_scanned tool ds s s' : chat_tool tool s = Ok s' ->
  scanned ds s -> scanned (ds ++ tool_declarations tool) s'.
Proof.
  unfold chat_tool, tool_declarations. destruct (get_str "type" tool) as [t|]; simpl;
    [|intros [= ->]; by rewrite app_nil_r].
  intros Hs' Hs. repeat case_bool_decide.
  - destruct (required_string tool _ _) as [name|] eqn:Hname; [|done].
    apply required_string_Ok in Hname. rewrite Hname. injection Hs' as <-.
    pose proof (declare_scanned ds s (mkDeclaration name FunctionTool None) tool None Hs) as Hd.
    simpl in *. by destruct (declare _ name _ s) as [[] s1]; apply Hd.
  - destruct (required_string tool _ _) as [name|] eqn:Hname; [|done].
    apply required_string_Ok in Hname. rewrite Hname. simpl in *. unfold declare_custom in Hs'.
    pose proof (declare_scanned ds s (mkDeclaration name CustomTool None)
      (JObject [("description", JString (custom_tool_description tool))]) (Some custom_parameters) Hs) as Hd.
    simpl in Hd. by destruct (declare _ name _ s) as [[] s1]; injection Hs' as <-; apply Hd.
  - bind_inv Hs'. apply required_string_Ok in E. rewrite E, E0. simpl.
    eapply try_fold_scanned; [|exact Hs'|done]. eauto using namespace_child_scanned.
  - pose proof (declare_scanned ds s (mkDeclaration TOOL_SEARCH_PROXY_NAME SearchTool None)) as Hd. simpl in Hd.
    match type of Hs' with context [declare ?a ?b ?c s] => specialize (Hd a c Hs (fun _ => eq_refl)) end.
    destruct (declare _ _ _ s) as [[] s1]; injection Hs' as <-; [done|].
    replace (or_tool_search false s1) with s1; [done|].
    destruct s1 as [[] ? ?]. unfold or_tool_search. simpl. by rewrite orb_false_r.
  - injection Hs' as <-. by rewrite app_nil_r.
Qed.

Lemma chat_tools_scanned tools fs map : chat_tools tools = Ok (fs, map) ->
  function_name <$> fs = Some <$> first_names (declarations tools) /\
  forall name, restores map name = described (first_declaration name (declarations tools)).
Proof.
  unfold chat_tools. destruct (try_fold chat_tool tools scan_start) as [s|e] eqn:Hs; simpl; [|done].
  intros [= <- <-].
  destruct (try_fold_scanned chat_tool tool_declarations tools [] scan_start s) as [_ Hf Hm];
    eauto using chat_tool_scanned, scan_start_scanned.
Qed.
End Follows.

(** ** Flat names fit and cut no character *)
Lemma chars_concat l : concat (chars l) = l.
Proof.
  induction l as [|c l IH]; [done|]. simpl. destruct (chars l) as [|[|d w] rest]; simpl in *; [by subst| |].
  - by rewrite IH.
  - destruct (is_continuation d); simpl; by rewrite IH.
Qed.
Lemma prefix_end_spec limit index cs : index <= limit -> exists k,
  prefix_end limit index index cs = index + length (concat (take k cs)) /\ prefix_end limit index index cs <= limit.
Proof.
  revert index. induction cs as [|c cs IH]; intros index Hi; [exists 0; simpl; lia|].
  simpl. case_match eqn:Hn; [exists 0; simpl; lia|]. apply Nat.ltb_ge in Hn.
  destruct (IH _ Hn) as (k & Hk & Hle). exists (S k). simpl. rewrite length_app. lia.
Qed.
Section Fits.
Context {SH : Sha} {HX : HexCodec}.
Lemma flatten_spec ns name : let full := ns +:+ "__" +:+ name in let flat := flatten_namespace_tool_name ns name in
  str_len flat <= CHAT_TOOL_NAME_MAX_LEN /\
  (flat = full \/ exists k digest, as_bytes flat = concat (take k (chars (as_bytes full))) ++ as_bytes digest /\ str_len digest = 10).
Proof.
  simpl. unfold flatten_namespace_tool_name. case_match eqn:Hlen.
  { apply Nat.leb_le in Hlen. auto. }
  set (full := ns +:+ _) in *. set (suffix := "__" +:+ hex_encode _).
  assert (Hsuffix : str_len suffix = 10).
  { unfold suffix, str_len. rewrite as_bytes_app, length_app. change (length (as_bytes (hex_encode ?x))) with (str_len (hex_encode x)).
    rewrite hex_encode_length, length_take, sha256_length. done. }
  rewrite Hsuffix. destruct (prefix_end_spec 54 0 (chars (as_bytes full))) as (k & Hk & Hle); [lia|].
  change (CHAT_TOOL_NAME_MAX_LEN - 10) with 54. set (n := prefix_end 54 0 0 _) in *.
  assert (Hcut : take n (as_bytes full) = concat (take k (chars (as_bytes full)))).
  { rewrite <- (chars_concat (as_bytes full)) at 1. rewrite <- (take_drop k (chars (as_bytes full))) at 1.
    rewrite concat_app, Hk. simpl. by rewrite take_app_length. }
  rewrite Hcut in *. unfold str_len in *. rewrite as_bytes_app, as_bytes_of_bytes, length_app, Hsuffix, <- Hcut. split.
  - rewrite length_take. unfold CHAT_TOOL_NAME_MAX_LEN. lia.
  - right. exists k, suffix. by rewrite Hcut.
Qed.

(** Every Responses tool a request declares reaches the Chat upstream once, under the name
    of its first declaration, and the map that restores calls describes each of these names
    exactly as that first declaration did: the client's tool search, a custom tool or a
    function, in its namespace or in none. The flat name of a namespaced tool has at most 64
    bytes, cut between characters when the full name has more. *)
Theorem declared_tools_restored tools functions map : chat_tools tools = Ok (functions, map) ->
  function_name <$> functions = Some <$> first_names (declarations tools) /\
  NoDup (function_name <$> functions) /\
  (forall name, restores map name = described (first_declaration name (declarations tools))) /\
  (forall d t, d ∈ declarations tools -> d_origin d = Some t ->
     d_name d = flatten_namespace_tool_name (nt_namespace t) (nt_name t) /\ str_len (d_name d) <= CHAT_TOOL_NAME_MAX_LEN).
Proof.
  intros [Hf Hm]%chat_tools_scanned. split; [done|]. split; [rewrite Hf; apply NoDup_fmap_2; [apply _|apply first_names_NoDup]|].
  split; [done|]. intros d t (tool & Hd & _)%list_elem_of_bind Ht.
  assert (d_name d = flatten_namespace_tool_name (nt_namespace t) (nt_name t)) as ->; [|split; [done|apply flatten_spec]].
  unfold tool_declarations in Hd. repeat case_bool_decide; try apply list_elem_of_singleton in Hd; subst; try done;
    [|by apply elem_of_nil in Hd].
  apply list_elem_of_bind in Hd as (child & Hd & _). unfold child_declaration in Hd.
  destruct (child_kind child); [|by apply elem_of_nil in Hd].
  apply list_elem_of_singleton in Hd as ->. by injection Ht as <-.
Qed.
End Fits.

Definition sample_tools : list value :=
  [JObject [("type", JString "function"); ("name", JString "f"); ("strict", JBool true)];
   JObject [("type", JString "namespace"); ("name", JString "mcp"); ("description", JString "Files");
     ("tools", JArray [JObject [("type", JString "custom"); ("name", JString "edit")];
                       JObject [("type", JString "function"); ("name", JString "read")]])];
   JObject [("type", JString "tool_search")];
   JObject [("type", JString "custom"); ("name", JString "mcp__read")]].
Section Witness.
#[local] Existing Instances sample_hex sample_sha.
Lemma declared_tools_restored_witness : exists functions map,
  chat_tools sample_tools = Ok (functions, map) /\
  function_name <$> functions = Some <$> ["f"; "mcp__edit"; "mcp__read"; "tool_search"] /\
  restores map "mcp__read" = (false, false, Some (mkNamespaced "mcp" "read")).
Proof.
  destruct (chat_tools sample_tools) as [[functions map]|e] eqn:Ht; [|vm_compute in Ht; discriminate Ht].
  exists functions, map. split; [done|].
  destruct (declared_tools_restored sample_tools functions map Ht) as (Hf & _ & Hm & _).
  split; [rewrite Hf; by vm_compute|rewrite Hm; by vm_compute].
Defined.
End Witness.
