(* ===== verification/Conversion.v ===== *)
(** * Converting a response to the client's surface (src/middleware/response_transform.rs)

    A complete response of one format rebuilt in another: Anthropic messages and
    completions as OpenAI ones, chat completions as Anthropic messages and as
    Responses objects.  The helpers that read a chat message (its text, reasoning,
    tool calls, finish reason and usage) are shared with the streaming bridges.
    Token counts are [i64]: a sum that leaves the range wraps, as in the release
    build. *)
From Stdlib Require Import SpecFloat.
From S2P Require Import Prelude Text Json External Sample SseProtocol UpstreamErrors Images Audio Sanitize ToolMap.

(** ** Machine integers and [f64 as i64] *)
Definition i64_wrap (z : Z) : Z := ((z + 2 ^ 63) mod 2 ^ 64 - 2 ^ 63)%Z.
Definition i64_add (a b : Z) : Z := i64_wrap (a + b).
Definition i64_sub (a b : Z) : Z := i64_wrap (a - b).
(** Truncation toward zero, saturating; a NaN is zero. *)
Definition f64_trunc (f : spec_float) : Z :=
  match f with
  | S754_finite s m e =>
      let n := if s then Z.neg m else Z.pos m in
      if (0 <=? e)%Z then (n * 2 ^ e)%Z else Z.quot n (2 ^ (- e))
  | S754_infinity s => if s then i64_min else i64_max
  | _ => 0%Z
  end.
Definition f64_as_i64 (f : spec_float) : Z := Z.max i64_min (Z.min (f64_trunc f) i64_max).

(** [json!(n)] of an [i64] and of an unsigned integer. *)
Definition json_i64 (z : Z) : value := JNumber (if (0 <=? z)%Z then PosInt z else NegInt z).
Definition json_nat (n : nat) : value := JNumber (PosInt (Z.of_nat n)).
Definition json_null_or (v : option value) : value := default JNull v.
(** [value[key] = v] on an object. *)
Definition set_member (k : string) (v : value) (object : value) : value := on_object (obj_insert k v) object.
Definition STRICT_OPENAI_COMPLIANCE : bool := true.

(** ** Usage *)
Definition normalize_reasoning_usage_value (usage : value) : value :=
  match usage with
  | JObject m =>
      match non_null (obj_get "reasoning_tokens" m) with
      | None => usage
      | Some reasoning_tokens =>
          let details := match obj_get "completion_tokens_details" m with
                         | None | Some JNull => JObject []
                         | Some details => details
                         end in
          match details with
          | JObject d =>
              let d := if is_null_or_absent (obj_get "reasoning_tokens" d)
                       then obj_insert "reasoning_tokens" reasoning_tokens d else d in
              JObject (obj_insert "completion_tokens_details" (JObject d) m)
          | _ => usage
          end
      end
  | _ => usage
  end.
Definition normalize_reasoning_usage (body : value) : value :=
  on_object (update_member "usage" normalize_reasoning_usage_value) body.

Definition counter (v : option value) : option Z :=
  number ← (v ≫= fun v => match v with JString text => parse_f64 (trim text) | other => as_f64 other end);
  if is_finite number && SFleb f64_zero number then Some (f64_as_i64 number) else None.
Definition chat_cache_tokens (usage : value) : option Z * option Z :=
  let detail key := get "prompt_tokens_details" usage ≫= get key in
  (or_else (counter (get "cache_read_input_tokens" usage)) (counter (detail "cached_tokens")),
   or_else (counter (get "cache_creation_input_tokens" usage)) (counter (detail "cache_write_tokens"))).

Definition i64_field (v : value) (key : string) : Z :=
  default 0%Z (get key v ≫= fun v => or_else (as_i64 v) (f64_as_i64 <$> as_f64 v)).

Definition opt_member (k : string) (v : option value) : object := match v with Some v => [(k, v)] | None => [] end.
Definition anthropic_usage (prompt_tokens completion_tokens : Z) (cache_read cache_creation : option Z) : value :=
  let cached := i64_add (default 0%Z cache_read) (default 0%Z cache_creation) in
  JObject
    ([("input_tokens", json_i64 (Z.max (i64_sub prompt_tokens cached) 0)); ("output_tokens", json_i64 completion_tokens)] ++
     opt_member "cache_read_input_tokens" (json_i64 <$> cache_read) ++
     opt_member "cache_creation_input_tokens" (json_i64 <$> cache_creation)).
Definition messages_usage (usage : option value) : value :=
  let usage := json_null_or usage in
  let '(cache_read, cache_creation) := chat_cache_tokens usage in
  anthropic_usage (i64_field usage "prompt_tokens") (i64_field usage "completion_tokens") cache_read cache_creation.
Definition responses_usage (usage : option value) : value :=
  let usage := json_null_or usage in
  let input := i64_field usage "prompt_tokens" in
  let output := i64_field usage "completion_tokens" in
  let cached := default 0%Z (chat_cache_tokens usage).1 in
  let reasoning := from_option (fun details => i64_field details "reasoning_tokens") 0%Z (get "completion_tokens_details" usage) in
  let total := i64_field usage "total_tokens" in
  let total := if (total =? 0)%Z then i64_add input output else total in
  JObject
    [("input_tokens", json_i64 input);
     ("input_tokens_details", JObject [("cached_tokens", json_i64 cached)]);
     ("output_tokens", json_i64 output);
     ("output_tokens_details", JObject [("reasoning_tokens", json_i64 reasoning)]);
     ("total_tokens", json_i64 total)].

(** ** How a turn ended *)
Definition transform_finish_reason (stop_reason : option string) (strict : bool) : string :=
  match stop_reason with
  | None => "stop"
  | Some reason =>
      if negb strict then reason
      else if bool_decide (reason = "tool_use") then "tool_calls"
      else if bool_decide (reason = "max_tokens") then "length"
      else "stop"
  end.

Inductive ChatFinish : Type := Stop | Length | ContentFilter.
#[global] Instance ChatFinish_eq_dec : EqDecision ChatFinish.
Proof. solve_decision. Defined.
Definition finish_parse (reason : option string) : ChatFinish :=
  match to_ascii_lowercase <$> reason with
  | Some r =>
      if bool_decide (r = "length") || bool_decide (r = "max_tokens") then Length
      else if bool_decide (r = "content_filter") then ContentFilter
      else Stop
  | None => Stop
  end.
Definition truncated (finish : ChatFinish) : bool := match finish with Length | ContentFilter => true | Stop => false end.
Definition stop_reason (finish : ChatFinish) (has_tool_calls : bool) : string :=
  match finish with
  | Length => "max_tokens"
  | ContentFilter => "refusal"
  | Stop => if has_tool_calls then "tool_use" else "end_turn"
  end.
Definition responses_status (finish : ChatFinish) : string * value :=
  match finish with
  | Length => ("incomplete", JObject [("reason", JString "max_output_tokens")])
  | ContentFilter => ("incomplete", JObject [("reason", JString "content_filter")])
  | Stop => ("completed", JNull)
  end.

(** ** Reading a chat message *)
Definition concat_strings (l : list string) : string := foldr (fun s r => s +:+ r) "" l.
Definition chat_text (v : option value) : string :=
  match v with
  | Some (JString text) => text
  | Some (JArray parts) => concat_strings (omap (get_str "text") parts)
  | _ => ""
  end.
Definition chat_created (now_secs : Z) (response : value) : Z := default now_secs (get "created" response ≫= as_u64).
Definition reasoning_text (message : value) : option string :=
  filter_some non_empty (or_else (get_str "reasoning_content" message) (get_str "reasoning" message)).

Definition responses_annotation (annotation : value) : option value :=
  if bool_decide (get "type" annotation = Some (JString "url_citation")) then
    match get "url_citation" annotation with
    | Some (JObject citation) => Some (JObject (obj_insert "type" (JString "url_citation") citation))
    | _ => None
    end
  else None.
Definition responses_annotations (annotations : option value) : list value :=
  omap responses_annotation (default [] (annotations ≫= as_array)).

Record ChatToolCall : Type := mkChatToolCall {
  call_id : string;
  call_name : string;
  call_arguments : string;
}.
Definition synthesized_call_id (response_id : string) (index : nat) : string :=
  "call_" +:+ response_id +:+ "_" +:+ pretty index.
Definition chat_tool_call (response_id : string) (index : nat) (call : value) : option ChatToolCall :=
  let field key := default "" (get "function" call ≫= get_str key) in
  let name := trim (field "name") in
  if non_empty name then
    let id := match get_str "id" call with
              | Some id => if non_empty (trim id) then id else synthesized_call_id response_id index
              | None => synthesized_call_id response_id index
              end in
    Some (mkChatToolCall id name (field "arguments"))
  else None.
Definition chat_tool_calls (calls : list value) (response_id : string) : list ChatToolCall :=
  omap id (imap (chat_tool_call response_id) calls).

(** ** The parts of a message and of a Responses object *)
Definition item_id (kind response_id : string) (output_index : nat) : string :=
  kind +:+ "_" +:+ response_id +:+ "_" +:+ pretty output_index.
Definition thinking_block (thinking : string) : value :=
  JObject [("type", JString "thinking"); ("thinking", JString thinking); ("signature", JString "")].
Definition text_block (text : string) : value := JObject [("type", JString "text"); ("text", JString text)].
Definition tool_use_block (id name : string) (input : value) : value :=
  JObject [("type", JString "tool_use"); ("id", JString id); ("name", JString name); ("input", input)].
Definition reasoning_part (text : string) : value :=
  JObject [("type", JString "reasoning_text"); ("text", JString text)].
Definition reasoning_item (id text status : string) : value :=
  JObject
    [("id", JString id); ("type", JString "reasoning"); ("summary", JArray []);
     ("content", JArray [reasoning_part text]); ("status", JString status)].
Definition message_item (id : string) (content : list value) (status : string) : value :=
  JObject
    [("id", JString id); ("type", JString "message"); ("role", JString "assistant"); ("status", JString status);
     ("content", JArray content)].
Definition output_text_part (text : string) (annotations : list value) : value :=
  JObject [("type", JString "output_text"); ("text", JString text); ("annotations", JArray annotations)].
Definition refusal_part (refusal : string) : value :=
  JObject [("type", JString "refusal"); ("refusal", JString refusal)].
Definition unusable_tool_calls_error : value :=
  JObject [("code", JString "server_error");
           ("message", JString "The upstream provider returned tool calls without a name")].
Definition malformed_response_error : value :=
  JObject [("code", JString "server_error");
           ("message", JString "The upstream provider returned a malformed response")].

Record ResponsesHead : Type := mkHead {
  head_id : string;
  head_created_at : Z;
  head_model : value;
  head_status : string;
  head_incomplete_details : value;
  head_error : value;
}.
Definition extend (m : object) (members : object) : object := foldl (fun m kv => obj_insert kv.1 kv.2 m) m members.
Definition responses_object (echo : value) (head : ResponsesHead) (output : list value) (usage : option value) : value :=
  JObject (extend (match echo with JObject m => m | _ => [] end)
    [("id", JString (head_id head)); ("object", JString "response");
     ("created_at", json_i64 (head_created_at head)); ("model", head_model head);
     ("status", JString (head_status head)); ("incomplete_details", head_incomplete_details head);
     ("error", head_error head); ("output", JArray output); ("usage", json_null_or usage)]).

Definition first_choice (response : value) : option value := (get "choices" response ≫= as_array) ≫= head.
Definition chat_message (choice : option value) : option value :=
  filter_some is_object (choice ≫= get "message").
Definition chat_finish (choice : option value) : ChatFinish := finish_parse (choice ≫= get_str "finish_reason").
Definition message_tool_calls (message : value) : list value := default [] (get "tool_calls" message ≫= as_array).

Section Conversions.
Context {SJ : SerdeJson} {SH : Sha} {HX : HexCodec}.

Definition parse_json (text : string) : option value := result_ok (from_slice (as_bytes text)).
Definition json_str (v : value) : string := of_bytes (to_vec v).

Definition custom_tool_input (arguments : string) : option string :=
  match parse_json arguments with Some (JObject m) => obj_get "input" m ≫= as_str | _ => None end.
Definition function_call_arguments (arguments : string) : option string :=
  if bool_decide (trim arguments = "") then Some "{}"
  else v ← parse_json arguments; if is_object v then Some arguments else None.

(** ** Anthropic to OpenAI *)
Definition text_of_item (item : value) : option string :=
  if bool_decide (get_str "type" item = Some "text") then get_str "text" item else None.
Definition tool_call_of_item (item : value) : option value :=
  if bool_decide (get_str "type" item = Some "tool_use") then
    Some (JObject
      [("id", json_null_or (get "id" item)); ("type", JString "function");
       ("function", JObject
         [("name", json_null_or (get "name" item));
          ("arguments", JString (json_str (json_null_or (get "input" item))))])])
  else None.
Definition openai_usage (usage_src : value) : value :=
  let input := i64_field usage_src "input_tokens" in
  let output := i64_field usage_src "output_tokens" in
  let cache_creation := i64_field usage_src "cache_creation_input_tokens" in
  let cache_read := i64_field usage_src "cache_read_input_tokens" in
  JObject
    ([("prompt_tokens", json_i64 (i64_add (i64_add input cache_creation) cache_read));
      ("completion_tokens", json_i64 output);
      ("total_tokens", json_i64 (i64_add (i64_add (i64_add input output) cache_creation) cache_read))] ++
     (if negb (cache_creation =? 0)%Z || negb (cache_read =? 0)%Z then
        opt_member "cache_read_input_tokens" (get "cache_read_input_tokens" usage_src) ++
        opt_member "cache_creation_input_tokens" (get "cache_creation_input_tokens" usage_src)
      else [])).
Definition anthropic_chat_to_openai (now_secs : Z) (response : value) (strict : bool) : value :=
  let content_items := default [] (get "content" response ≫= as_array) in
  let content := concat_strings (omap text_of_item content_items) in
  let tool_calls := omap tool_call_of_item content_items in
  let usage := openai_usage (json_null_or (get "usage" response)) in
  let message :=
    [("role", JString "assistant"); ("content", JString content)] ++
    (if bool_decide (tool_calls = []) then [] else [("tool_calls", JArray tool_calls)]) ++
    (if strict then []
     else [("content_blocks",
            JArray (filter (fun item => get_str "type" item ≠ Some "tool_use") content_items))]) in
  JObject
    [("id", json_null_or (get "id" response)); ("object", JString "chat.completion"); ("created", json_i64 now_secs);
     ("model", json_null_or (get "model" response)); ("provider", JString "anthropic");
     ("choices", JArray [JObject
       [("message", JObject message); ("index", json_i64 0); ("logprobs", JNull);
        ("finish_reason", JString (transform_finish_reason (get_str "stop_reason" response) strict))]]);
     ("usage", usage)].
Definition anthropic_complete_to_openai (now_secs : Z) (response : value) : value :=
  JObject
    [("id", json_null_or (get "log_id" response)); ("object", JString "text_completion"); ("created", json_i64 now_secs);
     ("model", json_null_or (get "model" response)); ("provider", JString "anthropic");
     ("choices", JArray [JObject
       [("text", json_null_or (get "completion" response)); ("index", json_i64 0); ("logprobs", JNull);
        ("finish_reason", json_null_or (get "stop_reason" response))]])].

(** ** Chat to Responses *)
Definition ECHOED_MEMBERS : list string :=
  ["instructions"; "tool_choice"; "parallel_tool_calls"; "temperature"; "top_p"; "max_output_tokens"; "text";
   "reasoning"; "metadata"; "truncation"; "user"].
Definition responses_echo (params : value) : value :=
  let echo := copy_members ECHOED_MEMBERS params [] in
  let echo := match effective_responses_tools params with
              | Ok tools => if bool_decide (tools = []) then echo else obj_insert "tools" (JArray tools) echo
              | Err _ => echo
              end in
  JObject (obj_insert "store" (JBool false) echo).

Definition responses_call_item (tool_map : ResponsesToolMap) (call_id name value status : string) : Json.value :=
  if is_tool_search tool_map name then
    let arguments := default (JObject []) (filter_some is_object (parse_json value)) in
    JObject
      [("id", JString ("tsc_" +:+ call_id)); ("type", JString "tool_search_call"); ("call_id", JString call_id);
       ("status", JString status); ("execution", JString "client"); ("arguments", arguments)]
  else
    let ns := namespace tool_map name in
    let '(kind, prefix, key) :=
      if is_custom tool_map name then ("custom_tool_call", "ctc", "input") else ("function_call", "fc", "arguments") in
    JObject
      ([("id", JString (prefix +:+ "_" +:+ call_id)); ("type", JString kind); ("call_id", JString call_id);
        ("name", JString (from_option nt_name name ns)); (key, JString value); ("status", JString status)] ++
       opt_member "namespace" (JString ∘ nt_namespace <$> ns)).
Definition responses_call_value (tool_map : ResponsesToolMap) (name arguments : string) (cut : bool) : option string :=
  or_else (if is_custom tool_map name then custom_tool_input arguments else function_call_arguments arguments)
    (if cut then None else Some arguments).
Definition responses_call (tool_map : ResponsesToolMap) (cut : bool) (call : ChatToolCall) : Json.value :=
  match responses_call_value tool_map (call_name call) (call_arguments call) cut with
  | Some value => responses_call_item tool_map (call_id call) (call_name call) value "completed"
  | None => responses_call_item tool_map (call_id call) (call_name call) "" "incomplete"
  end.

(** [if let Some(item) = output.last_mut()]. *)
Definition on_last {A} (f : A -> A) (l : list A) : list A :=
  match last l with Some a => removelast l ++ [f a] | None => l end.

Definition openai_chat_to_responses (now_secs : Z) (response echo : value) (id : string) : value :=
  let tool_map := from_echo echo in
  let choice := first_choice response in
  let message := chat_message choice in
  let finish := chat_finish choice in
  let error := or_else (non_null (get "error" response))
                 (match message with None => Some malformed_response_error | Some _ => None end) in
  let message := json_null_or message in
  let reasoning := reasoning_text message in
  let output := match reasoning with
                | Some text => [reasoning_item (item_id "rs" id 0) text "completed"]
                | None => []
                end in
  let text := chat_text (get "content" message) in
  let refusal := chat_text (get "refusal" message) in
  let tool_calls := message_tool_calls message in
  let parts :=
    (if non_empty text || (bool_decide (refusal = "") && bool_decide (tool_calls = []) && bool_decide (reasoning = None))
     then [output_text_part text (responses_annotations (get "annotations" message))] else []) ++
    (if non_empty refusal then [refusal_part refusal] else []) in
  let output :=
    if negb (bool_decide (parts = [])) && negb (is_null message)
    then output ++ [message_item (item_id "msg" id (length output)) parts "completed"] else output in
  let output :=
    if truncated finish && bool_decide (tool_calls = [])
    then on_last (set_member "status" (JString "incomplete")) output else output in
  let calls := chat_tool_calls tool_calls id in
  let error :=
    if bool_decide (length calls = 0) && negb (bool_decide (tool_calls = [])) && negb (truncated finish)
    then or_else error (Some unusable_tool_calls_error) else error in
  let output := output ++ (responses_call tool_map (truncated finish) <$> calls) in
  let '(status, incomplete_details, error) :=
    match error with
    | Some error => ("failed", JNull, error)
    | None => let '(status, details) := responses_status finish in (status, details, JNull)
    end in
  responses_object echo
    (mkHead id (chat_created now_secs response) (json_null_or (get "model" response)) status incomplete_details error)
    output (Some (responses_usage (get "usage" response))).

(** ** Chat to Messages *)
Definition messages_id (now_millis : Z) (response : value) : string :=
  match get_str "id" response with
  | Some id => if non_empty id then id else "msg_" +:+ pretty now_millis
  | None => "msg_" +:+ pretty now_millis
  end.
Definition tool_use_of_call (finish : ChatFinish) (call : ChatToolCall) : option value :=
  let input := function_call_arguments (call_arguments call) in
  if bool_decide (input = None) && truncated finish then None
  else Some (tool_use_block (call_id call) (call_name call) (default (JObject []) (input ≫= parse_json))).
Definition openai_to_anthropic_messages (now_millis : Z) (response : value) : result string value :=
  if negb (is_null_or_absent (get "error" response)) then Err "chat response reports an error"
  else
    let choice := first_choice response in
    message ← ok_or "chat response requires a message" (chat_message choice);
    let finish := chat_finish choice in
    let id := messages_id now_millis response in
    let content :=
      match reasoning_text message with Some thinking => [thinking_block thinking] | None => [] end ++
      (text_block <$> filter (fun text => non_empty text = true)
         [chat_text (get "content" message); chat_text (get "refusal" message)]) in
    let tool_calls := message_tool_calls message in
    let calls := chat_tool_calls tool_calls id in
    if bool_decide (length calls = 0) && negb (bool_decide (tool_calls = [])) && negb (truncated finish)
    then Err "chat response has tool calls, none of them with a name"
    else
      let uses := omap (tool_use_of_call finish) calls in
      let content := content ++ uses in
      let content := if bool_decide (content = []) then [text_block ""] else content in
      Ok (JObject
        [("id", JString id); ("type", JString "message"); ("role", JString "assistant"); ("content", JArray content);
         ("model", json_null_or (get "model" response));
         ("stop_reason", JString (stop_reason finish (negb (bool_decide (uses = [])))));
         ("stop_sequence", JNull); ("usage", messages_usage (get "usage" response))]).

Definition transform_response (now_secs now_millis : Z) (format : ProviderFormat) (endpoint : Endpoint) (body : value) :
    result string value :=
  let body := if bool_decide (format = Openai) then normalize_reasoning_usage body else body in
  match format, endpoint with
  | Anthropic, ChatComplete => Ok (anthropic_chat_to_openai now_secs body STRICT_OPENAI_COMPLIANCE)
  | Anthropic, Complete => Ok (anthropic_complete_to_openai now_secs body)
  | Openai, Messages => openai_to_anthropic_messages now_millis body
  | _, _ => Ok body
  end.
End Conversions.
