(* ===== verification/EventStream.v ===== *)
(** * Events of a byte stream (src/middleware/stream_transform.rs)

    [SseEventReader] cuts the upstream's bytes into events whatever chunks they
    arrive in, under a cap; [parse_event] reduces an event to its name and payload;
    [edit_event_body] rewrites the payload of one event in place, which is how the
    same-format streams are sanitized.  The reference for the reader is the reading
    of the whole stream of SseFraming: normalize the line breaks, split lines, split
    events. *)
From Stdlib Require Import SpecFloat.
From S2P Require Import Prelude Text Json External Sample SseProtocol UpstreamErrors Images Sanitize SseFraming ToolMap Conversion.

(** [MAX_SSE_LINE_BYTES] (src/middleware/sse.rs). *)
Definition MAX_SSE_LINE_BYTES : Z := 16 * 1024 * 1024.

(** ** [String::from_utf8_lossy]: each maximal invalid part becomes U+FFFD. *)
Definition replacement : bytes := [u8 239; u8 191; u8 189].
Fixpoint utf8_lossy (l : bytes) : bytes :=
  match l with
  | [] => []
  | c :: l1 =>
      if in_range 0 127 c then c :: utf8_lossy l1
      else if in_range 194 223 c then
        match l1 with
        | c1 :: l2 => if is_continuation c1 then c :: c1 :: utf8_lossy l2 else replacement ++ utf8_lossy l1
        | [] => replacement
        end
      else if in_range 224 239 c then
        match l1 with
        | c1 :: l2 =>
            if utf8_second (byte c) c1 then
              match l2 with
              | c2 :: l3 => if is_continuation c2 then c :: c1 :: c2 :: utf8_lossy l3 else replacement ++ utf8_lossy l2
              | [] => replacement
              end
            else replacement ++ utf8_lossy l1
        | [] => replacement
        end
      else if in_range 240 244 c then
        match l1 with
        | c1 :: l2 =>
            if utf8_second (byte c) c1 then
              match l2 with
              | c2 :: l3 =>
                  if is_continuation c2 then
                    match l3 with
                    | c3 :: l4 =>
                        if is_continuation c3 then c :: c1 :: c2 :: c3 :: utf8_lossy l4 else replacement ++ utf8_lossy l3
                    | [] => replacement
                    end
                  else replacement ++ utf8_lossy l2
              | [] => replacement
              end
            else replacement ++ utf8_lossy l1
        | [] => replacement
        end
      else replacement ++ utf8_lossy l1
  end.
Definition event_string (buf : bytes) : string := of_bytes (if is_utf8 buf then buf else utf8_lossy buf).

(** ** The reader *)
Record SseEventReader : Type := mkReader {
  event_buf : bytes;
  line_start : nat;
  pending_cr : bool;
}.
Definition reader_default : SseEventReader := mkReader [] 0 false.

Definition end_line (r : SseEventReader) (events : list string) : SseEventReader * list string :=
  if length (event_buf r) =? line_start r then
    (mkReader [] 0 (pending_cr r),
     if bool_decide (event_buf r = []) then events else events ++ [event_string (event_buf r)])
  else
    let buf := event_buf r ++ [lf] in
    (mkReader buf (length buf) (pending_cr r), events).

Definition reader_over_cap (r : SseEventReader) : bool := (MAX_SSE_LINE_BYTES <? Z.of_nat (length (event_buf r)))%Z.
Fixpoint push_chunk (chunk : bytes) (r : SseEventReader) (events : list string) :
    result unit unit * SseEventReader * list string :=
  match chunk with
  | [] => (Ok tt, r, events)
  | b :: chunk' =>
      if pending_cr r && bool_decide (b = lf) then
        push_chunk chunk' (mkReader (event_buf r) (line_start r) false) events
      else
        let '(r, events) :=
          if bool_decide (b = cr) || bool_decide (b = lf) then
            end_line (mkReader (event_buf r) (line_start r) (bool_decide (b = cr))) events
          else (mkReader (event_buf r ++ [b]) (line_start r) false, events) in
        if reader_over_cap r then (Err tt, r, events) else push_chunk chunk' r events
  end.
Definition reader_finish (r : SseEventReader) : option string * SseEventReader :=
  (if bool_decide (event_buf r = []) then None else Some (event_string (event_buf r)), mkReader [] 0 (pending_cr r)).

(** ** Parsing an event *)
(** [str::lines]: a line ends in LF or CRLF; the last may lack its end. *)
Definition strip_cr (line : bytes) : bytes := if bool_decide (last line = Some cr) then removelast line else line.
Definition str_lines (s : string) : list bytes :=
  let '(ls, rest) := split_lines (as_bytes s) in
  (strip_cr <$> ls) ++ (if bool_decide (rest = []) then [] else [rest]).
Definition trim_end_cr (line : bytes) : bytes := trim_end_by [[cr]] line.
Definition event_lines (event : string) : list bytes := trim_end_cr <$> str_lines event.

(** The first byte that is not white space opens a JSON payload. *)
Definition json_like (line : bytes) : bool :=
  match trim_start_by (length line) white_space line with
  | c :: _ => bool_decide (c ∈ [u8 123; u8 91; u8 34])
  | [] => false
  end.
Definition colon : ascii := u8 58.
(** [line.split_once(':')]. *)
Fixpoint split_colon (line : bytes) : option (bytes * bytes) :=
  match line with
  | [] => None
  | c :: l => if bool_decide (c = colon) then Some ([], l) else (fun '(k, v) => (c :: k, v)) <$> split_colon l
  end.

Record ParsedEvent : Type := mkParsed {
  pe_name : option string;
  pe_data : option string;
}.
Definition push_line (buf : option bytes) (line : bytes) : option bytes :=
  let b := default [] buf in
  Some ((if bool_decide (b = []) then b else b ++ [lf]) ++ line).

Record FieldScan : Type := mkFields {
  fs_name : option string;
  fs_data : option bytes;
  fs_bare : option bytes;
}.
Definition scan_line (s : FieldScan) (line : bytes) : FieldScan :=
  if bool_decide (line = []) || is_comment line then s
  else
    match (if json_like line then None else split_colon line) with
    | Some (field, rest) =>
        let value := default rest (strip_bytes (as_bytes " ") rest) in
        if bool_decide (field = as_bytes "event") then mkFields (Some (trim (of_bytes value))) (fs_data s) (fs_bare s)
        else if bool_decide (field = as_bytes "data") then mkFields (fs_name s) (push_line (fs_data s) value) (fs_bare s)
        else s
    | None => mkFields (fs_name s) (fs_data s) (push_line (fs_bare s) line)
    end.
Definition parse_event (event : string) : ParsedEvent :=
  let s := foldl scan_line (mkFields None None None) (event_lines event) in
  let data := match fs_data s with
              | Some data => Some data
              | None => filter_some (fun b => non_empty (trim (of_bytes b))) (fs_bare s)
              end in
  mkParsed (fs_name s) (of_bytes <$> data).
Definition event_payload (event : ParsedEvent) : string := trim (default "" (pe_data event)).

(** ** Rewriting an event *)
Definition framed_event (event : string) : string :=
  let event := as_bytes event in
  of_bytes ((if bool_decide (last event = Some lf) then event else event ++ [lf]) ++ [lf]).

Definition has_field (name : string) (line : bytes) : bool :=
  from_option (fun '(field, _) => bool_decide (field = as_bytes name)) false (split_colon line).
Definition is_payload_line (has_data_field : bool) (line : bytes) : bool :=
  has_field "data" line ||
  (negb has_data_field && negb (bool_decide (line = [])) && negb (is_comment line) &&
   (json_like line || negb (bool_decide (colon ∈ line)))).

(** The output of one line; [replaced] says whether the payload has been written. *)
Definition replace_line (has_data_field : bool) (replacement : bytes) (event_name : option string)
    (line : bytes) (replaced : bool) : bytes * bool :=
  if is_payload_line has_data_field line then
    if replaced then ([], true)
    else ((if has_data_field then as_bytes "data: " else []) ++ replacement ++ [lf], true)
  else
    match event_name with
    | Some name => if has_field "event" line then (as_bytes "event: " ++ as_bytes name ++ [lf], replaced)
                   else (line ++ [lf], replaced)
    | None => (line ++ [lf], replaced)
    end.
Fixpoint replace_lines (has_data_field : bool) (replacement : bytes) (event_name : option string)
    (lines : list bytes) (replaced : bool) : bytes :=
  match lines with
  | [] => [lf]
  | line :: lines' =>
      let '(out, replaced) := replace_line has_data_field replacement event_name line replaced in
      out ++ replace_lines has_data_field replacement event_name lines' replaced
  end.
Definition replace_data_fields (event replacement : string) (event_name : option string) : string :=
  let lines := event_lines event in
  of_bytes (replace_lines (existsb (has_field "data") lines) (as_bytes replacement) event_name lines false).

(** [==] of two documents: members in any order, floats by their value. *)
Definition number_eqb (a b : number) : bool :=
  match a, b with
  | PosInt a, PosInt b => (a =? b)%Z
  | NegInt a, NegInt b => (a =? b)%Z
  | Float a, Float b => SFeqb a b
  | _, _ => false
  end.
Fixpoint value_eqb (a b : value) : bool :=
  match a, b with
  | JNull, JNull => true
  | JBool a, JBool b => Bool.eqb a b
  | JNumber a, JNumber b => number_eqb a b
  | JString a, JString b => bool_decide (a = b)
  | JArray a, JArray b =>
      (fix items (a b : list value) : bool :=
         match a, b with
         | [], [] => true
         | x :: a', y :: b' => value_eqb x y && items a' b'
         | _, _ => false
         end) a b
  | JObject a, JObject b =>
      (length a =? length b) &&
      forallb (fun kv => match obj_get kv.1 b with Some v => value_eqb kv.2 v | None => false end) a
  | _, _ => false
  end.

Section Edit.
Context {SJ : SerdeJson}.
Definition edit_event_body (event : string) (edit : value -> value) : string :=
  match pe_data (parse_event event) with
  | None => framed_event event
  | Some payload =>
      let payload := trim payload in
      if bool_decide (payload = "") || bool_decide (payload = "[DONE]") then framed_event event
      else
        match parse_json payload with
        | None => framed_event event
        | Some original =>
            let body := edit original in
            if value_eqb body original then framed_event event
            else
              let renamed :=
                match get_str "type" original, get_str "type" body with
                | Some old, Some new => if bool_decide (old = new) then None else Some new
                | _, _ => None
                end in
              replace_data_fields event (json_str body) renamed
        end
  end.
End Edit.

(** ** The reader cuts the stream at its blank lines *)
Record reading (pend : list bytes) (cur : bytes) (r : SseEventReader) : Prop := {
  reading_buf : event_buf r = unlines pend ++ cur;
  reading_start : line_start r = length (unlines pend);
  reading_pend : [] ∉ pend;
  reading_cur : lf ∉ cur;
}.
Definition event_texts (es : list (list bytes)) : list string :=
  (fun lines => event_string (unlines lines)) <$> filter (fun lines => lines ≠ []) es.

Lemma unlines_nil ls : unlines ls = [] <-> ls = [].
Proof. split; [|by intros ->]. destruct ls as [|l ls]; [done|]. unfold unlines. simpl. intros H. by destruct l. Qed.
Lemma unlines_snoc ls l : unlines (ls ++ [l]) = unlines ls ++ l ++ [lf].
Proof. unfold unlines. rewrite fmap_app, concat_app. simpl. by rewrite app_nil_r. Qed.

Lemma end_line_blank pend r events : reading pend [] r ->
  let '(r', events') := end_line r events in
  events' = events ++ event_texts [pend] /\ reading [] [] r' /\ pending_cr r' = pending_cr r.
Proof.
  intros [Hb Hs Hp _]. unfold end_line. rewrite Hb, app_nil_r, Hs, Nat.eqb_refl. split; [|by split; [split; [..|set_solver|set_solver]|]].
  unfold event_texts. rewrite filter_cons. case_bool_decide as Hu; rewrite unlines_nil in Hu.
  - subst. simpl. by rewrite app_nil_r.
  - by rewrite decide_True.
Qed.
Lemma end_line_field pend cur r events : cur ≠ [] -> reading pend cur r ->
  let '(r', events') := end_line r events in
  events' = events /\ reading (pend ++ [cur]) [] r' /\ pending_cr r' = pending_cr r.
Proof.
  intros Hcur [Hb Hs Hp Hlf]. unfold end_line. rewrite Hb, Hs.
  destruct (Nat.eqb_spec (length (unlines pend ++ cur)) (length (unlines pend))) as [He|_].
  { rewrite length_app in He. destruct cur; [done|]. simpl in He. lia. }
  split; [done|]. split; [|done]. rewrite <- app_assoc, <- unlines_snoc. split; simpl; [by rewrite app_nil_r|done|set_solver|set_solver].
Qed.

Lemma push_chunk_events s : forall r events r' events' pend cur,
  reading pend cur r -> push_chunk s r events = (Ok tt, r', events') ->
  let lines := split_lines (cur ++ normalize_breaks (if pending_cr r then drop_lf s else s)) in
  let cut := split_events (pend ++ lines.1) in
  events' = events ++ event_texts cut.1 /\ reading cut.2 lines.2 r'.
Proof.
  induction s as [|b s IH]; intros r events r' events' pend cur Hr; simpl.
  - intros [= <- <-]. assert (normalize_breaks (if pending_cr r then [] else []) = []) as -> by (by destruct (pending_cr r)).
    rewrite app_nil_r, split_lines_rest by apply Hr. cbn [fst snd].
    rewrite app_nil_r, split_events_rest by apply Hr. cbn. by rewrite app_nil_r.
  - destruct (pending_cr r && bool_decide (b = lf)) eqn:Hskip.
    { apply andb_prop in Hskip as [Hp Hb]. rewrite Hp. simpl. rewrite Hb. intros Hpush.
      apply (IH _ _ _ _ pend cur) in Hpush; [done|by destruct Hr]. }
    assert ((if pending_cr r then if bool_decide (b = lf) then s else b :: s else b :: s) = b :: s) as ->
      by (destruct (pending_cr r), (bool_decide (b = lf)); done).
    destruct (bool_decide (b = cr) || bool_decide (b = lf)) eqn:Hbr.
    + assert (normalize_breaks (b :: s) = lf :: normalize_breaks (if bool_decide (b = cr) then drop_lf s else s)) as Hn.
      { apply orb_prop in Hbr as [Hx%bool_decide_eq_true|Hx%bool_decide_eq_true]; subst b; [apply normalize_cr|done]. }
      rewrite Hn, split_lines_line by apply Hr. cbn [fst snd].
      set (r0 := mkReader _ _ _). assert (Hr0 : reading pend cur r0) by (by destruct Hr).
      destruct (decide (cur = [])) as [->|Hcur].
      * pose proof (end_line_blank pend r0 events Hr0) as He. destruct (end_line r0 events) as [r1 ev1].
        destruct He as (-> & Hr1 & Hp1). destruct (reader_over_cap r1); [done|]. intros Hpush.
        apply (IH _ _ _ _ [] []) in Hpush; [|done]. rewrite Hp1 in Hpush. simpl in Hpush.
        rewrite split_events_blank by apply Hr. cbn [fst snd]. destruct Hpush as [-> Hr']. split; [|done].
        rewrite <- app_assoc. f_equal. unfold event_texts. rewrite !filter_cons. by destruct (decide _).
      * pose proof (end_line_field pend cur r0 events Hcur Hr0) as He. destruct (end_line r0 events) as [r1 ev1].
        destruct He as (-> & Hr1 & Hp1). destruct (reader_over_cap r1); [done|]. intros Hpush.
        apply (IH _ _ _ _ (pend ++ [cur]) []) in Hpush; [|done]. rewrite Hp1 in Hpush. simpl in Hpush.
        by rewrite <- app_assoc in Hpush.
    + apply orb_false_iff in Hbr as [Hc Hl]. cbn [normalize_breaks]. rewrite Hc. apply bool_decide_eq_false in Hl.
      destruct (reader_over_cap _); [done|]. intros Hpush. apply (IH _ _ _ _ pend (cur ++ [b])) in Hpush.
      * simpl in Hpush. by rewrite <- app_assoc in Hpush.
      * destruct Hr as [Hb Hs Hp Hlf]. split; simpl; [by rewrite Hb, app_assoc|done|done|set_solver].
Qed.

(** The chunks of a stream as one: the reader carries everything between them. *)
Lemma push_chunk_app c1 c2 r events : push_chunk (c1 ++ c2) r events =
  match push_chunk c1 r events with
  | (Ok tt, r', events') => push_chunk c2 r' events'
  | failed => failed
  end.
Proof.
  revert r events. induction c1 as [|b c1 IH]; intros r events; simpl; [done|].
  destruct (_ && _); [apply IH|]. destruct (if _ || _ then _ else _) as [r1 ev1].
  destruct (reader_over_cap r1); [done|apply IH].
Qed.
Fixpoint push_chunks (chunks : list bytes) (r : SseEventReader) (events : list string) :
    result unit unit * SseEventReader * list string :=
  match chunks with
  | [] => (Ok tt, r, events)
  | c :: chunks' =>
      match push_chunk c r events with
      | (Ok tt, r', events') => push_chunks chunks' r' events'
      | failed => failed
      end
  end.
Lemma push_chunks_concat chunks r events : push_chunks chunks r events = push_chunk (concat chunks) r events.
Proof.
  revert r events. induction chunks as [|c chunks IH]; intros r events; simpl; [done|].
  rewrite push_chunk_app. by destruct (push_chunk c r events) as [[[[]|[]] r'] ev'].
Qed.

(** The buffer holds at most the cap and one more byte, and a stream no longer than the cap is
    read to its end. *)
Lemma end_line_length r events : length (event_buf (end_line r events).1) <= S (length (event_buf r)).
Proof. unfold end_line. case_match; simpl; [lia|]. rewrite length_app. simpl. lia. Qed.
Lemma push_chunk_bounded s r events : reader_over_cap r = false ->
  let '(outcome, r', _) := push_chunk s r events in
  (Z.of_nat (length (event_buf r')) <= MAX_SSE_LINE_BYTES + 1)%Z /\
  (outcome = Ok tt -> reader_over_cap r' = false) /\
  ((Z.of_nat (length (event_buf r)) + Z.of_nat (length s) <= MAX_SSE_LINE_BYTES)%Z -> outcome = Ok tt).
Proof.
  unfold reader_over_cap. revert r events. induction s as [|b s IH]; intros r events Hr; simpl; [split; [lia|done]|].
  destruct (_ && _). { pose proof (IH (mkReader (event_buf r) (line_start r) false) events Hr) as HIH. revert HIH.
    destruct (push_chunk s _ events) as [[o r'] ev']. simpl. intros (? & ? & HIH). split; [done|]. split; [done|].
    intros Hl. apply HIH. lia. }
  match goal with |- context [if _ || _ then ?step else ?step'] => set (e := end_line _ _); set (a := mkReader (event_buf r ++ [b]) _ _) end.
  assert (He : length (event_buf e.1) <= S (length (event_buf r))) by exact (end_line_length (mkReader (event_buf r) (line_start r) (bool_decide (b = cr))) events).
  assert (Ha : length (event_buf a) <= S (length (event_buf r))) by (simpl; rewrite length_app; simpl; lia).
  destruct (if _ || _ then e else (a, events)) as [r1 ev1] eqn:Hif.
  assert (Hstep : length (event_buf r1) <= S (length (event_buf r))).
  { destruct (_ || _); [rewrite Hif in He; exact He|by injection Hif as <- <-]. }
  clear e a He Ha Hif.
  destruct (reader_over_cap r1) eqn:Ho; unfold reader_over_cap in Ho.
  - split; [lia|]. split; [done|]. lia.
  - pose proof (IH r1 ev1 Ho) as HIH. revert HIH. destruct (push_chunk s r1 ev1) as [[o r'] ev']. intros (? & ? & HIH).
    split; [done|]. split; [done|]. intros Hl. apply HIH. lia.
Qed.

(** The events of a byte stream, and the block left open at its end. *)
Definition stream_blocks (s : bytes) : list string := event_texts (split_events (split_lines (normalize_breaks s)).1).1.
Definition stream_residual (s : bytes) : option string :=
  let stream := split_lines (normalize_breaks s) in
  let cut := split_events stream.1 in
  if bool_decide (cut.2 = [] /\ stream.2 = []) then None else Some (event_string (unlines cut.2 ++ stream.2)).
Lemma reader_reads chunks :
  let '(outcome, r, events) := push_chunks chunks reader_default [] in
  (outcome = Ok tt -> events = stream_blocks (concat chunks) /\ (reader_finish r).1 = stream_residual (concat chunks)) /\
  (Z.of_nat (length (event_buf r)) <= MAX_SSE_LINE_BYTES + 1)%Z /\
  ((Z.of_nat (length (concat chunks)) <= MAX_SSE_LINE_BYTES)%Z -> outcome = Ok tt).
Proof.
  rewrite push_chunks_concat. pose proof (push_chunk_bounded (concat chunks) reader_default [] eq_refl) as Hb. revert Hb.
  destruct (push_chunk (concat chunks) reader_default []) as [[outcome r] events] eqn:Hpush.
  intros (Hlen & _ & Hok). split; [|by split]. intros ->.
  assert (Hr : reading [] [] reader_default) by (split; [done|done|set_solver|set_solver]).
  destruct (push_chunk_events _ _ _ _ _ _ _ Hr Hpush) as [-> [Hbuf _ Hp _]]. split; [done|].
  unfold reader_finish, stream_residual. cbn [fst]. rewrite Hbuf. cbn [app pending_cr reader_default].
  erewrite (bool_decide_ext (_ = [])); [done|]. rewrite app_nil, unlines_nil. done.
Qed.

(** The transforming stream sees the events of the upstream's stream whatever the chunks:
    while no pending event exceeds the cap, the events completed are the blocks of lines that a
    blank line ends in the stream with its line breaks normalized, empty blocks skipped, and
    what the end of the stream flushes is the block left open. A stream no longer than the cap
    is always read to its end, and the buffer never holds more than the cap and one byte. *)
Theorem reader_refines_stream chunks :
  let '(outcome, r, events) := push_chunks chunks reader_default [] in
  (outcome = Ok tt -> events = stream_blocks (concat chunks) /\ (reader_finish r).1 = stream_residual (concat chunks)) /\
  (Z.of_nat (length (event_buf r)) <= MAX_SSE_LINE_BYTES + 1)%Z /\
  ((Z.of_nat (length (concat chunks)) <= MAX_SSE_LINE_BYTES)%Z -> outcome = Ok tt).
Proof. apply reader_reads. Qed.

(** ** An edited event keeps its framing *)
Definition field_line_ok (l : bytes) : Prop := l ≠ [] /\ lf ∉ l /\ cr ∉ l.

Lemma trim_end_cr_id l : cr ∉ l -> trim_end_cr l = l.
Proof.
  intros Hl. unfold trim_end_cr, trim_end_by. destruct (length l) as [|n] eqn:Hn; simpl.
  - apply reverse_involutive.
  - destruct (reverse l) as [|c r] eqn:Hr; [rewrite <- (reverse_involutive l), Hr; done|].
    assert (c ∈ l) by (rewrite <- elem_of_reverse, Hr; left). simpl.
    rewrite bool_decide_eq_false_2 by congruence. rewrite <- Hr. apply reverse_involutive.
Qed.
Lemma event_lines_unlines ls : Forall field_line_ok ls -> event_lines (of_bytes (unlines ls)) = ls.
Proof.
  intros Hls. unfold event_lines, str_lines. rewrite as_bytes_of_bytes, split_lines_unlines
    by (eapply Forall_impl; [exact Hls|by intros l (_ & Hl & _)]).
  rewrite bool_decide_eq_true_2, app_nil_r by done. rewrite <- list_fmap_compose.
  rewrite <- (list_fmap_id ls) at 2. apply list_fmap_ext. intros i l Hl%list_elem_of_lookup_2. simpl.
  rewrite Forall_forall in Hls. destruct (Hls l Hl) as (_ & _ & Hcr).
  unfold strip_cr. rewrite bool_decide_eq_false_2; [by apply trim_end_cr_id|].
  intros Hlast%last_Some_elem_of. done.
Qed.

Lemma split_colon_data line rest :
  split_colon line = Some (as_bytes "data", rest) <-> strip_bytes (as_bytes "data:") line = Some rest.
Proof.
  rewrite strip_bytes_spec. split.
  - revert rest. assert (Hgen : forall k rest, split_colon line = Some (k, rest) -> line = k ++ colon :: rest).
    { induction line as [|c l IH]; intros k rest; simpl; [done|]. case_bool_decide; [by intros [= <- <-]; subst|].
      destruct (split_colon l) as [[k' v]|]; simpl; [|done]. intros [= <- <-]. simpl. f_equal. by apply IH. }
    intros rest ->%Hgen. done.
  - by intros ->.
Qed.
Lemma data_not_json_like rest : json_like (as_bytes "data:" ++ rest) = false.
Proof. done. Qed.
Lemma data_not_comment rest : is_comment (as_bytes "data:" ++ rest) = false.
Proof. done. Qed.

Lemma scan_line_data s line : line ≠ [] -> fs_data (scan_line s line) =
  match (if is_comment line then None else data_value line) with Some v => push_line (fs_data s) v | None => fs_data s end.
Proof.
  intros Hne. unfold scan_line. rewrite bool_decide_eq_false_2 by done. simpl.
  destruct (is_comment line); [done|]. unfold data_value.
  destruct (strip_bytes (as_bytes "data:") line) as [rest|] eqn:Hd; simpl.
  - pose proof Hd as Hc. apply split_colon_data in Hc. apply strip_bytes_spec in Hd. rewrite Hd, data_not_json_like, <- Hd, Hc.
    by rewrite bool_decide_eq_false_2, bool_decide_eq_true_2.
  - destruct (if json_like line then None else split_colon line) as [[field rest]|] eqn:Hf; [|done].
    destruct (json_like line); [done|]. case_bool_decide; [done|]. rewrite bool_decide_eq_false_2; [done|].
    intros ->. apply split_colon_data in Hf. congruence.
Qed.
Lemma scan_lines_data ls s : [] ∉ ls -> fs_data (foldl scan_line s ls) = foldl push_line (fs_data s) (event_values ls).
Proof.
  revert s. induction ls as [|l ls IH]; intros s Hl; [done|]. apply not_elem_of_cons in Hl as [Hl Hls]. simpl.
  rewrite IH, scan_line_data by done. destruct (is_comment l); [done|]. by destruct (data_value l).
Qed.

(** The payload joined with and without its leading empty values. *)
Lemma push_line_some b v : b ≠ [] -> push_line (Some b) v = Some (b ++ lf :: v).
Proof. intros Hb. unfold push_line. simpl. rewrite bool_decide_eq_false_2 by done. by rewrite <- app_assoc. Qed.
Lemma push_lines_from b vs : b ≠ [] -> foldl push_line (Some b) vs = Some (b ++ concat (cons lf <$> vs)).
Proof.
  revert b. induction vs as [|v vs IH]; intros b Hb; simpl; [by rewrite app_nil_r|].
  rewrite push_line_some by done. rewrite IH by (by destruct b). by rewrite <- !app_assoc.
Qed.
Lemma push_lines_joined v vs : exists k b,
  foldl push_line None (v :: vs) = Some b /\ v ++ concat (cons lf <$> vs) = replicate k lf ++ b.
Proof.
  revert v. induction vs as [|w vs IH]; intros v.
  - exists 0, v. simpl. by rewrite app_nil_r.
  - destruct (decide (v = [])) as [->|Hv].
    + destruct (IH w) as (k & b & Hb & Hj). exists (S k), b. split; [exact Hb|].
      change (lf :: (w ++ concat (cons lf <$> vs)) = lf :: (replicate k lf ++ b)). by rewrite Hj.
    + exists 0, (v ++ concat (cons lf <$> (w :: vs))). split; [|done].
      exact (push_lines_from v (w :: vs) Hv).
Qed.
Lemma trim_breaks k b : trim (of_bytes (replicate k lf ++ b)) = trim (of_bytes b).
Proof.
  induction k as [|k IH]; [done|]. rewrite <- IH.
  unfold trim, str_len. rewrite !as_bytes_of_bytes. reflexivity.
Qed.
Lemma event_payload_reads ls p : Forall field_line_ok ls -> sse_event_data ls = Some p ->
  exists data, pe_data (parse_event (of_bytes (unlines ls))) = Some data /\ trim data = trim (of_bytes p).
Proof.
  intros Hls Hp. unfold parse_event. rewrite event_lines_unlines by done. cbn [pe_data].
  rewrite scan_lines_data; [|by intros Hin; rewrite Forall_forall in Hls; destruct (Hls _ Hin)].
  cbn [fs_data]. rewrite sse_event_data_values in Hp. destruct (event_values ls) as [|v vs]; [done|].
  injection Hp as <-. destruct (push_lines_joined v vs) as (k & b & -> & ->).
  exists (of_bytes b). split; [done|]. by rewrite trim_breaks.
Qed.

(** The lines of the rewritten event. *)
Definition rewritten_line (replacement : bytes) (event_name : option string) (line : bytes) (replaced : bool) : list bytes * bool :=
  if has_field "data" line then (if replaced then [] else [as_bytes "data: " ++ replacement], true)
  else match event_name with
       | Some name => ([if has_field "event" line then as_bytes "event: " ++ as_bytes name else line], replaced)
       | None => ([line], replaced)
       end.
Fixpoint rewritten (replacement : bytes) (event_name : option string) (lines : list bytes) (replaced : bool) : list bytes :=
  match lines with
  | [] => []
  | line :: lines' =>
      let '(out, replaced) := rewritten_line replacement event_name line replaced in
      out ++ rewritten replacement event_name lines' replaced
  end.
Lemma unlines_app a b : unlines (a ++ b) = unlines a ++ unlines b.
Proof. unfold unlines. by rewrite fmap_app, concat_app. Qed.
Lemma unlines_one l : unlines [l] = l ++ [lf].
Proof. unfold unlines. simpl. by rewrite app_nil_r. Qed.
Lemma replace_lines_rewritten repl name ls replaced :
  replace_lines true repl name ls replaced = unlines (rewritten repl name ls replaced) ++ [lf].
Proof.
  revert replaced. induction ls as [|l ls IH]; intros replaced; [done|].
  cbn [replace_lines rewritten]. unfold replace_line, rewritten_line, is_payload_line. rewrite orb_false_r.
  destruct (has_field "data" l).
  - destruct replaced; rewrite IH, unlines_app; [done|]. rewrite unlines_one. by rewrite <- !app_assoc.
  - destruct name as [name|]; [destruct (has_field "event" l)|]; rewrite IH, unlines_app, unlines_one;
      by rewrite <- !app_assoc.
Qed.
Lemma has_field_data line : has_field "data" line = bool_decide (is_Some (data_value line)).
Proof.
  unfold has_field, data_value. destruct (strip_bytes (as_bytes "data:") line) as [rest|] eqn:Hd; simpl.
  - apply split_colon_data in Hd. by rewrite Hd.
  - destruct (split_colon line) as [[field rest]|] eqn:Hs; simpl; [|done]. apply bool_decide_eq_false_2. intros ->.
    apply split_colon_data in Hs. congruence.
Qed.
Lemma has_field_comment line name : is_comment line = true -> name ≠ "" -> has_field name line = false.
Proof.
  unfold is_comment, has_field. destruct line as [|c l]; [done|]. intros ->%bool_decide_eq_true Hn. simpl.
  apply bool_decide_eq_false_2. intros Hnil. apply Hn. by rewrite <- (of_bytes_as_bytes name), <- Hnil.
Qed.
Lemma event_values_app a b : event_values (a ++ b) = event_values a ++ event_values b.
Proof. apply omap_app. Qed.
Lemma rewritten_values repl name ls replaced :
  event_values (rewritten repl name ls replaced) =
  if replaced then [] else match event_values ls with [] => [] | _ => [repl] end.
Proof.
  revert replaced. induction ls as [|l ls IH]; intros replaced; [by destruct replaced|]. cbn [rewritten].
  unfold rewritten_line. destruct (has_field "data" l) eqn:Hd.
  - assert (is_comment l = false) as Hc.
    { destruct (is_comment l) eqn:Hc; [|done]. by rewrite (has_field_comment l "data") in Hd. }
    rewrite has_field_data in Hd. apply bool_decide_eq_true in Hd as [v Hv].
    rewrite event_values_app, IH. unfold event_values at 2. simpl. rewrite Hc, Hv. by destruct replaced.
  - assert (Hl : event_values [l] = []).
    { unfold event_values. simpl. destruct (is_comment l); [done|].
      rewrite has_field_data in Hd. apply bool_decide_eq_false in Hd. by apply eq_None_not_Some in Hd as ->. }
    change (l :: ls) with ([l] ++ ls). rewrite (event_values_app [l] ls), Hl. destruct name as [name|]; rewrite event_values_app, IH; [|by rewrite Hl].
    destruct (has_field "event" l); [done|by rewrite Hl].
Qed.

Lemma rewritten_ok repl name ls replaced : lf ∉ repl /\ cr ∉ repl ->
  (forall n, name = Some n -> lf ∉ as_bytes n /\ cr ∉ as_bytes n) -> Forall field_line_ok ls ->
  Forall field_line_ok (rewritten repl name ls replaced).
Proof.
  intros [Hlf Hcr] Hname Hls. revert replaced. induction Hls as [|l ls Hl _ IH]; intros replaced; [constructor|].
  cbn [rewritten]. unfold rewritten_line. destruct (has_field "data" l); [|destruct name as [n|]];
    (apply Forall_app; split; [|apply IH]).
  - destruct replaced; [constructor|]. constructor; [|constructor]. split; [done|].
    assert (lf ∉ as_bytes "data: ") by listed. assert (cr ∉ as_bytes "data: ") by listed.
    rewrite !elem_of_app. tauto.
  - constructor; [|constructor]. destruct (has_field "event" l); [|done]. destruct (Hname n eq_refl). split; [done|].
    assert (lf ∉ as_bytes "event: ") by listed. assert (cr ∉ as_bytes "event: ") by listed.
    rewrite !elem_of_app. tauto.
  - by constructor; [|constructor].
Qed.
Lemma unlines_no_cr ls : Forall field_line_ok ls -> cr ∉ unlines ls.
Proof.
  induction 1 as [|l ls (_ & _ & Hl) _ IH]; [set_solver|]. change (l :: ls) with ([l] ++ ls).
  rewrite unlines_app, unlines_one, !elem_of_app, list_elem_of_singleton. by intros [[?|?]|?].
Qed.
Lemma stream_events_one ls : Forall field_line_ok ls -> stream_events (unlines ls ++ [lf]) = option_list (sse_event_data ls).
Proof.
  intros Hls. assert (Hlf : Forall (fun l => lf ∉ l) ls) by (eapply Forall_impl; [exact Hls|by intros l (_ & Hl & _)]).
  assert (Hne : [] ∉ ls) by (intros Hin; rewrite Forall_forall in Hls; by destruct (Hls _ Hin)).
  unfold stream_events. rewrite normalize_no_cr.
  - assert (unlines ls ++ [lf] = unlines (ls ++ [[]])) as -> by by rewrite unlines_app.
    rewrite split_lines_unlines by (apply Forall_app; split; [done|constructor; [set_solver|done]]).
    simpl. rewrite split_events_blank by done. simpl. by destruct (sse_event_data ls).
  - rewrite elem_of_app, list_elem_of_singleton. intros [Hin|Hin]; [|done]. revert Hin. by apply unlines_no_cr.
Qed.

(** Events one after another. *)
Lemma stream_events_many LS : Forall (Forall field_line_ok) LS ->
  stream_events (concat ((fun ls => unlines ls ++ [lf]) <$> LS)) = omap sse_event_data LS.
Proof.
  intros HLS. set (all := concat ((fun ls => ls ++ [[]]) <$> LS)).
  assert (Hall : concat ((fun ls => unlines ls ++ [lf]) <$> LS) = unlines all).
  { unfold all. clear HLS. induction LS as [|ls LS IH]; [done|].
    rewrite !fmap_cons, !concat_cons, IH, !unlines_app. done. }
  assert (Hlines : Forall (fun l => lf ∉ l /\ cr ∉ l) all).
  { unfold all. clear Hall. induction HLS as [|ls LS Hls _ IH]; simpl; [constructor|]. rewrite <- app_assoc. apply Forall_app. split.
    - eapply Forall_impl; [exact Hls|]. by intros l (_ & ? & ?).
    - constructor; [split; set_solver|done]. }
  unfold stream_events. rewrite Hall, normalize_no_cr.
  - rewrite split_lines_unlines by (eapply Forall_impl; [exact Hlines|by intros l []]). cbn [fst].
    unfold all. clear Hall Hlines. induction HLS as [|ls LS Hls _ IH]; [done|].
    rewrite fmap_cons, concat_cons, <- app_assoc. cbn [app].
    rewrite split_events_blank by (intros Hin; rewrite Forall_forall in Hls; by destruct (Hls _ Hin)). cbn [fst].
    change (ls :: ?X) with ([ls] ++ X). rewrite !omap_app. f_equal. exact IH.
  - clear Hall. induction Hlines as [|l ls [_ Hl] _ IH]; [set_solver|]. change (l :: ls) with ([l] ++ ls).
    rewrite unlines_app, unlines_one, !elem_of_app, list_elem_of_singleton. by intros [[?|?]|?].
Qed.

Section EditTheorem.
Context {SJ : SerdeJson}.
Lemma framed_unlines ls : ls ≠ [] -> framed_event (of_bytes (unlines ls)) = of_bytes (unlines ls ++ [lf]).
Proof.
  intros Hls. unfold framed_event. rewrite as_bytes_of_bytes. destruct (exists_last Hls) as (ls' & l & ->).
  rewrite unlines_snoc, app_assoc, last_snoc. by rewrite bool_decide_eq_true_2.
Qed.

(** Editing one event of a same-format stream (sanitizing it, or removing its reasoning)
    reaches the client through the event's own framing: when the payload a client reads from the
    event is a JSON document that the edit changes, the client reads exactly the edited document
    from the rewritten event, once, however many data lines carried it; when the payload is
    empty, the end marker, not JSON, or a document equal to its edit, the event passes as it
    came. *)
Theorem edited_event_reaches_client ls p edit : Forall field_line_ok ls -> sse_event_data ls = Some p ->
  (forall v t, get_str "type" (edit v) = Some t -> get_str "type" v = Some t \/ (lf ∉ as_bytes t /\ cr ∉ as_bytes t)) ->
  let payload := trim (of_bytes p) in
  let out := as_bytes (edit_event_body (of_bytes (unlines ls)) edit) in
  match (if bool_decide (payload = "") || bool_decide (payload = "[DONE]") then None else parse_json payload) with
  | Some v => if value_eqb (edit v) v then out = unlines ls ++ [lf] else stream_events out = [to_vec (edit v)]
  | None => out = unlines ls ++ [lf]
  end /\ (out = unlines ls ++ [lf] -> stream_events out = [p]).
Proof.
  intros Hls Hp Htype payload out. split; [|intros ->; by rewrite stream_events_one, Hp].
  assert (Hne : ls ≠ []) by (by intros ->).
  unfold out, edit_event_body. destruct (event_payload_reads ls p Hls Hp) as (data & -> & Htrim).
  rewrite Htrim. fold payload. rewrite (framed_unlines ls Hne).
  destruct (_ || _); [apply as_bytes_of_bytes|]. destruct (parse_json payload) as [v|]; [|apply as_bytes_of_bytes].
  destruct (value_eqb (edit v) v); [apply as_bytes_of_bytes|].
  set (renamed := match get_str "type" v with Some _ => _ | None => _ end).
  unfold replace_data_fields. rewrite event_lines_unlines by done. unfold json_str. rewrite !as_bytes_of_bytes.
  rewrite sse_event_data_values in Hp. destruct (event_values ls) as [|w vs] eqn:Hvs; [done|].
  assert (existsb (has_field "data") ls = true) as ->.
  { apply existsb_exists. assert (Hw : w ∈ event_values ls) by (rewrite Hvs; left).
    apply list_elem_of_omap in Hw as (l & Hl & Hw). exists l. split; [by apply list_elem_of_In|].
    rewrite has_field_data. destruct (is_comment l); [done|]. rewrite Hw. done. }
  rewrite replace_lines_rewritten, stream_events_one.
  - rewrite sse_event_data_values, rewritten_values, Hvs. simpl. by rewrite app_nil_r.
  - apply rewritten_ok; [apply to_vec_no_line_break| |done]. intros n Hn. unfold renamed in Hn.
    destruct (get_str "type" v) as [old|] eqn:Ho; [|done]. destruct (get_str "type" (edit v)) as [new|] eqn:Hnew; [|done].
    case_bool_decide as He; [done|]. injection Hn as <-. destruct (Htype v new Hnew) as [Hv|]; [congruence|done].
Qed.
End EditTheorem.
Section EditWitness.
#[local] Existing Instance sample_json.
Definition sample_edit : value -> value := set_member "id" (JString "gw").
Definition sample_event : list bytes :=
  [as_bytes "event: x"; as_bytes "data:"; as_bytes "data: " ++ to_vec (JObject [("id", JString "up")])].
Lemma edited_event_reaches_client_witness :
  stream_events (as_bytes (edit_event_body (of_bytes (unlines sample_event)) sample_edit)) =
    [to_vec (JObject [("id", JString "gw")])].
Proof.
  destruct (edited_event_reaches_client sample_event (lf :: to_vec (JObject [("id", JString "up")])) sample_edit) as [H _].
  - repeat (apply Forall_cons; split; [split; [done|split; listed]|]). constructor.
  - by vm_compute.
  - intros [| | | | |m] t; try done. unfold sample_edit, set_member, get_str. simpl. rewrite obj_get_insert. by left.
  - vm_compute in H. vm_compute. exact H.
Defined.
End EditWitness.

(** A byte order mark, which a client strips from the start of a stream, hides the
    field name of the first line from [parse_event]: the event is not edited. *)
Definition byte_order_mark : bytes := [u8 239; u8 187; u8 191].
Lemma marked_event_passes {SJ : SerdeJson} payload edit : lf ∉ payload -> cr ∉ payload ->
  let line := byte_order_mark ++ as_bytes "data: " ++ payload in
  edit_event_body (of_bytes (unlines [line])) edit = of_bytes (unlines [line] ++ [lf]).
Proof.
  intros Hlf Hcr line. assert (Hok : Forall field_line_ok [line]).
  { constructor; [|constructor]. split; [done|]. unfold line.
    assert (lf ∉ byte_order_mark ++ as_bytes "data: ") by listed. assert (cr ∉ byte_order_mark ++ as_bytes "data: ") by listed.
    rewrite !elem_of_app in *. tauto. }
  unfold edit_event_body, parse_event. rewrite event_lines_unlines by done. by rewrite framed_unlines.
Qed.
