(* ===== verification/ChatStream.v ===== *)
(** * Bridging a chat stream (src/middleware/stream_transform.rs)

    [ChatStream] reads the chunks of a chat completion and drives a writer for the
    client's surface through the trait [ChatEvents]: a class of operations here,
    with a second class for what a writer owes the stream in each phase of the
    message.  A method that takes [&mut self] and [out] is a state transformer that
    also produces events; [None] is a panic, which the theorems exclude. *)
From S2P Require Import Prelude Text Json External Sample SseProtocol UpstreamErrors Images Audio Sanitize SseFraming ToolMap Conversion EventStream.

(** ** Methods that write events *)
Definition SseEvent : Type := string * value.
Definition W (S A : Type) : Type := S -> option (A * S * list SseEvent).
#[global] Instance W_ret S : MRet (W S) := fun A a s => Some (a, s, []).
#[global] Instance W_bind S : MBind (W S) := fun A B f m s =>
  match m s with
  | Some (a, s, out) => match f a s with Some (b, s, out') => Some (b, s, out ++ out') | None => None end
  | None => None
  end.
Definition reads {S A} (f : S -> A) : W S A := fun s => Some (f s, s, []).
Definition modify {S} (f : S -> S) : W S unit := fun s => Some (tt, f s, []).
Definition emits {S} (e : SseEvent) : W S unit := fun s => Some (tt, s, [e]).
(** [option.expect(..)] and an index out of range. *)
Definition expects {S A} (f : S -> option A) : W S A := fun s => (fun a => (a, s, [])) <$> f s.
Definition when {S} (b : bool) (m : W S unit) : W S unit := if b then m else mret tt.
Fixpoint each {S A} (f : A -> W S unit) (l : list A) : W S unit :=
  match l with [] => mret tt | a :: l' => f a ;; each f l' end.

(** What the client sees of an event. *)
Definition sse_event {SJ : SerdeJson} (e : SseEvent) : bytes :=
  as_bytes "event: " ++ as_bytes e.1 ++ [lf] ++ as_bytes "data: " ++ to_vec e.2 ++ [lf; lf].
Definition render {SJ : SerdeJson} (out : list SseEvent) : string := of_bytes (concat (sse_event <$> out)).

(** ** A chunk, read leniently *)
Inductive TextKind : Type := Reasoning | Text | Refusal.
#[global] Instance TextKind_eq_dec : EqDecision TextKind.
Proof. solve_decision. Defined.

Record ToolCallDelta : Type := mkDelta {
  td_index : option Z;
  td_id : string;
  td_name : string;
  td_arguments : string;
}.
Record ChatChunk : Type := mkChunk {
  ck_has_choice : bool;
  ck_usage : option value;
  ck_error : option value;
  ck_reasoning : string;
  ck_content : string;
  ck_refusal : string;
  ck_annotations : list value;
  ck_tool_calls : list ToolCallDelta;
  ck_finish_reason : option string;
}.
Definition stream_str (object : option value) (key : string) : string := default "" (object ≫= get_str key).
Definition parse_tool_delta (call : value) : option ToolCallDelta :=
  if is_object call then
    let function := filter_some is_object (get "function" call) in
    Some (mkDelta (get "index" call ≫= as_u64) (stream_str (Some call) "id") (stream_str function "name")
            (stream_str function "arguments"))
  else None.
Definition parse_chat_chunk (chunk : value) : ChatChunk :=
  let choice := filter_some is_object (first_choice chunk) in
  let delta := filter_some is_object (choice ≫= get "delta") in
  mkChunk
    (bool_decide (is_Some choice))
    (filter_some is_object (get "usage" chunk))
    (non_null (get "error" chunk))
    (default "" ((choice ≫= get "delta") ≫= reasoning_text))
    (chat_text (delta ≫= get "content"))
    (chat_text (delta ≫= get "refusal"))
    (responses_annotations (delta ≫= get "annotations"))
    (omap parse_tool_delta (default [] ((delta ≫= get "tool_calls") ≫= as_array)))
    (choice ≫= get_str "finish_reason").
(** The texts of a chunk in the order they are written. *)
Definition chunk_texts (c : ChatChunk) : list (TextKind * string) :=
  [(Reasoning, ck_reasoning c); (Text, ck_content c); (Refusal, ck_refusal c)].

(** ** Tool calls by slot *)
Record ToolCall : Type := mkToolCall {
  tc_id : string;
  tc_name : string;
  tc_arguments : string;
}.
Definition tool_call_default : ToolCall := mkToolCall "" "" "".
(** The upstream's index, and the order of the calls sent under it: [(usize, usize)]. *)
Definition Slot : Type := Z * Z.
Definition slot_ltb (a b : Slot) : bool := (a.1 <? b.1)%Z || ((a.1 =? b.1)%Z && (a.2 <? b.2)%Z).
Definition usize_add (a b : Z) : Z := ((a + b) mod 2 ^ 64)%Z.

(** [BTreeMap<(usize, usize), ToolCall>]: its entries in the order of their keys. *)
Definition Calls : Type := list (Slot * ToolCall).
Fixpoint calls_get (k : Slot) (m : Calls) : option ToolCall :=
  match m with [] => None | (k', c) :: m' => if bool_decide (k' = k) then Some c else calls_get k m' end.
(** [*entry(k).or_default()] updated by [f]. *)
Fixpoint calls_update (k : Slot) (f : ToolCall -> ToolCall) (m : Calls) : Calls :=
  match m with
  | [] => [(k, f tool_call_default)]
  | (k', c) :: m' =>
      if bool_decide (k' = k) then (k, f c) :: m'
      else if slot_ltb k k' then (k, f tool_call_default) :: m
      else (k', c) :: calls_update k f m'
  end.

Record Assembly : Type := mkAssembly {
  as_calls : Calls;
  as_bound : gmap Z Slot;
  as_last_call : option Slot;
}.
Definition assembly_new : Assembly := mkAssembly [] ∅ None.

Definition known_slot (delta : ToolCallDelta) (calls : Calls) : option Slot :=
  fst <$> List.find (fun e => non_empty (td_id delta) && bool_decide (tc_id e.2 = td_id delta)) calls.
(** Where a delta goes; [None] for a continuation with no call to continue. *)
Definition delta_slot (delta : ToolCallDelta) (a : Assembly) : option Slot :=
  match known_slot delta (as_calls a), td_index delta with
  | Some slot, _ => Some slot
  | None, Some index =>
      let current := default (index, 0%Z) (as_bound a !! index) in
      match calls_get current (as_calls a) with
      | Some call =>
          if non_empty (td_id delta) && non_empty (tc_id call) then
            Some (index, from_option (fun e : Slot * ToolCall => usize_add e.1.2 1) 0%Z
                           (last (List.filter (fun e => (e.1.1 =? index)%Z) (as_calls a))))
          else Some current
      | None => Some current
      end
  | None, None =>
      if non_empty (td_id delta)
      then Some (from_option (fun e : Slot * ToolCall => usize_add e.1.1 1) 0%Z (last (as_calls a)), 0%Z)
      else as_last_call a
  end.
Definition extend_call (delta : ToolCallDelta) (c : ToolCall) : ToolCall :=
  mkToolCall
    (if bool_decide (tc_id c = "") then td_id delta else tc_id c)
    (if bool_decide (tc_name c = "") then td_name delta else tc_name c)
    (tc_arguments c +:+ td_arguments delta).
(** [tool_delta], less [called_after_text]: [None] when the delta is dropped. *)
Definition assemble (delta : ToolCallDelta) (a : Assembly) : option Assembly :=
  slot ← delta_slot delta a;
  Some (mkAssembly (calls_update slot (extend_call delta) (as_calls a))
          (match td_index delta with Some index => <[index := slot]> (as_bound a) | None => as_bound a end)
          (Some slot)).

(** ** The writer *)
Inductive Failure : Type :=
| FailureUpstream (error : value)
| FailureEmpty
| FailureUnusableToolCalls.
Inductive Outcome : Type :=
| Finished (finish : ChatFinish) (tool_use : bool)
| Failed (failure : Failure).

(** A reading of the clock: [now_secs] and [now_millis]. *)
Record Time : Type := mkTime { t_secs : Z; t_millis : Z }.

Class ChatEvents (E : Type) := {
  ev_start : Time -> value -> string -> W E unit;
  ev_usage : value -> W E unit;
  ev_open_text : TextKind -> W E unit;
  ev_text_delta : TextKind -> string -> W E unit;
  ev_annotation : value -> W E unit;
  ev_close_text : TextKind -> string -> bool -> W E unit;
  ev_tool_call : ChatToolCall -> bool -> W E bool;
  ev_finish : Outcome -> option value -> W E unit;
}.

(** ** The stream *)
Record ChatStream (E : Type) : Type := mkStream {
  cs_events : E;
  cs_response_id : string;
  cs_answered : bool;
  cs_terminated : bool;
  cs_open : option TextKind;
  cs_text : string;
  cs_called_after_text : bool;
  cs_assembly : Assembly;
  cs_finish_reason : option string;
  cs_usage : option value;
  cs_error : option value;
}.
Arguments mkStream {E}.
Arguments cs_events {E}.
Arguments cs_response_id {E}.
Arguments cs_answered {E}.
Arguments cs_terminated {E}.
Arguments cs_open {E}.
Arguments cs_text {E}.
Arguments cs_called_after_text {E}.
Arguments cs_assembly {E}.
Arguments cs_finish_reason {E}.
Arguments cs_usage {E}.
Arguments cs_error {E}.

Section Stream.
Context {E : Type}.
Implicit Type s : ChatStream E.

Definition stream_new (events : E) : ChatStream E :=
  mkStream events "" false false None "" false assembly_new None None None.
Definition started s : bool := non_empty (cs_response_id s).

(** Field assignments. *)
Definition set_events (e : E) s : ChatStream E :=
  mkStream e (cs_response_id s) (cs_answered s) (cs_terminated s) (cs_open s) (cs_text s) (cs_called_after_text s)
    (cs_assembly s) (cs_finish_reason s) (cs_usage s) (cs_error s).
Definition set_response_id (id : string) s : ChatStream E :=
  mkStream (cs_events s) id (cs_answered s) (cs_terminated s) (cs_open s) (cs_text s) (cs_called_after_text s)
    (cs_assembly s) (cs_finish_reason s) (cs_usage s) (cs_error s).
Definition set_answered (b : bool) s : ChatStream E :=
  mkStream (cs_events s) (cs_response_id s) b (cs_terminated s) (cs_open s) (cs_text s) (cs_called_after_text s)
    (cs_assembly s) (cs_finish_reason s) (cs_usage s) (cs_error s).
Definition set_terminated s : ChatStream E :=
  mkStream (cs_events s) (cs_response_id s) (cs_answered s) true (cs_open s) (cs_text s) (cs_called_after_text s)
    (cs_assembly s) (cs_finish_reason s) (cs_usage s) (cs_error s).
Definition set_open (open : option TextKind) s : ChatStream E :=
  mkStream (cs_events s) (cs_response_id s) (cs_answered s) (cs_terminated s) open (cs_text s) (cs_called_after_text s)
    (cs_assembly s) (cs_finish_reason s) (cs_usage s) (cs_error s).
Definition set_text (text : string) s : ChatStream E :=
  mkStream (cs_events s) (cs_response_id s) (cs_answered s) (cs_terminated s) (cs_open s) text (cs_called_after_text s)
    (cs_assembly s) (cs_finish_reason s) (cs_usage s) (cs_error s).
Definition set_called (b : bool) s : ChatStream E :=
  mkStream (cs_events s) (cs_response_id s) (cs_answered s) (cs_terminated s) (cs_open s) (cs_text s) b
    (cs_assembly s) (cs_finish_reason s) (cs_usage s) (cs_error s).
Definition set_assembly (a : Assembly) s : ChatStream E :=
  mkStream (cs_events s) (cs_response_id s) (cs_answered s) (cs_terminated s) (cs_open s) (cs_text s) (cs_called_after_text s)
    a (cs_finish_reason s) (cs_usage s) (cs_error s).
Definition set_finish_reason (r : option string) s : ChatStream E :=
  mkStream (cs_events s) (cs_response_id s) (cs_answered s) (cs_terminated s) (cs_open s) (cs_text s) (cs_called_after_text s)
    (cs_assembly s) r (cs_usage s) (cs_error s).
Definition set_usage (u : option value) s : ChatStream E :=
  mkStream (cs_events s) (cs_response_id s) (cs_answered s) (cs_terminated s) (cs_open s) (cs_text s) (cs_called_after_text s)
    (cs_assembly s) (cs_finish_reason s) u (cs_error s).
Definition set_error (e : option value) s : ChatStream E :=
  mkStream (cs_events s) (cs_response_id s) (cs_answered s) (cs_terminated s) (cs_open s) (cs_text s) (cs_called_after_text s)
    (cs_assembly s) (cs_finish_reason s) (cs_usage s) e.

(** A method of [self.events]. *)
Definition on_events {A} (m : W E A) : W (ChatStream E) A := fun s =>
  match m (cs_events s) with Some (a, e, out) => Some (a, set_events e s, out) | None => None end.

Context `{CE : ChatEvents E}.

Definition cs_close_text (finished : bool) : W (ChatStream E) unit :=
  open ← reads cs_open;
  match open with
  | None => mret tt
  | Some kind =>
      modify (set_open None) ;;
      text ← reads cs_text;
      on_events (ev_close_text kind text finished) ;;
      modify (set_text "")
  end.
Definition cs_text_delta (kind : TextKind) (delta : string) : W (ChatStream E) unit :=
  open ← reads cs_open;
  when (negb (bool_decide (open = Some kind)))
    (cs_close_text true ;; modify (set_open (Some kind)) ;; on_events (ev_open_text kind)) ;;
  modify (set_called false) ;;
  modify (fun s => set_text (cs_text s +:+ delta) s) ;;
  on_events (ev_text_delta kind delta).
Definition tool_delta (delta : ToolCallDelta) s : ChatStream E :=
  match assemble delta (cs_assembly s) with
  | Some a => set_called true (set_assembly a s)
  | None => s
  end.

(** The loop over a chunk's texts, with the citations not yet written. *)
Fixpoint chunk_loop (texts : list (TextKind * string)) (annotations : list value) : W (ChatStream E) unit :=
  match texts with
  | [] => mret tt
  | (kind, text) :: texts' =>
      when (non_empty text) (cs_text_delta kind text) ;;
      open ← reads cs_open;
      if bool_decide (open = Some Text)
      then each (fun annotation => on_events (ev_annotation annotation)) annotations ;; chunk_loop texts' []
      else chunk_loop texts' annotations
  end.

Definition begun_id (v : value) (fallback_id : string) : string :=
  default fallback_id (filter_some non_empty (get_str "id" v)).
Definition begin_response (now : Time) (v : value) (fallback_id : string) : W (ChatStream E) unit :=
  modify (set_response_id (begun_id v fallback_id)) ;;
  on_events (ev_start now v fallback_id).
Definition cs_chunk (now : Time) (v : value) (fallback_id : string) : W (ChatStream E) unit :=
  let chunk := parse_chat_chunk v in
  st ← reads started;
  when (negb st) (begin_response now v fallback_id) ;;
  match ck_usage chunk with
  | Some usage =>
      let usage := normalize_reasoning_usage_value usage in
      on_events (ev_usage usage) ;; modify (set_usage (Some usage))
  | None => mret tt
  end ;;
  match ck_error chunk with Some error => modify (set_error (Some error)) | None => mret tt end ;;
  modify (fun s => set_answered (cs_answered s || ck_has_choice chunk) s) ;;
  chunk_loop (chunk_texts chunk) (ck_annotations chunk) ;;
  modify (fun s => foldl (fun s d => tool_delta d s) s (ck_tool_calls chunk)) ;;
  match ck_finish_reason chunk with Some reason => modify (set_finish_reason (Some reason)) | None => mret tt end.

(** The calls a client can run, in the order of their slots. *)
Definition named_call (response_id : string) (position : nat) (call : ToolCall) : option ChatToolCall :=
  let name := trim (tc_name call) in
  if non_empty name then
    let id := trim (tc_id call) in
    Some (mkChatToolCall (if non_empty id then id else synthesized_call_id response_id position) name (tc_arguments call))
  else None.
Definition named_calls (response_id : string) (calls : Calls) : list ChatToolCall :=
  omap id (imap (fun position e => named_call response_id position e.2) calls).
Fixpoint write_calls (cut : bool) (calls : list ChatToolCall) (tool_use : bool) : W (ChatStream E) bool :=
  match calls with
  | [] => mret tool_use
  | call :: calls' => written ← on_events (ev_tool_call call cut); write_calls cut calls' (tool_use || written)
  end.

Definition write_outcome (finish : ChatFinish) : W (ChatStream E) Outcome :=
  error ← reads cs_error;
  answered ← reads cs_answered;
  match error, answered with
  | Some error, _ => mret (Failed (FailureUpstream error))
  | None, false => mret (Failed FailureEmpty)
  | None, true =>
      calls ← reads (fun s => as_calls (cs_assembly s));
      named ← reads (fun s => named_calls (cs_response_id s) (as_calls (cs_assembly s)));
      tool_use ← write_calls (truncated finish) named false;
      mret (if bool_decide (length named = 0) && negb (bool_decide (length calls = 0)) && negb (truncated finish)
            then Failed FailureUnusableToolCalls else Finished finish tool_use)
  end.
Definition cs_finish : W (ChatStream E) (result unit unit) :=
  terminated ← reads cs_terminated;
  st ← reads started;
  if (terminated : bool) then mret (Ok tt)
  else if negb st then mret (Err tt)
  else
    modify set_terminated ;;
    finish ← reads (fun s => finish_parse (cs_finish_reason s));
    called ← reads cs_called_after_text;
    cs_close_text (negb (truncated finish) || called) ;;
    outcome ← write_outcome finish;
    usage ← reads cs_usage;
    on_events (ev_finish outcome usage) ;;
    mret (Ok tt).

Context {SJ : SerdeJson}.
(** [Ok((!out.is_empty()).then_some(out))]. *)
Definition written (out : list SseEvent) : option string := if bool_decide (out = []) then None else Some (render out).

(** One event of the upstream: [Err] ends the stream as failed. *)
Definition cs_step (now : Time) (event : ParsedEvent) (fallback_id : string) : W (ChatStream E) (result unit unit) :=
  let payload := event_payload event in
  if bool_decide (payload = "[DONE]") then cs_finish
  else
    terminated ← reads cs_terminated;
    if non_empty payload && negb terminated then
      match parse_json payload with
      | None => mret (Err tt)
      | Some chunk => cs_chunk now chunk fallback_id ;; mret (Ok tt)
      end
    else mret (Ok tt).
(** The upstream closed the connection. *)
Definition cs_close : W (ChatStream E) (result unit unit) :=
  terminated ← reads cs_terminated;
  reason ← reads cs_finish_reason;
  error ← reads cs_error;
  if (terminated : bool) then mret (Ok tt)
  else if bool_decide (reason = None) && bool_decide (error = None) then mret (Err tt)
  else cs_finish.

(** The text a method returns; an error leaves none. *)
Definition returned (m : W (ChatStream E) (result unit unit)) s : option (result unit (option string) * ChatStream E) :=
  match m s with
  | Some (Ok _, s, out) => Some (Ok (written out), s)
  | Some (Err e, s, _) => Some (Err e, s)
  | None => None
  end.
Definition cs_event (now : Time) (event : ParsedEvent) (fallback_id : string) := returned (cs_step now event fallback_id).
Definition cs_end_of_stream := returned cs_close.

(** The events of a stream in turn, up to the first that fails. *)
Fixpoint cs_run (events : list (Time * ParsedEvent)) (fallback_id : string) : W (ChatStream E) (result unit unit) :=
  match events with
  | [] => mret (Ok tt)
  | (now, event) :: events' =>
      r ← cs_step now event fallback_id;
      match r with Ok _ => cs_run events' fallback_id | Err _ => mret (Err tt) end
  end.
End Stream.

(** ** Reasoning about methods *)
Definition wpW {S A} (m : W S A) (s : S) (out : list SseEvent) (Q : A -> S -> list SseEvent -> Prop) : Prop :=
  match m s with Some (a, s', o) => Q a s' (out ++ o) | None => False end.
Section WpW.
Context {S : Type}.
Implicit Types (s : S) (out : list SseEvent).
Lemma wpW_ret {A} (a : A) s out Q : wpW (mret a) s out Q <-> Q a s out.
Proof. unfold wpW. simpl. by rewrite app_nil_r. Qed.
Lemma wpW_reads {A} (f : S -> A) s out Q : wpW (reads f) s out Q <-> Q (f s) s out.
Proof. unfold wpW. simpl. by rewrite app_nil_r. Qed.
Lemma wpW_modify (f : S -> S) s out Q : wpW (modify f) s out Q <-> Q tt (f s) out.
Proof. unfold wpW. simpl. by rewrite app_nil_r. Qed.
Lemma wpW_emits e s out Q : wpW (emits e) s out Q <-> Q tt s (out ++ [e]).
Proof. done. Qed.
Lemma wpW_expects {A} (f : S -> option A) s out Q :
  wpW (expects f) s out Q <-> exists a, f s = Some a /\ Q a s out.
Proof. unfold wpW, expects. destruct (f s) as [a|]; simpl; [rewrite app_nil_r|]; naive_solver. Qed.
Lemma wpW_bind {A B} (m : W S A) (f : A -> W S B) s out Q :
  wpW (m ≫= f) s out Q <-> wpW m s out (fun a s out => wpW (f a) s out Q).
Proof.
  unfold wpW, mbind, W_bind. destruct (m s) as [[[a s1] o1]|]; [|done].
  destruct (f a s1) as [[[b s2] o2]|]; [|done]. by rewrite app_assoc.
Qed.
Lemma wpW_mono {A} (m : W S A) s out (Q Q' : A -> S -> list SseEvent -> Prop) :
  wpW m s out Q -> (forall a s out, Q a s out -> Q' a s out) -> wpW m s out Q'.
Proof. unfold wpW. destruct (m s) as [[[a s'] o]|]; auto. Qed.
Lemma wpW_run {A} (m : W S A) s Q :
  wpW m s [] Q <-> exists a s' o, m s = Some (a, s', o) /\ Q a s' o.
Proof. unfold wpW. destruct (m s) as [[[a s'] o]|]; simpl; naive_solver. Qed.
End WpW.
Lemma wpW_on_events {E A} (m : W E A) (s : ChatStream E) out Q :
  wpW (on_events m) s out Q <-> wpW m (cs_events s) out (fun a e out => Q a (set_events e s) out).
Proof. unfold wpW, on_events. by destruct (m (cs_events s)) as [[[a e] o]|]. Qed.
Create HintDb wpw.
#[export] Hint Rewrite @wpW_ret @wpW_reads @wpW_modify @wpW_emits @wpW_expects @wpW_bind @wpW_on_events : wpw.
Ltac wpw := autorewrite with wpw.

(** ** What a writer owes the stream *)
(** The message as the client knows it: the texts that have ended, the one being
    written, the calls, how it ended and with what usage. *)
Record Message : Type := mkMessage {
  m_started : bool;
  m_closed : list (TextKind * string);
  m_open : option (TextKind * string);
  m_calls : list ChatToolCall;
  m_outcome : option (Outcome * option value);
}.
Definition message_new : Message := mkMessage false [] None [] None.
Definition m_begin : Message := mkMessage true [] None [] None.
Definition m_open_text (k : TextKind) (M : Message) : Message :=
  mkMessage true (m_closed M) (Some (k, "")) (m_calls M) (m_outcome M).
Definition m_extend (d : string) (M : Message) : Message :=
  mkMessage true (m_closed M) ((fun kt => (kt.1, kt.2 +:+ d)) <$> m_open M) (m_calls M) (m_outcome M).
Definition m_close (M : Message) : Message :=
  mkMessage true (m_closed M ++ option_list (m_open M)) None (m_calls M) (m_outcome M).
Definition m_call (c : ChatToolCall) (M : Message) : Message :=
  mkMessage true (m_closed M) (m_open M) (m_calls M ++ [c]) (m_outcome M).
Definition m_end (o : Outcome) (u : option value) (M : Message) : Message :=
  mkMessage true (m_closed M) (m_open M) (m_calls M) (Some (o, u)).
(** Every text of the message, the open one last. *)
Definition m_texts (M : Message) : list (TextKind * string) := m_closed M ++ option_list (m_open M).

(** [wr_ok M e out]: the writer in state [e], having written [out], has told the
    client [M].  [wr_writes c cut] says whether the surface writes a call. *)
Class ChatWriter (E : Type) `{ChatEvents E} := {
  wr_ok : Message -> E -> list SseEvent -> Prop;
  wr_writes : ChatToolCall -> bool -> bool;
  wr_start now v fallback e out : wr_ok message_new e out ->
    wpW (ev_start now v fallback) e out (fun _ e out => wr_ok m_begin e out);
  wr_usage M u e out : m_started M = true -> m_outcome M = None -> wr_ok M e out ->
    wpW (ev_usage u) e out (fun _ e out => wr_ok M e out);
  wr_open M k e out : m_started M = true -> m_outcome M = None -> m_open M = None -> m_calls M = [] -> wr_ok M e out ->
    wpW (ev_open_text k) e out (fun _ e out => wr_ok (m_open_text k M) e out);
  wr_delta M k t d e out : m_started M = true -> m_outcome M = None -> m_open M = Some (k, t) -> wr_ok M e out ->
    wpW (ev_text_delta k d) e out (fun _ e out => wr_ok (m_extend d M) e out);
  wr_annotation M t v e out : m_started M = true -> m_outcome M = None -> m_open M = Some (Text, t) -> wr_ok M e out ->
    wpW (ev_annotation v) e out (fun _ e out => wr_ok M e out);
  wr_close M k t b e out : m_started M = true -> m_outcome M = None -> m_open M = Some (k, t) -> m_calls M = [] -> wr_ok M e out ->
    wpW (ev_close_text k t b) e out (fun _ e out => wr_ok (m_close M) e out);
  wr_call M c cut e out : m_started M = true -> m_outcome M = None -> m_open M = None -> wr_ok M e out ->
    wpW (ev_tool_call c cut) e out
      (fun b e out => b = wr_writes c cut /\ wr_ok (if b then m_call c M else M) e out);
  wr_finish M o u e out : m_started M = true -> m_outcome M = None -> m_open M = None -> wr_ok M e out ->
    wpW (ev_finish o u) e out (fun _ e out => wr_ok (m_end o u M) e out);
}.

(** ** The message a history of chunks makes *)
Definition say (kd : TextKind * string) (l : list (TextKind * string)) : list (TextKind * string) :=
  match last l with
  | Some (k, t) => if bool_decide (k = kd.1) then removelast l ++ [(k, t +:+ kd.2)] else l ++ [kd]
  | None => [kd]
  end.
(** Adjacent pieces of one kind make one text. *)
Definition grouped (pieces : list (TextKind * string)) : list (TextKind * string) := foldl (fun l kd => say kd l) [] pieces.
Definition chunk_pieces (c : ChatChunk) : list (TextKind * string) :=
  filter (fun kd => non_empty kd.2 = true) (chunk_texts c).
Definition h_pieces (h : list ChatChunk) : list (TextKind * string) := h ≫= chunk_pieces.
Definition h_deltas (h : list ChatChunk) : list ToolCallDelta := h ≫= ck_tool_calls.
Definition assembled (ds : list ToolCallDelta) : Assembly := foldl (fun a d => default a (assemble d a)) assembly_new ds.
Definition h_finish (h : list ChatChunk) : ChatFinish := finish_parse (last (omap ck_finish_reason h)).
Definition h_error (h : list ChatChunk) : option value := last (omap ck_error h).
Definition h_usage (h : list ChatChunk) : option value := normalize_reasoning_usage_value <$> last (omap ck_usage h).
Definition h_answered (h : list ChatChunk) : bool := existsb ck_has_choice h.
Definition h_calls (response_id : string) (h : list ChatChunk) : list ChatToolCall :=
  named_calls response_id (as_calls (assembled (h_deltas h))).
Definition h_unusable (response_id : string) (h : list ChatChunk) : bool :=
  bool_decide (length (h_calls response_id h) = 0) && negb (bool_decide (length (as_calls (assembled (h_deltas h))) = 0)) &&
  negb (truncated (h_finish h)).

Section Concluded.
Context {E : Type} `{ChatWriter E}.
(** The calls the surface writes, and how the message ends. *)
Definition h_written (response_id : string) (h : list ChatChunk) : list ChatToolCall :=
  List.filter (fun c => wr_writes c (truncated (h_finish h))) (h_calls response_id h).
Definition h_outcome (response_id : string) (h : list ChatChunk) : Outcome :=
  match h_error h with
  | Some error => Failed (FailureUpstream error)
  | None =>
      if negb (h_answered h) then Failed FailureEmpty
      else if h_unusable response_id h then Failed FailureUnusableToolCalls
      else Finished (h_finish h) (negb (bool_decide (length (h_written response_id h) = 0)))
  end.
(** A message that has ended, by the history of its chunks. *)
Definition concluded (response_id : string) (h : list ChatChunk) : Message :=
  mkMessage true (grouped (h_pieces h)) None
    (if h_error h then [] else if negb (h_answered h) then [] else h_written response_id h)
    (Some (h_outcome response_id h, h_usage h)).
End Concluded.

Lemma grouped_app ps qs : grouped (ps ++ qs) = foldl (fun l kd => say kd l) (grouped ps) qs.
Proof. apply foldl_app. Qed.

(** ** The stream tells the message of its history *)
Section Sound.
Context {E : Type} `{CW : ChatWriter E}.
Implicit Types (s : ChatStream E) (M : Message) (out : list SseEvent).

(** What the text methods leave alone. *)
Definition rest s := (cs_response_id s, cs_answered s, cs_terminated s, cs_assembly s, cs_finish_reason s, cs_usage s, cs_error s).

Record speaks M s out : Prop := {
  sp_writer : wr_ok M (cs_events s) out;
  sp_started : m_started M = true;
  sp_live : m_outcome M = None;
  sp_open : m_open M = (fun k => (k, cs_text s)) <$> cs_open s;
  sp_text : cs_open s = None -> cs_text s = "";
  sp_calls : m_calls M = [];
  sp_first : m_open M = None -> m_closed M = [];
}.

Lemma m_close_id M : m_started M = true -> m_open M = None -> m_close M = M.
Proof. destruct M as [? closed open ? ?]. unfold m_close. simpl. intros -> ->. simpl. by rewrite app_nil_r. Qed.

Lemma close_text_speaks M s out b : speaks M s out ->
  wpW (cs_close_text b) s out (fun _ s' out' =>
    wr_ok (m_close M) (cs_events s') out' /\ rest s' = rest s /\ cs_open s' = None /\ cs_text s' = "").
Proof.
  intros [Hw Hst Hl Ho Ht Hc Hf]. unfold cs_close_text. wpw. destruct (cs_open s) as [k|] eqn:Hk; wpw.
  - eapply wpW_mono; [by apply (wr_close M k (cs_text s))|]. intros [] e out' He. by wpw.
  - rewrite m_close_id by done. auto.
Qed.
Lemma text_delta_speaks M s out k d : speaks M s out ->
  wpW (cs_text_delta k d) s out (fun _ s' out' =>
    exists M', speaks M' s' out' /\ m_texts M' = say (k, d) (m_texts M) /\ rest s' = rest s).
Proof.
  intros HM. pose proof HM as [Hw Hst Hl Ho Ht Hc Hf]. unfold cs_text_delta. wpw. case_bool_decide as Hk; simpl; wpw.
  - rewrite Hk in Ho. simpl in Ho. eapply wpW_mono; [by eapply (wr_delta M k (cs_text s))|].
    intros [] e out' He. exists (m_extend d M). split; [|split; [|done]].
    + split; simpl; try done; rewrite ?Ho, ?Hk; done.
    + unfold m_texts, say. simpl. rewrite Ho. simpl. rewrite last_snoc, removelast_last. by rewrite bool_decide_eq_true_2.
  - eapply wpW_mono; [by apply close_text_speaks|]. intros [] s1 out1 (Hw1 & Hr1 & Ho1 & Ht1). wpw.
    eapply wpW_mono; [apply (wr_open (m_close M)); done|]. intros [] e2 out2 Hw2. wpw. simpl.
    eapply wpW_mono; [by eapply (wr_delta (m_open_text k (m_close M)) k "")|].
    intros [] e3 out3 Hw3. eexists. split; [|split; [|exact Hr1]].
    + split; simpl; try exact Hw3; simpl; try done. by rewrite Ht1.
    + unfold m_texts, say. simpl. destruct (cs_open s) as [k0|] eqn:Hk0; rewrite Ho; simpl.
      * rewrite last_snoc. by rewrite bool_decide_eq_false_2 by congruence.
      * rewrite Hf by done. done.
Qed.

Lemma annotations_speak M s out anns : speaks M s out -> cs_open s = Some Text ->
  wpW (each (fun a => on_events (ev_annotation a)) anns) s out (fun _ s' out' => speaks M s' out' /\ rest s' = rest s).
Proof.
  revert s out. induction anns as [|a anns IH]; intros s out HM Ho; simpl; wpw; [done|].
  pose proof HM as [Hw Hst Hl Hop Ht Hc Hf]. rewrite Ho in Hop.
  eapply wpW_mono; [by eapply (wr_annotation M (cs_text s))|]. intros [] e out' He.
  eapply wpW_mono; [apply IH; [|done]|done]. split; simpl; try done. by rewrite Ho.
Qed.
Lemma chunk_loop_speaks texts anns M s out : speaks M s out ->
  wpW (chunk_loop texts anns) s out (fun _ s' out' =>
    exists M', speaks M' s' out' /\ rest s' = rest s /\
      m_texts M' = foldl (fun l kd => say kd l) (m_texts M) (filter (fun kd => non_empty kd.2 = true) texts)).
Proof.
  revert anns M s out. induction texts as [|[k d] texts IH]; intros anns M s out HM; simpl; wpw; [eauto|].
  assert (Hcont : forall anns M s' out', speaks M s' out' -> rest s' = rest s ->
    wpW (if bool_decide (cs_open s' = Some Text)
         then each (fun a => on_events (ev_annotation a)) anns ;; chunk_loop texts [] else chunk_loop texts anns) s' out'
      (fun _ s'' out'' => exists M', speaks M' s'' out'' /\ rest s'' = rest s /\
        m_texts M' = foldl (fun l kd => say kd l) (m_texts M) (filter (fun kd => non_empty kd.2 = true) texts))).
  { intros anns' M' s' out' HM' Hr. case_bool_decide as Ho; wpw.
    - eapply wpW_mono; [by apply annotations_speak|]. intros [] s1 out1 [HM1 Hr1].
      eapply wpW_mono; [by apply IH|]. intros [] s2 out2 (M2 & ? & ? & ?). exists M2. split; [done|]. split; [congruence|done].
    - eapply wpW_mono; [by apply IH|]. intros [] s2 out2 (M2 & ? & ? & ?). exists M2. split; [done|]. split; [congruence|done]. }
  rewrite filter_cons. cbn [snd]. unfold when. destruct (non_empty d) eqn:Hd.
  - rewrite decide_True by done. eapply wpW_mono; [by apply text_delta_speaks|].
    intros [] s1 out1 (M1 & HM1 & Ht1 & Hr1). wpw. simpl. rewrite <- Ht1. by apply Hcont.
  - wpw. rewrite decide_False by done. by apply Hcont.
Qed.

Lemma tool_deltas_speak M s out ds : speaks M s out -> speaks M (foldl (fun s d => tool_delta d s) s ds) out.
Proof.
  revert s. induction ds as [|d ds IH]; intros s HM; simpl; [done|]. apply IH. unfold tool_delta.
  destruct (assemble d (cs_assembly s)); [|done]. by destruct HM.
Qed.
Lemma tool_deltas_assembly s ds : let s' := foldl (fun s d => tool_delta d s) s ds in
  rest s' = rest (set_assembly (foldl (fun a d => default a (assemble d a)) (cs_assembly s) ds) s).
Proof.
  revert s. induction ds as [|d ds IH]; intros s; simpl; [done|]. rewrite IH. unfold tool_delta.
  by destruct (assemble d (cs_assembly s)).
Qed.

(** The state after a history, before the message has ended. *)
Record tracks (id : string) (h : list ChatChunk) s out : Prop := {
  tk_rest : rest s = (id, h_answered h, false, assembled (h_deltas h), last (omap ck_finish_reason h), h_usage h, h_error h);
  tk_started : non_empty id = negb (bool_decide (h = []));
  tk_message : if bool_decide (h = []) then wr_ok message_new (cs_events s) out /\ cs_open s = None /\ cs_text s = ""
               else exists M, speaks M s out /\ m_texts M = grouped (h_pieces h);
}.
Lemma last_omap_snoc {A B} (f : A -> option B) h c :
  last (omap f (h ++ [c])) = match f c with Some b => Some b | None => last (omap f h) end.
Proof. rewrite omap_app. simpl. destruct (f c); [by rewrite last_snoc|by rewrite app_nil_r]. Qed.
Lemma tracks_new e : wr_ok message_new e [] -> tracks "" [] (stream_new e) [].
Proof. by split. Qed.

Lemma speaks_rest_eq M s s' out : speaks M s out -> cs_events s' = cs_events s -> cs_open s' = cs_open s -> cs_text s' = cs_text s ->
  speaks M s' out.
Proof. intros [] He Ho Ht. split; rewrite ?He, ?Ho, ?Ht; done. Qed.
Lemma begin_tracks id h s out now v fb : non_empty fb = true -> tracks id h s out ->
  wpW (when (negb (started s)) (begin_response now v fb)) s out (fun _ s' out' =>
    (exists M, speaks M s' out' /\ m_texts M = grouped (h_pieces h)) /\
    exists id', rest s' = (id', h_answered h, false, assembled (h_deltas h), last (omap ck_finish_reason h), h_usage h, h_error h) /\
      non_empty id' = true /\ id' = (if bool_decide (h = []) then begun_id v fb else id)).
Proof.
  intros Hfb [Hr Hs Hm]. unfold started. injection Hr as Hid Ha Hterm Has Hfr Hu Herr. rewrite Hid, Hs. case_bool_decide as Hh; simpl; wpw; cycle 1.
  { split; [done|]. exists id. split; [|done]. unfold rest. by rewrite Hid, Ha, Hterm, Has, Hfr, Hu, Herr. }
  subst h. destruct Hm as (Hw & Ho & Ht). unfold begin_response. wpw. simpl.
  eapply wpW_mono; [by apply wr_start|]. intros [] e out' He. split.
  - exists m_begin. split; [|done]. split; simpl; try done. by rewrite Ho.
  - eexists. split; [unfold rest; simpl; by rewrite Ha, Hterm, Has, Hfr, Hu, Herr|]. split; [|done].
    unfold begun_id, filter_some. destruct (get_str "id" v) as [i|]; simpl; [|done]. by destruct (non_empty i) eqn:Hi.
Qed.

Lemma usage_speaks M s out c : speaks M s out ->
  wpW (match ck_usage c with
       | Some usage => on_events (ev_usage (normalize_reasoning_usage_value usage)) ;;
                       modify (set_usage (Some (normalize_reasoning_usage_value usage)))
       | None => mret tt
       end) s out
    (fun _ s' out' => speaks M s' out' /\
       rest s' = rest (set_usage (match ck_usage c with Some u => Some (normalize_reasoning_usage_value u) | None => cs_usage s end) s)).
Proof.
  intros HM. destruct (ck_usage c) as [u|]; wpw; [|done].
  pose proof HM as [Hw Hst Hl Ho Ht Hc Hf]. eapply wpW_mono; [by apply (wr_usage M)|]. intros [] e out' He. wpw.
  split; [by split|done].
Qed.
Lemma chunk_tracks id h s out now v fb : non_empty fb = true -> tracks id h s out ->
  wpW (cs_chunk now v fb) s out (fun _ s' out' =>
    tracks (if bool_decide (h = []) then begun_id v fb else id) (h ++ [parse_chat_chunk v]) s' out').
Proof.
  intros Hfb Htk. unfold cs_chunk. generalize (parse_chat_chunk v) as c. intros c. wpw.
  eapply wpW_mono; [by apply (begin_tracks id h)|]. intros [] s1 out1 ((M & HM & Htexts) & id' & Hr & Hne & Hid). wpw.
  eapply wpW_mono; [by apply (usage_speaks M)|]. intros [] s2 out2 [HM2 Hr2].
  injection Hr as Hi1 Ha1 Ht1 Has1 Hf1 Hu1 He1. injection Hr2 as Hi2 Ha2 Ht2 Has2 Hf2 Hu2 He2.
  set (s3 := match ck_error c with Some e => set_error (Some e) s2 | None => s2 end).
  assert (Hs3 : forall Q, Q s3 -> wpW (match ck_error c with Some e => modify (set_error (Some e)) | None => mret tt end) s2 out2
     (fun _ s' out' => out' = out2 /\ Q s')) by (intros Q; unfold s3; destruct (ck_error c); wpw; auto).
  wpw. eapply wpW_mono; [apply (Hs3 (fun s' => s' = s3)); done|]. intros [] s' out' [-> ->]. clear Hs3. wpw.
  set (s4 := set_answered _ s3). assert (HM4 : speaks M s4 out2).
  { eapply speaks_rest_eq; [exact HM2|..]; unfold s4, s3; by destruct (ck_error c). }
  eapply wpW_mono; [by apply (chunk_loop_speaks _ _ M)|]. intros [] s5 out5 (M5 & HM5 & Hr5 & Ht5). wpw.
  set (s6 := foldl _ s5 _). assert (HM6 : speaks M5 s6 out5) by by apply tool_deltas_speak.
  pose proof (tool_deltas_assembly s5 (ck_tool_calls c)) as Hr6. fold s6 in Hr6. cbn zeta in Hr6.
  set (s7 := match ck_finish_reason c with Some r => set_finish_reason (Some r) s6 | None => s6 end).
  assert (Hgoal : tracks id' (h ++ [c]) s7 out5); [|rewrite <- Hid; by unfold s7 in Hgoal; destruct (ck_finish_reason c); wpw].
  injection Hr5 as Hi5 Ha5 Ht5' Has5 Hf5 Hu5 He5. injection Hr6 as Hi6 Ha6 Ht6 Has6 Hf6 Hu6 He6.
  split.
  - unfold h_answered, h_deltas, assembled, h_usage, h_error. rewrite existsb_app, !last_omap_snoc, bind_app, foldl_app.
    fold (assembled (h_deltas h)). simpl. rewrite orb_false_r, app_nil_r.
    assert (Hrest : rest s7 = (cs_response_id s6, cs_answered s6, cs_terminated s6, cs_assembly s6,
      match ck_finish_reason c with Some r => Some r | None => cs_finish_reason s6 end, cs_usage s6, cs_error s6))
      by (unfold s7; by destruct (ck_finish_reason c)).
    rewrite Hrest, Hi6, Ha6, Ht6, Has6, Hf6, Hu6, He6. simpl. rewrite Hi5, Ha5, Ht5', Has5, Hf5, Hu5, He5. unfold s4, s3. simpl.
    destruct (ck_error c); simpl; rewrite ?Hi2, ?Ha2, ?Ht2, ?Has2, ?Hf2, ?Hu2, ?He2; simpl;
      rewrite ?Hi1, ?Ha1, ?Ht1, ?Has1, ?Hf1, ?Hu1, ?He1; destruct (ck_usage c); done.
  - rewrite Hne, bool_decide_eq_false_2; [done|]. by destruct h.
  - rewrite bool_decide_eq_false_2 by by destruct h. exists M5. split.
    + eapply speaks_rest_eq; [exact HM6|..]; unfold s7; by destruct (ck_finish_reason c).
    + unfold h_pieces. rewrite bind_app, grouped_app. fold (h_pieces h). simpl. by rewrite app_nil_r, <- Htexts.
Qed.

Lemma write_calls_told cut calls tool_use M s out :
  m_started M = true -> m_outcome M = None -> m_open M = None -> wr_ok M (cs_events s) out ->
  wpW (write_calls cut calls tool_use) s out (fun b s' out' =>
    let writes := List.filter (fun c => wr_writes c cut) calls in
    b = tool_use || negb (bool_decide (length writes = 0)) /\
    wr_ok (mkMessage true (m_closed M) None (m_calls M ++ writes) None) (cs_events s') out' /\ rest s' = rest s).
Proof.
  revert tool_use M s out. induction calls as [|c calls IH]; intros tool_use M s out Hst Hl Ho Hw; simpl; wpw.
  - rewrite orb_false_r, app_nil_r. destruct M; simpl in *; subst. done.
  - eapply wpW_mono; [by apply (wr_call M)|]. intros b e out' [Hb He].
    eapply wpW_mono; [apply (IH _ (if b then m_call c M else M))|].
    1-3: by destruct b. { done. }
    intros b' s' out'' (-> & Hw' & Hr). rewrite <- Hb. split; [|split; [|exact Hr]].
    + destruct b; simpl; by rewrite ?orb_true_r, ?orb_false_r.
    + destruct b; simpl in *; [by rewrite <- app_assoc in Hw'|done].
Qed.
Lemma finish_tracks id h s out : tracks id h s out -> h ≠ [] ->
  wpW cs_finish s out (fun r s' out' =>
    r = Ok tt /\ cs_terminated s' = true /\ wr_ok (concluded id h) (cs_events s') out').
Proof.
  intros [Hr Hs Hm] Hh. rewrite bool_decide_eq_false_2 in Hs, Hm by done. destruct Hm as (M & HM & Ht).
  injection Hr as Hid Ha Hterm Has Hfr Hu Herr.
  unfold cs_finish. wpw. unfold started. rewrite Hterm, Hid, Hs. simpl. wpw. simpl.
  rewrite Hfr. fold (h_finish h). set (fin := h_finish h) in *.
  eapply wpW_mono; [apply (close_text_speaks M)|].
  { eapply speaks_rest_eq; [exact HM|done..]. }
  intros [] s1 out1 (Hw1 & Hr1 & Ho1 & Ht1). injection Hr1 as Hid1 Ha1 Hterm1 Has1 Hfr1 Hu1 Herr1. wpw.
  pose proof HM as [Hw Hst Hl Ho Htx Hc Hf].
  assert (Hclosed : m_close M = mkMessage true (grouped (h_pieces h)) None [] None)
    by (unfold m_close; rewrite Hc, Hl; unfold m_texts in Ht; by rewrite Ht).
  rewrite Hclosed in Hw1. unfold write_outcome. wpw. rewrite Herr1, Ha1. simpl. rewrite Herr, Ha.
  unfold concluded, h_outcome. destruct (h_error h) as [err|].
  { wpw. eapply wpW_mono; [eapply wr_finish; [..|exact Hw1]; done|].
    intros [] e out' Hk. wpw. unfold m_end in Hk. by rewrite Hu1, Hu in Hk. }
  destruct (h_answered h); simpl.
  2: { wpw. eapply wpW_mono; [eapply wr_finish; [..|exact Hw1]; done|].
    intros [] e out' Hk. wpw. unfold m_end in Hk. by rewrite Hu1, Hu in Hk. }
  wpw. rewrite Has1, Hid1. simpl. rewrite Has, Hid. fold (h_calls id h).
  eapply wpW_mono; [by apply (write_calls_told _ _ _ (mkMessage true (grouped (h_pieces h)) None [] None))|].
  intros b s2 out2 (Hb & Hw2 & Hr2). injection Hr2 as ? ? Hterm2 ? ? Hu2 ?. wpw. simpl in Hb, Hw2.
  eapply wpW_mono; [eapply wr_finish; [..|exact Hw2]; done|].
  intros [] e out' Hk. wpw. split; [done|]. split; [by simpl; congruence|]. unfold m_end in Hk. simpl in Hk.
  rewrite Hu2, Hu1, Hu, Hb in Hk. unfold h_unusable, h_written. fold fin. by destruct (_ && _ && _).
Qed.
End Sound.

(** ** A whole run *)
Section Run.
Context {E : Type} `{CW : ChatWriter E} {SJ : SerdeJson}.

(** The chunks heard so far and whether the message has ended, by the payloads alone. *)
Definition hear (event : ParsedEvent) (hv : list value) (ended : bool) : result unit (list value * bool) :=
  let payload := event_payload event in
  if bool_decide (payload = "[DONE]") then
    if ended then Ok (hv, true) else if bool_decide (length hv = 0) then Err tt else Ok (hv, true)
  else if non_empty payload && negb ended then
    match parse_json payload with None => Err tt | Some v => Ok (hv ++ [v], false) end
  else Ok (hv, ended).
(** A failing event ends the run with what was heard before it. *)
Fixpoint hears (events : list (Time * ParsedEvent)) (hv : list value) (ended : bool) : result unit unit * list value * bool :=
  match events with
  | [] => (Ok tt, hv, ended)
  | (_, event) :: events' =>
      match hear event hv ended with Ok (hv, ended) => hears events' hv ended | Err _ => (Err tt, hv, ended) end
  end.
Definition response_id (fallback_id : string) (hv : list value) : string :=
  match hv with [] => "" | v :: _ => begun_id v fallback_id end.
(** What the client has been told after hearing [hv]. *)
Definition tells (fallback_id : string) (hv : list value) (ended : bool) (e : E) (out : list SseEvent) : Prop :=
  let h := parse_chat_chunk <$> hv in
  if ended then wr_ok (concluded (response_id fallback_id hv) h) e out
  else exists M, wr_ok M e out /\ m_outcome M = None /\ m_calls M = [] /\ m_started M = negb (bool_decide (length hv = 0)) /\
                 m_texts M = grouped (h_pieces h).

(** The state between two events. *)
Definition between (fb : string) (hv : list value) (ended : bool) (s : ChatStream E) (out : list SseEvent) : Prop :=
  if ended then hv ≠ [] /\ cs_terminated s = true /\ wr_ok (concluded (response_id fb hv) (parse_chat_chunk <$> hv)) (cs_events s) out
  else tracks (response_id fb hv) (parse_chat_chunk <$> hv) s out.
Lemma between_tells fb hv ended s out : between fb hv ended s out -> tells fb hv ended (cs_events s) out.
Proof.
  unfold between, tells. destruct ended; [by intros (_ & _ & ?)|]. intros [Hr Hs Hm]. destruct hv as [|v hv]; simpl in *.
  - destruct Hm as (Hw & _). by exists message_new.
  - destruct Hm as (M & [] & Ht). by exists M.
Qed.
Lemma tracks_live id h s out : tracks id h s out -> cs_terminated s = false.
Proof. intros [Hr _ _]. by injection Hr. Qed.

Lemma step_between now event fb hv ended s out : non_empty fb = true -> between fb hv ended s out ->
  wpW (cs_step now event fb) s out (fun r s' out' =>
    match hear event hv ended with
    | Ok (hv', ended') => r = Ok tt /\ between fb hv' ended' s' out'
    | Err _ => r = Err tt /\ between fb hv ended s' out'
    end).
Proof.
  intros Hfb HB. unfold cs_step, hear. case_bool_decide.
  - destruct ended; [|destruct hv as [|v hv]].
    + destruct HB as (? & Ht & ?). unfold cs_finish. wpw. rewrite Ht. wpw. done.
    + pose proof (tracks_live _ _ _ _ HB) as Hl. destruct HB as [Hr Hs Hm]. pose proof Hr as Hr'. injection Hr' as Hid _.
      unfold cs_finish. wpw. rewrite Hl. unfold started. rewrite Hid. simpl. wpw. done.
    + eapply wpW_mono; [by eapply finish_tracks|]. intros r s' out' (-> & Ht & Hw). simpl. done.
  - wpw. destruct ended.
    + destruct HB as (? & Ht & ?). rewrite Ht, andb_false_r. wpw. done.
    + rewrite (tracks_live _ _ _ _ HB), andb_true_r. destruct (non_empty (event_payload event)); [|by wpw].
      destruct (parse_json _) as [v|]; wpw; [|done]. eapply wpW_mono; [by eapply chunk_tracks|].
      intros [] s' out' Htk. wpw. split; [done|]. unfold between. rewrite fmap_app. by destruct hv.
Qed.
Lemma run_between events fb : non_empty fb = true -> forall hv ended s out, between fb hv ended s out ->
  wpW (cs_run events fb) s out (fun r s' out' =>
    let '(r', hv', ended') := hears events hv ended in r = r' /\ between fb hv' ended' s' out').
Proof.
  intros Hfb. induction events as [|[now event] events IH]; intros hv ended s out HB; simpl; wpw; [done|].
  eapply wpW_mono; [by apply step_between|]. intros r s' out'. destruct (hear event hv ended) as [[hv' ended']|[]].
  - intros [-> HB']. by apply IH.
  - intros [-> HB']. by wpw.
Qed.
Lemma close_between fb hv ended s out : between fb hv ended s out ->
  wpW cs_close s out (fun r s' out' =>
    let h := parse_chat_chunk <$> hv in
    if ended then r = Ok tt /\ between fb hv true s' out'
    else if bool_decide (last (omap ck_finish_reason h) = None) && bool_decide (h_error h = None)
    then r = Err tt /\ s' = s /\ out' = out
    else r = Ok tt /\ between fb hv true s' out').
Proof.
  intros HB. unfold cs_close. wpw. destruct ended.
  - destruct HB as (? & Ht & ?). rewrite Ht. by wpw.
  - pose proof HB as [Hr _ _]. injection Hr as Hid Ha Hterm Has Hfr Hu Herr. rewrite Hterm, Hfr, Herr. cbn zeta.
    destruct (_ && _) eqn:Hcut; wpw; [done|]. destruct hv as [|v hv]; [done|].
    eapply wpW_mono; [by eapply finish_tracks|]. by intros r s' out' (-> & Ht & Hw).
Qed.

(** The bridge never panics, and the client has been told the message of the chunks
    heard, after the events and after the connection closes. *)
Definition bridge_sound (told : list value -> bool -> list SseEvent -> Prop) (events : list (Time * ParsedEvent)) (fb : string) (e : E) : Prop :=
  exists r s out, cs_run events fb (stream_new e) = Some (r, s, out) /\
    let '(r', hv, ended) := hears events [] false in
    let h := parse_chat_chunk <$> hv in
    r = r' /\ told hv ended out /\
    exists r2 s2 out2, cs_close s = Some (r2, s2, out2) /\
      let declared := ended || bool_decide (is_Some (last (omap ck_finish_reason h))) || bool_decide (is_Some (h_error h)) in
      if declared then r2 = Ok tt /\ told hv true (out ++ out2) else r2 = Err tt /\ out2 = [].
Lemma bridge_tells told events fb e : non_empty fb = true -> wr_ok message_new e [] ->
  (forall hv ended s out, between fb hv ended s out -> told hv ended out) -> bridge_sound told events fb e.
Proof.
  intros Hfb He Htold. assert (Hrun : wpW (cs_run events fb) (stream_new e) [] (fun r s out =>
    let '(r', hv, ended) := hears events [] false in r = r' /\ between fb hv ended s out))
    by (apply run_between; [done|by apply tracks_new]).
  apply wpW_run in Hrun as (r & s & out & Hrun & HB). exists r, s, out. split; [done|].
  revert HB. destruct (hears events [] false) as [[r' hv] ended]. intros [-> HB]. split; [done|]. split; [by eapply Htold|].
  pose proof (close_between _ _ _ _ _ HB) as Hclose. unfold wpW in Hclose.
  destruct (cs_close s) as [[[r2 s2] out2]|] eqn:Hc; [|done]. exists r2, s2, out2. split; [done|].
  destruct ended; simpl in *; [destruct Hclose as [-> HB2]; split; [done|by eapply Htold]|].
  destruct (last (omap ck_finish_reason _)) eqn:Hf, (h_error _) eqn:Herr; simpl in *;
    try (destruct Hclose as [-> HB2]; split; [done|by eapply Htold]).
  destruct Hclose as (-> & _ & Ho). split; [done|]. by apply (app_inv_head out); rewrite app_nil_r.
Qed.
End Run.

(** ** The rendered events *)
Section Rendered.
Context {SJ : SerdeJson}.
Definition plain_name (name : string) : Prop := lf ∉ as_bytes name /\ cr ∉ as_bytes name.
(** What a client reads from the rendered text is the documents of the events. *)
Lemma render_reads out : Forall (fun e : SseEvent => plain_name e.1) out ->
  stream_events (as_bytes (render out)) = (fun e => to_vec e.2) <$> out.
Proof.
  intros Hout. unfold render. rewrite as_bytes_of_bytes.
  set (lines := fun e : SseEvent => [as_bytes "event: " ++ as_bytes e.1; as_bytes "data: " ++ to_vec e.2]).
  assert (Hev : sse_event <$> out = (fun ls => unlines ls ++ [lf]) <$> (lines <$> out)).
  { rewrite <- list_fmap_compose. apply list_fmap_ext. intros i e _. unfold sse_event, lines, compose.
    change [?a; ?b] with ([a] ++ [b]). rewrite unlines_app, !unlines_one. by rewrite <- !app_assoc. }
  rewrite Hev, stream_events_many.
  - clear Hev Hout. induction out as [|e out IH]; [done|].
    change (e :: out) with ([e] ++ out). rewrite !fmap_app, omap_app, IH. done.
  - apply Forall_fmap. eapply Forall_impl; [exact Hout|]. intros e [Hl Hc]. simpl. unfold lines.
    destruct (to_vec_no_line_break e.2) as [Hvl Hvc].
    assert (lf ∉ as_bytes "event: " /\ cr ∉ as_bytes "event: ") as [? ?] by (split; listed).
    assert (lf ∉ as_bytes "data: " /\ cr ∉ as_bytes "data: ") as [? ?] by (split; listed).
    constructor; [|constructor; [|constructor]]; (split; [done|]); rewrite !elem_of_app; tauto.
Qed.
End Rendered.

(** ** Interleaved tool calls *)
Definition first_non_empty (l : list string) : string := default "" (List.find non_empty l).
Definition deltas_at (i : Z) (ds : list ToolCallDelta) : list ToolCallDelta := filter (fun d => td_index d = Some i) ds.
(** The call at an index by its own deltas, in their order. *)
Definition call_at (i : Z) (ds : list ToolCallDelta) : ToolCall :=
  mkToolCall (first_non_empty (td_id <$> deltas_at i ds)) (first_non_empty (td_name <$> deltas_at i ds))
    (concat_strings (td_arguments <$> deltas_at i ds)).
(** An upstream that names each call by its index, and never two calls alike. *)
Record well_indexed (id_of : Z -> string) (ds : list ToolCallDelta) : Prop := {
  wi_index d : d ∈ ds -> exists i, td_index d = Some i /\ (td_id d = "" \/ td_id d = id_of i);
  wi_apart i j : id_of i = id_of j -> id_of i = "" \/ i = j;
}.

Lemma first_non_empty_snoc l x :
  first_non_empty (l ++ [x]) = if bool_decide (first_non_empty l = "") then x else first_non_empty l.
Proof.
  unfold first_non_empty. induction l as [|y l IH]; simpl; [unfold non_empty; by repeat case_bool_decide|].
  destruct (non_empty y) eqn:Hy; [|exact IH]. simpl. unfold non_empty in Hy. by case_bool_decide.
Qed.
Lemma as_bytes_inj a b : as_bytes a = as_bytes b -> a = b.
Proof. intros Hab. by rewrite <- (of_bytes_as_bytes a), Hab, of_bytes_as_bytes. Qed.
Lemma string_app_assoc (a b c : string) : a +:+ (b +:+ c) = (a +:+ b) +:+ c.
Proof. apply as_bytes_inj. by rewrite !as_bytes_app, app_assoc. Qed.
Lemma string_app_nil_r (a : string) : a +:+ "" = a.
Proof. apply as_bytes_inj. rewrite as_bytes_app. apply app_nil_r. Qed.
Lemma concat_strings_app l r : concat_strings (l ++ r) = concat_strings l +:+ concat_strings r.
Proof. induction l as [|x l IH]; simpl; [done|]. by rewrite IH, string_app_assoc. Qed.
Lemma call_at_snoc i d ds : call_at i (ds ++ [d]) =
  if bool_decide (td_index d = Some i) then extend_call d (call_at i ds) else call_at i ds.
Proof.
  unfold call_at, deltas_at. rewrite filter_app, filter_cons. case_bool_decide as Hi.
  - rewrite decide_True by done. rewrite !fmap_app. simpl. rewrite !first_non_empty_snoc, concat_strings_app. simpl.
    by rewrite string_app_nil_r.
  - rewrite decide_False by done. by rewrite !app_nil_r.
Qed.

(** Insertion into an ordered list of indices. *)
Fixpoint insert_index (i : Z) (l : list Z) : list Z :=
  match l with
  | [] => [i]
  | j :: l' => if bool_decide (j = i) then l else if (i <? j)%Z then i :: l else j :: insert_index i l'
  end.
Lemma elem_of_insert_index i j l : j ∈ insert_index i l <-> j = i \/ j ∈ l.
Proof.
  induction l as [|k l IH]; simpl; [by rewrite list_elem_of_singleton, elem_of_nil; naive_solver|].
  case_bool_decide; [set_solver|]. case_match; rewrite ?elem_of_cons, ?IH; naive_solver.
Qed.
Lemma insert_index_sorted i l : StronglySorted Z.lt l -> StronglySorted Z.lt (insert_index i l).
Proof.
  induction 1 as [|j l Hl IH Hj]; simpl; [repeat constructor|]. case_bool_decide; [by constructor|].
  destruct (Z.ltb_spec i j).
  - constructor; [by constructor|]. constructor; [done|]. eapply Forall_impl; [exact Hj|]. simpl. lia.
  - constructor; [done|]. apply Forall_forall. intros k [->|Hk]%elem_of_insert_index; [lia|].
    rewrite Forall_forall in Hj. auto.
Qed.
Lemma calls_update_entries i g (c : Z -> ToolCall) ixs : StronglySorted Z.lt ixs -> (i ∉ ixs -> c i = tool_call_default) ->
  calls_update (i, 0%Z) g ((fun j => ((j, 0%Z), c j)) <$> ixs) =
  (fun j => ((j, 0%Z), if bool_decide (j = i) then g (c i) else c j)) <$> insert_index i ixs.
Proof.
  intros Hs. induction Hs as [|j ixs Hs IH Hj]; intros Hfresh; simpl.
  - rewrite bool_decide_eq_true_2 by done. by rewrite Hfresh by set_solver.
  - rewrite Forall_forall in Hj. assert (Hrest : forall k, (forall j, j ∈ ixs -> (k < j)%Z) ->
      (fun j => ((j, 0%Z), c j)) <$> ixs = (fun j => ((j, 0%Z), if bool_decide (j = k) then g (c k) else c j)) <$> ixs).
    { intros k Hk. apply list_fmap_ext. intros n x Hx%list_elem_of_lookup_2. rewrite bool_decide_eq_false_2; [done|].
      intros ->. specialize (Hk k Hx). lia. }
    destruct (decide (j = i)) as [->|Hne].
    + rewrite !bool_decide_eq_true_2 by done. simpl. rewrite bool_decide_eq_true_2 by done. f_equal. by apply Hrest.
    + rewrite (bool_decide_eq_false_2 (_ = _)) by congruence. rewrite (bool_decide_eq_false_2 (j = i)) by done.
      unfold slot_ltb. simpl. rewrite andb_false_r, orb_false_r. destruct (Z.ltb_spec i j) as [Hlt|Hge]; simpl.
      * rewrite <- Hfresh by (intros [->|Hin]%elem_of_cons; [done|specialize (Hj _ Hin); lia]).
        rewrite bool_decide_eq_true_2, (bool_decide_eq_false_2 (j = i)) by done. do 2 f_equal.
        apply Hrest. intros k Hk. specialize (Hj _ Hk). lia.
      * rewrite (bool_decide_eq_false_2 (j = i)) by done. f_equal. apply IH. intros Hi. apply Hfresh. by intros [->|]%elem_of_cons.
Qed.

Section Assembled.
Context (id_of : Z -> string).

(** The state after the deltas of a well-indexed upstream. *)
Record indexed_calls (ds : list ToolCallDelta) (ixs : list Z) (a : Assembly) : Prop := {
  ic_sorted : StronglySorted Z.lt ixs;
  ic_indices i : i ∈ ixs <-> exists d, d ∈ ds /\ td_index d = Some i;
  ic_calls : as_calls a = (fun i => ((i, 0%Z), call_at i ds)) <$> ixs;
  ic_bound i slot : as_bound a !! i = Some slot -> slot = (i, 0%Z);
}.
Lemma call_at_id ds i : well_indexed id_of ds -> tc_id (call_at i ds) = "" \/ tc_id (call_at i ds) = id_of i.
Proof.
  intros [Hi _]. unfold call_at. simpl. unfold first_non_empty.
  destruct (List.find non_empty (td_id <$> deltas_at i ds)) as [s|] eqn:Hf; [|by left]. right.
  apply find_some in Hf as [Hin Hs]. apply list_elem_of_In, list_elem_of_fmap in Hin as (d & -> & Hd).
  apply list_elem_of_filter in Hd as [Hdi Hd]. destruct (Hi d Hd) as (i' & Hi' & [He|He]); simpl.
  - by rewrite He in Hs.
  - congruence.
Qed.
Lemma call_at_fresh ds i : ~ (exists d, d ∈ ds /\ td_index d = Some i) -> call_at i ds = tool_call_default.
Proof.
  intros Hn. unfold call_at. assert (deltas_at i ds = []) as ->; [|done].
  destruct (deltas_at i ds) as [|d l] eqn:Hd; [done|]. destruct Hn. exists d.
  assert (d ∈ deltas_at i ds) as [? ?]%list_elem_of_filter by (rewrite Hd; left). done.
Qed.
Lemma calls_get_entries i (c : Z -> ToolCall) ixs call :
  calls_get (i, 0%Z) ((fun j => ((j, 0%Z), c j)) <$> ixs) = Some call -> i ∈ ixs /\ call = c i.
Proof.
  induction ixs as [|j ixs IH]; simpl; [done|]. case_bool_decide as Hj.
  - intros [= <-]. injection Hj as ->. split; [left|done].
  - intros [Hi ->]%IH. split; [by right|done].
Qed.

Lemma delta_slot_indexed ds ixs a d i : well_indexed id_of (ds ++ [d]) -> indexed_calls ds ixs a -> td_index d = Some i ->
  delta_slot d a = Some (i, 0%Z).
Proof.
  intros Hw [Hs Hix Hc Hb] Hi.
  assert (Hds : well_indexed id_of ds) by (destruct Hw as [Hw1 Hw2]; split; [intros d' Hd'; apply Hw1; set_solver|done]).
  destruct (wi_index _ _ Hw d) as (i' & Hi' & Hid); [set_solver|]. assert (i' = i) as -> by congruence.
  unfold delta_slot, known_slot. rewrite Hi, Hc.
  destruct (List.find _ _) as [[slot call]|] eqn:Hf; simpl.
  - apply find_some in Hf as [Hin Hp]. apply list_elem_of_In, list_elem_of_fmap in Hin as (j & [= -> ->] & Hj).
    apply andb_prop in Hp as [Hne Heq%bool_decide_eq_true]. cbn [snd] in Heq.
    assert (td_id d ≠ "") by (unfold non_empty in Hne; by case_bool_decide).
    destruct (call_at_id ds j Hds) as [He|He]; [congruence|]. destruct Hid as [|Hid]; [done|].
    destruct (wi_apart _ _ Hw j i) as [Hx| ->]; [congruence..|done].
  - assert (default (i, 0%Z) (as_bound a !! i) = (i, 0%Z)) as ->.
    { destruct (as_bound a !! i) eqn:Hbi; simpl; [by apply Hb|done]. }
    destruct (calls_get _ _) as [call|] eqn:Hg; [|done]. destruct (non_empty (td_id d) && non_empty (tc_id call)) eqn:Hne; [|done].
    apply andb_prop in Hne as [Hn1 Hn2]. apply calls_get_entries in Hg as [Hin ->].
    assert (Hx : ((i, 0%Z), call_at i ds) ∈ (fun i => ((i, 0%Z), call_at i ds)) <$> ixs) by (apply list_elem_of_fmap; eauto).
    apply list_elem_of_In in Hx. pose proof (find_none _ _ Hf _ Hx) as Hno. rewrite Hn1 in Hno. cbn [snd andb] in Hno.
    apply bool_decide_eq_false in Hno. destruct Hno.
    destruct (call_at_id ds i Hds) as [He|He]; [by rewrite He in Hn2|]. destruct Hid as [Hid|Hid]; [by rewrite Hid in Hn1|congruence].
Qed.
Lemma assembled_indexed ds : well_indexed id_of ds -> exists ixs, indexed_calls ds ixs (assembled ds).
Proof.
  induction ds as [|d ds IH] using rev_ind; intros Hw.
  - exists []. split; simpl; [constructor|set_solver|done|]. intros i slot Hl. by rewrite lookup_empty in Hl.
  - assert (Hds : well_indexed id_of ds) by (destruct Hw as [Hw1 Hw2]; split; [intros d' Hd'; apply Hw1; set_solver|done]).
    destruct (IH Hds) as [ixs HI]. pose proof HI as [Hs Hix Hc Hb].
    destruct (wi_index _ _ Hw d) as (i & Hi & _); [set_solver|]. exists (insert_index i ixs).
    unfold assembled. rewrite foldl_app. fold (assembled ds). simpl. unfold assemble.
    rewrite (delta_slot_indexed ds ixs (assembled ds) d i Hw HI Hi). simpl. rewrite Hi. split; simpl.
    + by apply insert_index_sorted.
    + intros j. rewrite elem_of_insert_index, Hix. setoid_rewrite elem_of_app. setoid_rewrite list_elem_of_singleton. naive_solver.
    + rewrite Hc, calls_update_entries by (done || (rewrite Hix; apply call_at_fresh)).
      apply list_fmap_ext. intros n j _. rewrite call_at_snoc. do 2 f_equal.
      repeat case_bool_decide; simplify_eq; done.
    + intros j slot. rewrite lookup_insert. destruct (decide (i = j)) as [->|]; [by intros [= <-]|apply Hb].
Qed.
End Assembled.

(** Tool calls sent in parallel are put together by their index: for an upstream that gives
    every piece of a call its index and never two calls one id, the assembled calls are in the
    order of their indices, each with the first id and the first name sent for it and with its
    argument pieces joined in the order they came, however the pieces of different calls
    interleave. *)
Theorem parallel_calls_assembled id_of ds : well_indexed id_of ds ->
  exists ixs, StronglySorted Z.lt ixs /\ (forall i, i ∈ ixs <-> exists d, d ∈ ds /\ td_index d = Some i) /\
    as_calls (assembled ds) = (fun i => ((i, 0%Z), call_at i ds)) <$> ixs.
Proof. intros [ixs []]%assembled_indexed. by exists ixs. Qed.

Definition sample_deltas : list ToolCallDelta :=
  [mkDelta (Some 1%Z) "b" "write" "{"; mkDelta (Some 0%Z) "a" "read" "[";
   mkDelta (Some 1%Z) "" "" "}"; mkDelta (Some 0%Z) "a" "" "]"].
Definition sample_id (i : Z) : string := if (i =? 0)%Z then "a" else if (i =? 1)%Z then "b" else "".
Lemma parallel_calls_assembled_witness : exists ixs,
  as_calls (assembled sample_deltas) = (fun i => ((i, 0%Z), call_at i sample_deltas)) <$> ixs /\
  as_calls (assembled sample_deltas) =
    [((0, 0)%Z, mkToolCall "a" "read" "[]"); ((1, 0)%Z, mkToolCall "b" "write" "{}")].
Proof.
  destruct (parallel_calls_assembled sample_id sample_deltas) as (ixs & _ & _ & H).
  - split.
    + unfold sample_deltas. intros d Hd. repeat (apply elem_of_cons in Hd as [->|Hd]; [eexists; split; [reflexivity|vm_compute; auto]|]).
      by apply elem_of_nil in Hd.
    + intros i j. unfold sample_id. repeat case_match; lia || naive_solver.
  - exists ixs. split; [exact H|reflexivity].
Defined.

Section SampleStream.
#[local] Existing Instance sample_json.
Definition event_of (payload : string) : Time * ParsedEvent := (mkTime 0 0, mkParsed None (Some payload)).
Definition delta_chunk (members : object) (finish : value) : value :=
  JObject [("id", JString "c1"); ("choices", JArray [JObject [("delta", JObject members); ("finish_reason", finish)]])].
(** Two pieces of text, a call in two pieces, and the end marker. *)
Definition sample_stream : list (Time * ParsedEvent) :=
  event_of <$> (json_str <$>
    [delta_chunk [("content", JString "He")] JNull;
     delta_chunk [("content", JString "llo");
       ("tool_calls", JArray [JObject [("index", JNumber (PosInt 0)); ("id", JString "t");
         ("function", JObject [("name", JString "f"); ("arguments", JString "")])]])] JNull;
     delta_chunk [] (JString "tool_calls")]) ++ ["[DONE]"].
End SampleStream.
