(* ===== verification/MessagesStream.v ===== *)
(** * The Messages surface of a chat stream (src/middleware/stream_transform.rs)

    [MessagesEvents] writes a bridged chat stream as Anthropic Messages events.  Its
    specification is a client: a reader that accepts only the sequences the Messages
    protocol allows (the message starts once, content blocks open, grow and stop one
    at a time under consecutive indices, the message ends once) and assembles the
    blocks.  The writer is a [ChatWriter], so whatever the upstream sends, the client
    assembles the message of the chunks heard. *)
From S2P Require Import Prelude Text Json External Sample SseProtocol UpstreamErrors Images Audio Sanitize SseFraming ToolMap Conversion EventStream ChatStream.

Record MessagesEvents : Type := mkMessages {
  me_next_index : nat;
  me_upstream_usage : option value;
}.
Definition messages_new (upstream_usage : option value) : MessagesEvents := mkMessages 0 upstream_usage.

Section Writer.
Context {SJ : SerdeJson}.

Definition block_event (kind : string) (e : MessagesEvents) (members : object) : SseEvent :=
  (kind, JObject ([("type", JString kind); ("index", json_nat (me_next_index e))] ++ members)).
Definition emit_block (kind : string) (members : object) : W MessagesEvents unit :=
  event ← reads (fun e => block_event kind e members); emits event.
Definition block_start (block : value) : W MessagesEvents unit := emit_block "content_block_start" [("content_block", block)].
Definition block_delta (delta : value) : W MessagesEvents unit := emit_block "content_block_delta" [("delta", delta)].
Definition block_stop : W MessagesEvents unit :=
  emit_block "content_block_stop" [] ;;
  modify (fun e => mkMessages (S (me_next_index e)) (me_upstream_usage e)).
Definition report_usage (usage : value) (e : MessagesEvents) : MessagesEvents := mkMessages (me_next_index e) (Some usage).

Definition messages_start (now : Time) (chunk : value) (fallback_id : string) : W MessagesEvents unit :=
  let text key := filter_some non_empty (get_str key chunk) in
  let id := match text "id" with
            | Some id => id
            | None => if non_empty fallback_id then fallback_id else "msg_" +:+ pretty (t_millis now)
            end in
  let usage := set_member "output_tokens" (json_i64 0) (messages_usage (get "usage" chunk)) in
  emits ("message_start",
    JObject [("type", JString "message_start");
             ("message", JObject
               [("id", JString id); ("type", JString "message"); ("role", JString "assistant"); ("content", JArray []);
                ("model", JString (default "unknown" (text "model"))); ("stop_reason", JNull); ("stop_sequence", JNull);
                ("usage", usage)])]).
Definition messages_usage_event (usage : value) : W MessagesEvents unit := modify (report_usage (messages_usage (Some usage))).
Definition messages_open_text (kind : TextKind) : W MessagesEvents unit :=
  block_start (match kind with Reasoning => thinking_block "" | Text | Refusal => text_block "" end).
Definition messages_text_delta (kind : TextKind) (delta : string) : W MessagesEvents unit :=
  block_delta (match kind with
               | Reasoning => JObject [("type", JString "thinking_delta"); ("thinking", JString delta)]
               | Text | Refusal => JObject [("type", JString "text_delta"); ("text", JString delta)]
               end).
Definition messages_tool_call (call : ChatToolCall) (cut : bool) : W MessagesEvents bool :=
  let write input :=
    block_start (tool_use_block (call_id call) (call_name call) (JObject [])) ;;
    block_delta (JObject [("type", JString "input_json_delta"); ("partial_json", JString input)]) ;;
    block_stop ;; mret true in
  match function_call_arguments (call_arguments call) with
  | Some input => write input
  | None => if cut then mret false else write "{}"
  end.
Definition messages_failure (failure : Failure) : value :=
  match failure with
  | FailureUpstream error => error
  | FailureEmpty =>
      JObject [("type", JString "api_error"); ("message", JString "The upstream provider returned no response")]
  | FailureUnusableToolCalls =>
      JObject [("type", JString "api_error"); ("message", JString "The upstream provider returned tool calls without a name")]
  end.
Definition messages_finish (outcome : Outcome) (usage : option value) : W MessagesEvents unit :=
  match outcome with
  | Failed failure => emits ("error", JObject [("type", JString "error"); ("error", messages_failure failure)])
  | Finished finish tool_use =>
      emits ("message_delta",
        JObject [("type", JString "message_delta");
                 ("delta", JObject [("stop_reason", JString (stop_reason finish tool_use)); ("stop_sequence", JNull)]);
                 ("usage", messages_usage usage)]) ;;
      emits ("message_stop", JObject [("type", JString "message_stop")])
  end.

#[global] Instance messages_events : ChatEvents MessagesEvents := {
  ev_start := messages_start;
  ev_usage := messages_usage_event;
  ev_open_text := messages_open_text;
  ev_text_delta := messages_text_delta;
  ev_annotation := fun _ => mret tt;
  ev_close_text := fun _ _ _ => block_stop;
  ev_tool_call := messages_tool_call;
  ev_finish := messages_finish;
}.
End Writer.

(** ** A client of the Messages protocol *)
Inductive Block : Type :=
| ThinkingBlock (thinking : string)
| TextBlock (text : string)
| ToolUseBlock (id name input : string).
Inductive Phase : Type :=
| Fresh
| Streaming
| Stopping (stop_reason : string) (usage : value)
| Stopped (stop_reason : string) (usage : value)
| Errored (error : value).
Record View : Type := mkView {
  vw_phase : Phase;
  vw_blocks : list Block;
  vw_open : option Block;
}.
Definition view_new : View := mkView Fresh [] None.

Definition opened (block : value) : option Block :=
  match get_str "type" block with
  | Some t =>
      if bool_decide (t = "thinking") then ThinkingBlock <$> get_str "thinking" block
      else if bool_decide (t = "text") then TextBlock <$> get_str "text" block
      else if bool_decide (t = "tool_use") then
        id ← get_str "id" block; name ← get_str "name" block; Some (ToolUseBlock id name "")
      else None
  | None => None
  end.
Definition grow (delta : value) (b : Block) : option Block :=
  match b, get_str "type" delta with
  | ThinkingBlock t, Some "thinking_delta" => (fun d => ThinkingBlock (t +:+ d)) <$> get_str "thinking" delta
  | TextBlock t, Some "text_delta" => (fun d => TextBlock (t +:+ d)) <$> get_str "text" delta
  | ToolUseBlock id name t, Some "input_json_delta" =>
      (fun d => ToolUseBlock id name (t +:+ d)) <$> get_str "partial_json" delta
  | _, _ => None
  end.
(** One event; [None] when the protocol does not allow it here. *)
Definition read_event (v : View) (e : SseEvent) : option View :=
  let '(name, data) := e in
  if negb (bool_decide (get_str "type" data = Some name)) then None
  else
    let here := bool_decide (get "index" data = Some (json_nat (length (vw_blocks v)))) in
    match vw_phase v, vw_open v with
    | Fresh, None => if bool_decide (name = "message_start") then Some (mkView Streaming [] None) else None
    | Streaming, None =>
        if bool_decide (name = "content_block_start") && here then
          b ← get "content_block" data ≫= opened; Some (mkView Streaming (vw_blocks v) (Some b))
        else if bool_decide (name = "message_delta") then
          reason ← get "delta" data ≫= get_str "stop_reason";
          usage ← get "usage" data;
          Some (mkView (Stopping reason usage) (vw_blocks v) None)
        else if bool_decide (name = "error") then
          error ← get "error" data; Some (mkView (Errored error) (vw_blocks v) None)
        else None
    | Streaming, Some b =>
        if bool_decide (name = "content_block_delta") && here then
          b' ← get "delta" data ≫= (fun d => grow d b); Some (mkView Streaming (vw_blocks v) (Some b'))
        else if bool_decide (name = "content_block_stop") && here then
          Some (mkView Streaming (vw_blocks v ++ [b]) None)
        else None
    | Stopping reason usage, None =>
        if bool_decide (name = "message_stop") then Some (mkView (Stopped reason usage) (vw_blocks v) None) else None
    | _, _ => None
    end.
Definition read_messages (out : list SseEvent) : option View :=
  foldl (fun v e => v ≫= fun v => read_event v e) (Some view_new) out.

(** ** The writer tells the client the message *)
Section Told.
Context {SJ : SerdeJson}.

Definition text_view (kt : TextKind * string) : Block :=
  match kt.1 with Reasoning => ThinkingBlock kt.2 | Text | Refusal => TextBlock kt.2 end.
Definition call_view (c : ChatToolCall) : Block :=
  ToolUseBlock (call_id c) (call_name c) (default "{}" (function_call_arguments (call_arguments c))).
Definition phase_view (M : Message) : Phase :=
  match m_outcome M with
  | None => if m_started M then Streaming else Fresh
  | Some (Failed f, _) => Errored (messages_failure f)
  | Some (Finished finish tool_use, usage) => Stopped (stop_reason finish tool_use) (messages_usage usage)
  end.
Definition view_of (M : Message) : View :=
  mkView (phase_view M) ((text_view <$> m_closed M) ++ (call_view <$> m_calls M)) (text_view <$> m_open M).
(** A call cut off before its arguments were complete is left out. *)
Definition messages_writes (c : ChatToolCall) (cut : bool) : bool :=
  bool_decide (is_Some (function_call_arguments (call_arguments c))) || negb cut.

Definition messages_ok (M : Message) (e : MessagesEvents) (out : list SseEvent) : Prop :=
  read_messages out = Some (view_of M) /\ me_next_index e = length (vw_blocks (view_of M)).

Lemma read_snoc out e : read_messages (out ++ [e]) = read_messages out ≫= fun v => read_event v e.
Proof. unfold read_messages. by rewrite foldl_app. Qed.

Lemma block_start_read block b phase blocks e out : read_messages out = Some (mkView phase blocks None) -> phase = Streaming ->
  me_next_index e = length blocks -> opened block = Some b ->
  wpW (block_start block) e out (fun _ e' out' => e' = e /\ read_messages out' = Some (mkView Streaming blocks (Some b))).
Proof.
  intros Hr -> Hi Hb. unfold block_start, emit_block, block_event. wpw. split; [done|].
  rewrite read_snoc, Hr. simpl. unfold get_str. simpl. rewrite Hi, bool_decide_eq_true_2, Hb by done. done.
Qed.
Lemma block_delta_read delta b b' blocks e out : read_messages out = Some (mkView Streaming blocks (Some b)) ->
  me_next_index e = length blocks -> grow delta b = Some b' ->
  wpW (block_delta delta) e out (fun _ e' out' => e' = e /\ read_messages out' = Some (mkView Streaming blocks (Some b'))).
Proof.
  intros Hr Hi Hb. unfold block_delta, emit_block, block_event. wpw. split; [done|].
  rewrite read_snoc, Hr. simpl. unfold get_str. simpl. rewrite Hi, bool_decide_eq_true_2, Hb by done. done.
Qed.
Lemma block_stop_read b blocks e out : read_messages out = Some (mkView Streaming blocks (Some b)) ->
  me_next_index e = length blocks ->
  wpW block_stop e out (fun _ e' out' =>
    me_next_index e' = length (blocks ++ [b]) /\ read_messages out' = Some (mkView Streaming (blocks ++ [b]) None)).
Proof.
  intros Hr Hi. unfold block_stop, emit_block, block_event. wpw. simpl. rewrite Hi, length_app. simpl. split; [lia|].
  rewrite read_snoc, Hr. simpl. unfold get_str. simpl. rewrite bool_decide_eq_true_2 by done. done.
Qed.

#[global] Program Instance messages_writer : ChatWriter MessagesEvents := {|
  wr_ok := messages_ok;
  wr_writes := messages_writes;
|}.
Next Obligation. (* start *)
  intros now v fb e out [Hr Hi]. unfold ev_start. simpl. unfold messages_start. wpw. split; [|done].
  by rewrite read_snoc, Hr.
Qed.
Next Obligation. (* usage *)
  intros M u e out _ _ [Hr Hi]. simpl. unfold messages_usage_event. by wpw.
Qed.
Next Obligation. (* open_text *)
  intros M k e out Hst Hl Ho Hc [Hr Hi]. simpl. unfold view_of in Hr. rewrite Ho in Hr. simpl in *. rewrite Hc in *.
  eapply wpW_mono; [eapply (block_start_read _ (text_view (k, "")))|].
  - exact Hr.
  - unfold phase_view. by rewrite Hl, Hst.
  - exact Hi.
  - by destruct k.
  - intros [] e' out' [-> Hr']. split; [|simpl; by rewrite Hc]. unfold view_of, phase_view. simpl. by rewrite Hl, Hc.
Qed.
Next Obligation. (* text_delta *)
  intros M k t d e out Hst Hl Ho [Hr Hi]. simpl. unfold view_of, phase_view in Hr. rewrite Hl, Hst, Ho in Hr.
  eapply wpW_mono; [eapply (block_delta_read _ _ (text_view (k, t +:+ d))); [exact Hr|exact Hi|by destruct k]|].
  intros [] e' out' [-> Hr']. split; [|done]. rewrite Hr'. unfold view_of, phase_view. simpl. by rewrite Hl, Ho.
Qed.
Next Obligation. (* annotation *)
  intros M t v e out Hst Hl Ho [Hr Hi]. simpl. by wpw.
Qed.
Next Obligation. (* close_text *)
  intros M k t b e out Hst Hl Ho Hc [Hr Hi]. simpl. unfold view_of, phase_view in Hr, Hi. simpl in Hi.
  rewrite Hl, Hst, Ho, Hc in Hr. rewrite Hc in Hi.
  eapply wpW_mono; [eapply block_stop_read; [exact Hr|exact Hi]|].
  intros [] e' out' [Hi' Hr']. unfold messages_ok, view_of, phase_view. simpl. rewrite Hl, Hc, Ho. simpl in *.
  rewrite !app_nil_r, fmap_app in *. done.
Qed.
Next Obligation. (* tool_call *)
  intros M c cut e out Hst Hl Ho [Hr Hi]. simpl. unfold messages_tool_call, messages_writes.
  assert (Hwrite : forall input, default "{}" (function_call_arguments (call_arguments c)) = input ->
    wpW (block_start (tool_use_block (call_id c) (call_name c) (JObject [])) ;;
         block_delta (JObject [("type", JString "input_json_delta"); ("partial_json", JString input)]) ;;
         block_stop ;; mret true) e out (fun b e out => b = true /\ messages_ok (m_call c M) e out)).
  { intros input Hin. unfold view_of, phase_view in Hr, Hi. rewrite Hl, Hst, Ho in Hr. simpl in Hi. wpw.
    eapply wpW_mono; [eapply block_start_read; [exact Hr|done|exact Hi|reflexivity]|]. intros [] e1 out1 [-> Hr1]. wpw.
    eapply wpW_mono; [eapply block_delta_read; [exact Hr1|exact Hi|reflexivity]|]. intros [] e2 out2 [-> Hr2]. wpw.
    eapply wpW_mono; [eapply block_stop_read; [exact Hr2|exact Hi]|]. intros [] e3 out3 [Hi3 Hr3]. wpw. split; [done|].
    unfold messages_ok, view_of, phase_view. simpl. rewrite Hl, Ho, fmap_app, app_assoc. simpl. unfold call_view at 2 4.
    rewrite Hin. done. }
  destruct (function_call_arguments (call_arguments c)) as [input|]; simpl.
  - eapply wpW_mono; [by apply Hwrite|]. by intros b e' out' [-> ?].
  - destruct cut; simpl; [by wpw|]. eapply wpW_mono; [by apply Hwrite|]. by intros b e' out' [-> ?].
Qed.
Next Obligation. (* finish *)
  intros M o u e out Hst Hl Ho [Hr Hi]. simpl. unfold view_of, phase_view in Hr, Hi. rewrite Hl, Hst, Ho in Hr. simpl in Hi.
  unfold messages_finish, messages_ok, view_of, phase_view. destruct o as [finish tool_use|failure]; wpw; simpl; rewrite Ho.
  - split; [|done]. rewrite !read_snoc, Hr. done.
  - split; [|done]. rewrite read_snoc, Hr. done.
Qed.
End Told.

(** ** Every bridged stream *)
Section Bridged.
Context {SJ : SerdeJson}.

Definition MESSAGES_EVENTS : list string :=
  ["message_start"; "content_block_start"; "content_block_delta"; "content_block_stop"; "message_delta"; "message_stop"; "error"].
Lemma read_event_name v e v' : read_event v e = Some v' -> e.1 ∈ MESSAGES_EVENTS.
Proof.
  destruct e as [name data]. unfold read_event. case_match; [done|]. intros H'.
  destruct (vw_phase v), (vw_open v); try done;
    repeat (case_match; [match goal with H : _ && _ = true |- _ => apply andb_prop in H as [? _] | _ => idtac end;
      match goal with H : bool_decide (name = _) = true |- _ => apply bool_decide_eq_true in H as ->; listed end|]); done.
Qed.
Lemma read_messages_plain out v : read_messages out = Some v -> Forall (fun e : SseEvent => plain_name e.1) out.
Proof.
  revert v. induction out as [|e out IH] using rev_ind; intros v; [constructor|]. rewrite read_snoc.
  destruct (read_messages out) as [v'|]; simpl; [|done]. intros Hn%read_event_name. apply Forall_app. split; [by eapply IH|].
  constructor; [|constructor]. revert Hn. generalize (e.1). intros name Hn. unfold MESSAGES_EVENTS in Hn.
  repeat (apply elem_of_cons in Hn as [->|Hn]; [split; listed|]). by apply elem_of_nil in Hn.
Qed.

(** What a client has read after the chunks [hv]. *)
Definition client_read (fb : string) (hv : list value) (ended : bool) (out : list SseEvent) : Prop :=
  let h := parse_chat_chunk <$> hv in
  exists v, read_messages out = Some v /\
    stream_events (as_bytes (render out)) = (fun e => to_vec e.2) <$> out /\
    if ended then v = view_of (concluded (response_id fb hv) h)
    else vw_blocks v ++ option_list (vw_open v) = text_view <$> grouped (h_pieces h) /\
         vw_phase v = if bool_decide (length hv = 0) then Fresh else Streaming.
Lemma between_read fb hv ended (s : ChatStream MessagesEvents) out : between fb hv ended s out -> client_read fb hv ended out.
Proof.
  intros HB%between_tells. unfold tells, client_read in *. destruct ended.
  - destruct HB as [Hr _]. eexists. split; [exact Hr|]. split; [|done]. by eapply render_reads, read_messages_plain.
  - destruct HB as (M & [Hr _] & Hl & Hc & Hst & Ht). eexists. split; [exact Hr|]. split; [by eapply render_reads, read_messages_plain|].
    unfold view_of, phase_view, m_texts in *. simpl. rewrite Hl, Hc, Hst, <- Ht. simpl. rewrite app_nil_r, fmap_app. split.
    + f_equal. by destruct (m_open M).
    + by destruct (bool_decide _).
Qed.

(** C14: Whatever a chat upstream streams, a Messages client reads a well-formed message from
    the bridge: the message starts before anything else and once, content blocks open, grow and
    stop one at a time under consecutive indices, and it ends once, in a stop or in an error,
    with nothing after. What it assembles is the upstream's answer: adjacent text of a kind as
    one block, then every complete tool call with its arguments, and the stop reason and usage
    of the chat finish. The bridge never panics; a payload that is not JSON, or an end marker
    before any chunk, fails the stream; and when the connection closes, a stream that declared
    its finish or its error is ended as if by the marker while any other fails with no end
    written. *)
Theorem messages_stream_well_formed slot events fb : non_empty fb = true ->
  bridge_sound (client_read fb) events fb (messages_new slot).
Proof. intros Hfb. apply bridge_tells; [done..|]. intros hv ended s out. apply between_read. Qed.
End Bridged.

Section Witness.
#[local] Existing Instance sample_json.
Lemma messages_stream_well_formed_witness : exists r s out,
  cs_run sample_stream "openai-1" (stream_new (messages_new None)) = Some (r, s, out) /\ r = Ok tt /\
  exists v, read_messages out = Some v /\ vw_blocks v = [TextBlock "Hello"; ToolUseBlock "t" "f" "{}"].
Proof.
  destruct (messages_stream_well_formed None sample_stream "openai-1" eq_refl) as (r & s & out & Hrun & H).
  exists r, s, out. split; [exact Hrun|]. 
  destruct (hears sample_stream [] false) as [[r' hv] ended] eqn:Hh. vm_compute in Hh. injection Hh as <- <- <-.
  destruct H as (Hr & (v & Hv & _ & ->) & _). split; [exact Hr|]. eexists. split; [exact Hv|]. vm_compute. reflexivity.
Defined.
End Witness.
