(* ===== verification/ResponsesStream.v ===== *)
(** * The Responses surface of a chat stream (src/middleware/stream_transform.rs)

    [ResponsesEvents] writes a bridged chat stream as OpenAI Responses events.  Its
    specification is a client again: a reader that checks the sequence numbers, the
    bracketing of items and that what is done is what was streamed, and that the
    final response lists exactly the items the client saw done. *)
From S2P Require Import Prelude Text Json External Sample SseProtocol UpstreamErrors Images Audio Sanitize SseFraming ToolMap Conversion EventStream ChatStream.

Record ActiveItem : Type := mkActive {
  ai_output_index : nat;
  ai_id : string;
}.
Record ResponsesEvents : Type := mkResponses {
  re_echo : value;
  re_identity : ResponseIdentity;
  re_upstream_usage : option value;
  re_tools : ResponsesToolMap;
  re_sequence : nat;
  re_model : value;
  re_created_at : Z;
  re_output : list value;
  re_active : option ActiveItem;
  re_annotations : list value;
}.

Section Fields.
Implicit Type e : ResponsesEvents.
Definition re_set_usage (u : option value) e : ResponsesEvents :=
  mkResponses (re_echo e) (re_identity e) u (re_tools e) (re_sequence e) (re_model e) (re_created_at e) (re_output e)
    (re_active e) (re_annotations e).
Definition re_next e : ResponsesEvents :=
  mkResponses (re_echo e) (re_identity e) (re_upstream_usage e) (re_tools e) (S (re_sequence e)) (re_model e)
    (re_created_at e) (re_output e) (re_active e) (re_annotations e).
Definition re_set_head (model : value) (created_at : Z) e : ResponsesEvents :=
  mkResponses (re_echo e) (re_identity e) (re_upstream_usage e) (re_tools e) (re_sequence e) model created_at (re_output e)
    (re_active e) (re_annotations e).
Definition re_set_output (output : list value) (active : option ActiveItem) e : ResponsesEvents :=
  mkResponses (re_echo e) (re_identity e) (re_upstream_usage e) (re_tools e) (re_sequence e) (re_model e) (re_created_at e)
    output active (re_annotations e).
Definition re_set_annotations (annotations : list value) e : ResponsesEvents :=
  mkResponses (re_echo e) (re_identity e) (re_upstream_usage e) (re_tools e) (re_sequence e) (re_model e) (re_created_at e)
    (re_output e) (re_active e) annotations.
End Fields.

Section Writer.
Context {SJ : SerdeJson} {SH : Sha} {HX : HexCodec}.

Definition responses_new (echo : value) (identity : ResponseIdentity) (upstream_usage : option value) : ResponsesEvents :=
  mkResponses echo identity upstream_usage (from_echo echo) 0 JNull 0 [] None [].

Definition numbered (kind : string) (body : value) (e : ResponsesEvents) : SseEvent :=
  (kind, set_member "sequence_number" (json_nat (re_sequence e)) (set_member "type" (JString kind) body)).
Definition re_emit (kind : string) (body : value) : W ResponsesEvents unit :=
  event ← reads (numbered kind body); modify re_next ;; emits event.

Definition re_response (status : string) (incomplete_details error : value) (usage : option value) (e : ResponsesEvents) : value :=
  responses_object (re_echo e)
    (mkHead (ri_request_id (re_identity e)) (re_created_at e) (re_model e) status incomplete_details error)
    (re_output e) usage.
(** [active()]: the open item, which must be there. *)
Definition active : W ResponsesEvents (nat * string) :=
  expects (fun e => (fun a => (ai_output_index a, ai_id a)) <$> re_active e).

Definition add_item (item : value) : W ResponsesEvents unit :=
  let item := match get "content" item with Some _ => set_member "content" (JArray []) item | None => item end in
  output_index ← reads (fun e => length (re_output e));
  modify (fun e => re_set_output (re_output e ++ [item])
                     (Some (mkActive output_index (default "" (get_str "id" item)))) e) ;;
  re_emit "response.output_item.added" (JObject [("output_index", json_nat output_index); ("item", item)]).
(** Panics when no item is open or its index is out of range. *)
Definition done_item (item : value) : W ResponsesEvents unit :=
  output_index ← expects (fun e => a ← re_active e; _ ← re_output e !! ai_output_index a; Some (ai_output_index a));
  modify (fun e => re_set_output (<[output_index := item]> (re_output e)) None e) ;;
  re_emit "response.output_item.done" (JObject [("output_index", json_nat output_index); ("item", item)]).

(** [part["text"].as_str().unwrap_or_default()]. *)
Definition text_item (kind : TextKind) (output_index : nat) (part : value) (status : string) (e : ResponsesEvents) : value :=
  let request_id := ri_request_id (re_identity e) in
  match kind with
  | Reasoning => reasoning_item (item_id "rs" request_id output_index) (default "" (get_str "text" part)) status
  | Text | Refusal => message_item (item_id "msg" request_id output_index) [part] status
  end.
Definition text_part (kind : TextKind) (text : string) (e : ResponsesEvents) : value :=
  match kind with
  | Reasoning => reasoning_part text
  | Text => output_text_part text (re_annotations e)
  | Refusal => refusal_part text
  end.
Definition text_event (kind : TextKind) (suffix : string) : string :=
  "response." +:+ match kind with Reasoning => "reasoning_text" | Text => "output_text" | Refusal => "refusal" end +:+
  "." +:+ suffix.
Definition item_ref (item_id : string) (output_index : nat) : object :=
  [("item_id", JString item_id); ("output_index", json_nat output_index)].
Definition part_ref (item_id : string) (output_index : nat) : object :=
  item_ref item_id output_index ++ [("content_index", json_nat 0)].

Definition responses_start (now : Time) (chunk : value) (fallback_id : string) : W ResponsesEvents unit :=
  modify (re_set_head (json_null_or (get "model" chunk)) (chat_created (t_secs now) chunk)) ;;
  each (fun kind =>
    response ← reads (re_response "in_progress" JNull JNull None);
    re_emit kind (JObject [("response", response)])) ["response.created"; "response.in_progress"].
Definition responses_usage_event (usage : value) : W ResponsesEvents unit := modify (re_set_usage (Some usage)).
Definition responses_open_text (kind : TextKind) : W ResponsesEvents unit :=
  modify (re_set_annotations []) ;;
  item ← reads (fun e => text_item kind (length (re_output e)) (text_part kind "" e) "in_progress" e);
  add_item item ;;
  '(output_index, item_id) ← active;
  part ← reads (text_part kind "");
  re_emit "response.content_part.added" (JObject (part_ref item_id output_index ++ [("part", part)])).
Definition responses_text_delta (kind : TextKind) (delta : string) : W ResponsesEvents unit :=
  '(output_index, item_id) ← active;
  re_emit (text_event kind "delta")
    (JObject (part_ref item_id output_index ++ [("delta", JString delta)] ++
              (if bool_decide (kind = Text) then [("logprobs", JArray [])] else []))).
Definition responses_annotation_event (annotation : value) : W ResponsesEvents unit :=
  '(output_index, item_id) ← active;
  annotation_index ← reads (fun e => length (re_annotations e));
  re_emit "response.output_text.annotation.added"
    (JObject (part_ref item_id output_index ++
              [("annotation_index", json_nat annotation_index); ("annotation", annotation)])) ;;
  modify (fun e => re_set_annotations (re_annotations e ++ [annotation]) e).
Definition responses_close_text (kind : TextKind) (text : string) (finished : bool) : W ResponsesEvents unit :=
  '(output_index, item_id) ← active;
  re_emit (text_event kind "done")
    (JObject (part_ref item_id output_index ++
              [(if bool_decide (kind = Refusal) then "refusal" else "text", JString text)] ++
              (if bool_decide (kind = Text) then [("logprobs", JArray [])] else []))) ;;
  part ← reads (text_part kind text);
  re_emit "response.content_part.done" (JObject (part_ref item_id output_index ++ [("part", part)])) ;;
  item ← reads (text_item kind output_index part (if finished then "completed" else "incomplete"));
  done_item item.

Definition responses_tool_call (call : ChatToolCall) (cut : bool) : W ResponsesEvents bool :=
  tools ← reads re_tools;
  let call_item := responses_call_item tools (call_id call) (call_name call) in
  let item := call_item "" "in_progress" in
  let kind := get_str "type" item in
  add_item item ;;
  match responses_call_value tools (call_name call) (call_arguments call) cut with
  | None => done_item (call_item "" "incomplete") ;; mret true
  | Some value =>
      '(output_index, item_id) ← active;
      let ids := item_ref item_id output_index in
      let item := call_item value "completed" in
      if bool_decide (kind = Some "tool_search_call") then done_item item ;; mret true
      else
        let '(stem, key) :=
          if bool_decide (kind = Some "custom_tool_call") then ("custom_tool_call_input", "input")
          else ("function_call_arguments", "arguments") in
        when (non_empty value)
          (re_emit ("response." +:+ stem +:+ ".delta") (JObject (ids ++ [("delta", JString value)]))) ;;
        re_emit ("response." +:+ stem +:+ ".done")
          (JObject (ids ++ [(key, JString value)] ++
                    (if bool_decide (stem = "function_call_arguments")
                     then [("name", json_null_or (get "name" item))] else []))) ;;
        done_item item ;; mret true
  end.

Definition responses_failure (failure : Failure) : value :=
  match failure with
  | FailureUpstream error => error
  | FailureEmpty => malformed_response_error
  | FailureUnusableToolCalls => unusable_tool_calls_error
  end.
(** The closing event, the status, and what it says of the end. *)
Definition responses_end (outcome : Outcome) : string * string * value * value :=
  match outcome with
  | Finished finish _ =>
      let '(status, details) := responses_status finish in
      (if bool_decide (status = "incomplete") then "response.incomplete" else "response.completed", status, details, JNull)
  | Failed failure => ("response.failed", "failed", JNull, responses_failure failure)
  end.
Definition responses_finish (outcome : Outcome) (usage : option value) : W ResponsesEvents unit :=
  let '(event, status, incomplete_details, error) := responses_end outcome in
  response ← reads (re_response status incomplete_details error (Some (responses_usage usage)));
  re_emit event (JObject [("response", response)]).

#[global] Instance responses_events : ChatEvents ResponsesEvents := {
  ev_start := responses_start;
  ev_usage := responses_usage_event;
  ev_open_text := responses_open_text;
  ev_text_delta := responses_text_delta;
  ev_annotation := responses_annotation_event;
  ev_close_text := responses_close_text;
  ev_tool_call := responses_tool_call;
  ev_finish := responses_finish;
}.
End Writer.

(** ** A client of the Responses protocol *)
(** How far an open item is: nothing of it has come, a part of a type is open, its whole
    text was repeated (of a part, or of a call's input), its part is closed. *)
Inductive Stage : Type :=
| Added
| PartOpen (type : string)
| Said (part_type : option string)
| PartClosed (part : value).
Record OpenItem : Type := mkOpen {
  oi_item : value;
  oi_stage : Stage;
  oi_text : string;
  oi_annotations : list value;
}.
Inductive RPhase : Type :=
| RFresh
| RCreated
| RStreaming
| REnded (event : string) (response : value).
Record RView : Type := mkRView {
  rv_seq : nat;
  rv_phase : RPhase;
  rv_items : list value;
  rv_open : option OpenItem;
}.
Definition rview_new : RView := mkRView 0 RFresh [] None.

(** The types of parts an item has, by the item's type, and a part of a type. *)
Definition PART_TYPES : list (string * string) := [("reasoning", "reasoning_text"); ("message", "output_text"); ("message", "refusal")].
Definition new_part (type text : string) (annotations : list value) : value :=
  if bool_decide (type = "output_text") then output_text_part text annotations
  else if bool_decide (type = "refusal") then refusal_part text else reasoning_part text.
(** The calls whose input is streamed: the stem of their events and the member that holds it. *)
Definition CALL_TYPES : list (string * (string * string)) :=
  [("custom_tool_call", ("custom_tool_call_input", "input")); ("function_call", ("function_call_arguments", "arguments"))].
Definition END_EVENTS : list string := ["response.completed"; "response.incomplete"; "response.failed"].

Definition item_type (item : value) : string := default "" (get_str "type" item).
(** An item starts in progress and without content. *)
Definition starts_item (item : value) : bool :=
  bool_decide (get_str "status" item = Some "in_progress") && bool_decide (get "content" item ∈ [None; Some (JArray [])]).
(** The item that is done is the one that was added, its content the part that was closed, its
    input the one that was streamed.  Nothing is streamed for a tool search, nor for a call
    that was cut off. *)
Definition ends_item (item : value) (o : OpenItem) : bool :=
  bool_decide (get "id" item = get "id" (oi_item o)) && bool_decide (get_str "type" item = get_str "type" (oi_item o)) &&
  bool_decide (get_str "status" item ∈ [Some "completed"; Some "incomplete"]) &&
  match oi_stage o, obj_get (item_type item) CALL_TYPES with
  | PartClosed part, _ => bool_decide (get "content" item = Some (JArray [part]))
  | Said None, Some (_, key) => bool_decide (get_str key item = Some (oi_text o))
  | Added, Some (_, key) =>
      bool_decide (get_str "status" item = Some "incomplete") && bool_decide (oi_text o = "") && bool_decide (get_str key item = Some "")
  | Added, None => bool_decide (item_type item = "tool_search_call")
  | _, _ => false
  end.
Definition stem_event (stem suffix : string) : string := "response." +:+ stem +:+ "." +:+ suffix.
Definition read_delta (data : value) (o : OpenItem) : option OpenItem :=
  (fun d => mkOpen (oi_item o) (oi_stage o) (oi_text o +:+ d) (oi_annotations o)) <$> get_str "delta" data.
Definition read_whole (key : string) (stage : Stage) (data : value) (o : OpenItem) : option OpenItem :=
  if bool_decide (get_str key data = Some (oi_text o)) then Some (mkOpen (oi_item o) stage (oi_text o) (oi_annotations o)) else None.
(** The events about an open item, in the order the protocol has them: the part is added,
    filled, repeated and done; a call's input is filled and repeated. *)
Definition read_open (name : string) (data : value) (o : OpenItem) : option OpenItem :=
  let first_part := bool_decide (get "content_index" data = Some (json_nat 0)) in
  if negb (bool_decide (get "item_id" data = get "id" (oi_item o))) then None
  else match oi_stage o with
  | Added =>
      match obj_get (item_type (oi_item o)) CALL_TYPES with
      | Some (stem, key) =>
          if bool_decide (name = stem_event stem "delta") then read_delta data o
          else if bool_decide (name = stem_event stem "done") then read_whole key (Said None) data o
          else None
      | None =>
          if bool_decide (name = "response.content_part.added") && first_part then
            part ← get "part" data;
            type ← get_str "type" part;
            if bool_decide ((item_type (oi_item o), type) ∈ PART_TYPES) && bool_decide (part = new_part type "" [])
            then Some (mkOpen (oi_item o) (PartOpen type) (oi_text o) (oi_annotations o)) else None
          else None
      end
  | PartOpen type =>
      if negb first_part then None
      else if bool_decide (name = stem_event type "delta") then read_delta data o
      else if bool_decide (name = "response.output_text.annotation.added") then
        if bool_decide (type = "output_text") && bool_decide (get "annotation_index" data = Some (json_nat (length (oi_annotations o)))) then
          (fun a => mkOpen (oi_item o) (oi_stage o) (oi_text o) (oi_annotations o ++ [a])) <$> get "annotation" data
        else None
      else if bool_decide (name = stem_event type "done") then
        read_whole (if bool_decide (type = "refusal") then "refusal" else "text") (Said (Some type)) data o
      else None
  | Said (Some type) =>
      if bool_decide (name = "response.content_part.done") && first_part &&
         bool_decide (get "part" data = Some (new_part type (oi_text o) (oi_annotations o)))
      then Some (mkOpen (oi_item o) (PartClosed (new_part type (oi_text o) (oi_annotations o))) (oi_text o) (oi_annotations o)) else None
  | Said None | PartClosed _ => None
  end.
(** What an event does to the view; [None] when the protocol does not allow it. *)
Definition read_body (v : RView) (name : string) (data : value) : option (RPhase * list value * option OpenItem) :=
  let here := bool_decide (get "output_index" data = Some (json_nat (length (rv_items v)))) in
  match rv_phase v, rv_open v with
  | RFresh, None => if bool_decide (name = "response.created") then Some (RCreated, [], None) else None
  | RCreated, None => if bool_decide (name = "response.in_progress") then Some (RStreaming, [], None) else None
  | RStreaming, None =>
      if bool_decide (name = "response.output_item.added") && here then
        item ← get "item" data;
        if starts_item item then Some (RStreaming, rv_items v, Some (mkOpen item Added "" [])) else None
      else if bool_decide (name ∈ END_EVENTS) then
        response ← get "response" data;
        if bool_decide (get "output" response = Some (JArray (rv_items v)))
        then Some (REnded name response, rv_items v, None) else None
      else None
  | RStreaming, Some o =>
      if negb here then None
      else if bool_decide (name = "response.output_item.done") then
        item ← get "item" data;
        if ends_item item o then Some (RStreaming, rv_items v ++ [item], None) else None
      else (fun o => (RStreaming, rv_items v, Some o)) <$> read_open name data o
  | _, _ => None
  end.
Definition read_response (v : RView) (e : SseEvent) : option RView :=
  let '(name, data) := e in
  if bool_decide (get_str "type" data = Some name) && bool_decide (get "sequence_number" data = Some (json_nat (rv_seq v)))
  then (fun '(phase, items, open) => mkRView (S (rv_seq v)) phase items open) <$> read_body v name data
  else None.
Definition read_responses (out : list SseEvent) : option RView :=
  foldl (fun v e => v ≫= fun v => read_response v e) (Some rview_new) out.

(** ** The writer tells the client the message *)
Section Told.
Context {SJ : SerdeJson} {SH : Sha} {HX : HexCodec}.

Lemma read_responses_snoc out e : read_responses (out ++ [e]) = read_responses out ≫= fun v => read_response v e.
Proof. unfold read_responses. by rewrite foldl_app. Qed.

(** Emitting an event whose number is next. *)
Lemma get_numbered k kind m e : k ≠ "type" -> k ≠ "sequence_number" ->
  get k (numbered kind (JObject m) e).2 = obj_get k m.
Proof. intros Ht Hs. simpl. rewrite !obj_get_insert, !bool_decide_eq_false_2 by congruence. done. Qed.
Lemma read_numbered v kind m e : rv_seq v = re_sequence e ->
  read_response v (numbered kind (JObject m) e) =
    (fun '(phase, items, open) => mkRView (S (rv_seq v)) phase items open) <$> read_body v kind (numbered kind (JObject m) e).2.
Proof.
  intros Hs. unfold read_response, numbered. cbn [set_member on_object snd].
  rewrite bool_decide_eq_true_2; [|unfold get_str; cbn [get]; by rewrite !obj_get_insert, bool_decide_eq_false_2, bool_decide_eq_true_2].
  rewrite bool_decide_eq_true_2; [done|]. cbn [get]. rewrite obj_get_insert, bool_decide_eq_true_2 by done. by rewrite Hs.
Qed.

Lemma get_str_ext k d d' : get k d = get k d' -> get_str k d = get_str k d'.
Proof. unfold get_str. by intros ->. Qed.
(** The reader looks at the members an event has beside its type and number. *)
Lemma read_open_ext name d d' o : (forall k, k ≠ "type" -> k ≠ "sequence_number" -> get k d = get k d') ->
  read_open name d o = read_open name d' o.
Proof.
  intros Hg. unfold read_open, read_delta, read_whole.
  rewrite (Hg "item_id"), (Hg "content_index"), (Hg "annotation_index"), (Hg "annotation"), (Hg "part"), (get_str_ext "delta" d d') by (done || by apply Hg).
  destruct (oi_stage o) as [|type|[type|]|part]; try done.
  - destruct (obj_get (item_type (oi_item o)) CALL_TYPES) as [[stem key]|] eqn:Hk; [|done]. apply obj_get_elem in Hk. unfold CALL_TYPES in Hk.
    repeat (apply elem_of_cons in Hk as [[= _ -> ->]|Hk]; [by rewrite (get_str_ext _ d d') by by apply Hg|]). by apply elem_of_nil in Hk.
  - by destruct (bool_decide (type = "refusal")); rewrite (get_str_ext _ d d') by by apply Hg.
Qed.
Lemma read_body_ext v name d d' : (forall k, k ≠ "type" -> k ≠ "sequence_number" -> get k d = get k d') ->
  read_body v name d = read_body v name d'.
Proof.
  intros Hg. unfold read_body. rewrite (Hg "output_index"), (Hg "item"), (Hg "response") by done.
  destruct (rv_phase v), (rv_open v) as [o|]; try done. by rewrite (read_open_ext name d d' o Hg).
Qed.

(** The client's view of the writer's state. *)
Definition writes_to (e : ResponsesEvents) (out : list SseEvent) (phase : RPhase) (items : list value) (open : option OpenItem) : Prop :=
  read_responses out = Some (mkRView (re_sequence e) phase items open) /\
  match open with
  | None => re_output e = items /\ re_active e = None
  | Some o => re_output e = items ++ [oi_item o] /\
              exists id, get_str "id" (oi_item o) = Some id /\ re_active e = Some (mkActive (length items) id)
  end.
Definition same_head (e e' : ResponsesEvents) : Prop := re_identity e' = re_identity e /\ re_tools e' = re_tools e.
Definition keeps (e e' : ResponsesEvents) : Prop := same_head e e' /\ re_annotations e' = re_annotations e.

Lemma emit_read kind m e out v phase items open : read_responses out = Some v -> rv_seq v = re_sequence e ->
  read_body v kind (JObject m) = Some (phase, items, open) ->
  wpW (re_emit kind (JObject m)) e out (fun _ e' out' =>
    e' = re_next e /\ read_responses out' = Some (mkRView (re_sequence e') phase items open)).
Proof.
  intros Hr Hs Hb. unfold re_emit. wpw. split; [done|]. rewrite read_responses_snoc, Hr. cbn [mbind option_bind].
  rewrite read_numbered by done. erewrite read_body_ext, Hb; [simpl; by rewrite Hs|].
  intros k Ht Hsq. by rewrite get_numbered.
Qed.

Lemma add_item_read item id e out items : writes_to e out RStreaming items None -> get_str "id" item = Some id ->
  get_str "status" item = Some "in_progress" ->
  wpW (add_item item) e out (fun _ e' out' =>
    let item' := match get "content" item with Some _ => set_member "content" (JArray []) item | None => item end in
    writes_to e' out' RStreaming items (Some (mkOpen item' Added "" [])) /\ keeps e e').
Proof.
  intros (Hr & Ho & Ha) Hid Hstatus. unfold add_item.
  set (item' := match get "content" item with Some _ => _ | None => _ end).
  assert (get_str "id" item' = Some id /\ starts_item item' = true) as [Hid' Hstart].
  { unfold item', set_member, starts_item. destruct item as [| | | | |m]; try done. cbn [get].
    destruct (obj_get "content" m) eqn:Hc; unfold get_str in *; cbn [get on_object] in *.
    - by rewrite !obj_get_insert, !bool_decide_eq_false_2, !bool_decide_eq_true_2 by (done || listed).
    - by rewrite Hc, !bool_decide_eq_true_2 by (done || listed). }
  clearbody item'. wpw. rewrite Hid'. simpl. rewrite Ho.
  eapply wpW_mono; [eapply emit_read; [exact Hr|done|]|].
  - unfold read_body. simpl. rewrite bool_decide_eq_true_2 by done. simpl. rewrite Hstart. reflexivity.
  - intros [] e' out' [-> Hr']. split; [|done]. split; [exact Hr'|]. simpl. rewrite ?Ho. split; [done|]. by exists id.
Qed.
Lemma done_item_read item o e out items : writes_to e out RStreaming items (Some o) -> ends_item item o = true ->
  wpW (done_item item) e out (fun _ e' out' => writes_to e' out' RStreaming (items ++ [item]) None /\ keeps e e').
Proof.
  intros (Hr & Ho & id & Hid & Ha) Hend. unfold done_item. wpw. rewrite Ha, Ho. simpl.
  rewrite list_lookup_middle by done. simpl. eexists. split; [reflexivity|]. wpw. simpl.
  eapply wpW_mono; [eapply emit_read; [exact Hr|done|]|].
  - unfold read_body. simpl. rewrite bool_decide_eq_true_2 by done. simpl. rewrite Hend. reflexivity.
  - intros [] e' out' [-> Hr']. split; [|done]. split; [exact Hr'|]. simpl. rewrite Ho. split; [|done].
    rewrite insert_app_r_alt by done. by rewrite Nat.sub_diag.
Qed.
Lemma open_event_read kind m o o' e out items : writes_to e out RStreaming items (Some o) ->
  kind ≠ "response.output_item.done" -> obj_get "output_index" m = Some (json_nat (length items)) ->
  read_open kind (JObject m) o = Some o' -> oi_item o' = oi_item o ->
  wpW (re_emit kind (JObject m)) e out (fun _ e' out' => writes_to e' out' RStreaming items (Some o') /\ keeps e e').
Proof.
  intros (Hr & Ho & id & Hid & Ha) Hk Hi Hop Hsame.
  eapply wpW_mono; [eapply emit_read; [exact Hr|done|]|].
  - unfold read_body. simpl. rewrite Hi, bool_decide_eq_true_2 by done. simpl. rewrite bool_decide_eq_false_2, Hop by done. reflexivity.
  - intros [] e' out' [-> Hr']. split; [|done]. split; [exact Hr'|]. simpl. rewrite Hsame. split; [done|]. by exists id.
Qed.
Lemma active_read o e out items Q : writes_to e out RStreaming items (Some o) ->
  (forall id, get_str "id" (oi_item o) = Some id -> Q (length items, id) e out) -> wpW active e out Q.
Proof.
  intros (Hr & Ho & id & Hid & Ha) HQ. unfold active. wpw. rewrite Ha. simpl. eexists. split; [reflexivity|]. by apply HQ.
Qed.

(** ** The items of a message *)
Definition part_type (k : TextKind) : string := match k with Reasoning => "reasoning_text" | Text => "output_text" | Refusal => "refusal" end.
Definition text_type (k : TextKind) : string := match k with Reasoning => "reasoning" | Text | Refusal => "message" end.
Definition item_prefix (k : TextKind) : string := match k with Reasoning => "rs" | Text | Refusal => "msg" end.
Definition shown_text (rid : string) (k : TextKind) (i : nat) (t : string) (annotations : list value) (status : string) : value :=
  match k with
  | Reasoning => reasoning_item (item_id "rs" rid i) t status
  | Text => message_item (item_id "msg" rid i) [output_text_part t annotations] status
  | Refusal => message_item (item_id "msg" rid i) [refusal_part t] status
  end.
(** The item at index [i] shows a text of the message, or one of its calls. *)
Definition shows (rid : string) (tools : ResponsesToolMap) (i : nat) (c : TextKind * string + ChatToolCall) (item : value) : Prop :=
  match c with
  | inl (k, t) => exists annotations finished, item = shown_text rid k i t annotations (if finished : bool then "completed" else "incomplete")
  | inr call => exists cut, item = responses_call tools cut call
  end.
Definition content_of (M : Message) : list (TextKind * string + ChatToolCall) := (inl <$> m_closed M) ++ (inr <$> m_calls M).
Definition items_show (rid : string) (tools : ResponsesToolMap) (cs : list (TextKind * string + ChatToolCall)) (items : list value) : Prop :=
  length items = length cs /\ forall i c item, cs !! i = Some c -> items !! i = Some item -> shows rid tools i c item.
Lemma items_show_snoc rid tools cs items c item : items_show rid tools cs items -> shows rid tools (length items) c item ->
  items_show rid tools (cs ++ [c]) (items ++ [item]).
Proof.
  intros [Hl Hs] Hc. split; [rewrite !length_app; simpl; lia|]. intros i c' item' Hci Hit.
  apply lookup_snoc_Some in Hci as [[Hi Hci]|[-> <-]]; apply lookup_snoc_Some in Hit as [[Hi' Hit]|[Hi' <-]]; try lia.
  - by eapply Hs.
  - by rewrite <- Hi' in Hc.
Qed.

(** How the client's view of the end states the outcome. *)
Definition ends_with_outcome (o : Outcome) (u : option value) (items : list value) (phase : RPhase) : Prop :=
  let '(event, status, details, error) := responses_end o in
  exists response, phase = REnded event response /\ get "status" response = Some (JString status) /\
    get "error" response = Some error /\ get "incomplete_details" response = Some details /\
    get "usage" response = Some (responses_usage u) /\ get "output" response = Some (JArray items).
Definition phase_ok (M : Message) (items : list value) (phase : RPhase) : Prop :=
  match m_outcome M with
  | None => phase = if m_started M then RStreaming else RFresh
  | Some (o, u) => ends_with_outcome o u items phase
  end.
Definition open_ok (rid : string) (M : Message) (e : ResponsesEvents) (items : list value) (open : option OpenItem) : Prop :=
  match m_open M, open with
  | None, None => True
  | Some (k, t), Some o => oi_text o = t /\ get "id" (oi_item o) = Some (JString (item_id (item_prefix k) rid (length items))) /\
                           re_annotations e = oi_annotations o /\ oi_stage o = PartOpen (part_type k) /\
                           get_str "type" (oi_item o) = Some (text_type k)
  | _, _ => False
  end.

Section Instances.
Context (echo : value) (identity : ResponseIdentity).
Let rid := ri_request_id identity.
Let tools := from_echo echo.

Definition responses_ok (M : Message) (e : ResponsesEvents) (out : list SseEvent) : Prop :=
  re_identity e = identity /\ re_tools e = tools /\
  exists phase items open, writes_to e out phase items open /\ phase_ok M items phase /\
    items_show rid tools (content_of M) items /\ open_ok rid M e items open.

Lemma responses_ok_new usage : responses_ok message_new (responses_new echo identity usage) [].
Proof. split; [done|]. split; [done|]. by exists RFresh, [], None. Qed.

Lemma text_item_shown k i t status e : re_identity e = identity ->
  text_item k i (text_part k t e) status e = shown_text rid k i t (re_annotations e) status.
Proof. unfold text_item, text_part, rid. intros ->. by destruct k. Qed.
Lemma shown_text_id k i t annotations status : get "id" (shown_text rid k i t annotations status) = Some (JString (item_id (item_prefix k) rid i)).
Proof. by destruct k. Qed.
Lemma text_part_new k t e : text_part k t e = new_part (part_type k) t (re_annotations e).
Proof. by destruct k. Qed.

Lemma start_ok now v fb e out : responses_ok message_new e out ->
  wpW (responses_start now v fb) e out (fun _ e out => responses_ok m_begin e out).
Proof.
  intros (Hi & Ht & phase & items & open & (Hr & Hw) & -> & [Hlen _] & Hop). unfold open_ok in Hop. simpl in *. destruct open; [done|].
  destruct items; [|done]. destruct Hw as [Ho Ha]. unfold responses_start. wpw. cbn [each]. wpw.
  eapply wpW_mono; [eapply emit_read; [exact Hr|done|reflexivity]|]. intros [] e1 out1 [-> Hr1]. wpw.
  eapply wpW_mono; [eapply emit_read; [exact Hr1|done|reflexivity]|]. intros [] e2 out2 [-> Hr2]. wpw.
  split; [done|]. split; [done|]. exists RStreaming, [], None. split; [by split|]. split; [done|]. split; [by split|done].
Qed.
Lemma open_text_ok M k e out : m_started M = true -> m_outcome M = None -> m_open M = None -> m_calls M = [] -> responses_ok M e out ->
  wpW (responses_open_text k) e out (fun _ e out => responses_ok (m_open_text k M) e out).
Proof.
  intros Hst Hl Hopen Hc (Hi & Ht & phase & items & open & Hw & Hph & Hsh & Hop).
  unfold open_ok, phase_ok in *. rewrite Hl, Hst in Hph. subst phase. rewrite Hopen in Hop. destruct open; [done|].
  unfold responses_open_text. wpw. rewrite text_item_shown by done. simpl.
  destruct Hw as (Hr & Ho & Ha). rewrite Ho.
  eapply wpW_mono; [eapply (add_item_read _ (item_id (item_prefix k) rid (length items)) (re_set_annotations [] e) _ items);
    [by repeat split|unfold get_str; by rewrite shown_text_id|by destruct k]|].
  intros [] e1 out1 [Hw1 [[Hi1 Ht1] Han1]]. wpw. cbv zeta in Hw1. set (o := mkOpen _ _ _ _) in Hw1.
  assert (Hido : get "id" (oi_item o) = Some (JString (item_id (item_prefix k) rid (length items)))) by (by destruct k).
  eapply active_read; [exact Hw1|]. intros id Hid. unfold get_str in Hid. rewrite Hido in Hid. injection Hid as <-. wpw.
  assert (Htype : get_str "type" (oi_item o) = Some (text_type k)) by (by destruct k).
  eapply wpW_mono; [eapply (open_event_read _ _ o (mkOpen (oi_item o) (PartOpen (part_type k)) "" [])); [exact Hw1|done|done| |done]|].
  - unfold read_open. cbn [get]. rewrite (bool_decide_eq_true_2 (obj_get "item_id" _ = _)) by by rewrite Hido.
    unfold item_type. rewrite Htype, text_part_new, Han1. by destruct k.
  - intros [] e2 out2 [Hw2 [[Hi2 Ht2] Han2]]. split; [by rewrite Hi2, Hi1|]. split; [by rewrite Ht2, Ht1|].
    eexists RStreaming, items, (Some _). split; [exact Hw2|]. split; [unfold phase_ok; simpl; by rewrite Hl|]. split; [done|].
    cbn. split_and!; try done. by rewrite Han2, Han1.
Qed.

(** The state while a text is open, at a stage of its item. *)
Definition in_text (M : Message) (k : TextKind) (t : string) (stage : Stage) (e : ResponsesEvents) (out : list SseEvent) (items : list value)
    (o : OpenItem) : Prop :=
  re_identity e = identity /\ re_tools e = tools /\ writes_to e out RStreaming items (Some o) /\
  items_show rid tools (content_of M) items /\ oi_text o = t /\
  get "id" (oi_item o) = Some (JString (item_id (item_prefix k) rid (length items))) /\ re_annotations e = oi_annotations o /\
  oi_stage o = stage /\ get_str "type" (oi_item o) = Some (text_type k).
Lemma responses_in_text M k t e out : m_started M = true -> m_outcome M = None -> m_open M = Some (k, t) -> responses_ok M e out ->
  exists items o, in_text M k t (PartOpen (part_type k)) e out items o.
Proof.
  intros Hst Hl Hopen (Hi & Ht & phase & items & open & Hw & Hph & Hsh & Hop).
  unfold open_ok, phase_ok in *. rewrite Hl, Hst in Hph. subst phase. rewrite Hopen in Hop. destruct open as [o|]; [|done].
  exists items, o. destruct Hop as (? & ? & ? & ? & ?). unfold in_text. auto 10.
Qed.
Lemma in_text_ok M M' k t e out items o : in_text M k t (PartOpen (part_type k)) e out items o -> m_started M' = true -> m_outcome M' = None ->
  m_open M' = Some (k, t) -> content_of M' = content_of M -> responses_ok M' e out.
Proof.
  intros (Hi & Ht & Hw & Hsh & Hot & Hid & Han & Hstage & Htype) Hst Hl Hopen Hcon. split; [done|]. split; [done|].
  exists RStreaming, items, (Some o). split; [done|]. unfold phase_ok, open_ok. rewrite Hl, Hst, Hopen, Hcon. done.
Qed.
Lemma in_text_active M k t stage e out items o Q : in_text M k t stage e out items o ->
  Q (length items, item_id (item_prefix k) rid (length items)) e out -> wpW active e out Q.
Proof.
  intros (_ & _ & Hw & _ & _ & Hid & _) HQ. eapply active_read; [exact Hw|]. intros id Hi. unfold get_str in Hi. rewrite Hid in Hi.
  by injection Hi as <-.
Qed.
(** An event about the open text: a reader that is at the item goes on to [o']. *)
Lemma in_text_event M k t stage t' stage' e out items o kind m anns : in_text M k t stage e out items o ->
  kind ≠ "response.output_item.done" -> obj_get "output_index" m = Some (json_nat (length items)) ->
  obj_get "item_id" m = Some (JString (item_id (item_prefix k) rid (length items))) ->
  (forall item, get "id" item = obj_get "item_id" m -> get_str "type" item = Some (text_type k) ->
    read_open kind (JObject m) (mkOpen item stage t (re_annotations e)) = Some (mkOpen item stage' t' anns)) ->
  wpW (re_emit kind (JObject m)) e out (fun _ e' out' =>
    re_annotations e' = re_annotations e /\
    (anns = re_annotations e -> in_text M k t' stage' e' out' items (mkOpen (oi_item o) stage' t' anns)) /\
    writes_to e' out' RStreaming items (Some (mkOpen (oi_item o) stage' t' anns)) /\ same_head e e').
Proof.
  intros (Hi & Ht & Hw & Hsh & Hot & Hid & Han & Hstage & Htype) Hk Hix Hit Hrd.
  assert (o = mkOpen (oi_item o) stage t (re_annotations e)) as Ho by (destruct o; cbn in *; by subst).
  eapply wpW_mono; [eapply open_event_read; [exact Hw|done|done|rewrite Ho at 1; apply Hrd; [by rewrite Hit|done]|done]|].
  intros [] e' out' [Hw' [[Hi' Ht'] Han']]. split; [done|]. split; [|done]. intros ->.
  unfold in_text. rewrite Hi', Ht'. auto 15.
Qed.
(** At the item, and at its first part. *)
Ltac at_part := let item := fresh in let Hid := fresh in let Htype := fresh in
  intros item Hid Htype; unfold read_open; rewrite (bool_decide_eq_true_2 (get "item_id" _ = get "id" _)) by (cbn; by rewrite Hid);
  cbn [negb oi_stage oi_item oi_text oi_annotations]; rewrite (bool_decide_eq_true_2 (get "content_index" _ = _)) by done; cbn [negb andb].

Lemma text_delta_ok M k t d e out : m_started M = true -> m_outcome M = None -> m_open M = Some (k, t) -> responses_ok M e out ->
  wpW (responses_text_delta k d) e out (fun _ e out => responses_ok (m_extend d M) e out).
Proof.
  intros Hst Hl Hopen Hok. destruct (responses_in_text M k t e out Hst Hl Hopen Hok) as (items & o & HT).
  unfold responses_text_delta. wpw. eapply in_text_active; [exact HT|]. simpl.
  eapply wpW_mono; [eapply (in_text_event M k t _ (t +:+ d) (PartOpen (part_type k)) _ _ _ _ _ _ (re_annotations e)); [exact HT|by destruct k|done|done|]|].
  - at_part. by destruct k.
  - intros [] e' out' (_ & HT' & _). eapply in_text_ok; [by apply HT'|done|done| |done]. simpl. by rewrite Hopen.
Qed.
Lemma annotation_ok M t v e out : m_started M = true -> m_outcome M = None -> m_open M = Some (Text, t) -> responses_ok M e out ->
  wpW (responses_annotation_event v) e out (fun _ e out => responses_ok M e out).
Proof.
  intros Hst Hl Hopen Hok. destruct (responses_in_text M Text t e out Hst Hl Hopen Hok) as (items & o & HT).
  unfold responses_annotation_event. wpw. eapply in_text_active; [exact HT|]. wpw.
  pose proof HT as (Hi & Ht & _ & Hsh & Hot & Hid & Han & Hstage & Htype).
  eapply wpW_mono; [eapply (in_text_event M Text t _ t (PartOpen "output_text") _ _ _ _ _ _ (re_annotations e ++ [v])); [exact HT|done|done|done|]|].
  - at_part. rewrite (bool_decide_eq_false_2 ("response.output_text.annotation.added" = _)) by done. rewrite !bool_decide_eq_true_2 by done. done.
  - intros [] e' out' (Han' & _ & Hw' & [Hi' Ht']). wpw.
    eapply (in_text_ok M M Text t _ _ items (mkOpen (oi_item o) (PartOpen "output_text") t (re_annotations e ++ [v]))); try done.
    split; [simpl; congruence|]. split; [simpl; congruence|]. split; [done|]. repeat split; try done; [apply Hsh|apply Hsh|].
    simpl. by rewrite Han'.
Qed.
Lemma close_text_ok M k t b e out : m_started M = true -> m_outcome M = None -> m_open M = Some (k, t) -> m_calls M = [] -> responses_ok M e out ->
  wpW (responses_close_text k t b) e out (fun _ e out => responses_ok (m_close M) e out).
Proof.
  intros Hst Hl Hopen Hc Hok. destruct (responses_in_text M k t e out Hst Hl Hopen Hok) as (items & o & HT).
  unfold responses_close_text. wpw. eapply in_text_active; [exact HT|]. wpw.
  eapply wpW_mono; [eapply (in_text_event M k t _ t (Said (Some (part_type k))) _ _ _ _ _ _ (re_annotations e)); [exact HT|by destruct k|done|done|]|].
  { at_part. destruct k; cbn -[bool_decide]; unfold read_whole; cbn [oi_text oi_item oi_annotations];
      (rewrite !bool_decide_eq_false_2 by done); (rewrite !bool_decide_eq_true_2 by done); done. }
  intros [] e1 out1 (Han1 & HT1 & _). specialize (HT1 eq_refl). wpw.
  eapply wpW_mono; [eapply (in_text_event M k t _ t (PartClosed (new_part (part_type k) t (re_annotations e))) _ _ _ _ _ _ (re_annotations e1));
    [exact HT1|done|done|done|]|].
  { at_part. rewrite text_part_new, Han1. rewrite !bool_decide_eq_true_2 by done. done. }
  intros [] e2 out2 (Han2 & HT2 & _). specialize (HT2 eq_refl). wpw.
  destruct HT2 as (Hi2 & Ht2 & Hw2 & Hsh & _ & Hid2 & _ & _ & Htype2). cbn in Hid2, Htype2.
  assert (Hpart : text_part k t e1 = text_part k t e2) by (unfold text_part; by rewrite Han2).
  rewrite Hpart, text_item_shown by done.
  eapply wpW_mono; [eapply done_item_read; [exact Hw2|]|].
  { unfold ends_item. cbn [oi_item oi_stage]. rewrite shown_text_id, Hid2, Htype2, Han2, Han1. rewrite (bool_decide_eq_true_2 (_ = _)) by done.
    by destruct k, b; cbn -[bool_decide]; rewrite !bool_decide_eq_true_2 by (done || listed). }
  intros [] e3 out3 [Hw3 [[Hi3 Ht3] _]]. split; [congruence|]. split; [congruence|]. eexists RStreaming, _, None.
  split; [exact Hw3|]. split; [unfold phase_ok; simpl; by rewrite Hl|]. split; [|done].
  unfold content_of, m_close. simpl. rewrite Hc, Hopen, fmap_app, app_nil_r. apply items_show_snoc.
  - unfold content_of in Hsh. by rewrite Hc, app_nil_r in Hsh.
  - simpl. eauto.
Qed.

(** ** Calls and the end *)
Definition call_type (name : string) : string :=
  if is_tool_search tools name then "tool_search_call" else if is_custom tools name then "custom_tool_call" else "function_call".
Definition call_item_id (c : ChatToolCall) : string :=
  (if is_tool_search tools (call_name c) then "tsc_" else if is_custom tools (call_name c) then "ctc_" else "fc_") +:+ call_id c.
Lemma call_item_facts c v status : let item := responses_call_item tools (call_id c) (call_name c) v status in
  get "id" item = Some (JString (call_item_id c)) /\ get "content" item = None /\
  get_str "type" item = Some (call_type (call_name c)) /\ get_str "status" item = Some status /\
  (forall stem key, obj_get (call_type (call_name c)) CALL_TYPES = Some (stem, key) -> get_str key item = Some v).
Proof.
  simpl. unfold responses_call_item, call_item_id, call_type.
  destruct (is_tool_search tools (call_name c)); [done|]. destruct (is_custom tools (call_name c)), (namespace tools (call_name c));
    (split_and!; [done..|]); by intros stem key [= <- <-].
Qed.

(** The events of a call's input, at an item whose type says what they are called. *)
Definition call_stem (name stem key : string) : Prop := obj_get (call_type name) CALL_TYPES = Some (stem, key).
Lemma call_stem_cases name stem key : call_stem name stem key ->
  (call_type name = "custom_tool_call" /\ stem = "custom_tool_call_input" /\ key = "input") \/
  (call_type name = "function_call" /\ stem = "function_call_arguments" /\ key = "arguments").
Proof.
  intros Hk%obj_get_elem. unfold CALL_TYPES in Hk. apply elem_of_cons in Hk as [[= -> -> ->]|Hk]; [by left|].
  apply elem_of_cons in Hk as [[= -> -> ->]|Hk]; [by right|]. by apply elem_of_nil in Hk.
Qed.
Lemma call_delta_read name stem key v ref item e out items : call_stem name stem key ->
  writes_to e out RStreaming items (Some (mkOpen item Added "" [])) ->
  get_str "type" item = Some (call_type name) -> get "id" item = Some (JString ref) ->
  wpW (when (non_empty v) (re_emit ("response." +:+ stem +:+ ".delta")
         (JObject (item_ref ref (length items) ++ [("delta", JString v)])))) e out
    (fun _ e' out' => writes_to e' out' RStreaming items (Some (mkOpen item Added v [])) /\ same_head e e').
Proof.
  intros Hs Hw Htype Hid. unfold when. destruct (non_empty v) eqn:Hne; wpw.
  - eapply wpW_mono; [eapply (open_event_read _ _ (mkOpen item Added "" [])); [exact Hw| |done| |]|by intros [] e' out' [? [? _]]]; try done.
    + by destruct (call_stem_cases _ _ _ Hs) as [(_ & -> & _)|(_ & -> & _)].
    + unfold read_open. rewrite (bool_decide_eq_true_2 (get "item_id" _ = _)) by done. cbn [negb oi_stage oi_item]. unfold item_type. rewrite Htype.
      cbn [default from_option id]. rewrite Hs. by destruct (call_stem_cases _ _ _ Hs) as [(_ & -> & _)|(_ & -> & _)].
  - assert (v = "") as -> by (unfold non_empty in Hne; by case_bool_decide). done.
Qed.
Lemma call_done_read name stem key v ref item tail e out items : call_stem name stem key ->
  writes_to e out RStreaming items (Some (mkOpen item Added v [])) ->
  get_str "type" item = Some (call_type name) -> get "id" item = Some (JString ref) ->
  wpW (re_emit ("response." +:+ stem +:+ ".done") (JObject (item_ref ref (length items) ++ [(key, JString v)] ++ tail))) e out
    (fun _ e' out' => writes_to e' out' RStreaming items (Some (mkOpen item (Said None) v [])) /\ same_head e e').
Proof.
  intros Hs Hw Htype Hid.
  eapply wpW_mono; [eapply (open_event_read _ _ (mkOpen item Added v [])); [exact Hw| |done| |]|by intros [] e' out' [? [? _]]]; try done.
  - by destruct (call_stem_cases _ _ _ Hs) as [(_ & -> & _)|(_ & -> & _)].
  - unfold read_open. rewrite (bool_decide_eq_true_2 (get "item_id" _ = _)) by done. cbn [negb oi_stage oi_item]. unfold item_type. rewrite Htype.
    cbn [default from_option id]. rewrite Hs. unfold read_whole.
    destruct (call_stem_cases _ _ _ Hs) as [(_ & -> & ->)|(_ & -> & ->)]; cbn -[bool_decide get_str];
      rewrite (bool_decide_eq_false_2 (_ = stem_event _ "delta")) by done; rewrite !bool_decide_eq_true_2 by done; done.
Qed.
(** A call's item is done. *)
Lemma call_finished M c cut o e0 e out items : m_outcome M = None -> m_open M = None ->
  re_identity e0 = identity /\ re_tools e0 = tools -> same_head e0 e -> items_show rid tools (content_of M) items ->
  writes_to e out RStreaming items (Some o) -> ends_item (responses_call tools cut c) o = true ->
  wpW (done_item (responses_call tools cut c) ;; mret true) e out
    (fun b e out => b = true /\ responses_ok (if b then m_call c M else M) e out).
Proof.
  intros Hl Hopen [Hi Ht] [Hi' Ht'] Hsh Hw Hend. wpw.
  eapply wpW_mono; [eapply done_item_read; [exact Hw|exact Hend]|].
  intros [] e' out' [Hw' [[Hi2 Ht2] _]]. wpw. split; [done|]. split; [congruence|]. split; [congruence|]. eexists RStreaming, _, None.
  split; [exact Hw'|]. split; [unfold phase_ok; simpl; by rewrite Hl|]. split; [|unfold open_ok; simpl; by rewrite Hopen].
  unfold content_of, m_call. simpl. rewrite fmap_app, app_assoc. apply items_show_snoc; [done|]. simpl. eauto.
Qed.

Lemma tool_call_ok M c cut e out : m_started M = true -> m_outcome M = None -> m_open M = None -> responses_ok M e out ->
  wpW (responses_tool_call c cut) e out (fun b e out => b = true /\ responses_ok (if b then m_call c M else M) e out).
Proof.
  intros Hst Hl Hopen (Hi & Ht & phase & items & open & Hw & Hph & Hsh & Hop).
  unfold open_ok, phase_ok in *. rewrite Hl, Hst in Hph. subst phase. rewrite Hopen in Hop. destruct open; [done|].
  unfold responses_tool_call. wpw. rewrite Ht.
  destruct (call_item_facts c "" "in_progress") as (Hid & Hcont & Htype & Hstatus & _).
  eapply wpW_mono; [eapply add_item_read; [exact Hw|unfold get_str; by rewrite Hid|exact Hstatus]|].
  intros [] e1 out1 [Hw1 [Hh1 _]]. rewrite Hcont in Hw1. cbv zeta in Hw1. rewrite Htype.
  set (item := responses_call_item tools (call_id c) (call_name c) "" "in_progress") in *. clearbody item.
  destruct (responses_call_value tools (call_name c) (call_arguments c) cut) as [v|] eqn:Hv.
  2: { destruct (call_item_facts c "" "incomplete") as (Hid2 & _ & Htype2 & Hstatus2 & Hkey).
    assert (Hitem : responses_call_item tools (call_id c) (call_name c) "" "incomplete" = responses_call tools cut c)
      by (unfold responses_call; by rewrite Hv).
    rewrite Hitem in *. eapply (call_finished M c cut _ e); [done..|exact Hw1|]. unfold ends_item, item_type. cbn [oi_item oi_stage oi_text].
    rewrite Hid, Hid2, Htype, Htype2, Hstatus2, (bool_decide_eq_true_2 (Some (JString _) = _)) by done. cbn [default from_option id].
    destruct (obj_get (call_type (call_name c)) CALL_TYPES) as [[stem key]|] eqn:Hk.
    - rewrite (Hkey _ _ eq_refl). by rewrite !bool_decide_eq_true_2 by (done || listed).
    - unfold call_type in *. destruct (is_tool_search tools (call_name c)); [done|]. by destruct (is_custom tools (call_name c)). }
  assert (Hitem : responses_call_item tools (call_id c) (call_name c) v "completed" = responses_call tools cut c)
    by (unfold responses_call; by rewrite Hv).
  destruct (call_item_facts c v "completed") as (Hid2 & _ & Htype2 & Hstatus2 & Hkey). rewrite Hitem in *. wpw.
  eapply active_read; [exact Hw1|]. intros id Hid'. unfold get_str in Hid'. cbn [oi_item] in Hid'. rewrite Hid in Hid'. injection Hid' as <-.
  destruct (is_tool_search tools (call_name c)) eqn:Hts.
  { rewrite (bool_decide_eq_true_2 (Some (call_type (call_name c)) = _)) by (unfold call_type; by rewrite Hts).
    eapply (call_finished M c cut _ e); [done..|exact Hw1|]. unfold ends_item, item_type. cbn [oi_item oi_stage oi_text].
    rewrite Hid, Hid2, Htype, Htype2, Hstatus2, (bool_decide_eq_true_2 (Some (JString _) = _)) by done. unfold call_type. by rewrite Hts. }
  rewrite bool_decide_eq_false_2 by (unfold call_type; rewrite Hts; by destruct (is_custom _ _)).
  destruct (if bool_decide _ then _ else _) as [stem key] eqn:Hstem.
  assert (Hsk : call_stem (call_name c) stem key).
  { unfold call_stem, call_type in *. rewrite Hts in *. destruct (is_custom tools (call_name c)); simpl in Hstem; by injection Hstem as <- <-. }
  rewrite wpW_bind. eapply wpW_mono; [by eapply call_delta_read|]. intros [] e2 out2 [Hw2 Hh2].
  rewrite wpW_bind. eapply wpW_mono; [by eapply call_done_read|].
  intros [] e3 out3 [Hw3 Hh3]. eapply (call_finished M c cut _ e); [done|done|done| |done|exact Hw3|].
  - destruct Hh1, Hh2, Hh3. split; congruence.
  - unfold ends_item, item_type. cbn [oi_item oi_stage oi_text]. rewrite Hid, Hid2, Htype, Htype2, Hstatus2. cbn [default from_option id].
    unfold call_stem in Hsk. rewrite Hsk, (Hkey _ _ Hsk). rewrite !bool_decide_eq_true_2 by (done || listed). done.
Qed.

Lemma extend_get k m ms : NoDup (obj_keys ms) -> obj_get k (extend m ms) = or_else (obj_get k ms) (obj_get k m).
Proof.
  revert m. induction ms as [|[k' v] ms IH]; intros m Hnd; [done|]. apply NoDup_cons in Hnd as [Hk Hnd]. simpl.
  rewrite IH, obj_get_insert by done. cbn [fst] in *. case_bool_decide; [subst|done]. apply obj_get_None in Hk. by rewrite Hk.
Qed.
Lemma finish_ok M o u e out : m_started M = true -> m_outcome M = None -> m_open M = None -> responses_ok M e out ->
  wpW (responses_finish o u) e out (fun _ e out => responses_ok (m_end o u M) e out).
Proof.
  intros Hst Hl Hopen (Hi & Ht & phase & items & open & Hw & Hph & Hsh & Hop).
  unfold open_ok, phase_ok in *. rewrite Hl, Hst in Hph. subst phase. rewrite Hopen in Hop. destruct open; [done|].
  destruct Hw as (Hr & Ho & Ha). unfold responses_finish.
  destruct (responses_end o) as [[[event status] details] error] eqn:Hend. wpw.
  set (response := re_response _ _ _ _ e).
  assert (Hget : forall k, get k response = or_else (obj_get k
    [("id", JString (ri_request_id (re_identity e))); ("object", JString "response");
     ("created_at", json_i64 (re_created_at e)); ("model", re_model e); ("status", JString status);
     ("incomplete_details", details); ("error", error); ("output", JArray (re_output e)); ("usage", responses_usage u)])
    (obj_get k (match re_echo e with JObject m => m | _ => [] end))).
  { intros k. unfold response, re_response, responses_object. cbn [get]. rewrite extend_get; [done|]. apply (bool_decide_unpack _). by vm_compute. }
  assert (Hev : event ∈ END_EVENTS).
  { unfold responses_end in Hend. destruct o as [[] tu|f]; simpl in Hend; injection Hend as <- <- <- <-; listed. }
  eapply wpW_mono; [eapply (emit_read _ _ _ _ _ (REnded event response) items None); [exact Hr|done|]|].
  - unfold read_body. cbn [rv_phase rv_open]. rewrite (bool_decide_eq_false_2 (event = _)).
    + rewrite (bool_decide_eq_true_2 (event ∈ END_EVENTS)) by done.
      change (get "response" (JObject [("response", response)])) with (Some response). cbn [andb mbind option_bind rv_items].
      rewrite Hget. cbn. rewrite Ho. by rewrite bool_decide_eq_true_2.
    + intros ->. revert Hev. apply (bool_decide_unpack _). by vm_compute.
  - intros [] e' out' [-> Hr']. split; [done|]. split; [done|]. exists (REnded event response), items, None.
    split; [split; [exact Hr'|done]|]. split; [|split; [done|unfold open_ok; simpl; by rewrite Hopen]].
    unfold phase_ok, ends_with_outcome. simpl. rewrite Hend. exists response. rewrite !Hget. cbn. by rewrite Ho.
Qed.

Program Definition responses_writer : ChatWriter ResponsesEvents := {|
  wr_ok := responses_ok;
  wr_writes := fun _ _ => true;
  wr_start := start_ok;
  wr_open := open_text_ok;
  wr_delta := text_delta_ok;
  wr_annotation := annotation_ok;
  wr_close := close_text_ok;
  wr_call := tool_call_ok;
  wr_finish := finish_ok;
|}.
Next Obligation. (* usage *)
  intros M u e out _ _ (Hi & Ht & Hok). simpl. unfold responses_usage_event. by wpw.
Qed.
End Instances.

(** ** Names and numbers *)
Definition RESPONSES_EVENTS : list string :=
  ["response.created"; "response.in_progress"; "response.output_item.added"; "response.output_item.done";
   "response.output_text.annotation.added"; "response.content_part.added"; "response.content_part.done"] ++ END_EVENTS ++
  (stem ← ["reasoning_text"; "output_text"; "refusal"; "custom_tool_call_input"; "function_call_arguments"]; [stem_event stem "delta"; stem_event stem "done"]).
(** The part an item has open has one of the types parts have. *)
Definition stage_ok (o : OpenItem) : Prop :=
  match oi_stage o with PartOpen type => type ∈ PART_TYPES.*2 | _ => True end.
Lemma read_open_name name data o o' : stage_ok o -> read_open name data o = Some o' -> name ∈ RESPONSES_EVENTS /\ stage_ok o'.
Proof.
  unfold read_open, read_delta, read_whole, stage_ok. intros Hok. destruct (negb _); [done|]. destruct (oi_stage o) as [|type|[type|]|part] eqn:Hstage; [| | |done|done].
  - destruct (obj_get (item_type (oi_item o)) CALL_TYPES) as [[stem key]|] eqn:Hk.
    + apply obj_get_elem in Hk. assert (stem = "custom_tool_call_input" \/ stem = "function_call_arguments") as Hstem.
      { unfold CALL_TYPES in Hk. apply elem_of_cons in Hk as [[= _ -> _]|Hk]; [by left|]. apply elem_of_cons in Hk as [[= _ -> _]|Hk]; [by right|].
        by apply elem_of_nil in Hk. }
      repeat (case_bool_decide as Hn; [|clear Hn]); [| |done].
      * subst name. destruct (get_str "delta" data); [|done]. intros [= <-]. cbn. split; [|done]. destruct Hstem as [-> | ->]; listed.
      * subst name. case_bool_decide; [|done]. intros [= <-]. split; [|done]. destruct Hstem as [-> | ->]; listed.
    + destruct (bool_decide (name = _)) eqn:Hn; [|done]. apply bool_decide_eq_true in Hn as ->. cbn [andb]. destruct (bool_decide _); [|done].
      destruct (get "part" data) as [part|]; [|done]. cbn [mbind option_bind]. destruct (get_str "type" part) as [type|]; [|done]. cbn [mbind option_bind].
      destruct (bool_decide ((_, type) ∈ PART_TYPES)) eqn:Hp; [|done]. cbn [andb]. destruct (bool_decide (part = _)); [|done]. intros [= <-]. split; [listed|].
      apply bool_decide_eq_true in Hp. cbn. by apply (list_elem_of_fmap_2 snd) in Hp.
  - assert (type = "reasoning_text" \/ type = "output_text" \/ type = "refusal") as Htype by (unfold PART_TYPES in Hok; cbn in Hok; set_solver).
    destruct (negb _); [done|]. repeat (case_bool_decide as Hn; [|clear Hn]); [| | |done].
    + subst name. destruct (get_str "delta" data); [|done]. intros [= <-]. cbn. split; [|done]. destruct Htype as [->|[->| ->]]; listed.
    + subst name. case_match; [|done]. destruct (get "annotation" data); [|done]. intros [= <-]. cbn. split; [listed|done].
    + subst name. case_match; [|done]. intros [= <-]. split; [|done]. destruct Htype as [->|[->| ->]]; listed.
  - destruct (bool_decide (name = _)) eqn:Hn; [|done]. apply bool_decide_eq_true in Hn as ->. case_match; [|done]. intros [= <-]. split; [listed|done].
Qed.
Definition view_ok (v : RView) : Prop := from_option stage_ok True (rv_open v).
Lemma read_response_name v e v' : view_ok v -> read_response v e = Some v' -> e.1 ∈ RESPONSES_EVENTS /\ view_ok v'.
Proof.
  destruct e as [name data]. unfold read_response, view_ok. intros Hok. case_match; [|done].
  destruct (read_body v name data) as [[[phase items] open]|] eqn:Hb; [|done]. intros [= <-]. cbn [fst rv_open]. revert Hb. unfold read_body.
  destruct (rv_phase v), (rv_open v) as [o|]; try done.
  - destruct (decide (name = "response.created")) as [->|Hn]; [|by rewrite bool_decide_eq_false_2].
    rewrite bool_decide_eq_true_2 by done. intros [= <- <- <-]. split; [listed|done].
  - destruct (decide (name = "response.in_progress")) as [->|Hn]; [|by rewrite bool_decide_eq_false_2].
    rewrite bool_decide_eq_true_2 by done. intros [= <- <- <-]. split; [listed|done].
  - destruct (negb _); [done|]. destruct (decide (name = "response.output_item.done")) as [->|Hn].
    + rewrite bool_decide_eq_true_2 by done. destruct (get "item" data) as [item|]; [|done]. cbn [mbind option_bind]. destruct (ends_item item o); [|done].
      intros [= <- <- <-]. split; [listed|done].
    + rewrite (bool_decide_eq_false_2 (name = _)) by done. destruct (read_open name data o) as [o'|] eqn:Ho; [|done].
      intros [= <- <- <-]. by eapply read_open_name.
  - destruct (bool_decide (name = "response.output_item.added")) eqn:Hn.
    + apply bool_decide_eq_true in Hn as ->. cbn [andb]. destruct (bool_decide (get "output_index" data = _)).
      * destruct (get "item" data) as [item|]; [|done]. cbn [mbind option_bind]. destruct (starts_item item); [|done].
        intros [= <- <- <-]. split; [listed|done].
      * by rewrite bool_decide_eq_false_2 by listed.
    + cbn [andb]. destruct (decide (name ∈ END_EVENTS)) as [He|He]; [|by rewrite (bool_decide_eq_false_2 (name ∈ END_EVENTS))].
      rewrite (bool_decide_eq_true_2 (name ∈ END_EVENTS)) by done. destruct (get "response" data) as [response|]; [|done]. cbn [mbind option_bind]. destruct (bool_decide (get "output" response = _)); [|done].
      intros [= <- <- <-]. split; [|done]. unfold RESPONSES_EVENTS. rewrite !elem_of_app. auto.
Qed.
Lemma read_responses_plain out v : read_responses out = Some v ->
  Forall (fun e : SseEvent => plain_name e.1) out /\ rv_seq v = length out.
Proof.
  cut (read_responses out = Some v -> view_ok v /\ Forall (fun e : SseEvent => plain_name e.1) out /\ rv_seq v = length out); [naive_solver|].
  revert v. induction out as [|e out IH] using rev_ind; intros v; [by intros [= <-]|]. rewrite read_responses_snoc.
  destruct (read_responses out) as [v'|]; simpl; [|done]. destruct (IH v' eq_refl) as (Hok & Hp & Hs). intros Hr.
  destruct (read_response_name v' e v Hok Hr) as [Hname Hok']. split; [done|]. split.
  - apply Forall_app. split; [done|]. constructor; [|constructor]. revert Hname.
    generalize (e.1). intros name Hn. assert (forallb (fun n => bool_decide (plain_name n)) RESPONSES_EVENTS = true) as Hall by by vm_compute.
    rewrite forallb_forall in Hall. apply list_elem_of_In, Hall, bool_decide_eq_true in Hn. done.
  - destruct e as [name data]. unfold read_response in Hr. case_match; [|done].
    destruct (read_body v' name data) as [[[phase items] open]|]; [|done]. injection Hr as <-. simpl. rewrite length_app. simpl. lia.
Qed.

(** ** Every bridged stream *)
Section Bridged.
Context (echo : value) (identity : ResponseIdentity).
#[local] Instance bridge_writer : ChatWriter ResponsesEvents := responses_writer echo identity.

(** What a client has read after the chunks [hv]. *)
Definition response_read (fb : string) (hv : list value) (ended : bool) (out : list SseEvent) : Prop :=
  let h := parse_chat_chunk <$> hv in
  let shown := items_show (ri_request_id identity) (from_echo echo) in
  exists v, read_responses out = Some v /\ rv_seq v = length out /\
    stream_events (as_bytes (render out)) = (fun e => to_vec e.2) <$> out /\
    if ended then
      let M := concluded (response_id fb hv) h in
      rv_open v = None /\ shown (content_of M) (rv_items v) /\
      ends_with_outcome (h_outcome (response_id fb hv) h) (h_usage h) (rv_items v) (rv_phase v)
    else exists closed, shown (inl <$> closed) (rv_items v) /\
      match rv_open v with
      | None => closed = grouped (h_pieces h)
      | Some o => exists k, closed ++ [(k, oi_text o)] = grouped (h_pieces h)
      end.
Lemma between_responses fb hv ended (s : ChatStream ResponsesEvents) out : between fb hv ended s out -> response_read fb hv ended out.
Proof.
  intros HB%between_tells. unfold tells, response_read in *. destruct ended.
  - destruct HB as (Hi & Ht & phase & items & open & [Hr _] & Hph & Hsh & Hop).
    pose proof (read_responses_plain _ _ Hr) as [Hp Hs]. eexists. split; [exact Hr|]. split; [done|]. split; [by apply render_reads|].
    unfold open_ok in Hop. simpl in Hop. by destruct open.
  - destruct HB as (M & (Hi & Ht & phase & items & open & [Hr _] & Hph & Hsh & Hop) & Hl & Hc & Hst & Htx).
    pose proof (read_responses_plain _ _ Hr) as [Hp Hs]. eexists. split; [exact Hr|]. split; [done|]. split; [by apply render_reads|].
    exists (m_closed M). unfold content_of in Hsh. rewrite Hc, app_nil_r in Hsh. split; [done|]. simpl. rewrite <- Htx. unfold m_texts, open_ok in *.
    destruct (m_open M) as [[k t]|], open as [o|]; try done; [|simpl; by rewrite app_nil_r].
    destruct Hop as (<- & _). by exists k.
Qed.

(** C15: Whatever a chat upstream streams, a Responses client reads a well-formed response from
    the bridge: the events are numbered from zero without a gap, the response is created and in
    progress before anything else, and items are added, empty and in progress, and done one at
    a time under consecutive output indices.  A text item has one part, of a type that fits the
    item: it is added empty, filled by deltas of its type and by citations numbered in order,
    repeated whole, done with the same text and citations, and it is the content of the item
    that is done.  A call's input is streamed and repeated under the events of its type and is
    the input of the item that is done; nothing is streamed for a tool search or a call that
    was cut off.  Every item that is done is marked completed or incomplete.  The closing event
    comes once and lists exactly the items the client saw done.  The items are the upstream's
    answer: adjacent text of a kind as one item, then every tool call restored to the tool the
    client declared; the status and usage are those of the chat finish.  The bridge never
    panics, also where it takes an open item for granted; a payload that is not JSON fails the
    stream; and when the connection closes, only a stream that declared its finish or its error
    is ended. *)
Theorem responses_stream_well_formed usage events fb : non_empty fb = true ->
  bridge_sound (response_read fb) events fb (responses_new echo identity usage).
Proof. intros Hfb. apply bridge_tells; [done|apply responses_ok_new|]. intros hv ended s out. apply between_responses. Qed.
End Bridged.
End Told.

Section Witness.
#[local] Existing Instances sample_json sample_sha sample_hex.
Definition sample_identity : ResponseIdentity := mkIdentity "r1" (Some "m").
Definition sample_echo : value := responses_echo (JObject [("tools", JArray sample_tools)]).
Lemma responses_stream_well_formed_witness : exists r s out v,
  cs_run sample_stream "openai-1" (stream_new (responses_new sample_echo sample_identity None)) = Some (r, s, out) /\ r = Ok tt /\
  read_responses out = Some v /\ rv_seq v = length out /\
  get_str "type" <$> rv_items v = [Some "message"; Some "function_call"].
Proof.
  destruct (responses_stream_well_formed sample_echo sample_identity None sample_stream "openai-1" eq_refl)
    as (r & s & out & Hrun & H).
  destruct (hears sample_stream [] false) as [[r' hv] ended] eqn:Hh. vm_compute in Hh. injection Hh as <- <- <-.
  destruct H as (Hr & (v & Hv & Hseq & _ & _ & [Hlen Hshow] & _) & _). exists r, s, out, v.
  split; [exact Hrun|]. split; [exact Hr|]. split; [exact Hv|]. split; [exact Hseq|].
  assert (Hlen2 : length (rv_items v) = 2) by exact Hlen. clear Hlen. destruct (rv_items v) as [|i0 [|i1 [|? ?]]]; try discriminate Hlen2.
  destruct (Hshow 0 _ i0 ltac:(vm_compute; reflexivity) eq_refl) as (anns & status & ->).
  destruct (Hshow 1 _ i1 ltac:(vm_compute; reflexivity) eq_refl) as ([] & ->); vm_compute; reflexivity.
Defined.
End Witness.
