(* ===== verification/SseTransform.v ===== *)
(** * Transforming a provider's stream (src/middleware/stream_transform.rs)

    The conversions of single Anthropic events, the choice of a transform, and
    [SseTransformStream]: the stream that reads the upstream's chunks, applies the
    transform to each event and hands the results to its consumer, holding back why
    the stream ended until everything before it has been delivered. *)
From S2P Require Import Prelude Text Json External Sample Errors SseProtocol UpstreamErrors Images Audio Sanitize SseFraming ToolMap Conversion EventStream ChatStream MessagesStream ResponsesStream.

(** ** Anthropic events as chat chunks *)
Inductive StreamTransform : Type :=
| AnthropicToOpenaiChat
| OpenaiToAnthropicMessages (upstream_usage : option value)
| OpenaiChatToResponses (echo : value) (identity : ResponseIdentity) (upstream_usage : option value)
| AnthropicCompleteToOpenai
| ExcludeReasoning
| SanitizeResponse (identity : ResponseIdentity) (endpoint : Endpoint).
Definition provider (t : StreamTransform) : string :=
  match t with
  | AnthropicToOpenaiChat | AnthropicCompleteToOpenai => "anthropic"
  | _ => "openai"
  end.

Record StreamState : Type := mkState {
  ss_tool_index : option Z;
  ss_usage : option value;
  ss_model : option string;
  ss_messages : option (ChatStream MessagesEvents);
  ss_responses : option (ChatStream ResponsesEvents);
}.
Definition state_default : StreamState := mkState None None None None None.
Definition set_tool_index (i : option Z) (s : StreamState) : StreamState :=
  mkState i (ss_usage s) (ss_model s) (ss_messages s) (ss_responses s).
Definition set_message_start (usage : value) (model : string) (s : StreamState) : StreamState :=
  mkState (ss_tool_index s) (Some usage) (Some model) (ss_messages s) (ss_responses s).
Definition set_messages (m : ChatStream MessagesEvents) (s : StreamState) : StreamState :=
  mkState (ss_tool_index s) (ss_usage s) (ss_model s) (Some m) (ss_responses s).
Definition set_responses (r : ChatStream ResponsesEvents) (s : StreamState) : StreamState :=
  mkState (ss_tool_index s) (ss_usage s) (ss_model s) (ss_messages s) (Some r).

Section Anthropic.
Context {SJ : SerdeJson}.
(** [format!("data: {}\n\n", ..)]. *)
Definition data_frame (text : string) : string := "data: " +:+ text +:+ of_bytes [lf; lf].
Definition chat_chunk (fallback_id : string) (now : Time) (model : string) (choice : object) (tail : object) : value :=
  JObject
    ([("id", JString fallback_id); ("object", JString "chat.completion.chunk"); ("created", json_i64 (t_secs now));
      ("model", JString model); ("provider", JString "anthropic"); ("choices", JArray [JObject choice])] ++ tail).
Definition json_index (i : option Z) : value := match i with Some i => json_i64 i | None => JNull end.

Definition error_chunk (fallback_id : string) (now : Time) (error : value) : value :=
  JObject
    [("id", JString fallback_id); ("object", JString "chat.completion.chunk"); ("created", json_i64 (t_secs now));
     ("model", JString ""); ("error", error);
     ("choices", JArray [JObject [("finish_reason", JNull); ("delta", JObject [("content", JString "")])]])].
Definition start_usage (usage : value) : value :=
  let input := i64_field usage "input_tokens" in
  let cache_read := i64_field usage "cache_read_input_tokens" in
  let cache_creation := i64_field usage "cache_creation_input_tokens" in
  JObject
    ([("prompt_tokens", json_i64 (i64_add (i64_add input cache_read) cache_creation))] ++
     (if negb (cache_read =? 0)%Z || negb (cache_creation =? 0)%Z then
        opt_member "cache_read_input_tokens" (get "cache_read_input_tokens" usage) ++
        opt_member "cache_creation_input_tokens" (get "cache_creation_input_tokens" usage)
      else [])).
Definition delta_usage (usage : value) (state_usage : option value) : value :=
  let output := i64_field usage "output_tokens" in
  let prompt := from_option (fun u => i64_field u "prompt_tokens") 0%Z state_usage in
  JObject (obj_insert "total_tokens" (json_i64 (i64_add prompt output))
    (extend [("completion_tokens", json_i64 output)]
       (match state_usage with Some (JObject m) => m | _ => [] end))).
(** A falsy index yields 0, another is incremented. *)
Definition next_tool_index (i : option Z) : Z :=
  match i with Some n => if (n =? 0)%Z then 0 else i64_add n 1 | None => 0 end.

Definition anthropic_chat_chunk (now : Time) (parsed : value) (fallback_id : string) (state : StreamState) (strict : bool) :
    string * StreamState :=
  let model := default "" (ss_model state) in
  let kind := default "" (get_str "type" parsed) in
  let message_usage := get "message" parsed ≫= get "usage" in
  match (if bool_decide (kind = "error") then get "error" parsed else None) with
  | Some error =>
      (data_frame (json_str (error_chunk fallback_id now error)) +:+ data_frame "[DONE]", state)
  | None =>
  match (if bool_decide (kind = "message_start") then message_usage else None) with
  | Some usage =>
      let model := default "" (get "message" parsed ≫= get_str "model") in
      (data_frame (json_str (chat_chunk fallback_id now model
         [("delta", JObject [("content", JString "")]); ("index", json_i64 0); ("logprobs", JNull); ("finish_reason", JNull)] [])),
       set_message_start (start_usage usage) model state)
  | None =>
  match (if bool_decide (kind = "message_delta") then get "usage" parsed else None) with
  | Some usage =>
      let stop_reason := get "delta" parsed ≫= get_str "stop_reason" in
      (data_frame (json_str (chat_chunk fallback_id now model
         [("index", json_i64 0); ("delta", JObject []);
          ("finish_reason", JString (transform_finish_reason stop_reason strict))]
         [("usage", delta_usage usage (ss_usage state))])), state)
  | None =>
      let is_tool_block_start :=
        bool_decide (kind = "content_block_start") &&
        bool_decide ((get "content_block" parsed ≫= get_str "type") = Some "tool_use") in
      let state := if is_tool_block_start then set_tool_index (Some (next_tool_index (ss_tool_index state))) state else state in
      let partial_json := non_null (get "delta" parsed ≫= get "partial_json") in
      let tool_calls :=
        if is_tool_block_start then
          match get "content_block" parsed with
          | Some block =>
              [JObject [("index", json_index (ss_tool_index state)); ("id", json_null_or (get "id" block));
                 ("type", JString "function");
                 ("function", JObject [("name", json_null_or (get "name" block)); ("arguments", JString "")])]]
          | None => []
          end
        else if bool_decide (kind = "content_block_delta") then
          match partial_json with
          | Some json => [JObject [("index", json_index (ss_tool_index state)); ("function", JObject [("arguments", json)])]]
          | None => []
          end
        else [] in
      let delta :=
        opt_member "content" (get "delta" parsed ≫= get "text") ++
        (if bool_decide (tool_calls = []) then [] else [("tool_calls", JArray tool_calls)]) in
      (data_frame (json_str (chat_chunk fallback_id now model
         [("delta", JObject delta); ("index", json_i64 0); ("logprobs", JNull); ("finish_reason", JNull)] [])), state)
  end end end.

Definition anthropic_chat_stream (now : Time) (event : ParsedEvent) (fallback_id : string) (state : StreamState) (strict : bool) :
    result unit (option string) * StreamState :=
  let name := default "" (pe_name event) in
  if bool_decide (name = "ping") || bool_decide (name = "content_block_stop") then (Ok None, state)
  else if bool_decide (name = "message_stop") then (Ok (Some (data_frame "[DONE]")), state)
  else
    let payload := event_payload event in
    if bool_decide (payload = "") then (Ok None, state)
    else
      match parse_json payload with
      | None => (Err tt, state)
      | Some parsed =>
          let '(out, state) := anthropic_chat_chunk now parsed fallback_id state strict in (Ok (Some out), state)
      end.

Definition anthropic_complete_stream (now : Time) (event : ParsedEvent) : result unit (option string) :=
  if bool_decide (pe_name event = Some "ping") then Ok None
  else
    let payload := event_payload event in
    if bool_decide (payload = "") then Ok None
    else if bool_decide (payload = "[DONE]") then Ok (Some "[DONE]")
    else
      match parse_json payload with
      | None => Err tt
      | Some parsed =>
          Ok (Some (data_frame (json_str (JObject
            [("id", json_null_or (get "log_id" parsed)); ("object", JString "text_completion");
             ("created", json_i64 (t_secs now)); ("model", json_null_or (get "model" parsed));
             ("provider", JString "anthropic");
             ("choices", JArray [JObject
               [("text", json_null_or (get "completion" parsed)); ("index", json_i64 0); ("logprobs", JNull);
                ("finish_reason", json_null_or (get "stop_reason" parsed))]])]))))
      end.
End Anthropic.

Definition select_stream_transform (format : ProviderFormat) (endpoint : Endpoint) (upstream_usage : option value) :
    option StreamTransform :=
  match format, endpoint with
  | Anthropic, ChatComplete => Some AnthropicToOpenaiChat
  | Anthropic, Complete => Some AnthropicCompleteToOpenai
  | Openai, Messages => Some (OpenaiToAnthropicMessages upstream_usage)
  | _, _ => None
  end.

(** ** Applying a transform *)
Section Apply.
Context {SJ : SerdeJson} {SH : Sha} {HX : HexCodec}.

(** [None] is a panic of a bridge. *)
Definition apply (t : StreamTransform) (now : Time) (event fallback_id : string) (state : StreamState) :
    option (result unit (option string) * StreamState) :=
  match t with
  | ExcludeReasoning => Some (Ok (Some (edit_event_body event exclude_reasoning)), state)
  | SanitizeResponse identity endpoint =>
      Some (Ok (Some (edit_event_body event (fun body =>
        canonicalize (t_secs now) (rewrite_identity identity body) endpoint (Some (ri_request_id identity))))), state)
  | AnthropicToOpenaiChat =>
      Some (anthropic_chat_stream now (parse_event event) fallback_id state STRICT_OPENAI_COMPLIANCE)
  | AnthropicCompleteToOpenai => Some (anthropic_complete_stream now (parse_event event), state)
  | OpenaiToAnthropicMessages upstream_usage =>
      let stream := default (stream_new (messages_new upstream_usage)) (ss_messages state) in
      '(r, stream) ← cs_event now (parse_event event) fallback_id stream; Some (r, set_messages stream state)
  | OpenaiChatToResponses echo identity upstream_usage =>
      let stream := default (stream_new (responses_new echo identity upstream_usage)) (ss_responses state) in
      '(r, stream) ← cs_event now (parse_event event) fallback_id stream; Some (r, set_responses stream state)
  end.
Definition end_of_stream (t : StreamTransform) (state : StreamState) : option (result unit (option string) * StreamState) :=
  match t with
  | OpenaiToAnthropicMessages _ =>
      match ss_messages state with
      | None => Some (Ok None, state)
      | Some stream => '(r, stream) ← cs_end_of_stream stream; Some (r, set_messages stream state)
      end
  | OpenaiChatToResponses _ _ _ =>
      match ss_responses state with
      | None => Some (Ok None, state)
      | Some stream => '(r, stream) ← cs_end_of_stream stream; Some (r, set_responses stream state)
      end
  | _ => Some (Ok None, state)
  end.

(** ** The stream adapter *)
Record SseTransformStream : Type := mkTransform {
  ts_transform : StreamTransform;
  ts_fallback_id : string;
  ts_state : StreamState;
  ts_reader : SseEventReader;
  ts_queue : list string;
  ts_inner_done : bool;
  ts_pending_error : option ServiceError;
}.
Definition transform_new (t : StreamTransform) (now : Time) : SseTransformStream :=
  mkTransform t (provider t +:+ "-" +:+ pretty (t_millis now)) state_default reader_default [] false None.

Implicit Type ts : SseTransformStream.
Definition with_state (state : StreamState) (queue : list string) ts : SseTransformStream :=
  mkTransform (ts_transform ts) (ts_fallback_id ts) state (ts_reader ts) queue (ts_inner_done ts) (ts_pending_error ts).
Definition with_reader (reader : SseEventReader) ts : SseTransformStream :=
  mkTransform (ts_transform ts) (ts_fallback_id ts) (ts_state ts) reader (ts_queue ts) (ts_inner_done ts) (ts_pending_error ts).
Definition with_queue (queue : list string) ts : SseTransformStream :=
  mkTransform (ts_transform ts) (ts_fallback_id ts) (ts_state ts) (ts_reader ts) queue (ts_inner_done ts) (ts_pending_error ts).
Definition ended (error : option ServiceError) ts : SseTransformStream :=
  mkTransform (ts_transform ts) (ts_fallback_id ts) (ts_state ts) (ts_reader ts) (ts_queue ts) true error.
(** The first reason stands. *)
Definition fail_with (error : ServiceError) ts : SseTransformStream :=
  ended (Some (default error (ts_pending_error ts))) ts.
Definition fail (reason : string) ts : SseTransformStream := fail_with (ServiceUpstream (Transport reason)) ts.

Definition emit (now : Time) (event : string) ts : option (bool * SseTransformStream) :=
  '(r, state) ← apply (ts_transform ts) now event (ts_fallback_id ts) (ts_state ts);
  Some (match r with
        | Ok (Some out) => (true, with_state state (ts_queue ts ++ [out]) ts)
        | Ok None => (true, with_state state (ts_queue ts) ts)
        | Err _ => (false, with_state state (ts_queue ts) ts)
        end).

Definition UNREPRESENTABLE : string := "provider sent an event this surface cannot represent".
(** The events of a chunk up to the first the transform rejects. *)
Fixpoint emit_all (now : Time) (events : list string) ts : option SseTransformStream :=
  match events with
  | [] => Some ts
  | event :: events' =>
      '(accepted, ts) ← emit now event ts;
      if (accepted : bool) then emit_all now events' ts else Some (fail UNREPRESENTABLE ts)
  end.

(** What one reply of the upstream's stream does. *)
Definition receive_chunk (now : Time) (chunk : bytes) ts : option SseTransformStream :=
  let '(outcome, reader, events) := push_chunk chunk (ts_reader ts) [] in
  ts ← emit_all now events (with_reader reader ts);
  Some (match outcome with Ok _ => ts | Err _ => fail "provider SSE event exceeded the size cap" ts end).
Definition close_transform ts : option SseTransformStream :=
  match ts_pending_error ts with
  | Some _ => Some ts
  | None =>
      '(r, state) ← end_of_stream (ts_transform ts) (ts_state ts);
      let ts := with_state state (ts_queue ts) ts in
      Some (match r with
            | Ok (Some tail) => with_queue (ts_queue ts ++ [tail]) ts
            | Ok None => ts
            | Err _ => fail "provider ended before finishing its response" ts
            end)
  end.
Definition receive_end (now : Time) ts : option SseTransformStream :=
  let ts := ended (ts_pending_error ts) ts in
  let '(residual, reader) := reader_finish (ts_reader ts) in
  let ts := with_reader reader ts in
  ts ← match residual with
       | None => Some ts
       | Some event =>
           '(accepted, ts) ← emit now event ts;
           Some (if (accepted : bool) then ts else fail UNREPRESENTABLE ts)
       end;
  close_transform ts.

(** A reply of the inner stream, with the clock as the code reads it then. *)
Inductive Reply : Type :=
| ReplyChunk (bytes : bytes)
| ReplyError (error : ServiceError)
| ReplyEnd
| ReplyPending.
Inductive Polled : Type :=
| ReadyItem (item : result ServiceError string)
| ReadyEnd
| NotReady.

Definition receive (now : Time) (reply : Reply) ts : option SseTransformStream :=
  match reply with
  | ReplyChunk chunk => receive_chunk now chunk ts
  | ReplyError error => Some (fail_with error ts)
  | ReplyEnd => receive_end now ts
  | ReplyPending => Some ts
  end.
(** [poll_next] against the replies to come: what it returns, and what is left.  When
    the upstream has no reply yet the poll is pending. *)
Fixpoint poll_next (replies : list (Time * Reply)) ts : option (Polled * list (Time * Reply) * SseTransformStream) :=
  match ts_queue ts with
  | bytes :: queue => Some (ReadyItem (Ok bytes), replies, with_queue queue ts)
  | [] =>
      if ts_inner_done ts then
        Some (match ts_pending_error ts with Some error => ReadyItem (Err error) | None => ReadyEnd end, replies,
              ended None ts)
      else
        match replies with
        | [] => Some (NotReady, [], ts)
        | (now, ReplyPending) :: replies' => Some (NotReady, replies', ts)
        | (now, reply) :: replies' => ts ← receive now reply ts; poll_next replies' ts
        end
  end.
End Apply.

(** ** Polling delivers what is produced *)
Section Delivery.
Context {SJ : SerdeJson} {SH : Sha} {HX : HexCodec}.
Implicit Type ts : SseTransformStream.

(** The replies taken in without a consumer: the queue holds all the output. *)
Fixpoint produce (replies : list (Time * Reply)) ts : option SseTransformStream :=
  if ts_inner_done ts then Some ts
  else match replies with
       | [] => Some ts
       | (now, reply) :: replies' => ts ← receive now reply ts; produce replies' ts
       end.

(** What a consumer gets from [n] polls, without the pending ones. *)
Fixpoint polls (n : nat) (replies : list (Time * Reply)) ts :
    option (list (option (result ServiceError string)) * list (Time * Reply) * SseTransformStream) :=
  match n with
  | O => Some ([], replies, ts)
  | S n' =>
      match poll_next replies ts with
      | None => None
      | Some (polled, replies, ts) =>
          match polls n' replies ts with
          | None => None
          | Some (items, replies, ts) =>
              Some (match polled with
                    | ReadyItem item => Some item :: items
                    | ReadyEnd => None :: items
                    | NotReady => items
                    end, replies, ts)
          end
      end
  end.

(** Output already queued stays in front. *)
Definition behind (q : list string) ts : SseTransformStream := with_queue (q ++ ts_queue ts) ts.
Lemma emit_behind q now event ts : emit now event (behind q ts) = (fun '(b, ts) => (b, behind q ts)) <$> emit now event ts.
Proof.
  unfold emit, behind. simpl. destruct (apply _ _ _ _ _) as [[r state]|]; [|done]. simpl.
  destruct r as [[out|]|[]]; simpl; by rewrite ?app_assoc.
Qed.
Lemma emit_all_behind q now events ts : emit_all now events (behind q ts) = behind q <$> emit_all now events ts.
Proof.
  revert ts. induction events as [|event events IH]; intros ts; [done|]. simpl. rewrite emit_behind.
  destruct (emit now event ts) as [[[] ts1]|]; simpl; [apply IH|done|done].
Qed.
Lemma close_behind q ts : close_transform (behind q ts) = behind q <$> close_transform ts.
Proof.
  unfold close_transform, behind. simpl. destruct (ts_pending_error ts); [done|].
  destruct (end_of_stream _ _) as [[r state]|]; [|done]. simpl. destruct r as [[tail|]|[]]; simpl; [|done|done].
  unfold with_queue, with_state. simpl. by rewrite app_assoc.
Qed.
Lemma receive_behind q now reply ts : receive now reply (behind q ts) = behind q <$> receive now reply ts.
Proof.
  destruct reply as [chunk|error| |]; simpl; [|done| |done].
  - unfold receive_chunk. simpl. destruct (push_chunk chunk (ts_reader ts) []) as [[outcome reader] events].
    change (with_reader reader (behind q ts)) with (behind q (with_reader reader ts)). rewrite emit_all_behind.
    destruct (emit_all _ _ _); [|done]. simpl. by destruct outcome.
  - unfold receive_end. simpl.
    change (with_reader ?r (ended ?e (behind q ts))) with (behind q (with_reader r (ended e ts))).
    destruct (bool_decide _).
    + apply close_behind.
    + rewrite emit_behind. destruct (emit _ _ _) as [[[] ts1]|]; simpl; [apply close_behind| |done].
      change (fail UNREPRESENTABLE (behind q ts1)) with (behind q (fail UNREPRESENTABLE ts1)). apply close_behind.
Qed.
Lemma produce_behind q replies ts : produce replies (behind q ts) = behind q <$> produce replies ts.
Proof.
  revert ts. induction replies as [|[now reply] replies IH]; intros ts; simpl; destruct (ts_inner_done ts); try done.
  rewrite receive_behind. destruct (receive now reply ts); simpl; [apply IH|done].
Qed.

(** Polling gets [items] and then nothing but the end. *)
Definition delivers (replies : list (Time * Reply)) ts (items : list (option (result ServiceError string))) : Prop :=
  exists n replies' ts', polls (S n) replies ts = Some (items, replies', ts') /\
    ts_queue ts' = [] /\ ts_inner_done ts' = true /\ ts_pending_error ts' = None.
Definition outcome_items ts : list (option (result ServiceError string)) :=
  (Some ∘ Ok <$> ts_queue ts) ++ (match ts_pending_error ts with Some e => [Some (Err e)] | None => [] end) ++ [None].

Lemma delivers_step replies ts polled replies1 ts1 items : poll_next replies ts = Some (polled, replies1, ts1) -> delivers replies1 ts1 items ->
  delivers replies ts (match polled with ReadyItem item => Some item :: items | ReadyEnd => None :: items | NotReady => items end).
Proof.
  intros Hp (n & r' & ts' & Hn & Hend). exists (S n), r', ts'. split; [|done].
  change (polls (S (S n)) replies ts) with
    (match poll_next replies ts with
     | None => None
     | Some (polled, replies, ts) =>
         match polls (S n) replies ts with
         | None => None
         | Some (items, replies, ts) =>
             Some (match polled with ReadyItem item => Some item :: items | ReadyEnd => None :: items | NotReady => items end, replies, ts)
         end
     end). by rewrite Hp, Hn.
Qed.
Lemma delivers_same replies ts replies1 ts1 items : poll_next replies ts = poll_next replies1 ts1 -> delivers replies1 ts1 items ->
  delivers replies ts items.
Proof. intros Hp (n & r' & ts' & Hn & Hend). exists n, r', ts'. split; [|done]. simpl in *. by rewrite Hp. Qed.
Lemma poll_drained replies ts : ts_queue ts = [] -> ts_inner_done ts = true ->
  poll_next replies ts =
    Some (match ts_pending_error ts with Some error => ReadyItem (Err error) | None => ReadyEnd end, replies, ended None ts).
Proof. intros Hq Hd. destruct replies; simpl; by rewrite Hq, Hd. Qed.
Lemma delivers_end replies ts : ts_queue ts = [] -> ts_inner_done ts = true -> ts_pending_error ts = None -> delivers replies ts [None].
Proof. intros Hq Hd He. exists 0, replies, (ended None ts). cbn [polls]. by rewrite poll_drained, He. Qed.
Lemma delivers_done replies ts : ts_inner_done ts = true -> delivers replies ts (outcome_items ts).
Proof.
  intros Hd. remember (ts_queue ts) as q eqn:Hq. revert ts Hd Hq. induction q as [|b q IH]; intros ts Hd Hq.
  - unfold outcome_items. rewrite <- Hq. destruct (ts_pending_error ts) as [e|] eqn:He; simpl.
    + apply (delivers_step _ _ (ReadyItem (Err e)) replies (ended None ts)); [by rewrite poll_drained, He|]. by apply delivers_end.
    + by apply delivers_end.
  - unfold outcome_items. rewrite <- Hq. simpl.
    apply (delivers_step _ _ (ReadyItem (Ok b)) replies (with_queue q ts)); [destruct replies; simpl; by rewrite <- Hq|].
    by apply (IH (with_queue q ts)).
Qed.
Lemma produce_delivers replies ts ts' : produce replies ts = Some ts' -> ts_inner_done ts' = true ->
  delivers replies ts (outcome_items ts').
Proof.
  revert ts ts'. induction replies as [|[now reply] replies IHr]; intros ts ts'; simpl; destruct (ts_inner_done ts) eqn:Hd.
  1,3: intros [= <-] _; by apply delivers_done.
  { intros [= <-]. congruence. }
  remember (ts_queue ts) as q eqn:Hq. revert ts ts' Hd Hq. induction q as [|b q IHq]; intros ts ts' Hd Hq Hp Hdone.
  - destruct (receive now reply ts) as [ts1|] eqn:Hr; simpl in Hp; [|done]. specialize (IHr ts1 ts' Hp Hdone).
    destruct reply as [chunk|error| |].
    4: { simpl in Hr. injection Hr as <-. eapply (delivers_step _ _ NotReady); [|exact IHr]. simpl. by rewrite <- Hq, Hd. }
    all: eapply delivers_same; [|exact IHr]; cbn [poll_next]; by rewrite <- Hq, Hd, Hr.
  - assert (Hb : ts = behind [b] (with_queue q ts)) by (destruct ts; simpl in *; by subst).
    rewrite Hb, receive_behind in Hp. destruct (receive now reply (with_queue q ts)) as [ts1|] eqn:Hr; simpl in Hp; [|done].
    rewrite produce_behind in Hp. destruct (produce replies ts1) as [ts2|] eqn:Hp1; simpl in Hp; [|done]. injection Hp as <-.
    change (outcome_items (behind [b] ts2)) with (Some (Ok b) :: outcome_items ts2).
    apply (delivers_step _ _ (ReadyItem (Ok b)) ((now, reply) :: replies) (with_queue q ts)).
    + cbn [poll_next]. by rewrite <- Hq.
    + apply IHq; [done|done|by rewrite Hr|done].
Qed.

(** Replies that say nothing yet change nothing. *)
Definition says_something (reply : Time * Reply) : bool := match reply.2 with ReplyPending => false | _ => true end.
Lemma produce_pending replies ts : produce (List.filter says_something replies) ts = produce replies ts.
Proof.
  revert ts. induction replies as [|[now reply] replies IH]; intros ts; [done|].
  assert (forall l, ts_inner_done ts = true -> produce l ts = Some ts) as Hd by (intros [|[] ?] Hd; cbn; by rewrite Hd).
  destruct (ts_inner_done ts) eqn:Hdone; [by rewrite !Hd|].
  destruct reply; cbn [List.filter says_something snd produce]; rewrite ?Hdone; cbn [receive mbind option_bind].
  - destruct (receive_chunk now bytes ts); cbn; [apply IH|done].
  - apply IH.
  - destruct (receive_end now ts); cbn; [apply IH|done].
  - apply IH.
Qed.

(** ** A bridge fed with bytes *)
(** Whether any event has reached the bridge. *)
Ltac touch := rewrite ?orb_true_iff; solve [split; [by left|by intros [?|?]] | split; [by right|intros _; by eexists] |
  split; [by right|intros _; left; by eexists] | tauto].
Section Bridge.
Context {E : Type} `{CW : ChatWriter E} (t : StreamTransform) (e0 : E).
Context (current : StreamState -> option (ChatStream E)) (put : ChatStream E -> StreamState -> StreamState).
Hypothesis current_new : current state_default = None.
Hypothesis current_put : forall s st, current (put s st) = Some s.
Hypothesis apply_bridge : forall now event fb st,
  apply t now event fb st =
    '(r, s) ← cs_event now (parse_event event) fb (default (stream_new e0) (current st)); Some (r, put s st).
Hypothesis end_bridge : forall st,
  end_of_stream t st =
    match current st with None => Some (Ok None, st) | Some s => '(r, s) ← cs_end_of_stream s; Some (r, put s st) end.

Definition text_of ts : string := concat_strings (ts_queue ts).
Definition bridge_stream ts : ChatStream E := default (stream_new e0) (current (ts_state ts)).

Lemma W_bind_Some {S A B} (m : W S A) (f : A -> W S B) s b s' o : (m ≫= f) s = Some (b, s', o) ->
  exists a s1 o1 o2, m s = Some (a, s1, o1) /\ f a s1 = Some (b, s', o2) /\ o = o1 ++ o2.
Proof.
  unfold mbind, W_bind. destruct (m s) as [[[a s1] o1]|]; [|done]. destruct (f a s1) as [[[b' s2] o2]|] eqn:Hf; [|done].
  intros [= <- <- <-]. eauto 10.
Qed.
(** An event that fails the stream writes nothing. *)
Lemma step_err_silent now event fb (s s' : ChatStream E) u out : cs_step now event fb s = Some (Err u, s', out) -> out = [].
Proof.
  unfold cs_step. case_bool_decide.
  - unfold cs_finish. intros Hb. do 2 apply W_bind_Some in Hb as (? & ? & ? & ? & [= <- <- <-] & Hb & ->).
    destruct (cs_terminated s); [by injection Hb as ? ? <-|]. destruct (negb (started s)); [by injection Hb as ? ? <-|].
    repeat (apply W_bind_Some in Hb as (? & ? & ? & ? & _ & Hb & ->)). done.
  - intros Hb. apply W_bind_Some in Hb as (? & ? & ? & ? & [= <- <- <-] & Hb & ->).
    destruct (_ && _); [|by injection Hb as ? ? <-]. destruct (parse_json _); [|by injection Hb as ? ? <-].
    apply W_bind_Some in Hb as (? & ? & ? & ? & _ & Hb & ->). done.
Qed.

Lemma render_app a b : render (a ++ b) = render a +:+ render b.
Proof.
  apply as_bytes_inj. unfold render. by rewrite as_bytes_app, !as_bytes_of_bytes, fmap_app, concat_app.
Qed.
Lemma written_text out : concat_strings (option_list (written out)) = render out.
Proof. unfold written. case_bool_decide; [by subst|]. simpl. apply string_app_nil_r. Qed.

(** What applying one event does to the adapter. *)
Definition stepped (r : result unit unit) (s' : ChatStream E) (out : list SseEvent) ts : SseTransformStream :=
  with_state (put s' (ts_state ts)) (ts_queue ts ++ (if is_ok r then option_list (written out) else [])) ts.
Lemma emit_step now event ts r s' out : ts_transform ts = t ->
  cs_step now (parse_event event) (ts_fallback_id ts) (bridge_stream ts) = Some (r, s', out) ->
  emit now event ts = Some (is_ok r, stepped r s' out ts).
Proof.
  intros Ht Hs. unfold emit. rewrite Ht, apply_bridge. unfold cs_event, returned. fold (bridge_stream ts). rewrite Hs.
  unfold stepped. destruct r as [[]|[]]; simpl; [|by rewrite app_nil_r].
  unfold written. case_bool_decide; simpl; by rewrite ?app_nil_r.
Qed.
Record same_adapter ts ts' : Prop := {
  sa_transform : ts_transform ts' = ts_transform ts;
  sa_fallback : ts_fallback_id ts' = ts_fallback_id ts;
}.
(** The run of some events, and how the adapter stands after it. *)
Record ran (r : result unit unit) (s' : ChatStream E) (out : list SseEvent) (touched : bool) ts ts' : Prop := {
  ran_same : same_adapter ts ts';
  ran_stream : bridge_stream ts' = s';
  ran_text : text_of ts' = text_of ts +:+ render out;
  ran_touched : is_Some (current (ts_state ts')) <-> is_Some (current (ts_state ts)) \/ touched = true;
  ran_done : ts_inner_done ts' = ts_inner_done ts || negb (is_ok r);
  ran_error : ts_pending_error ts' =
    if is_ok r then ts_pending_error ts else Some (default (ServiceUpstream (Transport UNREPRESENTABLE)) (ts_pending_error ts));
}.
Lemma concat_strings_snoc l : concat_strings l = concat_strings l +:+ "".
Proof. by rewrite string_app_nil_r. Qed.
Lemma emit_all_run now events ts r s' out : ts_transform ts = t ->
  cs_run ((fun e => (now, parse_event e)) <$> events) (ts_fallback_id ts) (bridge_stream ts) = Some (r, s', out) ->
  exists ts', emit_all now events ts = Some ts' /\ ran r s' out (negb (bool_decide (length events = 0))) ts ts'.
Proof.
  revert ts r s' out. induction events as [|event events IH]; intros ts r s' out Ht; cbn [fmap list_fmap cs_run].
  - intros [= <- <- <-]. exists ts. split; [done|]. split; simpl; try done.
    + unfold text_of. apply concat_strings_snoc.
    + touch.
    + by rewrite orb_false_r.
  - intros Hrun. apply W_bind_Some in Hrun as (r1 & s1 & o1 & o2 & Hs1 & Hrest & ->). simpl.
    rewrite (emit_step _ _ _ _ _ _ Ht Hs1). simpl. destruct r1 as [[]|u]; simpl.
    + destruct (IH (stepped (Ok tt) s1 o1 ts) r s' o2) as (ts' & He & [[] ? Htext Htouched ? ?]); [done| |].
      { unfold bridge_stream, stepped. simpl. by rewrite current_put. }
      exists ts'. split; [done|]. split; try done.
      * rewrite Htext. unfold text_of, stepped. simpl. by rewrite concat_strings_app, written_text, render_app, string_app_assoc.
      * rewrite Htouched. unfold stepped. simpl. rewrite current_put. touch.
    + injection Hrest as <- <- <-. apply step_err_silent in Hs1. subst o1. eexists. split; [done|]. split; simpl; try done.
      * unfold bridge_stream, stepped. simpl. by rewrite current_put.
      * unfold text_of, stepped. simpl. rewrite app_nil_r. apply concat_strings_snoc.
      * unfold stepped. simpl. rewrite current_put. touch.
      * by rewrite orb_true_r.
Qed.

Lemma emit_reader now event ts b ts' : emit now event ts = Some (b, ts') -> ts_reader ts' = ts_reader ts.
Proof. unfold emit. destruct (apply _ _ _ _ _) as [[r state]|]; simpl; [|done]. destruct r as [[]|]; by intros [= <- <-]. Qed.
Lemma emit_all_reader now events ts ts' : emit_all now events ts = Some ts' -> ts_reader ts' = ts_reader ts.
Proof.
  revert ts. induction events as [|event events IH]; intros ts; simpl; [by intros [= <-]|].
  destruct (emit now event ts) as [[[] ts1]|] eqn:He; simpl; [| |done]; apply emit_reader in He.
  - intros H1%IH. congruence.
  - intros [= <-]. done.
Qed.
Lemma ran_trans r s1 s2 o1 o2 b1 b2 ts0 ts1 ts2 : ran (Ok tt) s1 o1 b1 ts0 ts1 -> ran r s2 o2 b2 ts1 ts2 ->
  ran r s2 (o1 ++ o2) (b1 || b2) ts0 ts2.
Proof.
  intros [[] ? Ht1 Hx1 Hd1 He1] [[] ? Ht2 Hx2 Hd2 He2]. split; [split; congruence|done| | | |].
  - by rewrite Ht2, Ht1, render_app, string_app_assoc.
  - rewrite Hx2, Hx1, orb_true_iff. touch.
  - rewrite Hd2, Hd1. simpl. by rewrite orb_false_r.
  - rewrite He2, He1. done.
Qed.
Lemma ran_reader r s o b rd ts ts' : ran r s o b (with_reader rd ts) ts' -> ran r s o b ts ts'.
Proof. intros [[] ? ? ? ? ?]. by split. Qed.
Lemma cs_run_app a b fb (s : ChatStream E) r s' out : cs_run (a ++ b) fb s = Some (r, s', out) ->
  exists ra sa oa, cs_run a fb s = Some (ra, sa, oa) /\
    match ra with
    | Ok _ => exists ob, cs_run b fb sa = Some (r, s', ob) /\ out = oa ++ ob
    | Err _ => r = Err tt /\ s' = sa /\ out = oa
    end.
Proof.
  revert s r s' out. induction a as [|[now event] a IH]; intros s r s' out; cbn [app cs_run].
  - intros Hb. exists (Ok tt), s, []. split; [done|]. by exists out.
  - intros Hb. apply W_bind_Some in Hb as (r1 & s1 & o1 & o2 & Hs & Hrest & ->). unfold mbind, W_bind. rewrite Hs. destruct r1 as [[]|[]].
    + destruct (IH _ _ _ _ Hrest) as (ra & sa & oa & -> & Hra). exists ra, sa, (o1 ++ oa). split; [done|]. destruct ra as [[]|].
      * destruct Hra as (ob & Hb & ->). exists ob. by rewrite app_assoc.
      * destruct Hra as (-> & -> & ->). done.
    + injection Hrest as <- <- <-. exists (Err tt), s1, (o1 ++ []). done.
Qed.

(** The events of each chunk with the clock at that chunk, and the reader after them. *)
Fixpoint timed (chunks : list (Time * bytes)) (r : SseEventReader) : list (Time * string) * SseEventReader :=
  match chunks with
  | [] => ([], r)
  | (now, c) :: chunks' =>
      let '(_, r1, events) := push_chunk c r [] in
      let '(rest, r2) := timed chunks' r1 in (((fun e => (now, e)) <$> events) ++ rest, r2)
  end.
Lemma end_line_acc r evs : end_line r evs = (let '(r', evs') := end_line r [] in (r', evs ++ evs')).
Proof. unfold end_line. destruct (_ =? _); [|by rewrite app_nil_r]. destruct (bool_decide _); by rewrite ?app_nil_r. Qed.
Lemma push_chunk_acc c r evs : push_chunk c r evs = (let '(o, r', evs') := push_chunk c r [] in (o, r', evs ++ evs')).
Proof.
  revert r evs. induction c as [|b c IH]; intros r evs; simpl; [by rewrite app_nil_r|].
  destruct (_ && _); [apply IH|]. destruct (_ || _).
  - rewrite end_line_acc. destruct (end_line _ []) as [r1 ev1]. destruct (reader_over_cap r1); [done|].
    rewrite IH. symmetry. rewrite IH. destruct (push_chunk c r1 []) as [[o r'] ev']. by rewrite app_assoc.
  - destruct (reader_over_cap _); [by rewrite app_nil_r|]. apply IH.
Qed.
Lemma push_chunks_timed chunks r evs r' events : push_chunks (snd <$> chunks) r evs = (Ok tt, r', events) ->
  events = evs ++ (snd <$> (timed chunks r).1) /\ (timed chunks r).2 = r'.
Proof.
  revert r evs. induction chunks as [|[now c] chunks IH]; intros r evs; simpl; [intros [= <- <-]; by rewrite app_nil_r|].
  rewrite push_chunk_acc. destruct (push_chunk c r []) as [[[[]|] r1] ev1]; [|done]. intros Hp. apply IH in Hp as [-> <-].
  destruct (timed chunks r1) as [rest r2]. simpl. split; [|done]. rewrite fmap_app, <- app_assoc. f_equal. f_equal.
  rewrite <- list_fmap_compose. symmetry. apply list_fmap_id.
Qed.

Definition parsed_events (tes : list (Time * string)) : list (Time * ParsedEvent) := (fun te => (te.1, parse_event te.2)) <$> tes.
Lemma feed_run chunks ts r s' out r' events evs : ts_transform ts = t -> ts_inner_done ts = false ->
  push_chunks (snd <$> chunks) (ts_reader ts) evs = (Ok tt, r', events) ->
  cs_run (parsed_events (timed chunks (ts_reader ts)).1) (ts_fallback_id ts) (bridge_stream ts) = Some (r, s', out) ->
  exists ts', (forall rest, produce (((fun c => (c.1, ReplyChunk c.2)) <$> chunks) ++ rest) ts = produce rest ts') /\
    ran r s' out (negb (bool_decide (length (timed chunks (ts_reader ts)).1 = 0))) ts ts' /\
    (is_ok r = true -> ts_reader ts' = r').
Proof.
  revert ts out evs. induction chunks as [|[now c] chunks IH]; intros ts out evs Ht Hd; cbn [fmap list_fmap push_chunks timed].
  - intros [= <- <-] [= <- <- <-]. exists ts. split; [done|]. split; [|done]. split; try done.
    + unfold text_of. apply concat_strings_snoc.
    + simpl. touch.
    + simpl. by rewrite orb_false_r.
  - cbn [snd]. rewrite push_chunk_acc. destruct (push_chunk c (ts_reader ts) []) as [[[[]|] r1] ev1] eqn:Hpush; [|done].
    destruct (timed chunks r1) as [rest r2] eqn:Htimed. cbn [fst]. intros Hp Hrun. unfold parsed_events in Hrun. rewrite fmap_app in Hrun.
    rewrite <- list_fmap_compose in Hrun. cbn in Hrun.
    apply cs_run_app in Hrun as (ra & sa & oa & Hra & Hrest).
    destruct (emit_all_run now ev1 (with_reader r1 ts) ra sa oa Ht Hra) as (ts1 & He & Hran%ran_reader).
    pose proof (emit_all_reader _ _ _ _ He) as Hr1. cbn in Hr1.
    assert (Hstep : forall more, produce ((now, ReplyChunk c) :: more) ts = produce more ts1).
    { intros more. cbn [produce]. rewrite Hd. cbn [receive]. unfold receive_chunk. rewrite Hpush. by rewrite He. }
    destruct ra as [[]|u].
    + destruct Hrest as (ob & Hb & ->). pose proof Hran as [[Htt Hfb] Hst Htx Hto Hdn Her]. simpl in *. rewrite orb_false_r, Hd in Hdn.
      destruct (IH ts1 ob (evs ++ ev1)) as (ts' & Hprod & Hran' & Hrd); [congruence|done|by rewrite Hr1| |].
      { rewrite Hr1, Htimed. cbn. by rewrite Hfb, Hst. }
      exists ts'. split; [intros more; cbn [app]; by rewrite Hstep|]. split; [|done].
      rewrite Hr1, Htimed in Hran'. cbn in Hran'. eapply ran_trans in Hran'; [|exact Hran].
      rewrite length_app, length_fmap. by destruct ev1, rest.
    + destruct Hrest as (-> & -> & ->). pose proof Hran as [? ? ? Hto Hdn ?]. exists ts1. split; [|split; [|done]].
      * intros more. cbn [app]. rewrite Hstep. simpl in Hdn. rewrite orb_true_r in Hdn.
        destruct chunks as [|[now' c'] chunks]; [done|]. cbn. rewrite Hdn. by destruct more; simpl; rewrite Hdn.
      * rewrite length_app, length_fmap. by destruct ev1.
Qed.

Definition UNFINISHED : string := "provider ended before finishing its response".
Lemma close_run ts r2 s2 out2 : ts_transform ts = t -> ts_pending_error ts = None -> ts_inner_done ts = true ->
  cs_close (bridge_stream ts) = Some (r2, s2, out2) -> is_Some (current (ts_state ts)) ->
  exists ts', close_transform ts = Some ts' /\ ts_inner_done ts' = true /\
    text_of ts' = text_of ts +:+ (if is_ok r2 then render out2 else "") /\
    ts_pending_error ts' = if is_ok r2 then None else Some (ServiceUpstream (Transport UNFINISHED)).
Proof.
  intros Ht He Hd Hc [s Hs]. unfold close_transform. rewrite He, Ht, end_bridge, Hs.
  unfold bridge_stream in Hc. rewrite Hs in Hc. simpl in Hc. unfold cs_end_of_stream, returned. rewrite Hc.
  destruct r2 as [[]|[]]; simpl.
  - unfold written. case_bool_decide; simpl; eexists; (split; [done|]); (split; [done|]); (split; [|done]); unfold text_of; simpl.
    + subst. apply concat_strings_snoc.
    + rewrite concat_strings_app. simpl. by rewrite string_app_nil_r.
  - eexists. split; [done|]. split; [done|]. unfold text_of, fail, fail_with. simpl. rewrite He. split; [apply concat_strings_snoc|done].
Qed.

Lemma produce_nil (o : option SseTransformStream) : (ts ← o; produce [] ts) = o.
Proof. destruct o as [ts|]; [|done]. simpl. by destruct (ts_inner_done ts). Qed.
(** The last, unterminated event of the stream. *)
Lemma residual_run now ts residual r s' out : ts_transform ts = t -> ts_inner_done ts = false -> ts_pending_error ts = None ->
  (reader_finish (ts_reader ts)).1 = residual ->
  cs_run (parsed_events (option_list ((fun e => (now, e)) <$> residual))) (ts_fallback_id ts) (bridge_stream ts) = Some (r, s', out) ->
  exists ts1, produce [(now, ReplyEnd)] ts = close_transform ts1 /\
    ran r s' out (bool_decide (is_Some residual)) (ended None ts) ts1 /\ ts_transform ts1 = t.
Proof.
  intros Ht Hd He Hres Hrun. assert (Hprod : produce [(now, ReplyEnd)] ts = receive_end now ts) by (rewrite <- (produce_nil (receive_end now ts)); simpl; by rewrite Hd).
  rewrite Hprod. clear Hprod. unfold receive_end. rewrite He.
  change (ts_reader (ended None ts)) with (ts_reader ts).
  destruct (reader_finish (ts_reader ts)) as [res rd]. simpl in Hres. subst res. destruct residual as [event|]; simpl in Hrun.
  - apply W_bind_Some in Hrun as (r1 & s1 & o1 & o2 & Hs & Hrest & ->).
    rewrite (emit_step now event (with_reader rd (ended None ts)) r1 s1 o1 Ht Hs). simpl.
    set (ts2 := if is_ok r1 then _ else _). exists ts2. split; [done|].
    destruct r1 as [[]|u]; injection Hrest as <- <- <-; simpl in ts2.
    + split; [|done]. split; simpl; try done.
      * unfold bridge_stream. simpl. by rewrite current_put.
      * unfold text_of. simpl. by rewrite concat_strings_app, written_text, app_nil_r.
      * rewrite current_put. touch.
    + apply step_err_silent in Hs. subst o1. split; [|done]. split; simpl; try done.
      * unfold bridge_stream. simpl. by rewrite current_put.
      * unfold text_of. simpl. rewrite app_nil_r. apply concat_strings_snoc.
      * rewrite current_put. touch.
  - injection Hrun as <- <- <-. exists (with_reader rd (ended None ts)).
    split; [done|].
    split; [|done]. split; simpl; try done.
    + apply concat_strings_snoc.
    + touch.
Qed.

(** ** Bytes in, a message out *)
(** How a bridge that has taken in the events [tev] and then the end stands: the text
    it produced is what the client reads, and the stream failed or not. *)
Definition bridged (told : list value -> bool -> list SseEvent -> Prop) (tev : list (Time * string)) ts : Prop :=
  exists out, text_of ts = render out /\
    let '(r, hv, ended) := hears (parsed_events tev) [] false in
    let h := parse_chat_chunk <$> hv in
    let declared := ended || bool_decide (is_Some (last (omap ck_finish_reason h))) || bool_decide (is_Some (h_error h)) in
    if bool_decide (length tev = 0) then out = [] /\ ts_pending_error ts = None
    else if is_ok r && declared then told hv true out /\ ts_pending_error ts = None
    else told hv ended out /\
         ts_pending_error ts = Some (ServiceUpstream (Transport (if is_ok r then UNFINISHED else UNREPRESENTABLE))).
(** The same of a stream with an event in it, and of one that broke off with an error of
    the transport: then the open event is not taken in. *)
Definition bridged_whole (told : list value -> bool -> list SseEvent -> Prop) (tev : list (Time * string)) ts : Prop :=
  exists out, text_of ts = render out /\
    let '(r, hv, ended) := hears (parsed_events tev) [] false in
    let h := parse_chat_chunk <$> hv in
    let declared := ended || bool_decide (is_Some (last (omap ck_finish_reason h))) || bool_decide (is_Some (h_error h)) in
    if is_ok r && declared then told hv true out /\ ts_pending_error ts = None
    else told hv ended out /\
         ts_pending_error ts = Some (ServiceUpstream (Transport (if is_ok r then UNFINISHED else UNREPRESENTABLE))).
Definition bridged_broken (told : list value -> bool -> list SseEvent -> Prop) (tev : list (Time * string)) (error : ServiceError) ts : Prop :=
  exists out, text_of ts = render out /\
    let '(r, hv, ended) := hears (parsed_events tev) [] false in
    told hv ended out /\
    ts_pending_error ts = Some (if is_ok r then error else ServiceUpstream (Transport UNREPRESENTABLE)).
Lemma bridged_nonempty told tev ts : tev ≠ [] -> bridged told tev ts -> bridged_whole told tev ts.
Proof.
  intros Hne (out & Htext & Hb). exists out. split; [done|]. destruct (hears _ [] false) as [[r hv] ended].
  rewrite bool_decide_eq_false_2 in Hb; [done|]. by destruct tev.
Qed.
Definition chunk_replies (chunks : list (Time * bytes)) : list (Time * Reply) := (fun c => (c.1, ReplyChunk c.2)) <$> chunks.

Lemma parsed_events_app a b : parsed_events (a ++ b) = parsed_events a ++ parsed_events b.
Proof. apply fmap_app. Qed.
Lemma new_fallback now : non_empty (ts_fallback_id (transform_new t now)) = true.
Proof. by destruct t. Qed.

(** Closing the transform after the last event. *)
Lemma close_bridged told tev fb ts r s out : ts_transform ts = t -> ts_inner_done ts = true ->
  cs_run (parsed_events tev) fb (stream_new e0) = Some (r, s, out) -> bridge_stream ts = s -> text_of ts = render out ->
  (is_Some (current (ts_state ts)) <-> length tev ≠ 0) ->
  ts_pending_error ts = (if is_ok r then None else Some (ServiceUpstream (Transport UNREPRESENTABLE))) ->
  bridge_sound told (parsed_events tev) fb e0 ->
  exists ts', close_transform ts = Some ts' /\ ts_inner_done ts' = true /\ bridged told tev ts'.
Proof.
  intros Ht Hd Hrun Hs Htext Htouched Her (r' & s' & out' & Hrun' & Hsound). rewrite Hrun in Hrun'. injection Hrun' as <- <- <-.
  unfold bridged. revert Hsound. destruct (hears (parsed_events tev) [] false) as [[rh hv] en]. intros (<- & Htell & r2 & s2 & out2 & Hc & Hdec).
  destruct r as [[]|u]; simpl in Her.
  - destruct (decide (length tev = 0)) as [Hz|Hz].
    + assert (current (ts_state ts) = None) as Hn by (apply eq_None_not_Some; rewrite Htouched; lia).
      assert (out = []) as -> by (destruct tev; [by injection Hrun|done]).
      exists (with_state (ts_state ts) (ts_queue ts) ts). unfold close_transform. rewrite Her, Ht, end_bridge, Hn. split; [done|].
      split; [done|]. exists []. by rewrite bool_decide_eq_true_2.
    + destruct (close_run ts r2 s2 out2) as (ts' & Hcl & Hd' & Htx' & Her'); [done..|by rewrite Hs|by apply Htouched|].
      exists ts'. split; [done|]. split; [done|]. rewrite (bool_decide_eq_false_2 (length tev = 0)) by done. cbn [is_ok andb].
      destruct (en || _ || _); destruct Hdec as [-> Hdec]; simpl in *.
      * exists (out ++ out2). rewrite render_app, Htx', Htext. done.
      * exists out. by rewrite Htx', Htext, string_app_nil_r.
  - exists ts. unfold close_transform. rewrite Her. split; [done|]. split; [done|]. exists out. split; [done|].
    rewrite bool_decide_eq_false_2; [done|]. by destruct tev.
Qed.

(** No event of the stream is too large for the reader. *)
Definition within_cap (chunks : list (Time * bytes)) : Prop := (push_chunks (snd <$> chunks) reader_default []).1.1 = Ok tt.
Lemma bridge_breaks told chunks now0 now1 error : wr_ok message_new e0 [] ->
  (forall hv ended s out, between (ts_fallback_id (transform_new t now0)) hv ended s out -> told hv ended out) ->
  within_cap chunks ->
  exists tev ts, snd <$> tev = stream_blocks (concat (snd <$> chunks)) /\
    produce (chunk_replies chunks ++ [(now1, ReplyError error)]) (transform_new t now0) = Some ts /\ ts_inner_done ts = true /\
    bridged_broken told tev error ts.
Proof.
  intros He Htold Hcap. set (ts0 := transform_new t now0). unfold within_cap in Hcap.
  pose proof (reader_reads (snd <$> chunks)) as Hread. destruct (push_chunks _ reader_default []) as [[outcome rd] events] eqn:Hpush.
  cbn in Hcap. subst outcome. destruct Hread as (Hev & _ & _). destruct (Hev eq_refl) as [Hevents _].
  destruct (push_chunks_timed _ _ _ _ _ Hpush) as [Htimed _]. simpl in Htimed. set (a := (timed chunks reader_default).1) in *.
  destruct (bridge_tells told (parsed_events a) (ts_fallback_id ts0) e0 (new_fallback now0) He Htold) as (r & s & out & Hrun & Hsound).
  destruct (feed_run chunks ts0 r s out rd events []) as (ts1 & Hprod & Hran & _); [done|done|done| |].
  { unfold bridge_stream. simpl. by rewrite current_new. }
  destruct Hran as [_ _ Htx _ Hdn Her]. exists a. unfold chunk_replies. rewrite Hprod, <- Hevents, <- Htimed. cbn [produce].
  unfold bridged_broken. destruct (hears (parsed_events a) [] false) as [[r' hv] en]. destruct Hsound as (<- & Htell & _).
  cbn in Hdn, Her, Htx. destruct r as [[]|[]]; cbn in Hdn, Her; rewrite Hdn; eexists; (split; [done|]).
  - cbn [receive mbind option_bind fail_with ended ts_inner_done]. split; [done|]. split; [done|]. exists out. split; [exact Htx|].
    split; [done|]. cbn. by rewrite Her.
  - split; [done|]. split; [done|]. exists out. by split_and!.
Qed.
Lemma bridge_composes told chunks now0 now1 : wr_ok message_new e0 [] ->
  (forall hv ended s out, between (ts_fallback_id (transform_new t now0)) hv ended s out -> told hv ended out) ->
  within_cap chunks ->
  exists tev ts, let bytes := concat (snd <$> chunks) in
    snd <$> tev = stream_blocks bytes ++ option_list (stream_residual bytes) /\
    produce (chunk_replies chunks ++ [(now1, ReplyEnd)]) (transform_new t now0) = Some ts /\ ts_inner_done ts = true /\
    bridged told tev ts.
Proof.
  intros He Htold Hcap. set (ts0 := transform_new t now0). unfold within_cap in Hcap.
  pose proof (reader_reads (snd <$> chunks)) as Hread. destruct (push_chunks _ reader_default []) as [[outcome rd] events] eqn:Hpush.
  cbn in Hcap. subst outcome. destruct Hread as (Hev & _ & _). destruct (Hev eq_refl) as [Hevents Hres]. clear Hev.
  destruct (push_chunks_timed _ _ _ _ _ Hpush) as [Htimed _]. simpl in Htimed.
  remember (reader_finish rd).1 as residual eqn:Hresid.
  set (a := (timed chunks reader_default).1) in *. set (b := option_list ((fun e => (now1, e)) <$> residual)).
  pose proof (bridge_tells told (parsed_events (a ++ b)) (ts_fallback_id ts0) e0 (new_fallback now0) He Htold) as Hsound.
  pose proof Hsound as (r & s & out & Hrun & _). pose proof Hrun as Hsplit.
  rewrite parsed_events_app in Hsplit. apply cs_run_app in Hsplit as (ra & sa & oa & Hra & Hrb).
  destruct (feed_run chunks ts0 ra sa oa rd events []) as (ts1 & Hprod & Hran & Hrd); [done|done|done| |].
  { unfold bridge_stream. simpl. by rewrite current_new. }
  pose proof Hran as [[Ht1 Hfb1] Hst1 Htx1 Hto1 Hdn1 Her1]. change (timed chunks (ts_reader ts0)).1 with a in Hto1.
  assert (Hgoal : exists ts, produce [(now1, ReplyEnd)] ts1 = Some ts /\ ts_inner_done ts = true /\ bridged told (a ++ b) ts).
  2: { destruct Hgoal as (ts & ? & ? & ?). exists (a ++ b), ts. unfold chunk_replies. rewrite Hprod. split; [|done].
    cbv zeta. rewrite fmap_app, <- Hevents, <- Htimed, <- Hres. f_equal. unfold b. by destruct residual. }
  simpl in Hto1. rewrite current_new in Hto1. destruct ra as [[]|u].
  - destruct Hrb as (ob & Hrb & ->). simpl in Hdn1, Her1.
    destruct (residual_run now1 ts1 residual r s ob) as (ts2 & Hp2 & Hran2 & Ht2); [done|done|done|by rewrite Hrd| |].
    { rewrite Hfb1, Hst1. exact Hrb. }
    destruct Hran2 as [_ Hst2 Htx2 Hto2 Hdn2 Her2]. rewrite Hp2.
    eapply (close_bridged told _ _ ts2); [done|done|exact Hrun|done| | |by rewrite Her2|done].
    + rewrite Htx2. unfold text_of in *. simpl. by rewrite Htx1, render_app.
    + rewrite Hto2. simpl. rewrite Hto1, length_app. unfold b. rewrite !bool_decide_eq_true, negb_true_iff, bool_decide_eq_false.
      destruct residual as [e|]; simpl; (split; [intros [[[? ?]|?]|[? ?]]; lia || done|intros ?]); [right; eauto|left; right; lia].
  - destruct Hrb as (-> & -> & ->). simpl in Hdn1, Her1. exists ts1. cbn [produce]. rewrite Hdn1. split; [done|]. split; [done|].
    destruct (close_bridged told (a ++ b) (ts_fallback_id ts0) ts1 (Err tt) sa oa) as (ts' & Hcl & _ & Hb); try done.
    + rewrite Hto1, length_app. destruct a; [done|]. simpl. split; [lia|auto].
    + unfold close_transform in Hcl. rewrite Her1 in Hcl. by injection Hcl as <-.
Qed.
End Bridge.

(** C13: Bytes in, a message out.  A chat stream is bridged to the Messages or the Responses
    surface; its bytes are cut into chunks in any way, with replies in between that are not
    ready, and none of its events is larger than the reader's cap (so it is for every stream
    of at most 16 MiB).  Polled until it is drained, the transformed stream delivers a text
    that is a well-formed message or response of the chunks heard, and then at most one error
    and its end.  When the connection closes and the bytes hold at least one event, these are
    the events of the bytes, the unterminated one at the end included, and there is an error
    exactly when an event was rejected or the upstream had declared neither its finish nor an
    error.  When the transport fails, they are the terminated events, and the error is the
    transport's, or that of an event rejected before. *)
Theorem bridged_stream_delivers transform echo identity slot chunks now0 now1 ending replies :
  let fb := ts_fallback_id (transform_new transform now0) in
  forall told, (transform = OpenaiToAnthropicMessages slot /\ told = client_read fb) \/
    (transform = OpenaiChatToResponses echo identity slot /\ told = response_read echo identity fb) ->
  let bytes := concat (snd <$> chunks) in
  let delivered ts := delivers replies (transform_new transform now0) (outcome_items ts) in
  List.filter says_something replies = chunk_replies chunks ++ [(now1, ending)] -> within_cap chunks ->
  (ending = ReplyEnd -> stream_blocks bytes ++ option_list (stream_residual bytes) ≠ [] ->
   exists tev ts, snd <$> tev = stream_blocks bytes ++ option_list (stream_residual bytes) /\ delivered ts /\ bridged_whole told tev ts) /\
  (forall error, ending = ReplyError error ->
   exists tev ts, snd <$> tev = stream_blocks bytes /\ delivered ts /\ bridged_broken told tev error ts).
Proof.
  intros fb told Ht bytes delivered Hreplies Hcap.
  assert (forall ts, produce (chunk_replies chunks ++ [(now1, ending)]) (transform_new transform now0) = Some ts -> ts_inner_done ts = true -> delivered ts) as Hdel
    by (intros ts Hp Hd; apply produce_delivers; [by rewrite <- produce_pending, Hreplies|done]).
  split.
  - intros -> Hne.
    assert (Hcomp : exists tev ts, snd <$> tev = stream_blocks bytes ++ option_list (stream_residual bytes) /\
      produce (chunk_replies chunks ++ [(now1, ReplyEnd)]) (transform_new transform now0) = Some ts /\ ts_inner_done ts = true /\
      bridged told tev ts).
    { destruct Ht as [[-> ->]|[-> ->]].
      - eapply (bridge_composes (OpenaiToAnthropicMessages slot) (messages_new slot) ss_messages set_messages); try done.
        intros hv ended s out. apply between_read.
      - eapply (bridge_composes (CW := responses_writer echo identity) (OpenaiChatToResponses echo identity slot)
          (responses_new echo identity slot) ss_responses set_responses); try done; [apply responses_ok_new|].
        intros hv ended s out. apply between_responses. }
    destruct Hcomp as (tev & ts & Hev & Hprod & Hd & Hb). exists tev, ts. split; [done|]. split; [by apply Hdel|].
    apply bridged_nonempty; [|done]. intros ->. by rewrite <- Hev in Hne.
  - intros error ->.
    assert (Hcomp : exists tev ts, snd <$> tev = stream_blocks bytes /\
      produce (chunk_replies chunks ++ [(now1, ReplyError error)]) (transform_new transform now0) = Some ts /\ ts_inner_done ts = true /\
      bridged_broken told tev error ts).
    { destruct Ht as [[-> ->]|[-> ->]].
      - eapply (bridge_breaks (OpenaiToAnthropicMessages slot) (messages_new slot) ss_messages set_messages); try done.
        intros hv ended s out. apply between_read.
      - eapply (bridge_breaks (CW := responses_writer echo identity) (OpenaiChatToResponses echo identity slot)
          (responses_new echo identity slot) ss_responses set_responses); try done; [apply responses_ok_new|].
        intros hv ended s out. apply between_responses. }
    destruct Hcomp as (tev & ts & Hev & Hprod & Hd & Hb). exists tev, ts. split; [done|]. split; [by apply Hdel|done].
Qed.
End Delivery.

Section Witness.
#[local] Existing Instances sample_json sample_sha sample_hex.
(** The chunks of a stream, its bytes cut in the middle of an event. *)
Definition sample_bytes : bytes :=
  concat ((fun v => as_bytes (data_frame (json_str v)))
    <$> [delta_chunk [("content", JString "Hi")] JNull; delta_chunk [] (JString "stop")]).
Definition sample_chunks : list (Time * bytes) := [(mkTime 0 0, take 20 sample_bytes); (mkTime 1 1000, drop 20 sample_bytes)].
Definition sample_replies : list (Time * Reply) :=
  [(mkTime 0 0, ReplyChunk (take 20 sample_bytes)); (mkTime 0 500, ReplyPending); (mkTime 1 1000, ReplyChunk (drop 20 sample_bytes));
   (mkTime 2 2000, ReplyEnd)].
Lemma bridged_stream_delivers_witness : exists ts,
  delivers sample_replies (transform_new (OpenaiToAnthropicMessages None) (mkTime 0 0)) (outcome_items ts) /\
  ts_pending_error ts = None /\ exists out v, text_of ts = render out /\ read_messages out = Some v /\ vw_blocks v = [TextBlock "Hi"].
Proof.
  destruct (bridged_stream_delivers (OpenaiToAnthropicMessages None) JNull sample_identity None sample_chunks (mkTime 0 0) (mkTime 2 2000)
    ReplyEnd sample_replies _ (or_introl (conj eq_refl eq_refl)) eq_refl) as [(tev & ts & Hev & Hdel & Hb) _];
    [vm_compute; reflexivity|reflexivity|vm_compute; discriminate|].
  exists ts. split; [exact Hdel|].
  assert (Hsnd : snd <$> tev = (fun v => "data: " +:+ json_str v +:+ of_bytes [lf])
    <$> [delta_chunk [("content", JString "Hi")] JNull; delta_chunk [] (JString "stop")]) by (rewrite Hev; vm_compute; reflexivity).
  destruct tev as [|[t1 e1] [|[t2 e2] [|? ?]]]; try discriminate Hsnd. injection Hsnd as -> ->.
  destruct Hb as (out & Htext & Hb).
  destruct (hears _ [] false) as [[r hv] en] eqn:Hh in Hb. vm_compute in Hh. injection Hh as <- <- <-.
  destruct Hb as [(v & Hr & _ & ->) Herr]. split; [exact Herr|]. exists out. eexists. split; [exact Htext|]. split; [exact Hr|].
  vm_compute. reflexivity.
Defined.
End Witness.
