(* ===== verification/Agreement.v ===== *)
(** * One answer, whole or streamed

    The gateway converts a chat answer for a Messages client in two places: a whole
    body in src/middleware/response_transform.rs ([Conversion]) and a stream of chunks
    in src/middleware/stream_transform.rs ([ChatStream], [MessagesStream]).  Here the
    two agree: when the chunks of a stream retell a chat body, the client assembles
    from the stream what it would have been sent at once. *)
From S2P Require Import Prelude Text Json External Sample Sanitize ToolMap Conversion EventStream ChatStream MessagesStream.

(** ** The texts of a message as pieces *)
Definition joined (k : TextKind) (pieces : list string) : list (TextKind * string) :=
  if bool_decide (pieces = []) then [] else [(k, concat_strings pieces)].
Lemma say_joined k x (pieces : list string) l : last l ≫= (fun kt => Some kt.1) ≠ Some k ->
  foldl (fun l kd => say kd l) (l ++ [(k, x)]) (pair k <$> pieces) = l ++ [(k, x +:+ concat_strings pieces)].
Proof.
  intros Hl. revert x. induction pieces as [|p pieces IH]; intros x; simpl; [by rewrite string_app_nil_r|].
  unfold say at 2. rewrite last_snoc, bool_decide_eq_true_2, removelast_last by done. simpl.
  by rewrite IH, string_app_assoc.
Qed.
Lemma grouped_pieces k (pieces : list string) l : last l ≫= (fun kt => Some kt.1) ≠ Some k ->
  foldl (fun l kd => say kd l) l (pair k <$> pieces) = l ++ joined k pieces.
Proof.
  intros Hl. destruct pieces as [|p pieces]; simpl; [by rewrite app_nil_r|]. unfold joined. rewrite bool_decide_eq_false_2 by done.
  assert (say (k, p) l = l ++ [(k, p)]) as ->; [|by apply say_joined].
  unfold say. destruct (last l) as [[k' t]|] eqn:Hlast; simpl in *.
  - rewrite bool_decide_eq_false_2; [done|]. by intros ->.
  - by apply last_None in Hlast as ->.
Qed.
Lemma last_joined k pieces l : last (l ++ joined k pieces) ≫= (fun kt => Some kt.1) =
  if bool_decide (pieces = []) then last l ≫= (fun kt => Some kt.1) else Some k.
Proof. unfold joined. case_bool_decide; [by rewrite app_nil_r|]. by rewrite last_snoc. Qed.

(** The pieces of an answer in the order a message lists them. *)
Definition in_order (thinking text refusal : list string) : list (TextKind * string) :=
  (pair Reasoning <$> thinking) ++ (pair Text <$> text) ++ (pair Refusal <$> refusal).
Lemma grouped_in_order a b c : grouped (in_order a b c) = joined Reasoning a ++ joined Text b ++ joined Refusal c.
Proof.
  unfold in_order, grouped. rewrite !foldl_app.
  rewrite (grouped_pieces Reasoning) by done.
  rewrite (grouped_pieces Text) by (rewrite last_joined; by case_bool_decide).
  rewrite (grouped_pieces Refusal) by (rewrite last_joined; case_bool_decide; [rewrite last_joined; by case_bool_decide|done]).
  simpl. by rewrite <- app_assoc.
Qed.
(** Pieces of a chunk are never empty. *)
Lemma h_pieces_non_empty h kd : kd ∈ h_pieces h -> kd.2 ≠ "".
Proof.
  unfold h_pieces. intros (c & Hc & _)%list_elem_of_bind. apply list_elem_of_filter in Hc as [Hne _]. unfold non_empty in Hne.
  by case_bool_decide.
Qed.
Lemma concat_non_empty (l : list string) : (forall p, p ∈ l -> p ≠ "") -> concat_strings l = "" <-> l = [].
Proof.
  intros Hl. destruct l as [|p l]; [done|]. simpl. split; [|done]. specialize (Hl p ltac:(left)). by destruct p.
Qed.

(** ** The calls of a message *)
Definition message_call (call : value) : ToolCall :=
  let field key := default "" (get "function" call ≫= get_str key) in
  mkToolCall (default "" (get_str "id" call)) (field "name") (field "arguments").
Lemma named_message_call rid i call : trim (tc_id (message_call call)) = tc_id (message_call call) ->
  named_call rid i (message_call call) = chat_tool_call rid i call.
Proof.
  unfold named_call, chat_tool_call. simpl. intros Hid. destruct (non_empty (trim _)); [|done]. do 2 f_equal.
  destruct (get_str "id" call) as [id|]; simpl in *; [by rewrite Hid|done].
Qed.
Lemma imap_ext_lookup {A B C} (f : nat -> A -> C) (g : nat -> B -> C) (l : list A) (l' : list B) : length l = length l' ->
  (forall i a b, l !! i = Some a -> l' !! i = Some b -> f i a = g i b) -> imap f l = imap g l'.
Proof.
  intros Hlen Hf. apply list_eq. intros i. rewrite !list_lookup_imap. specialize (Hf i).
  destruct (l !! i) eqn:Ha, (l' !! i) eqn:Hb; simpl; [by rewrite (Hf a b)| | |done].
  - apply lookup_lt_Some in Ha. apply lookup_ge_None in Hb. lia.
  - apply lookup_lt_Some in Hb. apply lookup_ge_None in Ha. lia.
Qed.
Lemma seqZ_sorted m n : StronglySorted Z.lt (seqZ m (Z.of_nat n)).
Proof.
  revert m. induction n as [|n IH]; intros m; [constructor|]. rewrite seqZ_cons by lia.
  replace (Z.pred (Z.of_nat (S n))) with (Z.of_nat n) by lia. constructor; [apply IH|].
  apply Forall_forall. intros i Hi%elem_of_seqZ. lia.
Qed.
Lemma sorted_range n (l : list Z) : StronglySorted Z.lt l -> (forall i, i ∈ l <-> (0 <= i < Z.of_nat n)%Z) -> l = seqZ 0 (Z.of_nat n).
Proof.
  intros Hs Hl. apply (StronglySorted_unique_strong Z.lt); [lia|done|apply seqZ_sorted|].
  apply NoDup_Permutation.
  - clear Hl. induction Hs as [|i l Hs IH Hi]; constructor; [|done]. rewrite Forall_forall in Hi. intros Hin.
    specialize (Hi _ Hin). lia.
  - apply NoDup_seqZ.
  - intros i. rewrite Hl, elem_of_seqZ. lia.
Qed.

(** ** Chunks that retell a chat body *)
Record retells (response message : value) (h : list ChatChunk) : Prop := {
  rt_message : chat_message (first_choice response) = Some message;
  rt_error : is_null_or_absent (get "error" response) = true /\ h_error h = None;
  rt_answered : h_answered h = true;
  rt_texts : exists thinking text refusal, h_pieces h = in_order thinking text refusal /\
    concat_strings thinking = default "" (reasoning_text message) /\
    concat_strings text = chat_text (get "content" message) /\
    concat_strings refusal = chat_text (get "refusal" message);
  rt_calls : exists id_of, well_indexed id_of (h_deltas h) /\
    (forall i, (exists d, d ∈ h_deltas h /\ td_index d = Some i) <-> (0 <= i < Z.of_nat (length (message_tool_calls message)))%Z) /\
    forall i call, message_tool_calls message !! i = Some call -> call_at (Z.of_nat i) (h_deltas h) = message_call call;
  rt_ids call : call ∈ message_tool_calls message -> trim (tc_id (message_call call)) = tc_id (message_call call);
  rt_finish : last (omap ck_finish_reason h) = first_choice response ≫= get_str "finish_reason";
  rt_usage : last (omap ck_usage h) = get "usage" response;
}.

Section Agreement.
Context {SJ : SerdeJson} {SH : Sha} {HX : HexCodec}.
Implicit Types (response message : value) (h : list ChatChunk).

Lemma retold_calls response message h rid : retells response message h ->
  h_calls rid h = chat_tool_calls (message_tool_calls message) rid /\
  length (as_calls (assembled (h_deltas h))) = length (message_tool_calls message).
Proof.
  intros Hr. destruct (rt_calls _ _ _ Hr) as (id_of & Hw & Hix & Hcall).
  destruct (assembled_indexed id_of _ Hw) as [ixs [Hs Hin Hcalls _]].
  rewrite (sorted_range (length (message_tool_calls message)) ixs) in Hcalls by (done || intros i; by rewrite Hin, Hix).
  rewrite Hcalls. split; [|by rewrite length_fmap, length_seqZ, Nat2Z.id].
  unfold h_calls, named_calls, chat_tool_calls. rewrite Hcalls. f_equal.
  apply imap_ext_lookup; [by rewrite length_fmap, length_seqZ, Nat2Z.id|].
  intros i e call He Hc. apply list_lookup_fmap_Some in He as (j & -> & Hj). apply lookup_seqZ in Hj as [-> _].
  cbn [snd]. rewrite Z.add_0_l, (Hcall i call Hc). apply named_message_call, (rt_ids _ _ _ Hr). by eapply list_elem_of_lookup_2.
Qed.

(** The blocks of texts, as the buffered conversion lists them. *)
Definition text_blocks_of message : list value :=
  match reasoning_text message with Some thinking => [thinking_block thinking] | None => [] end ++
  (text_block <$> filter (fun text => non_empty text = true)
     [chat_text (get "content" message); chat_text (get "refusal" message)]).
Definition same_input (input : string) (i : value) : Prop :=
  parse_json input = Some i \/ (input = "{}" /\ i = JObject []).
(** A streamed block and one of a whole message. *)
Definition same_block (b : Block) (v : value) : Prop :=
  match b with
  | ThinkingBlock t => v = thinking_block t
  | TextBlock t => v = text_block t
  | ToolUseBlock id name input => exists i, same_input input i /\ v = tool_use_block id name i
  end.
Lemma retold_texts response message h : retells response message h ->
  Forall2 same_block (text_view <$> grouped (h_pieces h)) (text_blocks_of message).
Proof.
  intros Hr. destruct (rt_texts _ _ _ Hr) as (a & b & c & Hp & Ha & Hb & Hc). rewrite Hp, grouped_in_order.
  assert (Hne : forall k l, (forall p, p ∈ l -> (k, p) ∈ h_pieces h) -> concat_strings l = "" <-> l = []).
  { intros k l Hl. apply concat_non_empty. intros p Hin%Hl. by apply (h_pieces_non_empty h (k, p)). }
  assert (Hea : concat_strings a = "" <-> a = []) by (apply (Hne Reasoning); rewrite Hp; unfold in_order; set_solver).
  assert (Heb : concat_strings b = "" <-> b = []) by (apply (Hne Text); rewrite Hp; unfold in_order; set_solver).
  assert (Hec : concat_strings c = "" <-> c = []) by (apply (Hne Refusal); rewrite Hp; unfold in_order; set_solver).
  unfold text_blocks_of, joined. rewrite <- Hb, <- Hc, !filter_cons, filter_nil. unfold non_empty.
  rewrite <- (bool_decide_ext _ _ Hea), <- (bool_decide_ext _ _ Heb), <- (bool_decide_ext _ _ Hec).
  assert (Hrt : reasoning_text message ≠ Some "").
  { unfold reasoning_text, filter_some. destruct (or_else _ _) as [[]|]; done. }
  rewrite fmap_app. apply Forall2_app.
  - destruct (reasoning_text message) as [t|]; simpl in Ha; rewrite Ha.
    + rewrite bool_decide_eq_false_2 by congruence. repeat constructor.
    + rewrite bool_decide_eq_true_2 by done. constructor.
  - rewrite fmap_app. repeat case_bool_decide; simpl; repeat constructor.
Qed.

Lemma retold_uses finish calls :
  Forall2 same_block (call_view <$> List.filter (fun c => messages_writes c (truncated finish)) calls)
    (omap (tool_use_of_call finish) calls).
Proof.
  induction calls as [|c calls IH]; simpl; [constructor|]. unfold messages_writes at 1, tool_use_of_call at 1.
  destruct (function_call_arguments (call_arguments c)) as [input|] eqn:Hf; simpl.
  - constructor; [|exact IH]. simpl. rewrite Hf. simpl. eexists. split; [|done]. unfold same_input.
    unfold function_call_arguments in Hf. case_bool_decide; simplify_eq.
    + destruct (parse_json "{}") as [v|]; simpl; auto.
    + destruct (parse_json (call_arguments c)) as [v|] eqn:Hp; simpl in Hf; [|done]. case_match; simplify_eq.
      rewrite Hp. simpl. auto.
  - destruct (truncated finish); simpl; [exact IH|]. constructor; [|exact IH]. simpl. rewrite Hf. simpl.
    exists (JObject []). split; [by right|done].
Qed.

(** Adjusting the usage of a body leaves the rest of it alone. *)
Lemma get_normalized k response : k ≠ "usage" -> get k (normalize_reasoning_usage response) = get k response.
Proof.
  intros Hk. unfold normalize_reasoning_usage. destruct response; try done. simpl. rewrite obj_get_update_member.
  by rewrite bool_decide_eq_false_2 by congruence.
Qed.
Lemma usage_normalized response :
  get "usage" (normalize_reasoning_usage response) = normalize_reasoning_usage_value <$> get "usage" response.
Proof.
  unfold normalize_reasoning_usage. destruct response; try done. simpl. by rewrite obj_get_update_member, bool_decide_eq_true_2.
Qed.

(** What the whole message says, next to what a client read from the stream. *)
Definition agrees (rid : string) (whole : result string value) (v : View) : Prop :=
  match whole with
  | Ok m => exists reason usage content,
      get_str "id" m = Some rid /\ get "content" m = Some (JArray content) /\ get_str "stop_reason" m = Some reason /\
      get "usage" m = Some usage /\ vw_phase v = Stopped reason usage /\ vw_open v = None /\
      if bool_decide (vw_blocks v = []) then content = [text_block ""] else Forall2 same_block (vw_blocks v) content
  | Err _ => exists error, vw_phase v = Errored error
  end.
Lemma retold_agrees now response message h rid : retells response message h ->
  get_str "id" response = Some rid -> non_empty rid = true ->
  agrees rid (openai_to_anthropic_messages now (normalize_reasoning_usage response)) (view_of (concluded rid h)).
Proof.
  intros Hr Hid Hne. pose proof (retold_texts _ _ _ Hr) as Htexts. destruct (retold_calls _ _ _ rid Hr) as [Hcalls Hlen].
  destruct (rt_error _ _ _ Hr) as [He Hhe]. pose proof (rt_finish _ _ _ Hr) as Hfin.
  unfold openai_to_anthropic_messages, first_choice, messages_id, get_str. rewrite !get_normalized, usage_normalized by done.
  fold (get_str "id" response) (first_choice response). rewrite He, (rt_message _ _ _ Hr), Hid, Hne. cbn -[chat_finish filter].
  assert (Hf : chat_finish (first_choice response) = h_finish h) by (unfold chat_finish, h_finish; by rewrite Hfin).
  rewrite Hf. fold (text_blocks_of message). unfold view_of, phase_view, concluded, h_outcome, h_unusable, h_written. simpl.
  rewrite Hhe, (rt_answered _ _ _ Hr), Hlen, Hcalls. simpl. set (calls := chat_tool_calls _ rid).
  pose proof (retold_uses (h_finish h) calls) as Huses. set (uses := omap _ calls) in *.
  assert (Hn : bool_decide (length (message_tool_calls message) = 0) = bool_decide (message_tool_calls message = []))
    by (apply bool_decide_ext; by rewrite length_zero_iff_nil).
  rewrite Hn. destruct (_ && _ && _); [by eexists|].
  pose proof (Forall2_app Htexts Huses) as Hall. pose proof (Forall2_length _ _ _ Hall) as Hall_len.
  assert (Hb : bool_decide (length (List.filter (fun c => messages_writes c (truncated (h_finish h))) calls) = 0) = bool_decide (uses = [])).
  { apply bool_decide_ext. apply Forall2_length in Huses. rewrite length_fmap in Huses. rewrite Huses. apply length_zero_iff_nil. }
  do 3 eexists. split; [reflexivity|]. split; [reflexivity|]. split; [reflexivity|]. split; [reflexivity|].
  cbn [vw_phase vw_blocks vw_open]. unfold h_usage. rewrite (rt_usage _ _ _ Hr), Hb. split; [done|]. split; [done|].
  clear Hb Hn. case_bool_decide as Hbl.
  - assert (Hnil : text_blocks_of message ++ uses = []) by (apply length_zero_iff_nil; rewrite <- Hall_len; apply length_zero_iff_nil, Hbl).
    by rewrite Hnil.
  - rewrite bool_decide_eq_false_2; [done|]. intros Hx. destruct Hbl. apply length_zero_iff_nil. etrans; [exact Hall_len|]. by rewrite Hx.
Qed.

(** C30: One answer, whole or streamed. When the chunks of a chat stream retell a chat body (its
    reasoning, text and refusal in pieces, its tool calls in indexed pieces that may interleave,
    its finish reason and usage), a Messages client assembles from the bridged stream exactly
    the message that the conversion of the whole body would have sent: the same blocks with the
    same tool inputs, the same stop reason and the same usage; a body whose conversion is
    refused is a stream that ends in an error. The one difference is an empty answer, which is
    one empty text block as a whole and no block as a stream. *)
Theorem streamed_answer_is_whole_answer slot events fb hv response message rid now_secs now_millis :
  non_empty fb = true -> hears events [] false = (Ok tt, hv, true) ->
  retells response message (parse_chat_chunk <$> hv) ->
  get_str "id" response = Some rid -> response_id fb hv = rid -> non_empty rid = true ->
  exists s out v, cs_run events fb (stream_new (messages_new slot)) = Some (Ok tt, s, out) /\
    read_messages out = Some v /\
    agrees rid (transform_response now_secs now_millis Openai Messages response) v.
Proof.
  intros Hfb Hh Hr Hid Hrid Hne.
  assert (Hb : bridge_sound (client_read fb) events fb (messages_new slot))
    by (apply bridge_tells; [done..|]; intros hv' ended s out; apply between_read).
  destruct Hb as (r & s & out & Hrun & Hb). rewrite Hh in Hb. destruct Hb as (-> & (v & Hv & _ & ->) & _).
  exists s, out. eexists. split; [exact Hrun|]. split; [exact Hv|]. rewrite Hrid. by eapply retold_agrees.
Qed.
End Agreement.

Section Witness.
#[local] Existing Instances sample_json sample_sha sample_hex.
(** The whole body that [sample_stream] retells. *)
Definition sample_call : value :=
  JObject [("id", JString "t"); ("function", JObject [("name", JString "f"); ("arguments", JString "")])].
Definition sample_message : value :=
  JObject [("content", JString "Hello"); ("tool_calls", JArray [sample_call])].
Definition sample_whole : value :=
  JObject [("id", JString "c1");
    ("choices", JArray [JObject [("message", sample_message); ("finish_reason", JString "tool_calls")]])].
Definition sample_heard : list value := (hears sample_stream [] false).1.2.
Lemma sample_retells : retells sample_whole sample_message (parse_chat_chunk <$> sample_heard).
Proof.
  split.
  - reflexivity.
  - split; reflexivity.
  - vm_compute. reflexivity.
  - exists [], ["He"; "llo"], []. vm_compute. done.
  - exists (fun i => if (i =? 0)%Z then "t" else "").
    assert (Hd : h_deltas (parse_chat_chunk <$> sample_heard) = [mkDelta (Some 0%Z) "t" "f" ""]) by (vm_compute; reflexivity).
    assert (Hm : message_tool_calls sample_message = [sample_call]) by reflexivity.
    rewrite Hd, Hm. clear Hd Hm. split; [split|split].
    + intros d [->|Hn]%elem_of_cons; [|by apply elem_of_nil in Hn]. exists 0%Z. by split; [|right].
    + intros i j. destruct (Z.eqb_spec i 0), (Z.eqb_spec j 0); intros Hij; [right; congruence|discriminate|by left..].
    + intros i. split; [intros (d & [->|Hn]%elem_of_cons & Hi); [simpl in *; simplify_eq; lia|by apply elem_of_nil in Hn]|].
      simpl. intros Hi. exists (mkDelta (Some 0%Z) "t" "f" ""). split; [left|]. simpl. f_equal. lia.
    + intros [|i] call Hc; simpl in Hc; [injection Hc as <-; vm_compute; reflexivity|by rewrite lookup_nil in Hc].
  - intros call. assert (Hm : message_tool_calls sample_message = [sample_call]) by reflexivity. rewrite Hm. intros [->|Hn]%elem_of_cons; [reflexivity|by apply elem_of_nil in Hn].
  - vm_compute. reflexivity.
  - vm_compute. reflexivity.
Qed.
Lemma streamed_answer_is_whole_answer_witness : exists s out v,
  cs_run sample_stream "openai-1" (stream_new (messages_new None)) = Some (Ok tt, s, out) /\
  read_messages out = Some v /\ agrees "c1" (transform_response 0 0 Openai Messages sample_whole) v.
Proof.
  eapply (streamed_answer_is_whole_answer None sample_stream "openai-1" sample_heard sample_whole sample_message).
  - reflexivity.
  - vm_compute. reflexivity.
  - exact sample_retells.
  - reflexivity.
  - vm_compute. reflexivity.
  - reflexivity.
Defined.
End Witness.
