(* ===== verification/Pricing.v ===== *)
(** * Usage and cost (src/middleware/pricing.rs)

    What a request costs: the token counters of a usage report in the three shapes
    the gateway meets (chat, Messages and Responses), resolved to one convention
    and multiplied with per-token rates.  [rust_decimal] is a parameter: its
    parsing, conversions and checked operations, no law of which is needed here. *)
From Stdlib Require Import SpecFloat.
From S2P Require Import Prelude Text Json External Sample SseProtocol UpstreamErrors Images Audio Sanitize ToolMap Conversion.

Class Decimals := {
  Decimal : Type;
  decimal_zero : Decimal;
  from_str : string -> option Decimal;
  from_str_exact : string -> option Decimal;
  from_u64 : Z -> Decimal;
  from_i128 : Z -> option Decimal;
  checked_mul : Decimal -> Decimal -> option Decimal;
  checked_add : Decimal -> Decimal -> option Decimal;
  to_f64 : Decimal -> option spec_float;
  decimal_leb : Decimal -> Decimal -> bool;
}.

(** ** Resolving a usage report *)
Record ResolvedUsage : Type := mkResolved {
  ru_prompt : Z;
  ru_completion : Z;
  ru_cache_read : Z;
  ru_cache_creation : Z;
}.
Definition token_value (v : value) (key : string) : option Z :=
  field ← get key v; or_else (as_i64 field) (f64_as_i64 <$> as_f64 field).
Fixpoint token_field (usage : value) (keys : list string) : Z :=
  match keys with
  | [] => 0%Z
  | key :: keys' => match token_value usage key with Some n => n | None => token_field usage keys' end
  end.
Definition carries_another_cache_signal (usage : value) : bool :=
  bool_decide (is_Some (token_value usage "prompt_tokens")) ||
  bool_decide (is_Some (token_value usage "cache_read_input_tokens")) ||
  bool_decide (is_Some (token_value usage "cache_creation_input_tokens")) ||
  from_option is_object false (get "prompt_tokens_details" usage).
Definition responses_cached_tokens (usage : value) : option Z :=
  if carries_another_cache_signal usage then None
  else
    input ← token_value usage "input_tokens";
    cached ← get "input_tokens_details" usage ≫= fun details => token_value details "cached_tokens";
    if (0 <=? cached)%Z && (cached <=? input)%Z then Some cached else None.
Definition resolve_usage (usage : value) : ResolvedUsage :=
  let completion := token_field usage ["completion_tokens"; "output_tokens"] in
  let responses_cached := responses_cached_tokens usage in
  let cache_read :=
    default 0%Z (or_else (or_else (token_value usage "cache_read_input_tokens")
                            (get "prompt_tokens_details" usage ≫= fun d => token_value d "cached_tokens"))
                   responses_cached) in
  let cache_creation := default 0%Z (token_value usage "cache_creation_input_tokens") in
  let input := default 0%Z (token_value usage "input_tokens") in
  let prompt := match token_value usage "prompt_tokens" with
                | Some prompt_tokens => prompt_tokens
                | None => if bool_decide (is_Some responses_cached) then input else (input + cache_read + cache_creation)%Z
                end in
  mkResolved prompt completion cache_read cache_creation.

(** ** Rates and costs *)
Section Cost.
Context {DC : Decimals} {SJ : SerdeJson}.

Definition rate (pricing : value) (key : string) : option Decimal :=
  match get key pricing with
  | Some (JString s) => if non_empty s then from_str s else None
  | Some (JNumber n) => from_str (number_to_string n)
  | _ => None
  end.
Definition add_cost (total : option Decimal) (charge : Z * Decimal) : option Decimal :=
  t ← total; n ← from_i128 charge.1; c ← checked_mul n charge.2; checked_add t c.
(** What is charged for, with the rate of each kind of token. *)
Definition charges (usage pricing : value) : list (Z * Decimal) :=
  let resolved := resolve_usage usage in
  let input_rate := default decimal_zero (rate pricing "inputCostPerToken") in
  let cache_read_rate := default input_rate (rate pricing "cacheReadCostPerToken") in
  let cache_creation_rate := default input_rate (rate pricing "cacheCreationCostPerToken") in
  let output_rate := default decimal_zero (rate pricing "outputCostPerToken") in
  let uncached_input := Z.max (ru_prompt resolved - ru_cache_read resolved - ru_cache_creation resolved) 0 in
  [(uncached_input, input_rate); (ru_cache_read resolved, cache_read_rate);
   (ru_cache_creation resolved, cache_creation_rate); (ru_completion resolved, output_rate)].
Definition token_cost (usage pricing : value) : option Decimal :=
  foldl add_cost (Some decimal_zero) (charges usage pricing).
Definition compute_cost (usage pricing : value) : spec_float :=
  default f64_zero (token_cost usage pricing ≫= to_f64).

(** [value.split_once('.')]. *)
Fixpoint split_point (l : bytes) : option (bytes * bytes) :=
  match l with
  | [] => None
  | b :: l' => if bool_decide (b = u8 46) then Some ([], l')
               else (fun p : bytes * bytes => (b :: p.1, p.2)) <$> split_point l'
  end.
Definition unit_price (v : value) : option Decimal :=
  text ← as_str v;
  let point := split_point (as_bytes text) in
  let '(integer, fraction) := default (as_bytes text, []) point in
  if bool_decide (integer = []) || negb (forallb is_ascii_digit integer) ||
     (bool_decide (is_Some point) && bool_decide (fraction = [])) || (18 <? length fraction) ||
     negb (forallb is_ascii_digit fraction)
  then None
  else r ← from_str_exact text; if decimal_leb r (from_u64 1000000) then Some r else None.
Definition compute_image_cost (usage : option value) (pricing : value) (images : ImageUsage) : option spec_float :=
  let unit_value := match get "imageCostPerImage" pricing with
                    | Some (JObject rates) =>
                        or_else (or_else (obj_get (iu_size images +:+ "|" +:+ iu_quality images) rates)
                                   (obj_get (iu_size images) rates)) (obj_get "default" rates)
                    | v => v
                    end in
  let unit := default decimal_zero (unit_value ≫= unit_price) in
  tokens ← match usage with Some usage => token_cost usage pricing | None => Some decimal_zero end;
  images ← from_i128 (Z.of_nat (iu_count images)) ≫= fun count => checked_mul count unit;
  checked_add images tokens ≫= to_f64.
Definition compute_audio_cost (pricing : value) (audio : AudioUsage) : option spec_float :=
  unit ← match get "audioCostPerSecond" pricing with Some v => unit_price v | None => Some decimal_zero end;
  checked_mul (from_u64 (au_seconds audio)) unit ≫= to_f64.

(** [f.fract() == 0.0] of a finite number. *)
Definition is_integral (f : spec_float) : bool :=
  match f with
  | S754_zero _ => true
  | S754_finite _ m e => (0 <=? e)%Z || (Z.pos m mod 2 ^ (- e) =? 0)%Z
  | _ => false
  end.
Definition cost_to_json (cost : spec_float) : value :=
  if is_finite cost && is_integral cost && (Z.abs (f64_trunc cost) <? 2 ^ 53)%Z then json_i64 (f64_as_i64 cost)
  else if is_finite cost then JNumber (Float cost) else JNumber (PosInt 0).
End Cost.

(** ** Small integers as [f64] *)
Lemma digits_shift_pos n m : Z.pos (digits2_pos (Pos.iter xO m n)) = (Z.pos (digits2_pos m) + Z.pos n)%Z.
Proof.
  induction n as [|n IH] using Pos.peano_ind; [simpl; lia|].
  rewrite Pos.iter_succ. cbn [digits2_pos]. rewrite !Pos2Z.inj_succ, IH. lia.
Qed.
Lemma value_shift_pos n m : Z.pos (Pos.iter xO m n) = (Z.pos m * 2 ^ Z.pos n)%Z.
Proof.
  induction n as [|n IH] using Pos.peano_ind; [simpl; lia|].
  rewrite Pos.iter_succ, Pos2Z.inj_xO, IH, Pos2Z.inj_succ, Z.pow_succ_r by lia. lia.
Qed.
Lemma digits_bound m : (Z.pos m < 2 ^ 53)%Z -> (Z.pos (digits2_pos m) <= 53)%Z.
Proof.
  assert (Hs : digits2_pos m = Pos.size m) by (induction m; simpl; congruence). rewrite Hs. intros Hm.
  pose proof (Pos.size_le m) as Hle. apply Pos2Z.pos_le_pos in Hle. rewrite Pos2Z.inj_pow, Pos2Z.inj_xO in Hle.
  assert ((2 ^ Z.pos (Pos.size m) < 2 ^ 54)%Z) as Hlt
    by (eapply Z.le_lt_trans; [exact Hle|]; change (2 ^ 54)%Z with (2 * 2 ^ 53)%Z; lia).
  apply Z.pow_lt_mono_r_iff in Hlt; lia.
Qed.
(** No bit is rounded away from a number that has 53 of them. *)
Lemma binary_round_exact m : (Z.pos (digits2_pos m) <= 53)%Z -> exists mz ez,
  binary_round 53 1024 false m 0 = S754_finite false mz ez /\ (ez <= 0)%Z /\ Z.pos mz = (Z.pos m * 2 ^ (- ez))%Z.
Proof.
  intros Hd. set (d := Z.pos (digits2_pos m)) in *.
  assert (Hal : exists mz ez, shl_align m 0 (fexp 53 1024 (d + 0)) = (mz, ez) /\ (ez = d - 53)%Z /\
            Z.pos (digits2_pos mz) = 53%Z /\ Z.pos mz = (Z.pos m * 2 ^ (- ez))%Z).
  { assert (Hfe : fexp 53 1024 (d + 0) = (d - 53)%Z) by (unfold fexp, emin; lia). rewrite Hfe. unfold shl_align.
    rewrite Z.sub_0_r. destruct (d - 53)%Z as [|n|n] eqn:He; [|lia|].
    - exists m, 0%Z. repeat split; [fold d; lia|simpl; lia].
    - exists (Pos.iter xO m n), (Z.neg n). repeat split; [rewrite digits_shift_pos; fold d; lia|apply value_shift_pos]. }
  destruct Hal as (mz & ez & Hal & He & Hdz & Hv). exists mz, ez. split; [|split; [lia|done]].
  unfold binary_round. fold d. rewrite Hal. unfold binary_round_aux, shr_fexp. cbn [Zdigits2 shr_record_of_loc].
  rewrite Hdz. assert (Hf : (fexp 53 1024 (53 + ez) - ez = 0)%Z) by (unfold fexp, emin; lia). rewrite Hf.
  cbn [shr shr_m loc_of_shr_record round_nearest_even Zdigits2]. rewrite Hdz, Hf. cbn [shr shr_m].
  rewrite (proj2 (Z.leb_le _ _)) by lia. done.
Qed.
Lemma f64_small z : (0 <= z < 2 ^ 53)%Z ->
  is_finite (f64_of_Z z) = true /\ SFleb f64_zero (f64_of_Z z) = true /\ f64_as_i64 (f64_of_Z z) = z.
Proof.
  intros Hz. destruct z as [|m|]; [done| |lia].
  destruct (binary_round_exact m (digits_bound m ltac:(lia))) as (mz & ez & Hr & He & Hv).
  unfold f64_of_Z, binary_normalize. rewrite Hr. split; [done|]. split; [done|].
  unfold f64_as_i64, f64_trunc. assert (Ht : (if (0 <=? ez)%Z then Z.pos mz * 2 ^ ez else Z.quot (Z.pos mz) (2 ^ - ez))%Z = Z.pos m).
  { destruct (Z.leb_spec 0 ez).
    - assert (ez = 0%Z) as -> by lia. lia.
    - rewrite Hv, Z.quot_mul; [done|]. apply Z.pow_nonzero; lia. }
  rewrite Ht. unfold i64_min, i64_max. lia.
Qed.

(** ** A usage report in another shape *)
(** A counter that is absent, or an integer that an [f64] holds exactly. *)
Definition stated (v : option value) (n : option Z) : Prop :=
  match n with None => v = None | Some z => v = Some (json_i64 z) /\ (0 <= z < 2 ^ 53)%Z end.
Lemma as_i64_json z : (i64_min <= z <= i64_max)%Z -> as_i64 (json_i64 z) = Some z.
Proof.
  intros Hz. unfold json_i64. simpl. destruct (Z.leb_spec 0 z); [|done]. by rewrite (proj2 (Z.leb_le _ _)) by lia.
Qed.
Lemma token_value_json z k v : get k v = Some (json_i64 z) -> (i64_min <= z <= i64_max)%Z -> token_value v k = Some z.
Proof. intros Hk Hz. unfold token_value. rewrite Hk. cbn [mbind option_bind]. by rewrite as_i64_json. Qed.
Lemma token_value_absent k v : get k v = None -> token_value v k = None.
Proof. intros Hk. unfold token_value. by rewrite Hk. Qed.
Lemma stated_token_value k v n : stated (get k v) n -> token_value v k = n.
Proof.
  destruct n as [z|]; simpl; [|apply token_value_absent]. intros [Hv Hz]. apply token_value_json; [done|].
  unfold i64_min, i64_max. lia.
Qed.
Lemma stated_counter v n : stated v n -> counter v = n.
Proof.
  destruct n as [z|]; simpl; [|by intros ->]. intros [-> Hz]. destruct (f64_small z Hz) as (Hf & Hl & Hi).
  unfold counter, json_i64. rewrite (proj2 (Z.leb_le 0 z)) by lia. simpl. by rewrite Hf, Hl, Hi.
Qed.
Lemma stated_i64_field k v n : stated (get k v) n -> i64_field v k = default 0%Z n.
Proof.
  intros Hs%stated_token_value. unfold token_value in Hs. unfold i64_field. destruct (get k v); simpl in *; by rewrite <- Hs.
Qed.
Lemma stated_range v n : stated v n -> (0 <= default 0 n < 2 ^ 53)%Z.
Proof. destruct n; simpl; [by intros []|lia]. Qed.
Lemma i64_wrap_id z : (i64_min <= z <= i64_max)%Z -> i64_wrap z = z.
Proof. intros Hz. unfold i64_wrap, i64_min, i64_max in *. rewrite Z.mod_small; lia. Qed.

(** The counters of a chat usage report: the prompt with the cached tokens in it. *)
Record chat_counts (u : value) (prompt completion : Z) (direct detail creation write : option Z) : Prop := {
  cc_prompt : stated (get "prompt_tokens" u) (Some prompt);
  cc_completion : stated (get "completion_tokens" u) (Some completion);
  cc_read : stated (get "cache_read_input_tokens" u) direct;
  cc_detail : stated (get "prompt_tokens_details" u ≫= get "cached_tokens") detail;
  cc_creation : stated (get "cache_creation_input_tokens" u) creation;
  cc_write : stated (get "prompt_tokens_details" u ≫= get "cache_write_tokens") write;
  cc_inside : (default 0 (or_else direct detail) + default 0 (or_else creation write) <= prompt)%Z;
}.
(** Those of a Messages report: the input beside the cached tokens. *)
Record messages_counts (u : value) (input output : Z) (read creation : option Z) : Prop := {
  mc_input : stated (get "input_tokens" u) (Some input);
  mc_output : stated (get "output_tokens" u) (Some output);
  mc_read : stated (get "cache_read_input_tokens" u) read;
  mc_creation : stated (get "cache_creation_input_tokens" u) creation;
  mc_plain : Forall (fun k => get k u = None)
    ["prompt_tokens"; "completion_tokens"; "prompt_tokens_details"; "input_tokens_details"];
}.

Lemma resolve_chat u p o direct detail creation write : chat_counts u p o direct detail creation write ->
  resolve_usage u = mkResolved p o (default 0 (or_else direct detail))%Z (default 0 creation)%Z.
Proof.
  intros [Hp Ho Hr Hd Hc _ _]. unfold resolve_usage, responses_cached_tokens, carries_another_cache_signal, token_field.
  rewrite (stated_token_value _ _ _ Hp), (stated_token_value _ _ _ Ho), (stated_token_value _ _ _ Hr), (stated_token_value _ _ _ Hc).
  rewrite bool_decide_eq_true_2 by eauto. cbn [orb].
  assert (Hdv : (get "prompt_tokens_details" u ≫= fun d => token_value d "cached_tokens") = detail).
  { destruct (get "prompt_tokens_details" u) as [d|]; simpl in *; [by apply stated_token_value|]. destruct detail; [by destruct Hd|done]. }
  rewrite Hdv. unfold or_else. by destruct direct, detail.
Qed.
Lemma resolve_messages u i o read creation : messages_counts u i o read creation ->
  resolve_usage u = mkResolved (i + default 0 read + default 0 creation)%Z o (default 0 read)%Z (default 0 creation)%Z.
Proof.
  intros [Hi Ho Hr Hc Hn]. rewrite !Forall_cons in Hn. destruct Hn as (Hn1 & Hn2 & Hn3 & Hn4 & _).
  unfold resolve_usage, responses_cached_tokens, token_field.
  rewrite (stated_token_value _ _ _ Hi), (stated_token_value _ _ _ Ho), (stated_token_value _ _ _ Hr), (stated_token_value _ _ _ Hc).
  rewrite (token_value_absent _ _ Hn1), (token_value_absent _ _ Hn2), Hn3, Hn4. simpl.
  assert (Hrc : (if carries_another_cache_signal u then None else @None Z) = None) by by destruct (carries_another_cache_signal u).
  rewrite Hrc. unfold or_else. by destruct read.
Qed.

Lemma chat_cache_stated u p o direct detail creation write : chat_counts u p o direct detail creation write ->
  chat_cache_tokens u = (or_else direct detail, or_else creation write).
Proof.
  intros [Hp Ho Hr Hd Hc Hw _]. unfold chat_cache_tokens.
  rewrite (stated_counter _ _ Hr), (stated_counter _ _ Hd), (stated_counter _ _ Hc), (stated_counter _ _ Hw). done.
Qed.
Lemma stated_or v w a b : stated v a -> stated w b -> (0 <= default 0 (or_else a b) < 2 ^ 53)%Z.
Proof. intros Ha%stated_range Hb%stated_range. by destruct a. Qed.

Lemma messages_usage_counts u p o direct detail creation write : chat_counts u p o direct detail creation write ->
  messages_counts (messages_usage (Some u)) (p - default 0 (or_else direct detail) - default 0 (or_else creation write))%Z o
    (or_else direct detail) (or_else creation write).
Proof.
  intros Hu. pose proof Hu as [Hp Ho Hr Hd Hc Hw Hin]. unfold messages_usage. simpl json_null_or.
  rewrite (chat_cache_stated _ _ _ _ _ _ _ Hu), (stated_i64_field _ _ _ Hp), (stated_i64_field _ _ _ Ho).
  pose proof (stated_or _ _ _ _ Hr Hd) as Hcr. pose proof (stated_or _ _ _ _ Hc Hw) as Hcc. pose proof (stated_range _ _ Hp) as Hpr.
  cbn [default from_option id] in *. unfold anthropic_usage, i64_sub, i64_add.
  set (read := or_else direct detail) in *. set (written := or_else creation write) in *. rewrite (i64_wrap_id (_ + _)) by (unfold i64_min, i64_max; lia).
  rewrite i64_wrap_id by (unfold i64_min, i64_max; lia). rewrite Z.max_l by lia. rewrite <- Z.sub_add_distr.
  destruct read as [r|], written as [c|]; simpl in Hcr, Hcc, Hin |- *;
    (split; [split; [reflexivity|simpl; lia]|split; [reflexivity|apply (stated_range _ _ Ho)]|..|repeat constructor];
     first [reflexivity|split; [reflexivity|lia]]).
Qed.
Lemma openai_usage_counts u i o read creation : messages_counts u i o read creation ->
  (i + default 0 read + default 0 creation < 2 ^ 53)%Z -> (o < 2 ^ 53)%Z ->
  resolve_usage (openai_usage u) = resolve_usage u.
Proof.
  intros Hu Hfit Hof. rewrite (resolve_messages _ _ _ _ _ Hu). pose proof Hu as [Hi Ho Hr Hc _].
  unfold openai_usage. rewrite (stated_i64_field _ _ _ Hi), (stated_i64_field _ _ _ Ho), (stated_i64_field _ _ _ Hr), (stated_i64_field _ _ _ Hc).
  pose proof (stated_range _ _ Hi) as Hir. pose proof (stated_range _ _ Ho) as Hor. pose proof (stated_range _ _ Hr) as Hrr.
  pose proof (stated_range _ _ Hc) as Hcr. cbn [default from_option id] in *.
  unfold i64_add. rewrite !i64_wrap_id by (rewrite ?i64_wrap_id; unfold i64_min, i64_max; rewrite ?i64_wrap_id; unfold i64_min, i64_max; lia).
  replace (i + default 0 creation + default 0 read)%Z with (i + default 0 read + default 0 creation)%Z by lia.
  set (extra := if _ || _ then _ else _). set (u' := JObject _).
  assert (He : exists direct created, chat_counts u' (i + default 0 read + default 0 creation)%Z o direct None created None /\
            default 0%Z direct = default 0%Z read /\ default 0%Z created = default 0%Z creation).
  { unfold u', extra. destruct (negb _ || negb _) eqn:Hz.
    - exists read, creation. split; [|done].
      assert (Hm : stated (get "cache_read_input_tokens" u) read /\ stated (get "cache_creation_input_tokens" u) creation) by done.
      destruct read as [r|], creation as [c|]; simpl in Hm; destruct Hm as [Hm1 Hm2];
        rewrite ?Hm1, ?Hm2, ?(proj1 Hm1), ?(proj1 Hm2); simpl in *;
        (split; simpl; first [done|split; [done|lia]|lia]).
    - apply orb_false_elim in Hz as [Hz1%negb_false_iff%Z.eqb_eq Hz2%negb_false_iff%Z.eqb_eq].
      exists None, None. split; [|by rewrite Hz1, Hz2]. split; simpl; first [done|split; [done|lia]|lia]. }
  destruct He as (direct & created & Hcounts & Hd & Hcd). rewrite (resolve_chat _ _ _ _ _ _ _ Hcounts), Hcd, <- Hd.
  f_equal. by destruct direct.
Qed.
Lemma responses_usage_resolved u p o direct detail creation write : chat_counts u p o direct detail creation write -> default 0%Z creation = 0%Z ->
  resolve_usage (responses_usage (Some u)) = resolve_usage u.
Proof.
  intros Hu H0. pose proof Hu as [Hp Ho Hr Hd Hc Hw Hin]. rewrite (resolve_chat _ _ _ _ _ _ _ Hu), H0.
  pose proof (stated_or _ _ _ _ Hr Hd) as Hcr. pose proof (stated_range _ _ Hp) as Hpr. pose proof (stated_range _ _ Ho) as Hor.
  pose proof (stated_or _ _ _ _ Hc Hw) as Hcw.
  cbn [default from_option id] in *. set (read := default 0%Z (or_else direct detail)) in *.
  unfold responses_usage. cbn [json_null_or default from_option id].
  rewrite (chat_cache_stated _ _ _ _ _ _ _ Hu), (stated_i64_field _ _ _ Hp), (stated_i64_field _ _ _ Ho). cbn [fst default from_option id].
  fold read. set (u' := JObject _).
  assert (Hi' : token_value u' "input_tokens" = Some p) by (apply token_value_json; [done|unfold i64_min, i64_max; lia]).
  assert (Ho' : token_value u' "output_tokens" = Some o) by (apply token_value_json; [done|unfold i64_min, i64_max; lia]).
  assert (Hd' : (get "input_tokens_details" u' ≫= fun d => token_value d "cached_tokens") = Some read)
    by (unfold u'; simpl; apply token_value_json; [done|unfold i64_min, i64_max; lia]).
  assert (Hrc : responses_cached_tokens u' = Some read).
  { unfold responses_cached_tokens, carries_another_cache_signal. rewrite Hi', Hd'. simpl.
    by rewrite (proj2 (Z.leb_le _ _)), (proj2 (Z.leb_le read p)) by lia. }
  unfold resolve_usage. rewrite Hrc, Hi'. unfold token_field. rewrite Ho'. reflexivity.
Qed.

Section Kept.
Context {DC : Decimals} {SJ : SerdeJson}.
Lemma charges_resolved u u' pricing :
  let r := resolve_usage u in let r' := resolve_usage u' in
  (ru_prompt r - ru_cache_read r - ru_cache_creation r = ru_prompt r' - ru_cache_read r' - ru_cache_creation r')%Z ->
  ru_cache_read r = ru_cache_read r' -> ru_cache_creation r = ru_cache_creation r' -> ru_completion r = ru_completion r' ->
  charges u pricing = charges u' pricing.
Proof. intros r r' Hp Hr Hc Ho. unfold charges. fold r r'. by rewrite Hp, Hr, Hc, Ho. Qed.

(** The usage with the cache writes that only its details state declared under the
    name by which they are charged. *)
Definition declaring_writes (creation write : option Z) (u : value) : value :=
  match creation, write, u with
  | None, Some w, JObject m => JObject (obj_insert "cache_creation_input_tokens" (json_i64 w) m)
  | _, _, _ => u
  end.
Lemma declaring_writes_counts u p o direct detail creation write : chat_counts u p o direct detail creation write ->
  chat_counts (declaring_writes creation write u) p o direct detail (or_else creation write) write.
Proof.
  intros [Hp Ho Hr Hd Hc Hw Hi]. destruct creation as [c|]; [done|]. destruct write as [w|]; [|done].
  destruct u as [| | | | |m]; try by destruct Hp. unfold declaring_writes. cbn [get] in *.
  pose proof (stated_range _ _ Hw) as Hwr. split; cbn [get]; rewrite ?obj_get_insert; simpl; try done.
Qed.

(** C31: What a request costs does not depend on the shape its usage is reported in.
    For integer counters that an [f64] holds, with the cached tokens inside the prompt, the
    usage of a chat answer is charged as the usage a Responses client is shown for it when it
    declares no tokens written to the cache; and as the usage a Messages client is shown, up
    to one case: cache writes stated in [prompt_tokens_details.cache_write_tokens] alone are
    not charged as writes on the chat answer, while the Messages usage costs what the chat
    usage would with those writes declared.  The usage of an Anthropic answer is charged as
    the chat usage made of it, though the one counts cached tokens beside the input and the
    other inside the prompt. *)
Theorem usage_conversion_keeps_cost pricing :
  (forall u p o direct detail creation write, chat_counts u p o direct detail creation write ->
     token_cost (messages_usage (Some u)) pricing = token_cost (declaring_writes creation write u) pricing /\
     (default 0%Z creation = 0%Z -> token_cost (responses_usage (Some u)) pricing = token_cost u pricing)) /\
  (forall u i o read creation, messages_counts u i o read creation ->
     (i + default 0 read + default 0 creation < 2 ^ 53)%Z -> token_cost (openai_usage u) pricing = token_cost u pricing).
Proof.
  unfold token_cost. split.
  - intros u p o direct detail creation write Hu. split.
    + f_equal. apply charges_resolved; rewrite (resolve_chat _ _ _ _ _ _ _ (declaring_writes_counts _ _ _ _ _ _ _ Hu)),
        (resolve_messages _ _ _ _ _ (messages_usage_counts _ _ _ _ _ _ _ Hu)); simpl; lia.
    + intros H0. f_equal. by apply charges_resolved; rewrite (responses_usage_resolved _ _ _ _ _ _ _ Hu H0).
  - intros u i o read creation Hu Hfit. f_equal.
    assert (Ho : (o < 2 ^ 53)%Z) by apply (stated_range _ _ (mc_output _ _ _ _ _ Hu)).
    by apply charges_resolved; rewrite (openai_usage_counts _ _ _ _ _ Hu Hfit Ho).
Qed.
End Kept.

Section Witness.
#[local] Existing Instance sample_json.
(** Whole-number amounts. *)
#[local] Instance sample_decimals : Decimals := {|
  Decimal := Z;
  decimal_zero := 0%Z;
  from_str := fun s => parse_uint u64_max (as_bytes s);
  from_str_exact := fun s => parse_uint u64_max (as_bytes s);
  from_u64 := fun z => z;
  from_i128 := Some;
  checked_mul := fun a b => Some (a * b)%Z;
  checked_add := fun a b => Some (a + b)%Z;
  to_f64 := fun z => Some (f64_of_Z z);
  decimal_leb := Z.leb;
|}.
Definition sample_chat_usage : value :=
  JObject [("prompt_tokens", json_i64 10); ("completion_tokens", json_i64 5);
           ("prompt_tokens_details", JObject [("cached_tokens", json_i64 4)])].
Definition sample_pricing : value :=
  JObject [("inputCostPerToken", JString "3"); ("outputCostPerToken", JString "7"); ("cacheReadCostPerToken", JString "1")].
(** The same answer, which also wrote three tokens to the cache and says so in its details only. *)
Definition sample_writing_usage : value :=
  JObject [("prompt_tokens", json_i64 10); ("completion_tokens", json_i64 5);
           ("prompt_tokens_details", JObject [("cached_tokens", json_i64 4); ("cache_write_tokens", json_i64 3)])].
Definition sample_write_pricing : value :=
  JObject [("inputCostPerToken", JString "3"); ("outputCostPerToken", JString "7"); ("cacheReadCostPerToken", JString "1");
           ("cacheCreationCostPerToken", JString "5")].
Lemma usage_conversion_keeps_cost_witness :
  token_cost (messages_usage (Some sample_chat_usage)) sample_pricing = Some 57%Z /\
  token_cost (responses_usage (Some sample_chat_usage)) sample_pricing = Some 57%Z /\
  token_cost (openai_usage (messages_usage (Some sample_chat_usage))) sample_pricing = Some 57%Z /\
  token_cost sample_writing_usage sample_write_pricing = Some 57%Z /\
  token_cost (messages_usage (Some sample_writing_usage)) sample_write_pricing = Some 63%Z.
Proof.
  destruct (usage_conversion_keeps_cost sample_pricing) as [Hchat Hmessages].
  destruct (Hchat sample_chat_usage 10 5 None (Some 4) None None)%Z as [Hm Hr]; [split; first [split; [reflexivity|lia]|reflexivity|simpl; lia]|].
  rewrite Hm, (Hr eq_refl). split; [vm_compute; reflexivity|]. split; [vm_compute; reflexivity|]. split.
  - rewrite (Hmessages _ 6 5 (Some 4) None)%Z; [rewrite Hm; vm_compute; reflexivity|apply (messages_usage_counts sample_chat_usage 10 5 None (Some 4) None None)%Z|reflexivity].
    split; first [split; [reflexivity|lia]|reflexivity|simpl; lia].
  - split; [vm_compute; reflexivity|].
    rewrite (proj1 (proj1 (usage_conversion_keeps_cost sample_write_pricing) sample_writing_usage 10 5 None (Some 4) None (Some 3) ltac:(split; first [split; [reflexivity|lia]|reflexivity|simpl; lia])))%Z.
    vm_compute; reflexivity.
Defined.
End Witness.
