(* ===== verification/Metering.v ===== *)
(** * Metering a stream (src/middleware/sse.rs)

    [MeterStream] sits between the transformed stream and the receipt finalizer: it
    reads usage off the lines that pass, shows the client what a request costs,
    decides how the stream ended, and reports that once.  [KeepAliveStream] adds
    comments while nothing flows.  What the code reads from outside at the time of a
    call (the clock, the abort flag, the slot a bridge leaves its usage in, whether a
    runtime is there to send the report) comes with each reply of the inner stream
    as a [Moment]. *)
From Stdlib Require Import SpecFloat.
From S2P Require Import Prelude Text Json External Sample Errors SseProtocol UpstreamErrors Images Audio Sanitize SseFraming ToolMap Conversion EventStream SseTransform Pricing.

(** ** Failures and reports (src/middleware/types.rs) *)
Inductive ErrorSource : Type := SourceControl | SourceUpstream | SourceGateway.
Inductive ErrorClass : Type :=
| ControlDenied
| ControlUnavailable
| ModelNotFound
| RequestShapingFailed
| ClassNoEligibleAttestedRoute
| GatewayCapacity
| ClassKeysetExpired
| UpstreamHttpError
| UpstreamQuotaExhausted
| UpstreamCapacity
| UpstreamImageFetchFailed
| UpstreamTimeout
| UpstreamTransport
| UpstreamChannelBindingMismatch
| UpstreamVerificationFailed
| UpstreamMalformedResponse
| UpstreamResponseFailed
| StreamInbandError
| StreamTruncated
| StreamLineOverflow
| ClientDisconnected
| E2eeFailed
| ReceiptFailed
| DownstreamFinalizerFailed
| InternalError.
#[global] Instance ErrorSource_eq_dec : EqDecision ErrorSource.
Proof. solve_decision. Defined.
#[global] Instance ErrorClass_eq_dec : EqDecision ErrorClass.
Proof. solve_decision. Defined.

Definition upstream_error_class (err : UpstreamError) : ErrorClass :=
  match err with
  | Routing _ => InternalError
  | Errors.InvalidRequest _ => RequestShapingFailed
  | Transport _ | ResponseTooLarge => UpstreamTransport
  | Timeout _ => UpstreamTimeout
  | ChannelBindingMismatch _ => UpstreamChannelBindingMismatch
  | UpstreamStatus _ => UpstreamHttpError
  end.
Definition error_class (err : ServiceError) : ErrorClass :=
  match err with
  | EarlyResponseKeysetExpired => ClassKeysetExpired
  | UpstreamVerification (NoEligibleAttestedRoute _ | NoEligibleAttestedSession _) => ClassNoEligibleAttestedRoute
  | UpstreamVerification (NoVerifierResult | VerifierFailed _) => UpstreamVerificationFailed
  | ServiceUpstream upstream => upstream_error_class upstream
  | ServiceE2ee _ => E2eeFailed
  | ServiceReceipt _ | NoReceiptKey => ReceiptFailed
  | TestKeysInProduction | InvalidSourceProvenance | InvalidAttestedSessionTtl | KeysetError _ | ServiceInvalidNonce _
  | ServiceKey _ | AdmissionInvariant _ | SessionStoreError _ | MetricsError _ | DownstreamTlsDomainMissing
  | DownstreamTlsDomainUnknown _ => InternalError
  end.

Inductive SpendMode : Type := Regular | Subscription | SubscriptionOverflow.
Inductive SessionKind : Type := Explicit | Inferred.
Record OrganizationScope : Type := mkScope { organization_id : Z; workspace_id : Z }.
Record TenantIdentity : Type := mkTenant { user_id : option Z; organization : option OrganizationScope }.

Record PostReport : Type := mkPost {
  pr_request_id : string;
  pr_endpoint : string;
  pr_status : Z;
  pr_duration_ms : Z;
  pr_ttft_ms : option Z;
  pr_is_streaming : option bool;
  pr_attempt_index : option Z;
  pr_selected_route_id : option string;
  pr_request_model : string;
  pr_usage : option value;
  pr_images : option ImageUsage;
  pr_audio : option AudioUsage;
  pr_pricing : option value;
  pr_spend_mode : option SpendMode;
  pr_tenant : TenantIdentity;
  pr_virtual_key_id : option Z;
  pr_error_source : option ErrorSource;
  pr_error_message : option ErrorClass;
  pr_prefix_hash : option string;
  pr_session_kind : option SessionKind;
}.

(** ** How a stream ended *)
Inductive StreamOutcome : Type := Completed | StreamFailed | ClientClosed.
#[global] Instance StreamOutcome_eq_dec : EqDecision StreamOutcome.
Proof. solve_decision. Defined.
Definition metered_status (outcome : StreamOutcome) (upstream_status failure_status : Z) : Z :=
  match outcome with ClientClosed => 499%Z | StreamFailed => failure_status | Completed => upstream_status end.
Record StreamFailure : Type := mkFailure {
  sf_status : Z;
  sf_class : option ErrorClass;
  sf_source : option ErrorSource;
}.
Definition failure_default : StreamFailure := mkFailure 502 None None.
Definition failure_from_error (err : ServiceError) : StreamFailure :=
  let '(status, source) :=
    match err with
    | ServiceUpstream (Timeout _) => (504%Z, None)
    | ServiceUpstream _ => (502%Z, None)
    | _ => (502%Z, Some SourceGateway)
    end in
  mkFailure status (Some (error_class err)) source.
(** [self.failure.class.get_or_insert(class)]. *)
Definition or_class (class : ErrorClass) (f : StreamFailure) : StreamFailure :=
  mkFailure (sf_status f) (Some (default class (sf_class f))) (sf_source f).

(** What the code reads from outside during a call. *)
Record Moment : Type := mkMoment {
  at_elapsed_ms : Z;
  at_upstream_usage : option value;
  at_downstream_abort : bool;
  at_in_runtime : bool;
}.

Record StreamReport : Type := mkStreamReport {
  sr_request_id : string;
  sr_endpoint : string;
  sr_request_model : string;
  sr_pricing : option value;
  sr_spend_mode : option SpendMode;
  sr_tenant : TenantIdentity;
  sr_virtual_key_id : option Z;
  sr_selected_route_id : option string;
  sr_attempt_index : Z;
  sr_upstream_status : Z;
  sr_prefix_hash : option string;
  sr_session_kind : option SessionKind;
}.
(** The report that is sent; it goes nowhere without a runtime. *)
Definition report_settle (r : StreamReport) (at_ : Moment) (outcome : StreamOutcome) (usage : option value)
    (ttft_ms : option Z) (failure : StreamFailure) : list PostReport :=
  let downstream := bool_decide (outcome = StreamFailed) && at_downstream_abort at_ in
  let '(error_source, error_message) :=
    if downstream then (Some SourceGateway, Some DownstreamFinalizerFailed)
    else if bool_decide (outcome = StreamFailed) then (sf_source failure, sf_class failure)
    else (None, None) in
  let report :=
    mkPost (sr_request_id r) (sr_endpoint r) (metered_status outcome (sr_upstream_status r) (sf_status failure))
      (at_elapsed_ms at_) ttft_ms (Some true) (Some (sr_attempt_index r)) (sr_selected_route_id r) (sr_request_model r)
      usage None None (sr_pricing r) (sr_spend_mode r) (sr_tenant r) (sr_virtual_key_id r) error_source error_message
      (sr_prefix_hash r) (sr_session_kind r) in
  if at_in_runtime at_ then [report] else [].

(** ** The lines of a stream *)
(** What the meter knows from the lines it has read. *)
Record LineState : Type := mkLines {
  ls_last_usage : option value;
  ls_start_usage : option value;
  ls_ttft_ms : option Z;
  ls_saw_error : bool;
  ls_failure : StreamFailure;
}.
Definition lines_new : LineState := mkLines None None None false failure_default.
Definition set_last_usage (u : option value) (s : LineState) : LineState :=
  mkLines u (ls_start_usage s) (ls_ttft_ms s) (ls_saw_error s) (ls_failure s).
Definition set_start_usage (u : option value) (s : LineState) : LineState :=
  mkLines (ls_last_usage s) u (ls_ttft_ms s) (ls_saw_error s) (ls_failure s).
Definition set_ttft (t : option Z) (s : LineState) : LineState :=
  mkLines (ls_last_usage s) (ls_start_usage s) t (ls_saw_error s) (ls_failure s).
Definition set_saw_error (s : LineState) : LineState :=
  mkLines (ls_last_usage s) (ls_start_usage s) (ls_ttft_ms s) true (ls_failure s).
Definition set_failure (f : StreamFailure) (s : LineState) : LineState :=
  mkLines (ls_last_usage s) (ls_start_usage s) (ls_ttft_ms s) (ls_saw_error s) f.

(** [reason == "error" || reason.ends_with("_error")]. *)
Definition is_failed_reason (reason : string) : bool :=
  bool_decide (reason = "error") ||
  bool_decide (is_Some (strip_bytes (reverse (as_bytes "_error")) (reverse (as_bytes reason)))).
Definition error_value (parsed : value) : option value :=
  or_else (or_else (non_null (get "error" parsed))
             (if bool_decide (get_str "type" parsed = Some "error") then Some parsed else None))
    (non_null (get "response" parsed ≫= get "error")).
Definition finish_reasons (parsed : value) : list string :=
  omap (get_str "finish_reason") (default [] (get "choices" parsed ≫= as_array)) ++
  option_list (get "delta" parsed ≫= get_str "stop_reason").
Definition detect_outcome (parsed : value) (s : LineState) : LineState :=
  let s := if bool_decide (is_Some (error_value parsed))
           then set_failure (or_class StreamInbandError (ls_failure s)) (set_saw_error s) else s in
  if existsb is_failed_reason (finish_reasons parsed) then set_saw_error s else s.

(** One counter of [complete_usage]. *)
Definition merge_counter (merged : object) (kv : string * value) : object :=
  let keeps_start := match obj_get kv.1 merged ≫= as_f64, as_f64 kv.2 with
                     | Some started, Some latest => SFltb latest started
                     | _, _ => is_null kv.2
                     end in
  if keeps_start then merged else obj_insert kv.1 kv.2 merged.
Definition complete_usage (start delta : value) : value :=
  match start, delta with
  | JObject merged, JObject delta => JObject (foldl merge_counter merged delta)
  | _, _ => start
  end.
(** The result of [normalize_reasoning_usage_value], [None] as [false]. *)
Definition reasoning_promoted (usage : value) : bool :=
  match usage with
  | JObject m =>
      bool_decide (is_Some (non_null (obj_get "reasoning_tokens" m))) &&
      match obj_get "completion_tokens_details" m with
      | None | Some JNull => true
      | Some (JObject d) => is_null_or_absent (obj_get "reasoning_tokens" d)
      | Some _ => false
      end
  | _ => false
  end.
(** [usage_obj]: where an event states its usage, and that usage. *)
Definition usage_of (parsed : value) : option (bool * value) :=
  match non_null (get "usage" parsed) with
  | Some u => Some (true, u)
  | None => (fun u => (false, u)) <$> non_null (get "response" parsed ≫= get "usage")
  end.
Definition with_usage (top : bool) (usage parsed : value) : value :=
  if top then set_member "usage" usage parsed
  else on_object (update_member "response" (set_member "usage" usage)) parsed.

Section Meter.
Context {DC : Decimals} {SJ : SerdeJson}.

(** The JSON a line carries; [None] for every other line. *)
Definition line_json (line : bytes) : option value :=
  data ← strip_bytes (as_bytes "data:") line;
  let data := trim (of_bytes data) in
  if bool_decide (data = "[DONE]") then None else parse_json data.
Definition is_content (line : bytes) : bool :=
  non_empty (trim (of_bytes line)) && negb (is_comment line).

(** What a line tells the meter. *)
Definition note_start (parsed : value) (s : LineState) : LineState :=
  if bool_decide (get_str "type" parsed = Some "message_start") then
    match get "message" parsed ≫= get "usage" with
    | Some usage => if is_object usage then set_start_usage (Some usage) s else s
    | None => s
    end
  else s.
Definition billed_usage (parsed usage : value) (s : LineState) : value :=
  match (if bool_decide (get_str "type" parsed = Some "message_delta") then ls_start_usage s else None) with
  | Some start => complete_usage start usage
  | None => usage
  end.
(** The usage as it is shown: with its cost when the request is priced. *)
Definition shown_usage (pricing : option value) (slot : option value) (billed usage : value) : value :=
  match non_null pricing with
  | Some pricing => set_member "cost" (cost_to_json (compute_cost (default billed slot) pricing)) usage
  | None => usage
  end.
(** The line's effect, and the line in its place when it is rewritten. *)
Definition meter_line (pricing slot : option value) (elapsed : Z) (line : bytes) (s : LineState) : option bytes * LineState :=
  let s := if bool_decide (ls_ttft_ms s = None) && is_content line then set_ttft (Some (elapsed)) s else s in
  match line_json line with
  | None => (None, s)
  | Some parsed =>
      let s := note_start parsed (detect_outcome parsed s) in
      match usage_of parsed with
      | None => (None, s)
      | Some (top, usage) =>
          let normalized := reasoning_promoted usage in
          let usage := normalize_reasoning_usage_value usage in
          let billed := billed_usage parsed usage s in
          let s := set_last_usage (Some billed) s in
          if bool_decide (non_null pricing = None) && negb normalized then (None, s)
          else (Some (as_bytes "data: " ++
                      to_vec (with_usage top (shown_usage pricing slot billed usage) parsed)), s)
      end
  end.
Fixpoint meter_lines (pricing slot : option value) (elapsed : Z) (lines : list bytes) (s : LineState) :
    list (option bytes) * LineState :=
  match lines with
  | [] => ([], s)
  | line :: lines' =>
      let '(out, s) := meter_line pricing slot elapsed line s in
      let '(outs, s) := meter_lines pricing slot elapsed lines' s in
      (out :: outs, s)
  end.

Definition is_lf (c : ascii) : bool := bool_decide (c = lf).
(** [lines.join("\n")]. *)
Fixpoint join_lines (lines : list bytes) : bytes :=
  match lines with [] => [] | [l] => l | l :: lines' => l ++ [lf] ++ join_lines lines' end.
Definition shown_line (line : bytes) (out : option bytes) : bytes := default line out.
Definition transform_lines (pricing slot : option value) (elapsed : Z) (raw : bytes) (s : LineState) : bytes * LineState :=
  let lines := split_bytes is_lf (as_bytes (event_string raw)) in
  let '(outs, s) := meter_lines pricing slot elapsed lines s in
  (if existsb (fun o => bool_decide (is_Some o)) outs then join_lines (zip_with shown_line lines outs) else raw, s).

(** ** The stream *)
Record MeterStream : Type := mkMeter {
  ms_report : StreamReport;
  ms_started : bool;
  ms_buf : bytes;
  ms_inner_done : bool;
  ms_lines : LineState;
  ms_framing : SseFramingObserver;
  ms_settled : bool;
  ms_slotted : bool;
}.
Definition meter_new (report : StreamReport) (protocol : SseProtocol) : MeterStream :=
  mkMeter report false [] false lines_new (for_protocol protocol) false false.
Definition with_upstream_usage (m : MeterStream) : MeterStream :=
  mkMeter (ms_report m) (ms_started m) (ms_buf m) (ms_inner_done m) (ms_lines m) (ms_framing m) (ms_settled m) true.
Definition set_meter_started (m : MeterStream) : MeterStream :=
  mkMeter (ms_report m) true (ms_buf m) (ms_inner_done m) (ms_lines m) (ms_framing m) (ms_settled m) (ms_slotted m).
Definition set_buf (buf : bytes) (m : MeterStream) : MeterStream :=
  mkMeter (ms_report m) (ms_started m) buf (ms_inner_done m) (ms_lines m) (ms_framing m) (ms_settled m) (ms_slotted m).
Definition set_inner_done (m : MeterStream) : MeterStream :=
  mkMeter (ms_report m) (ms_started m) (ms_buf m) true (ms_lines m) (ms_framing m) (ms_settled m) (ms_slotted m).
Definition set_lines (s : LineState) (m : MeterStream) : MeterStream :=
  mkMeter (ms_report m) (ms_started m) (ms_buf m) (ms_inner_done m) s (ms_framing m) (ms_settled m) (ms_slotted m).
Definition set_framing (o : SseFramingObserver) (m : MeterStream) : MeterStream :=
  mkMeter (ms_report m) (ms_started m) (ms_buf m) (ms_inner_done m) (ms_lines m) o (ms_settled m) (ms_slotted m).
Definition set_settled (m : MeterStream) : MeterStream :=
  mkMeter (ms_report m) (ms_started m) (ms_buf m) (ms_inner_done m) (ms_lines m) (ms_framing m) true (ms_slotted m).
Definition meter_failure (f : StreamFailure) (m : MeterStream) : MeterStream := set_lines (set_failure f (ms_lines m)) m.

(** The content of the slot, for a meter that was given one. *)
Definition slot_usage (at_ : Moment) (m : MeterStream) : option value := if ms_slotted m then at_upstream_usage at_ else None.

Definition protocol_outcome (m : MeterStream) (clean_eof : bool) : StreamOutcome :=
  let f := ms_framing m in
  if ls_saw_error (ms_lines m) || obs_saw_error f then StreamFailed
  else if obs_saw_terminal f || (clean_eof && at_event_boundary f && observation_usable f) then Completed
  else StreamFailed.
Definition settled_failure (outcome : StreamOutcome) (m : MeterStream) : StreamFailure :=
  let failure := ls_failure (ms_lines m) in
  if bool_decide (outcome = StreamFailed) && bool_decide (sf_class failure = None) then
    or_class (if ls_saw_error (ms_lines m) || obs_saw_error (ms_framing m) then StreamInbandError else StreamTruncated) failure
  else failure.
Definition meter_settle (at_ : Moment) (outcome : StreamOutcome) (m : MeterStream) : MeterStream * list PostReport :=
  if ms_settled m then (m, [])
  else
    let m := set_settled m in
    let usage := if ms_slotted m then at_upstream_usage at_ else ls_last_usage (ms_lines m) in
    let taken := if ms_slotted m then m else set_lines (set_last_usage None (ms_lines m)) m in
    (taken, report_settle (ms_report m) at_ outcome usage (ls_ttft_ms (ms_lines m)) (settled_failure outcome m)).

Definition oversized_line (buf : bytes) : bool :=
  if (Z.of_nat (length buf) <=? MAX_SSE_LINE_BYTES)%Z then false
  else existsb (fun l => (MAX_SSE_LINE_BYTES <? Z.of_nat (length l))%Z) (split_bytes is_lf buf).
(** [buf.drain(..=nl)] at the last line break, and what stays. *)
Fixpoint split_last_lf (l : bytes) : option (bytes * bytes) :=
  match l with
  | [] => None
  | b :: l' => match split_last_lf l' with
               | Some (complete, rest) => Some (b :: complete, rest)
               | None => if is_lf b then Some ([b], l') else None
               end
  end.
Inductive Fed : Type := Emit (bytes : bytes) | NeedMore | Overflow.
Definition process (at_ : Moment) (chunk : bytes) (m : MeterStream) : Fed * MeterStream :=
  let m := set_buf (ms_buf m ++ chunk) m in
  if oversized_line (ms_buf m) then (Overflow, m)
  else match split_last_lf (ms_buf m) with
       | None => (NeedMore, m)
       | Some (complete, rest) =>
           let '(out, s) := transform_lines (sr_pricing (ms_report m)) (slot_usage at_ m) (at_elapsed_ms at_) complete (ms_lines m) in
           (Emit out, set_lines s (set_buf rest m))
       end.
Definition flush (at_ : Moment) (m : MeterStream) : option bytes * MeterStream :=
  if bool_decide (ms_buf m = []) then (None, m)
  else
    let '(out, s) := transform_lines (sr_pricing (ms_report m)) (slot_usage at_ m) (at_elapsed_ms at_) (ms_buf m) (ms_lines m) in
    (Some out, set_lines s (set_buf [] m)).

Inductive MeterPoll : Type := MeterItem (item : result ServiceError bytes) | MeterEnd | MeterPending.
(** One reply of the inner stream; [None] to poll it again. *)
Definition meter_receive (at_ : Moment) (reply : Reply) (m : MeterStream) : option MeterPoll * MeterStream * list PostReport :=
  match reply with
  | ReplyChunk chunk =>
      let m := set_framing (observe chunk (ms_framing m)) m in
      match process at_ chunk m with
      | (Emit out, m) => (Some (MeterItem (Ok out)), m, [])
      | (NeedMore, m) => (None, m, [])
      | (Overflow, m) =>
          let m := set_buf [] (set_inner_done m) in
          let m := meter_failure (or_class StreamLineOverflow (ls_failure (ms_lines m))) m in
          let '(m, sent) := meter_settle at_ (protocol_outcome m false) m in
          (Some (MeterItem (Err (ServiceUpstream (Transport "sse line overflow")))), m, sent)
      end
  | ReplyError err =>
      let m := meter_failure (failure_from_error err) (set_buf [] (set_inner_done m)) in
      let '(m, sent) := meter_settle at_ (protocol_outcome m false) m in
      (Some (MeterItem (Err err)), m, sent)
  | ReplyEnd =>
      let '(residual, m) := flush at_ (set_inner_done m) in
      let '(m, sent) := meter_settle at_ (protocol_outcome m true) m in
      (Some (match residual with Some out => MeterItem (Ok out) | None => MeterEnd end), m, sent)
  | ReplyPending => (Some MeterPending, m, [])
  end.
(** A poll takes replies until one lets it return; the others stay for later. *)
Fixpoint meter_poll (replies : list (Moment * Reply)) (m : MeterStream) :
    MeterPoll * MeterStream * list PostReport * list (Moment * Reply) :=
  let m := set_meter_started m in
  if ms_inner_done m then (MeterEnd, m, [], replies)
  else match replies with
       | [] => (MeterPending, m, [], [])
       | (at_, reply) :: replies' =>
           match meter_receive at_ reply m with
           | (Some polled, m, sent) => (polled, m, sent, replies')
           | (None, m, _) => meter_poll replies' m
           end
       end.
Definition meter_drop (at_ : Moment) (m : MeterStream) : MeterStream * list PostReport :=
  if negb (ms_started m) && at_downstream_abort at_ then
    meter_settle at_ StreamFailed (meter_failure (mkFailure 502 (Some DownstreamFinalizerFailed) (Some SourceGateway)) m)
  else if at_downstream_abort at_ then meter_settle at_ StreamFailed m
  else meter_settle at_ ClientClosed m.
End Meter.

(** ** Heartbeats *)
(** [ka_deadline] is when the sleep that is armed elapses; it is there exactly when
    there is an interval. *)
Record KeepAliveStream : Type := mkKeepAlive {
  ka_interval : option Z;
  ka_deadline : option Z;
  ka_done : bool;
}.
Definition KEEP_ALIVE_COMMENT : bytes := as_bytes ": PROCESSING" ++ [lf; lf].
Definition keep_alive_new (now : Z) (interval : option Z) : KeepAliveStream :=
  mkKeepAlive interval ((fun d => (now + d)%Z) <$> interval) false.
Definition arm (now : Z) (k : KeepAliveStream) : KeepAliveStream :=
  match ka_interval k, ka_deadline k with
  | Some interval, Some _ => mkKeepAlive (Some interval) (Some (now + interval)%Z) (ka_done k)
  | _, _ => k
  end.
Definition keep_alive_poll (now : Z) (inner : MeterPoll) (k : KeepAliveStream) : MeterPoll * KeepAliveStream :=
  if ka_done k then (MeterEnd, k)
  else match inner with
       | MeterItem item => (MeterItem item, arm now k)
       | MeterEnd => (MeterEnd, mkKeepAlive (ka_interval k) (ka_deadline k) true)
       | MeterPending =>
           match ka_deadline k with
           | Some deadline => if (deadline <=? now)%Z then (MeterItem (Ok KEEP_ALIVE_COMMENT), arm now k) else (MeterPending, k)
           | None => (MeterPending, k)
           end
       end.
