(* ===== verification/Metered.v ===== *)
(** * What a metered stream reports

    The theory of [Metering]: however the bytes of a stream are cut into chunks and
    however often it is polled, the one report of a stream is a function of its
    bytes, of how it ended, and of the moment it was settled. *)
From Stdlib Require Import SpecFloat.
From S2P Require Import Prelude Text Json External Sample Errors SseProtocol UpstreamErrors Images Audio Sanitize SseFraming ToolMap Conversion EventStream SseTransform Pricing Metering.

(** ** Lossy text, line by line *)
Lemma lf_not_continuation : is_continuation lf = false.
Proof. reflexivity. Qed.
Lemma lf_not_second n : utf8_second n lf = false.
Proof. unfold utf8_second. repeat case_match; reflexivity. Qed.
Lemma utf8_lossy_lf a b : utf8_lossy (a ++ lf :: b) = utf8_lossy a ++ lf :: utf8_lossy b.
Proof.
  remember (length a) as n eqn:Hn. revert a Hn. induction (lt_wf n) as [n _ IH]. intros a ->.
  assert (Hrec : forall a', length a' < length a -> utf8_lossy (a' ++ lf :: b) = utf8_lossy a' ++ lf :: utf8_lossy b) by (intros; by eapply IH).
  clear IH. destruct a as [|c a]; [reflexivity|].
  pose proof lf_not_continuation as H1. pose proof lf_not_second as H2.
  cbn [app utf8_lossy].
  destruct (in_range 0 127 c); [cbn [app]; f_equal; apply Hrec; simpl; lia|].
  destruct (in_range 194 223 c).
  { destruct a as [|c1 a]; cbn [app]; [by rewrite H1|].
    destruct (is_continuation c1); [cbn [app]; do 2 f_equal; apply Hrec; simpl; lia|].
    rewrite <- app_assoc. f_equal. apply (Hrec (c1 :: a)). simpl. lia. }
  destruct (in_range 224 239 c).
  { destruct a as [|c1 a]; cbn [app]; [by rewrite H2|].
    destruct (utf8_second (byte c) c1); [|rewrite <- app_assoc; f_equal; apply (Hrec (c1 :: a)); simpl; lia].
    destruct a as [|c2 a]; cbn [app]; [by rewrite H1|].
    destruct (is_continuation c2); [cbn [app]; do 3 f_equal; apply Hrec; simpl; lia|].
    rewrite <- app_assoc. f_equal. apply (Hrec (c2 :: a)). simpl. lia. }
  destruct (in_range 240 244 c).
  { destruct a as [|c1 a]; cbn [app]; [by rewrite H2|].
    destruct (utf8_second (byte c) c1); [|rewrite <- app_assoc; f_equal; apply (Hrec (c1 :: a)); simpl; lia].
    destruct a as [|c2 a]; cbn [app]; [by rewrite H1|].
    destruct (is_continuation c2); [|rewrite <- app_assoc; f_equal; apply (Hrec (c2 :: a)); simpl; lia].
    destruct a as [|c3 a]; cbn [app]; [by rewrite H1|].
    destruct (is_continuation c3); [cbn [app]; do 4 f_equal; apply Hrec; simpl; lia|].
    rewrite <- app_assoc. f_equal. apply (Hrec (c3 :: a)). simpl. lia. }
  rewrite <- app_assoc. f_equal. apply Hrec. simpl. lia.
Qed.
Lemma utf8_lossy_valid l : is_utf8 l = true -> utf8_lossy l = l.
Proof.
  remember (length l) as n eqn:Hn. revert l Hn. induction (lt_wf n) as [n _ IH]. intros l -> Hl.
  assert (Hrec : forall l', length l' < length l -> is_utf8 l' = true -> utf8_lossy l' = l') by (intros; by eapply IH).
  clear IH. destruct l as [|c l]; [done|]. cbn [is_utf8 utf8_lossy] in *.
  destruct (in_range 0 127 c); [f_equal; apply Hrec; [simpl; lia|done]|].
  destruct l as [|c1 l]; [done|]. destruct (in_range 194 223 c).
  { apply andb_prop in Hl as [-> Hl]. do 2 f_equal. apply Hrec; [simpl; lia|done]. }
  destruct l as [|c2 l]; [done|]. destruct (in_range 224 239 c).
  { apply andb_prop in Hl as [[-> ->]%andb_prop Hl]. do 3 f_equal. apply Hrec; [simpl; lia|done]. }
  destruct l as [|c3 l]; [done|]. apply andb_prop in Hl as [[[[-> ->]%andb_prop ->]%andb_prop ->]%andb_prop Hl].
  do 4 f_equal. apply Hrec; [simpl; lia|done].
Qed.
Lemma event_string_lossy l : as_bytes (event_string l) = utf8_lossy l.
Proof. unfold event_string. rewrite as_bytes_of_bytes. destruct (is_utf8 l) eqn:Hl; [|done]. by rewrite utf8_lossy_valid. Qed.
Lemma replacement_plain b : b ∈ replacement -> b ≠ lf.
Proof. unfold replacement. rewrite !elem_of_cons, elem_of_nil. intros [->|[->|[->|[]]]]; done. Qed.
Lemma utf8_lossy_no_lf l : lf ∉ l -> lf ∉ utf8_lossy l.
Proof.
  remember (length l) as n eqn:Hn. revert l Hn. induction (lt_wf n) as [n _ IH]. intros l -> Hl.
  assert (Hrec : forall l', length l' < length l -> lf ∉ l' -> lf ∉ utf8_lossy l') by (intros; by eapply IH).
  assert (Hrep : forall l', length l' < length l -> lf ∉ l' -> lf ∉ replacement ++ utf8_lossy l').
  { intros l' Hlen Hl'. rewrite elem_of_app. intros [Hr|Hr]; [by apply replacement_plain in Hr|by eapply Hrec]. }
  assert (Hrep0 : lf ∉ replacement) by (intros Hr; by apply replacement_plain in Hr).
  clear IH. destruct l as [|c l]; [done|]. cbn [utf8_lossy]. apply not_elem_of_cons in Hl as [Hc Hl].
  destruct (in_range 0 127 c); [apply not_elem_of_cons; split; [done|apply Hrec; [simpl; lia|done]]|].
  repeat match goal with
  | |- context [match ?l with [] => _ | _ :: _ => _ end] => is_var l; destruct l; [done|apply not_elem_of_cons in Hl as [? Hl]]
  | |- context [if ?b then _ else _] => destruct b
  end;
    rewrite ?not_elem_of_cons; repeat split; try done;
    first [apply Hrep|apply Hrec]; (simpl; lia) || done || (apply not_elem_of_cons; split; [done|]; try (apply not_elem_of_cons; split; [done|]); done).
Qed.

Lemma split_lf_app a b : split_bytes is_lf (a ++ lf :: b) = split_bytes is_lf a ++ split_bytes is_lf b.
Proof.
  induction a as [|c a IH]; simpl.
  - done.
  - rewrite IH. destruct (is_lf c); [done|]. destruct (split_bytes is_lf a) as [|t ts] eqn:Ha; [|done].
    destruct a as [|c' a]; simpl in Ha; [done|]. repeat case_match; done.
Qed.
Lemma split_lf_plain l : lf ∉ l -> split_bytes is_lf l = [l].
Proof.
  induction l as [|c l IH]; [done|]. intros [Hc Hl]%not_elem_of_cons. simpl. rewrite (IH Hl). unfold is_lf.
  by rewrite bool_decide_eq_false_2.
Qed.
Lemma split_lf_cases l : lf ∉ l \/ exists a b, l = a ++ lf :: b /\ lf ∉ b.
Proof.
  induction l as [|c l IH] using rev_ind; [left; apply not_elem_of_nil|].
  destruct (decide (c = lf)) as [->|Hc]; [right; exists l, []; split; [done|apply not_elem_of_nil]|].
  destruct IH as [Hl|(a & b & -> & Hb)].
  - left. rewrite elem_of_app, list_elem_of_singleton. naive_solver.
  - right. exists a, (b ++ [c]). split; [by rewrite <- app_assoc|]. rewrite elem_of_app, list_elem_of_singleton. naive_solver.
Qed.
Lemma split_lossy l : split_bytes is_lf (utf8_lossy l) = utf8_lossy <$> split_bytes is_lf l.
Proof.
  remember (length l) as n eqn:Hn. revert l Hn. induction (lt_wf n) as [n _ IH]. intros l ->.
  destruct (split_lf_cases l) as [Hl|(a & b & -> & Hb)].
  - rewrite (split_lf_plain l) by done. apply split_lf_plain. by apply utf8_lossy_no_lf.
  - rewrite utf8_lossy_lf, !split_lf_app, fmap_app. f_equal; eapply IH; [|reflexivity| |reflexivity]; rewrite length_app; simpl; lia.
Qed.
Lemma split_last_spec l :
  match split_last_lf l with
  | Some (complete, rest) => exists c, complete = c ++ [lf] /\ l = complete ++ rest /\ lf ∉ rest
  | None => lf ∉ l
  end.
Proof.
  induction l as [|b l IH]; simpl; [apply not_elem_of_nil|]. destruct (split_last_lf l) as [[complete rest]|].
  - destruct IH as (c & -> & -> & Hr). by exists (b :: c).
  - unfold is_lf. case_bool_decide as Hb; [subst; by exists []|]. apply not_elem_of_cons. auto.
Qed.

Section Reading.
Context {DC : Decimals} {SJ : SerdeJson}.

(** ** What the lines of a stream say *)
(** The effect of a line on everything but the time to the first token. *)
Definition note_line (s : LineState) (line : bytes) : LineState :=
  match line_json line with
  | None => s
  | Some parsed =>
      let s := note_start parsed (detect_outcome parsed s) in
      match usage_of parsed with
      | None => s
      | Some (_, usage) => set_last_usage (Some (billed_usage parsed (normalize_reasoning_usage_value usage) s)) s
      end
  end.
Definition note_text (s : LineState) (text : bytes) : LineState :=
  foldl note_line s (utf8_lossy <$> split_bytes is_lf text).
(** Equal up to that time. *)
Definition untimed (s : LineState) : LineState := set_ttft None s.

Lemma detect_untimed v s t : detect_outcome v (set_ttft t s) = set_ttft t (detect_outcome v s).
Proof. unfold detect_outcome. by repeat case_match. Qed.
Lemma note_start_untimed v s t : note_start v (set_ttft t s) = set_ttft t (note_start v s).
Proof. unfold note_start. by repeat case_match. Qed.
Lemma note_line_untimed s t line : note_line (set_ttft t s) line = set_ttft t (note_line s line).
Proof.
  unfold note_line. destruct (line_json line) as [v|]; [|done]. rewrite detect_untimed, note_start_untimed.
  by destruct (usage_of v) as [[top u]|].
Qed.
Lemma note_lines_untimed lines s t : foldl note_line (set_ttft t s) lines = set_ttft t (foldl note_line s lines).
Proof. revert s. induction lines as [|l lines IH]; intros s; simpl; [done|]. by rewrite note_line_untimed, IH. Qed.
Lemma untimed_set t s : untimed (set_ttft t s) = untimed s.
Proof. done. Qed.

Lemma meter_line_state pricing slot elapsed line s :
  untimed (meter_line pricing slot elapsed line s).2 = untimed (note_line s line).
Proof.
  unfold meter_line. set (s' := if bool_decide (ls_ttft_ms s = None) && is_content line then _ else _). assert (exists t, s' = set_ttft t s) as [t ->].
  { unfold s'. case_match; [by eexists|]. exists (ls_ttft_ms s). by destruct s. }
  transitivity (untimed (note_line (set_ttft t s) line)); [|by rewrite note_line_untimed].
  unfold note_line. destruct (line_json line) as [v|]; [|done]. destruct (usage_of v) as [[top u]|]; [|done].
  by destruct (_ && _).
Qed.
Lemma meter_lines_state pricing slot elapsed lines s :
  untimed (meter_lines pricing slot elapsed lines s).2 = untimed (foldl note_line s lines).
Proof.
  revert s. induction lines as [|l lines IH]; intros s; simpl; [done|].
  pose proof (meter_line_state pricing slot elapsed l s) as Hl. destruct (meter_line _ _ _ _ _) as [out s'] eqn:He. simpl in Hl.
  specialize (IH s'). destruct (meter_lines _ _ _ _ _) as [outs s'']. simpl in *. rewrite IH.
  unfold untimed in *. rewrite <- !note_lines_untimed. by rewrite Hl.
Qed.
Lemma transform_state pricing slot elapsed raw s :
  untimed (transform_lines pricing slot elapsed raw s).2 = untimed (note_text s raw).
Proof.
  unfold transform_lines, note_text. rewrite event_string_lossy, split_lossy.
  pose proof (meter_lines_state pricing slot elapsed (utf8_lossy <$> split_bytes is_lf raw) s) as H.
  by destruct (meter_lines _ _ _ _ _).
Qed.
Lemma note_line_blank s : note_line s [] = s.
Proof. done. Qed.
Lemma note_text_app s c b : note_text s ((c ++ [lf]) ++ b) = note_text (note_text s (c ++ [lf])) b.
Proof.
  unfold note_text. rewrite <- app_assoc. simpl. rewrite !split_lf_app, !fmap_app, !foldl_app. done.
Qed.
Lemma note_text_eq s s' text : untimed s = untimed s' -> untimed (note_text s text) = untimed (note_text s' text).
Proof. intros Hs. unfold untimed, note_text in *. by rewrite <- !note_lines_untimed, Hs. Qed.
End Reading.

(** ** The complete lines of a text and its open one *)
Definition complete_part (b : bytes) : bytes := match split_last_lf b with Some (complete, _) => complete | None => [] end.
Definition open_part (b : bytes) : bytes := match split_last_lf b with Some (_, rest) => rest | None => b end.
Lemma split_last_app a b : split_last_lf (a ++ b) =
  match split_last_lf b with
  | Some (c, r) => Some (a ++ c, r)
  | None => (fun cr => (cr.1, cr.2 ++ b)) <$> split_last_lf a
  end.
Proof.
  induction a as [|x a IH]; simpl.
  - by destruct (split_last_lf b) as [[c r]|].
  - rewrite IH. destruct (split_last_lf b) as [[c r]|]; [done|]. destruct (split_last_lf a) as [[c r]|]; simpl; [done|].
    by destruct (is_lf x).
Qed.
Lemma parts b : b = complete_part b ++ open_part b.
Proof.
  unfold complete_part, open_part. pose proof (split_last_spec b) as H. destruct (split_last_lf b) as [[c r]|]; [|done].
  by destruct H as (? & _ & -> & _).
Qed.
Lemma complete_part_ends b : complete_part b = [] \/ exists c, complete_part b = c ++ [lf].
Proof.
  unfold complete_part. pose proof (split_last_spec b) as H. destruct (split_last_lf b) as [[c r]|]; [|by left].
  destruct H as (c' & -> & _). eauto.
Qed.
Lemma open_part_plain b : lf ∉ open_part b.
Proof.
  unfold open_part. pose proof (split_last_spec b) as H. destruct (split_last_lf b) as [[c r]|]; [|done].
  by destruct H as (_ & _ & _ & H).
Qed.
Lemma split_last_more b chunk :
  match split_last_lf (open_part b ++ chunk) with
  | Some (c, r) => complete_part (b ++ chunk) = complete_part b ++ c /\ open_part (b ++ chunk) = r
  | None => complete_part (b ++ chunk) = complete_part b /\ open_part (b ++ chunk) = open_part b ++ chunk
  end.
Proof.
  assert (Hopen : split_last_lf (open_part b) = None).
  { pose proof (split_last_spec (open_part b)) as H. destruct (split_last_lf (open_part b)) as [[c r]|]; [|done].
    destruct H as (c' & -> & He & _). destruct (open_part_plain b). rewrite He. set_solver. }
  rewrite split_last_app, Hopen. unfold complete_part, open_part. rewrite !split_last_app. destruct (split_last_lf chunk) as [[c r]|]; simpl.
  - destruct (split_last_lf b) as [[c' r']|] eqn:Hb; [|done]. pose proof (split_last_spec b) as H. rewrite Hb in H.
    destruct H as (_ & _ & -> & _). by rewrite app_assoc.
  - by destruct (split_last_lf b) as [[c' r']|].
Qed.

(** ** The report by the history *)
Inductive Ending : Type :=
| Left
| Closed (at_ : Moment)
| Broke (at_ : Moment) (err : ServiceError)
| Overran (at_ : Moment).

Section Life.
Context {DC : Decimals} {SJ : SerdeJson}.

(** What a stream has said and how it ended: the bytes whose lines count, the bytes
    that arrived, and the ending.  [b] is what came before. *)
Fixpoint tale (b : bytes) (replies : list (Moment * Reply)) : bytes * bytes * Ending :=
  match replies with
  | [] => (b, b, Left)
  | (at_, ReplyChunk c) :: replies' =>
      if oversized_line (open_part b ++ c) then (b, b ++ c, Overran at_) else tale (b ++ c) replies'
  | (at_, ReplyError err) :: _ => (b, b, Broke at_ err)
  | (at_, ReplyEnd) :: _ => (b, b, Closed at_)
  | (_, ReplyPending) :: replies' => tale b replies'
  end.
Definition has_ended (t : bytes * bytes * Ending) : bool := match t.2 with Left => false | _ => true end.

(** The lines that count: the open one only when the stream ended cleanly. *)
Definition lines_read (b : bytes) (ending : Ending) : LineState :=
  note_text lines_new (match ending with Closed _ => b | _ => complete_part b end).
(** How the stream ended for the bill, for its first [n] polls. *)
Definition told_outcome (s : LineState) (o : SseFramingObserver) (ending : Ending) (dropped : Moment) : StreamOutcome :=
  match ending with
  | Left => if at_downstream_abort dropped then StreamFailed else ClientClosed
  | _ =>
      let clean := match ending with Closed _ => true | _ => false end in
      if ls_saw_error s || obs_saw_error o then StreamFailed
      else if obs_saw_terminal o || (clean && at_event_boundary o && observation_usable o) then Completed
      else StreamFailed
  end.
Definition told_failure (s : LineState) (o : SseFramingObserver) (ending : Ending) (started : bool) (dropped : Moment) : StreamFailure :=
  let failure := match ending with
                 | Closed _ => ls_failure s
                 | Broke _ err => failure_from_error err
                 | Overran _ => or_class StreamLineOverflow (ls_failure s)
                 | Left => if negb started && at_downstream_abort dropped
                           then mkFailure 502 (Some DownstreamFinalizerFailed) (Some SourceGateway) else ls_failure s
                 end in
  if bool_decide (told_outcome s o ending dropped = StreamFailed) && bool_decide (sf_class failure = None)
  then or_class (if ls_saw_error s || obs_saw_error o then StreamInbandError else StreamTruncated) failure
  else failure.
Definition settled_at (ending : Ending) (dropped : Moment) : Moment :=
  match ending with Left => dropped | Closed at_ | Broke at_ _ | Overran at_ => at_ end.
(** The one report of a stream. *)
Definition the_report (report : StreamReport) (protocol : SseProtocol) (slotted started : bool)
    (t : bytes * bytes * Ending) (ttft : option Z) (dropped : Moment) : list PostReport :=
  let '(read, arrived, ending) := t in
  let s := lines_read read ending in
  let o := observe arrived (for_protocol protocol) in
  let at_ := settled_at ending dropped in
  report_settle report at_ (told_outcome s o ending dropped)
    (if slotted then at_upstream_usage at_ else ls_last_usage s) ttft (told_failure s o ending started dropped).

Fixpoint meter_polls (n : nat) (replies : list (Moment * Reply)) (m : MeterStream) :
    list MeterPoll * MeterStream * list PostReport * list (Moment * Reply) :=
  match n with
  | O => ([], m, [], replies)
  | S n' =>
      let '(polled, m, sent, replies) := meter_poll replies m in
      let '(more, m, sent', replies) := meter_polls n' replies m in
      (polled :: more, m, sent ++ sent', replies)
  end.

Context (report : StreamReport) (protocol : SseProtocol) (slotted : bool).
Definition meter_for : MeterStream :=
  let m := meter_new report protocol in if slotted then with_upstream_usage m else m.

(** A meter that has read [b] and is still open. *)
Record live (b : bytes) (m : MeterStream) : Prop := {
  lv_report : ms_report m = report;
  lv_open : ms_inner_done m = false;
  lv_unsettled : ms_settled m = false;
  lv_slotted : ms_slotted m = slotted;
  lv_buf : ms_buf m = open_part b;
  lv_lines : untimed (ms_lines m) = untimed (note_text lines_new (complete_part b));
  lv_framing : ms_framing m = observe b (for_protocol protocol);
}.
Definition over (m : MeterStream) : Prop := ms_inner_done m = true /\ ms_settled m = true /\ ms_started m = true.

Lemma live_new : live [] meter_for.
Proof. unfold meter_for. by split; destruct slotted. Qed.
Lemma untimed_proj s s' : untimed s = untimed s' ->
  ls_last_usage s = ls_last_usage s' /\ ls_saw_error s = ls_saw_error s' /\ ls_failure s = ls_failure s'.
Proof. intros H. by injection H. Qed.

(** Settling an open meter sends the report. *)
Lemma settle_sends at_ outcome m : ms_report m = report -> ms_settled m = false -> ms_slotted m = slotted ->
  let '(m', sent) := meter_settle at_ outcome m in
  ms_settled m' = true /\ ms_inner_done m' = ms_inner_done m /\ ms_started m' = ms_started m /\
  sent = report_settle report at_ outcome (if slotted then at_upstream_usage at_ else ls_last_usage (ms_lines m))
           (ls_ttft_ms (ms_lines m)) (settled_failure outcome m).
Proof. intros Hr Hs Hsl. unfold meter_settle. rewrite Hs. simpl. rewrite Hsl, Hr. by destruct slotted. Qed.

Lemma note_text_complete b chunk : note_text (note_text lines_new (complete_part b)) chunk = note_text lines_new (complete_part b ++ chunk).
Proof.
  destruct (complete_part_ends b) as [->|[c ->]]; [done|]. by rewrite note_text_app.
Qed.
Lemma process_live b at_ chunk m : live b m ->
  let m1 := set_framing (observe chunk (ms_framing m)) m in
  match process at_ chunk m1 with
  | (Overflow, m') => oversized_line (open_part b ++ chunk) = true /\ m' = set_buf (open_part b ++ chunk) m1
  | (_, m') => oversized_line (open_part b ++ chunk) = false /\ live (b ++ chunk) m' /\ ms_started m' = ms_started m
  end.
Proof.
  intros [Hr Ho Hu Hsl Hb Hl Hf] m1. unfold process. cbn [ms_buf set_buf m1 set_framing]. rewrite Hb.
  destruct (oversized_line (open_part b ++ chunk)) eqn:Hov; [done|].
  pose proof (split_last_more b chunk) as Hp. pose proof (split_last_spec (open_part b ++ chunk)) as Hsp.
  destruct (split_last_lf (open_part b ++ chunk)) as [[complete rest]|].
  - destruct Hp as [Hc Ho']. pose proof (transform_state (sr_pricing (ms_report m1)) (slot_usage at_ m1) (at_elapsed_ms at_) complete (ms_lines m)) as Ht.
    cbn [ms_report set_buf ms_lines m1 set_framing] in Ht |- *. unfold slot_usage in *. cbn [ms_slotted set_buf set_framing] in *.
    destruct (transform_lines _ _ _ _ _) as [out s]. split; [done|]. split; [|done].
    split; cbn -[observe complete_part open_part note_text untimed]; try done.
    + rewrite Hc. cbn in Ht. rewrite Ht. rewrite <- note_text_complete. by apply note_text_eq.
    + rewrite Hf. apply observe_app.
  - destruct Hp as [Hc Ho']. split; [done|]. split; [|done]. split; cbn -[observe complete_part open_part note_text untimed]; try done.
    + by rewrite Hc.
    + rewrite Hf. apply observe_app.
Qed.

(** The meter as it stands when the stream ends says what the history says. *)
Lemma settle_told at_ t m ending : t.2 = ending -> has_ended t = true -> settled_at ending at_ = at_ ->
  ms_report m = report -> ms_settled m = false -> ms_slotted m = slotted -> ms_inner_done m = true -> ms_started m = true ->
  let s := lines_read t.1.1 ending in let o := observe t.1.2 (for_protocol protocol) in
  ls_last_usage (ms_lines m) = ls_last_usage s -> ls_saw_error (ms_lines m) = ls_saw_error s -> ms_framing m = o ->
  ls_failure (ms_lines m) = match ending with
                            | Broke _ err => failure_from_error err
                            | Overran _ => or_class StreamLineOverflow (ls_failure s)
                            | _ => ls_failure s
                            end ->
  let '(m', sent) := meter_settle at_ (protocol_outcome m (match ending with Closed _ => true | _ => false end)) m in
  over m' /\ forall started dropped, settled_at ending dropped = at_ ->
    sent = the_report report protocol slotted started t (ls_ttft_ms (ms_lines m)) dropped.
Proof.
  destruct t as [[read arrived] ending']. simpl. intros -> Hend Hat Hr Hs Hsl Hd Hst Hu He Hf Hfail.
  pose proof (settle_sends at_ (protocol_outcome m (match ending with Closed _ => true | _ => false end)) m Hr Hs Hsl) as H.
  destruct (meter_settle _ _ _) as [m' sent]. destruct H as (Hs' & Hd' & Hst' & ->). split; [unfold over; by rewrite Hd', Hst'|].
  intros started dropped Hdr. unfold the_report. rewrite Hdr, Hu. unfold settled_failure, told_failure, protocol_outcome, told_outcome.
  rewrite He, Hf, Hfail. destruct ending; try done.
Qed.
Lemma receive_live b at_ reply m : live b m -> ms_started m = true ->
  let '(polled, m', sent) := meter_receive at_ reply m in
  let t := tale b [(at_, reply)] in
  if has_ended t then
    over m' /\ is_Some polled /\ exists ttft, forall started dropped, sent = the_report report protocol slotted started t ttft dropped
  else t.1.1 = t.1.2 /\ sent = [] /\ live t.1.1 m' /\ ms_started m' = true.
Proof.
  intros Hl Hst. destruct reply as [chunk|err| |]; simpl.
  - pose proof (process_live b at_ chunk m Hl) as Hp. cbn zeta in Hp. destruct (process _ _ _) as [[out| |] m1]; simpl.
    + destruct Hp as (-> & Hl1 & Hst1). simpl. by rewrite Hst1.
    + destruct Hp as (-> & Hl1 & Hst1). simpl. by rewrite Hst1.
    + destruct Hp as (-> & ->). simpl. pose proof Hl as [Hr Ho Hu Hsl Hb Hls Hf]. apply untimed_proj in Hls as (H1 & H2 & H3).
      pose proof (settle_told at_ (b, b ++ chunk, Overran at_)
        (meter_failure (or_class StreamLineOverflow (ls_failure (ms_lines m)))
          (set_buf [] (set_inner_done (set_buf (open_part b ++ chunk) (set_framing (observe chunk (ms_framing m)) m))))) (Overran at_)) as H.
      simpl in H. destruct (meter_settle _ _ _) as [m' sent]. destruct H as [Hov Hsent]; try done.
      * rewrite Hf. apply observe_app.
      * by rewrite H3.
      * split; [done|]. split; [done|]. eexists. intros started dropped. by apply Hsent.
  - pose proof Hl as [Hr Ho Hu Hsl Hb Hls Hf]. apply untimed_proj in Hls as (H1 & H2 & H3).
    pose proof (settle_told at_ (b, b, Broke at_ err) (meter_failure (failure_from_error err) (set_buf [] (set_inner_done m))) (Broke at_ err)) as H.
    simpl in H. destruct (meter_settle _ _ _) as [m' sent]. destruct H as [Hov Hsent]; try done.
    split; [done|]. split; [done|]. eexists. intros started dropped. by apply Hsent.
  - pose proof Hl as [Hr Ho Hu Hsl Hb Hls Hf].
    assert (Hflush : let '(residual, m1) := flush at_ (set_inner_done m) in
      ms_report m1 = report /\ ms_settled m1 = false /\ ms_slotted m1 = slotted /\ ms_inner_done m1 = true /\ ms_started m1 = true /\
      ms_framing m1 = observe b (for_protocol protocol) /\ untimed (ms_lines m1) = untimed (note_text lines_new b)).
    { unfold flush. cbn [ms_buf set_inner_done]. case_bool_decide as Hbuf.
      - repeat split; try done. cbn [ms_lines set_inner_done]. rewrite Hls. rewrite (parts b) at 2. rewrite <- Hb, Hbuf. by rewrite app_nil_r.
      - pose proof (transform_state (sr_pricing (ms_report (set_inner_done m))) (slot_usage at_ (set_inner_done m)) (at_elapsed_ms at_)
          (ms_buf m) (ms_lines m)) as Ht. cbn [ms_lines set_inner_done] in *. destruct (transform_lines _ _ _ _ _) as [out s].
        repeat split; try done. cbn [ms_lines set_lines]. cbn [snd] in Ht. rewrite Ht, (note_text_eq _ _ _ Hls), note_text_complete, Hb.
        by rewrite <- parts. }
    destruct (flush at_ (set_inner_done m)) as [residual m1]. destruct Hflush as (Hr1 & Hs1 & Hsl1 & Hd1 & Hst1 & Hf1 & Hls1).
    apply untimed_proj in Hls1 as (H1 & H2 & H3).
    pose proof (settle_told at_ (b, b, Closed at_) m1 (Closed at_)) as H. simpl in H.
    destruct (meter_settle _ _ _) as [m' sent]. destruct H as [Hov Hsent]; try done.
    split; [done|]. split; [done|]. eexists. intros started dropped. by apply Hsent.
  - done.
Qed.

Lemma tale_ended b used rest : has_ended (tale b used) = true -> tale b (used ++ rest) = tale b used.
Proof.
  revert b. induction used as [|[at_ reply] used IH]; intros b; simpl; [done|].
  destruct reply; try done; [|apply IH]. destruct (oversized_line _); [done|apply IH].
Qed.
Lemma tale_app b used rest b' : tale b used = (b', b', Left) -> tale b (used ++ rest) = tale b' rest.
Proof.
  revert b. induction used as [|[at_ reply] used IH]; intros b; simpl; [by intros [= ->]|].
  destruct reply; try done; [|apply IH]. destruct (oversized_line _); [done|apply IH].
Qed.

(** What a call leaves behind, and the reports it has sent. *)
Definition stands (b : bytes) (used : list (Moment * Reply)) (m : MeterStream) (sent : list PostReport) : Prop :=
  let t := tale b used in
  if has_ended t then
    over m /\ exists ttft, forall started dropped, sent = the_report report protocol slotted started t ttft dropped
  else t.1.1 = t.1.2 /\ sent = [] /\ live t.1.1 m.
Lemma poll_live replies b m : live b m ->
  let '(polled, m', sent, rest) := meter_poll replies m in
  exists used, replies = used ++ rest /\ stands b used m' sent /\ ms_started m' = true /\
    (has_ended (tale b used) = true \/ rest = [] \/ used ≠ []).
Proof.
  revert b m. induction replies as [|[at_ reply] replies IH]; intros b m Hl; simpl.
  all: assert (Hl1 : live b (set_meter_started m)) by (destruct Hl; by split).
  - rewrite (lv_open _ _ Hl). exists []. split; [done|]. split; [by unfold stands|]. auto.
  - rewrite (lv_open _ _ Hl). pose proof (receive_live b at_ reply (set_meter_started m) Hl1 eq_refl) as Hr. cbn zeta in Hr.
    destruct (meter_receive at_ reply (set_meter_started m)) as [[polled m1] sent].
    destruct (has_ended (tale b [(at_, reply)])) eqn:Hend.
    + destruct Hr as (Hov & [polled' ->] & Hsent). exists [(at_, reply)]. split; [done|]. unfold stands. rewrite Hend.
      split; [done|]. split; [by destruct Hov as (_ & _ & ?)|]. auto.
    + destruct Hr as (Heq & -> & Hl2 & Hst). set (b1 := (tale b [(at_, reply)]).1.1) in *.
      assert (Ht : tale b [(at_, reply)] = (b1, b1, Left)).
      { unfold b1 in *. destruct (tale b [(at_, reply)]) as [[x y] e]. simpl in *. subst. by destruct e. }
      destruct polled as [polled|].
      * exists [(at_, reply)]. split; [done|]. unfold stands. rewrite Ht. simpl. split; [done|]. split; [done|]. by right; right.
      * specialize (IH b1 m1 Hl2). destruct (meter_poll replies m1) as [[[p m2] sent2] rest].
        destruct IH as (used & -> & Hs & Hst2 & _). exists ((at_, reply) :: used). split; [done|]. unfold stands in *.
        change ((at_, reply) :: used) with ([(at_, reply)] ++ used). rewrite (tale_app _ _ _ _ Ht).
        split; [done|]. split; [done|]. by right; right.
Qed.
Lemma poll_over replies m : over m -> exists m', meter_poll replies m = (MeterEnd, m', [], replies) /\ over m'.
Proof.
  intros (Hd & Hs & Hst). exists (set_meter_started m). split; [|by unfold over].
  destruct replies as [|[at_ reply] replies]; simpl; by rewrite Hd.
Qed.
Lemma polls_over n replies m : over m -> exists ps m', meter_polls n replies m = (ps, m', [], replies) /\ over m'.
Proof.
  revert m. induction n as [|n IH]; intros m Hm; simpl; [eauto|].
  destruct (poll_over replies m Hm) as (m1 & -> & Hm1). destruct (IH m1 Hm1) as (ps & m2 & -> & Hm2). eauto.
Qed.
Lemma polls_live n replies b m : live b m ->
  let '(ps, m', sent, rest) := meter_polls n replies m in
  exists used, replies = used ++ rest /\ stands b used m' sent /\ (ms_started m' = ms_started m || negb (bool_decide (n = 0))) /\
    (length replies <= n -> has_ended (tale b used) = true \/ rest = []).
Proof.
  revert replies b m. induction n as [|n IH]; intros replies b m Hl; simpl.
  - exists []. rewrite orb_false_r. split; [done|]. split; [by unfold stands|]. split; [done|]. destruct replies; simpl; [by right|lia].
  - pose proof (poll_live replies b m Hl) as Hp. destruct (meter_poll replies m) as [[[p m1] sent1] rest1].
    destruct Hp as (used1 & -> & Hs1 & Hst1 & Hprog). unfold stands in Hs1. destruct (has_ended (tale b used1)) eqn:Hend.
    + destruct Hs1 as [Hov Hsent]. destruct (polls_over n rest1 m1 Hov) as (ps & m2 & -> & Hov2).
      exists used1. rewrite orb_true_r. split; [done|]. unfold stands. rewrite Hend, app_nil_r. split; [done|].
      split; [by destruct Hov2 as (_ & _ & ?)|]. by left.
    + destruct Hs1 as (Heq & -> & Hl1). set (b1 := (tale b used1).1.1) in *.
      assert (Ht : tale b used1 = (b1, b1, Left)).
      { unfold b1 in *. destruct (tale b used1) as [[x y] e]. simpl in *. subst. by destruct e. }
      specialize (IH rest1 b1 m1 Hl1). destruct (meter_polls n rest1 m1) as [[[ps m2] sent2] rest2].
      destruct IH as (used2 & -> & Hs2 & Hst2 & Hall). exists (used1 ++ used2). rewrite orb_true_r, <- app_assoc. split; [done|].
      unfold stands in *. rewrite (tale_app _ _ _ _ Ht). split; [done|]. split; [by rewrite Hst2, Hst1|].
      intros Hn. rewrite !length_app in *. destruct Hprog as [?|[Hrest|Hne]]; [congruence| |].
      * apply app_nil in Hrest as [-> ->]. by right.
      * apply Hall. destruct used1; [done|]. simpl in *. lia.
Qed.

Lemma drop_over at_ m : over m -> (meter_drop at_ m).2 = [].
Proof. intros (_ & Hs & _). unfold meter_drop, meter_settle. simpl. rewrite Hs. by repeat case_match. Qed.
Lemma drop_live at_ b m : live b m ->
  (meter_drop at_ m).2 = the_report report protocol slotted (ms_started m) (b, b, Left) (ls_ttft_ms (ms_lines m)) at_.
Proof.
  intros [Hr Ho Hu Hsl Hb Hls Hf]. apply untimed_proj in Hls as (H1 & H2 & H3).
  unfold meter_drop, the_report, told_failure, told_outcome, settled_at, lines_read.
  destruct (ms_started m) eqn:Hst, (at_downstream_abort at_) eqn:Ha; cbn [negb andb];
    match goal with |- (meter_settle ?a ?o ?m').2 = _ =>
      pose proof (settle_sends a o m' Hr Hu Hsl) as H; destruct (meter_settle a o m') as [m1 sent]; destruct H as (_ & _ & _ & ->) end;
    cbn [snd ms_lines meter_failure set_lines set_failure ls_last_usage ls_ttft_ms]; rewrite H1; f_equal;
    unfold settled_failure; cbn [ms_lines meter_failure set_lines set_failure ls_failure ls_saw_error ms_framing]; by rewrite ?H2, ?H3, ?Hf.
Qed.
(** Who sends the report: the meter when it has settled, its drop when it has not. *)
Lemma meter_accounts n replies dropped :
  let '(_, m, sent, rest) := meter_polls n replies meter_for in
  exists used started ttft, replies = used ++ rest /\
    let told := the_report report protocol slotted started (tale [] used) ttft dropped in
    if ms_settled m then sent = told /\ (meter_drop dropped m).2 = [] else sent = [] /\ (meter_drop dropped m).2 = told.
Proof.
  pose proof (polls_live n replies [] _ live_new) as H.
  destruct (meter_polls n replies meter_for) as [[[ps m] sent] rest]. destruct H as (used & -> & Hs & _). exists used.
  unfold stands in Hs. cbn zeta in *. destruct (has_ended (tale [] used)) eqn:Hend.
  - destruct Hs as [Hov [ttft Hsent]]. exists true, ttft. split; [done|]. rewrite (drop_over _ _ Hov).
    destruct Hov as (_ & -> & _). split; [apply Hsent|done].
  - destruct Hs as (Heq & -> & Hl). exists (ms_started m), (ls_ttft_ms (ms_lines m)). split; [done|].
    rewrite (lv_unsettled _ _ Hl). split; [done|]. rewrite (drop_live _ _ _ Hl). f_equal.
    destruct (tale [] used) as [[x y] e]. simpl in *. subst. by destruct e.
Qed.
End Life.

(** The moment a stream is settled at is one of a reply, or the drop. *)
Lemma tale_moment (P : Moment -> Prop) b replies dropped :
  Forall (fun reply => P reply.1) replies -> P dropped -> P (settled_at (tale b replies).2 dropped).
Proof.
  intros Hall Hd. revert b. induction Hall as [|[at_ reply] replies Hp _ IH]; intros b; [done|]. cbn in Hp |- *.
  destruct reply; cbn; auto. by destruct (oversized_line _).
Qed.
(** What the report of a stream says of the request, whatever became of the stream. *)
Lemma the_report_row {DC : Decimals} {SJ : SerdeJson} report protocol slotted started t ttft dropped :
  at_in_runtime (settled_at t.2 dropped) = true ->
  exists row, the_report report protocol slotted started t ttft dropped = [row] /\
    pr_attempt_index row = Some (sr_attempt_index report) /\ pr_request_id row = sr_request_id report /\
    pr_selected_route_id row = sr_selected_route_id report /\ pr_pricing row = sr_pricing report /\
    pr_tenant row = sr_tenant report /\ pr_prefix_hash row = sr_prefix_hash report.
Proof.
  destruct t as [[read arrived] ending]. cbn [snd]. intros Hrt. unfold the_report, report_settle. rewrite Hrt.
  by repeat case_match; eexists.
Qed.

Section Metered.
Context {DC : Decimals} {SJ : SerdeJson}.
(** C7: A stream is reported exactly once. However the bytes of a stream are cut into chunks,
    however often it is polled and whenever it is dropped, one report is sent, and it is
    determined by the stream's history: the lines whose line break has arrived (and the last one
    without a break if the stream ended cleanly) give the usage and the errors it reported; the
    framing observer's reading of all bytes and the way the stream ended give the outcome: 499
    when the client left, the upstream's status when the response was delivered, 504 when the
    gateway's deadline cut it and 502 for any other failure. Polling at least as often as the
    inner stream has replies reads all of it up to its end. *)
Theorem stream_metered_once report protocol slotted n replies dropped :
  let '(polls, m, sent, rest) := meter_polls n replies (meter_for report protocol slotted) in
  exists used ttft, replies = used ++ rest /\
    let t := tale [] used in
    let all := sent ++ (meter_drop dropped m).2 in
    all = the_report report protocol slotted (negb (bool_decide (n = 0))) t ttft dropped /\
    length all = (if at_in_runtime (settled_at t.2 dropped) then 1 else 0) /\
    (length replies <= n -> t = tale [] replies).
Proof.
  pose proof (polls_live report protocol slotted n replies [] _ (live_new report protocol slotted)) as H.
  destruct (meter_polls n replies (meter_for report protocol slotted)) as [[[ps m] sent] rest].
  destruct H as (used & -> & Hs & Hst & Hall). exists used. unfold stands in Hs. cbn zeta in *.
  assert (Hlen : forall st ttft, length (the_report report protocol slotted st (tale [] used) ttft dropped) =
    if at_in_runtime (settled_at (tale [] used).2 dropped) then 1 else 0).
  { intros st ttft. unfold the_report, report_settle. destruct (tale [] used) as [[read arrived] ending]. simpl. by repeat case_match. }
  assert (Htale : length (used ++ rest) <= n -> tale [] used = tale [] (used ++ rest)).
  { intros Hn. destruct (Hall Hn) as [He| ->]; [by rewrite tale_ended|by rewrite app_nil_r]. }
  destruct (has_ended (tale [] used)) eqn:Hend.
  - destruct Hs as [Hov [ttft Hsent]]. exists ttft. split; [done|]. rewrite (drop_over _ _ Hov), app_nil_r.
    rewrite (Hsent (negb (bool_decide (n = 0))) dropped) at 1. split; [done|]. split; [|done].
    by rewrite (Hsent (negb (bool_decide (n = 0))) dropped).
  - destruct Hs as (Heq & -> & Hl). set (b := (tale [] used).1.1) in *.
    assert (Ht : tale [] used = (b, b, Left)).
    { unfold b in *. destruct (tale [] used) as [[x y] e]. simpl in *. subst. by destruct e. }
    exists (ls_ttft_ms (ms_lines m)). split; [done|]. cbn [app]. rewrite (drop_live report protocol slotted _ b) by done.
    rewrite Hst, <- Ht. replace (ms_started (meter_for report protocol slotted)) with false by (unfold meter_for; by destruct slotted).
    cbn [orb]. split; [done|]. split; [apply Hlen|done].
Qed.
End Metered.

(** ** What the client receives *)
Lemma is_utf8_lf a b : is_utf8 (a ++ lf :: b) = is_utf8 a && is_utf8 b.
Proof.
  remember (length a) as n eqn:Hn. revert a Hn. induction (lt_wf n) as [n _ IH]. intros a ->.
  assert (Hrec : forall a', length a' < length a -> is_utf8 (a' ++ lf :: b) = is_utf8 a' && is_utf8 b) by (intros; by eapply IH).
  clear IH. destruct a as [|c a]; [reflexivity|].
  pose proof lf_not_continuation as H1. pose proof lf_not_second as H2. cbn [app is_utf8].
  destruct (in_range 0 127 c); [apply Hrec; simpl; lia|].
  destruct a as [|c1 a]; cbn [app].
  { rewrite H1, !H2. destruct (in_range 194 223 c); [done|]. destruct b as [|d b]; [done|].
    destruct (in_range 224 239 c); [done|]. destruct b; [done|]. by rewrite andb_false_r. }
  destruct (in_range 194 223 c); [rewrite Hrec by (simpl; lia); by rewrite andb_assoc|].
  destruct a as [|c2 a]; cbn [app].
  { rewrite H1. destruct (in_range 224 239 c); [by rewrite andb_false_r|]. destruct b; [done|]. by rewrite andb_false_r. }
  destruct (in_range 224 239 c); [rewrite Hrec by (simpl; lia); by rewrite andb_assoc|].
  destruct a as [|c3 a]; cbn [app]; [by rewrite H1, andb_false_r|].
  rewrite Hrec by (simpl; lia). by rewrite andb_assoc.
Qed.
Lemma split_lf_ne l : split_bytes is_lf l ≠ [].
Proof. induction l as [|c l IH]; simpl; [done|]. destruct (is_lf c); [done|]. by destruct (split_bytes is_lf l). Qed.
Lemma join_cons l ls : ls ≠ [] -> join_lines (l :: ls) = l ++ lf :: join_lines ls.
Proof. by destruct ls. Qed.
Lemma join_app ls ls' : ls' ≠ [] -> join_lines (ls ++ [[]]) ++ join_lines ls' = join_lines (ls ++ ls').
Proof.
  intros Hne. induction ls as [|l ls IH]; [done|]. cbn [app]. rewrite !join_cons by (by destruct ls, ls').
  rewrite <- IH. by rewrite <- app_assoc.
Qed.
Lemma join_split l : join_lines (split_bytes is_lf l) = l.
Proof.
  induction l as [|c l IH]; [done|]. simpl. pose proof (split_lf_ne l) as Hne. unfold is_lf at 1. case_bool_decide as Hc.
  - rewrite join_cons by done. by rewrite IH, Hc.
  - destruct (split_bytes is_lf l) as [|t ts]; [done|]. rewrite <- IH. by destruct ts.
Qed.

Section Delivered.
Context {DC : Decimals} {SJ : SerdeJson} (pricing : option value).

(** Usage so far: what the report would say if the stream ended after these lines. *)
Definition usage_after (lines : list bytes) : option value := ls_last_usage (foldl note_line lines_new lines).
(** The line the client receives in place of the [i]th of [lines]: a priced usage
    shows the cost of the usage so far. *)
Definition shown_at (lines : list bytes) (i : nat) (line : bytes) : bytes :=
  match line_json line with
  | None => line
  | Some parsed =>
      match usage_of parsed with
      | None => line
      | Some (top, usage) =>
          let shown := normalize_reasoning_usage_value usage in
          match non_null pricing with
          | Some pricing =>
              let billed := default JNull (usage_after (take (S i) lines)) in
              as_bytes "data: " ++ to_vec (with_usage top (set_member "cost" (cost_to_json (compute_cost billed pricing)) shown) parsed)
          | None => if reasoning_promoted usage then as_bytes "data: " ++ to_vec (with_usage top shown parsed) else line
          end
      end
  end.

(** The same in the order the code goes. *)
Fixpoint show_lines (s : LineState) (lines : list bytes) : list bytes :=
  match lines with
  | [] => []
  | line :: lines' => shown_line line (meter_line pricing None 0 line s).1 :: show_lines (note_line s line) lines'
  end.
Lemma meter_line_out elapsed line s s' : untimed s = untimed s' ->
  (meter_line pricing None elapsed line s).1 = (meter_line pricing None 0 line s').1.
Proof.
  intros Hs. unfold meter_line. destruct (line_json line) as [v|]; [|done].
  set (s1 := if bool_decide (ls_ttft_ms s = None) && is_content line then _ else _).
  set (s2 := if bool_decide (ls_ttft_ms s' = None) && is_content line then _ else _).
  assert (H1 : untimed s1 = untimed s) by (unfold s1; by case_match).
  assert (H2 : untimed s2 = untimed s') by (unfold s2; by case_match).
  assert (H12 : untimed (note_start v (detect_outcome v s1)) = untimed (note_start v (detect_outcome v s2))).
  { unfold untimed in *. rewrite <- !note_start_untimed, <- !detect_untimed. by rewrite H1, H2, Hs. }
  destruct (usage_of v) as [[top u]|]; [|done].
  assert (Hst : ls_start_usage (note_start v (detect_outcome v s1)) = ls_start_usage (note_start v (detect_outcome v s2)))
    by (by injection H12).
  unfold billed_usage. rewrite Hst. by destruct (bool_decide (non_null pricing = None) && negb (reasoning_promoted u)).
Qed.
Lemma show_lines_untimed lines s s' : untimed s = untimed s' -> show_lines s lines = show_lines s' lines.
Proof.
  revert s s'. induction lines as [|l lines IH]; intros s s' Hs; simpl; [done|]. f_equal.
  - by rewrite (meter_line_out 0 l s s').
  - apply IH. unfold untimed in *. by rewrite <- !note_line_untimed, Hs.
Qed.
Lemma show_lines_app lines lines' s : show_lines s (lines ++ lines') = show_lines s lines ++ show_lines (foldl note_line s lines) lines'.
Proof. revert s. induction lines as [|l lines IH]; intros s; simpl; [done|]. by rewrite IH. Qed.
Lemma show_lines_length lines s : length (show_lines s lines) = length lines.
Proof. revert s. induction lines as [|l lines IH]; intros s; simpl; [done|]. by rewrite IH. Qed.
Lemma meter_lines_show elapsed lines s :
  zip_with shown_line lines (meter_lines pricing None elapsed lines s).1 = show_lines s lines.
Proof.
  revert s. induction lines as [|l lines IH]; intros s; simpl; [done|].
  pose proof (meter_line_state pricing None elapsed l s) as Hs. pose proof (meter_line_out elapsed l s s eq_refl) as Ho.
  destruct (meter_line pricing None elapsed l s) as [out s']. specialize (IH s').
  destruct (meter_lines pricing None elapsed lines s') as [outs s'']. simpl in *. rewrite IH, Ho. f_equal. by apply show_lines_untimed.
Qed.
Lemma zip_unchanged (lines : list bytes) outs : existsb (fun o : option bytes => bool_decide (is_Some o)) outs = false -> length outs = length lines ->
  zip_with shown_line lines outs = lines.
Proof.
  revert outs. induction lines as [|l lines IH]; intros [|o outs] He Hlen; try done. simpl in *.
  apply orb_false_elim in He as [Ho He]. rewrite IH by (done || lia). by destruct o.
Qed.
Lemma meter_lines_length slot elapsed lines s : length (meter_lines pricing slot elapsed lines s).1 = length lines.
Proof.
  revert s. induction lines as [|l lines IH]; intros s; simpl; [done|]. destruct (meter_line _ _ _ _ _) as [out s'].
  specialize (IH s'). destruct (meter_lines _ _ _ _ _). simpl in *. by rewrite IH.
Qed.
(** A run of lines that is text. *)
Lemma transform_out elapsed raw s : is_utf8 raw = true ->
  (transform_lines pricing None elapsed raw s).1 = join_lines (show_lines s (split_bytes is_lf raw)).
Proof.
  intros Hu. unfold transform_lines. rewrite event_string_lossy, (utf8_lossy_valid raw Hu).
  pose proof (meter_lines_show elapsed (split_bytes is_lf raw) s) as Hz.
  pose proof (meter_lines_length None elapsed (split_bytes is_lf raw) s) as Hl.
  destruct (meter_lines pricing None elapsed (split_bytes is_lf raw) s) as [outs s']. simpl in *. rewrite <- Hz.
  destruct (existsb _ outs) eqn:He; [done|]. by rewrite (zip_unchanged _ _ He Hl), join_split.
Qed.

(** The two forms agree. *)
Lemma shown_at_line (before : list bytes) line rest :
  shown_line line (meter_line pricing None 0 line (foldl note_line lines_new before)).1 =
  shown_at (before ++ line :: rest) (length before) line.
Proof.
  unfold shown_at, meter_line, shown_line, usage_after.
  assert (Htake : take (S (length before)) (before ++ line :: rest) = before ++ [line]).
  { change (line :: rest) with ([line] ++ rest). rewrite app_assoc. apply take_app_length'. rewrite length_app. simpl. lia. }
  rewrite Htake, foldl_app. cbn [foldl]. set (s := foldl note_line lines_new before). unfold note_line.
  destruct (line_json line) as [v|]; [|done].
  set (s' := if bool_decide (ls_ttft_ms s = None) && is_content line then _ else _).
  assert (Hs' : exists t, s' = set_ttft t s).
  { unfold s'. case_match; [by eexists|]. exists (ls_ttft_ms s). by destruct s. }
  destruct Hs' as [t ->]. rewrite detect_untimed, note_start_untimed.
  destruct (usage_of v) as [[top u]|]; [|done].
  change (billed_usage v ?x (set_ttft t ?y)) with (billed_usage v x y). cbn [ls_last_usage set_last_usage default from_option id].
  unfold shown_usage. destruct (non_null pricing) as [p|]; [done|]. cbn [bool_decide decide_rel andb].
  rewrite bool_decide_eq_true_2 by done. simpl. by destruct (reasoning_promoted u).
Qed.
Lemma show_lines_at lines : show_lines lines_new lines = imap (shown_at lines) lines.
Proof.
  assert (H : forall rest before, show_lines (foldl note_line lines_new before) rest =
    imap (fun i line => shown_at (before ++ rest) (length before + i) line) rest).
  { induction rest as [|l rest IH]; intros before; simpl; [done|]. f_equal.
    - rewrite Nat.add_0_r. apply shown_at_line.
    - specialize (IH (before ++ [l])). rewrite foldl_app in IH. cbn [foldl] in IH. rewrite IH. apply imap_ext. intros i x _.
      rewrite <- app_assoc, length_app. simpl. f_equal. lia. }
  apply (H lines []).
Qed.

(** The text shown for a text of whole lines, and for more text after it. *)
Definition shown_text (text : bytes) : bytes := join_lines (show_lines lines_new (split_bytes is_lf text)).
Lemma note_text_valid s text : is_utf8 text = true -> note_text s text = foldl note_line s (split_bytes is_lf text).
Proof. intros Hu. unfold note_text. by rewrite <- split_lossy, utf8_lossy_valid. Qed.
Lemma whole_valid b rest : is_utf8 (complete_part b ++ rest) = true -> is_utf8 (complete_part b) = true /\ is_utf8 rest = true.
Proof.
  destruct (complete_part_ends b) as [->|[c ->]]; [done|]. rewrite <- app_assoc. simpl. rewrite !is_utf8_lf.
  intros [-> ->]%andb_prop. done.
Qed.
Lemma shown_more b more : is_utf8 (complete_part b) = true ->
  shown_text (complete_part b ++ more) =
  shown_text (complete_part b) ++ join_lines (show_lines (note_text lines_new (complete_part b)) (split_bytes is_lf more)).
Proof.
  intros Hu. rewrite note_text_valid by done. unfold shown_text. destruct (complete_part_ends b) as [->|[c ->]]; [done|].
  rewrite <- app_assoc. simpl. rewrite !split_lf_app, !show_lines_app, foldl_app.
  change (split_bytes is_lf []) with [@nil ascii]. cbn [show_lines foldl]. rewrite note_line_blank.
  replace (shown_line [] _) with (@nil ascii) by done. symmetry. apply join_app.
  intros Hn. apply (f_equal length) in Hn. rewrite show_lines_length in Hn. by apply length_zero_iff_nil, split_lf_ne in Hn.
Qed.
Lemma transform_shown b elapsed more s : untimed s = untimed (note_text lines_new (complete_part b)) ->
  is_utf8 (complete_part b) = true -> is_utf8 more = true ->
  shown_text (complete_part b ++ more) = shown_text (complete_part b) ++ (transform_lines pricing None elapsed more s).1.
Proof. intros Hs Hb Hm. rewrite shown_more, transform_out by done. do 2 f_equal. symmetry. by apply show_lines_untimed. Qed.

Context (report : StreamReport) (protocol : SseProtocol) (Hpricing : sr_pricing report = pricing).
Definition item_bytes (p : option MeterPoll) : bytes := match p with Some (MeterItem (Ok out)) => out | _ => [] end.
Notation live := (live report protocol false).

Lemma tale_extends b replies : exists more, (tale b replies).1.1 = b ++ more.
Proof.
  revert b. induction replies as [|[at_ reply] replies IH]; intros b; simpl; [exists []; by rewrite app_nil_r|].
  destruct reply as [chunk|err| |]; try (exists []; by rewrite app_nil_r); [|apply IH].
  destruct (oversized_line _); [exists []; by rewrite app_nil_r|]. destruct (IH (b ++ chunk)) as [more ->].
  exists (chunk ++ more). by rewrite app_assoc.
Qed.
(** One reply of a stream that will end cleanly, its text being text. *)
Lemma receive_out b at_ reply replies m text closed : live b m -> ms_started m = true ->
  tale b ((at_, reply) :: replies) = (text, text, Closed closed) -> is_utf8 text = true ->
  let '(polled, m', sent) := meter_receive at_ reply m in
  if has_ended (tale b [(at_, reply)]) then shown_text text = shown_text (complete_part b) ++ item_bytes polled
  else exists b', live b' m' /\ tale b' replies = (text, text, Closed closed) /\
         shown_text (complete_part b') = shown_text (complete_part b) ++ item_bytes polled.
Proof.
  intros Hl Hst Ht Hu. pose proof (receive_live report protocol false b at_ reply m Hl Hst) as Hr. cbn zeta in Hr.
  pose proof (tale_extends b ((at_, reply) :: replies)) as [more Hmore]. rewrite Ht in Hmore. simpl in Hmore.
  pose proof Hl as [Hrep Ho Hun Hsl Hb Hls Hf].
  assert (Hvb : is_utf8 (complete_part b) = true).
  { rewrite Hmore, (parts b), <- app_assoc in Hu. by apply whole_valid in Hu as [? _]. }
  destruct reply as [chunk|err| |]; simpl in Ht |- *; try done.
  - cbn [tale] in Hr. destruct (oversized_line (open_part b ++ chunk)) eqn:Hov; [done|]. cbn [has_ended snd fst] in Hr.
    simpl in Hr. pose proof (split_last_more b chunk) as Hp. unfold process in *. cbn [ms_buf set_buf set_framing] in *. rewrite Hb, Hov in *.
    destruct (split_last_lf (open_part b ++ chunk)) as [[complete rest]|] eqn:Hsplit.
    + destruct Hp as [Hc Hop]. cbn [ms_report set_buf set_framing ms_lines] in *. unfold slot_usage in *. cbn [ms_slotted set_buf set_framing] in *.
      rewrite Hsl, Hrep, Hpricing in *.
      assert (Hout : shown_text (complete_part b ++ complete) = shown_text (complete_part b) ++ (transform_lines pricing None (at_elapsed_ms at_) complete (ms_lines m)).1).
      { apply transform_shown; [done|done|].
        pose proof (split_last_spec (open_part b ++ chunk)) as Hsp. rewrite Hsplit in Hsp. destruct Hsp as (c & -> & Hoc & _).
        pose proof (tale_extends (b ++ chunk) replies) as [more' Hm']. rewrite Ht in Hm'. simpl in Hm'.
        rewrite Hm', (parts b), <- !app_assoc, (app_assoc (open_part b)), Hoc in Hu. apply whole_valid in Hu as [_ Hu].
        rewrite <- !app_assoc in Hu. simpl in Hu. rewrite is_utf8_lf in Hu. apply andb_prop in Hu as [Huc _].
        by rewrite is_utf8_lf, Huc. }
      destruct (transform_lines pricing None (at_elapsed_ms at_) complete (ms_lines m)) as [out s]. simpl in Hr, Hout.
      destruct Hr as (_ & _ & Hl' & _). exists (b ++ chunk). split; [done|]. split; [done|]. simpl. by rewrite Hc.
    + destruct Hp as [Hc Hop]. simpl in Hr. destruct Hr as (_ & _ & Hl' & _). exists (b ++ chunk). split; [done|]. split; [done|].
      simpl. by rewrite Hc, app_nil_r.
  - injection Ht as -> _. unfold flush. cbn [ms_buf set_inner_done ms_lines ms_report]. rewrite Hb, Hrep, Hpricing.
    unfold slot_usage. cbn [ms_slotted set_inner_done]. rewrite Hsl.
    case_bool_decide as Hop.
    + destruct (meter_settle _ _ _) as [m' sent]. simpl. rewrite app_nil_r. rewrite (parts text) at 1. by rewrite Hop, app_nil_r.
    + pose proof (transform_shown text (at_elapsed_ms at_) (open_part text) (ms_lines m) Hls Hvb) as Hout.
      destruct (transform_lines pricing None (at_elapsed_ms at_) (open_part text) (ms_lines m)) as [out s].
      destruct (meter_settle _ _ _) as [m' sent]. simpl in *. rewrite <- Hout, <- parts; [done|].
      rewrite (parts text) in Hu. by apply whole_valid in Hu as [_ ?].
  - destruct Hr as (_ & _ & Hl' & _). exists b. split; [done|]. split; [done|]. by rewrite app_nil_r.
Qed.

Lemma poll_out replies b m text closed : live b m -> tale b replies = (text, text, Closed closed) -> is_utf8 text = true ->
  let '(polled, m', sent, rest) := meter_poll replies m in
  exists out, out = item_bytes (Some polled) /\
    ((over m' /\ shown_text text = shown_text (complete_part b) ++ out) \/
     (length rest < length replies /\ exists b', live b' m' /\ tale b' rest = (text, text, Closed closed) /\
        shown_text (complete_part b') = shown_text (complete_part b) ++ out)).
Proof.
  revert b m. induction replies as [|[at_ reply] replies IH]; intros b m Hl Ht Hu; [done|].
  assert (Hl1 : live b (set_meter_started m)) by (destruct Hl; by split).
  cbn [meter_poll ms_inner_done set_meter_started]. rewrite (lv_open _ _ _ _ _ Hl).
  pose proof (receive_out b at_ reply replies _ text closed Hl1 eq_refl Ht Hu) as Ho.
  pose proof (receive_live report protocol false b at_ reply (set_meter_started m) Hl1 eq_refl) as Hr. cbn zeta in Hr.
  destruct (meter_receive at_ reply (set_meter_started m)) as [[polled m1] sent].
  destruct (has_ended (tale b [(at_, reply)])).
  - destruct Hr as (Hov & [p ->] & _). eexists. split; [done|]. left. by split.
  - destruct Ho as (b1 & Hl2 & Ht2 & Hout). destruct polled as [p|].
    + eexists. split; [done|]. right. split; [simpl; lia|]. by exists b1.
    + specialize (IH b1 m1 Hl2 Ht2 Hu). destruct (meter_poll replies m1) as [[[p m2] sent2] rest].
      destruct IH as (out & -> & [[Hov Hs]|(Hlt & b2 & Hl3 & Ht3 & Hs)]); eexists; (split; [done|]);
        rewrite Hout, app_nil_r in Hs.
      * left. by split.
      * right. split; [simpl; lia|]. by exists b2.
Qed.
Definition delivered (polls : list MeterPoll) : bytes := concat ((fun p => item_bytes (Some p)) <$> polls).
Lemma delivered_cons p ps : delivered (p :: ps) = item_bytes (Some p) ++ delivered ps.
Proof. done. Qed.
Lemma polls_out n replies b m text closed : live b m -> tale b replies = (text, text, Closed closed) -> is_utf8 text = true ->
  length replies <= n ->
  let '(polls, m', sent, rest) := meter_polls n replies m in shown_text text = shown_text (complete_part b) ++ delivered polls.
Proof.
  revert replies b m. induction n as [|n IH]; intros replies b m Hl Ht Hu Hn; simpl; [by destruct replies; simpl in *; [|lia]|].
  pose proof (poll_out replies b m text closed Hl Ht Hu) as Hp. destruct (meter_poll replies m) as [[[p m1] sent1] rest].
  destruct Hp as (out & -> & [[Hov Hs]|(Hlt & b1 & Hl1 & Ht1 & Hs)]).
  - assert (Hov' : exists ps m2, meter_polls n rest m1 = (ps, m2, [], rest) /\ delivered ps = []).
    { clear -Hov. revert m1 Hov. induction n as [|n IH]; intros m Hm; simpl; [by exists [], m|].
      destruct (poll_over rest m Hm) as (m1 & -> & Hm1). destruct (IH m1 Hm1) as (ps & m2 & -> & Hd). eexists _, _. split; [done|]. done. }
    destruct Hov' as (ps & m2 & -> & Hd). by rewrite delivered_cons, Hd, app_nil_r.
  - assert (Hn1 : length rest <= n) by lia. specialize (IH rest b1 m1 Hl1 Ht1 Hu Hn1).
    destruct (meter_polls n rest m1) as [[[ps m2] sent2] rest2]. by rewrite delivered_cons, IH, Hs, app_assoc.
Qed.
End Delivered.

Section Shown.
Context {DC : Decimals} {SJ : SerdeJson}.
(** C32: The cost shown is the cost billed, and nothing else is touched. For a text stream that
    ends cleanly and whose meter has no upstream-usage slot (a bridged chat stream has one: it
    is priced and reported by what the bridge leaves there), the client receives the stream line by line as
    it was, however it was cut into chunks, except that each event with a usage shows it with
    the reasoning count in its documented place and, when the request is priced, with the cost
    of the usage counted so far; the usage of the report is the one counted at the end, so the
    last cost the client saw is the cost of what is reported. *)
Theorem shown_cost_is_billed report protocol n replies text closed dropped :
  tale [] replies = (text, text, Closed closed) -> is_utf8 text = true -> length replies <= n -> at_in_runtime closed = true ->
  let lines := split_bytes is_lf text in
  let '(polls, m, sent, rest) := meter_polls n replies (meter_for report protocol false) in
  delivered polls = join_lines (imap (shown_at (sr_pricing report) lines) lines) /\
  exists r, sent ++ (meter_drop dropped m).2 = [r] /\ pr_usage r = usage_after lines /\ pr_pricing r = sr_pricing report.
Proof.
  intros Ht Hu Hn Hrt lines.
  pose proof (polls_out (sr_pricing report) report protocol eq_refl n replies [] _ text closed (live_new report protocol false) Ht Hu Hn) as Ho.
  pose proof (polls_live report protocol false n replies [] _ (live_new report protocol false)) as H.
  destruct (meter_polls n replies (meter_for report protocol false)) as [[[ps m] sent] rest].
  split.
  { change (shown_text _ (complete_part [])) with (@nil ascii) in Ho. cbn [app] in Ho. rewrite <- Ho. unfold shown_text. by rewrite show_lines_at. }
  destruct H as (used & -> & Hs & _ & Hall). unfold stands in Hs. cbn zeta in Hs.
  assert (Htu : tale [] used = (text, text, Closed closed)).
  { destruct (Hall Hn) as [He| ->]; [by rewrite <- (tale_ended [] used rest He)|by rewrite app_nil_r in Ht]. }
  rewrite Htu in Hs. simpl in Hs. destruct Hs as [Hov [ttft Hsent]]. rewrite (drop_over _ _ Hov), app_nil_r, (Hsent true dropped).
  unfold report_settle, settled_at. rewrite Hrt. unfold lines_read, usage_after. rewrite (note_text_valid lines_new text Hu). fold lines.
  match goal with |- context [let '(_, _) := ?x in _] => destruct x as [src cls] end. by eexists.
Qed.
End Shown.


Section Witness.
#[local] Existing Instances sample_json sample_decimals.
Definition sample_report : StreamReport :=
  mkStreamReport "r1" "/v1/chat/completions" "m" (Some sample_pricing) None (mkTenant None None) None (Some "p:m") 0 200 None None.
Definition sample_moment : Moment := mkMoment 5 None false true.
Definition sample_event : bytes := as_bytes "data: " ++ to_vec (JObject [("usage", sample_chat_usage)]) ++ [lf; lf].
(** An event with a usage, cut in two, and the end. *)
Definition sample_replies : list (Moment * Reply) :=
  [(sample_moment, ReplyChunk (take 9 sample_event)); (sample_moment, ReplyChunk (drop 9 sample_event)); (sample_moment, ReplyEnd)].

Lemma stream_metered_once_witness : exists polls m sent rest,
  meter_polls 3 sample_replies (meter_for sample_report OpenaiChat false) = (polls, m, sent, rest) /\
  exists r, sent ++ (meter_drop sample_moment m).2 = [r] /\ pr_status r = 200%Z /\ pr_usage r = Some sample_chat_usage.
Proof.
  pose proof (stream_metered_once sample_report OpenaiChat false 3 sample_replies sample_moment) as H.
  destruct (meter_polls 3 sample_replies (meter_for sample_report OpenaiChat false)) as [[[polls m] sent] rest] eqn:Hp.
  exists polls, m, sent, rest. split; [done|]. destruct H as (used & ttft & _ & Hr & _ & Hall). specialize (Hall ltac:(simpl; lia)).
  cbn zeta in Hr. rewrite Hr, Hall. eexists. split; [vm_compute; reflexivity|]. split; reflexivity.
Defined.
Lemma shown_cost_is_billed_witness : exists polls m sent rest,
  meter_polls 3 sample_replies (meter_for sample_report OpenaiChat false) = (polls, m, sent, rest) /\
  delivered polls = as_bytes "data: " ++ to_vec (JObject [("usage", set_member "cost" (json_i64 57) sample_chat_usage)]) ++ [lf; lf].
Proof.
  pose proof (shown_cost_is_billed sample_report OpenaiChat 3 sample_replies sample_event sample_moment sample_moment) as H.
  destruct (meter_polls 3 sample_replies (meter_for sample_report OpenaiChat false)) as [[[polls m] sent] rest] eqn:Hp.
  exists polls, m, sent, rest. split; [done|]. cbn zeta in H. destruct H as [-> _]; [vm_compute; reflexivity|vm_compute; reflexivity|simpl; lia|done|].
  vm_compute. reflexivity.
Defined.
End Witness.

(** ** Heartbeats are invisible *)
Fixpoint kept (calls : list (Z * MeterPoll)) (k : KeepAliveStream) : list MeterPoll :=
  match calls with
  | [] => []
  | (now, inner) :: calls' => let '(p, k) := keep_alive_poll now inner k in p :: kept calls' k
  end.
Definition event_block (ls : list bytes) : bytes := unlines ls ++ [lf].
(** Items that hold whole events, as the sanitizing transform emits them. *)
Definition whole_events (p : MeterPoll) : Prop :=
  exists LS, Forall (Forall field_line_ok) LS /\ item_bytes (Some p) = concat (event_block <$> LS).
Definition heartbeat_lines : list bytes := [as_bytes ": PROCESSING"].

Lemma kept_blocks calls k : Forall (fun c => whole_events c.2 /\ c.2 ≠ MeterEnd) calls -> ka_done k = false ->
  exists LS LS', Forall (Forall field_line_ok) LS /\ delivered (snd <$> calls) = concat (event_block <$> LS) /\
    Forall (Forall field_line_ok) LS' /\ delivered (kept calls k) = concat (event_block <$> LS') /\
    omap sse_event_data LS' = omap sse_event_data LS.
Proof.
  revert k. induction calls as [|[now p] calls IH]; intros k Hc Hd.
  { exists [], []. repeat split; constructor. }
  apply Forall_cons in Hc as [[(L & HL & Hi) Hne] Hc]. cbn [snd] in Hi, Hne.
  assert (Hstep : exists p' k' L', keep_alive_poll now p k = (p', k') /\ ka_done k' = false /\ Forall (Forall field_line_ok) L' /\
            item_bytes (Some p') = concat (event_block <$> L') /\ omap sse_event_data L' = omap sse_event_data L).
  { assert (Harm : forall now', ka_done (arm now' k) = false) by (intros; unfold arm; by repeat case_match).
    unfold keep_alive_poll. rewrite Hd. destruct p as [item| |]; [|done|].
    - exists (MeterItem item), (arm now k), L. by rewrite Harm.
    - assert (HL0 : omap sse_event_data L = []).
      { simpl in Hi. destruct L as [|ls L]; [done|]. apply (f_equal length) in Hi. rewrite fmap_cons in Hi. simpl in Hi.
        unfold event_block in Hi. rewrite !length_app in Hi. simpl in Hi. lia. }
      destruct (ka_deadline k) as [d|]; [destruct (d <=? now)%Z|].
      + exists (MeterItem (Ok KEEP_ALIVE_COMMENT)), (arm now k), [heartbeat_lines]. rewrite Harm, HL0. repeat split; try done.
        constructor; [|constructor]. constructor; [|constructor]. split; [done|]. split; listed.
      + exists MeterPending, k, []. by rewrite HL0.
      + exists MeterPending, k, []. by rewrite HL0. }
  destruct Hstep as (p' & k' & L' & Hp & Hd' & HL' & Hi' & Ho'). destruct (IH k' Hc Hd') as (LS & LS' & HLS & HD & HLS' & HD' & HO).
  exists (L ++ LS), (L' ++ LS'). cbn [kept fmap list_fmap]. rewrite Hp. cbn [snd]. rewrite !delivered_cons, Hi, Hi', HD, HD'.
  rewrite !fmap_app, !concat_app, !omap_app, Ho', HO. repeat split; by apply Forall_app.
Qed.
(** Between whole events a heartbeat changes nothing a client reads. *)
Lemma heartbeats_invisible calls k : Forall (fun c => whole_events c.2 /\ c.2 ≠ MeterEnd) calls -> ka_done k = false ->
  stream_events (delivered (kept calls k)) = stream_events (delivered (snd <$> calls)).
Proof.
  intros Hc Hd. destruct (kept_blocks calls k Hc Hd) as (LS & LS' & HLS & -> & HLS' & -> & HO).
  unfold event_block. by rewrite !stream_events_many, HO.
Qed.
