(* ===== verification/Appraisal.v ===== *)
(** * Appraising an upstream's report

    src/aci/verifier/appraisal.rs, quote.rs, dstack.rs, session_material.rs and the
    policy of aci_service.rs: which checks run on the attestation report of an
    upstream service, in what order, and what each outcome means.  The mechanisms
    beneath the checks are those of [ReportBinding], [Dstack] and [Channel]; parsing
    and verifying a DCAP quote is third-party code behind the class [Dcap], and the
    fetched collateral is an argument.  Diagnostic texts beside a failure's cause
    (the [detail] and [explain] members of a result) are left out. *)
From S2P Require Import Prelude Json External Sample Digest Identity ReportBinding Channel Dstack Receipt Upstream Claims.

(** ** Quotes ([dcap_qvl]) *)
Record TDReport : Type := mkTDReport {
  td_tee_tcb_svn : bytes;
  td_mr_seam : bytes;
  td_mr_signer_seam : bytes;
  td_seam_attributes : bytes;
  td_td_attributes : bytes;
  td_xfam : bytes;
  td_mr_td : bytes;
  td_mr_config_id : bytes;
  td_mr_owner : bytes;
  td_mr_owner_config : bytes;
  td_rt_mr0 : bytes;
  td_rt_mr1 : bytes;
  td_rt_mr2 : bytes;
  td_rt_mr3 : bytes;
  td_report_data : bytes;
}.
Inductive Report : Type :=
| SgxEnclave (report_data : bytes)
| TD10 (base : TDReport)
| TD15 (base : TDReport) (tee_tcb_svn2 mr_service_td : bytes).
Definition is_sgx (r : Report) : bool := match r with SgxEnclave _ => true | _ => false end.
Definition dcap_report_data (r : Report) : bytes :=
  match r with SgxEnclave rd => rd | TD10 base | TD15 base _ _ => td_report_data base end.
Definition dcap_rtmr3 (r : Report) : option bytes :=
  match r with TD10 base | TD15 base _ _ => Some (td_rt_mr3 base) | SgxEnclave _ => None end.

Record VerifiedReport : Type := mkVerifiedReport {
  vr_status : string;
  vr_report : Report;
  vr_advisory_ids : list string;
}.
(** [Quote::parse] and [verify::rustcrypto::verify], which verifies the quote it is
    given: the report it returns is the one that parsing the quote returns. *)
Class Dcap := {
  dcap_collateral : Type;
  quote_parse : bytes -> result string Report;
  dcap_verify : bytes -> dcap_collateral -> Z -> result string VerifiedReport;
  dcap_verify_parses raw c now v : dcap_verify raw c now = Ok v -> quote_parse raw = Ok (vr_report v);
}.

(** ** The verifier's policy (aci_service.rs) *)
Record AciServiceVerifierPolicy : Type := mkPolicy {
  po_accepted_subjects : gset string;
  po_accepted_image_digests : gset string;
  po_accepted_kms_root_public_keys : gset string;
}.
Inductive VerifierConfigError : Type :=
| EmptyPolicy
| EmptyKmsRootPolicy
| InvalidKmsRootPublicKey (text : string)
| EmptyBaseUrl
| InvalidVerifierBaseUrl (text : string)
| ClientError (text : string).

(** ** Checks and outcomes *)
Inductive CheckId : Type := CheckQuote | CheckBinding | CheckExpiry | CheckProvenance | CheckCustody | CheckChannel.
#[global] Instance CheckId_eq_dec : EqDecision CheckId.
Proof. solve_decision. Defined.
Definition check_rank (id : CheckId) : nat :=
  match id with
  | CheckQuote => 0 | CheckBinding => 1 | CheckExpiry => 2 | CheckProvenance => 3 | CheckCustody => 4 | CheckChannel => 5
  end.
(** The errors whose message a cause carries. *)
Inductive CustodyProblem : Type := KeyCustody (e : KeyCustodyError) | KmsRootRejected.
Inductive FailureCause : Type :=
| CauseBinding (e : AciReportValidationError)
| CauseQuote (e : QuoteStepError)
| CauseExpired (now not_after : Z)
| CauseProvenance (text : string)
| CauseEvidence (text : string)
| CauseCustodyEvidence (e : CustodyProblem)
| CausePolicy (text : string)
| CauseChannel (text : string)
| CauseDeclaredChannel (e : ChannelBindingError)
| CauseNotReached (text : string).
Inductive CheckOutcome : Type :=
| CheckPass
| CheckFailed (cause : FailureCause)
| Unevaluable (reason : string).
Record CheckResult : Type := mkCheck { ck_id : CheckId; ck_outcome : CheckOutcome }.
Definition passed (r : CheckResult) : bool := match ck_outcome r with CheckPass => true | _ => false end.
Definition pass (id : CheckId) : CheckResult := mkCheck id CheckPass.
Definition failed (id : CheckId) (cause : FailureCause) : CheckResult := mkCheck id (CheckFailed cause).
Definition unevaluable (id : CheckId) (why : string) : CheckResult := mkCheck id (Unevaluable why).
Definition unreached (id : CheckId) (why : string) : CheckResult := failed id (CauseNotReached why).

(** ** Inputs *)
Inductive QuoteSource : Type := Online (pccs_url : string) | Offline (reason : string).
Inductive CustodyEvidence : Type := DstackKms (policy : AciServiceVerifierPolicy) | Unimplemented (reason : string).
Inductive ChannelEvidence : Type :=
| Observed (host spki_sha256 : string)
| DeclaredFor (origin : string)
| Unobservable (reason : string)
| NotObserved (reason : string).
Record AppraisalInputs : Type := mkInputs {
  in_report : AttestationReport;
  in_nonce : option string;
  in_now_secs : Z;
  in_expiry_waived : bool;
  in_quote : QuoteSource;
  in_accepted_composes : list string;
  in_custody : CustodyEvidence;
  in_channel : ChannelEvidence;
}.
Record VerifiedQuote : Type := mkVerifiedQuote {
  vq_status : string;
  vq_report : Report;
  vq_advisory_ids : list string;
  vq_tee_type : string;
}.
Record MeasuredProvenance : Type := mkMeasured {
  mp_compose_hash : string;
  mp_app_id : option bytes;
}.
Record Appraisal : Type := mkAppraisal {
  ap_results : list CheckResult;
  ap_identity : option ReportBinding;
  ap_channel_bindings : list ChannelBinding;
  ap_session_material : option value;
}.
Definition first_problem (a : Appraisal) : option CheckResult := List.find (fun r => negb (passed r)) (ap_results a).

(** [results.sort_by_key(|r| r.id)], a stable sort. *)
Fixpoint insert_by_id (r : CheckResult) (l : list CheckResult) : list CheckResult :=
  match l with
  | [] => [r]
  | r' :: l' => if check_rank (ck_id r) <=? check_rank (ck_id r') then r :: l else r' :: insert_by_id r l'
  end.
Definition sort_by_id (l : list CheckResult) : list CheckResult := foldr insert_by_id [] l.

Section Appraise.
Context {SH : Sha} {HX : HexCodec} {B64 : Base64} {SJ : SerdeJson} {KS : KeysetSerde} {EL : EventLogParse} {K : K256} {UP : UrlParse} {DQ : Dcap}.

(** ** The policy *)
Definition policy_new (subjects image_digests kms_roots : list string) : result VerifierConfigError AciServiceVerifierPolicy :=
  let accepted_subjects := list_to_set (List.filter (fun s => negb (bool_decide (s = ""))) subjects) : gset string in
  let accepted_image_digests := list_to_set (List.filter (fun s => negb (bool_decide (s = ""))) image_digests) : gset string in
  roots ← collect_results (List.map (fun key => map_err InvalidKmsRootPublicKey (compressed_k256_public_key_hex key)) kms_roots);
  let roots := list_to_set roots : gset string in
  if bool_decide (accepted_subjects = ∅) && bool_decide (accepted_image_digests = ∅) then Err EmptyPolicy
  else if bool_decide (roots = ∅) then Err EmptyKmsRootPolicy
  else Ok (mkPolicy accepted_subjects accepted_image_digests roots).
Definition measured_subject (app_id : bytes) : string := "app-id:0x" +:+ hex_encode app_id.
Definition accepts_measured (p : AciServiceVerifierPolicy) (keyset : WorkloadKeyset) (provenance : SourceProvenance)
    (app_id : bytes) : bool :=
  if from_option (fun subject => negb (bool_decide (subject = measured_subject app_id))) false (ks_subject keyset) then false
  else
    bool_decide (measured_subject app_id ∈ po_accepted_subjects p) ||
    from_option (fun digest => bool_decide (digest ∈ po_accepted_image_digests p)) false (sp_image_digest provenance).

(** ** The quote (quote.rs) *)
Definition parse_quote_evidence (evidence : value) : result QuoteStepError (bytes * Report) :=
  raw ← quote_bytes evidence;
  quote ← map_err UnparsableQuote (quote_parse raw);
  Ok (raw, quote).
(** [fetched] is the answer of the collateral service. *)
Definition verify_quote_to_root (fetched : result string dcap_collateral) (raw : bytes) (pccs_url : string) (now_secs : Z)
    (claimed_tee_type : string) : result QuoteStepError VerifiedQuote :=
  collateral ← map_err (Collateral pccs_url) fetched;
  verified ← map_err QuoteVerification (dcap_verify raw collateral now_secs);
  let tee_type := if is_sgx (vr_report verified) then "sgx" else "tdx" in
  if bool_decide (claimed_tee_type ≠ tee_type) then Err (TeeTypeMismatch claimed_tee_type tee_type)
  else Ok (mkVerifiedQuote (vr_status verified) (vr_report verified) (vr_advisory_ids verified) tee_type).

Definition appraise_quote (fetched : result string dcap_collateral) (inputs : AppraisalInputs) (claimed : bytes) :
    CheckResult * option Report * option VerifiedQuote :=
  let attestation := ar_attestation (in_report inputs) in
  let evidence := ae_evidence attestation in
  match parse_quote_evidence evidence with
  | Err e => (failed CheckQuote (CauseQuote e), None, None)
  | Ok (raw, quote) =>
      match quote_binds_report_data evidence (dcap_report_data quote) claimed with
      | Err e => (failed CheckQuote (CauseQuote e), Some quote, None)
      | Ok _ =>
          match in_quote inputs with
          | Online pccs_url =>
              match verify_quote_to_root fetched raw pccs_url (in_now_secs inputs) (ae_tee_type attestation) with
              | Ok verified => (pass CheckQuote, Some quote, Some verified)
              | Err e => (failed CheckQuote (CauseQuote e), Some quote, None)
              end
          | Offline reason => (unevaluable CheckQuote reason, Some quote, None)
          end
      end
  end.

(** ** Binding and expiry *)
Definition appraise_binding (inputs : AppraisalInputs) : CheckResult * option ReportBinding :=
  match verify_report_binding (in_report inputs) (in_nonce inputs) with
  | Err e => (failed CheckBinding (CauseBinding e), None)
  | Ok binding =>
      (match in_nonce inputs with
       | Some _ => pass CheckBinding
       | None => unevaluable CheckBinding "binding shown, freshness not established"
       end, Some binding)
  end.
Definition appraise_expiry (inputs : AppraisalInputs) (keyset : option WorkloadKeyset) : CheckResult :=
  match keyset with
  | None => unreached CheckExpiry "no decoded keyset to read not_after from (see the binding check)"
  | Some keyset =>
      if in_expiry_waived inputs then unevaluable CheckExpiry "expiry not enforced"
      else if is_expired_at keyset (in_now_secs inputs)
      then failed CheckExpiry (CauseExpired (in_now_secs inputs) (ks_not_after keyset))
      else pass CheckExpiry
  end.

(** ** Provenance *)
Definition declared_provenance (p : SourceProvenance) : option string :=
  match sp_repo_url p, sp_repo_commit p, sp_image_digest p with
  | Some url, Some commit, _ => Some ("repo=" +:+ url +:+ " commit=" +:+ commit)
  | _, _, Some digest => Some ("image_digest=" +:+ digest)
  | _, _, _ => None
  end.
Definition appraise_provenance (inputs : AppraisalInputs) (quote_report : option Report) :
    CheckResult * option MeasuredProvenance :=
  let attestation := ar_attestation (in_report inputs) in
  let evidence := ae_evidence attestation in
  match declared_provenance (ae_source_provenance attestation) with
  | None => (failed CheckProvenance (CauseProvenance "the report declares no source provenance (spec 4.1)"), None)
  | Some declared =>
      match get_str "app_compose" evidence, quote_report with
      | Some _, Some quote_report =>
          match verify_dstack_event_log evidence (dcap_rtmr3 quote_report) with
          | Err e => (failed CheckProvenance (CauseEvidence e), None)
          | Ok events =>
              match verify_dstack_compose_measurement evidence events with
              | Err e => (failed CheckProvenance (CauseEvidence e), None)
              | Ok measured =>
                  let app_id := result_ok (dstack_app_id events) in
                  let result :=
                    if negb (bool_decide (in_accepted_composes inputs = [])) &&
                       negb (existsb (fun a => eq_ignore_ascii_case a measured) (in_accepted_composes inputs))
                    then failed CheckProvenance
                           (CausePolicy ("measured compose-hash=" +:+ measured +:+ " is not in the accepted list"))
                    else pass CheckProvenance in
                  (result, if passed result then Some (mkMeasured measured app_id) else None)
              end
          end
      | _, _ =>
          (match in_quote inputs with
           | Online _ =>
               failed CheckProvenance (CauseProvenance
                 ("no measurement backs the declared provenance (" +:+ declared +:+
                  "): the service publishes no app_compose (spec 9.1(4), spec 4.1)"))
           | Offline _ => unevaluable CheckProvenance "no app_compose"
           end, None)
      end
  end.

(** ** Custody (dstack.rs) *)
Definition verify_custody (evidence : value) (keyset : WorkloadKeyset) (app_id : bytes) (policy : AciServiceVerifierPolicy) :
    result CustodyProblem VerifiedReceiptCustody :=
  custody ← map_err KeyCustody (verify_dstack_kms_receipt_custody evidence keyset app_id);
  if bool_decide (vc_root_public_key custody ∈ po_accepted_kms_root_public_keys policy) then Ok custody else Err KmsRootRejected.
Definition appraise_custody (inputs : AppraisalInputs) (keyset : option WorkloadKeyset) (app_id : option bytes) :
    CheckResult * option VerifiedReceiptCustody :=
  let attestation := ar_attestation (in_report inputs) in
  let subject := default "null" (keyset ≫= ks_subject) in
  match in_custody inputs, keyset, app_id with
  | Unimplemented _, _, _ => (unevaluable CheckCustody "custody policy not implemented", None)
  | DstackKms _, None, _ => (unreached CheckCustody "no established keyset to check custody for", None)
  | DstackKms _, Some _, None =>
      (unreached CheckCustody "the measured app-id the custody chain anchors on was never established", None)
  | DstackKms policy, Some keyset, Some app_id =>
      match verify_custody (ae_evidence attestation) keyset app_id policy with
      | Err e => (failed CheckCustody (CauseCustodyEvidence e), None)
      | Ok custody =>
          if negb (accepts_measured policy keyset (ae_source_provenance attestation) app_id) then
            (failed CheckCustody (CausePolicy ("subject " +:+ subject +:+ " is not acceptable to the verifier policy")), None)
          else (pass CheckCustody, Some custody)
      end
  end.

(** ** The channel *)
Definition declared_tls_channel_bindings (keyset : WorkloadKeyset) (evidence : value) (origin : string) :
    result ChannelBindingError (list ChannelBinding) :=
  match declared_tls_pins keyset evidence origin with
  | Ok pins => Ok (TlsSpkiSha256 origin <$> (pins : list string))
  | Err e => Err e
  end.
Definition appraise_channel (inputs : AppraisalInputs) (keyset : option WorkloadKeyset) : CheckResult * list ChannelBinding :=
  let no_keyset := unreached CheckChannel "no decoded keyset to match the channel against (see the binding check)" in
  match in_channel inputs, keyset with
  | Unobservable _, _ => (unevaluable CheckChannel "no live channel to bind", [])
  | NotObserved reason, _ => (failed CheckChannel (CauseChannel reason), [])
  | Observed _ _, None | DeclaredFor _, None => (no_keyset, [])
  | DeclaredFor origin, Some keyset =>
      match declared_tls_channel_bindings keyset (ae_evidence (ar_attestation (in_report inputs))) origin with
      | Ok bindings => (pass CheckChannel, bindings)
      | Err e => (failed CheckChannel (CauseDeclaredChannel e), [])
      end
  | Observed host spki, Some keyset =>
      let host := to_ascii_lowercase host in
      let observed := to_ascii_lowercase spki in
      let candidates := spki_sha256_hex <$> tls_keys_for_host keyset host in
      (if existsb (fun c => eq_ignore_ascii_case c observed) candidates then pass CheckChannel
       else if bool_decide (candidates = []) then
         failed CheckChannel (CauseChannel
           (if bool_decide (ks_tls_public_keys keyset = []) then "the keyset publishes no TLS role"
            else "no attested TLS key is scoped to " +:+ host))
       else failed CheckChannel (CauseChannel ("observed SPKI " +:+ observed +:+ " is not attested")), [])
  end.

(** ** Session material (session_material.rs) *)
Definition hex_member (name : string) (b : bytes) : string * value := (name, JString (hex_encode b)).
(** [TdxReportMaterial::from_report], serialized. *)
Definition tdx_report_material (report : Report) : option (list (string * value)) :=
  let base_members (base : TDReport) :=
    [hex_member "tee_tcb_svn" (td_tee_tcb_svn base); hex_member "mr_seam" (td_mr_seam base);
     hex_member "mr_signer_seam" (td_mr_signer_seam base); hex_member "seam_attributes" (td_seam_attributes base);
     hex_member "td_attributes" (td_td_attributes base); hex_member "xfam" (td_xfam base);
     hex_member "mr_td" (td_mr_td base); hex_member "mr_config_id" (td_mr_config_id base);
     hex_member "mr_owner" (td_mr_owner base); hex_member "mr_owner_config" (td_mr_owner_config base);
     hex_member "rt_mr0" (td_rt_mr0 base); hex_member "rt_mr1" (td_rt_mr1 base);
     hex_member "rt_mr2" (td_rt_mr2 base); hex_member "rt_mr3" (td_rt_mr3 base)] in
  match report with
  | SgxEnclave _ => None
  | TD10 base => Some (("report_format", JString "td10") :: base_members base)
  | TD15 base svn2 service_td =>
      Some (("report_format", JString "td15") :: base_members base ++
            [hex_member "tee_tcb_svn2" svn2; hex_member "mr_service_td" service_td])
  end.
Definition tdx_material (report : Report) : option (list (string * value)) :=
  tdx_report ← tdx_report_material report;
  jcs ← result_ok (jcs_bytes (JObject tdx_report));
  Some [("tdx_report", JObject tdx_report); ("tdx_report_sha256", JString (sha256_hex jcs))].
Definition receipt_custody_material (c : VerifiedReceiptCustody) : option value :=
  receipt ← hex_parse_fixed 32 (vc_receipt_public_key c);
  kms ← hex_parse_fixed 33 (vc_kms_public_key c);
  app ← hex_parse_fixed 33 (vc_app_public_key c);
  root ← hex_parse_fixed 33 (vc_root_public_key c);
  Some (JObject [("provider", JString (vc_provider c)); ("purpose", JString (vc_purpose c));
    hex_member "receipt_public_key" receipt; hex_member "kms_public_key" kms;
    hex_member "app_public_key" app; hex_member "root_public_key" root]).
Definition opt_string_value (o : option string) : value := from_option JString JNull o.
Definition source_provenance_to_value (p : SourceProvenance) : value :=
  JObject [("repo_url", opt_string_value (sp_repo_url p)); ("repo_commit", opt_string_value (sp_repo_commit p));
    ("image_digest", opt_string_value (sp_image_digest p)); ("image_provenance", default JNull (sp_image_provenance p))].
(** [sort] followed by [dedup]. *)
Fixpoint dedup (l : list string) : list string :=
  match l with
  | a :: (b :: _) as l' => if bool_decide (a = b) then dedup l' else a :: dedup l'
  | _ => l
  end.
Definition authenticated_session_material (results : list CheckResult) (quote : option VerifiedQuote)
    (provenance : option MeasuredProvenance) (custody : option VerifiedReceiptCustody) (published : SourceProvenance) :
    option value :=
  if existsb (fun id => negb (existsb (fun r => bool_decide (ck_id r = id)) results))
       [CheckQuote; CheckBinding; CheckExpiry; CheckProvenance; CheckCustody; CheckChannel] ||
     existsb (fun r => negb (passed r)) results
  then None
  else
    quote ← quote;
    provenance ← provenance;
    custody ← custody;
    tdx ← tdx_material (vq_report quote);
    let advisories := dedup (merge_sort String.le (vq_advisory_ids quote)) in
    compose ← hex_parse_fixed 32 (mp_compose_hash provenance);
    app_id ← mp_app_id provenance;
    receipt_custody ← receipt_custody_material custody;
    Some (JObject (("session_material_version", JString "aci-service/1") :: tdx ++
      [("tcb_status", JString (vq_status quote)); ("advisory_ids", JArray (List.map JString advisories));
       hex_member "measured_compose_hash" compose; ("measured_app_id", JString (hex_encode app_id));
       ("published_source_provenance", source_provenance_to_value published);
       ("receipt_key_custody", receipt_custody)])).

(** ** The appraisal *)
Definition appraise_report (fetched : result string dcap_collateral) (inputs : AppraisalInputs) : result string Appraisal :=
  let report := in_report inputs in
  if bool_decide (ar_api_version report ≠ "aci/1") then
    Err ("unsupported ACI api_version " +:+ debug_str (ar_api_version report) +:+ " (expected " +:+ debug_str "aci/1" +:+ ")")
  else
    let attestation := ar_attestation report in
    let '(quote_result, parsed_quote, verified_quote) :=
      match decode_hex_32 (ae_report_data_hex attestation) with
      | Ok claimed => appraise_quote fetched inputs claimed
      | Err e => (failed CheckQuote (CauseQuote (InvalidQuoteHex e)), None, None)
      end in
    let '(binding_result, identity) := appraise_binding inputs in
    let keyset := rb_keyset <$> identity in
    let expiry_result := appraise_expiry inputs keyset in
    let '(provenance_result, provenance) := appraise_provenance inputs parsed_quote in
    let '(custody_result, custody) := appraise_custody inputs keyset (provenance ≫= mp_app_id) in
    let '(channel_result, channel_bindings) := appraise_channel inputs keyset in
    let results := sort_by_id
      [quote_result; binding_result; expiry_result; provenance_result; custody_result; channel_result] in
    Ok (mkAppraisal results identity channel_bindings
          (authenticated_session_material results verified_quote provenance custody (ae_source_provenance attestation))).

(** The request for collateral that [appraise_quote] makes, when it comes to that. *)
Definition collateral_request (inputs : AppraisalInputs) : option (string * bytes) :=
  let attestation := ar_attestation (in_report inputs) in
  if bool_decide (ar_api_version (in_report inputs) ≠ "aci/1") then None
  else
    claimed ← result_ok (decode_hex_32 (ae_report_data_hex attestation));
    '(raw, quote) ← result_ok (parse_quote_evidence (ae_evidence attestation));
    _ ← result_ok (quote_binds_report_data (ae_evidence attestation) (dcap_report_data quote) claimed);
    match in_quote inputs with Online pccs_url => Some (pccs_url, raw) | Offline _ => None end.
Lemma appraise_without_collateral inputs fetched fetched' :
  collateral_request inputs = None -> appraise_report fetched inputs = appraise_report fetched' inputs.
Proof.
  unfold collateral_request, appraise_report. case_bool_decide as Hv; [done|].
  destruct (decode_hex_32 _) as [claimed|]; [|done]. cbn. unfold appraise_quote.
  destruct (parse_quote_evidence _) as [[raw quote]|]; [|done]. cbn.
  destruct (quote_binds_report_data _ _ _) as [[]|]; [|done]. cbn. by destruct (in_quote inputs).
Qed.

(** ** What an appraisal without a problem establishes *)
Lemma insert_by_id_perm r l : insert_by_id r l ≡ₚ r :: l.
Proof.
  induction l as [|r' l IH]; cbn; [done|]. destruct (check_rank _ <=? _); [done|].
  rewrite IH. apply Permutation_swap.
Qed.
Lemma sort_by_id_perm l : sort_by_id l ≡ₚ l.
Proof. induction l as [|r l IH]; cbn; [done|]. by rewrite insert_by_id_perm, IH. Qed.
Lemma problem_free l r : List.find (fun r => negb (passed r)) (sort_by_id l) = None -> r ∈ l -> passed r = true.
Proof.
  intros Hf Hr. rewrite <- (sort_by_id_perm l) in Hr. apply list_elem_of_In in Hr.
  by apply negb_false_iff, (List.find_none _ _ Hf).
Qed.

Lemma appraise_quote_passes fetched inputs claimed r parsed verified pccs_url :
  in_quote inputs = Online pccs_url ->
  appraise_quote fetched inputs claimed = (r, parsed, verified) -> passed r = true ->
  let attestation := ar_attestation (in_report inputs) in
  exists raw collateral v, quote_bytes (ae_evidence attestation) = Ok raw /\ fetched = Ok collateral /\
    dcap_verify raw collateral (in_now_secs inputs) = Ok v /\ parsed = Some (vr_report v) /\
    dcap_report_data (vr_report v) = report_data_slot claimed /\
    ae_tee_type attestation = (if is_sgx (vr_report v) then "sgx" else "tdx") /\
    verified = Some (mkVerifiedQuote (vr_status v) (vr_report v) (vr_advisory_ids v) (ae_tee_type attestation)).
Proof.
  intros Hq. unfold appraise_quote, parse_quote_evidence, verify_quote_to_root. rewrite Hq.
  destruct (quote_bytes _) as [raw|]; cbn; [|by intros [= <- <- <-]].
  destruct (quote_parse raw) as [q|] eqn:Hp; cbn; [|by intros [= <- <- <-]].
  destruct (quote_binds_report_data _ _ _) as [[]|] eqn:Hb; [|by intros [= <- <- <-]].
  destruct fetched as [c|]; cbn; [|by intros [= <- <- <-]].
  destruct (dcap_verify raw c _) as [v|] eqn:Hv; cbn; [|by intros [= <- <- <-]].
  case_bool_decide as Ht; [by intros [= <- <- <-]|]. intros [= <- <- <-] _.
  pose proof (dcap_verify_parses _ _ _ _ Hv) as Hp'. rewrite Hp in Hp'. injection Hp' as ->.
  apply quote_binds_slot in Hb.
  assert (ae_tee_type (ar_attestation (in_report inputs)) = (if is_sgx (vr_report v) then "sgx" else "tdx")) as Htt
    by (by destruct (decide (ae_tee_type (ar_attestation (in_report inputs)) = (if is_sgx (vr_report v) then "sgx" else "tdx")))).
  exists raw, c, v. split_and!; [done..|by rewrite Htt].
Qed.

Lemma appraise_provenance_passes inputs quote_report r p pccs_url :
  in_quote inputs = Online pccs_url ->
  appraise_provenance inputs quote_report = (r, p) -> passed r = true ->
  let evidence := ae_evidence (ar_attestation (in_report inputs)) in
  is_Some (declared_provenance (ae_source_provenance (ar_attestation (in_report inputs)))) /\
  exists report events measured, quote_report = Some report /\
    verify_dstack_event_log evidence (dcap_rtmr3 report) = Ok events /\
    verify_dstack_compose_measurement evidence events = Ok measured /\
    p = Some (mkMeasured measured (result_ok (dstack_app_id events))) /\
    (in_accepted_composes inputs = [] \/ exists a, a ∈ in_accepted_composes inputs /\
       to_ascii_lowercase a = to_ascii_lowercase measured).
Proof.
  intros Hq. unfold appraise_provenance. rewrite Hq.
  destruct (declared_provenance _) as [d|]; [|by intros [= <- <-]].
  destruct (get_str "app_compose" _) as [s|]; [|by intros [= <- <-]].
  destruct quote_report as [report|]; [|by intros [= <- <-]].
  destruct (verify_dstack_event_log _ _) as [events|] eqn:He; [|by intros [= <- <-]].
  destruct (verify_dstack_compose_measurement _ _) as [m|] eqn:Hm; [|by intros [= <- <-]].
  case_bool; intros [= <- <-]; [done|]. intros _. cbn. split; [by eexists|].
  exists report, events, m. split_and!; [done..|].
  apply andb_false_iff in Heqb as [Hb%negb_false_iff%bool_decide_eq_true|Hb%negb_false_iff]; [by left|].
  right. apply existsb_exists in Hb as (a & Ha & Heq%bool_decide_eq_true). exists a.
  by split; [apply list_elem_of_In|].
Qed.

Lemma appraise_custody_passes inputs keyset app_id r c policy :
  in_custody inputs = DstackKms policy ->
  appraise_custody inputs keyset app_id = (r, c) -> passed r = true ->
  let attestation := ar_attestation (in_report inputs) in
  exists ks id custody, keyset = Some ks /\ app_id = Some id /\ c = Some custody /\
    verify_dstack_kms_receipt_custody (ae_evidence attestation) ks id = Ok custody /\
    vc_root_public_key custody ∈ po_accepted_kms_root_public_keys policy /\
    accepts_measured policy ks (ae_source_provenance attestation) id = true.
Proof.
  intros Hc. unfold appraise_custody, verify_custody. rewrite Hc.
  destruct keyset as [ks|]; [|by intros [= <- <-]]. destruct app_id as [id|]; [|by intros [= <- <-]].
  destruct (verify_dstack_kms_receipt_custody _ _ _) as [cu|] eqn:Hv; cbn; [|by intros [= <- <-]].
  case_bool_decide; [|by intros [= <- <-]]. destruct (accepts_measured _ _ _ _) eqn:Ha; cbn; [|by intros [= <- <-]].
  intros [= <- <-] _. by exists ks, id, cu.
Qed.

Lemma appraise_channel_passes inputs keyset r bindings origin :
  in_channel inputs = DeclaredFor origin ->
  appraise_channel inputs keyset = (r, bindings) -> passed r = true ->
  exists ks pins, keyset = Some ks /\
    declared_tls_pins ks (ae_evidence (ar_attestation (in_report inputs))) origin = Ok pins /\
    bindings = TlsSpkiSha256 origin <$> pins.
Proof.
  intros Hc. unfold appraise_channel, declared_tls_channel_bindings. rewrite Hc.
  destruct keyset as [ks|]; [|by intros [= <- <-]].
  destruct (declared_tls_pins _ _ _) as [pins|] eqn:Hp; intros [= <- <-]; [|done]. intros _. by exists ks, pins.
Qed.

(** The measured app id is on the policy's list, or the published image digest is; and
    a subject the keyset states is the measured one. *)
Lemma accepts_measured_iff p ks provenance id :
  accepts_measured p ks provenance id = true <->
  (forall subject, ks_subject ks = Some subject -> subject = measured_subject id) /\
  (measured_subject id ∈ po_accepted_subjects p \/
   exists digest, sp_image_digest provenance = Some digest /\ digest ∈ po_accepted_image_digests p).
Proof.
  unfold accepts_measured.
  assert (from_option (fun subject => negb (bool_decide (subject = measured_subject id))) false (ks_subject ks) = false <->
    (forall subject, ks_subject ks = Some subject -> subject = measured_subject id)) as Hs.
  { destruct (ks_subject ks) as [s|]; cbn; [|by split]. rewrite negb_false_iff, bool_decide_eq_true. naive_solver. }
  destruct (from_option _ _ _); [split; [done|]; intros [? _]; naive_solver|].
  rewrite orb_true_iff, bool_decide_eq_true. destruct (sp_image_digest provenance) as [d|]; cbn;
    rewrite ?bool_decide_eq_true; naive_solver.
Qed.

(** *** A live appraisal *)
Definition live_inputs (report : AttestationReport) (nonce : string) (now : Z) (pccs_url : string)
    (policy : AciServiceVerifierPolicy) (origin : string) : AppraisalInputs :=
  mkInputs report (Some nonce) now false (Online pccs_url) [] (DstackKms policy) (DeclaredFor origin).

(** What stands behind an accepted report.  The binding is the one the served keyset and the
    verifier's nonce produce; its report data fills the slot of a quote that verified to the
    vendor's root under the fetched collateral, of the type the report claims; the event log
    replays to RTMR3 of that quote, and the compose document and the app id are measured in it;
    the receipt key descends from an accepted root for that app id, which the policy accepts;
    and the channel bindings are the pins the keyset declares for the origin. *)
Record vouched (raw : bytes) (collateral : dcap_collateral) (report : AttestationReport) (nonce : string) (now : Z)
    (policy : AciServiceVerifierPolicy) (origin : string) (b : ReportBinding) (bindings : list ChannelBinding) : Prop := {
  vo_version : ar_api_version report = "aci/1";
  vo_keyset : jcs_bytes (ae_workload_keyset (ar_attestation report)) = Ok (rb_keyset_jcs b) /\
    keyset_from_value (ae_workload_keyset (ar_attestation report)) = Ok (rb_keyset b);
  vo_statement : attestation_statement (sha256_hex (rb_keyset_jcs b)) (Some nonce) = Ok (rb_statement b);
  vo_expiry : (now < ks_not_after (rb_keyset b))%Z;
  vo_provenance : is_Some (declared_provenance (ae_source_provenance (ar_attestation report)));
  vo_measured : exists v base events app_compose e app_id custody,
    quote_bytes (ae_evidence (ar_attestation report)) = Ok raw /\ dcap_verify raw collateral now = Ok v /\
    ae_tee_type (ar_attestation report) = "tdx" /\
    (vr_report v = TD10 base \/ exists svn2 service_td, vr_report v = TD15 base svn2 service_td) /\
    td_report_data base = report_data_slot (sha256 (rb_statement b)) /\
    replay_dstack_rtmr events 3 = Ok (td_rt_mr3 base) /\
    get_str "app_compose" (ae_evidence (ar_attestation report)) = Some app_compose /\
    dstack_rtmr3_event events "compose-hash" = Ok (Some e) /\
    decode_hex (ev_event_payload e) = Ok (sha256 (as_bytes app_compose)) /\
    dstack_app_id (mkVerifiedEventLog events) = Ok app_id /\
    verify_dstack_kms_receipt_custody (ae_evidence (ar_attestation report)) (rb_keyset b) app_id = Ok custody /\
    vc_root_public_key custody ∈ po_accepted_kms_root_public_keys policy /\
    (forall subject, ks_subject (rb_keyset b) = Some subject -> subject = measured_subject app_id) /\
    (measured_subject app_id ∈ po_accepted_subjects policy \/
     exists digest, sp_image_digest (ae_source_provenance (ar_attestation report)) = Some digest /\
       digest ∈ po_accepted_image_digests policy);
  vo_channel : exists pins,
    declared_tls_pins (rb_keyset b) (ae_evidence (ar_attestation report)) origin = Ok pins /\
    bindings = TlsSpkiSha256 origin <$> pins;
}.

Lemma verify_dstack_event_log_tdx evidence report events :
  verify_dstack_event_log evidence (dcap_rtmr3 report) = Ok events ->
  exists base, (report = TD10 base \/ exists svn2 service_td, report = TD15 base svn2 service_td) /\
    replay_dstack_rtmr (verified_events events) 3 = Ok (td_rt_mr3 base).
Proof.
  unfold verify_dstack_event_log. intros H. bind_inv H. case_bool_decide as Hm; [done|]. injection H as <-.
  assert (a1 = a2) as -> by (by destruct (decide (a1 = a2))). cbn.
  destruct report as [|base|base s t]; simplify_eq/=; exists base; split; eauto.
Qed.

#[local] Opaque sort_by_id.
(** The six checks of an appraisal that finds no problem. *)
Lemma appraise_report_checks fetched inputs a :
  appraise_report fetched inputs = Ok a -> first_problem a = None ->
  exists claimed rq parsed verified rb rp prov rc cust rch,
    decode_hex_32 (ae_report_data_hex (ar_attestation (in_report inputs))) = Ok claimed /\
    appraise_quote fetched inputs claimed = (rq, parsed, verified) /\
    appraise_binding inputs = (rb, ap_identity a) /\
    appraise_provenance inputs parsed = (rp, prov) /\
    appraise_custody inputs (rb_keyset <$> ap_identity a) (prov ≫= mp_app_id) = (rc, cust) /\
    appraise_channel inputs (rb_keyset <$> ap_identity a) = (rch, ap_channel_bindings a) /\
    (forall r, r ∈ [rq; rb; appraise_expiry inputs (rb_keyset <$> ap_identity a); rp; rc; rch] -> passed r = true) /\
    ar_api_version (in_report inputs) = "aci/1".
Proof.
  unfold appraise_report, first_problem. case_bool_decide as Hver; [done|].
  destruct (decode_hex_32 _) as [claimed|e] eqn:Hd.
  2: { destruct (appraise_binding _), (appraise_provenance _ _), (appraise_custody _ _ _), (appraise_channel _ _).
       intros [= <-] Hp. cbn [ap_results] in Hp.
       by assert (passed (failed CheckQuote (CauseQuote (InvalidQuoteHex e))) = true) by
         (eapply problem_free; [exact Hp|set_solver]). }
  destruct (appraise_quote fetched inputs claimed) as [[rq parsed] verified] eqn:Hq.
  destruct (appraise_binding inputs) as [rb identity] eqn:Hb.
  destruct (appraise_provenance inputs parsed) as [rp prov] eqn:Hp.
  destruct (appraise_custody inputs _ _) as [rc cust] eqn:Hc.
  destruct (appraise_channel inputs _) as [rch binds] eqn:Hch.
  intros [= <-] Hnp. cbn [ap_results ap_identity ap_channel_bindings] in *.
  exists claimed, rq, parsed, verified, rb, rp, prov, rc, cust, rch. split_and!; try done.
  intros r. by apply problem_free.
Qed.

Lemma appraise_report_sound fetched report nonce now pccs_url policy origin a :
  appraise_report fetched (live_inputs report nonce now pccs_url policy origin) = Ok a ->
  first_problem a = None ->
  exists b raw collateral, ap_identity a = Some b /\ fetched = Ok collateral /\
    vouched raw collateral report nonce now policy origin b (ap_channel_bindings a).
Proof.
  set (inputs := live_inputs report nonce now pccs_url policy origin). intros Ha Hnp.
  destruct (appraise_report_checks _ _ _ Ha Hnp) as
    (claimed & rq & parsed & verified & rb & rp & prov & rc & cust & rch & Hcl & Hq & Hb & Hp & Hc & Hch & Hall & Hver).
  destruct (appraise_quote_passes _ inputs _ _ _ _ pccs_url eq_refl Hq) as (raw & c & v & Hraw & -> & Hv & -> & Hslot & Htee & _);
    [apply Hall; set_solver|].
  destruct (appraise_provenance_passes inputs _ _ _ pccs_url eq_refl Hp) as (Hdecl & ? & events & m & [= <-] & Hlog & Hcomp & -> & _);
    [apply Hall; set_solver|].
  destruct (appraise_custody_passes inputs _ _ _ _ policy eq_refl Hc) as (ks & id & cu & Hks & Hid & _ & Hcu & Hroot & Hacc);
    [apply Hall; set_solver|].
  destruct (ap_identity a) as [b|]; [|done]. injection Hks as <-.
  destruct (appraise_channel_passes inputs _ _ _ origin eq_refl Hch) as (? & pins & [= <-] & Hpins & Hbinds);
    [apply Hall; set_solver|].
  assert (passed (appraise_expiry inputs (Some (rb_keyset b))) = true) as Hexp by (apply Hall; set_solver).
  exists b, raw, c. split; [done|]. split; [done|].
  assert (verify_report_binding report (Some nonce) = Ok b) as Hbind.
  { unfold appraise_binding in Hb. cbn in Hb. by destruct (verify_report_binding report (Some nonce)); simplify_eq/=. }
  destruct (verify_report_binding_inv _ _ _ Hbind) as (Hj & Hdg & _ & Hk & Hst & Hrd & Hhex). cbn in *.
  destruct (verify_dstack_event_log_tdx _ _ _ Hlog) as (base & Hbase & Hreplay).
  apply compose_measurement_sound in Hcomp as (e & compose & He & Happ & Hpay & _).
  apply accepts_measured_iff in Hacc as [Hsub Hacc]. destruct events as [events]. rewrite Hhex in Hcl. injection Hcl as <-.
  assert (is_sgx (vr_report v) = false /\ dcap_report_data (vr_report v) = td_report_data base) as [Hsgx Hd]
    by (by destruct Hbase as [->|(? & ? & ->)]).
  rewrite Hsgx in Htee. rewrite Hd, Hrd in Hslot. rewrite Hdg in Hst.
  unfold is_expired_at in Hexp. destruct (Z.leb_spec (ks_not_after (rb_keyset b)) now); [done|].
  constructor; try done; [|by exists pins].
  exists v, base, events, compose, e, id, cu. split_and!; try done.
  by destruct (dstack_app_id _); simplify_eq/=.
Qed.
End Appraise.
