(* ===== verification/AciVerifier.v ===== *)
(** * The verifier of upstream ACI services (src/aci/verifier/aci_service.rs)

    One verifier per upstream service: it draws a nonce, fetches the service's report,
    has it appraised ([Appraisal]) and turns the outcome into the event the forwarding
    path acts on.  A verification is kept for a while, in one entry that concurrent
    requests share; a lock lets only one of them fetch at a time.

    The operations are programs over [AciE]: the clocks, the random nonce, the two
    awaits of the fetch, the collateral, the lock and the shared entry.  Every await of a
    verification runs under the deadline of [tokio::time::timeout], so its answer may be
    that the deadline passed ([None]).  The messages that [thiserror] derives for the
    errors and the parser that serde derives for the report are parameters; the text of
    an [Instant] overflow, a panic, is left out, as is a poisoned lock. *)
From S2P Require Import Prelude Effects Json External Sample Digest Identity ReportBinding Channel Dstack Receipt Upstream.
From S2P Require Import Claims Appraisal.

Definition NANOS : Z := 1000000000.

Inductive AciServiceVerificationError : Type :=
| Transport (text : string)
| HttpStatus (status : Z) (body : bytes)
| InvalidJson (text : string)
| AciBinding (e : AciReportValidationError)
| PolicyRejected
| MissingProvenance
| QuoteRejected (cause : FailureCause)
| VerificationTimeout
| InvalidEventLog (cause : FailureCause)
| InvalidTlsBinding (cause : FailureCause).

(** [From<&CheckResult>]. *)
Definition error_of_check (r : CheckResult) : AciServiceVerificationError :=
  match ck_outcome r with
  | CheckPass | Unevaluable _ => PolicyRejected
  | CheckFailed cause =>
      match cause with
      | CauseBinding _ | CauseQuote _ => QuoteRejected cause
      | CauseExpired _ _ => AciBinding KeysetExpired
      | CauseProvenance _ => MissingProvenance
      | CauseEvidence _ | CauseCustodyEvidence _ => InvalidEventLog cause
      | CauseChannel _ | CauseDeclaredChannel _ => InvalidTlsBinding cause
      | CausePolicy _ | CauseNotReached _ => PolicyRejected
      end
  end.

(** Instants are counted in nanoseconds. *)
Record CachedAciServiceVerification : Type := mkCachedVerification {
  cv_expires_at : Z;
  cv_evidence : option value;
  cv_channel_bindings : list ChannelBinding;
  cv_identity : ReportBinding;
  cv_session_material : option value;
}.
Record AciServiceUpstreamVerifier : Type := mkAciVerifier {
  av_report_base_url : string;
  av_pccs_url : string;
  av_policy : AciServiceVerifierPolicy;
  av_cache_ttl_seconds : Z;
  av_verifier_id : string;
}.
Definition ACI_VERIFIER_ID : string := "aci-service/v2".
(** [trim_end_matches('/')]. *)
Definition trim_end_slashes (s : string) : string := of_bytes (trim_end_by [as_bytes "/"] (as_bytes s)).
(** [client] is the outcome of building the HTTP client. *)
Definition aci_verifier_new (client : result string unit) (report_base_url pccs_url : string)
    (policy : AciServiceVerifierPolicy) (cache_ttl_seconds : Z) : result VerifierConfigError AciServiceUpstreamVerifier :=
  let report_base_url := trim_end_slashes (trim report_base_url) in
  if bool_decide (report_base_url = "") then Err EmptyBaseUrl
  else
    _ ← map_err ClientError client;
    Ok (mkAciVerifier report_base_url pccs_url policy cache_ttl_seconds ACI_VERIFIER_ID).

Definition cached_event_for (c : CachedAciServiceVerification) (request : UpstreamVerificationRequest) (verifier_id : string) :
    UpstreamVerifiedEvent :=
  mkUpstreamVerifiedEvent None (vr_upstream_name request) (Some "aci-service") (vr_model_id request) (vr_url_origin request)
    verifier_id Verified (vr_required request) None (cv_evidence c) (cv_channel_bindings c) (cv_session_material c)
    (Some (cv_identity c)).

(** The parser serde derives for [AttestationReport]. *)
Class ReportSerde := { report_from_slice : bytes -> result string AttestationReport }.
(** The messages thiserror derives from the attributes of the error. *)
Class VerificationMessages := { verification_error_text : AciServiceVerificationError -> string }.

(** ** What the verifier asks *)
Inductive AciE {DQ : Dcap} : Type -> Type :=
| InstantNow : AciE Z
| WallNanos : AciE N
| RandomNonce : AciE bytes
| HttpGet (url : string) : AciE (option (result string Z))
| HttpBody : AciE (option (result string bytes))
| GetCollateral (pccs_url : string) (raw : bytes) : AciE (option (result string dcap_collateral))
| LockVerify : AciE unit
| UnlockVerify : AciE unit
| ReadCache : AciE (option CachedAciServiceVerification)
| WriteCache (c : option CachedAciServiceVerification) : AciE unit.

Section AciVerifier.
Context {SH : Sha} {HX : HexCodec} {B64 : Base64} {SJ : SerdeJson} {KS : KeysetSerde} {EL : EventLogParse} {K : K256} {UP : UrlParse} {DQ : Dcap}.
Context {RP : ReportSerde} {VM : VerificationMessages}.
Context (v : AciServiceUpstreamVerifier).

Definition unix_secs (wall : N) : Z := Z.of_N wall / NANOS.
(** [CachedAciServiceVerification::remaining], in nanoseconds. *)
Definition remaining (c : CachedAciServiceVerification) : prog AciE (option Z) :=
  now ← call InstantNow;
  if (cv_expires_at c <? now)%Z then Ret None
  else
    wall ← call WallNanos;
    let left := (ks_not_after (rb_keyset (cv_identity c)) * NANOS - Z.of_N wall)%Z in
    if (left <? 0)%Z then Ret None
    else
      let r := Z.min (cv_expires_at c - now) left in
      Ret (if (r =? 0)%Z then None else Some r).

(** An await of the fetch. *)
Definition awaited {X} (p : prog AciE (option (result string X))) : prog AciE (result AciServiceVerificationError X) :=
  r ← p; Ret match r with None => Err VerificationTimeout | Some r => map_err Transport r end.
Definition nonce_url (nonce : string) : string := av_report_base_url v +:+ "/v1/aci/attestation" +:+ "?nonce=" +:+ nonce.

Definition finish_verification (started : Z) (body : bytes) (appraisal : Appraisal) :
    prog AciE (result AciServiceVerificationError CachedAciServiceVerification) :=
  match first_problem appraisal with
  | Some problem => Ret (Err (error_of_check problem))
  | None =>
      match ap_identity appraisal with
      | None => Ret (Err PolicyRejected) (* unreachable: [expect] *)
      | Some identity =>
          wall ← call WallNanos;
          if is_expired_at (rb_keyset identity) (unix_secs wall) then Ret (Err (AciBinding KeysetExpired))
          else
            Ret (Ok (mkCachedVerification (started + av_cache_ttl_seconds v * NANOS)
              (Some (raw_evidence body "application/json" None)) (ap_channel_bindings appraisal) identity
              (ap_session_material appraisal)))
      end
  end.

(** The appraisal, fetching collateral when it comes to that. *)
Definition appraise (inputs : AppraisalInputs) : prog AciE (result AciServiceVerificationError Appraisal) :=
  match collateral_request inputs with
  | None => Ret (map_err InvalidJson (appraise_report (Err "") inputs))
  | Some (pccs_url, raw) =>
      r ← call (GetCollateral pccs_url raw);
      Ret match r with
          | None => Err VerificationTimeout
          | Some fetched => map_err InvalidJson (appraise_report fetched inputs)
          end
  end.
Definition verify_uncached : prog AciE (result AciServiceVerificationError CachedAciServiceVerification) :=
  started ← call InstantNow;
  nonce ← call RandomNonce;
  let nonce := hex_encode nonce in
  status ←? awaited (call (HttpGet (nonce_url nonce)));
  body ←? awaited (call HttpBody);
  if negb ((200 <=? status)%Z && (status <? 300)%Z) then Ret (Err (HttpStatus status body))
  else
    report ←? Ret (map_err InvalidJson (report_from_slice body));
    wall ← call WallNanos;
    appraisal ←? appraise (live_inputs report nonce (unix_secs wall) (av_pccs_url v) (av_policy v) (av_report_base_url v));
    finish_verification started body appraisal.

(** ** The operations of the [UpstreamVerifier] trait *)
Definition cached (request : UpstreamVerificationRequest) : prog AciE (option UpstreamVerifiedEvent) :=
  entry ← call ReadCache;
  match entry with
  | None => Ret None
  | Some c => r ← remaining c; Ret (match r with None => None | Some _ => Some (cached_event_for c request (av_verifier_id v)) end)
  end.
Definition cached_unless (force : bool) (request : UpstreamVerificationRequest) : prog AciE (option UpstreamVerifiedEvent) :=
  if force then Ret None else cached request.
Definition failed_event (request : UpstreamVerificationRequest) (e : AciServiceVerificationError) : UpstreamVerifiedEvent :=
  mkUpstreamVerifiedEvent None (vr_upstream_name request) None (vr_model_id request) (vr_url_origin request)
    (av_verifier_id v) Failed (vr_required request) (Some (verification_error_text e)) None [] None None.
Definition verify_serialized (request : UpstreamVerificationRequest) (force : bool) : prog AciE UpstreamVerifiedEvent :=
  hit ← cached_unless force request;
  match hit with
  | Some event => Ret event
  | None =>
      _ ← call LockVerify;
      hit ← cached_unless force request;
      event ← match hit with
              | Some event => Ret event
              | None =>
                  r ← verify_uncached;
                  match r with
                  | Ok verified =>
                      _ ← call (WriteCache (Some verified));
                      Ret (cached_event_for verified request (av_verifier_id v))
                  | Err e => Ret (failed_event request e)
                  end
              end;
      _ ← call UnlockVerify;
      Ret event
  end.
Definition cache_remaining : prog AciE (option Z) :=
  entry ← call ReadCache;
  match entry with None => Ret None | Some c => remaining c end.
Definition invalidate : prog AciE unit := call (WriteCache None).

Inductive AciOp : Type :=
| OpVerify (request : UpstreamVerificationRequest)
| OpRefresh (request : UpstreamVerificationRequest)
| OpCached (request : UpstreamVerificationRequest)
| OpCacheRemaining
| OpInvalidate.
Definition aci_op (op : AciOp) : prog AciE (option UpstreamVerifiedEvent) :=
  match op with
  | OpVerify request => e ← verify_serialized request false; Ret (Some e)
  | OpRefresh request => e ← verify_serialized request true; Ret (Some e)
  | OpCached request => cached request
  | OpCacheRemaining => _ ← cache_remaining; Ret None
  | OpInvalidate => _ ← invalidate; Ret None
  end.

(** ** Concurrent requests
    Every operation is a task; the tasks share the entry and the lock, and a step answers
    one question of one task.  Clocks, randomness, the upstream and the collateral service
    answer what they like.  A task may also be dropped at any point, which releases the
    lock when it holds it. *)
Record AciTask : Type := mkAciTask {
  at_op : AciOp;
  at_trace : list (action AciE);
  at_prog : prog AciE (option UpstreamVerifiedEvent);
}.
Record AciWorld : Type := mkAciWorld {
  aw_cache : option CachedAciServiceVerification;
  aw_holder : option nat;
  aw_tasks : list AciTask;
}.
Definition external {X} (e : AciE X) : Prop :=
  match e with ReadCache | WriteCache _ | LockVerify | UnlockVerify => False | _ => True end.
Inductive answers (w : AciWorld) (i : nat) :
  forall X, AciE X -> X -> option CachedAciServiceVerification -> option nat -> Prop :=
| answer_read : answers w i _ ReadCache (aw_cache w) (aw_cache w) (aw_holder w)
| answer_write c : answers w i _ (WriteCache c) () c (aw_holder w)
| answer_lock : aw_holder w = None -> answers w i _ LockVerify () (aw_cache w) (Some i)
| answer_unlock : answers w i _ UnlockVerify () (aw_cache w) None
| answer_external X (e : AciE X) x : external e -> answers w i X e x (aw_cache w) (aw_holder w).
Inductive aci_step (w : AciWorld) : AciWorld -> Prop :=
| step_spawn op :
    aci_step w (mkAciWorld (aw_cache w) (aw_holder w) (aw_tasks w ++ [mkAciTask op [] (aci_op op)]))
| step_answer i t X (e : AciE X) k x cache holder :
    aw_tasks w !! i = Some t -> at_prog t = Vis e k -> answers w i X e x cache holder ->
    aci_step w (mkAciWorld cache holder
      (<[i := mkAciTask (at_op t) (at_trace t ++ [Act e x]) (k x)]> (aw_tasks w)))
| step_drop i t :
    aw_tasks w !! i = Some t ->
    aci_step w (mkAciWorld (aw_cache w) (if decide (aw_holder w = Some i) then None else aw_holder w)
      (<[i := mkAciTask (at_op t) (at_trace t) (Ret None)]> (aw_tasks w))).
Inductive aci_reachable : AciWorld -> Prop :=
| reach_start : aci_reachable (mkAciWorld None None [])
| reach_step w w' : aci_reachable w -> aci_step w w' -> aci_reachable w'.

(** ** What stands behind an entry *)
(** The exchanges of a verification that succeeded. *)
Definition verification_trace (c : CachedAciServiceVerification) (tr : list (action AciE)) : Prop :=
  exists started nonce status body report wall raw collateral wall',
    tr = [Act InstantNow started; Act RandomNonce nonce;
          Act (HttpGet (nonce_url (hex_encode nonce))) (Some (Ok status)); Act HttpBody (Some (Ok body));
          Act WallNanos wall; Act (GetCollateral (av_pccs_url v) raw) (Some (Ok collateral)); Act WallNanos wall'] /\
    (200 <= status < 300)%Z /\ report_from_slice body = Ok report /\
    vouched raw collateral report (hex_encode nonce) (unix_secs wall) (av_policy v) (av_report_base_url v)
      (cv_identity c) (cv_channel_bindings c) /\
    (unix_secs wall' < ks_not_after (rb_keyset (cv_identity c)))%Z /\
    cv_expires_at c = (started + av_cache_ttl_seconds v * NANOS)%Z /\
    cv_evidence c = Some (raw_evidence body "application/json" None).
Definition verified_in (c : CachedAciServiceVerification) (tr : list (action AciE)) : Prop :=
  exists pre mid post, tr = pre ++ mid ++ post /\ verification_trace c mid.
(** The entry was read and found unexpired. *)
Definition read_live (c : CachedAciServiceVerification) (tr : list (action AciE)) : Prop :=
  exists pre now wall post,
    tr = pre ++ [Act ReadCache (Some c); Act InstantNow now; Act WallNanos wall] ++ post /\
    (now < cv_expires_at c)%Z /\ (Z.of_N wall < ks_not_after (rb_keyset (cv_identity c)) * NANOS)%Z.

Lemma verified_in_app c tr more : verified_in c tr -> verified_in c (tr ++ more).
Proof. intros (pre & mid & post & -> & H). exists pre, mid, (post ++ more). by rewrite <- !app_assoc. Qed.
Lemma read_live_app c tr more : read_live c tr -> read_live c (tr ++ more).
Proof. intros (pre & now & wall & post & -> & H). exists pre, now, wall, (post ++ more). by rewrite <- !app_assoc. Qed.

Lemma runs_awaited {X} (e : AciE (option (result string X))) tr x :
  runs (awaited (call e)) tr (Ok x) -> tr = [Act e (Some (Ok x))].
Proof.
  unfold awaited. cbn. intros (r & tr' & -> & -> & Hr). destruct r as [[y|]|]; simplify_eq/=. done.
Qed.
Lemma appraise_sound report nonce now tr a :
  runs (appraise (live_inputs report nonce now (av_pccs_url v) (av_policy v) (av_report_base_url v))) tr (Ok a) ->
  first_problem a = None ->
  exists b raw collateral, ap_identity a = Some b /\
    tr = [Act (GetCollateral (av_pccs_url v) raw) (Some (Ok collateral))] /\
    vouched raw collateral report nonce now (av_policy v) (av_report_base_url v) b (ap_channel_bindings a).
Proof.
  unfold appraise. set (inputs := live_inputs _ _ _ _ _ _).
  assert (forall fetched, map_err InvalidJson (appraise_report fetched inputs) = Ok a -> appraise_report fetched inputs = Ok a)
    as Hok by (intros f; by destruct (appraise_report f inputs); intros; simplify_eq/=).
  destruct (collateral_request inputs) as [[pccs raw']|] eqn:Hreq; cbn.
  - intros ([fetched|] & tr' & -> & -> & Ha) Hnp; [|done]. symmetry in Ha. apply Hok in Ha.
    destruct (appraise_report_sound _ _ _ _ _ _ _ _ Ha Hnp) as (b & raw & c & Hb & -> & Hv). exists b, raw, c.
    split; [done|]. split; [|done].
    assert (quote_bytes (ae_evidence (ar_attestation report)) = Ok raw) as Hq by (destruct Hv as [? ? ? ? ? (?&?&?&?&?&?&?&?&?) ?]; done).
    unfold collateral_request, parse_quote_evidence in Hreq. cbn [in_report inputs live_inputs in_quote] in Hreq.
    rewrite Hq in Hreq. case_bool_decide; [done|]. destruct (decode_hex_32 _); [|done]. cbn in Hreq.
    destruct (quote_parse raw); [|done]. cbn in Hreq. destruct (quote_binds_report_data _ _ _); [|done]. by simplify_eq/=.
  - intros [-> Ha] Hnp. symmetry in Ha. apply Hok in Ha.
    by destruct (appraise_report_sound _ _ _ _ _ _ _ _ Ha Hnp) as (b & raw & c & Hb & Hf & Hv).
Qed.
Lemma verify_uncached_sound tr c : runs verify_uncached tr (Ok c) -> verification_trace c tr.
Proof.
  unfold verify_uncached. cbn [mbind prog_bind prog_bind_ call]. intros (started & ? & -> & nonce & ? & -> & Hr).
  apply runs_try_ok in Hr as (? & ? & status & -> & ->%runs_awaited & Hr).
  apply runs_try_ok in Hr as (? & ? & body & -> & ->%runs_awaited & Hr).
  destruct ((200 <=? status)%Z && (status <? 300)%Z) eqn:Hst; cbn [negb] in Hr; [|by destruct Hr].
  apply runs_ret_ok in Hr as (report & Hrep & Hr). cbn [mbind prog_bind prog_bind_ call runs] in Hr.
  destruct Hr as (wall & ? & -> & Hr). apply runs_try_ok in Hr as (? & ? & a & -> & Ha & Hr).
  unfold finish_verification in Hr. destruct (first_problem a) eqn:Hp; [by destruct Hr|].
  destruct (appraise_sound _ _ _ _ _ Ha Hp) as (b & raw & collateral & Hb & -> & Hv). rewrite Hb in Hr. cbn in Hr.
  destruct Hr as (wall' & ? & -> & Hr). unfold is_expired_at in Hr.
  destruct (Z.leb_spec (ks_not_after (rb_keyset b)) (unix_secs wall')); destruct Hr as [-> Hr]; [done|]. injection Hr as ->.
  exists started, nonce, status, body, report, wall, raw, collateral, wall'. cbn.
  apply andb_true_iff in Hst as [?%Z.leb_le ?%Z.ltb_lt]. split_and!; try done.
  by destruct (report_from_slice body); simplify_eq/=.
Qed.

(** ** Programs and their traces
    The ghost state of a task is its trace so far; an entry may be written only when the
    trace ends with the verification of that entry. *)
Definition may_ask (s : list (action AciE)) (X : Type) (e : AciE X) : Prop :=
  match e with WriteCache (Some c) => exists pre mid, s = pre ++ mid /\ verification_trace c mid | _ => True end.
Definition appends (s : list (action AciE)) (X : Type) (e : AciE X) (x : X) (s' : list (action AciE)) : Prop := s' = s ++ [Act e x].
Abbreviation traced := (wp may_ask appends).

(** A program that writes no entry: what its runs say holds of its trace. *)
Fixpoint calm {A} (p : prog AciE A) : Prop :=
  match p with
  | Ret _ => True
  | Vis e k => match e with WriteCache (Some _) => False | _ => True end /\ forall x, calm (k x)
  end.
Lemma calm_bind {A B} (p : prog AciE A) (f : A -> prog AciE B) : calm p -> (forall a, calm (f a)) -> calm (p ≫= f).
Proof. intros Hp Hf. induction p as [a|X e k IH]; cbn in *; [done|]. destruct Hp as [He Hk]. split; [done|]. intros x. apply IH, Hk. Qed.
Lemma calm_try {R A B} (p : prog AciE (result R A)) (f : A -> prog AciE (result R B)) :
  calm p -> (forall a, calm (f a)) -> calm (try_bind p f).
Proof. intros Hp Hf. apply calm_bind; [done|]. by intros [a|]. Qed.
Lemma calm_traced {A} (p : prog AciE A) s Q : calm p -> (forall tr a, runs p tr a -> Q a (s ++ tr)) -> traced p s Q.
Proof.
  revert s. induction p as [a|X e k IH]; intros s; cbn.
  - intros _ HQ. specialize (HQ [] a). rewrite app_nil_r in HQ. auto.
  - intros [He Hk] HQ. split; [by destruct e as [| | | | | | | | |[]]|]. intros x s' ->. apply IH; [done|].
    intros tr a Hr. rewrite <- app_assoc. apply HQ. by exists x, tr.
Qed.
Lemma traced_bind {A B} (p : prog AciE A) (f : A -> prog AciE B) s Q :
  traced p s (fun a s' => traced (f a) s' Q) -> traced (p ≫= f) s Q.
Proof. apply wp_bind. Qed.
Lemma traced_call {X} (e : AciE X) s Q : may_ask s X e -> (forall x, Q x (s ++ [Act e x])) -> traced (call e) s Q.
Proof. intros He HQ. apply wp_call; [done|]. by intros x s' ->. Qed.

Ltac calm := repeat first [progress cbn | split; [done|] | intros ? | case_match; try done].
Lemma calm_remaining c : calm (remaining c).
Proof. by calm. Qed.
Lemma calm_verify_uncached : calm verify_uncached.
Proof.
  unfold verify_uncached. split; [done|]. intros started. split; [done|]. intros nonce.
  apply calm_try; [by calm|]. intros status. apply calm_try; [by calm|]. intros body. case_match; [done|].
  apply calm_try; [done|]. intros report. split; [done|]. intros wall.
  apply calm_try; [unfold appraise; by calm|]. intros a. unfold finish_verification. by calm.
Qed.

(** ** What an operation returns *)
Lemma remaining_live c tr r :
  runs (remaining c) tr (Some r) -> exists now wall, tr = [Act InstantNow now; Act WallNanos wall] /\
    (now < cv_expires_at c)%Z /\ (Z.of_N wall < ks_not_after (rb_keyset (cv_identity c)) * NANOS)%Z.
Proof.
  cbn. intros (now & ? & -> & Hr). destruct (Z.ltb_spec (cv_expires_at c) now); [by destruct Hr|].
  cbn in Hr. destruct Hr as (wall & ? & -> & Hr). exists now, wall.
  destruct (Z.ltb_spec (ks_not_after (rb_keyset (cv_identity c)) * NANOS - Z.of_N wall) 0); [by destruct Hr|].
  destruct Hr as [-> Hr]. destruct (Z.eqb_spec (Z.min (cv_expires_at c - now)
    (ks_not_after (rb_keyset (cv_identity c)) * NANOS - Z.of_N wall)) 0); [done|]. split; [done|]. lia.
Qed.
Lemma cached_live request tr event : runs (cached request) tr (Some event) ->
  exists c, event = cached_event_for c request (av_verifier_id v) /\ read_live c tr.
Proof.
  unfold cached. cbn [mbind prog_bind prog_bind_ call]. intros ([c|] & ? & -> & Hr); [|by destruct Hr].
  apply runs_bind in Hr as (? & ? & [r|] & -> & Hrem & [-> He]); [|done]. injection He as ->.
  apply remaining_live in Hrem as (now & wall & -> & H). exists c. split; [done|]. by exists [], now, wall, [].
Qed.
Lemma calm_cached_unless force request : calm (cached_unless force request).
Proof.
  destruct force; [done|]. split; [done|]. intros [c|]; [|done]. apply calm_bind; [apply calm_remaining|done].
Qed.

(** A returned event: of an entry this task verified, or of one it read and found live. *)
Definition returned (force : bool) (request : UpstreamVerificationRequest) (event : UpstreamVerifiedEvent) (s : list (action AciE)) : Prop :=
  uv_result event = Verified -> exists c, event = cached_event_for c request (av_verifier_id v) /\
    (verified_in c s \/ force = false /\ read_live c s).
Lemma cached_returned force request tr event s : runs (cached_unless force request) tr (Some event) ->
  returned force request event (s ++ tr).
Proof.
  unfold cached_unless. destruct force; [by intros []|]. intros (c & -> & Hl)%cached_live _. exists c. split; [done|].
  right. split; [done|]. destruct Hl as (pre & now & wall & post & -> & H). exists (s ++ pre), now, wall, post.
  by rewrite <- !app_assoc.
Qed.
Lemma returned_app force request event s more : returned force request event s -> returned force request event (s ++ more).
Proof.
  intros Hr Hv. destruct (Hr Hv) as (c & -> & [Hc|[Hf Hc]]); exists c; (split; [done|]).
  - left. by apply verified_in_app.
  - right. split; [done|]. by apply read_live_app.
Qed.
Lemma verify_serialized_traced request force s :
  traced (verify_serialized request force) s (returned force request).
Proof.
  unfold verify_serialized. apply traced_bind, calm_traced; [apply calm_cached_unless|]. intros tr1 [event|] H1.
  { by eapply cached_returned. }
  apply traced_bind, traced_call; [done|]. intros [].
  apply traced_bind, calm_traced; [apply calm_cached_unless|]. intros tr2 [event|] H2.
  { cbn. split; [done|]. intros [] s' ->. apply returned_app. by eapply cached_returned. }
  apply traced_bind, traced_bind, calm_traced; [apply calm_verify_uncached|]. intros tr3 [c|e] H3.
  - apply verify_uncached_sound in H3. apply traced_bind, traced_call; [by eexists _, _|]. intros [].
    cbn. split; [done|]. intros [] s' ->. do 2 apply returned_app. intros _. exists c. split; [done|]. left.
    eexists _, tr3, []. by rewrite app_nil_r.
  - cbn. split; [done|]. intros [] s' ->. by intros ?.
Qed.
Definition op_outcome (op : AciOp) (r : option UpstreamVerifiedEvent) (s : list (action AciE)) : Prop :=
  match op, r with
  | OpVerify request, Some event | OpCached request, Some event => returned false request event s
  | OpRefresh request, Some event => returned true request event s
  | _, Some _ => False
  | _, None => True
  end.
Lemma aci_op_traced op s : traced (aci_op op) s (op_outcome op).
Proof.
  destruct op as [request|request|request| |]; unfold aci_op.
  1,2: apply traced_bind; eapply wp_mono; [apply verify_serialized_traced|]; by intros event s'.
  - apply calm_traced; [apply (calm_cached_unless false)|]. intros tr [event|] Hr; [|done].
    by apply (cached_returned false).
  - apply calm_traced; [|by intros tr r (? & ? & ? & -> & _ & -> & ->)%runs_bind].
    apply calm_bind; [|done]. split; [done|]. intros [c|]; [apply calm_remaining|done].
  - cbn. split; [done|]. by intros [] s' ->.
Qed.

(** ** Every entry and every verified event is backed *)
(** Some task of the world carried out the verification of [c]. *)
Definition backed (w : AciWorld) (c : CachedAciServiceVerification) : Prop :=
  exists i t, aw_tasks w !! i = Some t /\ verified_in c (at_trace t).
Record task_ok (w : AciWorld) (t : AciTask) : Prop := {
  to_runs : traced (at_prog t) (at_trace t) (op_outcome (at_op t));
  to_reads c : Act ReadCache (Some c) ∈ at_trace t -> backed w c;
}.
Record world_ok (w : AciWorld) : Prop := {
  wo_cache c : aw_cache w = Some c -> backed w c;
  wo_tasks i t : aw_tasks w !! i = Some t -> task_ok w t;
}.

(** Traces only grow. *)
Definition extends (w w' : AciWorld) : Prop :=
  forall i t, aw_tasks w !! i = Some t -> exists t' more, aw_tasks w' !! i = Some t' /\ at_trace t' = at_trace t ++ more.
Lemma entry_backed_extends w w' c : extends w w' -> backed w c -> backed w' c.
Proof.
  intros He (i & t & Hi & Hv). destruct (He i t Hi) as (t' & more & Hi' & Htr). exists i, t'. split; [done|].
  rewrite Htr. by apply verified_in_app.
Qed.
Lemma task_ok_extends w w' t : extends w w' -> task_ok w t -> task_ok w' t.
Proof. intros He [H1 H2]. constructor; [done|]. intros c Hc. eapply entry_backed_extends; eauto. Qed.
Lemma extends_insert w cache holder i t t' more :
  aw_tasks w !! i = Some t -> at_trace t' = at_trace t ++ more ->
  extends w (mkAciWorld cache holder (<[i := t']> (aw_tasks w))).
Proof.
  intros Hi Ht j u Hj. cbn. destruct (decide (j = i)) as [->|Hne].
  - rewrite Hi in Hj. injection Hj as <-. exists t', more. by rewrite list_lookup_insert_eq by (by eapply lookup_lt_Some).
  - exists u, []. by rewrite list_lookup_insert_ne, app_nil_r by done.
Qed.
(** One task of a world is replaced. *)
Lemma world_ok_insert w cache holder i t t' more :
  world_ok w -> aw_tasks w !! i = Some t -> at_trace t' = at_trace t ++ more ->
  let w' := mkAciWorld cache holder (<[i := t']> (aw_tasks w)) in
  (forall c, cache = Some c -> backed w' c) -> (extends w w' -> task_ok w' t') -> world_ok w'.
Proof.
  intros [Hc Ht] Hi Htr w' Hcache Hnew. pose proof (extends_insert w cache holder i t t' more Hi Htr) as He. fold w' in He.
  constructor; [done|]. intros j u Hj. cbn in Hj.
  apply list_lookup_insert_Some in Hj as [(-> & <- & _)|[_ Hj]]; [by apply Hnew|].
  eapply task_ok_extends; eauto.
Qed.
Lemma world_ok_spawn w op : world_ok w ->
  world_ok (mkAciWorld (aw_cache w) (aw_holder w) (aw_tasks w ++ [mkAciTask op [] (aci_op op)])).
Proof.
  intros [Hc Ht]. set (w' := mkAciWorld _ _ _).
  assert (extends w w') as He.
  { intros i t Hi. exists t, []. rewrite app_nil_r. split; [|done]. by apply lookup_app_l_Some. }
  constructor; [intros c Hw; eapply entry_backed_extends; eauto|]. intros i t Hi. cbn in Hi.
  apply lookup_app_Some in Hi as [Hi|[_ Hi]]; [eapply task_ok_extends; eauto|].
  apply list_lookup_singleton_Some in Hi as [_ <-]. constructor; [apply aci_op_traced|]. cbn. intros c Hin. set_solver.
Qed.
Definition read_entry (a : action AciE) : option CachedAciServiceVerification :=
  match act_event a in AciE X return X -> option CachedAciServiceVerification with
  | ReadCache => fun x => x | _ => fun _ => None end (act_answer a).
Lemma world_ok_answer w i t X (e : AciE X) k x cache holder :
  world_ok w -> aw_tasks w !! i = Some t -> at_prog t = Vis e k -> answers w i X e x cache holder ->
  world_ok (mkAciWorld cache holder (<[i := mkAciTask (at_op t) (at_trace t ++ [Act e x]) (k x)]> (aw_tasks w))).
Proof.
  intros Hw Hi Hp Ha. destruct (wo_tasks w Hw i t Hi) as [Hr Hreads]. rewrite Hp in Hr. destruct Hr as [Hask Hk].
  pose proof (extends_insert w cache holder i t (mkAciTask (at_op t) (at_trace t ++ [Act e x]) (k x)) [Act e x] Hi eq_refl) as He.
  eapply world_ok_insert; [done|exact Hi|reflexivity|..].
  - intros c Hc. destruct Ha; try (eapply entry_backed_extends; [exact He|]; by apply (wo_cache w Hw)).
    subst. destruct Hask as (pre & mid & Htr & Hv). eexists i, _. split.
    + cbn. rewrite list_lookup_insert_eq by (by eapply lookup_lt_Some). reflexivity.
    + apply verified_in_app. cbn. exists pre, mid, []. by rewrite app_nil_r.
  - intros _. constructor; [by apply Hk|]. cbn. intros c [Hin|Hin]%elem_of_app; [eapply entry_backed_extends; eauto|].
    apply list_elem_of_singleton in Hin. eapply entry_backed_extends; [exact He|]. apply (wo_cache w Hw).
    apply (f_equal read_entry) in Hin. destruct Ha as [|c'| | |X e x Hext]; try done. by destruct e.
Qed.
Lemma aci_reachable_ok w : aci_reachable w -> world_ok w.
Proof.
  induction 1 as [|w w' _ IH Hs]; [by constructor|]. destruct Hs as [op|i t X e k x cache holder Hi Hp Ha|i t Hi].
  - by apply world_ok_spawn.
  - by eapply world_ok_answer.
  - destruct (wo_tasks w IH i t Hi) as [_ Hreads]. eapply (world_ok_insert w _ _ i t _ []); [done|done|by rewrite app_nil_r|..].
    + intros c Hc. eapply entry_backed_extends; [|by apply (wo_cache w IH)].
      eapply (extends_insert w _ _ i t _ []); [done|by rewrite app_nil_r].
    + intros He. constructor; [by destruct (at_op t)|]. cbn. intros c Hc. eapply entry_backed_extends; [exact He|]. by apply Hreads.
Qed.

Definition op_request (op : AciOp) : option UpstreamVerificationRequest :=
  match op with OpVerify r | OpRefresh r | OpCached r => Some r | _ => None end.
Definition forced (op : AciOp) : bool := match op with OpRefresh _ => true | _ => false end.

(** C5: however requests, refreshes, lookups and invalidations interleave, and wherever one is
    dropped, the shared entry was put there by a verification some task carried out: a nonce
    drawn by this verifier, the report fetched with it, and everything [vouched] asks of that
    report.  A task that returns a verified event returns it for such an entry: it verified
    the entry itself, or it read the entry before both its time to live and the keyset's
    expiry had passed.  A forced refresh never returns another task's entry. *)
Theorem verified_upstream_is_backed w : aci_reachable w ->
  (forall c, aw_cache w = Some c -> backed w c) /\
  (forall i t event, aw_tasks w !! i = Some t -> at_prog t = Ret (Some event) -> uv_result event = Verified ->
     exists c request, op_request (at_op t) = Some request /\
       event = cached_event_for c request (av_verifier_id v) /\ backed w c /\
       (verified_in c (at_trace t) \/ forced (at_op t) = false /\ read_live c (at_trace t))).
Proof.
  intros Hw%aci_reachable_ok. split; [apply (wo_cache w Hw)|]. intros i t event Hi Hp Hv.
  destruct (wo_tasks w Hw i t Hi) as [Hr Hreads]. rewrite Hp in Hr. cbn in Hr.
  assert (exists request, op_request (at_op t) = Some request /\ returned (forced (at_op t)) request event (at_trace t))
    as (request & Hreq & Hret) by (destruct (at_op t); by eauto).
  destruct (Hret Hv) as (c & -> & Hc). exists c, request. split_and!; try done.
  destruct Hc as [Hc|[_ (pre & now & wall & post & Htr & _)]]; [by exists i, t|]. apply Hreads. rewrite Htr. set_solver.
Qed.
End AciVerifier.

(** *** Witness: one request, answered by a service whose report is in order *)
#[local] Existing Instances sample_sha sample_hex sample_base64 sample_json sample_keyset_serde sample_k256 sample_url.
Definition sample_compose : string := "services".
Definition sample_log : list DstackEventLog :=
  [sample_event 3 "compose-hash" (hex_encode (sha256 (as_bytes sample_compose))); sample_event 3 "app-id" "a1";
   sample_event 3 "system-ready" ""].
#[local] Instance sample_log_parse : EventLogParse := {| parse_event_log _ := Ok sample_log |}.
(** A quote is its report data followed by RTMR3. *)
Definition sample_td (raw : bytes) : Report :=
  TD10 (mkTDReport [] [] [] [] [] [] [] [] [] [] [] [] [] (drop 64 raw) (take 64 raw)).
#[local] Instance sample_dcap : Dcap := {|
  dcap_collateral := unit;
  quote_parse raw := Ok (sample_td raw);
  dcap_verify raw _ _ := Ok (mkVerifiedReport "UpToDate" (sample_td raw) []);
  dcap_verify_parses := fun raw _ _ v H => match H with eq_refl => eq_refl end;
|}.
Definition sample_service_keyset : WorkloadKeyset :=
  mkWorkloadKeyset None 2000000000 [mkKeyedPublicKey "r1" "ed25519" "aa"] []
    [mkTlsSpki (sample_spki (u8 97)) None].
Definition sample_service_report (nonce : string) : AttestationReport :=
  let keyset := keyset_to_value sample_service_keyset in
  let digest := default EmptyString (result_ok (workload_keyset_digest keyset)) in
  let statement := default [] (result_ok (attestation_statement digest (Some nonce))) in
  let quote := report_data_slot (report_data statement) ++ sample_rtmr3 sample_log in
  let evidence :=
    [("quote", JString (hex_encode quote)); ("event_log", JString "[]"); ("app_compose", JString sample_compose)] in
  mkAttestationReport "aci/1" digest
    (mkAttestationEnvelope "tdx" keyset (hex_encode (report_data statement))
      (mkSourceProvenance None None (Some "sha256:1") None)
      (JObject (match sample_custody_evidence with JObject custody => evidence ++ custody | _ => evidence end)))
    default_capabilities.
Definition sample_custody : VerifiedReceiptCustody :=
  default (mkCustody "" "" "" "" "" "")
    (result_ok (verify_dstack_kms_receipt_custody sample_custody_evidence sample_service_keyset [u8 161])).
Definition sample_policy : AciServiceVerifierPolicy :=
  mkPolicy {[measured_subject [u8 161]]} ∅ {[vc_root_public_key sample_custody]}.
Definition sample_verifier : AciServiceUpstreamVerifier :=
  mkAciVerifier "https://up.example" "https://pccs" sample_policy 300 ACI_VERIFIER_ID.
Definition sample_draw : bytes := zeros 32.
#[local] Instance sample_report_serde : ReportSerde := {| report_from_slice _ := Ok (sample_service_report (hex_encode sample_draw)) |}.
#[local] Instance sample_messages : VerificationMessages := {| verification_error_text _ := "" |}.
Definition sample_request : UpstreamVerificationRequest := mkVerificationRequest "up" None "m" "h" true.

(** The first task is answered until it waits for nothing more. *)
Definition serve (w : AciWorld) {X} (e : AciE X) : X * option CachedAciServiceVerification * option nat :=
  match e in AciE X return X * option CachedAciServiceVerification * option nat with
  | InstantNow => (5%Z, aw_cache w, aw_holder w)
  | WallNanos => (1000000000%N, aw_cache w, aw_holder w)
  | RandomNonce => (sample_draw, aw_cache w, aw_holder w)
  | HttpGet _ => (Some (Ok 200%Z), aw_cache w, aw_holder w)
  | HttpBody => (Some (Ok []), aw_cache w, aw_holder w)
  | GetCollateral _ _ => (Some (Ok tt), aw_cache w, aw_holder w)
  | LockVerify => ((), aw_cache w, Some 0)
  | UnlockVerify => ((), aw_cache w, None)
  | ReadCache => (aw_cache w, aw_cache w, aw_holder w)
  | WriteCache c => ((), c, aw_holder w)
  end.
Definition drive (w : AciWorld) : AciWorld :=
  match aw_tasks w with
  | t :: ts =>
      match at_prog t with
      | Vis e k =>
          match e, aw_holder w with
          | LockVerify, Some _ => w
          | _, _ =>
              let '(x, cache, holder) := serve w e in
              mkAciWorld cache holder (mkAciTask (at_op t) (at_trace t ++ [Act e x]) (k x) :: ts)
          end
      | Ret _ => w
      end
  | [] => w
  end.
Lemma drive_reachable w : aci_reachable sample_verifier w -> aci_reachable sample_verifier (drive w).
Proof.
  intros Hw. unfold drive. destruct w as [cache holder [|t ts]]; [done|]. cbn [aw_tasks aw_holder].
  destruct t as [op tr [r|X e k]]; [done|]. cbn [at_prog at_op at_trace].
  destruct e; try (destruct holder; [exact Hw|]); eapply (reach_step _ _ _ Hw);
    apply (step_answer _ (mkAciWorld _ _ (mkAciTask op tr (Vis _ k) :: ts)) 0 _ _ _ k _ _ _ eq_refl eq_refl); by constructor.
Qed.
Definition sample_world : AciWorld :=
  Nat.iter 12 drive (mkAciWorld None None [mkAciTask (OpVerify sample_request) [] (aci_op sample_verifier (OpVerify sample_request))]).
Lemma sample_world_reachable : aci_reachable sample_verifier sample_world.
Proof.
  unfold sample_world. generalize 12 as n. intros n. induction n as [|n IH]; [|by apply drive_reachable].
  apply (reach_step _ _ _ (reach_start _)). apply (step_spawn _ (mkAciWorld None None [])).
Qed.
Definition outcome_of (t : AciTask) : option (AciOp * VerificationResult) :=
  match at_prog t with Ret (Some event) => Some (at_op t, uv_result event) | _ => None end.
Lemma sample_outcome : aw_tasks sample_world !! 0 ≫= outcome_of = Some (OpVerify sample_request, Verified).
Proof. by vm_compute. Qed.
Lemma verified_upstream_is_backed_witness : exists event c,
  backed sample_verifier sample_world c /\ uv_result event = Verified /\ event = cached_event_for c sample_request ACI_VERIFIER_ID.
Proof.
  pose proof sample_outcome as Ho. destruct (aw_tasks sample_world !! 0) as [t|] eqn:Ht; [|done]. cbn in Ho.
  unfold outcome_of in Ho. destruct (at_prog t) as [[event|]|] eqn:Hp; [|done..]. injection Ho as Hop Hv.
  destruct (proj2 (verified_upstream_is_backed sample_verifier sample_world sample_world_reachable) 0 t event Ht Hp Hv)
    as (c & request & Hreq & He & Hb & _).
  rewrite Hop in Hreq. injection Hreq as <-.
  exists event, c. exact (conj Hb (conj Hv He)).
Defined.
