(* ===== verification/MessagesRequest.v ===== *)
(** * Messages requests as Chat requests (src/middleware/request_transform.rs)

    A Messages client's request rewritten for an upstream that speaks Chat
    Completions: system prompt, turns with their tool calls and tool results, tools and
    output format.  The theory relates it to the other direction, the conversion of an
    upstream's answer in [Conversion]: an answer that the client replays in its next
    request reaches the upstream as the message the upstream had sent. *)
From S2P Require Import Prelude Text Json External Sample SseProtocol UpstreamErrors Images Sanitize ToolMap Audio Conversion.

Definition PDF_MIME : string := "application/pdf".
Definition TXT_MIME : string := "text/plain".

(** ** Blocks *)
Definition block_type (block : value) : result TransformError string :=
  ok_or (invalid_request "content block requires a type") (get_str "type" block).
Definition block_text (block : value) : result TransformError string :=
  ok_or (invalid_request "text block requires text") (get_str "text" block).

(** [for block in blocks { … ? }] with the state of the loop. *)
Definition text_blocks (blocks : list value) : result TransformError string :=
  texts ← try_fold (fun block texts =>
    t ← block_type block;
    if bool_decide (t = "text") then text ← block_text block; Ok (texts ++ [text]) else Ok texts) blocks [];
  Ok (join_text texts).

Definition push_message (messages : list value) (message : value) : list value :=
  let empty :=
    match get "content" message with
    | Some (JString text) => bool_decide (text = "")
    | Some (JArray parts) => bool_decide (parts = [])
    | _ => true
    end in
  if negb empty || bool_decide (is_Some (get "tool_calls" message)) || bool_decide (is_Some (get "reasoning_content" message))
  then messages ++ [message] else messages.
Definition chat_messages (messages : list value) : result TransformError value :=
  if bool_decide (messages = []) then Err (invalid_request "request has no content a Chat upstream can read")
  else Ok (JArray messages).

Definition text_part (text : string) : value := JObject [("type", JString "text"); ("text", JString text)].
Definition chat_content (parts : list value) : value :=
  if forallb (fun part => bool_decide (get_str "type" part = Some "text")) parts
  then JString (join_text (omap (get_str "text") parts))
  else JArray parts.

Definition image_part (block : value) : result TransformError (option value) :=
  let source := default JNull (get "source" block) in
  let part url := JObject [("type", JString "image_url"); ("image_url", JObject [("url", JString url)])] in
  match get_str "type" source with
  | Some t =>
      if bool_decide (t = "base64") then
        media_type ← required_string source "media_type" "image source";
        data ← required_string source "data" "image source";
        Ok (Some (part ("data:" +:+ media_type +:+ ";base64," +:+ data)))
      else if bool_decide (t = "url") then
        url ← required_string source "url" "image source"; Ok (Some (part url))
      else Ok None
  | None => Ok None
  end.

Definition document_part (source : value) (data : string) : option value :=
  match get_str "type" source with
  | Some t =>
      if bool_decide (t = "base64") && bool_decide (get_str "media_type" source = Some PDF_MIME) then
        Some (JObject [("type", JString "file");
          ("file", JObject [("filename", JString "document.pdf");
                            ("file_data", JString ("data:" +:+ PDF_MIME +:+ ";base64," +:+ data))])])
      else if bool_decide (t = "text") &&
              (bool_decide (get_str "media_type" source = Some TXT_MIME) || bool_decide (get_str "media_type" source = None))
      then Some (text_part data)
      else None
  | None => None
  end.
Definition document_parts (block : value) : list value :=
  let text_of key := default "" (get_str key block) in
  let source := default JNull (get "source" block) in
  match filter_some non_empty (get_str "data" source) ≫= document_part source with
  | None => []
  | Some document =>
      let label := join_text [text_of "title"; text_of "context"] in
      (if bool_decide (label = "") then [] else [text_part label]) ++ [document]
  end.

Section Messages.
Context {SJ : SerdeJson}.

(** ** Tool results *)
Record ResultScan : Type := mkResultScan {
  rs_texts : list string;
  rs_labels : list string;
  rs_media : list value;
  rs_whole : bool;
}.
Definition result_block (content : value) (s : ResultScan) : result TransformError ResultScan :=
  kind ← block_type content;
  if bool_decide (kind = "text") then
    text ← block_text content; Ok (mkResultScan (rs_texts s ++ [text]) (rs_labels s) (rs_media s) (rs_whole s))
  else
    parts ← (if bool_decide (kind = "image") then part ← image_part content; Ok (option_list part)
             else if bool_decide (kind = "document") then Ok (document_parts content)
             else Ok []);
    let label := "[" +:+ kind +:+ "]" in
    Ok (mkResultScan (rs_texts s)
          (if bool_decide (label ∈ rs_labels s) then rs_labels s else rs_labels s ++ [label])
          (rs_media s ++ parts) (rs_whole s || bool_decide (parts = []))).
Definition lf_text : string := of_bytes [lf].
(** The content of the tool message, and the media for the message after it. *)
Definition result_content (content : option value) : result TransformError (string * list value) :=
  match content with
  | None | Some JNull => Ok ("", [])
  | Some (JString text) => Ok (text, [])
  | Some (JArray blocks) =>
      s ← try_fold result_block blocks (mkResultScan [] [] [] false);
      if rs_whole s || (bool_decide (rs_texts s = []) && bool_decide (rs_media s = [])) then Ok (json_str (JArray blocks), [])
      else Ok (if bool_decide (rs_texts s = []) then ToolMap.join " " (rs_labels s) else ToolMap.join lf_text (rs_texts s), rs_media s)
  | Some _ => Err (invalid_request "tool_result content must be a string or an array")
  end.
Definition tool_message (tool_call_id content : string) : value :=
  JObject [("role", JString "tool"); ("tool_call_id", JString tool_call_id); ("content", JString content)].
Definition tool_result_message (block : value) (media : list value) : result TransformError (value * list value) :=
  tool_use_id ← required_string block "tool_use_id" "tool_result block";
  '(content, tool_media) ← result_content (get "content" block);
  Ok (tool_message tool_use_id content, media ++ tool_media).

(** ** Turns *)
Record UserScan : Type := mkUserScan {
  us_messages : list value;
  us_content : list value;
  us_parts : list value;
}.
Definition user_block (block : value) (s : UserScan) : result TransformError UserScan :=
  let with_parts parts := mkUserScan (us_messages s) (us_content s) (us_parts s ++ parts) in
  t ← block_type block;
  if bool_decide (t = "text") then text ← block_text block; Ok (with_parts [text_part text])
  else if bool_decide (t = "image") then part ← image_part block; Ok (with_parts (option_list part))
  else if bool_decide (t = "document") then Ok (with_parts (document_parts block))
  else if bool_decide (t = "tool_result") then
    '(message, content) ← tool_result_message block (us_content s);
    Ok (mkUserScan (us_messages s ++ [message]) content (us_parts s))
  else Ok s.
Definition role_message (role : string) (content : value) : value := JObject [("role", JString role); ("content", content)].
Definition push_user_turn (blocks : list value) (messages : list value) : result TransformError (list value) :=
  s ← try_fold user_block blocks (mkUserScan messages [] []);
  Ok (push_message (us_messages s) (role_message "user" (chat_content (us_content s ++ us_parts s)))).

Definition chat_call (id name arguments : string) : value :=
  JObject [("id", JString id); ("type", JString "function");
    ("function", JObject [("name", JString name); ("arguments", JString arguments)])].
Record TurnScan : Type := mkTurnScan {
  tn_texts : list string;
  tn_reasoning : list string;
  tn_tool_calls : list value;
}.
Definition assistant_block (block : value) (s : TurnScan) : result TransformError TurnScan :=
  t ← block_type block;
  if bool_decide (t = "text") then
    text ← block_text block; Ok (mkTurnScan (tn_texts s ++ [text]) (tn_reasoning s) (tn_tool_calls s))
  else if bool_decide (t = "thinking") then
    Ok (mkTurnScan (tn_texts s) (tn_reasoning s ++ [default "" (get_str "thinking" block)]) (tn_tool_calls s))
  else if bool_decide (t = "redacted_thinking") then Ok s
  else if bool_decide (t = "tool_use") then
    input ← ok_or (invalid_request "tool_use input must be a JSON object") (filter_some is_object (get "input" block));
    id ← required_string block "id" "tool_use block";
    name ← required_string block "name" "tool_use block";
    Ok (mkTurnScan (tn_texts s) (tn_reasoning s) (tn_tool_calls s ++ [chat_call id name (json_str input)]))
  else Ok s.
Definition assistant_message (s : TurnScan) : value :=
  let message := role_message "assistant" (JString (join_text (tn_texts s))) in
  let message :=
    if bool_decide (tn_tool_calls s = []) then message else set_member "tool_calls" (JArray (tn_tool_calls s)) message in
  let reasoning := join_text (tn_reasoning s) in
  if bool_decide (reasoning = "") then message else set_member "reasoning_content" (JString reasoning) message.
Definition assistant_turn (blocks : list value) : result TransformError value :=
  s ← try_fold assistant_block blocks (mkTurnScan [] [] []); Ok (assistant_message s).

Definition push_messages_turn (turn : value) (messages : list value) : result TransformError (list value) :=
  role ← ok_or (invalid_request "message role must be user, assistant or system")
    (filter_some (fun role => bool_decide (role ∈ ["user"; "assistant"; "system"])) (get_str "role" turn));
  match get "content" turn with
  | Some (JString text) => Ok (push_message messages (role_message role (JString text)))
  | Some (JArray blocks) =>
      if bool_decide (role = "user") then push_user_turn blocks messages
      else if bool_decide (role = "system") then
        text ← text_blocks blocks; Ok (push_message messages (role_message "system" (JString text)))
      else message ← assistant_turn blocks; Ok (push_message messages message)
  | _ => Err (invalid_request "message content must be a string or an array")
  end.

(** ** Tools and output format *)
Definition client_tool (tool : value) : result TransformError value :=
  schema ← ok_or (invalid_request "tool requires an input_schema object") (filter_some is_object (get "input_schema" tool));
  name ← required_string tool "name" "tool";
  let function := [("name", JString name); ("parameters", schema)] in
  let function := match get_str "description" tool with
                  | Some description => obj_insert "description" (JString description) function | None => function end in
  let function := match get "strict" tool ≫= as_bool with
                  | Some strict => obj_insert "strict" (JBool strict) function | None => function end in
  Ok (JObject [("type", JString "function"); ("function", JObject function)]).
(** Anthropic's typed tools have no counterpart. *)
Definition is_client_tool (tool : value) : bool :=
  match get "type" tool with
  | None | Some JNull => true
  | Some t => bool_decide (t = JString "custom")
  end.
Definition messages_tools (tools : option value) : result TransformError (list value) :=
  match tools with
  | None | Some JNull => Ok []
  | Some (JArray tools) =>
      try_fold (fun tool functions =>
        if is_client_tool tool then function ← client_tool tool; Ok (functions ++ [function]) else Ok functions) tools []
  | Some _ => Err (invalid_request "tools must be an array")
  end.
Definition messages_tool_choice (choice : value) (tools : list value) : result TransformError (option value) :=
  let refusal := Err (invalid_request "tool_choice requires type auto, any, none, or tool") in
  match get_str "type" choice with
  | Some t =>
      if bool_decide (t = "auto") then Ok (Some (JString "auto"))
      else if bool_decide (t = "any") then Ok (Some (JString "required"))
      else if bool_decide (t = "none") then Ok (Some (JString "none"))
      else if bool_decide (t = "tool") then
        name ← required_string choice "name" "tool_choice";
        if existsb (fun tool => bool_decide (function_name tool = Some name)) tools then
          Ok (Some (JObject [("type", JString "function"); ("function", JObject [("name", JString name)])]))
        else Ok None
      else refusal
  | None => refusal
  end.
Definition messages_response_format (format : value) : option value :=
  schema ← filter_some is_object (get "schema" format);
  if bool_decide (get_str "type" format = Some "json_schema") then
    Some (JObject [("type", JString "json_schema");
      ("json_schema", JObject [("name", JString "output"); ("schema", schema); ("strict", JBool true)])])
  else None.

(** ** The request *)
Definition messages_system (request : value) : result TransformError string :=
  match get "system" request with
  | None | Some JNull => Ok ""
  | Some (JString text) => Ok text
  | Some (JArray blocks) => text_blocks blocks
  | Some _ => Err (invalid_request "system must be a string or an array of text blocks")
  end.
Definition CARRIED_MEMBERS : list string := ["model"; "max_tokens"; "temperature"; "top_p"; "top_k"; "stream"].
Definition insert_some (k : string) (v : option value) (m : object) : object :=
  match v with Some v => obj_insert k v m | None => m end.
(** [tool_choice] and [parallel_tool_calls], when there are tools to control. *)
Definition messages_tool_controls (request : value) (tools : list value) (chat : object) : result TransformError object :=
  match filter_some (fun choice => negb (is_null choice) && negb (bool_decide (tools = []))) (get "tool_choice" request) with
  | None => Ok chat
  | Some choice =>
      chat_choice ← messages_tool_choice choice tools;
      let chat := insert_some "tool_choice" chat_choice chat in
      Ok (if bool_decide (get "disable_parallel_tool_use" choice = Some (JBool true))
          then obj_insert "parallel_tool_calls" (JBool false) chat else chat)
  end.
Definition messages_to_chat_params (params : value) : result TransformError value :=
  if negb (is_object params) then Err (invalid_request "request body must be a JSON object")
  else
    system ← messages_system params;
    let messages := if bool_decide (system = "") then [] else [role_message "system" (JString system)] in
    turns ← ok_or (invalid_request "messages must be an array") (get "messages" params ≫= as_array);
    messages ← try_fold push_messages_turn turns messages;
    messages ← chat_messages messages;
    let chat := copy_members CARRIED_MEMBERS params [("messages", messages)] in
    let chat :=
      insert_some "stop" (filter_some (fun stop => match as_array stop with Some (_ :: _) => true | _ => false end)
                            (get "stop_sequences" params)) chat in
    tools ← messages_tools (get "tools" params);
    chat ← messages_tool_controls params tools chat;
    let chat := if bool_decide (tools = []) then chat else obj_insert "tools" (JArray tools) chat in
    let format := non_null (get "output_config" params ≫= get "format") ≫= messages_response_format in
    Ok (JObject (insert_some "response_format" format chat)).
End Messages.

Lemma insert_some_ne k k' v m : k ≠ k' -> obj_get k' (insert_some k v m) = obj_get k' m.
Proof. intros Hne. destruct v; [|done]. cbn. rewrite obj_get_insert. by rewrite bool_decide_false. Qed.

(** ** Replaying an answer *)
Section Replay.
Context {SJ : SerdeJson}.

(** The chat call an upstream made, as it comes back to it: same id, same name, and as its
    arguments the serialization of the input the client was given. *)
Definition call_input (c : ChatToolCall) : value := default (JObject []) (function_call_arguments (call_arguments c) ≫= parse_json).
Definition replayed_call (c : ChatToolCall) : value := chat_call (call_id c) (call_name c) (json_str (call_input c)).
(** The calls that a cut-off answer keeps. *)
Definition call_kept (finish : ChatFinish) (c : ChatToolCall) : bool :=
  negb (bool_decide (function_call_arguments (call_arguments c) = None) && truncated finish).

Lemma kept_uses finish calls :
  omap (tool_use_of_call finish) calls =
  (fun c => tool_use_block (call_id c) (call_name c) (call_input c)) <$> List.filter (call_kept finish) calls.
Proof.
  induction calls as [|c calls IH]; [done|]. simpl in *.
  unfold call_kept in *. unfold tool_use_of_call at 1. case_bool; simpl; [exact IH|]. f_equal. exact IH.
Qed.
Lemma call_named rid i call c : chat_tool_call rid i call = Some c -> non_empty (call_id c) = true /\ non_empty (call_name c) = true.
Proof.
  unfold chat_tool_call. destruct (non_empty (trim _)) eqn:Hn; [|done]. intros [= <-]. cbn. split; [|done].
  destruct (get_str "id" call) as [id|]; [|done]. destruct (non_empty (trim id)) eqn:Hi; [|done].
  destruct id; [|done]. by vm_compute in Hi.
Qed.
Lemma calls_named rid calls : Forall (fun c => non_empty (call_id c) = true /\ non_empty (call_name c) = true) (chat_tool_calls calls rid).
Proof.
  apply Forall_forall. intros c. unfold chat_tool_calls. rewrite list_elem_of_omap.
  intros (o & Ho & Hid). unfold id in Hid. subst o. apply list_elem_of_lookup in Ho as [i Hi]. rewrite list_lookup_imap in Hi.
  destruct (calls !! i) as [call|]; [|done]. injection Hi as Hi. by eapply call_named.
Qed.
Context (empty_object : forall v, parse_json "{}" = Some v -> v = JObject []).
Lemma call_input_object c : is_object (call_input c) = true.
Proof.
  unfold call_input, function_call_arguments. case_bool_decide.
  - cbn. destruct (parse_json "{}") as [v|]; [|done]. by rewrite (empty_object v eq_refl).
  - destruct (parse_json (call_arguments c)) as [v|] eqn:Hv; [|done]. cbn. destruct (is_object v) eqn:Ho; [|done].
    cbn. rewrite Hv. done.
Qed.

Lemma call_input_wf c : value_wf (call_input c) /\ json_depth (call_input c) <= 127.
Proof.
  unfold call_input. destruct (function_call_arguments (call_arguments c)) as [text|]; cbn; [|split; [apply value_wfb_spec; done|lia]].
  unfold parse_json. destruct (from_slice (as_bytes text)) as [v|] eqn:Hv; cbn; [|split; [apply value_wfb_spec; done|lia]].
  split; [by eapply from_slice_wf|by eapply from_slice_depth].
Qed.
Lemma try_fold_app {E A S} (f : A -> S -> result E S) l1 l2 s :
  try_fold f (l1 ++ l2) s = s' ← try_fold f l1 s; try_fold f l2 s'.
Proof. revert s. induction l1 as [|a l1 IH]; intros s; [done|]. simpl. destruct (f a s); cbn; [apply IH|done]. Qed.
Lemma replay_texts texts s : try_fold assistant_block (text_block <$> texts) s = Ok (mkTurnScan (tn_texts s ++ texts) (tn_reasoning s) (tn_tool_calls s)).
Proof.
  revert s. induction texts as [|t texts IH]; intros [a b c]; simpl; [by rewrite app_nil_r|]. rewrite IH. simpl. by rewrite <- app_assoc.
Qed.
Lemma assistant_tool_use i n v s : is_object v = true -> non_empty i = true -> non_empty n = true ->
  assistant_block (tool_use_block i n v) s =
  Ok (mkTurnScan (tn_texts s) (tn_reasoning s) (tn_tool_calls s ++ [chat_call i n (json_str v)])).
Proof.
  intros Ho Hi Hn. unfold assistant_block, required_string. change (block_type (tool_use_block i n v)) with (@Ok TransformError string "tool_use").
  change (get "input" (tool_use_block i n v)) with (Some v). change (get_str "id" (tool_use_block i n v)) with (Some i).
  change (get_str "name" (tool_use_block i n v)) with (Some n). unfold filter_some. cbn [mbind result_bind option_bind bool_decide].
  rewrite Ho, Hi, Hn. done.
Qed.
Lemma replay_uses calls s : Forall (fun c => non_empty (call_id c) = true /\ non_empty (call_name c) = true) calls ->
  try_fold assistant_block ((fun c => tool_use_block (call_id c) (call_name c) (call_input c)) <$> calls) s =
  Ok (mkTurnScan (tn_texts s) (tn_reasoning s) (tn_tool_calls s ++ (replayed_call <$> calls))).
Proof.
  intros Hc. revert s. induction Hc as [|c calls [Hi Hn] _ IH]; intros [a b d]; simpl; [by rewrite app_nil_r|].
  rewrite (assistant_tool_use _ _ _ _ (call_input_object c) Hi Hn). cbn [mbind result_bind]. rewrite IH. cbn. by rewrite <- app_assoc.
Qed.

(** What the client is given as the content of an answer, and the turn it becomes. *)
Lemma replayed_turn thinking texts calls :
  Forall (fun c => non_empty (call_id c) = true /\ non_empty (call_name c) = true) calls ->
  assistant_turn ((thinking_block <$> option_list thinking) ++ (text_block <$> texts) ++
    ((fun c => tool_use_block (call_id c) (call_name c) (call_input c)) <$> calls)) =
  Ok (assistant_message (mkTurnScan texts (option_list thinking) (replayed_call <$> calls))).
Proof.
  intros Hc. unfold assistant_turn. rewrite try_fold_app.
  assert (try_fold assistant_block (thinking_block <$> option_list thinking) (mkTurnScan [] [] []) =
    Ok (mkTurnScan [] (option_list thinking) [])) as -> by (by destruct thinking).
  cbn [mbind result_bind]. rewrite try_fold_app, replay_texts. cbn [mbind result_bind tn_texts tn_reasoning tn_tool_calls]. by rewrite replay_uses.
Qed.

(** The reading of a turn that the bridge made. *)
Lemma assistant_message_reads s :
  get_str "role" (assistant_message s) = Some "assistant" /\
  get_str "content" (assistant_message s) = Some (join_text (tn_texts s)) /\
  get_str "reasoning_content" (assistant_message s) = filter_some non_empty (Some (join_text (tn_reasoning s))) /\
  message_tool_calls (assistant_message s) = tn_tool_calls s.
Proof.
  unfold assistant_message, filter_some, non_empty, message_tool_calls. cbn [mbind option_bind].
  repeat case_bool_decide; repeat split; first [reflexivity|by symmetry].
Qed.
Lemma join_text_one t : non_empty t = true -> join_text [t] = t.
Proof. intros Ht. unfold join_text. by rewrite filter_cons_True. Qed.
Lemma join_one (t : option string) : filter_some non_empty t = t ->
  filter_some non_empty (Some (join_text (option_list t))) = t.
Proof.
  destruct t as [t|]; [|done]. intros Ht. assert (non_empty t = true) as Hn by (cbn in Ht; by destruct (non_empty t)).
  change (option_list (Some t)) with [t]. by rewrite join_text_one.
Qed.
Lemma join_text_non_empty texts : join_text (filter (fun t => non_empty t = true) texts) = join_text texts.
Proof. unfold join_text. by rewrite list_filter_filter_l by done. Qed.

(** C33: An answer the client replays is the answer. When the gateway converts a chat answer for a
    Messages client and the client sends the content it was given back as an assistant turn, the
    upstream is told what it had said: the text (and refusal) of its message, its reasoning, and
    its tool calls in order with their ids and names, each with the same arguments as a JSON
    document. Left out are only calls without a name and, in an answer that was cut off, calls
    whose arguments were cut; arguments that are not an object come back as the empty one. *)
Theorem replayed_answer_is_the_answer now response m content :
  openai_to_anthropic_messages now response = Ok m -> get "content" m = Some (JArray content) ->
  exists message turn, chat_message (first_choice response) = Some message /\ assistant_turn content = Ok turn /\
    get_str "role" turn = Some "assistant" /\
    get_str "content" turn = Some (join_text [chat_text (get "content" message); chat_text (get "refusal" message)]) /\
    get_str "reasoning_content" turn = reasoning_text message /\
    message_tool_calls turn = replayed_call <$>
      List.filter (call_kept (chat_finish (first_choice response)))
        (chat_tool_calls (message_tool_calls message) (messages_id now response)) /\
    forall c, let input := call_input c in
      (trim (call_arguments c) ≠ "" -> forall o, parse_json (call_arguments c) = Some (JObject o) -> input = JObject o) /\
      (float_free input -> parse_json (json_str input) = Some input).
Proof.
  unfold openai_to_anthropic_messages. case_bool; [done|].
  destruct (chat_message _) as [message|]; cbn [ok_or mbind result_bind]; [|done]. cbv zeta. case_bool; [done|].
  set (calls := chat_tool_calls _ _). set (finish := chat_finish _). intros [= <-]. rewrite kept_uses.
  set (kept := List.filter (call_kept finish) calls). set (texts := filter _ _).
  assert (Forall (fun c => non_empty (call_id c) = true /\ non_empty (call_name c) = true) kept) as Hnamed.
  { apply Forall_forall. intros c Hc%list_elem_of_In. apply filter_In in Hc as [Hc%list_elem_of_In _].
    revert c Hc. apply Forall_forall, calls_named. }
  intros Hcontent. set (blocks := (if bool_decide _ then _ else _)) in Hcontent.
  assert (blocks = content) as <- by (injection Hcontent; by intros ->). clear Hcontent.
  assert (assistant_turn blocks = Ok (assistant_message (mkTurnScan texts (option_list (reasoning_text message)) (replayed_call <$> kept)))) as Hturn.
  { unfold blocks. change (match reasoning_text message with Some thinking => [thinking_block thinking] | None => [] end)
      with (from_option (fun thinking => [thinking_block thinking]) [] (reasoning_text message)).
    assert (from_option (fun thinking => [thinking_block thinking]) [] (reasoning_text message) =
      thinking_block <$> option_list (reasoning_text message)) as -> by (by destruct (reasoning_text message)).
    rewrite <- app_assoc. clear Heqb Heqb0. case_bool_decide as Hnil; [|by apply replayed_turn].
    apply app_nil in Hnil as [Ht Hnil]. apply app_nil in Hnil as [Hx Hk].
    by destruct (reasoning_text message), texts, kept. }
  destruct (assistant_message_reads (mkTurnScan texts (option_list (reasoning_text message)) (replayed_call <$> kept)))
    as (Hrole & Htext & Hreason & Hcalls). cbn [tn_texts tn_reasoning tn_tool_calls] in *.
  exists message. eexists. split; [done|]. split; [exact Hturn|]. split; [exact Hrole|]. split; [rewrite Htext; unfold texts; by rewrite join_text_non_empty|].
  split; [rewrite Hreason; apply join_one; unfold reasoning_text, filter_some; destruct (or_else _ _) as [r|]; [|done]; cbn; by destruct (non_empty r) eqn:Hr; cbn; rewrite ?Hr|].
  split; [exact Hcalls|]. intros c. split.
  - intros Hne o Ho. unfold call_input, function_call_arguments. rewrite bool_decide_eq_false_2 by done. rewrite Ho. cbn. by rewrite Ho.
  - intros Hff. unfold parse_json, json_str. rewrite as_bytes_of_bytes.
    destruct (call_input_wf c). by rewrite from_slice_to_vec.
Qed.
End Replay.

Section Witness.
#[local] Existing Instances sample_json.
Definition sample_answer : value :=
  JObject [("id", JString "c1"); ("choices", JArray [JObject [("finish_reason", JString "tool_calls");
    ("message", JObject [("content", JString "Looking it up."); ("reasoning_content", JString "The user wants news.");
      ("tool_calls", JArray [JObject [("id", JString "t1");
        ("function", JObject [("name", JString "search"); ("arguments", JString "")])]])])]])].
Definition sample_given : value := default JNull (result_ok (openai_to_anthropic_messages 0 sample_answer)).
Definition sample_content : list value := default [] (get "content" sample_given ≫= as_array).
Example sample_content_blocks : omap (get_str "type") sample_content = ["thinking"; "text"; "tool_use"].
Proof. by vm_compute. Qed.
Lemma sample_empty_object v : parse_json "{}" = Some v -> v = JObject [].
Proof. by vm_compute. Qed.
Lemma replayed_answer_is_the_answer_witness : exists message turn, assistant_turn sample_content = Ok turn /\
  chat_message (first_choice sample_answer) = Some message /\ get_str "reasoning_content" turn = reasoning_text message.
Proof.
  destruct (replayed_answer_is_the_answer sample_empty_object 0 sample_answer sample_given sample_content)
    as (message & turn & Hmsg & Hturn & _ & _ & Hreason & _); [by vm_compute|by vm_compute|].
  exists message, turn. exact (conj Hturn (conj Hmsg Hreason)).
Defined.
End Witness.
