(* ===== verification/ResponsesRequest.v ===== *)
(** * Responses requests as Chat requests (src/middleware/request_transform.rs)

    A Responses client's request rewritten for an upstream that speaks Chat
    Completions.  The input is a list of items (messages, calls the model made, their
    outputs, reasoning); the pass over them keeps a [ResponsesInputState].  The theory
    shows that in an accepted history every tool call is answered, exactly once and after
    it was made. *)
From S2P Require Import Prelude Text Json External Sample SseProtocol UpstreamErrors Images Sanitize ToolMap Audio Conversion.
From S2P Require Import MessagesRequest.

Definition validate_responses_request (params : value) : result TransformError unit :=
  if negb (is_object params) then Err (invalid_request "request body must be a JSON object")
  else if from_option non_empty false (get_str "previous_response_id" params) then
    Err (invalid_request "previous_response_id is not supported: the gateway stores no responses")
  else if negb (is_null_or_absent (get "conversation" params)) then
    Err (invalid_request "conversation is not supported: the gateway stores no responses")
  else
    match List.find (fun key => bool_decide (get key params = Some (JBool true))) ["store"; "background"] with
    | Some key => Err (invalid_request (key +:+ ": true is not supported: the gateway stores no responses"))
    | None => Ok ()
    end.

(** ** The pass over the input items *)
Inductive ResponsesCallKind : Type := FunctionCall | CustomCall | ToolSearchCall.
#[global] Instance ResponsesCallKind_eq_dec : EqDecision ResponsesCallKind.
Proof. solve_decision. Defined.
Definition output_type (kind : ResponsesCallKind) : string :=
  match kind with
  | FunctionCall => "function_call_output" | CustomCall => "custom_tool_call_output" | ToolSearchCall => "tool_search_output"
  end.
Record ResponsesInputState : Type := mkInputState {
  is_calls : gmap string ResponsesCallKind;
  is_outputs : gset string;
  is_pending_reasoning : option string;
  is_pending_media : list value;
}.
Definition input_state_default : ResponsesInputState := mkInputState ∅ ∅ None [].
(** The messages so far and the state. *)
Abbreviation Pass := (list value * ResponsesInputState)%type.

Definition flush_media (p : Pass) : Pass :=
  let '(messages, s) := p in
  if bool_decide (is_pending_media s = []) then p
  else (messages ++ [role_message "user" (JArray (is_pending_media s))],
        mkInputState (is_calls s) (is_outputs s) (is_pending_reasoning s) []).
Definition unanswered (s : ResponsesInputState) : option string :=
  List.find (fun id => negb (bool_decide (id ∈ is_outputs s))) (merge_sort String.le (map_to_list (is_calls s)).*1).
Definition finish_input (p : Pass) : result TransformError Pass :=
  let p := flush_media p in
  match unanswered p.2 with
  | Some call_id => Err (invalid_request ("tool call " +:+ call_id +:+ " is missing its output"))
  | None => Ok p
  end.

(** ** Content *)
Definition is_text_part (part : value) : bool :=
  from_option (fun t => bool_decide (t ∈ ["input_text"; "output_text"; "text"])) false (get_str "type" part).
Definition text_parts (parts : list value) (context : string) : result TransformError string :=
  try_fold (fun part text =>
    if is_text_part part then
      part_text ← ok_or (invalid_request (context +:+ " text part requires text")) (get_str "text" part);
      Ok (text +:+ part_text)
    else Ok text) parts "".
Definition optional_non_empty_string (object : value) (key item_type : string) : result TransformError (option string) :=
  match get key object with
  | None | Some JNull => Ok None
  | Some (JString s) =>
      if non_empty s then Ok (Some s) else Err (invalid_request (item_type +:+ " " +:+ key +:+ " must be a non-empty string"))
  | Some _ => Err (invalid_request (item_type +:+ " " +:+ key +:+ " must be a non-empty string"))
  end.
(** [str::strip_suffix]. *)
Definition strip_suffix (suffix s : string) : option string :=
  of_bytes ∘ reverse <$> strip_bytes (reverse (as_bytes suffix)) (reverse (as_bytes s)).
Definition data_url (url : string) : option (string * string) :=
  rest ← strip_prefix "data:" url;
  '(header, data) ← split_once "," rest;
  media_type ← strip_suffix ";base64" header;
  Some (trim (of_bytes (default [] (head (split_bytes (fun c => bool_decide (c = u8 59)) (as_bytes media_type))))), data).
Definition is_text_media_type (media_type : string) : bool :=
  bool_decide (is_Some (strip_prefix "text/" media_type)) || bool_decide (media_type ∈ ["application/json"; "application/xml"]).

Section Responses.
Context {SJ : SerdeJson} {SH : Sha} {HX : HexCodec} {B64 : Base64}.

Definition image_media_part (part : value) : option value :=
  (fun url =>
    let image_url := [("url", JString url)] in
    let image_url := match get "detail" part with
                     | Some (JString d) => obj_insert "detail" (JString d) image_url | _ => image_url end in
    JObject [("type", JString "image_url"); ("image_url", JObject image_url)]) <$> get_str "image_url" part.
(** What becomes of an attached file: a member list for a file part, or a part outright. *)
Definition file_of_data (data : string) : (object + option value) :=
  match data_url data with
  | Some (media_type, encoded) =>
      if bool_decide (media_type = PDF_MIME) then inl [("file_data", JString data)]
      else if is_text_media_type media_type then
        inr (text ← (bytes ← b64_decode encoded; if is_utf8 bytes then Some (of_bytes bytes) else None); Some (text_part text))
      else inr None
  | None => inl [("file_data", JString data)]
  end.
Definition chat_media_part (part : value) : result TransformError (option value) :=
  if bool_decide (get_str "type" part = Some "input_image") then Ok (image_media_part part)
  else if negb (is_null_or_absent (get "file_url" part)) then Ok None
  else
    file_id ← optional_non_empty_string part "file_id" "input_file";
    file_data ← optional_non_empty_string part "file_data" "input_file";
    filename ← optional_non_empty_string part "filename" "input_file";
    file ← match file_id, file_data with
           | Some file_id, None => Ok (inl [("file_id", JString file_id)])
           | None, Some data => Ok (file_of_data data)
           | _, _ => Err (invalid_request "input_file requires exactly one of file_id or file_data")
           end;
    Ok match file with
       | inr part => part
       | inl file =>
           let file := match filename with
                       | Some filename => obj_insert "filename" (JString filename) file
                       | None => if bool_decide (is_Some (obj_get "file_data" file))
                                 then obj_insert "filename" (JString "document.pdf") file else file
                       end in
           Some (JObject [("type", JString "file"); ("file", JObject file)])
       end.

Definition content_part (part : value) (out : list value) : result TransformError (list value) :=
  part_type ← ok_or (invalid_request "input content part requires a type") (get_str "type" part);
  if bool_decide (part_type ∈ ["input_text"; "output_text"; "text"]) then
    Ok (out ++ [text_part (default "" (get_str "text" part))])
  else if bool_decide (part_type ∈ ["input_image"; "input_file"]) then
    media ← chat_media_part part; Ok (out ++ option_list media)
  else Ok out.
Definition chat_message_content (role : string) (content : option value) : result TransformError value :=
  match content with
  | Some (JString text) => Ok (JString text)
  | Some (JArray parts) =>
      if bool_decide (role = "assistant") then JString <$> text_parts parts "assistant content"
      else
        out ← try_fold content_part parts [];
        Ok (if bool_decide (out = []) then JString "" else JArray out)
  | _ => Err (invalid_request "input message requires content")
  end.

Definition text_of (v : option value) : string :=
  match v with
  | Some (JString text) => text
  | Some (JArray parts) => concat_strings (omap (get_str "text") parts)
  | Some other => json_str other
  | None => ""
  end.

(** The scan of an output's parts; [None] when a part is of another shape. *)
Record OutputScan : Type := mkOutputScan {
  os_texts : list string;
  os_labels : list string;
  os_media : list value;
}.
Fixpoint scan_output (parts : list value) (s : OutputScan) : result TransformError (option OutputScan) :=
  match parts with
  | [] => Ok (Some s)
  | part :: parts' =>
      if is_text_part part then
        scan_output parts' (mkOutputScan (os_texts s ++ option_list (get_str "text" part)) (os_labels s) (os_media s))
      else
        let labelled kind :=
          media ← chat_media_part part;
          let label := "[" +:+ kind +:+ "]" in
          scan_output parts' (mkOutputScan (os_texts s)
            (if bool_decide (label ∈ os_labels s) then os_labels s else os_labels s ++ [label]) (os_media s ++ option_list media)) in
        if bool_decide (get_str "type" part = Some "input_image") then labelled "image"
        else if bool_decide (get_str "type" part = Some "input_file") then labelled "file"
        else Ok None
  end.
(** The text, and the media for the user message after the outputs. *)
Definition tool_output_text (output : option value) : result TransformError (string * list value) :=
  match output with
  | Some (JString text) => Ok (text, [])
  | Some (JArray (part :: parts)) =>
      scan ← scan_output (part :: parts) (mkOutputScan [] [] []);
      Ok match scan with
         | None => (json_str (JArray (part :: parts)), [])
         | Some s =>
             (if bool_decide (os_texts s = []) then ToolMap.join " " (os_labels s) else ToolMap.join lf_text (os_texts s), os_media s)
         end
  | Some other => Ok (json_str other, [])
  | None => Err (invalid_request "tool output requires an output value")
  end.

Definition response_call_name (item : value) (item_type : string) : result TransformError string :=
  name ← required_string item "name" item_type;
  Ok match get_str "namespace" item with
     | Some ns => if non_empty ns then flatten_namespace_tool_name ns name else name
     | None => name
     end.

(** ** Items *)
Definition set_reasoning (r : option string) (s : ResponsesInputState) : ResponsesInputState :=
  mkInputState (is_calls s) (is_outputs s) r (is_pending_media s).
Definition is_assistant (message : value) : bool := bool_decide (get_str "role" message = Some "assistant").
Definition add_call (call : value) (turn : value) : value :=
  match get "tool_calls" turn with
  | Some (JArray calls) => set_member "tool_calls" (JArray (calls ++ [call])) turn
  | _ => set_member "tool_calls" (JArray [call]) turn
  end.
Definition push_chat_call (id name arguments : string) (kind : ResponsesCallKind) (p : Pass) : result TransformError Pass :=
  let '(messages, s) := p in
  if bool_decide (is_Some (is_calls s !! id)) then Err (invalid_request ("duplicate tool call id " +:+ id))
  else
    let s := mkInputState (<[id := kind]> (is_calls s)) (is_outputs s) (is_pending_reasoning s) (is_pending_media s) in
    let call := chat_call id name arguments in
    let joins := match is_pending_reasoning s with
                 | None => from_option is_assistant false (last messages) | Some _ => false end in
    Ok (if joins then (on_last (add_call call) messages, s)
        else
          let message := [("role", JString "assistant"); ("tool_calls", JArray [call])] in
          let message := match is_pending_reasoning s with
                         | Some reasoning => obj_insert "reasoning_content" (JString reasoning) message
                         | None => message
                         end in
          (messages ++ [JObject message], set_reasoning None s)).

Definition push_input_message (item : value) (p : Pass) : result TransformError Pass :=
  let '(messages, s) := p in
  role ← ok_or (invalid_request "input message requires a role") (get_str "role" item);
  if negb (bool_decide (role ∈ ["user"; "assistant"; "system"; "developer"])) then
    Err (invalid_request ("input message role " +:+ role +:+ " is not supported"))
  else
    content ← chat_message_content role (get "content" item);
    let message := role_message role content in
    let message :=
      if bool_decide (role = "assistant") then
        match is_pending_reasoning s with
        | Some reasoning => set_member "reasoning_content" (JString reasoning) message
        | None => message
        end
      else message in
    Ok (push_message messages message, set_reasoning None s).

Definition push_tool_output (item_type : string) (item : value) (p : Pass) : result TransformError Pass :=
  let '(messages, s) := p in
  id ← required_string item "call_id" item_type;
  match is_calls s !! id with
  | None => Err (invalid_request ("tool output references unknown call " +:+ id))
  | Some kind =>
      if negb (bool_decide (item_type = output_type kind)) then
        Err (invalid_request ("tool call " +:+ id +:+ " requires " +:+ output_type kind))
      else if bool_decide (id ∈ is_outputs s) then Err (invalid_request ("duplicate tool output for call " +:+ id))
      else
        '(content, media) ← match kind with
                            | ToolSearchCall => Ok (json_str item, [])
                            | _ => tool_output_text (get "output" item)
                            end;
        Ok (messages ++ [tool_message id content],
            mkInputState (is_calls s) ({[id]} ∪ is_outputs s) (is_pending_reasoning s) (is_pending_media s ++ media))
  end.

Definition push_reasoning (item : value) (p : Pass) : Pass :=
  let '(messages, s) := p in
  let content := text_of (get "content" item) in
  let reasoning := if bool_decide (content = "") then text_of (get "summary" item) else content in
  if bool_decide (reasoning = "") then p
  else (messages, set_reasoning (Some (default "" (is_pending_reasoning s) +:+ reasoning)) s).

Definition is_output_type (t : string) : bool :=
  bool_decide (t ∈ ["function_call_output"; "custom_tool_call_output"; "tool_search_output"]).
Definition push_input_item (item : value) (p : Pass) : result TransformError Pass :=
  let item_type := get_str "type" item in
  let p := if from_option is_output_type false item_type then p else flush_media p in
  match item_type with
  | None => push_input_message item p
  | Some t =>
      if bool_decide (t = "message") then push_input_message item p
      else if bool_decide (t = "function_call") then
        id ← required_string item "call_id" "function_call";
        name ← response_call_name item "function_call";
        let arguments := default "{}" (filter_some (fun a => non_empty (trim a)) (get_str "arguments" item)) in
        push_chat_call id name arguments FunctionCall p
      else if bool_decide (t = "custom_tool_call") then
        id ← required_string item "call_id" "custom_tool_call";
        name ← response_call_name item "custom_tool_call";
        input ← ok_or (invalid_request "custom_tool_call requires a string input") (get_str "input" item);
        push_chat_call id name (json_str (JObject [("input", JString input)])) CustomCall p
      else if bool_decide (t = "tool_search_call") then
        id ← required_string item "call_id" "tool_search_call";
        push_chat_call id TOOL_SEARCH_PROXY_NAME (from_option json_str "{}" (get "arguments" item)) ToolSearchCall p
      else if is_output_type t then push_tool_output t item p
      else if bool_decide (t = "reasoning") then Ok (push_reasoning item p)
      else Ok p
  end.

(** ** The request *)
Definition responses_input (params : value) : result TransformError (list value) :=
  let messages := match filter_some non_empty (get_str "instructions" params) with
                  | Some instructions => [role_message "system" (JString instructions)]
                  | None => []
                  end in
  match get "input" params with
  | Some (JString text) => Ok (messages ++ [role_message "user" (JString text)])
  | Some (JArray items) =>
      p ← try_fold push_input_item items (messages, input_state_default);
      p ← finish_input p;
      Ok p.1
  | _ => Err (invalid_request "input must be a string or an array of items")
  end.
Definition RENAMED_MEMBERS : list (string * string) :=
  [("model", "model"); ("provider", "provider"); ("max_output_tokens", "max_completion_tokens"); ("temperature", "temperature");
   ("top_p", "top_p"); ("stream", "stream"); ("user", "user"); ("prompt_cache_key", "prompt_cache_key")].
Definition rename_members (keys : list (string * string)) (source : value) (m : object) : object :=
  foldl (fun m '(key, chat_key) => insert_some chat_key (get key source) m) m keys.
Definition responses_text_controls (params : value) (chat : object) : object :=
  match get "text" params with
  | Some (JObject text) =>
      let format := match obj_get "format" text with Some (JObject format) => chat_response_format format | _ => None end in
      insert_some "verbosity" (obj_get "verbosity" text) (insert_some "response_format" format chat)
  | _ => chat
  end.
Definition responses_to_chat_params (params : value) : result TransformError value :=
  _ ← validate_responses_request params;
  if negb (is_null_or_absent (get "prompt" params)) then
    Err (invalid_request "prompt templates require an upstream that supports /v1/responses")
  else
    effective_tools ← effective_responses_tools params;
    '(tools, _) ← chat_tools effective_tools;
    messages ← responses_input params;
    messages ← chat_messages messages;
    let chat := rename_members RENAMED_MEMBERS params [("messages", messages)] in
    '(tool_choice, tools) ← match get "tool_choice" params with
                            | Some choice => chat_tool_choice choice tools
                            | None => Ok (None, tools)
                            end;
    let chat := insert_some "tool_choice" tool_choice chat in
    let chat :=
      if bool_decide (tools = []) then chat
      else insert_some "parallel_tool_calls" (get "parallel_tool_calls" params) (obj_insert "tools" (JArray tools) chat) in
    let chat := responses_text_controls params chat in
    Ok (JObject (insert_some "reasoning_effort" (non_null (get "reasoning" params ≫= get "effort")) chat)).
End Responses.

(** ** Calls and answers of a conversation *)
Section Paired.
Context {SJ : SerdeJson} {SH : Sha} {HX : HexCodec} {B64 : Base64}.

(** The ids of the calls a chat message makes, and the call a tool message answers. *)
Definition message_calls (m : value) : list string := omap (get_str "id") (message_tool_calls m).
Definition message_answer (m : value) : option string :=
  if bool_decide (get_str "role" m = Some "tool") then get_str "tool_call_id" m else None.
Definition calls_of (messages : list value) : list string := mjoin (message_calls <$> messages).
Definition answers_of (messages : list value) : list string := omap message_answer messages.
(** Every answer comes after the call it answers. *)
Definition answers_follow (messages : list value) : Prop :=
  forall pre m post id, messages = pre ++ m :: post -> message_answer m = Some id -> id ∈ calls_of pre.

(** The calls and outputs among the items of an input. *)
Definition item_call (item : value) : option string :=
  t ← get_str "type" item;
  if bool_decide (t ∈ ["function_call"; "custom_tool_call"; "tool_search_call"]) then get_str "call_id" item else None.
Definition item_output (item : value) : option string :=
  t ← get_str "type" item; if is_output_type t then get_str "call_id" item else None.

Lemma calls_app l1 l2 : calls_of (l1 ++ l2) = calls_of l1 ++ calls_of l2.
Proof. unfold calls_of. by rewrite fmap_app, join_app. Qed.
Lemma answers_app l1 l2 : answers_of (l1 ++ l2) = answers_of l1 ++ answers_of l2.
Proof. apply omap_app. Qed.
Lemma follow_snoc messages m : answers_follow messages ->
  (forall id, message_answer m = Some id -> id ∈ calls_of messages) -> answers_follow (messages ++ [m]).
Proof.
  intros Hf Hm pre m' post id Heq Ha. destruct post as [|p post] using rev_ind.
  - apply app_inj_tail in Heq as [-> ->]. by apply Hm.
  - rewrite app_comm_cons, app_assoc in Heq. apply app_inj_tail in Heq as [-> _]. by eapply Hf.
Qed.
(** A message that neither calls nor answers. *)
Definition plain (m : value) : Prop := message_calls m = [] /\ message_answer m = None.

(** What the pass keeps: the calls and outputs seen are those of the messages. *)
Record paired (items : list value) (p : Pass) : Prop := {
  pd_calls : calls_of p.1 = omap item_call items;
  pd_answers : answers_of p.1 = omap item_output items;
  pd_known id : is_Some (is_calls p.2 !! id) <-> id ∈ calls_of p.1;
  pd_done id : id ∈ is_outputs p.2 <-> id ∈ answers_of p.1;
  pd_calls_once : NoDup (calls_of p.1);
  pd_answers_once : NoDup (answers_of p.1);
  pd_answered id : id ∈ answers_of p.1 -> id ∈ calls_of p.1;
  pd_order : answers_follow p.1;
}.

(** A message joins the list, or takes the place of the last one: what it adds. *)
Record adds (m : value) (c a : option string) (messages messages' : list value) : Prop := {
  ad_calls : calls_of messages' = calls_of messages ++ option_list c;
  ad_answers : answers_of messages' = answers_of messages ++ option_list a;
  ad_order : (forall id, a = Some id -> id ∈ calls_of messages) -> answers_follow messages -> answers_follow messages';
}.
Lemma adds_nothing m messages : adds m None None messages messages.
Proof. constructor; cbn; rewrite ?app_nil_r; done. Qed.
Lemma adds_snoc m c a messages : message_calls m = option_list c -> message_answer m = a -> adds m c a messages (messages ++ [m]).
Proof.
  intros Hc <-. constructor.
  - by rewrite calls_app, <- Hc; unfold calls_of at 2; cbn; rewrite app_nil_r.
  - rewrite answers_app. unfold answers_of at 2. cbn. by destruct (message_answer m).
  - intros Ha Hf. by apply follow_snoc.
Qed.
Lemma follow_prefix l k : answers_follow (l ++ k) -> answers_follow l.
Proof. intros Hf pre m post id -> Ha. eapply (Hf pre m (post ++ k)); [by rewrite <- app_assoc|done]. Qed.
Lemma assistant_no_answer m : is_assistant m = true -> message_answer m = None.
Proof. unfold is_assistant, message_answer. intros Hr%bool_decide_eq_true. by rewrite Hr. Qed.
Lemma add_call_role call m : is_assistant m = true -> is_assistant (add_call call m) = true.
Proof.
  unfold is_assistant. rewrite !bool_decide_eq_true. destruct m as [| | | | |ms]; try done. unfold add_call, set_member, on_object, get_str, get.
  destruct (obj_get "tool_calls" ms) as [[]|]; rewrite obj_get_insert; by case_bool_decide.
Qed.
Lemma add_call_calls call id m : is_assistant m = true -> get_str "id" call = Some id -> message_calls (add_call call m) = message_calls m ++ [id].
Proof.
  unfold is_assistant, message_calls, message_tool_calls. rewrite bool_decide_eq_true. intros Hr Hid.
  destruct m as [| | | | |ms]; try done. unfold add_call, set_member, on_object, get.
  destruct (obj_get "tool_calls" ms) as [[]|] eqn:Ht; rewrite obj_get_insert, bool_decide_true by done; cbn; rewrite ?omap_app; cbn; by rewrite Hid.
Qed.
Lemma adds_joined call id m messages : from_option is_assistant false (last messages) = true -> get_str "id" call = Some id ->
  adds m (Some id) None messages (on_last (add_call call) messages).
Proof.
  intros Hl Hid. destruct (last messages) as [t|] eqn:E; [|done]. apply last_Some in E as [l ->]. cbn in Hl.
  unfold on_last. rewrite last_snoc, removelast_last. constructor.
  - rewrite !calls_app. unfold calls_of at 2 4. cbn. by rewrite !app_nil_r, (add_call_calls _ id), app_assoc.
  - rewrite !answers_app, app_nil_r. unfold answers_of at 2 4. cbn. by rewrite !assistant_no_answer by auto using add_call_role.
  - intros _ Hf. apply follow_snoc; [by eapply follow_prefix|]. by rewrite assistant_no_answer by auto using add_call_role.
Qed.

(** One step of the pass. *)
Lemma paired_step items item m c a messages s messages' s' :
  paired items (messages, s) -> adds m c a messages messages' -> item_call item = c -> item_output item = a ->
  (forall id, is_Some (is_calls s' !! id) <-> is_Some (is_calls s !! id) \/ c = Some id) ->
  (forall id, id ∈ is_outputs s' <-> id ∈ is_outputs s \/ a = Some id) ->
  (forall id, c = Some id -> is_calls s !! id = None) ->
  (forall id, a = Some id -> is_Some (is_calls s !! id) /\ id ∉ is_outputs s) ->
  paired (items ++ [item]) (messages', s').
Proof.
  intros [H1 H2 H3 H4 H5 H6 H7 H8] [Hc Ha Ho] Hi1 Hi2 Hs1 Hs2 Hg1 Hg2. cbn [fst snd] in *.
  assert (forall id (o : option string), id ∈ option_list o <-> o = Some id) as Hopt
    by (intros id []; cbn; rewrite ?elem_of_list_singleton; set_solver).
  constructor; cbn [fst snd]; rewrite ?Hc, ?Ha.
  - rewrite H1, omap_app. cbn. rewrite Hi1. by destruct c.
  - rewrite H2, omap_app. cbn. rewrite Hi2. by destruct a.
  - intros id. by rewrite Hs1, elem_of_app, H3, Hopt.
  - intros id. by rewrite Hs2, elem_of_app, H4, Hopt.
  - apply NoDup_app. split; [done|]. split; [|destruct c; cbn; [apply NoDup_singleton|apply NoDup_nil_2]].
    intros id Hin Hid%Hopt%Hg1. apply H3 in Hin as [? Hin]. by rewrite Hin in Hid.
  - apply NoDup_app. split; [done|]. split; [|destruct a; cbn; [apply NoDup_singleton|apply NoDup_nil_2]].
    intros id Hin Hid%Hopt%Hg2. by apply Hid, H4.
  - intros id. rewrite !elem_of_app. intros [Hin%H7|[Hid _]%Hopt%Hg2]; left; [done|by apply H3].
  - apply Ho; [|done]. intros id [Hid _]%Hg2. by apply H3.
Qed.
Lemma paired_silent items item m messages s messages' s' :
  paired items (messages, s) -> adds m None None messages messages' -> item_call item = None -> item_output item = None ->
  is_calls s' = is_calls s -> is_outputs s' = is_outputs s -> paired (items ++ [item]) (messages', s').
Proof. intros Hp Had Hc Ha E1 E2. eapply paired_step; eauto; try done; intros id; rewrite ?E1, ?E2; naive_solver. Qed.

(** ** The steps, one per kind of item *)
Lemma flush_paired items p : paired items p -> paired items (flush_media p).
Proof.
  destruct p as [messages s]. intros Hp. unfold flush_media. case_bool_decide; [done|]. destruct Hp as [H1 H2 H3 H4 H5 H6 H7 H8].
  destruct (adds_snoc (role_message "user" (JArray (is_pending_media s))) None None messages eq_refl eq_refl) as [Hc Ha Ho].
  cbn [option_list] in Hc, Ha. rewrite app_nil_r in Hc, Ha.
  constructor; cbn [fst snd is_calls is_outputs] in *; rewrite ?Hc, ?Ha; try done. by apply Ho.
Qed.
Lemma push_message_adds messages m : message_calls m = [] -> message_answer m = None -> adds m None None messages (push_message messages m).
Proof. intros Hc Ha. unfold push_message. case_match; [by apply adds_snoc|apply adds_nothing]. Qed.
Lemma message_paired items item p p' : paired items p -> item_call item = None -> item_output item = None ->
  push_input_message item p = Ok p' -> paired (items ++ [item]) p'.
Proof.
  destruct p as [messages s]. intros Hp Hc Ha. unfold push_input_message.
  destruct (get_str "role" item) as [role|]; [|done]. cbn [ok_or mbind result_bind].
  case_bool_decide as Hrole; [|done]. cbn [negb].
  destruct (chat_message_content _ _) as [content|]; [|done]. intros [= <-].
  eapply paired_silent; [done| |done..].
  assert (role ≠ "tool") as Hne by set_solver.
  apply push_message_adds; repeat case_match; try done;
    unfold message_answer, role_message; members; by rewrite bool_decide_false by congruence.
Qed.
Lemma call_paired items item p p' id name arguments kind :
  paired items p -> item_call item = Some id -> item_output item = None ->
  push_chat_call id name arguments kind p = Ok p' -> paired (items ++ [item]) p'.
Proof.
  destruct p as [messages s]. intros Hp Hc Ha. unfold push_chat_call. case_bool_decide as Hnew; [done|]. cbn [is_pending_reasoning].
  rewrite <- eq_None_not_Some in Hnew. intros [= <-].
  case_match eqn:Hj.
  - eapply paired_step; [done|eapply (adds_joined _ id JNull)| | |..]; try done; [by repeat case_match| |naive_solver|naive_solver].
    intros id'. cbn. rewrite lookup_insert_is_Some'. naive_solver.
  - eapply paired_step; [done|eapply (adds_snoc _ (Some id) None)| | |..]; try done; try (by repeat case_match); try naive_solver.
    intros id'. cbn. rewrite lookup_insert_is_Some'. naive_solver.
Qed.
Lemma output_paired items item p p' t : paired items p -> get_str "type" item = Some t -> is_output_type t = true ->
  push_tool_output t item p = Ok p' -> paired (items ++ [item]) p'.
Proof.
  destruct p as [messages s]. intros Hp Ht Hout. unfold push_tool_output.
  destruct (required_string item "call_id" t) as [id|] eqn:Hid; [|done]. cbn [mbind result_bind].
  apply required_string_Ok in Hid. destruct (is_calls s !! id) as [kind|] eqn:Hk; [|done].
  case_bool_decide; [|done]. case_bool_decide as Hfresh; [done|]. cbn [negb].
  destruct (match kind with ToolSearchCall => _ | _ => _ end) as [[content media]|]; [|done]. intros [= <-].
  eapply (paired_step _ _ _ None (Some id)); [done|by apply adds_snoc| | |set_solver|set_solver|done|].
  - unfold item_call. rewrite Ht. cbn. apply bool_decide_eq_true in Hout. set_unfold in Hout. by destruct Hout as [->|[->|[->|[]]]].
  - unfold item_output. rewrite Ht. cbn. by rewrite Hout.
  - naive_solver.
Qed.
(** The branch a literal item type takes. *)
Ltac branch_of H := repeat (rewrite bool_decide_false in H by done); rewrite bool_decide_true in H by done.
Lemma item_paired items item p p' : paired items p -> push_input_item item p = Ok p' -> paired (items ++ [item]) p'.
Proof.
  intros Hp Hpush.
  destruct (get_str "type" item) as [t|] eqn:Ht; unfold push_input_item in Hpush; rewrite Ht in Hpush; cbn [from_option] in Hpush.
  2:{ eapply message_paired; [by apply flush_paired| | |done]; unfold item_call, item_output; by rewrite Ht. }
  destruct (is_output_type t) eqn:Hout.
  { eapply output_paired; [done..|]. apply bool_decide_eq_true in Hout. set_unfold in Hout. by destruct Hout as [->|[->|[->|[]]]]. }
  apply flush_paired in Hp. revert Hpush Hp. generalize (flush_media p). clear p. intros p Hpush Hp.
  assert (item_output item = None) as Ho by (unfold item_output; rewrite Ht; cbn; by rewrite Hout).
  assert (forall id, get_str "call_id" item = Some id -> t ∈ ["function_call"; "custom_tool_call"; "tool_search_call"] ->
    item_call item = Some id) as Hcall by (intros id Hid Hin; unfold item_call; rewrite Ht; cbn; by rewrite bool_decide_true).
  assert (t ∉ ["function_call"; "custom_tool_call"; "tool_search_call"] -> item_call item = None) as Hno
    by (intros Hin; unfold item_call; rewrite Ht; cbn; by rewrite bool_decide_false).
  destruct (decide (t = "message")) as [->|Hm].
  { eapply message_paired; eauto. apply Hno. by refine (bool_decide_eq_false_1 _ _). }
  rewrite (bool_decide_false _ Hm) in Hpush.
  destruct (decide (t ∈ ["function_call"; "custom_tool_call"; "tool_search_call"])) as [Hin|Hout'].
  - set_unfold in Hin.
    assert (exists id, required_string item "call_id" t = Ok id) as [id Hid].
    { destruct (required_string item "call_id" t) as [id|] eqn:Hid; [by exists id|].
      exfalso. by destruct Hin as [->|[->|[->|[]]]]; branch_of Hpush; rewrite Hid in Hpush. }
    specialize (Hcall id (required_string_Ok _ _ _ _ Hid) ltac:(set_solver)).
    destruct Hin as [->|[->|[->|[]]]]; branch_of Hpush; rewrite Hid in Hpush; cbn [mbind result_bind] in Hpush.
    + destruct (response_call_name _ _); [|done]. cbn [mbind result_bind] in Hpush. eapply call_paired; [| | |exact Hpush]; done.
    + destruct (response_call_name _ _); [|done]. cbn [mbind result_bind] in Hpush. destruct (get_str "input" item); [|done]. eapply call_paired; [| | |exact Hpush]; done.
    + eapply call_paired; [| | |exact Hpush]; done.
  - specialize (Hno Hout'). rewrite !bool_decide_false in Hpush by set_solver.
    destruct (bool_decide (t = "reasoning")); injection Hpush as <-; destruct p as [messages s].
    + unfold push_reasoning. case_match; (eapply paired_silent; [done|by eapply (adds_nothing JNull)|done..]).
    + by eapply paired_silent; [|apply (adds_nothing JNull)|..].
Qed.
Lemma items_paired items seen p p' : paired seen p -> try_fold push_input_item items p = Ok p' -> paired (seen ++ items) p'.
Proof.
  revert seen p. induction items as [|item items IH]; intros seen p Hp; cbn [try_fold].
  - intros [= <-]. by rewrite app_nil_r.
  - destruct (push_input_item item p) as [p1|] eqn:E; [|done]. cbn [mbind result_bind]. intros Hf.
    rewrite cons_middle, app_assoc. eapply IH; [|done]. by eapply item_paired.
Qed.

(** ** Accepted histories *)
Lemma fresh_paired messages : Forall plain messages -> paired [] (messages, input_state_default).
Proof.
  intros Hp. assert (calls_of messages = [] /\ answers_of messages = []) as [Hc Ha].
  { induction Hp as [|m messages [Hm1 Hm2] _ [IH1 IH2]]; [done|].
    change (m :: messages) with ([m] ++ messages). rewrite calls_app, answers_app, IH1, IH2.
    unfold calls_of, answers_of. cbn. by rewrite Hm1, Hm2. }
  constructor; cbn [fst snd input_state_default is_calls is_outputs]; rewrite ?Hc, ?Ha; try done.
  - intros id. rewrite lookup_empty. split; [by intros []|by intros ?%elem_of_nil].
  - set_solver.
  - apply NoDup_nil_2.
  - apply NoDup_nil_2.
  - intros pre m post id -> Hans. rewrite answers_app in Ha. apply app_nil in Ha as [_ Ha].
    unfold answers_of in Ha. cbn in Ha. by rewrite Hans in Ha.
Qed.
Lemma finish_answered items p p' : paired items p -> finish_input p = Ok p' ->
  paired items p' /\ forall id, id ∈ calls_of p'.1 -> id ∈ answers_of p'.1.
Proof.
  intros Hp%flush_paired. unfold finish_input. cbv zeta. destruct (unanswered _) eqn:Hu; [done|]. intros [= <-]. split; [done|].
  intros id Hid. apply (pd_known _ _ Hp) in Hid as [kind Hid]. apply (pd_done _ _ Hp).
  apply (List.find_none _ _) with (x := id) in Hu; [by apply negb_false_iff, bool_decide_eq_true in Hu|].
  apply list_elem_of_In. rewrite merge_sort_Permutation. apply list_elem_of_fmap. exists (id, kind). split; [done|].
  by apply elem_of_map_to_list.
Qed.
(** Every call of the conversation is answered once, after it is made. *)
Record answered (messages : list value) : Prop := {
  an_calls_once : NoDup (calls_of messages);
  an_answers : answers_of messages ≡ₚ calls_of messages;
  an_order : answers_follow messages;
}.
Lemma responses_input_paired params items messages : get "input" params = Some (JArray items) -> responses_input params = Ok messages ->
  calls_of messages = omap item_call items /\ answers_of messages = omap item_output items /\ answered messages.
Proof.
  intros Hi. unfold responses_input. rewrite Hi. set (start := match filter_some _ _ with Some _ => _ | None => _ end). cbv zeta.
  destruct (try_fold _ _ _) as [p|] eqn:Hf; [|done]. cbn [mbind result_bind].
  destruct (finish_input p) as [p'|] eqn:Hd; [|done]. intros [= <-].
  assert (Forall plain start) as Hs by (unfold start; case_match; [apply Forall_singleton|]; done).
  apply (items_paired _ [] _ _ (fresh_paired _ Hs)) in Hf. cbn [app] in Hf.
  destruct (finish_answered _ _ _ Hf Hd) as [[] Hall]. split; [done|]. split; [done|].
  constructor; [done| |done]. apply NoDup_Permutation; [done..|]. intros id. split; auto.
Qed.

Lemma text_controls_messages params chat : obj_get "messages" (responses_text_controls params chat) = obj_get "messages" chat.
Proof. unfold responses_text_controls. case_match; [case_match|..]; try done. by rewrite !insert_some_ne. Qed.

(** C34: A Responses history the gateway accepts is one a Chat upstream accepts: the calls
    among the rewritten messages are the call items of the input, in order and with
    distinct ids; the tool messages are the output items, in order; every call is
    answered exactly once, and only after it was made. *)
Theorem accepted_history_is_answered params items chat :
  get "input" params = Some (JArray items) -> responses_to_chat_params params = Ok chat ->
  exists messages, get "messages" chat = Some (JArray messages) /\ messages ≠ [] /\
    calls_of messages = omap item_call items /\ answers_of messages = omap item_output items /\ answered messages.
Proof.
  intros Hi. unfold responses_to_chat_params. destruct (validate_responses_request _); [|done]. cbn [mbind result_bind].
  case_match; [done|]. destruct (effective_responses_tools _); [|done]. cbn [mbind result_bind].
  destruct (chat_tools _) as [[tools ?]|]; [|done]. cbn [mbind result_bind].
  destruct (responses_input params) as [messages|] eqn:Hin; [|done]. cbn [mbind result_bind].
  unfold chat_messages. case_bool_decide; [done|]. cbn [mbind result_bind].
  destruct (match get "tool_choice" params with Some _ => _ | None => _ end) as [[choice tools']|]; [|done].
  intros [= <-]. exists messages. split; [|split; [done|by eapply responses_input_paired]].
  cbn [get]. rewrite insert_some_ne, text_controls_messages by done. case_match.
  - by rewrite !insert_some_ne.
  - rewrite insert_some_ne by done. rewrite obj_get_insert, bool_decide_false by done.
    by rewrite !insert_some_ne.
Qed.
End Paired.

Section Witness.
#[local] Existing Instances sample_json sample_sha sample_hex sample_base64.
Definition sample_history : list value :=
  [JObject [("type", JString "message"); ("role", JString "user"); ("content", JString "What is new?")];
   JObject [("type", JString "function_call"); ("call_id", JString "t1"); ("name", JString "search"); ("arguments", JString "")];
   JObject [("type", JString "custom_tool_call"); ("call_id", JString "t2"); ("name", JString "patch"); ("input", JString "a")];
   JObject [("type", JString "custom_tool_call_output"); ("call_id", JString "t2"); ("output", JString "done")];
   JObject [("type", JString "function_call_output"); ("call_id", JString "t1"); ("output", JString "nothing")]].
Definition sample_request : value := JObject [("model", JString "m"); ("input", JArray sample_history)].
Definition sample_chat : value := default JNull (result_ok (responses_to_chat_params sample_request)).
(** The two calls share one assistant message. *)
Example sample_chat_roles : omap (get_str "role") (default [] (get "messages" sample_chat ≫= as_array)) = ["user"; "assistant"; "tool"; "tool"].
Proof. by vm_compute. Qed.
Example unanswered_call_refused :
  is_ok (responses_to_chat_params (JObject [("model", JString "m"); ("input", JArray (take 4 sample_history))])) = false.
Proof. by vm_compute. Qed.
Lemma accepted_history_is_answered_witness : exists messages, get "messages" sample_chat = Some (JArray messages) /\
  calls_of messages = ["t1"; "t2"] /\ answers_of messages = ["t2"; "t1"] /\ answered messages.
Proof.
  destruct (accepted_history_is_answered sample_request sample_history sample_chat) as (messages & Hm & _ & Hc & Ha & Hans);
    [by vm_compute|by vm_compute|].
  exists messages. split; [exact Hm|]. split; [rewrite Hc; by vm_compute|]. split; [rewrite Ha; by vm_compute|exact Hans].
Defined.
End Witness.
