(* ===== verification/Shaping.v ===== *)
(** * The body a route receives (src/middleware/request_transform.rs)

    A table per upstream format and endpoint names the request members that are
    forwarded, how each is renamed, defaulted, clamped or converted; the engine runs
    the table over the request.  The theory shows that nothing outside the table
    (the gateway's own routing metadata above all) leaves the gateway, that numeric
    controls are in the range of their table entry, and that a streamed request asks
    for the usage it is billed by. *)
From Stdlib Require Import SpecFloat.
From S2P Require Import Prelude Text Json External Sample SseProtocol UpstreamErrors Images Sanitize ToolMap Audio Conversion.
From S2P Require Import MessagesRequest.

Inductive Engine : Type := Sglang | Vllm.

(** [serde_json::Value::entry(k).or_insert_with(|| json!({}))] on anything made an object first. *)
Definition members_of (v : value) : object := match v with JObject m => m | _ => [] end.

(** ** Helpers *)
Definition SYSTEM_MESSAGE_ROLES : list string := ["system"; "developer"].
Definition is_system_role (role : string) : bool := bool_decide (role ∈ SYSTEM_MESSAGE_ROLES).
Definition truthy (v : value) : bool :=
  match v with
  | JNull => false
  | JBool b => b
  | JNumber _ => from_option (fun f => negb (SFeqb f f64_zero)) false (as_f64 v)
  | JString s => non_empty s
  | JArray _ | JObject _ => true
  end.
Definition str_or_empty (v : option value) : string := default "" (v ≫= as_str).
(** [text.split(c)]. *)
Definition split_char (c : N) (text : string) : list string :=
  of_bytes <$> split_bytes (fun b => bool_decide (b = u8 c)) (as_bytes text).
Definition ephemeral : value := JObject [("type", JString "ephemeral")].
Definition cached (item : value) (m : object) : object :=
  if bool_decide (is_Some (get "cache_control" item)) then obj_insert "cache_control" ephemeral m else m.

(** ** Chat requests for the Messages protocol *)
Section Anthropic.
Context {SJ : SerdeJson}.

Definition assistant_content (msg : value) : list value :=
  match or_else (get "content_blocks" msg) (get "content" msg) with
  | Some (JString s) => if non_empty s then [text_part s] else []
  | Some (JArray arr) => List.filter (fun item => negb (bool_decide (get_str "type" item = Some "tool_use"))) arr
  | _ => []
  end.
Definition tool_input (arguments : option string) : result TransformError value :=
  match filter_some non_empty arguments with
  | None => Ok (JObject [])
  | Some s =>
      match from_slice (as_bytes s) with
      | Ok v => Ok v
      | Err e => Err (invalid_request ("invalid tool call arguments: " +:+ e))
      end
  end.
Definition tool_use_of (call : value) : result TransformError value :=
  let function := get "function" call in
  input ← tool_input (function ≫= get_str "arguments");
  let block := [("type", JString "tool_use"); ("name", default JNull (function ≫= get "name")); ("id", default JNull (get "id" call));
                ("input", input)] in
  Ok (JObject (insert_some "cache_control" (get "cache_control" call) block)).
Definition transform_assistant_message (msg : value) : result TransformError value :=
  content ← try_fold (fun call content => block ← tool_use_of call; Ok (content ++ [block]))
              (message_tool_calls msg) (assistant_content msg);
  Ok (JObject [("role", default JNull (get "role" msg)); ("content", JArray content)]).

Definition transform_tool_message (msg : value) : value :=
  let tool_use_id := default (JString "") (non_null (get "tool_call_id" msg)) in
  let block := insert_some "content" (get "content" msg) [("type", JString "tool_result"); ("tool_use_id", tool_use_id)] in
  role_message "user" (JArray [JObject block]).

(** The part an image item becomes, if any. *)
Definition append_image_content_item (item : value) : option value :=
  url ← filter_some non_empty (get "image_url" item ≫= get_str "url");
  if negb (starts_with "data:" url) then
    Some (JObject [("type", JString "image"); ("source", JObject [("type", JString "url"); ("url", JString url)])])
  else
    match split_char 59 url with
    | [scheme; payload] =>
        let base64_image := default "" (split_char 44 payload !! 1) in
        match split_char 58 scheme with
        | [_; media_type] =>
            if non_empty base64_image then
              let block_type := if bool_decide (media_type = PDF_MIME) then "document" else "image" in
              Some (JObject (cached item
                [("type", JString block_type);
                 ("source", JObject [("type", JString "base64"); ("media_type", JString media_type); ("data", JString base64_image)])]))
            else None
        | _ => None
        end
    | _ => None
    end.
Definition append_file_content_item (item : value) : option value :=
  let file := get "file" item in
  let document source := Some (JObject [("type", JString "document"); ("source", JObject source)]) in
  match filter_some truthy (file ≫= get "file_url"), filter_some truthy (file ≫= get "file_data") with
  | Some file_url, _ => document [("type", JString "url"); ("url", file_url)]
  | None, Some file_data =>
      let mime := default PDF_MIME (file ≫= get_str "mime_type") in
      let content_type := if bool_decide (mime = TXT_MIME) then "text" else "base64" in
      document [("type", JString content_type); ("data", file_data); ("media_type", JString mime)]
  | None, None => None
  end.

(** A text block with the text and the cache mark of [item]. *)
Definition text_entry (item : value) : value :=
  JObject (cached item (insert_some "text" (get "text" item) [("type", JString "text")])).
Definition user_item (item : value) : option value :=
  t ← get_str "type" item;
  if bool_decide (t = "text") then Some (text_entry item)
  else if bool_decide (t = "image_url") then append_image_content_item item
  else if bool_decide (t = "file") then append_file_content_item item
  else None.
Definition anthropic_message (msg : value) (messages : list value) : result TransformError (list value) :=
  let role := str_or_empty (get "role" msg) in
  if is_system_role role then Ok messages
  else if bool_decide (role = "assistant") then m ← transform_assistant_message msg; Ok (messages ++ [m])
  else if bool_decide (role = "tool") then Ok (messages ++ [transform_tool_message msg])
  else
    match get "content" msg with
    | Some (JArray (item :: items)) => Ok (messages ++ [role_message role (JArray (omap user_item (item :: items)))])
    | content => Ok (messages ++ [JObject (insert_some "content" content [("role", JString role)])])
    end.
Definition request_messages (params : value) : list value := default [] (get "messages" params ≫= as_array).
Definition anthropic_messages (params : value) : result TransformError (option value) :=
  messages ← try_fold anthropic_message (request_messages params) [];
  Ok (Some (JArray messages)).

Definition system_entries (msg : value) : list value :=
  if negb (is_system_role (str_or_empty (get "role" msg))) then []
  else
    match get "content" msg with
    | Some (JArray items) =>
        if from_option truthy false (head items ≫= get "text") then text_entry <$> items else []
    | Some (JString s) => [text_part s]
    | _ => []
    end.
Definition anthropic_system (params : value) : result TransformError (option value) :=
  Ok (Some (JArray (mjoin (system_entries <$> request_messages params)))).

Definition anthropic_tool (tool : value) : option value :=
  match get "function" tool with
  | Some function =>
      let parameters := get "parameters" function in
      let schema := JObject [("type", default (JString "object") (parameters ≫= get "type"));
                             ("properties", default (JObject []) (parameters ≫= get "properties"));
                             ("required", default (JArray []) (parameters ≫= get "required"));
                             ("$defs", default (JObject []) (parameters ≫= get "$defs"))] in
      Some (JObject (cached tool
        [("name", default JNull (get "name" function)); ("description", JString (str_or_empty (get "description" function)));
         ("input_schema", schema)]))
  | None =>
      tool_type ← get_str "type" tool;
      let tool_options := get tool_type tool in
      let entry := foldl (fun entry '(k, v) => obj_insert k v entry) [] (from_option members_of [] tool_options) in
      let entry := obj_insert "name" (JString tool_type) entry in
      Some (JObject (cached tool (insert_some "type" (tool_options ≫= get "name") entry)))
  end.
Definition anthropic_tools (params : value) : result TransformError (option value) :=
  Ok (Some (JArray (omap anthropic_tool (default [] (get "tools" params ≫= as_array))))).

Definition anthropic_tool_choice (params : value) : result TransformError (option value) :=
  let choice t := Some (JObject [("type", JString t)]) in
  Ok match get "tool_choice" params with
     | Some (JString s) =>
         if bool_decide (s = "required") then choice "any"
         else if bool_decide (s = "auto") then choice "auto"
         else if bool_decide (s = "none") then choice "none"
         else Some (JString s)
     | Some JNull => None
     | Some (JObject m) =>
         Some (JObject [("type", JString "tool"); ("name", default JNull (obj_get "function" m ≫= get "name"))])
     | _ => Some JNull
     end.

Definition blank_line : string := of_bytes [lf; lf].
Definition anthropic_complete_prompt (params : value) : result TransformError (option value) :=
  Ok (Some (JString (blank_line +:+ "Human: " +:+ str_or_empty (get "prompt" params) +:+ blank_line +:+ "Assistant:"))).
Definition anthropic_complete_stop (params : value) : result TransformError (option value) :=
  Ok match get "stop" params with Some JNull => Some (JArray []) | v => v end.

(** ** Parameter tables *)
Record ParamConfig : Type := mkParam {
  pc_input : string;
  pc_param : string;
  pc_default : option value;
  pc_min : option Z;
  pc_max : option Z;
  pc_required : bool;
  pc_transform : option (value -> result TransformError (option value));
}.
Definition pc (input : string) : ParamConfig := mkParam input input None None None false None.
Definition to (c : ParamConfig) (param : string) : ParamConfig :=
  mkParam (pc_input c) param (pc_default c) (pc_min c) (pc_max c) (pc_required c) (pc_transform c).
Definition with_default (v : value) (c : ParamConfig) : ParamConfig :=
  mkParam (pc_input c) (pc_param c) (Some v) (pc_min c) (pc_max c) (pc_required c) (pc_transform c).
Definition with_min (min : Z) (c : ParamConfig) : ParamConfig :=
  mkParam (pc_input c) (pc_param c) (pc_default c) (Some min) (pc_max c) (pc_required c) (pc_transform c).
Definition with_max (max : Z) (c : ParamConfig) : ParamConfig :=
  mkParam (pc_input c) (pc_param c) (pc_default c) (pc_min c) (Some max) (pc_required c) (pc_transform c).
Definition required (c : ParamConfig) : ParamConfig :=
  mkParam (pc_input c) (pc_param c) (pc_default c) (pc_min c) (pc_max c) true (pc_transform c).
Definition with_transform (f : value -> result TransformError (option value)) (c : ParamConfig) : ParamConfig :=
  mkParam (pc_input c) (pc_param c) (pc_default c) (pc_min c) (pc_max c) (pc_required c) (Some f).

Definition json_int (z : Z) : value := json_i64 z.
Definition openai_chat_complete_config (engine : option Engine) : list ParamConfig :=
  (pc <$> ["functions"; "function_call"; "stop"; "logit_bias"; "user"; "seed"; "tools"; "tool_choice"; "response_format";
           "top_logprobs"; "stream_options"; "service_tier"; "parallel_tool_calls"; "max_completion_tokens"; "store"; "metadata";
           "modalities"; "audio"; "prediction"; "reasoning"; "reasoning_effort"; "thinking"; "web_search_options";
           "prompt_cache_key"; "safety_identifier"; "verbosity"]) ++
  [required (with_default (JString "gpt-3.5-turbo") (pc "model"));
   with_default (JString "") (pc "messages");
   with_min 0 (with_default (json_int 100) (pc "max_tokens"));
   with_max 2 (with_min 0 (with_default (json_int 1) (pc "temperature")));
   with_max 1 (with_min 0 (with_default (json_int 1) (pc "top_p")));
   with_default (json_int 1) (pc "n");
   with_default (JBool false) (pc "stream");
   with_max 2 (with_min (-2) (pc "presence_penalty"));
   with_max 2 (with_min (-2) (pc "frequency_penalty"));
   with_default (JBool false) (pc "logprobs")] ++
  match engine with
  | Some _ => pc <$> ["top_k"; "min_p"; "repetition_penalty"; "chat_template_kwargs"]
  | None => []
  end.
Definition openai_complete_config : list ParamConfig :=
  (pc <$> ["stream_options"; "stop"; "best_of"; "logit_bias"; "user"; "seed"; "suffix"]) ++
  [required (with_default (JString "text-davinci-003") (pc "model"));
   with_default (JString "") (pc "prompt");
   with_min 0 (with_default (json_int 100) (pc "max_tokens"));
   with_max 2 (with_min 0 (with_default (json_int 1) (pc "temperature")));
   with_max 1 (with_min 0 (with_default (json_int 1) (pc "top_p")));
   with_default (json_int 1) (pc "n");
   with_default (JBool false) (pc "stream");
   with_max 5 (pc "logprobs");
   with_default (JBool false) (pc "echo");
   with_max 2 (with_min (-2) (pc "presence_penalty"));
   with_max 2 (with_min (-2) (pc "frequency_penalty"))].
Definition openai_embed_config : list ParamConfig :=
  (pc <$> ["encoding_format"; "dimensions"; "user"]) ++
  [required (with_default (JString "text-embedding-ada-002") (pc "model")); required (pc "input")].
Definition openai_systemone_config : list ParamConfig := pc <$> ["model"; "state"; "questions"].
Definition anthropic_chat_complete_config : list ParamConfig :=
  [required (with_default (JString "claude-2.1") (pc "model"));
   with_transform anthropic_messages (required (pc "messages"));
   with_transform anthropic_system (to (pc "messages") "system");
   with_transform anthropic_tools (pc "tools");
   with_transform anthropic_tool_choice (pc "tool_choice");
   required (pc "max_tokens");
   to (pc "max_completion_tokens") "max_tokens";
   with_max 1 (with_min 0 (with_default (json_int 1) (pc "temperature")));
   with_min (-1) (with_default (json_int (-1)) (pc "top_p"));
   with_default (json_int (-1)) (pc "top_k");
   to (pc "stop") "stop_sequences";
   with_default (JBool false) (pc "stream");
   to (pc "user") "metadata.user_id";
   pc "thinking"].
Definition anthropic_complete_config : list ParamConfig :=
  [required (with_default (JString "claude-instant-1") (pc "model"));
   with_transform anthropic_complete_prompt (required (pc "prompt"));
   required (to (pc "max_tokens") "max_tokens_to_sample");
   with_max 1 (with_min 0 (with_default (json_int 1) (pc "temperature")));
   with_min (-1) (with_default (json_int (-1)) (pc "top_p"));
   with_default (json_int (-1)) (pc "top_k");
   with_transform anthropic_complete_stop (to (pc "stop") "stop_sequences");
   with_default (JBool false) (pc "stream");
   to (pc "user") "metadata.user_id"].
Definition select_config (format : ProviderFormat) (endpoint : Endpoint) (engine : option Engine) : result TransformError (list ParamConfig) :=
  match format, endpoint with
  | Openai, ChatComplete => Ok (openai_chat_complete_config engine)
  | Openai, Complete => Ok openai_complete_config
  | Openai, Embed => Ok openai_embed_config
  | Openai, SystemOne => Ok openai_systemone_config
  | Anthropic, Complete => Ok anthropic_complete_config
  | Anthropic, ChatComplete => Ok anthropic_chat_complete_config
  | _, _ => Err (Unsupported format endpoint)
  end.

(** ** The engine *)
(** Clamp a number to the bounds of its entry. *)
Definition clamp (c : ParamConfig) (v : value) : value :=
  match v with
  | JNumber _ =>
      match as_f64 v with
      | Some f =>
          let above := match pc_max c with Some max => if SFltb (f64_of_Z max) f then json_int max else v | None => v end in
          match pc_min c with Some min => if SFltb f (f64_of_Z min) then json_int min else above | None => above end
      | None => v
      end
  | _ => v
  end.
Definition get_value (params : value) (c : ParamConfig) : result TransformError (option value) :=
  v ← match pc_transform c with Some transform => transform params | None => Ok (get (pc_input c) params) end;
  let v := match v, pc_default c with
           | Some (JString s), Some d => if bool_decide (s = "gateway-default") then Some d else v
           | _, _ => v
           end in
  Ok (clamp c <$> v).
Fixpoint set_path (parts : list string) (v : value) (obj : value) : value :=
  let m := members_of obj in
  match parts with
  | [] => obj
  | [part] => JObject (obj_insert part v m)
  | part :: rest => JObject (obj_insert part (set_path rest v (default (JObject []) (obj_get part m))) m)
  end.
Definition set_nested_property (obj : value) (path : string) (v : value) : value := set_path (split_char 46 path) v obj.
Definition config_step (params : value) (c : ParamConfig) (out : value) : result TransformError value :=
  if bool_decide (is_Some (get (pc_input c) params)) then
    v ← get_value params c;
    Ok match v with Some v => set_nested_property out (pc_param c) v | None => out end
  else if pc_required c then
    Ok match pc_default c with Some d => set_nested_property out (pc_param c) d | None => out end
  else Ok out.
Definition transform_using_provider_config (config : list ParamConfig) (params : value) : result TransformError value :=
  try_fold (config_step params) config (JObject []).
Definition inject_stream_options (params : value) : value :=
  if negb (bool_decide (get "stream" params = Some (JBool true))) then params
  else if bool_decide (get "stream_options" params ≫= get "include_usage" = Some (JBool true)) then params
  else
    on_object (fun obj =>
      let stream_options := members_of (default (JObject []) (obj_get "stream_options" obj)) in
      obj_insert "stream_options" (JObject (obj_insert "include_usage" (JBool true) stream_options)) obj) params.
Definition native_passthrough (params : value) : result TransformError value :=
  match params with
  | JObject body => Ok (JObject (obj_remove "provider" body))
  | _ => Err (invalid_request "request body must be a JSON object")
  end.
Definition transform_with_table (format : ProviderFormat) (params : value) (endpoint : Endpoint) (engine : option Engine) : result TransformError value :=
  config ← select_config format endpoint engine;
  transform_using_provider_config config (inject_stream_options params).
Definition transform_to_provider_request (format : ProviderFormat) (params : value) (endpoint : Endpoint) (engine : option Engine) :
    result TransformError value :=
  match format, endpoint with
  | Openai, AudioTranscriptions => Ok (upstream_fields params)
  | Openai, ImagesGenerations => Ok (upstream_body params)
  | Openai, Messages => chat ← messages_to_chat_params params; transform_with_table Openai chat ChatComplete engine
  | Anthropic, Messages | Openai, CreateModelResponse => native_passthrough params
  | _, _ => transform_with_table format params endpoint engine
  end.
End Anthropic.

(** ** What a table forwards *)
Section Tables.
Context {SJ : SerdeJson}.

(** The member of the body an entry writes to. *)
Definition target (c : ParamConfig) : string := default "" (head (split_char 46 (pc_param c))).

Lemma set_path_object parts v obj : is_object obj = true -> is_object (set_path parts v obj) = true.
Proof. by destruct parts as [|? []]. Qed.
Lemma set_path_ne parts v obj k : is_object obj = true -> head parts ≠ Some k -> get k (set_path parts v obj) = get k obj.
Proof.
  destruct obj as [| | | | |m]; try done. intros _ Hk. destruct parts as [|p [|q rest]]; [done|..]; cbn [set_path members_of get];
    rewrite obj_get_insert, bool_decide_false; try done; by intros ->.
Qed.
Lemma target_head c : head (split_char 46 (pc_param c)) = Some (target c).
Proof.
  unfold target, split_char. destruct (as_bytes (pc_param c)) as [|b l]; [done|]. cbn.
  destruct (bool_decide _); [done|]. by destruct (split_bytes _ l).
Qed.
Lemma config_step_object params c out out' : is_object out = true -> config_step params c out = Ok out' -> is_object out' = true.
Proof.
  intros Ho. unfold config_step. case_bool_decide.
  - destruct (get_value params c) as [[v|]|]; [..|done]; intros [= <-]; [by apply set_path_object|done].
  - case_match; [case_match|]; intros [= <-]; try done. by apply set_path_object.
Qed.
Lemma config_step_ne params c out out' k : is_object out = true -> target c ≠ k ->
  config_step params c out = Ok out' -> get k out' = get k out.
Proof.
  intros Ho Hc. assert (head (split_char 46 (pc_param c)) ≠ Some k) as Hh by (rewrite target_head; congruence). unfold config_step. case_bool_decide.
  - destruct (get_value params c) as [[v|]|]; [..|done]; intros [= <-]; [by apply set_path_ne|done].
  - case_match; [case_match|]; intros [= <-]; try done. by apply set_path_ne.
Qed.
(** A fact that every entry's step keeps holds of the body. *)
Lemma table_invariant (P : value -> Prop) config params out out' :
  (forall c o o', c ∈ config -> is_object o = true -> P o -> config_step params c o = Ok o' -> P o') ->
  is_object out = true -> P out -> try_fold (config_step params) config out = Ok out' -> is_object out' = true /\ P out'.
Proof.
  revert out. induction config as [|c config IH]; intros out Hstep Ho HP; cbn [try_fold]; [by intros [= <-]|].
  destruct (config_step params c out) as [o|] eqn:Hc; [|done]. cbn [mbind result_bind]. apply IH.
  - intros c' o1 o2 Hin. apply Hstep. by right.
  - by eapply config_step_object.
  - eapply (Hstep c); [left|done..].
Qed.
Lemma table_members config params body k : transform_using_provider_config config params = Ok body ->
  is_object body = true /\ (is_Some (get k body) -> k ∈ target <$> config).
Proof.
  intros Ht. eapply (table_invariant (fun o => is_Some (get k o) -> k ∈ target <$> config)) in Ht as [Ho Ht]; [by split| |done|by intros []].
  intros c o o' Hin Ho Hk Hs. destruct (decide (target c = k)) as [<-|Hne]; [by intros _; apply list_elem_of_fmap_2|].
  by rewrite (config_step_ne _ _ _ _ _ Ho Hne Hs).
Qed.

(** The members a request for an upstream may have. *)
Definition may_forward (format : ProviderFormat) (endpoint : Endpoint) (engine : option Engine) (k : string) : bool :=
  match format, endpoint with
  | Openai, AudioTranscriptions => bool_decide (k ∈ UPSTREAM_FIELDS)
  | Openai, ImagesGenerations => bool_decide (k ∈ "response_format" :: UPSTREAM_PARAMETERS)
  | Openai, Messages => bool_decide (k ∈ target <$> openai_chat_complete_config engine)
  | Anthropic, Messages | Openai, CreateModelResponse => negb (bool_decide (k = "provider"))
  | _, _ => from_option (fun config => bool_decide (k ∈ target <$> config)) false (result_ok (select_config format endpoint engine))
  end.
Lemma table_body format params endpoint engine body : transform_with_table format params endpoint engine = Ok body ->
  is_object body = true /\
  forall k, is_Some (get k body) ->
    from_option (fun config => bool_decide (k ∈ target <$> config)) false (result_ok (select_config format endpoint engine)) = true.
Proof.
  unfold transform_with_table. destruct (select_config _ _ _) as [config|]; [|done]. cbn [mbind result_bind result_ok from_option].
  intros Ht. split; [by apply (table_members _ _ _ "" Ht)|]. intros k. rewrite bool_decide_eq_true. by apply table_members with (1 := Ht).
Qed.
Lemma upstream_body_members params k : is_Some (get k (upstream_body params)) -> k ∈ "response_format" :: UPSTREAM_PARAMETERS.
Proof.
  cbn [upstream_body get]. rewrite obj_get_insert. case_bool_decide as Hk; [by intros _; subst; left|]. intros Hs. right. revert Hs.
  generalize UPSTREAM_PARAMETERS. intros keys.
  assert (forall m, is_Some (obj_get k (foldl (fun output key => match upstream_member params key with Some v => obj_insert key v output | None => output end)
    m keys)) -> k ∈ keys \/ is_Some (obj_get k m)) as Hf; [|by intros [?|[? Hx]]%Hf].
  induction keys as [|key keys IH]; intros m Hs; [by right|]. cbn [foldl] in Hs. apply IH in Hs as [Hs|Hs]; [by left; right|].
  destruct (upstream_member params key); [|by right]. rewrite obj_get_insert in Hs. case_bool_decide; [left; subst; left|by right].
Qed.
Lemma never_forwarded format endpoint engine : may_forward format endpoint engine "provider" = false.
Proof. destruct format, endpoint, engine; by vm_compute. Qed.

(** The upstream speaks the client's protocol. *)
Definition native (format : ProviderFormat) (endpoint : Endpoint) : bool :=
  match format, endpoint with Anthropic, Messages | Openai, CreateModelResponse => true | _, _ => false end.
Lemma passthrough_get params body k : value_wf params -> native_passthrough params = Ok body ->
  is_object body = true /\ get k body = if bool_decide (k = "provider") then None else get k params.
Proof.
  destruct params as [| | | | |m]; try done. intros Hwf [= <-]. inv Hwf. split; [done|]. cbn [get].
  rewrite obj_get_remove by done. repeat case_bool_decide; congruence.
Qed.

(** What holds of the body, for a request that is well formed where it is forwarded as it is. *)
Lemma forwarded_members format params endpoint engine body :
  (native format endpoint = true -> value_wf params) -> transform_to_provider_request format params endpoint engine = Ok body ->
  is_object body = true /\ (forall k, is_Some (get k body) -> may_forward format endpoint engine k = true).
Proof.
  intros Hwf Ht.
  destruct format, endpoint; cbn [transform_to_provider_request may_forward native] in *;
    try (exact (table_body _ _ _ _ _ Ht)); try (injection Ht as <-; split; [done|intros k]).
  - destruct (messages_to_chat_params params) as [chat|]; [|done]. exact (table_body Openai chat ChatComplete engine _ Ht).
  - specialize (Hwf eq_refl). split; [by apply (passthrough_get params body "" Hwf Ht)|intros k].
    destruct (passthrough_get params body k Hwf Ht) as [_ ->]. case_bool_decide; [by intros []|done].
  - rewrite bool_decide_eq_true. apply upstream_body_members.
  - cbn [upstream_fields get]. rewrite obj_get_is_Some. intros (v & _ & Hk)%retain_keys. exact Hk.
  - specialize (Hwf eq_refl). split; [by apply (passthrough_get params body "" Hwf Ht)|intros k].
    destruct (passthrough_get params body k Hwf Ht) as [_ ->]. case_bool_decide; [by intros []|done].
Qed.
Lemma no_provider format params endpoint engine body :
  (native format endpoint = true -> value_wf params) -> transform_to_provider_request format params endpoint engine = Ok body ->
  get "provider" body = None.
Proof.
  intros Hwf Ht. destruct (forwarded_members _ _ _ _ _ Hwf Ht) as [_ Hm]. destruct (get "provider" body) eqn:Hp; [|done].
  specialize (Hm "provider" (mk_is_Some _ _ Hp)). by rewrite never_forwarded in Hm.
Qed.

(** C35: Whatever the route and the endpoint, the body sent upstream is an object whose
    members are those of the table for that upstream format and endpoint; for an upstream
    that speaks the client's own protocol it is the client's request.  In no case does the
    gateway's routing metadata (the provider member) leave the gateway. *)
Theorem only_known_members_forwarded format params endpoint engine body :
  value_wf params -> transform_to_provider_request format params endpoint engine = Ok body ->
  is_object body = true /\ get "provider" body = None /\
  (forall k, is_Some (get k body) -> may_forward format endpoint engine k = true) /\
  (native format endpoint = true -> forall k, k ≠ "provider" -> get k body = get k params).
Proof.
  intros Hwf Ht. destruct (forwarded_members _ _ _ _ _ (fun _ => Hwf) Ht) as [Ho Hm].
  split; [done|]. split; [exact (no_provider _ _ _ _ _ (fun _ => Hwf) Ht)|]. split; [done|].
  intros Hn k Hk. destruct format, endpoint; try done; cbn [transform_to_provider_request] in Ht;
    destruct (passthrough_get params body k Hwf Ht) as [_ ->]; by rewrite bool_decide_false.
Qed.

(** ** Bounds *)
Definition is_nan (f : spec_float) : bool := match f with S754_nan => true | _ => false end.
Lemma SFcompare_swap f g : is_nan f = false -> is_nan g = false -> SFcompare g f = CompOpp <$> SFcompare f g.
Proof.
  assert (forall p q, (q ?= p)%positive = CompOpp (p ?= q)%positive) as Hp by (intros; apply Pos.compare_antisym).
  destruct f as [s1|s1| |s1 m1 e1], g as [s2|s2| |s2 m2 e2]; try done; try (by destruct s1, s2); try (by destruct s1); try (by destruct s2).
  intros _ _. destruct s1, s2; try done; cbn; rewrite (Z.compare_antisym e1 e2); destruct (e1 ?= e2)%Z; try done; cbn.
  - change (Pos.compare_cont Eq m2 m1) with (m2 ?= m1)%positive. change (Pos.compare_cont Eq m1 m2) with (m1 ?= m2)%positive. by rewrite Hp.
  - change (Pos.compare_cont Eq m2 m1) with (m2 ?= m1)%positive. change (Pos.compare_cont Eq m1 m2) with (m1 ?= m2)%positive. by rewrite Hp.
Qed.
Lemma SFltb_false f g : is_nan f = false -> is_nan g = false -> SFltb f g = false -> SFleb g f = true.
Proof.
  intros Hf Hg. unfold SFltb, SFleb. rewrite (SFcompare_swap f g) by done.
  assert (is_Some (SFcompare f g)) as [c ->] by (destruct f as [[]|[]| |[]], g as [[]|[]| |[]]; try done; cbn; by repeat case_match).
  by destruct c.
Qed.

(** A number is in the bounds of its entry (a JSON number is never NaN). *)
Definition in_range (c : ParamConfig) (v : value) : bool :=
  match as_f64 v with
  | Some f => is_nan f || (from_option (fun min => SFleb (f64_of_Z min) f) true (pc_min c) && from_option (fun max => SFleb f (f64_of_Z max)) true (pc_max c))
  | None => true
  end.
(** The bounds themselves are in range. *)
Definition bounds_ok (c : ParamConfig) : bool :=
  forallb (fun z => in_range c (json_int z) && negb (is_nan (f64_of_Z z))) (option_list (pc_min c) ++ option_list (pc_max c)).
Lemma clamp_in_range c v : bounds_ok c = true -> in_range c (clamp c v) = true.
Proof.
  unfold bounds_ok. rewrite forallb_forall. setoid_rewrite <- list_elem_of_In. setoid_rewrite andb_true_iff. setoid_rewrite negb_true_iff. intros Hb.
  destruct v as [| |n| | |]; try done. unfold clamp. destruct (as_f64 (JNumber n)) as [f|] eqn:Hf; [|by destruct n].
  destruct (pc_min c) as [lo|] eqn:Hlo; [destruct (SFltb f (f64_of_Z lo)) eqn:Hlt|]; [apply Hb; set_solver|..];
    (destruct (pc_max c) as [hi|] eqn:Hhi; [destruct (SFltb (f64_of_Z hi) f) eqn:Hgt; [apply Hb; set_solver|]|]);
    unfold in_range; rewrite Hf, Hlo, Hhi; cbn; destruct (is_nan f) eqn:Hn; cbn; rewrite ?andb_true_r; try done.
  all: try (rewrite (SFltb_false f (f64_of_Z lo)); [|done|apply Hb; set_solver|done]; cbn).
  all: try (apply SFltb_false; [apply Hb; set_solver|done..]). all: done.
Qed.

(** Entries that write the same member have the same bounds, and defaults are in range. *)
Definition table_ok (config : list ParamConfig) : bool :=
  forallb (fun c => bounds_ok c && from_option (in_range c) true (pc_default c) &&
    forallb (fun c' => negb (bool_decide (target c' = pc_param c)) ||
      (bool_decide (pc_min c' = pc_min c) && bool_decide (pc_max c' = pc_max c))) config) config.
Lemma tables_ok format endpoint engine config : select_config format endpoint engine = Ok config -> table_ok config = true.
Proof. destruct format, endpoint, engine; cbn [select_config]; intros Hs; try discriminate Hs; injection Hs as <-; by vm_compute. Qed.
Lemma in_range_same c c' v : pc_min c' = pc_min c -> pc_max c' = pc_max c -> in_range c' v = in_range c v.
Proof. unfold in_range. by intros -> ->. Qed.
Lemma set_path_written c v obj : get (target c) (set_nested_property obj (pc_param c) v) = Some v \/
  exists m, get (target c) (set_nested_property obj (pc_param c) v) = Some (JObject m).
Proof.
  unfold set_nested_property. pose proof (target_head c) as Hh. destruct (split_char 46 (pc_param c)) as [|p [|q rest]]; [done|..];
    injection Hh as ->; cbn [set_path members_of get]; rewrite obj_get_insert, bool_decide_true by done; [by left|right].
  destruct rest; cbn; eauto.
Qed.
Lemma get_value_in_range params c v : bounds_ok c = true -> get_value params c = Ok (Some v) -> in_range c v = true.
Proof.
  intros Hb. unfold get_value. destruct (match pc_transform c with Some _ => _ | None => _ end) as [o|]; [|done]. cbn [mbind result_bind].
  cbv zeta. match goal with |- Ok (clamp c <$> ?read) = _ -> _ => destruct read as [v'|] end; [|done]. intros [= <-]. by apply clamp_in_range.
Qed.
Lemma table_in_range config params body c v : table_ok config = true -> transform_using_provider_config config params = Ok body ->
  c ∈ config -> get (pc_param c) body = Some v -> in_range c v = true.
Proof.
  unfold table_ok. rewrite forallb_forall. setoid_rewrite <- list_elem_of_In. intros Hok Ht Hc Hv.
  assert (forall c', c' ∈ config -> bounds_ok c' = true /\ from_option (in_range c') true (pc_default c') = true) as Hown
    by (intros c' Hin; apply Hok in Hin; by apply andb_prop in Hin as [[? ?]%andb_prop _]).
  eapply (table_invariant (fun o => from_option (in_range c) true (get (pc_param c) o) = true)) in Ht as [_ Ht]; [by rewrite Hv in Ht| |done|done].
  intros c' o o' Hin Ho Hr Hs. destruct (decide (target c' = pc_param c)) as [Heq|Hne].
  2: by rewrite (config_step_ne _ _ _ _ _ Ho Hne Hs).
  apply Hok in Hc. apply andb_prop in Hc as [_ Hc]. rewrite forallb_forall in Hc. setoid_rewrite <- list_elem_of_In in Hc.
  apply Hc in Hin as Hb. rewrite bool_decide_true in Hb by done. cbn in Hb. apply andb_prop in Hb as [Hmin%bool_decide_eq_true Hmax%bool_decide_eq_true].
  assert (forall w, in_range c' w = true -> from_option (in_range c) true (get (pc_param c) (set_nested_property o (pc_param c') w)) = true) as Hset.
  { intros w Hw. rewrite <- Heq. destruct (set_path_written c' w o) as [->|[m ->]]; [|done]. cbn. by rewrite <- (in_range_same c c'). }
  destruct (Hown c' Hin) as [Hb' Hd]. unfold config_step in Hs. case_bool_decide.
  - destruct (get_value params c') as [[w|]|] eqn:Hg; [..|done]; injection Hs as <-; [|done]. by eapply Hset, get_value_in_range.
  - destruct (pc_required c'); [destruct (pc_default c')|]; injection Hs as <-; try done. by apply Hset.
Qed.

(** The entries of the table a request for this endpoint goes through. *)
Definition shaping_table (format : ProviderFormat) (endpoint : Endpoint) (engine : option Engine) : list ParamConfig :=
  match format, endpoint with
  | Openai, Messages => openai_chat_complete_config engine
  | _, _ => default [] (result_ok (select_config format endpoint engine))
  end.
Lemma shaped_by_table format params endpoint engine body c : c ∈ shaping_table format endpoint engine ->
  transform_to_provider_request format params endpoint engine = Ok body ->
  exists config chat, select_config format (if bool_decide (endpoint = Messages) then ChatComplete else endpoint) engine = Ok config /\ c ∈ config /\
    transform_using_provider_config config (inject_stream_options chat) = Ok body /\
    (if bool_decide (endpoint = Messages) then messages_to_chat_params params = Ok chat else chat = params).
Proof.
  intros Hc Ht.
  destruct format, endpoint; cbn [shaping_table select_config result_ok default from_option id transform_to_provider_request] in Hc, Ht |- *;
    try (by apply elem_of_nil in Hc); try (eexists _, params; split_and!; [done|exact Hc|exact Ht|done]).
  destruct (messages_to_chat_params params) as [chat|]; [|done]. by exists (openai_chat_complete_config engine), chat.
Qed.

(** A numeric control that reaches an upstream is in the range its table entry gives,
    as the double it is read as: the temperature of a chat request is at most 2 for an
    OpenAI-format upstream and 1 for an Anthropic one, a penalty between -2 and 2, and so
    for every bounded entry; a Messages request for a chat upstream included. *)
Theorem numeric_controls_in_range format params endpoint engine body c n :
  c ∈ shaping_table format endpoint engine -> transform_to_provider_request format params endpoint engine = Ok body ->
  get (pc_param c) body = Some (JNumber n) -> in_range c (JNumber n) = true.
Proof.
  intros Hc Ht Hg. destruct (shaped_by_table _ _ _ _ _ _ Hc Ht) as (config & chat & Hs & Hin & Hbody & _).
  eapply table_in_range; [by eapply tables_ok|done..].
Qed.

(** ** Usage on streams *)
Lemma table_passes config n c k params body v : config !! n = Some c -> pc_input c = k -> split_char 46 (pc_param c) = [k] ->
  k ∉ target <$> drop (S n) config -> transform_using_provider_config config params = Ok body ->
  is_Some (get k params) -> get_value params c = Ok (Some v) -> get k body = Some v.
Proof.
  intros Hn Hin Hsp Hk. unfold transform_using_provider_config. rewrite <- (take_drop_middle _ _ _ Hn), try_fold_app at 1.
  destruct (try_fold _ (take n config) _) as [o|] eqn:H1; [|done]. cbn [mbind result_bind try_fold]. intros Ht Hv Hgv.
  eapply (table_invariant (fun _ => True)) in H1 as [Ho _]; [|done..].
  destruct (config_step params c o) as [o1|] eqn:Hs; [|done]. cbn [mbind result_bind] in Ht.
  pose proof (config_step_object _ _ _ _ Ho Hs) as Ho1.
  assert (get k o1 = Some v) as Hg1.
  { unfold config_step in Hs. rewrite Hin, Hgv, bool_decide_true in Hs by done. injection Hs as <-.
    unfold set_nested_property. rewrite Hsp. cbn [set_path get]. by rewrite obj_get_insert, bool_decide_true. }
  eapply (table_invariant (fun o => get k o = Some v)) in Ht as [_ Ht]; [done| |done..].
  intros c' o2 o3 Hc Ho2 Hg Hs2. rewrite (config_step_ne params c' o2 o3 k Ho2); [done| |done].
  intros <-. apply Hk. by apply list_elem_of_fmap_2.
Qed.
Lemma injected_usage params : get "stream" params = Some (JBool true) ->
  exists options, get "stream_options" (inject_stream_options params) = Some options /\ get "include_usage" options = Some (JBool true).
Proof.
  intros Hs. unfold inject_stream_options. rewrite Hs, bool_decide_true by done. cbn [negb]. case_bool_decide as Hu.
  - destruct (get "stream_options" params) as [options|]; [|done]. by exists options.
  - destruct params as [| | | | |m]; try done. cbn [on_object get]. rewrite obj_get_insert, bool_decide_true by done.
    eexists. split; [done|]. cbn [get]. by rewrite obj_get_insert, bool_decide_true.
Qed.
Lemma carried params messages : obj_get "stream" (copy_members CARRIED_MEMBERS params [("messages", messages)]) = get "stream" params.
Proof.
  change CARRIED_MEMBERS with (["model"; "max_tokens"; "temperature"; "top_p"; "top_k"] ++ ["stream"]).
  unfold copy_members. rewrite foldl_app. set (earlier := foldl _ _ ["model"; _; _; _; _]). cbn [foldl].
  destruct (get "stream" params); [by rewrite obj_get_insert|].
  apply (copy_members_get "stream" ["model"; "max_tokens"; "temperature"; "top_p"; "top_k"]). by refine (bool_decide_eq_false_1 _ _).
Qed.
Lemma messages_carry_stream params chat : messages_to_chat_params params = Ok chat -> get "stream" chat = get "stream" params.
Proof.
  unfold messages_to_chat_params. case_match; [done|]. destruct (messages_system params) as [system|]; [|done]. cbn [mbind result_bind].
  destruct (get "messages" params ≫= as_array); [|done]. cbn [ok_or mbind result_bind].
  destruct (try_fold _ _ _); [|done]. cbn [mbind result_bind]. destruct (chat_messages _) as [messages|]; [|done]. cbn [mbind result_bind].
  destruct (messages_tools _) as [tools|]; [|done]. cbn [mbind result_bind].
  destruct (messages_tool_controls _ _ _) as [m|] eqn:Hc; [|done]. intros [= <-]. cbn [get].
  rewrite insert_some_ne by done. transitivity (obj_get "stream" m); [case_bool_decide; [done|]; by rewrite obj_get_insert|].
  unfold messages_tool_controls in Hc. destruct (filter_some _ (get "tool_choice" params)) as [choice|]; [|injection Hc as <-].
  - destruct (messages_tool_choice choice tools) as [cc|]; [|done]. injection Hc as <-.
    assert (forall o, obj_get "stream" (if bool_decide (get "disable_parallel_tool_use" choice = Some (JBool true))
      then obj_insert "parallel_tool_calls" (JBool false) o else o) = obj_get "stream" o) as -> by (intros o; case_bool_decide; [by rewrite obj_get_insert|done]).
    rewrite !insert_some_ne by done. apply carried.
  - rewrite insert_some_ne by done. apply carried.
Qed.

Lemma inject_keeps params k : k ≠ "stream_options" -> get k (inject_stream_options params) = get k params.
Proof.
  intros Hk. unfold inject_stream_options. case_match; [done|]. case_match; [done|]. destruct params; try done. cbn [on_object get].
  by rewrite obj_get_insert, bool_decide_false.
Qed.
(** A pass-through entry reads its member. *)
Lemma pc_get_value k params v : get k params = Some v -> get_value params (pc k) = Ok (Some v).
Proof. intros Hv. unfold get_value. cbn [pc pc_input pc_transform pc_default mbind result_bind]. rewrite Hv. by destruct v as [| |[]| | |]. Qed.
(** An entry that writes to [k], if at all, for a request that has it. *)
Definition copies_only (k : string) (c : ParamConfig) : bool :=
  negb (bool_decide (target c = k)) || (bool_decide (pc_input c = k) && negb (pc_required c)).
Lemma table_copies config n k params body : config !! n = Some (pc k) -> split_char 46 k = [k] ->
  k ∉ target <$> drop (S n) config -> forallb (copies_only k) config = true ->
  transform_using_provider_config config params = Ok body -> get k body = get k params.
Proof.
  intros Hn Hk Hlast Hc Ht. destruct (get k params) as [v|] eqn:Hv.
  - eapply (table_passes config n); [done|done|done|done|done|by rewrite Hv|by apply pc_get_value].
  - eapply (table_invariant (fun o => get k o = None)) in Ht as [_ Ht]; [done| |done|done].
    intros c o o' Hin Ho Hg Hs. rewrite forallb_forall in Hc. specialize (Hc c (proj1 (list_elem_of_In _ _) Hin)).
    unfold copies_only in Hc. destruct (decide (target c = k)) as [He|He]; [|by rewrite (config_step_ne _ _ _ _ _ Ho He Hs)].
    rewrite bool_decide_true in Hc by done. cbn in Hc. apply andb_true_iff in Hc as [Hi%bool_decide_eq_true Hr%negb_true_iff].
    unfold config_step in Hs. rewrite Hi, Hv, Hr, bool_decide_false in Hs by (by intros []). by injection Hs as <-.
Qed.
(** What a chat table does with the members that speak of reasoning. *)
Definition sent_chat_member (engine : option Engine) (params : value) (k : string) : option value :=
  if bool_decide (k ∈ ["reasoning"; "reasoning_effort"; "thinking"]) then get k params
  else match engine with
       | Some _ => if bool_decide (k = "chat_template_kwargs") then get k params else None
       | None => None
       end.
Lemma reasoning_members_sent params engine body k :
  k ∈ ["reasoning"; "reasoning_effort"; "thinking"; "include_reasoning"; "chat_template_kwargs"] ->
  transform_to_provider_request Openai params ChatComplete engine = Ok body -> get k body = sent_chat_member engine params k.
Proof.
  intros Hk Ht. cbn [transform_to_provider_request] in Ht. unfold transform_with_table in Ht. cbn [select_config mbind result_bind] in Ht.
  assert (get k (inject_stream_options params) = get k params) as Hi by (apply inject_keeps; intros ->; set_unfold in Hk; naive_solver).
  assert (forall n, openai_chat_complete_config engine !! n = Some (pc k) -> split_char 46 k = [k] ->
    bool_decide (k ∈ target <$> drop (S n) (openai_chat_complete_config engine)) = false ->
    forallb (copies_only k) (openai_chat_complete_config engine) = true -> get k body = get k params) as Hcopy.
  { intros n Hn Hsp Hlast%bool_decide_eq_false_1 Hc. rewrite <- Hi. by eapply table_copies. }
  assert (bool_decide (k ∈ target <$> openai_chat_complete_config engine) = false -> get k body = None) as Hnone.
  { intros Hf%bool_decide_eq_false_1. destruct (get k body) eqn:Hg; [|done]. destruct Hf.
    apply (table_members _ _ _ k Ht). by rewrite Hg. }
  rewrite !elem_of_cons, elem_of_nil in Hk. destruct Hk as [->|[->|[->|[->|[->|[]]]]]]; unfold sent_chat_member.
  - apply (Hcopy 19); by destruct engine; vm_compute.
  - apply (Hcopy 20); by destruct engine; vm_compute.
  - apply (Hcopy 21); by destruct engine; vm_compute.
  - transitivity (@None value); [apply Hnone; by destruct engine; vm_compute|by destruct engine].
  - destruct engine; [apply (Hcopy 39); by vm_compute|apply Hnone; by vm_compute].
Qed.
(** The completion tables carry [stream] and [stream_options], and no later entry overwrites them. *)
Lemma completion_stream endpoint engine config params body : endpoint ∈ [ChatComplete; Complete] ->
  select_config Openai endpoint engine = Ok config -> transform_using_provider_config config (inject_stream_options params) = Ok body ->
  get "stream" params = Some (JBool true) -> get "stream" body = Some (JBool true) /\
  exists options, get "stream_options" body = Some options /\ get "include_usage" options = Some (JBool true).
Proof.
  intros He Hc Ht Hs. destruct (injected_usage params Hs) as (options & Ho & Hu).
  assert (get "stream" (inject_stream_options params) = Some (JBool true)) as Hs' by (by rewrite inject_keeps).
  assert (exists n m, config !! n = Some (pc "stream_options") /\ bool_decide ("stream_options" ∈ target <$> drop (S n) config) = false /\
    config !! m = Some (with_default (JBool false) (pc "stream")) /\ bool_decide ("stream" ∈ target <$> drop (S m) config) = false)
    as (n & m & Hn1 & Hn2 & Hm1 & Hm2).
  { set_unfold in He. destruct He as [->|[->|[]]]; injection Hc as <-; [exists 10, 32|exists 0, 13]; destruct engine; by vm_compute. }
  split.
  - eapply (table_passes config m); [done|done|done|by eapply bool_decide_eq_false_1|done|by rewrite Hs'|].
    unfold get_value. cbn [with_default pc pc_input pc_transform pc_default mbind result_bind]. by rewrite Hs'.
  - exists options. split; [|done]. eapply (table_passes config n); [done|done|done|by eapply bool_decide_eq_false_1|done|by rewrite Ho|by apply pc_get_value].
Qed.

(** A streamed completion asks the upstream to stream and to report its usage (the
    tokens the stream is billed by), whatever the client's [stream_options] say; a Messages
    request served by a chat upstream does so too. *)
Theorem streamed_request_reports_usage params endpoint engine body :
  endpoint ∈ [ChatComplete; Complete; Messages] -> get "stream" params = Some (JBool true) ->
  transform_to_provider_request Openai params endpoint engine = Ok body ->
  get "stream" body = Some (JBool true) /\ exists options, get "stream_options" body = Some options /\ get "include_usage" options = Some (JBool true).
Proof.
  intros He Hs Ht. assert (exists chat ep, ep ∈ [ChatComplete; Complete] /\ transform_with_table Openai chat ep engine = Ok body /\ get "stream" chat = get "stream" params)
    as (chat & ep & Hep & Hw & Hchat).
  { set_unfold in He. destruct He as [->|[->|[->|[]]]]; cbn [transform_to_provider_request] in Ht.
    - exists params, ChatComplete. split_and!; [set_solver|done..].
    - exists params, Complete. split_and!; [set_solver|done..].
    - destruct (messages_to_chat_params params) as [chat|] eqn:Hc; [|done]. exists chat, ChatComplete.
      split_and!; [set_solver|done|by apply messages_carry_stream]. }
  unfold transform_with_table in Hw. destruct (select_config Openai ep engine) as [config|] eqn:Hc; [|done].
  eapply completion_stream; [done..|congruence].
Qed.
End Tables.

Section Witness.
#[local] Existing Instance sample_json.
Definition sample_chat_request : value :=
  JObject [("model", JString "m"); ("provider", JObject [("only", JArray [JString "p"])]); ("stream", JBool true);
           ("temperature", JNumber (PosInt 9)); ("messages", JArray [role_message "user" (JString "hi")]); ("nonsense", JNull)].
Definition sample_shaped : value := default JNull (result_ok (transform_to_provider_request Openai sample_chat_request ChatComplete None)).
Example sample_shaped_members : obj_keys (members_of sample_shaped) = ["stream_options"; "model"; "messages"; "temperature"; "stream"].
Proof. by vm_compute. Qed.
Example sample_shaped_ok : transform_to_provider_request Openai sample_chat_request ChatComplete None = Ok sample_shaped.
Proof. by vm_compute. Qed.
Lemma only_known_members_forwarded_witness : get "provider" sample_shaped = None /\ get "nonsense" sample_shaped = None.
Proof.
  destruct (only_known_members_forwarded Openai sample_chat_request ChatComplete None sample_shaped) as (_ & Hp & Hm & _);
    [by apply value_wfb_spec; vm_compute|exact sample_shaped_ok|].
  split; [exact Hp|]. destruct (get "nonsense" sample_shaped) eqn:Hn; [|done].
  specialize (Hm "nonsense" (mk_is_Some _ _ Hn)). by vm_compute in Hm.
Defined.
Lemma numeric_controls_in_range_witness : exists n, get "temperature" sample_shaped = Some (JNumber n) /\
  in_range (with_max 2 (with_min 0 (with_default (json_int 1) (pc "temperature")))) (JNumber n) = true.
Proof.
  exists (PosInt 2). split; [by vm_compute|].
  apply (numeric_controls_in_range Openai sample_chat_request ChatComplete None sample_shaped);
    [cbn; do 29 right; left|exact sample_shaped_ok|by vm_compute].
Defined.
Lemma streamed_request_reports_usage_witness : exists options, get "stream_options" sample_shaped = Some options /\
  get "include_usage" options = Some (JBool true).
Proof.
  apply (streamed_request_reports_usage sample_chat_request ChatComplete None sample_shaped);
    [left|by vm_compute|exact sample_shaped_ok].
Defined.
End Witness.
