(* ===== verification/Candidates.v ===== *)
(** * One body per candidate (src/middleware/request_transform.rs)

    The control plane answers with an ordered list of routes; the gateway shapes one
    request per route, in that order, for the failover walk.  A route that cannot serve
    the endpoint is left out and one that cannot express the request is skipped; the
    client sees an error only when no route is left.  [None] is a panic (an
    [unreachable!]), which the theorems exclude; the log lines of a skipped route are
    left out. *)
From S2P Require Import E2ee Forward.
From S2P Require Import Prelude Text Json External Sample SseProtocol UpstreamErrors Images Sanitize ToolMap Audio Conversion.
From S2P Require Import MessagesRequest ResponsesRequest Shaping Reasoning.

Record RouteCandidate : Type := mkRoute {
  rt_route_id : string;
  rt_format : ProviderFormat;
  rt_engine : option Engine;
  rt_reasoning_format : option ReasoningFormat;
  rt_reasoning_policy : option ReasoningPolicy;
  rt_supported_endpoints : list string;
  rt_hoist_system_messages : bool;
}.
Definition supports_endpoint (c : RouteCandidate) (path : string) : bool := existsb (fun supported => bool_decide (supported = path)) (rt_supported_endpoints c).
Definition MESSAGES_PATH : string := "/v1/messages".
Definition RESPONSES_PATH : string := "/v1/responses".
Definition SYSTEMONE_PATH : string := "/v1/systemone".
Definition path (endpoint : Endpoint) : string :=
  match endpoint with
  | ChatComplete => CHAT_COMPLETIONS_PATH | Complete => COMPLETIONS_PATH | Embed => EMBEDDINGS_PATH | Messages => MESSAGES_PATH
  | CreateModelResponse => RESPONSES_PATH | SystemOne => SYSTEMONE_PATH | ImagesGenerations => IMAGES_GENERATIONS_PATH
  | AudioTranscriptions => AUDIO_TRANSCRIPTIONS_PATH
  end.
Definition label (endpoint : Endpoint) : string :=
  match endpoint with
  | ChatComplete => "chatComplete" | Complete => "complete" | Embed => "embed" | Messages => "messages"
  | CreateModelResponse => "createModelResponse" | SystemOne => "systemOne" | ImagesGenerations => "imagesGenerations"
  | AudioTranscriptions => "audioTranscriptions"
  end.
(** [Display]: what the client is told. *)
Definition transform_error_text (e : TransformError) : string :=
  match e with
  | Unsupported format endpoint =>
      label endpoint +:+ " is not supported by " +:+ match format with Openai => "openai" | Anthropic => "anthropic" end
  | InvalidRequest message _ => message
  end.

(** ** The request a route is given *)
Definition strip_tools_when_tool_choice_none (params : value) : value :=
  if bool_decide (get_str "tool_choice" params = Some "none") then
    on_object (fun object => obj_remove "parallel_tool_calls" (obj_remove "tool_choice" (obj_remove "tools" object))) params
  else params.

Definition message_role (msg : value) : string := str_or_empty (get "role" msg).
(** System messages come first and only once, and there are no developer messages. *)
Definition conforms (messages : list value) : bool :=
  forallb id (imap (fun index msg =>
    if bool_decide (message_role msg = "system") then bool_decide (index = 0)
    else negb (bool_decide (message_role msg = "developer"))) messages).
(** [None] is the early return: a part that is not text. *)
Definition system_text (msg : value) : option string :=
  match get "content" msg with
  | None | Some JNull => Some ""
  | Some (JString text) => Some text
  | Some (JArray parts) =>
      concat_strings <$> mapM (fun part => if bool_decide (get_str "type" part = Some "text") then get_str "text" part else None) parts
  | Some _ => None
  end.
Definition normalize_system_messages (messages : list value) : list value :=
  if conforms messages then messages
  else
    match mapM system_text (List.filter (fun msg => is_system_role (message_role msg)) messages) with
    | None => messages
    | Some texts =>
        let texts := List.filter non_empty texts in
        let messages := List.filter (fun msg => negb (is_system_role (message_role msg))) messages in
        if bool_decide (texts = []) then messages
        else role_message "system" (JString (ToolMap.join blank_line texts)) :: messages
    end.

Definition has_callable_tools (params : value) (key : string) : bool :=
  match get key params with
  | Some (JArray items) => negb (bool_decide (items = []))
  | Some v => negb (is_null v)
  | None => false
  end.
Definition should_omit_structured_output_limit (candidate : RouteCandidate) (params : value) : bool :=
  if negb (bool_decide (rt_format candidate = Openai)) || negb (bool_decide ((rt_reasoning_policy candidate ≫= rp_omit_max_tokens) = Some true)) then false
  else
    let kind := get "response_format" params ≫= get_str "type" in
    (bool_decide (kind = Some "json_object") || bool_decide (kind = Some "json_schema")) &&
    negb (has_callable_tools params "tools") && negb (has_callable_tools params "functions").

Definition present (v : option value) : bool := negb (is_null_or_absent v).
Definition resolve_effective_reasoning (candidate : RouteCandidate) (params : value) (requested : option ReasoningConfig) : option ReasoningConfig :=
  let policy := rt_reasoning_policy candidate in
  let has_rf := present (get "response_format" params) in
  let has_tools := present (get "tools" params) in
  let max_tokens := or_else (get "max_completion_tokens" params ≫= as_u64) (get "max_tokens" params ≫= as_u64) in
  if has_rf && negb has_tools then
    or_else (policy ≫= fun p => or_else (rp_override_policy p) (rp_default_policy p)) requested
  else if has_tools then
    match policy ≫= rp_threshold, max_tokens with
    | Some threshold, Some mt => if (mt <=? threshold)%Z then Some (reasoning_of_effort NoEffort) else requested
    | _, _ => requested
    end
  else requested.

Definition THINKING_SWITCHES : list string := ["thinking"; "enable_thinking"].
Definition chat_template_reasoning_intent (params : value) (candidate : RouteCandidate) (requested : option ReasoningConfig) : option ReasoningConfig :=
  if bool_decide (is_Some requested) || negb (bool_decide (rt_format candidate = Openai)) ||
     (if rt_reasoning_format candidate then false else true) then None
  else
    match get "chat_template_kwargs" params with
    | Some (JObject kwargs) =>
        let switches := omap (fun key => obj_get key kwargs ≫= as_bool) THINKING_SWITCHES in
        if existsb id switches || bool_decide (switches = []) then None else Some (reasoning_switch false)
    | _ => None
    end.
Definition set_switches (enabled : bool) (kwargs : object) : object :=
  foldl (fun kwargs key => update_member key (fun _ => JBool enabled) kwargs) kwargs THINKING_SWITCHES.
Definition sync_chat_template_reasoning (object : object) (reasoning : ReasoningConfig) : list (string * value) :=
  match reasoning_enabled reasoning with
  | Some enabled => update_object "chat_template_kwargs" (set_switches enabled) object
  | None => object
  end.

Definition invalid_reasoning (candidate : RouteCandidate) (message : string) : TransformError :=
  InvalidRequest ("the requested model " +:+ message) (Some (rt_route_id candidate)).
Definition set_chat_template_reasoning (object : object) (reasoning : ReasoningConfig) (candidate : RouteCandidate) (key : string) :
    result TransformError (list (string * value)) :=
  if bool_decide (is_Some (rc_max_tokens reasoning)) then Err (invalid_reasoning candidate "cannot represent max_tokens")
  else
    match reasoning_enabled reasoning with
    | None => Err (invalid_reasoning candidate "reasoning configuration is empty")
    | Some enabled =>
        match default (JObject []) (obj_get "chat_template_kwargs" object) with
        | JObject kwargs => Ok (obj_insert "chat_template_kwargs" (JObject (obj_insert key (JBool enabled) kwargs)) object)
        | _ => Err (invalid_request "chat_template_kwargs must be an object")
        end
    end.
Definition reasoning_format_of (candidate : RouteCandidate) : ReasoningFormat :=
  default (if rt_engine candidate then AsReasoningEffort else AsReasoning)
    (rt_reasoning_format candidate).
Definition write_effort (effort : ReasoningEffort) (object : object) : list (string * value) :=
  obj_insert "reasoning_effort" (JString (effort_as_str effort)) object.
(** The effective reasoning in the route's dialect. *)
Definition encode_reasoning (candidate : RouteCandidate) (effective : ReasoningConfig) (object : object) :
    option (result TransformError (list (string * value))) :=
  match rt_format candidate, reasoning_format_of candidate with
  | Openai, AsReasoning => Some (Ok (obj_insert "reasoning" (reasoning_object effective) object))
  | Openai, AsReasoningEffort =>
      match requested_effort effective, rc_enabled effective with
      | Some effort, _ => Some (Ok (write_effort effort object))
      | None, Some true => Some (Ok (write_effort Medium object))
      | None, Some false => Some (Ok (write_effort NoEffort object))
      | None, None => None
      end
  | Openai, ChatTemplateThinking => Some (set_chat_template_reasoning object effective candidate "thinking")
  | Openai, ChatTemplateEnableThinking => Some (set_chat_template_reasoning object effective candidate "enable_thinking")
  | Openai, ThinkingType =>
      match reasoning_enabled effective with
      | None => Some (Err (invalid_reasoning candidate "reasoning configuration is empty"))
      | Some enabled =>
          let object := obj_insert "thinking" (JObject [("type", JString (if enabled then "enabled" else "disabled"))]) object in
          Some (Ok match filter_some (fun _ => enabled) (requested_effort effective) with
                   | Some effort => write_effort effort object
                   | None => object
                   end)
      end
  | Anthropic, _ => Some (Err (invalid_reasoning candidate "has no adapter"))
  end.

Definition remove_all (keys : list string) (object : object) : list (string * value) := foldl (fun o key => obj_remove key o) object keys.
(** The caller's controls are taken out. *)
Definition stripped_params (candidate : RouteCandidate) (omit_output_limit : bool) (object : object) : list (string * value) :=
  let object := remove_all ["reasoning"; "reasoning_effort"; "include_reasoning"] object in
  let object := if bool_decide (rt_format candidate = Openai) then obj_remove "thinking" object else object in
  let object := if omit_output_limit then remove_all ["max_tokens"; "max_completion_tokens"] object else object in
  if bool_decide (rt_format candidate = Openai) && rt_hoist_system_messages candidate then
    update_member "messages" (fun v => match v with JArray messages => JArray (normalize_system_messages messages) | _ => v end) object
  else object.
(** The request, and the reasoning in effect for it. *)
Definition request_for (candidate : RouteCandidate) (params : value) : value :=
  if bool_decide (rt_format candidate = Openai) then strip_tools_when_tool_choice_none params else params.
Definition effective_reasoning (candidate : RouteCandidate) (params : value) (requested : option ReasoningConfig) : option ReasoningConfig :=
  let derived := chat_template_reasoning_intent params candidate requested in
  resolve_effective_reasoning candidate params (or_else requested derived).
Definition candidate_params (params : value) (endpoint : Endpoint) (candidate : RouteCandidate) (requested : option ReasoningConfig) :
    option (result TransformError value) :=
  if negb (bool_decide (endpoint = ChatComplete)) then Some (Ok params)
  else
    let params := request_for candidate params in
    let effective := effective_reasoning candidate params requested in
    let omit_output_limit := should_omit_structured_output_limit candidate params in
    match params with
    | JObject object =>
        let object := stripped_params candidate omit_output_limit object in
        match effective with
        | None => Some (Ok (JObject object))
        | Some effective =>
            match validate_effective effective with
            | Err err => Some (Err (InvalidRequest ("invalid effective reasoning: " +:+ err) (Some (rt_route_id candidate))))
            | Ok _ =>
                fmap (M := result TransformError) JObject <$> encode_reasoning candidate effective (sync_chat_template_reasoning object effective)
            end
        end
    | _ => Some (Err (invalid_request "request body must be a JSON object"))
    end.

(** ** Candidates *)
Record ResponsesCandidateInput : Type := mkResponsesInput {
  ri_original : value;
  ri_bridge_error : option TransformError;
}.
Inductive Bridge : Type :=
| BridgeNone
| BridgeResponses (responses : ResponsesCandidateInput)
| BridgeMessages (chat : result TransformError value).

(** A route, its body and the endpoint the body is for. *)
Abbreviation Shaped := (string * value * Endpoint)%type.

Section Candidates.
Context {SJ : SerdeJson}.

Definition shape (candidate : RouteCandidate) (requested : option ReasoningConfig) (params : value) (endpoint : Endpoint) :
    option (result TransformError value) :=
  params ← candidate_params params endpoint candidate requested;
  Some (params ← params; transform_to_provider_request (rt_format candidate) params endpoint (rt_engine candidate)).
Definition shape_candidate (params : value) (endpoint : Endpoint) (candidate : RouteCandidate) (requested : option ReasoningConfig) (bridge : Bridge) :
    option (result TransformError (Endpoint * value)) :=
  let shaped_for upstream body := Some (pair upstream <$> body) in
  match bridge with
  | BridgeResponses responses =>
      if supports_endpoint candidate RESPONSES_PATH then
        shaped_for CreateModelResponse
          (transform_to_provider_request (rt_format candidate) (ri_original responses) CreateModelResponse (rt_engine candidate))
      else
        match ri_bridge_error responses with
        | Some err => Some (Err err)
        | None => body ← shape candidate requested params ChatComplete; shaped_for ChatComplete body
        end
  | BridgeMessages chat =>
      if bool_decide (rt_format candidate = Openai) then
        match chat with
        | Err err => Some (Err err)
        | Ok chat => body ← shape candidate requested chat ChatComplete; shaped_for endpoint body
        end
      else body ← shape candidate requested params endpoint; shaped_for endpoint body
  | BridgeNone => body ← shape candidate requested params endpoint; shaped_for endpoint body
  end.

(** The route serves the endpoint. *)
Definition serves (endpoint : Endpoint) (candidate : RouteCandidate) : bool :=
  Bool.eqb (bool_decide (endpoint = SystemOne)) (supports_endpoint candidate SYSTEMONE_PATH) &&
  (negb (bool_decide (endpoint ∈ [ImagesGenerations; AudioTranscriptions])) || supports_endpoint candidate (path endpoint)).
Definition bridge_of (params : value) (endpoint : Endpoint) (candidates : list RouteCandidate) (responses : option ResponsesCandidateInput) : Bridge :=
  if bool_decide (endpoint = Messages) && existsb (fun candidate => bool_decide (rt_format candidate = Openai)) candidates
  then BridgeMessages (messages_to_chat_params params)
  else from_option BridgeResponses BridgeNone responses.
Definition build_step (params : value) (endpoint : Endpoint) (requested : option ReasoningConfig) (bridge : Bridge)
    (acc : option (list Shaped * list TransformError)) (candidate : RouteCandidate) : option (list Shaped * list TransformError) :=
  '(shaped, skipped) ← acc;
  if negb (serves endpoint candidate) then Some (shaped, skipped)
  else
    r ← shape_candidate params endpoint candidate requested bridge;
    Some match r with
         | Ok (upstream_endpoint, body) => (shaped ++ [(rt_route_id candidate, body, upstream_endpoint)], skipped)
         | Err err => (shaped, skipped ++ [err])
         end.
Definition build_candidates (params : value) (endpoint : Endpoint) (candidates : list RouteCandidate) (requested : option ReasoningConfig)
    (responses : option ResponsesCandidateInput) : option (result TransformError (list Shaped)) :=
  let bridge := bridge_of params endpoint candidates responses in
  '(shaped, skipped) ← foldl (build_step params endpoint requested bridge) (Some ([], [])) candidates;
  Some match shaped, skipped with
       | [], err :: _ => Err err
       | _, _ => Ok shaped
       end.
End Candidates.

(** ** The reasoning a route is asked for *)
(** The members through which a chat request controls reasoning. *)
Definition REASONING_MEMBERS : list string := ["reasoning"; "reasoning_effort"; "include_reasoning"; "thinking"].
Definition dialect_members (format : ReasoningFormat) : list string :=
  match format with
  | AsReasoning => ["reasoning"] | AsReasoningEffort => ["reasoning_effort"] | ThinkingType => ["thinking"; "reasoning_effort"]
  | ChatTemplateThinking | ChatTemplateEnableThinking => []
  end.
(** Whether a request asks for reasoning, as an upstream of the dialect reads it. *)
Definition read_effort (effort : string) : bool := negb (bool_decide (effort = "none")).
Definition dialect_switch (format : ReasoningFormat) (body : value) : option bool :=
  match format with
  | AsReasoning =>
      r ← get "reasoning" body;
      or_else (get "enabled" r ≫= as_bool) (or_else (read_effort <$> get_str "effort" r) ((fun _ => true) <$> get "max_tokens" r))
  | AsReasoningEffort => read_effort <$> get_str "reasoning_effort" body
  | ChatTemplateThinking => kwargs ← get "chat_template_kwargs" body; get "thinking" kwargs ≫= as_bool
  | ChatTemplateEnableThinking => kwargs ← get "chat_template_kwargs" body; get "enable_thinking" kwargs ≫= as_bool
  | ThinkingType => (fun t => bool_decide (t = "enabled")) <$> (get "thinking" body ≫= get_str "type")
  end.
(** Both template switches, where the request has them, say the same. *)
Definition switches_say (b : bool) (body : value) : Prop :=
  forall kwargs key v, get "chat_template_kwargs" body = Some kwargs -> key ∈ THINKING_SWITCHES -> get key kwargs = Some v -> v = JBool b.

Lemma remove_all_get keys (m : object) k : NoDup (obj_keys m) ->
  NoDup (obj_keys (remove_all keys m)) /\ obj_get k (remove_all keys m) = if bool_decide (k ∈ keys) then None else obj_get k m.
Proof.
  revert m. unfold remove_all. induction keys as [|key keys IH]; intros m Hm; cbn [foldl]; [done|].
  destruct (IH (obj_remove key m) (obj_remove_NoDup key m Hm)) as [Hnd ->]. split; [done|].
  rewrite obj_get_remove by done. repeat case_bool_decide; try done; set_solver.
Qed.
Lemma stripped_none candidate omit (m : object) k : NoDup (obj_keys m) -> rt_format candidate = Openai -> k ∈ REASONING_MEMBERS ->
  obj_get k (stripped_params candidate omit m) = None.
Proof.
  intros Hnd Hf Hk. unfold stripped_params. rewrite Hf, bool_decide_true by done.
  set (m1 := obj_remove "thinking" (remove_all ["reasoning"; "reasoning_effort"; "include_reasoning"] m)). cbv zeta.
  destruct (remove_all_get ["reasoning"; "reasoning_effort"; "include_reasoning"] m k Hnd) as [Hnd1 Hg].
  assert (obj_get k m1 = None) as H1.
  { unfold m1. rewrite obj_get_remove, Hg by done. repeat case_bool_decide; try done. unfold REASONING_MEMBERS in Hk. set_solver. }
  clear Hg. pose proof (obj_remove_NoDup "thinking" _ Hnd1) as Hnd2. fold m1 in Hnd2.
  set (m2 := if omit then remove_all ["max_tokens"; "max_completion_tokens"] m1 else m1).
  assert (obj_get k m2 = None) as H2.
  { unfold m2. destruct omit; [|done]. destruct (remove_all_get ["max_tokens"; "max_completion_tokens"] m1 k Hnd2) as [_ ->]. rewrite H1. by case_bool_decide. }
  case_match; [|done]. rewrite obj_get_update_member. case_bool_decide as Hm; [|done]. subst k. by rewrite H2.
Qed.

Lemma set_switches_get b kwargs key v : key ∈ THINKING_SWITCHES -> obj_get key (set_switches b kwargs) = Some v -> v = JBool b.
Proof.
  unfold set_switches, THINKING_SWITCHES. cbn [foldl]. rewrite !obj_get_update_member. intros Hk. set_unfold in Hk.
  destruct Hk as [->|[->|[]]].
  - rewrite bool_decide_false, bool_decide_true by done. destruct (obj_get "thinking" kwargs); [|done]. by intros [= <-].
  - rewrite bool_decide_true, bool_decide_false by done. destruct (obj_get "enable_thinking" kwargs); [|done]. by intros [= <-].
Qed.
Lemma sync_get object reasoning k : k ≠ "chat_template_kwargs" -> obj_get k (sync_chat_template_reasoning object reasoning) = obj_get k object.
Proof. intros Hk. unfold sync_chat_template_reasoning. case_match; [|done]. rewrite obj_get_update_object. by rewrite bool_decide_false. Qed.
Lemma sync_switches object reasoning b : reasoning_enabled reasoning = Some b -> switches_say b (JObject (sync_chat_template_reasoning object reasoning)).
Proof.
  intros Hb kwargs key v. unfold sync_chat_template_reasoning. rewrite Hb. cbn [get]. rewrite obj_get_update_object, bool_decide_true by done.
  destruct (obj_get "chat_template_kwargs" object) as [o|]; [|done]. intros [= <-] Hk. destruct o; try done. by apply set_switches_get.
Qed.

(** What an encoded request says: reasoning on or off, and nothing outside the dialect. *)
Record says (format : ReasoningFormat) (b : bool) (body : value) : Prop := {
  sy_switch : dialect_switch format body = Some b;
  sy_template : switches_say b body;
  sy_rest k : k ∈ REASONING_MEMBERS -> k ∉ dialect_members format -> get k body = None;
}.
Lemma effort_off e : read_effort (effort_as_str e) = negb (bool_decide (e = NoEffort)).
Proof. by destruct e. Qed.
Lemma budget_effort_on n : budget_effort n ≠ NoEffort.
Proof. unfold budget_effort. by repeat case_match. Qed.
Lemma requested_effort_off config e : validate config = Ok () -> requested_effort config = Some e ->
  reasoning_enabled config = Some (read_effort (effort_as_str e)).
Proof.
  intros (b & Hb & He & Hn)%validate_ok Hr. rewrite Hb, effort_off. f_equal. unfold requested_effort in Hr.
  destruct (rc_effort config) as [e'|]; [injection Hr as <-; by destruct (He e' eq_refl) as [-> _]|].
  destruct (rc_max_tokens config) as [n|]; [|done]. injection Hr as <-. destruct (Hn n eq_refl) as [-> _].
  by rewrite bool_decide_false by apply budget_effort_on.
Qed.
Lemma switches_insert b k v object : k ≠ "chat_template_kwargs" -> switches_say b (JObject object) -> switches_say b (JObject (obj_insert k v object)).
Proof. intros Hk Hs kwargs key w. cbn [get]. rewrite obj_get_insert, bool_decide_false by done. apply Hs. Qed.
(** Writing one member of the dialect. *)
Lemma says_written format b k v object : (forall k, k ∈ REASONING_MEMBERS -> obj_get k object = None) -> switches_say b (JObject object) ->
  k ∈ dialect_members format -> k ≠ "chat_template_kwargs" -> dialect_switch format (JObject (obj_insert k v object)) = Some b ->
  says format b (JObject (obj_insert k v object)).
Proof.
  intros Hnone Hs Hk Hne Hd. constructor; [done|by apply switches_insert|]. intros k' Hin Hout. cbn [get].
  rewrite obj_get_insert, bool_decide_false; [by apply Hnone|]. by intros ->.
Qed.
Lemma reasoning_object_says config b object : validate config = Ok () -> reasoning_enabled config = Some b ->
  dialect_switch AsReasoning (JObject (obj_insert "reasoning" (reasoning_object config) object)) = Some b.
Proof.
  intros Hv Hb. cbn [dialect_switch get]. rewrite obj_get_insert, bool_decide_true by done. cbn [mbind option_bind].
  rewrite <- Hb. unfold reasoning_enabled. destruct config as [[e|] [n|] [b'|]]; cbn -[read_effort effort_as_str]; try done;
    repeat first [rewrite bool_decide_false by done | rewrite bool_decide_true by done]; cbn -[read_effort effort_as_str]; try done; by rewrite effort_off.
Qed.
Lemma template_says format key b config candidate object r :
  (format, key) ∈ [(ChatTemplateThinking, "thinking"); (ChatTemplateEnableThinking, "enable_thinking")] ->
  reasoning_enabled config = Some b -> (forall k, k ∈ REASONING_MEMBERS -> obj_get k object = None) -> switches_say b (JObject object) ->
  set_chat_template_reasoning object config candidate key = Ok r -> says format b (JObject r).
Proof.
  intros Hf Hb Hnone Hs. unfold set_chat_template_reasoning. rewrite Hb. case_bool_decide; [done|].
  destruct (default (JObject []) (obj_get "chat_template_kwargs" object)) as [| | | | |kwargs] eqn:Hk; try done. intros [= <-].
  assert (dialect_members format = [] /\ forall body, dialect_switch format body = (kwargs ← get "chat_template_kwargs" body; get key kwargs ≫= as_bool))
    as [Hm Hd] by (set_unfold in Hf; destruct Hf as [[= -> ->]|[[= -> ->]|[]]]; done).
  constructor.
  - rewrite Hd. cbn [get]. rewrite obj_get_insert, bool_decide_true by done. cbn [mbind option_bind get]. by rewrite obj_get_insert, bool_decide_true.
  - intros kw key' v. cbn [get]. rewrite obj_get_insert, bool_decide_true by done. intros [= <-] Hkey. cbn [get]. rewrite obj_get_insert.
    case_bool_decide; [by intros [= <-]|]. intros Hv. eapply (Hs (JObject kwargs)); [|done|exact Hv]. cbn [get].
    destruct (obj_get "chat_template_kwargs" object); cbn in Hk; [by rewrite Hk|]. injection Hk as <-. done.
  - intros k Hin _. cbn [get]. rewrite obj_get_insert, bool_decide_false; [by apply Hnone|]. intros <-. unfold REASONING_MEMBERS in Hin. by set_unfold in Hin; naive_solver.
Qed.
Lemma encode_says candidate config b object :
  rt_format candidate = Openai -> validate config = Ok () -> reasoning_enabled config = Some b ->
  (forall k, k ∈ REASONING_MEMBERS -> obj_get k object = None) -> switches_say b (JObject object) ->
  exists r, encode_reasoning candidate config object = Some r /\ forall o, r = Ok o -> says (reasoning_format_of candidate) b (JObject o).
Proof.
  intros Hf Hv Hb Hnone Hs. unfold encode_reasoning. rewrite Hf.
  assert (forall e, (requested_effort config = Some e \/ requested_effort config = None /\ e = (if b then Medium else NoEffort)) ->
    says AsReasoningEffort b (JObject (write_effort e object))) as Heff.
  { intros e He. apply says_written; [done|done|set_solver|done|]. cbn [dialect_switch get_str get]. unfold get_str. cbn [get].
    rewrite obj_get_insert, bool_decide_true by done. cbn [mbind option_bind as_str fmap option_fmap option_map].
    destruct He as [He|[_ ->]]; [rewrite <- Hb; symmetry; by apply requested_effort_off|by destruct b]. }
  destruct (reasoning_format_of candidate).
  - destruct (requested_effort config) as [e|] eqn:He; [eexists; split; [done|]; intros o [= <-]; apply Heff; by left|].
    assert (rc_enabled config = Some b) as ->.
    { unfold reasoning_enabled in Hb. unfold requested_effort in He. destruct config as [[] [] []]; try done. }
    destruct b; eexists; (split; [done|]); intros o [= <-]; apply Heff; by right.
  - eexists. split; [done|]. intros o [= <-]. apply says_written; [done|done|set_solver|done|]. by apply reasoning_object_says.
  - eexists. split; [done|]. intros o Ho. eapply (template_says _ "thinking"); [set_solver|done..].
  - eexists. split; [done|]. intros o Ho. eapply (template_says _ "enable_thinking"); [set_solver|done..].
  - rewrite Hb. eexists. split; [done|]. intros o [= <-]. set (written := obj_insert "thinking" _ object).
    assert (says ThinkingType b (JObject written)) as [H1 H2 H3].
    { apply says_written; [done|done|set_solver|done|]. cbn [dialect_switch get]. rewrite obj_get_insert, bool_decide_true by done. by destruct b. }
    destruct (filter_some _ _) as [e|]; [|done]. unfold write_effort. constructor.
    + cbn [dialect_switch get] in *. by rewrite obj_get_insert, bool_decide_false.
    + by apply switches_insert.
    + intros k Hin Hout. cbn [get]. rewrite obj_get_insert, bool_decide_false; [by apply H3|]. intros <-. set_solver.
Qed.
Lemma request_for_object candidate (m : object) : NoDup (obj_keys m) ->
  exists m', request_for candidate (JObject m) = JObject m' /\ NoDup (obj_keys m').
Proof.
  intros Hm. unfold request_for, strip_tools_when_tool_choice_none. case_bool_decide; [case_bool_decide|]; (eexists; split; [done|]); auto using obj_remove_NoDup.
Qed.
Lemma request_for_other candidate params : is_object params = false -> request_for candidate params = params.
Proof. intros Ho. unfold request_for, strip_tools_when_tool_choice_none. destruct params; try done; by destruct (bool_decide _). Qed.
Lemma synced_none candidate omit (m : object) config k : NoDup (obj_keys m) -> rt_format candidate = Openai -> k ∈ REASONING_MEMBERS ->
  obj_get k (sync_chat_template_reasoning (stripped_params candidate omit m) config) = None.
Proof.
  intros Hm Hf Hk. rewrite sync_get; [by apply stripped_none|]. intros ->. unfold REASONING_MEMBERS in Hk. set_unfold in Hk. naive_solver.
Qed.

(** The parameters a route's table is applied to say what is in effect. *)
Lemma candidate_params_say candidate params requested :
  rt_format candidate = Openai -> value_wf params ->
  exists r, candidate_params params ChatComplete candidate requested = Some r /\
  forall body, r = Ok body ->
    match effective_reasoning candidate (request_for candidate params) requested with
    | None => forall k, k ∈ REASONING_MEMBERS -> get k body = None
    | Some config => exists b, reasoning_enabled config = Some b /\ says (reasoning_format_of candidate) b body
    end.
Proof.
  intros Hf Hwf. unfold candidate_params. rewrite bool_decide_true by done. cbn [negb]. cbv zeta.
  set (effective := effective_reasoning _ _ _). set (omit := should_omit_structured_output_limit _ _).
  destruct (is_object params) eqn:Ho; [|rewrite (request_for_other candidate params Ho); destruct params; try done; (eexists; split; [reflexivity|done])].
  destruct params as [| | | | |m]; try done.
  assert (NoDup (obj_keys m)) as Hnd by (by inv Hwf). destruct (request_for_object candidate m Hnd) as (m' & Hm' & Hnd'). rewrite Hm'.
  destruct effective as [config|].
  - unfold validate_effective. destruct (validate config) as [[]|] eqn:Hv; [|eexists; split; [reflexivity|done]].
    destruct (validate_ok _ Hv) as (b & Hb & _).
    destruct (encode_says candidate config b (sync_chat_template_reasoning (stripped_params candidate omit m') config)) as (r & -> & Hr);
      [done..|by intros; apply synced_none|by apply sync_switches|].
    eexists. split; [done|]. intros body Hbody. exists b. split; [done|]. destruct r as [o|]; [|done]. injection Hbody as <-. by apply Hr.
  - eexists. split; [done|]. intros body [= <-] k Hk. by apply stripped_none.
Qed.

(** What an upstream of the route's dialect reads from the body that is sent: a template
    switch reaches only a route with an engine. *)
Definition template_dialect (format : ReasoningFormat) : bool :=
  match format with ChatTemplateThinking | ChatTemplateEnableThinking => true | _ => false end.
Definition switch_sent (candidate : RouteCandidate) (b : bool) : option bool :=
  if template_dialect (reasoning_format_of candidate) && bool_decide (rt_engine candidate = None) then None else Some b.

Lemma dialect_switch_sent {SJ : SerdeJson} candidate params body :
  transform_to_provider_request Openai params ChatComplete (rt_engine candidate) = Ok body ->
  dialect_switch (reasoning_format_of candidate) body =
    (if template_dialect (reasoning_format_of candidate) && bool_decide (rt_engine candidate = None) then None
     else dialect_switch (reasoning_format_of candidate) params).
Proof.
  intros Ht. pose proof (fun k Hk => reasoning_members_sent _ _ _ k Hk Ht) as Hs. unfold sent_chat_member in Hs.
  assert (get "reasoning" body = get "reasoning" params) as H1 by (rewrite Hs by set_solver; reflexivity).
  assert (get "reasoning_effort" body = get "reasoning_effort" params) as H2 by (rewrite Hs by set_solver; reflexivity).
  assert (get "thinking" body = get "thinking" params) as H3 by (rewrite Hs by set_solver; reflexivity).
  assert (get "chat_template_kwargs" body = match rt_engine candidate with Some _ => get "chat_template_kwargs" params | None => None end)
    as H4 by (rewrite Hs by set_solver; by destruct (rt_engine candidate)).
  destruct (reasoning_format_of candidate), (rt_engine candidate); cbn [template_dialect dialect_switch andb]; unfold get_str;
    by rewrite ?H1, ?H2, ?H3, ?H4.
Qed.

(** C36: Shaping a chat request for an OpenAI-format route never panics.  When it succeeds,
    the body sent says of reasoning exactly what is in effect for it (the caller's wish, or
    the deployment's policy): read in the route's dialect it is on or off as the effective
    configuration is, except that the switch of a chat-template dialect is not sent on a
    route without an engine; the template switches that are sent agree with it; and no other
    reasoning control, in another dialect, is in the body.  When nothing is in effect, the
    body has no reasoning control outside the chat template. *)
Theorem reasoning_says_what_is_in_effect {SJ : SerdeJson} candidate params requested :
  rt_format candidate = Openai -> value_wf params ->
  exists r, shape candidate requested params ChatComplete = Some r /\
  forall body, r = Ok body ->
    match effective_reasoning candidate (request_for candidate params) requested with
    | None => forall k, k ∈ REASONING_MEMBERS -> get k body = None
    | Some config => exists b, reasoning_enabled config = Some b /\
        dialect_switch (reasoning_format_of candidate) body = switch_sent candidate b /\ switches_say b body /\
        forall k, k ∈ REASONING_MEMBERS -> k ∉ dialect_members (reasoning_format_of candidate) -> get k body = None
    end.
Proof.
  intros Hf Hwf. destruct (candidate_params_say candidate params requested Hf Hwf) as (r & Hr & Hsay).
  unfold shape. rewrite Hr, Hf. cbn [mbind option_bind]. eexists. split; [done|]. intros body Hb.
  destruct r as [sent|]; [|done]. cbn [mbind result_bind] in Hb. specialize (Hsay sent eq_refl).
  pose proof (fun k Hk => reasoning_members_sent _ _ _ k Hk Hb) as Hs. unfold sent_chat_member in Hs.
  assert (forall k, k ∈ REASONING_MEMBERS -> get k sent = None -> get k body = None) as Hnone.
  { intros k Hk Hn. unfold REASONING_MEMBERS in Hk. rewrite Hs by set_solver. case_bool_decide; [done|].
    destruct (rt_engine candidate); [by case_bool_decide|done]. }
  destruct (effective_reasoning _ _ _) as [config|]; [|by auto].
  destruct Hsay as (b & Hen & [H1 H2 H3]). exists b. split_and!; [done| | |].
  - rewrite (dialect_switch_sent _ _ _ Hb), H1. done.
  - intros kwargs key v. rewrite Hs by set_solver.
    assert (bool_decide ("chat_template_kwargs" ∈ ["reasoning"; "reasoning_effort"; "thinking"]) = false) as -> by by vm_compute.
    destruct (rt_engine candidate); [|done]. rewrite bool_decide_true by done. apply H2.
  - by auto.
Qed.

(** ** Inferred intent *)
Lemma intent_none_requested params candidate requested config : chat_template_reasoning_intent params candidate requested = Some config ->
  config = reasoning_switch false /\ exists kwargs, get "chat_template_kwargs" params = Some (JObject kwargs).
Proof.
  unfold chat_template_reasoning_intent. match goal with |- (if ?guard then _ else _) = _ -> _ => destruct guard end; [done|].
  destruct (get "chat_template_kwargs" params) as [[]|]; try done. cbv zeta.
  match goal with |- (if ?guard then _ else _) = _ -> _ => destruct guard end; [done|]. intros [= <-]. eauto.
Qed.
Lemma resolve_without_policy candidate params requested : resolve_effective_reasoning candidate params None = None ->
  resolve_effective_reasoning candidate params requested = requested.
Proof.
  unfold resolve_effective_reasoning. destruct (present (get "response_format" params) && _).
  - by destruct (rt_reasoning_policy candidate ≫= _).
  - destruct (present (get "tools" params)); [|done]. destruct (rt_reasoning_policy candidate ≫= rp_threshold) as [t|]; [|done].
    destruct (or_else _ _) as [n|]; [|done]. by destruct (n <=? t)%Z.
Qed.
Lemma stripped_kwargs candidate omit (m : object) : NoDup (obj_keys m) ->
  obj_get "chat_template_kwargs" (stripped_params candidate omit m) = obj_get "chat_template_kwargs" m.
Proof.
  intros Hnd. unfold stripped_params.
  destruct (remove_all_get ["reasoning"; "reasoning_effort"; "include_reasoning"] m "chat_template_kwargs" Hnd) as [Hnd1 Hg1].
  rewrite bool_decide_false in Hg1 by (by refine (bool_decide_eq_false_1 _ _)). cbv zeta.
  set (m1 := remove_all _ m) in *. set (m2 := if bool_decide (rt_format candidate = Openai) then obj_remove "thinking" m1 else m1).
  assert (NoDup (obj_keys m2) /\ obj_get "chat_template_kwargs" m2 = obj_get "chat_template_kwargs" m) as [Hnd2 Hg2].
  { unfold m2. case_bool_decide; [|done]. split; [by apply obj_remove_NoDup|]. by rewrite obj_get_remove, bool_decide_false. }
  set (m3 := if omit then _ else _).
  assert (obj_get "chat_template_kwargs" m3 = obj_get "chat_template_kwargs" m) as Hg3.
  { unfold m3. destruct omit; [|done]. destruct (remove_all_get ["max_tokens"; "max_completion_tokens"] m2 "chat_template_kwargs" Hnd2) as [_ ->].
    by rewrite bool_decide_false by (by refine (bool_decide_eq_false_1 _ _)). }
  destruct (bool_decide _ && _); [|done]. by rewrite obj_get_update_member, bool_decide_false.
Qed.

Lemma template_ok (o : object) kw b candidate : obj_get "chat_template_kwargs" o = Some (JObject kw) ->
  set_chat_template_reasoning o (reasoning_switch b) candidate "thinking" =
    Ok (obj_insert "chat_template_kwargs" (JObject (obj_insert "thinking" (JBool b) kw)) o) /\
  set_chat_template_reasoning o (reasoning_switch b) candidate "enable_thinking" =
    Ok (obj_insert "chat_template_kwargs" (JObject (obj_insert "enable_thinking" (JBool b) kw)) o).
Proof. intros Hk. unfold set_chat_template_reasoning. by rewrite Hk. Qed.

(** A caller that states no reasoning is never refused over one.  When neither the
    caller nor the deployment's policy asks for anything, the chat request can be shaped for
    every OpenAI-format route, whatever its dialect, also when the gateway reads an intent
    to disable reasoning from the caller's template switches. *)
Theorem inferred_intent_never_refuses candidate params :
  rt_format candidate = Openai -> is_object params = true -> value_wf params ->
  resolve_effective_reasoning candidate (request_for candidate params) None = None ->
  exists body, candidate_params params ChatComplete candidate None = Some (Ok body) /\ is_object body = true.
Proof.
  intros Hf Ho Hwf Hr. destruct params as [| | | | |m]; try done. assert (NoDup (obj_keys m)) as Hnd by (by inv Hwf).
  unfold candidate_params. rewrite bool_decide_true by done. cbn [negb]. cbv zeta. unfold effective_reasoning. rewrite (resolve_without_policy _ _ _ Hr).
  destruct (request_for_object candidate m Hnd) as (m' & Hm' & Hnd'). rewrite Hm'. cbn [or_else]. set (omit := should_omit_structured_output_limit _ _).
  destruct (chat_template_reasoning_intent _ _ _) as [config|] eqn:Hi; [|by eexists].
  apply intent_none_requested in Hi as [-> [kwargs Hk]]. cbn [get] in Hk.
  set (o := sync_chat_template_reasoning _ _).
  assert (exists kw, obj_get "chat_template_kwargs" o = Some (JObject kw)) as [kw Hkw].
  { unfold o, sync_chat_template_reasoning. cbn. rewrite obj_get_update_object, bool_decide_true, stripped_kwargs, Hk by done. by eexists. }
  change (validate_effective (reasoning_switch false)) with (Ok (E := string) ()). cbv iota.
  unfold encode_reasoning. rewrite Hf.
  destruct (reasoning_format_of candidate); try (by eexists); destruct (template_ok o kw false candidate) with (1 := Hkw) as [Ht He];
    rewrite ?Ht, ?He; by eexists.
Qed.

(** ** The list of candidates *)
Section Lists.
Context {SJ : SerdeJson}.

Lemma encode_total candidate config object : validate config = Ok () -> is_Some (encode_reasoning candidate config object).
Proof.
  intros (b & Hb & _)%validate_ok. unfold encode_reasoning. destruct (rt_format candidate), (reasoning_format_of candidate); try (by eexists).
  - destruct (requested_effort config) eqn:He; [by eexists|]. destruct (rc_enabled config) as [[]|] eqn:Hen; [by eexists..|].
    unfold reasoning_enabled, requested_effort in *. rewrite Hen in Hb. by destruct (rc_effort config), (rc_max_tokens config).
  - rewrite Hb. by eexists.
Qed.
Lemma candidate_params_total params endpoint candidate requested : is_Some (candidate_params params endpoint candidate requested).
Proof.
  unfold candidate_params. destruct (negb _); [by eexists|]. cbv zeta. destruct (request_for candidate params); try (by eexists).
  destruct (effective_reasoning _ _ _) as [config|]; [|by eexists]. unfold validate_effective. destruct (validate config) as [[]|] eqn:Hv; [|by eexists].
  match goal with |- is_Some (_ <$> ?e) => assert (is_Some e) as [r ->] by (by apply encode_total) end. by eexists.
Qed.
Lemma shape_total candidate requested params endpoint : exists r, shape candidate requested params endpoint = Some r.
Proof. unfold shape. destruct (candidate_params_total params endpoint candidate requested) as [r ->]. by eexists. Qed.
Lemma shape_candidate_total params endpoint candidate requested bridge : exists r, shape_candidate params endpoint candidate requested bridge = Some r.
Proof.
  unfold shape_candidate.
  repeat match goal with |- context [shape ?c ?q ?p ?e] => destruct (shape_total c q p e) as [? ->] end; cbn [mbind option_bind].
  destruct bridge as [|responses|[chat|err]]; [by eexists|..].
  - destruct (supports_endpoint _ _); [by eexists|]. destruct (ri_bridge_error responses); by eexists.
  - destruct (bool_decide _); [|by eexists]. destruct (shape_total candidate requested chat ChatComplete) as [r ->]. by eexists.
  - destruct (bool_decide _); by eexists.
Qed.

(** What shaping gives for each route that serves the endpoint. *)
Section Build.
Context (params : value) (endpoint : Endpoint) (requested : option ReasoningConfig) (bridge : Bridge).
Definition shaped_entry (c : RouteCandidate) : option Shaped :=
  match shape_candidate params endpoint c requested bridge with
  | Some (Ok (upstream, body)) => Some (rt_route_id c, body, upstream)
  | _ => None
  end.
Definition refusal (c : RouteCandidate) : option TransformError :=
  match shape_candidate params endpoint c requested bridge with Some (Err err) => Some err | _ => None end.
Lemma build_fold candidates shaped skipped :
  foldl (build_step params endpoint requested bridge) (Some (shaped, skipped)) candidates =
  Some (shaped ++ omap shaped_entry (List.filter (serves endpoint) candidates), skipped ++ omap refusal (List.filter (serves endpoint) candidates)).
Proof.
  revert shaped skipped. induction candidates as [|c candidates IH]; intros shaped skipped; cbn [foldl List.filter]; [by rewrite !app_nil_r|].
  unfold build_step at 2. cbn [mbind option_bind]. destruct (serves endpoint c); cbn [negb]; [|apply IH].
  destruct (shape_candidate_total params endpoint c requested bridge) as [r Hr]. rewrite Hr. cbn [mbind option_bind omap list_omap].
  unfold shaped_entry at 1, refusal at 1. rewrite Hr. destruct r as [[upstream body]|err]; rewrite IH; by rewrite <- app_assoc.
Qed.
Lemma refusal_or_entry c : refusal c = None -> is_Some (shaped_entry c).
Proof.
  unfold refusal, shaped_entry. destruct (shape_candidate_total params endpoint c requested bridge) as [[[]|] ->]; [by eexists|done].
Qed.
End Build.

(** Of an entry: its route serves the endpoint, and its body is for that route. *)
Definition offered (params : value) (endpoint : Endpoint) (candidates : list RouteCandidate) (responses : option ResponsesCandidateInput) (e : Shaped) : Prop :=
  let '(route, body, upstream) := e in
  is_object body = true /\ get "provider" body = None /\
  exists c, c ∈ candidates /\ rt_route_id c = route /\ serves endpoint c = true /\
    (upstream = endpoint \/ is_Some responses /\ upstream = if supports_endpoint c RESPONSES_PATH then CreateModelResponse else ChatComplete).
Lemma shape_ok c requested params endpoint r body : shape c requested params endpoint = Some r -> r = Ok body ->
  (native (rt_format c) endpoint = true -> value_wf params) -> is_object body = true /\ get "provider" body = None.
Proof.
  unfold shape. destruct (candidate_params params endpoint c requested) as [[p|]|] eqn:Hp; cbn; intros [= <-] Hok Hwf; try done.
  assert (native (rt_format c) endpoint = true -> value_wf p) as Hn.
  { intros Hnat. unfold candidate_params in Hp. rewrite bool_decide_false in Hp; [injection Hp as <-; by apply Hwf|].
    intros ->. by destruct (rt_format c). }
  split; [by apply (forwarded_members _ _ _ _ _ Hn Hok)|by apply (no_provider _ _ _ _ _ Hn Hok)].
Qed.
Lemma entry_offered params endpoint candidates requested responses c e :
  (forall c, c ∈ candidates -> native (rt_format c) endpoint = true -> value_wf params) -> from_option (fun r => value_wf (ri_original r)) True responses ->
  c ∈ candidates -> serves endpoint c = true ->
  shaped_entry params endpoint requested (bridge_of params endpoint candidates responses) c = Some e -> offered params endpoint candidates responses e.
Proof.
  intros Hwf Hro Hc Hs. unfold shaped_entry. set (bridge := bridge_of _ _ _ _).
  destruct (shape_candidate _ _ _ _ _) as [[[upstream body]|]|] eqn:Hsh; try done. intros [= <-]. cbn [offered].
  assert (is_object body = true /\ get "provider" body = None /\ (upstream = endpoint \/
    is_Some responses /\ upstream = if supports_endpoint c RESPONSES_PATH then CreateModelResponse else ChatComplete)) as (H1 & H2 & H3); [|by split_and!; eauto].
  assert (forall p ep u, (native (rt_format c) ep = true -> value_wf p) ->
    (body ← shape c requested p ep; Some (pair u <$> body) : option (result TransformError (Endpoint * value))) = Some (Ok (upstream, body)) ->
    upstream = u /\ is_object body = true /\ get "provider" body = None) as Hshape.
  { intros p ep u Hn Hb. destruct (shape c requested p ep) as [[o|]|] eqn:Hso; cbn in Hb; try done. injection Hb as <- <-. split; [done|]. by eapply shape_ok. }
  assert (forall p, native (rt_format c) ChatComplete = true -> value_wf p) as Hchat by (intros p Hn; by destruct (rt_format c)).
  assert (bridge = bridge_of params endpoint candidates responses) as Hbr by done. unfold shape_candidate in Hsh. destruct bridge as [|r|chat].
  - apply Hshape in Hsh as (-> & ? & ?); [by eauto|]. intros Hn. by eapply Hwf.
  - assert (responses = Some r) as ->.
    { unfold bridge_of in Hbr. destruct (_ && _); [done|]. destruct responses; [by injection Hbr as <-|done]. }
    cbn in Hro. destruct (supports_endpoint c RESPONSES_PATH) eqn:Hsup.
    + destruct (transform_to_provider_request _ _ _ _) as [o|] eqn:Ht; [|done]. injection Hsh as <- <-.
      split; [by eapply forwarded_members|]. split; [by eapply no_provider|]. right. by split; [eexists|].
    + destruct (ri_bridge_error r); [done|]. apply Hshape in Hsh as (-> & ? & ?); [|apply Hchat]. split_and!; [done..|]. right. by split; [eexists|].
  - destruct (bool_decide (rt_format c = Openai)).
    + destruct chat as [chat|]; [|done]. apply Hshape in Hsh as (-> & ? & ?); [by eauto|apply Hchat].
    + apply Hshape in Hsh as (-> & ? & ?); [by eauto|]. intros Hn. by eapply Hwf.
Qed.

(** C37: Building the candidates never panics.  On success the list has, in the control
    plane's order, exactly the routes that serve the endpoint and can be given the request
    (System One requests go to dedicated routes only, and nothing else goes there), each
    with a body in which no routing metadata is left and the endpoint that body is for; it
    is empty only when no route serves the endpoint.  An error is returned only when every
    route that serves the endpoint refused, and is the first one's. *)
Theorem candidates_built_in_order params endpoint candidates requested responses :
  value_wf params -> from_option (fun r => value_wf (ri_original r)) True responses ->
  let entry := shaped_entry params endpoint requested (bridge_of params endpoint candidates responses) in
  let refused := refusal params endpoint requested (bridge_of params endpoint candidates responses) in
  let serving := List.filter (serves endpoint) candidates in
  exists r, build_candidates params endpoint candidates requested responses = Some r /\
  match r with
  | Ok shaped => shaped = omap entry serving /\ Forall (offered params endpoint candidates responses) shaped /\ (shaped = [] -> serving = [])
  | Err err => omap entry serving = [] /\ exists c rest, serving = c :: rest /\ refused c = Some err
  end.
Proof.
  intros Hwf Hro entry refused serving. unfold build_candidates. rewrite build_fold. cbn [mbind option_bind app]. fold serving entry refused.
  assert (Forall (offered params endpoint candidates responses) (omap entry serving)) as Hoff.
  { apply Forall_forall. intros e (c & Hc & He)%list_elem_of_omap. unfold serving in Hc. apply list_elem_of_In, filter_In in Hc as [Hc Hs].
    eapply entry_offered; [by intros| |by apply list_elem_of_In|done|exact He]. done. }
  eexists. split; [done|]. destruct (omap entry serving) as [|e es] eqn:Hes; [|by split_and!].
  destruct serving as [|c rest] eqn:Hserving; [by split_and!|]. cbn [omap list_omap] in *.
  destruct (refused c) as [err|] eqn:Hc; [by split; [|exists c, rest]|].
  apply refusal_or_entry in Hc as [e He]. unfold entry in Hes. by rewrite He in Hes.
Qed.
End Lists.

Section Witness.
#[local] Existing Instance sample_json.
Definition sample_route : RouteCandidate := mkRoute "near:glm" Openai (Some Vllm) (Some ThinkingType) None [] false.
Definition sample_dedicated : RouteCandidate := mkRoute "sys:one" Openai None None None [SYSTEMONE_PATH] false.
Definition sample_claude : RouteCandidate := mkRoute "anthropic:claude" Anthropic None None None [] false.
Definition sample_routes : list RouteCandidate := [sample_dedicated; sample_claude; sample_route].
Definition sample_switched : value :=
  JObject [("model", JString "glm"); ("provider", JObject []); ("messages", JArray [role_message "user" (JString "hi")]);
           ("chat_template_kwargs", JObject [("thinking", JBool false)]); ("reasoning_effort", JString "high")].
(** The switch is read as the wish it is, and written in the route's dialect. *)
Example sample_switch_encoded :
  candidate_params sample_switched ChatComplete sample_route None =
  Some (Ok (JObject [("model", JString "glm"); ("provider", JObject []); ("messages", JArray [role_message "user" (JString "hi")]);
    ("chat_template_kwargs", JObject [("thinking", JBool false)]); ("thinking", JObject [("type", JString "disabled")])])).
Proof. by vm_compute. Qed.
(** A managed route whose dialect is a template switch: the switch is not sent. *)
Definition sample_managed : RouteCandidate := mkRoute "og:glm" Openai None (Some ChatTemplateThinking) None [] false.
Lemma reasoning_says_what_is_in_effect_witness : exists body body',
  shape sample_route (Some (reasoning_of_effort Low)) sample_switched ChatComplete = Some (Ok body) /\
  dialect_switch ThinkingType body = Some true /\
  shape sample_managed (Some (mkReasoning None None (Some true))) sample_switched ChatComplete = Some (Ok body') /\
  dialect_switch ChatTemplateThinking body' = None.
Proof.
  destruct (reasoning_says_what_is_in_effect sample_route sample_switched (Some (reasoning_of_effort Low))) as (r & Hr & Hsays);
    [reflexivity|by apply value_wfb_spec; vm_compute|].
  destruct r as [body|err]; [|by vm_compute in Hr].
  destruct (reasoning_says_what_is_in_effect sample_managed sample_switched (Some (mkReasoning None None (Some true)))) as (r' & Hr' & Hsays');
    [reflexivity|by apply value_wfb_spec; vm_compute|].
  destruct r' as [body'|err]; [|by vm_compute in Hr']. exists body, body'.
  destruct (Hsays body eq_refl) as (b & Hb & Hs & _). vm_compute in Hb. injection Hb as <-.
  destruct (Hsays' body' eq_refl) as (b' & Hb' & Hs' & _). split; [exact Hr|split; [exact Hs|split; [exact Hr'|exact Hs']]].
Defined.
Lemma inferred_intent_never_refuses_witness : exists body, candidate_params sample_switched ChatComplete sample_route None = Some (Ok body).
Proof.
  destruct (inferred_intent_never_refuses sample_route sample_switched) as (body & Hb & _);
    [reflexivity|reflexivity|by apply value_wfb_spec; vm_compute|by vm_compute|].
  exists body. exact Hb.
Defined.
(** The dedicated route is left out, and the Anthropic one cannot express the wish. *)
Example sample_built : (fun r => (fun e => (e.1.1, e.2)) <$> default [] (result_ok r)) <$>
  build_candidates sample_switched ChatComplete sample_routes (Some (reasoning_of_effort Low)) None = Some [("near:glm", ChatComplete)].
Proof. by vm_compute. Qed.
Lemma candidates_built_in_order_witness : exists shaped,
  build_candidates sample_switched ChatComplete sample_routes (Some (reasoning_of_effort Low)) None = Some (Ok shaped) /\ shaped ≠ [] /\
  Forall (offered sample_switched ChatComplete sample_routes None) shaped.
Proof.
  destruct (candidates_built_in_order sample_switched ChatComplete sample_routes (Some (reasoning_of_effort Low)) None) as (r & Hr & Hm);
    [by apply value_wfb_spec; vm_compute|exact I|].
  destruct r as [shaped|err]; [|by vm_compute in Hr]. destruct Hm as (_ & Hoff & Hempty).
  exists shaped. split; [exact Hr|]. split; [|exact Hoff]. intros Hn. apply Hempty in Hn. by vm_compute in Hn.
Defined.
End Witness.
