(* ===== verification/Features.v ===== *)
(** * What the control plane learns of a request (src/middleware/request_features.rs)

    The control plane routes on features of a request that leave the enclave in place of
    its content: an estimate of its length, modalities, closed enums and a keyed hash that
    recognizes a conversation.  Counters are unbounded here; in the code they count
    characters of one body.  A [string] is the bytes of valid UTF-8.  The theory shows that
    the features have that closed vocabulary, that the hash follows a conversation as it
    grows and separates named from inferred sessions, and that the intent announced is the
    one the route is then asked for. *)
From S2P Require Import Metering.
From S2P Require Import Prelude Text Json External Sample SseProtocol UpstreamErrors Images Sanitize ToolMap Audio Conversion.
From S2P Require Import MessagesRequest Shaping Reasoning Candidates.

Definition OPENING_CAP : nat := 2 ^ 14.
Definition MAX_SESSION_ID : nat := 256.
Inductive ReasoningIntent : Type := IntentEnabled | IntentDisabled | IntentUnspecified.
Inductive ResponseFormatKind : Type := FormatText | FormatJsonObject | FormatJsonSchema.
Record RequestFeatures : Type := mkFeatures {
  rf_estimated_prompt_tokens : Z;
  rf_has_tools : bool;
  rf_input_modalities : list string;
  rf_reasoning : ReasoningIntent;
  rf_response_format : ResponseFormatKind;
  rf_prefix_hash : option string;
  rf_session_kind : option SessionKind;
}.

(** ** Characters *)
(** A byte that begins a character: anything but a UTF-8 continuation. *)
Definition is_lead (b : ascii) : bool := negb ((128 <=? byte b)%N && (byte b <? 192)%N).
Definition count (p : ascii -> bool) (text : string) : Z := Z.of_nat (length (List.filter p (as_bytes text))).
Definition ascii_chars : string -> Z := count byte_is_ascii.
Definition non_ascii_chars : string -> Z := count (fun b => is_lead b && negb (byte_is_ascii b)).
(** [char::len_utf16], counted at the character's first byte. *)
Definition utf16_units (b : ascii) : nat := if is_lead b then (if (240 <=? byte b)%N then 2 else 1) else 0.
Definition utf16_count (text : string) : nat := foldr (fun b n => utf16_units b + n) 0 (as_bytes text).
Fixpoint utf16_take (cap units : nat) (l : bytes) : bytes :=
  match l with
  | [] => []
  | b :: l' => if cap <? units + utf16_units b then [] else b :: utf16_take cap (units + utf16_units b) l'
  end.
Definition utf16_prefix (text : string) (cap : nat) : string := of_bytes (utf16_take cap 0 (as_bytes text)).

(** ** The walk *)
Record Acc : Type := mkAcc {
  ac_ascii_bytes : Z;
  ac_non_ascii_chars : Z;
  ac_extra_tokens : Z;
  ac_modalities : gset string;
}.
Definition acc_default : Acc := mkAcc 0 0 0 ∅.
Definition estimate (text : string) (a : Acc) : Acc :=
  mkAcc (ac_ascii_bytes a + ascii_chars text) (ac_non_ascii_chars a + non_ascii_chars text) (ac_extra_tokens a) (ac_modalities a).
Definition add_modality (modality : string) (a : Acc) : Acc :=
  mkAcc (ac_ascii_bytes a) (ac_non_ascii_chars a) (ac_extra_tokens a) ({[modality]} ∪ ac_modalities a).
Definition add_tokens (n : Z) (a : Acc) : Acc := mkAcc (ac_ascii_bytes a) (ac_non_ascii_chars a) (ac_extra_tokens a + n) (ac_modalities a).
Definition acc_text (text : string) (a : Acc) : Acc := estimate text (if non_empty text then add_modality "text" a else a).
Definition media (modality : string) (floor_tokens : Z) (a : Acc) : Acc := add_tokens floor_tokens (add_modality modality a).
Definition estimated_tokens (a : Acc) : Z := (ac_ascii_bytes a / 5 + ac_non_ascii_chars a / 3 + ac_extra_tokens a)%Z.
Definition text_tokens (text : string) : Z := (ascii_chars text / 5 + non_ascii_chars text / 3)%Z.

Section Features.
Context {SJ : SerdeJson} {SH : Sha} {HX : HexCodec}.

Definition openai_part (a : Acc) (part : value) : Acc :=
  match get_str "type" part with
  | Some t =>
      if bool_decide (t = "text") then acc_text (str_or_empty (get "text" part)) a
      else if bool_decide (t = "image_url") then media "image" 85 a
      else if bool_decide (t = "input_audio") then media "audio" 0 a
      else if bool_decide (t = "video_url") then media "video" 0 a
      else if bool_decide (t = "file") then media "file" 0 a
      else a
  | None => a
  end.
Definition openai_message (a : Acc) (msg : value) : Acc :=
  let a := match get "content" msg with
           | Some (JString text) => acc_text text a
           | Some (JArray parts) => foldl openai_part a parts
           | _ => a
           end in
  foldl (fun a call => match get "function" call ≫= get_str "arguments" with Some arguments => estimate arguments a | None => a end)
    a (message_tool_calls msg).
Definition walk_openai_messages (params : value) (a : Acc) : Acc := foldl openai_message a (request_messages params).

(** The fuel is the depth of the block, which bounds the nesting of tool results. *)
Fixpoint content_block (fuel : nat) (a : Acc) (block : value) : Acc :=
  match fuel with
  | 0 => a
  | S fuel =>
      match get_str "type" block with
      | Some t =>
          if bool_decide (t = "text") then acc_text (str_or_empty (get "text" block)) a
          else if bool_decide (t = "image") then media "image" 85 a
          else if bool_decide (t = "document") then media "file" 0 a
          else if bool_decide (t = "tool_use") then from_option (fun input => estimate (json_str input) a) a (get "input" block)
          else if bool_decide (t = "tool_result") then
            match get "content" block with
            | Some (JString text) => acc_text text a
            | Some (JArray blocks) => foldl (content_block fuel) a blocks
            | _ => a
            end
          else a
      | None => a
      end
  end.
Definition anthropic_content_block (a : Acc) (block : value) : Acc := content_block (json_depth block) a block.
Definition walk_anthropic (params : value) (a : Acc) : Acc :=
  let a := match get "system" params with
           | Some (JString text) => acc_text text a
           | Some (JArray blocks) => foldl (fun a block => from_option (fun text => acc_text text a) a (get_str "text" block)) a blocks
           | _ => a
           end in
  foldl (fun a msg => match get "content" msg with
                      | Some (JString text) => acc_text text a
                      | Some (JArray blocks) => foldl anthropic_content_block a blocks
                      | _ => a
                      end) a (request_messages params).

Definition is_number (v : value) : bool := match v with JNumber _ => true | _ => false end.
Definition batch_item (s : Z * Acc) (item : value) : Z * Acc :=
  let '(largest, a) := s in
  match item with
  | JString text => (Z.max largest (text_tokens text), add_modality "text" a)
  | JArray ids => (Z.max largest (Z.of_nat (length (List.filter is_number ids))), a)
  | _ => (Z.max largest 0, a)
  end.
Definition walk_prompt (params : value) (a : Acc) : Acc :=
  match get "prompt" params with
  | Some (JString prompt) => acc_text prompt a
  | Some (JArray items) =>
      if negb (bool_decide (items = [])) && forallb is_number items then add_tokens (Z.of_nat (length items)) a
      else let '(largest, a) := foldl batch_item (0%Z, a) items in add_tokens largest a
  | _ => a
  end.

(** ** Sessions *)
Definition BLOCK : nat := 64.
Definition xor_with (n : N) (b : ascii) : ascii := u8 (N.lxor (byte b) n).
Definition hmac_sha256 (key message : bytes) : bytes :=
  let padded := let k := if BLOCK <? length key then sha256 key else key in k ++ replicate (BLOCK - length k) (u8 0) in
  let inner := sha256 ((xor_with 54 <$> padded) ++ message) in
  sha256 ((xor_with 92 <$> padded) ++ inner).
Definition explicit_session (params : value) : option string :=
  filter_some (fun id => (1 <=? utf16_count id) && (utf16_count id <=? MAX_SESSION_ID)) (get_str "prompt_cache_key" params).
Definition pick (msg : value) : value := JArray [default JNull (get "role" msg); default JNull (get "content" msg)].
Definition is_system (msg : value) : bool := bool_decide (get_str "role" msg = Some "system") || bool_decide (get_str "role" msg = Some "developer").
Definition opening_of (system first : option value) : option value :=
  match system, first with
  | None, None => None
  | _, _ => Some (JArray [default JNull system; default JNull first])
  end.
Definition conversation_opening (endpoint : Endpoint) (params : value) : option value :=
  match endpoint with
  | ChatComplete =>
      messages ← get "messages" params ≫= as_array;
      opening_of (pick <$> List.find is_system messages) (pick <$> List.find (fun m => negb (is_system m)) messages)
  | Messages =>
      opening_of ((fun system => JArray [JString "system"; system]) <$> get "system" params)
        (pick <$> (messages ← get "messages" params ≫= as_array; head messages))
  | Complete => (fun prompt => JArray [prompt]) <$> get "prompt" params
  | _ => None
  end.
Definition nul : string := of_bytes [u8 0].
Definition pinned_order (params : value) : bool :=
  match get "provider" params ≫= get "order" with Some (JArray (_ :: _)) => true | _ => false end.
(** What is hashed, and how it was obtained. *)
Definition session_material (endpoint : Endpoint) (params : value) (explicit : option string) : option (string * SessionKind) :=
  match explicit with
  | Some id => Some ("explicit" +:+ nul +:+ id, Explicit)
  | None =>
      opening ← conversation_opening endpoint params;
      Some ("opening" +:+ nul +:+ utf16_prefix (json_str opening) OPENING_CAP, Inferred)
  end.
Definition session_hash (key : bytes) (material : string) : string :=
  of_bytes (take 32 (as_bytes (hex_encode (hmac_sha256 key (as_bytes material))))).
Definition session_key (endpoint : Endpoint) (params : value) (explicit : option string) (key : bytes) : option (string * SessionKind) :=
  if pinned_order params then None
  else '(material, kind) ← session_material endpoint params explicit; Some (session_hash key material, kind).

(** ** Intent *)
Definition reasoning_intent (endpoint : Endpoint) (params : value) (requirements : option ReasoningConfig) : ReasoningIntent :=
  match requirements with
  | Some config =>
      match rc_enabled config, rc_effort config, rc_max_tokens config with
      | Some false, _, _ => IntentDisabled
      | Some true, _, _ => IntentEnabled
      | None, Some effort, _ => if bool_decide (effort = NoEffort) then IntentDisabled else IntentEnabled
      | None, None, Some _ => IntentEnabled
      | None, None, None => IntentUnspecified
      end
  | None =>
      let switches := match endpoint, get "chat_template_kwargs" params with
                      | ChatComplete, Some (JObject kwargs) => omap (fun key => obj_get key kwargs ≫= as_bool) THINKING_SWITCHES
                      | _, _ => []
                      end in
      let thinking := match endpoint with Messages => get "thinking" params ≫= get_str "type" | _ => None end in
      if existsb id switches then IntentEnabled
      else if negb (bool_decide (switches = [])) then IntentDisabled
      else if bool_decide (thinking = Some "enabled") then IntentEnabled
      else if bool_decide (thinking = Some "disabled") then IntentDisabled
      else IntentUnspecified
  end.

(** ** Extraction *)
Definition non_empty_list (params : value) (key : string) : bool := match get key params with Some (JArray (_ :: _)) => true | _ => false end.
Definition count_tools (params : value) (a : Acc) : Acc :=
  foldl (fun a key => if non_empty_list params key then from_option (fun tools => estimate (json_str tools) a) a (get key params) else a)
    a ["tools"; "functions"].
Definition read_response_format (params : value) (a : Acc) : ResponseFormatKind * Acc :=
  let format := get "response_format" params in
  let kind := format ≫= get_str "type" in
  if bool_decide (kind = Some "json_schema") then
    (FormatJsonSchema, from_option (fun schema => estimate (json_str schema) a) a (format ≫= get "json_schema"))
  else if bool_decide (kind = Some "json_object") then (FormatJsonObject, a)
  else (FormatText, a).
Definition walk (endpoint : Endpoint) (params : value) : option Acc :=
  match endpoint with
  | ChatComplete => Some (walk_openai_messages params acc_default)
  | Messages => Some (walk_anthropic params acc_default)
  | Complete => Some (walk_prompt params acc_default)
  | _ => None
  end.
Definition extract (endpoint : Endpoint) (params : value) (requirements : option ReasoningConfig) (prefix_hash_key : bytes) : option RequestFeatures :=
  a ← walk endpoint params;
  let has_tools := non_empty_list params "tools" || non_empty_list params "functions" in
  let a := if has_tools then count_tools params a else a in
  let '(response_format, a) := read_response_format params a in
  let session := session_key endpoint params (explicit_session params) prefix_hash_key in
  Some (mkFeatures (estimated_tokens a) has_tools (merge_sort String.le (elements (ac_modalities a)))
          (reasoning_intent endpoint params requirements) response_format (fst <$> session) (snd <$> session)).
End Features.

(** ** Fuel *)
Section Theory.
Context {SJ : SerdeJson} {SH : Sha} {HX : HexCodec}.

Lemma foldl_ext_in {A B} (f g : A -> B -> A) a l : (forall a b, b ∈ l -> f a b = g a b) -> foldl f a l = foldl g a l.
Proof.
  revert a. induction l as [|b l IH]; intros a Hfg; [done|]. cbn. rewrite Hfg by left. apply IH. intros a' b' Hb. apply Hfg. by right.
Qed.
Lemma depth_array l v : v ∈ l -> S (json_depth v) <= json_depth (JArray l).
Proof.
  cbn [json_depth]. induction l as [|w l IH]; [by intros ?%elem_of_nil|]. cbn. intros [->|Hv]%elem_of_cons; [lia|]. specialize (IH Hv). lia.
Qed.
Lemma depth_member k v w : get k v = Some w -> S (json_depth w) <= json_depth v.
Proof.
  destruct v as [| | | | |m]; try done. cbn [get]. intros Hg%obj_get_elem. destruct (proj1 (json_depth_object m (json_depth (JObject m))) (le_n _)) as [_ HF].
  rewrite Forall_forall in HF. exact (HF _ Hg).
Qed.
Lemma content_block_fuel fuel1 fuel2 a block : json_depth block <= fuel1 -> json_depth block <= fuel2 ->
  content_block fuel1 a block = content_block fuel2 a block.
Proof.
  revert fuel2 a block. induction fuel1 as [|fuel1 IH]; intros [|fuel2] a block H1 H2; [done|..].
  - by destruct block; cbn in H1; [..|lia].
  - by destruct block; cbn in H2; [..|lia].
  - cbn [content_block]. destruct (get_str "type" block); [|done]. repeat (case_bool_decide; [done|]). case_bool_decide; [|done].
    destruct (get "content" block) as [[| | | |blocks|]|] eqn:Hc; try done. apply foldl_ext_in. intros a' b Hb.
    pose proof (depth_array blocks b Hb). pose proof (depth_member _ _ _ Hc). apply IH; lia.
Qed.
(** The block and its results, whatever the nesting: the recursion of the source. *)
Lemma anthropic_content_block_unfold a block : anthropic_content_block a block =
  match get_str "type" block with
  | Some t =>
      if bool_decide (t = "text") then acc_text (str_or_empty (get "text" block)) a
      else if bool_decide (t = "image") then media "image" 85 a
      else if bool_decide (t = "document") then media "file" 0 a
      else if bool_decide (t = "tool_use") then from_option (fun input => estimate (json_str input) a) a (get "input" block)
      else if bool_decide (t = "tool_result") then
        match get "content" block with
        | Some (JString text) => acc_text text a
        | Some (JArray blocks) => foldl anthropic_content_block a blocks
        | _ => a
        end
      else a
  | None => a
  end.
Proof.
  unfold anthropic_content_block. rewrite (content_block_fuel (json_depth block) (S (json_depth block))) by lia. cbn [content_block].
  destruct (get_str "type" block); [|done]. repeat (case_bool_decide; [done|]). case_bool_decide; [|done].
  destruct (get "content" block) as [[| | | |blocks|]|] eqn:Hc; try done. apply foldl_ext_in. intros a' b Hb.
  pose proof (depth_array blocks b Hb). pose proof (depth_member _ _ _ Hc). apply content_block_fuel; lia.
Qed.

(** ** Closed vocabulary *)
Definition MODALITIES : list string := ["audio"; "file"; "image"; "text"; "video"].
Definition closed (a : Acc) : Prop :=
  (0 <= ac_ascii_bytes a)%Z /\ (0 <= ac_non_ascii_chars a)%Z /\ (0 <= ac_extra_tokens a)%Z /\ forall m, m ∈ ac_modalities a -> m ∈ MODALITIES.
Lemma closed_estimate text a : closed a -> closed (estimate text a).
Proof. unfold closed, estimate, ascii_chars, non_ascii_chars, count. cbn. intros (? & ? & ? & ?). split_and!; try lia. done. Qed.
Lemma closed_tokens n a : (0 <= n)%Z -> closed a -> closed (add_tokens n a).
Proof. unfold closed, add_tokens. cbn. intros ? (? & ? & ? & ?). split_and!; try lia. done. Qed.
Lemma closed_modality m a : m ∈ MODALITIES -> closed a -> closed (add_modality m a).
Proof. unfold closed, add_modality. cbn. intros Hm (? & ? & ? & Ha). split_and!; try lia. set_solver. Qed.
Lemma closed_text text a : closed a -> closed (acc_text text a).
Proof. intros Ha. unfold acc_text. apply closed_estimate. case_match; [|done]. apply closed_modality; [set_solver|done]. Qed.
Lemma closed_media m n a : m ∈ MODALITIES -> (0 <= n)%Z -> closed a -> closed (media m n a).
Proof. intros. by apply closed_tokens, closed_modality. Qed.
Lemma closed_foldl {B} (f : Acc -> B -> Acc) l a : (forall a b, b ∈ l -> closed a -> closed (f a b)) -> closed a -> closed (foldl f a l).
Proof.
  revert a. induction l as [|b l IH]; intros a Hf Ha; [done|]. cbn. apply IH; [|by apply Hf; [left|]]. intros a' b' Hb. apply Hf. by right.
Qed.

Hint Resolve closed_estimate closed_text : closed.
Hint Extern 1 (closed (media _ _ _)) => apply closed_media; [unfold MODALITIES; set_solver|lia|] : closed.
Lemma openai_part_closed a part : closed a -> closed (openai_part a part).
Proof. intros Ha. unfold openai_part. repeat case_match; auto with closed. Qed.
Lemma openai_message_closed a msg : closed a -> closed (openai_message a msg).
Proof.
  intros Ha. unfold openai_message. apply closed_foldl; [intros ? ? _ ?; case_match; auto with closed|].
  repeat case_match; auto with closed. apply closed_foldl; [|done]. intros. by apply openai_part_closed.
Qed.
Lemma content_block_closed fuel a block : closed a -> closed (content_block fuel a block).
Proof.
  revert a block. induction fuel as [|fuel IH]; intros a block Ha; [done|]. cbn [content_block].
  destruct (get_str "type" block); [|done]. do 3 (case_bool_decide; [auto with closed|]).
  case_bool_decide; [destruct (get "input" block); cbn; auto with closed|]. case_bool_decide; [|done]. destruct (get "content" block) as [[| | | |blocks|]|]; auto with closed. apply closed_foldl; auto.
Qed.
Lemma walk_anthropic_closed params a : closed a -> closed (walk_anthropic params a).
Proof.
  intros Ha. unfold walk_anthropic. apply closed_foldl.
  - intros a' msg _ Ha'. destruct (get "content" msg) as [[| | | |blocks|]|]; auto with closed. apply closed_foldl; [|done]. intros. by apply content_block_closed.
  - destruct (get "system" params) as [[| | | |blocks|]|]; auto with closed. apply closed_foldl; [|done].
    intros a' b _ ?. destruct (get_str "text" b); cbn; auto with closed.
Qed.
Lemma batch_closed items s : (0 <= s.1)%Z -> closed s.2 -> (0 <= (foldl batch_item s items).1)%Z /\ closed (foldl batch_item s items).2.
Proof.
  revert s. induction items as [|item items IH]; intros [largest a] Hl Ha; [done|]. cbn [foldl]. cbn in Hl, Ha. apply IH;
    destruct item; cbn; try lia; try done. apply closed_modality; [unfold MODALITIES; set_solver|done].
Qed.
Lemma walk_closed endpoint params a : walk endpoint params = Some a -> closed a.
Proof.
  assert (closed acc_default) as H0 by (unfold closed; cbn; split_and!; [lia..|set_solver]).
  destruct endpoint; try done; intros [= <-].
  - apply closed_foldl; [|done]. intros. by apply openai_message_closed.
  - unfold walk_prompt. destruct (get "prompt" params) as [[| | | |items|]|]; auto with closed. case_match; [apply closed_tokens; [lia|done]|].
    pose proof (batch_closed items (0%Z, acc_default) ltac:(cbn; lia) H0) as [Hl Ha]. destruct (foldl batch_item _ _) as [largest a]. by apply closed_tokens.
  - by apply walk_anthropic_closed.
Qed.
Lemma count_tools_closed params a : closed a -> closed (count_tools params a).
Proof. intros Ha. apply closed_foldl; [|done]. intros a' key _ ?. case_match; [|done]. destruct (get key params); cbn; auto with closed. Qed.
Lemma read_response_format_closed params a : closed a -> closed (read_response_format params a).2.
Proof. intros Ha. unfold read_response_format. cbv zeta. case_bool_decide; [|by case_bool_decide]. cbn.
  match goal with |- closed (from_option _ _ ?schema) => destruct schema end; cbn; auto with closed. Qed.
Lemma session_hash_shape key material : str_len (session_hash key material) = 32 /\ all_bytes is_lower_hex (session_hash key material) = true.
Proof.
  unfold session_hash, str_len. rewrite as_bytes_of_bytes. set (digest := hmac_sha256 key (as_bytes material)).
  assert (length digest = 32) as Hd by apply sha256_length. pose proof (hex_encode_length digest) as Hl. unfold str_len in Hl. split; [rewrite length_take; lia|].
  pose proof (hex_encode_lower digest) as Hh. unfold all_bytes in *. rewrite as_bytes_of_bytes. rewrite forallb_forall in *.
  intros b Hb. apply Hh. apply list_elem_of_In. apply list_elem_of_In in Hb. by eapply elem_of_take in Hb as (n & Hn & _); apply list_elem_of_lookup_2 in Hn.
Qed.

(** The features of a request that reach the control plane hold nothing of its
    content but a closed vocabulary: a token estimate that is never negative, modalities
    among five names, listed once and in order, and, unless the caller pins its own provider
    order, a session hash of 32 lowercase hex digits together with how it was obtained. *)
Theorem features_are_closed endpoint params requirements key f :
  extract endpoint params requirements key = Some f ->
  (0 <= rf_estimated_prompt_tokens f)%Z /\
  (forall m, m ∈ rf_input_modalities f -> m ∈ MODALITIES) /\ NoDup (rf_input_modalities f) /\ Sorted String.le (rf_input_modalities f) /\
  (forall h, rf_prefix_hash f = Some h -> str_len h = 32 /\ all_bytes is_lower_hex h = true) /\
  (is_Some (rf_prefix_hash f) <-> is_Some (rf_session_kind f)) /\ (pinned_order params = true -> rf_prefix_hash f = None).
Proof.
  unfold extract. destruct (walk endpoint params) as [a|] eqn:Hw; [|done]. cbn [mbind option_bind]. apply walk_closed in Hw.
  set (has_tools := _ || _). set (a1 := if has_tools then _ else _). assert (closed a1) as Ha1 by (unfold a1; destruct has_tools; [by apply count_tools_closed|done]).
  pose proof (read_response_format_closed params a1 Ha1) as Ha2. destruct (read_response_format params a1) as [format a2]. intros [= <-]. cbn in *.
  destruct Ha2 as (H1 & H2 & H3 & H4).
  split; [unfold estimated_tokens; pose proof (Z.div_pos (ac_ascii_bytes a2) 5); pose proof (Z.div_pos (ac_non_ascii_chars a2) 3); lia|].
  split; [intros m; rewrite merge_sort_Permutation; intros Hm%elem_of_elements; by apply H4|].
  split; [rewrite merge_sort_Permutation; apply NoDup_elements|]. split; [apply Sorted_merge_sort; apply _|].
  unfold session_key. destruct (pinned_order params); [split_and!; [done|split; by intros []|done]|].
  destruct (session_material endpoint params _) as [[material kind]|]; cbn; [|split_and!; [done|split; by intros []|done]].
  split; [intros h [= <-]; apply session_hash_shape|]. by split; [split; eexists|].
Qed.

(** ** Sessions *)
(** A later turn of the same conversation: turns were appended to one that had begun. *)
Record later_turn (endpoint : Endpoint) (params params' : value) (turns more : list value) : Prop := {
  lt_provider : get "provider" params' = get "provider" params;
  lt_cache_key : get "prompt_cache_key" params' = get "prompt_cache_key" params;
  lt_system : get "system" params' = get "system" params;
  lt_turns : get "messages" params = Some (JArray turns);
  lt_more : get "messages" params' = Some (JArray (turns ++ more));
  lt_begun : match endpoint with
             | ChatComplete => existsb (fun m => negb (is_system m)) turns && (existsb is_system turns || negb (existsb is_system more))
             | Messages => negb (bool_decide (turns = []))
             | _ => false
             end = true;
}.
Lemma find_exists {A} (p : A -> bool) l : existsb p l = true -> is_Some (List.find p l).
Proof. induction l as [|a l IH]; [done|]. cbn. destruct (p a); [by eexists|done]. Qed.
Lemma find_none_exists {A} (p : A -> bool) l : existsb p l = false -> List.find p l = None.
Proof. induction l as [|a l IH]; [done|]. cbn. by destruct (p a). Qed.
Lemma opening_stable endpoint params params' turns more : later_turn endpoint params params' turns more ->
  conversation_opening endpoint params' = conversation_opening endpoint params.
Proof.
  intros [_ _ Hs H1 H2 Hb]. destruct endpoint; try done; cbn [conversation_opening]; rewrite H1, H2; cbn [mbind option_bind as_array].
  - apply andb_prop in Hb as [Hn Hb]. destruct (find_exists _ _ Hn) as [first Hf]. rewrite !find_app, Hf. f_equal. f_equal.
    apply orb_prop in Hb as [Hb|Hb%negb_true_iff].
    + by destruct (find_exists _ _ Hb) as [m ->].
    + rewrite (find_none_exists _ _ Hb). by destruct (List.find is_system turns).
  - rewrite Hs. f_equal. by destruct turns.
Qed.
Lemma same_key_same_material e1 p1 e2 p2 key h k1 k2 :
  session_key e1 p1 (explicit_session p1) key = Some (h, k1) -> session_key e2 p2 (explicit_session p2) key = Some (h, k2) ->
  session_material e1 p1 (explicit_session p1) = session_material e2 p2 (explicit_session p2) \/ exists m1 m2, collide (session_hash key) m1 m2.
Proof.
  unfold session_key. destruct (pinned_order p1); [done|]. destruct (pinned_order p2); [done|].
  destruct (session_material e1 p1 _) as [[m1 k1']|] eqn:H1; [|done]. destruct (session_material e2 p2 _) as [[m2 k2']|] eqn:H2; [|done].
  cbn. intros [= <- <-] [= Heq <-]. destruct (collide_or_eq (session_hash key) m1 m2 (eq_sym Heq)) as [->|Hc]; [left|right; by exists m1, m2].
  unfold session_material in H1, H2. destruct (explicit_session p1) as [id1|], (explicit_session p2) as [id2|].
  - by injection H1 as <- <-; injection H2 as _ <-.
  - destruct (conversation_opening e2 p2); [|done]. injection H1 as <- <-. discriminate H2.
  - destruct (conversation_opening e1 p1); [|done]. injection H1 as <- <-. discriminate H2.
  - destruct (conversation_opening e1 p1); [|done]. destruct (conversation_opening e2 p2); [|done]. by injection H1 as <- <-; injection H2 as _ <-.
Qed.

(** The session key follows a conversation and nothing else: appending turns to one
    that has begun leaves the key as it is, for chat and for Messages; and two requests have
    the same key only when they name the same session, or neither names one and they open
    alike, unless two different strings have the same truncated keyed hash. *)
Theorem session_follows_conversation endpoint params params' turns more key :
  later_turn endpoint params params' turns more ->
  session_key endpoint params' (explicit_session params') key = session_key endpoint params (explicit_session params) key /\
  forall endpoint2 params2 h kind kind2,
    session_key endpoint params (explicit_session params) key = Some (h, kind) ->
    session_key endpoint2 params2 (explicit_session params2) key = Some (h, kind2) ->
    session_material endpoint params (explicit_session params) = session_material endpoint2 params2 (explicit_session params2) \/
    exists m1 m2, collide (session_hash key) m1 m2.
Proof.
  intros Hl. split; [|intros endpoint2 params2 h kind kind2; apply same_key_same_material].
  assert (explicit_session params' = explicit_session params) as -> by (unfold explicit_session, get_str; by rewrite (lt_cache_key _ _ _ _ _ Hl)).
  unfold session_key, pinned_order, session_material. by rewrite (lt_provider _ _ _ _ _ Hl), (opening_stable _ _ _ _ _ Hl).
Qed.

(** ** Announced intent *)
Definition intent_of (b : option bool) : ReasoningIntent :=
  match b with Some true => IntentEnabled | Some false => IntentDisabled | None => IntentUnspecified end.
Lemma intent_of_config config endpoint params : reasoning_intent endpoint params (Some config) = intent_of (reasoning_enabled config).
Proof. destruct config as [[e|] [n|] [[]|]]; try done; cbn; by case_bool_decide. Qed.

(** The control plane is told the intent the route is asked for.  For an OpenAI-format
    route that names its dialect and has no policy of its own, the intent among a chat
    request's features is the effective reasoning of the shaped request; where nothing is in
    effect no intent to disable was announced either. *)
Theorem announced_intent_is_encoded candidate params requested :
  rt_format candidate = Openai -> is_Some (rt_reasoning_format candidate) -> rt_reasoning_policy candidate = None ->
  match effective_reasoning candidate params requested with
  | Some config => reasoning_intent ChatComplete params requested = intent_of (reasoning_enabled config)
  | None => reasoning_intent ChatComplete params requested ≠ IntentDisabled
  end.
Proof.
  intros Hf [fmt Hfmt] Hp. unfold effective_reasoning.
  assert (forall r, resolve_effective_reasoning candidate params r = r) as ->.
  { intros r. apply resolve_without_policy. unfold resolve_effective_reasoning. rewrite Hp. by repeat case_match. }
  destruct requested as [config|]; cbn [or_else]; [apply intent_of_config|].
  unfold chat_template_reasoning_intent. rewrite bool_decide_false by (by intros []). rewrite Hf, Hfmt, bool_decide_true by done. cbn [negb orb].
  unfold reasoning_intent. destruct (get "chat_template_kwargs" params) as [[| | | | |kwargs]|]; try done.
  set (switches := omap _ _). destruct (existsb id switches) eqn:Hon; cbn [orb]; [done|]. case_bool_decide as Hnone; [done|]. done.
Qed.
End Theory.

Section Witness.
#[local] Existing Instances sample_json sample_sha sample_hex.
Definition sample_key : bytes := replicate 32 (u8 7).
Definition sample_turn : list value := [role_message "system" (JString "Be brief."); role_message "user" (JString "What is new?")].
Definition sample_more : list value := [role_message "assistant" (JString "Nothing."); role_message "user" (JString "Sure?")].
Definition sample_first : value := JObject [("model", JString "glm"); ("messages", JArray sample_turn)].
Definition sample_second : value :=
  JObject [("model", JString "glm"); ("messages", JArray (sample_turn ++ sample_more)); ("tools", JArray [JObject []])].
Definition sample_features : RequestFeatures :=
  default (mkFeatures 0 false [] IntentEnabled FormatText None None) (extract ChatComplete sample_first None sample_key).
Example sample_features_read : rf_estimated_prompt_tokens sample_features = 4%Z /\ rf_input_modalities sample_features = ["text"].
Proof. by vm_compute. Qed.
Lemma features_are_closed_witness : forall h, rf_prefix_hash sample_features = Some h -> str_len h = 32.
Proof.
  destruct (features_are_closed ChatComplete sample_first None sample_key sample_features) as (_ & _ & _ & _ & Hh & _); [by vm_compute|].
  intros h Hs. exact (proj1 (Hh h Hs)).
Defined.
Lemma session_follows_conversation_witness :
  session_key ChatComplete sample_second (explicit_session sample_second) sample_key =
  session_key ChatComplete sample_first (explicit_session sample_first) sample_key.
Proof.
  apply (session_follows_conversation ChatComplete sample_first sample_second sample_turn sample_more sample_key).
  constructor; by vm_compute.
Defined.
Lemma announced_intent_is_encoded_witness : reasoning_intent ChatComplete sample_switched None = IntentDisabled.
Proof.
  exact (announced_intent_is_encoded sample_route sample_switched None eq_refl (mk_is_Some _ _ eq_refl) eq_refl).
Defined.
End Witness.
