(* ===== verification/Completion.v ===== *)
(** * The completion handler (src/middleware/completion.rs)

    What happens to a request around the failover walk: it is normalized, the control
    plane is asked, one body per candidate is shaped, and the walk's result is turned into
    the client's answer and into usage reports.  The [Meter] is armed while the walk runs,
    so that a handler dropped in the middle still reports.  The theory shows that every
    request the control plane admitted is reported once, in rows the control plane cannot
    mistake for one another, and what a buffered answer shows and bills. *)
From Stdlib Require Import SpecFloat.
From S2P Require Import Metered.
From S2P Require Import Receipt Upstream E2ee Admission Forward Failover Errors.
From S2P Require Import Prelude Text Json External Sample SseProtocol UpstreamErrors Images Sanitize ToolMap Audio Conversion Pricing Metering.
From S2P Require Import MessagesRequest ResponsesRequest Shaping Reasoning Candidates Features.

(** ** Normalization *)
Record Prepared : Type := mkPrepared {
  pp_params : value;
  pp_endpoint : Endpoint;
  pp_requirements : option ReasoningConfig;
  pp_exclude_reasoning : bool;
  pp_responses : option value;
  pp_bridge_error : option TransformError;
}.
Section Prepare.
Context {SJ : SerdeJson} {SH : Sha} {HX : HexCodec} {B64 : Base64} {RS : ReasoningSerde}.
Definition normalized (params : value) : result TransformError (value * option ReasoningConfig * bool) :=
  match normalize_chat_request params with Ok n => Ok n | Err message => Err (invalid_request message) end.
Definition prepare (endpoint : Endpoint) (params : value) : result TransformError Prepared :=
  match endpoint with
  | ChatComplete =>
      '(params, requirements, exclude) ← normalized params;
      Ok (mkPrepared params endpoint requirements exclude None None)
  | CreateModelResponse =>
      _ ← validate_responses_request params;
      Ok match (chat ← responses_to_chat_params params; normalized chat) with
         | Ok (chat, requirements, exclude) => mkPrepared chat ChatComplete requirements exclude (Some params) None
         | Err err => mkPrepared params endpoint None false (Some params) (Some err)
         end
  | Messages =>
      let '(requirements, visible) := messages_reasoning params in
      Ok (mkPrepared params endpoint requirements (negb visible) None None)
  | _ => Ok (mkPrepared params endpoint None false None None)
  end.
(** The candidates for the walk, for the routes the control plane named. *)
Definition responses_input_of (p : Prepared) : option ResponsesCandidateInput :=
  (fun original => mkResponsesInput original (pp_bridge_error p)) <$> pp_responses p.
Definition shaped_candidates (p : Prepared) (candidates : list RouteCandidate) : option (result TransformError (list Shaped)) :=
  build_candidates (pp_params p) (pp_endpoint p) candidates (pp_requirements p) (responses_input_of p).
Definition forward_candidates (shaped : list Shaped) : list ForwardCandidate :=
  (fun '(route_id, body, upstream) => mkCandidate route_id (to_vec body) (path upstream)) <$> shaped.
End Prepare.

(** ** Routes *)
#[global] Instance Engine_eq_dec : EqDecision Engine.
Proof. solve_decision. Defined.
#[global] Instance ReasoningFormat_eq_dec : EqDecision ReasoningFormat.
Proof. solve_decision. Defined.
#[global] Instance ReasoningPolicy_eq_dec : EqDecision ReasoningPolicy.
Proof. solve_decision. Defined.
#[global] Instance RouteCandidate_eq_dec : EqDecision RouteCandidate.
Proof. solve_decision. Defined.
Definition drop_conflicting_route_twins (candidates : list RouteCandidate) : list RouteCandidate :=
  foldl (fun kept candidate =>
    match List.find (fun k => bool_decide (rt_route_id k = rt_route_id candidate)) kept with
    | Some first => if bool_decide (first = candidate) then kept ++ [candidate] else kept
    | None => kept ++ [candidate]
    end) [] candidates.
Record SelectedRoute : Type := mkSelected {
  sl_format : ProviderFormat;
  sl_endpoint : Endpoint;
  sl_responses_passthrough : bool;
}.
Definition selected_route (candidates : list RouteCandidate) (route_id path : string) (responses : bool) (client_endpoint : Endpoint) : SelectedRoute :=
  let format := from_option rt_format Openai
                  (or_else (List.find (fun candidate => bool_decide (rt_route_id candidate = route_id)) candidates) (head candidates)) in
  let passthrough := responses && bool_decide (path = RESPONSES_PATH) in
  mkSelected format (if responses && negb passthrough then ChatComplete else client_endpoint) passthrough.

(** ** Statuses *)
Definition upstream_class (c : UpstreamErrors.ErrorClass) : ErrorClass :=
  match c with
  | UpstreamErrors.UpstreamHttpError => UpstreamHttpError
  | UpstreamErrors.UpstreamQuotaExhausted => UpstreamQuotaExhausted
  | UpstreamErrors.UpstreamCapacity => UpstreamCapacity
  | UpstreamErrors.UpstreamImageFetchFailed => UpstreamImageFetchFailed
  end.
Definition is_2xx (status : Z) : bool := (200 <=? status)%Z && (status <? 300)%Z.
Definition reported_status {SJ : SerdeJson} (mapped upstream_status : Z) (upstream_body : bytes) : Z :=
  let recorded := recorded_attempt_status upstream_status upstream_body in
  if negb (bool_decide (recorded = upstream_status)) then recorded
  else if (400 <=? mapped)%Z && (mapped <? 500)%Z then mapped else upstream_status.
Definition forward_error_source (err : ServiceError) : ErrorSource :=
  match err with
  | UpstreamVerification (NoEligibleAttestedRoute _ | NoEligibleAttestedSession _) | EarlyResponseKeysetExpired => SourceGateway
  | _ => SourceUpstream
  end.
Definition forward_error_status (err : ServiceError) : Z :=
  match err with
  | AdmissionInvariant _ => 500
  | EarlyResponseKeysetExpired => 503
  | ServiceE2ee _ => 400
  | UpstreamVerification (NoEligibleAttestedSession _) => 412
  | UpstreamVerification _ => 503
  | ServiceUpstream (Routing _) => 404
  | ServiceUpstream (Errors.InvalidRequest _) => 400
  | ServiceUpstream (Timeout _) => 504
  | ServiceInvalidNonce _ | DownstreamTlsDomainMissing | DownstreamTlsDomainUnknown _ => 400
  | ServiceUpstream (UpstreamStatus status) => if is_2xx status then 502 else map_upstream_status status
  | ServiceUpstream _ | TestKeysInProduction | InvalidSourceProvenance | InvalidAttestedSessionTtl | KeysetError _ | ServiceKey _
  | ServiceReceipt _ | SessionStoreError _ | MetricsError _ | NoReceiptKey => 502
  end%Z.

(** ** The meter *)
Record Meter : Type := mkMeterGuard {
  mt_request_id : string;
  mt_endpoint_path : string;
  mt_request_model : string;
  mt_pricing : option value;
  mt_spend_mode : option SpendMode;
  mt_tenant : TenantIdentity;
  mt_virtual_key_id : option Z;
  mt_prefix_hash : option string;
  mt_session_kind : option SessionKind;
  mt_is_streaming : bool;
  mt_images : option ImageUsage;
  mt_audio : option AudioUsage;
  mt_armed : bool;
}.
(** What the walk has written to the request's journal. *)
Record Journal : Type := mkJournal {
  jn_abandoned : list FailedAttempt;
  jn_in_flight : option (string * Z);
}.
Definition journal_new : Journal := mkJournal [] None.
Definition set_in_flight (route_id : string) (attempt_index : Z) (j : Journal) : Journal := mkJournal (jn_abandoned j) (Some (route_id, attempt_index)).
Definition clear_in_flight (j : Journal) : Journal := mkJournal (jn_abandoned j) None.
Definition record_abandoned (attempt : FailedAttempt) (j : Journal) : Journal := mkJournal (jn_abandoned j ++ [attempt]) (jn_in_flight j).
Definition set_armed (armed : bool) (m : Meter) : Meter :=
  mkMeterGuard (mt_request_id m) (mt_endpoint_path m) (mt_request_model m) (mt_pricing m) (mt_spend_mode m) (mt_tenant m) (mt_virtual_key_id m)
    (mt_prefix_hash m) (mt_session_kind m) (mt_is_streaming m) (mt_images m) (mt_audio m) armed.
Definition set_media (images : option ImageUsage) (audio : option AudioUsage) (m : Meter) : Meter :=
  mkMeterGuard (mt_request_id m) (mt_endpoint_path m) (mt_request_model m) (mt_pricing m) (mt_spend_mode m) (mt_tenant m) (mt_virtual_key_id m)
    (mt_prefix_hash m) (mt_session_kind m) (mt_is_streaming m) images audio (mt_armed m).
Definition arm_meter : Meter -> Meter := set_armed true.
Definition disarm : Meter -> Meter := set_armed false.
(** [PostReport { …, ..self.base() }] with the members the callers set. *)
Definition base_report (m : Meter) (status duration_ms : Z) (is_streaming : bool) (attempt_index : Z) (route : option string) (usage : option value)
    (images : option ImageUsage) (audio : option AudioUsage) (source : option ErrorSource) (class : option ErrorClass) : PostReport :=
  mkPost (mt_request_id m) (mt_endpoint_path m) status duration_ms None (Some is_streaming) (Some attempt_index) route (mt_request_model m)
    usage images audio (mt_pricing m) (mt_spend_mode m) (mt_tenant m) (mt_virtual_key_id m) source class (mt_prefix_hash m) (mt_session_kind m).
(** [spawn_report]: nothing is sent outside a runtime. *)
Definition spawn (at_ : Moment) (reports : list PostReport) : list PostReport := if at_in_runtime at_ then reports else [].
Definition u32_of_len {A} (l : list A) : Z := (Z.of_nat (length l) mod 2 ^ 32)%Z.
Definition success (at_ : Moment) (status attempt_index : Z) (route : option string) (usage : option value) (class : option ErrorClass) (m : Meter) :
    Meter * list PostReport :=
  (disarm m, spawn at_ [base_report m status (at_elapsed_ms at_) false attempt_index route usage
    (if is_2xx status then mt_images m else None) (if is_2xx status then mt_audio m else None) None class]).
Definition upstream_error (at_ : Moment) (status attempt_index : Z) (route : string) (class : option ErrorClass) (m : Meter) : Meter * list PostReport :=
  (disarm m, spawn at_ [base_report m status (at_elapsed_ms at_) true attempt_index (Some route) None None None None class]).
Definition attempt_row (m : Meter) (is_streaming : bool) (index : nat) (attempt : FailedAttempt) : option PostReport :=
  if bool_decide (fa_status attempt = 0%Z) then None
  else Some (base_report m (fa_status attempt) (fa_duration_ms attempt) is_streaming (Z.of_nat index mod 2 ^ 32)%Z (Some (fa_route_id attempt))
         None None None None None).
Definition failed_attempts (at_ : Moment) (attempts : list FailedAttempt) (is_streaming : bool) (m : Meter) : list PostReport :=
  spawn at_ (omap id (imap (attempt_row m is_streaming) attempts)).
Definition gateway_failure_at (at_ : Moment) (attempt_index : Z) (route : option string) (status : Z) (source : ErrorSource) (class : ErrorClass)
    (is_streaming : bool) (m : Meter) : Meter * list PostReport :=
  (disarm m, spawn at_ [base_report m status (at_elapsed_ms at_) is_streaming attempt_index route None None None (Some source) (Some class)]).
Definition gateway_failure (at_ : Moment) : Z -> ErrorSource -> ErrorClass -> bool -> Meter -> Meter * list PostReport :=
  gateway_failure_at at_ 0 None.
(** [Drop]. *)
Definition drop_meter (at_ : Moment) (journal : Journal) (m : Meter) : list PostReport :=
  if mt_armed m then
    failed_attempts at_ (jn_abandoned journal) (mt_is_streaming m) m ++
    spawn at_ [base_report m 499 (at_elapsed_ms at_) (mt_is_streaming m)
      (from_option snd (u32_of_len (jn_abandoned journal)) (jn_in_flight journal)) (fst <$> jn_in_flight journal) None None None None
      (Some ClientDisconnected)]
  else [].
Definition into_stream_report (selected_route_id : string) (attempt_index upstream_status : Z) (m : Meter) : StreamReport :=
  mkStreamReport (mt_request_id m) (mt_endpoint_path m) (mt_request_model m) (mt_pricing m) (mt_spend_mode m) (mt_tenant m) (mt_virtual_key_id m)
    (Some selected_route_id) attempt_index upstream_status (mt_prefix_hash m) (mt_session_kind m).


(** A failure of the finalizer after the stream's meter has settled: the report the body
    wrapper makes of it, from a template.  A stream that was committed early is placed by
    what the journal says is in flight. *)
Definition late_failure_template (at_ : Moment) (attempt_index : Z) (route : option string) (m : Meter) : PostReport :=
  base_report m 502 (at_elapsed_ms at_) true attempt_index route None None None (Some SourceGateway) (Some DownstreamFinalizerFailed).
Definition set_duration (duration_ms : Z) (r : PostReport) : PostReport :=
  mkPost (pr_request_id r) (pr_endpoint r) (pr_status r) duration_ms (pr_ttft_ms r) (pr_is_streaming r) (pr_attempt_index r) (pr_selected_route_id r)
    (pr_request_model r) (pr_usage r) (pr_images r) (pr_audio r) (pr_pricing r) (pr_spend_mode r) (pr_tenant r) (pr_virtual_key_id r)
    (pr_error_source r) (pr_error_message r) (pr_prefix_hash r) (pr_session_kind r).
Definition set_place (attempt_index : Z) (route : option string) (r : PostReport) : PostReport :=
  mkPost (pr_request_id r) (pr_endpoint r) (pr_status r) (pr_duration_ms r) (pr_ttft_ms r) (pr_is_streaming r) (Some attempt_index) route
    (pr_request_model r) (pr_usage r) (pr_images r) (pr_audio r) (pr_pricing r) (pr_spend_mode r) (pr_tenant r) (pr_virtual_key_id r)
    (pr_error_source r) (pr_error_message r) (pr_prefix_hash r) (pr_session_kind r).
Definition late_failure (template : PostReport) (at_ : Moment) (settled : bool) : list PostReport :=
  if settled then spawn at_ [set_duration (at_elapsed_ms at_) template] else [].
Definition early_late_failure (template : PostReport) (journal : Journal) (at_ : Moment) (settled : bool) : list PostReport :=
  if settled then
    spawn at_ [set_place (from_option snd 0%Z (jn_in_flight journal)) (fst <$> jn_in_flight journal) (set_duration (at_elapsed_ms at_) template)]
  else [].

(** ** A buffered answer *)
Section Answers.
Context {SJ : SerdeJson} {SH : Sha} {HX : HexCodec} {DC : Decimals}.

(** The request, as the arms of the handler see it. *)
Record Request : Type := mkRequest {
  rq_surface : Surface;
  rq_request_id : string;
  rq_identity : ResponseIdentity;
  rq_client_endpoint : Endpoint;
  rq_params : value;
  rq_received_body : bytes;
  rq_exclude_reasoning : bool;
  rq_candidates : list RouteCandidate;
  rq_echo : option value;
  rq_pricing : option value;
  rq_stream : bool;
  rq_e2ee : bool;
}.
(** Wall clocks read while the answer is made. *)
Record Clock : Type := mkClock { ck_secs : Z; ck_millis : Z; ck_now : Z }.

Definition route_of (q : Request) (route_id path : string) : SelectedRoute :=
  selected_route (rq_candidates q) route_id path (bool_decide (is_Some (rq_echo q))) (rq_client_endpoint q).
Definition read_audio (q : Request) (v : value) : result string (value * option AudioUsage) :=
  if bool_decide (rq_client_endpoint q = AudioTranscriptions) then
    '(body, audio) ← sanitize_response v (rq_params q); Ok (body, Some audio)
  else Ok (v, None).
Definition check_images (q : Request) (v : value) : result string unit :=
  if bool_decide (rq_client_endpoint q = ImagesGenerations) then validate_image_response v (requested_count (rq_params q)) else Ok ().
Definition convert (ck : Clock) (q : Request) (route : SelectedRoute) (upstream_body : bytes) : result string (value * option AudioUsage) :=
  upstream_json ← from_slice upstream_body;
  '(upstream_json, audio) ← read_audio q upstream_json;
  _ ← check_images q upstream_json;
  let upstream_json := if rq_exclude_reasoning q then exclude_reasoning upstream_json else upstream_json in
  transformed ← transform_response (ck_secs ck) (ck_millis ck) (sl_format route) (sl_endpoint route) upstream_json;
  Ok (transformed, audio).

(** [usage.cost] by what was billed.  An assignment to a member of the answer is made on an
    object: an image or audio answer is one. *)
Definition price_media (pricing : value) (raw_usage : option value) (audio : option AudioUsage) (images : option ImageUsage) (answer : value) : value :=
  let cost := match audio with
              | Some audio => compute_audio_cost pricing audio
              | None => images ≫= compute_image_cost raw_usage pricing
              end in
  match cost with
  | Some cost =>
      let usage := match get "usage" answer with Some (JObject usage) => usage | _ => [] end in
      Conversion.set_member "usage" (JObject (obj_insert "cost" (cost_to_json cost) usage)) answer
  | None => on_object (update_object "usage" (obj_remove "cost")) answer
  end.
Definition price_tokens (pricing : value) (raw_usage : option value) (answer : value) : value :=
  match or_else raw_usage (get "usage" answer) with
  | Some usage => on_object (update_object "usage" (obj_insert "cost" (cost_to_json (compute_cost usage pricing)))) answer
  | None => answer
  end.
Definition price (pricing raw_usage : option value) (audio : option AudioUsage) (images : option ImageUsage) (answer : value) : value :=
  match non_null pricing with
  | None => answer
  | Some pricing =>
      if bool_decide (is_Some audio) || bool_decide (is_Some images) then price_media pricing raw_usage audio images answer
      else price_tokens pricing raw_usage answer
  end.
Definition surface_answer (ck : Clock) (q : Request) (route : SelectedRoute) (transformed : value) : value :=
  let answer := match rq_echo q with
                | Some echo => if sl_responses_passthrough route then transformed
                               else openai_chat_to_responses (ck_secs ck) transformed echo (ri_request_id (rq_identity q))
                | None => transformed
                end in
  rewrite_identity (rq_identity q) answer.
Definition images_of (q : Request) (transformed : value) : option ImageUsage :=
  if bool_decide (rq_client_endpoint q = ImagesGenerations) then Some (image_usage transformed (rq_params q)) else None.
Definition served_answer (ck : Clock) (q : Request) (route : SelectedRoute) (transformed : value) (audio : option AudioUsage) : value :=
  canonicalize (ck_now ck)
    (price (rq_pricing q) (get "usage" transformed) audio (images_of q transformed) (surface_answer ck q route transformed))
    (rq_client_endpoint q) (Some (rq_request_id q)).

(** How a request is answered: with a receipt over the body, without, with a service error
    (and whether its body is still to be encrypted), or by a stream whose meter settles, with the template of a late failure. *)
Inductive Reply : Type :=
| Receipted (draft : ReceiptDraft) (status : Z) (body : bytes)
| Generated (status : Z) (body : bytes) (headers : list (string * string))
| ServiceFailure (err : ServiceError) (encrypted : bool)
| Streamed (report : StreamReport) (late : PostReport) (content_type : string) (status : Z).
Definition MALFORMED_MESSAGE : string := "upstream returned a malformed success body".
Definition answer_success (at_ : Moment) (ck : Clock) (q : Request) (f : MiddlewareForwarded) (m : Meter) : Meter * list PostReport * Reply :=
  let attempt_index := u32_of_len (mf_failed_attempts f) in
  let route := route_of q (mf_selected_route f) (mf_selected_path f) in
  let attempts := failed_attempts at_ (mf_failed_attempts f) false m in
  match convert ck q route (mf_upstream_body f) with
  | Err _ =>
      let '(m, reports) := gateway_failure_at at_ attempt_index (Some (mf_selected_route f)) 502 SourceUpstream UpstreamMalformedResponse false m in
      let body := envelope_bytes (rq_surface q) (error_type (rq_surface q) 502) MALFORMED_MESSAGE (Some (rq_request_id q)) in
      (m, attempts ++ reports,
        if bool_decide (rq_client_endpoint q ∈ [ImagesGenerations; AudioTranscriptions]) then Receipted (mf_receipt f) 502 body else Generated 502 body [])
  | Ok (transformed, audio) =>
      let answer := served_answer ck q route transformed audio in
      let m := set_media (images_of q transformed) audio m in
      let failed := bool_decide (is_Some (rq_echo q)) && bool_decide (get_str "status" answer = Some "failed") in
      let '(m, reports) := success at_ (if failed then 502%Z else mf_upstream_status f) attempt_index (Some (mf_selected_route f))
                             (get "usage" transformed) (if failed then Some UpstreamResponseFailed else None) m in
      (m, reports ++ attempts, Receipted (mf_receipt f) (mf_upstream_status f) (to_vec answer))
  end.
Definition answer_forwarded (at_ : Moment) (ck : Clock) (q : Request) (f : MiddlewareForwarded) (m : Meter) : Meter * list PostReport * Reply :=
  if is_2xx (mf_upstream_status f) then answer_success at_ ck q f m
  else
    let '(mapped, body) := normalize_upstream_error_parts (rq_surface q) (mf_upstream_status f) (mf_upstream_body f) (rq_received_body q)
                             (Some (rq_request_id q)) in
    let class := upstream_class (classify_upstream (rq_received_body q) (mf_upstream_status f) (mf_upstream_body f)) in
    let '(m', reports) := success at_ (reported_status mapped (mf_upstream_status f) (mf_upstream_body f)) (u32_of_len (mf_failed_attempts f))
                            (Some (mf_selected_route f)) None (Some class) m in
    (m', reports ++ failed_attempts at_ (mf_failed_attempts f) false m, Receipted (mf_receipt f) mapped body).

(** The base media type of the upstream's stream. *)
Definition stream_content_type (hs : headers) : string :=
  default "text/event-stream" (filter_some non_empty ((fun v => trim (default "" (head (split_char 59 v)))) <$> hs !! "content-type")).
Definition answer_stream (at_ : Moment) (q : Request) (f : MiddlewareStreamingForwarded) (m : Meter) : Meter * list PostReport * Reply :=
  let content_type := stream_content_type (Failover.ms_upstream_headers f) in
  let attempts := failed_attempts at_ (Failover.ms_failed_attempts f) true m in
  if rq_e2ee q && negb (is_sse_content_type (Some content_type)) then
    (disarm m, attempts, ServiceFailure (ServiceE2ee EncryptionFailed) false)
  else
    (disarm m, attempts,
      Streamed (into_stream_report (Failover.ms_selected_route f) (u32_of_len (Failover.ms_failed_attempts f)) (Failover.ms_upstream_status f) m)
        (late_failure_template at_ (u32_of_len (Failover.ms_failed_attempts f)) (Some (Failover.ms_selected_route f)) m)
        content_type (Failover.ms_upstream_status f)).
Definition report_upstream_error (at_ : Moment) (q : Request) (f : MiddlewareUpstreamError) (is_streaming : bool) (m : Meter) :
    Meter * list PostReport * (Z * bytes) :=
  let e := mu_error f in
  let '(status, body) := normalize_upstream_error_parts (rq_surface q) (se_upstream_status e) (se_upstream_body e) (rq_received_body q)
                           (Some (rq_request_id q)) in
  let class := upstream_class (classify_upstream (rq_received_body q) (se_upstream_status e) (se_upstream_body e)) in
  let '(m', reports) := upstream_error at_ (reported_status status (se_upstream_status e) (se_upstream_body e)) (u32_of_len (mu_failed_attempts f))
                          (mu_selected_route f) (Some class) m in
  (m', failed_attempts at_ (mu_failed_attempts f) is_streaming m ++ reports, (status, body)).
(** A failure is reported unless the caller is to blame for it. *)
Definition report_failure (at_ : Moment) (attempt_index : Z) (err : ServiceError) (is_streaming : bool) (m : Meter) : Meter * list PostReport :=
  let status := forward_error_status err in
  if (500 <=? status)%Z then gateway_failure_at at_ attempt_index None status (forward_error_source err) (error_class err) is_streaming m
  else (disarm m, []).
Definition answer_result (at_ : Moment) (ck : Clock) (q : Request) (r : result ServiceError MiddlewareForwardResult) (m : Meter) :
    Meter * list PostReport * Reply :=
  match r with
  | Ok (MwForwarded f) => answer_forwarded at_ ck q f m
  | Ok (MwStream f) => answer_stream at_ q f m
  | Ok (MwUpstreamError f) =>
      let '(m, reports, (status, body)) := report_upstream_error at_ q f true m in (m, reports, Generated status body [])
  | Ok (MwAllFailed f) =>
      let '(m', reports) := report_failure at_ (u32_of_len (af_failed_attempts f)) (af_error f) (rq_stream q) m in
      (m', failed_attempts at_ (af_failed_attempts f) (rq_stream q) m ++ reports, ServiceFailure (af_error f) true)
  | Err err => let '(m, reports) := report_failure at_ 0 err (rq_stream q) m in (m, reports, ServiceFailure err true)
  end.
(** The same for a stream that was committed before the upstream answered; the failure is
    told in the stream, with this status. *)
Definition account_forward_failure (at_ : Moment) (q : Request) (r : result ServiceError MiddlewareForwardResult) (m : Meter) :
    Meter * list PostReport * Z :=
  match r with
  | Ok (MwUpstreamError f) => let '(m', reports, (status, _)) := report_upstream_error at_ q f (mt_is_streaming m) m in (m', reports, status)
  | Ok (MwAllFailed f) =>
      let '(m', reports) := report_failure at_ (u32_of_len (af_failed_attempts f)) (af_error f) (mt_is_streaming m) m in
      (m', failed_attempts at_ (af_failed_attempts f) (mt_is_streaming m) m ++ reports, forward_error_status (af_error f))
  | Err err => let '(m', reports) := report_failure at_ 0 err (mt_is_streaming m) m in (m', reports, forward_error_status err)
  | Ok (MwForwarded _) | Ok (MwStream _) =>
      let '(m', reports) := gateway_failure at_ 502 SourceGateway InternalError (mt_is_streaming m) m in (m', reports, 502%Z)
  end.
(** A streaming request whose upstream is slow is answered early, unless the candidate that
    is waited on has failed before in this request. *)
Definition waiting_on_clean_candidate (journal : Journal) : bool :=
  match jn_in_flight journal with
  | Some (route_id, _) => negb (existsb (fun a => bool_decide (fa_route_id a = route_id)) (jn_abandoned journal))
  | None => bool_decide (jn_abandoned journal = [])
  end.
(** What follows the first heartbeat: the metered stream, or the failure told in the stream. *)
Inductive EarlyBody : Type := EarlyPipeline (report : StreamReport) (late : PostReport) | EarlyError (event : bytes).
Definition early_body (at_ : Moment) (endpoint_path : string) (q : Request) (r : result ServiceError MiddlewareForwardResult) (m : Meter) :
    Meter * list PostReport * EarlyBody :=
  match r with
  | Ok (MwStream f) =>
      (disarm m, failed_attempts at_ (Failover.ms_failed_attempts f) true m,
        EarlyPipeline (into_stream_report (Failover.ms_selected_route f) (u32_of_len (Failover.ms_failed_attempts f)) (Failover.ms_upstream_status f) m)
          (late_failure_template at_ 0 None m))
  | other =>
      let '(m, reports, status) := account_forward_failure at_ q other m in
      (m, reports, EarlyError (stream_error_event (sse_protocol endpoint_path) status (Some (rq_request_id q)) None))
  end.
End Answers.

(** ** Before the walk *)
Record PreConsult : Type := mkConsult {
  cs_allow : bool;
  cs_status : option Z;
  cs_message : option string;
  cs_pricing : option value;
  cs_candidates : option (list RouteCandidate);
  cs_tenant : TenantIdentity;
  cs_virtual_key_id : option Z;
  cs_spend_mode : option SpendMode;
  cs_user_tier : option string;
  cs_rate_limit : option (Z * Z);
}.
(** [TryFrom<PreConsultWire>]: the identity is whole or absent. *)
Definition tenant_of (user_id organization_id workspace_id : option Z) : result string TenantIdentity :=
  user ← match user_id with
         | Some user_id => if (0 <? user_id)%Z then Ok (Some user_id) else Err "userId must be a positive integer when provided"
         | None => Ok None
         end;
  organization ← match organization_id, workspace_id with
                 | Some organization_id, Some workspace_id =>
                     if (0 <? organization_id)%Z && (0 <? workspace_id)%Z then Ok (Some (mkScope organization_id workspace_id))
                     else Err "organizationId and workspaceId must be positive and provided together"
                 | None, None => Ok None
                 | _, _ => Err "organizationId and workspaceId must be positive and provided together"
                 end;
  if negb (Bool.eqb (bool_decide (is_Some organization)) (bool_decide (is_Some user))) then Err "userId, organizationId and workspaceId must be provided together"
  else Ok (mkTenant user organization).

Section Handler.
Context {SJ : SerdeJson} {SH : Sha} {HX : HexCodec} {DC : Decimals}.
(** [i64] subtraction. *)
Definition i64_sub (a b : Z) : Z := ((a - b + 2 ^ 63) mod 2 ^ 64 - 2 ^ 63)%Z.
Definition rate_limit_headers (now limit reset_at : Z) : list (string * string) :=
  [("X-RateLimit-Limit", pretty limit); ("X-RateLimit-Remaining", "0"); ("X-RateLimit-Reset", pretty reset_at);
   ("Retry-After", pretty (Z.max (i64_sub reset_at now) 1))].

Definition new_meter (q : Request) (endpoint_path : string) (consult : PreConsult) (features : option RequestFeatures) : Meter :=
  mkMeterGuard (rq_request_id q) endpoint_path (default "" (get_str "model" (rq_params q))) (cs_pricing consult) (cs_spend_mode consult)
    (cs_tenant consult) (cs_virtual_key_id consult) (features ≫= rf_prefix_hash) (features ≫= rf_session_kind) (rq_stream q) None None false.
Definition error_reply (q : Request) (status : Z) (kind message : string) (headers : list (string * string)) : Reply :=
  Generated status (envelope_bytes (rq_surface q) kind message (Some (rq_request_id q))) headers.
Definition deny (at_ : Moment) (ck : Clock) (q : Request) (consult : PreConsult) (m : Meter) : Meter * list PostReport * Reply :=
  let status := default 403%Z (cs_status consult) in
  let message := default "forbidden" (cs_message consult) in
  let class := if (500 <=? status)%Z then ControlUnavailable else ControlDenied in
  let '(m, reports) :=
    if bool_decide (is_Some (user_id (cs_tenant consult))) || (status =? 429)%Z || (500 <=? status)%Z
    then gateway_failure at_ status SourceControl class (rq_stream q) m else (m, []) in
  let reply := match cs_rate_limit consult with
               | Some (limit, reset_at) =>
                   if (status =? 429)%Z then
                     Generated 429 (rate_limit_envelope_bytes (rq_surface q) message (Some (rq_request_id q))) (rate_limit_headers (ck_secs ck) limit reset_at)
                   else error_reply q status (error_type (rq_surface q) status) message []
               | None => error_reply q status (error_type (rq_surface q) status) message []
               end in
  (m, reports, reply).
(** [admission::capacity_body]. *)
Definition capacity_body (request_id : option string) : bytes :=
  let error := JObject [("type", JString "rate_limit_error"); ("code", JString "rate_limit_exceeded"); ("param", JNull);
                        ("message", JString "inference capacity reached")] in
  to_vec (JObject (insert_some "request_id" (JString <$> request_id) [("error", error)])).
(** Up to the walk: an answer, or the candidates and an armed meter.  [permit] says whether
    the endpoint has a free slot. *)
Definition admit_request (at_ : Moment) (ck : Clock) (q : Request) (consult : PreConsult) (shaped : result TransformError (list Shaped)) (permit : bool) (m : Meter) :
    (Meter * list PostReport * Reply) + (list ForwardCandidate * Meter) :=
  if negb (cs_allow consult) then inl (deny at_ ck q consult m)
  else
    match shaped with
    | Err err =>
        let status := client_status err in
        let '(m, reports) := gateway_failure at_ status SourceGateway RequestShapingFailed (rq_stream q) m in
        inl (m, reports, error_reply q status (error_type (rq_surface q) status) ("cannot shape this request: " +:+ transform_error_text err) [])
    | Ok [] =>
        let '(m, reports) := gateway_failure at_ 404 SourceControl ModelNotFound (rq_stream q) m in
        let message := "no route available for model " +:+ default "(none)" (get_str "model" (rq_params q)) in
        inl (m, reports, error_reply q 404 "model_not_found" message [])
    | Ok shaped =>
        if negb permit then
          let '(m, reports) := gateway_failure at_ 429 SourceGateway GatewayCapacity false m in
          inl (m, reports, Generated 429 (capacity_body (Some (rq_request_id q))) [("retry-after", "1")])
        else inr (forward_candidates shaped, arm_meter m)
    end.

(** How the walk ended for the handler: it was dropped while waiting, or it has the result. *)
Inductive Outcome : Type := ClientLeft (journal : Journal) | Resolved (r : result ServiceError MiddlewareForwardResult).
(** All reports of a request, the meter's drop at the end included. *)
Definition handle (at_ : Moment) (ck : Clock) (q : Request) (consult : PreConsult) (shaped : result TransformError (list Shaped)) (permit : bool)
    (o : Outcome) (m : Meter) : list PostReport * option Reply :=
  let journal := match o with ClientLeft journal => journal | Resolved _ => journal_new end in
  match admit_request at_ ck q consult shaped permit m with
  | inl (m, reports, reply) => (reports ++ drop_meter at_ journal m, Some reply)
  | inr (_, m) =>
      match o with
      | ClientLeft _ => (drop_meter at_ journal m, None)
      | Resolved r => let '(m, reports, reply) := answer_result at_ ck q r m in (reports ++ drop_meter at_ journal m, Some reply)
      end
  end.
(** The same from the moment the stream is committed early, with the armed meter. *)
Definition handle_early (at_ : Moment) (endpoint_path : string) (q : Request) (o : Outcome) (m : Meter) : list PostReport * option EarlyBody :=
  match o with
  | ClientLeft journal => (drop_meter at_ journal m, None)
  | Resolved r => let '(m, reports, body) := early_body at_ endpoint_path q r m in (reports ++ drop_meter at_ journal_new m, Some body)
  end.

(** What becomes of the body of a streamed answer: how its meter is polled, what the inner
    stream answers, whether and when the finalizer hands the wrapper an error, and when the
    body is dropped. *)
Record StreamLife : Type := mkLife {
  sl_protocol : SseProtocol;
  sl_slotted : bool;
  sl_polls : nat;
  sl_replies : list (Moment * SseTransform.Reply);
  sl_failure : option Moment;
  sl_dropped : Moment;
}.
Definition polled_meter (report : StreamReport) (life : StreamLife) : MeterStream * list PostReport :=
  let '(_, m, sent, _) := meter_polls (sl_polls life) (sl_replies life) (meter_for report (sl_protocol life) (sl_slotted life)) in (m, sent).
(** The reports made while the body is consumed: the meter's, the wrapper's, the drop's. *)
Definition body_reports (late : Moment -> bool -> list PostReport) (report : StreamReport) (life : StreamLife) : list PostReport :=
  let '(m, sent) := polled_meter report life in
  sent ++ from_option (fun at_ => late at_ (ms_settled m)) [] (sl_failure life) ++ (meter_drop (sl_dropped life) m).2.
Definition reply_reports (reply : option Reply) (life : StreamLife) : list PostReport :=
  match reply with Some (Streamed report late _ _) => body_reports (late_failure late) report life | _ => [] end.
Definition early_reports (body : option EarlyBody) (journal : Journal) (life : StreamLife) : list PostReport :=
  match body with Some (EarlyPipeline report late) => body_reports (early_late_failure late journal) report life | _ => [] end.
End Handler.

(** ** One report per request *)
Section Reports.
Context {SJ : SerdeJson} {SH : Sha} {HX : HexCodec} {DC : Decimals}.

(** The attempts a finished or abandoned walk lists. *)
Definition outcome_attempts (o : Outcome) : list FailedAttempt :=
  match o with
  | ClientLeft journal => jn_abandoned journal
  | Resolved (Ok (MwForwarded f)) => mf_failed_attempts f
  | Resolved (Ok (MwStream f)) => Failover.ms_failed_attempts f
  | Resolved (Ok (MwUpstreamError f)) => mu_failed_attempts f
  | Resolved (Ok (MwAllFailed f)) => af_failed_attempts f
  | Resolved (Err _) => []
  end.
(** The handler leaves the report to the stream's meter, or makes none: the caller is to
    blame. *)
Definition handed_over (o : Outcome) : bool := match o with Resolved (Ok (MwStream _)) => true | _ => false end.
Definition caller_to_blame (o : Outcome) : bool :=
  match o with
  | Resolved (Ok (MwAllFailed f)) => (forward_error_status (af_error f) <? 500)%Z
  | Resolved (Err err) => (forward_error_status err <? 500)%Z
  | _ => false
  end.
(** The walk's writes to the journal, and where it can be dropped: while it prepares, tries a
    candidate or pauses, not between two candidates, where it does not wait. *)
Inductive Phase : Type := Preparing | Trying | Between | Pausing.
Inductive walk_at : Phase -> Journal -> Prop :=
| walk_prepares : walk_at Preparing journal_new
| walk_starts j : walk_at Preparing j -> walk_at Between j
| walk_tries j route : walk_at Between j -> walk_at Trying (set_in_flight route (u32_of_len (jn_abandoned j)) j)
| walk_abandons j attempt : walk_at Trying j -> walk_at Between (record_abandoned attempt j)
| walk_moves_on j : walk_at Trying j -> walk_at Between j
| walk_pauses j : walk_at Between j -> walk_at Pausing (clear_in_flight j)
| walk_resumes j : walk_at Pausing j -> walk_at Between j.
Definition suspended (j : Journal) : Prop := exists phase, phase ≠ Between /\ walk_at phase j.
Definition journal_ok (o : Outcome) : Prop := match o with ClientLeft journal => suspended journal | Resolved _ => True end.
Lemma suspended_index j : suspended j -> from_option snd (u32_of_len (jn_abandoned j)) (jn_in_flight j) = u32_of_len (jn_abandoned j).
Proof.
  assert (forall phase, walk_at phase j -> match phase with Between => True | _ => from_option snd (u32_of_len (jn_abandoned j)) (jn_in_flight j) = u32_of_len (jn_abandoned j) end) as H.
  { by intros phase; destruct 1. }
  intros (phase & Hp & Hw). specialize (H phase Hw). by destruct phase.
Qed.
(** The rows of the attempts, and the reports of a run: those rows and at most one more,
    placed after them. *)
Definition attempt_rows (m : Meter) (is_streaming : bool) (attempts : list FailedAttempt) : list PostReport :=
  omap id (imap (attempt_row m is_streaming) attempts).
Definition of_request (m : Meter) (t : PostReport) : Prop :=
  pr_request_id t = mt_request_id m /\ pr_pricing t = mt_pricing m /\ pr_tenant t = mt_tenant m /\ pr_prefix_hash t = mt_prefix_hash m.
Record run_reports (m : Meter) (attempts : list FailedAttempt) (terminal : option PostReport) (reports : list PostReport) : Prop := {
  rr_rows : exists is_streaming, reports ≡ₚ attempt_rows m is_streaming attempts ++ option_list terminal;
  rr_index t : terminal = Some t -> pr_attempt_index t = Some (u32_of_len attempts);
  rr_request t : terminal = Some t -> of_request m t;
}.
(** The body's reports: one of the meter, at the place after the attempts, and one more at
    the same place exactly when the finalizer failed after the meter had settled. *)
Definition fails_late (report : StreamReport) (life : StreamLife) : bool :=
  bool_decide (is_Some (sl_failure life)) && ms_settled (polled_meter report life).1.
Definition stream_accounted (m : Meter) (attempts : list FailedAttempt) (failed_late : bool) (reports : list PostReport) : Prop :=
  exists t late, reports = t :: option_list late /\ of_request m t /\ pr_attempt_index t = Some (u32_of_len attempts) /\
    (is_Some late <-> failed_late = true) /\
    forall r, late = Some r -> of_request m r /\ pr_attempt_index r = Some (u32_of_len attempts) /\
      pr_selected_route_id r = pr_selected_route_id t /\ pr_status r = 502%Z /\ pr_error_message r = Some DownstreamFinalizerFailed.
Definition life_in_runtime (life : StreamLife) : Prop :=
  Forall (fun reply => at_in_runtime reply.1 = true) (sl_replies life) /\ at_in_runtime (sl_dropped life) = true /\
  forall at_, sl_failure life = Some at_ -> at_in_runtime at_ = true.
(** The journal of a walk that ended in a stream: its candidate is still in flight. *)
Definition serving (o : Outcome) (j : Journal) : Prop :=
  match o with
  | Resolved (Ok (MwStream f)) => walk_at Trying j /\ jn_abandoned j = Failover.ms_failed_attempts f /\ fst <$> jn_in_flight j = Some (Failover.ms_selected_route f)
  | _ => False
  end.
Lemma body_accounted m attempts route status late life :
  life_in_runtime life ->
  (forall at_, at_in_runtime at_ = true -> late at_ false = [] /\ exists r, late at_ true = [r] /\ of_request m r /\
    pr_attempt_index r = Some (u32_of_len attempts) /\ pr_selected_route_id r = Some route /\ pr_status r = 502%Z /\
    pr_error_message r = Some DownstreamFinalizerFailed) ->
  let report := into_stream_report route (u32_of_len attempts) status m in
  stream_accounted m attempts (fails_late report life) (body_reports late report life).
Proof.
  intros (Hreplies & Hdropped & Hfailure) Hlate report. unfold fails_late, body_reports, polled_meter.
  pose proof (meter_accounts report (sl_protocol life) (sl_slotted life) (sl_polls life) (sl_replies life) (sl_dropped life)) as Hm.
  destruct (meter_polls _ _ _) as [[[ps mt] sent] rest]. destruct Hm as (used & started & ttft & Hrep & Hm). cbn [fst].
  rewrite Hrep, Forall_app in Hreplies. destruct Hreplies as [Hused _].
  destruct (the_report_row report (sl_protocol life) (sl_slotted life) started (tale [] used) ttft (sl_dropped life)) as
    (row & Hrow & Hidx & Hid & Hroute & Hpr & Hten & Hph); [by apply (tale_moment (fun at_ => at_in_runtime at_ = true))|].
  rewrite Hrow in Hm. exists row.
  destruct (ms_settled mt); destruct Hm as [-> ->].
  - destruct (sl_failure life) as [at_|]; cbn [from_option].
    + destruct (Hlate at_ (Hfailure at_ eq_refl)) as [_ (r & -> & Hr & Hi & Hro & Hst & Hc)]. exists (Some r).
      split_and!; try done. intros r' [= <-]. split_and!; try done. by rewrite Hro, Hroute.
    + exists None. by split_and!.
  - exists None. rewrite andb_false_r. split_and!; try done.
    destruct (sl_failure life) as [at_|]; cbn [from_option]; [|done]. by destruct (Hlate at_ (Hfailure at_ eq_refl)) as [-> _].
Qed.
Lemma reply_accounted at_ attempts route status ct m life : life_in_runtime life ->
  let report := into_stream_report route (u32_of_len attempts) status m in
  stream_accounted m attempts (fails_late report life)
    (reply_reports (Some (Streamed report (late_failure_template at_ (u32_of_len attempts) (Some route) m) ct status)) life).
Proof.
  intros Hlife report. apply body_accounted; [done|]. intros at' Hrt. unfold late_failure, spawn. rewrite Hrt. split; [done|].
  eexists. by split_and!.
Qed.
Lemma early_accounted at_ (f : MiddlewareStreamingForwarded) status m journal life : life_in_runtime life -> serving (Resolved (Ok (MwStream f))) journal ->
  let report := into_stream_report (Failover.ms_selected_route f) (u32_of_len (Failover.ms_failed_attempts f)) status m in
  stream_accounted m (Failover.ms_failed_attempts f) (fails_late report life)
    (early_reports (Some (EarlyPipeline report (late_failure_template at_ 0 None m))) journal life).
Proof.
  intros Hlife (Hw & Ha & Hr) report. apply body_accounted; [done|]. intros at' Hrt. unfold early_late_failure, spawn. rewrite Hrt. split; [done|].
  assert (from_option snd 0%Z (jn_in_flight journal) = u32_of_len (Failover.ms_failed_attempts f)) as Hi.
  { rewrite <- Ha, <- (suspended_index journal) by (by exists Trying). by destruct (jn_in_flight journal). }
  eexists. split; [reflexivity|]. unfold set_place. cbn [pr_attempt_index pr_selected_route_id]. rewrite Hi, Hr. by split_and!.
Qed.
Lemma imap_rows_index (m : Meter) b attempts k r : r ∈ omap id (imap (fun i => attempt_row m b (k + i)) attempts) ->
  exists i, k <= i < k + length attempts /\ pr_attempt_index r = Some (Z.of_nat i mod 2 ^ 32)%Z.
Proof.
  revert k r. induction attempts as [|a attempts IH]; intros k r; [by intros ?%elem_of_nil|]. cbn [imap omap list_omap].
  assert (forall r, r ∈ omap id (imap ((fun i => attempt_row m b (k + i)) ∘ S) attempts) ->
    exists i, k <= i < k + length (a :: attempts) /\ pr_attempt_index r = Some (Z.of_nat i mod 2 ^ 32)%Z) as Hrest.
  { intros r' Hr. destruct (IH (S k) r') as (i & Hi & Hidx); [|exists i; cbn; split; [lia|done]].
    erewrite imap_ext; [exact Hr|]. intros i a' _. cbn. f_equal. lia. }
  unfold id at 1. destruct (attempt_row m b (k + 0) a) as [row|] eqn:Hrow; [|apply Hrest].
  intros [->|Hr]%elem_of_cons; [|by apply Hrest]. exists k. cbn. split; [lia|].
  unfold attempt_row in Hrow. case_bool_decide; [done|]. injection Hrow as <-. cbn [base_report pr_attempt_index]. do 3 f_equal. lia.
Qed.
Lemma imap_rows_NoDup (m : Meter) b attempts k : (Z.of_nat (k + length attempts) <= 2 ^ 32)%Z ->
  NoDup (pr_attempt_index <$> omap id (imap (fun i => attempt_row m b (k + i)) attempts)).
Proof.
  revert k. induction attempts as [|a attempts IH]; intros k Hlen; [apply NoDup_nil_2|]. cbn [imap omap list_omap].
  assert (imap ((fun i => attempt_row m b (k + i)) ∘ S) attempts = imap (fun i => attempt_row m b (S k + i)) attempts) as ->
    by (apply imap_ext; intros i a' _; cbn; f_equal; lia).
  cbn in Hlen. specialize (IH (S k) ltac:(lia)). unfold id at 1. destruct (attempt_row m b (k + 0) a) as [row|] eqn:Hrow; [|done].
  cbn [fmap list_fmap]. apply NoDup_cons. split; [|done]. intros (r & Heq & Hr)%list_elem_of_fmap.
  apply imap_rows_index in Hr as (i & Hi & Hidx). unfold attempt_row in Hrow. case_bool_decide; [done|]. injection Hrow as <-.
  rewrite Hidx in Heq. cbn [base_report pr_attempt_index] in Heq. injection Heq as Heq. rewrite !Z.mod_small in Heq by lia. lia.
Qed.
Lemma run_reports_NoDup m attempts terminal reports : (Z.of_nat (length attempts) < 2 ^ 32)%Z -> run_reports m attempts terminal reports ->
  NoDup (pr_attempt_index <$> reports).
Proof.
  intros Hlen [[b Hp] Hi _]. rewrite Hp, fmap_app. apply NoDup_app.
  split; [apply (imap_rows_NoDup m b attempts 0); lia|]. split; [|destruct terminal; cbn; [apply NoDup_singleton|apply NoDup_nil_2]].
  intros x (r & -> & Hr)%list_elem_of_fmap (t & Heq & Ht)%list_elem_of_fmap. destruct terminal as [t'|]; [|by apply elem_of_nil in Ht].
  apply list_elem_of_singleton in Ht as ->. rewrite (Hi t' eq_refl) in Heq.
  destruct (imap_rows_index m b attempts 0 r Hr) as (i & Hlt & Hidx). rewrite Hidx in Heq. injection Heq as Heq. unfold u32_of_len in Heq.
  rewrite !Z.mod_small in Heq by lia. lia.
Qed.
(** A report made from the meter's base, at the place after the attempts. *)
Lemma run_reports_intro m attempts b terminal reports :
  (forall t, terminal = Some t -> exists status elapsed streaming route usage images audio source class,
     t = base_report m status elapsed streaming (u32_of_len attempts) route usage images audio source class) ->
  reports ≡ₚ attempt_rows m b attempts ++ option_list terminal -> run_reports m attempts terminal reports.
Proof.
  intros Ht Hp. constructor; [by exists b|intros t Hs..]; destruct (Ht t Hs) as (? & ? & ? & ? & ? & ? & ? & ? & ? & ->); done.
Qed.
Lemma failure_reported at_ (attempts : list FailedAttempt) err b m m' reports : at_in_runtime at_ = true ->
  report_failure at_ (u32_of_len attempts) err b (arm_meter m) = (m', reports) ->
  mt_armed m' = false /\ exists terminal, reports = option_list terminal /\ (terminal = None <-> (forward_error_status err <? 500)%Z = true) /\
  forall t, terminal = Some t -> exists status elapsed streaming route usage images audio source class,
    t = base_report m status elapsed streaming (u32_of_len attempts) route usage images audio source class.
Proof.
  intros Hrt. unfold report_failure, gateway_failure_at, spawn. rewrite Hrt. destruct (500 <=? forward_error_status err)%Z eqn:Hs; intros [= <- <-]; (split; [done|]).
  - eexists (Some _). split; [done|]. split; [split; [done|lia]|]. intros t [= <-]. do 9 eexists. reflexivity.
  - exists None. split; [done|]. split; [split; [lia|done]|done].
Qed.
Lemma armed_rows m b attempts : omap id (imap (attempt_row (arm_meter m) b) attempts) = attempt_rows m b attempts.
Proof. reflexivity. Qed.
Lemma left_reported at_ journal m : at_in_runtime at_ = true -> suspended journal ->
  exists t, run_reports m (jn_abandoned journal) (Some t) (drop_meter at_ journal (arm_meter m)).
Proof.
  intros Hrt Hj. unfold drop_meter. cbn [arm_meter set_armed mt_armed]. unfold failed_attempts, spawn. rewrite Hrt, armed_rows, (suspended_index journal Hj).
  match goal with |- context [_ ++ [?t]] => exists t end. eapply run_reports_intro; [|reflexivity]. intros t [= <-]. do 9 eexists. reflexivity.
Qed.
(** A walk that ended in a stream is answered by a stream, or by a refusal to encrypt it;
    and whatever becomes of the stream, its reports are accounted for. *)
Definition stream_or_refusal (q : Request) (o : Outcome) (reply : option Reply) : Prop :=
  handed_over o = true ->
  (exists report late ct st, reply = Some (Streamed report late ct st)) \/
  (rq_e2ee q = true /\ reply = Some (ServiceFailure (ServiceE2ee EncryptionFailed) false)).
Definition streams_accounted (m : Meter) (attempts : list FailedAttempt) (reply : option Reply) : Prop :=
  forall report late ct st life, reply = Some (Streamed report late ct st) -> life_in_runtime life ->
  stream_accounted m attempts (fails_late report life) (reply_reports reply life).
Lemma answer_reported at_ ck q r m m' reports reply : at_in_runtime at_ = true ->
  answer_result at_ ck q r (arm_meter m) = (m', reports, reply) ->
  mt_armed m' = false /\ exists terminal, run_reports m (outcome_attempts (Resolved r)) terminal reports /\
    (terminal = None <-> handed_over (Resolved r) || caller_to_blame (Resolved r) = true) /\
    stream_or_refusal q (Resolved r) (Some reply) /\ streams_accounted m (outcome_attempts (Resolved r)) (Some reply).
Proof.
  intros Hrt. destruct r as [[f|f|f|f]|err]; cbn [answer_result outcome_attempts handed_over caller_to_blame orb].
  - unfold answer_forwarded, answer_success, success, gateway_failure_at, failed_attempts, spawn. rewrite Hrt.
    assert (forall m' t (l : list PostReport) rep, mt_armed m' = false ->
      (exists status elapsed streaming route usage images audio source class,
        t = base_report m status elapsed streaming (u32_of_len (mf_failed_attempts f)) route usage images audio source class) ->
      l ≡ₚ attempt_rows m false (mf_failed_attempts f) ++ [t] -> (forall r late ct st, rep ≠ Streamed r late ct st) ->
      mt_armed m' = false /\ exists terminal, run_reports m (mf_failed_attempts f) terminal l /\ (terminal = None <-> false = true) /\
        stream_or_refusal q (Resolved (Ok (MwForwarded f))) (Some rep) /\ streams_accounted m (mf_failed_attempts f) (Some rep)) as Hdone.
    { intros m1 t l rep Harm Ht Hl Hrep. split; [done|]. exists (Some t). split; [|split; [done|split; [done|]]].
      - eapply run_reports_intro; [intros ? [= <-]; exact Ht|exact Hl].
      - intros r late ct st life [= ->]. by destruct (Hrep r late ct st). }
    destruct (is_2xx _); [destruct (convert _ _ _ _) as [[transformed audio]|]|destruct (normalize_upstream_error_parts _ _ _ _ _) as [mapped body]];
      intros [= <- <- <-]; rewrite ?armed_rows.
    + eapply Hdone; [done| |apply Permutation_cons_append|done]. do 9 eexists. reflexivity.
    + eapply Hdone; [done| |reflexivity|by case_bool_decide]. do 9 eexists. reflexivity.
    + eapply Hdone; [done| |apply Permutation_cons_append|done]. do 9 eexists. reflexivity.
  - unfold answer_stream, failed_attempts, spawn. rewrite Hrt. destruct (rq_e2ee q && _) eqn:Hsse; intros [= <- <- <-]; (split; [done|]); exists None;
      (split; [eapply (run_reports_intro _ _ true); [done|by rewrite app_nil_r]|split; [done|]]).
    + apply andb_true_iff in Hsse as [He _]. split; [|done]. intros _. by right.
    + split; [intros _; left; by do 4 eexists|]. intros r late ct st life [= <- <- <- <-] Hlife.
      exact (reply_accounted at_ _ _ _ _ m life Hlife).
  - unfold report_upstream_error, upstream_error, failed_attempts, spawn. rewrite Hrt. destruct (normalize_upstream_error_parts _ _ _ _ _) as [status body].
    intros [= <- <- <-]. rewrite armed_rows. split; [done|]. match goal with |- context [_ ++ [?t]] => exists (Some t) end.
    split; [|by split_and!]. eapply (run_reports_intro _ _ true); [|reflexivity].
    intros t [= <-]. do 9 eexists. reflexivity.
  - destruct (report_failure _ _ _ _ _) as [m1 rs] eqn:Hf. apply failure_reported in Hf as (Harm & terminal & -> & Hnone & Ht); [|done].
    unfold failed_attempts, spawn. rewrite Hrt. intros [= <- <- <-]. rewrite armed_rows. split; [done|]. exists terminal. split; [|by split_and!].
    by eapply (run_reports_intro _ _ (rq_stream q)).
  - destruct (report_failure _ _ _ _ _) as [m1 rs] eqn:Hf. change 0%Z with (@u32_of_len FailedAttempt []) in Hf.
    apply failure_reported in Hf as (Harm & terminal & -> & Hnone & Ht); [|done].
    intros [= <- <- <-]. split; [done|]. exists terminal. split; [|by split_and!]. by eapply (run_reports_intro _ _ false).
Qed.

Lemma handled_reported at_ ck q consult shaped permit o m reports reply :
  at_in_runtime at_ = true -> cs_allow consult = true -> journal_ok o ->
  (Z.of_nat (length (outcome_attempts o)) < 2 ^ 32)%Z ->
  handle at_ ck q consult shaped permit o m = (reports, reply) ->
  exists attempts terminal, run_reports m attempts terminal reports /\ NoDup (pr_attempt_index <$> reports) /\
    match admit_request at_ ck q consult shaped permit m with
    | inl _ => attempts = [] /\ is_Some terminal
    | inr _ => attempts = outcome_attempts o /\ (terminal = None <-> handed_over o || caller_to_blame o = true) /\ stream_or_refusal q o reply
    end /\ streams_accounted m attempts reply.
Proof.
  intros Hrt Hallow Hj Hlen. unfold handle.
  assert (forall attempts terminal b (l : list PostReport), (Z.of_nat (length attempts) < 2 ^ 32)%Z ->
    (forall t, terminal = Some t -> exists status elapsed streaming route usage images audio source class,
      t = base_report m status elapsed streaming (u32_of_len attempts) route usage images audio source class) ->
    l ≡ₚ attempt_rows m b attempts ++ option_list terminal -> run_reports m attempts terminal l /\ NoDup (pr_attempt_index <$> l)) as Hintro.
  { intros attempts terminal b l Hl Ht Hp. pose proof (run_reports_intro m attempts b terminal l Ht Hp). split; [done|by eapply run_reports_NoDup]. }
  unfold admit_request. rewrite Hallow. cbn [negb]. unfold gateway_failure, gateway_failure_at, spawn. rewrite Hrt.
  assert (forall m1 reply1 t (l : list PostReport), mt_armed m1 = false ->
    (exists status elapsed streaming route usage images audio source class,
      t = base_report m status elapsed streaming 0 route usage images audio source class) -> (forall r late ct st, reply1 ≠ Streamed r late ct st) ->
    ([t] ++ drop_meter at_ match o with ClientLeft journal => journal | Resolved _ => mkJournal [] None end m1, Some reply1) = (l, reply) ->
    exists attempts terminal, run_reports m attempts terminal l /\ NoDup (pr_attempt_index <$> l) /\ (attempts = [] /\ is_Some terminal) /\
    streams_accounted m attempts reply) as Hearly.
  { intros m1 reply1 t l Hm1 Ht Hrep. unfold drop_meter. rewrite Hm1, app_nil_r. intros [= <- <-]. exists [], (Some t).
    destruct (Hintro [] (Some t) false [t]) as [H1 H2]; [cbn; lia|by intros ? [= <-]|done|]. split; [done|]. split; [done|]. split; [by split; [|eexists]|].
    intros rep late ct st life [= ->]. by destruct (Hrep rep late ct st). }
  destruct shaped as [[|entry entries]|err]; [| |eapply Hearly; try done; do 9 eexists; reflexivity].
  { eapply Hearly; try done. do 9 eexists; reflexivity. }
  destruct permit; cbn [negb]; [|eapply Hearly; try done; do 9 eexists; reflexivity].
  destruct o as [journal|r].
  - intros [= <- <-]. destruct (left_reported at_ journal m Hrt Hj) as (t & Hr). exists (jn_abandoned journal), (Some t).
    split; [done|]. split; [by eapply run_reports_NoDup|]. by split_and!.
  - destruct (answer_result _ _ _ _ _) as [[m1 rs] rep] eqn:Ha. apply answer_reported in Ha as (Harm & terminal & Hrr & Hnone & Hor & Hst); [|done].
    unfold drop_meter. rewrite Harm, app_nil_r. intros [= <- <-]. exists (outcome_attempts (Resolved r)), terminal.
    split; [done|]. split; [by eapply run_reports_NoDup|]. by split_and!.
Qed.
(** A streaming walk does not end in a buffered answer. *)
Definition streamed_outcome (o : Outcome) : Prop := forall f, o ≠ Resolved (Ok (MwForwarded f)).
Definition early_streams_accounted (m : Meter) (o : Outcome) (body : option EarlyBody) : Prop :=
  (handed_over o = true -> exists report late, body = Some (EarlyPipeline report late)) /\
  forall report late journal life, body = Some (EarlyPipeline report late) -> serving o journal -> life_in_runtime life ->
  stream_accounted m (outcome_attempts o) (fails_late report life) (early_reports body journal life).
Lemma early_reported at_ endpoint_path q o m reports body : at_in_runtime at_ = true -> journal_ok o -> streamed_outcome o ->
  handle_early at_ endpoint_path q o (arm_meter m) = (reports, body) ->
  exists terminal, run_reports m (outcome_attempts o) terminal reports /\
    (terminal = None <-> handed_over o || caller_to_blame o = true) /\
    early_streams_accounted m o body.
Proof.
  intros Hrt Hj Hs. destruct o as [journal|[[f|f|f|f]|err]];
    cbn [handle_early early_body account_forward_failure outcome_attempts handed_over caller_to_blame orb].
  - intros [= <- <-]. destruct (left_reported at_ journal m Hrt Hj) as (t & Hr). exists (Some t). by split_and!.
  - by destruct (Hs f).
  - unfold failed_attempts, spawn, drop_meter. rewrite Hrt, app_nil_r. intros [= <- <-]. exists None.
    split; [eapply (run_reports_intro _ _ true); [done|by rewrite app_nil_r]|]. split; [done|]. split; [by do 2 eexists|].
    intros report late journal life [= <- <-] Hserve Hlife. exact (early_accounted at_ f _ m journal life Hlife Hserve).
  - unfold report_upstream_error, upstream_error, failed_attempts, spawn, drop_meter. rewrite Hrt.
    destruct (normalize_upstream_error_parts _ _ _ _ _) as [status b]. cbn [disarm set_armed mt_armed]. rewrite app_nil_r. intros [= <- <-].
    rewrite armed_rows. match goal with |- context [_ ++ [?t]] => exists (Some t) end.
    split; [|by split_and!]. eapply run_reports_intro; [|reflexivity]. intros t [= <-]. do 9 eexists. reflexivity.
  - destruct (report_failure _ _ _ _ _) as [m1 rs] eqn:Hf. apply failure_reported in Hf as (Harm & terminal & -> & Hnone & Ht); [|done].
    unfold failed_attempts, spawn, drop_meter. rewrite Hrt, Harm, app_nil_r. intros [= <- <-]. rewrite armed_rows. exists terminal. split; [|by split_and!].
    by eapply run_reports_intro.
  - destruct (report_failure _ _ _ _ _) as [m1 rs] eqn:Hf. change 0%Z with (@u32_of_len FailedAttempt []) in Hf.
    apply failure_reported in Hf as (Harm & terminal & -> & Hnone & Ht); [|done].
    unfold drop_meter. rewrite Harm, app_nil_r. intros [= <- <-]. exists terminal. split; [|by split_and!]. by eapply (run_reports_intro _ _ false).
Qed.

End Reports.

(** ** Requests and answers speak the same protocol *)
Section Protocols.
Context {SJ : SerdeJson} {SH : Sha} {HX : HexCodec} {B64 : Base64} {RS : ReasoningSerde}.

(** One description per route id. *)
Definition twin_free (candidates : list RouteCandidate) : Prop :=
  forall c c', c ∈ candidates -> c' ∈ candidates -> rt_route_id c = rt_route_id c' -> c = c'.
Lemma find_id candidates c : twin_free candidates -> c ∈ candidates ->
  List.find (fun k => bool_decide (rt_route_id k = rt_route_id c)) candidates = Some c.
Proof.
  intros Ht Hc. destruct (List.find _ _) as [c'|] eqn:Hf.
  - apply List.find_some in Hf as [Hin Heq]. apply bool_decide_eq_true in Heq. f_equal. apply Ht; [by apply list_elem_of_In|done|done].
  - apply list_elem_of_In in Hc. pose proof (List.find_none _ _ Hf c Hc) as Hn. cbn in Hn. by rewrite bool_decide_true in Hn.
Qed.
Lemma twins_dropped candidates : twin_free (drop_conflicting_route_twins candidates) /\
  (forall c, c ∈ drop_conflicting_route_twins candidates -> c ∈ candidates) /\
  (forall c, c ∈ candidates -> exists c', c' ∈ drop_conflicting_route_twins candidates /\ rt_route_id c' = rt_route_id c).
Proof.
  unfold drop_conflicting_route_twins. induction candidates as [|c candidates IH] using rev_ind; [split; [|split]; intros c; set_solver|].
  rewrite foldl_app. cbn [foldl]. set (kept := foldl _ [] candidates) in *. destruct IH as (Ht & Hin & Hall).
  destruct (List.find _ kept) as [first|] eqn:Hf.
  - apply List.find_some in Hf as [Hfirst Heq]. apply list_elem_of_In in Hfirst. apply bool_decide_eq_true in Heq. case_bool_decide as Hsame.
    + subst c. split_and!.
      * intros c1 c2 [H1| ->%list_elem_of_singleton]%elem_of_app [H2| ->%list_elem_of_singleton]%elem_of_app ?; by apply Ht.
      * set_solver.
      * intros c1 [H1| ->%list_elem_of_singleton]%elem_of_app; [|exists first; set_solver]. destruct (Hall c1 H1) as (c' & ? & ?). exists c'. set_solver.
    + split_and!; [done|set_solver|]. intros c1 [H1| ->%list_elem_of_singleton]%elem_of_app; [by apply Hall|]. by exists first.
  - assert (forall c', c' ∈ kept -> rt_route_id c' ≠ rt_route_id c) as Hnew.
    { intros c' Hc'%list_elem_of_In Heq. pose proof (List.find_none _ _ Hf c' Hc') as Hn. cbn in Hn. by rewrite bool_decide_true in Hn. }
    split_and!.
    + intros c1 c2 [H1| ->%list_elem_of_singleton]%elem_of_app [H2| ->%list_elem_of_singleton]%elem_of_app Heq; [by apply Ht| | |done].
      * by destruct (Hnew c1 H1).
      * by destruct (Hnew c2 H2).
    + set_solver.
    + intros c1 [H1| ->%list_elem_of_singleton]%elem_of_app; [|exists c; set_solver]. destruct (Hall c1 H1) as (c' & ? & ?). exists c'. set_solver.
Qed.
Lemma prepared_facts endpoint params p : prepare endpoint params = Ok p ->
  (is_Some (pp_responses p) <-> endpoint = CreateModelResponse) /\
  (endpoint = CreateModelResponse -> pp_responses p = Some params /\ (pp_endpoint p = ChatComplete \/ pp_endpoint p = CreateModelResponse)) /\
  (endpoint ≠ CreateModelResponse -> pp_endpoint p = endpoint) /\
  (forall format, native format (pp_endpoint p) = true -> pp_params p = params).
Proof.
  assert (forall e : Endpoint, e ≠ CreateModelResponse -> is_Some (@None value) <-> e = CreateModelResponse) as Hnone by (intros e He; split; [by intros []|done]).
  destruct endpoint; cbn [prepare]; try (intros [= <-]; cbn; by split_and!; try apply Hnone).
  - destruct (normalized params) as [[[chat requirements] exclude]|]; [|done]. intros [= <-]. cbn. split_and!; try done; first [by apply Hnone|by intros []].
  - destruct (messages_reasoning params) as [requirements visible]. intros [= <-]. cbn. by split_and!.
  - destruct (validate_responses_request params); [|done]. cbn [mbind result_bind].
    destruct (responses_to_chat_params params ≫= _) as [[[chat requirements] exclude]|]; intros [= <-]; cbn; split_and!; try done; eauto; by intros [].
Qed.

Lemma responses_path upstream : path upstream = RESPONSES_PATH <-> upstream = CreateModelResponse.
Proof. split; [by destruct upstream|by intros ->]. Qed.

(** C12: What comes back is read in the protocol it was asked in.  For every entry of the
    candidates' list, the handler's later lookup by route id and path finds the very route the
    body was shaped for, its format, and the endpoint the body is for; a Responses request is
    passed through on the answer exactly when it was passed through on the request.  (The
    routes are those left when conflicting descriptions of one id are dropped.) *)
Theorem answer_read_as_asked endpoint params p routes shaped route body upstream :
  prepare endpoint params = Ok p -> value_wf params ->
  shaped_candidates p (drop_conflicting_route_twins routes) = Some (Ok shaped) -> (route, body, upstream) ∈ shaped ->
  let s := selected_route (drop_conflicting_route_twins routes) route (path upstream) (bool_decide (is_Some (pp_responses p))) endpoint in
  exists c, c ∈ routes /\ rt_route_id c = route /\
    shape_candidate (pp_params p) (pp_endpoint p) c (pp_requirements p)
      (bridge_of (pp_params p) (pp_endpoint p) (drop_conflicting_route_twins routes) (responses_input_of p)) = Some (Ok (upstream, body)) /\
    sl_format s = rt_format c /\ sl_endpoint s = upstream /\
    sl_responses_passthrough s = bool_decide (endpoint = CreateModelResponse) && bool_decide (upstream = CreateModelResponse).
Proof.
  intros Hp Hwf Hsh Hin s. destruct (prepared_facts _ _ _ Hp) as (Hresp & Hcr & Hother & Hnat). destruct (twins_dropped routes) as (Ht & Hsub & _).
  unfold shaped_candidates, build_candidates in Hsh. rewrite build_fold in Hsh. cbn [mbind option_bind app] in Hsh.
  set (candidates := drop_conflicting_route_twins routes) in *.
  assert ((route, body, upstream) ∈ omap (shaped_entry (pp_params p) (pp_endpoint p) (pp_requirements p)
    (bridge_of (pp_params p) (pp_endpoint p) candidates (responses_input_of p))) (List.filter (serves (pp_endpoint p)) candidates)) as Hentry.
  { repeat case_match; simplify_eq; try done. }
  apply list_elem_of_omap in Hentry as (c & (Hc & Hs)%list_elem_of_In%List.filter_In & He). apply list_elem_of_In in Hc.
  assert (offered (pp_params p) (pp_endpoint p) candidates (responses_input_of p) (route, body, upstream)) as Ho.
  { eapply entry_offered; [|..|done|done|done].
    - intros c' _ Hn. by rewrite (Hnat _ Hn).
    - unfold responses_input_of. destruct (pp_responses p) as [original|] eqn:Hr; [|done]. cbn.
      destruct (Hcr (proj1 Hresp (ex_intro _ _ eq_refl))) as [[= ->] _]. done. }
  unfold shaped_entry in He. destruct (shape_candidate _ _ _ _ _) as [[[u b]|]|] eqn:Hshape; try done. injection He as Hid -> ->.
  exists c. destruct Ho as (_ & _ & c' & _ & _ & _ & Hup). unfold s, selected_route. rewrite <- Hid, (find_id _ _ Ht Hc).
  rewrite (bool_decide_ext _ _ Hresp), (bool_decide_ext _ _ (responses_path upstream)).
  split_and!; [by apply Hsub|done..|cbn [sl_endpoint]|done]. case_bool_decide as He; cbn [andb negb].
  - destruct (Hcr He) as [_ Hep]. assert (upstream = ChatComplete \/ upstream = CreateModelResponse) as [-> | ->]; [|done..].
    destruct Hup as [->|[_ ->]]; [done|]. destruct (supports_endpoint _ _); eauto.
  - destruct Hup as [->|[Hsome _]]; [by rewrite (Hother He)|]. unfold responses_input_of in Hsome. by apply fmap_is_Some, Hresp in Hsome.
Qed.
End Protocols.

(** ** The cost a buffered answer shows *)
Section Costs.
Context {SJ : SerdeJson} {SH : Sha} {HX : HexCodec} {DC : Decimals}.

Definition shown_cost (v : value) : option value := get "usage" v ≫= get "cost".
Lemma retained_cost allowed (u : option value) c : ((on_object (retain_allowed allowed) <$> u) ≫= get "cost") = Some c -> (u ≫= get "cost") = Some c.
Proof.
  destruct u as [[| | | | |m]|]; try done. cbn. rewrite obj_get_retain_allowed. by case_bool_decide.
Qed.
(** The endpoints whose answers are billed by the token. *)
Definition TOKEN_ENDPOINTS : list Endpoint := [ChatComplete; Complete; Embed; Messages; CreateModelResponse].
Lemma canonical_cost now body endpoint request_id c : endpoint ∈ TOKEN_ENDPOINTS ->
  shown_cost (canonicalize now body endpoint request_id) = Some c -> shown_cost body = Some c.
Proof.
  intros He. unfold shown_cost. destruct body as [| | | | |m]; [by destruct endpoint; try done; set_solver..|].
  destruct endpoint; cbn [canonicalize get]; try done; try (exfalso; set_solver).
  - unfold canonicalize_chat_completion. autorewrite with members. apply retained_cost.
  - unfold canonicalize_text_completion. autorewrite with members. apply retained_cost.
  - unfold canonicalize_messages. case_bool_decide; [|done]. destruct (if _ : bool then _ else _). by destruct request_id.
  - unfold canonicalize_responses. destruct (_ ≫= as_str) as [t|]; [case_bool_decide|].
    + unfold sanitize_responses_error_event, responses_error_event. by repeat case_match.
    + destruct (starts_with _ _); [|done]. cbn [get]. by autorewrite with members.
    + cbn [get]. unfold canonicalize_responses_object. autorewrite with members. apply retained_cost.
Qed.
Lemma identity_usage identity v : get "usage" (rewrite_identity identity v) = get "usage" v.
Proof.
  assert (forall m, obj_get "usage" (rewrite_id_and_model identity m) = obj_get "usage" m) as Hm.
  { intros m. unfold rewrite_id_and_model. by repeat case_match; autorewrite with members. }
  unfold rewrite_identity. destruct v as [| | | | |m]; try done. destruct (get_str _ _); [case_bool_decide|]; [|destruct (starts_with _ _)|]; cbn [get];
    autorewrite with members; done.
Qed.
Lemma priced_cost pricing usage answer c : shown_cost (price_tokens pricing (Some usage) answer) = Some c -> c = cost_to_json (compute_cost usage pricing).
Proof.
  unfold shown_cost, price_tokens. cbn [or_else]. destruct answer as [| | | | |m]; try done. cbn [on_object get]. autorewrite with members.
  rewrite bool_decide_eq_true_2 by done. destruct (obj_get "usage" m) as [[| | | | |u]|]; try done.
  cbn [fmap option_fmap option_map mbind option_bind on_object get]. rewrite obj_get_insert, bool_decide_eq_true_2 by done. congruence.
Qed.
Lemma cost_is_shown now pricing usage v u endpoint request_id : endpoint ∈ [ChatComplete; Complete] -> get "usage" v = Some (JObject u) ->
  is_Some (shown_cost (canonicalize now (price_tokens pricing (Some usage) v) endpoint request_id)).
Proof.
  intros He Hu. destruct v as [| | | | |m]; try done. cbn [get] in Hu. unfold shown_cost, price_tokens. cbn [or_else on_object].
  assert (forall o : option value, o = Some (JObject (retain_allowed CHAT_USAGE (obj_insert "cost" (cost_to_json (compute_cost usage pricing)) u))) ->
    is_Some (o ≫= get "cost")) as Hshown.
  { intros o ->. cbn [mbind option_bind get]. rewrite obj_get_retain_allowed, bool_decide_eq_true_2, obj_get_insert, bool_decide_eq_true_2 by (done || listed).
    by eexists. }
  assert (endpoint = ChatComplete \/ endpoint = Complete) as [-> | ->] by set_solver; cbn [canonicalize get]; apply Hshown.
  - unfold canonicalize_chat_completion. autorewrite with members. by rewrite Hu.
  - unfold canonicalize_text_completion. autorewrite with members. by rewrite Hu.
Qed.

(** C38: The cost a buffered answer shows is the cost that is billed.  On the endpoints billed
    by the token, the report of a served answer carries the usage the upstream's converted
    body had and the pricing the control plane gave, and a [usage.cost] in the answer is the
    price of that usage under that pricing, on whatever surface the answer is served: what
    the upstream wrote there is never shown.  On the chat and completion endpoints a usage
    object always shows it. *)
Theorem buffered_cost_is_billed at_ ck q f m m' reports reply transformed audio pricing usage :
  at_in_runtime at_ = true -> rq_client_endpoint q ∈ TOKEN_ENDPOINTS ->
  convert ck q (route_of q (mf_selected_route f) (mf_selected_path f)) (mf_upstream_body f) = Ok (transformed, audio) ->
  get "usage" transformed = Some usage -> non_null (rq_pricing q) = Some pricing -> mt_pricing m = rq_pricing q ->
  answer_success at_ ck q f m = (m', reports, reply) ->
  exists row answer, row ∈ reports /\ pr_usage row = Some usage /\ pr_pricing row = Some pricing /\
    reply = Receipted (mf_receipt f) (mf_upstream_status f) (to_vec answer) /\
    (forall c, shown_cost answer = Some c -> c = cost_to_json (compute_cost usage pricing)) /\
    (rq_client_endpoint q ∈ [ChatComplete; Complete] -> rq_echo q = None -> is_object usage = true -> is_Some (shown_cost answer)).
Proof.
  intros Hrt He Hc Hu Hp Hm. unfold answer_success. rewrite Hc. cbn [success].
  assert (audio = None /\ images_of q transformed = None) as [-> Hi].
  { split; [|unfold images_of; rewrite bool_decide_eq_false_2; [done|intros Heq; rewrite Heq in He; set_solver]].
    unfold convert, read_audio in Hc. rewrite bool_decide_eq_false_2 in Hc by (intros Heq; rewrite Heq in He; set_solver).
    destruct (from_slice _); [|done]. cbn in Hc. destruct (check_images _ _); [|done]. cbn in Hc. destruct (transform_response _ _ _ _ _); [|done]. by injection Hc. }
  unfold success, spawn. rewrite Hrt. intros [= <- <- <-].
  eexists _, _. split; [by left|]. split; [exact Hu|]. split.
  { cbn. rewrite Hm. unfold non_null in Hp. destruct (rq_pricing q) as [v|]; [|done]. cbn in Hp. by destruct (is_null v). }
  split; [reflexivity|]. unfold served_answer, price. rewrite Hp, Hi, Hu. cbn [bool_decide is_Some orb].
  rewrite !bool_decide_eq_false_2 by (by intros []). cbn [orb]. split.
  - intros c Hs. apply canonical_cost in Hs; [|done]. by eapply priced_cost.
  - intros Hep Hecho Hob. destruct usage as [| | | | |u]; try done. eapply cost_is_shown; [done|]. unfold surface_answer.
    by rewrite Hecho, identity_usage.
Qed.
End Costs.

Section Witness.
#[local] Existing Instances sample_json sample_sha sample_hex sample_base64 sample_decimals.
Definition sample_effort (v : value) : option ReasoningEffort :=
  match v with
  | JString s => List.find (fun e => bool_decide (effort_as_str e = s)) [NoEffort; Minimal; Low; Medium; High; Xhigh; Max]
  | _ => None
  end.
#[local] Program Instance sample_reasoning : ReasoningSerde := {|
  public_from_value v :=
    if is_object v then
      Ok (mkPublic (get "effort" v ≫= sample_effort) (get "max_tokens" v ≫= as_u64) (get "enabled" v ≫= as_bool) (get "exclude" v ≫= as_bool))
    else Err "expected an object";
  effort_from_value v := ok_or "unknown variant" (sample_effort v);
|}.
Next Obligation. by intros []. Qed.
Definition sample_request : Request :=
  mkRequest SurfaceOpenai "r1" (mkIdentity "r1" (Some "glm")) ChatComplete sample_first [] false sample_routes None None false false.
Definition sample_consult : PreConsult := mkConsult true None None None (Some sample_routes) (mkTenant (Some 7%Z) None) None None None None.
Definition sample_shaped : list Shaped := [("near:glm", sample_first, ChatComplete); ("near:glm2", sample_first, ChatComplete)].
Definition sample_journal : Journal := set_in_flight "near:glm2" 1 (record_abandoned (mkFailedAttempt "near:glm" 429 40) (set_in_flight "near:glm" 0 journal_new)).
Lemma sample_journal_suspended : suspended sample_journal.
Proof.
  exists Trying. split; [done|]. apply (walk_tries (record_abandoned (mkFailedAttempt "near:glm" 429 40) (set_in_flight "near:glm" 0 journal_new)) "near:glm2").
  apply walk_abandons, (walk_tries journal_new "near:glm"), walk_starts, walk_prepares.
Qed.
Definition sample_moment : Moment := mkMoment 90 None false true.
Definition sample_meter : Meter := new_meter sample_request "/v1/chat/completions" sample_consult None.

(** The client leaves while the second route is tried; and a stream whose finalizer fails
    after the meter has settled. *)
Definition sample_streaming : MiddlewareStreamingForwarded :=
  mkMiddlewareStreaming "rcpt-1" "kd" 200 ∅ []
    (mkReceiptDraft None "rcpt-1" (builder_new "rcpt-1" None None "kd" "/v1/chat/completions" "POST" 0) "/v1/chat/completions" false None)
    "near:glm2" "/v1/chat/completions" [mkFailedAttempt "near:glm" 429 40] None.
Definition sample_life : StreamLife :=
  mkLife OpenaiChat false 2 [(sample_moment, SseTransform.ReplyChunk (as_bytes "data: [DONE]" ++ [lf; lf])); (sample_moment, SseTransform.ReplyEnd)] (Some sample_moment) sample_moment.
Lemma sample_life_in_runtime : life_in_runtime sample_life.
Proof. split; [by repeat constructor|]. split; [done|]. by intros at_ [= <-]. Qed.
Definition sample_usage : value := JObject [("prompt_tokens", JNumber (PosInt 10)); ("completion_tokens", JNumber (PosInt 4)); ("cost", JNumber (PosInt 0))].
Definition sample_served : value := JObject [("id", JString "up-1"); ("choices", JArray []); ("usage", sample_usage)].
Definition sample_forwarded : MiddlewareForwarded :=
  mkMiddlewareForwarded "rcpt-1" (mkReceiptDraft None "rcpt-1" (builder_new "rcpt-1" None None "kd" "/v1/chat/completions" "POST" 0) "/v1/chat/completions" false None)
    200 (to_vec sample_served) ∅ "near:glm" "/v1/chat/completions" [] None.
Definition sample_paid : Request :=
  mkRequest SurfaceOpenai "r1" (mkIdentity "r1" (Some "glm")) ChatComplete sample_first [] false sample_routes None (Some sample_pricing) false false.
Definition sample_paid_meter : Meter :=
  new_meter sample_paid "/v1/chat/completions" (mkConsult true None None (Some sample_pricing) None (mkTenant None None) None None None None) None.
(** The upstream claims the answer was free. *)
Lemma buffered_cost_is_billed_witness : exists answer c,
  (answer_success sample_moment (mkClock 0 0 0) sample_paid sample_forwarded sample_paid_meter).2 =
    Receipted (mf_receipt sample_forwarded) 200 (to_vec answer) /\
  shown_cost answer = Some c /\ c = cost_to_json (compute_cost sample_usage sample_pricing) /\ c ≠ JNumber (PosInt 0).
Proof.
  destruct (answer_success sample_moment (mkClock 0 0 0) sample_paid sample_forwarded sample_paid_meter) as [[m' reports] reply] eqn:Ha.
  destruct (buffered_cost_is_billed sample_moment (mkClock 0 0 0) sample_paid sample_forwarded sample_paid_meter m' reports reply
    sample_served None sample_pricing sample_usage) as (row & answer & _ & _ & _ & Hr & Hcost & Hshown);
    [done|by left|by vm_compute|done|done|done|exact Ha|].
  destruct Hshown as [c Hc]; [by left|done..|]. exists answer, c. split; [exact Hr|]. split; [exact Hc|].
  rewrite (Hcost c Hc). split; [reflexivity|]. by vm_compute.
Defined.
(** The second description of a route is dropped, and a bridged request's answer read as chat. *)
Definition sample_ask : value := JObject [("model", JString "glm"); ("input", JString "hi")].
Definition sample_twins : list RouteCandidate := [sample_route; mkRoute "near:glm" Anthropic None None None [] false].
Definition sample_prepared : Prepared :=
  default (mkPrepared JNull ChatComplete None false None None) (result_ok (prepare CreateModelResponse sample_ask)).
Definition sample_bodies : list Shaped :=
  default [] (shaped_candidates sample_prepared (drop_conflicting_route_twins sample_twins) ≫= result_ok).
Lemma answer_read_as_asked_witness : exists body, sample_bodies = [("near:glm", body, ChatComplete)] /\
  let s := selected_route (drop_conflicting_route_twins sample_twins) "near:glm" (path ChatComplete) true CreateModelResponse in
  sl_endpoint s = ChatComplete /\ exists c, c ∈ sample_twins /\ rt_route_id c = "near:glm" /\ sl_format s = rt_format c.
Proof.
  destruct sample_bodies as [|[[route body] upstream] rest] eqn:Hb; [by vm_compute in Hb|].
  assert (route = "near:glm" /\ upstream = ChatComplete /\ rest = []) as (-> & -> & ->).
  { vm_compute in Hb. by injection Hb as <- _ <- <-. }
  exists body. split; [reflexivity|].
  destruct (answer_read_as_asked CreateModelResponse sample_ask sample_prepared sample_twins sample_bodies "near:glm" body ChatComplete)
    as (c & Hc & Hid & _ & Hf & He & _).
  - by vm_compute.
  - by apply value_wfb_spec; vm_compute.
  - by vm_compute.
  - rewrite Hb. by left.
  - split; [exact He|]. by exists c.
Defined.
End Witness.
