(* ===== verification/Router.v ===== *)
(** * Routing by model (src/aci/upstream/router.rs, openai.rs and streaming_usage.rs)

    The router maps a public model id, or a route id the middleware chose, to a backend
    and the model id that backend knows.  The body is rewritten when the request is
    prepared, before it is verified and hashed.  A backend is any type with the methods of
    the trait that routing uses. *)
From Stdlib Require Import SpecFloat.
From S2P Require Import Prelude Text Json External Errors Upstream Sanitize Sample.

(** [UpstreamBackend], as far as a router uses it.  A forwarding method acts on the world
    the backend lives in (its connections and whatever answers there). *)
Class UpstreamBackend (B : Type) := {
  backend_world : Type;
  backend_name : B -> string;
  backend_url_origin : B -> option string;
  backend_requires_verified_binding : B -> PreparedUpstreamRequest -> bool;
  backend_forward : B -> UpstreamRequest -> backend_world -> backend_world * result UpstreamError UpstreamResponse;
  backend_forward_verified_prepared :
    B -> PreparedUpstreamRequest -> UpstreamVerifiedEvent -> backend_world -> backend_world * result UpstreamError UpstreamResponse;
  backend_forward_stream : B -> UpstreamRequest -> backend_world -> backend_world * result UpstreamError UpstreamStreamResponse;
  backend_forward_stream_verified_prepared :
    B -> PreparedUpstreamRequest -> UpstreamVerifiedEvent -> backend_world -> backend_world * result UpstreamError UpstreamStreamResponse;
}.

(** ** Bodies *)
Section Bodies.
Context {SJ : SerdeJson}.

Definition request_model_id (body : bytes) : option string :=
  if bool_decide (body = []) then None
  else match from_slice body with Ok parsed => get "model" parsed ≫= as_str | Err _ => None end.
Definition rewrite_request_model (body : bytes) (upstream_model_id : string) : result UpstreamError bytes :=
  parsed ← map_err (fun e => Routing ("invalid JSON request body: " +:+ e)) (from_slice body);
  match parsed with
  | JObject obj =>
      match obj_get "model" obj with
      | Some (JString _) => Ok (to_vec (JObject (obj_insert "model" (JString upstream_model_id) obj)))
      | _ => Err (Routing "request body must contain a string model field")
      end
  | _ => Err (Routing "request body must be a JSON object")
  end.

Inductive StreamingUsage : Type := Final | Continuous.
#[global] Instance StreamingUsage_eq_dec : EqDecision StreamingUsage.
Proof. solve_decision. Defined.
Definition supports_streaming_usage (path : string) : bool := ends_with "/chat/completions" path || ends_with "/completions" path.
Definition usage_options (policy : StreamingUsage) (options : object) : object :=
  let options := obj_insert "include_usage" (JBool true) options in
  match policy with Continuous => obj_insert "continuous_usage_stats" (JBool true) options | Final => options end.
Definition apply_streaming_usage (policy : StreamingUsage) (request : UpstreamRequest) : result UpstreamError UpstreamRequest :=
  if negb (from_option supports_streaming_usage false (ur_path request)) then Ok request
  else
    body ← map_err Routing (from_slice (ur_body request));
    if negb (bool_decide (get "stream" body = Some (JBool true))) then Ok request
    else
      match body with
      | JObject m =>
          let options := match obj_get "stream_options" m with Some (JObject options) => options | _ => [] end in
          Ok (with_body request (to_vec (JObject (obj_insert "stream_options" (JObject (usage_options policy options)) m))))
      | _ => Err (Routing "request body must be an object")
      end.
(** The rewritten body is an object, so that the assignment to a member inserts it. *)
Definition force_verbose (body : bytes) : result UpstreamError bytes :=
  metadata ← map_err Errors.InvalidRequest (from_slice body);
  Ok (to_vec (on_object (obj_insert "response_format" (JString "verbose_json")) metadata)).
End Bodies.

(** ** Routes *)
Record ModelRoute (B : Type) : Type := mkModelRoute {
  mr_force_verbose_json : bool;
  mr_public_model_id : string;
  mr_upstream_model_id : string;
  mr_upstream : B;
  mr_route_id : string;
  mr_path : option string;
  mr_streaming_usage : option StreamingUsage;
  mr_is_tee : option bool;
}.
Arguments mkModelRoute {B}.
Arguments mr_force_verbose_json {B}.
Arguments mr_public_model_id {B}.
Arguments mr_upstream_model_id {B}.
Arguments mr_upstream {B}.
Arguments mr_route_id {B}.
Arguments mr_path {B}.
Arguments mr_streaming_usage {B}.
Arguments mr_is_tee {B}.
Record ModelRouterBackend (B : Type) : Type := mkRouter {
  rb_name : string;
  rb_routes : gmap string (ModelRoute B);
  rb_default_routes : gmap string string;
  rb_order : list string;
}.
Arguments mkRouter {B}.
Arguments rb_name {B}.
Arguments rb_routes {B}.
Arguments rb_default_routes {B}.
Arguments rb_order {B}.

Section Router.
Context {SJ : SerdeJson} {B : Type} {UB : UpstreamBackend B}.

Definition blank (s : string) : bool := bool_decide (trim s = "").
Definition route_new (public_model_id upstream_model_id : string) (upstream : B) (route_id : string) : result UpstreamError (ModelRoute B) :=
  if blank public_model_id then Err (Routing "public model id must not be empty")
  else if blank upstream_model_id then Err (Routing "upstream model id must not be empty")
  else if blank route_id then Err (Routing "route id must not be empty")
  else Ok (mkModelRoute false public_model_id upstream_model_id upstream route_id None None None).
Definition with_path (path : option string) (r : ModelRoute B) : ModelRoute B :=
  mkModelRoute (mr_force_verbose_json r) (mr_public_model_id r) (mr_upstream_model_id r) (mr_upstream r) (mr_route_id r)
    ((fun p => if starts_with "/" p then p else "/" +:+ p) <$> path) (mr_streaming_usage r) (mr_is_tee r).
Definition with_force_verbose_json (enabled : bool) (r : ModelRoute B) : ModelRoute B :=
  mkModelRoute enabled (mr_public_model_id r) (mr_upstream_model_id r) (mr_upstream r) (mr_route_id r) (mr_path r) (mr_streaming_usage r) (mr_is_tee r).
Definition with_streaming_usage (policy : option StreamingUsage) (r : ModelRoute B) : ModelRoute B :=
  mkModelRoute (mr_force_verbose_json r) (mr_public_model_id r) (mr_upstream_model_id r) (mr_upstream r) (mr_route_id r) (mr_path r) policy (mr_is_tee r).
Definition with_is_tee (is_tee : option bool) (r : ModelRoute B) : ModelRoute B :=
  mkModelRoute (mr_force_verbose_json r) (mr_public_model_id r) (mr_upstream_model_id r) (mr_upstream r) (mr_route_id r) (mr_path r) (mr_streaming_usage r) is_tee.

Definition router_new (name : string) : ModelRouterBackend B := mkRouter name ∅ ∅ [].
Definition add_route (route : ModelRoute B) (r : ModelRouterBackend B) : result UpstreamError (ModelRouterBackend B) :=
  if bool_decide (is_Some (rb_routes r !! mr_route_id route)) then Err (Routing ("duplicate route id " +:+ debug_str (mr_route_id route)))
  else
    let '(order, defaults) :=
      match rb_default_routes r !! mr_public_model_id route with
      | Some _ => (rb_order r, rb_default_routes r)
      | None => (rb_order r ++ [mr_public_model_id route], <[mr_public_model_id route := mr_route_id route]> (rb_default_routes r))
      end in
    Ok (mkRouter (rb_name r) (<[mr_route_id route := route]> (rb_routes r)) defaults order).
Definition route_for_id (r : ModelRouterBackend B) (route_id : string) : result UpstreamError (ModelRoute B) :=
  ok_or (Routing ("unknown target route " +:+ debug_str route_id)) (rb_routes r !! route_id).
Definition route_for (r : ModelRouterBackend B) (public_model_id : string) : result UpstreamError (ModelRoute B) :=
  route_id ← ok_or (Routing ("no upstream route for model " +:+ debug_str public_model_id)) (rb_default_routes r !! public_model_id);
  route_for_id r route_id.
Definition route_from_prepared (r : ModelRouterBackend B) (req : PreparedUpstreamRequest) : result UpstreamError (ModelRoute B) :=
  route_id ← ok_or (Routing "prepared router request is missing route id") (pr_route_id req);
  route_for_id r route_id.

(** ** Preparing a request *)
Definition on_chat_surface (path : option string) : bool :=
  from_option (fun path => bool_decide (path = "/v1/chat/completions") || bool_decide (path = "/v1/messages")) true path.
Definition resolve_path (route : ModelRoute B) (request : UpstreamRequest) : UpstreamRequest :=
  if on_chat_surface (ur_path request) then
    mkUpstreamRequest (ur_form request) (ur_content_type request) (ur_body request) (ur_headers request)
      (Some (default "/v1/chat/completions" (mr_path route))) (ur_target_route_id request)
  else request.
Definition router_prepare (r : ModelRouterBackend B) (req : UpstreamRequest) : result UpstreamError PreparedUpstreamRequest :=
  body_model_id ← ok_or (Routing "request body must contain a string model field") (request_model_id (ur_body req));
  route ← match ur_target_route_id req with
          | Some route_id => route_for_id r route_id
          | None => route_for r body_model_id
          end;
  body ← rewrite_request_model (ur_body req) (mr_upstream_model_id route);
  body ← (if bool_decide (is_Some (ur_form req)) && mr_force_verbose_json route then force_verbose body else Ok body);
  request ← match mr_streaming_usage route with
            | Some policy => apply_streaming_usage policy (resolve_path route (with_body req body))
            | None => Ok (resolve_path route (with_body req body))
            end;
  Ok (mkPrepared request (backend_name (mr_upstream route)) (backend_url_origin (mr_upstream route)) (mr_upstream_model_id route)
        (Some (mr_route_id route)) (mr_is_tee route)).
Definition router_requires_verified_binding (r : ModelRouterBackend B) (req : PreparedUpstreamRequest) : bool :=
  match route_from_prepared r req with Ok route => backend_requires_verified_binding (mr_upstream route) req | Err _ => false end.

(** ** Forwarding *)
Definition call (A : Type) : Type := backend_world -> backend_world * result UpstreamError A.
(** [?]: an error is returned before anything is called. *)
Definition try_call {A C : Type} (r : result UpstreamError A) (k : A -> call C) : call C :=
  fun w => match r with Ok a => k a w | Err e => (w, Err e) end.
Definition router_forward_prepared (r : ModelRouterBackend B) (req : PreparedUpstreamRequest) : call UpstreamResponse :=
  try_call (route_from_prepared r req) (fun route => backend_forward (mr_upstream route) (pr_request req)).
Definition router_forward (r : ModelRouterBackend B) (req : UpstreamRequest) : call UpstreamResponse :=
  try_call (router_prepare r req) (router_forward_prepared r).
Definition router_forward_verified_prepared (r : ModelRouterBackend B) (req : PreparedUpstreamRequest) (event : UpstreamVerifiedEvent) :
    call UpstreamResponse :=
  try_call (route_from_prepared r req) (fun route => backend_forward_verified_prepared (mr_upstream route) req event).
Definition router_forward_stream_prepared (r : ModelRouterBackend B) (req : PreparedUpstreamRequest) : call UpstreamStreamResponse :=
  try_call (route_from_prepared r req) (fun route => backend_forward_stream (mr_upstream route) (pr_request req)).
Definition router_forward_stream (r : ModelRouterBackend B) (req : UpstreamRequest) : call UpstreamStreamResponse :=
  try_call (router_prepare r req) (router_forward_stream_prepared r).
Definition router_forward_stream_verified_prepared (r : ModelRouterBackend B) (req : PreparedUpstreamRequest) (event : UpstreamVerifiedEvent) :
    call UpstreamStreamResponse :=
  try_call (route_from_prepared r req) (fun route => backend_forward_stream_verified_prepared (mr_upstream route) req event).

(** ** The model list *)
Definition model_object (name public : string) : value :=
  JObject [("id", JString public); ("object", JString "model"); ("owned_by", JString name)].
Definition listed_model (r : ModelRouterBackend B) (public : string) : option value :=
  route_id ← rb_default_routes r !! public;
  route ← rb_routes r !! route_id;
  Some (model_object (rb_name r) (mr_public_model_id route)).
Definition listed_models (r : ModelRouterBackend B) : list value := omap (listed_model r) (rb_order r).
Definition router_models (r : ModelRouterBackend B) : UpstreamResponse :=
  mkUpstreamResponse 200 (to_vec (JObject [("object", JString "list"); ("data", JArray (listed_models r))]))
    {["content-type" := "application/json"]} None.

(** ** The table a router stands for *)
(** The routes in the order they were added: a lookup by id finds the only one, a lookup by
    model the first. *)
Definition with_id (route_id : string) (table : list (ModelRoute B)) : option (ModelRoute B) :=
  List.find (fun route => bool_decide (mr_route_id route = route_id)) table.
Definition first_for (public : string) (table : list (ModelRoute B)) : option (ModelRoute B) :=
  List.find (fun route => bool_decide (mr_public_model_id route = public)) table.
(** The first occurrences. *)
Fixpoint first_occurrences (seen l : list string) : list string :=
  match l with
  | [] => []
  | x :: l => if bool_decide (x ∈ seen) then first_occurrences seen l else x :: first_occurrences (x :: seen) l
  end.
Record implements (r : ModelRouterBackend B) (table : list (ModelRoute B)) : Prop := {
  im_ids : NoDup (mr_route_id <$> table);
  im_routes id : rb_routes r !! id = with_id id table;
  im_defaults public : rb_default_routes r !! public = mr_route_id <$> first_for public table;
  im_order : rb_order r = first_occurrences [] (mr_public_model_id <$> table);
}.

Lemma with_id_None id table : with_id id table = None <-> id ∉ (mr_route_id <$> table).
Proof.
  unfold with_id. induction table as [|route table IH]; cbn; [by split; [intros _ ?%elem_of_nil|]|].
  rewrite not_elem_of_cons, <- IH. case_bool_decide; naive_solver.
Qed.
Lemma first_for_None public table : first_for public table = None <-> public ∉ (mr_public_model_id <$> table).
Proof.
  unfold first_for. induction table as [|route table IH]; cbn; [by split; [intros _ ?%elem_of_nil|]|].
  rewrite not_elem_of_cons, <- IH. case_bool_decide; naive_solver.
Qed.
Lemma first_occurrences_snoc seen l x :
  first_occurrences seen (l ++ [x]) = first_occurrences seen l ++ if bool_decide (x ∈ seen ++ l) then [] else [x].
Proof.
  revert seen. induction l as [|y l IH]; intros seen; cbn; [by rewrite app_nil_r; case_bool_decide|].
  case_bool_decide as Hy; rewrite IH; cbn; [|f_equal]; f_equal.
  - by rewrite (bool_decide_ext (x ∈ seen ++ y :: l) (x ∈ seen ++ l)) by set_solver.
  - by rewrite (bool_decide_ext (x ∈ seen ++ y :: l) (x ∈ y :: seen ++ l)) by set_solver.
Qed.
Lemma implements_new name : implements (router_new name) [].
Proof. split; [apply NoDup_nil_2|intros; apply lookup_empty|intros; apply lookup_empty|done]. Qed.
Lemma implements_add r table route : implements r table -> mr_route_id route ∉ (mr_route_id <$> table) ->
  exists r', add_route route r = Ok r' /\ rb_name r' = rb_name r /\ implements r' (table ++ [route]).
Proof.
  intros [Hids Hroutes Hdefaults Horder] Hfresh. unfold add_route. rewrite Hroutes, (proj2 (with_id_None _ _) Hfresh).
  rewrite bool_decide_false by (by intros []). rewrite Hdefaults.
  assert (NoDup (mr_route_id <$> table ++ [route])) as Hnd.
  { rewrite fmap_app. apply NoDup_app. split; [done|]. split; [set_solver|apply NoDup_singleton]. }
  assert (forall id, <[mr_route_id route := route]> (rb_routes r) !! id = with_id id (table ++ [route])) as Hlook.
  { intros id. unfold with_id. rewrite find_app. fold (with_id id table). destruct (decide (id = mr_route_id route)) as [->|Hne].
    - rewrite lookup_insert_eq, (proj2 (with_id_None _ _) Hfresh). cbn. by rewrite bool_decide_true.
    - rewrite lookup_insert_ne by done. rewrite Hroutes. destruct (with_id id table); [done|]. cbn. by rewrite bool_decide_false. }
  destruct (first_for (mr_public_model_id route) table) as [first|] eqn:Hf; cbn; eexists; (split; [reflexivity|]); (split; [done|]); split; try done; cbn.
  - intros public. rewrite Hdefaults. unfold first_for at 2. rewrite find_app. fold (first_for public table).
    destruct (first_for public table) eqn:Hp; [done|]. cbn. case_bool_decide as Heq; [|done]. subst public. congruence.
  - rewrite Horder, fmap_app. cbn. rewrite first_occurrences_snoc, bool_decide_true, app_nil_r; [done|].
    destruct (decide (mr_public_model_id route ∈ (mr_public_model_id <$> table))) as [|Hn%first_for_None]; [done|congruence].
  - intros public. unfold first_for. rewrite find_app. fold (first_for public table). destruct (decide (public = mr_public_model_id route)) as [->|Hne].
    + rewrite lookup_insert_eq, Hf. cbn. by rewrite bool_decide_true.
    + rewrite lookup_insert_ne, Hdefaults by done. destruct (first_for public table); [done|]. cbn. by rewrite bool_decide_false.
  - rewrite Horder, fmap_app. cbn. rewrite first_occurrences_snoc, bool_decide_false; [done|]. by apply first_for_None.
Qed.
Lemma implements_route_for_id r table id : implements r table -> result_ok (route_for_id r id) = with_id id table.
Proof. intros [_ Hr _ _]. unfold route_for_id. rewrite Hr. by destruct (with_id id table). Qed.
Lemma with_id_unique table route : NoDup (mr_route_id <$> table) -> route ∈ table -> with_id (mr_route_id route) table = Some route.
Proof.
  intros Hnd Hin. induction table as [|route' table IH]; [by apply elem_of_nil in Hin|]. cbn in *. apply NoDup_cons in Hnd as [Hn Hnd].
  apply elem_of_cons in Hin as [->|Hin]; [by rewrite bool_decide_true|]. rewrite bool_decide_false; [by apply IH|].
  intros Heq. apply Hn. rewrite Heq. by apply list_elem_of_fmap_2.
Qed.
Lemma first_for_elem public table route : first_for public table = Some route -> route ∈ table /\ mr_public_model_id route = public.
Proof. intros Hf. apply List.find_some in Hf as [Hin Heq%bool_decide_eq_true]. by split; [apply list_elem_of_In|]. Qed.
Lemma implements_route_for r table public : implements r table -> result_ok (route_for r public) = first_for public table.
Proof.
  intros Him. pose proof Him as [Hids _ Hd _]. unfold route_for. rewrite Hd. destruct (first_for public table) as [route|] eqn:Hf; [|done]. cbn.
  rewrite (implements_route_for_id _ _ _ Him). apply first_for_elem in Hf as [Hin _]. by apply with_id_unique.
Qed.
Lemma first_occurrences_spec seen l : NoDup (first_occurrences seen l) /\ forall x, x ∈ first_occurrences seen l <-> x ∈ l /\ x ∉ seen.
Proof.
  revert seen. induction l as [|y l IH]; intros seen; cbn; [split; [apply NoDup_nil_2|intros x; rewrite !elem_of_nil; naive_solver]|].
  case_bool_decide as Hy.
  - destruct (IH seen) as [Hnd Hin]. split; [done|]. intros x. rewrite Hin, elem_of_cons. naive_solver.
  - destruct (IH (y :: seen)) as [Hnd Hin]. split; [apply NoDup_cons; rewrite Hin; set_solver|]. intros x. rewrite !elem_of_cons, Hin, not_elem_of_cons.
    destruct (decide (x = y)); naive_solver.
Qed.
Lemma implements_models r table : implements r table ->
  listed_models r = model_object (rb_name r) <$> first_occurrences [] (mr_public_model_id <$> table).
Proof.
  intros Him. pose proof Him as [Hids Hr Hd Ho]. unfold listed_models. rewrite Ho.
  assert (forall l : list string, (forall x, x ∈ l -> x ∈ (mr_public_model_id <$> table : list string)) ->
    omap (listed_model r) l = (model_object (rb_name r) <$> l : list value)) as Hall.
  { induction l as [|x l IH]; intros Hin; [done|]. cbn. unfold listed_model at 1. rewrite Hd. destruct (first_for x table) as [route|] eqn:Hf.
    - cbn. rewrite Hr. apply first_for_elem in Hf as [Hel Hx]. rewrite with_id_unique by done. cbn. rewrite Hx. f_equal. apply IH. set_solver.
    - apply first_for_None in Hf. exfalso. apply Hf, Hin. by left. }
  apply Hall. intros x Hx. by apply first_occurrences_spec in Hx as [? _].
Qed.
End Router.

(** ** What a prepared request says *)
(** A document with its fractional numbers struck out.  Two documents that agree in this
    differ at most in fractional numbers. *)
Fixpoint blur (v : value) : value :=
  match v with
  | JNumber (Float _) => JNumber (Float (S754_zero false))
  | JArray l => JArray (blur <$> l)
  | JObject m => JObject ((fun kv => (kv.1, blur kv.2)) <$> m)
  | _ => v
  end.
(** [serde_json] without its [float_roundtrip] feature: reading a document back that was
    printed may change its fractional numbers, in the last digit, and nothing else. *)
Class ReadsBack {SJ : SerdeJson} := {
  reads_back v v' : value_wf v -> from_slice (to_vec v) = Ok v' -> blur v' = blur v;
}.
Lemma blur_object_inv v m : blur v = JObject m -> exists m', v = JObject m' /\ m = ((fun kv => (kv.1, blur kv.2)) <$> m').
Proof. destruct v as [| |[]| | |m']; try done. intros [= <-]. by exists m'. Qed.
Lemma blur_get k m : obj_get k ((fun kv => (kv.1, blur kv.2)) <$> m) = blur <$> obj_get k m.
Proof. induction m as [|[k' v] m IH]; cbn; [done|]. by case_bool_decide. Qed.
Lemma blur_member k m m' : blur (JObject m') = blur (JObject m) -> blur <$> obj_get k m' = blur <$> obj_get k m.
Proof. intros [= H]. by rewrite <- !blur_get, H. Qed.
Lemma blur_insert k x m m' : blur (JObject m') = blur (JObject m) ->
  forall k', blur <$> obj_get k' (obj_insert k x m') = blur <$> obj_get k' (obj_insert k x m).
Proof. intros H k'. rewrite !obj_get_insert. case_bool_decide; [done|]. by apply blur_member. Qed.
Lemma blur_string v s : blur v = JString s -> v = JString s.
Proof. by destruct v as [| |[]| | |]. Qed.
(** Struck out or not, a document without fractional numbers is the same. *)
Lemma blur_float_free v v' : float_free v -> blur v' = blur v -> v' = v.
Proof.
  assert (forall v, float_free v -> blur v = v) as Hid.
  { clear v v'. induction v as [| |n| |l IH|m IH] using value_ind; intros Hf; try done; inv Hf.
    - by destruct n.
    - cbn. f_equal. rewrite <- (list_fmap_id l) at 2. apply list_fmap_ext. intros i x Hx.
      apply list_elem_of_lookup_2 in Hx. rewrite Forall_forall in IH. rewrite Forall_forall in H0. by apply (IH _ Hx), (H0 _ Hx).
    - cbn. f_equal. rewrite <- (list_fmap_id m) at 2. apply list_fmap_ext. intros i [k x] Hx. cbn. f_equal.
      apply list_elem_of_lookup_2 in Hx. rewrite Forall_forall in IH. rewrite Forall_forall in H0. by apply (IH _ Hx), (H0 _ Hx). }
  intros Hf. rewrite (Hid v Hf). revert v Hf.
  induction v' as [| |n| |l IH|m IH] using value_ind; intros v Hf Heq; try (by cbn in Heq; subst).
  - destruct n; cbn in Heq; subst v; by inv Hf.
  - cbn in Heq. subst v. inv Hf. f_equal. revert H0. induction IH as [|x l Hx _ IHl]; [done|]. cbn. intros [? ?]%Forall_cons.
    f_equal; [by apply Hx|by apply IHl].
  - cbn in Heq. subst v. inv Hf. f_equal. revert H0. induction IH as [|[k x] m Hx _ IHm]; [done|]. cbn. intros [? ?]%Forall_cons.
    f_equal; [f_equal; by apply Hx|by apply IHm].
Qed.

Section Requests.
Context {SJ : SerdeJson} {RB : ReadsBack} {B : Type} {UB : UpstreamBackend B}.

(** The members of a request that preparing it may change. *)
Definition REWRITTEN : list string := ["model"; "response_format"; "stream_options"].
Definition same_but (v v' : value) : Prop := forall k, k ∉ REWRITTEN -> get k v' = get k v.
Definition near_but (v v' : value) : Prop := forall k, k ∉ REWRITTEN -> blur <$> get k v' = blur <$> get k v.
Lemma same_but_insert m k x : k ∈ REWRITTEN -> same_but (JObject m) (JObject (obj_insert k x m)).
Proof. intros Hk k' Hk'. cbn [get]. rewrite obj_get_insert, bool_decide_false; [done|]. intros ->. done. Qed.
Lemma near_same v v' : float_free v -> near_but v v' -> same_but v v'.
Proof.
  intros Hf Hn k Hk. specialize (Hn k Hk). destruct (get k v) as [x|] eqn:Hx; destruct (get k v') as [x'|]; try done.
  injection Hn as Hn. f_equal. apply blur_float_free; [|done]. destruct v as [| | | | |m]; try done. inv Hf.
  by eapply (Forall_obj_get (P := float_free)).
Qed.

(** A printed request for a model, with the client's other members. *)
Definition carries (v : value) (id : string) (body : bytes) : Prop :=
  exists m, body = to_vec (JObject m) /\ value_wf (JObject m) /\ obj_get "model" m = Some (JString id) /\ near_but v (JObject m).
Lemma carries_read v id body d : carries v id body -> from_slice body = Ok d ->
  exists m, d = JObject m /\ value_wf (JObject m) /\ obj_get "model" m = Some (JString id) /\ near_but v (JObject m).
Proof.
  intros (m & -> & Hw & Hm & Hn) Hr. pose proof (reads_back _ _ Hw Hr) as Hb. pose proof (from_slice_wf _ _ Hr) as Hwd.
  destruct (blur_object_inv d _ Hb) as (m' & -> & _). exists m'. split; [done|]. split; [done|]. split.
  - pose proof (blur_member "model" _ _ Hb) as Hg. rewrite Hm in Hg. destruct (obj_get "model" m') as [x|]; [|done].
    injection Hg as Hg. by rewrite (blur_string x id).
  - intros k Hk. rewrite <- (Hn k Hk). cbn [get]. by apply blur_member.
Qed.
Lemma carries_insert v id m k x : value_wf (JObject m) -> obj_get "model" m = Some (JString id) -> near_but v (JObject m) ->
  k ∈ REWRITTEN -> k ≠ "model" -> value_wf x -> carries v id (to_vec (JObject (obj_insert k x m))).
Proof.
  intros Hw Hm Hn Hk Hne Hx. eexists. split; [reflexivity|]. split; [by apply obj_insert_wf|]. split.
  - rewrite obj_get_insert, bool_decide_false by done. done.
  - intros k' Hk'. rewrite <- (Hn k' Hk'). f_equal. by apply same_but_insert.
Qed.
Lemma rewritten_model body m id body' : from_slice body = Ok (JObject m) -> rewrite_request_model body id = Ok body' ->
  body' = to_vec (JObject (obj_insert "model" (JString id) m)) /\ carries (JObject m) id body'.
Proof.
  intros Hb. unfold rewrite_request_model. rewrite Hb. cbn [map_err mbind result_bind]. destruct (obj_get "model" m) as [[]|]; try done.
  intros [= <-]. split; [done|]. eexists. split; [reflexivity|]. split; [apply obj_insert_wf; [constructor|by eapply from_slice_wf]|]. split.
  - rewrite obj_get_insert. by rewrite bool_decide_true.
  - intros k Hk. f_equal. apply same_but_insert; [|done]. by apply (bool_decide_unpack _).
Qed.
Lemma verbose_carries v id body body' : carries v id body -> force_verbose body = Ok body' -> carries v id body'.
Proof.
  intros Hc. unfold force_verbose. destruct (from_slice body) as [d|] eqn:Hr; [|done]. cbn [map_err mbind result_bind].
  destruct (carries_read _ _ _ _ Hc Hr) as (m & -> & Hw & Hm & Hn). intros [= <-].
  apply carries_insert; try done; [by apply (bool_decide_unpack _)|constructor].
Qed.
Lemma usage_options_wf policy m : value_wf (JObject m) -> value_wf (JObject (usage_options policy m)).
Proof. intros Hm. unfold usage_options. destruct policy; repeat (apply obj_insert_wf; [constructor|]); done. Qed.
Lemma apply_carries policy v id req req' : carries v id (ur_body req) -> apply_streaming_usage policy req = Ok req' ->
  carries v id (ur_body req') /\ ur_path req' = ur_path req.
Proof.
  intros Hc. unfold apply_streaming_usage. destruct (negb _); [by intros [= <-]|].
  destruct (from_slice (ur_body req)) as [d|] eqn:Hr; [|done]. cbn [map_err mbind result_bind].
  destruct (carries_read _ _ _ _ Hc Hr) as (m & -> & Hw & Hm & Hn). destruct (negb _); intros [= <-]; [done|]. split; [|done].
  apply carries_insert; try done; [by apply (bool_decide_unpack _)|]. apply usage_options_wf.
  assert (value_wf (JObject [])) as Hnil by (repeat constructor).
  inv Hw. destruct (obj_get "stream_options" m) as [[| | | | |options]|] eqn:Hg; try done. by eapply wf_obj_get.
Qed.
(** The route a request is for. *)
Definition chosen (table : list (ModelRoute B)) (req : UpstreamRequest) (v : value) : option (ModelRoute B) :=
  match ur_target_route_id req with
  | Some route_id => with_id route_id table
  | None => get_str "model" v ≫= fun public => first_for public table
  end.
Lemma chosen_elem table req v route : chosen table req v = Some route -> route ∈ table.
Proof.
  unfold chosen. destruct (ur_target_route_id req) as [id|].
  - intros [Hin _]%List.find_some. by apply list_elem_of_In.
  - destruct (get_str "model" v); [|done]. by intros [Hin _]%first_for_elem.
Qed.
Lemma prepared_route r table req p v : implements r table -> router_prepare r req = Ok p -> from_slice (ur_body req) = Ok v ->
  exists route, chosen table req v = Some route /\ pr_upstream_name p = backend_name (mr_upstream route) /\ pr_url_origin p = backend_url_origin (mr_upstream route) /\
    pr_model_id p = mr_upstream_model_id route /\ pr_is_tee p = mr_is_tee route /\ pr_route_id p = Some (mr_route_id route).
Proof.
  intros Him Hp Hv. unfold router_prepare, request_model_id in Hp. destruct (bool_decide (ur_body req = [])); [done|]. rewrite Hv in Hp.
  destruct (get "model" v ≫= as_str) as [public|] eqn:Hm; [|done]. cbn [ok_or mbind result_bind] in Hp.
  destruct (match ur_target_route_id req with Some _ => _ | None => _ end) as [route|] eqn:Hr; [|done]. cbn [mbind result_bind] in Hp.
  exists route. split.
  - unfold chosen. change (get_str "model" v) with (get "model" v ≫= as_str). rewrite Hm. cbn [mbind option_bind].
    destruct (ur_target_route_id req); [rewrite <- (implements_route_for_id _ _ _ Him)|rewrite <- (implements_route_for _ _ _ Him)]; by rewrite Hr.
  - destruct (rewrite_request_model _ _); [|done]. cbn [mbind result_bind] in Hp. destruct (if _ : bool then _ else _); [|done]. cbn [mbind result_bind] in Hp.
    destruct (match mr_streaming_usage route with Some _ => _ | None => _ end); [|done]. cbn [mbind result_bind] in Hp. by injection Hp as <-.
Qed.

(** What each forwarding method does with a prepared request for a backend: it makes the
    backend's own call, with the request, or with the prepared request and the event. *)
Definition handed_to (r : ModelRouterBackend B) (p : PreparedUpstreamRequest) (b : B) : Prop :=
  forall event w,
    router_forward_prepared r p w = backend_forward b (pr_request p) w /\
    router_forward_stream_prepared r p w = backend_forward_stream b (pr_request p) w /\
    router_forward_verified_prepared r p event w = backend_forward_verified_prepared b p event w /\
    router_forward_stream_verified_prepared r p event w = backend_forward_stream_verified_prepared b p event w.
Lemma prepared_handed r table route p : implements r table -> route ∈ table -> pr_route_id p = Some (mr_route_id route) ->
  handed_to r p (mr_upstream route).
Proof.
  intros Him Hin Hid. assert (route_from_prepared r p = Ok route) as Hr.
  { unfold route_from_prepared. rewrite Hid. cbn [ok_or mbind result_bind].
    pose proof (implements_route_for_id _ _ (mr_route_id route) Him) as Hi. rewrite with_id_unique in Hi; [|apply Him|done].
    by destruct (route_for_id r (mr_route_id route)) as [x|]; [injection Hi as ->|]. }
  intros event w. unfold router_forward_prepared, router_forward_stream_prepared, router_forward_verified_prepared,
    router_forward_stream_verified_prepared, try_call. by rewrite Hr.
Qed.
(** Whether the body is read again after its model was rewritten. *)
Definition reread (route : ModelRoute B) (req : UpstreamRequest) : bool :=
  bool_decide (is_Some (ur_form req)) && mr_force_verbose_json route || bool_decide (is_Some (mr_streaming_usage route)).
Lemma prepared_body r req p v route : router_prepare r req = Ok p -> from_slice (ur_body req) = Ok v ->
  result_ok match ur_target_route_id req with
    | Some id => route_for_id r id | None => public ← ok_or (Routing "") (get_str "model" v); route_for r public end = Some route ->
  ur_path (pr_request p) = (if on_chat_surface (ur_path req) then Some (default "/v1/chat/completions" (mr_path route)) else ur_path req) /\
  carries v (mr_upstream_model_id route) (ur_body (pr_request p)) /\
  (reread route req = false -> exists m, v = JObject m /\
     ur_body (pr_request p) = to_vec (JObject (obj_insert "model" (JString (mr_upstream_model_id route)) m))).
Proof.
  intros Hp Hv Hroute. unfold router_prepare, request_model_id in Hp. destruct (bool_decide (ur_body req = [])); [done|]. rewrite Hv in Hp.
  change (get_str "model" v) with (get "model" v ≫= as_str) in Hroute.
  destruct (get "model" v ≫= as_str) as [public|] eqn:Hm; [|done]. cbn [ok_or mbind result_bind] in Hp, Hroute.
  destruct (match ur_target_route_id req with Some _ => _ | None => _ end) as [route'|] eqn:Hr; [|done]. cbn [mbind result_bind] in Hp.
  injection Hroute as ->.
  destruct v as [| | | | |m]; try done.
  destruct (rewrite_request_model _ _) as [body1|] eqn:H1; [|done]. cbn [mbind result_bind] in Hp.
  apply (rewritten_model _ _ _ _ Hv) in H1 as [Hexact H1].
  destruct (if bool_decide (is_Some (ur_form req)) && mr_force_verbose_json route then _ else _) as [body2|] eqn:H2; [|done]. cbn [mbind result_bind] in Hp.
  assert (carries (JObject m) (mr_upstream_model_id route) body2) as Hc2.
  { destruct (_ && _); [by eapply verbose_carries|by injection H2 as <-]. }
  set (req1 := resolve_path route (with_body req body2)) in Hp.
  assert (ur_body req1 = body2) as Hb by (unfold req1, resolve_path; by destruct (on_chat_surface _)).
  assert (ur_path req1 = if on_chat_surface (ur_path req) then Some (default "/v1/chat/completions" (mr_path route)) else ur_path req) as Hpath
    by (unfold req1, resolve_path; cbn [with_body ur_path]; by destruct (on_chat_surface (ur_path req))).
  destruct (match mr_streaming_usage route with Some _ => _ | None => _ end) as [request|] eqn:H3; [|done]. cbn [mbind result_bind] in Hp. injection Hp as <-.
  cbn [pr_request]. rewrite <- Hpath. unfold reread. destruct (mr_streaming_usage route) as [policy|].
  - apply (apply_carries policy (JObject m) (mr_upstream_model_id route)) in H3 as [? ?]; [|by rewrite Hb].
    split_and!; try done. rewrite (bool_decide_true (is_Some (Some policy))) by done. by rewrite orb_true_r.
  - injection H3 as <-. rewrite Hb. split_and!; try done. intros Hre. apply orb_false_iff in Hre as [Hre _]. rewrite Hre in H2.
    injection H2 as <-. by exists m.
Qed.

(** C10: What is verified, hashed and sent is one request to one upstream.  A request the router
    prepares is for the route its id names, or else for the first route that was added for its
    model; its name, origin, model and classification are that route's, and each of the four
    forwarding methods makes that backend's own call with it.  Its body is the printed document
    of the client's with the upstream's model id in which at most the model, the response
    format and the stream options differ; where the route makes the router read the document
    again after its model was rewritten, the fractional numbers in the other members are the
    ones the second reading gave, so that the members are surely the same only when the body
    has none. *)
Theorem prepared_request_is_the_request r table req p v :
  implements r table -> router_prepare r req = Ok p -> from_slice (ur_body req) = Ok v ->
  exists route d, chosen table req v = Some route /\ handed_to r p (mr_upstream route) /\
    pr_upstream_name p = backend_name (mr_upstream route) /\ pr_url_origin p = backend_url_origin (mr_upstream route) /\
    pr_model_id p = mr_upstream_model_id route /\ pr_is_tee p = mr_is_tee route /\
    ur_path (pr_request p) = (if on_chat_surface (ur_path req) then Some (default "/v1/chat/completions" (mr_path route)) else ur_path req) /\
    ur_body (pr_request p) = to_vec d /\ get_str "model" d = Some (mr_upstream_model_id route) /\ near_but v d /\
    (reread route req = false \/ float_free v -> same_but v d).
Proof.
  intros Him Hp Hv. destruct (prepared_route r table req p v Him Hp Hv) as (route & Hch & Hname & Horigin & Hmodel & Htee & Hid).
  assert (result_ok match ur_target_route_id req with Some id => route_for_id r id
    | None => public ← ok_or (Routing "") (get_str "model" v); route_for r public end = Some route) as Hroute.
  { rewrite <- Hch. unfold chosen. destruct (ur_target_route_id req); [by apply implements_route_for_id|].
    destruct (get_str "model" v); [|done]. by apply implements_route_for. }
  destruct (prepared_body r req p v route Hp Hv Hroute) as (Hpath & (m & Hbody & Hw & Hmid & Hnear) & Hexact).
  assert (handed_to r p (mr_upstream route)) as Hto by (eapply prepared_handed; [done|by eapply chosen_elem|done]).
  destruct (reread route req) eqn:Hre.
  - exists route, (JObject m). split_and!; try done; [unfold get_str; cbn [get]; by rewrite Hmid|]. intros [?|Hf]; [congruence|by apply near_same].
  - destruct (Hexact eq_refl) as (m0 & -> & Hb). exists route, (JObject (obj_insert "model" (JString (mr_upstream_model_id route)) m0)).
    assert (same_but (JObject m0) (JObject (obj_insert "model" (JString (mr_upstream_model_id route)) m0))) as Hs
      by (apply same_but_insert; by apply (bool_decide_unpack _)).
    split_and!; try done.
    + unfold get_str. cbn [get]. rewrite obj_get_insert. by rewrite bool_decide_true.
    + intros k Hk. f_equal. by apply Hs.
Qed.
End Requests.

Section Witness.
#[local] Existing Instance sample_json.
#[local] Instance sample_reads_back : ReadsBack.
Proof.
  split. intros v v' Hw Hr. f_equal. unfold from_slice, to_vec, sample_json, sample_from_slice, sample_to_vec in Hr.
  rewrite bool_decide_eq_true_2, bits_pos_bits, decode_encode in Hr by done. by repeat case_match; simplify_eq.
Qed.
(** The backend records the bytes it is sent. *)
#[local] Instance sample_backend : UpstreamBackend (string * string) := {|
  backend_world := list bytes;
  backend_name b := b.1;
  backend_url_origin b := Some b.2;
  backend_requires_verified_binding _ _ := false;
  backend_forward b req sent := (sent ++ [ur_body req], Err (Transport b.1));
  backend_forward_verified_prepared b req event sent := (sent ++ [ur_body (pr_request req)], Err (Transport b.1));
  backend_forward_stream b req sent := (sent ++ [ur_body req], Err (Transport b.1));
  backend_forward_stream_verified_prepared b req event sent := (sent ++ [ur_body (pr_request req)], Err (Transport b.1));
|}.
Definition sample_entry (name public : string) : ModelRoute (string * string) :=
  mkModelRoute false public (name +:+ "-" +:+ public) (name, "https://a.example") (name +:+ ":" +:+ public) None (Some Continuous) (Some true).
Definition sample_table : list (ModelRoute (string * string)) := [sample_entry "near" "glm"; sample_entry "phala" "glm"].
Definition sample_router : ModelRouterBackend (string * string) :=
  default (router_new "r") (result_ok (r ← add_route (sample_entry "near" "glm") (router_new "r"); add_route (sample_entry "phala" "glm") r)).
Lemma sample_implements : implements sample_router sample_table.
Proof.
  destruct (implements_add (router_new "r") [] (sample_entry "near" "glm") (implements_new "r")) as (r1 & H1 & _ & Him1); [by intros ?%elem_of_nil|].
  destruct (implements_add r1 _ (sample_entry "phala" "glm") Him1) as (r2 & H2 & _ & Him2); [apply (bool_decide_unpack _); by vm_compute|].
  unfold sample_router. rewrite H1. cbn [mbind result_bind]. rewrite H2. exact Him2.
Qed.
Definition sample_body : value := JObject [("model", JString "glm"); ("stream", JBool true); ("messages", JArray [])].
Definition sample_asked : UpstreamRequest := mkUpstreamRequest None None (to_vec sample_body) ∅ (Some "/v1/messages") (Some "phala:glm").
Definition sample_prepared : PreparedUpstreamRequest :=
  default (mkPrepared sample_asked "" None "" None None) (result_ok (router_prepare sample_router sample_asked)).
Lemma prepared_request_is_the_request_witness : exists d,
  ur_body (pr_request sample_prepared) = to_vec d /\ get_str "model" d = Some "phala-glm" /\ same_but sample_body d /\
  router_forward_prepared sample_router sample_prepared [] = ([to_vec d], Err (Transport "phala")).
Proof.
  destruct (prepared_request_is_the_request sample_router sample_table sample_asked sample_prepared sample_body)
    as (route & d & Hch & Hto & _ & _ & _ & _ & _ & Hd & Hm & _ & Hsame);
    [exact sample_implements|by vm_compute|by vm_compute|].
  vm_compute in Hch. injection Hch as <-. exists d. split_and!; [done|done|apply Hsame; right; repeat constructor|].
  destruct (Hto upstream_verified_event_default []) as [-> _]. cbn [backend_forward sample_backend]. by rewrite Hd.
Defined.
End Witness.
