(* ===== verification/RouteTable.v ===== *)
(** * The upstream configuration (src/aggregator/upstream_config/)

    The configuration lists upstreams with the models each serves.  It is validated,
    turned into a router ([Router]) and a verifier, and replaced at run time: the file is
    written before the new state is installed.  A [BTreeMap] is the list of its entries in
    key order.  The parser of URLs, the derived parser and printer of a configuration, and
    the construction of HTTP backends and verifiers are parameters. *)
From S2P Require Import Prelude Text Json External Receipt Errors Upstream Sanitize ToolMap Sample Router.

(** ** The configuration *)
Inductive UpstreamProvider : Type :=
| OpenAiCompatible | AnthropicApi | AciService | Chutes | Tinfoil | NearAi | SecretAi | Privatemode | PhalaDirect | ArmetAi | ZeroGPrivateComputer.
#[global] Instance UpstreamProvider_eq_dec : EqDecision UpstreamProvider.
Proof. solve_decision. Defined.
Inductive AttestationScope : Type := PerRouter | PerModel | PerInstance.
Definition attestation_scope (provider : UpstreamProvider) : AttestationScope :=
  match provider with
  | NearAi | Tinfoil | SecretAi | Privatemode => PerRouter
  | Chutes | ZeroGPrivateComputer => PerInstance
  | PhalaDirect | ArmetAi => PerModel
  | OpenAiCompatible | AnthropicApi | AciService => PerModel
  end.
Definition is_per_router (scope : AttestationScope) : bool := match scope with PerRouter => true | _ => false end.
Definition scope_from_declared (token : string) : option AttestationScope :=
  if bool_decide (token = "router") then Some PerRouter
  else if bool_decide (token = "model") then Some PerModel
  else if bool_decide (token = "instance") then Some PerInstance
  else None.
Definition scope_as_declared (scope : AttestationScope) : string :=
  match scope with PerRouter => "router" | PerModel => "model" | PerInstance => "instance" end.
Inductive UpstreamVerifierMode : Type := ModeNone | ModePreverified | ModeAciService.

Record UpstreamConfig : Type := mkUpstreamConfig {
  uc_name : string;
  uc_provider : UpstreamProvider;
  uc_base_url : string;
  uc_path : option string;
  uc_streaming_usage : option StreamingUsage;
  uc_models : list (string * string);
  uc_bearer_token : option string;
  uc_basic_auth : bool;
  uc_accepted_subjects : option (list string);
  uc_accepted_image_digests : option (list string);
  uc_accepted_dstack_kms_root_public_keys : option (list string);
  uc_pccs_url : option string;
  uc_verifier_cache_seconds : option Z;
  uc_connect_timeout_seconds : option Z;
  uc_read_timeout_seconds : option Z;
  uc_verifier_request_timeout_seconds : option Z;
  uc_verification_refresh_seconds : option Z;
  uc_session_refresh_seconds : option Z;
  uc_chutes_e2ee_api_base : option string;
  uc_chutes_chute_ids : option (list (string * string));
  uc_chutes_e2ee_discovery_rounds : option Z;
  uc_chutes_e2ee_discovery_interval_seconds : option Z;
  uc_zg_chain_rpc_url : option string;
  uc_zg_serving_contract : option string;
}.
Record UpstreamRuntimeOptions : Type := mkOptions {
  op_verifier_mode : UpstreamVerifierMode;
  op_verifier_cache_seconds : Z;
  op_verifier_request_timeout_seconds : Z;
}.
Inductive UpstreamConfigError : Type := ReadError (text : string) | WriteError (text : string) | InvalidConfig (text : string).

(** What the administrator is shown. *)
Record PublicUpstreamConfig : Type := mkPublicConfig {
  pc_name : string;
  pc_provider : UpstreamProvider;
  pc_base_url : string;
  pc_path : option string;
  pc_streaming_usage : option StreamingUsage;
  pc_models : list (string * string);
  pc_bearer_token_configured : bool;
  pc_basic_auth : bool;
  pc_accepted_subjects : option (list string);
  pc_accepted_image_digests : option (list string);
  pc_accepted_dstack_kms_root_public_keys : option (list string);
  pc_pccs_url : option string;
  pc_seconds : list (option Z);
  pc_chutes_e2ee_api_base : option string;
  pc_chutes_chute_ids : option (list (string * string));
  pc_chutes_e2ee_discovery_rounds : option Z;
  pc_chutes_e2ee_discovery_interval_seconds : option Z;
}.
(** [pc_seconds] are the six members of that kind, in their order. *)
Definition redacted (u : UpstreamConfig) : PublicUpstreamConfig :=
  mkPublicConfig (uc_name u) (uc_provider u) (uc_base_url u) (uc_path u) (uc_streaming_usage u) (uc_models u) (bool_decide (is_Some (uc_bearer_token u)))
    (uc_basic_auth u) (uc_accepted_subjects u) (uc_accepted_image_digests u) (uc_accepted_dstack_kms_root_public_keys u) (uc_pccs_url u)
    [uc_verifier_cache_seconds u; uc_connect_timeout_seconds u; uc_read_timeout_seconds u; uc_verifier_request_timeout_seconds u;
     uc_verification_refresh_seconds u; uc_session_refresh_seconds u]
    (uc_chutes_e2ee_api_base u) (uc_chutes_chute_ids u) (uc_chutes_e2ee_discovery_rounds u) (uc_chutes_e2ee_discovery_interval_seconds u).

(** ** Validation *)
(** [reqwest::Url]. *)
Record Url : Type := mkUrl {
  url_scheme : string;
  url_host : option string;
  url_username : string;
  url_password : option string;
  url_path : string;
  url_query : option string;
  url_fragment : option string;
}.
Class UrlParser := { parse_url : string -> option Url }.

Definition trim_start_slashes (s : string) : string := of_bytes (trim_start_by (str_len s) [as_bytes "/"] (as_bytes s)).
Definition trim_end_slashes (s : string) : string := of_bytes (trim_end_by [as_bytes "/"] (as_bytes s)).
Definition looks_like_uuid (s : string) : bool :=
  bool_decide (str_len s = 36) && bool_decide (length (split_bytes (fun c => bool_decide (c = u8 45)) (as_bytes s)) = 5) &&
  forallb (fun c => bool_decide (c = u8 45) || is_ascii_hexdigit c) (as_bytes s).
Definition pinned (prefix s : string) : bool :=
  from_option (fun hex => bool_decide (str_len hex = 64) && all_bytes is_lower_hex hex) false (strip_prefix prefix s).
Definition valid_tdx_measurement_subject : string -> bool := pinned "tdx-measurement:sha256:".
Definition valid_tdx_boot_chain_subject : string -> bool := pinned "tdx-boot-chain:sha256:".

Definition refuse_if (bad : bool) (message : string) : result UpstreamConfigError unit := if bad then Err (InvalidConfig message) else Ok ().
Fixpoint for_each {A} (f : A -> result UpstreamConfigError unit) (l : list A) : result UpstreamConfigError unit :=
  match l with
  | [] => Ok ()
  | x :: l => _ ← f x; for_each f l
  end.
Definition is_provider (provider : UpstreamProvider) (u : UpstreamConfig) : bool := bool_decide (uc_provider u = provider).
Definition route_id_of (name public_model : string) : string := name +:+ ":" +:+ public_model.

Section Validation.
Context {HX : HexCodec} {UP : UrlParser}.

Definition valid_root_https_origin (s : string) : bool :=
  match parse_url s with
  | None => false
  | Some origin =>
      bool_decide (url_scheme origin = "https") && bool_decide (is_Some (url_host origin)) && bool_decide (url_username origin = "") &&
      bool_decide (url_password origin = None) && bool_decide (url_path origin = "/") && bool_decide (url_query origin = None) &&
      bool_decide (url_fragment origin = None)
  end.
Definition subjects_of (u : UpstreamConfig) : list string := default [] (uc_accepted_subjects u).
Definition check_armet (u : UpstreamConfig) : result UpstreamConfigError unit :=
  if negb (is_provider ArmetAi u) then Ok ()
  else
    _ ← refuse_if (negb (valid_root_https_origin (uc_base_url u)))
          ("upstream " +:+ debug_str (uc_name u) +:+ " provider armet-ai requires a root HTTPS base_url without userinfo, query, or fragment");
    _ ← refuse_if (bool_decide (subjects_of u = []))
          ("upstream " +:+ debug_str (uc_name u) +:+ " provider armet-ai requires at least one accepted_subjects measurement pin");
    match List.find (fun s => negb (valid_tdx_measurement_subject s)) (subjects_of u) with
    | Some bad => Err (InvalidConfig ("upstream " +:+ debug_str (uc_name u) +:+ " provider armet-ai accepted_subjects entry " +:+ debug_str bad +:+
                                      " must be tdx-measurement:sha256:<64 lowercase hex>"))
    | None => Ok ()
    end.
Definition check_auth (u : UpstreamConfig) : result UpstreamConfigError unit :=
  if negb (uc_basic_auth u) then Ok ()
  else
    _ ← refuse_if (bool_decide (uc_bearer_token u = None)) ("upstream " +:+ debug_str (uc_name u) +:+ " basic_auth requires bearer_token");
    refuse_if (negb (is_provider OpenAiCompatible u || is_provider Chutes u))
      ("upstream " +:+ debug_str (uc_name u) +:+ " basic_auth is supported only for openai-compatible or chutes providers").
Definition check_timeouts (u : UpstreamConfig) : result UpstreamConfigError unit :=
  for_each (fun '(field, v) => refuse_if (bool_decide (v = Some 0%Z)) ("upstream " +:+ debug_str (uc_name u) +:+ " " +:+ field +:+ " must be greater than zero"))
    [("connect_timeout_seconds", uc_connect_timeout_seconds u); ("read_timeout_seconds", uc_read_timeout_seconds u);
     ("verifier_request_timeout_seconds", uc_verifier_request_timeout_seconds u); ("verifier_cache_seconds", uc_verifier_cache_seconds u)].
Definition check_chute_id (u : UpstreamConfig) (entry : string * string) : result UpstreamConfigError unit :=
  let '(model_id, chute_id) := entry in
  _ ← refuse_if (blank model_id) ("upstream " +:+ debug_str (uc_name u) +:+ " chutes_chute_ids has an empty model id");
  _ ← refuse_if (negb (bool_decide (model_id ∈ (snd <$> uc_models u))))
        ("upstream " +:+ debug_str (uc_name u) +:+ " chutes_chute_ids key " +:+ debug_str model_id +:+ " is not one of its upstream model ids");
  refuse_if (negb (looks_like_uuid chute_id))
    ("upstream " +:+ debug_str (uc_name u) +:+ " chutes_chute_ids[" +:+ debug_str model_id +:+ "] must be a chute_id UUID").
Definition check_chutes (u : UpstreamConfig) : result UpstreamConfigError unit :=
  _ ← refuse_if (from_option (fun rounds => (rounds =? 0)%Z || (10 <? rounds)%Z) false (uc_chutes_e2ee_discovery_rounds u))
        ("upstream " +:+ debug_str (uc_name u) +:+ " chutes_e2ee_discovery_rounds must be between 1 and 10");
  _ ← refuse_if (from_option blank false (uc_chutes_e2ee_api_base u)) ("upstream " +:+ debug_str (uc_name u) +:+ " chutes_e2ee_api_base must not be empty");
  _ ← match uc_chutes_chute_ids u with
      | Some chute_ids =>
          _ ← refuse_if (bool_decide (chute_ids = [])) ("upstream " +:+ debug_str (uc_name u) +:+ " chutes_chute_ids must not be empty when configured");
          for_each (check_chute_id u) chute_ids
      | None => Ok ()
      end;
  refuse_if (negb (is_provider Chutes u) &&
             (bool_decide (is_Some (uc_chutes_e2ee_api_base u)) || bool_decide (is_Some (uc_chutes_chute_ids u)) ||
              bool_decide (is_Some (uc_chutes_e2ee_discovery_rounds u)) || bool_decide (is_Some (uc_chutes_e2ee_discovery_interval_seconds u))))
    ("upstream " +:+ debug_str (uc_name u) +:+ " has Chutes E2EE fields but provider is not chutes").
Definition check_zero_g (u : UpstreamConfig) : result UpstreamConfigError unit :=
  if is_provider ZeroGPrivateComputer u then
    let rpc_is_https := from_option (fun url => bool_decide (url_scheme url = "https")) false (uc_zg_chain_rpc_url u ≫= parse_url) in
    let contract_is_address :=
      from_option (fun v => bool_decide (str_len v = 42) && from_option (fun hex => is_ok (hex_decode hex)) false (strip_prefix "0x" v))
        false (uc_zg_serving_contract u) in
    refuse_if (negb (valid_root_https_origin (uc_base_url u)) || bool_decide (subjects_of u = []) ||
               negb (forallb valid_tdx_boot_chain_subject (subjects_of u)) || from_option blank true (uc_bearer_token u) ||
               bool_decide (is_Some (uc_path u)) || negb rpc_is_https || negb contract_is_address)
      ("upstream " +:+ debug_str (uc_name u) +:+
       " provider 0g-private-computer requires the 0G router as a root HTTPS base_url, bearer_token, an HTTPS zg_chain_rpc_url, zg_serving_contract (0x + 40 hex) and accepted_subjects pins (tdx-boot-chain:sha256:<64 lowercase hex>), and forbids path")
  else
    refuse_if (bool_decide (is_Some (uc_zg_chain_rpc_url u)) || bool_decide (is_Some (uc_zg_serving_contract u)))
      ("upstream " +:+ debug_str (uc_name u) +:+ " has 0G fields but provider is not 0g-private-computer").
Definition check_provider (u : UpstreamConfig) : result UpstreamConfigError unit :=
  _ ← refuse_if (is_provider Privatemode u && bool_decide (is_Some (uc_bearer_token u)))
        ("upstream " +:+ debug_str (uc_name u) +:+
         " provider privatemode forbids bearer_token; the measured proxy reads its credential from the shared Compose secret");
  _ ← refuse_if (is_provider Privatemode u && bool_decide (is_Some (uc_path u)))
        ("upstream " +:+ debug_str (uc_name u) +:+ " provider privatemode forbids path; the measured proxy backend pins encrypted handler paths");
  refuse_if (is_provider AnthropicApi u && from_option (fun p => bool_decide (p = "")) true (uc_path u))
    ("upstream " +:+ debug_str (uc_name u) +:+ " provider anthropic requires path (e.g. " +:+ debug_str "/v1/messages" +:+ ")").
(** The members of one entry, up to its models. *)
Definition check_members (u : UpstreamConfig) : result UpstreamConfigError unit :=
  _ ← refuse_if (blank (uc_base_url u)) ("upstream " +:+ debug_str (uc_name u) +:+ " base_url must not be empty");
  _ ← refuse_if (from_option (fun p => bool_decide (trim_start_slashes p = "v1/audio/transcriptions")) false (uc_path u) &&
                 (is_provider Chutes u || is_provider ZeroGPrivateComputer u || is_provider AnthropicApi u))
        "this provider does not support audio transcriptions";
  _ ← refuse_if (bool_decide (is_Some (uc_streaming_usage u)) && from_option (fun p => negb (supports_streaming_usage p)) false (uc_path u))
        ("upstream " +:+ debug_str (uc_name u) +:+ " streaming_usage requires an OpenAI chat/completions path");
  _ ← refuse_if (bool_decide (uc_models u = [])) ("upstream " +:+ debug_str (uc_name u) +:+ " must route at least one public model");
  _ ← refuse_if (is_provider SecretAi u && negb (valid_root_https_origin (uc_base_url u)))
        ("upstream " +:+ debug_str (uc_name u) +:+ " provider secret-ai requires a root HTTPS base_url without userinfo, query, or fragment");
  _ ← check_armet u;
  _ ← check_auth u;
  _ ← check_timeouts u;
  _ ← check_chutes u;
  _ ← check_zero_g u;
  check_provider u.
Fixpoint check_models (name : string) (models : list (string * string)) (route_ids : list string) : result UpstreamConfigError (list string) :=
  match models with
  | [] => Ok route_ids
  | (public_model, upstream_model) :: models =>
      _ ← refuse_if (blank public_model) ("upstream " +:+ debug_str name +:+ " has an empty public model id");
      _ ← refuse_if (blank upstream_model) ("upstream " +:+ debug_str name +:+ " route " +:+ debug_str public_model +:+ " has an empty upstream model id");
      let route_id := route_id_of name public_model in
      _ ← refuse_if (bool_decide (route_id ∈ route_ids)) ("route id " +:+ debug_str route_id +:+ " is duplicated");
      check_models name models (route_id :: route_ids)
  end.
Fixpoint validate_from (names route_ids : list string) (config : list UpstreamConfig) : result UpstreamConfigError unit :=
  match config with
  | [] => Ok ()
  | u :: config =>
      _ ← refuse_if (blank (uc_name u)) "upstream name must not be empty";
      _ ← refuse_if (bool_decide (uc_name u ∈ names)) ("upstream name " +:+ debug_str (uc_name u) +:+ " is duplicated");
      _ ← check_members u;
      route_ids ← check_models (uc_name u) (uc_models u) route_ids;
      validate_from (uc_name u :: names) route_ids config
  end.
Definition validate_config (config : list UpstreamConfig) : result UpstreamConfigError unit := validate_from [] [] config.
End Validation.

(** ** From the configuration to a router *)
Definition provider_is_tee (provider : UpstreamProvider) : bool :=
  match provider with
  | OpenAiCompatible | AnthropicApi => false
  | AciService | Chutes | Tinfoil | NearAi | SecretAi | Privatemode | PhalaDirect | ArmetAi | ZeroGPrivateComputer => true
  end.
Definition non_empty_pins (pins : option (list string)) : bool := from_option (fun ids => negb (bool_decide (ids = []))) false pins.
Definition has_verifier_route (cfg : UpstreamConfig) (config : list UpstreamConfig) (options : UpstreamRuntimeOptions) : bool :=
  provider_is_tee (uc_provider cfg) ||
  match op_verifier_mode options with
  | ModeNone => false
  | ModePreverified => true
  | ModeAciService =>
      negb (existsb (fun cfg => provider_is_tee (uc_provider cfg)) config) ||
      non_empty_pins (uc_accepted_subjects cfg) || non_empty_pins (uc_accepted_image_digests cfg)
  end.
(** [Display] of the router's errors. *)
Definition upstream_error_text (e : UpstreamError) : string :=
  match e with
  | Routing text => "upstream routing error: " +:+ text
  | Errors.InvalidRequest text => "invalid request: " +:+ text
  | Transport text => "upstream transport error: " +:+ text
  | ResponseTooLarge => "buffered upstream response exceeds the endpoint size limit"
  | Timeout text => "upstream timed out: " +:+ text
  | ChannelBindingMismatch text => "upstream channel binding mismatch: " +:+ text
  | UpstreamStatus status => "upstream rejected request with status " +:+ pretty status
  end.

(** The derived serializers of the configuration. *)
Class ConfigSerde := {
  config_to_vec : list UpstreamConfig -> bytes;
  config_to_string_pretty : list UpstreamConfig -> string;
  config_from_str : string -> result string (list UpstreamConfig);
  config_from_str_pretty config : config_from_str (config_to_string_pretty config) = Ok config;
  config_pretty_not_blank config : blank (config_to_string_pretty config) = false;
}.

Section Manager.
Context {SJ : SerdeJson} {SH : Sha} {HX : HexCodec} {UP : UrlParser} {CS : ConfigSerde}.
Context {B V : Type} {UB : UpstreamBackend B}.
(** [build_provider_backend] and [build_verifier]: HTTP clients and provider adapters. *)
Context (options : UpstreamRuntimeOptions) (build_provider_backend : UpstreamConfig -> result UpstreamConfigError B)
        (build_verifier : list UpstreamConfig -> result UpstreamConfigError (option V)).

Definition configured_route (cfg : UpstreamConfig) (backend : B) (entry : string * string) : result UpstreamConfigError (ModelRoute B) :=
  let '(public_model, upstream_model) := entry in
  route ← map_err (fun e => InvalidConfig (upstream_error_text e)) (route_new public_model upstream_model backend (route_id_of (uc_name cfg) public_model));
  Ok (with_is_tee (Some (provider_is_tee (uc_provider cfg)))
       (with_force_verbose_json (is_provider NearAi cfg) (with_streaming_usage (uc_streaming_usage cfg) (with_path (uc_path cfg) route)))).
Fixpoint add_models (cfg : UpstreamConfig) (backend : B) (models : list (string * string)) (router : ModelRouterBackend B) :
    result UpstreamConfigError (ModelRouterBackend B) :=
  match models with
  | [] => Ok router
  | entry :: models =>
      route ← configured_route cfg backend entry;
      router ← map_err (fun e => InvalidConfig (upstream_error_text e)) (add_route route router);
      add_models cfg backend models router
  end.
Fixpoint add_upstreams (config : list UpstreamConfig) (router : ModelRouterBackend B) : result UpstreamConfigError (ModelRouterBackend B) :=
  match config with
  | [] => Ok router
  | cfg :: config =>
      backend ← build_provider_backend cfg;
      router ← add_models cfg backend (uc_models cfg) router;
      add_upstreams config router
  end.
Definition build_model_router (config : list UpstreamConfig) : result UpstreamConfigError (ModelRouterBackend B) :=
  add_upstreams config (router_new "model-router").

(** ** The installed state *)
Definition config_digest (config : list UpstreamConfig) : string := hex_encode (sha256 (config_to_vec config)).
(** [cu_backend] is [None] for [EmptyUpstreamBackend]. *)
Record ConfiguredUpstreams : Type := mkConfigured {
  cu_config : list UpstreamConfig;
  cu_config_digest : string;
  cu_backend : option (ModelRouterBackend B);
  cu_verifier : option V;
}.
Definition build_state (config : list UpstreamConfig) : result UpstreamConfigError ConfiguredUpstreams :=
  _ ← validate_config config;
  backend ← (if bool_decide (config = []) then Ok None else Some <$> build_model_router config);
  verifier ← build_verifier config;
  Ok (mkConfigured config (config_digest config) backend verifier).
Definition dynamic_prepare (s : ConfiguredUpstreams) (req : UpstreamRequest) : result UpstreamError PreparedUpstreamRequest :=
  match cu_backend s with
  | Some router => router_prepare router req
  | None => Err (Routing "no upstreams configured")
  end.

(** The file and the installed state; [None] is a missing file. *)
Record Manager : Type := mkManager { mg_file : option string; mg_state : ConfiguredUpstreams }.
Definition parse_config_text (text : string) : result UpstreamConfigError (list UpstreamConfig) :=
  if blank text then Ok []
  else
    config ← map_err (fun e => InvalidConfig ("invalid upstream config JSON: " +:+ e)) (config_from_str text);
    _ ← validate_config config;
    Ok config.
Definition read_config_file (file : option string) : result UpstreamConfigError (list UpstreamConfig) :=
  match file with Some text => parse_config_text text | None => Ok [] end.
Definition load (file : option string) : result UpstreamConfigError Manager :=
  config ← read_config_file file;
  state ← build_state config;
  Ok (mkManager file state).
(** [write_fails] is the file system's answer to the write or the rename that replaces the
    file; before that only a temporary file is touched. *)
Definition write_config_file (write_fails : option string) (config : list UpstreamConfig) : result UpstreamConfigError string :=
  match write_fails with Some e => Err (WriteError e) | None => Ok (config_to_string_pretty config) end.
Definition replace_inner (config : list UpstreamConfig) (skip_unchanged : bool) (write_fails : option string) (m : Manager) :
    Manager * result UpstreamConfigError bool :=
  match validate_config config with
  | Err e => (m, Err e)
  | Ok _ =>
      if skip_unchanged && bool_decide (cu_config_digest (mg_state m) = config_digest config) then (m, Ok false)
      else
        match (next ← build_state config; text ← write_config_file write_fails config; Ok (next, text)) with
        | Err e => (m, Err e)
        | Ok (next, text) => (mkManager (Some text) next, Ok true)
        end
  end.
Definition update : Type := list UpstreamConfig * bool * option string.
Definition replace_all (updates : list update) (m : Manager) : Manager :=
  foldl (fun m '(config, skip_unchanged, write_fails) => (replace_inner config skip_unchanged write_fails m).1) m updates.
Definition snapshot (m : Manager) : string * list PublicUpstreamConfig :=
  (cu_config_digest (mg_state m), redacted <$> cu_config (mg_state m)).
(** [DynamicUpstreamVerifier] without a verifier. *)
Definition unconfigured_event (request : UpstreamVerificationRequest) : UpstreamVerifiedEvent :=
  mkUpstreamVerifiedEvent None (vr_upstream_name request) None (vr_model_id request) (vr_url_origin request) "none" Failed (vr_required request)
    (Some "no upstream verifier configured") None [] None None.

(** ** What is verified ahead of requests *)
Record UpstreamVerificationTarget : Type := mkTarget {
  tg_upstream_name : string;
  tg_model_id : string;
  tg_url_origin : option string;
}.
#[global] Instance UpstreamVerificationTarget_eq_dec : EqDecision UpstreamVerificationTarget.
Proof. solve_decision. Defined.
Definition target_request (t : UpstreamVerificationTarget) : UpstreamVerificationRequest :=
  mkVerificationRequest (tg_upstream_name t) (tg_url_origin t) (tg_model_id t) (hex_encode (sha256 [])) true.
Definition target_models (cfg : UpstreamConfig) : list string :=
  let model_ids := snd <$> uc_models cfg in if is_per_router (attestation_scope (uc_provider cfg)) then take 1 model_ids else model_ids.
Definition add_target (targets : list UpstreamVerificationTarget) (t : UpstreamVerificationTarget) : list UpstreamVerificationTarget :=
  if bool_decide (t ∈ targets) then targets else targets ++ [t].
Definition verification_targets (config : list UpstreamConfig) : list UpstreamVerificationTarget :=
  foldl (fun targets cfg =>
    foldl (fun targets model_id => add_target targets (mkTarget (uc_name cfg) model_id (Some (trim_end_slashes (uc_base_url cfg))))) targets (target_models cfg))
    [] config.
Definition u64_saturating_sub (a b : Z) : Z := Z.max 0 (a - b).
Definition verification_refresh_seconds (cfg : UpstreamConfig) : option Z :=
  match uc_verification_refresh_seconds cfg with
  | Some seconds => if (seconds =? 0)%Z then None else Some seconds
  | None =>
      Some (Z.max 1 (u64_saturating_sub (default (op_verifier_cache_seconds options) (uc_verifier_cache_seconds cfg))
              (default (op_verifier_request_timeout_seconds options) (uc_verifier_request_timeout_seconds cfg))))
  end.
Definition session_refresh_seconds (cfg : UpstreamConfig) : option Z :=
  match uc_session_refresh_seconds cfg with
  | Some seconds => if (seconds =? 0)%Z then None else Some seconds
  | None => if is_provider Chutes cfg then Some 45%Z else None
  end.
Definition model_entry (cfg : UpstreamConfig) (model : string) : option string :=
  snd <$> List.find (fun e => bool_decide (e.1 = model)) (uc_models cfg).
(** The upstream whose attestation report is relayed for a model, which may be named by
    either of its ids. *)
Definition attestation_upstream_target (s : ConfiguredUpstreams) (model : string) : option (UpstreamConfig * string * string) :=
  cfg ← List.find (fun cfg => bool_decide (is_Some (model_entry cfg model)) || existsb (fun e => bool_decide (e.2 = model)) (uc_models cfg)) (cu_config s);
  Some (cfg, trim_end_slashes (uc_base_url cfg), default model (model_entry cfg model)).
(** [prepare] of the request the code makes up to ask which upstream serves the model. *)
Definition routed_upstream (s : ConfiguredUpstreams) (model : string) : option string :=
  match dynamic_prepare s (mkUpstreamRequest None None (to_vec (JObject [("model", JString model)])) ∅ None None) with
  | Ok prepared => Some (pr_upstream_name prepared)
  | Err _ => None
  end.
Definition current_verification_requests (s : ConfiguredUpstreams) (model upstream_name : option string) (all_routes : bool) : list UpstreamVerificationRequest :=
  let requests routed :=
    target_request <$> mjoin ((fun cfg =>
      List.filter (fun target =>
        from_option (fun model =>
          if is_per_router (attestation_scope (uc_provider cfg)) then bool_decide (is_Some (model_entry cfg model))
          else bool_decide (model_entry cfg model = Some (tg_model_id target))) true model)
        (verification_targets [cfg])) <$>
      List.filter (fun cfg => provider_is_tee (uc_provider cfg) && from_option (fun name => bool_decide (uc_name cfg = name)) true upstream_name &&
                              from_option (fun name => bool_decide (uc_name cfg = name)) true routed) (cu_config s)) in
  if all_routes then requests None
  else match model with
       | Some model => match routed_upstream s model with Some name => requests (Some name) | None => [] end
       | None => requests None
       end.
End Manager.

(** ** What an accepted configuration gives *)
Lemma refuse_ok bad message x : refuse_if bad message = Ok x <-> bad = false /\ x = ().
Proof. unfold refuse_if. destruct bad, x; naive_solver. Qed.
(** A character that is no part of white space stays. *)
Lemma trim_start_keeps fuel ps l c : c ∈ l -> c ∉ concat ps -> c ∈ trim_start_by fuel ps l.
Proof.
  revert l. induction fuel as [|fuel IH]; intros l Hc Hps; [done|]. cbn. destruct (strip_any ps l) as [r|] eqn:Hs; [|done]. apply IH; [|done].
  clear IH. induction ps as [|p ps IHps]; [done|]. cbn in Hs, Hps. apply not_elem_of_app in Hps as [Hp Hps].
  destruct (strip_bytes p l) as [r'|] eqn:Hsp; [|by apply IHps]. injection Hs as ->. apply strip_bytes_spec in Hsp as ->. set_solver.
Qed.
Lemma colon_not_blank a b : blank (a +:+ ":" +:+ b) = false.
Proof.
  unfold blank. apply bool_decide_eq_false. intros Ht.
  assert (u8 58 ∈ as_bytes (trim (a +:+ ":" +:+ b))) as Hin; [|by rewrite Ht in Hin; apply elem_of_nil in Hin].
  unfold trim. rewrite as_bytes_of_bytes. unfold trim_end_by. rewrite elem_of_reverse.
  apply trim_start_keeps; [rewrite elem_of_reverse; apply trim_start_keeps|].
  - rewrite !as_bytes_app. set_solver.
  - apply (bool_decide_unpack _). by vm_compute.
  - apply (bool_decide_unpack _). by vm_compute.
Qed.
Definition route_ids (cfg : UpstreamConfig) : list string := (fun e => route_id_of (uc_name cfg) e.1) <$> uc_models cfg.
Definition named_models (cfg : UpstreamConfig) : Prop := uc_models cfg ≠ [] /\ Forall (fun e => blank e.1 = false /\ blank e.2 = false) (uc_models cfg).
Lemma check_models_ok name models ids ids' : check_models name models ids = Ok ids' -> NoDup ids ->
  NoDup ids' /\ ids' ≡ₚ ids ++ ((fun e => route_id_of name e.1) <$> models) /\ Forall (fun e => blank e.1 = false /\ blank e.2 = false) models.
Proof.
  revert ids. induction models as [|[public upstream] models IH]; intros ids; cbn [check_models]; [intros [= <-] Hnd; by rewrite app_nil_r|].
  destruct (refuse_if (blank public) _) as [[]|] eqn:H1; [|done]. destruct (refuse_if (blank upstream) _) as [[]|] eqn:H2; [|done].
  cbn [mbind result_bind]. destruct (refuse_if (bool_decide _) _) as [[]|] eqn:H3; [|done]. cbn [mbind result_bind].
  apply refuse_ok in H1 as [H1 _], H2 as [H2 _], H3 as [H3%bool_decide_eq_false _]. intros Hc Hnd.
  apply IH in Hc as (Hnd' & Hp & HF); [|by apply NoDup_cons]. split; [done|]. split; [|by constructor].
  rewrite Hp. cbn [fmap list_fmap fst]. by rewrite <- Permutation_middle.
Qed.
Section Theory.
Context {HX : HexCodec} {UP : UrlParser}.
Record accepted (config : list UpstreamConfig) : Prop := {
  ac_names : NoDup (uc_name <$> config);
  ac_ids : NoDup (mjoin (route_ids <$> config));
  ac_models : Forall named_models config;
}.
Lemma validate_from_ok names ids config : validate_from names ids config = Ok () -> NoDup names -> NoDup ids ->
  NoDup (names ++ (uc_name <$> config)) /\ NoDup (ids ++ mjoin (route_ids <$> config)) /\ Forall named_models config.
Proof.
  revert names ids. induction config as [|u config IH]; intros names ids; cbn [validate_from]; [intros _ ? ?; rewrite !app_nil_r; by split_and!|].
  destruct (refuse_if (blank _) _) as [[]|] eqn:H1; [|done]. cbn [mbind result_bind].
  destruct (refuse_if (bool_decide _) _) as [[]|] eqn:H2; [|done]. cbn [mbind result_bind].
  destruct (check_members u) as [[]|] eqn:Hm; [|done]. cbn [mbind result_bind]. destruct (check_models _ _ _) as [ids'|] eqn:Hc; [|done]. cbn [mbind result_bind].
  apply refuse_ok in H2 as [H2%bool_decide_eq_false _]. intros Hv Hn Hi. apply check_models_ok in Hc as (Hnd' & Hp & HF); [|done].
  apply IH in Hv as (Hn2 & Hi2 & HF2); [|by apply NoDup_cons|done]. split_and!.
  - cbn [fmap list_fmap]. by rewrite <- Permutation_middle.
  - cbn [fmap list_fmap mjoin list_join]. rewrite app_assoc. unfold route_ids at 1. by rewrite <- Hp.
  - constructor; [|done]. split; [|done]. unfold check_members in Hm.
    repeat match type of Hm with context [refuse_if ?b ?m ≫= _] => destruct (refuse_if b m) as [[]|] eqn:?; [cbn [mbind result_bind] in Hm|done] end.
    repeat match goal with H : refuse_if _ _ = Ok _ |- _ => apply refuse_ok in H as [H _] end. by eapply bool_decide_eq_false.
Qed.
Lemma config_accepted config : validate_config config = Ok () -> accepted config.
Proof. intros Hv. apply validate_from_ok in Hv as (? & ? & ?); [by split|apply NoDup_nil_2..]. Qed.
End Theory.

Lemma result_ok_Some {E A} (x : result E A) a : result_ok x = Some a <-> x = Ok a.
Proof. destruct x; cbn; naive_solver. Qed.
Section Routes.
Context {SJ : SerdeJson} {HX : HexCodec} {UP : UrlParser} {B : Type} {UB : UpstreamBackend B}.
Context (build_provider_backend : UpstreamConfig -> result UpstreamConfigError B) (backend_of : UpstreamConfig -> B).

(** The table a configuration describes: its models, upstream by upstream. *)
Definition table_route (cfg : UpstreamConfig) (entry : string * string) : ModelRoute B :=
  mkModelRoute (is_provider NearAi cfg) entry.1 entry.2 (backend_of cfg) (route_id_of (uc_name cfg) entry.1)
    ((fun p => if starts_with "/" p then p else "/" +:+ p) <$> uc_path cfg) (uc_streaming_usage cfg) (Some (provider_is_tee (uc_provider cfg))).
Definition upstream_table (cfg : UpstreamConfig) : list (ModelRoute B) := table_route cfg <$> uc_models cfg.
Definition config_table (config : list UpstreamConfig) : list (ModelRoute B) := mjoin (upstream_table <$> config).
Lemma upstream_table_ids cfg : mr_route_id <$> upstream_table cfg = route_ids cfg.
Proof. unfold upstream_table, route_ids. rewrite <- list_fmap_compose. done. Qed.
Lemma config_table_cons cfg config : config_table (cfg :: config) = upstream_table cfg ++ config_table config.
Proof. done. Qed.
Lemma config_table_ids config : mr_route_id <$> config_table config = mjoin (route_ids <$> config).
Proof.
  induction config as [|cfg config IH]; [done|]. rewrite config_table_cons, fmap_app, upstream_table_ids, IH. done.
Qed.
Lemma configured_route_ok cfg entry : blank entry.1 = false -> blank entry.2 = false ->
  configured_route cfg (backend_of cfg) entry = Ok (table_route cfg entry).
Proof.
  destruct entry as [public upstream]. cbn [fst snd]. intros H1 H2. unfold configured_route, route_new. rewrite H1, H2.
  unfold route_id_of at 1. by rewrite colon_not_blank.
Qed.
Lemma add_models_ok cfg models r table : implements r table -> Forall (fun e => blank e.1 = false /\ blank e.2 = false) models ->
  NoDup ((mr_route_id <$> table) ++ (mr_route_id <$> (table_route cfg <$> models))) ->
  exists r', add_models cfg (backend_of cfg) models r = Ok r' /\ rb_name r' = rb_name r /\ implements r' (table ++ (table_route cfg <$> models)).
Proof.
  revert r table. induction models as [|e models IH]; intros r table Him HF Hnd; [exists r; cbn; rewrite app_nil_r; by split_and!|].
  apply Forall_cons in HF as [[H1 H2] HF]. cbn [add_models]. rewrite configured_route_ok by done. cbn [mbind result_bind].
  destruct (implements_add r table (table_route cfg e) Him) as (r1 & Ha & Hname & Him1).
  { apply NoDup_app in Hnd as (_ & Hd & _). intros Hin. apply (Hd _ Hin). by left. }
  rewrite Ha. cbn [map_err mbind result_bind]. destruct (IH r1 (table ++ [table_route cfg e]) Him1 HF) as (r2 & Hr2 & Hn2 & Him2).
  - rewrite fmap_app, <- app_assoc. exact Hnd.
  - exists r2. rewrite <- app_assoc in Him2. split; [done|]. split; [congruence|done].
Qed.
Lemma add_upstreams_ok config r table : implements r table -> Forall named_models config ->
  (forall cfg, cfg ∈ config -> build_provider_backend cfg = Ok (backend_of cfg)) ->
  NoDup ((mr_route_id <$> table) ++ (mr_route_id <$> config_table config)) ->
  exists r', add_upstreams build_provider_backend config r = Ok r' /\ rb_name r' = rb_name r /\ implements r' (table ++ config_table config).
Proof.
  revert r table. induction config as [|cfg config IH]; intros r table Him HF Hb Hnd; [exists r; cbn; rewrite app_nil_r; by split_and!|].
  apply Forall_cons in HF as [[_ Hn] HF]. cbn [add_upstreams]. rewrite Hb by (by left). cbn [mbind result_bind].
  rewrite config_table_cons, fmap_app, app_assoc in Hnd. rewrite config_table_cons.
  destruct (add_models_ok cfg (uc_models cfg) r table Him Hn) as (r1 & Ha & Hname & Him1); [by apply NoDup_app in Hnd as (? & _ & _)|].
  rewrite Ha. cbn [mbind result_bind]. destruct (IH r1 _ Him1 HF) as (r2 & Hr2 & Hn2 & Him2).
  - intros cfg' Hc. apply Hb. by right.
  - by rewrite fmap_app.
  - exists r2. rewrite app_assoc. split; [done|]. split; [congruence|done].
Qed.
Lemma router_implements config : validate_config config = Ok () -> (forall cfg, cfg ∈ config -> build_provider_backend cfg = Ok (backend_of cfg)) ->
  exists r, build_model_router build_provider_backend config = Ok r /\ rb_name r = "model-router" /\ implements r (config_table config).
Proof.
  intros [_ Hids Hm]%config_accepted Hb. destruct (add_upstreams_ok config (router_new "model-router") []) as (r & Hr & Hn & Him); [apply implements_new|done|done| |by exists r].
  cbn. by rewrite config_table_ids.
Qed.
(** Nothing is made of a configuration with a backend that cannot be built. *)
Lemma add_upstreams_refused before cfg after e r table : implements r table -> Forall named_models before ->
  Forall (fun c => build_provider_backend c = Ok (backend_of c)) before -> build_provider_backend cfg = Err e ->
  NoDup ((mr_route_id <$> table) ++ (mr_route_id <$> config_table before)) ->
  add_upstreams build_provider_backend (before ++ cfg :: after) r = Err e.
Proof.
  intros Him HF Hb He. revert r table Him. induction before as [|c before IH]; intros r table Him Hnd; cbn [app add_upstreams]; [by rewrite He|].
  apply Forall_cons in HF as [[_ Hn] HF]. apply Forall_cons in Hb as [Hc Hb]. rewrite Hc. cbn [mbind result_bind].
  rewrite config_table_cons, fmap_app, app_assoc in Hnd.
  destruct (add_models_ok c (uc_models c) r table Him Hn) as (r1 & -> & _ & Him1); [by apply NoDup_app in Hnd as (? & _ & _)|].
  cbn [mbind result_bind]. eapply IH; [done|done|exact Him1|]. by rewrite fmap_app.
Qed.
Lemma config_table_elem config route : route ∈ config_table config <-> exists cfg entry, cfg ∈ config /\ entry ∈ uc_models cfg /\ route = table_route cfg entry.
Proof.
  unfold config_table. rewrite list_elem_of_join. split.
  - intros (l & Hr & (cfg & -> & Hc)%list_elem_of_fmap). unfold upstream_table in Hr. apply list_elem_of_fmap in Hr as (e & -> & He). by exists cfg, e.
  - intros (cfg & e & Hc & He & ->). exists (upstream_table cfg). split; by apply list_elem_of_fmap_2.
Qed.
Lemma config_publics config public :
  public ∈ (mr_public_model_id <$> config_table config) <-> exists cfg, cfg ∈ config /\ public ∈ (fst <$> uc_models cfg).
Proof.
  rewrite list_elem_of_fmap. split.
  - intros (route & -> & (cfg & e & Hc & He & ->)%config_table_elem). exists cfg. split; [done|]. by apply (list_elem_of_fmap_2 fst).
  - intros (cfg & Hc & (e & -> & He)%list_elem_of_fmap). exists (table_route cfg e). split; [done|]. apply config_table_elem. by exists cfg, e.
Qed.
Lemma first_for_upstream cfg public route : NoDup (route_ids cfg) ->
  first_for public (upstream_table cfg) = Some route <-> exists e, e ∈ uc_models cfg /\ e.1 = public /\ route = table_route cfg e.
Proof.
  intros Hnd. split.
  - intros [(e & -> & He)%list_elem_of_fmap Hp]%first_for_elem. by exists e.
  - intros (e & He & <- & ->). destruct (first_for e.1 (upstream_table cfg)) as [route|] eqn:Hf.
    + apply first_for_elem in Hf as [Hin Hp]. f_equal. apply (inj Some). rewrite <- upstream_table_ids in Hnd.
      rewrite <- (with_id_unique _ _ Hnd Hin), <- (with_id_unique _ (table_route cfg e) Hnd) by (by apply list_elem_of_fmap_2).
      apply list_elem_of_fmap in Hin as (e' & -> & _). cbn in Hp |- *. by rewrite Hp.
    + apply first_for_None in Hf. destruct Hf. apply list_elem_of_fmap. exists (table_route cfg e). split; [done|]. by apply list_elem_of_fmap_2.
Qed.
Lemma first_for_config config public route : NoDup (mjoin (route_ids <$> config)) ->
  first_for public (config_table config) = Some route <-> exists before cfg after entry,
    config = before ++ cfg :: after /\ Forall (fun c => public ∉ (fst <$> uc_models c)) before /\
    entry ∈ uc_models cfg /\ entry.1 = public /\ route = table_route cfg entry.
Proof.
  induction config as [|cfg config IH]; intros Hnd; [split; [done|intros (before & ? & ? & ? & Hc & _); by destruct before]|].
  assert (NoDup (route_ids cfg) /\ NoDup (mjoin (route_ids <$> config))) as [Hn1 Hn2] by (by apply NoDup_app in Hnd as (? & _ & ?)).
  rewrite config_table_cons. unfold first_for. rewrite find_app. fold (first_for public (upstream_table cfg)). fold (first_for public (config_table config)).
  destruct (first_for public (upstream_table cfg)) as [route'|] eqn:Hf.
  - apply first_for_upstream in Hf as (e & He & Hp & ->); [|done]. split.
    + intros [= <-]. exists [], cfg, config, e. by split_and!.
    + intros (before & cfg' & after & e' & Hc & Hb & He' & Hp' & ->). destruct before as [|c before]; injection Hc as -> ->.
      * f_equal. assert (first_for public (upstream_table cfg') = Some (table_route cfg' e)) as H1 by (apply first_for_upstream; eauto).
        assert (first_for public (upstream_table cfg') = Some (table_route cfg' e')) as H2 by (apply first_for_upstream; eauto). congruence.
      * apply Forall_cons in Hb as [Hb _]. destruct Hb. rewrite <- Hp. by apply (list_elem_of_fmap_2 fst).
  - rewrite (IH Hn2). assert (public ∉ (fst <$> uc_models cfg)) as Hnot.
    { intros (e & -> & He)%list_elem_of_fmap. assert (first_for e.1 (upstream_table cfg) = Some (table_route cfg e)) by (apply first_for_upstream; eauto). congruence. }
    split.
    + intros (before & cfg' & after & e & -> & Hb & He). exists (cfg :: before), cfg', after, e. split; [done|]. split; [by constructor|done].
    + intros (before & cfg' & after & e & Hc & Hb & He & Hp & ->). destruct before as [|c before]; injection Hc as -> ->.
      * destruct Hnot. rewrite <- Hp. by apply (list_elem_of_fmap_2 fst).
      * apply Forall_cons in Hb as [_ Hb]. exists before, cfg', after, e. by split_and!.
Qed.

(** C39: Every model of an accepted configuration is served, by the upstream that declares
    it.  A configuration that passes validation and whose backends can all be built makes a
    router (no duplicate or empty id is left for it to refuse) in which the id of each
    upstream's model leads to that upstream's backend, under the upstream's model id and
    path and with the provider's classification; no other id leads anywhere; a model named
    alone goes to the first upstream that lists it; and the models listed are those of the
    configuration, each once.  When a backend cannot be built, there is no router, and the
    error is that of the first such upstream. *)
Theorem configured_models_are_routed config :
  validate_config config = Ok () ->
  ((forall cfg, cfg ∈ config -> build_provider_backend cfg = Ok (backend_of cfg)) ->
   exists r, build_model_router build_provider_backend config = Ok r /\
    (forall cfg entry, cfg ∈ config -> entry ∈ uc_models cfg -> route_for_id r (route_id_of (uc_name cfg) entry.1) = Ok (table_route cfg entry)) /\
    (forall id route, route_for_id r id = Ok route -> exists cfg entry, cfg ∈ config /\ entry ∈ uc_models cfg /\ id = route_id_of (uc_name cfg) entry.1 /\ route = table_route cfg entry) /\
    (forall public route, route_for r public = Ok route <-> exists before cfg after entry,
      config = before ++ cfg :: after /\ Forall (fun c => public ∉ (fst <$> uc_models c)) before /\
      entry ∈ uc_models cfg /\ entry.1 = public /\ route = table_route cfg entry) /\
    NoDup (listed_models r) /\
    (forall public, model_object "model-router" public ∈ listed_models r <-> exists cfg, cfg ∈ config /\ public ∈ (fst <$> uc_models cfg))) /\
  (forall before cfg after e, config = before ++ cfg :: after ->
    Forall (fun c => build_provider_backend c = Ok (backend_of c)) before -> build_provider_backend cfg = Err e ->
    build_model_router build_provider_backend config = Err e).
Proof.
  intros Hv. split; cycle 1.
  { intros before cfg after e -> Hb He. apply config_accepted in Hv as [_ Hids Hm]. unfold build_model_router.
    apply Forall_app in Hm as [Hm _]. eapply add_upstreams_refused; [apply implements_new|done..|]. cbn. rewrite config_table_ids.
    rewrite fmap_app, join_app in Hids. by apply NoDup_app in Hids as (? & _). }
  intros Hb. destruct (router_implements config Hv Hb) as (r & Hr & Hname & Him). exists r. split; [done|].
  apply config_accepted in Hv as [_ Hids _]. split_and!.
  - intros cfg e Hc He. apply result_ok_Some. rewrite (implements_route_for_id _ _ _ Him). apply (with_id_unique _ (table_route cfg e)); [apply Him|].
    apply config_table_elem. by exists cfg, e.
  - intros id route Hroute%result_ok_Some. rewrite (implements_route_for_id _ _ _ Him) in Hroute.
    apply List.find_some in Hroute as [(cfg & e & Hc & He & ->)%list_elem_of_In%config_table_elem <-%bool_decide_eq_true]. by exists cfg, e.
  - intros public route. rewrite <- result_ok_Some, (implements_route_for _ _ _ Him). by apply first_for_config.
  - rewrite (implements_models _ _ Him). apply NoDup_fmap_2_strong; [by intros x y _ _ [= ->]|]. apply first_occurrences_spec.
  - intros public. rewrite (implements_models _ _ Him), Hname. rewrite <- config_publics. split.
    + intros (x & [= ->] & Hx)%list_elem_of_fmap. by apply first_occurrences_spec in Hx as [? _].
    + intros Hx. apply list_elem_of_fmap_2. apply first_occurrences_spec. split; [done|apply not_elem_of_nil].
Qed.
End Routes.

Section Updates.
Context {SJ : SerdeJson} {SH : Sha} {HX : HexCodec} {UP : UrlParser} {CS : ConfigSerde} {B V : Type} {UB : UpstreamBackend B}.
Context (build_provider_backend : UpstreamConfig -> result UpstreamConfigError B) (build_verifier : list UpstreamConfig -> result UpstreamConfigError (option V)).

Lemma build_state_config config s : build_state build_provider_backend build_verifier config = Ok s ->
  validate_config config = Ok () /\ cu_config s = config /\ cu_config_digest s = config_digest config.
Proof.
  unfold build_state. destruct (validate_config config) as [[]|]; [|done]. cbn [mbind result_bind]. destruct (if bool_decide _ then _ else _); [|done]. cbn [mbind result_bind].
  destruct (build_verifier config); [|done]. by intros [= <-].
Qed.
Lemma load_written config s : build_state build_provider_backend build_verifier config = Ok s ->
  load build_provider_backend build_verifier (Some (config_to_string_pretty config)) = Ok (mkManager (Some (config_to_string_pretty config)) s).
Proof.
  intros Hs. pose proof (build_state_config _ _ Hs) as (Hv & _). unfold load, read_config_file, parse_config_text.
  rewrite config_pretty_not_blank, config_from_str_pretty. cbn [map_err mbind result_bind]. rewrite Hv. cbn [mbind result_bind]. by rewrite Hs.
Qed.

(** C40: The installed configuration is the one a restart loads.  From a start-up on any file,
    after any sequence of replacements, whichever of them were invalid, could not be built
    or written, or repeated what was installed, the installed configuration is valid, and
    loading the file again gives exactly the installed state.  A replacement that fails
    leaves both as they were. *)
Theorem installed_config_survives_restart file m updates :
  load build_provider_backend build_verifier file = Ok m ->
  let m' := replace_all build_provider_backend build_verifier updates m in
  load build_provider_backend build_verifier (mg_file m') = Ok m' /\ validate_config (cu_config (mg_state m')) = Ok () /\
  forall config skip write_fails e, (replace_inner build_provider_backend build_verifier config skip write_fails m').2 = Err e ->
    (replace_inner build_provider_backend build_verifier config skip write_fails m').1 = m'.
Proof.
  intros Hl m'.
  assert (load build_provider_backend build_verifier (mg_file m') = Ok m') as Hm'.
  { assert (load build_provider_backend build_verifier (mg_file m) = Ok m) as Hm.
    { pose proof Hl as Hl2. unfold load in Hl. destruct (read_config_file file) as [config|]; [|done]. cbn [mbind result_bind] in Hl.
      destruct (build_state _ _ config); [|done]. by injection Hl as <-. }
    clear Hl. unfold m', replace_all. clear m'. revert m Hm. induction updates as [|[[config skip] write_fails] updates IH]; intros m Hm; [done|]. cbn [foldl].
    apply IH. unfold replace_inner. destruct (validate_config config); [|done]. destruct (skip && _); [done|].
    destruct (build_state _ _ config) as [next|] eqn:Hb; [|done]. cbn [mbind result_bind]. unfold write_config_file. destruct write_fails; [done|]. cbn.
    by apply load_written. }
  split; [done|]. split.
  - unfold load in Hm'. destruct (read_config_file _) as [config|]; [|done]. cbn [mbind result_bind] in Hm'.
    destruct (build_state _ _ config) as [s|] eqn:Hb; [|done]. injection Hm' as Hm'. apply build_state_config in Hb as (Hv & Hc & _). rewrite <- Hm'. cbn [mg_state]. by rewrite Hc.
  - intros config skip write_fails e. unfold replace_inner. destruct (validate_config config); [|done]. destruct (skip && _); [done|].
    by destruct (next ← build_state _ _ config; _) as [[next text]|].
Qed.
End Updates.

Section Probes.
Context {SJ : SerdeJson} {SH : Sha} {HX : HexCodec} {UP : UrlParser} {CS : ConfigSerde} {B V : Type} {UB : UpstreamBackend B}.
Context (build_provider_backend : UpstreamConfig -> result UpstreamConfigError B) (build_verifier : list UpstreamConfig -> result UpstreamConfigError (option V)).
Context (backend_of : UpstreamConfig -> B).

Lemma target_in cfg t : t ∈ verification_targets [cfg] <->
  tg_upstream_name t = uc_name cfg /\ tg_url_origin t = Some (trim_end_slashes (uc_base_url cfg)) /\ tg_model_id t ∈ target_models cfg.
Proof.
  unfold verification_targets. cbn [foldl].
  assert (forall models targets, t ∈ foldl (fun targets model_id => add_target targets (mkTarget (uc_name cfg) model_id (Some (trim_end_slashes (uc_base_url cfg))))) targets models <->
    t ∈ targets \/ (tg_upstream_name t = uc_name cfg /\ tg_url_origin t = Some (trim_end_slashes (uc_base_url cfg)) /\ tg_model_id t ∈ models)) as Hall.
  { induction models as [|model models IH]; intros targets; cbn [foldl]; [rewrite elem_of_nil; naive_solver|]. rewrite IH, elem_of_cons. unfold add_target.
    destruct t as [n id o]; cbn. case_bool_decide as Hin; [naive_solver|]. rewrite elem_of_app, list_elem_of_singleton. naive_solver. }
  rewrite Hall, elem_of_nil. naive_solver.
Qed.
Definition probe (model : string) : UpstreamRequest := mkUpstreamRequest None None (to_vec (JObject [("model", JString model)])) ∅ None None.
Lemma probe_doc model : from_slice (to_vec (JObject [("model", JString model)])) = Ok (JObject [("model", JString model)]).
Proof. apply from_slice_to_vec; [by apply value_wfb_spec|repeat constructor|cbn; lia]. Qed.
Lemma probe_prepared r table model route : implements r table -> first_for model table = Some route ->
  exists p, router_prepare r (probe model) = Ok p /\ pr_upstream_name p = backend_name (mr_upstream route).
Proof.
  intros Him Hf. assert (exists p, router_prepare r (probe model) = Ok p) as [p Hp].
  { unfold router_prepare, request_model_id, rewrite_request_model. cbn [probe ur_body ur_target_route_id ur_form]. rewrite probe_doc, (bool_decide_false (to_vec (JObject [("model", JString model)]) = [])) by apply to_vec_compact.
    cbn -[route_for]. rewrite !(bool_decide_true ("model" = "model")) by done. cbn -[route_for]. assert (route_for r model = Ok route) as -> by (by apply result_ok_Some; rewrite (implements_route_for _ _ _ Him)). cbn.
    destruct (mr_streaming_usage route) as [policy|]; [|by eexists]. unfold apply_streaming_usage. destruct (negb _); [by eexists|].
    cbn [ur_body]. rewrite probe_doc. cbn. by eexists. }
  exists p. split; [done|]. destruct (prepared_route r table (probe model) p _ Him Hp (probe_doc model)) as (route' & Hch & Hn & _).
  unfold chosen in Hch. cbn -[first_for] in Hch. rewrite bool_decide_true in Hch by done. cbn -[first_for] in Hch. rewrite Hf in Hch. by injection Hch as ->.
Qed.
Lemma names_unique config cfg cfg' : NoDup (uc_name <$> config) -> cfg ∈ config -> cfg' ∈ config -> uc_name cfg = uc_name cfg' -> cfg = cfg'.
Proof.
  induction config as [|c config IH]; [by intros _ ?%elem_of_nil|]. intros [Hn Hnd]%NoDup_cons Hc Hc' Heq.
  apply elem_of_cons in Hc as [->|Hc], Hc' as [->|Hc']; [done| | |by apply IH].
  - destruct Hn. rewrite Heq. by apply list_elem_of_fmap_2.
  - destruct Hn. rewrite <- Heq. by apply list_elem_of_fmap_2.
Qed.
Lemma entry_unique cfg entry : NoDup (route_ids cfg) -> entry ∈ uc_models cfg -> model_entry cfg entry.1 = Some entry.2.
Proof.
  unfold model_entry, route_ids. generalize (uc_models cfg). intros models Hnd Hin. induction models as [|e models IH]; [by apply elem_of_nil in Hin|].
  cbn [fmap list_fmap] in Hnd. apply NoDup_cons in Hnd as [Hn Hnd]. cbn [List.find]. apply elem_of_cons in Hin as [->|Hin]; [by rewrite bool_decide_true|].
  rewrite bool_decide_false; [by apply IH|]. intros Heq. apply Hn. rewrite Heq. by apply (list_elem_of_fmap_2 (fun e => route_id_of (uc_name cfg) e.1)).
Qed.
Lemma config_ids_each config cfg : NoDup (mjoin (route_ids <$> config)) -> cfg ∈ config -> NoDup (route_ids cfg).
Proof.
  induction config as [|c config IH]; [by intros _ ?%elem_of_nil|]. intros Hnd [->|Hc]%elem_of_cons; apply NoDup_app in Hnd as (H1 & _ & H2); [done|by apply IH].
Qed.
Lemma asked_requests (s : @ConfiguredUpstreams B V) config cfg model : cu_config s = config -> NoDup (uc_name <$> config) -> cfg ∈ config ->
  routed_upstream s model = Some (uc_name cfg) ->
  forall q, q ∈ current_verification_requests s (Some model) None false <-> exists t, q = target_request t /\ provider_is_tee (uc_provider cfg) = true /\
    t ∈ verification_targets [cfg] /\
    if is_per_router (attestation_scope (uc_provider cfg)) then is_Some (model_entry cfg model) else model_entry cfg model = Some (tg_model_id t).
Proof.
  intros Hcfg Hnd Hc Hr q. unfold current_verification_requests. rewrite Hr, list_elem_of_fmap. cbn [from_option].
  split.
  - intros (t & -> & (l & Ht & (cfg' & -> & (Hc' & Hf)%list_elem_of_In%List.filter_In)%list_elem_of_fmap)%list_elem_of_join).
    rewrite andb_true_r in Hf. apply andb_true_iff in Hf as [Hte Hname%bool_decide_eq_true]. rewrite Hcfg in Hc'.
    assert (cfg' = cfg) as -> by (eapply names_unique; [done|by apply list_elem_of_In|done|done]).
    apply list_elem_of_In, List.filter_In in Ht as [Ht Hsel]. exists t. split; [done|]. split; [done|]. split; [by apply list_elem_of_In|].
    by destruct (is_per_router _); apply bool_decide_eq_true in Hsel.
  - intros (t & -> & Hte & Ht & Hsel). exists t. split; [done|]. apply list_elem_of_join. eexists. split; [|apply list_elem_of_fmap_2, list_elem_of_In, List.filter_In].
    + apply list_elem_of_In, List.filter_In. split; [by apply list_elem_of_In|]. by destruct (is_per_router _); apply bool_decide_eq_true.
    + split; [apply list_elem_of_In; by rewrite Hcfg|]. rewrite Hte, bool_decide_true by done. done.
Qed.

(** What is verified ahead of requests is what the requests will use.  Asked for a
    model, the gateway's verification requests, those its cache and its sessions are
    refreshed with, all name the upstream a client's request for that model is prepared
    for, with that upstream's origin and, unless one channel serves all its models, the very
    model id the request is sent under; and there is one whenever that upstream's provider is
    attested. *)
Theorem probes_match_requests config s model req v p :
  build_state build_provider_backend build_verifier config = Ok s ->
  (forall cfg, cfg ∈ config -> build_provider_backend cfg = Ok (backend_of cfg) /\ backend_name (backend_of cfg) = uc_name cfg) ->
  ur_target_route_id req = None -> from_slice (ur_body req) = Ok v -> get_str "model" v = Some model -> dynamic_prepare s req = Ok p ->
  exists cfg, cfg ∈ config /\ uc_name cfg = pr_upstream_name p /\
    Forall (fun q => vr_upstream_name q = pr_upstream_name p /\ vr_url_origin q = Some (trim_end_slashes (uc_base_url cfg)) /\ vr_required q = true /\
      (is_per_router (attestation_scope (uc_provider cfg)) = false -> vr_model_id q = pr_model_id p)) (current_verification_requests s (Some model) None false) /\
    (pr_is_tee p = Some true <-> current_verification_requests s (Some model) None false ≠ []).
Proof.
  intros Hs Hb Ht Hv Hm Hp. pose proof (build_state_config _ _ _ _ Hs) as (Hval & Hcfg & _). pose proof (config_accepted _ Hval) as [Hnames Hids _].
  destruct (router_implements build_provider_backend backend_of config Hval) as (r & Hr & _ & Him); [intros cfg Hc; by apply Hb|].
  assert (cu_backend s = Some r) as Hback.
  { unfold dynamic_prepare in Hp. unfold build_state in Hs. rewrite Hval in Hs. cbn [mbind result_bind] in Hs. rewrite Hr in Hs. case_bool_decide.
    - cbn [mbind result_bind] in Hs. destruct (build_verifier config); [|done]. injection Hs as <-. done.
    - cbn in Hs. destruct (build_verifier config); [|done]. by injection Hs as <-. }
  unfold dynamic_prepare in Hp. rewrite Hback in Hp. destruct (prepared_route r _ req p v Him Hp Hv) as (route & Hch & Hname & _ & Hmodel & Htee & _).
  unfold chosen in Hch. rewrite Ht, Hm in Hch. cbn [mbind option_bind] in Hch.
  pose proof (first_for_elem _ _ _ Hch) as [(cfg & entry & Hc & He & ->)%config_table_elem Hpub]. cbn [table_route mr_public_model_id] in Hpub. subst model. cbn [table_route mr_public_model_id mr_upstream mr_upstream_model_id mr_is_tee] in *.
  rewrite (proj2 (Hb cfg Hc)) in Hname. exists cfg. split; [done|]. split; [done|].
  assert (routed_upstream s entry.1 = Some (uc_name cfg)) as Hrouted.
  { unfold routed_upstream, dynamic_prepare. rewrite Hback. destruct (probe_prepared r _ entry.1 _ Him Hch) as (p' & Hp' & Hn'). unfold probe in Hp'. rewrite Hp', Hn'.
    cbn [table_route mr_upstream]. by rewrite (proj2 (Hb cfg Hc)). }
  pose proof (asked_requests s config cfg entry.1 Hcfg Hnames Hc Hrouted) as Hall. pose proof (entry_unique cfg entry (config_ids_each _ _ Hids Hc) He) as Hentry.
  rewrite Hentry in Hall. split.
  - apply Forall_forall. intros q Hq. apply Hall in Hq as (t & -> & _ & (Hn & Ho & _)%target_in & Hsel). cbn. split_and!; [by rewrite Hn|done|done|].
    intros Hrt. rewrite Hrt in Hsel. rewrite Hmodel. by injection Hsel.
  - rewrite Htee. split.
    + intros [= Hte] Hnil. set (t := mkTarget (uc_name cfg) (if is_per_router (attestation_scope (uc_provider cfg)) then default "" (head (snd <$> uc_models cfg)) else entry.2)
        (Some (trim_end_slashes (uc_base_url cfg)))).
      assert (target_request t ∈ current_verification_requests s (Some entry.1) None false) as Hin; [|by rewrite Hnil in Hin; apply elem_of_nil in Hin].
      apply Hall. exists t. split; [done|]. split; [done|]. split; [|cbn; by destruct (is_per_router _); [eexists|]].
      apply target_in. split; [done|]. split; [done|]. cbn. unfold target_models. destruct (is_per_router _); [|by apply list_elem_of_fmap_2].
      destruct (uc_models cfg); [by apply elem_of_nil in He|]. by left.
    + intros Hne. destruct (current_verification_requests s (Some entry.1) None false) as [|q l]; [done|].
      destruct (proj1 (Hall q)) as (t & _ & Hte & _); [by left|]. by rewrite Hte.
Qed.
End Probes.

Section Witness.
#[local] Existing Instances sample_json sample_sha sample_hex.
#[local] Instance provider_countable : Countable UpstreamProvider.
Proof.
  refine (inj_countable' (fun p => match p with
    | OpenAiCompatible => 0 | AnthropicApi => 1 | AciService => 2 | Chutes => 3 | Tinfoil => 4 | NearAi => 5 | SecretAi => 6
    | Privatemode => 7 | PhalaDirect => 8 | ArmetAi => 9 | ZeroGPrivateComputer => 10 end)
    (fun n => match n with
    | 0 => OpenAiCompatible | 1 => AnthropicApi | 2 => AciService | 3 => Chutes | 4 => Tinfoil | 5 => NearAi | 6 => SecretAi
    | 7 => Privatemode | 8 => PhalaDirect | 9 => ArmetAi | _ => ZeroGPrivateComputer end) _); by intros [].
Defined.
#[local] Instance usage_countable : Countable StreamingUsage.
Proof. refine (inj_countable' (fun u => match u with Final => true | Continuous => false end) (fun b : bool => if b then Final else Continuous) _); by intros []. Defined.
#[local] Instance UpstreamConfig_eq_dec : EqDecision UpstreamConfig.
Proof. solve_decision. Defined.
#[local] Instance config_countable : Countable UpstreamConfig.
Proof.
  refine (inj_countable' (fun c => match c with mkUpstreamConfig a b c d e f g h i j k l m n o p q r s t u v w x =>
      ((a, b, c, d, e, f, g, h), (i, j, k, l, m, n, o, p), (q, r, s, t, u, v, w, x)) end)
    (fun '((a, b, c, d, e, f, g, h), (i, j, k, l, m, n, o, p), (q, r, s, t, u, v, w, x)) =>
      mkUpstreamConfig a b c d e f g h i j k l m n o p q r s t u v w x) _); by intros [].
Defined.
Definition sample_print (config : list UpstreamConfig) : string := "" +:+ ":" +:+ of_bytes (pos_bits (encode config)).
Definition sample_parse (s : string) : result string (list UpstreamConfig) :=
  match as_bytes s with _ :: b => ok_or "syntax error" (decode (bits_pos b)) | [] => Err "end of input" end.
Lemma sample_parse_print config : sample_parse (sample_print config) = Ok config.
Proof.
  unfold sample_parse, sample_print. change (as_bytes _) with (u8 58 :: as_bytes (of_bytes (pos_bits (encode config)))).
  by rewrite as_bytes_of_bytes, bits_pos_bits, decode_encode.
Qed.
#[local] Instance sample_config_serde : ConfigSerde := {|
  config_to_vec config := pos_bits (encode config);
  config_to_string_pretty := sample_print;
  config_from_str := sample_parse;
  config_from_str_pretty := sample_parse_print;
  config_pretty_not_blank config := colon_not_blank "" (of_bytes (pos_bits (encode config)));
|}.
(** A parser that knows one URL. *)
#[local] Instance sample_urls : UrlParser :=
  {| parse_url s := if bool_decide (s = "https://a.example/") then Some (mkUrl "https" (Some "a.example") "" None "/" None None) else None |}.
#[local] Instance sample_backend : UpstreamBackend (string * string) := {|
  backend_world := unit;
  backend_name b := b.1;
  backend_url_origin b := Some b.2;
  backend_requires_verified_binding _ _ := false;
  backend_forward b _ w := (w, Err (Transport b.1));
  backend_forward_verified_prepared b _ _ w := (w, Err (Transport b.1));
  backend_forward_stream b _ w := (w, Err (Transport b.1));
  backend_forward_stream_verified_prepared b _ _ w := (w, Err (Transport b.1));
|}.
Definition sample_backend_of (cfg : UpstreamConfig) : string * string := (uc_name cfg, trim_end_slashes (uc_base_url cfg)).
Definition sample_build (cfg : UpstreamConfig) : result UpstreamConfigError (string * string) := Ok (sample_backend_of cfg).
Definition sample_verifier (config : list UpstreamConfig) : result UpstreamConfigError (option unit) := Ok (Some ()).
Definition sample_upstream (name : string) (provider : UpstreamProvider) (models : list (string * string)) : UpstreamConfig :=
  mkUpstreamConfig name provider "https://a.example/" None (Some Continuous) models None false None None None None None None None None None None None None None None None None.
Definition sample_config : list UpstreamConfig :=
  [sample_upstream "near" NearAi [("glm", "near-glm"); ("qwen", "near-qwen")]; sample_upstream "phala" PhalaDirect [("glm", "phala-glm"); ("kimi", "phala-kimi")]].
Example sample_config_valid : validate_config sample_config = Ok ().
Proof. by vm_compute. Qed.
Example sample_config_refused : is_ok (validate_config (sample_config ++ [sample_upstream "near" SecretAi [("m", "m")]])) = false.
Proof. by vm_compute. Qed.
Definition sample_state : @ConfiguredUpstreams (string * string) unit :=
  default (mkConfigured [] "" None None) (result_ok (build_state sample_build sample_verifier sample_config)).
Definition sample_router : ModelRouterBackend (string * string) := default (router_new "") (cu_backend sample_state).
Definition sample_body : value := JObject [("model", JString "kimi"); ("stream", JBool true); ("messages", JArray [])].
Definition sample_asked : UpstreamRequest := mkUpstreamRequest None None (to_vec sample_body) ∅ (Some "/v1/messages") None.
Definition sample_prepared_request : PreparedUpstreamRequest :=
  default (mkPrepared sample_asked "" None "" None None) (result_ok (router_prepare sample_router sample_asked)).
Lemma configured_models_are_routed_witness : exists r, build_model_router sample_build sample_config = Ok r /\
  mr_upstream_model_id <$> result_ok (route_for r "glm") = Some "near-glm" /\ length (listed_models r) = 3.
Proof.
  destruct (configured_models_are_routed sample_build sample_backend_of sample_config) as [(r & Hr & _ & _ & Hfirst & _ & _) _];
    [exact sample_config_valid|done|]. exists r. split; [exact Hr|]. split.
  - rewrite (proj2 (Hfirst "glm" (table_route sample_backend_of (sample_upstream "near" NearAi [("glm", "near-glm"); ("qwen", "near-qwen")]) ("glm", "near-glm"))));
      [reflexivity|].
    eexists [], _, _, ("glm", "near-glm"). split; [reflexivity|]. split; [constructor|]. split; [by left|]. by split.
  - vm_compute in Hr. injection Hr as <-. by vm_compute.
Defined.
Lemma installed_config_survives_restart_witness : exists m,
  load sample_build sample_verifier (mg_file m) = Ok m /\ cu_config (mg_state m) = sample_config.
Proof.
  destruct (load sample_build sample_verifier None) as [m0|] eqn:Hl; [|by vm_compute in Hl].
  destruct (installed_config_survives_restart sample_build sample_verifier None m0
    [(sample_config, true, None); ([], false, Some "disk full"); (sample_config ++ sample_config, false, None)] Hl) as (Hm & _ & _).
  eexists. split; [exact Hm|]. vm_compute in Hl. injection Hl as <-. by vm_compute.
Defined.
Lemma probes_match_requests_witness :
  Forall (fun q => vr_upstream_name q = "phala" /\ vr_model_id q = "phala-kimi") (current_verification_requests sample_state (Some "kimi") None false) /\
  current_verification_requests sample_state (Some "kimi") None false ≠ [].
Proof.
  destruct (probes_match_requests sample_build sample_verifier sample_backend_of sample_config sample_state "kimi" sample_asked sample_body sample_prepared_request)
    as (cfg & Hc & Hn & Hall & Htee); [by vm_compute|done|done|by vm_compute|done|by vm_compute|].
  split; [|by apply Htee; vm_compute].
  assert (cfg = sample_upstream "phala" PhalaDirect [("glm", "phala-glm"); ("kimi", "phala-kimi")]) as ->.
  { vm_compute in Hn. apply elem_of_cons in Hc as [->|Hc]; [done|]. by apply list_elem_of_singleton in Hc. }
  eapply Forall_impl; [exact Hall|]. intros q (H1 & _ & _ & H4). split; [by rewrite H1; vm_compute|]. rewrite H4 by done. by vm_compute.
Defined.
End Witness.
